(* ===== verification/_CoqProject ===== *)
-Q . S2P
Prelude.v
JsNumber.v
JsString.v
JsCollections.v
Protocol.v
Json.v
Ids.v
StateMachine.v
Policies.v
Budget.v
Leases.v
Blockers.v
Validation.v
Recovery.v
Mailbox.v
AgentGraph.v
AgentTopology.v
AgentTraversal.v
AgentRestore.v
Supervisor.v
StoreData.v
StoreMonad.v
StoreCore.v
StoreRuns.v
StoreTasks.v
StoreEffects.v
StoreCommands.v
StoreSafety.v
StoreCompletion.v
StoreJournal.v
StoreLeases.v
StoreOnce.v
StoreLocks.v
StoreGraph.v
StoreProblems.v
Scheduler.v
JsText.v
JsDecimal.v
OcfValue.v
OcfParse.v
OcfRoundTrip.v
OcfEqual.v
OcfDelta.v
OcfPatch.v
OcfStream.v
OcfSchema.v
Ocf.v
OcfCodec.v
OcfDemo.v
Provider.v
Engine.v
RuntimeWorld.v
MissionTools.v
DurableTools.v
Coordinator.v
TurnDemo.v
Paths.v
Git.v
GitSafety.v
Checkpoint.v
Planner.v
PlannerFacts.v
Worktree.v
WorktreeSafety.v
Sandbox.v
SandboxFacts.v
SemanticIndex.v
SemanticFacts.v
ContextCompiler.v
ContextFacts.v
Server.v
ServerFacts.v
Host.v
Client.v
ClientFacts.v
