(* ===== verification/Prelude.v ===== *)
(** * Ottili Coder: a verification development

    Ottili Coder is a coding-agent runtime written in TypeScript.  A control
    plane keeps runs, goals, tasks, agents, leases, approvals, budgets and an
    event journal in SQLite; executors lease a run, drive its agents and report
    back; a small core of pure policies (lifecycle tables, permissions,
    budgets, fencing, recovery) is shared by every package; a turn of an agent is
    a loop over a model provider and the tools it calls; context travels to the
    model in a compact text format; Git keeps the checkpoints a run can be
    restored from.  This library models these parts and proves what they promise.
    File names below are relative to [src/].

    ** The parts and where they are modelled

    - JavaScript's values.  [JsNumber]: IEEE doubles as [NaN], infinities or an
      integer count of 2^-1074, with rounding to 53 bits; [JsString]: strings of
      code units below 256, with the string methods the program calls;
      [JsCollections]: insertion-ordered [Map]s and stable sorting; [Json]: JSON
      values and the canonical text of database.ts; [JsText]: strings of full
      UTF-16 code units; [JsDecimal]: [String(number)] and [Number(string)] on
      doubles and that one undoes the other, rounding and powers.
    - [Protocol]: the enumerations and records of packages/protocol
      (contracts.ts, policy.ts) and the exceptions of packages/core/src/errors.ts;
      [Ids]: packages/protocol/src/ids.ts.
    - [StateMachine]: packages/core/src/state-machine.ts; [Policies] and
      [Budget]: packages/core/src/policies.ts (permissions, sandbox, resource
      scopes, tool recovery; usage and ceilings); [Leases]:
      packages/core/src/leases.ts; [Blockers]: packages/core/src/blockers.ts.
    - [Validation]: packages/validation (ledger, completion gate, stagnation);
      [Recovery]: packages/recovery (failure.ts, tool-recovery.ts).
    - [Mailbox]: packages/agents/src/mailbox.ts, the in-memory durable mailbox.
    - The store, packages/control-plane.  [StoreData]: one record per table of
      database.ts and the database as the record of its tables; [StoreMonad]:
      state, exceptions and transactions, the forms of SQL statement, and the
      rules by which a property of the tables is carried through a computation;
      [StoreCore]: the private helpers of store.ts (fence, journal, transitions,
      readiness, usage); [StoreRuns], [StoreTasks], [StoreEffects]: its public
      methods; [StoreCommands]: all state-changing methods as one type of
      commands and the step relation of the store, and a concrete run.
    - The agent graph, packages/agents/src/graph.ts and types.ts.  [AgentGraph]:
      the class with every operation, in a monad that keeps the state an
      exception leaves behind; [AgentTopology]: the well-formedness of the maps
      and of the spawn forest; [AgentTraversal]: the traversals and their
      termination; [AgentRestore]: snapshots and the constructor;
      [Supervisor]: capacity.ts, roles.ts and supervisor.ts over the graph and
      the mailbox, and concrete graphs.
    - [Scheduler]: packages/control-plane/src/scheduler.ts, a daemon over the
      store as a machine whose steps are the code between two awaits: the start
      of a tick, the next run of its loop, a heartbeat, the settlement of an
      execution, start and stop.
    - The context format, packages/context-format.  [OcfValue]: canonical values
      and their writer; [OcfParse]: the parser; [OcfDelta] and
      [OcfPatch]: structural deltas; [OcfSchema]: schemas and their registry;
      [Ocf]: the codec with its profiles.  [OcfRoundTrip], [OcfEqual],
      [OcfCodec] and [OcfStream] hold their theorems, [OcfDemo]
      concrete streams.
    - A turn, packages/runtime.  [Provider]: provider.ts, failover.ts and the
      classification of failures; [Engine]: tools.ts and engine.ts, the loop over
      a provider and a tool registry; [RuntimeWorld]: the world of a turn, the
      store among it; [MissionTools]: mission-tools.ts; [DurableTools] and
      [Coordinator]: coordinator.ts, the supervised tools and the whole of
      execute; [TurnDemo]: concrete turns.
    - [Paths] and [Git]: packages/workspace/src/paths.ts and git.ts, over a host
      that runs Git; [GitSafety]: their theorems; [Checkpoint]:
      packages/recovery/src/checkpoint.ts over Git, a store and the caller's hooks.
      [Worktree]: worktree.ts and the provisioner of packages/runtime/src/
      worktrees.ts; [WorktreeSafety]: their theorems.  [Sandbox]: sandbox.ts, the
      profiles of processes and what a host can enforce; [SandboxFacts]: their
      theorems.
    - What a model is told.  [Planner] and [PlannerFacts]: the estimate of tokens,
      packages/context/src/planner.ts and their theorems;
      [SemanticIndex] and [SemanticFacts]: semantic-index.ts, its overlapping
      builds as a machine; [ContextCompiler] and [ContextFacts]:
      packages/runtime/src/context.ts, over the store, the planner and ports for
      Git, the files, the map, the index and the language servers.
    - The daemon, packages/server.  [Server]: server.ts, the handler of a request
      over the store, the errors, the machine of an event stream, listening;
      [ServerFacts]: its theorems; [Host]: daemon.ts, the store, the scheduler and
      the HTTP interface as the steps of one process, with its theorems.
    - The client, packages/sdk.  [Client]: client.ts, the requests of its methods,
      what it makes of a response, and its reader of event streams;
      [ClientFacts]: the client and the server together.

    ** How the store corresponds to the code

    A method of ControlPlaneStore is a computation [M A]: it maps a store
    (tables, number of clock readings, number of random identifiers drawn) to a
    store and a result, a value or the exception thrown.  [transaction] is the
    code's: an exception restores the tables.  A row is a record with the
    columns the program reads; a table is the list of its rows in the order of
    insertion; INSERT checks primary, unique and foreign keys and throws
    [SqliteConstraint].  The clock and [randomUUID] are arbitrary sequences (the
    class [Env]); identifiers are the code's own deterministic hash, so
    collisions are possible and surface as constraint errors, as in the code.
    Timestamps are milliseconds; SELECT without ORDER BY returns table order.

    ** What the theorems show

    - Fencing ([Leases], [StoreLeases]): a replaced or expired executor's
      commands throw and change nothing, but for recordProblem and setGoalStatus,
      which ignore the lease they are given; one executor per lease generation.
    - Lifecycles ([StateMachine], [StoreSafety], [StoreGraph]): runs, goals,
      agents and tasks move only along the core's tables under all commands;
      a task is claimed by one agent.
    - Completion ([Validation], [StoreCompletion]): a run completes only through
      a proposal that passes the gate over requirements, evidence and
      validations, and the gate decides exactly that.
    - The journal ([StoreJournal]): gapless numbering and stable replay.
    - At most once ([StoreOnce]): command receipts, keyed usage, approvals,
      agent messages; [StoreLocks]: resource locks of different owners do not
      conflict; [StoreProblems]: the store blocks for a problem exactly when the
      core's blocker assessment does.
    - The daemon ([Scheduler]): whatever the executor and the timing do, the
      store only moves by its own commands; an executor is called only with a
      lease that is valid for a running run; a stale execution settles nothing;
      a failed one leaves the run with a continuation to retry.
    - The HTTP interface ([ServerFacts]): a request without the token changes
      nothing, a GET neither, any other runs at most one of five commands and none
      completes a run; a refusal left the tables as they were; a command may be
      retried; an event stream delivers every event once, in order, across
      reconnections.  ([Host]): the whole process refines its scheduler and the
      store; a pause reaches the executor before it is answered.  ([ClientFacts]):
      the client reads every event of a run once, in order, however the stream is
      chunked and chopped into connections; a command of the client that fits the
      server's limits is executed by the store, and its run or its error comes back.
    - Agents ([AgentTopology], [AgentTraversal], [AgentRestore], [Supervisor]):
      every operation, failed ones included, keeps the spawn forest well
      formed, which the constructor accepts exactly; traversals terminate and
      visit what is reachable; snapshots restore the graph; admission stays
      within capacity; messages go between live agents of one run.
    - The mailbox ([Mailbox]): its index, queues and snapshots stay consistent,
      claims are first-in first-out, and a mailbox
      rebuilt from a snapshot behaves as the one that wrote it.
    - Policies ([Policies], [Budget], [Recovery], [Blockers], [Ids]): the
      strictest permission layer decides, wildcards are globs, budgets are
      monotone and never exceeded unnoticed, unsafe tool calls are never
      retried, identifiers parse back to their kind.
    - The context format: what is written is read back, for values
      ([OcfRoundTrip]) and, with the provisos stated there, for whole streams of
      records ([OcfCodec]); equal texts are equal data ([OcfEqual]); a receiver that
      applies a sender's deltas holds the sender's value, where there is no negative
      zero ([OcfStream]); the schema registry resolves what
      it registered ([OcfSchema]).
    - Turns ([Engine], [Provider]): a turn ends within its limits, its effects
      are those of the calls its outcome lists, candidates are tried in order and
      delays are bounded.  ([MissionTools], [DurableTools], [Coordinator]): a turn
      is a sequence of store commands and supervised tool calls; a tool runs only
      when it is authorized, locked and recorded; a delegate gets no more than
      its parent; a turn ends the session it opened; a failed one is retried
      later or parks the run, unless handling the failure throws; a completion
      the gate accepted stands when the ledger has not changed meanwhile.
    - Checkpoints ([Checkpoint]): a restore takes its steps in order after a backup,
      or takes the way back and reports of each part whether it was undone.  What
      the Git service does to files is not shown to be undone: that rests on Git.
      Git ([GitSafety]): each operation runs the commands listed for it and no
      others, in the workspace and without the redirects of the caller; only
      commit and revert move the current branch, and the refs written by name are
      private; the status parser reads back what Git prints.  Paths ([Paths]): the canonical path resolves the
      deepest existing part, and the search for it ends.
    - Worktrees ([WorktreeSafety]): what is removed is a worktree Git listed, where it
      was asked for, and never the primary one; the listing of Git is read back.  The sandbox ([SandboxFacts]): being within a
      root is a prefix of names; inheritance accepts exactly the children that
      permit no more, over any chain of them, and names the parts that exceed; the modes are ordered; a profile
      moves with its workspace; enforcement is not overstated.
    - Context ([PlannerFacts]): a plan stays within its budget, does not depend on
      the order of its items, puts the fixed ones first, and cuts a content as late
      as the budget allows.  ([SemanticFacts]): a ready index is complete whatever
      overlapped, a build left alone gets there, chunks cover every line, and a
      search gives the best matches.  ([ContextFacts]): in every store reached by
      commands a turn's context is compiled, whatever the workspace does; the
      transcript is the longest end that fits.

    ** Fuel and bounds

    The conversion of a hash to base 36 and the printing of decimals use fuel;
    the width of the hash (64 bits, thirteen digits) and the number's own size
    are enough, and the round-trip theorems cover them.  The loops of the agent
    graph run on [traversal_fuel], one more than the number of agents, and
    [AgentTraversal.traversals_terminate] proves that it is enough.  The parser
    of the context format runs on the length of its text, which the round trips
    show to be enough; the digits of a double run on bounds that [JsDecimal]
    proves to be enough.  The loop of a turn runs on one more than its limit of
    calls ([Engine.turn_terminates]); the canonical path on one more than the
    length of the path ([Paths.canonicalize_terminates]); the binary search of
    the planner on one more than the number of code points
    ([PlannerFacts.truncation_longest]); the chunks of a file on the number of its
    lines ([SemanticFacts.chunks_cover_lines]).  The waits of the coordinator take
    their fuel as a parameter.  Everything else is structural recursion.

    ** Parameters

    The clock, random identifiers, [Math.random], [Date.parse], SHA-256,
    [localeCompare], [toLowerCase], the text of an exception and of a date, and for
    the HTTP interface the URL parser, percent-decoding, [JSON.parse] and [Number]
    are parameters, with the documented behaviour a theorem needs as its hypothesis.
    So are the model provider, the tools, the context compiler, the worktree
    provisioner, the process that runs Git, the file system and a caller's hooks:
    functions of a world that they may change and that the store is part of.
    [Promise.all] runs its parts one after the other and reports the first
    failure in their order.  The store's own steps of a turn run without
    interleaving; a provider, a tool or the compiler may do anything between them
    that the other commands of the store allow, and so may the tasks that run while
    the completion gate is awaited.  A method of the store is one step, since
    JavaScript runs it to its end; the few that are not transactions
    (recordDecision, addArtifact, recordGitChange, setRecoveryState, addMemoryEntry)
    are so only within a process: another one that shares the database could come
    between their statements.  A request is handled with its body already there; that
    the server awaits it, and that other requests are handled meanwhile, is not
    modelled.

    ** What is not modelled

    SQL text, JSON columns and migrations (the driver); string contents of the
    store outside Latin-1 (the context format, the workspace and the context use
    full UTF-16); paths of Windows; the Unicode tables behind [normalize],
    [toLowerCase], [localeCompare] and [\p{L}].  Project memory and the repository
    map of packages/context rest on regular expressions, one per credential or
    language, whose meaning is that of the engine that runs them; they are left
    out.  So are the sockets below the HTTP interface, the runner of child
    processes, the command line, the LSP and MCP clients, the builtin
    tools and the provider adapters, which are input and output around the parts
    above. *)

From Stdlib Require Import ZArith Lia ZifyBool.
From stdpp Require Import base strings list.

Declare Scope js_scope.
Delimit Scope js_scope with js.

(** ** Strict equality of decidable types, as a boolean *)

Notation "x '===' y" := (bool_decide (x = y)) (at level 70) : js_scope.
Notation "x '!==' y" := (negb (bool_decide (x = y))) (at level 70) : js_scope.
Open Scope js_scope.

(** ** Results: a value, or a thrown exception *)

Inductive result (E A : Type) : Type :=
| Ok (value : A)
| Throw (error : E).
Arguments Ok {E A} value.
Arguments Throw {E A} error.

(** The value of a result, or another one when it is an exception. *)
Definition result_or {E A} (otherwise : A) (r : result E A) : A :=
  match r with Ok a => a | Throw _ => otherwise end.

#[export] Instance result_eq_dec `{EqDecision E, EqDecision A} :
  EqDecision (result E A).
Proof. solve_decision. Defined.

#[export] Instance result_ret {E} : MRet (result E) := @Ok E.
#[export] Instance result_bind {E} : MBind (result E) :=
  fun _ _ f r => match r with Ok a => f a | Throw e => Throw e end.

(** [if (condition) throw error;] *)
Definition throw_if {E} (condition : bool) (error : E) : result E unit :=
  if condition then Throw error else Ok tt.

Definition is_ok {E A} (r : result E A) : bool :=
  match r with Ok _ => true | Throw _ => false end.

(** [for (const x of xs) body(x)] where the body may throw. *)
Fixpoint for_each {E A} (body : A -> result E unit) (xs : list A)
  : result E unit :=
  match xs with
  | [] => Ok tt
  | x :: rest => _ ← body x; for_each body rest
  end.

(** Optional chaining and defaults. *)
Definition or_else {A} (o : option A) (default : A) : A :=
  match o with Some a => a | None => default end.

Notation "o '??' d" := (or_else o d) (at level 60, right associativity) : js_scope.

(** ** Automation *)

Create HintDb s2p.

Ltac case_all := repeat case_match; simplify_eq/=; try done.

(** Break a successful monadic computation into its successful steps. *)
Ltac inv_ok :=
  repeat match goal with
  | H : mbind _ ?r = Ok _ |- _ =>
      let E := fresh "E" in
      destruct r eqn:E; [| by (simpl in H; discriminate H)];
      cbn [mbind result_bind] in H
  | H : (if ?b then Throw _ else _) = Ok _ |- _ =>
      let E := fresh "E" in destruct b eqn:E; [discriminate H|]
  | H : throw_if ?b _ = Ok _ |- _ =>
      unfold throw_if in H
  | H : Ok _ = Ok _ |- _ => injection H as H; subst
  | H : mret _ = Ok _ |- _ => injection H as H; subst
  | H : Throw _ = Ok _ |- _ => discriminate H
  | x : unit |- _ => destruct x
  end.

(** Boolean hypotheses to propositions. *)
Ltac bool_hyps :=
  repeat match goal with
  | H : _ && _ = true |- _ => apply andb_true_iff in H as [? ?]
  | H : _ || _ = false |- _ => apply orb_false_iff in H as [? ?]
  | H : negb _ = true |- _ => apply negb_true_iff in H
  | H : negb _ = false |- _ => apply negb_false_iff in H
  | H : bool_decide _ = true |- _ => apply bool_decide_eq_true in H
  | H : bool_decide _ = false |- _ => apply bool_decide_eq_false in H
  end.

(** ** Results *)

Lemma bind_ok {E A B} (f : A -> result E B) (r : result E A) b :
  r ≫= f = Ok b <-> exists a, r = Ok a /\ f a = Ok b.
Proof.
  destruct r as [a|e]; cbn; split; [eauto | by intros (? & [= ->] & ?) | done |].
  by intros (? & ? & ?).
Qed.

(** A statement before the rest of a body. *)
Lemma seq_ok {E B} (r : result E unit) (rest : result E B) b :
  (_ ← r; rest) = Ok b <-> r = Ok tt /\ rest = Ok b.
Proof. rewrite bind_ok. split; [by intros ([] & ? & ?)|intros [? ?]; by exists tt]. Qed.

Lemma throw_if_ok {E} c (e : E) u : throw_if c e = Ok u <-> c = false.
Proof. by destruct u, c. Qed.

(** A mapping that may throw. *)
Lemma mapM_Forall2 {E A B} (f : A -> result E B) l r :
  mapM f l = Ok r <-> Forall2 (fun x y => f x = Ok y) l r.
Proof.
  revert r. induction l as [|x l IH]; intros r.
  - split; [by intros [= <-]|by inversion 1].
  - split.
    + intros H. apply bind_ok in H as (y & Hy & H). apply bind_ok in H as (ys & Hys & [= <-]).
      constructor; [done|]. by apply IH.
    + intros H. apply Forall2_cons_inv_l in H as (y & ys & Hy & Hys & ->). cbn. rewrite Hy. cbn.
      apply IH in Hys. by rewrite Hys.
Qed.

Lemma for_each_ok {E A} (body : A -> result E unit) xs u :
  for_each body xs = Ok u <-> Forall (fun x => body x = Ok tt) xs.
Proof.
  destruct u. induction xs as [|x xs IH]; simpl.
  { split; auto. }
  rewrite bind_ok, Forall_cons, <- IH.
  split; [intros ([] & ? & ?) | intros [? ?]]; eauto.
Qed.

(** ** Lists with boolean predicates ([Array.filter], [some], [every]) *)

Lemma elem_of_list_filter {A} (f : A -> bool) (l : list A) x :
  x ∈ List.filter f l <-> x ∈ l /\ f x = true.
Proof. rewrite !list_elem_of_In. apply filter_In. Qed.

Lemma existsb_elem {A} (f : A -> bool) l :
  existsb f l = true <-> exists x, x ∈ l /\ f x = true.
Proof. rewrite existsb_exists. by setoid_rewrite list_elem_of_In. Qed.

Lemma forallb_elem {A} (f : A -> bool) l :
  forallb f l = true <-> forall x, x ∈ l -> f x = true.
Proof. rewrite forallb_forall. by setoid_rewrite list_elem_of_In. Qed.

Lemma existsb_false {A} (f : A -> bool) l :
  existsb f l = false <-> forall x, x ∈ l -> f x = false.
Proof.
  rewrite <- not_true_iff_false, existsb_elem. split.
  - intros H x Hx. apply not_true_iff_false. eauto.
  - intros H (x & Hx & Hf). rewrite H in Hf; done.
Qed.

Lemma forallb_ext_Forall {A} (f g : A -> bool) l :
  Forall (fun x => f x = g x) l -> forallb f l = forallb g l.
Proof. induction 1 as [|x l Hx _ IH]; simpl; [done|]. by rewrite Hx, IH. Qed.

Lemma length_filter_le {A} (f : A -> bool) l : length (List.filter f l) <= length l.
Proof. induction l as [|x l IH]; simpl; [done|]. destruct (f x); simpl; lia. Qed.

Lemma filter_nil_iff {A} (f : A -> bool) l :
  List.filter f l = [] <-> forall x, x ∈ l -> f x = false.
Proof.
  split.
  - intros H x Hx. destruct (f x) eqn:E; [|done].
    assert (x ∈ List.filter f l) as Hin by (by apply elem_of_list_filter).
    rewrite H in Hin. by apply not_elem_of_nil in Hin.
  - intros H. destruct (List.filter f l) as [|x r] eqn:E; [done|].
    assert (x ∈ List.filter f l) as Hx by (rewrite E; apply list_elem_of_here).
    apply elem_of_list_filter in Hx as [Hx Hf]. by rewrite H in Hf.
Qed.

Lemma NoDup_filter_b {A} (f : A -> bool) (l : list A) :
  NoDup l -> NoDup (List.filter f l).
Proof. rewrite !NoDup_ListNoDup. apply List.NoDup_filter. Qed.

Lemma Forall_filter_b {A} (P : A -> Prop) (f : A -> bool) l :
  Forall P l -> Forall P (List.filter f l).
Proof.
  rewrite !Forall_forall. intros H x Hx.
  apply elem_of_list_filter in Hx as [Hx _]. auto.
Qed.

Lemma NoDup_map_filter {A B} (key : A -> B) (f : A -> bool) l :
  NoDup (map key l) -> NoDup (map key (List.filter f l)).
Proof.
  induction l as [|x l IH]; [done|]. cbn [map List.filter].
  rewrite NoDup_cons. intros [Hx Hn]. destruct (f x); [|auto]. cbn [map].
  constructor; [|auto]. intros (y & Hy & [Hin _]%elem_of_list_filter)%list_elem_of_fmap.
  apply Hx, list_elem_of_fmap. eauto.
Qed.

Lemma elem_of_rev {A} (l : list A) x : x ∈ rev l <-> x ∈ l.
Proof. by rewrite !list_elem_of_In, <- in_rev. Qed.

(** Elements with distinct keys are determined by their key. *)
Lemma NoDup_map_inj {A B} (f : A -> B) l x y :
  NoDup (map f l) -> x ∈ l -> y ∈ l -> f x = f y -> x = y.
Proof.
  induction l as [|a l IH]; [by intros _ H%not_elem_of_nil|]. cbn [map].
  rewrite NoDup_cons. intros [Ha Hn] [->|Hx]%elem_of_cons [->|Hy]%elem_of_cons Hf;
    [done| | |auto]; destruct Ha; apply list_elem_of_fmap; eauto.
Qed.

Lemma filter_map_b {A} (f h : A -> bool) (g : A -> A) l :
  (forall x, x ∈ l -> f (g x) = h x) -> (forall x, x ∈ l -> h x = true -> g x = x) ->
  List.filter f (map g l) = List.filter h l.
Proof.
  induction l as [|a l IH]; intros Hf Hg; [done|]. cbn [map List.filter].
  rewrite Hf, IH by auto using list_elem_of_here, list_elem_of_further.
  destruct (h a) eqn:E; [|done]. by rewrite Hg by auto using list_elem_of_here.
Qed.

Lemma filter_ext_b {A} (f g : A -> bool) l :
  (forall x, x ∈ l -> f x = g x) -> List.filter f l = List.filter g l.
Proof. intros H. apply filter_ext_in. intros x Hx. apply H. by apply list_elem_of_In. Qed.

Lemma filter_true_b {A} (f : A -> bool) l :
  (forall x, x ∈ l -> f x = true) -> List.filter f l = l.
Proof.
  induction l as [|a l IH]; intros H; [done|]. cbn [List.filter].
  rewrite H, IH by auto using list_elem_of_here, list_elem_of_further. done.
Qed.

Lemma filter_andb {A} (f g : A -> bool) l :
  List.filter (fun x => f x && g x) l = List.filter g (List.filter f l).
Proof.
  induction l as [|a l IH]; [done|]. cbn [List.filter].
  destruct (f a); cbn [andb List.filter]; by rewrite IH.
Qed.

(** Dropping the members of a prefix leaves the rest. *)
Lemma filter_skipn {A B} `{EqDecision B} (key : A -> B) n l :
  NoDup (map key l) ->
  List.filter (fun x => negb (existsb (fun y => key y === key x) (firstn n l))) l = skipn n l.
Proof.
  revert l. induction n as [|n IH]; intros l Hn.
  { apply filter_true_b. done. }
  destruct l as [|a l]; [done|]. cbn [map] in Hn. apply NoDup_cons in Hn as [Ha Hn].
  cbn [firstn skipn List.filter existsb].
  rewrite bool_decide_eq_true_2 by done. cbn [orb negb].
  rewrite <- (IH l Hn). apply filter_ext_b. intros x Hx.
  rewrite bool_decide_eq_false_2; [done|]. intros Heq. apply Ha. rewrite Heq.
  apply list_elem_of_fmap. eauto.
Qed.

#[export] Hint Resolve NoDup_filter_b Forall_filter_b : s2p.
