(* ===== verification/JsNumber.v ===== *)
(** JavaScript numbers: IEEE 754 binary64 values with exact rounding.

    Every finite binary64 value is an integer multiple of 2^-1074, so a finite
    number is represented by that integer ([Fin z] stands for z * 2^-1074).
    [rnd] is round-to-nearest, ties-to-even, to 53 significant bits; a rounded
    magnitude of at least 2^1024 overflows to an infinity.  The two zeros are
    identified: the program never observes the sign of a zero. *)

From Stdlib Require Import ZArith Lia ZifyBool.
From stdpp Require Import base numbers list.
From S2P Require Import Prelude.

#[local] Open Scope Z_scope.

Inductive num : Type :=
| NaN
| PInf
| NInf
| Fin (z : Z).

#[export] Instance num_eq_dec : EqDecision num.
Proof. solve_decision. Defined.

(** ** Rounding *)

Definition unit_bits : Z := 1074.
Definition one_units : Z := 2 ^ unit_bits.
Definition overflow_units : Z := 2 ^ (1024 + unit_bits).

(** Nearest multiple, ties to even: the quotient. *)
Definition rne (a d : Z) : Z :=
  let q := a / d in
  let r := a mod d in
  if 2 * r <? d then q
  else if d <? 2 * r then q + 1
  else if Z.even q then q else q + 1.

Definition excess_bits (z : Z) : Z := Z.max 0 (Z.log2 z - 52).

Definition round_abs (z : Z) : Z :=
  rne z (2 ^ excess_bits z) * 2 ^ excess_bits z.

Definition rnd (z : Z) : Z :=
  if z <? 0 then - round_abs (- z) else round_abs z.

Definition normalise (z : Z) : num :=
  let r := rnd z in
  if overflow_units <=? r then PInf
  else if r <=? - overflow_units then NInf
  else Fin r.

(** ** The operators the program uses *)

Definition ofZ (n : Z) : num := Fin (n * one_units).

Definition js_add (a b : num) : num :=
  match a, b with
  | NaN, _ | _, NaN => NaN
  | PInf, NInf | NInf, PInf => NaN
  | PInf, _ | _, PInf => PInf
  | NInf, _ | _, NInf => NInf
  | Fin x, Fin y => normalise (x + y)
  end.

Definition js_neg (a : num) : num :=
  match a with
  | NaN => NaN | PInf => NInf | NInf => PInf | Fin x => Fin (- x)
  end.

Definition js_sub (a b : num) : num := js_add a (js_neg b).

(** [a < b]; any comparison with NaN is false. *)
Definition js_lt (a b : num) : bool :=
  match a, b with
  | NaN, _ | _, NaN => false
  | NInf, NInf => false
  | NInf, _ => true
  | _, NInf => false
  | PInf, _ => false
  | _, PInf => true
  | Fin x, Fin y => x <? y
  end.

Definition js_eq (a b : num) : bool :=
  match a, b with
  | PInf, PInf | NInf, NInf => true
  | Fin x, Fin y => x =? y
  | _, _ => false
  end.

Definition js_le (a b : num) : bool := js_lt a b || js_eq a b.

(** [Math.max(a, b)]. *)
Definition math_max (a b : num) : num :=
  match a, b with
  | NaN, _ | _, NaN => NaN
  | _, _ => if js_lt a b then b else a
  end.

Definition isFinite (a : num) : bool :=
  match a with Fin _ => true | _ => false end.

Definition isInteger (a : num) : bool :=
  match a with Fin z => z mod one_units =? 0 | _ => false end.

Definition isSafeInteger (a : num) : bool :=
  match a with
  | Fin z => (z mod one_units =? 0) && (Z.abs z <=? (2 ^ 53 - 1) * one_units)
  | _ => false
  end.

(** The value of an integral number. *)
Definition toZ (a : num) : Z :=
  match a with Fin z => z / one_units | _ => 0 end.

(** A binary64 value: what a JavaScript program can hold. *)
Definition representable (a : num) : Prop :=
  match a with
  | Fin z => rnd z = z /\ Z.abs z < overflow_units
  | _ => True
  end.

(** ** Facts about rounding *)

Lemma one_units_pos : 0 < one_units.
Proof. by apply Z.pow_pos_nonneg. Qed.

Lemma overflow_units_pos : 0 < overflow_units.
Proof. by apply Z.pow_pos_nonneg. Qed.

Lemma rne_bounds a d : 0 < d -> a / d <= rne a d <= a / d + 1.
Proof. intros Hd. unfold rne. repeat case_match; lia. Qed.

Lemma rne_mono a b d : 0 < d -> a <= b -> rne a d <= rne b d.
Proof.
  intros Hd Hab.
  pose proof (rne_bounds a d Hd). pose proof (rne_bounds b d Hd).
  pose proof (Z.div_le_mono a b d Hd Hab).
  destruct (decide (a / d = b / d)) as [Hq|Hq]; [|lia].
  assert (a mod d <= b mod d).
  { pose proof (Z.div_mod a d). pose proof (Z.div_mod b d). nia. }
  unfold rne in *. rewrite Hq in *. repeat case_match; lia.
Qed.

Lemma rne_exact q d : 0 < d -> rne (q * d) d = q.
Proof.
  intros Hd. unfold rne. rewrite Z.div_mul, Z.mod_mul by lia.
  destruct (Z.ltb_spec (2 * 0) d); lia.
Qed.

Lemma excess_bits_nonneg z : 0 <= excess_bits z.
Proof. unfold excess_bits. lia. Qed.

Lemma excess_pow_pos z : 0 < 2 ^ excess_bits z.
Proof. apply Z.pow_pos_nonneg; [lia | apply excess_bits_nonneg]. Qed.

Lemma excess_bits_log2 z : 0 < z -> excess_bits z <= Z.log2 z.
Proof. intros. unfold excess_bits. pose proof (Z.log2_nonneg z). lia. Qed.

(** A power of two between the granularity and [z] is a grid point. *)
Lemma round_abs_pow2 z k :
  0 < z -> excess_bits z <= k ->
  rne (2 ^ k) (2 ^ excess_bits z) * 2 ^ excess_bits z = 2 ^ k.
Proof.
  intros Hz Hk. pose proof (excess_bits_nonneg z).
  replace (2 ^ k) with (2 ^ (k - excess_bits z) * 2 ^ excess_bits z) at 1
    by (rewrite <- Z.pow_add_r by lia; f_equal; lia).
  rewrite rne_exact by apply excess_pow_pos.
  rewrite <- Z.pow_add_r by lia. f_equal. lia.
Qed.

Lemma round_abs_binade z :
  0 < z -> 2 ^ Z.log2 z <= round_abs z <= 2 ^ (Z.log2 z + 1).
Proof.
  intros Hz. pose proof (Z.log2_spec z Hz) as [Hlo Hhi].
  pose proof (excess_pow_pos z). pose proof (excess_bits_log2 z Hz).
  unfold round_abs. split.
  - rewrite <- (round_abs_pow2 z (Z.log2 z)) at 1 by lia.
    apply Z.mul_le_mono_nonneg_r; [lia|]. by apply rne_mono.
  - rewrite <- (round_abs_pow2 z (Z.log2 z + 1)) by lia.
    apply Z.mul_le_mono_nonneg_r; [lia|]. apply rne_mono; lia.
Qed.

Lemma round_abs_0 : round_abs 0 = 0.
Proof. reflexivity. Qed.

Lemma round_abs_nonneg z : 0 <= z -> 0 <= round_abs z.
Proof.
  intros Hz. destruct (decide (z = 0)) as [->|]; [by rewrite round_abs_0|].
  pose proof (round_abs_binade z ltac:(lia)).
  pose proof (Z.pow_nonneg 2 (Z.log2 z)). lia.
Qed.

Lemma round_abs_pos z : 0 < z -> 0 < round_abs z.
Proof.
  intros Hz. pose proof (round_abs_binade z Hz).
  pose proof (Z.pow_pos_nonneg 2 (Z.log2 z) ltac:(lia) (Z.log2_nonneg z)). lia.
Qed.

Lemma round_abs_mono a b : 0 <= a -> a <= b -> round_abs a <= round_abs b.
Proof.
  intros Ha Hab. destruct (decide (a = 0)) as [->|].
  { rewrite round_abs_0. apply round_abs_nonneg. lia. }
  pose proof (Z.log2_le_mono a b Hab) as Hlog.
  destruct (decide (Z.log2 a = Z.log2 b)) as [Heq|Hne].
  - unfold round_abs, excess_bits. rewrite Heq.
    apply Z.mul_le_mono_nonneg_r; [apply Z.pow_nonneg; lia|].
    apply rne_mono; [apply Z.pow_pos_nonneg; lia | done].
  - pose proof (round_abs_binade a ltac:(lia)).
    pose proof (round_abs_binade b ltac:(lia)).
    pose proof (Z.pow_le_mono_r 2 (Z.log2 a + 1) (Z.log2 b)). lia.
Qed.

Lemma rnd_0 : rnd 0 = 0.
Proof. reflexivity. Qed.

Lemma rnd_opp z : rnd (- z) = - rnd z.
Proof.
  unfold rnd. destruct (Z.ltb_spec z 0), (Z.ltb_spec (- z) 0); try lia.
  - by rewrite Z.opp_involutive.
  - replace z with 0 by lia. reflexivity.
Qed.

Lemma rnd_mono a b : a <= b -> rnd a <= rnd b.
Proof.
  intros Hab. unfold rnd.
  destruct (Z.ltb_spec a 0), (Z.ltb_spec b 0); try lia.
  - pose proof (round_abs_mono (- b) (- a)). lia.
  - pose proof (round_abs_nonneg (- a)). pose proof (round_abs_nonneg b). lia.
  - apply round_abs_mono; lia.
Qed.

Lemma rnd_pos z : 0 < z -> 0 < rnd z.
Proof.
  intros Hz. unfold rnd. destruct (Z.ltb_spec z 0); [lia|].
  by apply round_abs_pos.
Qed.

(** Rounding never changes the sign: the key fact behind every limit test
    of the form [maximum - used <= 0]. *)
Lemma rnd_nonpos z : rnd z <= 0 <-> z <= 0.
Proof.
  split; intros H.
  - destruct (Z.le_gt_cases z 0); [done|]. pose proof (rnd_pos z). lia.
  - rewrite <- rnd_0. by apply rnd_mono.
Qed.

Lemma rnd_nonneg z : 0 <= z -> 0 <= rnd z.
Proof. intros. rewrite <- rnd_0. by apply rnd_mono. Qed.

Lemma rnd_neg z : z < 0 -> rnd z < 0.
Proof. intros. pose proof (rnd_pos (- z)). rewrite rnd_opp in *. lia. Qed.

(** Integers of at most 53 bits are exact. *)
Lemma rnd_small z : Z.abs z < 2 ^ 53 -> rnd z = z.
Proof.
  assert (forall y, 0 <= y < 2 ^ 53 -> round_abs y = y) as Hsmall.
  { intros y Hy. unfold round_abs.
    assert (excess_bits y = 0) as ->.
    { unfold excess_bits. destruct (decide (y = 0)) as [->|]; [done|].
      pose proof (Z.log2_lt_pow2 y 53). lia. }
    rewrite <- (Z.mul_1_r y) at 1. change (2 ^ 0) with 1.
    rewrite rne_exact; lia. }
  intros Hz. unfold rnd. destruct (Z.ltb_spec z 0); rewrite Hsmall; lia.
Qed.

(** ** Facts about the operators *)

Lemma normalise_nonneg z : 0 <= z -> js_le (Fin 0) (normalise z) = true.
Proof.
  intros Hz. pose proof (rnd_nonneg z Hz). pose proof overflow_units_pos.
  unfold normalise, js_le. repeat case_match; cbn [js_lt js_eq]; try done; lia.
Qed.

Lemma js_sub_nonpos a b :
  isFinite a = true -> isFinite b = true ->
  js_le (js_sub a b) (Fin 0) = js_le a b.
Proof.
  destruct a as [| | |x], b as [| | |y]; try done. intros _ _.
  unfold js_sub, js_neg, js_add, normalise, js_le.
  pose proof overflow_units_pos.
  pose proof (rnd_nonpos (x + - y)).
  repeat case_match; cbn [js_lt js_eq]; try done; lia.
Qed.

Lemma js_le_refl a : a <> NaN -> js_le a a = true.
Proof. destruct a; unfold js_le; cbn [js_lt js_eq]; try done; lia. Qed.

Lemma js_le_trans a b c :
  js_le a b = true -> js_le b c = true -> js_le a c = true.
Proof. destruct a, b, c; unfold js_le; cbn [js_lt js_eq]; try done; lia. Qed.

Lemma js_lt_not_le a b :
  a <> NaN -> b <> NaN -> js_lt a b = negb (js_le b a).
Proof. destruct a, b; unfold js_le; cbn [js_lt js_eq]; try done; lia. Qed.

(** Adding a non-negative finite amount never lowers a binary64 value. *)
Lemma js_add_increases a b :
  representable a -> isFinite a = true ->
  isFinite b = true -> js_le (Fin 0) b = true ->
  js_le a (js_add a b) = true.
Proof.
  destruct a as [| | |x], b as [| | |y]; try done. simpl.
  intros [Hx Hov] _ _ Hy. unfold js_le in Hy; cbn [js_lt js_eq] in Hy.
  pose proof (rnd_mono x (x + y) ltac:(lia)) as Hm. rewrite Hx in Hm.
  pose proof overflow_units_pos.
  unfold normalise, js_le. repeat case_match; cbn [js_lt js_eq]; try done; lia.
Qed.

Lemma js_add_nonneg a b :
  isFinite a = true -> isFinite b = true ->
  js_le (Fin 0) a = true -> js_le (Fin 0) b = true ->
  js_le (Fin 0) (js_add a b) = true.
Proof.
  destruct a as [| | |x], b as [| | |y]; try done. intros _ _ Ha Hb.
  apply normalise_nonneg. unfold js_le in *; cbn [js_lt js_eq] in *. lia.
Qed.

(** Addition of safe integers is exact as long as the sum is safe. *)
Lemma js_add_0_r a : representable a -> js_add a (Fin 0) = a.
Proof.
  destruct a as [| | |x]; simpl; try done. intros [Hx Hov].
  rewrite Z.add_0_r. unfold normalise. rewrite Hx.
  repeat case_match; try done; lia.
Qed.

(** ** Exact integer arithmetic below 2^53 *)

Lemma round_abs_exact m k :
  0 <= k -> 0 <= m < 2 ^ 53 -> round_abs (m * 2 ^ k) = m * 2 ^ k.
Proof.
  intros Hk Hm. destruct (decide (m = 0)) as [->|Hm0]; [done|].
  pose proof (Z.pow_pos_nonneg 2 k ltac:(lia) Hk).
  assert (Z.log2 (m * 2 ^ k) = Z.log2 m + k) as Hlog
    by (rewrite Z.log2_mul_pow2 by lia; lia).
  pose proof (Z.log2_lt_pow2 m 53 ltac:(lia)).
  unfold round_abs. set (e := excess_bits (m * 2 ^ k)).
  assert (0 <= e <= k) as He by (unfold e, excess_bits; lia).
  replace (m * 2 ^ k) with (m * 2 ^ (k - e) * 2 ^ e) at 1 2.
  2: { rewrite <- Z.mul_assoc, <- Z.pow_add_r by lia.
  by replace (k - e + e) with k by lia. }
  rewrite rne_exact by (apply Z.pow_pos_nonneg; lia).
  rewrite <- Z.mul_assoc, <- Z.pow_add_r by lia.
  by replace (k - e + e) with k by lia.
Qed.

Lemma rnd_ofZ n : Z.abs n < 2 ^ 53 -> rnd (n * one_units) = n * one_units.
Proof.
  assert (forall m, 0 <= m < 2 ^ 53 -> rnd (m * one_units) = m * one_units) as Hpos.
  { intros m Hm. unfold rnd. pose proof one_units_pos.
    destruct (Z.ltb_spec (m * one_units) 0); [nia|].
    by apply round_abs_exact. }
  intros Hn. destruct (Z.le_gt_cases 0 n); [apply Hpos; lia|].
  pose proof (Hpos (- n) ltac:(lia)) as H'.
  rewrite Z.mul_opp_l, rnd_opp in H'. lia.
Qed.

Lemma ofZ_small n : Z.abs n < 2 ^ 53 -> Z.abs (n * one_units) < overflow_units.
Proof.
  intros Hn. unfold overflow_units, one_units.
  rewrite Z.pow_add_r by (unfold unit_bits; lia).
  rewrite Z.abs_mul, (Z.abs_eq (2 ^ unit_bits)) by (apply Z.pow_nonneg; lia).
  pose proof one_units_pos. unfold one_units in *.
  apply Z.mul_lt_mono_pos_r; [done|].
  eapply Z.lt_trans; [exact Hn|]. apply Z.pow_lt_mono_r; lia.
Qed.

Lemma representable_ofZ n : Z.abs n < 2 ^ 53 -> representable (ofZ n).
Proof. intros Hn. split; [by apply rnd_ofZ | by apply ofZ_small]. Qed.

Lemma js_add_ofZ a b :
  Z.abs (a + b) < 2 ^ 53 -> js_add (ofZ a) (ofZ b) = ofZ (a + b).
Proof.
  intros H. unfold ofZ, js_add. rewrite <- Z.mul_add_distr_r.
  unfold normalise. rewrite rnd_ofZ by done. pose proof (ofZ_small _ H).
  repeat case_match; try done; lia.
Qed.

Lemma js_lt_ofZ a b : js_lt (ofZ a) (ofZ b) = (a <? b).
Proof. cbn [js_lt ofZ]. pose proof one_units_pos. nia. Qed.

Lemma js_eq_ofZ a b : js_eq (ofZ a) (ofZ b) = (a =? b).
Proof. cbn [js_eq ofZ]. pose proof one_units_pos. nia. Qed.

Lemma js_le_ofZ a b : js_le (ofZ a) (ofZ b) = (a <=? b).
Proof. unfold js_le. rewrite js_lt_ofZ, js_eq_ofZ. lia. Qed.

Lemma toZ_ofZ n : toZ (ofZ n) = n.
Proof. cbn [toZ ofZ]. apply Z.div_mul. pose proof one_units_pos. lia. Qed.

Lemma isSafeInteger_ofZ n : Z.abs n < 2 ^ 53 -> isSafeInteger (ofZ n) = true.
Proof.
  intros Hn. cbn [isSafeInteger ofZ]. pose proof one_units_pos.
  rewrite Z.mod_mul by lia. rewrite Z.abs_mul, (Z.abs_eq one_units) by lia. nia.
Qed.

Lemma safe_integer_ofZ v : isSafeInteger v = true -> v = ofZ (toZ v).
Proof.
  destruct v as [| | |z]; try done. cbn [isSafeInteger toZ]. intros H.
  unfold ofZ. f_equal. pose proof (Z.div_mod z one_units). lia.
Qed.
