(* ===== verification/JsString.v ===== *)
(** JavaScript strings and the string operations the program uses.

    A string is a sequence of UTF-16 code units; the model covers the code
    units below 256, one [ascii] each.  Every operation is exact on that range:
    [trim] removes the white space and line terminators of the range,
    [toLowerCase] maps its upper-case letters, and a regular-expression dot
    excludes its two line terminators. *)

From Stdlib Require Import DecimalString DecimalZ.
From Stdlib Require Import ZArith Lia Ascii String.
From stdpp Require Import base strings list.
From S2P Require Import Prelude.

Open Scope string_scope.
Open Scope list_scope.

Definition code (c : ascii) : Z := Z.of_nat (nat_of_ascii c).
Definition units (s : string) : list ascii := list_ascii_of_string s.
Definition of_units (l : list ascii) : string := string_of_list_ascii l.

Definition string_length (s : string) : Z := Z.of_nat (String.length s).

(** Code units 9-13, 32 and 160. *)
Definition is_space (c : ascii) : bool :=
  let n := code c in
  ((9 <=? n) && (n <=? 13) || (n =? 32) || (n =? 160))%Z.

Fixpoint drop_space (l : list ascii) : list ascii :=
  match l with
  | [] => []
  | c :: r => if is_space c then drop_space r else l
  end.

(** [s.trim()]. *)
Definition trim (s : string) : string :=
  of_units (rev (drop_space (rev (drop_space (units s))))).

(** [s.trim().length === 0]. *)
Definition is_blank (s : string) : bool := trim s === "".

(** A-Z, and the accented capitals 192-222 except the multiplication sign. *)
Definition lower_unit (c : ascii) : ascii :=
  let n := code c in
  if ((65 <=? n) && (n <=? 90) || (192 <=? n) && (n <=? 222) && negb (n =? 215))%Z
  then ascii_of_nat (Z.to_nat (n + 32)) else c.

Definition toLowerCase (s : string) : string := of_units (map lower_unit (units s)).

(** [s.startsWith(p)]. *)
Definition startsWith (s p : string) : bool := String.prefix p s.

(** [s.includes(needle)]. *)
Fixpoint includes (s needle : string) : bool :=
  String.prefix needle s ||
  match s with
  | EmptyString => false
  | String _ r => includes r needle
  end.

(** [parts.join(separator)]. *)
Fixpoint join (separator : string) (parts : list string) : string :=
  match parts with
  | [] => ""
  | [p] => p
  | p :: r => p +:+ separator +:+ join separator r
  end.

(** [s.endsWith("/") ? s.slice(0, -1) : s] on code units. *)
Definition strip_trailing (c : ascii) (s : string) : string :=
  match rev (units s) with
  | x :: r => if x === c then of_units (rev r) else s
  | [] => s
  end.

(** ** Lemmas *)

Lemma units_of_units l : units (of_units l) = l.
Proof. apply list_ascii_of_string_of_list_ascii. Qed.

Lemma of_units_units s : of_units (units s) = s.
Proof. apply string_of_list_ascii_of_string. Qed.

Lemma units_app a b : units (a +:+ b) = units a ++ units b.
Proof. induction a as [|c a IH]; simpl; [done|]. f_equal. apply IH. Qed.

Lemma units_inj a b : units a = units b -> a = b.
Proof. intros H. by rewrite <- (of_units_units a), H, of_units_units. Qed.

Lemma prefix_spec p s : String.prefix p s = true <-> exists t, s = p +:+ t.
Proof.
  revert s. induction p as [|c p IH]; intros s; simpl.
  { split; eauto. intros _. by destruct s. }
  destruct s as [|d s]; simpl.
  { split; [done|]. intros [t [=]]. }
  destruct (ascii_dec c d) as [->|Hne].
  - rewrite IH. split; intros [t Ht]; exists t; [by rewrite Ht | by injection Ht].
  - split; [done|]. intros [t [= ? ?]]. congruence.
Qed.

Lemma startsWith_spec s p : startsWith s p = true <-> exists t, s = p +:+ t.
Proof. apply prefix_spec. Qed.

(** ** Wildcard patterns through regular expressions

    [wildcardMatches] builds a regular expression in three textual steps; the
    model performs the same steps and then runs a backtracking matcher on the
    resulting expression, whose syntax is limited to escaped units, plain
    units, [.] and the starred dot. *)

Definition regex_special (c : ascii) : bool :=
  existsb (fun d => c === d)
    ["."; "*"; "+"; "?"; "^"; "$"; "{"; "}"; "("; ")"; "|"; "["; "]"; "\"]%char.

(** [.replace(/[.*+?^${}()|[\]\\]/g, "\\$&")]. *)
Fixpoint escape_units (l : list ascii) : list ascii :=
  match l with
  | [] => []
  | c :: r =>
      if regex_special c then "\"%char :: c :: escape_units r
      else c :: escape_units r
  end.

(** [.replaceAll("\\*", ".*")]. *)
Fixpoint replace_star (l : list ascii) : list ascii :=
  match l with
  | "\"%char :: "*"%char :: r => "."%char :: "*"%char :: replace_star r
  | c :: r => c :: replace_star r
  | [] => []
  end.

Inductive atom : Type :=
| Lit (c : ascii)      (* a plain or escaped unit *)
| Dot                  (* . *)
| DigitOrLower         (* [0-9a-z] *)
| DotStar.             (* .* *)

(** The regular-expression parser, for the syntax the two steps produce. *)
Fixpoint parse_regex (l : list ascii) : list atom :=
  match l with
  | "\"%char :: c :: r => Lit c :: parse_regex r
  | "."%char :: "*"%char :: r => DotStar :: parse_regex r
  | "."%char :: r => Dot :: parse_regex r
  | c :: r => Lit c :: parse_regex r
  | [] => []
  end.

(** Units a dot matches: everything but the line terminators. *)
Definition dot_unit (c : ascii) : bool :=
  negb ((code c =? 10) || (code c =? 13))%Z.

(** Units the class [[0-9a-z]] matches. *)
Definition digit_or_lower (c : ascii) : bool :=
  ((48 <=? code c) && (code c <=? 57) || (97 <=? code c) && (code c <=? 122))%Z.

(** [new RegExp(`^...$`).test(value)]. *)
Fixpoint match_atoms (p : list atom) (v : list ascii) : bool :=
  match p with
  | [] => match v with [] => true | _ => false end
  | Lit c :: p' =>
      match v with x :: v' => (x === c) && match_atoms p' v' | [] => false end
  | Dot :: p' =>
      match v with x :: v' => dot_unit x && match_atoms p' v' | [] => false end
  | DigitOrLower :: p' =>
      match v with x :: v' => digit_or_lower x && match_atoms p' v' | [] => false end
  | DotStar :: p' =>
      (fix star (v : list ascii) : bool :=
         match_atoms p' v ||
         match v with x :: v' => dot_unit x && star v' | [] => false end) v
  end.

Definition wildcard_regex (pattern : string) : list atom :=
  parse_regex (replace_star (escape_units (units pattern))).

(** The intended reading: [*] stands for any run of units other than line
    terminators, every other unit for itself. *)
Inductive glob : list ascii -> list ascii -> Prop :=
| glob_nil : glob [] []
| glob_unit c p v : c ≠ "*"%char -> glob p v -> glob (c :: p) (c :: v)
| glob_star p run v :
    Forall (fun c => dot_unit c = true) run ->
    glob p v -> glob ("*"%char :: p) (run ++ v).

Definition atom_of (c : ascii) : atom :=
  if c === "*"%char then DotStar else Lit c.

Lemma escape_units_head l r : escape_units l <> "*"%char :: r.
Proof.
  destruct l as [|c l]; simpl; [done|].
  destruct (regex_special c) eqn:E; [done|]. intros [= -> _]. by vm_compute in E.
Qed.

Lemma replace_star_backslash l :
  (forall r, l <> "*"%char :: r) ->
  replace_star ("\"%char :: l) = "\"%char :: replace_star l.
Proof.
  destruct l as [|c l]; [done|]. intros H.
  destruct (decide (c = "*"%char)) as [->|Hc]; [by destruct (H l)|].
  destruct c as [[] [] [] [] [] [] [] []]; done.
Qed.

Lemma replace_star_cons c l :
  c <> "\"%char -> replace_star (c :: l) = c :: replace_star l.
Proof. intros Hc. destruct c as [[] [] [] [] [] [] [] []]; done. Qed.

Lemma parse_regex_plain c l :
  regex_special c = false -> parse_regex (c :: l) = Lit c :: parse_regex l.
Proof. destruct c as [[] [] [] [] [] [] [] []]; done. Qed.

Lemma wildcard_regex_atoms l :
  parse_regex (replace_star (escape_units l)) = map atom_of l.
Proof.
  induction l as [|c l IH]; [done|]. cbn [map]. rewrite <- IH. unfold atom_of.
  case_bool_decide as Hstar; [by subst|]. cbn [escape_units].
  destruct (regex_special c) eqn:Hsp.
  - rewrite replace_star_backslash by congruence.
    destruct (decide (c = "\"%char)) as [->|Hbs].
    + by rewrite replace_star_backslash by apply escape_units_head.
    + by rewrite replace_star_cons.
  - rewrite replace_star_cons by (intros ->; done).
    by apply parse_regex_plain.
Qed.

Lemma match_star p v :
  match_atoms (DotStar :: p) v = true <->
  exists run rest, v = run ++ rest /\
    Forall (fun c => dot_unit c = true) run /\ match_atoms p rest = true.
Proof.
  induction v as [|x v IH].
  - split.
    + intros H. exists [], []. split; [done|]. split; [constructor|].
      simpl in H. by rewrite orb_false_r in H.
    + intros (run & rest & Heq & _ & Hm). symmetry in Heq.
      apply app_eq_nil in Heq as [-> ->]. simpl. by rewrite Hm.
  - change (match_atoms (DotStar :: p) (x :: v))
      with (match_atoms p (x :: v) || dot_unit x && match_atoms (DotStar :: p) v).
    rewrite orb_true_iff, andb_true_iff, IH. split.
    + intros [Hm | (Hx & run & rest & -> & Hrun & Hm)].
      * exists [], (x :: v). auto.
      * exists (x :: run), rest. auto.
    + intros ([|y run] & rest & Heq & Hrun & Hm); simplify_eq/=; [auto|].
      inversion Hrun; subst. right. eauto 6.
Qed.

Lemma match_atoms_glob p v :
  match_atoms (map atom_of p) v = true <-> glob p v.
Proof.
  revert v. induction p as [|c p IH]; intros v; cbn [map].
  { split; [destruct v; [constructor|done] | by inversion 1]. }
  unfold atom_of at 1. case_bool_decide as Hc.
  - subst. rewrite match_star. split.
    + intros (run & rest & -> & Hrun & Hm). constructor; [done|]. by apply IH.
    + inversion 1; subst; [done|]. eexists _, _. rewrite IH. eauto.
  - simpl. split.
    + destruct v as [|x v]; [done|]. rewrite andb_true_iff, bool_decide_eq_true.
      intros [-> Hm]. constructor; [done|]. by apply IH.
    + inversion 1; subst; [|done]. rewrite bool_decide_eq_true_2 by done.
      by apply IH.
Qed.

(** A fully escaped string matches exactly itself. *)
Lemma parse_escaped l : parse_regex (escape_units l) = map Lit l.
Proof.
  induction l as [|c l IH]; [done|]. cbn [map escape_units]. rewrite <- IH.
  destruct (regex_special c) eqn:E; [done|]. by apply parse_regex_plain.
Qed.

Lemma match_literal l p v :
  match_atoms (map Lit l ++ p) (l ++ v) = match_atoms p v.
Proof.
  induction l as [|c l IH]; [done|]. simpl.
  by rewrite bool_decide_eq_true_2, IH by done.
Qed.

Lemma match_class n v :
  match_atoms (repeat DigitOrLower n) v = true <->
  length v = n /\ forallb digit_or_lower v = true.
Proof.
  revert v. induction n as [|n IH]; intros [|x v]; simpl.
  - done.
  - by split; intros; [|destruct_and!].
  - by split; intros; [|destruct_and!].
  - rewrite !andb_true_iff, IH. intuition congruence.
Qed.

(** ** Decimal text of an integer, [String(n)] for a safe integer *)

Definition decimal (z : Z) : string := NilZero.string_of_int (Z.to_int z).

Lemma decimal_inj a b : decimal a = decimal b -> a = b.
Proof.
  unfold decimal. intros H.
  assert (forall z, NilZero.int_of_string (NilZero.string_of_int (Z.to_int z)) =
                    Some (Z.to_int z)) as Hr.
  { intros z. apply NilZero.isi; intros Hz; pose proof (DecimalZ.of_to z) as Hof;
      rewrite Hz in Hof; cbn in Hof; subst z; discriminate Hz. }
  apply (f_equal NilZero.int_of_string) in H. rewrite !Hr in H. injection H as H.
  rewrite <- (DecimalZ.of_to a), <- (DecimalZ.of_to b). congruence.
Qed.

(** Decimal text is made of digits and a sign. *)
Definition decimal_unit (c : ascii) : bool :=
  existsb (fun d => d === c) (units "0123456789-").

Lemma decimal_units z :
  units (decimal z) <> [] /\ forallb decimal_unit (units (decimal z)) = true.
Proof.
  assert (forall d, forallb decimal_unit (units (NilEmpty.string_of_uint d)) = true) as He.
  { induction d; cbn [NilEmpty.string_of_uint units list_ascii_of_string forallb];
      [done|..]; unfold units in IHd; rewrite IHd; reflexivity. }
  assert (forall d, forallb decimal_unit (units (NilZero.string_of_uint d)) = true) as Hz.
  { intros d. destruct d; [reflexivity|..]; apply He. }
  unfold decimal. destruct (Z.to_int z) as [d|d]; cbn [NilZero.string_of_int].
  - split; [by destruct d|apply Hz].
  - split; [done|]. cbn [units list_ascii_of_string forallb].
    specialize (Hz d). unfold units in Hz. rewrite Hz. reflexivity.
Qed.
