(* ===== verification/JsCollections.v ===== *)
(** The language's collections: [Map] with its insertion order, and the stable
    [Array.prototype.sort].  A [Map] is an association list in insertion
    order; [set] on a present key replaces the value in place. *)

From Stdlib Require Import ZArith Lia Sorted Permutation.
From stdpp Require Import base list sorting.
From S2P Require Import Prelude.

Open Scope list_scope.

(** * Maps *)

Definition jsmap (K V : Type) : Type := list (K * V).

Section Map.
Context {K V : Type} {eqd : EqDecision K}.
Implicit Types (m : jsmap K V) (k : K) (v : V).

(** [m.get(k)] *)
Fixpoint jm_get m k : option V :=
  match m with
  | [] => None
  | (k', v) :: r => if decide (k' = k) then Some v else jm_get r k
  end.

(** [m.has(k)] *)
Definition jm_has m k : bool :=
  match jm_get m k with Some _ => true | None => false end.

(** [m.set(k, v)] *)
Fixpoint jm_set m k v : jsmap K V :=
  match m with
  | [] => [(k, v)]
  | (k', v') :: r =>
      if decide (k' = k) then (k', v) :: r else (k', v') :: jm_set r k v
  end.

(** [m.delete(k)] *)
Definition jm_delete m k : jsmap K V :=
  List.filter (fun e => e.1 !== k) m.

(** [[...m.values()]] *)
Definition jm_values m : list V := m.*2.
Definition jm_keys m : list K := m.*1.

Lemma jm_get_set m k k' v :
  jm_get (jm_set m k v) k' = if decide (k = k') then Some v else jm_get m k'.
Proof.
  induction m as [|[k1 v1] m IH]; simpl; [done|].
  destruct (decide (k1 = k)); subst; simpl; repeat case_decide; subst; done.
Qed.

Lemma jm_get_set_eq m k v : jm_get (jm_set m k v) k = Some v.
Proof. rewrite jm_get_set. by case_decide. Qed.

Lemma jm_get_set_ne m k k' v : k <> k' -> jm_get (jm_set m k v) k' = jm_get m k'.
Proof. rewrite jm_get_set. by case_decide. Qed.

Lemma jm_get_None m k : jm_get m k = None <-> k ∉ jm_keys m.
Proof.
  induction m as [|[k1 v1] m IH]; simpl; [split; [intros _; apply not_elem_of_nil|done]|].
  rewrite not_elem_of_cons. case_decide; [split; [done|intros [? _]; congruence]|].
  rewrite IH. split; [auto|by intros [_ ?]].
Qed.

Lemma jm_get_Some_elem m k v : jm_get m k = Some v -> (k, v) ∈ m.
Proof.
  induction m as [|[k1 v1] m IH]; simpl; [done|].
  case_decide; [intros [= ->]; subst; apply list_elem_of_here|].
  intros. apply list_elem_of_further. auto.
Qed.

Lemma jm_elem_get m k v : NoDup (jm_keys m) -> (k, v) ∈ m -> jm_get m k = Some v.
Proof.
  induction m as [|[k1 v1] m IH]; simpl; [intros _ H; by apply not_elem_of_nil in H|].
  rewrite NoDup_cons. intros [Hk Hn] [[= -> ->]|Hin]%elem_of_cons.
  - by rewrite decide_True.
  - rewrite decide_False; [auto|]. intros ->. apply Hk.
    apply list_elem_of_fmap. by exists (k, v).
Qed.

Lemma jm_elem m k v : NoDup (jm_keys m) -> (k, v) ∈ m <-> jm_get m k = Some v.
Proof. split; [by apply jm_elem_get|apply jm_get_Some_elem]. Qed.

Lemma jm_get_delete m k k' :
  jm_get (jm_delete m k) k' = if decide (k = k') then None else jm_get m k'.
Proof.
  unfold jm_delete. induction m as [|[a x] m IH]; cbn [List.filter jm_get fst];
    [by destruct (decide (k = k'))|].
  destruct (bool_decide_reflect (a = k)) as [->|Ha]; cbn [negb].
  - rewrite IH. destruct (decide (k = k')); [done|]. done.
  - cbn [jm_get]. rewrite IH. destruct (decide (a = k')) as [->|]; [|done].
    by rewrite decide_False by congruence.
Qed.

Lemma jm_keys_cons k v m : jm_keys ((k, v) :: m) = k :: jm_keys m.
Proof. done. Qed.

Lemma jm_keys_set m k v :
  jm_keys (jm_set m k v) = if jm_has m k then jm_keys m else jm_keys m ++ [k].
Proof.
  unfold jm_has. induction m as [|[k1 v1] m IH]; simpl; [done|].
  case_decide; [done|]. rewrite !jm_keys_cons, IH. by destruct (jm_get m k).
Qed.

Lemma jm_has_elem m k : jm_has m k = true <-> k ∈ jm_keys m.
Proof.
  unfold jm_has. pose proof (jm_get_None m k) as H.
  destruct (jm_get m k) as [v|] eqn:E.
  2: { split; [done|]. intros Hin. by destruct (proj1 H eq_refl). }
  split; [intros _|done]. apply jm_get_Some_elem in E.
  apply list_elem_of_fmap. by exists (k, v).
Qed.

Lemma jm_set_NoDup m k v : NoDup (jm_keys m) -> NoDup (jm_keys (jm_set m k v)).
Proof.
  intros Hn. rewrite jm_keys_set. destruct (jm_has m k) eqn:E; [done|].
  apply NoDup_app. split; [done|]. split; [|apply NoDup_singleton].
  intros x Hx ->%list_elem_of_singleton. apply jm_has_elem in Hx. congruence.
Qed.

Lemma jm_set_fresh m k v : jm_has m k = false -> jm_set m k v = m ++ [(k, v)].
Proof.
  unfold jm_has. induction m as [|[k1 v1] m IH]; simpl; [done|].
  case_decide; [done|]. intros Hf. by rewrite IH.
Qed.

Lemma jm_values_elem m v : NoDup (jm_keys m) ->
  v ∈ jm_values m <-> exists k, jm_get m k = Some v.
Proof.
  intros Hn. unfold jm_values. rewrite list_elem_of_fmap. split.
  - intros ([k w] & -> & Hw). exists k. by apply jm_elem.
  - intros (k & Hk). exists (k, v). split; [done|]. by apply jm_elem.
Qed.
End Map.

#[export] Hint Resolve jm_set_NoDup : s2p.

(** Two maps with the same lookups have the same entries. *)
Lemma jm_same_Permutation {K V} `{EqDecision K} (m m' : jsmap K V) :
  NoDup (jm_keys m) -> NoDup (jm_keys m') -> (forall k, jm_get m k = jm_get m' k) ->
  m ≡ₚ m'.
Proof.
  intros Hn Hn' Hg. apply NoDup_Permutation.
  - by apply (NoDup_fmap_1 fst).
  - by apply (NoDup_fmap_1 fst).
  - intros [k v]. by rewrite !jm_elem, Hg.
Qed.

(** [set] on a present key replaces one value. *)
Lemma jm_set_present {K V} `{EqDecision K} (m : jsmap K V) k v :
  NoDup (jm_keys m) -> jm_has m k = true ->
  jm_set m k v = map (fun e => if decide (e.1 = k) then (e.1, v) else e) m.
Proof.
  unfold jm_has. induction m as [|[k1 v1] m IH]; [done|]. simpl.
  rewrite NoDup_cons. intros [Hk Hn] Hh. case_decide as Heq.
  - subst k1. f_equal. clear IH Hh Hn. induction m as [|[k2 v2] m IH]; [done|].
    simpl in *. rewrite not_elem_of_cons in Hk. destruct Hk as [Hne Hk].
    rewrite decide_False by done. f_equal. auto.
  - f_equal. auto.
Qed.

(** * Sorting *)

Section Sort.
Context {A : Type} (le : A -> A -> bool).

(** [le a b] is [compare(a, b) <= 0]: equal elements keep their order. *)
Fixpoint insert_by (x : A) (l : list A) : list A :=
  match l with
  | [] => [x]
  | y :: r => if le x y then x :: y :: r else y :: insert_by x r
  end.

(** [[...l].sort(compare)] *)
Definition sort_by (l : list A) : list A := foldr insert_by [] l.

Lemma insert_by_Permutation x l : insert_by x l ≡ₚ x :: l.
Proof.
  induction l as [|y l IH]; simpl; [done|].
  destruct (le x y); [done|]. rewrite IH. apply Permutation_swap.
Qed.

Lemma sort_by_Permutation l : sort_by l ≡ₚ l.
Proof.
  induction l as [|x l IH]; simpl; [done|]. rewrite insert_by_Permutation.
  by constructor.
Qed.

Lemma sort_by_elem x l : x ∈ sort_by l <-> x ∈ l.
Proof. by rewrite sort_by_Permutation. Qed.

Lemma sort_by_length l : length (sort_by l) = length l.
Proof. by rewrite sort_by_Permutation. Qed.

(** A total preorder, on the elements being sorted. *)
Hypothesis le_total : forall a b, le a b = true \/ le b a = true.
Hypothesis le_trans : forall a b c, le a b = true -> le b c = true -> le a c = true.

Lemma insert_by_sorted x l :
  StronglySorted (fun a b => le a b = true) l ->
  StronglySorted (fun a b => le a b = true) (insert_by x l).
Proof.
  induction l as [|y l IH]; simpl; [repeat constructor|].
  intros Hs. pose proof Hs as [Hs' Hy]%StronglySorted_inv.
  destruct (le x y) eqn:E.
  - constructor; [done|]. constructor; [done|].
    eapply Forall_impl; [exact Hy|]. simpl. eauto.
  - constructor; [auto|]. rewrite insert_by_Permutation. constructor; [|done].
    destruct (le_total x y); congruence.
Qed.

Lemma sort_by_sorted l : StronglySorted (fun a b => le a b = true) (sort_by l).
Proof. induction l; simpl; [constructor|]. by apply insert_by_sorted. Qed.

(** Sorting is determined by the elements when equal ones are identical. *)
Lemma sort_by_unique l1 l2 :
  (forall a b, a ∈ l1 -> b ∈ l1 -> le a b = true -> le b a = true -> a = b) ->
  l1 ≡ₚ l2 -> sort_by l1 = sort_by l2.
Proof.
  intros Hanti Hp.
  assert (forall k1 k2, StronglySorted (fun a b => le a b = true) k1 ->
    StronglySorted (fun a b => le a b = true) k2 -> k1 ≡ₚ k2 -> k1 ≡ₚ l1 -> k1 = k2) as Huniq.
  { clear Hp l2. intros k1. 
    assert (forall x, x ∈ k1 -> x ∈ k1) as Hin by done. revert Hin.
    cut (forall k2, (forall a b, a ∈ k1 -> b ∈ k1 -> le a b = true -> le b a = true -> a = b) ->
      StronglySorted (fun a b => le a b = true) k1 ->
      StronglySorted (fun a b => le a b = true) k2 -> k1 ≡ₚ k2 -> k1 = k2).
    { intros H _ k2 H1 H2 Hp Hl. apply H; try done.
      intros a b Ha Hb. apply Hanti; by rewrite <- Hl. }
    clear Hanti l1. induction k1 as [|x k1 IH]; intros k2 Hanti H1 H2 Hp.
    - symmetry. by apply Permutation_nil.
    - destruct k2 as [|y k2]; [by apply Permutation_sym, Permutation_nil in Hp|].
      pose proof H1 as [H1' Hx]%StronglySorted_inv.
      pose proof H2 as [H2' Hy]%StronglySorted_inv.
      assert (x = y) as <-.
      { assert (x ∈ y :: k2) as Hxin by (rewrite <- Hp; apply list_elem_of_here).
        assert (y ∈ x :: k1) as Hyin by (rewrite Hp; apply list_elem_of_here).
        rewrite Forall_forall in Hx, Hy.
        apply elem_of_cons in Hxin as [->|Hxin]; [done|].
        apply elem_of_cons in Hyin as [->|Hyin]; [done|].
        apply Hanti; auto using list_elem_of_here, list_elem_of_further. }
      f_equal. apply IH; try done.
      + intros a b Ha Hb. apply Hanti; by apply list_elem_of_further.
      + by apply Permutation_cons_inv in Hp. }
  apply Huniq; auto using sort_by_sorted; by rewrite !sort_by_Permutation.
Qed.

(** A sorted list is left as it is. *)
Lemma sort_by_id l : StronglySorted (fun a b => le a b = true) l -> sort_by l = l.
Proof.
  induction 1 as [|x l Hs IH Hx]; simpl; [done|]. rewrite IH.
  destruct l as [|y l]; simpl; [done|]. apply Forall_cons in Hx as [-> _]. done.
Qed.
End Sort.

Lemma insert_by_map {A B} (le : A -> A -> bool) (le' : B -> B -> bool) (f : A -> B) x l :
  (forall a b, le' (f a) (f b) = le a b) ->
  insert_by le' (f x) (map f l) = map f (insert_by le x l).
Proof.
  intros Hf. induction l as [|y l IH]; simpl; [done|]. rewrite Hf.
  destruct (le x y); simpl; [done|]. by rewrite IH.
Qed.

(** Sorting commutes with a map that keeps the order. *)
Lemma sort_by_map {A B} (le : A -> A -> bool) (le' : B -> B -> bool) (f : A -> B) l :
  (forall a b, le' (f a) (f b) = le a b) ->
  sort_by le' (map f l) = map f (sort_by le l).
Proof.
  intros Hf. induction l as [|y l IH]; simpl; [done|].
  rewrite IH. by apply insert_by_map.
Qed.

(** Only the comparisons of the elements present matter. *)
Lemma sort_by_ext {A} (le le' : A -> A -> bool) l :
  (forall a b, a ∈ l -> b ∈ l -> le a b = le' a b) -> sort_by le l = sort_by le' l.
Proof.
  induction l as [|x l IH]; intros Hle; [done|]. simpl. rewrite IH.
  2: { intros; apply Hle; by apply list_elem_of_further. }
  assert (forall k, (forall b, b ∈ k -> b ∈ l) -> insert_by le x k = insert_by le' x k) as Hi.
  { induction k as [|y k IHk]; intros Hk; [done|]. simpl. rewrite Hle.
    - rewrite IHk; [done|]. intros. apply Hk. by apply list_elem_of_further.
    - apply list_elem_of_here.
    - apply list_elem_of_further, Hk, list_elem_of_here. }
  apply Hi. intros b. by rewrite sort_by_elem.
Qed.

(** Sorting by an integer key. *)
Definition key_le {A} (key : A -> Z) (a b : A) : bool := (key a <=? key b)%Z.

Lemma sort_key_sorted {A} (key : A -> Z) l :
  StronglySorted (fun a b => key a <= key b)%Z (sort_by (key_le key) l).
Proof.
  assert (StronglySorted (fun a b => key_le key a b = true) (sort_by (key_le key) l)) as H.
  { apply sort_by_sorted; unfold key_le; intros; rewrite ?Z.leb_le in *; lia. }
  induction H as [|a k Hs IH Ha]; constructor; [done|].
  eapply Forall_impl; [exact Ha|]. unfold key_le. intros b. by rewrite Z.leb_le.
Qed.

(** With distinct keys the order is strict. *)
Lemma sorted_strict {A} (key : A -> Z) l :
  NoDup (map key l) -> StronglySorted (fun a b => key a <= key b)%Z l ->
  StronglySorted (fun a b => key a < key b)%Z l.
Proof.
  intros Hn Hs. induction Hs as [|a l Hs IH Ha]; [constructor|].
  cbn in Hn. apply NoDup_cons in Hn as [Hna Hn]. constructor; [auto|].
  rewrite Forall_forall in *. intros b Hb. specialize (Ha b Hb).
  assert (key a <> key b)%Z; [|lia]. intros Heq. apply Hna.
  rewrite Heq. apply list_elem_of_fmap. eauto.
Qed.

(** Strictly sorted lists with the same elements are equal. *)
Lemma sorted_same_elements {A} (key : A -> Z) l1 l2 :
  StronglySorted (fun a b => key a < key b)%Z l1 ->
  StronglySorted (fun a b => key a < key b)%Z l2 ->
  (forall x, x ∈ l1 <-> x ∈ l2) -> l1 = l2.
Proof.
  intros H1. revert l2. induction H1 as [|a l1 Hs1 IH Ha]; intros l2 H2 Heq.
  - destruct l2 as [|b l2]; [done|]. exfalso.
    by eapply not_elem_of_nil, Heq, list_elem_of_here.
  - destruct H2 as [|b l2 Hs2 Hb].
    { exfalso. by eapply not_elem_of_nil, Heq, list_elem_of_here. }
    rewrite Forall_forall in Ha, Hb.
    assert (a = b) as <-.
    { pose proof (proj1 (Heq a) (list_elem_of_here _ _)) as Hin1.
      pose proof (proj2 (Heq b) (list_elem_of_here _ _)) as Hin2.
      apply elem_of_cons in Hin1 as [->|Hin1]; [done|].
      apply elem_of_cons in Hin2 as [->|Hin2]; [done|].
      specialize (Ha _ Hin2). specialize (Hb _ Hin1). lia. }
    f_equal. apply IH; [done|]. intros x. specialize (Heq x).
    rewrite !elem_of_cons in Heq. split; intros Hx.
    + destruct (proj1 Heq (or_intror Hx)) as [->|]; [|done].
      specialize (Ha _ Hx). lia.
    + destruct (proj2 Heq (or_intror Hx)) as [->|]; [|done].
      specialize (Hb _ Hx). lia.
Qed.
