(* ===== verification/Protocol.v ===== *)
(** The protocol's data: enumerations, policies, budgets and error classes.

    Each enumeration is an inductive type whose constructors are the program's
    string literals behind a prefix; [T_str] gives the literal back and the
    value list is the program's constant array.  Records follow the program's
    interfaces; an optional property is an [option]. *)

From Stdlib Require Import ZArith.
From stdpp Require Import base strings list.
From S2P Require Import Prelude JsNumber JsString.

Open Scope string_scope.
Open Scope list_scope.

(** * Enumerations *)

(** Source: packages/protocol/src/policy.ts:27-27 [ResourceKind]. *)
Inductive ResourceKind : Type :=
| rk_file | rk_repository | rk_git | rk_database | rk_service | rk_deployment
  | rk_process | rk_custom.

#[export] Instance ResourceKind_eq_dec : EqDecision ResourceKind.
Proof. solve_decision. Defined.

(** Source: packages/protocol/src/policy.ts:17-26 [RESOURCE_KINDS]. *)
Definition RESOURCE_KINDS : list ResourceKind :=
    [rk_file; rk_repository; rk_git; rk_database; rk_service; rk_deployment;
   rk_process; rk_custom].

(** The string the program uses for the value. *)
Definition ResourceKind_str (x : ResourceKind) : string :=
  match x with
  | rk_file => "file"
  | rk_repository => "repository"
  | rk_git => "git"
  | rk_database => "database"
  | rk_service => "service"
  | rk_deployment => "deployment"
  | rk_process => "process"
  | rk_custom => "custom"
  end.

(** Source: packages/protocol/src/policy.ts:30-30 [ResourceAccessMode]. *)
Inductive ResourceAccessMode : Type :=
| ac_read | ac_write.

#[export] Instance ResourceAccessMode_eq_dec : EqDecision ResourceAccessMode.
Proof. solve_decision. Defined.

(** Source: packages/protocol/src/policy.ts:29-29 [RESOURCE_ACCESS_MODES]. *)
Definition RESOURCE_ACCESS_MODES : list ResourceAccessMode :=
  [ac_read; ac_write].

(** The string the program uses for the value. *)
Definition ResourceAccessMode_str (x : ResourceAccessMode) : string :=
  match x with
  | ac_read => "read"
  | ac_write => "write"
  end.

(** Source: packages/protocol/src/policy.ts:48-48 [ToolSideEffectClass]. *)
Inductive ToolSideEffectClass : Type :=
| se_none | se_workspace | se_external | se_destructive.

#[export] Instance ToolSideEffectClass_eq_dec : EqDecision ToolSideEffectClass.
Proof. solve_decision. Defined.

(** Source: packages/protocol/src/policy.ts:42-47 [TOOL_SIDE_EFFECT_CLASSES]. *)
Definition TOOL_SIDE_EFFECT_CLASSES : list ToolSideEffectClass :=
  [se_none; se_workspace; se_external; se_destructive].

(** The string the program uses for the value. *)
Definition ToolSideEffectClass_str (x : ToolSideEffectClass) : string :=
  match x with
  | se_none => "none"
  | se_workspace => "workspace"
  | se_external => "external"
  | se_destructive => "destructive"
  end.

(** Source: packages/protocol/src/policy.ts:51-51 [ToolIdempotency]. *)
Inductive ToolIdempotency : Type :=
| id_safe | id_conditional | id_unsafe.

#[export] Instance ToolIdempotency_eq_dec : EqDecision ToolIdempotency.
Proof. solve_decision. Defined.

(** Source: packages/protocol/src/policy.ts:50-50 [TOOL_IDEMPOTENCY]. *)
Definition TOOL_IDEMPOTENCY : list ToolIdempotency :=
  [id_safe; id_conditional; id_unsafe].

(** The string the program uses for the value. *)
Definition ToolIdempotency_str (x : ToolIdempotency) : string :=
  match x with
  | id_safe => "safe"
  | id_conditional => "conditional"
  | id_unsafe => "unsafe"
  end.

(** Source: packages/protocol/src/policy.ts:58-58 [ToolRecoveryStrategy]. *)
Inductive ToolRecoveryStrategy : Type :=
| rec_retry | rec_reconcile | rec_manual.

#[export] Instance ToolRecoveryStrategy_eq_dec : EqDecision ToolRecoveryStrategy.
Proof. solve_decision. Defined.

(** Source: packages/protocol/src/policy.ts:53-57 [TOOL_RECOVERY_STRATEGIES]. *)
Definition TOOL_RECOVERY_STRATEGIES : list ToolRecoveryStrategy :=
  [rec_retry; rec_reconcile; rec_manual].

(** The string the program uses for the value. *)
Definition ToolRecoveryStrategy_str (x : ToolRecoveryStrategy) : string :=
  match x with
  | rec_retry => "retry"
  | rec_reconcile => "reconcile"
  | rec_manual => "manual"
  end.

(** Source: packages/protocol/src/policy.ts:70-70 [PermissionMode]. *)
Inductive PermissionMode : Type :=
| pm_safe | pm_standard | pm_autonomous | pm_unrestricted | pm_custom.

#[export] Instance PermissionMode_eq_dec : EqDecision PermissionMode.
Proof. solve_decision. Defined.

(** Source: packages/protocol/src/policy.ts:63-69 [PERMISSION_MODES]. *)
Definition PERMISSION_MODES : list PermissionMode :=
  [pm_safe; pm_standard; pm_autonomous; pm_unrestricted; pm_custom].

(** The string the program uses for the value. *)
Definition PermissionMode_str (x : PermissionMode) : string :=
  match x with
  | pm_safe => "safe"
  | pm_standard => "standard"
  | pm_autonomous => "autonomous"
  | pm_unrestricted => "unrestricted"
  | pm_custom => "custom"
  end.

(** Source: packages/protocol/src/policy.ts:81-81 [PermissionAction]. *)
Inductive PermissionAction : Type :=
| pa_read | pa_write | pa_execute | pa_network | pa_external | pa_destructive
  | pa_approve.

#[export] Instance PermissionAction_eq_dec : EqDecision PermissionAction.
Proof. solve_decision. Defined.

(** Source: packages/protocol/src/policy.ts:72-80 [PERMISSION_ACTIONS]. *)
Definition PERMISSION_ACTIONS : list PermissionAction :=
    [pa_read; pa_write; pa_execute; pa_network; pa_external; pa_destructive;
   pa_approve].

(** The string the program uses for the value. *)
Definition PermissionAction_str (x : PermissionAction) : string :=
  match x with
  | pa_read => "read"
  | pa_write => "write"
  | pa_execute => "execute"
  | pa_network => "network"
  | pa_external => "external"
  | pa_destructive => "destructive"
  | pa_approve => "approve"
  end.

(** Source: packages/protocol/src/policy.ts:84-84 [PermissionEffect]. *)
Inductive PermissionEffect : Type :=
| pe_allow | pe_prompt | pe_deny.

#[export] Instance PermissionEffect_eq_dec : EqDecision PermissionEffect.
Proof. solve_decision. Defined.

(** Source: packages/protocol/src/policy.ts:83-83 [PERMISSION_EFFECTS]. *)
Definition PERMISSION_EFFECTS : list PermissionEffect :=
  [pe_allow; pe_prompt; pe_deny].

(** The string the program uses for the value. *)
Definition PermissionEffect_str (x : PermissionEffect) : string :=
  match x with
  | pe_allow => "allow"
  | pe_prompt => "prompt"
  | pe_deny => "deny"
  end.

(** Source: packages/protocol/src/policy.ts:157-157 [ToolCallStatus]. *)
Inductive ToolCallStatus : Type :=
| tc_pending | tc_running | tc_succeeded | tc_failed | tc_cancelled |
  tc_unknown_after_crash.

#[export] Instance ToolCallStatus_eq_dec : EqDecision ToolCallStatus.
Proof. solve_decision. Defined.

(** Source: packages/protocol/src/policy.ts:149-156 [TOOL_CALL_STATUSES]. *)
Definition TOOL_CALL_STATUSES : list ToolCallStatus :=
    [tc_pending; tc_running; tc_succeeded; tc_failed; tc_cancelled;
   tc_unknown_after_crash].

(** The string the program uses for the value. *)
Definition ToolCallStatus_str (x : ToolCallStatus) : string :=
  match x with
  | tc_pending => "pending"
  | tc_running => "running"
  | tc_succeeded => "succeeded"
  | tc_failed => "failed"
  | tc_cancelled => "cancelled"
  | tc_unknown_after_crash => "unknown_after_crash"
  end.

(** Source: packages/protocol/src/contracts.ts:55-55 [RunStatus]. *)
Inductive RunStatus : Type :=
| run_queued | run_running | run_waiting_external | run_paused |
  run_recovering | run_blocked | run_budget_limited | run_usage_limited |
  run_failed | run_completed | run_cancelled.

#[export] Instance RunStatus_eq_dec : EqDecision RunStatus.
Proof. solve_decision. Defined.

(** Source: packages/protocol/src/contracts.ts:42-54 [RUN_STATUSES]. *)
Definition RUN_STATUSES : list RunStatus :=
    [run_queued; run_running; run_waiting_external; run_paused;
   run_recovering; run_blocked; run_budget_limited; run_usage_limited;
   run_failed; run_completed; run_cancelled].

(** The string the program uses for the value. *)
Definition RunStatus_str (x : RunStatus) : string :=
  match x with
  | run_queued => "queued"
  | run_running => "running"
  | run_waiting_external => "waiting_external"
  | run_paused => "paused"
  | run_recovering => "recovering"
  | run_blocked => "blocked"
  | run_budget_limited => "budget_limited"
  | run_usage_limited => "usage_limited"
  | run_failed => "failed"
  | run_completed => "completed"
  | run_cancelled => "cancelled"
  end.

(** Source: packages/protocol/src/contracts.ts:71-71 [GoalStatus]. *)
Inductive GoalStatus : Type :=
| goal_active | goal_paused | goal_blocked | goal_waiting_external |
  goal_budget_limited | goal_usage_limited | goal_complete | goal_cancelled.

#[export] Instance GoalStatus_eq_dec : EqDecision GoalStatus.
Proof. solve_decision. Defined.

(** Source: packages/protocol/src/contracts.ts:61-70 [GOAL_STATUSES]. *)
Definition GOAL_STATUSES : list GoalStatus :=
    [goal_active; goal_paused; goal_blocked; goal_waiting_external;
   goal_budget_limited; goal_usage_limited; goal_complete; goal_cancelled].

(** The string the program uses for the value. *)
Definition GoalStatus_str (x : GoalStatus) : string :=
  match x with
  | goal_active => "active"
  | goal_paused => "paused"
  | goal_blocked => "blocked"
  | goal_waiting_external => "waiting_external"
  | goal_budget_limited => "budget_limited"
  | goal_usage_limited => "usage_limited"
  | goal_complete => "complete"
  | goal_cancelled => "cancelled"
  end.

(** Source: packages/protocol/src/contracts.ts:84-84 [TaskStatus]. *)
Inductive TaskStatus : Type :=
| task_pending | task_ready | task_running | task_waiting | task_blocked |
  task_completed | task_failed | task_cancelled.

#[export] Instance TaskStatus_eq_dec : EqDecision TaskStatus.
Proof. solve_decision. Defined.

(** Source: packages/protocol/src/contracts.ts:74-83 [TASK_STATUSES]. *)
Definition TASK_STATUSES : list TaskStatus :=
    [task_pending; task_ready; task_running; task_waiting; task_blocked;
   task_completed; task_failed; task_cancelled].

(** The string the program uses for the value. *)
Definition TaskStatus_str (x : TaskStatus) : string :=
  match x with
  | task_pending => "pending"
  | task_ready => "ready"
  | task_running => "running"
  | task_waiting => "waiting"
  | task_blocked => "blocked"
  | task_completed => "completed"
  | task_failed => "failed"
  | task_cancelled => "cancelled"
  end.

(** Source: packages/protocol/src/contracts.ts:99-99 [AgentStatus]. *)
Inductive AgentStatus : Type :=
| agent_created | agent_queued | agent_running | agent_waiting |
  agent_suspended | agent_recovering | agent_completed | agent_failed |
  agent_stopped | agent_closed.

#[export] Instance AgentStatus_eq_dec : EqDecision AgentStatus.
Proof. solve_decision. Defined.

(** Source: packages/protocol/src/contracts.ts:87-98 [AGENT_STATUSES]. *)
Definition AGENT_STATUSES : list AgentStatus :=
    [agent_created; agent_queued; agent_running; agent_waiting;
   agent_suspended; agent_recovering; agent_completed; agent_failed;
   agent_stopped; agent_closed].

(** The string the program uses for the value. *)
Definition AgentStatus_str (x : AgentStatus) : string :=
  match x with
  | agent_created => "created"
  | agent_queued => "queued"
  | agent_running => "running"
  | agent_waiting => "waiting"
  | agent_suspended => "suspended"
  | agent_recovering => "recovering"
  | agent_completed => "completed"
  | agent_failed => "failed"
  | agent_stopped => "stopped"
  | agent_closed => "closed"
  end.

(** Source: packages/protocol/src/contracts.ts:112-112 [AgentRole]. *)
Inductive AgentRole : Type :=
| role_coordinator | role_researcher | role_implementer | role_debugger |
  role_reviewer | role_verifier | role_specialist.

#[export] Instance AgentRole_eq_dec : EqDecision AgentRole.
Proof. solve_decision. Defined.

(** Source: packages/protocol/src/contracts.ts:103-111 [AGENT_ROLES]. *)
Definition AGENT_ROLES : list AgentRole :=
    [role_coordinator; role_researcher; role_implementer; role_debugger;
   role_reviewer; role_verifier; role_specialist].

(** The string the program uses for the value. *)
Definition AgentRole_str (x : AgentRole) : string :=
  match x with
  | role_coordinator => "coordinator"
  | role_researcher => "researcher"
  | role_implementer => "implementer"
  | role_debugger => "debugger"
  | role_reviewer => "reviewer"
  | role_verifier => "verifier"
  | role_specialist => "specialist"
  end.


(** * Policies and tools *)

(** Source: packages/protocol/src/policy.ts:36-40 [ResourceScope]. *)
Record ResourceScope := {
  scope_kind : ResourceKind;
  scope_identifier : string;
  scope_access : ResourceAccessMode }.

#[export] Instance ResourceScope_eq_dec : EqDecision ResourceScope.
Proof. solve_decision. Defined.

(** The action of a rule: a permission action or the string ["*"]. *)
Inductive RuleAction : Type := any_action | only (a : PermissionAction).

#[export] Instance RuleAction_eq_dec : EqDecision RuleAction.
Proof. solve_decision. Defined.

(** Source: packages/protocol/src/policy.ts:87-93 [PermissionRule]. *)
Record PermissionRule := {
  rule_action : RuleAction;
  rule_effect : PermissionEffect;
  rule_toolName : option string;
  rule_resourcePattern : option string;
  rule_reason : option string }.

(** Source: packages/protocol/src/policy.ts:99-102 [PermissionPolicy]. *)
Record PermissionPolicy := {
  policy_mode : PermissionMode;
  policy_rules : option (list PermissionRule) }.

(** Source: packages/protocol/src/policy.ts:104-107 [ToolPermissionPolicy]. *)
Record ToolPermissionPolicy := {
  required : list PermissionAction;
  perm_requiresApproval : option bool }.

(** Source: packages/protocol/src/policy.ts:109-112 [SandboxFilesystemPolicy]. *)
Record SandboxFilesystemPolicy := {
  writableRoots : list string;
  readOnlyRoots : list string }.

(** Source: packages/protocol/src/policy.ts:114-117 [SandboxNetworkPolicy]. *)
Record SandboxNetworkPolicy := {
  network_enabled : bool;
  allowedDestinations : list string }.

(** Source: packages/protocol/src/policy.ts:119-122 [SandboxProcessPolicy]. *)
Record SandboxProcessPolicy := {
  process_enabled : bool;
  allowedCommands : option (list string) }.

(** Source: packages/protocol/src/policy.ts:124-129 [SandboxPolicy]. *)
Record SandboxPolicy := {
  sb_filesystem : SandboxFilesystemPolicy;
  sb_network : SandboxNetworkPolicy;
  sb_process : SandboxProcessPolicy;
  sb_permissions : PermissionPolicy }.

(** The fields of a tool contract the recovery and permission rules read.
    Source: packages/protocol/src/policy.ts:135-147 [ToolDefinition]. *)
Record ToolDefinition := {
  tool_name : string;
  sideEffectClass : ToolSideEffectClass;
  idempotency : ToolIdempotency;
  recovery : ToolRecoveryStrategy;
  tool_resourceScopes : list ResourceScope;
  tool_permissions : ToolPermissionPolicy }.

(** Source: packages/protocol/src/policy.ts:181-185 [ToolRecoveryDecision]. *)
Record ToolRecoveryDecision := {
  decision_action : ToolRecoveryStrategy;
  decision_reason : string;
  requiresReconciliation : bool }.

(** * Budgets *)

(** Source: packages/protocol/src/policy.ts:187-187 [BudgetPhase]. *)
Inductive BudgetPhase : Type := ph_general | ph_recovery | ph_validation.

#[export] Instance BudgetPhase_eq_dec : EqDecision BudgetPhase.
Proof. solve_decision. Defined.

(** Source: packages/protocol/src/policy.ts:189-198 [BudgetReservation]. *)
Record BudgetReservation := {
  rv_inputTokens : option num;
  rv_outputTokens : option num;
  rv_totalTokens : option num;
  rv_cachedTokens : option num;
  rv_costUsd : option num;
  rv_wallTimeMs : option num;
  rv_toolCalls : option num;
  rv_childAgents : option num }.

(** The [reserve] property of a budget. *)
Record BudgetReserve := {
  reserve_recovery : option BudgetReservation;
  reserve_validation : option BudgetReservation }.

(** Source: packages/protocol/src/policy.ts:201-214 [RunBudget]. *)
Record RunBudget := {
  maxInputTokens : option num;
  maxOutputTokens : option num;
  maxTotalTokens : option num;
  maxCachedTokens : option num;
  maxCostUsd : option num;
  maxWallTimeMs : option num;
  maxToolCalls : option num;
  maxChildAgents : option num;
  budget_reserve : option BudgetReserve }.

(** Source: packages/protocol/src/policy.ts:217-225 [BudgetUsage]. *)
Record BudgetUsage := {
  inputTokens : num;
  outputTokens : num;
  cachedTokens : num;
  costUsd : num;
  wallTimeMs : num;
  toolCalls : num;
  childAgents : num }.

#[export] Instance BudgetUsage_eq_dec : EqDecision BudgetUsage.
Proof. solve_decision. Defined.

(** Source: packages/protocol/src/policy.ts:227-227 [BudgetDelta]. *)
Record BudgetDelta := {
  d_inputTokens : option num;
  d_outputTokens : option num;
  d_cachedTokens : option num;
  d_costUsd : option num;
  d_wallTimeMs : option num;
  d_toolCalls : option num;
  d_childAgents : option num }.

(** Source: packages/protocol/src/policy.ts:229-238 [BudgetLimitKind]. *)
Inductive BudgetLimitKind : Type :=
| lim_input_tokens | lim_output_tokens | lim_total_tokens | lim_cached_tokens
| lim_cost_usd | lim_wall_time_ms | lim_tool_calls | lim_child_agents
| lim_reserved_capacity.

#[export] Instance BudgetLimitKind_eq_dec : EqDecision BudgetLimitKind.
Proof. solve_decision. Defined.

(** Source: packages/protocol/src/policy.ts:240-245 [BudgetAssessment]. *)
Record BudgetAssessment := {
  allowed : bool;
  assessed_phase : BudgetPhase;
  exhausted : list BudgetLimitKind;
  remaining : BudgetReservation }.

(** * Leases *)

(** Source: packages/protocol/src/contracts.ts:322-331 [RunLease]. *)
Record RunLease := {
  lease_id : string;
  lease_runId : string;
  lease_executorId : string;
  lease_generation : num;
  lease_expiresAt : string;
  lease_heartbeatAt : string;
  lease_host : string;
  lease_process : string;
  lease_createdAt : string;
  lease_updatedAt : string }.

(** Source: packages/protocol/src/contracts.ts:334-338 [RunLeaseFence]. *)
Record RunLeaseFence := {
  fence_runId : string;
  fence_executorId : string;
  fence_generation : num }.

(** Source: packages/protocol/src/contracts.ts:439-446 [BlockerObservation]. *)
Record BlockerObservation := {
  ob_fingerprint : string;
  ob_occurredAt : string;
  ob_meaningful : bool;
  ob_externalDependency : bool;
  ob_alternateActionAvailable : bool;
  ob_note : option string }.

(** * Exceptions *)

(** Source: packages/core/src/errors.ts:3-11 [DomainErrorCode]. *)
Inductive DomainErrorCode : Type :=
| invalid_state_transition | invalid_identifier | invalid_invariant
| budget_exceeded | permission_denied | resource_conflict
| stale_lease_generation | blocker_threshold_not_met.

(** Everything the modelled code throws: the domain error classes with the
    arguments of their constructors, the store's error classes, the language's
    own errors, and the database's constraint failures.
    Source: packages/core/src/errors.ts:29-111 [DomainError subclasses]. *)
Inductive exn : Type :=
| InvalidStateTransitionError (entity from to : string)
| InvalidIdentifierError (kind value : string)
| InvariantViolationError (message : string)
| BudgetExceededError (limit : string) (used maximum : num)
| PermissionDeniedError (action reason : string)
| ResourceConflictError (left right : string)
| StaleLeaseGenerationError (expected received : num) (runId : string)
| BlockerThresholdNotMetError (fingerprint : string) (attempts threshold : num)
| LeaseFencedError (runId message : string)
| RevisionConflictError (runId : string) (expected actual : Z)
| ResourceLockConflictError (scope : ResourceScope)
| TypeError (message : string)
| RangeError (message : string)
| Error (message : string)
| SqliteConstraint (table : string).

#[export] Instance exn_eq_dec : EqDecision exn.
Proof. solve_decision. Defined.

(** Source: packages/core/src/errors.ts:14-27 [DomainError.code]. *)
Definition domain_code (e : exn) : option DomainErrorCode :=
  match e with
  | InvalidStateTransitionError _ _ _ => Some invalid_state_transition
  | InvalidIdentifierError _ _ => Some invalid_identifier
  | InvariantViolationError _ => Some invalid_invariant
  | BudgetExceededError _ _ _ => Some budget_exceeded
  | PermissionDeniedError _ _ => Some permission_denied
  | ResourceConflictError _ _ => Some resource_conflict
  | StaleLeaseGenerationError _ _ _ => Some stale_lease_generation
  | BlockerThresholdNotMetError _ _ _ => Some blocker_threshold_not_met
  | _ => None
  end.

Abbreviation exc := (result exn).
