(* ===== verification/Json.v ===== *)
(** JSON values, the language's [JSON.stringify] on strings, and the canonical
    encoding the mailbox compares payloads with.

    The encoding is shown to identify exactly the values that are equal up to
    the order of object keys: it is a print of the key-sorted value, and that
    print is uniquely readable. *)

From Stdlib Require Import ZArith Lia Ascii String Sorted Permutation.
From stdpp Require Import base strings list.
From S2P Require Import Prelude JsNumber JsString JsCollections Protocol.

Open Scope string_scope.
Open Scope list_scope.

(** Source: packages/protocol/src/policy.ts:11-15 [JsonValue]. *)
#[warnings="-register-all"]
Inductive JsonValue : Type :=
| jnull
| jbool (b : bool)
| jnum (n : num)
| jstr (s : string)
| jarr (items : list JsonValue)
| jobj (fields : list (string * JsonValue)).

(** Induction with hypotheses for the members of arrays and objects. *)
Lemma JsonValue_nested_ind (P : JsonValue -> Prop) :
  P jnull -> (forall b, P (jbool b)) -> (forall n, P (jnum n)) -> (forall s, P (jstr s)) ->
  (forall items, Forall P items -> P (jarr items)) ->
  (forall fields, Forall (fun f => P f.2) fields -> P (jobj fields)) ->
  forall v, P v.
Proof.
  intros Hn Hb Hm Hs Ha Ho. fix IH 1. intros [|b|n|s|items|fields].
  - exact Hn.
  - apply Hb.
  - apply Hm.
  - apply Hs.
  - apply Ha. induction items; constructor; [apply IH|assumption].
  - apply Ho. induction fields as [|[k x] fields IHf]; constructor; [apply IH|assumption].
Qed.

(** ** Strings *)

Definition dquote : ascii := ascii_of_nat 34.

Definition hex_digit (d : nat) : ascii :=
  ascii_of_nat (if Nat.ltb d 10 then 48 + d else 87 + d).

(** The escape of one unit inside a JSON string literal. *)
Definition json_escape (c : ascii) : list ascii :=
  let n := nat_of_ascii c in
  match n with
  | 34 => ["\"%char; dquote]
  | 92 => ["\"; "\"]%char
  | 8 => ["\"; "b"]%char
  | 12 => ["\"; "f"]%char
  | 10 => ["\"; "n"]%char
  | 13 => ["\"; "r"]%char
  | 9 => ["\"; "t"]%char
  | _ =>
      if Nat.ltb n 32
      then ["\"; "u"; "0"; "0"; hex_digit (Nat.div n 16); hex_digit (Nat.modulo n 16)]%char
      else [c]
  end.

Definition quote_units (l : list ascii) : list ascii :=
  dquote :: flat_map json_escape l ++ [dquote].

(** [JSON.stringify(s)] of a string. *)
Definition json_quote (s : string) : string := of_units (quote_units (units s)).

(** ** Code unit order, the order of [Array.prototype.sort()] *)

Fixpoint units_le (a b : list ascii) : bool :=
  match a, b with
  | [], _ => true
  | _ :: _, [] => false
  | x :: a, y :: b => (code x <? code y)%Z || ((x === y) && units_le a b)
  end.

Definition string_le (a b : string) : bool := units_le (units a) (units b).

(** Fields in the order of their keys. *)
Definition field_le {A} (f g : string * A) : bool := string_le f.1 g.1.

Lemma units_le_total a b : units_le a b = true \/ units_le b a = true.
Proof.
  revert b. induction a as [|x a IH]; intros [|y b]; simpl; auto.
  destruct (Z.ltb_spec (code x) (code y)), (Z.ltb_spec (code y) (code x)); auto.
  assert (x = y) as ->.
  { unfold code in *. assert (nat_of_ascii x = nat_of_ascii y) as Heq by lia.
    by rewrite <- (ascii_nat_embedding x), Heq, ascii_nat_embedding. }
  rewrite !bool_decide_eq_true_2 by done. simpl. apply IH.
Qed.

Lemma units_le_trans a b c : units_le a b = true -> units_le b c = true -> units_le a c = true.
Proof.
  revert b c. induction a as [|x a IH]; intros [|y b] [|z c]; simpl; auto; try done.
  rewrite !orb_true_iff, !andb_true_iff, !bool_decide_eq_true, !Z.ltb_lt.
  intros [?|[-> Ha]] [?|[-> Hb]]; auto; [left; lia|]. right. split; [done|]. eauto.
Qed.

Lemma units_le_antisym a b : units_le a b = true -> units_le b a = true -> a = b.
Proof.
  revert b. induction a as [|x a IH]; intros [|y b]; simpl; auto; try done.
  rewrite !orb_true_iff, !andb_true_iff, !bool_decide_eq_true, !Z.ltb_lt.
  intros [?|[-> Ha]] [?|[? Hb]]; subst; try lia. f_equal. auto.
Qed.

Lemma string_le_total a b : string_le a b = true \/ string_le b a = true.
Proof. apply units_le_total. Qed.
Lemma string_le_trans a b c :
  string_le a b = true -> string_le b c = true -> string_le a c = true.
Proof. apply units_le_trans. Qed.
Lemma string_le_antisym a b : string_le a b = true -> string_le b a = true -> a = b.
Proof. intros H1 H2. apply units_inj. by apply units_le_antisym. Qed.

Section Canonical.
Variable number_to_string : num -> string.

(** Source: packages/agents/src/mailbox.ts:455-479 [canonicalJson]. *)
Fixpoint canonicalJson (value : JsonValue) : exc string :=
  match value with
  | jnull => mret "null"
  | jbool b => mret (if b then "true" else "false")
  | jstr s => mret (json_quote s)
  | jnum n =>
      _ ← throw_if (negb (isFinite n))
            (InvariantViolationError "Mailbox payload must contain finite numbers");
      mret (number_to_string n)
  | jarr items =>
      parts ← mapM id (map canonicalJson items);
      mret ("[" +:+ join "," parts +:+ "]")
  | jobj fields =>
      parts ← mapM (fun '(key, encoded) =>
                text ← encoded; mret (json_quote key +:+ ":" +:+ text))
              (sort_by field_le (map (fun '(key, x) => (key, canonicalJson x)) fields));
      mret ("{" +:+ join "," parts +:+ "}")
  end.

(** ** The value with every object's keys sorted, and its print *)

Fixpoint sort_keys (value : JsonValue) : JsonValue :=
  match value with
  | jarr items => jarr (map sort_keys items)
  | jobj fields => jobj (sort_by field_le (map (fun '(k, x) => (k, sort_keys x)) fields))
  | v => v
  end.

(** Every number in the value is finite. *)
Fixpoint finite_json (value : JsonValue) : bool :=
  match value with
  | jnum n => isFinite n
  | jarr items => forallb finite_json items
  | jobj fields => forallb (fun '(_, x) => finite_json x) fields
  | _ => true
  end.

(** Object keys are distinct, as in every object of the language. *)
Fixpoint distinct_keys (value : JsonValue) : Prop :=
  match value with
  | jarr items => foldr and True (map distinct_keys items)
  | jobj fields =>
      NoDup fields.*1 /\ foldr and True (map (fun '(_, x) => distinct_keys x) fields)
  | _ => True
  end.

(** [parts.join(",")] on code units. *)
Definition join_units (parts : list (list ascii)) : list ascii :=
  match parts with
  | [] => []
  | part :: rest => part ++ concat (map (cons ","%char) rest)
  end.

Definition print_field (field : list ascii * list ascii) : list ascii :=
  quote_units field.1 ++ ":"%char :: field.2.

Fixpoint print_json (value : JsonValue) : list ascii :=
  match value with
  | jnull => units "null"
  | jbool b => units (if b then "true" else "false")
  | jstr s => quote_units (units s)
  | jnum n => units (number_to_string n)
  | jarr items => "["%char :: join_units (map print_json items) ++ ["]"%char]
  | jobj fields =>
      "{"%char :: join_units (map (fun '(k, x) => print_field (units k, print_json x)) fields)
        ++ ["}"%char]
  end.

Lemma units_join parts : units (join "," parts) = join_units (map units parts).
Proof.
  induction parts as [|p [|q r] IH]; [done|by simpl; rewrite app_nil_r|].
  change (join "," (p :: q :: r)) with (p +:+ "," +:+ join "," (q :: r)).
  rewrite !units_app, IH. done.
Qed.

Lemma mapM_ok {A B C} (f : A -> exc B) (h : B -> C) (g : A -> C) l r :
  Forall (fun x => forall y, f x = Ok y -> h y = g x) l ->
  mapM f l = Ok r -> map h r = map g l.
Proof.
  revert r. induction l as [|x l IH]; intros r Hf; [by intros [= <-]|].
  apply Forall_cons in Hf as [Hx Hl]. intros H.
  apply bind_ok in H as (y & Hy & H). apply bind_ok in H as (ys & Hys & [= <-]).
  simpl. f_equal; auto.
Qed.

Lemma mapM_map {A B C} (f : B -> exc C) (g : A -> B) l :
  mapM f (map g l) = mapM (fun x => f (g x)) l.
Proof. induction l as [|x l IH]; [done|]. cbn. by rewrite IH. Qed.

Lemma mapM_is_ok {A B} (f : A -> exc B) l :
  is_ok (mapM f l) = forallb (fun x => is_ok (f x)) l.
Proof.
  induction l as [|x l IH]; [done|]. cbn. destruct (f x); [|done]. cbn. rewrite <- IH.
  by destruct (mapM f l).
Qed.

Lemma is_ok_bind_ret {A B} (r : exc A) (f : A -> B) :
  is_ok (x ← r; mret (f x)) = is_ok r.
Proof. by destruct r. Qed.

(** The canonical encoding is the print of the key-sorted value. *)
Lemma canonicalJson_print v s :
  canonicalJson v = Ok s -> units s = print_json (sort_keys v).
Proof.
  revert s. induction v as [|b|n|t|items IH|fields IH] using JsonValue_nested_ind;
    intros s; cbn [canonicalJson sort_keys print_json].
  - by intros [= <-].
  - by intros [= <-].
  - intros H. by apply bind_ok in H as ([] & _ & [= <-]).
  - intros [= <-]. apply units_of_units.
  - intros H. apply bind_ok in H as (parts & H & [= <-]).
    rewrite mapM_map in H. apply (mapM_ok _ units) with (1 := IH) in H.
    rewrite !units_app, units_join, H, map_map. done.
  - intros H. apply bind_ok in H as (parts & H & [= <-]).
    rewrite (sort_by_map field_le field_le) in H by (by intros [] []).
    rewrite (sort_by_map field_le field_le) by (by intros [] []).
    rewrite mapM_map in H.
    apply (mapM_ok _ units (fun '(k, x) => print_field (units k, print_json (sort_keys x)))) in H.
    + rewrite !units_app, units_join, H, map_map. cbn. do 3 f_equal.
      apply map_ext. by intros [].
    + apply Forall_forall. intros [k x] Hx y Hy. apply sort_by_elem in Hx.
      rewrite Forall_forall in IH. specialize (IH _ Hx).
      apply bind_ok in Hy as (t & Ht & [= <-]). apply IH in Ht.
      rewrite !units_app, Ht. unfold print_field, json_quote. by rewrite units_of_units.
Qed.

(** ** Unique readability of the print *)

(** What the encoding relies on of the language's number rendering: a finite
    number's decimal text is made of number characters, is not empty and
    determines the number. *)
Definition number_unit (c : ascii) : bool :=
  existsb (fun d => d === c) (units "0123456789+-.e").

Record number_rendering : Prop := {
  number_text : forall n, isFinite n = true ->
    units (number_to_string n) <> [] /\
    forallb number_unit (units (number_to_string n)) = true;
  number_injective : forall n m, isFinite n = true -> isFinite m = true ->
    number_to_string n = number_to_string m -> n = m }.

(** The rest of the text after a value: nothing, or a closing mark. *)
Definition ends_value (rest : list ascii) : Prop :=
  match rest with [] => True | c :: _ => c ∈ units ",]}" end.

(** [p a] can be read off the front of a text, when [good a]. *)
Definition readable {A} (good : A -> Prop) (p : A -> list ascii) (a : A) : Prop :=
  good a -> forall b ra rb, good b -> ends_value ra -> ends_value rb ->
    p a ++ ra = p b ++ rb -> a = b /\ ra = rb.

Definition unescape (l : list ascii) : option (ascii * list ascii) :=
  match l with
  | c :: r =>
      if c === "\"%char then
        match r with
        | d :: r' =>
            match find (fun n => match json_escape (ascii_of_nat n) with
                                 | [_; e] => e === d | _ => false end) (seq 0 128) with
            | Some n => Some (ascii_of_nat n, r')
            | None =>
                match r' with
                | _ :: _ :: x :: y :: r'' =>
                    match find (fun n => match json_escape (ascii_of_nat n) with
                        | [_; _; _; _; x'; y'] => (x' === x) && (y' === y)
                        | _ => false end) (seq 0 32) with
                    | Some n => Some (ascii_of_nat n, r'')
                    | None => None
                    end
                | _ => None
                end
            end
        | [] => None
        end
      else if c === dquote then None else Some (c, r)
  | [] => None
  end.

Lemma unescape_escape c r : unescape (json_escape c ++ r) = Some (c, r).
Proof. destruct c as [[] [] [] [] [] [] [] []]; vm_compute; reflexivity. Qed.

Lemma escapes_readable a b ra rb :
  flat_map json_escape a ++ dquote :: ra = flat_map json_escape b ++ dquote :: rb ->
  a = b /\ ra = rb.
Proof.
  revert b. assert (forall c l r, dquote :: r <> json_escape c ++ l) as Hq.
  { intros c l r Heq. apply (f_equal unescape) in Heq. rewrite unescape_escape in Heq.
    by vm_compute in Heq. }
  induction a as [|c a IH]; intros [|d b]; cbn [flat_map]; rewrite <- ?app_assoc; cbn [app].
  - by intros [= ->].
  - intros H. by apply Hq in H.
  - intros H. symmetry in H. by apply Hq in H.
  - intros H. apply (f_equal unescape) in H. rewrite !unescape_escape in H.
    injection H as -> H. apply IH in H as [-> ->]. done.
Qed.

Lemma quote_readable a b ra rb :
  quote_units a ++ ra = quote_units b ++ rb -> a = b /\ ra = rb.
Proof.
  unfold quote_units. cbn [app]. rewrite <- !app_assoc. cbn [app].
  intros H. apply (f_equal tail) in H. cbn [tail] in H. by apply escapes_readable in H.
Qed.

#[local] Arguments quote_units _ : simpl never.

(** A maximal run of one class of units is read back. *)
Lemma run_readable (cls : ascii -> bool) a b ra rb :
  forallb cls a = true -> forallb cls b = true ->
  match ra with [] => True | c :: _ => cls c = false end ->
  match rb with [] => True | c :: _ => cls c = false end ->
  a ++ ra = b ++ rb -> a = b /\ ra = rb.
Proof.
  revert b. induction a as [|x a IH]; intros [|y b]; simpl; intros Ha Hb Hra Hrb H.
  - done.
  - subst ra. bool_hyps. congruence.
  - subst rb. bool_hyps. congruence.
  - injection H as -> H. bool_hyps. apply IH in H as [-> ->]; done.
Qed.

Lemma ends_value_cons c r : c ∈ units ",]}" -> ends_value (c :: r).
Proof. done. Qed.

Lemma ends_not_number r : ends_value r ->
  match r with [] => True | c :: _ => number_unit c = false end.
Proof.
  destruct r as [|c r]; [done|]. simpl. rewrite list_elem_of_In. cbn.
  intros [<-|[<-|[<-|[]]]]; reflexivity.
Qed.

Section Items.
Context {A : Type} (good : A -> Prop) (p : A -> list ascii) (close : ascii).
Hypothesis close_mark : close ∈ units "]}".
Hypothesis head : forall a, good a ->
  match p a with [] => False | c :: _ => c ∉ units ",]}" end.

Let tail_of items : list ascii := concat (map (cons ","%char) (map p items)).

Lemma tail_ends items r : ends_value (tail_of items ++ close :: r).
Proof.
  destruct items; simpl; [|rewrite list_elem_of_In; cbn; auto].
  revert close_mark. rewrite !list_elem_of_In. cbn. intuition.
Qed.

Lemma tail_readable items : Forall (readable good p) items -> Forall good items ->
  forall items' ra rb, Forall good items' ->
    tail_of items ++ close :: ra = tail_of items' ++ close :: rb ->
    items = items' /\ ra = rb.
Proof.
  assert (close <> ","%char) as Hc.
  { intros ->. revert close_mark. rewrite list_elem_of_In. cbn. intuition congruence. }
  induction 1 as [|a items Ha _ IH]; intros Hg [|b items'] ra rb Hg' H;
    cbn in H; try (injection H; congruence).
  - injection H as ->. done.
  - apply Forall_cons in Hg as [Hga Hg], Hg' as [Hgb Hg'].
    rewrite <- !app_assoc in H. injection H as H.
    apply (Ha Hga b _ _ Hgb) in H as [-> H];
      [|apply tail_ends|apply tail_ends].
    apply (IH Hg items') in H as [-> ->]; done.
Qed.

(** A bracketed, comma-separated list of readable items is readable. *)
Lemma items_readable items : Forall (readable good p) items -> Forall good items ->
  forall items' ra rb, Forall good items' ->
    join_units (map p items) ++ close :: ra = join_units (map p items') ++ close :: rb ->
    items = items' /\ ra = rb.
Proof.
  assert (forall a r r', good a -> p a ++ r <> close :: r') as Hne.
  { intros a r r' Ha Heq. specialize (head a Ha). destruct (p a) as [|c l]; [done|].
    injection Heq as -> _. apply head.
    revert close_mark. rewrite !list_elem_of_In. cbn. intuition. }
  destruct 1 as [|a items Ha Hr]; intros Hg [|b items'] ra rb Hg' H;
    cbn [map join_units app] in H.
  - injection H as ->. done.
  - apply Forall_cons in Hg' as [Hgb _]. rewrite <- app_assoc in H.
    symmetry in H. by apply Hne in H.
  - apply Forall_cons in Hg as [Hga _]. rewrite <- app_assoc in H. by apply Hne in H.
  - apply Forall_cons in Hg as [Hga Hg], Hg' as [Hgb Hg'].
    rewrite <- !app_assoc in H.
    apply (Ha Hga b _ _ Hgb) in H as [-> H];
      [|apply tail_ends|apply tail_ends].
    apply (tail_readable items Hr Hg items') in H as [-> ->]; done.
Qed.
End Items.

(** Members of arrays and objects are finite when the whole is. *)
Lemma finite_items items : finite_json (jarr items) = true ->
  Forall (fun x => finite_json x = true) items.
Proof. cbn. rewrite forallb_elem, Forall_forall. auto. Qed.

Lemma finite_fields fields : finite_json (jobj fields) = true ->
  Forall (fun f => finite_json f.2 = true) fields.
Proof.
  cbn. rewrite forallb_elem, Forall_forall. intros H [k x] Hx. by apply (H (k, x)).
Qed.

Hypothesis rendering : number_rendering.

Definition finite_good (v : JsonValue) : Prop := finite_json v = true.

(** The first unit tells the kind of value. *)
Definition value_head (v : JsonValue) : ascii -> bool :=
  match v with
  | jnull => fun c => c === "n"%char
  | jbool true => fun c => c === "t"%char
  | jbool false => fun c => c === "f"%char
  | jstr _ => fun c => c === dquote
  | jnum _ => number_unit
  | jarr _ => fun c => c === "["%char
  | jobj _ => fun c => c === "{"%char
  end.

Lemma print_head v : finite_good v ->
  match print_json v with [] => False | c :: _ => value_head v c = true end.
Proof.
  destruct v as [|[]|n|t|items|fields]; intros Hf; try done.
  cbn. destruct (number_text rendering n Hf) as [Hne Hcls].
  destruct (units (number_to_string n)); [done|]. cbn in Hcls. by bool_hyps.
Qed.

Lemma print_not_closing v : finite_good v ->
  match print_json v with [] => False | c :: _ => c ∉ units ",]}" end.
Proof.
  intros Hf. pose proof (print_head v Hf) as H. destruct (print_json v) as [|c l]; [done|].
  rewrite list_elem_of_In. cbn. intros [<-|[<-|[<-|[]]]];
    destruct v as [|[]|n|t|items|fields]; by vm_compute in H.
Qed.

Lemma same_head a b ra rb : finite_good a -> finite_good b ->
  print_json a ++ ra = print_json b ++ rb ->
  exists c, value_head a c = true /\ value_head b c = true.
Proof.
  intros Ha Hb H. apply print_head in Ha, Hb.
  destruct (print_json a) as [|c la], (print_json b) as [|d lb]; try done.
  injection H as -> _. eauto.
Qed.

Lemma print_readable v : readable finite_good print_json v.
Proof.
  induction v as [|x|n|t|items IH|fields IH] using JsonValue_nested_ind;
    intros Hv b ra rb Hb Hra Hrb H;
    destruct (same_head _ _ _ _ Hv Hb H) as (c & Hc & Hd);
    destruct b as [|y|m|u|items'|fields'];
    try (exfalso; clear - Hc Hd; cbn in Hc, Hd; repeat case_match; bool_hyps;
         subst; first [by vm_compute in Hd | by vm_compute in Hc]).
  - by injection H as ->.
  - destruct x, y; vm_compute in Hc; vm_compute in Hd; bool_hyps; try congruence;
      (split; [done|]); by injection H.
  - cbn in H.
    destruct (number_text rendering n Hv) as [_ Hn], (number_text rendering m Hb) as [_ Hm].
    apply (run_readable number_unit _ _ _ _ Hn Hm
      (ends_not_number _ Hra) (ends_not_number _ Hrb)) in H as [H ->].
    apply units_inj, (number_injective rendering n m Hv Hb) in H as ->. done.
  - cbn in H. apply quote_readable in H as [->%units_inj ->]. done.
  - cbn in H. rewrite <- !app_assoc in H. apply (f_equal tail) in H. cbn [tail app] in H.
    apply (items_readable finite_good print_json "]"%char) in H as [-> ->];
      [done|..].
    + rewrite list_elem_of_In. cbn. auto.
    + exact print_not_closing.
    + exact IH.
    + by apply finite_items.
    + by apply finite_items.
  - cbn in H. rewrite <- !app_assoc in H. apply (f_equal tail) in H. cbn [tail app] in H.
    apply (items_readable (fun f => finite_good f.2)
      (fun '(k, x) => print_field (units k, print_json x)) "}"%char) in H as [-> ->];
      [done|..|by apply finite_fields|by apply finite_fields].
    + rewrite list_elem_of_In. cbn. auto.
    + intros [k x] _. unfold print_field, quote_units. cbn.
      rewrite list_elem_of_In. vm_compute. intuition congruence.
    + eapply Forall_impl; [exact IH|]. intros [k x] Hx Hgx [k' y] ra' rb' Hgy Hra' Hrb' Heq.
      cbn in Hx, Hgx, Hgy, Heq. unfold print_field in Heq. cbn [fst snd] in Heq.
      rewrite <- (app_assoc (quote_units (units k))) in Heq.
      rewrite <- (app_assoc (quote_units (units k'))) in Heq.
      apply quote_readable in Heq as [->%units_inj Heq].
      injection Heq as Heq. apply (Hx Hgx y) in Heq as [-> ->]; done.
Qed.

(** ** Equality of values up to the order of object keys *)

#[warnings="-register-all"]
Inductive same_json : JsonValue -> JsonValue -> Prop :=
| same_scalar v : match v with jarr _ | jobj _ => False | _ => True end -> same_json v v
| same_array items items' :
    Forall2 same_json items items' -> same_json (jarr items) (jarr items')
| same_object fields permuted fields' :
    fields ≡ₚ permuted ->
    Forall2 (fun f g => f.1 = g.1 /\ same_json f.2 g.2) permuted fields' ->
    same_json (jobj fields) (jobj fields').

Lemma sort_keys_same v w : sort_keys v = sort_keys w -> same_json v w.
Proof.
  revert w. induction v as [|x|n|t|items IH|fields IH] using JsonValue_nested_ind;
    intros [|y|m|u|items'|fields'] H; try discriminate H;
    cbn [sort_keys] in H; try (rewrite H; by constructor).
  - by constructor.
  - constructor. injection H as H. revert items' H.
    induction IH as [|v items Hv _ IHi]; intros [|w items'] H; try discriminate H;
      [constructor|]. injection H as ? ?. constructor; auto.
  - injection H as H.
    assert (map (fun '(k, x) => (k, sort_keys x)) fields' ≡ₚ
            map (fun '(k, x) => (k, sort_keys x)) fields) as Hp.
    { by rewrite <- (sort_by_Permutation field_le), <- H, sort_by_Permutation. }
    apply Permutation_map_inv in Hp as (permuted & Hmap & Hp).
    apply (same_object _ permuted); [done|]. rewrite Hp in IH. clear H Hp.
    revert fields' Hmap. induction permuted as [|[k x] permuted IHp];
      intros [|[k' y] fields'] H; try discriminate H; [constructor|].
    injection H as Hk Hx Hr. constructor.
    + split; [done|]. apply Forall_cons in IH as [IHx _]. by apply IHx.
    + apply IHp; [|done]. by apply Forall_cons in IH as [_ ?].
Qed.

Lemma distinct_items items :
  foldr and True (map distinct_keys items) -> Forall distinct_keys items.
Proof. induction items; simpl; constructor; intuition. Qed.

Lemma distinct_fields (fields : list (string * JsonValue)) :
  foldr and True (map (fun '(_, x) => distinct_keys x) fields) ->
  Forall (fun f => distinct_keys f.2) fields.
Proof. induction fields as [|[k x] fields IH]; simpl; constructor; intuition. Qed.

Lemma map_fst_sort_keys (fields : list (string * JsonValue)) :
  (map (fun '(k, x) => (k, sort_keys x)) fields).*1 = fields.*1.
Proof. induction fields as [|[k x] fields IH]; [done|]. cbn. f_equal. exact IH. Qed.

Lemma same_sort_keys v w : distinct_keys v -> same_json v w -> sort_keys v = sort_keys w.
Proof.
  revert w. induction v as [|x|n|t|items IH|fields IH] using JsonValue_nested_ind;
    intros w Hd Hs; inversion Hs as [? Hsc|? items' H2|? permuted fields' Hp H2]; subst;
    try done; cbn [sort_keys]; f_equal.
  - cbn in Hd. apply distinct_items in Hd. clear Hs.
    induction H2; [done|]. apply Forall_cons in IH as [? ?], Hd as [? ?]. simpl.
    f_equal; auto.
  - destruct Hd as [Hn Hd%distinct_fields].
    assert (map (fun '(k, x) => (k, sort_keys x)) permuted =
            map (fun '(k, x) => (k, sort_keys x)) fields') as <-.
    { rewrite Hp in IH, Hd. clear Hs Hp Hn.
      induction H2 as [|[k x] [k' y] permuted fields' [? ?] _ IHp]; [done|].
      apply Forall_cons in IH as [Hx ?], Hd as [? ?]. cbn in *. subst.
      f_equal; auto. f_equal. auto. }
    assert (NoDup (map (fun '(k, x) => (k, sort_keys x)) fields).*1) as Hn'.
    { rewrite map_fst_sort_keys. done. }
    apply sort_by_unique; [| | |by rewrite Hp].
    + intros [] []; apply string_le_total.
    + intros [] [] []; apply string_le_trans.
    + intros [k x] [l y] Hx Hy H1 H2'. cbn in H1, H2'.
      pose proof (string_le_antisym _ _ H1 H2') as ->.
      apply (jm_elem_get (K := string)) in Hx, Hy; try done. congruence.
Qed.

Lemma sort_keys_finite v : finite_json (sort_keys v) = finite_json v.
Proof.
  induction v as [|x|n|t|items IH|fields IH] using JsonValue_nested_ind; try done; cbn.
  - rewrite <- (forallb_ext_Forall _ _ _ IH). clear.
    induction items as [|v items IHi]; [done|]. cbn. by f_equal.
  - apply Bool.eq_iff_eq_true. rewrite !forallb_elem. setoid_rewrite sort_by_elem.
    rewrite Forall_forall in IH. split.
    + intros H [k x] Hx. specialize (IH _ Hx). cbn in IH. rewrite <- IH. apply (H (k, sort_keys x)).
      rewrite list_elem_of_fmap. by exists (k, x).
    + intros H [k y] Hy. rewrite list_elem_of_fmap in Hy.
      destruct Hy as ([l x] & [= -> ->] & Hx). specialize (IH _ Hx). cbn in IH.
      rewrite IH. by apply (H (l, x)).
Qed.

(** The encoding fails exactly on values with a non-finite number. *)
Lemma canonicalJson_total v : is_ok (canonicalJson v) = finite_json v.
Proof.
  induction v as [|x|n|t|items IH|fields IH] using JsonValue_nested_ind; try done; cbn.
  - by destruct (isFinite n).
  - rewrite is_ok_bind_ret, mapM_map, mapM_is_ok. by apply forallb_ext_Forall.
  - rewrite is_ok_bind_ret, mapM_is_ok.
    apply Bool.eq_iff_eq_true. rewrite !forallb_elem. setoid_rewrite sort_by_elem.
    rewrite Forall_forall in IH. split.
    + intros H [k x] Hx. specialize (IH _ Hx). cbn in IH. rewrite <- IH.
      specialize (H (k, canonicalJson x)). cbn in H. rewrite is_ok_bind_ret in H.
      apply H. rewrite list_elem_of_fmap. by exists (k, x).
    + intros H [k y] Hy. rewrite list_elem_of_fmap in Hy.
      destruct Hy as ([l x] & [= -> ->] & Hx). cbn. rewrite is_ok_bind_ret.
      specialize (IH _ Hx). cbn in IH. rewrite IH. by apply (H (l, x)).
Qed.

Lemma canonicalJson_finite v s : canonicalJson v = Ok s -> finite_json v = true.
Proof. intros H. by rewrite <- canonicalJson_total, H. Qed.

Lemma same_json_finite a b : distinct_keys a -> same_json a b ->
  finite_json b = finite_json a.
Proof.
  intros Hd Hs. rewrite <- (sort_keys_finite a), <- (sort_keys_finite b).
  by rewrite (same_sort_keys _ _ Hd Hs).
Qed.

Lemma same_canonicalJson a b : distinct_keys a -> same_json a b ->
  finite_json a = true -> exists s, canonicalJson a = Ok s /\ canonicalJson b = Ok s.
Proof.
  intros Hd Hs Hf. pose proof (same_json_finite _ _ Hd Hs) as Hfb. rewrite Hf in Hfb.
  rewrite <- canonicalJson_total in Hf, Hfb.
  destruct (canonicalJson a) as [s|] eqn:Ha; [|done].
  destruct (canonicalJson b) as [t|] eqn:Hb; [|done].
  exists s. split; [done|]. f_equal. apply canonicalJson_print in Ha, Hb.
  apply units_inj. by rewrite Ha, Hb, (same_sort_keys _ _ Hd Hs).
Qed.

(** Two payloads have the same canonical text exactly when they are the same
    value up to the order of object keys. *)
Lemma canonicalJson_same a b s t :
  distinct_keys a -> canonicalJson a = Ok s -> canonicalJson b = Ok t ->
  s = t <-> same_json a b.
Proof.
  intros Hd Ha Hb. pose proof (canonicalJson_finite _ _ Ha) as Hfa.
  pose proof (canonicalJson_finite _ _ Hb) as Hfb.
  apply canonicalJson_print in Ha, Hb. split.
  - intros ->. rewrite Ha in Hb. apply sort_keys_same.
    assert (print_json (sort_keys a) ++ [] = print_json (sort_keys b) ++ []) as Heq
      by (by rewrite !app_nil_r).
    apply print_readable in Heq as [? _]; try done;
      unfold finite_good; by rewrite sort_keys_finite.
  - intros Hs. apply same_sort_keys in Hs; [|done]. apply units_inj. congruence.
Qed.
End Canonical.

(** ** A concrete rendering of numbers that has the assumed properties *)

Definition render_units (n : num) : string :=
  match n with Fin z => decimal z | NaN => "NaN" | PInf => "Infinity" | NInf => "-Infinity" end.

Lemma render_units_ok : number_rendering render_units.
Proof.
  constructor.
  - intros [| | |z] Hf; try discriminate Hf. cbn [render_units].
    destruct (decimal_units z) as [Hne Hd]. split; [done|].
    rewrite forallb_elem in *. intros c Hc. apply Hd in Hc. revert Hc. clear.
    unfold number_unit, decimal_unit. rewrite !existsb_elem.
    intros (d & Hd & Heq). exists d. split; [|done]. revert Hd.
    rewrite !list_elem_of_In. cbn. intuition.
  - intros [| | |z] [| | |w] Hz Hw; try discriminate Hz; try discriminate Hw.
    cbn [render_units]. by intros ->%decimal_inj.
Qed.
