(* ===== verification/Ids.v ===== *)
(** Stable identifiers: the 64-bit FNV-1a hash, its base-36 rendering and the
    entity identifiers built from it (packages/protocol/src/ids.ts). *)

From Stdlib Require Import ZArith Lia Ascii String.
From stdpp Require Import base strings list.
From S2P Require Import Prelude JsString Protocol.

Open Scope string_scope.
Open Scope list_scope.

(** Source: packages/protocol/src/ids.ts:11-36 [ENTITY_KINDS]. *)
Definition ENTITY_KINDS : list string :=
  ["mission"; "run"; "goal"; "task"; "agent"; "session-epoch"; "milestone";
   "checkpoint"; "requirement"; "evidence"; "decision"; "problem"; "validation";
   "artifact"; "tool-call"; "git-change"; "cost-record"; "recovery-state";
   "lease"; "event"; "context-snapshot"; "memory-entry"; "approval";
   "agent-message"].

(** Source: packages/protocol/src/ids.ts:69-69 [FNV64_OFFSET]. *)
Definition FNV64_OFFSET : Z := 0xcbf29ce484222325.
(** Source: packages/protocol/src/ids.ts:70-70 [FNV64_PRIME]. *)
Definition FNV64_PRIME : Z := 0x100000001b3.
(** Source: packages/protocol/src/ids.ts:71-71 [UINT64_MASK]. *)
Definition UINT64_MASK : Z := 0xffffffffffffffff.
(** Source: packages/protocol/src/ids.ts:72-72 [HASH_WIDTH]. *)
Definition HASH_WIDTH : nat := 13.

(** One round of the loop of [deterministicHash]. *)
Definition fnv_step (hash : Z) (c : ascii) : Z :=
  Z.land (Z.lxor hash (code c) * FNV64_PRIME) UINT64_MASK.

Definition fnv1a (value : list ascii) : Z := foldl fnv_step FNV64_OFFSET value.

(** A base-36 digit, [0-9a-z]. *)
Definition digit36 (d : Z) : ascii :=
  ascii_of_nat (Z.to_nat (if d <? 10 then 48 + d else 87 + d)%Z).

(** [hash.toString(36)], most significant digit first; [fuel] bounds the number
    of digits and 13 digits hold every 64-bit value. *)
Fixpoint base36 (fuel : nat) (n : Z) (acc : list ascii) : list ascii :=
  match fuel with
  | O => acc
  | S fuel =>
      let acc := digit36 (n mod 36) :: acc in
      if (n / 36 =? 0)%Z then acc else base36 fuel (n / 36) acc
  end.

(** [s.padStart(width, fill)] for a one-unit fill. *)
Definition padStart (width : nat) (fill : ascii) (l : list ascii) : list ascii :=
  repeat fill (width - length l) ++ l.

(** Source: packages/protocol/src/ids.ts:78-87 [deterministicHash]. *)
Definition deterministicHash (value : string) : string :=
  of_units (padStart HASH_WIDTH "0" (base36 HASH_WIDTH (fnv1a (units value)) [])).

(** Source: packages/protocol/src/ids.ts:90-106 [createDeterministicId]. *)
Definition createDeterministicId (kind seed : string) : exc string :=
  _ ← throw_if (negb (existsb (fun k => k === kind) ENTITY_KINDS))
        (TypeError ("Unknown entity kind: " +:+ kind));
  _ ← throw_if (string_length seed =? 0)%Z
        (TypeError "A deterministic ID seed must not be empty");
  mret (kind +:+ "_" +:+ deterministicHash (kind +:+ ":" +:+ seed)).

Definition createId := createDeterministicId.

(** Source: packages/protocol/src/ids.ts:131-133 [escapeRegExp]. *)
Definition escapeRegExp (value : string) : list ascii := escape_units (units value).

(** Source: packages/protocol/src/ids.ts:108-118 [isEntityId]. *)
Definition isEntityId (kind value : string) : bool :=
  match_atoms
    (parse_regex (escapeRegExp kind ++ ["_"%char]) ++ repeat DigitOrLower HASH_WIDTH)
    (units value).

(** Source: packages/protocol/src/ids.ts:124-129 [parseEntityId]. *)
Definition parseEntityId (kind value : string) : option string :=
  if isEntityId kind value then Some value else None.

(** ** Bounds of the hash *)

Definition is_u64 (n : Z) : Prop := (0 <= n < 2 ^ 64)%Z.

Lemma land_mask n : Z.land n UINT64_MASK = (n mod 2 ^ 64)%Z.
Proof. change UINT64_MASK with (Z.ones 64). by apply Z.land_ones. Qed.

Lemma fnv_step_u64 hash c : is_u64 (fnv_step hash c).
Proof.
  unfold is_u64, fnv_step. rewrite land_mask. apply Z.mod_pos_bound. lia.
Qed.

Lemma fnv1a_u64 l : is_u64 (fnv1a l).
Proof.
  unfold fnv1a. assert (is_u64 FNV64_OFFSET) as H by (unfold is_u64; vm_compute; done).
  revert H. generalize FNV64_OFFSET.
  induction l as [|c l IH]; intros h Hh; [done|]. apply IH, fnv_step_u64.
Qed.

(** ** Digits *)

Lemma digit36_class d : (0 <= d < 36)%Z -> digit_or_lower (digit36 d) = true.
Proof.
  intros Hd. unfold digit_or_lower, digit36, code.
  rewrite nat_ascii_embedding by (case_match; lia).
  case_match; lia.
Qed.

Lemma base36_spec fuel n acc :
  (0 <= n < 36 ^ Z.of_nat fuel)%Z -> forallb digit_or_lower acc = true ->
  forallb digit_or_lower (base36 fuel n acc) = true /\
  length (base36 fuel n acc) <= fuel + length acc.
Proof.
  revert n acc. induction fuel as [|fuel IH]; intros n acc Hn Hacc.
  { split; [done|simpl; lia]. }
  cbn [base36]. pose proof (Z.mod_pos_bound n 36 ltac:(lia)).
  assert (forallb digit_or_lower (digit36 (n mod 36) :: acc) = true) as Hacc'.
  { simpl. by rewrite digit36_class. }
  case_match; [split; [done|simpl; lia]|].
  destruct (IH (n / 36)%Z (digit36 (n mod 36) :: acc)) as [Hc Hl]; [|done|].
  - split; [apply Z.div_pos; lia|]. apply Z.div_lt_upper_bound; [lia|].
    rewrite Nat2Z.inj_succ, Z.pow_succ_r in Hn by lia. lia.
  - split; [done|]. simpl in Hl. lia.
Qed.

Lemma padStart_spec width l :
  length l <= width -> forallb digit_or_lower l = true ->
  length (padStart width "0" l) = width /\
  forallb digit_or_lower (padStart width "0" l) = true.
Proof.
  intros Hlen Hl. unfold padStart. rewrite length_app, repeat_length.
  split; [lia|]. rewrite forallb_app, Hl, andb_true_r.
  induction (width - length l); done.
Qed.

Lemma deterministicHash_shape value :
  length (units (deterministicHash value)) = HASH_WIDTH /\
  forallb digit_or_lower (units (deterministicHash value)) = true.
Proof.
  unfold deterministicHash. rewrite units_of_units.
  destruct (base36_spec HASH_WIDTH (fnv1a (units value)) []) as [Hc Hl]; [|done|].
  - pose proof (fnv1a_u64 (units value)) as [? Hlt]. split; [done|].
    eapply Z.lt_trans; [exact Hlt|]. vm_compute. done.
  - apply padStart_spec; [|done].
    cbn [length] in Hl. by rewrite Nat.add_0_r in Hl.
Qed.

Lemma isEntityId_intro kind h :
  length (units h) = HASH_WIDTH -> forallb digit_or_lower (units h) = true ->
  isEntityId kind (kind +:+ "_" +:+ h) = true.
Proof.
  intros Hlen Hcls. unfold isEntityId, escapeRegExp.
  assert (escape_units (units kind) ++ ["_"%char] = escape_units (units (kind +:+ "_")))
    as ->.
  { rewrite units_app. generalize (units kind) as l.
    induction l as [|c l IH]; [done|]. simpl. case_match; simpl; by rewrite IH. }
  rewrite parse_escaped, !units_app. rewrite (app_assoc (units kind)).
  rewrite match_literal. apply match_class. auto.
Qed.

(** ** Properties *)

(** Every identifier [createDeterministicId] makes is accepted by
    [parseEntityId] for the same kind: the hash always renders to exactly
    thirteen units of [0-9a-z], and the kind's own units are matched literally. *)
Theorem createDeterministicId_parses kind seed id :
  createDeterministicId kind seed = Ok id -> parseEntityId kind id = Some id.
Proof.
  unfold createDeterministicId. intros H. inv_ok. unfold parseEntityId.
  destruct (deterministicHash_shape (kind +:+ ":" +:+ seed)).
  by rewrite isEntityId_intro.
Qed.

Lemma createDeterministicId_parses_witness :
  createDeterministicId "run" "seed" = Ok "run_370agvk6jpe9x" /\
  parseEntityId "run" "run_370agvk6jpe9x" = Some "run_370agvk6jpe9x".
Proof.
  assert (createDeterministicId "run" "seed" = Ok "run_370agvk6jpe9x") as H
    by (vm_compute; reflexivity).
  split; [exact H|]. exact (createDeterministicId_parses "run" "seed" _ H).
Defined.
