(* ===== verification/StateMachine.v ===== *)
(** The lifecycle tables of runs, goals, tasks and agents and the functions
    that consult them (packages/core/src/state-machine.ts). *)

From stdpp Require Import base strings list relations.
From S2P Require Import Prelude Protocol.

Open Scope string_scope.
Open Scope list_scope.

(** Source: packages/core/src/state-machine.ts:14-16 [TransitionTable]. *)
Definition TransitionTable (State : Type) : Type := State -> list State.

(** Source: packages/core/src/state-machine.ts:19-59 [RUN_TRANSITIONS]. *)
Definition RUN_TRANSITIONS : TransitionTable RunStatus := fun from =>
  match from with
  | run_queued => [run_running; run_paused; run_failed; run_cancelled]
  | run_running =>
      [run_waiting_external; run_paused; run_recovering; run_blocked;
       run_budget_limited; run_usage_limited; run_failed; run_completed;
       run_cancelled]
  | run_waiting_external =>
      [run_running; run_paused; run_recovering; run_blocked;
       run_budget_limited; run_usage_limited; run_failed; run_cancelled]
  | run_paused => [run_queued; run_running; run_recovering; run_cancelled]
  | run_recovering =>
      [run_running; run_waiting_external; run_paused; run_blocked;
       run_budget_limited; run_usage_limited; run_failed; run_cancelled]
  | run_blocked => [run_queued; run_running; run_paused; run_cancelled]
  | run_budget_limited => [run_queued; run_running; run_paused; run_cancelled]
  | run_usage_limited => [run_queued; run_running; run_paused; run_cancelled]
  | run_failed => []
  | run_completed => []
  | run_cancelled => []
  end.

(** Source: packages/core/src/state-machine.ts:62-86 [GOAL_TRANSITIONS]. *)
Definition GOAL_TRANSITIONS : TransitionTable GoalStatus := fun from =>
  match from with
  | goal_active =>
      [goal_paused; goal_blocked; goal_waiting_external; goal_budget_limited;
       goal_usage_limited; goal_complete; goal_cancelled]
  | goal_paused => [goal_active; goal_cancelled]
  | goal_blocked => [goal_active; goal_paused; goal_cancelled]
  | goal_waiting_external =>
      [goal_active; goal_paused; goal_blocked; goal_budget_limited;
       goal_usage_limited; goal_cancelled]
  | goal_budget_limited => [goal_active; goal_paused; goal_cancelled]
  | goal_usage_limited => [goal_active; goal_paused; goal_cancelled]
  | goal_complete => []
  | goal_cancelled => []
  end.

(** Source: packages/core/src/state-machine.ts:89-98 [TASK_TRANSITIONS]. *)
Definition TASK_TRANSITIONS : TransitionTable TaskStatus := fun from =>
  match from with
  | task_pending => [task_ready; task_cancelled]
  | task_ready => [task_pending; task_running; task_cancelled]
  | task_running =>
      [task_waiting; task_blocked; task_completed; task_failed; task_cancelled]
  | task_waiting => [task_ready; task_running; task_blocked; task_cancelled]
  | task_blocked => [task_ready; task_pending; task_cancelled]
  | task_completed => []
  | task_failed => [task_ready; task_pending; task_cancelled]
  | task_cancelled => []
  end.

(** Source: packages/core/src/state-machine.ts:101-136 [AGENT_TRANSITIONS]. *)
Definition AGENT_TRANSITIONS : TransitionTable AgentStatus := fun from =>
  match from with
  | agent_created => [agent_queued; agent_stopped; agent_closed]
  | agent_queued =>
      [agent_running; agent_suspended; agent_stopped; agent_failed; agent_closed]
  | agent_running =>
      [agent_waiting; agent_suspended; agent_recovering; agent_completed;
       agent_failed; agent_stopped; agent_closed]
  | agent_waiting =>
      [agent_queued; agent_running; agent_suspended; agent_recovering;
       agent_stopped; agent_failed; agent_closed]
  | agent_suspended => [agent_queued; agent_running; agent_stopped; agent_closed]
  | agent_recovering =>
      [agent_queued; agent_running; agent_waiting; agent_suspended;
       agent_failed; agent_stopped; agent_closed]
  | agent_completed => [agent_closed]
  | agent_failed => [agent_queued; agent_recovering; agent_closed]
  | agent_stopped => [agent_queued; agent_closed]
  | agent_closed => []
  end.

Section Generic.
Context {State : Type} `{EqDecision State}.
Implicit Types (transitions : TransitionTable State) (from to : State).

(** Source: packages/core/src/state-machine.ts:154-160 [canTransition]. *)
Definition canTransition transitions from to : bool :=
  existsb (fun candidate => candidate === to) (transitions from).

(** Source: packages/core/src/state-machine.ts:250-259 [assertTransition]. *)
Definition assertTransition (str : State -> string) (entity : string)
  transitions from to : exc unit :=
  throw_if (negb (canTransition transitions from to))
    (InvalidStateTransitionError entity (str from) (str to)).

(** Source: packages/core/src/state-machine.ts:261-268 [isOneOf]. *)
Definition isOneOf (values : list string) (value : string) : bool :=
  existsb (fun candidate => candidate === value) values.

Lemma canTransition_elem transitions from to :
  canTransition transitions from to = true <-> to ∈ transitions from.
Proof.
  unfold canTransition. rewrite existsb_elem. split.
  - intros (c & ? & Hc). bool_hyps. by subst.
  - intros H. exists to. by rewrite bool_decide_eq_true_2.
Qed.

Lemma assertTransition_ok str entity transitions from to u :
  assertTransition str entity transitions from to = Ok u <->
  canTransition transitions from to = true.
Proof. unfold assertTransition. by rewrite throw_if_ok, negb_false_iff. Qed.

Lemma assertTransition_throws str entity transitions from to :
  canTransition transitions from to = false ->
  assertTransition str entity transitions from to =
    Throw (InvalidStateTransitionError entity (str from) (str to)).
Proof. unfold assertTransition. by intros ->. Qed.
End Generic.

(** Source: packages/core/src/state-machine.ts:138-140 [isRunStatus]. *)
Definition isRunStatus (value : string) : bool :=
  isOneOf (map RunStatus_str RUN_STATUSES) value.
(** Source: packages/core/src/state-machine.ts:142-144 [isGoalStatus]. *)
Definition isGoalStatus (value : string) : bool :=
  isOneOf (map GoalStatus_str GOAL_STATUSES) value.
(** Source: packages/core/src/state-machine.ts:146-148 [isTaskStatus]. *)
Definition isTaskStatus (value : string) : bool :=
  isOneOf (map TaskStatus_str TASK_STATUSES) value.
(** Source: packages/core/src/state-machine.ts:150-152 [isAgentStatus]. *)
Definition isAgentStatus (value : string) : bool :=
  isOneOf (map AgentStatus_str AGENT_STATUSES) value.

(** Source: packages/core/src/state-machine.ts:162-164 [canTransitionRun]. *)
Definition canTransitionRun := canTransition RUN_TRANSITIONS.
(** Source: packages/core/src/state-machine.ts:166-168 [canTransitionGoal]. *)
Definition canTransitionGoal := canTransition GOAL_TRANSITIONS.
(** Source: packages/core/src/state-machine.ts:170-172 [canTransitionTask]. *)
Definition canTransitionTask := canTransition TASK_TRANSITIONS.
(** Source: packages/core/src/state-machine.ts:174-179 [canTransitionAgent]. *)
Definition canTransitionAgent := canTransition AGENT_TRANSITIONS.

(** Source: packages/core/src/state-machine.ts:181-183 [assertRunTransition]. *)
Definition assertRunTransition :=
  assertTransition RunStatus_str "run" RUN_TRANSITIONS.
(** Source: packages/core/src/state-machine.ts:185-187 [assertGoalTransition]. *)
Definition assertGoalTransition :=
  assertTransition GoalStatus_str "goal" GOAL_TRANSITIONS.
(** Source: packages/core/src/state-machine.ts:189-191 [assertTaskTransition]. *)
Definition assertTaskTransition :=
  assertTransition TaskStatus_str "task" TASK_TRANSITIONS.
(** Source: packages/core/src/state-machine.ts:193-198 [assertAgentTransition]. *)
Definition assertAgentTransition :=
  assertTransition AgentStatus_str "agent" AGENT_TRANSITIONS.

(** Source: packages/core/src/state-machine.ts:200-203 [transitionRunStatus]. *)
Definition transitionRunStatus (from to : RunStatus) : exc RunStatus :=
  _ ← assertRunTransition from to; mret to.
(** Source: packages/core/src/state-machine.ts:205-211 [transitionGoalStatus]. *)
Definition transitionGoalStatus (from to : GoalStatus) : exc GoalStatus :=
  _ ← assertGoalTransition from to; mret to.
(** Source: packages/core/src/state-machine.ts:213-219 [transitionTaskStatus]. *)
Definition transitionTaskStatus (from to : TaskStatus) : exc TaskStatus :=
  _ ← assertTaskTransition from to; mret to.
(** Source: packages/core/src/state-machine.ts:221-227 [transitionAgentStatus]. *)
Definition transitionAgentStatus (from to : AgentStatus) : exc AgentStatus :=
  _ ← assertAgentTransition from to; mret to.

(** Source: packages/core/src/state-machine.ts:229-231 [isTerminalRunStatus]. *)
Definition isTerminalRunStatus (s : RunStatus) : bool :=
  Nat.eqb (length (RUN_TRANSITIONS s)) 0.
(** Source: packages/core/src/state-machine.ts:233-235 [isTerminalGoalStatus]. *)
Definition isTerminalGoalStatus (s : GoalStatus) : bool :=
  Nat.eqb (length (GOAL_TRANSITIONS s)) 0.
(** Source: packages/core/src/state-machine.ts:237-239 [isTerminalTaskStatus]. *)
Definition isTerminalTaskStatus (s : TaskStatus) : bool :=
  Nat.eqb (length (TASK_TRANSITIONS s)) 0.
(** Source: packages/core/src/state-machine.ts:241-243 [isTerminalAgentStatus]. *)
Definition isTerminalAgentStatus (s : AgentStatus) : bool :=
  Nat.eqb (length (AGENT_TRANSITIONS s)) 0.

(** Source: packages/core/src/state-machine.ts:246-248 [shouldContinueGoal]. *)
Definition shouldContinueGoal (s : GoalStatus) : bool := s === goal_active.

(** Source: packages/protocol/src/contracts.ts:56-59 [RunTerminalStatus]. *)
Definition RunTerminalStatus : list RunStatus :=
  [run_failed; run_completed; run_cancelled].
(** Source: packages/protocol/src/contracts.ts:72-72 [GoalTerminalStatus]. *)
Definition GoalTerminalStatus : list GoalStatus := [goal_complete; goal_cancelled].
(** Source: packages/protocol/src/contracts.ts:85-85 [TaskTerminalStatus]. *)
Definition TaskTerminalStatus : list TaskStatus := [task_completed; task_cancelled].
(** Source: packages/protocol/src/contracts.ts:101-101 [AgentTerminalStatus]. *)
Definition AgentTerminalStatus : list AgentStatus := [agent_closed].

(** ** Facts the other files use *)

Lemma terminal_run_stuck s to :
  isTerminalRunStatus s = true -> canTransitionRun s to = false.
Proof. by destruct s. Qed.

Lemma run_no_self_loop s : canTransitionRun s s = false.
Proof. by destruct s. Qed.

Lemma agent_no_self_loop s : canTransitionAgent s s = false.
Proof. by destruct s. Qed.

Lemma completed_only_from_running s :
  canTransitionRun s run_completed = true -> s = run_running.
Proof. by destruct s. Qed.

#[export] Hint Resolve terminal_run_stuck completed_only_from_running : s2p.

(** One step of a lifecycle table. *)
Definition lifecycle_step {S} `{EqDecision S} (t : TransitionTable S) (a b : S) : Prop :=
  canTransition t a b = true.

(** ** Properties *)

(** The statuses without an outgoing edge in the four tables are exactly
    the protocol's terminal status types, in every table no status has an edge
    to itself, and a run that has reached a terminal status stays there along
    every sequence of allowed transitions. *)
Theorem lifecycle_tables_terminal :
  (forall s, isTerminalRunStatus s = true <-> s ∈ RunTerminalStatus) /\
  (forall s, isTerminalGoalStatus s = true <-> s ∈ GoalTerminalStatus) /\
  (forall s, isTerminalTaskStatus s = true <-> s ∈ TaskTerminalStatus) /\
  (forall s, isTerminalAgentStatus s = true <-> s ∈ AgentTerminalStatus) /\
  (forall s, canTransitionRun s s = false) /\
  (forall s, canTransitionGoal s s = false) /\
  (forall s, canTransitionTask s s = false) /\
  (forall s, canTransitionAgent s s = false) /\
  (forall s t, s ∈ RunTerminalStatus -> rtc (lifecycle_step RUN_TRANSITIONS) s t -> t = s).
Proof.
  do 8 (split; [intros s; destruct s; first [reflexivity
    | rewrite list_elem_of_In; vm_compute; intuition congruence]|]).
  intros s t Hs Hrtc. destruct Hrtc as [|s s' t Hstep _]; [done|].
  unfold lifecycle_step in Hstep. rewrite list_elem_of_In in Hs.
  destruct Hs as [<-|[<-|[<-|[]]]]; discriminate Hstep.
Qed.

(** A run can always be driven on: from every non-terminal status there is
    a sequence of allowed transitions to [completed], cancelling is a single
    allowed transition, and [completed] is entered from [running] only. *)
Theorem run_lifecycle_progress s :
  isTerminalRunStatus s = false ->
  rtc (lifecycle_step RUN_TRANSITIONS) s run_completed /\
  transitionRunStatus s run_cancelled = Ok run_cancelled /\
  (transitionRunStatus s run_completed = Ok run_completed <-> s = run_running).
Proof.
  assert (lifecycle_step RUN_TRANSITIONS run_running run_completed) as Hdone by done.
  destruct s; try discriminate; intros _;
    (split; [|split; [reflexivity|split; intros H; first [done | discriminate H]]]).
  all: first [ by apply rtc_once
             | eapply rtc_l; [|apply rtc_once, Hdone]; reflexivity ].
Qed.

Lemma run_lifecycle_progress_witness :
  isTerminalRunStatus run_recovering = false /\
  rtc (lifecycle_step RUN_TRANSITIONS) run_recovering run_completed.
Proof.
  split; [reflexivity|].
  exact (proj1 (run_lifecycle_progress run_recovering eq_refl)).
Defined.
