(* ===== verification/Policies.v ===== *)
(** Permission policies, resource scopes and tool recovery
    (packages/core/src/policies.ts, the part that is not about budgets). *)

From Stdlib Require Import ZArith Lia Ascii.
From stdpp Require Import base strings list.
From S2P Require Import Prelude JsNumber JsString Protocol.

Open Scope string_scope.
Open Scope list_scope.

(** * Wildcards and resource scopes *)

(** Source: packages/core/src/policies.ts:531-536 [wildcardMatches]. *)
Definition wildcardMatches (pattern value : string) : bool :=
  match_atoms (wildcard_regex pattern) (units value).

(** Source: packages/core/src/policies.ts:538-540 [stripTrailingSlash]. *)
Definition stripTrailingSlash (value : string) : string :=
  strip_trailing "/"%char value.

(** Source: packages/core/src/policies.ts:383-406 [resourceIdentifiersOverlap]. *)
Definition resourceIdentifiersOverlap (kind : ResourceKind) (left right : string) : bool :=
  if (left === right) || wildcardMatches left right || wildcardMatches right left
  then true
  else if kind !== rk_file then false
  else
    let normalizedLeft := stripTrailingSlash left in
    let normalizedRight := stripTrailingSlash right in
    startsWith normalizedLeft (normalizedRight +:+ "/") ||
    startsWith normalizedRight (normalizedLeft +:+ "/").

(** Source: packages/core/src/policies.ts:372-381 [assertValidResourceScope]. *)
Definition assertValidResourceScope (scope : ResourceScope) : exc unit :=
  throw_if (is_blank (scope_identifier scope))
    (InvariantViolationError "Resource scope identifiers must not be empty").

(** Source: packages/core/src/policies.ts:130-146 [resourceScopesConflict]. *)
Definition resourceScopesConflict (left right : ResourceScope) : bool :=
  if (scope_kind left !== scope_kind right) ||
     (scope_access left === ac_read) && (scope_access right === ac_read)
  then false
  else resourceIdentifiersOverlap (scope_kind left)
         (scope_identifier left) (scope_identifier right).

(** Source: packages/core/src/policies.ts:148-155 [anyResourceScopeConflict]. *)
Definition anyResourceScopeConflict (left right : list ResourceScope) : bool :=
  existsb (fun leftScope =>
    existsb (fun rightScope => resourceScopesConflict leftScope rightScope) right) left.

(** Source: packages/core/src/policies.ts:157-159 [resourceScopeKey]. *)
Definition resourceScopeKey (scope : ResourceScope) : string :=
  ResourceKind_str (scope_kind scope) +:+ ":" +:+ scope_identifier scope +:+ ":" +:+
  ResourceAccessMode_str (scope_access scope).

(** * Tool recovery *)

(** Source: packages/core/src/policies.ts:53-101 [decideToolRecovery]. *)
Definition decideToolRecovery (tool : ToolDefinition) : ToolRecoveryDecision :=
  if recovery tool === rec_manual then
    {| decision_action := rec_manual;
       decision_reason := "The tool explicitly requires manual recovery";
       requiresReconciliation := false |}
  else if recovery tool === rec_reconcile then
    {| decision_action := rec_reconcile;
       decision_reason :=
         "The tool requires state reconciliation before another execution";
       requiresReconciliation := true |}
  else if (sideEffectClass tool === se_external) ||
          (sideEffectClass tool === se_destructive) then
    {| decision_action :=
         if sideEffectClass tool === se_external then rec_reconcile else rec_manual;
       decision_reason :=
         if sideEffectClass tool === se_external
         then "External side effects must be reconciled rather than retried blindly"
         else "Destructive side effects must not be retried after an interrupted call";
       requiresReconciliation := sideEffectClass tool === se_external |}
  else if idempotency tool === id_safe then
    {| decision_action := rec_retry;
       decision_reason :=
         "The tool has no external side effect and is declared idempotently safe";
       requiresReconciliation := false |}
  else
    {| decision_action :=
         if idempotency tool === id_conditional then rec_reconcile else rec_manual;
       decision_reason :=
         if idempotency tool === id_conditional
         then "Conditional idempotency requires reconciliation before retry"
         else "Unsafe idempotency requires manual recovery";
       requiresReconciliation := idempotency tool === id_conditional |}.

(** Source: packages/core/src/policies.ts:104-127 [assertValidToolDefinition]. *)
Definition assertValidToolDefinition (tool : ToolDefinition) : exc unit :=
  _ ← throw_if (is_blank (tool_name tool))
        (InvariantViolationError "Tool names must not be empty");
  _ ← for_each assertValidResourceScope (tool_resourceScopes tool);
  throw_if ((recovery tool === rec_retry) &&
            ((idempotency tool !== id_safe) ||
             (sideEffectClass tool !== se_none) &&
             (sideEffectClass tool !== se_workspace)))
    (InvariantViolationError
       "Retry recovery is only valid for safe, non-external tool operations").

(** * Permissions *)

(** Source: packages/core/src/policies.ts:31-40 [PermissionEvaluationInput]. *)
Record PermissionEvaluationInput := {
  in_action : PermissionAction;
  in_toolName : option string;
  in_resourceScope : option ResourceScope;
  in_runPolicy : PermissionPolicy;
  in_rolePolicy : option PermissionPolicy;
  in_toolPolicy : option PermissionPolicy;
  in_sandbox : option SandboxPolicy;
  in_requiresApproval : option bool }.

(** Source: packages/core/src/policies.ts:42-46 [PermissionEvaluation]. *)
Record PermissionEvaluation := {
  ev_action : PermissionAction;
  ev_decision : PermissionEffect;
  ev_reasons : list string }.

(** Source: packages/core/src/policies.ts:520-529 [permissionRank]. *)
Definition permissionRank (effect : PermissionEffect) : Z :=
  match effect with pe_allow => 2 | pe_prompt => 1 | pe_deny => 0 end.

(** The reducer of both [reduce] calls: keep the lower rank. *)
Definition stricter (current effect : PermissionEffect) : PermissionEffect :=
  if (permissionRank effect <? permissionRank current)%Z then effect else current.

(** Source: packages/core/src/policies.ts:456-482 [defaultPermissionEffect]. *)
Definition defaultPermissionEffect (mode : PermissionMode) (action : PermissionAction)
  : PermissionEffect :=
  match mode with
  | pm_safe =>
      if action === pa_read then pe_allow
      else if (action === pa_write) || (action === pa_execute) then pe_prompt
      else pe_deny
  | pm_standard =>
      if action === pa_read then pe_allow
      else if action === pa_destructive then pe_deny
      else pe_prompt
  | pm_autonomous =>
      if (action === pa_destructive) || (action === pa_approve) then pe_deny
      else if action === pa_external then pe_prompt
      else pe_allow
  | pm_unrestricted => pe_allow
  | pm_custom => pe_deny (* excluded by the parameter's type *)
  end.

(** Source: packages/core/src/policies.ts:437-454 [ruleMatches]. *)
Definition ruleMatches (rule : PermissionRule) (input : PermissionEvaluationInput) : bool :=
  if (rule_action rule !== any_action) && (rule_action rule !== only (in_action input))
  then false
  else if match rule_toolName rule with
          | Some name => Some name !== in_toolName input
          | None => false
          end
  then false
  else match rule_resourcePattern rule with
       | Some pattern =>
           match in_resourceScope input with
           | Some scope => wildcardMatches pattern (scope_identifier scope)
           | None => false
           end
       | None => true
       end.

(** Source: packages/core/src/policies.ts:408-435 [evaluatePolicy]. *)
Definition evaluatePolicy (policy : PermissionPolicy) (input : PermissionEvaluationInput)
  : PermissionEffect :=
  let matchingRules :=
    List.filter (fun rule => ruleMatches rule input) (policy_rules policy ?? []) in
  if policy_mode policy === pm_custom then
    match matchingRules with
    | [] => pe_deny
    | _ => foldl (fun current rule => stricter current (rule_effect rule))
             pe_allow matchingRules
    end
  else
    foldl (fun current rule => stricter current (rule_effect rule))
      (defaultPermissionEffect (policy_mode policy) (in_action input)) matchingRules.

(** Source: packages/core/src/policies.ts:484-518 [evaluateSandboxConstraint]. *)
Definition evaluateSandboxConstraint (input : PermissionEvaluationInput)
  : option PermissionEffect :=
  match in_sandbox input with
  | None => None
  | Some sandbox =>
      if (in_action input === pa_network) && negb (network_enabled (sb_network sandbox))
      then Some pe_deny
      else if (in_action input === pa_execute) && negb (process_enabled (sb_process sandbox))
      then Some pe_deny
      else
        match in_resourceScope input with
        | Some scope =>
            if (in_action input !== pa_write) || (scope_kind scope !== rk_file)
            then None
            else
              let identifier := scope_identifier scope in
              let fs := sb_filesystem sandbox in
              if existsb (fun root => resourceIdentifiersOverlap rk_file root identifier)
                   (readOnlyRoots fs)
              then Some pe_deny
              else if Nat.eqb (length (writableRoots fs)) 0 ||
                      negb (existsb
                        (fun root => resourceIdentifiersOverlap rk_file root identifier)
                        (writableRoots fs))
              then Some pe_deny
              else None
        | None => None
        end
  end.

(** The list [evaluations] of [evaluatePermission], in the order of the pushes. *)
Definition permission_evaluations (input : PermissionEvaluationInput)
  : list (string * PermissionEffect) :=
  [("run", evaluatePolicy (in_runPolicy input) input)] ++
  match in_rolePolicy input with
  | Some p => [("role", evaluatePolicy p input)] | None => [] end ++
  match in_toolPolicy input with
  | Some p => [("tool", evaluatePolicy p input)] | None => [] end ++
  match in_sandbox input with
  | Some sandbox =>
      ("sandbox-policy", evaluatePolicy (sb_permissions sandbox) input) ::
      match evaluateSandboxConstraint input with
      | Some effect => [("sandbox-capability", effect)] | None => [] end
  | None => [] end ++
  (if in_requiresApproval input === Some true then [("approval", pe_prompt)] else []).

(** Source: packages/core/src/policies.ts:166-215 [evaluatePermission]. *)
Definition evaluatePermission (input : PermissionEvaluationInput) : PermissionEvaluation :=
  let evaluations := permission_evaluations input in
  let decision :=
    foldl (fun current evaluation => stricter current (snd evaluation))
      pe_allow evaluations in
  {| ev_action := in_action input;
     ev_decision := decision;
     ev_reasons :=
       map (fun evaluation => fst evaluation +:+ ":" +:+
              PermissionEffect_str (snd evaluation))
         (List.filter (fun evaluation => snd evaluation === decision) evaluations) |}.

(** Source: packages/core/src/policies.ts:217-235 [permissionActionsForTool]. *)
Definition permissionActionsForTool (tool : ToolDefinition) : list PermissionAction :=
  match required (tool_permissions tool) with
  | [] =>
      match sideEffectClass tool with
      | se_none => [pa_read]
      | se_workspace => [pa_write]
      | se_external => [pa_external]
      | se_destructive => [pa_destructive]
      end
  | declared => declared
  end.

(** The request of one action: the caller's input with [action] set and, when
    the tool requires it, [requiresApproval]. *)
Definition with_action (input : PermissionEvaluationInput) (action : PermissionAction)
  (approval : option bool) : PermissionEvaluationInput :=
  {| in_action := action;
     in_toolName := in_toolName input;
     in_resourceScope := in_resourceScope input;
     in_runPolicy := in_runPolicy input;
     in_rolePolicy := in_rolePolicy input;
     in_toolPolicy := in_toolPolicy input;
     in_sandbox := in_sandbox input;
     in_requiresApproval := approval |}.

(** The caller's input has neither [action] nor [requiresApproval].
    Source: packages/core/src/policies.ts:237-247 [evaluateToolPermissions]. *)
Definition evaluateToolPermissions (tool : ToolDefinition) (input : PermissionEvaluationInput)
  : list PermissionEvaluation :=
  map (fun action =>
         if perm_requiresApproval (tool_permissions tool) === Some true
         then evaluatePermission (with_action input action (Some true))
         else evaluatePermission (with_action input action None))
    (permissionActionsForTool tool).

(** * Lemmas *)

Lemma stricter_rank a b :
  permissionRank (stricter a b) = Z.min (permissionRank a) (permissionRank b).
Proof. by destruct a, b. Qed.

Lemma rank_inj a b : permissionRank a = permissionRank b -> a = b.
Proof. by destruct a, b. Qed.

Lemma rank_bounds a : (0 <= permissionRank a <= 2)%Z.
Proof. by destruct a. Qed.

Section Reduce.
Context {A : Type} (effect_of : A -> PermissionEffect).
Let reduce init (l : list A) :=
  foldl (fun current x => stricter current (effect_of x)) init l.

Lemma reduce_lower init l :
  (permissionRank (reduce init l) <= permissionRank init)%Z /\
  (forall x, x ∈ l -> permissionRank (reduce init l) <= permissionRank (effect_of x))%Z.
Proof.
  revert init. induction l as [|y l IH]; intros init; simpl.
  { split; [done|]. by intros x ?%not_elem_of_nil. }
  destruct (IH (stricter init (effect_of y))) as [Hi Hl].
  rewrite stricter_rank in Hi. split; [unfold reduce in *; simpl; lia|].
  intros x [->|Hx]%elem_of_cons; [unfold reduce in *; simpl; lia|]. by apply Hl.
Qed.

Lemma reduce_member init l :
  reduce init l = init \/ exists x, x ∈ l /\ reduce init l = effect_of x.
Proof.
  revert init. induction l as [|y l IH]; intros init; simpl; [by left|].
  destruct (IH (stricter init (effect_of y))) as [Hi|(x & Hx & Hi)].
  - unfold reduce in *; simpl. rewrite Hi. unfold stricter. case_match; [|by left].
    right. exists y. split; [apply list_elem_of_here | done].
  - right. exists x. split; [by apply list_elem_of_further | done].
Qed.
End Reduce.

(** A matching [deny] rule decides the policy whatever its mode. *)
Lemma evaluatePolicy_deny policy input rule :
  rule ∈ policy_rules policy ?? [] -> rule_effect rule = pe_deny ->
  ruleMatches rule input = true -> evaluatePolicy policy input = pe_deny.
Proof.
  intros Hin Heff Hm. apply rank_inj. unfold evaluatePolicy.
  set (rules := List.filter _ _).
  assert (rule ∈ rules) as Hr by (by apply elem_of_list_filter).
  assert (forall init, permissionRank
    (foldl (fun c r => stricter c (rule_effect r)) init rules) = 0%Z) as Hfold.
  { intros init. destruct (reduce_lower rule_effect init rules) as [_ Hl].
    specialize (Hl rule Hr). rewrite Heff in Hl. simpl in Hl.
    pose proof (rank_bounds (foldl (fun c r => stricter c (rule_effect r)) init rules)).
    lia. }
  case_match; [|apply Hfold]. destruct rules; [by apply not_elem_of_nil in Hr|].
  apply Hfold.
Qed.

Lemma evaluations_nonempty input :
  exists e rest, permission_evaluations input = e :: rest.
Proof. unfold permission_evaluations. simpl. eauto. Qed.

Lemma decision_below input e :
  e ∈ permission_evaluations input ->
  (permissionRank (ev_decision (evaluatePermission input)) <= permissionRank (snd e))%Z.
Proof. intros He. by apply (reduce_lower snd pe_allow). Qed.

Lemma decision_deny input source :
  (source, pe_deny) ∈ permission_evaluations input ->
  ev_decision (evaluatePermission input) = pe_deny.
Proof.
  intros He%decision_below. apply rank_inj. simpl in *.
  pose proof (rank_bounds (ev_decision (evaluatePermission input))). simpl in *. lia.
Qed.

(** The policies consulted for a request, with the source each is filed under. *)
Definition consulted (input : PermissionEvaluationInput) : list (string * PermissionPolicy) :=
  [("run", in_runPolicy input)] ++
  match in_rolePolicy input with Some p => [("role", p)] | None => [] end ++
  match in_toolPolicy input with Some p => [("tool", p)] | None => [] end ++
  match in_sandbox input with
  | Some s => [("sandbox-policy", sb_permissions s)] | None => [] end.

Lemma consulted_evaluated input source policy :
  (source, policy) ∈ consulted input ->
  (source, evaluatePolicy policy input) ∈ permission_evaluations input.
Proof.
  unfold consulted, permission_evaluations. rewrite !list_elem_of_In. simpl.
  destruct (in_rolePolicy input), (in_toolPolicy input), (in_sandbox input);
    simpl; intuition (simplify_eq; auto 8 with datatypes).
Qed.

Lemma overlap_sym kind a b :
  resourceIdentifiersOverlap kind a b = resourceIdentifiersOverlap kind b a.
Proof.
  unfold resourceIdentifiersOverlap.
  assert ((a === b) = (b === a)) as -> by (apply bool_decide_ext; split; congruence).
  rewrite <- !orb_assoc, (orb_comm (wildcardMatches a b)).
  case_match; [done|]. case_match; [done|]. apply orb_comm.
Qed.

Lemma scopes_conflict_sym a b :
  resourceScopesConflict a b = resourceScopesConflict b a.
Proof.
  unfold resourceScopesConflict.
  rewrite (andb_comm (scope_access a === ac_read)).
  assert ((scope_kind a !== scope_kind b) = (scope_kind b !== scope_kind a)) as ->
    by (f_equal; apply bool_decide_ext; split; congruence).
  case_match; [done|]. bool_hyps. rewrite overlap_sym. by f_equal.
Qed.

Lemma append_assoc a b c : a +:+ (b +:+ c) = (a +:+ b) +:+ c.
Proof.
  apply units_inj. by rewrite !units_app, app_assoc.
Qed.

(** * Properties *)

(** The effective permission is the intersection of everything consulted:
    it is at most as permissive as the evaluation of every source (run, role,
    tool and sandbox policy, sandbox capability, approval), and it is the
    evaluation of one of them. *)
Theorem evaluatePermission_intersection input :
  (forall source effect, (source, effect) ∈ permission_evaluations input ->
     permissionRank (ev_decision (evaluatePermission input)) <= permissionRank effect)%Z /\
  (exists source, (source, ev_decision (evaluatePermission input))
     ∈ permission_evaluations input).
Proof.
  split; [intros source effect He; apply (decision_below _ _ He)|].
  destruct (reduce_member snd pe_allow (permission_evaluations input))
    as [Heq|([source effect] & He & Heq)].
  - destruct (evaluations_nonempty input) as ([source effect] & rest & Hev).
    exists source. assert ((source, effect) ∈ permission_evaluations input) as He
      by (rewrite Hev; apply list_elem_of_here).
    pose proof (decision_below _ _ He) as Hle.
    unfold evaluatePermission in *. cbn [ev_decision] in *. rewrite Heq in *.
    simpl in Hle. assert (effect = pe_allow) as -> by (by destruct effect). done.
  - exists source. unfold evaluatePermission. cbn [ev_decision]. by rewrite Heq.
Qed.

(** A matching [deny] rule in any consulted policy denies the request,
    whatever the modes, the other policies, the sandbox and the approval say. *)
Theorem deny_rule_decides input source policy rule :
  (source, policy) ∈ consulted input ->
  rule ∈ policy_rules policy ?? [] -> rule_effect rule = pe_deny ->
  ruleMatches rule input = true ->
  ev_decision (evaluatePermission input) = pe_deny.
Proof.
  intros Hc%consulted_evaluated Hr Heff Hm. apply (decision_deny _ source).
  by rewrite (evaluatePolicy_deny policy input rule) in Hc.
Qed.

Definition deny_example : PermissionEvaluationInput :=
  {| in_action := pa_write; in_toolName := Some "edit";
     in_resourceScope := Some {| scope_kind := rk_file;
       scope_identifier := "src/auth/key.ts"; scope_access := ac_write |};
     in_runPolicy := {| policy_mode := pm_unrestricted; policy_rules := None |};
     in_rolePolicy := Some {| policy_mode := pm_unrestricted;
       policy_rules := Some [{| rule_action := any_action; rule_effect := pe_deny;
         rule_toolName := None; rule_resourcePattern := Some "src/auth/*";
         rule_reason := None |}] |};
     in_toolPolicy := None; in_sandbox := None; in_requiresApproval := Some true |}.

Lemma deny_rule_decides_witness :
  ev_decision (evaluatePermission deny_example) = pe_deny.
Proof.
  eapply (deny_rule_decides deny_example "role");
    [ apply list_elem_of_further, list_elem_of_here
    | apply list_elem_of_here | reflexivity | vm_compute; reflexivity ].
Defined.

(** A request that a sandbox does not deny stays within the sandbox's
    capabilities: no network or process use when they are disabled, and a file
    write overlaps some writable root and no read-only root. *)
Theorem sandbox_confines input sandbox :
  in_sandbox input = Some sandbox ->
  ev_decision (evaluatePermission input) <> pe_deny ->
  (in_action input = pa_network -> network_enabled (sb_network sandbox) = true) /\
  (in_action input = pa_execute -> process_enabled (sb_process sandbox) = true) /\
  (forall scope, in_action input = pa_write ->
     in_resourceScope input = Some scope -> scope_kind scope = rk_file ->
     (exists root, root ∈ writableRoots (sb_filesystem sandbox) /\
        resourceIdentifiersOverlap rk_file root (scope_identifier scope) = true) /\
     (forall root, root ∈ readOnlyRoots (sb_filesystem sandbox) ->
        resourceIdentifiersOverlap rk_file root (scope_identifier scope) = false)).
Proof.
  intros Hs Hd.
  assert (evaluateSandboxConstraint input <> Some pe_deny) as Hc.
  { intros Heq. apply Hd, (decision_deny _ "sandbox-capability").
    unfold permission_evaluations. rewrite Hs, Heq, !list_elem_of_In.
    rewrite !in_app_iff. simpl. intuition auto. }
  unfold evaluateSandboxConstraint in Hc. rewrite Hs in Hc.
  split; [|split].
  - intros Ha. rewrite Ha in Hc. destruct (network_enabled _); [done|]. by destruct Hc.
  - intros Ha. rewrite Ha in Hc. destruct (process_enabled _); [done|]. by destruct Hc.
  - intros scope Ha Hr Hk. rewrite Ha, Hr, Hk in Hc. cbn in Hc.
    destruct (existsb _ (readOnlyRoots _)) eqn:Hro; [done|].
    destruct (Nat.eqb _ 0 || _) eqn:Hw; [done|]. bool_hyps.
    split; [by apply existsb_elem | by apply existsb_false].
Qed.

Definition sandbox_example : SandboxPolicy :=
  {| sb_filesystem := {| writableRoots := ["/work/repo"];
                         readOnlyRoots := ["/work/repo/vendor"] |};
     sb_network := {| network_enabled := false; allowedDestinations := [] |};
     sb_process := {| process_enabled := true; allowedCommands := None |};
     sb_permissions := {| policy_mode := pm_unrestricted; policy_rules := None |} |}.

Definition write_request (identifier : string) : PermissionEvaluationInput :=
  {| in_action := pa_write; in_toolName := None;
     in_resourceScope := Some {| scope_kind := rk_file;
       scope_identifier := identifier; scope_access := ac_write |};
     in_runPolicy := {| policy_mode := pm_unrestricted; policy_rules := None |};
     in_rolePolicy := None; in_toolPolicy := None;
     in_sandbox := Some sandbox_example; in_requiresApproval := None |}.

Lemma sandbox_confines_witness :
  ev_decision (evaluatePermission (write_request "/work/repo/src/a.ts")) = pe_allow /\
  (forall root, root ∈ ["/work/repo/vendor"] ->
     resourceIdentifiersOverlap rk_file root "/work/repo/src/a.ts" = false).
Proof.
  split; [vm_compute; reflexivity|].
  refine (proj2 (proj2 (proj2
    (sandbox_confines (write_request "/work/repo/src/a.ts") sandbox_example eq_refl _))
    {| scope_kind := rk_file; scope_identifier := "/work/repo/src/a.ts";
       scope_access := ac_write |} eq_refl eq_refl eq_refl)).
  intros H. vm_compute in H. discriminate H.
Defined.

(** [wildcardMatches] computes what the documentation of a scope says: the
    escaped and starred regular expression accepts a value exactly when [*] can
    be read as a run of units other than line terminators and every other unit,
    regular-expression syntax included, as itself. *)
Theorem wildcardMatches_glob pattern value :
  wildcardMatches pattern value = true <-> glob (units pattern) (units value).
Proof.
  unfold wildcardMatches, wildcard_regex.
  by rewrite wildcard_regex_atoms, match_atoms_glob.
Qed.

(** Scope conflict is a symmetric relation, two reads never conflict, equal
    identifiers of one kind conflict as soon as one side writes, and for files
    a directory conflicts with every path below it. *)
Theorem resourceScopesConflict_laws a b :
  resourceScopesConflict a b = resourceScopesConflict b a /\
  (scope_access a = ac_read -> scope_access b = ac_read ->
     resourceScopesConflict a b = false) /\
  (scope_kind a = scope_kind b -> scope_access a = ac_write ->
     scope_identifier a = scope_identifier b -> resourceScopesConflict a b = true) /\
  (scope_kind a = rk_file -> scope_kind b = rk_file -> scope_access a = ac_write ->
     stripTrailingSlash (scope_identifier b) = scope_identifier b ->
     (exists rest, stripTrailingSlash (scope_identifier a) =
        scope_identifier b +:+ "/" +:+ rest) ->
     resourceScopesConflict a b = true).
Proof.
  split; [apply scopes_conflict_sym|].
  unfold resourceScopesConflict, resourceIdentifiersOverlap.
  split; [intros -> ->; by rewrite orb_true_r|]. split.
  - intros -> -> ->.
    rewrite (bool_decide_eq_true_2 (scope_kind b = scope_kind b)) by done.
    by rewrite (bool_decide_eq_true_2 (scope_identifier b = scope_identifier b)).
  - intros -> -> -> Hb [rest Ha]. rewrite Hb, Ha.
    case_match; [done|]. case_match; [done|].
    apply orb_true_iff. left. apply startsWith_spec.
    exists rest. by rewrite append_assoc.
Qed.

Definition file_scope (identifier : string) (access : ResourceAccessMode) : ResourceScope :=
  {| scope_kind := rk_file; scope_identifier := identifier; scope_access := access |}.

Lemma resourceScopesConflict_laws_witness :
  resourceScopesConflict (file_scope "src/auth/key.ts" ac_write)
    (file_scope "src/auth" ac_read) = true.
Proof.
  refine (proj2 (proj2 (proj2 (resourceScopesConflict_laws
    (file_scope "src/auth/key.ts" ac_write) (file_scope "src/auth" ac_read))))
    eq_refl eq_refl eq_refl _ _);
    [reflexivity | exists "key.ts"; reflexivity].
Defined.

(** After an interrupted call a tool is retried exactly when its contract
    declares retry recovery, safe idempotency and no side effect beyond the
    workspace; a contract accepted at registration keeps its declared retry,
    and reconciliation is requested exactly with the reconcile action. *)
Theorem decideToolRecovery_safe tool :
  (decision_action (decideToolRecovery tool) = rec_retry <->
     recovery tool = rec_retry /\ idempotency tool = id_safe /\
     sideEffectClass tool ∈ [se_none; se_workspace]) /\
  (assertValidToolDefinition tool = Ok tt -> recovery tool = rec_retry ->
     decision_action (decideToolRecovery tool) = rec_retry) /\
  (requiresReconciliation (decideToolRecovery tool) = true <->
     decision_action (decideToolRecovery tool) = rec_reconcile).
Proof.
  unfold decideToolRecovery, assertValidToolDefinition.
  destruct tool as [name se id rec scopes perms]; cbn [recovery idempotency sideEffectClass].
  rewrite list_elem_of_In. split; [|split].
  - destruct rec, se, id; vm_compute; intuition congruence.
  - intros H ->. inv_ok. by destruct se, id.
  - destruct rec, se, id; vm_compute; intuition congruence.
Qed.

Definition retry_tool : ToolDefinition :=
  {| tool_name := "grep"; sideEffectClass := se_none; idempotency := id_safe;
     recovery := rec_retry; tool_resourceScopes := [];
     tool_permissions := {| required := []; perm_requiresApproval := None |} |}.

Lemma decideToolRecovery_safe_witness :
  assertValidToolDefinition retry_tool = Ok tt /\
  decision_action (decideToolRecovery retry_tool) = rec_retry.
Proof.
  split; [reflexivity|].
  exact (proj1 (proj2 (decideToolRecovery_safe retry_tool)) eq_refl eq_refl).
Defined.

(** * Divergences found while modelling *)

(** Two spellings of one directory are not seen as overlapping, although each
    of them overlaps the files below it: two writers of ["src"] and ["src/"]
    are granted together. *)
Theorem trailing_slash_scopes_do_not_conflict :
  resourceScopesConflict (file_scope "src/" ac_write) (file_scope "src" ac_write) = false /\
  resourceScopesConflict (file_scope "src/" ac_write) (file_scope "src/a.ts" ac_write) = true /\
  resourceScopesConflict (file_scope "src" ac_write) (file_scope "src/a.ts" ac_write) = true.
Proof. vm_compute. auto. Qed.

(** Two wildcard scopes with a file in common are not seen as overlapping. *)
Theorem wildcard_scopes_do_not_conflict :
  wildcardMatches "src/*/a.ts" "src/b/a.ts" = true /\
  wildcardMatches "src/b/*" "src/b/a.ts" = true /\
  resourceScopesConflict (file_scope "src/*/a.ts" ac_write) (file_scope "src/b/*" ac_write) = false.
Proof. vm_compute. auto. Qed.

(** The writable-root test is symmetric in root and identifier, so a write to a
    directory that contains a writable root passes the sandbox constraint. *)
Definition parent_write : PermissionEvaluationInput :=
  {| in_action := pa_write; in_toolName := None;
     in_resourceScope := Some (file_scope "/work" ac_write);
     in_runPolicy := {| policy_mode := pm_unrestricted; policy_rules := None |};
     in_rolePolicy := None; in_toolPolicy := None;
     in_sandbox := Some {|
       sb_filesystem := {| writableRoots := ["/work/repo"]; readOnlyRoots := [] |};
       sb_network := {| network_enabled := false; allowedDestinations := [] |};
       sb_process := {| process_enabled := false; allowedCommands := None |};
       sb_permissions := {| policy_mode := pm_unrestricted; policy_rules := None |} |};
     in_requiresApproval := None |}.

Theorem parent_of_writable_root_is_writable :
  ev_decision (evaluatePermission parent_write) = pe_allow.
Proof. vm_compute. reflexivity. Qed.

(** A star does not match a line terminator, so a deny rule for everything
    under a directory misses a file whose name contains one. *)
Definition secret_write (name : string) : PermissionEvaluationInput :=
  {| in_action := pa_write; in_toolName := None;
     in_resourceScope := Some (file_scope ("/secret/" +:+ name) ac_write);
     in_runPolicy := {| policy_mode := pm_unrestricted;
       policy_rules := Some [{| rule_action := any_action; rule_effect := pe_deny;
         rule_toolName := None; rule_resourcePattern := Some "/secret/*";
         rule_reason := None |}] |};
     in_rolePolicy := None; in_toolPolicy := None; in_sandbox := None;
     in_requiresApproval := None |}.

Theorem line_terminator_escapes_deny_rule :
  ev_decision (evaluatePermission (secret_write "key")) = pe_deny /\
  ev_decision (evaluatePermission (secret_write (of_units ["a"; "010"; "b"]%char))) = pe_allow.
Proof. vm_compute. auto. Qed.
