(* ===== verification/Budget.v ===== *)
(** Shared run budgets: accumulation of usage and the phase-aware limit test
    (packages/core/src/policies.ts, the part about budgets). *)

From Stdlib Require Import ZArith Lia.
From stdpp Require Import base strings list.
From S2P Require Import Prelude JsNumber JsString Protocol.

Open Scope string_scope.
Open Scope list_scope.

Definition zero : num := Fin 0.

(** Source: packages/core/src/policies.ts:21-29 [EMPTY_BUDGET_USAGE]. *)
Definition EMPTY_BUDGET_USAGE : BudgetUsage :=
  {| inputTokens := zero; outputTokens := zero; cachedTokens := zero;
     costUsd := zero; wallTimeMs := zero; toolCalls := zero; childAgents := zero |}.

(** Source: packages/core/src/policies.ts:665-677 [budgetUsageEntries]. *)
Definition budgetUsageEntries (usage : BudgetDelta) : list (string * option num) :=
  [("inputTokens", d_inputTokens usage);
   ("outputTokens", d_outputTokens usage);
   ("cachedTokens", d_cachedTokens usage);
   ("costUsd", d_costUsd usage);
   ("wallTimeMs", d_wallTimeMs usage);
   ("toolCalls", d_toolCalls usage);
   ("childAgents", d_childAgents usage)].

(** The guard [value !== undefined && (!Number.isFinite(value) || value < 0)]. *)
Definition bad_amount (value : option num) : bool :=
  match value with
  | Some v => negb (isFinite v) || js_lt v zero
  | None => false
  end.

(** Source: packages/core/src/policies.ts:546-558 [assertPartialUsage]. *)
Definition assertPartialUsage (usage : BudgetDelta) (label : string) : exc unit :=
  for_each (fun '(key, value) =>
      throw_if (bad_amount value)
        (InvariantViolationError
           (label +:+ "." +:+ key +:+ " must be a finite non-negative number")))
    (budgetUsageEntries usage).

(** A complete usage read through the partial interface. *)
Definition usage_as_delta (u : BudgetUsage) : BudgetDelta :=
  {| d_inputTokens := Some (inputTokens u); d_outputTokens := Some (outputTokens u);
     d_cachedTokens := Some (cachedTokens u); d_costUsd := Some (costUsd u);
     d_wallTimeMs := Some (wallTimeMs u); d_toolCalls := Some (toolCalls u);
     d_childAgents := Some (childAgents u) |}.

(** A reservation read through the partial interface, which has no total. *)
Definition reservation_as_delta (r : BudgetReservation) : BudgetDelta :=
  {| d_inputTokens := rv_inputTokens r; d_outputTokens := rv_outputTokens r;
     d_cachedTokens := rv_cachedTokens r; d_costUsd := rv_costUsd r;
     d_wallTimeMs := rv_wallTimeMs r; d_toolCalls := rv_toolCalls r;
     d_childAgents := rv_childAgents r |}.

(** Source: packages/core/src/policies.ts:542-544 [assertUsage]. *)
Definition assertUsage (usage : BudgetUsage) (label : string) : exc unit :=
  assertPartialUsage (usage_as_delta usage) label.

(** Source: packages/core/src/policies.ts:254-270 [addBudgetUsage]. *)
Definition addBudgetUsage (usage : BudgetUsage) (delta : BudgetDelta) : exc BudgetUsage :=
  _ ← assertUsage usage "usage";
  _ ← assertPartialUsage delta "delta";
  mret
    {| inputTokens := js_add (inputTokens usage) (d_inputTokens delta ?? zero);
       outputTokens := js_add (outputTokens usage) (d_outputTokens delta ?? zero);
       cachedTokens := js_add (cachedTokens usage) (d_cachedTokens delta ?? zero);
       costUsd := js_add (costUsd usage) (d_costUsd delta ?? zero);
       wallTimeMs := js_add (wallTimeMs usage) (d_wallTimeMs delta ?? zero);
       toolCalls := js_add (toolCalls usage) (d_toolCalls delta ?? zero);
       childAgents := js_add (childAgents usage) (d_childAgents delta ?? zero) |}.

Definition no_delta : BudgetDelta :=
  {| d_inputTokens := None; d_outputTokens := None; d_cachedTokens := None;
     d_costUsd := None; d_wallTimeMs := None; d_toolCalls := None;
     d_childAgents := None |}.

(** The delta [{ toolCalls: 1 }]. *)
Definition one_tool_call : BudgetDelta :=
  {| d_inputTokens := None; d_outputTokens := None; d_cachedTokens := None;
     d_costUsd := None; d_wallTimeMs := None; d_toolCalls := Some (ofZ 1);
     d_childAgents := None |}.

(** Source: packages/core/src/policies.ts:249-251 [createBudgetUsage]. *)
Definition createBudgetUsage (delta : BudgetDelta) : exc BudgetUsage :=
  addBudgetUsage EMPTY_BUDGET_USAGE delta.

(** Source: packages/core/src/policies.ts:560-588 [assertBudget]. *)
Definition assertBudget (budget : RunBudget) : exc unit :=
  let ceilings :=
    [("maxInputTokens", maxInputTokens budget);
     ("maxOutputTokens", maxOutputTokens budget);
     ("maxTotalTokens", maxTotalTokens budget);
     ("maxCachedTokens", maxCachedTokens budget);
     ("maxCostUsd", maxCostUsd budget);
     ("maxWallTimeMs", maxWallTimeMs budget);
     ("maxToolCalls", maxToolCalls budget);
     ("maxChildAgents", maxChildAgents budget)] in
  _ ← for_each (fun '(key, value) =>
        throw_if (bad_amount value)
          (InvariantViolationError (key +:+ " must be a finite non-negative number")))
      ceilings;
  _ ← match budget_reserve budget ≫= reserve_recovery with
      | Some r => assertPartialUsage (reservation_as_delta r) "reserve.recovery"
      | None => mret tt
      end;
  match budget_reserve budget ≫= reserve_validation with
  | Some r => assertPartialUsage (reservation_as_delta r) "reserve.validation"
  | None => mret tt
  end.

Definition empty_reservation : BudgetReservation :=
  {| rv_inputTokens := None; rv_outputTokens := None; rv_totalTokens := None;
     rv_cachedTokens := None; rv_costUsd := None; rv_wallTimeMs := None;
     rv_toolCalls := None; rv_childAgents := None |}.

(** [(left?.field ?? 0) + (right?.field ?? 0)]. *)
Definition sum_field (field : BudgetReservation -> option num)
  (left right : option BudgetReservation) : option num :=
  Some (js_add ((left ≫= field) ?? zero) ((right ≫= field) ?? zero)).

(** Source: packages/core/src/policies.ts:605-619 [sumReservations]. *)
Definition sumReservations (left right : option BudgetReservation) : BudgetReservation :=
  {| rv_inputTokens := sum_field rv_inputTokens left right;
     rv_outputTokens := sum_field rv_outputTokens left right;
     rv_totalTokens := sum_field rv_totalTokens left right;
     rv_cachedTokens := sum_field rv_cachedTokens left right;
     rv_costUsd := sum_field rv_costUsd left right;
     rv_wallTimeMs := sum_field rv_wallTimeMs left right;
     rv_toolCalls := sum_field rv_toolCalls left right;
     rv_childAgents := sum_field rv_childAgents left right |}.

(** Source: packages/core/src/policies.ts:590-603 [reserveForOtherPhases]. *)
Definition reserveForOtherPhases (budget : RunBudget) (phase : BudgetPhase)
  : BudgetReservation :=
  let recovery := budget_reserve budget ≫= reserve_recovery in
  let validation := budget_reserve budget ≫= reserve_validation in
  if phase === ph_general then sumReservations recovery validation
  else if phase === ph_recovery then validation ?? empty_reservation
  else recovery ?? empty_reservation.

(** [keyof BudgetReservation]. *)
Inductive ReservationKey : Type :=
| k_inputTokens | k_outputTokens | k_totalTokens | k_cachedTokens
| k_costUsd | k_wallTimeMs | k_toolCalls | k_childAgents.

#[export] Instance ReservationKey_eq_dec : EqDecision ReservationKey.
Proof. solve_decision. Defined.

(** [remaining[key] = value]. *)
Definition set_remaining (key : ReservationKey) (v : num) (r : BudgetReservation)
  : BudgetReservation :=
  let put k old := if key === k then Some v else old in
  {| rv_inputTokens := put k_inputTokens (rv_inputTokens r);
     rv_outputTokens := put k_outputTokens (rv_outputTokens r);
     rv_totalTokens := put k_totalTokens (rv_totalTokens r);
     rv_cachedTokens := put k_cachedTokens (rv_cachedTokens r);
     rv_costUsd := put k_costUsd (rv_costUsd r);
     rv_wallTimeMs := put k_wallTimeMs (rv_wallTimeMs r);
     rv_toolCalls := put k_toolCalls (rv_toolCalls r);
     rv_childAgents := put k_childAgents (rv_childAgents r) |}.

(** The two objects [assessMetric] mutates. *)
Record Assessing := { as_exhausted : list BudgetLimitKind; as_remaining : BudgetReservation }.

(** Source: packages/core/src/policies.ts:621-659 [assessMetric]. *)
Definition assessMetric (maximum : option num) (used protectedCapacity : num)
  (directLimit : BudgetLimitKind) (remainingKey : ReservationKey)
  (st : Assessing) : Assessing :=
  match maximum with
  | None => st
  | Some maximum =>
      let directRemaining := js_sub maximum used in
      let available := js_sub directRemaining protectedCapacity in
      {| as_exhausted :=
           if js_le directRemaining zero then as_exhausted st ++ [directLimit]
           else if js_le available zero then as_exhausted st ++ [lim_reserved_capacity]
           else as_exhausted st;
         as_remaining :=
           set_remaining remainingKey (math_max zero available) (as_remaining st) |}
  end.

(** One row per call of [assessMetric] in [evaluateBudget]: the ceiling, the
    usage, the protected capacity, the limit and the key. *)
Definition metric : Type := option num * num * num * BudgetLimitKind * ReservationKey.

(** The eight calls, in order. *)
Definition budget_metrics (budget : RunBudget) (usage : BudgetUsage) (phase : BudgetPhase)
  : list metric :=
  let reserve := reserveForOtherPhases budget phase in
  [(maxInputTokens budget, inputTokens usage, rv_inputTokens reserve ?? zero,
      lim_input_tokens, k_inputTokens);
   (maxOutputTokens budget, outputTokens usage, rv_outputTokens reserve ?? zero,
      lim_output_tokens, k_outputTokens);
   (maxCachedTokens budget, cachedTokens usage, zero,
      lim_cached_tokens, k_cachedTokens);
   (maxCostUsd budget, costUsd usage, rv_costUsd reserve ?? zero,
      lim_cost_usd, k_costUsd);
   (maxWallTimeMs budget, wallTimeMs usage, rv_wallTimeMs reserve ?? zero,
      lim_wall_time_ms, k_wallTimeMs);
   (maxToolCalls budget, toolCalls usage, rv_toolCalls reserve ?? zero,
      lim_tool_calls, k_toolCalls);
   (maxTotalTokens budget, js_add (inputTokens usage) (outputTokens usage),
      js_add (js_add (rv_inputTokens reserve ?? zero) (rv_outputTokens reserve ?? zero))
        (rv_totalTokens reserve ?? zero),
      lim_total_tokens, k_totalTokens);
   (maxChildAgents budget, childAgents usage, zero,
      lim_child_agents, k_childAgents)].

Definition assess_all (ms : list metric) (st : Assessing) : Assessing :=
  foldl (fun st '(maximum, used, protectedCapacity, limit, key) =>
           assessMetric maximum used protectedCapacity limit key st) st ms.

(** Source: packages/core/src/policies.ts:277-370 [evaluateBudget]. *)
Definition evaluateBudget (budget : RunBudget) (usage : BudgetUsage) (phase : BudgetPhase)
  : exc BudgetAssessment :=
  _ ← assertBudget budget;
  _ ← assertUsage usage "usage";
  let st := assess_all (budget_metrics budget usage phase)
              {| as_exhausted := []; as_remaining := empty_reservation |} in
  mret
    {| allowed := Nat.eqb (length (as_exhausted st)) 0;
       assessed_phase := phase;
       exhausted := as_exhausted st;
       remaining := as_remaining st |}.

(** * Lemmas *)

Definition finite_nonneg (v : num) : Prop := isFinite v = true /\ js_le zero v = true.

Lemma bad_amount_some v : bad_amount (Some v) = false <-> finite_nonneg v.
Proof.
  unfold bad_amount, finite_nonneg.
  rewrite orb_false_iff, negb_false_iff.
  destruct v; try (split; intros []; done).
  rewrite (js_lt_not_le (Fin z) zero) by done. by rewrite negb_false_iff.
Qed.

Lemma default_finite o : bad_amount o = false -> finite_nonneg (o ?? zero).
Proof. destruct o; [apply bad_amount_some | done]. Qed.

Lemma assertPartialUsage_ok delta label u :
  assertPartialUsage delta label = Ok u <->
  Forall (fun '(_, v) => bad_amount v = false) (budgetUsageEntries delta).
Proof.
  unfold assertPartialUsage. rewrite for_each_ok.
  by apply Forall_iff; intros [k v]; rewrite throw_if_ok.
Qed.

(** The usage fields are finite and non-negative. *)
Definition usage_ok (u : BudgetUsage) : Prop :=
  Forall finite_nonneg
    [inputTokens u; outputTokens u; cachedTokens u; costUsd u; wallTimeMs u;
     toolCalls u; childAgents u].

Lemma assertUsage_ok usage label u :
  assertUsage usage label = Ok u <-> usage_ok usage.
Proof.
  unfold assertUsage, usage_ok. rewrite assertPartialUsage_ok.
  unfold budgetUsageEntries, usage_as_delta. simpl.
  by rewrite !Forall_cons, !Forall_nil, !bad_amount_some.
Qed.

Lemma empty_usage_ok : usage_ok EMPTY_BUDGET_USAGE.
Proof. unfold usage_ok. repeat constructor. Qed.

#[export] Hint Resolve empty_usage_ok : s2p.

(** A metric passes: its ceiling is absent, or usage is below it and what is
    left exceeds the protected capacity. *)
Definition metric_passes (m : metric) : Prop :=
  let '(maximum, used, protectedCapacity, _, _) := m in
  forall max, maximum = Some max ->
    js_le (js_sub max used) zero = false /\
    js_le (js_sub (js_sub max used) protectedCapacity) zero = false.

Lemma assess_all_exhausted ms st :
  as_exhausted (assess_all ms st) = [] <->
  as_exhausted st = [] /\ Forall metric_passes ms.
Proof.
  revert st. induction ms as [|[[[[maximum used] prot] lim] key] ms IH]; intros st.
  { split; [auto using Forall_nil_2 | by intros []]. }
  change (assess_all ((maximum, used, prot, lim, key) :: ms) st)
    with (assess_all ms (assessMetric maximum used prot lim key st)).
  rewrite IH, Forall_cons.
  unfold assessMetric, metric_passes. destruct maximum as [mx|]; simpl.
  - destruct (js_le (js_sub mx used) zero) eqn:E1;
      [|destruct (js_le (js_sub (js_sub mx used) prot) zero) eqn:E2].
    + split; [intros [H _]; by destruct (as_exhausted st)|].
      intros (_ & H & _). destruct (H mx eq_refl); congruence.
    + split; [intros [H _]; by destruct (as_exhausted st)|].
      intros (_ & H & _). destruct (H mx eq_refl); congruence.
    + split; [|tauto]. intros [? ?]. repeat split; auto; congruence.
  - split; [|tauto]. intros [? ?]. repeat split; auto; discriminate.
Qed.

#[local] Opaque assess_all budget_metrics.

Lemma evaluateBudget_allowed budget usage phase a :
  evaluateBudget budget usage phase = Ok a ->
  (allowed a = true <-> Forall metric_passes (budget_metrics budget usage phase)).
Proof.
  unfold evaluateBudget. intros H. inv_ok. cbn [allowed].
  rewrite Nat.eqb_eq, length_zero_iff_nil, assess_all_exhausted. simpl. tauto.
Qed.

Lemma evaluateBudget_guards budget usage phase a :
  evaluateBudget budget usage phase = Ok a ->
  assertBudget budget = Ok tt /\ usage_ok usage.
Proof.
  unfold evaluateBudget. intros H. inv_ok. split; [done|].
  by apply (assertUsage_ok usage "usage" tt).
Qed.

#[local] Transparent assess_all budget_metrics.

Lemma assertBudget_ceilings budget u :
  assertBudget budget = Ok u ->
  Forall (fun o => bad_amount o = false)
    [maxInputTokens budget; maxOutputTokens budget; maxTotalTokens budget;
     maxCachedTokens budget; maxCostUsd budget; maxWallTimeMs budget;
     maxToolCalls budget; maxChildAgents budget].
Proof.
  unfold assertBudget. intros H. inv_ok.
  match goal with H : for_each _ _ = Ok _ |- _ => apply for_each_ok in H; revert H end.
  rewrite !Forall_cons, !Forall_nil. cbn. intros Hc. destruct_and!.
  repeat match goal with H : throw_if _ _ = Ok _ |- _ => apply throw_if_ok in H end.
  tauto.
Qed.

(** * Properties *)

(** Adding usage rejects every non-finite or negative amount; otherwise no
    counter of a binary64 usage goes down, every counter stays non-negative,
    and an absent field leaves its counter unchanged. *)
Theorem addBudgetUsage_monotone usage delta usage' :
  addBudgetUsage usage delta = Ok usage' ->
  Forall representable
    [inputTokens usage; outputTokens usage; cachedTokens usage; costUsd usage;
     wallTimeMs usage; toolCalls usage; childAgents usage] ->
  usage_ok usage /\
  Forall (fun '(_, v) => bad_amount v = false) (budgetUsageEntries delta) /\
  Forall (fun '(before, after, amount) =>
            js_le before after = true /\ js_le zero after = true /\
            (amount = None -> after = before))
    [(inputTokens usage, inputTokens usage', d_inputTokens delta);
     (outputTokens usage, outputTokens usage', d_outputTokens delta);
     (cachedTokens usage, cachedTokens usage', d_cachedTokens delta);
     (costUsd usage, costUsd usage', d_costUsd delta);
     (wallTimeMs usage, wallTimeMs usage', d_wallTimeMs delta);
     (toolCalls usage, toolCalls usage', d_toolCalls delta);
     (childAgents usage, childAgents usage', d_childAgents delta)].
Proof.
  unfold addBudgetUsage. intros H Hrep. inv_ok. simpl.
  apply assertUsage_ok in E. apply assertPartialUsage_ok in E0.
  split; [done|]. split; [done|].
  assert (forall before amount, finite_nonneg before -> representable before ->
    bad_amount amount = false ->
    js_le before (js_add before (amount ?? zero)) = true /\
    js_le zero (js_add before (amount ?? zero)) = true /\
    (amount = None -> js_add before (amount ?? zero) = before)) as Hone.
  { intros before amount [Hf Hn] Hr Ha. apply default_finite in Ha as [Haf Han].
    split; [by apply js_add_increases|]. split; [by apply js_add_nonneg|].
    intros ->. by apply js_add_0_r. }
  unfold usage_ok in E. unfold budgetUsageEntries in E0.
  rewrite !Forall_cons in *. destruct_and!. repeat split; try apply Hone; auto.
  all: by constructor.
Qed.

Definition usage_example : BudgetUsage :=
  {| inputTokens := ofZ 120; outputTokens := ofZ 30; cachedTokens := zero;
     costUsd := zero; wallTimeMs := ofZ 900; toolCalls := ofZ 2; childAgents := zero |}.

Lemma addBudgetUsage_monotone_witness :
  exists usage', addBudgetUsage usage_example one_tool_call = Ok usage' /\
    toolCalls usage' = ofZ 3 /\ js_le (toolCalls usage_example) (toolCalls usage') = true.
Proof.
  eexists. split; [reflexivity|]. split; [vm_compute; reflexivity|].
  pose proof (addBudgetUsage_monotone usage_example one_tool_call _ eq_refl) as H.
  destruct H as (_ & _ & H).
  - repeat constructor; vm_compute; reflexivity.
  - do 5 apply Forall_inv_tail in H. exact (proj1 (Forall_inv H)).
Defined.

(** The budget test never lets work continue at or over a ceiling: an
    allowed assessment means usage is strictly below every configured ceiling,
    and reaching one configured ceiling refuses every phase. *)
Theorem evaluateBudget_respects_ceilings budget usage phase a :
  evaluateBudget budget usage phase = Ok a ->
  allowed a = true ->
  Forall (fun '(ceiling, used) =>
            forall max, ceiling = Some max -> js_lt used max = true)
    [(maxInputTokens budget, inputTokens usage);
     (maxOutputTokens budget, outputTokens usage);
     (maxCachedTokens budget, cachedTokens usage);
     (maxCostUsd budget, costUsd usage);
     (maxWallTimeMs budget, wallTimeMs usage);
     (maxToolCalls budget, toolCalls usage);
     (maxChildAgents budget, childAgents usage)].
Proof.
  intros H Ha. apply (evaluateBudget_allowed _ _ _ _ H) in Ha.
  apply evaluateBudget_guards in H as [Hb%assertBudget_ceilings Hu].
  assert (forall ceiling used prot lim key,
    bad_amount ceiling = false -> finite_nonneg used ->
    metric_passes (ceiling, used, prot, lim, key) ->
    forall max, ceiling = Some max -> js_lt used max = true) as Hone.
  { intros ceiling used prot lim key Hc [Hf _] Hp max ->.
    apply bad_amount_some in Hc as [Hcf _]. destruct (Hp max eq_refl) as [Hd _].
    rewrite js_sub_nonpos in Hd by done.
    rewrite js_lt_not_le by (intros ->; done). by rewrite Hd. }
  unfold usage_ok in Hu. unfold budget_metrics in Ha.
  rewrite !Forall_cons in *. destruct_and!.
  repeat split; try (eapply Hone; eassumption). by constructor.
Qed.

Definition budget_example : RunBudget :=
  {| maxInputTokens := Some (ofZ 1000); maxOutputTokens := None;
     maxTotalTokens := Some (ofZ 1000); maxCachedTokens := None;
     maxCostUsd := None; maxWallTimeMs := None; maxToolCalls := Some (ofZ 4);
     maxChildAgents := None;
     budget_reserve := Some {|
       reserve_recovery := Some {| rv_inputTokens := Some (ofZ 100);
         rv_outputTokens := None; rv_totalTokens := None; rv_cachedTokens := None;
         rv_costUsd := None; rv_wallTimeMs := None; rv_toolCalls := Some (ofZ 1);
         rv_childAgents := None |};
       reserve_validation := None |} |}.

Lemma evaluateBudget_respects_ceilings_witness :
  exists a, evaluateBudget budget_example usage_example ph_general = Ok a /\
    allowed a = true /\ js_lt (inputTokens usage_example) (ofZ 1000) = true.
Proof.
  eexists. split; [reflexivity|]. split; [vm_compute; reflexivity|].
  refine (Forall_inv (evaluateBudget_respects_ceilings budget_example usage_example
    ph_general _ eq_refl _) (ofZ 1000) eq_refl).
  vm_compute. reflexivity.
Defined.

(** ** Reserved capacity *)

(** An amount of a well-formed reservation. *)
Definition amount_wf (o : option num) : Prop :=
  bad_amount o = false /\ representable (o ?? zero).

Definition reservation_wf (r : BudgetReservation) : Prop :=
  Forall amount_wf
    [rv_inputTokens r; rv_outputTokens r; rv_totalTokens r; rv_cachedTokens r;
     rv_costUsd r; rv_wallTimeMs r; rv_toolCalls r; rv_childAgents r].

Definition reserve_wf (budget : RunBudget) : Prop :=
  (forall r, budget_reserve budget ≫= reserve_recovery = Some r -> reservation_wf r) /\
  (forall r, budget_reserve budget ≫= reserve_validation = Some r -> reservation_wf r).

(** Non-negative, possibly infinite. *)
Definition nonneg (v : num) : Prop := js_le zero v = true.

Lemma js_add_comm a b : js_add a b = js_add b a.
Proof. destruct a, b; try done. cbn. by rewrite Z.add_comm. Qed.

Lemma js_add_mono a a' b b' :
  nonneg a -> nonneg b -> js_le a a' = true -> js_le b b' = true ->
  js_le (js_add a b) (js_add a' b') = true.
Proof.
  unfold nonneg. intros Ha Hb Haa Hbb.
  destruct a as [| | |x], b as [| | |y], a' as [| | |x'], b' as [| | |y'];
    unfold js_le, zero in *; cbn [js_lt js_eq] in *; try discriminate; try done.
  - unfold js_add, normalise. by repeat case_match.
  - unfold js_add, normalise. by repeat case_match.
  - unfold js_add, normalise. by repeat case_match.
  - pose proof (rnd_mono (x + y) (x' + y') ltac:(lia)).
    unfold js_add, normalise. pose proof overflow_units_pos.
    repeat case_match; cbn [js_lt js_eq]; try done; lia.
Qed.

Lemma nonneg_trans a b : nonneg a -> js_le a b = true -> nonneg b.
Proof. unfold nonneg. apply js_le_trans. Qed.

Lemma amount_nonneg o : amount_wf o -> nonneg (o ?? zero).
Proof. intros [H%default_finite _]. apply H. Qed.

(** More protected capacity only refuses more. *)
Lemma available_antitone d p1 p2 :
  js_le p1 p2 = true -> js_le d zero = false ->
  js_le (js_sub d p2) zero = false -> js_le (js_sub d p1) zero = false.
Proof.
  intros Hp Hd H2.
  destruct d as [| | |x], p1 as [| | |y], p2 as [| | |z]; try done.
  rewrite js_sub_nonpos in * by done.
  unfold js_le, zero in *; cbn [js_lt js_eq] in *. lia.
Qed.

Lemma metric_passes_weaken ceiling used p1 p2 lim key :
  js_le p1 p2 = true ->
  metric_passes (ceiling, used, p2, lim, key) ->
  metric_passes (ceiling, used, p1, lim, key).
Proof.
  intros Hp Hm max Hmax. destruct (Hm max Hmax) as [Hd Ha].
  split; [done|]. by eapply available_antitone.
Qed.

Definition field_or_zero (field : BudgetReservation -> option num)
  (r : option BudgetReservation) : num := (r ≫= field) ?? zero.

(** Each phase protects no more than general work does, field by field. *)
Lemma sum_covers field left right :
  (forall r, left = Some r -> amount_wf (field r)) ->
  (forall r, right = Some r -> amount_wf (field r)) ->
  let total := sum_field field left right ?? zero in
  nonneg (field_or_zero field left) /\ nonneg (field_or_zero field right) /\
  js_le (field_or_zero field left) total = true /\
  js_le (field_or_zero field right) total = true.
Proof.
  intros Hl Hr. unfold sum_field, field_or_zero. simpl.
  assert (amount_wf (left ≫= field)) as Wl.
  { destruct left; [by apply Hl|]. by split. }
  assert (amount_wf (right ≫= field)) as Wr.
  { destruct right; [by apply Hr|]. by split. }
  pose proof (amount_nonneg _ Wl) as Nl. pose proof (amount_nonneg _ Wr) as Nr.
  destruct Wl as [Fl%default_finite Rl], Wr as [Fr%default_finite Rr].
  split; [done|]. split; [done|]. split.
  - apply js_add_increases; [done|apply Fl|apply Fr|done].
  - rewrite js_add_comm. apply js_add_increases; [done|apply Fr|apply Fl|done].
Qed.

Lemma phase_protects_less budget phase field :
  (forall r, budget_reserve budget ≫= reserve_recovery = Some r -> amount_wf (field r)) ->
  (forall r, budget_reserve budget ≫= reserve_validation = Some r -> amount_wf (field r)) ->
  field (sumReservations (budget_reserve budget ≫= reserve_recovery)
           (budget_reserve budget ≫= reserve_validation)) =
    sum_field field (budget_reserve budget ≫= reserve_recovery)
      (budget_reserve budget ≫= reserve_validation) ->
  field empty_reservation = None ->
  nonneg (field (reserveForOtherPhases budget phase) ?? zero) /\
  js_le (field (reserveForOtherPhases budget phase) ?? zero)
        (field (reserveForOtherPhases budget ph_general) ?? zero) = true.
Proof.
  intros Hr Hv Hsum Hempty.
  destruct (sum_covers field _ _ Hr Hv) as (Nr & Nv & Lr & Lv).
  assert (reserveForOtherPhases budget ph_general =
    sumReservations (budget_reserve budget ≫= reserve_recovery)
      (budget_reserve budget ≫= reserve_validation)) as Eg by reflexivity.
  assert (reserveForOtherPhases budget ph_recovery =
    (budget_reserve budget ≫= reserve_validation) ?? empty_reservation) as Er
    by reflexivity.
  assert (reserveForOtherPhases budget ph_validation =
    (budget_reserve budget ≫= reserve_recovery) ?? empty_reservation) as Ev
    by reflexivity.
  rewrite Eg, Hsum. unfold field_or_zero in *.
  destruct phase; rewrite ?Eg, ?Er, ?Ev, ?Hsum.
  - split; [by eapply nonneg_trans|]. apply js_le_refl. intros Heq.
    revert Lr. rewrite Heq. by destruct ((_ ≫= field) ?? zero).
  - destruct (budget_reserve budget ≫= reserve_validation); simpl in *; [done|].
    by rewrite Hempty.
  - destruct (budget_reserve budget ≫= reserve_recovery); simpl in *; [done|].
    by rewrite Hempty.
Qed.

(** Reserved capacity protects recovery and validation from general work:
    with a well-formed reserve, whenever general work may continue, recovery
    and validation may continue too. *)
Theorem reserve_protects_recovery_and_validation budget usage phase general special :
  reserve_wf budget ->
  evaluateBudget budget usage ph_general = Ok general ->
  evaluateBudget budget usage phase = Ok special ->
  allowed general = true -> allowed special = true.
Proof.
  intros [Wr Wv] Hg Hs Ha.
  apply (evaluateBudget_allowed _ _ _ _ Hg) in Ha.
  apply (evaluateBudget_allowed _ _ _ _ Hs).
  assert (forall field, (forall r, reservation_wf r -> amount_wf (field r)) ->
    field (sumReservations (budget_reserve budget ≫= reserve_recovery)
             (budget_reserve budget ≫= reserve_validation)) =
      sum_field field (budget_reserve budget ≫= reserve_recovery)
        (budget_reserve budget ≫= reserve_validation) ->
    field empty_reservation = None ->
    nonneg (field (reserveForOtherPhases budget phase) ?? zero) /\
    js_le (field (reserveForOtherPhases budget phase) ?? zero)
          (field (reserveForOtherPhases budget ph_general) ?? zero) = true) as Hfield.
  { intros field Hwf Hsum Hempty. apply phase_protects_less; auto. }
  assert (forall r, reservation_wf r ->
    amount_wf (rv_inputTokens r) /\ amount_wf (rv_outputTokens r) /\
    amount_wf (rv_totalTokens r) /\ amount_wf (rv_costUsd r) /\
    amount_wf (rv_wallTimeMs r) /\ amount_wf (rv_toolCalls r)) as Hwf.
  { intros r Hr. unfold reservation_wf in Hr. rewrite !Forall_cons in Hr. tauto. }
  destruct (Hfield rv_inputTokens) as [Ni Li]; [apply Hwf|done|done|].
  destruct (Hfield rv_outputTokens) as [No Lo]; [apply Hwf|done|done|].
  destruct (Hfield rv_totalTokens) as [Nt Lt]; [apply Hwf|done|done|].
  destruct (Hfield rv_costUsd) as [_ Lc]; [apply Hwf|done|done|].
  destruct (Hfield rv_wallTimeMs) as [_ Lw]; [apply Hwf|done|done|].
  destruct (Hfield rv_toolCalls) as [_ Lk]; [apply Hwf|done|done|].
  unfold budget_metrics in *. rewrite !Forall_cons in *. destruct_and!.
  repeat match goal with |- _ /\ _ => split end; try (eapply metric_passes_weaken; eassumption); try assumption.
  eapply metric_passes_weaken; [|eassumption].
    assert (forall a b, nonneg a -> nonneg b -> nonneg (js_add a b)) as Hadd.
    { intros a b Na Nb. change zero with (js_add zero zero).
      by apply (js_add_mono zero a zero b). }
    repeat apply js_add_mono; auto.
Qed.

Lemma reserve_protects_witness :
  reserve_wf budget_example /\
  exists special, evaluateBudget budget_example usage_example ph_recovery = Ok special /\
    allowed special = true.
Proof.
  assert (reserve_wf budget_example) as W.
  { split; intros r Hr; [|discriminate Hr]. injection Hr as <-.
    repeat constructor; vm_compute; reflexivity. }
  split; [exact W|]. eexists. split; [reflexivity|].
  eapply (reserve_protects_recovery_and_validation budget_example usage_example
    ph_recovery _ _ W eq_refl eq_refl).
  vm_compute. reflexivity.
Defined.

(** ** A divergence: reserved total tokens are not validated *)

Definition negative_reserve : RunBudget :=
  {| maxInputTokens := None; maxOutputTokens := None;
     maxTotalTokens := Some (ofZ 1000); maxCachedTokens := None;
     maxCostUsd := None; maxWallTimeMs := None; maxToolCalls := None;
     maxChildAgents := None;
     budget_reserve := Some {|
       reserve_recovery := Some {| rv_inputTokens := None; rv_outputTokens := None;
         rv_totalTokens := Some (ofZ (-500)); rv_cachedTokens := None;
         rv_costUsd := None; rv_wallTimeMs := None; rv_toolCalls := None;
         rv_childAgents := None |};
       reserve_validation := None |} |}.

(** [assertPartialUsage] does not look at [totalTokens], so a negative reserve
    passes and the assessment reports more remaining tokens than the ceiling. *)
Theorem negative_total_reserve_accepted :
  assertBudget negative_reserve = Ok tt /\
  match evaluateBudget negative_reserve EMPTY_BUDGET_USAGE ph_general with
  | Ok a => rv_totalTokens (remaining a) = Some (ofZ 1500)
  | Throw _ => False
  end.
Proof. vm_compute. auto. Qed.
