(* ===== verification/Leases.v ===== *)
(** Lease takeover and fencing of writes (packages/core/src/leases.ts).

    [Date.parse] is the language's date parser: a parameter that returns the
    time value in milliseconds, or [None] where it returns NaN. *)

From Stdlib Require Import ZArith Lia.
From stdpp Require Import base strings list.
From S2P Require Import Prelude JsNumber JsString Protocol.

Open Scope string_scope.
Open Scope list_scope.

(** Source: packages/core/src/leases.ts:8-15 [LeaseTakeover]. *)
Record LeaseTakeover := {
  to_executorId : string;
  to_host : string;
  to_process : string;
  to_heartbeatAt : string;
  to_expiresAt : string;
  to_updatedAt : string }.

(** A [string | Date] argument; an invalid date has no time value. *)
Inductive instant : Type :=
| iso (text : string)
| date (time : option Z).

(** Source: packages/core/src/leases.ts:18-24 [toRunLeaseFence]. *)
Definition toRunLeaseFence (lease : RunLease) : RunLeaseFence :=
  {| fence_executorId := lease_executorId lease;
     fence_generation := lease_generation lease;
     fence_runId := lease_runId lease |}.

Section Leases.
Variable Date_parse : string -> option Z.

(** Source: packages/core/src/leases.ts:137-145 [parseTimestamp]. *)
Definition parseTimestamp (value label : string) : exc Z :=
  match Date_parse value with
  | Some timestamp => Ok timestamp
  | None => Throw (InvariantViolationError (label +:+ " must be a valid timestamp"))
  end.

(** Source: packages/core/src/leases.ts:127-135 [toEpochMilliseconds]. *)
Definition toEpochMilliseconds (value : instant) (label : string) : exc Z :=
  match value with
  | date (Some t) => Ok t
  | date None => Throw (InvariantViolationError (label +:+ " must be a valid timestamp"))
  | iso text => parseTimestamp text label
  end.

(** Source: packages/core/src/leases.ts:26-31 [isLeaseExpired]. *)
Definition isLeaseExpired (lease : RunLease) (now : instant) : exc bool :=
  expires ← parseTimestamp (lease_expiresAt lease) "lease.expiresAt";
  now ← toEpochMilliseconds now "now";
  mret (expires <=? now)%Z.

(** Source: packages/core/src/leases.ts:106-117 [assertLeaseShape]. *)
Definition assertLeaseShape (lease : RunLease) : exc unit :=
  _ ← throw_if (negb (isInteger (lease_generation lease)) ||
                js_lt (lease_generation lease) (ofZ 1))
        (InvariantViolationError "Run lease generation must be a positive integer");
  _ ← parseTimestamp (lease_expiresAt lease) "lease.expiresAt";
  _ ← parseTimestamp (lease_heartbeatAt lease) "lease.heartbeatAt";
  mret tt.

(** Source: packages/core/src/leases.ts:119-125 [assertTakeoverShape]. *)
Definition assertTakeoverShape (successor : LeaseTakeover) : exc unit :=
  _ ← throw_if (is_blank (to_executorId successor))
        (InvariantViolationError "Lease executorId must not be empty");
  _ ← parseTimestamp (to_expiresAt successor) "successor.expiresAt";
  _ ← parseTimestamp (to_heartbeatAt successor) "successor.heartbeatAt";
  mret tt.

(** Source: packages/core/src/leases.ts:37-54 [takeOverRunLease]. *)
Definition takeOverRunLease (current : RunLease) (successor : LeaseTakeover)
  : exc RunLease :=
  _ ← assertLeaseShape current;
  _ ← assertTakeoverShape successor;
  mret
    {| lease_id := lease_id current;
       lease_runId := lease_runId current;
       lease_executorId := to_executorId successor;
       lease_generation := js_add (lease_generation current) (ofZ 1);
       lease_expiresAt := to_expiresAt successor;
       lease_heartbeatAt := to_heartbeatAt successor;
       lease_host := to_host successor;
       lease_process := to_process successor;
       lease_createdAt := lease_createdAt current;
       lease_updatedAt := to_updatedAt successor |}.

(** [&&] short-circuits, but its first operand may throw.
    Source: packages/core/src/leases.ts:61-72 [canWriteWithLease]. *)
Definition canWriteWithLease (active : RunLease) (fence : RunLeaseFence) (now : instant)
  : exc bool :=
  expired ← isLeaseExpired active now;
  mret (negb expired &&
        (lease_runId active === fence_runId fence) &&
        (lease_executorId active === fence_executorId fence) &&
        js_eq (lease_generation active) (fence_generation fence)).

(** Source: packages/core/src/leases.ts:74-104 [assertLeaseWrite]. *)
Definition assertLeaseWrite (active : RunLease) (fence : RunLeaseFence) (now : instant)
  : exc unit :=
  _ ← assertLeaseShape active;
  _ ← throw_if (negb (js_eq (lease_generation active) (fence_generation fence)))
        (StaleLeaseGenerationError (lease_generation active)
           (fence_generation fence) (lease_runId active));
  _ ← throw_if ((lease_runId active !== fence_runId fence) ||
                (lease_executorId active !== fence_executorId fence))
        (StaleLeaseGenerationError (lease_generation active)
           (fence_generation fence) (lease_runId active));
  expired ← isLeaseExpired active now;
  throw_if expired
    (InvariantViolationError "Cannot write using an expired Run lease").

(** ** Lemmas *)

Lemma positive_integer_units g :
  isInteger g = true -> js_lt g (ofZ 1) = false -> exists n, g = ofZ n /\ (1 <= n)%Z.
Proof.
  destruct g as [| | |z]; try done. cbn. intros Hi Hlt.
  apply Z.eqb_eq in Hi. pose proof one_units_pos.
  exists (z / one_units)%Z. split.
  - unfold ofZ. f_equal. pose proof (Z.div_mod z one_units). lia.
  - apply Z.ltb_ge in Hlt. apply Z.div_le_lower_bound; lia.
Qed.

Lemma shape_generation lease u :
  assertLeaseShape lease = Ok u ->
  exists n, lease_generation lease = ofZ n /\ (1 <= n)%Z.
Proof.
  unfold assertLeaseShape. intros H. inv_ok. bool_hyps.
  by apply positive_integer_units.
Qed.

(** The two forms of the write guard agree, and neither accepts a lease the
    other refuses. *)
Lemma assertLeaseWrite_iff active fence now :
  assertLeaseShape active = Ok tt ->
  assertLeaseWrite active fence now = Ok tt <->
  canWriteWithLease active fence now = Ok true.
Proof.
  intros Hs. unfold assertLeaseWrite, canWriteWithLease. rewrite Hs. simpl.
  destruct (isLeaseExpired active now) as [[]|e]; simpl;
    destruct (js_eq _ _), (lease_runId active === fence_runId fence) eqn:E1,
      (lease_executorId active === fence_executorId fence) eqn:E2;
    cbn; split; intros H; first [done | discriminate H].
Qed.

(** ** Properties *)

(** A takeover fences its predecessor.  The successor's lease keeps the
    run and has the next generation, and as long as generations are exact
    integers no fence of the old lease passes [canWriteWithLease] against the
    new one, while the new lease's own fence does until it expires. *)
Theorem takeover_fences_predecessor current successor next now :
  takeOverRunLease current successor = Ok next ->
  js_lt (lease_generation current) (ofZ (2 ^ 53 - 1)) = true ->
  lease_runId next = lease_runId current /\
  js_lt (lease_generation current) (lease_generation next) = true /\
  canWriteWithLease next (toRunLeaseFence current) now <> Ok true /\
  (forall t expires, toEpochMilliseconds now "now" = Ok t ->
     Date_parse (to_expiresAt successor) = Some expires ->
     canWriteWithLease next (toRunLeaseFence next) now = Ok (t <? expires)%Z).
Proof.
  unfold takeOverRunLease. intros H Hlt. inv_ok.
  destruct (shape_generation _ _ E) as (n & Hg & Hn).
  rewrite Hg, js_lt_ofZ in Hlt. cbn [lease_runId lease_generation].
  rewrite Hg, js_add_ofZ, js_lt_ofZ by lia.
  split; [done|]. split; [lia|]. split.
  - unfold canWriteWithLease. intros Hw.
    apply bind_ok in Hw as (expired & _ & [= Hw]). revert Hw.
    rewrite Hg. unfold ofZ. intros Hw. bool_hyps. pose proof one_units_pos. nia.
  - intros t expires Ht He. unfold canWriteWithLease, isLeaseExpired, parseTimestamp.
    cbn [lease_expiresAt]. rewrite He, Ht. cbn.
    rewrite !bool_decide_eq_true_2 by done.
    rewrite (proj2 (Z.eqb_eq _ _)) by done. rewrite !andb_true_r. f_equal. lia.
Qed.

(** The throwing guard [assertLeaseWrite] and the boolean guard
    [canWriteWithLease] agree on every well-shaped lease, and a write they
    accept comes from the exact holder and generation before expiry. *)
Theorem lease_guards_agree active fence now :
  assertLeaseShape active = Ok tt ->
  (assertLeaseWrite active fence now = Ok tt <->
   canWriteWithLease active fence now = Ok true) /\
  (assertLeaseWrite active fence now = Ok tt ->
   fence_runId fence = lease_runId active /\
   fence_executorId fence = lease_executorId active /\
   js_eq (lease_generation active) (fence_generation fence) = true /\
   isLeaseExpired active now = Ok false).
Proof.
  intros Hs. split; [by apply assertLeaseWrite_iff|]. intros Hw.
  apply assertLeaseWrite_iff in Hw; [|done].
  apply bind_ok in Hw as (expired & He & [= Hw]). bool_hyps.
  destruct expired; [done|]. auto.
Qed.
End Leases.

(** A parser for the two timestamps of the witnesses. *)
Definition example_parse (text : string) : option Z :=
  if text === "2026-01-01T00:00:00.000Z" then Some 1767225600000%Z
  else if text === "2026-01-01T00:00:15.000Z" then Some 1767225615000%Z
  else None.

Definition example_lease : RunLease :=
  {| lease_id := "lease_1"; lease_runId := "run_1"; lease_executorId := "daemon-a";
     lease_generation := ofZ 3; lease_expiresAt := "2026-01-01T00:00:00.000Z";
     lease_heartbeatAt := "2026-01-01T00:00:00.000Z"; lease_host := "h";
     lease_process := "1"; lease_createdAt := ""; lease_updatedAt := "" |}.

Definition example_successor : LeaseTakeover :=
  {| to_executorId := "daemon-b"; to_host := "h"; to_process := "2";
     to_heartbeatAt := "2026-01-01T00:00:00.000Z";
     to_expiresAt := "2026-01-01T00:00:15.000Z"; to_updatedAt := "" |}.

Lemma takeover_fences_predecessor_witness :
  exists next, takeOverRunLease example_parse example_lease example_successor = Ok next /\
    canWriteWithLease example_parse next (toRunLeaseFence example_lease)
      (date (Some 1767225600001%Z)) <> Ok true.
Proof.
  eexists. split; [reflexivity|].
  refine (proj1 (proj2 (proj2 (takeover_fences_predecessor example_parse
    example_lease example_successor _ (date (Some 1767225600001%Z)) eq_refl _)))).
  vm_compute. reflexivity.
Defined.

Definition live_lease : RunLease :=
  {| lease_id := "lease_1"; lease_runId := "run_1"; lease_executorId := "daemon-a";
     lease_generation := ofZ 3; lease_expiresAt := "2026-01-01T00:00:15.000Z";
     lease_heartbeatAt := "2026-01-01T00:00:00.000Z"; lease_host := "h";
     lease_process := "1"; lease_createdAt := ""; lease_updatedAt := "" |}.

Lemma lease_guards_agree_witness :
  assertLeaseWrite example_parse live_lease (toRunLeaseFence live_lease)
    (date (Some 1767225600001%Z)) = Ok tt.
Proof.
  apply (proj1 (lease_guards_agree example_parse live_lease (toRunLeaseFence live_lease)
    (date (Some 1767225600001%Z)) eq_refl)).
  vm_compute. reflexivity.
Defined.
