(* ===== verification/Blockers.v ===== *)
(** Blocker fingerprints and the three-strike rule (packages/core/src/blockers.ts). *)

From Stdlib Require Import ZArith Lia.
From stdpp Require Import base strings list.
From S2P Require Import Prelude JsNumber JsString Protocol Ids.

Open Scope string_scope.
Open Scope list_scope.

(** Source: packages/core/src/blockers.ts:8-8 [DEFAULT_BLOCKER_ATTEMPT_THRESHOLD]. *)
Definition DEFAULT_BLOCKER_ATTEMPT_THRESHOLD : num := ofZ 3.

(** Source: packages/core/src/blockers.ts:10-17 [BlockerAssessment]. *)
Record BlockerAssessment := {
  ba_fingerprint : string;
  matchingMeaningfulAttempts : num;
  requiredAttempts : num;
  externalDependencyConfirmed : bool;
  noAlternateActionRemains : bool;
  eligibleForBlocked : bool }.

(** Source: packages/core/src/blockers.ts:23-29 [createBlockerFingerprint]. *)
Definition createBlockerFingerprint (material : string) : exc string :=
  _ ← throw_if (is_blank material)
        (InvariantViolationError "Blocker material must not be empty");
  mret ("blocker_" +:+ deterministicHash (toLowerCase (trim material))).

(** The filter of [assessBlocker]. *)
Definition matching_observations (observations : list BlockerObservation)
  (fingerprint : string) : list BlockerObservation :=
  List.filter (fun observation =>
    (ob_fingerprint observation === fingerprint) && ob_meaningful observation)
    observations.

(** The length of an array, as a number. *)
Definition length_num {A} (l : list A) : num := ofZ (Z.of_nat (length l)).

(** Source: packages/core/src/blockers.ts:35-72 [assessBlocker]. *)
Definition assessBlocker (observations : list BlockerObservation) (fingerprint : string)
  (threshold : num) : exc BlockerAssessment :=
  _ ← throw_if (negb (isInteger threshold) || js_lt threshold (ofZ 1))
        (InvariantViolationError "Blocker threshold must be a positive integer");
  let matching := matching_observations observations fingerprint in
  let external := negb (Nat.eqb (length matching) 0) &&
                  forallb ob_externalDependency matching in
  let no_alternate := negb (Nat.eqb (length matching) 0) &&
    forallb (fun o => negb (ob_alternateActionAvailable o)) matching in
  mret
    {| ba_fingerprint := fingerprint;
       matchingMeaningfulAttempts := length_num matching;
       requiredAttempts := threshold;
       externalDependencyConfirmed := external;
       noAlternateActionRemains := no_alternate;
       eligibleForBlocked :=
         js_le threshold (length_num matching) && external && no_alternate |}.

(** Source: packages/core/src/blockers.ts:74-89 [assertBlockerCanBlock]. *)
Definition assertBlockerCanBlock (observations : list BlockerObservation)
  (fingerprint : string) (threshold : num) : exc BlockerAssessment :=
  assessment ← assessBlocker observations fingerprint threshold;
  _ ← throw_if (negb (eligibleForBlocked assessment))
        (BlockerThresholdNotMetError (ba_fingerprint assessment)
           (matchingMeaningfulAttempts assessment) (requiredAttempts assessment));
  mret assessment.

(** Source: packages/core/src/blockers.ts:92-94 [resetBlockerAudit]. *)
Definition resetBlockerAudit : list BlockerObservation := [].

(** ** Lemmas *)

Lemma assessBlocker_ok observations fingerprint threshold a :
  assessBlocker observations fingerprint threshold = Ok a ->
  exists n, threshold = ofZ n /\ (1 <= n)%Z /\
    requiredAttempts a = threshold /\ ba_fingerprint a = fingerprint /\
    let matching := matching_observations observations fingerprint in
    matchingMeaningfulAttempts a = length_num matching /\
    (eligibleForBlocked a = true <->
       (n <= Z.of_nat (length matching))%Z /\
       (forall o, o ∈ matching -> ob_externalDependency o = true) /\
       (forall o, o ∈ matching -> ob_alternateActionAvailable o = false)).
Proof.
  unfold assessBlocker. intros H. apply bind_ok in H as ([] & Hg & [= <-]).
  apply throw_if_ok in Hg. bool_hyps.
  destruct threshold as [| | |z]; try done. cbn in H, H0.
  pose proof one_units_pos. exists (z / one_units)%Z.
  assert (Fin z = ofZ (z / one_units)) as Hz.
  { unfold ofZ. f_equal. pose proof (Z.div_mod z one_units). lia. }
  split; [done|]. split; [apply Z.div_le_lower_bound; lia|].
  cbn [requiredAttempts ba_fingerprint eligibleForBlocked matchingMeaningfulAttempts].
  split; [done|]. split; [done|]. split; [done|].
  unfold length_num. rewrite Hz, js_le_ofZ.
  set (matching := matching_observations observations fingerprint).
  rewrite !andb_true_iff, !negb_true_iff, Nat.eqb_neq, Z.leb_le, !forallb_elem.
  assert (1 <= z / one_units)%Z by (apply Z.div_le_lower_bound; lia).
  setoid_rewrite negb_true_iff. split; [tauto|]. intros (? & ? & ?).
  repeat split; auto; lia.
Qed.

(** ** Properties *)

(** A blocker may block a run exactly when at least [threshold] meaningful
    observations carry its fingerprint and every one of them needed external
    state and had no alternate action; anything else throws with the counts,
    and a resumed audit starts from zero. *)
Theorem assertBlockerCanBlock_iff observations fingerprint n :
  (1 <= n)%Z ->
  let matching := matching_observations observations fingerprint in
  let justified :=
    (n <= Z.of_nat (length matching))%Z /\
    (forall o, o ∈ matching -> ob_externalDependency o = true) /\
    (forall o, o ∈ matching -> ob_alternateActionAvailable o = false) in
  (is_ok (assertBlockerCanBlock observations fingerprint (ofZ n)) = true <-> justified) /\
  (~ justified -> assertBlockerCanBlock observations fingerprint (ofZ n) =
     Throw (BlockerThresholdNotMetError fingerprint (length_num matching) (ofZ n))) /\
  is_ok (assertBlockerCanBlock resetBlockerAudit fingerprint (ofZ n)) = false.
Proof.
  intros Hn matching justified.
  assert (forall obs, exists a, assessBlocker obs fingerprint (ofZ n) = Ok a) as Htot.
  { intros obs. unfold assessBlocker.
    assert (negb (isInteger (ofZ n)) || js_lt (ofZ n) (ofZ 1) = false) as ->; [|eauto].
    rewrite js_lt_ofZ. cbn. pose proof one_units_pos.
    rewrite Z.mod_mul by lia. simpl. lia. }
  assert (forall obs, is_ok (assertBlockerCanBlock obs fingerprint (ofZ n)) = true <->
    exists a, assessBlocker obs fingerprint (ofZ n) = Ok a /\ eligibleForBlocked a = true)
    as Hcan.
  { intros obs. unfold assertBlockerCanBlock. destruct (Htot obs) as [a Ha].
    rewrite Ha. simpl. destruct (eligibleForBlocked a) eqn:E; simpl.
    - by split; [intros _; exists a|].
    - split; [done|]. intros (b & [= Hb] & Hb'). subst b. congruence. }
  assert (forall m k : Z, ofZ m = ofZ k -> m = k) as Hinj.
  { intros m k Heq. by rewrite <- (toZ_ofZ m), Heq, toZ_ofZ. }
  destruct (Htot observations) as [a Ha].
  destruct (assessBlocker_ok _ _ _ _ Ha) as (m & Hm & _ & Hreq & Hfp & Hcount & Hel).
  apply Hinj in Hm as <-.
  split; [|split].
  - rewrite Hcan, Ha. split; [intros (? & [= <-] & ?); by apply Hel|].
    intros. exists a. split; [done|]. by apply Hel.
  - intros Hnot. unfold assertBlockerCanBlock. rewrite Ha. simpl.
    destruct (eligibleForBlocked a) eqn:E; [by destruct Hnot; apply Hel|].
    simpl. by rewrite Hreq, Hfp, Hcount.
  - destruct (Htot resetBlockerAudit) as [b Hb].
    destruct (assessBlocker_ok _ _ _ _ Hb) as (k & Hk & _ & _ & _ & _ & Hel').
    apply Hinj in Hk as <-. unfold assertBlockerCanBlock. rewrite Hb. simpl.
    destruct (eligibleForBlocked b); [|done].
    destruct (proj1 Hel' eq_refl) as [Hle _]. simpl in Hle. lia.
Qed.

Definition blocked_observation : BlockerObservation :=
  {| ob_fingerprint := "blocker_x"; ob_occurredAt := "t"; ob_meaningful := true;
     ob_externalDependency := true; ob_alternateActionAvailable := false;
     ob_note := None |}.

Lemma assertBlockerCanBlock_iff_witness :
  is_ok (assertBlockerCanBlock
    [blocked_observation; blocked_observation; blocked_observation] "blocker_x"
    DEFAULT_BLOCKER_ATTEMPT_THRESHOLD) = true.
Proof.
  apply (proj1 (assertBlockerCanBlock_iff
    [blocked_observation; blocked_observation; blocked_observation] "blocker_x" 3
    ltac:(lia))).
  split; [vm_compute; discriminate|].
  split; intros o Ho; rewrite list_elem_of_In in Ho; vm_compute in Ho;
    destruct Ho as [<-|[<-|[<-|[]]]]; reflexivity.
Defined.
