(* ===== verification/Validation.v ===== *)
(** The requirement ledger, the completion gate and stagnation assessment
    (packages/validation/src). *)

From Stdlib Require Import ZArith Lia.
From stdpp Require Import base strings list.
From S2P Require Import Prelude JsNumber JsString Protocol.

Open Scope string_scope.
Open Scope list_scope.

(** * Ledger *)

(** Source: packages/validation/src/ledger.ts:1-2 [LedgerRequirementStatus]. *)
Inductive LedgerRequirementStatus : Type := lr_contradicted | lr_proven | lr_unproven | lr_waived.
#[export] Instance LedgerRequirementStatus_eq_dec : EqDecision LedgerRequirementStatus.
Proof. solve_decision. Defined.

(** Source: packages/validation/src/ledger.ts:3-3 [EvidenceStrength]. *)
Inductive EvidenceStrength : Type := ev_strong | ev_supporting | ev_weak.
#[export] Instance EvidenceStrength_eq_dec : EqDecision EvidenceStrength.
Proof. solve_decision. Defined.

Inductive EvidenceKind : Type := ek_artifact | ek_command | ek_inspection | ek_review | ek_test.
#[export] Instance EvidenceKind_eq_dec : EqDecision EvidenceKind.
Proof. solve_decision. Defined.

(** Source: packages/validation/src/ledger.ts:5-10 [RequirementEvidence]. *)
Record RequirementEvidence := {
  re_id : string;
  re_kind : EvidenceKind;
  re_strength : EvidenceStrength;
  re_summary : string }.

(** Source: packages/validation/src/ledger.ts:12-18 [LedgerRequirement]. *)
Record LedgerRequirement := {
  lr_id : string;
  lr_title : string;
  lr_required : bool;
  lr_status : LedgerRequirementStatus;
  lr_evidence : list RequirementEvidence }.

(** Source: packages/validation/src/ledger.ts:20-24 [RequirementAudit]. *)
Record RequirementAudit := {
  au_contradicted : list LedgerRequirement;
  au_proven : list LedgerRequirement;
  au_unproven : list LedgerRequirement }.

(** Source: packages/validation/src/ledger.ts:47-51 [canMarkProven]. *)
Definition canMarkProven (evidence : list RequirementEvidence) : bool :=
  existsb (fun e => re_strength e === ev_strong) evidence.

(** The body of the loop of [auditRequirements]. *)
Definition audit_step (audit : RequirementAudit) (r : LedgerRequirement) : RequirementAudit :=
  if negb (lr_required r) || (lr_status r === lr_waived) then audit
  else if lr_status r === lr_contradicted then
    {| au_contradicted := au_contradicted audit ++ [r];
       au_proven := au_proven audit; au_unproven := au_unproven audit |}
  else if (lr_status r === lr_proven) &&
          existsb (fun e => re_strength e === ev_strong) (lr_evidence r) then
    {| au_contradicted := au_contradicted audit;
       au_proven := au_proven audit ++ [r]; au_unproven := au_unproven audit |}
  else
    {| au_contradicted := au_contradicted audit;
       au_proven := au_proven audit; au_unproven := au_unproven audit ++ [r] |}.

(** Source: packages/validation/src/ledger.ts:26-45 [auditRequirements]. *)
Definition auditRequirements (requirements : list LedgerRequirement) : RequirementAudit :=
  foldl audit_step {| au_contradicted := []; au_proven := []; au_unproven := [] |}
    requirements.

(** * The completion gate *)

(** Source: packages/validation/src/completion.ts:4-8 [DeterministicValidationResult]. *)
Record DeterministicValidationResult := {
  dv_id : string;
  dv_passed : bool;
  dv_summary : string }.

(** Source: packages/validation/src/completion.ts:10-15 [IndependentVerdict]. *)
Record IndependentVerdict := {
  complete : bool;
  concerns : list string;
  missingRequirementIds : list string;
  confidence : num }.

(** A verifier's promise resolves to a verdict or rejects.
    Source: packages/validation/src/completion.ts:17-22 [IndependentVerifier]. *)
Class IndependentVerifier (V : Type) := {
  verify : V -> list LedgerRequirement -> list DeterministicValidationResult ->
           exc IndependentVerdict }.

(** The local verifier has no state. *)
Inductive DeterministicIndependentVerifier : Type := deterministic_verifier.

(** Source: packages/validation/src/completion.ts:30-60 [DeterministicIndependentVerifier.verify]. *)
Definition deterministic_verify (requirements : list LedgerRequirement)
  (validations : list DeterministicValidationResult) : IndependentVerdict :=
  let audit := auditRequirements requirements in
  let failed := List.filter (fun v => negb (dv_passed v)) validations in
  let missing := map lr_id (au_unproven audit) ++ map lr_id (au_contradicted audit) in
  let concerns :=
    (if Nat.eqb (length missing) 0 then []
     else ["Durable requirement audit is incomplete: " +:+ join ", " missing +:+ "."]) ++
    (if Nat.eqb (length failed) 0 then []
     else ["Deterministic validation failed: " +:+ join ", " (map dv_id failed) +:+ "."]) in
  {| complete := Nat.eqb (length concerns) 0;
     concerns := concerns;
     missingRequirementIds := missing;
     confidence := if Nat.eqb (length concerns) 0 then ofZ 1 else ofZ 0 |}.

#[export] Instance deterministic_is_verifier :
  IndependentVerifier DeterministicIndependentVerifier :=
  {| verify := fun _ requirements validations =>
       Ok (deterministic_verify requirements validations) |}.

(** Source: packages/validation/src/completion.ts:62-66 [CompletionDecision]. *)
Record CompletionDecision := {
  accepted : bool;
  reasons : list string;
  cd_verifier : option IndependentVerdict }.

(** The reasons collected before a verifier is consulted. *)
Definition gate_reasons (requirements : list LedgerRequirement)
  (validations : list DeterministicValidationResult) : list string :=
  let audit := auditRequirements requirements in
  let failures := List.filter (fun v => negb (dv_passed v)) validations in
  (if Nat.ltb 0 (length (au_unproven audit))
   then ["Required requirements remain unproven: " +:+
         join ", " (map lr_id (au_unproven audit)) +:+ "."] else []) ++
  (if Nat.ltb 0 (length (au_contradicted audit))
   then ["Required requirements are contradicted: " +:+
         join ", " (map lr_id (au_contradicted audit)) +:+ "."] else []) ++
  (if Nat.ltb 0 (length failures)
   then ["Deterministic validation failed: " +:+
         join ", " (map dv_id failures) +:+ "."] else []).

(** Source: packages/validation/src/completion.ts:72-121 [CompletionGate.evaluate]. *)
Definition evaluate_completion {V} `{IndependentVerifier V} (verifier : option V)
  (requirements : list LedgerRequirement)
  (validations : list DeterministicValidationResult) : exc CompletionDecision :=
  let reasons := gate_reasons requirements validations in
  if Nat.ltb 0 (length reasons)
  then Ok {| accepted := false; reasons := reasons; cd_verifier := None |}
  else
    match verifier with
    | None =>
        Ok {| accepted := false;
              reasons := ["No independent verifier is configured."];
              cd_verifier := None |}
    | Some v =>
        verdict ← verify v requirements validations;
        if negb (complete verdict) then
          mret
            {| accepted := false;
               reasons := concerns verdict ++
                 (if Nat.eqb (length (missingRequirementIds verdict)) 0 then []
                  else ["Verifier found missing requirements: " +:+
                        join ", " (missingRequirementIds verdict) +:+ "."]);
               cd_verifier := Some verdict |}
        else mret {| accepted := true; reasons := []; cd_verifier := Some verdict |}
    end.

(** * Stagnation *)

(** Source: packages/validation/src/stagnation.ts:1-6 [ProgressAttempt]. *)
Record ProgressAttempt := {
  at_blockerFingerprint : option string;
  at_evidenceAdded : bool;
  at_meaningfulChange : bool;
  at_timestamp : string }.

(** Source: packages/validation/src/stagnation.ts:8-9 [StagnationAction]. *)
Inductive StagnationAction : Type := st_blocked | st_continue | st_fresh_agent | st_replan.
#[export] Instance StagnationAction_eq_dec : EqDecision StagnationAction.
Proof. solve_decision. Defined.

(** Source: packages/validation/src/stagnation.ts:11-15 [StagnationAssessment]. *)
Record StagnationAssessment := {
  sa_action : StagnationAction;
  sa_repeatedBlockerCount : nat;
  sa_reason : string }.

(** The loop over the reversed attempts, with its break. *)
Fixpoint count_repeats (fingerprint : option string) (reversed : list ProgressAttempt) : nat :=
  match reversed with
  | [] => 0
  | attempt :: rest =>
      if (at_blockerFingerprint attempt !== fingerprint) ||
         at_evidenceAdded attempt || at_meaningfulChange attempt
      then 0
      else S (count_repeats fingerprint rest)
  end.

(** Source: packages/validation/src/stagnation.ts:18-59 [assessStagnation]. *)
Definition assessStagnation (attempts : list ProgressAttempt) : StagnationAssessment :=
  let continue :=
    {| sa_action := st_continue;
       sa_reason := "Recent progress or no material blocker is recorded.";
       sa_repeatedBlockerCount := 0 |} in
  match last attempts with
  | None => continue
  | Some attempt =>
      if at_meaningfulChange attempt || at_evidenceAdded attempt ||
         (at_blockerFingerprint attempt === None)
      then continue
      else
        let repeated := count_repeats (at_blockerFingerprint attempt) (rev attempts) in
        if Nat.leb 3 repeated then
          {| sa_action := st_blocked;
             sa_reason := "The same material blocker recurred in three meaningful attempts with no recorded progress.";
             sa_repeatedBlockerCount := repeated |}
        else
          {| sa_action := if Nat.eqb repeated 2 then st_fresh_agent else st_replan;
             sa_reason := "Repeated failure requires a changed strategy before another attempt.";
             sa_repeatedBlockerCount := repeated |}
  end.

(** * Lemmas *)

(** What the audit asks of one requirement. *)
Definition counts (r : LedgerRequirement) : bool :=
  lr_required r && (lr_status r !== lr_waived).
Definition is_contradicted (r : LedgerRequirement) : bool :=
  counts r && (lr_status r === lr_contradicted).
Definition is_proven (r : LedgerRequirement) : bool :=
  counts r && (lr_status r === lr_proven) && canMarkProven (lr_evidence r).
Definition is_unproven (r : LedgerRequirement) : bool :=
  counts r && (lr_status r !== lr_contradicted) && negb (is_proven r).

Lemma audit_step_buckets c p u r :
  audit_step {| au_contradicted := c; au_proven := p; au_unproven := u |} r =
  {| au_contradicted := c ++ (if is_contradicted r then [r] else []);
     au_proven := p ++ (if is_proven r then [r] else []);
     au_unproven := u ++ (if is_unproven r then [r] else []) |}.
Proof.
  unfold audit_step, is_unproven, is_proven, is_contradicted, counts.
  fold (canMarkProven (lr_evidence r)).
  destruct (lr_required r), (lr_status r), (canMarkProven (lr_evidence r)); cbn;
    by rewrite ?app_nil_r.
Qed.

Lemma audit_filters_from c p u requirements :
  foldl audit_step {| au_contradicted := c; au_proven := p; au_unproven := u |} requirements =
  {| au_contradicted := c ++ List.filter is_contradicted requirements;
     au_proven := p ++ List.filter is_proven requirements;
     au_unproven := u ++ List.filter is_unproven requirements |}.
Proof.
  revert c p u. induction requirements as [|r rs IH]; intros c p u.
  { cbn. by rewrite !app_nil_r. }
  cbn [foldl List.filter]. rewrite audit_step_buckets, IH, <- !app_assoc.
  by destruct (is_contradicted r), (is_proven r), (is_unproven r).
Qed.

(** The audit is three filters. *)
Lemma auditRequirements_filters requirements :
  auditRequirements requirements =
  {| au_contradicted := List.filter is_contradicted requirements;
     au_proven := List.filter is_proven requirements;
     au_unproven := List.filter is_unproven requirements |}.
Proof. apply audit_filters_from. Qed.

(** Every requirement that counts is proven by strong evidence. *)
Definition all_proven (requirements : list LedgerRequirement) : Prop :=
  forall r, r ∈ requirements -> counts r = true ->
    lr_status r = lr_proven /\
    exists e, e ∈ lr_evidence r /\ re_strength e = ev_strong.

Lemma canMarkProven_iff evidence :
  canMarkProven evidence = true <-> exists e, e ∈ evidence /\ re_strength e = ev_strong.
Proof.
  unfold canMarkProven. rewrite existsb_elem. by setoid_rewrite bool_decide_eq_true.
Qed.

Lemma is_proven_iff r :
  counts r = true ->
  (is_contradicted r = false /\ is_unproven r = false) <->
  (lr_status r = lr_proven /\ exists e, e ∈ lr_evidence r /\ re_strength e = ev_strong).
Proof.
  intros Hc. rewrite <- canMarkProven_iff.
  unfold is_contradicted, is_unproven, is_proven. rewrite Hc.
  destruct (lr_status r), (canMarkProven (lr_evidence r)); vm_compute;
    intuition congruence.
Qed.

Lemma nothing_missing requirements :
  List.filter is_unproven requirements = [] /\
  List.filter is_contradicted requirements = [] <-> all_proven requirements.
Proof.
  rewrite !filter_nil_iff. unfold all_proven. split.
  - intros [Hu Hc] r Hr Hcounts. apply is_proven_iff; auto.
  - intros H. split; intros r Hr; destruct (counts r) eqn:Hc.
    + by apply is_proven_iff; auto.
    + unfold is_unproven. by rewrite Hc.
    + by apply is_proven_iff; auto.
    + unfold is_contradicted. by rewrite Hc.
Qed.

Definition all_passed (validations : list DeterministicValidationResult) : Prop :=
  forall v, v ∈ validations -> dv_passed v = true.

Lemma no_failures validations :
  List.filter (fun v => negb (dv_passed v)) validations = [] <-> all_passed validations.
Proof. rewrite filter_nil_iff. unfold all_passed. by setoid_rewrite negb_false_iff. Qed.

Lemma gate_reasons_nil requirements validations :
  gate_reasons requirements validations = [] <->
  all_proven requirements /\ all_passed validations.
Proof.
  unfold gate_reasons. rewrite auditRequirements_filters. cbn.
  rewrite <- nothing_missing, <- no_failures.
  destruct (List.filter is_unproven requirements),
    (List.filter is_contradicted requirements), (List.filter _ validations); cbn;
    split; intros H; repeat split; try done; try (by destruct H as [[] ]).
Qed.

Lemma deterministic_complete requirements validations :
  complete (deterministic_verify requirements validations) = true <->
  all_proven requirements /\ all_passed validations.
Proof.
  unfold deterministic_verify. rewrite auditRequirements_filters. cbn.
  rewrite <- nothing_missing, <- no_failures.
  destruct (List.filter is_unproven requirements),
    (List.filter is_contradicted requirements), (List.filter _ validations); cbn;
    split; intros H; repeat split; try done; try (by destruct H as [[] ]).
Qed.

Lemma count_repeats_le fingerprint l : count_repeats fingerprint l <= length l.
Proof. induction l; cbn; [lia|]. case_match; lia. Qed.

Lemma count_repeats_prefix fingerprint l n :
  n <= count_repeats fingerprint l <->
  n <= length l /\
  forall a, a ∈ take n l ->
    at_blockerFingerprint a = fingerprint /\ at_evidenceAdded a = false /\
    at_meaningfulChange a = false.
Proof.
  revert n. induction l as [|x l IH]; intros n; cbn.
  { split; [intros; split; [done|]; rewrite take_nil; by intros a ?%not_elem_of_nil|tauto]. }
  destruct n as [|n]; cbn.
  { split; [|lia]. intros _. split; [lia|]. by intros a ?%not_elem_of_nil. }
  setoid_rewrite elem_of_cons.
  destruct ((at_blockerFingerprint x !== fingerprint) || at_evidenceAdded x ||
    at_meaningfulChange x) eqn:E.
  - split; [lia|]. intros [_ H]. destruct (H x) as (H1 & H2 & H3); [by left|].
    rewrite H1, H2, H3, bool_decide_eq_true_2 in E by done. done.
  - bool_hyps. rewrite <- Nat.succ_le_mono, IH. split.
    + intros [? Hf]. split; [lia|]. intros a [->|Ha]; auto.
    + intros [? Hf]. split; [lia|]. auto.
Qed.

(** * Properties *)

(** The audit splits the required, unwaived requirements into three
    disjoint lists in ledger order, and a requirement is proven only with a
    [proven] status and strong evidence. *)
Theorem auditRequirements_partition requirements :
  let audit := auditRequirements requirements in
  (forall r, r ∈ requirements -> counts r = true ->
     (r ∈ au_contradicted audit /\ (r ∉ au_proven audit) /\ (r ∉ au_unproven audit)) \/
     ((r ∉ au_contradicted audit) /\ r ∈ au_proven audit /\ (r ∉ au_unproven audit)) \/
     ((r ∉ au_contradicted audit) /\ (r ∉ au_proven audit) /\ r ∈ au_unproven audit)) /\
  (forall r, r ∈ au_contradicted audit ++ au_proven audit ++ au_unproven audit ->
     r ∈ requirements /\ counts r = true) /\
  (forall r, r ∈ au_proven audit <-> r ∈ requirements /\ counts r = true /\
     lr_status r = lr_proven /\ canMarkProven (lr_evidence r) = true) /\
  sublist (au_contradicted audit) requirements /\
  sublist (au_proven audit) requirements /\
  sublist (au_unproven audit) requirements.
Proof.
  cbn. rewrite auditRequirements_filters. cbn.
  assert (forall f : LedgerRequirement -> bool,
    sublist (List.filter f requirements) requirements) as Hsub.
  { intros f. induction requirements; cbn; [done|]. case_match; by constructor. }
  split; [|split; [|split; [|auto]]].
  - intros r Hr Hc. rewrite !elem_of_list_filter.
    unfold is_unproven, is_proven, is_contradicted. rewrite Hc.
    destruct (lr_status r), (canMarkProven (lr_evidence r)); vm_compute;
    intuition congruence.
  - intros r. rewrite !elem_of_app, !elem_of_list_filter.
    unfold is_unproven, is_proven, is_contradicted. rewrite !andb_true_iff. tauto.
  - intros r. rewrite elem_of_list_filter. unfold is_proven.
    rewrite !andb_true_iff, bool_decide_eq_true. tauto.
Qed.

(** The completion gate accepts only real evidence.  With any verifier,
    acceptance means every required, unwaived requirement is proven by strong
    evidence, every deterministic validation passed, and the configured
    verifier returned a complete verdict; and with the deterministic verifier
    those facts are also sufficient.  Without a verifier nothing is accepted. *)
Theorem completion_gate_sound {V} `{IndependentVerifier V} (v : option V)
  requirements validations decision :
  evaluate_completion v requirements validations = Ok decision ->
  (accepted decision = true ->
     all_proven requirements /\ all_passed validations /\
     exists w verdict, v = Some w /\ verify w requirements validations = Ok verdict /\
       complete verdict = true) /\
  (accepted decision = true -> reasons decision = []) /\
  (v = None -> accepted decision = false) /\
  (evaluate_completion (Some deterministic_verifier) requirements validations =
     Ok {| accepted := true; reasons := [];
           cd_verifier := Some (deterministic_verify requirements validations) |} <->
   all_proven requirements /\ all_passed validations).
Proof.
  unfold evaluate_completion. intros Hd.
  split; [|split; [|split]].
  - intros Ha. destruct (gate_reasons requirements validations) eqn:Eg; cbn in Hd.
    + apply gate_reasons_nil in Eg as [Hp Hv].
      destruct v as [w|]; [|by simplify_eq].
      apply bind_ok in Hd as (verdict & Hver & Hd).
      destruct (complete verdict) eqn:Ec; cbn in Hd; [eauto 10|].
      injection Hd as <-. done.
    + by simplify_eq.
  - intros Ha.
    destruct (gate_reasons requirements validations); cbn in Hd; [|by simplify_eq].
    destruct v as [w|]; [|by simplify_eq].
    apply bind_ok in Hd as (verdict & Hver & Hd).
    destruct (complete verdict); injection Hd as <-; done.
  - intros ->. destruct (gate_reasons requirements validations); cbn in Hd;
      by simplify_eq.
  - rewrite <- gate_reasons_nil.
    destruct (gate_reasons requirements validations) eqn:Eg; [|by split].
    apply gate_reasons_nil, deterministic_complete in Eg.
    cbn [Nat.ltb Nat.leb length mbind result_bind verify deterministic_is_verifier].
    by rewrite Eg.
Qed.

Definition proven_requirement : LedgerRequirement :=
  {| lr_id := "r1"; lr_title := "t"; lr_required := true; lr_status := lr_proven;
     lr_evidence := [{| re_id := "e"; re_kind := ek_test; re_strength := ev_strong;
                        re_summary := "" |}] |}.

Lemma completion_gate_sound_witness :
  exists decision,
    evaluate_completion (Some deterministic_verifier) [proven_requirement] [] = Ok decision /\
    all_proven [proven_requirement].
Proof.
  eexists. split; [reflexivity|].
  refine (proj1 (proj1 (completion_gate_sound (Some deterministic_verifier)
    [proven_requirement] [] _ eq_refl) _)).
  vm_compute. reflexivity.
Defined.

(** Stagnation is decided by the trailing run of attempts alone.  When the
    last attempt shows no progress and names a blocker, the count is the length
    of the longest suffix of attempts with that blocker and no progress; three
    or more block, two ask for a fresh agent, one for a new plan; any progress
    or a missing blocker in the last attempt continues. *)
Theorem assessStagnation_spec attempts last_attempt :
  last attempts = Some last_attempt ->
  let a := assessStagnation attempts in
  let stuck x := at_blockerFingerprint x = at_blockerFingerprint last_attempt /\
                 at_evidenceAdded x = false /\ at_meaningfulChange x = false in
  (sa_action a = st_continue <->
     at_meaningfulChange last_attempt = true \/ at_evidenceAdded last_attempt = true \/
     at_blockerFingerprint last_attempt = None) /\
  (sa_action a <> st_continue ->
     (forall n, n <= sa_repeatedBlockerCount a <->
        n <= length attempts /\ forall x, x ∈ take n (rev attempts) -> stuck x) /\
     1 <= sa_repeatedBlockerCount a /\
     (sa_action a = st_blocked <-> 3 <= sa_repeatedBlockerCount a) /\
     (sa_action a = st_fresh_agent <-> sa_repeatedBlockerCount a = 2) /\
     (sa_action a = st_replan <-> sa_repeatedBlockerCount a = 1)).
Proof.
  intros Hlast a stuck. unfold a, assessStagnation. rewrite Hlast.
  destruct (at_meaningfulChange last_attempt || at_evidenceAdded last_attempt ||
    (at_blockerFingerprint last_attempt === None)) eqn:E.
  { split; [|done]. split; [|done]. intros _.
    apply orb_true_iff in E as [[?|?]%orb_true_iff|?]; bool_hyps; auto. }
  bool_hyps.
  set (k := count_repeats _ _).
  assert (forall n, n <= k <->
    n <= length attempts /\ forall x, x ∈ take n (rev attempts) -> stuck x) as Hk.
  { intros n. unfold k. by rewrite count_repeats_prefix, length_rev. }
  assert (1 <= k) as Hk1.
  { apply Hk. apply last_Some in Hlast as [l ->]. rewrite rev_app_distr. cbn.
    rewrite take_0, length_app. cbn. split; [lia|].
    intros x ->%list_elem_of_singleton. done. }
  destruct (Nat.leb_spec 3 k); cbn.
  - split; [intuition congruence|]. intros _. split; [done|].
    repeat split; try done; try lia; intros; try congruence; lia.
  - split; [destruct (Nat.eqb_spec k 2); intuition congruence|].
    intros _. split; [done|]. split; [done|].
    destruct (Nat.eqb_spec k 2); repeat split; intros; try done; try lia; try congruence.
Qed.

Definition stuck_attempt : ProgressAttempt :=
  {| at_blockerFingerprint := Some "b"; at_evidenceAdded := false;
     at_meaningfulChange := false; at_timestamp := "t" |}.

Lemma assessStagnation_spec_witness :
  sa_action (assessStagnation [stuck_attempt; stuck_attempt]) = st_fresh_agent.
Proof.
  refine (proj2 (proj1 (proj2 (proj2 (proj2
    (proj2 (assessStagnation_spec [stuck_attempt; stuck_attempt] stuck_attempt eq_refl) _))))
    ) _); [vm_compute; discriminate | vm_compute; reflexivity].
Defined.
