(* ===== verification/Recovery.v ===== *)
(** Failure classification and tool recovery planning
    (packages/recovery/src/failure.ts and tool-recovery.ts).

    [number_to_string] is the language's number formatting, used only inside
    human-readable reasons: a parameter. *)

From Stdlib Require Import ZArith Lia.
From stdpp Require Import base strings list.
From S2P Require Import Prelude JsNumber JsString Protocol Policies.

Open Scope string_scope.
Open Scope list_scope.

(** Source: packages/recovery/src/failure.ts:1-9 [FailureSource]. *)
Inductive FailureSource : Type :=
| fs_provider | fs_tool | fs_daemon | fs_git | fs_runtime | fs_external
| fs_budget | fs_unknown.
#[export] Instance FailureSource_eq_dec : EqDecision FailureSource.
Proof. solve_decision. Defined.

(** Source: packages/recovery/src/failure.ts:11-23 [FailureKind]. *)
Inductive FailureKind : Type :=
| fk_provider_timeout | fk_rate_limited | fk_context_exhausted
| fk_model_unavailable | fk_tool_deterministic | fk_tool_transient
| fk_daemon_crash | fk_git_conflict | fk_repeated_failure
| fk_external_pending | fk_budget_exhausted | fk_unknown.
#[export] Instance FailureKind_eq_dec : EqDecision FailureKind.
Proof. solve_decision. Defined.

(** The string of a kind, as it appears in hold reasons. *)
Definition FailureKind_str (k : FailureKind) : string :=
  match k with
  | fk_provider_timeout => "provider_timeout"
  | fk_rate_limited => "rate_limited"
  | fk_context_exhausted => "context_exhausted"
  | fk_model_unavailable => "model_unavailable"
  | fk_tool_deterministic => "tool_deterministic"
  | fk_tool_transient => "tool_transient"
  | fk_daemon_crash => "daemon_crash"
  | fk_git_conflict => "git_conflict"
  | fk_repeated_failure => "repeated_failure"
  | fk_external_pending => "external_pending"
  | fk_budget_exhausted => "budget_exhausted"
  | fk_unknown => "unknown"
  end.

(** Source: packages/recovery/src/failure.ts:25-40 [RecoveryAction]. *)
Inductive RecoveryAction : Type :=
| ra_retry | ra_alternate_provider | ra_wait | ra_compact_context
| ra_new_session_epoch | ra_switch_model | ra_debug_tool | ra_takeover_lease
| ra_resume_checkpoint | ra_resolve_git_conflict | ra_replan
| ra_fresh_debugger | ra_waiting_external | ra_budget_limited
| ra_manual_review.
#[export] Instance RecoveryAction_eq_dec : EqDecision RecoveryAction.
Proof. solve_decision. Defined.

Definition RecoveryAction_str (a : RecoveryAction) : string :=
  match a with
  | ra_retry => "retry"
  | ra_alternate_provider => "alternate_provider"
  | ra_wait => "wait"
  | ra_compact_context => "compact_context"
  | ra_new_session_epoch => "new_session_epoch"
  | ra_switch_model => "switch_model"
  | ra_debug_tool => "debug_tool"
  | ra_takeover_lease => "takeover_lease"
  | ra_resume_checkpoint => "resume_checkpoint"
  | ra_resolve_git_conflict => "resolve_git_conflict"
  | ra_replan => "replan"
  | ra_fresh_debugger => "fresh_debugger"
  | ra_waiting_external => "waiting_external"
  | ra_budget_limited => "budget_limited"
  | ra_manual_review => "manual_review"
  end.

(** A thrown value of unknown type, as the classifier inspects it.  A property
    that is absent or not a string is [None]. *)
Inductive thrown : Type :=
| error_instance (name message : string) (code : option string)
| error_object (name code message : option string)
| error_string (text : string)
| error_other.

(** Source: packages/recovery/src/failure.ts:42-52 [FailureInput]. *)
Record FailureInput := {
  fi_error : option thrown;
  fi_message : option string;
  fi_source : option FailureSource;
  fi_code : option string;
  fi_statusCode : option num;
  fi_identicalFailureCount : option num;
  fi_retryAfterMs : option num }.

(** Source: packages/recovery/src/failure.ts:54-61 [FailureClassification]. *)
Record FailureClassification := {
  fc_kind : FailureKind;
  fc_source : FailureSource;
  fc_retryable : bool;
  fc_actions : list RecoveryAction;
  fc_reason : string;
  fc_retryAfterMs : option num }.

(** Source: packages/recovery/src/failure.ts:73-75 [lower]. *)
Definition lower (value : option string) : string :=
  match value with Some s => toLowerCase s | None => "" end.

(** Source: packages/recovery/src/failure.ts:77-90 [errorText]. *)
Definition errorText (error : option thrown) : string :=
  match error with
  | Some (error_instance name message _) => toLowerCase (name +:+ " " +:+ message)
  | Some (error_object name code message) =>
      toLowerCase ((name ?? "") +:+ " " +:+ (code ?? "") +:+ " " +:+ (message ?? ""))
  | Some (error_string text) => toLowerCase text
  | Some error_other | None => ""
  end.

(** Source: packages/recovery/src/failure.ts:92-103 [effectiveCode]. *)
Definition effectiveCode (input : FailureInput) : string :=
  match fi_code input with
  | Some code => lower (Some code)
  | None =>
      match fi_error input with
      | Some (error_instance _ _ (Some code)) => lower (Some code)
      | Some (error_object _ (Some code) _) => lower (Some code)
      | _ => ""
      end
  end.

(** Source: packages/recovery/src/failure.ts:105-107 [containsAny]. *)
Definition containsAny (text : string) (needles : list string) : bool :=
  existsb (fun needle => includes text needle) needles.

(** Source: packages/recovery/src/failure.ts:109-125 [classification]. *)
Definition classification (kind : FailureKind) (source : FailureSource) (retryable : bool)
  (actions : list RecoveryAction) (reason : string) (retryAfterMs : option num)
  : FailureClassification :=
  {| fc_kind := kind; fc_source := source; fc_retryable := retryable;
     fc_actions := actions; fc_reason := reason; fc_retryAfterMs := retryAfterMs |}.

(** The default threshold and the constructor's guard.
    Source: packages/recovery/src/failure.ts:135-143 [FailureClassifier.constructor]. *)
Definition new_classifier (repeatedFailureThreshold : option num) : exc num :=
  let threshold := repeatedFailureThreshold ?? ofZ 3 in
  _ ← throw_if (negb (isSafeInteger threshold) || js_lt threshold (ofZ 2))
        (TypeError "repeatedFailureThreshold must be a safe integer of at least 2.");
  mret threshold.

(** [source === "unknown" ? "provider" : source]. *)
Definition provider_source (source : FailureSource) : FailureSource :=
  if source === fs_unknown then fs_provider else source.

(** [statusCode === n]. *)
Definition status_is (status : option num) (n : Z) : bool :=
  match status with Some s => js_eq s (ofZ n) | None => false end.

Section Classify.
Variable number_to_string : num -> string.

(** The text the needles are searched in. *)
Definition failure_text (input : FailureInput) : string :=
  trim (effectiveCode input +:+ " " +:+ lower (fi_message input) +:+ " " +:+
        errorText (fi_error input)).

(** Source: packages/recovery/src/failure.ts:307-350 [FailureClassifier.classify, tool branch]. *)
Definition classify_tool (text : string) : FailureClassification :=
  if containsAny text ["invalid argument"; "validation failed"; "unsupported";
       "not found"; "permission denied"; "syntax error"] then
    classification fk_tool_deterministic fs_tool false [ra_debug_tool]
      "The tool failure appears deterministic and should be debugged before retrying." None
  else if containsAny text ["econnreset"; "econnrefused"; "temporary failure";
       "temporarily unavailable"; "i/o error"] then
    classification fk_tool_transient fs_tool true [ra_retry]
      "The tool failure appears transient and can be retried within its safety policy." None
  else
    classification fk_tool_deterministic fs_tool false [ra_debug_tool]
      "An unclassified tool failure requires diagnosis before another attempt." None.

(** Source: packages/recovery/src/failure.ts:145-359 [FailureClassifier.classify]. *)
Definition classify (repeatedFailureThreshold : num) (input : FailureInput)
  : FailureClassification :=
  let source := fi_source input ?? fs_unknown in
  let text := failure_text input in
  let statusCode := fi_statusCode input in
  if (source === fs_budget) ||
     containsAny text ["budget exhausted"; "budget limit"; "token budget"; "cost limit"] then
    classification fk_budget_exhausted source false [ra_budget_limited]
      "A configured run budget has been exhausted." None
  else if (source === fs_external) ||
     containsAny text ["external pending"; "awaiting external"; "waiting for approval";
       "pending approval"] then
    classification fk_external_pending source false [ra_waiting_external]
      "Progress depends on an external system or approval." None
  else if match fi_identicalFailureCount input with
          | Some count => js_le repeatedFailureThreshold count
          | None => false
          end then
    classification fk_repeated_failure source false [ra_replan; ra_fresh_debugger]
      ("The same failure has recurred " +:+
       number_to_string (fi_identicalFailureCount input ?? NaN) +:+ " times.") None
  else if status_is statusCode 429 ||
     containsAny text ["rate limit"; "ratelimit"; "too many requests";
       "resource exhausted"] then
    classification fk_rate_limited (provider_source source) true
      [ra_wait; ra_alternate_provider]
      "The provider rate-limited the request." (fi_retryAfterMs input)
  else if containsAny text ["context length"; "context window"; "maximum context";
       "too many tokens"; "token limit exceeded"] then
    classification fk_context_exhausted (provider_source source) false
      [ra_compact_context; ra_new_session_epoch]
      "The provider rejected the request because its context is full." None
  else if status_is statusCode 404 || status_is statusCode 503 ||
     containsAny text ["model unavailable"; "model not found"; "model overloaded";
       "model disabled"] then
    classification fk_model_unavailable (provider_source source) true [ra_switch_model]
      "The selected model is unavailable." None
  else if (source === fs_daemon) ||
     containsAny text ["daemon crashed"; "executor crashed"; "lease owner died";
       "process exited"] then
    classification fk_daemon_crash fs_daemon false [ra_takeover_lease; ra_resume_checkpoint]
      "The durable executor stopped and a lease takeover is required." None
  else if (source === fs_git) ||
     containsAny text ["merge conflict"; "git conflict"; "unmerged paths"; "needs merge"] then
    classification fk_git_conflict fs_git false [ra_resolve_git_conflict]
      "Git reported a conflict that requires an explicit recovery workflow." None
  else if status_is statusCode 408 || status_is statusCode 504 ||
     (effectiveCode input === "etimedout") ||
     containsAny text ["timeout"; "timed out"; "deadline exceeded"] then
    classification fk_provider_timeout (provider_source source) true
      [ra_retry; ra_alternate_provider]
      "A provider request timed out before a durable result was received." None
  else if source === fs_tool then classify_tool text
  else
    classification fk_unknown source false [ra_manual_review]
      "The failure did not match a safe automated recovery class." None.

(** Source: packages/recovery/src/failure.ts:362-367 [classifyFailure]. *)
Definition classifyFailure (input : FailureInput) (repeatedFailureThreshold : option num)
  : exc FailureClassification :=
  threshold ← new_classifier repeatedFailureThreshold;
  mret (classify threshold input).

(** ** Tool recovery plans *)

(** Source: packages/recovery/src/tool-recovery.ts:6-13 [ToolRecoveryPlan]. *)
Record ToolRecoveryPlan := {
  plan_decision : ToolRecoveryDecision;
  mayRetryNow : bool;
  holdReason : option string }.

(** Source: packages/recovery/src/tool-recovery.ts:15-20 [ToolRecoveryPlanOptions]. *)
Record ToolRecoveryPlanOptions := {
  opt_attempts : option num;
  opt_maxAttempts : option num }.

(** Source: packages/recovery/src/tool-recovery.ts:27-74 [planToolRecovery]. *)
Definition planToolRecovery (tool : ToolDefinition) (failure : FailureClassification)
  (options : ToolRecoveryPlanOptions) : exc ToolRecoveryPlan :=
  let decision := decideToolRecovery tool in
  let attempts := opt_attempts options ?? ofZ 0 in
  let maxAttempts := opt_maxAttempts options ?? ofZ 2 in
  _ ← throw_if (negb (isSafeInteger attempts) || js_lt attempts (ofZ 0))
        (TypeError "attempts must be a non-negative safe integer.");
  _ ← throw_if (negb (isSafeInteger maxAttempts) || js_lt maxAttempts (ofZ 1))
        (TypeError "maxAttempts must be a positive safe integer.");
  mret
    (if decision_action decision !== rec_retry then
       {| plan_decision := decision; mayRetryNow := false;
          holdReason := Some (decision_reason decision) |}
     else if negb (fc_retryable failure) then
       {| plan_decision := decision; mayRetryNow := false;
          holdReason := Some ("Failure class '" +:+ FailureKind_str (fc_kind failure) +:+
                              "' is not retryable.") |}
     else if negb (existsb (fun a => a === ra_retry) (fc_actions failure)) then
       {| plan_decision := decision; mayRetryNow := false;
          holdReason := Some ("Failure class '" +:+ FailureKind_str (fc_kind failure) +:+
            "' requires " +:+ join ", " (map RecoveryAction_str (fc_actions failure)) +:+
            " before retrying.") |}
     else if js_le maxAttempts attempts then
       {| plan_decision := decision; mayRetryNow := false;
          holdReason := Some ("Retry limit of " +:+ number_to_string maxAttempts +:+
                              " has been reached.") |}
     else {| plan_decision := decision; mayRetryNow := true; holdReason := None |}).

(** Source: packages/recovery/src/tool-recovery.ts:77-83 [mayRetryTool]. *)
Definition mayRetryTool (tool : ToolDefinition) (failure : FailureClassification)
  (options : ToolRecoveryPlanOptions) : exc bool :=
  plan ← planToolRecovery tool failure options; mret (mayRetryNow plan).

(** ** Lemmas *)

Ltac classify_cases :=
  unfold classify, classify_tool, classification; repeat case_match; cbn.

Lemma classify_retry_kinds threshold input :
  ra_retry ∈ fc_actions (classify threshold input) <->
  fc_kind (classify threshold input) ∈ [fk_provider_timeout; fk_tool_transient].
Proof. rewrite !list_elem_of_In. classify_cases; intuition congruence. Qed.

Lemma classify_retryable_kinds threshold input :
  fc_retryable (classify threshold input) = true <->
  fc_kind (classify threshold input) ∈
    [fk_provider_timeout; fk_tool_transient; fk_rate_limited; fk_model_unavailable].
Proof. rewrite list_elem_of_In. classify_cases; intuition congruence. Qed.

(** The attempts one plan after another may take. *)
Lemma plan_ok tool failure options plan :
  planToolRecovery tool failure options = Ok plan ->
  plan_decision plan = decideToolRecovery tool /\
  (mayRetryNow plan = true <->
     decision_action (decideToolRecovery tool) = rec_retry /\
     fc_retryable failure = true /\ ra_retry ∈ fc_actions failure /\
     js_le (opt_maxAttempts options ?? ofZ 2) (opt_attempts options ?? ofZ 0) = false).
Proof.
  unfold planToolRecovery. intros H.
  apply bind_ok in H as ([] & _ & H). apply bind_ok in H as ([] & _ & [= <-]).
  assert (existsb (fun a => a === ra_retry) (fc_actions failure) = true <->
    ra_retry ∈ fc_actions failure) as Hin.
  { rewrite existsb_elem. split.
    - intros (a & Ha & Heq). bool_hyps. by subst.
    - intros Ha. exists ra_retry. by split. }
  repeat case_match; cbn; bool_hyps; (split; [done|]);
    intuition (try congruence).
Qed.

(** ** Properties *)

(** Classification is total and every outcome is internally consistent:
    there is always at least one action, immediate retry is offered exactly
    for timeouts and transient tool errors, only those two, rate limits and
    unavailable models count as retryable, a retry delay is passed on only
    for rate limits, and budget and approval waits take precedence over every
    other reading of the same error. *)
Theorem classify_consistent threshold input :
  let c := classify threshold input in
  fc_actions c <> [] /\
  (ra_retry ∈ fc_actions c <-> fc_kind c ∈ [fk_provider_timeout; fk_tool_transient]) /\
  (fc_retryable c = true <-> fc_kind c ∈
     [fk_provider_timeout; fk_tool_transient; fk_rate_limited; fk_model_unavailable]) /\
  (fc_retryAfterMs c <> None -> fc_kind c = fk_rate_limited) /\
  (fi_source input = Some fs_budget -> fc_kind c = fk_budget_exhausted) /\
  (fi_source input = Some fs_external ->
     fc_kind c = fk_external_pending \/ fc_kind c = fk_budget_exhausted) /\
  (forall count, fi_identicalFailureCount input = Some count ->
     js_le threshold count = true -> fc_retryable c = false).
Proof.
  intros c. unfold c. split; [classify_cases; done|].
  split; [apply classify_retry_kinds|]. split; [apply classify_retryable_kinds|].
  split; [classify_cases; done|].
  split; [intros H; unfold classify; rewrite H; done|].
  split.
  - intros H. unfold classify. rewrite H.
    change ((Some fs_external ?? fs_unknown) === fs_external) with true.
    cbn [orb]. case_match; auto.
  - intros count H Hle. unfold classify. rewrite H, Hle.
    repeat case_match; done.
Qed.

(** A tool is retried in a recovery cycle only when its own contract
    allows it, the failure offers an immediate retry and the attempts are
    below the limit: external, destructive, unsafe or conditional tools are
    never retried however transient the failure looks, and a plan that holds
    a tool back says why. *)
Theorem planToolRecovery_safe tool threshold input options plan :
  planToolRecovery tool (classify threshold input) options = Ok plan ->
  (mayRetryNow plan = true ->
     recovery tool = rec_retry /\ idempotency tool = id_safe /\
     sideEffectClass tool ∈ [se_none; se_workspace] /\
     fc_kind (classify threshold input) ∈ [fk_provider_timeout; fk_tool_transient] /\
     js_lt (opt_attempts options ?? ofZ 0) (opt_maxAttempts options ?? ofZ 2) = true) /\
  (mayRetryNow plan = false <-> holdReason plan <> None) /\
  mayRetryTool tool (classify threshold input) options = Ok (mayRetryNow plan).
Proof.
  intros H. split; [|split].
  - intros Hm. pose proof (proj1 (proj2 (plan_ok _ _ _ _ H)) Hm) as (Hd & _ & Ha & Hle).
    assert (recovery tool = rec_retry /\ idempotency tool = id_safe /\
      sideEffectClass tool ∈ [se_none; se_workspace]) as (? & ? & ?).
    { revert Hd. rewrite list_elem_of_In. unfold decideToolRecovery.
      destruct tool as [name se id rec scopes perms]; cbn [recovery idempotency sideEffectClass].
      destruct rec, se, id; vm_compute; intuition congruence. }
    apply classify_retry_kinds in Ha.
    unfold planToolRecovery in H. apply bind_ok in H as ([] & Hat & H).
    apply bind_ok in H as ([] & Hmax & _). apply throw_if_ok in Hat, Hmax. bool_hyps.
    do 4 (split; [done|]). rewrite js_lt_not_le; [by rewrite Hle| |].
    + intros Heq. by rewrite Heq in *.
    + intros Heq. by rewrite Heq in *.
  - unfold planToolRecovery in H.
    apply bind_ok in H as ([] & _ & H). apply bind_ok in H as ([] & _ & [= <-]).
    repeat case_match; cbn; intuition congruence.
  - unfold mayRetryTool. by rewrite H.
Qed.
End Classify.

Definition timeout_failure : FailureInput :=
  {| fi_error := Some (error_string "request timed out"); fi_message := None;
     fi_source := Some fs_tool; fi_code := None; fi_statusCode := None;
     fi_identicalFailureCount := Some (ofZ 1); fi_retryAfterMs := None |}.

Lemma planToolRecovery_safe_witness :
  exists plan,
    planToolRecovery (fun _ => "n") retry_tool
      (classify (fun _ => "n") (ofZ 3) timeout_failure)
      {| opt_attempts := Some (ofZ 1); opt_maxAttempts := None |} = Ok plan /\
    mayRetryTool (fun _ => "n") retry_tool
      (classify (fun _ => "n") (ofZ 3) timeout_failure)
      {| opt_attempts := Some (ofZ 1); opt_maxAttempts := None |} = Ok (mayRetryNow plan).
Proof.
  eexists. split; [vm_compute; reflexivity|].
  apply (planToolRecovery_safe (fun _ => "n") retry_tool (ofZ 3) timeout_failure
    {| opt_attempts := Some (ofZ 1); opt_maxAttempts := None |}).
  vm_compute. reflexivity.
Defined.
