(* ===== verification/Mailbox.v ===== *)
(** The recoverable FIFO mailbox of a run (packages/agents/src/mailbox.ts).

    The state is the class's fields: the run, the next sequence number, the
    messages by identity and the index of idempotency keys, both maps in
    insertion order.  Every method is one definition; a method that changes the
    state returns the new one.  No method changes the state before it throws. *)

From Stdlib Require Import ZArith Lia Sorted Permutation.
From stdpp Require Import base strings list relations.
From S2P Require Import Prelude JsNumber JsString JsCollections Protocol Json Ids.

Open Scope string_scope.
Open Scope list_scope.

(** Source: packages/agents/src/types.ts:59-59 [AgentMessageKind]. *)
Inductive AgentMessageKind : Type := mk_input | mk_steering | mk_handoff | mk_control | mk_system.

#[export] Instance AgentMessageKind_eq_dec : EqDecision AgentMessageKind.
Proof. solve_decision. Defined.

(** Source: packages/agents/src/types.ts:52-58 [AGENT_MESSAGE_KINDS]. *)
Definition AGENT_MESSAGE_KINDS : list AgentMessageKind :=
  [mk_input; mk_steering; mk_handoff; mk_control; mk_system].

(** Source: packages/agents/src/types.ts:67-67 [AgentMessageStatus]. *)
Inductive AgentMessageStatus : Type :=
| msg_queued | msg_delivered | msg_acknowledged | msg_cancelled.

#[export] Instance AgentMessageStatus_eq_dec : EqDecision AgentMessageStatus.
Proof. solve_decision. Defined.

(** Source: packages/agents/src/types.ts:61-66 [AGENT_MESSAGE_STATUSES]. *)
Definition AGENT_MESSAGE_STATUSES : list AgentMessageStatus :=
  [msg_queued; msg_delivered; msg_acknowledged; msg_cancelled].

(** Source: packages/agents/src/types.ts:74-92 [AgentMailboxMessage]. *)
Record AgentMailboxMessage := {
  m_id : string;
  m_runId : string;
  m_sequence : num;
  m_recipientAgentId : string;
  m_senderAgentId : option string;
  m_kind : AgentMessageKind;
  m_payload : JsonValue;
  m_idempotencyKey : option string;
  m_status : AgentMessageStatus;
  m_deliveryAttempts : num;
  m_deliveryId : option string;
  m_deliveredAt : option string;
  m_acknowledgedAt : option string;
  m_cancelledAt : option string;
  m_cancellationReason : option string;
  m_createdAt : string;
  m_updatedAt : string }.

(** Source: packages/agents/src/types.ts:94-98 [AgentMailboxSnapshot]. *)
Record AgentMailboxSnapshot := {
  snap_runId : string;
  snap_nextSequence : num;
  snap_messages : list AgentMailboxMessage }.

(** Source: packages/agents/src/types.ts:113-123 [EnqueueAgentMessageInput]. *)
Record EnqueueAgentMessageInput := {
  in_recipientAgentId : string;
  in_kind : AgentMessageKind;
  in_payload : JsonValue;
  in_createdAt : string;
  in_senderAgentId : option string;
  in_idempotencyKey : option string;
  in_messageId : option string }.

(** Source: packages/agents/src/types.ts:125-130 [ClaimAgentMessagesInput]. *)
Record ClaimAgentMessagesInput := {
  cl_recipientAgentId : string;
  cl_deliveredAt : string;
  cl_deliveryId : option string;
  cl_limit : option num }.

(** Source: packages/agents/src/mailbox.ts:19-24 [AgentMailbox]. *)
Record AgentMailbox := {
  mb_runId : string;
  nextSequence : num;
  messagesById : jsmap string AgentMailboxMessage;
  idempotentMessageIds : jsmap string string }.

Definition with_messages (mb : AgentMailbox) (messages : jsmap string AgentMailboxMessage)
  : AgentMailbox :=
  {| mb_runId := mb_runId mb; nextSequence := nextSequence mb;
     messagesById := messages; idempotentMessageIds := idempotentMessageIds mb |}.

(** [value !== undefined && value.trim().length === 0] *)
Definition given_blank (value : option string) : bool :=
  match value with Some s => string_length (trim s) =? 0 | None => false end%Z.

Section Mailbox.
Variable number_to_string : num -> string.

Implicit Types (mb : AgentMailbox) (message : AgentMailboxMessage).

(** Source: packages/agents/src/mailbox.ts:424-426 [idempotencyIndexKey]. *)
Definition idempotencyIndexKey (recipientAgentId key : string) : string :=
  recipientAgentId +:+ ":" +:+ key.

(** Source: packages/agents/src/mailbox.ts:411-422 [createAgentMailboxMessageId]. *)
Definition createAgentMailboxMessageId (runId recipientAgentId material : string)
  : exc string :=
  _ ← throw_if (string_length material =? 0)%Z
        (InvariantViolationError "Mailbox message material must not be empty");
  mret ("agent-message_" +:+
        deterministicHash (runId +:+ ":" +:+ recipientAgentId +:+ ":" +:+ material)).

(** Source: packages/agents/src/mailbox.ts:428-439 [normalizeClaimLimit]. *)
Definition normalizeClaimLimit (limit : option num) : exc num :=
  match limit with
  | None => mret (ofZ 1)
  | Some limit =>
      _ ← throw_if (negb (isSafeInteger limit) || js_lt limit (ofZ 0))
            (InvariantViolationError
               "Mailbox claim limit must be a non-negative safe integer");
      mret limit
  end.

(** Source: packages/agents/src/mailbox.ts:441-453 [isSameIdempotentMessage]. *)
Definition isSameIdempotentMessage (existing : AgentMailboxMessage)
  (input : EnqueueAgentMessageInput) : exc bool :=
  if (m_recipientAgentId existing === in_recipientAgentId input) &&
     (m_senderAgentId existing === in_senderAgentId input) &&
     (m_kind existing === in_kind input) &&
     (m_idempotencyKey existing === in_idempotencyKey input) &&
     match in_messageId input with
     | None => true
     | Some id => m_id existing === id
     end
  then
    left ← canonicalJson number_to_string (m_payload existing);
    right ← canonicalJson number_to_string (in_payload input);
    mret (left === right)
  else mret false.

(** Source: packages/agents/src/mailbox.ts:312-353 [assertSnapshotMessage]. *)
Definition assertSnapshotMessage (runId : string) message : exc unit :=
  _ ← throw_if (m_runId message !== runId)
        (InvariantViolationError "Mailbox message belongs to a different run");
  _ ← throw_if (negb (isSafeInteger (m_sequence message)) ||
                js_lt (m_sequence message) (ofZ 1))
        (InvariantViolationError
           "Mailbox message sequence must be a positive safe integer");
  _ ← throw_if (negb (existsb (fun k => k === m_kind message) AGENT_MESSAGE_KINDS))
        (InvariantViolationError "Mailbox message kind is invalid");
  _ ← throw_if (negb (existsb (fun s => s === m_status message) AGENT_MESSAGE_STATUSES))
        (InvariantViolationError "Mailbox message status is invalid");
  _ ← throw_if (negb (isSafeInteger (m_deliveryAttempts message)) ||
                js_lt (m_deliveryAttempts message) (ofZ 0))
        (InvariantViolationError
           "Mailbox delivery attempts must be a non-negative safe integer");
  throw_if ((m_status message === msg_delivered) && (m_deliveredAt message === None))
    (InvariantViolationError
       "A delivered mailbox message must include a delivery timestamp").

(** Source: packages/agents/src/mailbox.ts:355-372 [assertEnqueueInput]. *)
Definition assertEnqueueInput (input : EnqueueAgentMessageInput) : exc unit :=
  _ ← throw_if (string_length (in_recipientAgentId input) =? 0)%Z
        (InvariantViolationError "Mailbox recipient must not be empty");
  _ ← throw_if (given_blank (in_idempotencyKey input))
        (InvariantViolationError "Mailbox idempotency key must not be empty");
  throw_if (given_blank (in_messageId input))
    (InvariantViolationError "Mailbox message identity must not be empty").

(** Source: packages/agents/src/mailbox.ts:374-382 [requireMessage]. *)
Definition requireMessage mb (messageId : string) : exc AgentMailboxMessage :=
  match jm_get (messagesById mb) messageId with
  | None => Throw (InvariantViolationError "Mailbox message does not exist")
  | Some message => mret message
  end.

(** Source: packages/agents/src/mailbox.ts:384-397 [assertRecipient]. *)
Definition assertRecipient message (recipientAgentId : string) : exc unit :=
  throw_if (m_recipientAgentId message !== recipientAgentId)
    (InvariantViolationError "Mailbox recipient does not own this message").

(** Source: packages/agents/src/mailbox.ts:399-408 [assertDelivery]. *)
Definition assertDelivery message (deliveryId : option string) : exc unit :=
  throw_if (match deliveryId with
            | None => false
            | Some id => m_deliveryId message !== Some id
            end)
    (InvariantViolationError "Mailbox delivery identity is stale").

(** ** Construction *)

(** The variables of the constructor's loop. *)
Record loading := {
  ld_maximumSequence : num;
  ld_seenSequences : list num;
  ld_messages : jsmap string AgentMailboxMessage;
  ld_keys : jsmap string string }.

(** One iteration of the constructor's loop.
    Source: packages/agents/src/mailbox.ts:38-71 [AgentMailbox.constructor, loop]. *)
Definition load_message (runId : string) (state : loading) message : exc loading :=
  _ ← assertSnapshotMessage runId message;
  _ ← throw_if (jm_has (ld_messages state) (m_id message))
        (InvariantViolationError "Mailbox message identity appears twice");
  _ ← throw_if (existsb (js_eq (m_sequence message)) (ld_seenSequences state))
        (InvariantViolationError "Mailbox sequence appears twice");
  let messages := jm_set (ld_messages state) (m_id message) message in
  keys ← match m_idempotencyKey message with
         | None => mret (ld_keys state)
         | Some idempotencyKey =>
             let key := idempotencyIndexKey (m_recipientAgentId message) idempotencyKey in
             _ ← throw_if (jm_has (ld_keys state) key)
                   (InvariantViolationError
                      "Mailbox idempotency key appears more than once for a recipient");
             mret (jm_set (ld_keys state) key (m_id message))
         end;
  mret {| ld_maximumSequence := math_max (ld_maximumSequence state) (m_sequence message);
          ld_seenSequences := m_sequence message :: ld_seenSequences state;
          ld_messages := messages; ld_keys := keys |}.

Fixpoint load_messages (runId : string) (state : loading)
  (messages : list AgentMailboxMessage) : exc loading :=
  match messages with
  | [] => mret state
  | message :: rest =>
      state ← load_message runId state message; load_messages runId state rest
  end.

Definition loading_start : loading :=
  {| ld_maximumSequence := ofZ 0; ld_seenSequences := []; ld_messages := []; ld_keys := [] |}.

(** Source: packages/agents/src/mailbox.ts:26-79 [AgentMailbox.constructor]. *)
Definition new_AgentMailbox (snapshot : AgentMailboxSnapshot) : exc AgentMailbox :=
  _ ← throw_if (negb (isSafeInteger (snap_nextSequence snapshot)) ||
                js_lt (snap_nextSequence snapshot) (ofZ 1))
        (InvariantViolationError "Mailbox next sequence must be a positive safe integer");
  state ← load_messages (snap_runId snapshot) loading_start (snap_messages snapshot);
  _ ← throw_if (js_le (snap_nextSequence snapshot) (ld_maximumSequence state))
        (InvariantViolationError
           "Mailbox next sequence must be after every persisted message");
  mret {| mb_runId := snap_runId snapshot; nextSequence := snap_nextSequence snapshot;
          messagesById := ld_messages state; idempotentMessageIds := ld_keys state |}.

(** Source: packages/agents/src/mailbox.ts:81-83 [AgentMailbox.empty]. *)
Definition empty_mailbox (runId : string) : exc AgentMailbox :=
  new_AgentMailbox {| snap_runId := runId; snap_nextSequence := ofZ 1; snap_messages := [] |}.

(** ** Reading *)

(** [left.sequence - right.sequence <= 0]. *)
Definition sequence_le (left right : AgentMailboxMessage) : bool :=
  js_le (js_sub (m_sequence left) (m_sequence right)) (ofZ 0).

(** Source: packages/agents/src/mailbox.ts:93-97 [listMessages]. *)
Definition listMessages mb : list AgentMailboxMessage :=
  sort_by sequence_le (jm_values (messagesById mb)).

(** Source: packages/agents/src/mailbox.ts:85-91 [snapshot]. *)
Definition snapshot mb : AgentMailboxSnapshot :=
  {| snap_runId := mb_runId mb; snap_nextSequence := nextSequence mb;
     snap_messages := listMessages mb |}.

(** Source: packages/agents/src/mailbox.ts:99-102 [getMessage]. *)
Definition getMessage mb (messageId : string) : option AgentMailboxMessage :=
  jm_get (messagesById mb) messageId.

Definition is_queued_for (recipientAgentId : string) message : bool :=
  (m_recipientAgentId message === recipientAgentId) && (m_status message === msg_queued).

(** Source: packages/agents/src/mailbox.ts:300-306 [queuedFor]. *)
Definition queuedFor mb (recipientAgentId : string) : list AgentMailboxMessage :=
  List.filter (is_queued_for recipientAgentId) (listMessages mb).

(** Source: packages/agents/src/mailbox.ts:308-310 [queuedCountFor]. *)
Definition queuedCountFor mb (recipientAgentId : string) : Z :=
  Z.of_nat (length (queuedFor mb recipientAgentId)).

(** ** Operations *)

(** The message a fresh input becomes. *)
Definition queued_message mb (messageId : string) (input : EnqueueAgentMessageInput)
  : AgentMailboxMessage :=
  {| m_id := messageId; m_runId := mb_runId mb; m_sequence := nextSequence mb;
     m_recipientAgentId := in_recipientAgentId input;
     m_senderAgentId := in_senderAgentId input; m_kind := in_kind input;
     m_payload := in_payload input; m_idempotencyKey := in_idempotencyKey input;
     m_status := msg_queued; m_deliveryAttempts := ofZ 0; m_deliveryId := None;
     m_deliveredAt := None; m_acknowledgedAt := None; m_cancelledAt := None;
     m_cancellationReason := None; m_createdAt := in_createdAt input;
     m_updatedAt := in_createdAt input |}.

(** The retry branch: the message an idempotency key already stands for. *)
Definition enqueue_existing mb (input : EnqueueAgentMessageInput)
  : exc (option AgentMailboxMessage) :=
  match in_idempotencyKey input with
  | None => mret None
  | Some idempotencyKey =>
      let key := idempotencyIndexKey (in_recipientAgentId input) idempotencyKey in
      match jm_get (idempotentMessageIds mb) key with
      | None => mret None
      | Some existingId =>
          existing ← requireMessage mb existingId;
          same ← isSameIdempotentMessage existing input;
          _ ← throw_if (negb same)
                (InvariantViolationError
                   "Mailbox idempotency key was reused with different message content");
          mret (Some existing)
      end
  end.

(** Source: packages/agents/src/mailbox.ts:108-176 [enqueue]. *)
Definition enqueue mb (input : EnqueueAgentMessageInput)
  : exc (AgentMailboxMessage * AgentMailbox) :=
  _ ← assertEnqueueInput input;
  existing ← enqueue_existing mb input;
  match existing with
  | Some message => mret (message, mb)
  | None =>
      messageId ←
        match in_messageId input with
        | Some id => mret id
        | None =>
            createAgentMailboxMessageId (mb_runId mb) (in_recipientAgentId input)
              (in_idempotencyKey input ?? number_to_string (nextSequence mb))
        end;
      _ ← throw_if (jm_has (messagesById mb) messageId)
            (InvariantViolationError "Mailbox message identity already exists");
      let message := queued_message mb messageId input in
      mret (message,
        {| mb_runId := mb_runId mb;
           nextSequence := js_add (nextSequence mb) (ofZ 1);
           messagesById := jm_set (messagesById mb) messageId message;
           idempotentMessageIds :=
             match in_idempotencyKey input with
             | None => idempotentMessageIds mb
             | Some key =>
                 jm_set (idempotentMessageIds mb)
                   (idempotencyIndexKey (in_recipientAgentId input) key) messageId
             end |})
  end.

(** The record a claim writes for one message. *)
Definition delivered_message (input : ClaimAgentMessagesInput) message
  : AgentMailboxMessage :=
  {| m_id := m_id message; m_runId := m_runId message; m_sequence := m_sequence message;
     m_recipientAgentId := m_recipientAgentId message;
     m_senderAgentId := m_senderAgentId message; m_kind := m_kind message;
     m_payload := m_payload message; m_idempotencyKey := m_idempotencyKey message;
     m_status := msg_delivered;
     m_deliveryAttempts := js_add (m_deliveryAttempts message) (ofZ 1);
     m_deliveryId := Some (cl_deliveryId input ??
       ("delivery:" +:+ m_recipientAgentId message +:+ ":" +:+
        number_to_string (m_sequence message) +:+ ":" +:+
        number_to_string (js_add (m_deliveryAttempts message) (ofZ 1))));
     m_deliveredAt := Some (cl_deliveredAt input);
     m_acknowledgedAt := m_acknowledgedAt message; m_cancelledAt := m_cancelledAt message;
     m_cancellationReason := m_cancellationReason message;
     m_createdAt := m_createdAt message; m_updatedAt := cl_deliveredAt input |}.

Definition store_message (messages : jsmap string AgentMailboxMessage) message :=
  jm_set messages (m_id message) message.

(** Source: packages/agents/src/mailbox.ts:179-216 [claim]. *)
Definition claim mb (input : ClaimAgentMessagesInput)
  : exc (list AgentMailboxMessage * AgentMailbox) :=
  limit ← normalizeClaimLimit (cl_limit input);
  if js_eq limit (ofZ 0) then mret ([], mb)
  else
    _ ← throw_if (given_blank (cl_deliveryId input))
          (InvariantViolationError "Mailbox delivery ID must not be empty");
    let queued := firstn (Z.to_nat (toZ limit))
                    (List.filter (is_queued_for (cl_recipientAgentId input))
                       (listMessages mb)) in
    let delivered := map (delivered_message input) queued in
    mret (delivered,
          with_messages mb (foldl store_message (messagesById mb) delivered)).

Definition acknowledged_message message (acknowledgedAt : string) : AgentMailboxMessage :=
  {| m_id := m_id message; m_runId := m_runId message; m_sequence := m_sequence message;
     m_recipientAgentId := m_recipientAgentId message;
     m_senderAgentId := m_senderAgentId message; m_kind := m_kind message;
     m_payload := m_payload message; m_idempotencyKey := m_idempotencyKey message;
     m_status := msg_acknowledged; m_deliveryAttempts := m_deliveryAttempts message;
     m_deliveryId := m_deliveryId message; m_deliveredAt := m_deliveredAt message;
     m_acknowledgedAt := Some acknowledgedAt; m_cancelledAt := m_cancelledAt message;
     m_cancellationReason := m_cancellationReason message;
     m_createdAt := m_createdAt message; m_updatedAt := acknowledgedAt |}.

(** Source: packages/agents/src/mailbox.ts:218-245 [acknowledge]. *)
Definition acknowledge mb (messageId recipientAgentId acknowledgedAt : string)
  (deliveryId : option string) : exc (AgentMailboxMessage * AgentMailbox) :=
  current ← requireMessage mb messageId;
  _ ← assertRecipient current recipientAgentId;
  if m_status current === msg_acknowledged then mret (current, mb)
  else
    _ ← throw_if (m_status current !== msg_delivered)
          (InvariantViolationError "Only a delivered mailbox message can be acknowledged");
    _ ← assertDelivery current deliveryId;
    let acknowledged := acknowledged_message current acknowledgedAt in
    mret (acknowledged,
          with_messages mb (jm_set (messagesById mb) messageId acknowledged)).

Definition requeued_message message (requeuedAt : string) : AgentMailboxMessage :=
  {| m_id := m_id message; m_runId := m_runId message; m_sequence := m_sequence message;
     m_recipientAgentId := m_recipientAgentId message;
     m_senderAgentId := m_senderAgentId message; m_kind := m_kind message;
     m_payload := m_payload message; m_idempotencyKey := m_idempotencyKey message;
     m_status := msg_queued; m_deliveryAttempts := m_deliveryAttempts message;
     m_deliveryId := m_deliveryId message; m_deliveredAt := m_deliveredAt message;
     m_acknowledgedAt := m_acknowledgedAt message; m_cancelledAt := m_cancelledAt message;
     m_cancellationReason := m_cancellationReason message;
     m_createdAt := m_createdAt message; m_updatedAt := requeuedAt |}.

(** Source: packages/agents/src/mailbox.ts:248-271 [requeue]. *)
Definition requeue mb (messageId recipientAgentId requeuedAt : string)
  (deliveryId : option string) : exc (AgentMailboxMessage * AgentMailbox) :=
  current ← requireMessage mb messageId;
  _ ← assertRecipient current recipientAgentId;
  _ ← throw_if (m_status current !== msg_delivered)
        (InvariantViolationError "Only a delivered mailbox message can be requeued");
  _ ← assertDelivery current deliveryId;
  let queued := requeued_message current requeuedAt in
  mret (queued, with_messages mb (jm_set (messagesById mb) messageId queued)).

Definition cancelled_message message (cancelledAt : string)
  (cancellationReason : option string) : AgentMailboxMessage :=
  {| m_id := m_id message; m_runId := m_runId message; m_sequence := m_sequence message;
     m_recipientAgentId := m_recipientAgentId message;
     m_senderAgentId := m_senderAgentId message; m_kind := m_kind message;
     m_payload := m_payload message; m_idempotencyKey := m_idempotencyKey message;
     m_status := msg_cancelled; m_deliveryAttempts := m_deliveryAttempts message;
     m_deliveryId := m_deliveryId message; m_deliveredAt := m_deliveredAt message;
     m_acknowledgedAt := m_acknowledgedAt message; m_cancelledAt := Some cancelledAt;
     m_cancellationReason :=
       match cancellationReason with
       | None => m_cancellationReason message
       | Some reason => Some reason
       end;
     m_createdAt := m_createdAt message; m_updatedAt := cancelledAt |}.

(** Source: packages/agents/src/mailbox.ts:273-298 [cancel]. *)
Definition cancel mb (messageId cancelledAt : string)
  (cancellationReason : option string) : exc (AgentMailboxMessage * AgentMailbox) :=
  current ← requireMessage mb messageId;
  if m_status current === msg_cancelled then mret (current, mb)
  else
    _ ← throw_if (m_status current === msg_acknowledged)
          (InvariantViolationError "An acknowledged mailbox message cannot be cancelled");
    let cancelled := cancelled_message current cancelledAt cancellationReason in
    mret (cancelled, with_messages mb (jm_set (messagesById mb) messageId cancelled)).

(** ** Commands, and the state after one *)

Inductive mailbox_op : Type :=
| op_enqueue (input : EnqueueAgentMessageInput)
| op_claim (input : ClaimAgentMessagesInput)
| op_acknowledge (messageId recipientAgentId at_ : string) (deliveryId : option string)
| op_requeue (messageId recipientAgentId at_ : string) (deliveryId : option string)
| op_cancel (messageId at_ : string) (reason : option string).

(** The messages a command returns, and the mailbox after it. *)
Definition run_op mb (op : mailbox_op) : exc (list AgentMailboxMessage * AgentMailbox) :=
  let one (r : exc (AgentMailboxMessage * AgentMailbox)) :=
    p ← r; mret ([p.1], p.2) in
  match op with
  | op_enqueue input => one (enqueue mb input)
  | op_claim input => claim mb input
  | op_acknowledge id r t d => one (acknowledge mb id r t d)
  | op_requeue id r t d => one (requeue mb id r t d)
  | op_cancel id t reason => one (cancel mb id t reason)
  end.

(** ** The invariant *)

Definition max_safe : Z := 2 ^ 53 - 1.

Definition sequence message : Z := toZ (m_sequence message).

Record message_ok (runId : string) (next : Z) (id : string) message : Prop := {
  ok_id : m_id message = id;
  ok_run : m_runId message = runId;
  ok_sequence : m_sequence message = ofZ (sequence message);
  ok_sequence_range : (1 <= sequence message < next)%Z;
  ok_attempts : m_deliveryAttempts message = ofZ (toZ (m_deliveryAttempts message));
  ok_attempts_range : (0 <= toZ (m_deliveryAttempts message) <= max_safe)%Z;
  ok_delivered : m_status message = msg_delivered -> m_deliveredAt message <> None }.

(** The index key of a message that carries an idempotency key. *)
Definition message_key message : option string :=
  match m_idempotencyKey message with
  | Some key => Some (idempotencyIndexKey (m_recipientAgentId message) key)
  | None => None
  end.

Record mailbox_ok mb : Prop := {
  ok_next : nextSequence mb = ofZ (toZ (nextSequence mb));
  ok_next_range : (1 <= toZ (nextSequence mb) <= max_safe)%Z;
  ok_ids : NoDup (jm_keys (messagesById mb));
  ok_messages : forall id m, jm_get (messagesById mb) id = Some m ->
    message_ok (mb_runId mb) (toZ (nextSequence mb)) id m;
  ok_distinct : forall id id' m m', jm_get (messagesById mb) id = Some m ->
    jm_get (messagesById mb) id' = Some m' -> sequence m = sequence m' -> id = id';
  ok_keys : NoDup (jm_keys (idempotentMessageIds mb));
  ok_index : forall key id, jm_get (idempotentMessageIds mb) key = Some id <->
    exists m, jm_get (messagesById mb) id = Some m /\ message_key m = Some key }.

(** Counters are below the largest safe integer, so one more step is exact. *)
Record room mb : Prop := {
  room_next : (toZ (nextSequence mb) < max_safe)%Z;
  room_attempts : forall id m, jm_get (messagesById mb) id = Some m ->
    (toZ (m_deliveryAttempts m) < max_safe)%Z }.

Lemma max_safe_bound z : (0 <= z <= max_safe)%Z -> (Z.abs z < 2 ^ 53)%Z.
Proof. unfold max_safe. lia. Qed.

Lemma sequence_le_key id id' run next a b : (next <= max_safe)%Z ->
  message_ok run next id a -> message_ok run next id' b ->
  sequence_le a b = key_le sequence a b.
Proof.
  intros Hn Ha Hb. unfold sequence_le, key_le, js_sub.
  rewrite (ok_sequence _ _ _ _ Ha), (ok_sequence _ _ _ _ Hb).
  pose proof (ok_sequence_range _ _ _ _ Ha). pose proof (ok_sequence_range _ _ _ _ Hb).
  assert (js_neg (ofZ (sequence b)) = ofZ (- sequence b)) as ->.
  { unfold js_neg, ofZ. f_equal. lia. }
  unfold max_safe in *. rewrite js_add_ofZ, js_le_ofZ by lia.
  apply Bool.eq_iff_eq_true. rewrite !Z.leb_le. lia.
Qed.

Section Ok.
Context mb (Hok : mailbox_ok mb).

Lemma value_ok m : m ∈ jm_values (messagesById mb) <->
  jm_get (messagesById mb) (m_id m) = Some m.
Proof.
  rewrite (jm_values_elem _ _ (ok_ids _ Hok)). split; [|eauto].
  intros (k & Hk). by rewrite (ok_id _ _ _ _ (ok_messages _ Hok _ _ Hk)).
Qed.

Lemma listMessages_key :
  listMessages mb = sort_by (key_le sequence) (jm_values (messagesById mb)).
Proof.
  apply sort_by_ext. intros a b Ha%value_ok Hb%value_ok.
  eapply sequence_le_key; [apply (ok_next_range _ Hok)|..]; by apply (ok_messages _ Hok).
Qed.

Lemma listMessages_elem m :
  m ∈ listMessages mb <-> jm_get (messagesById mb) (m_id m) = Some m.
Proof. unfold listMessages. rewrite sort_by_elem. apply value_ok. Qed.

Lemma listMessages_ids : NoDup (map m_id (listMessages mb)).
Proof.
  unfold listMessages. rewrite (sort_by_Permutation sequence_le).
  assert (map m_id (jm_values (messagesById mb)) = jm_keys (messagesById mb)) as ->;
    [|apply (ok_ids _ Hok)].
  assert (forall e, e ∈ messagesById mb -> m_id e.2 = e.1) as H.
  { intros [k m] He. apply (jm_elem_get _ _ _ (ok_ids _ Hok)) in He.
    apply (ok_id _ _ _ _ (ok_messages _ Hok _ _ He)). }
  revert H. unfold jm_values, jm_keys. clear. induction (messagesById mb) as [|e l IH];
    intros H; [done|]. cbn. f_equal; [apply H, list_elem_of_here|].
  apply IH. intros. apply H. by apply list_elem_of_further.
Qed.

Lemma listMessages_NoDup : NoDup (listMessages mb).
Proof. apply (NoDup_fmap_1 m_id), listMessages_ids. Qed.

Lemma listMessages_sequences : NoDup (map sequence (listMessages mb)).
Proof.
  apply NoDup_fmap_2_strong; [|apply listMessages_NoDup].
  intros a b Ha%listMessages_elem Hb%listMessages_elem Heq.
  pose proof (ok_distinct _ Hok _ _ _ _ Ha Hb Heq) as Hid. congruence.
Qed.

Lemma listMessages_sorted :
  StronglySorted (fun a b => sequence a < sequence b)%Z (listMessages mb).
Proof.
  apply sorted_strict; [apply listMessages_sequences|].
  rewrite listMessages_key. apply sort_key_sorted.
Qed.
End Ok.

(** ** Replacing messages *)

(** The statuses a message may move to. *)
Definition MESSAGE_TRANSITIONS (from : AgentMessageStatus) : list AgentMessageStatus :=
  match from with
  | msg_queued => [msg_delivered; msg_cancelled]
  | msg_delivered => [msg_queued; msg_acknowledged; msg_cancelled]
  | msg_acknowledged => []
  | msg_cancelled => []
  end.

(** What was sent: everything of a message that delivery does not touch. *)
Record same_content (a b : AgentMailboxMessage) : Prop := {
  same_id : m_id a = m_id b;
  same_run : m_runId a = m_runId b;
  same_sequence : m_sequence a = m_sequence b;
  same_recipient : m_recipientAgentId a = m_recipientAgentId b;
  same_sender : m_senderAgentId a = m_senderAgentId b;
  same_kind : m_kind a = m_kind b;
  same_payload : m_payload a = m_payload b;
  same_key : m_idempotencyKey a = m_idempotencyKey b;
  same_created : m_createdAt a = m_createdAt b }.

#[export] Instance same_content_equiv : Equivalence same_content.
Proof.
  split; [by split| |]; intros a b; [intros []; by split|].
  intros c [] []; split; congruence.
Qed.

(** One delivery step of one message. *)
Record progress (cur new : AgentMailboxMessage) : Prop := {
  progress_content : same_content cur new;
  progress_status : m_status new ∈ MESSAGE_TRANSITIONS (m_status cur);
  progress_attempts : m_deliveryAttempts new = m_deliveryAttempts cur \/
    m_deliveryAttempts new = js_add (m_deliveryAttempts cur) (ofZ 1);
  progress_delivered : m_status new = msg_delivered -> m_deliveredAt new <> None }.

(** The messages [news] replace their namesakes. *)
Record replaces mb (news : list AgentMailboxMessage) : Prop := {
  news_ids : NoDup (map m_id news);
  news_progress : forall new, new ∈ news ->
    exists cur, jm_get (messagesById mb) (m_id new) = Some cur /\ progress cur new }.

Definition replace_all mb (news : list AgentMailboxMessage) : AgentMailbox :=
  with_messages mb (foldl store_message (messagesById mb) news).

Definition newest (news : list AgentMailboxMessage) message : AgentMailboxMessage :=
  match find (fun new => m_id new === m_id message) news with
  | Some new => new
  | None => message
  end.

Lemma replace_one_ok mb cur new : mailbox_ok mb ->
  jm_get (messagesById mb) (m_id new) = Some cur ->
  (toZ (m_deliveryAttempts cur) < max_safe)%Z -> progress cur new ->
  mailbox_ok (replace_all mb [new]).
Proof.
  intros Hok Hcur Hroom [Hc Hs Ha Hd]. unfold replace_all, store_message. cbn [foldl].
  pose proof (ok_messages _ Hok _ _ Hcur) as Hm.
  assert (sequence new = sequence cur) as Hseq.
  { unfold sequence. by rewrite (same_sequence _ _ Hc). }
  assert (message_key new = message_key cur) as Hkey.
  { unfold message_key. by rewrite (same_key _ _ Hc), (same_recipient _ _ Hc). }
  split; cbn [with_messages messagesById nextSequence mb_runId idempotentMessageIds];
    try apply Hok.
  - apply jm_set_NoDup, Hok.
  - intros id m. rewrite jm_get_set. case_decide as Hid; [|apply Hok].
    intros [= <-]. subst id. destruct Hm as [Hi Hr Hq Hqr Hat Har _].
    assert (js_add (m_deliveryAttempts cur) (ofZ 1) =
            ofZ (toZ (m_deliveryAttempts cur) + 1)) as Hplus.
    { rewrite Hat at 1. apply js_add_ofZ; unfold max_safe in *; lia. }
    constructor; [done| | | | | |exact Hd].
    + by rewrite <- (same_run _ _ Hc).
    + by rewrite Hseq, <- (same_sequence _ _ Hc).
    + by rewrite Hseq.
    + destruct Ha as [->| ->]; [done|]. by rewrite Hplus, toZ_ofZ.
    + destruct Ha as [->| ->]; [done|]. rewrite Hplus, toZ_ofZ. lia.
  - intros id id' m m'. rewrite !jm_get_set.
    repeat case_decide; intros H1 H2 Heq; simplify_eq; try done.
    + rewrite Hseq in Heq. by apply (ok_distinct _ Hok _ _ _ _ Hcur H2).
    + rewrite Hseq in Heq. by apply (ok_distinct _ Hok _ _ _ _ H1 Hcur).
    + by apply (ok_distinct _ Hok _ _ _ _ H1 H2).
  - intros key id. rewrite (ok_index _ Hok), jm_get_set. case_decide as Hid; [|done].
    subst id. split; intros (m & Hget & Hk); simplify_eq.
    + exists new. by rewrite Hkey.
    + exists cur. by rewrite <- Hkey.
Qed.

Lemma replace_all_get mb news id : NoDup (map m_id news) ->
  jm_get (messagesById (replace_all mb news)) id =
    match find (fun new => m_id new === id) news with
    | Some new => Some new
    | None => jm_get (messagesById mb) id
    end.
Proof.
  unfold replace_all. cbn [messagesById with_messages].
  generalize (messagesById mb). induction news as [|n news IH]; intros ms; [done|].
  cbn [map foldl find]. rewrite NoDup_cons. intros [Hn Hnd]. rewrite IH by done.
  unfold store_message. rewrite jm_get_set. case_bool_decide as Hid; [|by case_decide].
  subst id. destruct (find _ news) as [m|] eqn:E; [|by case_decide].
  apply find_some in E as [Hin Heq]. bool_hyps. destruct Hn. rewrite <- Heq.
  apply list_elem_of_fmap. exists m. by rewrite list_elem_of_In.
Qed.

Lemma replace_all_ok mb news : mailbox_ok mb -> room mb -> replaces mb news ->
  mailbox_ok (replace_all mb news).
Proof.
  intros Hok Hroom [Hnd Hp].
  assert (forall new, new ∈ news -> exists cur,
    jm_get (messagesById mb) (m_id new) = Some cur /\ progress cur new /\
    (toZ (m_deliveryAttempts cur) < max_safe)%Z) as Hall.
  { intros new (cur & Hcur & Hpr)%Hp. exists cur. split; [done|]. split; [done|].
    by apply (room_attempts _ Hroom _ _ Hcur). }
  clear Hp Hroom. revert mb Hok Hall. induction news as [|n news IH]; intros mb Hok Hall.
  { by destruct mb. }
  destruct (Hall n (list_elem_of_here _ _)) as (cur & Hcur & Hpr & Hlt).
  cbn [map] in Hnd. apply NoDup_cons in Hnd as [Hn Hnd].
  apply (IH Hnd (replace_all mb [n])).
  - by apply (replace_one_ok _ cur).
  - intros new Hnew. destruct (Hall new (list_elem_of_further _ _ _ Hnew)) as (c & Hc & ?).
    exists c. split; [|done]. rewrite replace_all_get by apply NoDup_singleton.
    cbn [find]. rewrite bool_decide_eq_false_2; [done|]. intros Heq. apply Hn.
    rewrite Heq. apply list_elem_of_fmap. by exists new.
Qed.

Lemma listMessages_char mb l : mailbox_ok mb ->
  StronglySorted (fun a b => sequence a < sequence b)%Z l ->
  (forall m, m ∈ l <-> jm_get (messagesById mb) (m_id m) = Some m) ->
  listMessages mb = l.
Proof.
  intros Hok Hs He. apply (sorted_same_elements sequence); [|done|].
  - by apply listMessages_sorted.
  - intros m. by rewrite (listMessages_elem _ Hok), He.
Qed.

Lemma newest_content mb news m : replaces mb news ->
  jm_get (messagesById mb) (m_id m) = Some m -> same_content m (newest news m).
Proof.
  intros [_ Hp] Hm. unfold newest. destruct (find _ news) as [new|] eqn:E; [|done].
  apply find_some in E as [Hin%list_elem_of_In Heq]. bool_hyps.
  destruct (Hp _ Hin) as (cur & Hcur & Hpr). rewrite Heq, Hm in Hcur.
  injection Hcur as <-. apply Hpr.
Qed.

Lemma find_newest news m : find (fun new => m_id new === m_id m) news =
  if existsb (fun new => m_id new === m_id m) news then Some (newest news m) else None.
Proof.
  unfold newest. induction news as [|n news IH]; simpl; [done|].
  by case_bool_decide.
Qed.

(** Replacing messages keeps the listing's order. *)
Lemma replace_all_list mb news : mailbox_ok mb -> room mb -> replaces mb news ->
  listMessages (replace_all mb news) = map (newest news) (listMessages mb).
Proof.
  intros Hok Hroom Hr. apply listMessages_char; [by apply replace_all_ok| |].
  - assert (forall m, m ∈ listMessages mb -> sequence (newest news m) = sequence m) as Hseq.
    { intros m Hm%(listMessages_elem _ Hok). unfold sequence.
      by rewrite <- (same_sequence _ _ (newest_content _ _ _ Hr Hm)). }
    revert Hseq. pose proof (listMessages_sorted _ Hok) as Hs.
    induction Hs as [|a l Hs IH Ha]; intros Hseq; cbn [map]; constructor.
    + apply IH. intros. apply Hseq. by apply list_elem_of_further.
    + rewrite Forall_forall in *. intros b (c & -> & Hc)%list_elem_of_fmap.
      rewrite !Hseq by auto using list_elem_of_here, list_elem_of_further. auto.
  - intros m. rewrite replace_all_get by apply Hr. rewrite list_elem_of_fmap. split.
    + intros (c & -> & Hc%(listMessages_elem _ Hok)).
      rewrite <- (same_id _ _ (newest_content _ _ _ Hr Hc)), find_newest.
      destruct (existsb _ news) eqn:E; [done|]. rewrite Hc. f_equal. unfold newest.
      pose proof (find_newest news c) as Hf. rewrite E in Hf. by rewrite Hf.
    + destruct (find _ news) as [new|] eqn:E.
      * intros [= ->]. apply find_some in E as [Hin%list_elem_of_In _].
        destruct (news_progress _ _ Hr _ Hin) as (cur & Hcur & Hpr).
        pose proof (same_id _ _ (progress_content _ _ Hpr)) as Hid.
        exists cur. split; [|apply (listMessages_elem _ Hok); by rewrite Hid].
        unfold newest. rewrite Hid.
        pose proof (find_newest news m) as Hf.
        destruct (existsb _ news) eqn:Ex.
        -- rewrite Hf. pose proof (news_ids _ _ Hr) as Hnd.
           apply find_some in Hf as [Hin'%list_elem_of_In Heq]. bool_hyps.
           apply (NoDup_map_inj m_id news); congruence.
        -- apply existsb_false with (x := m) in Ex; [|done]. bool_hyps. done.
      * intros Hm. exists m. split; [|by apply (listMessages_elem _ Hok)].
        unfold newest. by rewrite E.
Qed.

(** ** Each command as a replacement *)

Lemma replace_none mb : replaces mb [] /\ replace_all mb [] = mb.
Proof.
  split; [|by destruct mb]. split; [apply NoDup_nil_2|].
  intros new H. by apply not_elem_of_nil in H.
Qed.

Lemma replace_single mb cur new :
  jm_get (messagesById mb) (m_id new) = Some cur -> progress cur new -> replaces mb [new].
Proof.
  intros Hcur Hp. split; [apply NoDup_singleton|].
  intros n ->%list_elem_of_singleton. eauto.
Qed.

Lemma requireMessage_ok mb id m :
  requireMessage mb id = Ok m <-> jm_get (messagesById mb) id = Some m.
Proof.
  unfold requireMessage. by destruct (jm_get _ id); split; intros [= ->].
Qed.

(** The messages [claim] takes. *)
Definition claimed mb (input : ClaimAgentMessagesInput) (limit : num)
  : list AgentMailboxMessage :=
  firstn (Z.to_nat (toZ limit)) (queuedFor mb (cl_recipientAgentId input)).

Lemma claim_ok mb input out mb' : claim mb input = Ok (out, mb') ->
  exists limit, normalizeClaimLimit (cl_limit input) = Ok limit /\
    out = map (delivered_message input) (claimed mb input limit) /\
    mb' = replace_all mb out.
Proof.
  unfold claim. intros H. apply bind_ok in H as (limit & Hl & H). exists limit.
  split; [done|]. destruct (js_eq limit (ofZ 0)) eqn:E.
  - injection H as <- <-. unfold claimed.
    assert (Z.to_nat (toZ limit) = 0%nat) as ->.
    { destruct limit; try discriminate E. cbn in E. apply Z.eqb_eq in E. subst.
      by vm_compute. }
    cbn [firstn map]. split; [done|]. symmetry. apply replace_none.
  - apply bind_ok in H as ([] & _ & H). injection H as <- <-. done.
Qed.

Lemma claimed_elem mb input limit m : mailbox_ok mb -> m ∈ claimed mb input limit ->
  jm_get (messagesById mb) (m_id m) = Some m /\
  m_recipientAgentId m = cl_recipientAgentId input /\ m_status m = msg_queued.
Proof.
  intros Hok Hm. unfold claimed, queuedFor in Hm.
  apply elem_of_take in Hm as (k & Hm & _). apply list_elem_of_lookup_2 in Hm.
  apply elem_of_list_filter in Hm as [Hm Hq]. unfold is_queued_for in Hq. bool_hyps.
  by apply (listMessages_elem _ Hok) in Hm.
Qed.

Lemma claimed_ids mb input limit : mailbox_ok mb ->
  NoDup (map m_id (claimed mb input limit)).
Proof.
  intros Hok. unfold claimed, queuedFor. rewrite <- (firstn_map m_id).
  assert (NoDup (map m_id (List.filter (is_queued_for (cl_recipientAgentId input))
    (listMessages mb)))) as Hn.
  { pose proof (listMessages_ids _ Hok) as Hn. induction (listMessages mb) as [|a l IH];
      [done|]. cbn [map] in Hn. apply NoDup_cons in Hn as [Ha Hn]. cbn [List.filter].
    destruct (is_queued_for _ a); [|auto]. cbn [map]. apply NoDup_cons. split; [|auto].
    intros (x & Hx & [Hin _]%elem_of_list_filter)%list_elem_of_fmap. apply Ha.
    rewrite Hx. apply list_elem_of_fmap. by exists x. }
  rewrite <- (firstn_skipn (Z.to_nat (toZ limit))) in Hn.
  by apply NoDup_app in Hn as [? _].
Qed.

Lemma delivered_progress input m : m_status m = msg_queued ->
  progress m (delivered_message input m).
Proof.
  intros Hq. split; [by split| |by right|done]. rewrite Hq.
  apply list_elem_of_here.
Qed.

Lemma claim_replaces mb input limit : mailbox_ok mb ->
  replaces mb (map (delivered_message input) (claimed mb input limit)).
Proof.
  intros Hok. split.
  - rewrite map_map. by apply claimed_ids.
  - intros new (m & -> & Hm)%list_elem_of_fmap.
    apply (claimed_elem _ _ _ _ Hok) in Hm as (Hm & _ & Hq).
    exists m. split; [done|]. by apply delivered_progress.
Qed.

(** Every command but a first [enqueue] replaces messages. *)
Lemma run_op_replaces mb op out mb' : mailbox_ok mb ->
  (forall input, op <> op_enqueue input) -> run_op mb op = Ok (out, mb') ->
  exists news, replaces mb news /\ mb' = replace_all mb news.
Proof.
  intros Hok Hne H. destruct op as [input|input|id r t d|id r t d|id t reason];
    cbn [run_op] in H.
  - by destruct (Hne input).
  - apply claim_ok in H as (limit & _ & -> & ->). eexists.
    split; [by apply claim_replaces|done].
  - apply bind_ok in H as ([m mb1] & H & [= <- <-]). unfold acknowledge in H.
    apply bind_ok in H as (cur & Hcur%requireMessage_ok & H).
    apply bind_ok in H as ([] & _ & H). case_bool_decide as Hs.
    + injection H as <- <-. exists []. split; [|symmetry]; apply replace_none.
    + apply bind_ok in H as ([] & Hd%throw_if_ok & H). bool_hyps.
      apply bind_ok in H as ([] & _ & [= <- <-]).
      pose proof (ok_id _ _ _ _ (ok_messages _ Hok _ _ Hcur)) as Hid. subst id.
      exists [acknowledged_message cur t]. split; [|done].
      apply (replace_single _ cur); [done|].
      split; [by split| |by left|done]. rewrite Hd.
      rewrite list_elem_of_In. cbn. auto.
  - apply bind_ok in H as ([m mb1] & H & [= <- <-]). unfold requeue in H.
    apply bind_ok in H as (cur & Hcur%requireMessage_ok & H).
    apply bind_ok in H as ([] & _ & H).
    apply bind_ok in H as ([] & Hd%throw_if_ok & H). bool_hyps.
    apply bind_ok in H as ([] & _ & [= <- <-]).
    pose proof (ok_id _ _ _ _ (ok_messages _ Hok _ _ Hcur)) as Hid. subst id.
    exists [requeued_message cur t]. split; [|done].
    apply (replace_single _ cur); [done|].
    split; [by split| |by left|done]. rewrite Hd. rewrite list_elem_of_In. cbn. auto.
  - apply bind_ok in H as ([m mb1] & H & [= <- <-]). unfold cancel in H.
    apply bind_ok in H as (cur & Hcur%requireMessage_ok & H). case_bool_decide as Hs.
    + injection H as <- <-. exists []. split; [|symmetry]; apply replace_none.
    + apply bind_ok in H as ([] & Hd%throw_if_ok & [= <- <-]). bool_hyps.
      pose proof (ok_id _ _ _ _ (ok_messages _ Hok _ _ Hcur)) as Hid. subst id.
      exists [cancelled_message cur t reason]. split; [|done].
      apply (replace_single _ cur); [done|].
      split; [by split| |by left|done]. rewrite list_elem_of_In.
      destruct (m_status cur); cbn; auto; congruence.
Qed.

(** ** Enqueueing *)

(** The index key of an input that carries an idempotency key. *)
Definition input_key (input : EnqueueAgentMessageInput) : option string :=
  match in_idempotencyKey input with
  | Some key => Some (idempotencyIndexKey (in_recipientAgentId input) key)
  | None => None
  end.

(** The mailbox after a fresh input. *)
Definition enqueued mb (messageId : string) (input : EnqueueAgentMessageInput)
  : AgentMailbox :=
  {| mb_runId := mb_runId mb;
     nextSequence := js_add (nextSequence mb) (ofZ 1);
     messagesById := jm_set (messagesById mb) messageId (queued_message mb messageId input);
     idempotentMessageIds :=
       match in_idempotencyKey input with
       | None => idempotentMessageIds mb
       | Some key =>
           jm_set (idempotentMessageIds mb)
             (idempotencyIndexKey (in_recipientAgentId input) key) messageId
       end |}.

Lemma enqueue_ok mb input m mb' : enqueue mb input = Ok (m, mb') ->
  (mb' = mb /\ enqueue_existing mb input = Ok (Some m)) \/
  (enqueue_existing mb input = Ok None /\
   exists id, jm_has (messagesById mb) id = false /\
     m = queued_message mb id input /\ mb' = enqueued mb id input).
Proof.
  unfold enqueue. intros H. apply bind_ok in H as ([] & _ & H).
  apply bind_ok in H as ([existing|] & Hex & H).
  - injection H as <- <-. by left.
  - right. split; [done|]. apply bind_ok in H as (id & _ & H).
    apply bind_ok in H as ([] & Hf%throw_if_ok & H). injection H as <- <-.
    by exists id.
Qed.

Lemma enqueue_existing_none mb input : mailbox_ok mb ->
  enqueue_existing mb input = Ok None ->
  forall key, input_key input = Some key -> jm_get (idempotentMessageIds mb) key = None.
Proof.
  unfold enqueue_existing, input_key. intros Hok H key.
  destruct (in_idempotencyKey input) as [k|]; [|done]. intros [= <-].
  destruct (jm_get (idempotentMessageIds mb) _); [|done].
  apply bind_ok in H as (? & _ & H). apply bind_ok in H as (? & _ & H).
  apply bind_ok in H as (? & _ & H). discriminate H.
Qed.

Lemma enqueue_existing_some mb input m : mailbox_ok mb ->
  enqueue_existing mb input = Ok (Some m) <->
  exists key, input_key input = Some key /\
    jm_get (idempotentMessageIds mb) key = Some (m_id m) /\
    jm_get (messagesById mb) (m_id m) = Some m /\
    isSameIdempotentMessage m input = Ok true.
Proof.
  unfold enqueue_existing, input_key. intros Hok.
  destruct (in_idempotencyKey input) as [k|];
    [|split; [done|by intros (? & ? & _)]].
  split.
  - intros H. destruct (jm_get (idempotentMessageIds mb) _) as [id|] eqn:E; [|done].
    apply bind_ok in H as (cur & Hcur%requireMessage_ok & H).
    apply bind_ok in H as (same & Hs & H).
    apply bind_ok in H as ([] & Ht%throw_if_ok & [= ->]). bool_hyps. subst.
    pose proof (ok_id _ _ _ _ (ok_messages _ Hok _ _ Hcur)) as Hid. subst id.
    eauto 6.
  - intros (key & [= <-] & Hk & Hm & Hs). rewrite Hk.
    assert (requireMessage mb (m_id m) = Ok m) as -> by (by apply requireMessage_ok).
    cbn [mbind result_bind]. by rewrite Hs.
Qed.

Lemma enqueued_next mb : mailbox_ok mb -> room mb ->
  js_add (nextSequence mb) (ofZ 1) = ofZ (toZ (nextSequence mb) + 1).
Proof.
  intros Hok Hroom. pose proof (ok_next_range _ Hok). pose proof (room_next _ Hroom).
  rewrite (ok_next _ Hok) at 1. unfold max_safe in *. apply js_add_ofZ; lia.
Qed.

Lemma message_ok_weaken run next next' id m : (next <= next')%Z ->
  message_ok run next id m -> message_ok run next' id m.
Proof. intros Hle []. split; try done. lia. Qed.

Lemma enqueued_ok mb id input : mailbox_ok mb -> room mb ->
  jm_has (messagesById mb) id = false -> enqueue_existing mb input = Ok None ->
  mailbox_ok (enqueued mb id input).
Proof.
  intros Hok Hroom Hid Hex. pose proof (enqueue_existing_none _ _ Hok Hex) as Hkey.
  pose proof (ok_next_range _ Hok) as Hrange. pose proof (room_next _ Hroom) as Hn.
  assert (sequence (queued_message mb id input) = toZ (nextSequence mb)) as Hseq by done.
  assert (jm_get (messagesById mb) id = None) as Hnone.
  { unfold jm_has in Hid. by destruct (jm_get _ id). }
  assert (message_key (queued_message mb id input) = input_key input) as Hmk by done.
  split; cbn [enqueued messagesById nextSequence mb_runId idempotentMessageIds];
    rewrite ?(enqueued_next _ Hok Hroom), ?toZ_ofZ.
  - done.
  - lia.
  - apply jm_set_NoDup, Hok.
  - intros id' m. rewrite jm_get_set. case_decide as Heq.
    + intros [= <-]. subst id'. split; try done.
      * rewrite Hseq. apply Hok.
      * rewrite Hseq. lia.
    + intros Hm. eapply message_ok_weaken, (ok_messages _ Hok); [lia|done].
  - intros id1 id2 m1 m2. rewrite !jm_get_set.
    assert (forall i m, jm_get (messagesById mb) i = Some m ->
      sequence m <> toZ (nextSequence mb)) as Hlt.
    { intros i m Hm. pose proof (ok_sequence_range _ _ _ _ (ok_messages _ Hok _ _ Hm)). lia. }
    repeat case_decide; intros H1 H2 Heq; simplify_eq; try done.
    + rewrite Hseq in Heq. by destruct (Hlt _ _ H2 (eq_sym Heq)).
    + rewrite Hseq in Heq. by destruct (Hlt _ _ H1 Heq).
    + by apply (ok_distinct _ Hok _ _ _ _ H1 H2).
  - case_match; [apply jm_set_NoDup|]; apply Hok.
  - intros key id'. unfold input_key in *. rewrite jm_get_set.
    destruct (in_idempotencyKey input) as [k|] eqn:Ek.
    + rewrite jm_get_set. case_decide as Hk.
      * subst key. split.
        -- intros [= <-]. rewrite decide_True by done. eauto.
        -- intros (m & Hm & Hmkey). case_decide as Hi; [by subst|].
           assert (jm_get (idempotentMessageIds mb)
             (idempotencyIndexKey (in_recipientAgentId input) k) = Some id') as Hc
             by (apply (ok_index _ Hok); eauto).
           rewrite Hkey in Hc; done.
      * rewrite (ok_index _ Hok). split; intros (m & Hm & Hmkey).
        -- exists m. rewrite decide_False; [done|]. intros <-. congruence.
        -- case_decide as Hi; [|eauto]. injection Hm as <-. rewrite Hmk in Hmkey.
           congruence.
    + rewrite (ok_index _ Hok). split; intros (m & Hm & Hmkey).
      * exists m. rewrite decide_False; [done|]. intros <-. congruence.
      * case_decide as Hi; [|eauto]. injection Hm as <-. by rewrite Hmk in Hmkey.
Qed.

(** ** Reachable mailboxes *)

Definition step mb mb' : Prop :=
  room mb /\ exists op out, run_op mb op = Ok (out, mb').

Lemma op_enqueue_cases (op : mailbox_op) :
  (exists input, op = op_enqueue input) \/ (forall input, op <> op_enqueue input).
Proof. destruct op; [by left; eauto|by right..]. Qed.

Lemma step_cases mb mb' : mailbox_ok mb -> step mb mb' ->
  room mb /\
  ((exists news, replaces mb news /\ mb' = replace_all mb news) \/
   (exists id input, jm_has (messagesById mb) id = false /\
      enqueue_existing mb input = Ok None /\ mb' = enqueued mb id input)).
Proof.
  intros Hok (Hroom & op & out & H). split; [done|].
  destruct (op_enqueue_cases op) as [[input ->]|Hne].
  - cbn [run_op] in H. apply bind_ok in H as ([m mb1] & H & [= <- <-]).
    apply enqueue_ok in H as [[-> _]|(Hex & id & Hid & _ & ->)].
    + left. exists []. split; [|symmetry]; apply replace_none.
    + right. eauto.
  - left. by apply (run_op_replaces _ op out).
Qed.

Lemma step_ok mb mb' : mailbox_ok mb -> step mb mb' -> mailbox_ok mb'.
Proof.
  intros Hok Hs. apply (step_cases _ _ Hok) in Hs as (Hroom & [(news & Hr & ->)|Hs]).
  - by apply replace_all_ok.
  - destruct Hs as (id & input & Hid & Hex & ->). by apply enqueued_ok.
Qed.

Lemma steps_ok mb mb' : mailbox_ok mb -> rtc step mb mb' -> mailbox_ok mb'.
Proof. intros Hok Hs. induction Hs; eauto using step_ok. Qed.

(** What later states keep of a message. *)
Record survives (m m' : AgentMailboxMessage) : Prop := {
  survives_content : same_content m m';
  survives_final : MESSAGE_TRANSITIONS (m_status m) = [] -> m' = m }.

Lemma survives_refl m : survives m m.
Proof. by split. Qed.

Lemma survives_trans a b c : survives a b -> survives b c -> survives a c.
Proof.
  intros [Hc Hf] [Hc' Hf']. split; [by transitivity b|].
  intros Ha. specialize (Hf Ha). subst b. by apply Hf'.
Qed.

Lemma step_survives mb mb' id m : mailbox_ok mb -> step mb mb' ->
  jm_get (messagesById mb) id = Some m ->
  exists m', jm_get (messagesById mb') id = Some m' /\ survives m m'.
Proof.
  intros Hok Hs Hm. apply (step_cases _ _ Hok) in Hs as (_ & [(news & Hr & ->)|Hs]).
  - rewrite replace_all_get by apply Hr.
    destruct (find _ news) as [new|] eqn:E; [|by eauto using survives_refl].
    apply find_some in E as [Hin%list_elem_of_In Heq]. bool_hyps.
    destruct (news_progress _ _ Hr _ Hin) as (cur & Hcur & Hp).
    rewrite Heq, Hm in Hcur. injection Hcur as <-. exists new. split; [done|].
    split; [apply Hp|]. intros Hfin. pose proof (progress_status _ _ Hp) as Hst.
    rewrite Hfin in Hst. by apply not_elem_of_nil in Hst.
  - destruct Hs as (id' & input & Hid & _ & ->). exists m. split; [|apply survives_refl].
    cbn [enqueued messagesById]. rewrite jm_get_set_ne; [done|]. intros ->.
    unfold jm_has in Hid. by rewrite Hm in Hid.
Qed.

Lemma steps_survives mb mb' id m : mailbox_ok mb -> rtc step mb mb' ->
  jm_get (messagesById mb) id = Some m ->
  exists m', jm_get (messagesById mb') id = Some m' /\ survives m m'.
Proof.
  intros Hok Hs. revert Hok m. induction Hs as [mb|mb1 mb2 mb3 H12 _ IH]; intros Hok m Hm.
  - by eauto using survives_refl.
  - destruct (step_survives _ _ _ _ Hok H12 Hm) as (m2 & Hm2 & H2).
    destruct (IH (step_ok _ _ Hok H12) _ Hm2) as (m3 & Hm3 & H3).
    by eauto using survives_trans.
Qed.

Lemma step_run mb mb' : mailbox_ok mb -> step mb mb' -> mb_runId mb' = mb_runId mb.
Proof.
  intros Hok Hs. by apply (step_cases _ _ Hok) in Hs as
    (_ & [(news & _ & ->)|(id & input & _ & _ & ->)]).
Qed.

(** An identity index entry is never lost. *)
Lemma steps_index mb mb' key id : mailbox_ok mb -> rtc step mb mb' ->
  jm_get (idempotentMessageIds mb) key = Some id ->
  jm_get (idempotentMessageIds mb') key = Some id.
Proof.
  intros Hok Hs Hk. apply (ok_index _ (steps_ok _ _ Hok Hs)).
  apply (ok_index _ Hok) in Hk as (m & Hm & Hkey).
  destruct (steps_survives _ _ _ _ Hok Hs Hm) as (m' & Hm' & [Hc _]).
  exists m'. split; [done|]. rewrite <- Hkey. unfold message_key.
  by rewrite (same_key _ _ Hc), (same_recipient _ _ Hc).
Qed.

Lemma empty_mailbox_ok runId mb : empty_mailbox runId = Ok mb -> mailbox_ok mb.
Proof.
  unfold empty_mailbox, new_AgentMailbox. intros H. apply bind_ok in H as ([] & _ & H).
  cbn [snap_messages load_messages] in H. apply bind_ok in H as (ld & Hld & H).
  apply bind_ok in H as ([] & _ & H). injection Hld as <-. injection H as <-.
  split; cbn [nextSequence messagesById idempotentMessageIds snap_nextSequence ld_messages
    ld_keys loading_start jm_keys]; rewrite ?toZ_ofZ; try done.
  - apply NoDup_nil_2.
  - apply NoDup_nil_2.
  - intros key id. split; [done|by intros (? & ? & _)].
Qed.

(** C21: the mailbox never loses, duplicates or rewrites a message.  From an
    empty mailbox, whatever commands follow: identities and sequence numbers
    stay distinct and below the next sequence number, the idempotency index
    holds exactly the messages that carry a key, every message once accepted
    is still there with its sender, recipient, payload and sequence, and an
    acknowledged or cancelled message never changes again. *)
Theorem mailbox_safe runId start mb mb' :
  empty_mailbox runId = Ok start -> rtc step start mb -> rtc step mb mb' ->
  mailbox_ok mb /\
  StronglySorted (fun a b => sequence a < sequence b)%Z (listMessages mb) /\
  (forall id m, getMessage mb id = Some m ->
     exists m', getMessage mb' id = Some m' /\ same_content m m' /\
       (m_status m ∈ [msg_acknowledged; msg_cancelled] -> m' = m)).
Proof.
  intros Hstart Hs Hs'. pose proof (steps_ok _ _ (empty_mailbox_ok _ _ Hstart) Hs) as Hok.
  split; [done|]. split; [by apply listMessages_sorted|].
  intros id m Hm. destruct (steps_survives _ _ _ _ Hok Hs' Hm) as (m' & Hm' & [Hc Hf]).
  exists m'. split; [done|]. split; [done|]. rewrite list_elem_of_In. cbn.
  intros [Hst|[Hst|[]]]; apply Hf; by rewrite <- Hst.
Qed.

(** Which messages of the listing a claim changes. *)
Lemma newest_claimed mb input limit m : mailbox_ok mb -> m ∈ listMessages mb ->
  newest (map (delivered_message input) (claimed mb input limit)) m =
    if existsb (fun c => m_id c === m_id m) (claimed mb input limit)
    then delivered_message input m else m.
Proof.
  intros Hok Hm. unfold newest. pose proof (fun c => claimed_elem mb input limit c Hok) as Hc.
  apply (listMessages_elem _ Hok) in Hm.
  induction (claimed mb input limit) as [|c l IH]; [done|]. cbn [map find existsb m_id delivered_message].
  case_bool_decide as Hid; cbn [orb].
  - destruct (Hc c (list_elem_of_here _ _)) as [Hcm _]. rewrite Hid, Hm in Hcm.
    by injection Hcm as ->.
  - apply IH. intros. apply Hc. by apply list_elem_of_further.
Qed.

Lemma claim_queue mb input limit r : mailbox_ok mb -> room mb ->
  let taken := claimed mb input limit in
  queuedFor (replace_all mb (map (delivered_message input) taken)) r =
    List.filter (fun m => negb (existsb (fun c => m_id c === m_id m) taken))
      (queuedFor mb r).
Proof.
  intros Hok Hroom taken. unfold queuedFor at 1.
  rewrite replace_all_list by (try done; by apply claim_replaces).
  rewrite (filter_map_b _ (fun m => is_queued_for r m &&
    negb (existsb (fun c => m_id c === m_id m) taken))).
  - by rewrite filter_andb.
  - intros m Hm. unfold taken. rewrite newest_claimed by done. fold taken.
    destruct (existsb _ taken); cbn [negb]; [|by rewrite andb_true_r].
    rewrite andb_false_r. unfold is_queued_for. cbn [delivered_message m_status].
    by rewrite andb_false_r.
  - intros m Hm Hq. bool_hyps. unfold taken. rewrite newest_claimed by done.
    fold taken. by match goal with H : existsb _ taken = false |- _ => rewrite H end.
Qed.

(** Delivery is first in, first out.  A claim hands out the oldest queued
    messages of its recipient, as many as the limit allows, marks them
    delivered with one more attempt, leaves the rest of the queue in order
    and touches no other recipient's queue. *)
Theorem claim_fifo mb input out mb' :
  mailbox_ok mb -> room mb -> claim mb input = Ok (out, mb') ->
  let recipient := cl_recipientAgentId input in
  let limit := match cl_limit input with Some n => Z.to_nat (toZ n) | None => 1 end in
  map m_id out = map m_id (firstn limit (queuedFor mb recipient)) /\
  queuedFor mb' recipient = skipn limit (queuedFor mb recipient) /\
  (forall other, other <> recipient -> queuedFor mb' other = queuedFor mb other) /\
  Forall (fun m => m_status m = msg_delivered /\
                   m_deliveredAt m = Some (cl_deliveredAt input)) out.
Proof.
  intros Hok Hroom H recipient limit.
  apply claim_ok in H as (n & Hn & Hout & ->).
  assert (Z.to_nat (toZ n) = limit) as Hlim.
  { unfold normalizeClaimLimit in Hn. subst limit. destruct (cl_limit input) as [l|].
    - by apply bind_ok in Hn as ([] & _ & [= <-]).
    - injection Hn as <-. by rewrite toZ_ofZ. }
  assert (claimed mb input n = firstn limit (queuedFor mb recipient)) as Hcl.
  { unfold claimed. by rewrite Hlim. }
  split; [|split; [|split]].
  - by rewrite Hout, map_map, <- Hcl.
  - rewrite Hout, claim_queue, Hcl by done. apply filter_skipn.
    pose proof (claimed_ids mb {| cl_recipientAgentId := recipient;
      cl_deliveredAt := ""; cl_deliveryId := None; cl_limit := None |}
      (ofZ (Z.of_nat (length (queuedFor mb recipient)))) Hok) as Hnd.
    unfold claimed in Hnd. rewrite toZ_ofZ, Nat2Z.id in Hnd.
    by rewrite firstn_all in Hnd.
  - intros other Hne. rewrite Hout, claim_queue by done. apply filter_true_b.
    intros m Hm. apply elem_of_list_filter in Hm as [Hm Hq].
    unfold is_queued_for in Hq. bool_hyps. apply negb_true_iff, existsb_false.
    intros c Hc. apply (claimed_elem _ _ _ _ Hok) in Hc as (Hc & Hr & _).
    apply bool_decide_eq_false. intros Heq. apply (listMessages_elem _ Hok) in Hm.
    rewrite Heq, Hm in Hc. injection Hc as ->. subst recipient. congruence.
  - rewrite Hout. apply Forall_forall. by intros m (c & -> & _)%list_elem_of_fmap.
Qed.

(** ** Recovery from a snapshot *)

(** Mailboxes no command can tell apart. *)
Record same_mailbox mb mb' : Prop := {
  sm_run : mb_runId mb = mb_runId mb';
  sm_next : nextSequence mb = nextSequence mb';
  sm_messages : forall id, jm_get (messagesById mb) id = jm_get (messagesById mb') id;
  sm_keys : forall key,
    jm_get (idempotentMessageIds mb) key = jm_get (idempotentMessageIds mb') key }.

#[export] Instance same_mailbox_equiv : Equivalence same_mailbox.
Proof.
  split; [by split| |]; intros a b; [intros []; by split|].
  intros c [] []; split; intros; etransitivity; eauto.
Qed.

Lemma same_mailbox_has mb mb' id : same_mailbox mb mb' ->
  jm_has (messagesById mb) id = jm_has (messagesById mb') id.
Proof. intros Hs. unfold jm_has. by rewrite (sm_messages _ _ Hs). Qed.

Lemma same_mailbox_require mb mb' id : same_mailbox mb mb' ->
  requireMessage mb id = requireMessage mb' id.
Proof. intros Hs. unfold requireMessage. by rewrite (sm_messages _ _ Hs). Qed.

Lemma same_mailbox_list mb mb' : mailbox_ok mb -> mailbox_ok mb' -> same_mailbox mb mb' ->
  listMessages mb = listMessages mb'.
Proof.
  intros Hok Hok' Hs. apply listMessages_char; [done|by apply listMessages_sorted|].
  intros m. by rewrite (listMessages_elem _ Hok'), (sm_messages _ _ Hs).
Qed.

Lemma same_mailbox_set mb mb' id m : same_mailbox mb mb' ->
  same_mailbox (with_messages mb (jm_set (messagesById mb) id m))
               (with_messages mb' (jm_set (messagesById mb') id m)).
Proof.
  intros [Hr Hn Hm Hk]. split; [done|done| |done]. intros id'.
  cbn [with_messages messagesById]. by rewrite !jm_get_set, Hm.
Qed.

Lemma same_mailbox_store mb mb' news : same_mailbox mb mb' ->
  same_mailbox (replace_all mb news) (replace_all mb' news).
Proof.
  revert mb mb'. induction news as [|n news IH]; intros mb mb' Hs; [by destruct mb, mb'|].
  apply (IH (with_messages mb (store_message (messagesById mb) n))
            (with_messages mb' (store_message (messagesById mb') n))).
  by apply same_mailbox_set.
Qed.

(** The two outcomes of one command on mailboxes that look the same. *)
Definition same_outcome {A} (r r' : exc (A * AgentMailbox)) : Prop :=
  match r, r' with
  | Ok (out, mb), Ok (out', mb') => out = out' /\ same_mailbox mb mb'
  | Throw e, Throw e' => e = e'
  | _, _ => False
  end.

Lemma same_outcome_one (r r' : exc (AgentMailboxMessage * AgentMailbox)) :
  same_outcome r r' ->
  same_outcome (p ← r; mret ([p.1], p.2)) (p ← r'; mret ([p.1], p.2)).
Proof.
  destruct r as [[m mb]|], r' as [[m' mb']|]; cbn; try done. by intros [-> ?].
Qed.

Lemma same_enqueue mb mb' input : same_mailbox mb mb' ->
  same_outcome (enqueue mb input) (enqueue mb' input).
Proof.
  intros Hs. unfold enqueue.
  assert (enqueue_existing mb input = enqueue_existing mb' input) as <-.
  { unfold enqueue_existing. destruct (in_idempotencyKey input); [|done].
    rewrite (sm_keys _ _ Hs). destruct (jm_get _ _); [|done].
    by rewrite (same_mailbox_require _ _ _ Hs). }
  rewrite <- (sm_run _ _ Hs), <- (sm_next _ _ Hs).
  destruct (assertEnqueueInput input) as [[]|]; [|done]. cbn [mbind result_bind].
  destruct (enqueue_existing mb input) as [[existing|]|]; [by split| |done].
  cbn [mbind result_bind].
  match goal with |- context [mbind _ ?r] => destruct r as [id|]; [|done] end.
  cbn [mbind result_bind]. rewrite <- (same_mailbox_has _ _ id Hs).
  destruct (throw_if _ _) as [[]|]; [|done]. cbn. split.
  - unfold queued_message. by rewrite (sm_run _ _ Hs), (sm_next _ _ Hs).
  - split; cbn; [done|done| |].
    + intros id'. rewrite !jm_get_set, (sm_messages _ _ Hs). unfold queued_message.
      by rewrite (sm_run _ _ Hs), (sm_next _ _ Hs).
    + intros key. destruct (in_idempotencyKey input); [|apply Hs].
      by rewrite !jm_get_set, (sm_keys _ _ Hs).
Qed.

Lemma same_run_op mb mb' op : mailbox_ok mb -> mailbox_ok mb' -> same_mailbox mb mb' ->
  same_outcome (run_op mb op) (run_op mb' op).
Proof.
  intros Hok Hok' Hs.
  destruct op as [input|input|id r t d|id r t d|id t reason]; cbn [run_op];
    try apply same_outcome_one.
  - by apply same_enqueue.
  - unfold claim. rewrite (same_mailbox_list _ _ Hok Hok' Hs).
    destruct (normalizeClaimLimit _); [|done]. cbn [mbind result_bind].
    destruct (js_eq _ _); [by split|].
    destruct (throw_if _ _) as [[]|]; [|done]. cbn [mbind result_bind].
    split; [done|]. by apply same_mailbox_store.
  - unfold acknowledge. rewrite (same_mailbox_require _ _ _ Hs).
    destruct (requireMessage _ _); [|done]. cbn [mbind result_bind].
    destruct (assertRecipient _ _) as [[]|]; [|done]. cbn [mbind result_bind].
    case_bool_decide; [by split|].
    destruct (throw_if _ _) as [[]|]; [|done]. cbn [mbind result_bind].
    destruct (assertDelivery _ _) as [[]|]; [|done]. cbn [mbind result_bind].
    split; [done|]. by apply same_mailbox_set.
  - unfold requeue. rewrite (same_mailbox_require _ _ _ Hs).
    destruct (requireMessage _ _); [|done]. cbn [mbind result_bind].
    destruct (assertRecipient _ _) as [[]|]; [|done]. cbn [mbind result_bind].
    destruct (throw_if _ _) as [[]|]; [|done]. cbn [mbind result_bind].
    destruct (assertDelivery _ _) as [[]|]; [|done]. cbn [mbind result_bind].
    split; [done|]. by apply same_mailbox_set.
  - unfold cancel. rewrite (same_mailbox_require _ _ _ Hs).
    destruct (requireMessage _ _); [|done]. cbn [mbind result_bind].
    case_bool_decide; [by split|].
    destruct (throw_if _ _) as [[]|]; [|done]. cbn [mbind result_bind].
    split; [done|]. by apply same_mailbox_set.
Qed.

(** The state of the constructor's loop after the messages [seen]. *)
Definition key_entry message : option (string * string) :=
  match message_key message with Some key => Some (key, m_id message) | None => None end.

Definition loaded (seen : list AgentMailboxMessage) : loading :=
  {| ld_maximumSequence := foldl (fun a m => math_max a (m_sequence m)) (ofZ 0) seen;
     ld_seenSequences := rev (map m_sequence seen);
     ld_messages := map (fun m => (m_id m, m)) seen;
     ld_keys := omap key_entry seen |}.

Lemma loaded_keys seen : jm_keys (ld_messages (loaded seen)) = map m_id seen.
Proof.
  unfold jm_keys. cbn [loaded ld_messages]. induction seen as [|m l IH]; [done|].
  cbn. f_equal. exact IH.
Qed.

Lemma key_entries (seen : list AgentMailboxMessage) :
  jm_keys (@omap list _ _ _ key_entry seen) = omap message_key seen.
Proof.
  unfold jm_keys, key_entry. induction seen as [|m l IH]; [done|]. cbn.
  destruct (message_key m); cbn; [by f_equal|done].
Qed.

Lemma jm_has_false {V} (m : jsmap string V) k : k ∉ jm_keys m -> jm_has m k = false.
Proof.
  intros H. destruct (jm_has m k) eqn:E; [|done]. by apply jm_has_elem in E.
Qed.

Lemma load_message_ok run next seen m : (next <= max_safe)%Z ->
  Forall (fun c => message_ok run next (m_id c) c) (seen ++ [m]) ->
  NoDup (map m_id (seen ++ [m])) -> NoDup (map sequence (seen ++ [m])) ->
  NoDup (omap message_key (seen ++ [m])) ->
  load_message run (loaded seen) m = Ok (loaded (seen ++ [m])).
Proof.
  intros Hnext Hall Hids Hseqs Hkeys.
  apply Forall_app in Hall as [Hall Hm]. rewrite Forall_singleton in Hm.
  rewrite map_app in Hids, Hseqs. rewrite omap_app in Hkeys.
  apply NoDup_app in Hids as (_ & Hids & _), Hseqs as (_ & Hseqs & _),
    Hkeys as (_ & Hkeys & _).
  unfold load_message. assert (assertSnapshotMessage run m = Ok tt) as ->.
  { unfold assertSnapshotMessage. destruct Hm as [_ Hr Hq Hqr Ha Har Hd].
    rewrite Hr, Hq, Ha, !isSafeInteger_ofZ, !js_lt_ofZ
      by (unfold max_safe in *; lia).
    rewrite (bool_decide_eq_true_2 (run = run)) by done.
    replace (sequence m <? 1)%Z with false by lia.
    replace (toZ (m_deliveryAttempts m) <? 0)%Z with false by lia. cbn [negb orb].
    cbn [throw_if mbind result_bind].
    assert (existsb (fun k => k === m_kind m) AGENT_MESSAGE_KINDS = true) as ->
      by (by destruct (m_kind m)).
    assert (existsb (fun s => s === m_status m) AGENT_MESSAGE_STATUSES = true) as ->
      by (by destruct (m_status m)).
    cbn [negb throw_if mbind result_bind]. apply throw_if_ok.
    case_bool_decide as Hs; [|done]. by rewrite bool_decide_eq_false_2 by auto. }
  cbn [mbind result_bind]. rewrite jm_has_false; [|rewrite loaded_keys].
  2: { intros Hin. by apply (Hids _ Hin), list_elem_of_singleton. }
  cbn [throw_if mbind result_bind].
  assert (existsb (js_eq (m_sequence m)) (ld_seenSequences (loaded seen)) = false) as ->.
  { apply existsb_false. intros q Hq. cbn [loaded ld_seenSequences] in Hq.
    apply list_elem_of_In, in_rev, list_elem_of_In, list_elem_of_fmap in Hq.
    destruct Hq as (c & -> & Hc). rewrite Forall_forall in Hall.
    rewrite (ok_sequence _ _ _ _ Hm), (ok_sequence _ _ _ _ (Hall _ Hc)), js_eq_ofZ.
    apply Z.eqb_neq. intros Heq. apply (Hseqs (sequence m)).
    - rewrite Heq. apply list_elem_of_fmap. eauto.
    - by apply list_elem_of_singleton. }
  cbn [throw_if mbind result_bind].
  assert (jm_set (ld_messages (loaded seen)) (m_id m) m = ld_messages (loaded (seen ++ [m])))
    as ->.
  { rewrite jm_set_fresh; [cbn; by rewrite map_app|]. apply jm_has_false.
    rewrite loaded_keys. intros Hin. by apply (Hids _ Hin), list_elem_of_singleton. }
  unfold loaded at 2 3 4. cbn [ld_maximumSequence ld_seenSequences ld_keys].
  unfold loaded. rewrite map_app, rev_app_distr, foldl_app, omap_app.
  destruct (m_idempotencyKey m) as [k|] eqn:Ek.
  - assert (message_key m = Some (idempotencyIndexKey (m_recipientAgentId m) k)) as Hmk
      by (unfold message_key; by rewrite Ek).
    assert (omap key_entry [m] = [(idempotencyIndexKey (m_recipientAgentId m) k, m_id m)])
      as -> by (cbn; unfold key_entry; by rewrite Hmk).
    cbn [ld_keys].
    rewrite jm_has_false; [|rewrite key_entries].
    2: { intros Hin. apply (Hkeys _ Hin). cbn. rewrite Hmk. apply list_elem_of_here. }
    cbn [throw_if mbind result_bind]. rewrite jm_set_fresh; [done|].
    apply jm_has_false. rewrite key_entries.
    intros Hin. apply (Hkeys _ Hin). cbn. rewrite Hmk. apply list_elem_of_here.
  - assert (omap key_entry [m] = []) as ->
      by (cbn; unfold key_entry, message_key; by rewrite Ek).
    by rewrite app_nil_r.
Qed.

Lemma load_messages_ok run next seen rest : (next <= max_safe)%Z ->
  Forall (fun c => message_ok run next (m_id c) c) (seen ++ rest) ->
  NoDup (map m_id (seen ++ rest)) -> NoDup (map sequence (seen ++ rest)) ->
  NoDup (omap message_key (seen ++ rest)) ->
  load_messages run (loaded seen) rest = Ok (loaded (seen ++ rest)).
Proof.
  intros Hnext. revert seen. induction rest as [|m rest IH]; intros seen Hall Hids Hseqs Hkeys.
  { by rewrite app_nil_r. }
  replace (seen ++ m :: rest) with ((seen ++ [m]) ++ rest) in * by (by rewrite <- app_assoc).
  cbn [load_messages]. rewrite (load_message_ok run next seen m Hnext).
  - cbn [mbind result_bind]. by apply IH.
  - by apply Forall_app in Hall as [? _].
  - rewrite map_app in Hids. by apply NoDup_app in Hids as [? _].
  - rewrite map_app in Hseqs. by apply NoDup_app in Hseqs as [? _].
  - rewrite omap_app in Hkeys. by apply NoDup_app in Hkeys as [? _].
Qed.

Lemma loaded_maximum run next seen : (1 <= next <= max_safe)%Z ->
  Forall (fun c => message_ok run next (m_id c) c) seen ->
  exists k, ld_maximumSequence (loaded seen) = ofZ k /\ (0 <= k < next)%Z.
Proof.
  intros Hnext. cbn [loaded ld_maximumSequence].
  induction seen as [|m seen IH] using rev_ind; intros Hall.
  { exists 0%Z. split; [done|lia]. }
  apply Forall_app in Hall as [Hall Hm]. rewrite Forall_singleton in Hm.
  destruct (IH Hall) as (k & Hk & Hr). rewrite foldl_app. cbn [foldl]. rewrite Hk.
  pose proof (ok_sequence_range _ _ _ _ Hm). rewrite (ok_sequence _ _ _ _ Hm).
  exists (Z.max k (sequence m)). split; [|lia].
  change (math_max (ofZ k) (ofZ (sequence m))) with
    (if js_lt (ofZ k) (ofZ (sequence m)) then ofZ (sequence m) else ofZ k).
  rewrite js_lt_ofZ. destruct (Z.ltb_spec k (sequence m)); f_equal; lia.
Qed.

Lemma omap_keys_NoDup mb l : mailbox_ok mb -> NoDup l ->
  (forall m, m ∈ l -> jm_get (messagesById mb) (m_id m) = Some m) ->
  NoDup (omap message_key l).
Proof.
  intros Hok. induction l as [|m l IH]; intros Hn Hin; [apply NoDup_nil_2|].
  apply NoDup_cons in Hn as [Hm Hn]. cbn.
  assert (NoDup (omap message_key l)) as Hl.
  { apply IH; [done|]. intros. apply Hin. by apply list_elem_of_further. }
  destruct (message_key m) as [k|] eqn:Ek; [|done]. apply NoDup_cons. split; [|done].
  intros (c & Hc & Hk)%list_elem_of_omap. apply Hm.
  pose proof (Hin _ (list_elem_of_here _ _)) as H1.
  pose proof (Hin _ (list_elem_of_further _ _ _ Hc)) as H2.
  assert (jm_get (idempotentMessageIds mb) k = Some (m_id m)) as K1
    by (apply (ok_index _ Hok); eauto).
  assert (jm_get (idempotentMessageIds mb) k = Some (m_id c)) as K2
    by (apply (ok_index _ Hok); eauto).
  rewrite K1 in K2. injection K2 as K2. rewrite K2, H2 in H1. by injection H1 as ->.
Qed.

(** Loading a snapshot gives a mailbox no command can tell from the original. *)
Lemma snapshot_loads mb : mailbox_ok mb ->
  exists mb', new_AgentMailbox (snapshot mb) = Ok mb' /\ mailbox_ok mb' /\
    same_mailbox mb mb'.
Proof.
  intros Hok. pose proof (ok_next_range _ Hok) as Hnr.
  assert (Forall (fun c => message_ok (mb_runId mb) (toZ (nextSequence mb)) (m_id c) c)
    (listMessages mb)) as Hall.
  { apply Forall_forall. intros m Hm%(listMessages_elem _ Hok). by apply Hok. }
  destruct (loaded_maximum _ _ _ Hnr Hall) as (k & Hk & Hkr).
  unfold new_AgentMailbox, snapshot. cbn [snap_nextSequence snap_runId snap_messages].
  rewrite (ok_next _ Hok), isSafeInteger_ofZ, js_lt_ofZ by (unfold max_safe in *; lia).
  replace (toZ (nextSequence mb) <? 1)%Z with false by lia.
  cbn [negb orb throw_if mbind result_bind].
  change loading_start with (loaded []).
  rewrite (load_messages_ok _ (toZ (nextSequence mb)) []); [|lia|done|..].
  2: { by apply listMessages_ids. }
  2: { by apply listMessages_sequences. }
  2: { apply (omap_keys_NoDup mb); [done|by apply listMessages_NoDup|].
       intros m. by apply listMessages_elem. }
  cbn [mbind result_bind app]. rewrite Hk, js_le_ofZ.
  replace (toZ (nextSequence mb) <=? k)%Z with false by lia.
  cbn [throw_if mbind result_bind]. eexists. split; [reflexivity|].
  set (mb' := {| mb_runId := _; nextSequence := _; messagesById := _;
                 idempotentMessageIds := _ |}).
  assert (NoDup (jm_keys (messagesById mb'))) as Hn1.
  { cbn [mb' messagesById]. rewrite loaded_keys. by apply listMessages_ids. }
  assert (NoDup (jm_keys (idempotentMessageIds mb'))) as Hn2.
  { cbn [mb' idempotentMessageIds loaded ld_keys]. rewrite key_entries.
    apply (omap_keys_NoDup mb); [done|by apply listMessages_NoDup|].
    intros m. by apply listMessages_elem. }
  assert (same_mailbox mb mb') as Hs.
  { split; [done|by apply ok_next| |].
    - intros id. apply option_eq. intros m. rewrite <- (jm_elem _ _ _ Hn1).
      cbn [mb' messagesById loaded ld_messages]. rewrite list_elem_of_fmap. split.
      + intros Hm. pose proof (ok_id _ _ _ _ (ok_messages _ Hok _ _ Hm)) as Hid.
        exists m. split; [by rewrite Hid|]. apply (listMessages_elem _ Hok). by rewrite Hid.
      + intros (c & [= -> ->] & Hc). by apply (listMessages_elem _ Hok).
    - intros key. apply option_eq. intros id. rewrite <- (jm_elem _ _ _ Hn2).
      cbn [mb' idempotentMessageIds loaded ld_keys]. rewrite (ok_index _ Hok).
      rewrite list_elem_of_omap. unfold key_entry. split.
      + intros (m & Hm & Hmk). pose proof (ok_id _ _ _ _ (ok_messages _ Hok _ _ Hm)) as Hid.
        exists m. rewrite Hmk, Hid. split; [|done]. apply (listMessages_elem _ Hok).
        by rewrite Hid.
      + intros (m & Hm%(listMessages_elem _ Hok) & Hmk).
        destruct (message_key m) as [k'|] eqn:E; [|done]. injection Hmk as -> <-. eauto. }
  split; [|done]. destruct Hs as [Hr Hn Hm Hk']. split; try done.
  - rewrite <- Hn. apply Hok.
  - rewrite <- Hn. apply Hok.
  - intros id m. rewrite <- Hm, <- Hr, <- Hn. apply Hok.
  - intros id id' m m'. rewrite <- !Hm. apply Hok.
  - intros key id. rewrite <- Hk', (ok_index _ Hok). by setoid_rewrite Hm.
Qed.

(** C22: a restart loses nothing.  At any point the snapshot loads again
    without an error, the loaded mailbox snapshots to the same messages, and
    every further command gives the same answer on both, whether a result or
    an error, and leaves them alike again. *)
Theorem mailbox_recovers runId start mb :
  empty_mailbox runId = Ok start -> rtc step start mb ->
  exists mb', new_AgentMailbox (snapshot mb) = Ok mb' /\
    snapshot mb' = snapshot mb /\
    forall op, same_outcome (run_op mb op) (run_op mb' op).
Proof.
  intros Hstart Hs. pose proof (steps_ok _ _ (empty_mailbox_ok _ _ Hstart) Hs) as Hok.
  destruct (snapshot_loads _ Hok) as (mb' & Hl & Hok' & Hsame).
  exists mb'. split; [done|]. split; [|intros op; by apply same_run_op].
  unfold snapshot. rewrite (same_mailbox_list _ _ Hok Hok' Hsame).
  by rewrite (sm_run _ _ Hsame), (sm_next _ _ Hsame).
Qed.

(** ** Idempotent retries *)

(** [input] carries what [first] carried: same sender, recipient, kind and
    key, the same payload up to the order of object keys, and the message
    identity either not given or the one the message has. *)
Record retries (first input : EnqueueAgentMessageInput) (id : string) : Prop := {
  retry_recipient : in_recipientAgentId input = in_recipientAgentId first;
  retry_sender : in_senderAgentId input = in_senderAgentId first;
  retry_kind : in_kind input = in_kind first;
  retry_key : in_idempotencyKey input = in_idempotencyKey first;
  retry_message : in_messageId input = None \/ in_messageId input = Some id;
  retry_blank : given_blank (in_messageId input) = false;
  retry_payload : same_json (in_payload first) (in_payload input) }.

Lemma enqueue_content mb input m mb' : mailbox_ok mb -> enqueue mb input = Ok (m, mb') ->
  in_idempotencyKey input <> None ->
  jm_get (messagesById mb') (m_id m) = Some m /\
  m_recipientAgentId m = in_recipientAgentId input /\
  m_senderAgentId m = in_senderAgentId input /\ m_kind m = in_kind input /\
  m_idempotencyKey m = in_idempotencyKey input.
Proof.
  intros Hok H Hkey. apply enqueue_ok in H as [[-> Hex]|(_ & id & _ & -> & ->)].
  - apply (enqueue_existing_some _ _ _ Hok) in Hex as (key & Hk & _ & Hm & Hs).
    split; [done|]. unfold isSameIdempotentMessage in Hs. case_match eqn:E; [|done].
    by bool_hyps.
  - split; [|done]. cbn [enqueued messagesById m_id queued_message].
    apply jm_get_set_eq.
Qed.

Lemma enqueue_indexed mb input m mb' key : mailbox_ok mb ->
  enqueue mb input = Ok (m, mb') -> input_key input = Some key ->
  jm_get (idempotentMessageIds mb') key = Some (m_id m) /\
  canonicalJson number_to_string (m_payload m) =
    canonicalJson number_to_string (in_payload input) /\
  assertEnqueueInput input = Ok tt.
Proof.
  intros Hok H Hkey.
  assert (assertEnqueueInput input = Ok tt) as Ha.
  { unfold enqueue in H. by apply bind_ok in H as ([] & ? & _). }
  apply enqueue_ok in H as [[-> Hex]|(_ & id & _ & -> & ->)].
  - apply (enqueue_existing_some _ _ _ Hok) in Hex as (key' & Hk & Hi & Hm & Hs).
    assert (key' = key) as -> by congruence. split; [done|]. split; [|done].
    unfold isSameIdempotentMessage in Hs. case_match; [|done].
    apply bind_ok in Hs as (l & Hl & Hs). apply bind_ok in Hs as (r & Hr & [= Hlr]).
    apply bool_decide_eq_true in Hlr. congruence.
  - split; [|done]. unfold input_key in Hkey. cbn [enqueued idempotentMessageIds].
    destruct (in_idempotencyKey input); [|done]. injection Hkey as <-. apply jm_get_set_eq.
Qed.

(** The retried message is found and compared. *)
Lemma enqueue_retry mb input key m : mailbox_ok mb -> input_key input = Some key ->
  jm_get (idempotentMessageIds mb) key = Some (m_id m) ->
  jm_get (messagesById mb) (m_id m) = Some m ->
  assertEnqueueInput input = Ok tt ->
  enqueue mb input =
    (same ← isSameIdempotentMessage m input;
     _ ← throw_if (negb same) (InvariantViolationError
           "Mailbox idempotency key was reused with different message content");
     mret (m, mb)).
Proof.
  intros Hok Hkey Hi Hm Ha. unfold enqueue, enqueue_existing. rewrite Ha.
  unfold input_key in Hkey. destruct (in_idempotencyKey input); [|done].
  injection Hkey as <-. rewrite Hi.
  assert (requireMessage mb (m_id m) = Ok m) as -> by (by apply requireMessage_ok).
  cbn [mbind result_bind]. by destruct (isSameIdempotentMessage m input) as [[]|].
Qed.

Hypothesis rendering : number_rendering number_to_string.

(** Enqueueing with an idempotency key happens once.  However the mailbox
    has moved on since, a retry with the same content changes nothing and
    returns the message the first call created, in its current delivery
    state; the key with a different payload for the same recipient is
    refused. *)
Theorem enqueue_idempotent mb first key m mb1 mb2 :
  mailbox_ok mb -> room mb -> in_idempotencyKey first = Some key ->
  distinct_keys (in_payload first) -> finite_json (in_payload first) = true ->
  enqueue mb first = Ok (m, mb1) -> rtc step mb1 mb2 ->
  (forall input, retries first input (m_id m) ->
     exists m2, enqueue mb2 input = Ok (m2, mb2) /\ same_content m m2) /\
  (forall input, in_recipientAgentId input = in_recipientAgentId first ->
     in_idempotencyKey input = Some key ->
     ~ same_json (in_payload first) (in_payload input) ->
     is_ok (enqueue mb2 input) = false).
Proof.
  intros Hok Hroom Hkey Hd Hf H Hs.
  assert (input_key first = Some (idempotencyIndexKey (in_recipientAgentId first) key))
    as Hik by (unfold input_key; by rewrite Hkey).
  destruct (enqueue_indexed _ _ _ _ _ Hok H Hik) as (Hi & Hpay & Ha).
  assert (in_idempotencyKey first <> None) as Hne by congruence.
  destruct (enqueue_content _ _ _ _ Hok H Hne) as (Hm & Hr & Hse & Hk & Hke).
  assert (mailbox_ok mb1) as Hok1.
  { apply (step_ok mb); [done|]. split; [done|]. exists (op_enqueue first), [m].
    cbn [run_op]. by rewrite H. }
  pose proof (steps_ok _ _ Hok1 Hs) as Hok2.
  apply (steps_index _ _ _ _ Hok1 Hs) in Hi.
  destruct (steps_survives _ _ _ _ Hok1 Hs Hm) as (m2 & Hm2 & [Hc _]).
  pose proof (same_id _ _ Hc) as Hid. rewrite Hid in Hi, Hm2.
  rewrite (same_payload _ _ Hc) in Hpay.
  split; intros input.
  - intros [Rr Rs Rk Rkey Rm Rb Rp]. exists m2. split; [|done].
    assert (assertEnqueueInput input = Ok tt) as Ha2.
    { unfold assertEnqueueInput in *. rewrite Rr, Rkey. rewrite Rb.
      apply bind_ok in Ha as ([] & -> & Ha).
      by apply bind_ok in Ha as ([] & -> & _). }
    rewrite (enqueue_retry _ _ (idempotencyIndexKey (in_recipientAgentId first) key) m2)
      by (try done; unfold input_key; by rewrite Rkey, Hkey, Rr).
    destruct (same_canonicalJson number_to_string _ _ Hd Rp Hf) as (t & H1 & H2).
    rewrite H1 in Hpay. unfold isSameIdempotentMessage.
    rewrite <- (same_recipient _ _ Hc), <- (same_sender _ _ Hc), <- (same_kind _ _ Hc),
      <- (same_key _ _ Hc), <- Hid, Hr, Hse, Hk, Hke, Rr, Rs, Rk, Rkey.
    rewrite !bool_decide_eq_true_2 by done. cbn [andb].
    assert (match in_messageId input with None => true | Some id => m_id m === id end = true)
      as -> by (destruct Rm as [->| ->]; [done|]; by apply bool_decide_eq_true).
    rewrite Hpay, H2. cbn. by rewrite bool_decide_eq_true_2.
  - intros Rr Rkey Rp. destruct (assertEnqueueInput input) as [[]|e] eqn:Ha2;
      [|by unfold enqueue; rewrite Ha2].
    rewrite (enqueue_retry _ _ (idempotencyIndexKey (in_recipientAgentId first) key) m2)
      by (try done; unfold input_key; by rewrite Rkey, Rr).
    unfold isSameIdempotentMessage. case_match; [|done]. rewrite Hpay.
    destruct (canonicalJson number_to_string (in_payload first)) as [s|] eqn:E1; [|done].
    destruct (canonicalJson number_to_string (in_payload input)) as [t|] eqn:E2; [|done].
    cbn. rewrite bool_decide_eq_false_2; [done|]. intros ->.
    by apply Rp, (canonicalJson_same number_to_string rendering _ _ t t Hd E1 E2).
Qed.
End Mailbox.

(** ** A concrete mailbox *)

Definition demo_start : AgentMailbox :=
  {| mb_runId := "run"; nextSequence := ofZ 1; messagesById := []; idempotentMessageIds := [] |}.

Definition demo_input : EnqueueAgentMessageInput :=
  {| in_recipientAgentId := "agent_a"; in_kind := mk_steering;
     in_payload := jobj [("b", jbool true); ("a", jarr [jstr "x"; jnum (ofZ 3)])];
     in_createdAt := "2026-01-01T00:00:00.000Z"; in_senderAgentId := None;
     in_idempotencyKey := Some "k1"; in_messageId := None |}.

Definition demo_retry : EnqueueAgentMessageInput :=
  {| in_recipientAgentId := "agent_a"; in_kind := mk_steering;
     in_payload := jobj [("a", jarr [jstr "x"; jnum (ofZ 3)]); ("b", jbool true)];
     in_createdAt := "2026-01-02T00:00:00.000Z"; in_senderAgentId := None;
     in_idempotencyKey := Some "k1"; in_messageId := None |}.

Definition demo_claim : ClaimAgentMessagesInput :=
  {| cl_recipientAgentId := "agent_a"; cl_deliveredAt := "2026-01-03T00:00:00.000Z";
     cl_deliveryId := None; cl_limit := None |}.

Definition demo_message : AgentMailboxMessage :=
  queued_message demo_start
    (match createAgentMailboxMessageId "run" "agent_a" "k1" with Ok id => id | _ => "" end)
    demo_input.

Definition demo_after : AgentMailbox := enqueued demo_start (m_id demo_message) demo_input.

Lemma demo_enqueue : enqueue render_units demo_start demo_input = Ok (demo_message, demo_after).
Proof. vm_compute. reflexivity. Qed.

Lemma demo_empty : empty_mailbox "run" = Ok demo_start.
Proof. vm_compute. reflexivity. Qed.

Lemma demo_start_ok : mailbox_ok demo_start.
Proof. exact (empty_mailbox_ok _ _ demo_empty). Qed.

Lemma demo_start_room : room demo_start.
Proof. split; [vm_compute; reflexivity|]. intros id m H. discriminate H. Qed.

Lemma demo_step : step render_units demo_start demo_after.
Proof.
  split; [exact demo_start_room|]. exists (op_enqueue demo_input), [demo_message].
  cbn [run_op]. by rewrite demo_enqueue.
Qed.

Lemma demo_after_room : room demo_after.
Proof.
  split; [vm_compute; reflexivity|]. intros id m H.
  cbn [demo_after enqueued messagesById jm_set demo_start] in H. cbn [jm_get] in H.
  case_decide; [|discriminate H]. injection H as <-. vm_compute. reflexivity.
Qed.

Lemma mailbox_safe_witness :
  empty_mailbox "run" = Ok demo_start /\ mailbox_ok demo_after.
Proof.
  split; [exact demo_empty|].
  apply (mailbox_safe render_units "run" demo_start demo_after demo_after demo_empty).
  - apply rtc_once, demo_step.
  - apply rtc_refl.
Defined.

Lemma mailbox_recovers_witness :
  exists mb', new_AgentMailbox (snapshot demo_after) = Ok mb' /\
              snapshot mb' = snapshot demo_after.
Proof.
  destruct (mailbox_recovers render_units "run" demo_start demo_after demo_empty
    (rtc_l _ _ _ _ demo_step (rtc_refl _ _))) as (mb' & H1 & H2 & _).
  exists mb'. split; assumption.
Defined.

Definition demo_out : list AgentMailboxMessage :=
  [delivered_message render_units demo_claim demo_message].

Lemma demo_claims :
  claim render_units demo_after demo_claim = Ok (demo_out, replace_all demo_after demo_out).
Proof. vm_compute. reflexivity. Qed.

Lemma claim_fifo_witness :
  map m_id demo_out = [m_id demo_message] /\
  queuedFor (replace_all demo_after demo_out) "agent_a" = [].
Proof.
  destruct (claim_fifo render_units demo_after demo_claim demo_out
    (replace_all demo_after demo_out) (step_ok _ _ _ demo_start_ok demo_step)
    demo_after_room demo_claims) as (H1 & H2 & _).
  split; [reflexivity|]. refine (eq_trans H2 _). vm_compute. reflexivity.
Defined.

Lemma demo_distinct : distinct_keys (in_payload demo_input).
Proof. split; [apply (bool_decide_unpack _); vm_compute; exact I|by repeat split]. Qed.

Lemma enqueue_idempotent_witness :
  exists m2, enqueue render_units demo_after demo_retry = Ok (m2, demo_after) /\
             same_content demo_message m2.
Proof.
  apply (proj1 (enqueue_idempotent render_units render_units_ok demo_start demo_input "k1"
    demo_message demo_after demo_after demo_start_ok demo_start_room eq_refl
    demo_distinct
    ltac:(vm_compute; reflexivity) demo_enqueue (rtc_refl _ _))).
  split; try reflexivity; [left; reflexivity|].
  apply sort_keys_same. vm_compute. reflexivity.
Defined.
