(* ===== verification/AgentGraph.v ===== *)
(** The durable agent topology of a run (packages/agents/src/graph.ts).

    The state is the class's fields: the agents by identity, the spawn edges by
    child and the index of edges by parent, all [Map]s in insertion order.  A
    method is a computation that returns the new state beside its value or
    exception, so a change made before a throw is kept, as in the code.  The
    loops that follow parents or children run on fuel; the public methods give
    one unit per agent and one more, which [AgentTraversal] proves enough.
    [localeCompare] is a parameter: a total, transitive comparison. *)

From Stdlib Require Import ZArith Lia Sorted Permutation.
From stdpp Require Import base strings list relations.
From S2P Require Import Prelude JsNumber JsString JsCollections Protocol StateMachine.

Open Scope string_scope.
Open Scope list_scope.

(** Source: packages/protocol/src/contracts.ts:181-194 [Agent]. *)
Record Agent := {
   a_id : string;
   a_runId : string;
   a_parentAgentId : option string;
   a_taskId : option string;
   a_role : AgentRole;
   a_status : AgentStatus;
   a_sessionEpochIds : list string;
   a_worktreeUri : option string;
   a_permissions : PermissionPolicy;
   a_sandbox : SandboxPolicy;
   a_spawnedAt : string;
   a_closedAt : option string;
   a_createdAt : string;
   a_updatedAt : string }.

(** Source: packages/agents/src/types.ts:19-19 [AgentSpawnEdgeState]. *)
Inductive AgentSpawnEdgeState : Type := edge_open | edge_closed.

#[export] Instance AgentSpawnEdgeState_eq_dec : EqDecision AgentSpawnEdgeState.
Proof. solve_decision. Defined.

(** The fields of AgentSpawnEdge (contracts.ts:619-624) and of its extension.
    Source: packages/agents/src/types.ts:21-27 [AgentGraphEdge]. *)
Record AgentGraphEdge := {
   e_key : string;
   e_parentAgentId : string;
   e_childAgentId : string;
   e_runId : string;
   e_taskId : option string;
   e_state : AgentSpawnEdgeState;
   e_closedAt : option string;
   e_closeReason : option string;
   e_createdAt : string;
   e_updatedAt : string }.

(** Source: packages/agents/src/types.ts:30-34 [AgentGraphSnapshot]. *)
Record AgentGraphSnapshot := {
   gs_runId : string;
   gs_agents : list Agent;
   gs_edges : list AgentGraphEdge }.

(** Source: packages/agents/src/types.ts:36-39 [AgentPathSegment]. *)
Record AgentPathSegment := { seg_agentId : string; seg_taskId : option string }.

(** Source: packages/agents/src/types.ts:45-50 [AgentTaskPath]. *)
Record AgentTaskPath := {
   tp_agentIds : list string;
   tp_taskIds : list string;
   tp_segments : list AgentPathSegment;
   tp_key : string }.

(** Source: packages/agents/src/types.ts:106-111 [SpawnAgentInput]. *)
Record SpawnAgentInput := {
   sp_agent : Agent;
   sp_parentAgentId : string;
   sp_taskId : option string;
   sp_openedAt : option string }.

(** Source: packages/agents/src/types.ts:132-137 [AgentResumeOptions]. *)
Record AgentResumeOptions := {
   ro_statuses : option (list AgentStatus);
   ro_limit : option num;
   ro_includeClosedEdges : option bool }.

(** Source: packages/agents/src/graph.ts:21-27 [DEFAULT_RESUMABLE_AGENT_STATUSES]. *)
Definition DEFAULT_RESUMABLE_AGENT_STATUSES : list AgentStatus :=
  [agent_waiting; agent_suspended; agent_recovering; agent_failed; agent_stopped].

(** The query [edgeState], [None] for "all".
    Source: packages/agents/src/graph.ts:29-31 [DescendantQuery]. *)
Definition DescendantQuery : Type := option AgentSpawnEdgeState.

(** Source: packages/agents/src/graph.ts:38-43 [AgentGraph]. *)
Record AgentGraph := {
   g_runId : string;
   agentsById : jsmap string Agent;
   edgesByChild : jsmap string AgentGraphEdge;
   edgesByParent : jsmap string (list AgentGraphEdge) }.

Definition with_agents (g : AgentGraph) (agents : jsmap string Agent) : AgentGraph :=
  {| g_runId := g_runId g; agentsById := agents;
   edgesByChild := edgesByChild g; edgesByParent := edgesByParent g |}.

Definition with_edges (g : AgentGraph) (byChild : jsmap string AgentGraphEdge)
  (byParent : jsmap string (list AgentGraphEdge)) : AgentGraph :=
  {| g_runId := g_runId g; agentsById := agentsById g;
   edgesByChild := byChild; edgesByParent := byParent |}.

(** A method of the class: its result and the fields it leaves. *)
Definition gm (A : Type) : Type := AgentGraph -> exc A * AgentGraph.

#[export] Instance gm_ret : MRet gm := fun _ a g => (Ok a, g).
#[export] Instance gm_bind : MBind gm := fun _ _ f m g =>
  match m g with
  | (Ok a, g') => f a g'
  | (Throw e, g') => (Throw e, g')
  end.

(** A check or a query, which changes no field. *)
Definition reading {A} (f : AgentGraph -> exc A) : gm A := fun g => (f g, g).
Definition guarding (condition : AgentGraph -> bool) (message : string) : gm unit :=
  reading (fun g => throw_if (condition g) (InvariantViolationError message)).
Definition setting (f : AgentGraph -> AgentGraph) : gm unit := fun g => (Ok tt, f g).

(** What a loop that runs out of fuel gives; no loop does. *)
Definition unfinished : exn := RangeError "traversal fuel".

(** Source: packages/agents/src/graph.ts:582-587 [createAgentSpawnEdgeKey]. *)
Definition createAgentSpawnEdgeKey (parentAgentId childAgentId : string) : string :=
  "agent-spawn:" +:+ parentAgentId +:+ ":" +:+ childAgentId.

(** Source: packages/agents/src/graph.ts:589-595 [isResumableAgentStatus]. *)
Definition isResumableAgentStatus (status : AgentStatus) : bool :=
  existsb (fun s => s === status) DEFAULT_RESUMABLE_AGENT_STATUSES.

(** Source: packages/agents/src/graph.ts:601-614 [normalizeLimit]. *)
Definition normalizeLimit (limit : option num) (label : string) : exc num :=
  match limit with
  | None => mret PInf
  | Some limit =>
      _ ← throw_if (negb (isSafeInteger limit) || js_lt limit (ofZ 0))
      (InvariantViolationError (label +:+ " must be a non-negative integer"));
      mret limit
  end.

(** [values.slice(0, limit)] for a limit that is not negative. *)
Definition slice_to {A} (limit : num) (values : list A) : list A :=
  match limit with
  | PInf => values
  | limit => firstn (Z.to_nat (toZ limit)) values
  end.

Section AgentGraph.
(** [left.localeCompare(right) <= 0] *)
Variable localeCompare_le : string -> string -> bool.

Implicit Types (g : AgentGraph) (agent : Agent) (edge : AgentGraphEdge).

(** Source: packages/agents/src/graph.ts:597-599 [compareAgentId]. *)
Definition compareAgentId_le (left right : Agent) : bool :=
  localeCompare_le (a_id left) (a_id right).

Definition edge_key_le (left right : AgentGraphEdge) : bool :=
  localeCompare_le (e_key left) (e_key right).
Definition edge_child_le (left right : AgentGraphEdge) : bool :=
  localeCompare_le (e_childAgentId left) (e_childAgentId right).

(** ** Reading *)

(** Source: packages/agents/src/graph.ts:70-72 [listAgents]. *)
Definition listAgents g : list Agent := sort_by compareAgentId_le (jm_values (agentsById g)).

(** Source: packages/agents/src/graph.ts:74-78 [listEdges]. *)
Definition listEdges g : list AgentGraphEdge := sort_by edge_key_le (jm_values (edgesByChild g)).

(** Source: packages/agents/src/graph.ts:62-68 [snapshot]. *)
Definition snapshot g : AgentGraphSnapshot :=
  {| gs_runId := g_runId g; gs_agents := listAgents g; gs_edges := listEdges g |}.

(** Source: packages/agents/src/graph.ts:80-82 [hasAgent]. *)
Definition hasAgent g (agentId : string) : bool := jm_has (agentsById g) agentId.

(** Source: packages/agents/src/graph.ts:84-87 [getAgent]. *)
Definition getAgent g (agentId : string) : option Agent := jm_get (agentsById g) agentId.

(** Source: packages/agents/src/graph.ts:89-98 [requireAgent]. *)
Definition requireAgent g (agentId : string) : exc Agent :=
  match jm_get (agentsById g) agentId with
  | None => Throw (InvariantViolationError "Agent is not present in this graph")
  | Some agent => mret agent
  end.

(** Source: packages/agents/src/graph.ts:100-103 [getSpawnEdge]. *)
Definition getSpawnEdge g (childAgentId : string) : option AgentGraphEdge :=
  jm_get (edgesByChild g) childAgentId.

(** Source: packages/agents/src/graph.ts:571-579 [childEdges]. *)
Definition childEdges g (parentAgentId : string) (edgeState : DescendantQuery)
  : list AgentGraphEdge :=
  List.filter (fun edge => match edgeState with
   | None => true
   | Some state => e_state edge === state
   end)
  (jm_get (edgesByParent g) parentAgentId ?? []).

(** Source: packages/agents/src/graph.ts:399-401 [openChildCount]. *)
Definition openChildCount g (parentAgentId : string) : Z :=
  Z.of_nat (length (childEdges g parentAgentId (Some edge_open))).

(** Source: packages/agents/src/graph.ts:266-270 [roots]. *)
Definition roots g : list Agent :=
  List.filter (fun agent => a_parentAgentId agent === None) (listAgents g).

(** [array.map(f)] where [f] may throw. *)
Fixpoint map_exc {A B} (f : A -> exc B) (l : list A) : exc (list B) :=
  match l with
  | [] => mret []
  | a :: r => b ← f a; rest ← map_exc f r; mret (b :: rest)
  end.

(** Source: packages/agents/src/graph.ts:272-281 [children]. *)
Definition children g (parentAgentId : string) (query : DescendantQuery) : exc (list Agent) :=
  _ ← requireAgent g parentAgentId;
  map_exc (fun edge => requireAgent g (e_childAgentId edge)) (childEdges g parentAgentId query).

(** ** Traversals *)

(** The fuel of a traversal: every pass of a loop meets a new agent. *)
Definition traversal_fuel g : nat := S (length (agentsById g)).

Definition finished {A} (r : option (exc A)) : exc A :=
  match r with Some r => r | None => Throw unfinished end.

(** [visit] of [descendants]; the state is the visited set and the output, the
    most recent first.
    Source: packages/agents/src/graph.ts:293-306 [descendants.visit]. *)
Fixpoint visit g (edgeState : DescendantQuery) (fuel : nat) (parentId : string)
  (state : list string * list Agent) : option (exc (list string * list Agent)) :=
  match fuel with
  | O => None
  | S fuel =>
      (fix for_edges (edges : list AgentGraphEdge) (state : list string * list Agent) :=
       match edges with
       | [] => Some (Ok state)
       | edge :: rest =>
           if bool_decide (e_childAgentId edge ∈ state.1) then
           Some (Throw (InvariantViolationError
             "Agent graph traversal encountered a cycle"))
           else
           match requireAgent g (e_childAgentId edge) with
           | Throw error => Some (Throw error)
           | Ok child =>
               match visit g edgeState fuel (a_id child)
                   (e_childAgentId edge :: state.1, child :: state.2) with
               | Some (Ok state) => for_edges rest state
               | other => other
               end
           end
       end) (childEdges g parentId edgeState) state
  end.

(** Source: packages/agents/src/graph.ts:284-310 [descendants]. *)
Definition descendants g (parentAgentId : string) (query : DescendantQuery)
  : exc (list Agent) :=
  _ ← requireAgent g parentAgentId;
  state ← finished (visit g query (traversal_fuel g) parentAgentId ([parentAgentId], []));
  mret (rev state.2).

(** The [while] loop of [ancestors]; [lineage] is the array reversed.
    Source: packages/agents/src/graph.ts:318-329 [ancestors, loop]. *)
Fixpoint ancestors_loop g (fuel : nat) (visited : list string) (current : Agent)
  (lineage : list Agent) : option (exc (list Agent)) :=
  match fuel with
  | O => None
  | S fuel =>
      match a_parentAgentId current with
      | None => Some (Ok lineage)
      | Some parentId =>
          if bool_decide (parentId ∈ visited) then
          Some (Throw (InvariantViolationError
            "Agent graph ancestry encountered a cycle"))
          else
          match requireAgent g parentId with
          | Throw error => Some (Throw error)
          | Ok parent =>
              ancestors_loop g fuel (parentId :: visited) parent (parent :: lineage)
          end
      end
  end.

(** Source: packages/agents/src/graph.ts:313-332 [ancestors]. *)
Definition ancestors g (agentId : string) : exc (list Agent) :=
  current ← requireAgent g agentId;
  finished (ancestors_loop g (traversal_fuel g) [agentId] current []).

(** Source: packages/agents/src/graph.ts:335-357 [taskPath]. *)
Definition taskPath g (agentId : string) : exc AgentTaskPath :=
  lineage ← ancestors g agentId;
  agent ← requireAgent g agentId;
  let segments := map (fun agent => {| seg_agentId := a_id agent; seg_taskId := a_taskId agent |})
  (lineage ++ [agent]) in
  mret {| tp_agentIds := map seg_agentId segments;
   tp_taskIds := omap seg_taskId segments;
   tp_segments := segments;
   tp_key := String.concat "/"
   (map (fun segment => seg_agentId segment +:+ ":" +:+ (seg_taskId segment ?? "-"))
    segments) |}.

(** The [while] loop of [hasOpenAncestry].
    Source: packages/agents/src/graph.ts:381-394 [hasOpenAncestry, loop]. *)
Fixpoint hasOpenAncestry_loop g (fuel : nat) (visited : list string) (current : Agent)
  : option (exc bool) :=
  match fuel with
  | O => None
  | S fuel =>
      match a_parentAgentId current with
      | None => Some (Ok true)
      | Some parentId =>
          if bool_decide (a_id current ∈ visited) then
          Some (Throw (InvariantViolationError
            "Agent graph ancestry encountered a cycle"))
          else
          match jm_get (edgesByChild g) (a_id current) with
          | Some edge =>
              if e_state edge === edge_open then
              match requireAgent g parentId with
              | Throw error => Some (Throw error)
              | Ok parent => hasOpenAncestry_loop g fuel (a_id current :: visited) parent
              end
              else Some (Ok false)
          | None => Some (Ok false)
          end
      end
  end.

(** Source: packages/agents/src/graph.ts:377-397 [hasOpenAncestry]. *)
Definition hasOpenAncestry g (agentId : string) : exc bool :=
  current ← requireAgent g agentId;
  finished (hasOpenAncestry_loop g (traversal_fuel g) [] current).

(** The [while] loop of [assertAcyclicAncestry].
    Source: packages/agents/src/graph.ts:523-534 [assertAcyclicAncestry, loop]. *)
Fixpoint assertAcyclic_loop g (fuel : nat) (visited : list string) (current : Agent)
  : option (exc unit) :=
  match fuel with
  | O => None
  | S fuel =>
      match a_parentAgentId current with
      | None => Some (Ok tt)
      | Some parentId =>
          if bool_decide (a_id current ∈ visited) then
          Some (Throw (InvariantViolationError "Agent graph contains a parent cycle"))
          else
          match requireAgent g parentId with
          | Throw error => Some (Throw error)
          | Ok parent => assertAcyclic_loop g fuel (a_id current :: visited) parent
          end
      end
  end.

(** Source: packages/agents/src/graph.ts:520-535 [assertAcyclicAncestry]. *)
Definition assertAcyclicAncestry g (agentId : string) : exc unit :=
  current ← requireAgent g agentId;
  finished (assertAcyclic_loop g (traversal_fuel g) [] current).

(** [array.filter(f)] where [f] may throw. *)
Fixpoint filter_exc {A} (f : A -> exc bool) (l : list A) : exc (list A) :=
  match l with
  | [] => mret []
  | a :: r =>
      keep ← f a;
      rest ← filter_exc f r;
      mret (if keep : bool then a :: rest else rest)
  end.

(** [agents.sort((left, right) => taskPath(left).key.localeCompare(...))]: the
    keys, which the comparison recomputes, and the stable sort by them.  A sort
    of one element calls the comparison on no element.
    Source: packages/agents/src/graph.ts:371-373 [resumeCandidates, sort]. *)
Definition sort_by_taskPath g (agents : list Agent) : exc (list Agent) :=
  if (length agents <=? 1)%nat then mret agents
  else
  keyed ← map_exc (fun agent => path ← taskPath g (a_id agent);
   mret (tp_key path, agent)) agents;
  mret (sort_by (fun left right => localeCompare_le left.1 right.1) keyed).*2.

(** Source: packages/agents/src/graph.ts:363-375 [resumeCandidates]. *)
Definition resumeCandidates g (options : AgentResumeOptions) : exc (list Agent) :=
  let statuses := ro_statuses options ?? DEFAULT_RESUMABLE_AGENT_STATUSES in
  limit ← normalizeLimit (ro_limit options) "resume candidate limit";
  let includeClosedEdges := ro_includeClosedEdges options ?? false in
  candidates ←
  filter_exc (fun agent => if includeClosedEdges : bool then mret true
   else hasOpenAncestry g (a_id agent))
  (List.filter (fun agent => existsb (fun s => s === a_status agent) statuses)
   (listAgents g));
  sorted ← sort_by_taskPath g candidates;
  mret (slice_to limit sorted).

(** ** Changing the graph *)

(** Source: packages/agents/src/graph.ts:537-545 [assertAgentBelongsToRun]. *)
Definition assertAgentBelongsToRun agent : gm unit :=
  guarding (fun g => a_runId agent !== g_runId g) "Agent belongs to a different run".

(** The index entry of a parent after an edge is set. *)
Definition sibling_edges g edge : list AgentGraphEdge :=
  sort_by edge_child_le
  (List.filter (fun candidate => e_childAgentId candidate !== e_childAgentId edge)
   (jm_get (edgesByParent g) (e_parentAgentId edge) ?? []) ++ [edge]).

(** Source: packages/agents/src/graph.ts:547-569 [setEdge]. *)
Definition setEdge edge : gm unit :=
  _ ← guarding (fun g => match jm_get (edgesByChild g) (e_childAgentId edge) with
   | Some existing => e_parentAgentId existing !== e_parentAgentId edge
   | None => false
   end)
  "An agent cannot be re-parented through another spawn edge";
  setting (fun g => with_edges g
   (jm_set (edgesByChild g) (e_childAgentId edge) edge)
   (jm_set (edgesByParent g) (e_parentAgentId edge) (sibling_edges g edge))).

Definition setAgent agent : gm unit :=
  setting (fun g => with_agents g (jm_set (agentsById g) (a_id agent) agent)).

(** Source: packages/agents/src/graph.ts:106-122 [registerRoot]. *)
Definition registerRoot agent : gm Agent :=
  _ ← assertAgentBelongsToRun agent;
  _ ← guarding (fun _ => a_parentAgentId agent !== None)
  "A root agent must not declare a parent agent";
  _ ← guarding (fun g => jm_has (agentsById g) (a_id agent)) "Agent identity already exists";
  _ ← setAgent agent;
  mret agent.

(** The edge a spawn opens. *)
Definition spawn_edge (runId : string) (input : SpawnAgentInput) : AgentGraphEdge :=
  let openedAt := sp_openedAt input ?? a_spawnedAt (sp_agent input) in
  {| e_key := createAgentSpawnEdgeKey (sp_parentAgentId input) (a_id (sp_agent input));
   e_parentAgentId := sp_parentAgentId input;
   e_childAgentId := a_id (sp_agent input);
   e_runId := runId;
   e_taskId := a_taskId (sp_agent input);
   e_state := edge_open;
   e_closedAt := None; e_closeReason := None;
   e_createdAt := openedAt; e_updatedAt := openedAt |}.

(** Source: packages/agents/src/graph.ts:128-171 [spawn]. *)
Definition spawn (input : SpawnAgentInput) : gm AgentGraphEdge :=
  let agent := sp_agent input in
  _ ← assertAgentBelongsToRun agent;
  _ ← reading (fun g => requireAgent g (sp_parentAgentId input));
  _ ← guarding (fun g => jm_has (agentsById g) (a_id agent)) "Agent identity already exists";
  _ ← guarding (fun _ => a_id agent === sp_parentAgentId input) "An agent cannot spawn itself";
  _ ← guarding (fun _ => a_parentAgentId agent !== Some (sp_parentAgentId input))
  "Child agent parent does not match the spawn request";
  _ ← guarding (fun _ => match sp_taskId input with
   | Some taskId => Some taskId !== a_taskId agent
   | None => false
   end)
  "Spawn edge task must match the child task assignment";
  edge ← reading (fun g => mret (spawn_edge (g_runId g) input));
  _ ← setAgent agent;
  _ ← setEdge edge;
  mret edge.

Definition closed_edge edge (closedAt : string) (closeReason : option string)
  : AgentGraphEdge :=
  {| e_key := e_key edge; e_parentAgentId := e_parentAgentId edge;
   e_childAgentId := e_childAgentId edge; e_runId := e_runId edge;
   e_taskId := e_taskId edge; e_state := edge_closed; e_closedAt := Some closedAt;
   e_closeReason := match closeReason with
   | None => e_closeReason edge
   | Some reason => Some reason
   end;
   e_createdAt := e_createdAt edge; e_updatedAt := closedAt |}.

(** Source: packages/agents/src/graph.ts:177-204 [closeSpawnEdge]. *)
Definition closeSpawnEdge (childAgentId closedAt : string) (closeReason : option string)
  : gm AgentGraphEdge :=
  current ← reading (fun g =>
   match jm_get (edgesByChild g) childAgentId with
   | None => Throw (InvariantViolationError "Root agents do not have a spawn edge")
   | Some edge => mret edge
   end);
  if e_state current === edge_closed then mret current
  else
  let next := closed_edge current closedAt closeReason in
  _ ← setEdge next;
  mret next.

Definition moved_agent agent (status : AgentStatus) (updatedAt : string) : Agent :=
  {| a_id := a_id agent; a_runId := a_runId agent;
   a_parentAgentId := a_parentAgentId agent; a_taskId := a_taskId agent;
   a_role := a_role agent; a_status := status;
   a_sessionEpochIds := a_sessionEpochIds agent; a_worktreeUri := a_worktreeUri agent;
   a_permissions := a_permissions agent; a_sandbox := a_sandbox agent;
   a_spawnedAt := a_spawnedAt agent;
   a_closedAt := if status === agent_closed then Some updatedAt else a_closedAt agent;
   a_createdAt := a_createdAt agent; a_updatedAt := updatedAt |}.

(** Source: packages/agents/src/graph.ts:206-225 [transitionAgent]. *)
Definition transitionAgent (agentId : string) (status : AgentStatus) (updatedAt : string)
  : gm Agent :=
  current ← reading (fun g => requireAgent g agentId);
  if a_status current === status then mret current
  else
  _ ← reading (fun _ => assertAgentTransition (a_status current) status);
  let next := moved_agent current status updatedAt in
  _ ← setting (fun g => with_agents g (jm_set (agentsById g) agentId next));
  mret next.

(** Source: packages/agents/src/graph.ts:228-243 [resumeAgent]. *)
Definition resumeAgent (agentId updatedAt : string) : gm Agent :=
  current ← reading (fun g => requireAgent g agentId);
  _ ← guarding (fun _ => negb (isResumableAgentStatus (a_status current)))
  "Agent status is not resumable";
  open ← reading (fun g => hasOpenAncestry g agentId);
  _ ← guarding (fun _ => negb open)
  "An agent behind a closed spawn edge cannot be resumed automatically";
  transitionAgent agentId agent_queued updatedAt.

(** Source: packages/agents/src/graph.ts:245-247 [suspendAgent]. *)
Definition suspendAgent (agentId updatedAt : string) : gm Agent :=
  transitionAgent agentId agent_suspended updatedAt.

(** Source: packages/agents/src/graph.ts:249-251 [stopAgent]. *)
Definition stopAgent (agentId updatedAt : string) : gm Agent :=
  transitionAgent agentId agent_stopped updatedAt.

(** Source: packages/agents/src/graph.ts:254-264 [closeAgent]. *)
Definition closeAgent (agentId closedAt : string) (closeReason : option string) : gm Agent :=
  agent ← transitionAgent agentId agent_closed closedAt;
  owned ← reading (fun g => mret (jm_has (edgesByChild g) agentId));
  _ ← (if owned : bool then _ ← closeSpawnEdge agentId closedAt closeReason; mret tt
   else mret tt);
  mret agent.

(** ** Construction *)

(** Source: packages/agents/src/graph.ts:403-414 [addSnapshotAgent]. *)
Definition addSnapshotAgent agent : gm unit :=
  _ ← assertAgentBelongsToRun agent;
  _ ← guarding (fun g => jm_has (agentsById g) (a_id agent))
  "Agent identity appears more than once";
  setAgent agent.

(** Source: packages/agents/src/graph.ts:416-458 [addSnapshotEdge]. *)
Definition addSnapshotEdge edge : gm unit :=
  _ ← guarding (fun g => e_runId edge !== g_runId g) "Spawn edge belongs to a different run";
  _ ← guarding (fun _ => e_key edge !==
   createAgentSpawnEdgeKey (e_parentAgentId edge) (e_childAgentId edge))
  "Spawn edge key is not canonical";
  _ ← guarding (fun g => jm_has (edgesByChild g) (e_childAgentId edge))
  "An agent can have only one durable parent edge";
  _ ← guarding (fun _ => e_parentAgentId edge === e_childAgentId edge)
  "An agent cannot be its own parent";
  _ ← guarding (fun _ => (e_state edge === edge_closed) && (e_closedAt edge === None))
  "A closed spawn edge must record its close timestamp";
  _ ← guarding (fun _ => (e_state edge === edge_open) && (e_closedAt edge !== None))
  "An open spawn edge must not have a close timestamp";
  setEdge edge.

(** The checks of one agent against its spawn edge.
    Source: packages/agents/src/graph.ts:461-500 [assertTopology, agents]. *)
Definition assertAgentTopology g agent : exc unit :=
  match a_parentAgentId agent, jm_get (edgesByChild g) (a_id agent) with
  | None, Some _ => Throw (InvariantViolationError "A root agent must not have a spawn edge")
  | None, None => mret tt
  | Some parentAgentId, edge =>
      _ ← throw_if (negb (jm_has (agentsById g) parentAgentId))
      (InvariantViolationError "Agent parent is missing from graph");
      match edge with
      | None => Throw (InvariantViolationError
           "A non-root agent must have exactly one spawn edge")
      | Some edge =>
          _ ← throw_if (e_parentAgentId edge !== parentAgentId)
          (InvariantViolationError "Spawn edge parent differs from the agent parent");
          throw_if (e_taskId edge !== a_taskId agent)
          (InvariantViolationError
           "Spawn edge task differs from the agent task assignment")
      end
  end.

(** Source: packages/agents/src/graph.ts:502-513 [assertTopology, edges]. *)
Definition assertEdgeTopology g edge : exc unit :=
  _ ← throw_if (negb (jm_has (agentsById g) (e_parentAgentId edge)))
  (InvariantViolationError "Spawn edge parent is missing");
  throw_if (negb (jm_has (agentsById g) (e_childAgentId edge)))
  (InvariantViolationError "Spawn edge child is missing").

(** Source: packages/agents/src/graph.ts:460-518 [assertTopology]. *)
Definition assertTopology g : exc unit :=
  _ ← for_each (assertAgentTopology g) (jm_values (agentsById g));
  _ ← for_each (assertEdgeTopology g) (jm_values (edgesByChild g));
  for_each (fun agent => assertAcyclicAncestry g (a_id agent)) (jm_values (agentsById g)).

(** [for (const x of xs) method(x)] *)
Fixpoint each {A} (method : A -> gm unit) (xs : list A) : gm unit :=
  match xs with
  | [] => mret tt
  | x :: rest => _ ← method x; each method rest
  end.

(** The constructor on an object whose maps are empty; an exception leaves no
    object.
    Source: packages/agents/src/graph.ts:45-56 [AgentGraph.constructor]. *)
Definition new_AgentGraph (snapshot : AgentGraphSnapshot) : exc AgentGraph :=
  let build : gm unit :=
  _ ← each addSnapshotAgent (gs_agents snapshot);
  _ ← each addSnapshotEdge (gs_edges snapshot);
  reading assertTopology in
  match build {| g_runId := gs_runId snapshot; agentsById := [];
       edgesByChild := []; edgesByParent := [] |} with
  | (Ok _, g) => Ok g
  | (Throw error, _) => Throw error
  end.

(** Source: packages/agents/src/graph.ts:58-60 [AgentGraph.empty]. *)
Definition empty_graph (runId : string) : exc AgentGraph :=
  new_AgentGraph {| gs_runId := runId; gs_agents := []; gs_edges := [] |}.
End AgentGraph.
