(* ===== verification/AgentTopology.v ===== *)
(** The topology invariant of the agent graph: construction establishes it,
    every operation preserves it, a failed operation changes nothing, and
    ownership is durable. *)

From Stdlib Require Import ZArith Lia Sorted Permutation.
From stdpp Require Import base strings list relations.
From S2P Require Import Prelude JsNumber JsString JsCollections Protocol StateMachine.
From S2P Require Import AgentGraph.

Open Scope string_scope.
Open Scope list_scope.

(** ** The invariant *)

(** A spawn edge as the constructor accepts it. *)
Record edge_wf (runId : string) (edge : AgentGraphEdge) : Prop := {
   ew_run : e_runId edge = runId;
   ew_key : e_key edge = createAgentSpawnEdgeKey (e_parentAgentId edge) (e_childAgentId edge);
   ew_parent : e_parentAgentId edge <> e_childAgentId edge;
   ew_closed : e_state edge = edge_closed <-> e_closedAt edge <> None }.

(** What the two maps and the index always satisfy, also while a snapshot is
    being loaded. *)
Record maps_ok (g : AgentGraph) : Prop := {
   mo_agents : NoDup (jm_keys (agentsById g));
   mo_edges : NoDup (jm_keys (edgesByChild g));
   mo_agent : forall id a, jm_get (agentsById g) id = Some a -> a_id a = id /\ a_runId a = g_runId g;
   mo_edge : forall id e, jm_get (edgesByChild g) id = Some e ->
   e_childAgentId e = id /\ edge_wf (g_runId g) e;
   mo_index : forall p e, e ∈ (jm_get (edgesByParent g) p ?? []) <->
   jm_get (edgesByChild g) (e_childAgentId e) = Some e /\ e_parentAgentId e = p;
   mo_siblings : forall p, NoDup (map e_childAgentId (jm_get (edgesByParent g) p ?? [])) }.

(** The declared parent of an agent of the graph. *)
Definition parent_of (g : AgentGraph) (id : string) : option (option string) :=
  a_parentAgentId <$> jm_get (agentsById g) id.

(** The parents of an agent, the nearest first, ending at a root. *)
Inductive lineage (g : AgentGraph) : string -> list string -> Prop :=
  | lineage_root id : parent_of g id = Some None -> lineage g id []
  | lineage_child id p l : parent_of g id = Some (Some p) -> lineage g p l ->
  lineage g id (p :: l).

(** An agent and its incoming edge agree. *)
Definition linked (g : AgentGraph) (agent : Agent) : Prop :=
  match a_parentAgentId agent with
  | None => jm_get (edgesByChild g) (a_id agent) = None
  | Some p =>
      jm_has (agentsById g) p = true /\
      exists edge, jm_get (edgesByChild g) (a_id agent) = Some edge /\
      e_parentAgentId edge = p /\ e_taskId edge = a_taskId agent
  end.

(** One parent each, no dangling edge, no cycle. *)
Record topology_ok (g : AgentGraph) : Prop := {
   to_linked : forall id a, jm_get (agentsById g) id = Some a -> linked g a;
   to_ends : forall id e, jm_get (edgesByChild g) id = Some e ->
   jm_has (agentsById g) (e_parentAgentId e) = true /\
   jm_has (agentsById g) (e_childAgentId e) = true;
   to_acyclic : forall id, jm_has (agentsById g) id = true -> exists l, lineage g id l }.

Record graph_ok (g : AgentGraph) : Prop := {
   go_maps :> maps_ok g;
   go_topology :> topology_ok g }.

(** ** Lineages *)

Lemma jm_has_get {V} (m : jsmap string V) k :
  jm_has m k = true <-> exists v, jm_get m k = Some v.
Proof.
  unfold jm_has. destruct (jm_get m k); split; [eauto|done|done|by intros [? ?]].
Qed.

Lemma jm_has_none {V} (m : jsmap string V) k : jm_has m k = false <-> jm_get m k = None.
Proof. unfold jm_has. by destruct (jm_get m k). Qed.

Lemma parent_of_some g id p :
  parent_of g id = Some p <->
  exists a, jm_get (agentsById g) id = Some a /\ a_parentAgentId a = p.
Proof. unfold parent_of. rewrite fmap_Some. split; intros (a & ? & ?); eauto. Qed.

Lemma parent_of_has g id p : parent_of g id = Some p -> jm_has (agentsById g) id = true.
Proof. rewrite parent_of_some. intros (a & Ha & _). apply jm_has_get. eauto. Qed.

Lemma lineage_unique g id l l' : lineage g id l -> lineage g id l' -> l = l'.
Proof.
  intros H. revert l'. induction H as [id Hp|id p l Hp _ IH]; intros l' H';
    inversion H'; subst; try congruence.
  simplify_eq. f_equal. apply IH. congruence.
Qed.

Lemma lineage_has g id l : lineage g id l -> jm_has (agentsById g) id = true.
Proof. by intros [? ?%parent_of_has|? ? ? ?%parent_of_has]. Qed.

(** Every parent has a strictly shorter lineage. *)
Lemma lineage_shorter g id l x : lineage g id l -> x ∈ l ->
  exists l', lineage g x l' /\ length l' < length l.
Proof.
  induction 1 as [|id p l Hp Hl IH]; [by intros ?%not_elem_of_nil|].
  intros [->|Hx]%elem_of_cons; [exists l; split; [done|]; simpl; lia|].
  destruct (IH Hx) as (l' & ? & ?). exists l'. split; [done|]. simpl. lia.
Qed.

Lemma lineage_irrefl g id l : lineage g id l -> id ∉ l.
Proof.
  intros Hl Hin. destruct (lineage_shorter _ _ _ _ Hl Hin) as (l' & Hl' & Hlt).
  rewrite (lineage_unique _ _ _ _ Hl Hl') in Hlt. lia.
Qed.

Lemma lineage_mono g g' id l :
  (forall x p, parent_of g x = Some p -> parent_of g' x = Some p) ->
  lineage g id l -> lineage g' id l.
Proof. intros Hm. induction 1; econstructor; eauto. Qed.

(** ** The primitive updates *)

Section Updates.
Variable localeCompare_le : string -> string -> bool.

Implicit Types (g : AgentGraph) (agent : Agent) (edge : AgentGraphEdge).

Definition put_agent g agent : AgentGraph :=
  with_agents g (jm_set (agentsById g) (a_id agent) agent).

Definition put_edge g edge : AgentGraph :=
  with_edges g (jm_set (edgesByChild g) (e_childAgentId edge) edge)
  (jm_set (edgesByParent g) (e_parentAgentId edge) (sibling_edges localeCompare_le g edge)).

Lemma put_agent_maps g agent : maps_ok g -> a_runId agent = g_runId g ->
  maps_ok (put_agent g agent).
Proof.
  intros [Ha He Hag Hed Hix Hsi] Hrun. split; cbn [put_agent with_agents agentsById
    edgesByChild edgesByParent g_runId]; auto with s2p.
  intros id a. rewrite jm_get_set. case_decide; [intros [= <-]; subst; done|]. apply Hag.
Qed.

Lemma sibling_edges_elem g edge x : maps_ok g ->
  x ∈ sibling_edges localeCompare_le g edge <->
  x = edge \/
  (jm_get (edgesByChild g) (e_childAgentId x) = Some x /\
   e_parentAgentId x = e_parentAgentId edge /\ e_childAgentId x <> e_childAgentId edge).
Proof.
  intros Hg. unfold sibling_edges.
  rewrite sort_by_elem, elem_of_app, elem_of_list_filter, list_elem_of_singleton, (mo_index _ Hg).
  rewrite negb_true_iff, bool_decide_eq_false. tauto.
Qed.

Lemma sibling_edges_NoDup g edge : maps_ok g ->
  NoDup (map e_childAgentId (sibling_edges localeCompare_le g edge)).
Proof.
  intros Hg. unfold sibling_edges. rewrite sort_by_Permutation, map_app. apply NoDup_app.
  split; [|split; [|apply NoDup_singleton]].
  - apply NoDup_map_filter, mo_siblings, Hg.
  - intros x (y & -> & Hin)%list_elem_of_fmap Hx. apply elem_of_list_filter in Hin as [_ Hin].
    cbn [map] in Hx. apply list_elem_of_singleton in Hx. bool_hyps. done.
Qed.

Lemma put_edge_maps g edge : maps_ok g -> edge_wf (g_runId g) edge ->
  (forall e, jm_get (edgesByChild g) (e_childAgentId edge) = Some e ->
   e_parentAgentId e = e_parentAgentId edge) ->
  maps_ok (put_edge g edge).
Proof.
  intros Hg Hw Hsame. pose proof Hg as [Ha He Hag Hed Hix Hsi].
  split; cbn [put_edge with_edges agentsById edgesByChild edgesByParent g_runId]; auto with s2p.
  - intros id e. rewrite jm_get_set. case_decide; [intros [= <-]; subst; done|]. apply Hed.
  - intros p e. rewrite !jm_get_set. destruct (decide (e_parentAgentId edge = p)) as [<-|Hp].
    + cbn [or_else]. rewrite sibling_edges_elem by done. case_decide as Hc.
      * split; [intros [->|(_ & _ & ?)]; [done|congruence]|intros [[= ->] _]; auto].
      * split; [intros [->|(? & ? & _)]; [done|auto]|intros [? ?]; right; auto].
    + rewrite Hix. case_decide as Hc; [|done]. split.
      * intros [Hget <-]. destruct Hp. rewrite <- Hc in Hget. symmetry. eauto.
      * intros [[= ->] ?]. done.
  - intros p. rewrite jm_get_set. case_decide; [|apply Hsi]. by apply sibling_edges_NoDup.
Qed.

(** *** Roots and children join, agents move, edges close *)

Lemma put_agent_parent_new g agent x p :
  jm_get (agentsById g) (a_id agent) = None ->
  parent_of g x = Some p -> parent_of (put_agent g agent) x = Some p.
Proof.
  rewrite !parent_of_some. intros Hf (a & Ha & Hp). exists a. split; [|done].
  cbn. rewrite jm_get_set_ne; [done|]. intros <-. congruence.
Qed.

Lemma put_agent_has g agent id :
  jm_has (agentsById (put_agent g agent)) id = (a_id agent === id) || jm_has (agentsById g) id.
Proof.
  unfold jm_has at 1. cbn [put_agent with_agents agentsById]. rewrite jm_get_set. case_decide.
  - by rewrite bool_decide_eq_true_2.
  - by rewrite bool_decide_eq_false_2.
Qed.

Lemma linked_mono g g' agent :
  (forall id, jm_has (agentsById g) id = true -> jm_has (agentsById g') id = true) ->
  jm_get (edgesByChild g') (a_id agent) = jm_get (edgesByChild g) (a_id agent) ->
  linked g agent -> linked g' agent.
Proof.
  intros Hh He. unfold linked. rewrite He. destruct (a_parentAgentId agent); [|done].
  intros [? ?]. auto.
Qed.

(** No edge leads to an agent that is not there. *)
Lemma fresh_no_edge g id : graph_ok g -> jm_get (agentsById g) id = None ->
  jm_get (edgesByChild g) id = None.
Proof.
  intros [Hm Ht] Hf. destruct (jm_get (edgesByChild g) id) as [e|] eqn:E; [|done].
  destruct (to_ends _ Ht _ _ E) as [_ Hc]. destruct (mo_edge _ Hm _ _ E) as [Hid _]. rewrite Hid in Hc.
  apply jm_has_none in Hf. congruence.
Qed.

Lemma put_root_ok g agent : graph_ok g -> a_runId agent = g_runId g ->
  a_parentAgentId agent = None -> jm_get (agentsById g) (a_id agent) = None ->
  graph_ok (put_agent g agent).
Proof.
  intros Hg Hrun Hroot Hf. pose proof Hg as [Hm Ht]. split; [by apply put_agent_maps|].
  split.
  - intros id a. cbn [put_agent with_agents agentsById]. rewrite jm_get_set. case_decide.
    + intros [= <-]. unfold linked. rewrite Hroot. by apply (fresh_no_edge g).
    + intros Ha. eapply (linked_mono g); [|done|eapply to_linked; eauto].
      intros i Hi. rewrite put_agent_has, Hi. apply orb_true_r.
  - intros id e He. destruct (to_ends _ Ht _ _ He). rewrite !put_agent_has.
    split; apply orb_true_intro; auto.
  - intros id. rewrite put_agent_has. intros [Heq|Hin]%orb_true_iff.
    + bool_hyps. subst id. exists []. constructor. apply parent_of_some. exists agent.
      split; [|done]. cbn. apply jm_get_set_eq.
    + destruct (to_acyclic _ Ht _ Hin) as [l Hl]. exists l.
      eapply lineage_mono; [|exact Hl]. intros. by apply put_agent_parent_new.
Qed.

Lemma put_child_ok g agent edge p : graph_ok g -> a_runId agent = g_runId g ->
  a_parentAgentId agent = Some p -> jm_has (agentsById g) p = true ->
  jm_get (agentsById g) (a_id agent) = None ->
  edge_wf (g_runId g) edge -> e_childAgentId edge = a_id agent -> e_parentAgentId edge = p ->
  e_taskId edge = a_taskId agent ->
  graph_ok (put_edge (put_agent g agent) edge).
Proof.
  intros Hg Hrun Hpar Hp Hf Hw Hchild Hparent Htask. pose proof Hg as [Hm Ht].
  pose proof (fresh_no_edge _ _ Hg Hf) as Hne. split.
  { apply put_edge_maps; [by apply put_agent_maps|done|]. cbn. rewrite Hchild. congruence. }
  assert (forall id, jm_has (agentsById g) id = true ->
    jm_has (agentsById (put_edge (put_agent g agent) edge)) id = true) as Hmono.
  { intros id Hid. change (jm_has (agentsById (put_agent g agent)) id = true).
    rewrite put_agent_has. apply orb_true_intro. auto. }
  assert (jm_has (agentsById (put_edge (put_agent g agent) edge)) (a_id agent) = true) as Hself.
  { change (jm_has (agentsById (put_agent g agent)) (a_id agent) = true).
    rewrite put_agent_has, bool_decide_eq_true_2; done. }
  assert (forall x q, parent_of g x = Some q ->
    parent_of (put_edge (put_agent g agent) edge) x = Some q) as Hpmono.
  { intros. by apply (put_agent_parent_new g agent). }
  split.
  - intros id a. cbn [put_edge put_agent with_edges with_agents agentsById].
    rewrite jm_get_set. case_decide as Hid.
    + intros [= <-]. unfold linked. rewrite Hpar. split; [auto|].
      exists edge. split; [|done]. cbn. rewrite Hchild. apply jm_get_set_eq.
    + intros Ha. destruct (mo_agent _ Hm _ _ Ha) as [Hia _].
      eapply (linked_mono g); [done| |eapply to_linked; eauto].
      cbn. rewrite jm_get_set_ne; [done|]. rewrite Hchild, Hia. done.
  - intros id e. cbn [put_edge put_agent with_edges with_agents edgesByChild].
    rewrite jm_get_set. case_decide.
    + intros [= <-]. rewrite Hchild, Hparent. auto.
    + intros He. destruct (to_ends _ Ht _ _ He). auto.
  - intros id. change (jm_has (agentsById (put_agent g agent)) id = true ->
      exists l, lineage (put_edge (put_agent g agent) edge) id l).
    rewrite put_agent_has. intros [Heq|Hin]%orb_true_iff.
    + bool_hyps. subst id. destruct (to_acyclic _ Ht _ Hp) as [l Hl]. exists (p :: l).
      econstructor; [|by eapply lineage_mono]. apply parent_of_some. exists agent.
      split; [|done]. cbn. apply jm_get_set_eq.
    + destruct (to_acyclic _ Ht _ Hin) as [l Hl]. exists l. by eapply lineage_mono.
Qed.

Lemma put_moved_ok g old new : graph_ok g -> jm_get (agentsById g) (a_id old) = Some old ->
  a_id new = a_id old -> a_runId new = a_runId old ->
  a_parentAgentId new = a_parentAgentId old -> a_taskId new = a_taskId old ->
  graph_ok (put_agent g new).
Proof.
  intros Hg Hold Hid Hrun Hpar Htask. pose proof Hg as [Hm Ht].
  destruct (mo_agent _ Hm _ _ Hold) as [_ Hr].
  assert (forall id, jm_has (agentsById (put_agent g new)) id = jm_has (agentsById g) id) as Hhas.
  { intros id. rewrite put_agent_has. destruct (decide (a_id new = id)) as [<-|].
    - rewrite bool_decide_eq_true_2 by done. symmetry. apply jm_has_get. rewrite Hid. eauto.
    - by rewrite bool_decide_eq_false_2. }
  assert (forall x q, parent_of g x = Some q -> parent_of (put_agent g new) x = Some q) as Hp.
  { intros x q. rewrite !parent_of_some. intros (a & Ha & Hq). cbn.
    destruct (decide (a_id new = x)) as [<-|Hne].
    - exists new. rewrite jm_get_set_eq. split; [done|]. rewrite Hid in Ha. congruence.
    - exists a. by rewrite jm_get_set_ne. }
  split; [apply put_agent_maps; [done|congruence]|]. split.
  - intros id a. cbn [put_agent with_agents agentsById]. rewrite jm_get_set. case_decide.
    + intros [= <-]. pose proof (to_linked _ Ht _ _ Hold) as Hl. revert Hl. unfold linked.
      rewrite Hpar, Hid, Htask. destruct (a_parentAgentId old); [|done]. by rewrite Hhas.
    + intros Ha. eapply (linked_mono g); [by intros; rewrite Hhas|done|].
      eapply to_linked; eauto.
  - intros id e He. rewrite !Hhas. by eapply to_ends.
  - intros id. rewrite Hhas. intros [l Hl]%(to_acyclic _ Ht). exists l. by eapply lineage_mono.
Qed.

Lemma put_closed_ok g old new : graph_ok g ->
  jm_get (edgesByChild g) (e_childAgentId old) = Some old ->
  e_childAgentId new = e_childAgentId old -> e_parentAgentId new = e_parentAgentId old ->
  e_taskId new = e_taskId old -> edge_wf (g_runId g) new ->
  graph_ok (put_edge g new).
Proof.
  intros Hg Hold Hc Hp Ht Hw. pose proof Hg as [Hm Htop]. split.
  { apply put_edge_maps; [done|done|]. rewrite Hc. congruence. }
  split.
  - intros id a Ha. pose proof (to_linked _ Htop _ _ Ha) as Hl. revert Hl. unfold linked. cbn.
    destruct (a_parentAgentId a) as [p|].
    + intros (Hp' & e & He & Hep & Het). split; [done|]. rewrite jm_get_set, Hc.
      case_decide as Hd; [|eauto]. exists new. rewrite Hd in Hold.
      assert (e = old) as -> by congruence. split; [done|]. by rewrite Hp, Ht.
    + intros Hn. rewrite jm_get_set, Hc. case_decide as Hd; [|done]. congruence.
  - intros id e. cbn. rewrite jm_get_set, Hc. case_decide.
    + intros [= <-]. rewrite Hp, Hc. by eapply to_ends.
    + by apply (to_ends _ Htop).
  - intros id. cbn. intros [l Hl]%(to_acyclic _ Htop). exists l. by apply (lineage_mono g).
Qed.

(** ** Operations *)

(** What no operation takes back: an agent keeps its identity, parent and task
    and moves along the lifecycle table; an edge keeps its ends, and a closed
    edge stays as it was closed. *)
Record evolves (g g' : AgentGraph) : Prop := {
   ev_run : g_runId g' = g_runId g;
   ev_agent : forall id a, jm_get (agentsById g) id = Some a ->
   exists a', jm_get (agentsById g') id = Some a' /\
   a_parentAgentId a' = a_parentAgentId a /\ a_taskId a' = a_taskId a /\
   rtc (fun from to => canTransitionAgent from to = true) (a_status a) (a_status a');
   ev_edge : forall id e, jm_get (edgesByChild g) id = Some e ->
   exists e', jm_get (edgesByChild g') id = Some e' /\
   e_key e' = e_key e /\ e_parentAgentId e' = e_parentAgentId e /\
   e_taskId e' = e_taskId e /\ e_createdAt e' = e_createdAt e /\
   (e_state e = edge_closed -> e' = e) }.

#[export] Instance evolves_preorder : PreOrder evolves.
Proof.
  split.
  - intros g. split; eauto 10.
    intros id a Ha. exists a. by repeat split.
  - intros g1 g2 g3 [Hr Ha He] [Hr' Ha' He']. split; [congruence| |].
    + intros id a (a2 & H2 & Hp & Ht & Hs)%Ha. destruct (Ha' _ _ H2) as (a3 & ? & ? & ? & ?).
      exists a3. repeat split; try congruence. by etrans.
    + intros id e (e2 & H2 & Hk & Hp & Ht & Hc & Hcl)%He.
      destruct (He' _ _ H2) as (e3 & ? & ? & ? & ? & ? & Hcl').
      exists e3. repeat split; try congruence. intros Hst. specialize (Hcl Hst). subst e2. auto.
Qed.

Lemma evolves_put_agent g agent :
  (forall a, jm_get (agentsById g) (a_id agent) = Some a ->
   a_parentAgentId agent = a_parentAgentId a /\ a_taskId agent = a_taskId a /\
   rtc (fun from to => canTransitionAgent from to = true) (a_status a) (a_status agent)) ->
  evolves g (put_agent g agent).
Proof.
  intros Hsame. split; [done| |].
  - intros id a Ha. cbn. rewrite jm_get_set. case_decide as Hd.
    + subst id. exists agent. split; [done|]. by apply Hsame.
    + exists a. by repeat split.
  - intros id e He. exists e. done.
Qed.

Lemma evolves_put_edge g edge :
  (forall e, jm_get (edgesByChild g) (e_childAgentId edge) = Some e ->
   e_key edge = e_key e /\ e_parentAgentId edge = e_parentAgentId e /\
   e_taskId edge = e_taskId e /\ e_createdAt edge = e_createdAt e /\
   e_state e <> edge_closed) ->
  evolves g (put_edge g edge).
Proof.
  intros Hsame. split; [done| |].
  - intros id a Ha. exists a. by repeat split.
  - intros id e He. cbn. rewrite jm_get_set. case_decide as Hd.
    + subst id. exists edge. split; [done|].
      destruct (Hsame _ He) as (? & ? & ? & ? & ?). repeat split; done.
    + exists e. done.
Qed.

(** A computation that keeps the invariant and ownership, and that changes
    nothing when it throws. *)
Definition sound {A} (m : gm A) (g : AgentGraph) : Prop :=
  match m g with
  | (Ok _, g') => graph_ok g' /\ evolves g g'
  | (Throw _, g') => g' = g
  end.

Lemma sound_ret {A} (a : A) g : graph_ok g -> sound (mret a) g.
Proof. by split. Qed.

(** A check in front of a sound computation. *)
Lemma sound_reading {A B} (f : AgentGraph -> exc A) (k : A -> gm B) g :
  (forall a, f g = Ok a -> sound (k a) g) -> sound (reading f ≫= k) g.
Proof.
  unfold sound, mbind, gm_bind, reading. intros H. destruct (f g) as [a|e]; [|done].
  exact (H a eq_refl).
Qed.

Lemma sound_guarding {B} c message (k : unit -> gm B) g :
  (c g = false -> sound (k tt) g) -> sound (guarding c message ≫= k) g.
Proof. intros H. apply sound_reading. intros [] Hc%throw_if_ok. auto. Qed.

(** A last write that is followed by a return. *)
Lemma sound_setting {B} f (b : B) g :
  graph_ok (f g) -> evolves g (f g) -> sound (setting f ≫= fun _ => mret b) g.
Proof. by split. Qed.

Lemma setEdge_run g edge :
  (forall e, jm_get (edgesByChild g) (e_childAgentId edge) = Some e ->
   e_parentAgentId e = e_parentAgentId edge) ->
  setEdge localeCompare_le edge g = (Ok tt, put_edge g edge).
Proof.
  intros Hsame. unfold setEdge, mbind, gm_bind, guarding, reading, setting.
  destruct (jm_get (edgesByChild g) (e_childAgentId edge)) as [e|] eqn:E; [|done].
  rewrite bool_decide_eq_true_2; [done|]. auto.
Qed.

Lemma registerRoot_sound g agent : graph_ok g -> sound (registerRoot agent) g.
Proof.
  intros Hg. unfold registerRoot, assertAgentBelongsToRun.
  do 3 (apply sound_guarding; intros ?). bool_hyps.
  assert (jm_get (agentsById g) (a_id agent) = None) as Hf by by apply jm_has_none.
  apply sound_setting; [by apply put_root_ok|].
  apply evolves_put_agent. congruence.
Qed.

Lemma requireAgent_ok g id a :
  requireAgent g id = Ok a <-> jm_get (agentsById g) id = Some a.
Proof.
  unfold requireAgent. destruct (jm_get (agentsById g) id); split; intros [= ->]; done.
Qed.

Lemma spawn_edge_wf runId input : a_id (sp_agent input) <> sp_parentAgentId input ->
  edge_wf runId (spawn_edge runId input).
Proof. intros Hne. split; cbn; [done|done|congruence|]. split; [done|by intros []]. Qed.

Lemma spawn_sound g input : graph_ok g -> sound (spawn localeCompare_le input) g.
Proof.
  intros Hg. unfold spawn, assertAgentBelongsToRun.
  apply sound_guarding; intros Hrun.
  apply sound_reading; intros parent Hparent%requireAgent_ok.
  apply sound_guarding; intros Hfresh%jm_has_none.
  apply sound_guarding; intros Hself. apply sound_guarding; intros Hpar.
  apply sound_guarding; intros _. apply sound_reading; intros edge [= <-]. bool_hyps.
  assert (jm_has (agentsById g) (sp_parentAgentId input) = true) as Hhas
    by (apply jm_has_get; eauto).
  pose proof (fresh_no_edge _ _ Hg Hfresh) as Hne.
  unfold sound, mbind, gm_bind, setAgent, setting. fold (put_agent g (sp_agent input)).
  rewrite setEdge_run by (cbn; congruence).
  cbn [mret gm_ret]. split.
  - by apply (put_child_ok g _ _ (sp_parentAgentId input)).
  - etrans; [apply (evolves_put_agent g (sp_agent input)); congruence|]. apply evolves_put_edge. cbn. congruence.
Qed.

Lemma closed_edge_wf runId e closedAt reason : edge_wf runId e ->
  edge_wf runId (closed_edge e closedAt reason).
Proof. intros [? ? ? ?]. by split. Qed.

Lemma closeSpawnEdge_run g id e closedAt reason : graph_ok g ->
  jm_get (edgesByChild g) id = Some e ->
  exists e' g', closeSpawnEdge localeCompare_le id closedAt reason g = (Ok e', g') /\
  graph_ok g' /\ evolves g g'.
Proof.
  intros Hg He. destruct (mo_edge _ Hg _ _ He) as [Hid Hw].
  unfold closeSpawnEdge, mbind, gm_bind at 1, reading. rewrite He. cbn [mret result_ret].
  case_bool_decide as Hst; [by exists e, g|].
  exists (closed_edge e closedAt reason), (put_edge g (closed_edge e closedAt reason)).
  unfold gm_bind. rewrite setEdge_run by (cbn; rewrite Hid; congruence).
  split; [done|]. split.
  - apply (put_closed_ok g e); try done; [congruence|]. by apply closed_edge_wf.
  - apply evolves_put_edge. cbn. rewrite Hid. intros e' He'. assert (e' = e) as -> by congruence.
    done.
Qed.

Lemma closeSpawnEdge_sound g id closedAt reason : graph_ok g ->
  sound (closeSpawnEdge localeCompare_le id closedAt reason) g.
Proof.
  intros Hg. unfold sound. destruct (jm_get (edgesByChild g) id) as [e|] eqn:E.
  - by destruct (closeSpawnEdge_run _ _ _ closedAt reason Hg E) as (e' & g' & -> & ? & ?).
  - unfold closeSpawnEdge, mbind, gm_bind, reading. by rewrite E.
Qed.

Lemma transitionAgent_sound g id status updatedAt : graph_ok g ->
  sound (transitionAgent id status updatedAt) g.
Proof.
  intros Hg. unfold transitionAgent.
  apply sound_reading. intros a Ha%requireAgent_ok. case_bool_decide; [by apply sound_ret|].
  apply sound_reading. intros [] Hcan%assertTransition_ok.
  destruct (mo_agent _ Hg _ _ Ha) as [Hid _]. subst id. apply sound_setting.
  - by apply (put_moved_ok g a (moved_agent a status updatedAt)).
  - apply (evolves_put_agent g (moved_agent a status updatedAt)). cbn. intros a' Ha'.
    assert (a' = a) as -> by congruence. repeat split; try done. by apply rtc_once.
Qed.

Lemma resumeAgent_sound g id updatedAt : graph_ok g -> sound (resumeAgent id updatedAt) g.
Proof.
  intros Hg. unfold resumeAgent. apply sound_reading. intros a _.
  apply sound_guarding; intros _. apply sound_reading; intros open _.
  apply sound_guarding; intros _. by apply transitionAgent_sound.
Qed.

Lemma closeAgent_sound g id closedAt reason : graph_ok g ->
  sound (closeAgent localeCompare_le id closedAt reason) g.
Proof.
  intros Hg. pose proof (transitionAgent_sound g id agent_closed closedAt Hg) as Ht.
  unfold sound in *. unfold closeAgent, mbind. unfold gm_bind at 1.
  destruct (transitionAgent id agent_closed closedAt g) as [[a|error] g1]; [|done].
  destruct Ht as [Hg1 He1]. unfold gm_bind, reading. cbn [mret result_ret]. unfold jm_has.
  destruct (jm_get (edgesByChild g1) id) as [e|] eqn:E; [|done].
  destruct (closeSpawnEdge_run _ _ _ closedAt reason Hg1 E) as (e' & g' & -> & ? & ?).
  split; [done|]. by etrans.
Qed.

(** The operations of the class that change it. *)
Inductive graph_op : Type :=
  | op_registerRoot (agent : Agent)
  | op_spawn (input : SpawnAgentInput)
  | op_closeSpawnEdge (childAgentId closedAt : string) (closeReason : option string)
  | op_transitionAgent (agentId : string) (status : AgentStatus) (updatedAt : string)
  | op_resumeAgent (agentId updatedAt : string)
  | op_suspendAgent (agentId updatedAt : string)
  | op_stopAgent (agentId updatedAt : string)
  | op_closeAgent (agentId closedAt : string) (closeReason : option string).

Definition run_op (op : graph_op) : gm unit :=
  match op with
  | op_registerRoot agent => _ ← registerRoot agent; mret tt
  | op_spawn input => _ ← spawn localeCompare_le input; mret tt
  | op_closeSpawnEdge id closedAt reason =>
      _ ← closeSpawnEdge localeCompare_le id closedAt reason; mret tt
  | op_transitionAgent id status updatedAt => _ ← transitionAgent id status updatedAt; mret tt
  | op_resumeAgent id updatedAt => _ ← resumeAgent id updatedAt; mret tt
  | op_suspendAgent id updatedAt => _ ← suspendAgent id updatedAt; mret tt
  | op_stopAgent id updatedAt => _ ← stopAgent id updatedAt; mret tt
  | op_closeAgent id closedAt reason =>
      _ ← closeAgent localeCompare_le id closedAt reason; mret tt
  end.

Lemma sound_discard {A} (m : gm A) g : sound m g -> sound (_ ← m; mret tt) g.
Proof. unfold sound, mbind, gm_bind. by destruct (m g) as [[a|e] g']. Qed.

Lemma run_op_sound g op : graph_ok g -> sound (run_op op) g.
Proof.
  intros Hg. destruct op; apply sound_discard;
    eauto using registerRoot_sound, spawn_sound, closeSpawnEdge_sound,
    transitionAgent_sound, resumeAgent_sound, closeAgent_sound;
    by apply transitionAgent_sound.
Qed.

(** One call, whatever it returns. *)
Definition graph_step (g g' : AgentGraph) : Prop := exists op, g' = (run_op op g).2.

Lemma graph_step_sound g g' : graph_ok g -> graph_step g g' -> graph_ok g' /\ evolves g g'.
Proof.
  intros Hg [op ->]. pose proof (run_op_sound g op Hg) as Hs. unfold sound in Hs.
  destruct (run_op op g) as [[[]|e] g']; cbn; [done|]. by subst g'.
Qed.

Lemma graph_steps_sound g g' : graph_ok g -> rtc graph_step g g' -> graph_ok g' /\ evolves g g'.
Proof.
  intros Hg Hs. induction Hs as [g|g1 g2 g3 H12 _ IH]; [done|].
  destruct (graph_step_sound _ _ Hg H12) as [Hg2 He]. destruct (IH Hg2). split; [done|]. by etrans.
Qed.
End Updates.
