(* ===== verification/AgentTraversal.v ===== *)
(** The traversals of the agent graph: the loops over parents and children end
    on every graph, also one with a cycle, and on a well-formed graph they
    return the parents and the descendants of the agent. *)

From Stdlib Require Import ZArith Lia Sorted Permutation.
From stdpp Require Import base strings list relations.
From S2P Require Import Prelude JsNumber JsString JsCollections Protocol StateMachine.
From S2P Require Import AgentGraph.
From S2P Require Import AgentTopology.

Open Scope string_scope.
Open Scope list_scope.

Implicit Types (g : AgentGraph) (agent : Agent) (edge : AgentGraphEdge).

(** The agents are stored under their identities. *)
Definition keyed g : Prop :=
  NoDup (jm_keys (agentsById g)) /\
  forall id a, jm_get (agentsById g) id = Some a -> a_id a = id.

Lemma maps_keyed g : maps_ok g -> keyed g.
Proof. intros Hg. split; [apply Hg|]. intros id a Ha. by apply (mo_agent _ Hg). Qed.

(** ** Termination: the visited set grows within the agents *)

Definition visited_ok g (visited : list string) : Prop :=
  NoDup visited /\ forall id, id ∈ visited -> jm_has (agentsById g) id = true.

Lemma visited_bound g visited : visited_ok g visited ->
  length visited <= length (agentsById g).
Proof.
  intros [Hn Hin]. rewrite <- (length_fmap fst (agentsById g)).
  apply NoDup_incl_length; [by apply NoDup_ListNoDup|].
  intros x Hx. apply list_elem_of_In, jm_has_elem, Hin. by apply list_elem_of_In.
Qed.

Lemma visited_cons g id visited : visited_ok g visited -> id ∉ visited ->
  jm_has (agentsById g) id = true -> visited_ok g (id :: visited).
Proof.
  intros [Hn Hin] Hid Hhas. split; [by constructor|].
  intros x [->|Hx]%elem_of_cons; auto.
Qed.

Lemma visited_one g id a : jm_get (agentsById g) id = Some a -> visited_ok g [id].
Proof.
  intros Ha. apply visited_cons; [|by apply not_elem_of_nil|apply jm_has_get; eauto].
  split; [constructor|]. by intros x ?%not_elem_of_nil.
Qed.

Lemma requireAgent_has g id a : requireAgent g id = Ok a -> jm_has (agentsById g) id = true.
Proof. rewrite requireAgent_ok, jm_has_get. eauto. Qed.

Ltac no_fuel :=
  match goal with
  | H : visited_ok _ _ |- _ => pose proof (visited_bound _ _ H); exfalso; lia
  end.

Lemma ancestors_loop_ends g fuel visited current acc : visited_ok g visited ->
  length (agentsById g) < fuel + length visited ->
  exists r, ancestors_loop g fuel visited current acc = Some r.
Proof.
  revert visited current acc. induction fuel as [|fuel IH]; intros visited current acc Hv Hf;
    [no_fuel|].
  cbn. destruct (a_parentAgentId current) as [p|]; [|eauto].
  case_bool_decide as Hp; [eauto|].
  destruct (requireAgent g p) as [parent|] eqn:E; [|eauto].
  apply IH; [apply visited_cons; eauto using requireAgent_has|]. simpl. lia.
Qed.

(** The loops that mark the current agent: it is one of the graph. *)
Lemma assertAcyclic_loop_ends g fuel visited current : keyed g -> visited_ok g visited ->
  jm_get (agentsById g) (a_id current) = Some current ->
  length (agentsById g) < fuel + length visited ->
  exists r, assertAcyclic_loop g fuel visited current = Some r.
Proof.
  intros [_ Hk]. revert visited current.
  induction fuel as [|fuel IH]; intros visited current Hv Hc Hf; [no_fuel|].
  cbn. destruct (a_parentAgentId current) as [p|]; [|eauto].
  case_bool_decide as Hp; [eauto|].
  destruct (requireAgent g p) as [parent|] eqn:E; [|eauto].
  apply requireAgent_ok in E. pose proof (Hk _ _ E) as Hid. apply IH; [|congruence|simpl; lia].
  apply visited_cons; [done|done|]. apply jm_has_get; eauto.
Qed.

Lemma hasOpenAncestry_loop_ends g fuel visited current : keyed g -> visited_ok g visited ->
  jm_get (agentsById g) (a_id current) = Some current ->
  length (agentsById g) < fuel + length visited ->
  exists r, hasOpenAncestry_loop g fuel visited current = Some r.
Proof.
  intros [_ Hk]. revert visited current.
  induction fuel as [|fuel IH]; intros visited current Hv Hc Hf; [no_fuel|].
  cbn. destruct (a_parentAgentId current) as [p|]; [|eauto].
  case_bool_decide as Hp; [eauto|].
  destruct (jm_get (edgesByChild g) (a_id current)) as [e|]; [|eauto].
  case_bool_decide; [|eauto].
  destruct (requireAgent g p) as [parent|] eqn:E; [|eauto].
  apply requireAgent_ok in E. pose proof (Hk _ _ E) as Hid. apply IH; [|congruence|simpl; lia].
  apply visited_cons; [done|done|]. apply jm_has_get; eauto.
Qed.

(** [visit] and its loop over the edges of one parent. *)
Fixpoint visit_edges g query fuel (edges : list AgentGraphEdge)
  (state : list string * list Agent) : option (exc (list string * list Agent)) :=
  match edges with
  | [] => Some (Ok state)
  | edge :: rest =>
      if bool_decide (e_childAgentId edge ∈ state.1) then
        Some (Throw (InvariantViolationError "Agent graph traversal encountered a cycle"))
      else
        match requireAgent g (e_childAgentId edge) with
        | Throw error => Some (Throw error)
        | Ok child =>
            match visit g query fuel (a_id child)
                    (e_childAgentId edge :: state.1, child :: state.2) with
            | Some (Ok state) => visit_edges g query fuel rest state
            | other => other
            end
        end
  end.

Lemma visit_S g query fuel parentId state :
  visit g query (S fuel) parentId state =
  visit_edges g query fuel (childEdges g parentId query) state.
Proof.
  cbn [visit]. generalize (childEdges g parentId query) as edges. intros edges. revert state.
  induction edges as [|edge rest IH]; intros state; [done|]. cbn [visit_edges].
  case_bool_decide; [done|]. destruct (requireAgent g (e_childAgentId edge)); [|done].
  destruct (visit g query fuel _ _) as [[]|]; [|done|done]. apply IH.
Qed.

Definition visit_ends g query fuel : Prop := forall parentId state,
  visited_ok g state.1 -> length (agentsById g) < fuel + length state.1 ->
  exists r, visit g query fuel parentId state = Some r /\
    forall state', r = Ok state' ->
      visited_ok g state'.1 /\ length state.1 <= length state'.1.

Lemma visit_edges_ends g query fuel edges state : visit_ends g query fuel ->
  visited_ok g state.1 -> length (agentsById g) < S fuel + length state.1 ->
  exists r, visit_edges g query fuel edges state = Some r /\
    forall state', r = Ok state' ->
      visited_ok g state'.1 /\ length state.1 <= length state'.1.
Proof.
  intros Hvisit. revert state. induction edges as [|edge rest IH]; intros state Hv Hf.
  { eexists; split; [done|]. by intros ? [= <-]. }
  cbn. case_bool_decide as Hp; [by eexists|].
  destruct (requireAgent g (e_childAgentId edge)) as [child|] eqn:E; [|by eexists].
  destruct (Hvisit (a_id child) (e_childAgentId edge :: state.1, child :: state.2))
    as (r & -> & Hr); [by apply visited_cons; eauto using requireAgent_has|simpl; lia|].
  destruct r as [state1|]; [|by eexists].
  destruct (Hr state1 eq_refl) as [Hv1 Hl1]. simpl in Hl1.
  destruct (IH state1 Hv1) as (r & -> & Hr'); [lia|]. eexists; split; [done|].
  intros state' ->. destruct (Hr' state' eq_refl). split; [done|]. lia.
Qed.

Lemma visit_always_ends g query fuel : visit_ends g query fuel.
Proof.
  induction fuel as [|fuel IH]; intros parentId state Hv Hf; [no_fuel|].
  rewrite visit_S. by apply visit_edges_ends.
Qed.

(** C25: Every traversal of an agent graph ends: for any graph whose agents are
    stored under their identities, well-formed or cyclic, the loops of
    [ancestors], [hasOpenAncestry], [assertAcyclicAncestry] and [descendants]
    return a value or an exception within one pass per agent and one more. *)
Theorem traversals_terminate g id current query : keyed g ->
  jm_get (agentsById g) id = Some current ->
  (exists r, ancestors_loop g (traversal_fuel g) [id] current [] = Some r) /\
  (exists r, hasOpenAncestry_loop g (traversal_fuel g) [] current = Some r) /\
  (exists r, assertAcyclic_loop g (traversal_fuel g) [] current = Some r) /\
  (exists r, visit g query (traversal_fuel g) id ([id], []) = Some r).
Proof.
  intros Hk Hc. assert (visited_ok g []) as Hnil.
  { split; [constructor|]. by intros x ?%not_elem_of_nil. }
  assert (a_id current = id) as Hid by (by apply Hk). unfold traversal_fuel.
  split; [|split; [|split]].
  - apply ancestors_loop_ends; [by eapply visited_one|]. lia.
  - apply hasOpenAncestry_loop_ends; [done|done|congruence|]. lia.
  - apply assertAcyclic_loop_ends; [done|done|congruence|]. lia.
  - destruct (visit_always_ends g query (S (length (agentsById g))) id ([id], []))
      as (r & Hr & _); [by eapply visited_one|simpl; lia|]. eauto.
Qed.

(** ** Parents *)

Lemma lineage_members g id l x : lineage g id l -> x ∈ id :: l ->
  jm_has (agentsById g) x = true.
Proof.
  induction 1 as [id Hp|id p l Hp Hl IH]; intros [->|Hx]%elem_of_cons;
    [by eapply parent_of_has|by apply not_elem_of_nil in Hx|by eapply parent_of_has|auto].
Qed.

Lemma lineage_NoDup g id l : lineage g id l -> NoDup (id :: l).
Proof.
  intros Hl. constructor; [by eapply lineage_irrefl|].
  induction Hl as [id Hp|id p l Hp Hl IH]; [constructor|].
  constructor; [by eapply lineage_irrefl|done].
Qed.

Lemma lineage_fuel g id l : lineage g id l -> length l < traversal_fuel g.
Proof.
  intros Hl. assert (visited_ok g (id :: l)) as Hv.
  { split; [by eapply lineage_NoDup|]. intros x. by eapply lineage_members. }
  apply visited_bound in Hv. unfold traversal_fuel. simpl in Hv. lia.
Qed.

(** The step up from an agent of the graph. *)
Lemma lineage_up g current p l : keyed g -> 
  jm_get (agentsById g) (a_id current) = Some current ->
  lineage g (a_id current) (p :: l) ->
  a_parentAgentId current = Some p /\ lineage g p l /\
  exists parent, requireAgent g p = Ok parent /\ a_id parent = p /\
    jm_get (agentsById g) (a_id parent) = Some parent.
Proof.
  intros [_ Hk] Hc Hl. inversion Hl as [|? ? ? Hp Hl']; subst.
  apply parent_of_some in Hp as (a & Ha & Hp). split; [congruence|]. split; [done|].
  pose proof (lineage_has _ _ _ Hl') as (parent & Hpa)%jm_has_get.
  exists parent. pose proof (Hk _ _ Hpa) as Hid. split; [by apply requireAgent_ok|].
  split; [done|]. congruence.
Qed.

Lemma lineage_top g current : jm_get (agentsById g) (a_id current) = Some current ->
  lineage g (a_id current) [] -> a_parentAgentId current = None.
Proof.
  intros Hc Hl. inversion Hl as [? Hp|]; subst. apply parent_of_some in Hp as (a & ? & ?).
  congruence.
Qed.

Lemma ancestors_loop_lineage g fuel visited current l acc : keyed g ->
  jm_get (agentsById g) (a_id current) = Some current -> lineage g (a_id current) l ->
  length l < fuel -> (forall x, x ∈ l -> x ∉ visited) ->
  exists parents, map a_id parents = l /\
    (forall a, a ∈ parents -> jm_get (agentsById g) (a_id a) = Some a) /\
    ancestors_loop g fuel visited current acc = Some (Ok (rev parents ++ acc)).
Proof.
  intros Hk. revert visited current l acc.
  induction fuel as [|fuel IH]; intros visited current l acc Hc Hl Hf Hd; [lia|].
  cbn [ancestors_loop]. destruct l as [|p l].
  - rewrite (lineage_top _ _ Hc Hl). exists []. split; [done|]. split; [|done].
    by intros a ?%not_elem_of_nil.
  - pose proof (lineage_NoDup _ _ _ Hl) as [_ [Hpl Hn]%NoDup_cons]%NoDup_cons.
    destruct (lineage_up _ _ _ _ Hk Hc Hl) as (-> & Hl' & parent & -> & Hid & Hpc).
    rewrite bool_decide_eq_false_2 by (apply Hd, list_elem_of_here).
    destruct (IH (p :: visited) parent l (parent :: acc)) as (parents & Hm & Hin & Heq);
      [done|congruence|simpl in Hf; lia| |].
    + intros x Hx. apply not_elem_of_cons. split; [by intros ->|].
      apply Hd. by apply list_elem_of_further.
    + exists (parent :: parents). cbn [map]. rewrite Hid, Hm. split; [done|]. split.
      * intros a [->|Ha]%elem_of_cons; auto.
      * rewrite Heq. cbn [rev]. by rewrite <- app_assoc.
Qed.

Lemma assertAcyclic_loop_lineage g fuel visited current l : keyed g ->
  jm_get (agentsById g) (a_id current) = Some current -> lineage g (a_id current) l ->
  length l < fuel -> (forall x, x ∈ a_id current :: l -> x ∉ visited) ->
  assertAcyclic_loop g fuel visited current = Some (Ok tt).
Proof.
  intros Hk. revert visited current l.
  induction fuel as [|fuel IH]; intros visited current l Hc Hl Hf Hd; [lia|].
  cbn [assertAcyclic_loop]. destruct l as [|p l]; [by rewrite (lineage_top _ _ Hc Hl)|].
  pose proof (lineage_NoDup _ _ _ Hl) as [Hcl _]%NoDup_cons.
  destruct (lineage_up _ _ _ _ Hk Hc Hl) as (-> & Hl' & parent & -> & Hid & Hpc).
  rewrite bool_decide_eq_false_2 by (apply Hd, list_elem_of_here).
  apply (IH _ parent l); [done|congruence|simpl in Hf; lia|]. rewrite Hid.
  intros x Hx. apply not_elem_of_cons. split; [by intros ->|].
  apply Hd. by apply list_elem_of_further.
Qed.

(** The converse: a loop that ends at a root has walked the lineage. *)
Lemma assertAcyclic_loop_ok g fuel visited current : keyed g ->
  jm_get (agentsById g) (a_id current) = Some current ->
  assertAcyclic_loop g fuel visited current = Some (Ok tt) ->
  exists l, lineage g (a_id current) l.
Proof.
  intros [_ Hk]. revert visited current. induction fuel as [|fuel IH]; intros visited current Hc;
    [done|].
  cbn [assertAcyclic_loop]. destruct (a_parentAgentId current) as [p|] eqn:Hp.
  - case_bool_decide; [done|]. destruct (requireAgent g p) as [parent|] eqn:E; [|done].
    apply requireAgent_ok in E. pose proof (Hk _ _ E) as Hid. rewrite <- Hid in E.
    intros (l & Hl)%IH; [|done]. exists (p :: l). econstructor; [|by rewrite <- Hid].
    apply parent_of_some. eauto.
  - intros _. exists []. constructor. apply parent_of_some. eauto.
Qed.

Lemma assertAcyclicAncestry_ok g id a : keyed g -> jm_get (agentsById g) id = Some a ->
  assertAcyclicAncestry g id = Ok tt <-> exists l, lineage g id l.
Proof.
  intros Hk Ha. assert (a_id a = id) as Hid by (by apply Hk).
  unfold assertAcyclicAncestry. rewrite (proj2 (requireAgent_ok g id a) Ha).
  cbn [mbind result_bind]. subst id. split.
  - destruct (assertAcyclic_loop g (traversal_fuel g) [] a) as [r|] eqn:E; [|done].
    cbn. intros ->. by apply assertAcyclic_loop_ok in E.
  - intros (l & Hl). rewrite (assertAcyclic_loop_lineage g _ _ _ l); try done.
    + by eapply lineage_fuel.
    + intros x _. apply not_elem_of_nil.
Qed.

Lemma ancestors_lineage g id l : keyed g -> lineage g id l ->
  exists parents, map a_id parents = l /\
    (forall a, a ∈ parents -> jm_get (agentsById g) (a_id a) = Some a) /\
    ancestors g id = Ok (rev parents).
Proof.
  intros Hk Hl. destruct (proj1 (jm_has_get _ _) (lineage_has _ _ _ Hl)) as (a & Ha).
  assert (a_id a = id) as Hid by (by apply Hk). subst id.
  unfold ancestors. rewrite (proj2 (requireAgent_ok g _ a) Ha). cbn [mbind result_bind].
  destruct (ancestors_loop_lineage g (traversal_fuel g) [a_id a] a l [])
    as (parents & ? & ? & ->); try done.
  - by eapply lineage_fuel.
  - intros x Hx ->%list_elem_of_singleton. by eapply lineage_irrefl.
  - exists parents. cbn. by rewrite app_nil_r.
Qed.

(** ** Open branches *)

Definition open_edge g (id : string) : bool :=
  match jm_get (edgesByChild g) id with
  | Some edge => e_state edge === edge_open
  | None => false
  end.

Lemma hasOpenAncestry_loop_lineage g fuel visited current l : keyed g ->
  jm_get (agentsById g) (a_id current) = Some current -> lineage g (a_id current) l ->
  length l < fuel -> (forall x, x ∈ a_id current :: l -> x ∉ visited) ->
  hasOpenAncestry_loop g fuel visited current =
    Some (Ok (forallb (open_edge g) (removelast (a_id current :: l)))).
Proof.
  intros Hk. revert visited current l.
  induction fuel as [|fuel IH]; intros visited current l Hc Hl Hf Hd; [lia|].
  cbn [hasOpenAncestry_loop]. destruct l as [|p l]; [by rewrite (lineage_top _ _ Hc Hl)|].
  pose proof (lineage_NoDup _ _ _ Hl) as [Hcl _]%NoDup_cons.
  destruct (lineage_up _ _ _ _ Hk Hc Hl) as (-> & Hl' & parent & -> & Hid & Hpc).
  rewrite bool_decide_eq_false_2 by (apply Hd, list_elem_of_here).
  change (removelast (a_id current :: p :: l)) with (a_id current :: removelast (p :: l)).
  cbn [forallb]. unfold open_edge at 1.
  destruct (jm_get (edgesByChild g) (a_id current)) as [e|]; [|done].
  case_bool_decide; [|done]. cbn [andb].
  rewrite (IH _ parent l); rewrite ?Hid; [done|congruence|done|simpl in Hf; lia|].
  intros x Hx. apply not_elem_of_cons. split; [by intros ->|].
  apply Hd. by apply list_elem_of_further.
Qed.

Lemma hasOpenAncestry_lineage g id l : keyed g -> lineage g id l ->
  hasOpenAncestry g id = Ok (forallb (open_edge g) (removelast (id :: l))).
Proof.
  intros Hk Hl. destruct (proj1 (jm_has_get _ _) (lineage_has _ _ _ Hl)) as (a & Ha).
  assert (a_id a = id) as Hid by (by apply Hk). subst id.
  unfold hasOpenAncestry. rewrite (proj2 (requireAgent_ok g _ a) Ha). cbn [mbind result_bind].
  rewrite (hasOpenAncestry_loop_lineage g _ _ _ l); try done.
  - by eapply lineage_fuel.
  - intros x _. apply not_elem_of_nil.
Qed.

(** ** Descendants *)

(** [c] was spawned by [p], over an edge the query admits. *)
Definition child_of g (query : DescendantQuery) (p c : string) : Prop :=
  exists edge, jm_get (edgesByChild g) c = Some edge /\ e_parentAgentId edge = p /\
    match query with None => True | Some state => e_state edge = state end.

Lemma child_edge_elem g query p edge : maps_ok g ->
  edge ∈ childEdges g p query <->
  jm_get (edgesByChild g) (e_childAgentId edge) = Some edge /\ e_parentAgentId edge = p /\
  match query with None => True | Some state => e_state edge = state end.
Proof.
  intros Hg. unfold childEdges. rewrite elem_of_list_filter, (mo_index _ Hg).
  destruct query; rewrite ?bool_decide_eq_true; tauto.
Qed.

Lemma child_of_elem g query p c : maps_ok g ->
  child_of g query p c <-> exists edge, edge ∈ childEdges g p query /\ e_childAgentId edge = c.
Proof.
  intros Hg. split.
  - intros (edge & He & Hp & Hq). destruct (mo_edge _ Hg _ _ He) as [Hc _]. exists edge.
    split; [|done]. apply child_edge_elem; [done|]. rewrite Hc. done.
  - intros (edge & He & <-). apply child_edge_elem in He as (? & ? & ?); [|done].
    by exists edge.
Qed.

(** An edge runs from the declared parent. *)
Lemma child_of_parent g query p c : graph_ok g -> child_of g query p c ->
  parent_of g c = Some (Some p).
Proof.
  intros Hg (edge & He & Hp & _). destruct (to_ends _ Hg _ _ He) as [_ (a & Ha)%jm_has_get].
  destruct (mo_edge _ Hg _ _ He) as [Hc _]. rewrite Hc in Ha.
  apply parent_of_some. exists a. split; [done|].
  destruct (mo_agent _ Hg _ _ Ha) as [Hid _].
  pose proof (to_linked _ Hg _ _ Ha) as Hl. unfold linked in Hl. rewrite Hid, He in Hl.
  destruct (a_parentAgentId a) as [q|]; [|done].
  destruct Hl as (_ & e & [= <-] & ? & _). congruence.
Qed.

Lemma child_of_unique g query p q c : child_of g query p c -> child_of g query q c -> p = q.
Proof. intros (e & ? & ? & _) (e' & ? & ? & _). congruence. Qed.

(** Descendants have strictly longer lineages. *)
Lemma descend_depth g query p c lp lc : graph_ok g -> tc (child_of g query) p c ->
  lineage g p lp -> lineage g c lc -> length lp < length lc.
Proof.
  intros Hg Hpc. revert lp lc. induction Hpc as [p c H|p m c H _ IH]; intros lp lc Hp Hc.
  - pose proof (child_of_parent _ _ _ _ Hg H) as Hpar. inversion Hc; subst; [congruence|].
    assert (p0 = p) as -> by congruence. rewrite (lineage_unique _ _ _ _ Hp H1). simpl. lia.
  - assert (lineage g m (p :: lp)) as Hm.
    { econstructor; [|done]. by eapply child_of_parent. }
    specialize (IH _ _ Hm Hc). simpl in IH. lia.
Qed.

Lemma descend_first g query p c : tc (child_of g query) p c ->
  exists m, child_of g query p m /\ rtc (child_of g query) m c.
Proof. intros [? ? Hc|? m ? Hm Hc]; [eauto using rtc_refl|eauto using tc_rtc]. Qed.

Lemma descend_last g query p c : tc (child_of g query) p c -> exists q, child_of g query q c.
Proof. induction 1; eauto. Qed.

Lemma descend_acyclic g query p : graph_ok g -> ~ tc (child_of g query) p p.
Proof.
  intros Hg Hp. assert (exists l, lineage g p l) as [l Hl].
  { destruct (descend_last _ _ _ _ Hp) as [q Hq].
    apply (to_acyclic _ Hg). eapply parent_of_has, child_of_parent; eauto. }
  pose proof (descend_depth _ _ _ _ _ _ Hg Hp Hl Hl). lia.
Qed.

(** Two agents above the same agent lie on one branch. *)
Lemma branch_comparable g query x y c : rtc (child_of g query) x c -> rtc (child_of g query) y c ->
  rtc (child_of g query) x y \/ rtc (child_of g query) y x.
Proof.
  intros Hx. revert y. induction Hx as [c|x m c Hc Hx IH]; intros y Hy; [auto|].
  destruct (IH y Hy) as [Hmy|Hym]; [left; by eapply rtc_l|].
  apply rtc_inv_r in Hym as [->|(q & Hyq & Hq)]; [left; by apply rtc_once|].
  right. by rewrite (child_of_unique _ _ _ _ _ Hc Hq).
Qed.

(** Siblings have disjoint branches. *)
Lemma siblings_disjoint g query p x y c : graph_ok g ->
  child_of g query p x -> child_of g query p y -> x <> y ->
  rtc (child_of g query) x c -> rtc (child_of g query) y c -> False.
Proof.
  intros Hg. revert x y.
  assert (forall x y, child_of g query p x -> child_of g query p y -> x <> y ->
    rtc (child_of g query) x y -> False) as Hone.
  { intros x y Hx Hy Hne Hxy. apply rtc_inv_r in Hxy as [->|(q & Hxq & Hq)]; [done|].
    rewrite <- (child_of_unique _ _ _ _ _ Hy Hq) in Hxq.
    apply (descend_acyclic g query p Hg). exact (tc_rtc_r _ _ _ (tc_once _ _ _ Hx) Hxq). }
  intros x y Hx Hy Hne Hxc Hyc.
  destruct (branch_comparable _ _ _ _ _ Hxc Hyc); eauto.
Qed.

(** The depth-first order, the children of an agent in the order of its index. *)
Inductive preorder g query : list AgentGraphEdge -> list Agent -> Prop :=
| preorder_nil : preorder g query [] []
| preorder_cons edge rest a below after :
    jm_get (agentsById g) (e_childAgentId edge) = Some a ->
    preorder g query (childEdges g (e_childAgentId edge) query) below ->
    preorder g query rest after ->
    preorder g query (edge :: rest) (a :: below ++ after).

Definition below_edges g query (edges : list AgentGraphEdge) (c : string) : Prop :=
  exists edge, edge ∈ edges /\ rtc (child_of g query) (e_childAgentId edge) c.

Lemma below_children g query p c : maps_ok g ->
  below_edges g query (childEdges g p query) c <-> tc (child_of g query) p c.
Proof.
  intros Hg. split.
  - intros (edge & He & Hc). eapply tc_rtc_r; [apply tc_once|exact Hc].
    apply child_of_elem; eauto.
  - intros Hc. apply descend_first in Hc as (m & Hm & Hc).
    apply child_of_elem in Hm as (edge & He & <-); [|done]. by exists edge.
Qed.

Lemma below_edges_cons g query edge rest c :
  below_edges g query (edge :: rest) c <->
  rtc (child_of g query) (e_childAgentId edge) c \/ below_edges g query rest c.
Proof.
  unfold below_edges. setoid_rewrite elem_of_cons. split.
  - intros (x & [->|Hx] & Hc); eauto.
  - intros [Hc|(x & Hx & Hc)]; eauto.
Qed.

Lemma preorder_members g query edges l c : maps_ok g -> preorder g query edges l ->
  c ∈ map a_id l <-> below_edges g query edges c.
Proof.
  intros Hg. induction 1 as [|edge rest a below after Ha Hb IHb Hr IHr].
  { split; [by intros ?%not_elem_of_nil|by intros (? & ?%not_elem_of_nil & _)]. }
  cbn [map]. rewrite map_app, elem_of_cons, elem_of_app, IHb, IHr, below_edges_cons.
  rewrite below_children by done. destruct (mo_agent _ Hg _ _ Ha) as [-> _].
  rewrite (rtc_tc (R := child_of g query)). intuition congruence.
Qed.

Lemma preorder_edges g query edges l : maps_ok g -> preorder g query edges l ->
  forall edge, edge ∈ edges -> exists a, jm_get (agentsById g) (e_childAgentId edge) = Some a.
Proof.
  intros Hg. induction 1 as [|edge rest a below after Ha Hb IHb Hr IHr]; intros x;
    [by intros ?%not_elem_of_nil|]. intros [->|Hx]%elem_of_cons; eauto.
Qed.

(** Edges of one parent, each child once. *)
Definition siblings g query p (edges : list AgentGraphEdge) : Prop :=
  NoDup (map e_childAgentId edges) /\ forall edge, edge ∈ edges -> edge ∈ childEdges g p query.

Lemma childEdges_siblings g query p : maps_ok g -> siblings g query p (childEdges g p query).
Proof.
  intros Hg. split; [|done]. apply NoDup_map_filter, mo_siblings, Hg.
Qed.

Lemma siblings_cons g query p edge rest : siblings g query p (edge :: rest) ->
  siblings g query p rest /\ edge ∈ childEdges g p query /\
  e_childAgentId edge ∉ map e_childAgentId rest.
Proof.
  intros [Hn Hin]. cbn [map] in Hn. apply NoDup_cons in Hn as [Hx Hn].
  split; [split; [done|]|split; [|done]].
  - intros y Hy. by apply Hin, list_elem_of_further.
  - apply Hin, list_elem_of_here.
Qed.

(** The branch of one edge meets no other branch. *)
Lemma siblings_apart g query p edge rest c : graph_ok g ->
  siblings g query p (edge :: rest) ->
  rtc (child_of g query) (e_childAgentId edge) c -> ~ below_edges g query rest c.
Proof.
  intros Hg [[_ Hin] [He Hne]]%siblings_cons Hc (other & Ho & Hc').
  assert (forall x, x ∈ childEdges g p query -> child_of g query p (e_childAgentId x)) as Hch.
  { intros x Hx. apply child_of_elem; [apply Hg|]. eauto. }
  apply (siblings_disjoint g query p (e_childAgentId edge) (e_childAgentId other) c); auto.
  intros Heq. apply Hne. rewrite Heq. apply list_elem_of_fmap. eauto.
Qed.

Lemma preorder_NoDup g query p edges l : graph_ok g -> siblings g query p edges ->
  preorder g query edges l -> NoDup (map a_id l).
Proof.
  intros Hg Hs Hpre. revert p Hs.
  induction Hpre as [|edge rest a below after Ha Hb IHb Hr IHr]; intros p Hs; [constructor|].
  destruct (mo_agent _ Hg _ _ Ha) as [Hid _]. pose proof Hs as [Hs' [He Hne]]%siblings_cons.
  assert (forall c, c ∈ map a_id below -> tc (child_of g query) (e_childAgentId edge) c) as Hbelow.
  { intros c Hc. apply below_children; [apply Hg|]. eapply preorder_members; eauto. apply Hg. }
  assert (forall c, rtc (child_of g query) (e_childAgentId edge) c -> c ∉ map a_id after) as Hafter.
  { intros c Hc Hin. eapply siblings_apart; [done|exact Hs|exact Hc|].
    eapply preorder_members; eauto. apply Hg. }
  cbn [map]. rewrite map_app, Hid. apply NoDup_cons. split.
  - rewrite elem_of_app. intros [Hin|Hin].
    + by eapply descend_acyclic, Hbelow.
    + by eapply Hafter.
  - apply NoDup_app. split; [|split; [|by eapply IHr]].
    + eapply IHb, childEdges_siblings, Hg.
    + intros c Hc%Hbelow. apply Hafter. by apply tc_rtc.
Qed.

Definition visit_spec g query fuel : Prop := forall p state r,
  visit g query fuel p state = Some r ->
  (forall c, tc (child_of g query) p c -> c ∉ state.1) ->
  exists l, preorder g query (childEdges g p query) l /\
    r = Ok (rev (map a_id l) ++ state.1, rev l ++ state.2).

Lemma visit_edges_preorder g query fuel p edges state r : graph_ok g ->
  visit_spec g query fuel -> siblings g query p edges ->
  visit_edges g query fuel edges state = Some r ->
  (forall c, below_edges g query edges c -> c ∉ state.1) ->
  exists l, preorder g query edges l /\
    r = Ok (rev (map a_id l) ++ state.1, rev l ++ state.2).
Proof.
  intros Hg Hvisit. revert state. induction edges as [|edge rest IH]; intros state Hs Hr Hd.
  { injection Hr as <-. exists []. split; [constructor|]. by destruct state. }
  pose proof Hs as [Hs' [He Hne]]%siblings_cons. cbn in Hr.
  rewrite bool_decide_eq_false_2 in Hr by (apply Hd, below_edges_cons; left; done).
  apply child_edge_elem in He as (He & _ & _); [|apply Hg].
  destruct (to_ends _ Hg _ _ He) as [_ (a & Ha)%jm_has_get].
  rewrite (proj2 (requireAgent_ok _ _ _) Ha) in Hr.
  destruct (mo_agent _ Hg _ _ Ha) as [Hid _]. rewrite Hid in Hr.
  destruct (visit g query fuel _ _) as [r1|] eqn:E; [|done].
  destruct (Hvisit _ _ _ E) as (below & Hb & ->).
  { intros c Hc. apply not_elem_of_cons. split.
    - intros ->. by eapply descend_acyclic.
    - apply Hd, below_edges_cons. left. by apply tc_rtc. }
  destruct (IH _ Hs' Hr) as (after & Ha' & ->).
  { intros c Hc. cbn [fst snd]. rewrite elem_of_app, elem_of_cons.
    intros [Hin|[->|Hin]].
    - rewrite elem_of_rev, preorder_members, below_children in Hin; [|apply Hg|apply Hg|done].
      eapply siblings_apart; [done|exact Hs| |exact Hc]. by apply tc_rtc.
    - by eapply siblings_apart; [done|exact Hs|done|exact Hc].
    - eapply Hd; [|exact Hin]. apply below_edges_cons. by right. }
  exists (a :: below ++ after). split; [by econstructor|]. cbn [fst snd map rev].
  rewrite map_app, !rev_app_distr, Hid, <- !app_assoc. done.
Qed.

Lemma visit_preorder g query fuel : graph_ok g -> visit_spec g query fuel.
Proof.
  intros Hg. induction fuel as [|fuel IH]; intros p state r Hr Hd; [done|].
  rewrite visit_S in Hr. eapply visit_edges_preorder; eauto using childEdges_siblings.
  - apply childEdges_siblings, Hg.
  - intros c Hc. apply Hd. by apply below_children; [apply Hg|].
Qed.

Lemma descendants_preorder g p query : graph_ok g -> jm_has (agentsById g) p = true ->
  exists l, descendants g p query = Ok l /\ preorder g query (childEdges g p query) l.
Proof.
  intros Hg (a & Ha)%jm_has_get. unfold descendants. rewrite (proj2 (requireAgent_ok _ _ _) Ha).
  destruct (visit_always_ends g query (traversal_fuel g) p ([p], [])) as (r & Hr & _);
    [by eapply visited_one|unfold traversal_fuel; simpl; lia|].
  destruct (visit_preorder _ _ _ Hg _ _ _ Hr) as (l & Hl & ->).
  { intros c Hc ->%list_elem_of_singleton. by eapply descend_acyclic. }
  exists l. split; [|done]. cbn [mbind result_bind]. rewrite Hr. cbn.
  by rewrite app_nil_r, rev_involutive.
Qed.

(** Parents and descendants are the two readings of the edges. *)
Lemma lineage_descends g p c l : graph_ok g -> lineage g c l ->
  p ∈ l <-> tc (child_of g None) p c.
Proof.
  intros Hg Hl. split.
  - induction Hl as [id Hp|id q l Hp Hl IH]; [by intros ?%not_elem_of_nil|].
    assert (child_of g None q id) as Hq.
    { apply parent_of_some in Hp as (a & Ha & Hpar). destruct (mo_agent _ Hg _ _ Ha) as [Hid _].
      pose proof (to_linked _ Hg _ _ Ha) as Hlk. unfold linked in Hlk. rewrite Hpar, Hid in Hlk.
      destruct Hlk as (_ & e & He & Hep & _). by exists e. }
    intros [->|Hin]%elem_of_cons; [by apply tc_once|]. eapply tc_r; eauto.
  - intros Hpc. revert l Hl.
    induction Hpc as [p c H|p m c H Hmc IH]; intros l Hl.
    + apply (child_of_parent _ _ _ _ Hg) in H. inversion Hl; subst; [congruence|].
      assert (p0 = p) as -> by congruence. apply list_elem_of_here.
    + specialize (IH l Hl). destruct (lineage_shorter _ _ _ _ Hl IH) as (lm & Hlm & _).
      assert (p ∈ lm) as Hp.
      { apply (child_of_parent _ _ _ _ Hg) in H. inversion Hlm; subst; [congruence|].
        assert (p0 = p) as -> by congruence. apply list_elem_of_here. }
      clear - Hl IH Hlm Hp. induction Hl as [id Hi|id q l Hi Hl IHl];
        [by apply not_elem_of_nil in IH|].
      apply list_elem_of_further. apply elem_of_cons in IH as [->|IH]; [|auto].
      by rewrite (lineage_unique _ _ _ _ Hl Hlm).
Qed.

(** On a well-formed graph [descendants] of a known agent never throws: it
    returns each agent reachable over edges of the queried state exactly once,
    in depth-first order with siblings in the order of the index. *)
Theorem descendants_reachable g p query : graph_ok g -> jm_has (agentsById g) p = true ->
  exists l, descendants g p query = Ok l /\
    preorder g query (childEdges g p query) l /\ NoDup (map a_id l) /\
    forall c, c ∈ map a_id l <-> tc (child_of g query) p c.
Proof.
  intros Hg Hp. destruct (descendants_preorder g p query Hg Hp) as (l & Hl & Hpre).
  exists l. split; [done|]. split; [done|]. split.
  - eapply preorder_NoDup; [done| |done]. apply childEdges_siblings, Hg.
  - intros c. rewrite (preorder_members g query) by (done || apply Hg).
    apply below_children, Hg.
Qed.

Lemma forallb_removelast {A} (f : A -> bool) x y l :
  forallb f (removelast (x :: y :: l)) = f x && forallb f (removelast (y :: l)).
Proof. done. Qed.

Lemma open_branch g c l : graph_ok g -> lineage g c l ->
  forallb (open_edge g) (removelast (c :: l)) = true <->
  exists root, parent_of g root = Some None /\ rtc (child_of g (Some edge_open)) root c.
Proof.
  intros Hg. induction 1 as [id Hp|id p l Hp Hl IH].
  { split; [intros _; exists id; split; [done|apply rtc_refl]|done]. }
  rewrite forallb_removelast, andb_true_iff, IH.
  apply parent_of_some in Hp as (a & Ha & Hpar). destruct (mo_agent _ Hg _ _ Ha) as [Hid _].
  pose proof (to_linked _ Hg _ _ Ha) as Hlk. unfold linked in Hlk. rewrite Hpar, Hid in Hlk.
  destruct Hlk as (_ & e & He & Hep & _). unfold open_edge. rewrite He, bool_decide_eq_true.
  split.
  - intros (Ho & root & Hr & Hrp). exists root. split; [done|].
    eapply rtc_r; [done|]. by exists e.
  - intros (root & Hr & [->|(q & Hrq & Hq)]%rtc_inv_r).
    { apply parent_of_some in Hr as (a' & Ha' & ?). congruence. }
    destruct Hq as (e' & He' & <- & Ho). assert (e' = e) as -> by congruence.
    split; [done|]. exists root. by rewrite <- Hep.
Qed.

(** On a well-formed graph the upward reads of a known agent never throw and
    agree with the downward ones: [ancestors] lists, from the root down, exactly
    the agents that have it as a descendant, and [hasOpenAncestry] holds exactly
    when a root reaches it over open edges. *)
Theorem ancestry_agrees g c : graph_ok g -> jm_has (agentsById g) c = true ->
  exists l open, ancestors g c = Ok l /\ hasOpenAncestry g c = Ok open /\
    lineage g c (rev (map a_id l)) /\
    (forall p, p ∈ map a_id l <-> tc (child_of g None) p c) /\
    (open = true <->
     exists root, parent_of g root = Some None /\ rtc (child_of g (Some edge_open)) root c).
Proof.
  intros Hg Hc. pose proof (maps_keyed g Hg) as Hk.
  destruct (to_acyclic _ Hg _ Hc) as [l Hl].
  destruct (ancestors_lineage g c l Hk Hl) as (parents & Hm & _ & Ha).
  exists (rev parents). eexists. split; [done|].
  split; [by apply hasOpenAncestry_lineage|].
  rewrite map_rev, rev_involutive, Hm. split; [done|]. split; [|by apply open_branch].
  intros p. rewrite elem_of_rev. by apply lineage_descends.
Qed.
