(* ===== verification/AgentRestore.v ===== *)
(** Loading and writing an agent graph: the constructor accepts exactly the
    well-formed snapshots, a graph rebuilt from its snapshot is the graph that
    wrote it, and every graph reached from a snapshot is well-formed. *)

From Stdlib Require Import ZArith Lia Sorted Permutation.
From stdpp Require Import base strings list relations.
From S2P Require Import Prelude JsNumber JsString JsCollections Protocol StateMachine.
From S2P Require Import AgentGraph.
From S2P Require Import AgentTopology.
From S2P Require Import AgentTraversal.

Open Scope string_scope.
Open Scope list_scope.

Implicit Types (g : AgentGraph) (agent : Agent) (edge : AgentGraphEdge).

Section Restore.
Variable localeCompare_le : string -> string -> bool.

Abbreviation put_edge := (put_edge localeCompare_le).
Abbreviation new_AgentGraph := (new_AgentGraph localeCompare_le).
Abbreviation snapshot := (snapshot localeCompare_le).

(** ** What loading leaves in the maps *)

Definition agent_entries (agents : list Agent) : jsmap string Agent :=
  map (fun agent => (a_id agent, agent)) agents.
Definition edge_entries (edges : list AgentGraphEdge) : jsmap string AgentGraphEdge :=
  map (fun edge => (e_childAgentId edge, edge)) edges.

Definition loaded_agents (runId : string) (agents : list Agent) : AgentGraph :=
  {| g_runId := runId; agentsById := agent_entries agents;
   edgesByChild := []; edgesByParent := [] |}.

Definition loaded (snapshot : AgentGraphSnapshot) : AgentGraph :=
  foldl put_edge (loaded_agents (gs_runId snapshot) (gs_agents snapshot)) (gs_edges snapshot).

(** A snapshot as a graph could have written it. *)
Record snapshot_wf (snapshot : AgentGraphSnapshot) : Prop := {
   sw_agents : NoDup (map a_id (gs_agents snapshot));
   sw_run : Forall (fun agent => a_runId agent = gs_runId snapshot) (gs_agents snapshot);
   sw_children : NoDup (map e_childAgentId (gs_edges snapshot));
   sw_edges : Forall (edge_wf (gs_runId snapshot)) (gs_edges snapshot);
   sw_topology : topology_ok (loaded snapshot) }.

Lemma each_cons {A} (method : A -> gm unit) x rest g r :
  each method (x :: rest) g = r ->
  match method x g with
  | (Ok _, g1) => each method rest g1 = r
  | (Throw error, g1) => (Throw error, g1) = r
  end.
Proof. cbn. unfold mbind, gm_bind. by destruct (method x g) as [[]]. Qed.

Lemma addSnapshotAgent_run g agent :
  addSnapshotAgent agent g = (Ok tt, put_agent g agent) /\
  a_runId agent = g_runId g /\ jm_has (agentsById g) (a_id agent) = false \/
  is_ok (addSnapshotAgent agent g).1 = false /\
  ~ (a_runId agent = g_runId g /\ jm_has (agentsById g) (a_id agent) = false).
Proof.
  unfold addSnapshotAgent, assertAgentBelongsToRun, guarding, reading, mbind, gm_bind, throw_if.
  case_bool_decide as Hrun; cbn; [|right; split; [done|by intros []]].
  destruct (jm_has (agentsById g) (a_id agent)) eqn:E; cbn; [|by left].
  right. split; [done|by intros []].
Qed.

Lemma agent_keys agents : jm_keys (agent_entries agents) = map a_id agents.
Proof. unfold agent_entries, jm_keys. by induction agents as [|a l IH]; cbn; f_equal. Qed.

Lemma edge_keys edges : jm_keys (edge_entries edges) = map e_childAgentId edges.
Proof. unfold edge_entries, jm_keys. by induction edges as [|a l IH]; cbn; f_equal. Qed.

Lemma has_keys {V} (m : jsmap string V) k : jm_has m k = false <-> k ∉ jm_keys m.
Proof. rewrite <- jm_has_elem. by destruct (jm_has m k). Qed.

Lemma load_agents g seen agents : g = loaded_agents (g_runId g) seen ->
  NoDup (map a_id seen) ->
  let r := each addSnapshotAgent agents g in
  (is_ok r.1 = true <->
   NoDup (map a_id (seen ++ agents)) /\
   Forall (fun agent => a_runId agent = g_runId g) agents) /\
  (is_ok r.1 = true -> r.2 = loaded_agents (g_runId g) (seen ++ agents)).
Proof.
  intros Hg Hn r. subst r. revert g seen Hg Hn.
  induction agents as [|agent rest IH]; intros g seen Hg Hn.
  { cbn. rewrite app_nil_r. split; [|by intros _]. split; [by split; [|constructor]|done]. }
  cbn [each]. unfold mbind, gm_bind.
  assert (jm_has (agentsById g) (a_id agent) = false <-> a_id agent ∉ map a_id seen) as Hfresh.
  { rewrite Hg. cbn. by rewrite has_keys, agent_keys. }
  destruct (addSnapshotAgent_run g agent) as [(-> & Hrun & Hnew)|[Hf Hbad]].
  - assert (put_agent g agent = loaded_agents (g_runId g) (seen ++ [agent])) as Hput.
    { rewrite Hg. unfold put_agent, loaded_agents, with_agents. cbn. f_equal.
      rewrite jm_set_fresh; [|by rewrite Hg in Hnew].
      unfold agent_entries. by rewrite map_app. }
    destruct (IH (put_agent g agent) (seen ++ [agent])) as [IH1 IH2]; [done| |].
    { rewrite map_app. apply NoDup_app. split; [done|]. split; [|apply NoDup_singleton].
      intros x Hx ->%list_elem_of_singleton. by apply Hfresh in Hnew. }
    cbn [put_agent with_agents g_runId] in IH1, IH2. rewrite <- app_assoc in IH1, IH2.
    rewrite Forall_cons. tauto.
  - destruct (addSnapshotAgent agent g) as [[[]|e] g1]; cbn in Hf; [done|]. cbn. split; [|done].
    split; [done|]. intros [Hnd Hall]. exfalso. apply Hbad.
    apply Forall_cons in Hall as [Hrun _]. split; [done|]. apply Hfresh.
    rewrite map_app in Hnd. apply NoDup_app in Hnd as (_ & Hnd & _). intros Hin.
    apply (Hnd _ Hin). apply list_elem_of_here.
Qed.

Lemma addSnapshotEdge_run g edge :
  addSnapshotEdge localeCompare_le edge g = (Ok tt, put_edge g edge) /\
  edge_wf (g_runId g) edge /\ jm_get (edgesByChild g) (e_childAgentId edge) = None \/
  is_ok (addSnapshotEdge localeCompare_le edge g).1 = false /\
  ~ (edge_wf (g_runId g) edge /\ jm_get (edgesByChild g) (e_childAgentId edge) = None).
Proof.
  unfold addSnapshotEdge, guarding, reading, mbind. repeat (unfold gm_bind at 1).
  unfold throw_if.
  case_bool_decide as Hrun; cbn [negb]; [|right; split; [done|by intros [[] _]]].
  case_bool_decide as Hkey; cbn [negb]; [|right; split; [done|by intros [[] _]]].
  destruct (jm_has (edgesByChild g) (e_childAgentId edge)) eqn:E.
  { right. split; [done|]. intros [_ Hn]. apply jm_has_get in E as [? ?]. congruence. }
  apply jm_has_none in E.
  case_bool_decide as Hself; [right; split; [done|by intros [[] _]]|].
  destruct (decide (e_state edge = edge_closed <-> e_closedAt edge <> None)) as [Hc|Hc].
  - left. rewrite setEdge_run by congruence. split; [|by split].
    destruct (e_state edge), (e_closedAt edge); try done; exfalso;
      destruct Hc as [Hc1 Hc2]; first [by apply Hc1|by discriminate Hc2].
  - right. split; [|by intros [[] _]].
    destruct (e_state edge), (e_closedAt edge); try done; destruct Hc; split; done.
Qed.

Lemma load_edges g edges : maps_ok g ->
  let r := each (addSnapshotEdge localeCompare_le) edges g in
  (is_ok r.1 = true <->
   NoDup (map e_childAgentId edges) /\ Forall (edge_wf (g_runId g)) edges /\
   Forall (fun edge => jm_get (edgesByChild g) (e_childAgentId edge) = None) edges) /\
  (is_ok r.1 = true -> r.2 = foldl put_edge g edges /\ maps_ok r.2).
Proof.
  intros Hg r. subst r. revert g Hg. induction edges as [|edge rest IH]; intros g Hg.
  { cbn. split; [|done]. split; [|done]. intros _. repeat constructor. }
  cbn [each]. unfold mbind, gm_bind.
  destruct (addSnapshotEdge_run g edge) as [(-> & Hw & Hnew)|[Hf Hbad]].
  - destruct (IH (put_edge g edge)) as [IH1 IH2].
    { apply put_edge_maps; [done|done|]. congruence. }
    cbn [map foldl]. split; [|apply IH2]. rewrite IH1. cbn [AgentTopology.put_edge with_edges g_runId edgesByChild].
    rewrite NoDup_cons, !Forall_cons.
    assert (Forall (fun e => jm_get (jm_set (edgesByChild g) (e_childAgentId edge) edge)
      (e_childAgentId e) = None) rest <->
      ((e_childAgentId edge ∉ map e_childAgentId rest) /\
      Forall (fun e => jm_get (edgesByChild g) (e_childAgentId e) = None) rest)) as Hiff.
    { clear - Hnew. induction rest as [|e rest IH]; cbn [map].
      - split; [|by constructor]. intros _. split; [apply not_elem_of_nil|constructor].
      - rewrite !Forall_cons, IH, not_elem_of_cons, jm_get_set. case_decide; [|intuition].
        split; [intros []; done|]. intros [[? _] _]. done. }
    tauto.
  - destruct (addSnapshotEdge localeCompare_le edge g) as [[[]|e] g1]; cbn in Hf; [done|].
    cbn. split; [|done]. split; [done|]. intros (_ & Hw & Hnew). exfalso. apply Hbad.
    by apply Forall_cons in Hw as [? _]; apply Forall_cons in Hnew as [? _].
Qed.

(** ** The topology check *)

Lemma assertAgentTopology_ok g agent :
  assertAgentTopology g agent = Ok tt <-> linked g agent.
Proof.
  unfold assertAgentTopology, linked. destruct (a_parentAgentId agent) as [p|].
  - rewrite seq_ok, throw_if_ok, negb_false_iff.
    destruct (jm_get (edgesByChild g) (a_id agent)) as [e|].
    + rewrite seq_ok, !throw_if_ok, !negb_false_iff, !bool_decide_eq_true. split.
      * intros (Hp & He & Ht). split; [done|]. by exists e.
      * by intros (Hp & e' & [= <-] & He & Ht).
    + split; [by intros [_ ?]|by intros (_ & ? & ? & _)].
  - by destruct (jm_get (edgesByChild g) (a_id agent)).
Qed.

Lemma assertEdgeTopology_ok g edge :
  assertEdgeTopology g edge = Ok tt <->
  jm_has (agentsById g) (e_parentAgentId edge) = true /\
  jm_has (agentsById g) (e_childAgentId edge) = true.
Proof.
  unfold assertEdgeTopology. by rewrite seq_ok, !throw_if_ok, !negb_false_iff.
Qed.

Lemma for_each_values {V} (body : V -> exc unit) (P : V -> Prop) (m : jsmap string V) :
  NoDup (jm_keys m) -> (forall k v, jm_get m k = Some v -> body v = Ok tt <-> P v) ->
  for_each body (jm_values m) = Ok tt <-> forall k v, jm_get m k = Some v -> P v.
Proof.
  intros Hn HP. rewrite for_each_ok, Forall_forall. setoid_rewrite (jm_values_elem m _ Hn). split.
  - intros H k v Hk. apply (HP k); eauto.
  - intros H v [k Hk]. apply (HP k); eauto.
Qed.

Lemma assertTopology_ok g : maps_ok g -> assertTopology g = Ok tt <-> topology_ok g.
Proof.
  intros Hg. pose proof (maps_keyed g Hg) as Hk. unfold assertTopology. rewrite !seq_ok.
  rewrite (for_each_values _ (linked g)), (for_each_values _ (fun edge =>
    jm_has (agentsById g) (e_parentAgentId edge) = true /\
    jm_has (agentsById g) (e_childAgentId edge) = true)),
    (for_each_values _ (fun agent => exists l, lineage g (a_id agent) l)); try apply Hg.
  - split.
    + intros (Hl & He & Ha). split; [done|done|]. intros id (a & Hin)%jm_has_get.
      destruct (mo_agent _ Hg _ _ Hin) as [<- _]. eauto.
    + intros [Hl He Ha]. split; [done|]. split; [done|]. intros id a Hin. apply Ha, jm_has_get.
      destruct (mo_agent _ Hg _ _ Hin) as [-> _]. eauto.
  - intros id a Ha. destruct (mo_agent _ Hg _ _ Ha) as [-> _].
    by apply (assertAcyclicAncestry_ok g id a).
  - intros _ e _. apply assertEdgeTopology_ok.
  - intros _ a _. apply assertAgentTopology_ok.
Qed.

(** ** The constructor *)

Lemma loaded_agents_maps runId agents : NoDup (map a_id agents) ->
  Forall (fun agent => a_runId agent = runId) agents -> maps_ok (loaded_agents runId agents).
Proof.
  intros Hn Hr. split; cbn; try done.
  - change (NoDup (jm_keys (agent_entries agents))). by rewrite agent_keys.
  - constructor.
  - intros id a Ha%jm_get_Some_elem. apply list_elem_of_fmap in Ha as (a' & [= -> ->] & Hin).
    split; [done|]. by eapply Forall_forall in Hr.
  - intros p e. split; [by intros ?%not_elem_of_nil|by intros []].
  - intros _. constructor.
Qed.

Lemma new_AgentGraph_run snapshot g :
  new_AgentGraph snapshot = Ok g <-> g = loaded snapshot /\ snapshot_wf snapshot.
Proof.
  unfold AgentGraph.new_AgentGraph, mbind, gm_bind.
  pose proof (load_agents (loaded_agents (gs_runId snapshot) []) [] (gs_agents snapshot))
    as Ha. cbn [loaded_agents g_runId app] in Ha.
  destruct Ha as [Ha1 Ha2]; [done|constructor|].
  destruct (each addSnapshotAgent (gs_agents snapshot) _) as [[[]|e] g1]; cbn in Ha1, Ha2.
  2: { split; [done|]. intros [_ [Hn Hr _ _ _]]. discriminate (proj2 Ha1 (conj Hn Hr)). }
  destruct (proj1 Ha1 eq_refl) as [Hn Hr]. specialize (Ha2 eq_refl). subst g1.
  pose proof (loaded_agents_maps _ _ Hn Hr) as Hm.
  destruct (load_edges _ (gs_edges snapshot) Hm) as [He1 He2].
  destruct (each (addSnapshotEdge localeCompare_le) (gs_edges snapshot) _)
    as [[[]|e] g2]; cbn in He1, He2.
  2: { split; [done|]. intros [_ [_ _ Hc Hw _]].
    discriminate (proj2 He1 (conj Hc (conj Hw (Forall_true _ _ (fun _ => eq_refl))))). }
  destruct (He2 eq_refl) as [-> Hmaps]. destruct (proj1 He1 eq_refl) as (Hc & Hw & _).
  unfold reading. fold (loaded snapshot) in *.
  pose proof (assertTopology_ok _ Hmaps) as Ht.
  destruct (assertTopology (loaded snapshot)) as [[]|e].
  - split; [|by intros [-> _]]. intros [= <-]. split; [done|]. split; try done. by apply Ht.
  - split; [done|]. intros [_ [_ _ _ _ Htop]]. by apply Ht in Htop.
Qed.

Lemma new_AgentGraph_ok snapshot g : new_AgentGraph snapshot = Ok g -> graph_ok g.
Proof.
  rewrite new_AgentGraph_run. intros [-> [Hn Hr Hc Hw Ht]]. split; [|done].
  pose proof (loaded_agents_maps _ _ Hn Hr) as Hm.
  destruct (load_edges _ (gs_edges snapshot) Hm) as [He1 He2].
  assert (is_ok (each (addSnapshotEdge localeCompare_le) (gs_edges snapshot)
    (loaded_agents (gs_runId snapshot) (gs_agents snapshot))).1 = true) as Hok.
  { apply He1. split; [done|]. split; [done|]. by apply Forall_true. }
  unfold loaded. by destruct (He2 Hok) as [<- ?].
Qed.

(** ** Rebuilding *)

Lemma topology_same g g' :
  (forall id, jm_get (agentsById g') id = jm_get (agentsById g) id) ->
  (forall id, jm_get (edgesByChild g') id = jm_get (edgesByChild g) id) ->
  topology_ok g -> topology_ok g'.
Proof.
  intros Ha He [Hl Hd Hc].
  assert (forall id, jm_has (agentsById g') id = jm_has (agentsById g) id) as Hh.
  { intros id. unfold jm_has. by rewrite Ha. }
  assert (forall id, parent_of g' id = parent_of g id) as Hp.
  { intros id. unfold parent_of. by rewrite Ha. }
  split.
  - intros id a. rewrite Ha. intros Hin. apply (linked_mono g); [|apply He|by eapply Hl].
    intros x. by rewrite Hh.
  - intros id e. rewrite He, !Hh. apply Hd.
  - intros id. rewrite Hh. intros [l Hin]%Hc. exists l. eapply lineage_mono; [|exact Hin].
    intros x q. by rewrite Hp.
Qed.

Lemma entries_get {V} (key : V -> string) (m : jsmap string V) (l : list V) id :
  NoDup (jm_keys m) -> (forall k v, jm_get m k = Some v -> key v = k) -> l ≡ₚ jm_values m ->
  NoDup (map key l) /\ jm_get (map (fun v => (key v, v)) l) id = jm_get m id.
Proof.
  intros Hn Hk Hl.
  assert (map (fun v => (key v, v)) l ≡ₚ m) as Hp.
  { rewrite Hl. unfold jm_values.
    assert (forall e, e ∈ m -> key e.2 = e.1) as He.
    { intros [k v] Hin. by apply Hk, jm_elem_get. }
    clear -He. induction m as [|[k v] m IH]; [done|]. cbn.
    pose proof (He (k, v) (list_elem_of_here _ _)) as Hkv. cbn in Hkv. rewrite Hkv.
    constructor. apply IH. intros e Hin. by apply He, list_elem_of_further. }
  assert (jm_keys (map (fun v => (key v, v)) l) = map key l) as Hkeys.
  { clear. induction l as [|v l IH]; [done|]. cbn. by f_equal. }
  assert (NoDup (map key l)) as Hn'.
  { rewrite <- Hkeys. unfold jm_keys. by rewrite Hp. }
  split; [done|]. apply option_eq. intros v.
  rewrite <- !jm_elem by (done || by rewrite Hkeys). by rewrite Hp.
Qed.

Lemma fold_put_edge g edges :
  agentsById (foldl put_edge g edges) = agentsById g /\
  g_runId (foldl put_edge g edges) = g_runId g /\
  edgesByChild (foldl put_edge g edges) =
  foldl (fun m edge => jm_set m (e_childAgentId edge) edge) (edgesByChild g) edges.
Proof.
  revert g. induction edges as [|edge rest IH]; intros g; [done|]. cbn [foldl].
  destruct (IH (put_edge g edge)) as (-> & -> & ->). done.
Qed.

Lemma fold_set_fresh seen edges : NoDup (map e_childAgentId (seen ++ edges)) ->
  foldl (fun m edge => jm_set m (e_childAgentId edge) edge) (edge_entries seen) edges =
  edge_entries (seen ++ edges).
Proof.
  revert seen. induction edges as [|edge rest IH]; intros seen Hn; [by rewrite app_nil_r|].
  cbn [foldl]. rewrite jm_set_fresh.
  - specialize (IH (seen ++ [edge])). rewrite <- app_assoc in IH.
    etrans; [|exact (IH Hn)]. unfold edge_entries. by rewrite map_app.
  - rewrite has_keys, edge_keys. rewrite map_app in Hn. apply NoDup_app in Hn as (_ & Hn & _).
    intros Hin. apply (Hn _ Hin), list_elem_of_here.
Qed.

(** Equal as far as a caller can read: the maps agree, the index up to the order
    of children whose identities compare equal. *)
Record same_graph g g' : Prop := {
   sg_run : g_runId g' = g_runId g;
   sg_agents : forall id, jm_get (agentsById g') id = jm_get (agentsById g) id;
   sg_edges : forall id, jm_get (edgesByChild g') id = jm_get (edgesByChild g) id;
   sg_index : forall p query, childEdges g' p query ≡ₚ childEdges g p query }.

Lemma same_index g g' p query : maps_ok g -> maps_ok g' ->
  (forall id, jm_get (edgesByChild g') id = jm_get (edgesByChild g) id) ->
  childEdges g' p query ≡ₚ childEdges g p query.
Proof.
  intros Hg Hg' He.
  assert (forall h, maps_ok h -> NoDup (childEdges h p query)) as Hn.
  { intros h Hh. destruct (childEdges_siblings h query p Hh) as [Hn _].
    by apply NoDup_fmap_1 in Hn. }
  apply NoDup_Permutation; [by apply Hn|by apply Hn|].
  intros e. by rewrite !child_edge_elem, He.
Qed.

Lemma snapshot_entries g id : maps_ok g ->
  NoDup (map a_id (listAgents localeCompare_le g)) /\
  NoDup (map e_childAgentId (listEdges localeCompare_le g)) /\
  jm_get (agent_entries (listAgents localeCompare_le g)) id = jm_get (agentsById g) id /\
  jm_get (edge_entries (listEdges localeCompare_le g)) id = jm_get (edgesByChild g) id.
Proof.
  intros Hg. unfold listAgents, listEdges.
  destruct (entries_get a_id (agentsById g)
    (sort_by (compareAgentId_le localeCompare_le) (jm_values (agentsById g))) id)
    as [? ?]; [apply Hg|by intros ? ? [? _]%(mo_agent _ Hg)|apply sort_by_Permutation|].
  destruct (entries_get e_childAgentId (edgesByChild g)
    (sort_by (edge_key_le localeCompare_le) (jm_values (edgesByChild g))) id)
    as [? ?]; [apply Hg|by intros ? ? [? _]%(mo_edge _ Hg)|apply sort_by_Permutation|].
  done.
Qed.

Lemma loaded_snapshot g : maps_ok g ->
  agentsById (loaded (snapshot g)) = agent_entries (listAgents localeCompare_le g) /\
  g_runId (loaded (snapshot g)) = g_runId g /\
  edgesByChild (loaded (snapshot g)) = edge_entries (listEdges localeCompare_le g).
Proof.
  intros Hg. destruct (snapshot_entries g "" Hg) as (_ & Hn & _). unfold loaded.
  destruct (fold_put_edge (loaded_agents (gs_runId (snapshot g)) (gs_agents (snapshot g)))
    (gs_edges (snapshot g))) as (-> & -> & ->). split; [done|]. split; [done|].
  by apply (fold_set_fresh []).
Qed.

Lemma snapshot_is_wf g : graph_ok g -> snapshot_wf (snapshot g).
Proof.
  intros Hg. pose proof (go_maps _ Hg) as Hm.
  destruct (loaded_snapshot g Hm) as (Ha & Hr & He).
  destruct (snapshot_entries g "" Hm) as (Hna & Hne & _). split; [done| |done| |].
  - apply Forall_forall. intros a Hin. apply sort_by_elem, jm_values_elem in Hin as [k Hk]; [|apply Hg].
    by destruct (mo_agent _ Hg _ _ Hk).
  - apply Forall_forall. intros e Hin. apply sort_by_elem, jm_values_elem in Hin as [k Hk]; [|apply Hg].
    by destruct (mo_edge _ Hg _ _ Hk).
  - apply (topology_same g); [| |apply Hg]; intros id;
      destruct (snapshot_entries g id Hm) as (_ & _ & ? & ?); congruence.
Qed.

Section Order.
Hypothesis le_total : forall a b, localeCompare_le a b = true \/ localeCompare_le b a = true.
Hypothesis le_trans : forall a b c,
  localeCompare_le a b = true -> localeCompare_le b c = true -> localeCompare_le a c = true.

Lemma sort_sorted {A} (key : A -> string) (l : list A) :
  sort_by (fun a b => localeCompare_le (key a) (key b))
  (sort_by (fun a b => localeCompare_le (key a) (key b)) l) =
  sort_by (fun a b => localeCompare_le (key a) (key b)) l.
Proof. apply sort_by_id, sort_by_sorted; eauto. Qed.

Lemma entries_values {V} (key : V -> string) (l : list V) :
  jm_values (map (fun v => (key v, v)) l) = l.
Proof. unfold jm_values. induction l as [|v l IH]; [done|]. cbn. by f_equal. Qed.

(** Writing a well-formed graph and constructing one from the snapshot gives
    back the graph: the constructor accepts, every agent and edge is the same,
    the children of every agent are the same, and the rebuilt graph writes the
    same snapshot. *)
Theorem graph_snapshot_roundtrip g : graph_ok g ->
  exists g', new_AgentGraph (snapshot g) = Ok g' /\ graph_ok g' /\ same_graph g g' /\
  snapshot g' = snapshot g.
Proof.
  intros Hg. pose proof (go_maps _ Hg) as Hm.
  pose proof (proj2 (new_AgentGraph_run (snapshot g) _) (conj eq_refl (snapshot_is_wf g Hg)))
    as Hnew.
  pose proof (new_AgentGraph_ok _ _ Hnew) as Hg'. eexists. split; [exact Hnew|].
  split; [done|]. destruct (loaded_snapshot g Hm) as (Ha & Hr & He).
  assert (forall id, jm_get (edgesByChild (loaded (snapshot g))) id =
    jm_get (edgesByChild g) id) as Hedges.
  { intros id. destruct (snapshot_entries g id Hm) as (_ & _ & _ & ?). congruence. }
  split.
  - split; [done| |done|].
    + intros id. destruct (snapshot_entries g id Hm) as (_ & _ & ? & _). congruence.
    + intros p query. apply same_index; [done|apply Hg'|done].
  - assert (listAgents localeCompare_le (loaded (snapshot g)) =
      listAgents localeCompare_le g) as Hla.
    { unfold listAgents at 1. rewrite Ha. unfold agent_entries. rewrite entries_values.
      apply sort_sorted. }
    assert (listEdges localeCompare_le (loaded (snapshot g)) =
      listEdges localeCompare_le g) as Hle.
    { unfold listEdges at 1. rewrite He. unfold edge_entries. rewrite entries_values.
      apply sort_sorted. }
    transitivity {| gs_runId := g_runId (loaded (snapshot g));
                    gs_agents := listAgents localeCompare_le (loaded (snapshot g));
                    gs_edges := listEdges localeCompare_le (loaded (snapshot g)) |}; [done|].
    by rewrite Hr, Hla, Hle.
Qed.
End Order.

(** ** The graphs a process can hold *)

Definition reachable_graph (snapshot : AgentGraphSnapshot) (g : AgentGraph) : Prop :=
  exists start, new_AgentGraph snapshot = Ok start /\ rtc (graph_step localeCompare_le) start g.

(** C23: Every graph a process can hold, constructed from any accepted snapshot
    and changed by any calls, failed ones included, is well-formed: identities
    and index agree, every child has the one parent its edge names, no edge
    dangles and no agent is its own ancestor. *)
Theorem agent_graph_wellformed snapshot g : reachable_graph snapshot g -> graph_ok g.
Proof.
  intros (start & Hnew & Hs). eapply graph_steps_sound; [|exact Hs].
  by eapply new_AgentGraph_ok.
Qed.

(** C24: The constructor accepts a snapshot exactly when it is well-formed: distinct
    identities of this run, one canonical edge per child with a close time exactly
    when closed, agents and edges agreeing on parents and tasks, no dangling edge,
    no cycle. *)
Theorem new_AgentGraph_iff snapshot :
  is_ok (new_AgentGraph snapshot) = true <-> snapshot_wf snapshot.
Proof.
  destruct (new_AgentGraph snapshot) as [g|e] eqn:E; cbn.
  - by apply new_AgentGraph_run in E as [-> ?].
  - split; [done|]. intros Hw.
    rewrite (proj2 (new_AgentGraph_run snapshot _) (conj eq_refl Hw)) in E. done.
Qed.

(** A call that throws, at any point of its body, leaves every agent, edge and
    index entry as it was. *)
Theorem failed_call_changes_nothing snapshot g op error g' :
  reachable_graph snapshot g -> run_op localeCompare_le op g = (Throw error, g') -> g' = g.
Proof.
  intros (start & Hnew & Hs) Hrun.
  assert (graph_ok g) as Hg.
  { eapply graph_steps_sound; [|exact Hs]. by eapply new_AgentGraph_ok. }
  pose proof (run_op_sound localeCompare_le g op Hg) as Ho. unfold sound in Ho.
  by rewrite Hrun in Ho.
Qed.

(** Ownership is durable: whatever is called, an agent keeps its parent and
    task and moves along the lifecycle table, a spawn edge keeps its ends, and a
    closed edge stays exactly as it was closed. *)
Theorem ownership_durable snapshot g g' : reachable_graph snapshot g ->
  rtc (graph_step localeCompare_le) g g' -> evolves g g'.
Proof.
  intros (start & Hnew & Hs) Hs'. eapply graph_steps_sound; [|exact Hs'].
  eapply graph_steps_sound; [|exact Hs]. by eapply new_AgentGraph_ok.
Qed.
End Restore.
