(* ===== verification/Supervisor.v ===== *)
(** Agent capacity, role profiles and the supervisor that puts the agent graph
    and the mailbox of a run together (packages/agents/src/capacity.ts, roles.ts,
    supervisor.ts). *)

From Stdlib Require Import ZArith Lia ZifyBool Sorted Permutation.
From stdpp Require Import base strings list relations.
From S2P Require Import Prelude JsNumber JsString JsCollections Protocol StateMachine.
From S2P Require Mailbox.
From S2P Require Import AgentGraph.
From S2P Require Import AgentTopology.
From S2P Require Import AgentTraversal.
From S2P Require Import AgentRestore.
From S2P Require Import Json.

Open Scope string_scope.
Open Scope list_scope.

(** ** Role profiles *)

(** Source: packages/protocol/src/contracts.ts:173-179 [AgentRoleProfile]. *)
Record AgentRoleProfile := {
  pr_role : AgentRole;
  pr_permissions : PermissionPolicy;
  pr_allowWrite : bool;
  pr_allowDeploy : bool;
  pr_independentContext : bool }.

(** Source: packages/agents/src/types.ts:163-163 [AgentRoleProfiles]. *)
Definition AgentRoleProfiles : Type := AgentRole -> AgentRoleProfile.

Definition mode_policy (mode : PermissionMode) : PermissionPolicy :=
  {| policy_mode := mode; policy_rules := None |}.

(** Source: packages/agents/src/roles.ts:13-63 [DEFAULT_AGENT_ROLE_PROFILES]. *)
Definition DEFAULT_AGENT_ROLE_PROFILES : AgentRoleProfiles := fun role =>
  let profile permissions write independent :=
    {| pr_role := role; pr_permissions := mode_policy permissions; pr_allowWrite := write;
       pr_allowDeploy := false; pr_independentContext := independent |} in
  match role with
  | role_coordinator => profile pm_standard true false
  | role_researcher => profile pm_safe false true
  | role_implementer => profile pm_autonomous true false
  | role_debugger => profile pm_standard true false
  | role_reviewer => profile pm_safe false true
  | role_verifier => profile pm_safe false true
  | role_specialist => profile pm_standard true true
  end.

(** Source: packages/agents/src/roles.ts:65-70 [roleProfileFor]. *)
Definition roleProfileFor (profiles : AgentRoleProfiles) (role : AgentRole)
  : AgentRoleProfile := profiles role.

(** ** Capacity *)

(** Source: packages/agents/src/capacity.ts:8-12 [RESIDENT_AGENT_STATUSES]. *)
Definition RESIDENT_AGENT_STATUSES : list AgentStatus :=
  [agent_running; agent_waiting; agent_recovering].

(** Source: packages/agents/src/capacity.ts:14-18 [isAgentResident]. *)
Definition isAgentResident (agent : Agent) : bool :=
  existsb (fun s => s === a_status agent) RESIDENT_AGENT_STATUSES.

(** Source: packages/agents/src/types.ts:148-154 [AgentCapacityAssessment]. *)
Record AgentCapacityAssessment := {
  cap_maximumResidentAgents : num;
  cap_residentAgentIds : list string;
  cap_queuedAgentIds : list string;
  cap_availableSlots : num;
  cap_overCapacity : bool }.

(** The fields of the supervisor.
    Source: packages/agents/src/supervisor.ts:21-23 [AgentSupervisor]. *)
Record AgentSupervisor := {
  graph : AgentGraph;
  mailbox : Mailbox.AgentMailbox }.

(** Source: packages/agents/src/types.ts:101-104 [AgentRuntimeSnapshot]. *)
Record AgentRuntimeSnapshot := {
  rs_graph : AgentGraphSnapshot;
  rs_mailbox : Mailbox.AgentMailboxSnapshot }.

(** Source: packages/agents/src/types.ts:139-139 [AgentWaitState]. *)
Inductive AgentWaitState : Type := wait_queued | wait_running | wait_waiting | wait_finished.

(** Source: packages/agents/src/types.ts:141-146 [AgentWaitView]. *)
Record AgentWaitView := {
  wv_agent : Agent;
  wv_state : AgentWaitState;
  wv_queuedMessageCount : Z;
  wv_openChildCount : Z }.

(** Source: packages/agents/src/supervisor.ts:157-174 [waitStateFor]. *)
Definition waitStateFor (status : AgentStatus) : AgentWaitState :=
  match status with
  | agent_created | agent_queued => wait_queued
  | agent_running | agent_recovering => wait_running
  | agent_waiting | agent_suspended => wait_waiting
  | agent_completed | agent_failed | agent_stopped | agent_closed => wait_finished
  end.

Section Supervisor.
Variable localeCompare_le : string -> string -> bool.
Variable number_to_string : num -> string.

(** Source: packages/agents/src/capacity.ts:25-59 [assessAgentCapacity]. *)
Definition assessAgentCapacity (agents : list Agent) (maximumResidentAgents : num)
  : exc AgentCapacityAssessment :=
  _ ← throw_if (negb (isSafeInteger maximumResidentAgents) ||
                js_lt maximumResidentAgents (ofZ 0))
        (InvariantViolationError
           "Maximum resident agents must be a non-negative safe integer");
  let residentAgentIds :=
    sort_by localeCompare_le (map a_id (List.filter isAgentResident agents)) in
  let queuedAgentIds :=
    sort_by localeCompare_le
      (map a_id (List.filter (fun agent => a_status agent === agent_queued) agents)) in
  let residents := ofZ (Z.of_nat (length residentAgentIds)) in
  mret {| cap_maximumResidentAgents := maximumResidentAgents;
          cap_residentAgentIds := residentAgentIds;
          cap_queuedAgentIds := queuedAgentIds;
          cap_availableSlots := math_max (ofZ 0) (js_sub maximumResidentAgents residents);
          cap_overCapacity := js_lt maximumResidentAgents residents |}.

(** Source: packages/agents/src/capacity.ts:66-87 [selectAgentsForAdmission]. *)
Definition selectAgentsForAdmission (g : AgentGraph) (maximumResidentAgents : num)
  : exc (list Agent) :=
  capacity ← assessAgentCapacity (listAgents localeCompare_le g) maximumResidentAgents;
  if js_eq (cap_availableSlots capacity) (ofZ 0) then mret []
  else
    eligible ←
      filter_exc (fun agent => if a_status agent === agent_queued
                               then hasOpenAncestry g (a_id agent) else mret false)
        (listAgents localeCompare_le g);
    sorted ← sort_by_taskPath localeCompare_le g eligible;
    mret (slice_to (cap_availableSlots capacity) sorted).

(** ** The supervisor *)

(** A method: its result and the fields it leaves. *)
Definition sm (A : Type) : Type := AgentSupervisor -> exc A * AgentSupervisor.

(** [this.graph.method(...)] *)
Definition on_graph {A} (method : gm A) : sm A := fun s =>
  let '(r, g) := method (graph s) in (r, {| graph := g; mailbox := mailbox s |}).

(** [this.mailbox.method(...)] *)
Definition on_mailbox {A} (method : Mailbox.AgentMailbox -> exc (A * Mailbox.AgentMailbox))
  : sm A := fun s =>
  match method (mailbox s) with
  | Ok (a, mb) => (Ok a, {| graph := graph s; mailbox := mb |})
  | Throw error => (Throw error, s)
  end.

(** [this.graph.requireAgent(id)] in front of the rest of a method. *)
Definition requiring {A} (check : AgentGraph -> exc unit) (rest : sm A) : sm A := fun s =>
  match check (graph s) with
  | Ok _ => rest s
  | Throw error => (Throw error, s)
  end.

Definition known (agentId : string) (g : AgentGraph) : exc unit :=
  _ ← requireAgent g agentId; mret tt.

(** Source: packages/agents/src/supervisor.ts:25-37 [AgentSupervisor.constructor]. *)
Definition new_AgentSupervisor (snapshot : AgentRuntimeSnapshot) : exc AgentSupervisor :=
  _ ← throw_if (gs_runId (rs_graph snapshot) !== Mailbox.snap_runId (rs_mailbox snapshot))
        (InvariantViolationError "Agent graph and mailbox must belong to the same run");
  g ← new_AgentGraph localeCompare_le (rs_graph snapshot);
  mb ← Mailbox.new_AgentMailbox (rs_mailbox snapshot);
  mret {| graph := g; mailbox := mb |}.

(** Source: packages/agents/src/supervisor.ts:50-55 [AgentSupervisor.snapshot]. *)
Definition runtime_snapshot (s : AgentSupervisor) : AgentRuntimeSnapshot :=
  {| rs_graph := snapshot localeCompare_le (graph s);
     rs_mailbox := Mailbox.snapshot (mailbox s) |}.

(** Source: packages/agents/src/supervisor.ts:39-44 [AgentSupervisor.empty]. *)
Definition empty_supervisor (runId : string) : exc AgentSupervisor :=
  g ← empty_graph localeCompare_le runId;
  mb ← Mailbox.empty_mailbox runId;
  new_AgentSupervisor {| rs_graph := snapshot localeCompare_le g;
                         rs_mailbox := Mailbox.snapshot mb |}.

(** Source: packages/agents/src/supervisor.ts:46-48 [AgentSupervisor.runId]. *)
Definition supervisor_runId (s : AgentSupervisor) : string := g_runId (graph s).

(** The checks of a send.
    Source: packages/agents/src/supervisor.ts:67-75 [sendMessage, checks]. *)
Definition may_send (input : Mailbox.EnqueueAgentMessageInput) (g : AgentGraph) : exc unit :=
  recipient ← requireAgent g (Mailbox.in_recipientAgentId input);
  _ ← throw_if (a_status recipient === agent_closed)
        (InvariantViolationError "Cannot send input to a closed agent");
  match Mailbox.in_senderAgentId input with
  | Some sender => known sender g
  | None => mret tt
  end.

(** Source: packages/agents/src/supervisor.ts:66-77 [sendMessage]. *)
Definition sendMessage (input : Mailbox.EnqueueAgentMessageInput)
  : sm Mailbox.AgentMailboxMessage :=
  requiring (may_send input)
    (on_mailbox (fun mb => Mailbox.enqueue number_to_string mb input)).

(** [{ ...input, kind: "input" }] *)
Definition as_input (input : Mailbox.EnqueueAgentMessageInput)
  : Mailbox.EnqueueAgentMessageInput :=
  {| Mailbox.in_recipientAgentId := Mailbox.in_recipientAgentId input;
     Mailbox.in_kind := Mailbox.mk_input;
     Mailbox.in_payload := Mailbox.in_payload input;
     Mailbox.in_createdAt := Mailbox.in_createdAt input;
     Mailbox.in_senderAgentId := Mailbox.in_senderAgentId input;
     Mailbox.in_idempotencyKey := Mailbox.in_idempotencyKey input;
     Mailbox.in_messageId := Mailbox.in_messageId input |}.

(** Source: packages/agents/src/supervisor.ts:79-83 [sendInput]. *)
Definition sendInput (input : Mailbox.EnqueueAgentMessageInput)
  : sm Mailbox.AgentMailboxMessage := sendMessage (as_input input).

(** Source: packages/agents/src/supervisor.ts:85-90 [claimMessages]. *)
Definition claimMessages (input : Mailbox.ClaimAgentMessagesInput)
  : sm (list Mailbox.AgentMailboxMessage) :=
  requiring (known (Mailbox.cl_recipientAgentId input))
    (on_mailbox (fun mb => Mailbox.claim number_to_string mb input)).

(** Source: packages/agents/src/supervisor.ts:92-105 [acknowledgeMessage]. *)
Definition acknowledgeMessage (messageId recipientAgentId acknowledgedAt : string)
  (deliveryId : option string) : sm Mailbox.AgentMailboxMessage :=
  requiring (known recipientAgentId)
    (on_mailbox (fun mb =>
       Mailbox.acknowledge mb messageId recipientAgentId acknowledgedAt deliveryId)).

(** Source: packages/agents/src/supervisor.ts:107-120 [requeueMessage]. *)
Definition requeueMessage (messageId recipientAgentId requeuedAt : string)
  (deliveryId : option string) : sm Mailbox.AgentMailboxMessage :=
  requiring (known recipientAgentId)
    (on_mailbox (fun mb =>
       Mailbox.requeue mb messageId recipientAgentId requeuedAt deliveryId)).

(** The methods that pass a call on to the graph: [registerRoot], [spawn],
    [resumeAgent], [suspendAgent], [stopAgent] and [closeAgent].
    Source: packages/agents/src/supervisor.ts:122-140 [AgentSupervisor, graph methods]. *)
Definition supervise (op : graph_op) : sm unit := on_graph (run_op localeCompare_le op).

(** Source: packages/agents/src/supervisor.ts:146-154 [waitForAgent]. *)
Definition waitForAgent (s : AgentSupervisor) (agentId : string) : exc AgentWaitView :=
  agent ← requireAgent (graph s) agentId;
  mret {| wv_agent := agent;
          wv_state := waitStateFor (a_status agent);
          wv_queuedMessageCount := Mailbox.queuedCountFor (mailbox s) agentId;
          wv_openChildCount := openChildCount (graph s) agentId |}.

(** ** Admission *)

Lemma map_exc_total {A B} (f : A -> exc B) (h : A -> B) l :
  (forall a, a ∈ l -> f a = Ok (h a)) -> map_exc f l = Ok (map h l).
Proof.
  induction l as [|a l IH]; intros H; [done|]. cbn.
  rewrite H, IH by auto using list_elem_of_here, list_elem_of_further. done.
Qed.

Lemma filter_exc_total {A} (f : A -> exc bool) (h : A -> bool) l :
  (forall a, a ∈ l -> f a = Ok (h a)) -> filter_exc f l = Ok (List.filter h l).
Proof.
  induction l as [|a l IH]; intros H; [done|]. cbn.
  rewrite H, IH by auto using list_elem_of_here, list_elem_of_further. done.
Qed.

Lemma taskPath_total g id : graph_ok g -> jm_has (agentsById g) id = true ->
  exists path, taskPath g id = Ok path.
Proof.
  intros Hg Hid. destruct (to_acyclic _ Hg _ Hid) as [l Hl].
  destruct (ancestors_lineage g id l (maps_keyed g Hg) Hl) as (parents & _ & _ & Ha).
  apply jm_has_get in Hid as (a & Hin). unfold taskPath.
  rewrite Ha, (proj2 (requireAgent_ok g id a) Hin). cbn. eauto.
Qed.

(** The order by task path never throws and loses no agent. *)
Lemma sort_by_taskPath_total g agents : graph_ok g ->
  (forall a, a ∈ agents -> jm_get (agentsById g) (a_id a) = Some a) ->
  exists sorted, sort_by_taskPath localeCompare_le g agents = Ok sorted /\ sorted ≡ₚ agents.
Proof.
  intros Hg Hin. unfold sort_by_taskPath. case_match; [by eexists|].
  set (key a := match taskPath g (a_id a) with Ok path => tp_key path | Throw _ => "" end).
  rewrite (map_exc_total _ (fun a => (key a, a))).
  - cbn. eexists. split; [done|]. rewrite sort_by_Permutation.
    clear. induction agents as [|a l IH]; [done|]. cbn. by constructor.
  - intros a Ha. destruct (taskPath_total g (a_id a) Hg) as [path Hp].
    { apply jm_has_get. eauto. }
    unfold key. by rewrite Hp.
Qed.

Lemma listAgents_elem g a : maps_ok g ->
  a ∈ listAgents localeCompare_le g <-> jm_get (agentsById g) (a_id a) = Some a.
Proof.
  intros Hg. unfold listAgents. rewrite sort_by_elem, jm_values_elem by apply Hg. split.
  - intros [k Hk]. by destruct (mo_agent _ Hg _ _ Hk) as [-> _].
  - eauto.
Qed.

(** Queued, on a branch open up to a root. *)
Definition admissible (g : AgentGraph) (a : Agent) : Prop :=
  jm_get (agentsById g) (a_id a) = Some a /\ a_status a = agent_queued /\
  hasOpenAncestry g (a_id a) = Ok true.

Definition residents (g : AgentGraph) : Z :=
  Z.of_nat (length (List.filter isAgentResident (listAgents localeCompare_le g))).

Lemma assessAgentCapacity_ok agents maximum : (0 <= maximum < 2 ^ 53)%Z ->
  (Z.of_nat (length agents) < 2 ^ 32)%Z ->
  exists capacity, assessAgentCapacity agents (ofZ maximum) = Ok capacity /\
    cap_availableSlots capacity =
      ofZ (Z.max 0 (maximum - Z.of_nat (length (List.filter isAgentResident agents)))).
Proof.
  intros Hmax Hlen. unfold assessAgentCapacity.
  rewrite isSafeInteger_ofZ, (js_lt_ofZ maximum 0) by lia. assert ((maximum <? 0)%Z = false) as -> by lia.
  cbn [negb orb throw_if mbind result_bind]. eexists. split; [done|].
  cbn [cap_availableSlots]. rewrite sort_by_length, length_map.
  pose proof (length_filter_le isAgentResident agents).
  set (n := Z.of_nat (length (List.filter isAgentResident agents))).
  assert (0 <= n < 2 ^ 32)%Z as Hn by lia.
  assert (js_sub (ofZ maximum) (ofZ n) = ofZ (maximum - n)) as ->.
  { unfold js_sub. change (js_neg (ofZ n)) with (Fin (- (n * one_units))).
    replace (Fin (- (n * one_units))) with (ofZ (- n)) by (unfold ofZ; f_equal; ring).
    by rewrite js_add_ofZ by lia. }
  unfold math_max. change (ofZ 0) with (Fin (0 * one_units)). cbv beta iota.
  change (Fin (0 * one_units)) with (ofZ 0).
  change (match ofZ (maximum - n) with NaN => NaN | _ =>
    if js_lt (ofZ 0) (ofZ (maximum - n)) then ofZ (maximum - n) else ofZ 0 end)
    with (if js_lt (ofZ 0) (ofZ (maximum - n)) then ofZ (maximum - n) else ofZ 0).
  rewrite js_lt_ofZ. destruct (Z.ltb_spec 0 (maximum - n)); f_equal; lia.
Qed.

Lemma slice_to_ofZ {A} n (l : list A) : slice_to (ofZ n) l = firstn (Z.to_nat n) l.
Proof. unfold slice_to. change (ofZ n) with (Fin (n * one_units)). cbv iota beta.
  change (Fin (n * one_units)) with (ofZ n). by rewrite toZ_ofZ. Qed.

(** Admission respects capacity and wastes none: on a well-formed graph
    [selectAgentsForAdmission] never throws for a valid maximum; it selects
    distinct queued agents on open branches, so many that residents and selected
    stay within the maximum (none when residents already exceed it), and unless
    it fills every slot it selects all such agents. *)
Theorem admission_within_capacity g maximum : graph_ok g -> (0 <= maximum < 2 ^ 53)%Z ->
  (Z.of_nat (length (listAgents localeCompare_le g)) < 2 ^ 32)%Z ->
  exists selected, selectAgentsForAdmission g (ofZ maximum) = Ok selected /\
    NoDup (map a_id selected) /\ (forall a, a ∈ selected -> admissible g a) /\
    (residents g + Z.of_nat (length selected) <= Z.max maximum (residents g))%Z /\
    ((residents g + Z.of_nat (length selected) < maximum)%Z ->
     forall a, admissible g a -> a ∈ selected).
Proof.
  intros Hg Hmax Hlen. unfold selectAgentsForAdmission.
  destruct (assessAgentCapacity_ok _ _ Hmax Hlen) as (capacity & -> & Hslots).
  cbn [mbind result_bind]. rewrite Hslots, js_eq_ofZ. fold (residents g) in *.
  set (slots := Z.max 0 (maximum - residents g)).
  destruct (Z.eqb_spec slots 0) as [Hz|Hz].
  { exists []. split; [done|]. split; [constructor|].
    split; [by intros a ?%not_elem_of_nil|]. simpl. lia. }
  set (open a := (a_status a === agent_queued) &&
    match hasOpenAncestry g (a_id a) with Ok b => b | Throw _ => false end).
  rewrite (filter_exc_total _ open).
  2: { intros a Ha. apply listAgents_elem in Ha; [|apply Hg].
       destruct (ancestry_agrees g (a_id a) Hg) as (l & b & _ & Hopen & _);
         [apply jm_has_get; eauto|].
       unfold open. case_bool_decide; [|done]. by rewrite Hopen. }
  cbn [mbind result_bind].
  set (eligible := List.filter open (listAgents localeCompare_le g)).
  assert (forall a, a ∈ eligible <-> admissible g a) as Hel.
  { intros a. unfold eligible, admissible. rewrite elem_of_list_filter, listAgents_elem by apply Hg.
    unfold open. rewrite andb_true_iff, bool_decide_eq_true.
    destruct (hasOpenAncestry g (a_id a)) as [[]|]; intuition congruence. }
  destruct (sort_by_taskPath_total g eligible Hg) as (sorted & -> & Hperm).
  { intros a Ha%Hel. apply Ha. }
  cbn [mbind result_bind]. rewrite slice_to_ofZ. exists (firstn (Z.to_nat slots) sorted).
  assert (NoDup (map a_id sorted)) as Hnd.
  { rewrite Hperm. apply NoDup_map_filter. by destruct (snapshot_entries localeCompare_le g "" Hg). }
  split; [done|]. split; [|split; [|split]].
  - rewrite <- firstn_map. rewrite <- (firstn_skipn (Z.to_nat slots)) in Hnd.
    by apply NoDup_app in Hnd as [? _].
  - intros a Ha. apply Hel. rewrite <- Hperm. rewrite <- (firstn_skipn (Z.to_nat slots) sorted).
    apply elem_of_app. by left.
  - rewrite length_firstn. lia.
  - intros Hlt a Ha%Hel. rewrite length_firstn in Hlt.
    rewrite firstn_all2 by lia. by rewrite Hperm.
Qed.

(** ** The supervisor's calls *)

(** What a client may call: the supervisor's methods, every method of its public
    graph, and the cancellation of its public mailbox. *)
Inductive supervisor_op : Type :=
| sv_graph (op : graph_op)
| sv_send (input : Mailbox.EnqueueAgentMessageInput)
| sv_sendInput (input : Mailbox.EnqueueAgentMessageInput)
| sv_claim (input : Mailbox.ClaimAgentMessagesInput)
| sv_acknowledge (messageId recipientAgentId at_ : string) (deliveryId : option string)
| sv_requeue (messageId recipientAgentId at_ : string) (deliveryId : option string)
| sv_cancel (messageId at_ : string) (reason : option string).

(** The state a call leaves. *)
Definition run_supervisor (op : supervisor_op) (s : AgentSupervisor) : AgentSupervisor :=
  match op with
  | sv_graph op => (supervise op s).2
  | sv_send input => (sendMessage input s).2
  | sv_sendInput input => (sendInput input s).2
  | sv_claim input => (claimMessages input s).2
  | sv_acknowledge id r t d => (acknowledgeMessage id r t d s).2
  | sv_requeue id r t d => (requeueMessage id r t d s).2
  | sv_cancel id t reason => (on_mailbox (fun mb => Mailbox.cancel mb id t reason) s).2
  end.

(** One call, whatever it returns, while the mailbox's counters have room. *)
Definition supervisor_step (s s' : AgentSupervisor) : Prop :=
  Mailbox.room (mailbox s) /\ exists op, s' = run_supervisor op s.

(** Every message is between agents of the graph. *)
Definition participants_known (s : AgentSupervisor) : Prop :=
  forall id m, jm_get (Mailbox.messagesById (mailbox s)) id = Some m ->
    jm_has (agentsById (graph s)) (Mailbox.m_recipientAgentId m) = true /\
    forall sender, Mailbox.m_senderAgentId m = Some sender ->
      jm_has (agentsById (graph s)) sender = true.

Record supervisor_ok (s : AgentSupervisor) : Prop := {
  so_graph : graph_ok (graph s);
  so_mailbox : Mailbox.mailbox_ok (mailbox s);
  so_run : Mailbox.mb_runId (mailbox s) = g_runId (graph s);
  so_known : participants_known s }.

Lemma evolves_has g g' id : evolves g g' -> jm_has (agentsById g) id = true ->
  jm_has (agentsById g') id = true.
Proof.
  rewrite !jm_has_get. intros He (a & Ha). destruct (ev_agent _ _ He _ _ Ha) as (a' & ? & _). eauto.
Qed.

Lemma graph_call_ok s op : supervisor_ok s -> supervisor_ok (supervise op s).2.
Proof.
  intros [Hg Hm Hr Hk].
  destruct (graph_step_sound localeCompare_le (graph s) (run_op localeCompare_le op (graph s)).2)
    as [Hg' He]; [done|by exists op|].
  unfold supervise, on_graph. destruct (run_op localeCompare_le op (graph s)) as [r g']; cbn in *.
  split; cbn; [done|done|rewrite (ev_run _ _ He); done|].
  intros id m Hin. destruct (Hk id m Hin) as [Hrec Hsend]. cbn. split; [by eapply evolves_has|].
  intros sender Hs. eapply evolves_has; eauto.
Qed.

(** A call keeps the invariant, and a message it adds goes to an agent that is
    not closed. *)
Record call_sound (s s' : AgentSupervisor) : Prop := {
  cs_ok : supervisor_ok s';
  cs_new : forall id m, jm_get (Mailbox.messagesById (mailbox s')) id = Some m ->
    (exists m0, jm_get (Mailbox.messagesById (mailbox s)) id = Some m0 /\
       Mailbox.same_content m0 m) \/
    (exists recipient, jm_get (agentsById (graph s)) (Mailbox.m_recipientAgentId m) = Some recipient /\
       a_status recipient <> agent_closed) }.

Lemma same_content_refl m : Mailbox.same_content m m.
Proof. by split. Qed.

Lemma call_unchanged s s' : supervisor_ok s' ->
  Mailbox.messagesById (mailbox s') = Mailbox.messagesById (mailbox s) -> call_sound s s'.
Proof.
  intros Hs Hm. split; [done|]. intros id m. rewrite Hm. intros Hin. left. exists m.
  split; [done|]. apply same_content_refl.
Qed.

Lemma graph_call_sound s op : supervisor_ok s -> call_sound s (supervise op s).2.
Proof.
  intros Hs. apply call_unchanged; [by apply graph_call_ok|].
  unfold supervise, on_graph. by destruct (run_op localeCompare_le op (graph s)).
Qed.

(** A call on the mailbox that sends nothing. *)
Lemma mailbox_call_sound s op out mb' : supervisor_ok s -> Mailbox.room (mailbox s) ->
  (forall input, op <> Mailbox.op_enqueue input) ->
  Mailbox.run_op number_to_string (mailbox s) op = Ok (out, mb') ->
  call_sound s {| graph := graph s; mailbox := mb' |}.
Proof.
  intros [Hg Hm Hr Hk] Hroom Hne Hrun.
  destruct (Mailbox.run_op_replaces number_to_string _ _ _ _ Hm Hne Hrun) as (news & Hnews & ->).
  assert (forall id m, jm_get (Mailbox.messagesById (Mailbox.replace_all (mailbox s) news)) id = Some m ->
    exists m0, jm_get (Mailbox.messagesById (mailbox s)) id = Some m0 /\
      Mailbox.same_content m0 m) as Hsame.
  { intros id m. rewrite Mailbox.replace_all_get by apply Hnews.
    destruct (find _ news) as [new|] eqn:E.
    - apply find_some in E as [Hin%list_elem_of_In Heq]. bool_hyps. intros [= <-].
      destruct (Mailbox.news_progress _ _ Hnews _ Hin) as (cur & Hcur & Hp).
      rewrite Heq in Hcur. exists cur. split; [done|apply Hp].
    - intros Hin. exists m. split; [done|]. apply same_content_refl. }
  split; [|by auto]. split; [done|by apply Mailbox.replace_all_ok|done|].
  intros id m (m0 & Hm0 & Hc)%Hsame. destruct (Hk id m0 Hm0) as [Hrec Hsend].
  cbn [graph]. rewrite <- (Mailbox.same_recipient _ _ Hc), <- (Mailbox.same_sender _ _ Hc). done.
Qed.

Lemma known_has id g u : known id g = Ok u -> jm_has (agentsById g) id = true.
Proof.
  unfold known. destruct (requireAgent g id) as [a|] eqn:E; [|done]. intros _.
  by eapply requireAgent_has.
Qed.

Lemma may_send_ok input g u : may_send input g = Ok u ->
  (exists recipient, jm_get (agentsById g) (Mailbox.in_recipientAgentId input) = Some recipient /\
     a_status recipient <> agent_closed) /\
  forall sender, Mailbox.in_senderAgentId input = Some sender -> jm_has (agentsById g) sender = true.
Proof.
  unfold may_send. intros (recipient & Hrec%requireAgent_ok & Hrest)%bind_ok.
  apply seq_ok in Hrest as [Hopen%throw_if_ok Hsend]. bool_hyps. split; [eauto|].
  intros sender Hs. rewrite Hs in Hsend. by eapply known_has.
Qed.

Lemma send_sound s input : supervisor_ok s -> Mailbox.room (mailbox s) ->
  call_sound s (sendMessage input s).2.
Proof.
  intros Hs Hroom. pose proof Hs as [Hg Hm Hr Hk]. unfold sendMessage, requiring, on_mailbox.
  destruct (may_send input (graph s)) as [u|] eqn:Hmay; [|by apply call_unchanged].
  apply may_send_ok in Hmay as [(rec & Hrec & Hopen) Hsend].
  destruct (Mailbox.enqueue number_to_string (mailbox s) input) as [[m mb']|] eqn:E;
    [|by apply call_unchanged]. cbn [snd].
  pose proof E as Hcase.
  apply Mailbox.enqueue_ok in Hcase as [[-> _]|(Hex & id & Hfresh & -> & ->)].
  { apply call_unchanged; [|done]. by destruct s. }
  assert (forall id' m', jm_get (Mailbox.messagesById (Mailbox.enqueued (mailbox s) id input)) id' = Some m' ->
    jm_get (Mailbox.messagesById (mailbox s)) id' = Some m' \/
    m' = Mailbox.queued_message (mailbox s) id input) as Hcases.
  { intros id' m'. cbn [Mailbox.enqueued Mailbox.messagesById]. rewrite jm_get_set.
    case_decide; [intros [= <-]; auto|auto]. }
  split.
  - split; [done|by apply (Mailbox.enqueued_ok number_to_string)|done|].
    intros id' m' [Hin| ->]%Hcases; [by apply (Hk id')|]. cbn. split; [apply jm_has_get; eauto|done].
  - intros id' m' [Hin| ->]%Hcases; [left; exists m'; split; [done|apply same_content_refl]|].
    right. by exists rec.
Qed.

(** A mailbox method behind a check of the graph. *)
Lemma guarded_call_sound {A} s check (op : Mailbox.mailbox_op)
  (method : Mailbox.AgentMailbox -> exc (A * Mailbox.AgentMailbox)) :
  supervisor_ok s -> Mailbox.room (mailbox s) ->
  (forall input, op <> Mailbox.op_enqueue input) ->
  (forall mb a mb', method mb = Ok (a, mb') ->
     exists out, Mailbox.run_op number_to_string mb op = Ok (out, mb')) ->
  call_sound s (requiring check (on_mailbox method) s).2.
Proof.
  intros Hs Hroom Hne Hop. unfold requiring, on_mailbox.
  destruct (check (graph s)); [|by apply call_unchanged].
  destruct (method (mailbox s)) as [[a mb']|] eqn:E; [|by apply call_unchanged].
  apply Hop in E as (out & E). by eapply mailbox_call_sound.
Qed.

Lemma supervisor_call_sound s op : supervisor_ok s -> Mailbox.room (mailbox s) ->
  call_sound s (run_supervisor op s).
Proof.
  intros Hs Hroom.
  destruct op as [op|input|input|input|id r t d|id r t d|id t reason]; cbn [run_supervisor];
    [by apply graph_call_sound|by apply send_sound|by apply send_sound| | | |].
  - apply (guarded_call_sound s _ (Mailbox.op_claim input)); [done|done|done|]. eauto.
  - apply (guarded_call_sound s _ (Mailbox.op_acknowledge id r t d)); [done|done|done|].
    intros mb a mb' E. cbn. rewrite E. eauto.
  - apply (guarded_call_sound s _ (Mailbox.op_requeue id r t d)); [done|done|done|].
    intros mb a mb' E. cbn. rewrite E. eauto.
  - change (on_mailbox ?m s) with (requiring (fun _ => Ok tt) (on_mailbox m) s).
    apply (guarded_call_sound s _ (Mailbox.op_cancel id t reason)); [done|done|done|].
    intros mb a mb' E. cbn. rewrite E. eauto.
Qed.

Lemma empty_supervisor_ok runId s : empty_supervisor runId = Ok s -> supervisor_ok s.
Proof.
  unfold empty_supervisor, new_AgentSupervisor. intros (g & Hg & H)%bind_ok.
  apply bind_ok in H as (mb & Hmb & H). apply seq_ok in H as [Hrun%throw_if_ok H]. bool_hyps.
  apply bind_ok in H as (g' & Hg' & H). apply bind_ok in H as (mb' & Hmb' & [= <-]).
  pose proof (Mailbox.empty_mailbox_ok _ _ Hmb) as Hok.
  destruct (Mailbox.snapshot_loads mb Hok) as (mb2 & Hload & Hok2 & Hsame).
  cbn in Hmb', Hg', Hrun. assert (mb2 = mb') as -> by congruence.
  assert (Mailbox.messagesById mb = []) as Hnil by (unfold Mailbox.empty_mailbox in Hmb;
    vm_compute in Hmb; injection Hmb as <-; done).
  split; cbn [graph mailbox].
  - by eapply new_AgentGraph_ok.
  - done.
  - rewrite <- (Mailbox.sm_run _ _ Hsame). 
    apply new_AgentGraph_run in Hg' as [-> _].
    destruct (fold_put_edge localeCompare_le (loaded_agents (gs_runId (snapshot localeCompare_le g))
      (gs_agents (snapshot localeCompare_le g))) (gs_edges (snapshot localeCompare_le g)))
      as (_ & Hr & _). unfold loaded. rewrite Hr. symmetry. exact Hrun.
  - intros id m. cbn [mailbox]. rewrite <- (Mailbox.sm_messages _ _ Hsame), Hnil. done.
Qed.

(** The supervisor composes graph and mailbox safely: after any calls on a
    fresh supervisor, failed ones included, graph and mailbox keep their
    invariants, both belong to one run, and every message is between agents of
    the graph; and whatever call comes next, a message it adds is for an agent
    that is not closed. *)
Theorem supervisor_messages_live_agents runId start s s' :
  empty_supervisor runId = Ok start -> rtc supervisor_step start s -> supervisor_step s s' ->
  supervisor_ok s /\ call_sound s s'.
Proof.
  intros Hstart%empty_supervisor_ok Hs Hstep.
  assert (supervisor_ok s) as Hok.
  { clear Hstep. induction Hs as [s|s1 s2 s3 [Hroom [op ->]] _ IH]; [done|].
    apply IH. by apply supervisor_call_sound. }
  split; [done|]. destruct Hstep as [Hroom [op ->]]. by apply supervisor_call_sound.
Qed.
End Supervisor.

(** * A concrete agent graph, a cyclic one and a supervisor, on which the properties of
the agent packages are instantiated. *)

(** ** Code unit order, one instance of [localeCompare] *)

Lemma leb_total a b : String.leb a b = true \/ String.leb b a = true.
Proof. apply String.leb_total. Qed.

Lemma ascii_compare_N a b : Ascii.compare a b = N.compare (Ascii.N_of_ascii a) (Ascii.N_of_ascii b).
Proof. done. Qed.

Lemma leb_trans a b c : String.leb a b = true -> String.leb b c = true -> String.leb a c = true.
Proof.
  revert b c. unfold String.leb.
  induction a as [|x a IH]; intros [|y b] [|z c]; cbn; try done.
  specialize (IH b c). rewrite !ascii_compare_N.
  destruct (N.compare_spec (Ascii.N_of_ascii x) (Ascii.N_of_ascii y)) as [Hxy|Hxy|Hxy]; [| |done];
    destruct (N.compare_spec (Ascii.N_of_ascii y) (Ascii.N_of_ascii z)) as [Hyz|Hyz|Hyz];
    try done; intros H1 H2;
    destruct (N.compare_spec (Ascii.N_of_ascii x) (Ascii.N_of_ascii z)); try done; try lia.
Qed.

(** ** A tree of four agents *)

Definition demo_policy : PermissionPolicy := {| policy_mode := pm_safe; policy_rules := None |}.

Definition demo_sandbox : SandboxPolicy :=
  {| sb_filesystem := {| writableRoots := []; readOnlyRoots := [] |};
     sb_network := {| network_enabled := false; allowedDestinations := [] |};
     sb_process := {| process_enabled := false; allowedCommands := None |};
     sb_permissions := demo_policy |}.

Definition demo_agent (id : string) (parent : option string) (status : AgentStatus) : Agent :=
  {| a_id := id; a_runId := "run"; a_parentAgentId := parent; a_taskId := None;
     a_role := role_implementer; a_status := status; a_sessionEpochIds := [];
     a_worktreeUri := None; a_permissions := demo_policy; a_sandbox := demo_sandbox;
     a_spawnedAt := "t0"; a_closedAt := None; a_createdAt := "t0"; a_updatedAt := "t0" |}.

Definition demo_edge (parent child : string) : AgentGraphEdge :=
  {| e_key := createAgentSpawnEdgeKey parent child; e_parentAgentId := parent;
     e_childAgentId := child; e_runId := "run"; e_taskId := None; e_state := edge_open;
     e_closedAt := None; e_closeReason := None; e_createdAt := "t0"; e_updatedAt := "t0" |}.

(** A root [r] with children [a] and [c], and [b] below [a]. *)
Definition demo_snapshot : AgentGraphSnapshot :=
  {| gs_runId := "run";
     gs_agents := [demo_agent "b" (Some "a") agent_queued; demo_agent "r" None agent_running;
                   demo_agent "a" (Some "r") agent_waiting; demo_agent "c" (Some "r") agent_queued];
     gs_edges := [demo_edge "r" "c"; demo_edge "a" "b"; demo_edge "r" "a"] |}.

Definition demo_graph : AgentGraph := loaded String.leb demo_snapshot.

Lemma demo_new : new_AgentGraph String.leb demo_snapshot = Ok demo_graph.
Proof. vm_compute. reflexivity. Qed.

Lemma demo_reachable : reachable_graph String.leb demo_snapshot demo_graph.
Proof. exists demo_graph. split; [exact demo_new|apply rtc_refl]. Qed.

Lemma demo_ok : graph_ok demo_graph.
Proof. exact (new_AgentGraph_ok _ _ _ demo_new). Qed.

(** The order of the walk, and the path of the deepest agent. *)
Example demo_descendants :
  (l ← descendants demo_graph "r" (Some edge_open); mret (map a_id l)) = Ok ["a"; "b"; "c"].
Proof. vm_compute. reflexivity. Qed.

Example demo_taskPath : (path ← taskPath demo_graph "b"; mret (tp_key path)) = Ok "r:-/a:-/b:-".
Proof. vm_compute. reflexivity. Qed.

(** Two agents, each the parent of the other. *)
Definition cyclic_graph : AgentGraph :=
  {| g_runId := "run";
     agentsById := [("x", demo_agent "x" (Some "y") agent_queued);
                    ("y", demo_agent "y" (Some "x") agent_queued)];
     edgesByChild := [("x", demo_edge "y" "x"); ("y", demo_edge "x" "y")];
     edgesByParent := [("y", [demo_edge "y" "x"]); ("x", [demo_edge "x" "y"])] |}.

Lemma cyclic_keyed : keyed cyclic_graph.
Proof.
  split; [apply (bool_decide_eq_true_1 _); vm_compute; reflexivity|].
  intros id a. cbn. repeat case_decide; intros [= <-]; done.
Qed.

(** ** Witnesses *)

Lemma traversals_terminate_witness :
  keyed cyclic_graph /\
  exists r, visit cyclic_graph None (traversal_fuel cyclic_graph) "x" (["x"], []) = Some r.
Proof.
  split; [exact cyclic_keyed|].
  apply (traversals_terminate cyclic_graph "x" (demo_agent "x" (Some "y") agent_queued) None
    cyclic_keyed eq_refl).
Defined.

Lemma descendants_reachable_witness :
  exists l, descendants demo_graph "r" (Some edge_open) = Ok l /\ NoDup (map a_id l).
Proof.
  destruct (descendants_reachable demo_graph "r" (Some edge_open) demo_ok eq_refl)
    as (l & Hl & _ & Hn & _).
  exists l. split; [exact Hl|exact Hn].
Defined.

Lemma ancestry_agrees_witness :
  exists l open, ancestors demo_graph "b" = Ok l /\ hasOpenAncestry demo_graph "b" = Ok open.
Proof.
  destruct (ancestry_agrees demo_graph "b" demo_ok eq_refl) as (l & open & Ha & Ho & _).
  exists l, open. split; [exact Ha|exact Ho].
Defined.

Lemma graph_snapshot_roundtrip_witness :
  exists g, new_AgentGraph String.leb (snapshot String.leb demo_graph) = Ok g /\ graph_ok g.
Proof.
  destruct (graph_snapshot_roundtrip String.leb leb_total leb_trans demo_graph demo_ok)
    as (g & Hg & Hok & _).
  exists g. split; [exact Hg|exact Hok].
Defined.

Lemma agent_graph_wellformed_witness : graph_ok demo_graph.
Proof. exact (agent_graph_wellformed String.leb demo_snapshot demo_graph demo_reachable). Defined.

(** Resuming [a] behind a closed edge fails. *)
Definition demo_closed : AgentGraph :=
  (run_op String.leb (op_closeSpawnEdge "a" "t1" None) demo_graph).2.

Lemma demo_closed_reachable : reachable_graph String.leb demo_snapshot demo_closed.
Proof.
  exists demo_graph. split; [exact demo_new|]. apply rtc_once.
  exists (op_closeSpawnEdge "a" "t1" None). reflexivity.
Qed.

Lemma failed_call_changes_nothing_witness :
  (run_op String.leb (op_resumeAgent "b" "t2") demo_closed).2 = demo_closed.
Proof.
  destruct (run_op String.leb (op_resumeAgent "b" "t2") demo_closed) as [r g'] eqn:E.
  destruct r as [[]|error]; [vm_compute in E; discriminate E|].
  exact (failed_call_changes_nothing String.leb demo_snapshot demo_closed _ error g'
    demo_closed_reachable E).
Defined.

Lemma ownership_durable_witness : evolves demo_graph demo_closed.
Proof.
  apply (ownership_durable String.leb demo_snapshot demo_graph demo_closed demo_reachable).
  apply rtc_once. exists (op_closeSpawnEdge "a" "t1" None). reflexivity.
Defined.

(** One slot beside the two residents: [b] is admitted, [c] waits. *)
Example demo_admission :
  (l ← selectAgentsForAdmission String.leb demo_graph (ofZ 3); mret (map a_id l)) = Ok ["b"].
Proof. vm_compute. reflexivity. Qed.

Lemma admission_within_capacity_witness :
  exists selected, selectAgentsForAdmission String.leb demo_graph (ofZ 3) = Ok selected /\
    (residents String.leb demo_graph + Z.of_nat (length selected) <= 3)%Z.
Proof.
  destruct (admission_within_capacity String.leb demo_graph 3 demo_ok) as (l & Hl & _ & _ & Hb & _);
    [split; [vm_compute; discriminate|vm_compute; reflexivity]|vm_compute; reflexivity|].
  exists l. split; [exact Hl|].
  assert (residents String.leb demo_graph = 2%Z) as Hr by (vm_compute; reflexivity).
  rewrite Hr in Hb |- *. lia.
Defined.

(** ** A supervisor *)

Definition demo_supervisor : AgentSupervisor :=
  match empty_supervisor String.leb "run" with
  | Ok s => s
  | Throw _ => {| graph := demo_graph; mailbox := Mailbox.demo_start |}
  end.

Definition demo_registered : AgentSupervisor :=
  run_supervisor String.leb (fun _ => "1") (sv_graph (op_registerRoot (demo_agent "agent_a" None agent_created)))
    demo_supervisor.

Definition demo_sent : AgentSupervisor :=
  run_supervisor String.leb (fun _ => "1") (sv_send Mailbox.demo_input) demo_registered.

Example demo_sent_count : length (Mailbox.messagesById (mailbox demo_sent)) = 1.
Proof. vm_compute. reflexivity. Qed.

Lemma demo_room s : Mailbox.messagesById (mailbox s) = [] ->
  Mailbox.nextSequence (mailbox s) = ofZ 1 -> Mailbox.room (mailbox s).
Proof.
  intros Hm Hn. split; [rewrite Hn; vm_compute; reflexivity|].
  intros id m. rewrite Hm. discriminate.
Qed.

Lemma supervisor_messages_live_agents_witness :
  supervisor_ok demo_registered /\ call_sound demo_registered demo_sent.
Proof.
  apply (supervisor_messages_live_agents String.leb (fun _ => "1") "run" demo_supervisor).
  - vm_compute. reflexivity.
  - apply rtc_once. split; [apply demo_room; vm_compute; reflexivity|].
    exists (sv_graph (op_registerRoot (demo_agent "agent_a" None agent_created))). reflexivity.
  - split; [apply demo_room; vm_compute; reflexivity|].
    exists (sv_send Mailbox.demo_input). reflexivity.
Defined.
