(* ===== verification/StoreData.v ===== *)
(** The durable store's data: the tables of the control plane's database as
    lists of typed rows in insertion order, and the records the store returns
    (packages/control-plane/src/database.ts, store/mappers.ts, store/types.ts).

    Columns are typed: an enumeration column holds a constructor, a JSON column
    the value it encodes, an INTEGER column a [Z], a NULL column an [option].
    Timestamps are milliseconds: the program's ISO strings of the years 0 to
    9999 compare as their instants do.  Columns no statement of the store
    writes are left out. *)

From Stdlib Require Import ZArith.
From stdpp Require Import base strings list.
From S2P Require Import Prelude JsNumber JsString Protocol Json.

Open Scope string_scope.
Open Scope list_scope.

(** * Enumerations *)

(** Source: packages/control-plane/src/store/types.ts:59-59 [RequirementRecord.status]. *)
Inductive RequirementStatus : Type :=
| rqs_contradicted
| rqs_proven
| rqs_unproven
| rqs_waived.

#[export] Instance RequirementStatus_eq_dec : EqDecision RequirementStatus.
Proof. solve_decision. Defined.

(** Source: packages/control-plane/src/store/types.ts:53-53 [RequirementRecord.evidence.kind]. *)
Inductive EvidenceKind : Type :=
| ek_artifact
| ek_command
| ek_inspection
| ek_review
| ek_test.

#[export] Instance EvidenceKind_eq_dec : EqDecision EvidenceKind.
Proof. solve_decision. Defined.

(** Source: packages/control-plane/src/store/types.ts:54-54 [RequirementRecord.evidence.strength]. *)
Inductive EvidenceStrength : Type :=
| es_strong
| es_supporting
| es_weak.

#[export] Instance EvidenceStrength_eq_dec : EqDecision EvidenceStrength.
Proof. solve_decision. Defined.

(** Source: packages/control-plane/src/store.ts:1115-1115 [validations.status]. *)
Inductive ValidationStatus : Type :=
| vs_passed
| vs_failed.

#[export] Instance ValidationStatus_eq_dec : EqDecision ValidationStatus.
Proof. solve_decision. Defined.

(** Source: packages/control-plane/src/store/types.ts:84-84 [DurableRunCommand]. *)
Inductive DurableRunCommand : Type :=
| cmd_cancel
| cmd_pause
| cmd_resume.

#[export] Instance DurableRunCommand_eq_dec : EqDecision DurableRunCommand.
Proof. solve_decision. Defined.

(** Source: packages/protocol/src/contracts.ts:218-218 [Milestone.status]. *)
Inductive MilestoneStatus : Type :=
| mls_pending
| mls_active
| mls_completed
| mls_cancelled.

#[export] Instance MilestoneStatus_eq_dec : EqDecision MilestoneStatus.
Proof. solve_decision. Defined.

(** Source: packages/protocol/src/contracts.ts:269-269 [Problem.status]. *)
Inductive ProblemStatus : Type :=
| prs_open
| prs_waiting
| prs_resolved
| prs_blocked.

#[export] Instance ProblemStatus_eq_dec : EqDecision ProblemStatus.
Proof. solve_decision. Defined.

(** Source: packages/protocol/src/contracts.ts:315-316 [RecoveryState.status]. *)
Inductive RecoveryStatus : Type :=
| rvs_idle
| rvs_required
| rvs_reconciling
| rvs_recovered
| rvs_manual_intervention.

#[export] Instance RecoveryStatus_eq_dec : EqDecision RecoveryStatus.
Proof. solve_decision. Defined.

(** Source: packages/protocol/src/contracts.ts:408-408 [Approval.status]. *)
Inductive ApprovalStatus : Type :=
| aps_pending
| aps_approved
| aps_consumed
| aps_rejected
| aps_expired.

#[export] Instance ApprovalStatus_eq_dec : EqDecision ApprovalStatus.
Proof. solve_decision. Defined.

(** The string stored for the value. *)
Definition ApprovalStatus_str (x : ApprovalStatus) : string :=
  match x with
  | aps_pending => "pending"
  | aps_approved => "approved"
  | aps_consumed => "consumed"
  | aps_rejected => "rejected"
  | aps_expired => "expired"
  end.

(** Source: packages/control-plane/src/store.ts:2818-2821 [scheduled_actions.status]. *)
Inductive ActionStatus : Type :=
| sas_pending
| sas_claimed.

#[export] Instance ActionStatus_eq_dec : EqDecision ActionStatus.
Proof. solve_decision. Defined.

(** Source: packages/control-plane/src/store.ts:2615-2617 [wake_conditions.status]. *)
Inductive WakeStatus : Type :=
| wks_pending
| wks_woken.

#[export] Instance WakeStatus_eq_dec : EqDecision WakeStatus.
Proof. solve_decision. Defined.

(** Source: packages/control-plane/src/store/types.ts:151-151 [AgentMessage.status]. *)
Inductive StoredMessageStatus : Type :=
| ams_pending
| ams_delivered.

#[export] Instance StoredMessageStatus_eq_dec : EqDecision StoredMessageStatus.
Proof. solve_decision. Defined.

(** Source: packages/control-plane/src/store/types.ts:134-141 [AgentMessageKind]. *)
Inductive StoredMessageKind : Type :=
| amk_task_assignment
| amk_task_result
| amk_question
| amk_answer
| amk_review_request
| amk_review_result
| amk_status.

#[export] Instance StoredMessageKind_eq_dec : EqDecision StoredMessageKind.
Proof. solve_decision. Defined.

(** The string stored for the value. *)
Definition StoredMessageKind_str (x : StoredMessageKind) : string :=
  match x with
  | amk_task_assignment => "task_assignment"
  | amk_task_result => "task_result"
  | amk_question => "question"
  | amk_answer => "answer"
  | amk_review_request => "review_request"
  | amk_review_result => "review_result"
  | amk_status => "status"
  end.

(** Source: packages/protocol/src/contracts.ts:395-395 [MemoryEntry.scope]. *)
Inductive MemoryScope : Type :=
| mes_run
| mes_project
| mes_agent.

#[export] Instance MemoryScope_eq_dec : EqDecision MemoryScope.
Proof. solve_decision. Defined.

(** Source: packages/protocol/src/contracts.ts:205-211 [SessionEpoch.endReason]. *)
Inductive EndReason : Type :=
| er_completed
| er_compacted
| er_context_overflow
| er_provider_changed
| er_aborted
| er_failed.

#[export] Instance EndReason_eq_dec : EqDecision EndReason.
Proof. solve_decision. Defined.

(** Source: packages/protocol/src/contracts.ts:340-367 [RunEventType]. *)
Inductive RunEventType : Type :=
| evt_run_created
| evt_run_status_changed
| evt_goal_status_changed
| evt_task_status_changed
| evt_agent_status_changed
| evt_agent_turn_started
| evt_agent_worktree_assigned
| evt_agent_message
| evt_agent_progress
| evt_agent_failed
| evt_agent_completed
| evt_agent_message_sent
| evt_agent_message_delivered
| evt_task_assigned
| evt_task_recovered
| evt_provider_failed
| evt_context_compacted
| evt_run_retry_scheduled
| evt_tool_call_started
| evt_tool_call_finished
| evt_checkpoint_created
| evt_checkpoint_restored
| evt_approval_requested
| evt_approval_resolved
| evt_recovery_required
| evt_validation_finished
| evt_steering_received.

#[export] Instance RunEventType_eq_dec : EqDecision RunEventType.
Proof. solve_decision. Defined.

(** * Tables *)

(** Source: packages/control-plane/src/database.ts:157-165 [missions]. *)
Record MissionRow := {
  ms_id : string;
  ms_title : string;
  ms_prompt : string;
  ms_workspace_uri : string;
  ms_metadata : option JsonValue;
  ms_created_at : Z;
  ms_updated_at : Z }.

(** Source: packages/control-plane/src/database.ts:167-184 [runs]. *)
Record RunRow := {
  rn_id : string;
  rn_mission_id : string;
  rn_status : RunStatus;
  rn_title : string;
  rn_budget : RunBudget;
  rn_usage : BudgetUsage;
  rn_current_goal_id : option string;
  rn_started_at : option Z;
  rn_completed_at : option Z;
  rn_blocked_reason : option string;
  rn_revision : Z;
  rn_next_sequence : Z;
  rn_run_epoch : Z;
  rn_continuation_deferred : Z;
  rn_created_at : Z;
  rn_updated_at : Z }.

Definition set_rn_status (v : RunStatus) (r : RunRow) : RunRow :=
  {| rn_id := rn_id r; rn_mission_id := rn_mission_id r; rn_status := v; rn_title :=
     rn_title r; rn_budget := rn_budget r; rn_usage := rn_usage r; rn_current_goal_id :=
     rn_current_goal_id r; rn_started_at := rn_started_at r; rn_completed_at :=
     rn_completed_at r; rn_blocked_reason := rn_blocked_reason r; rn_revision :=
     rn_revision r; rn_next_sequence := rn_next_sequence r; rn_run_epoch := rn_run_epoch
     r; rn_continuation_deferred := rn_continuation_deferred r; rn_created_at :=
     rn_created_at r; rn_updated_at := rn_updated_at r |}.
Definition set_rn_usage (v : BudgetUsage) (r : RunRow) : RunRow :=
  {| rn_id := rn_id r; rn_mission_id := rn_mission_id r; rn_status := rn_status r;
     rn_title := rn_title r; rn_budget := rn_budget r; rn_usage := v; rn_current_goal_id
     := rn_current_goal_id r; rn_started_at := rn_started_at r; rn_completed_at :=
     rn_completed_at r; rn_blocked_reason := rn_blocked_reason r; rn_revision :=
     rn_revision r; rn_next_sequence := rn_next_sequence r; rn_run_epoch := rn_run_epoch
     r; rn_continuation_deferred := rn_continuation_deferred r; rn_created_at :=
     rn_created_at r; rn_updated_at := rn_updated_at r |}.
Definition set_rn_completed_at (v : option Z) (r : RunRow) : RunRow :=
  {| rn_id := rn_id r; rn_mission_id := rn_mission_id r; rn_status := rn_status r;
     rn_title := rn_title r; rn_budget := rn_budget r; rn_usage := rn_usage r;
     rn_current_goal_id := rn_current_goal_id r; rn_started_at := rn_started_at r;
     rn_completed_at := v; rn_blocked_reason := rn_blocked_reason r; rn_revision :=
     rn_revision r; rn_next_sequence := rn_next_sequence r; rn_run_epoch := rn_run_epoch
     r; rn_continuation_deferred := rn_continuation_deferred r; rn_created_at :=
     rn_created_at r; rn_updated_at := rn_updated_at r |}.
Definition set_rn_blocked_reason (v : option string) (r : RunRow) : RunRow :=
  {| rn_id := rn_id r; rn_mission_id := rn_mission_id r; rn_status := rn_status r;
     rn_title := rn_title r; rn_budget := rn_budget r; rn_usage := rn_usage r;
     rn_current_goal_id := rn_current_goal_id r; rn_started_at := rn_started_at r;
     rn_completed_at := rn_completed_at r; rn_blocked_reason := v; rn_revision :=
     rn_revision r; rn_next_sequence := rn_next_sequence r; rn_run_epoch := rn_run_epoch
     r; rn_continuation_deferred := rn_continuation_deferred r; rn_created_at :=
     rn_created_at r; rn_updated_at := rn_updated_at r |}.
Definition set_rn_revision (v : Z) (r : RunRow) : RunRow :=
  {| rn_id := rn_id r; rn_mission_id := rn_mission_id r; rn_status := rn_status r;
     rn_title := rn_title r; rn_budget := rn_budget r; rn_usage := rn_usage r;
     rn_current_goal_id := rn_current_goal_id r; rn_started_at := rn_started_at r;
     rn_completed_at := rn_completed_at r; rn_blocked_reason := rn_blocked_reason r;
     rn_revision := v; rn_next_sequence := rn_next_sequence r; rn_run_epoch :=
     rn_run_epoch r; rn_continuation_deferred := rn_continuation_deferred r; rn_created_at
     := rn_created_at r; rn_updated_at := rn_updated_at r |}.
Definition set_rn_next_sequence (v : Z) (r : RunRow) : RunRow :=
  {| rn_id := rn_id r; rn_mission_id := rn_mission_id r; rn_status := rn_status r;
     rn_title := rn_title r; rn_budget := rn_budget r; rn_usage := rn_usage r;
     rn_current_goal_id := rn_current_goal_id r; rn_started_at := rn_started_at r;
     rn_completed_at := rn_completed_at r; rn_blocked_reason := rn_blocked_reason r;
     rn_revision := rn_revision r; rn_next_sequence := v; rn_run_epoch := rn_run_epoch r;
     rn_continuation_deferred := rn_continuation_deferred r; rn_created_at :=
     rn_created_at r; rn_updated_at := rn_updated_at r |}.
Definition set_rn_run_epoch (v : Z) (r : RunRow) : RunRow :=
  {| rn_id := rn_id r; rn_mission_id := rn_mission_id r; rn_status := rn_status r;
     rn_title := rn_title r; rn_budget := rn_budget r; rn_usage := rn_usage r;
     rn_current_goal_id := rn_current_goal_id r; rn_started_at := rn_started_at r;
     rn_completed_at := rn_completed_at r; rn_blocked_reason := rn_blocked_reason r;
     rn_revision := rn_revision r; rn_next_sequence := rn_next_sequence r; rn_run_epoch :=
     v; rn_continuation_deferred := rn_continuation_deferred r; rn_created_at :=
     rn_created_at r; rn_updated_at := rn_updated_at r |}.
Definition set_rn_updated_at (v : Z) (r : RunRow) : RunRow :=
  {| rn_id := rn_id r; rn_mission_id := rn_mission_id r; rn_status := rn_status r;
     rn_title := rn_title r; rn_budget := rn_budget r; rn_usage := rn_usage r;
     rn_current_goal_id := rn_current_goal_id r; rn_started_at := rn_started_at r;
     rn_completed_at := rn_completed_at r; rn_blocked_reason := rn_blocked_reason r;
     rn_revision := rn_revision r; rn_next_sequence := rn_next_sequence r; rn_run_epoch :=
     rn_run_epoch r; rn_continuation_deferred := rn_continuation_deferred r; rn_created_at
     := rn_created_at r; rn_updated_at := v |}.

(** Source: packages/control-plane/src/database.ts:186-200 [goals]. *)
Record GoalRow := {
  gl_id : string;
  gl_run_id : string;
  gl_goal_version : string;
  gl_parent_goal_id : option string;
  gl_title : string;
  gl_description : string;
  gl_status : GoalStatus;
  gl_continuation_count : Z;
  gl_blocker_fingerprint : option string;
  gl_blocker_audit_epoch : Z;
  gl_completed_at : option Z;
  gl_created_at : Z;
  gl_updated_at : Z }.

Definition set_gl_status (v : GoalStatus) (r : GoalRow) : GoalRow :=
  {| gl_id := gl_id r; gl_run_id := gl_run_id r; gl_goal_version := gl_goal_version r;
     gl_parent_goal_id := gl_parent_goal_id r; gl_title := gl_title r; gl_description :=
     gl_description r; gl_status := v; gl_continuation_count := gl_continuation_count r;
     gl_blocker_fingerprint := gl_blocker_fingerprint r; gl_blocker_audit_epoch :=
     gl_blocker_audit_epoch r; gl_completed_at := gl_completed_at r; gl_created_at :=
     gl_created_at r; gl_updated_at := gl_updated_at r |}.
Definition set_gl_continuation_count (v : Z) (r : GoalRow) : GoalRow :=
  {| gl_id := gl_id r; gl_run_id := gl_run_id r; gl_goal_version := gl_goal_version r;
     gl_parent_goal_id := gl_parent_goal_id r; gl_title := gl_title r; gl_description :=
     gl_description r; gl_status := gl_status r; gl_continuation_count := v;
     gl_blocker_fingerprint := gl_blocker_fingerprint r; gl_blocker_audit_epoch :=
     gl_blocker_audit_epoch r; gl_completed_at := gl_completed_at r; gl_created_at :=
     gl_created_at r; gl_updated_at := gl_updated_at r |}.
Definition set_gl_blocker_fingerprint (v : option string) (r : GoalRow) : GoalRow :=
  {| gl_id := gl_id r; gl_run_id := gl_run_id r; gl_goal_version := gl_goal_version r;
     gl_parent_goal_id := gl_parent_goal_id r; gl_title := gl_title r; gl_description :=
     gl_description r; gl_status := gl_status r; gl_continuation_count :=
     gl_continuation_count r; gl_blocker_fingerprint := v; gl_blocker_audit_epoch :=
     gl_blocker_audit_epoch r; gl_completed_at := gl_completed_at r; gl_created_at :=
     gl_created_at r; gl_updated_at := gl_updated_at r |}.
Definition set_gl_blocker_audit_epoch (v : Z) (r : GoalRow) : GoalRow :=
  {| gl_id := gl_id r; gl_run_id := gl_run_id r; gl_goal_version := gl_goal_version r;
     gl_parent_goal_id := gl_parent_goal_id r; gl_title := gl_title r; gl_description :=
     gl_description r; gl_status := gl_status r; gl_continuation_count :=
     gl_continuation_count r; gl_blocker_fingerprint := gl_blocker_fingerprint r;
     gl_blocker_audit_epoch := v; gl_completed_at := gl_completed_at r; gl_created_at :=
     gl_created_at r; gl_updated_at := gl_updated_at r |}.
Definition set_gl_completed_at (v : option Z) (r : GoalRow) : GoalRow :=
  {| gl_id := gl_id r; gl_run_id := gl_run_id r; gl_goal_version := gl_goal_version r;
     gl_parent_goal_id := gl_parent_goal_id r; gl_title := gl_title r; gl_description :=
     gl_description r; gl_status := gl_status r; gl_continuation_count :=
     gl_continuation_count r; gl_blocker_fingerprint := gl_blocker_fingerprint r;
     gl_blocker_audit_epoch := gl_blocker_audit_epoch r; gl_completed_at := v;
     gl_created_at := gl_created_at r; gl_updated_at := gl_updated_at r |}.
Definition set_gl_updated_at (v : Z) (r : GoalRow) : GoalRow :=
  {| gl_id := gl_id r; gl_run_id := gl_run_id r; gl_goal_version := gl_goal_version r;
     gl_parent_goal_id := gl_parent_goal_id r; gl_title := gl_title r; gl_description :=
     gl_description r; gl_status := gl_status r; gl_continuation_count :=
     gl_continuation_count r; gl_blocker_fingerprint := gl_blocker_fingerprint r;
     gl_blocker_audit_epoch := gl_blocker_audit_epoch r; gl_completed_at :=
     gl_completed_at r; gl_created_at := gl_created_at r; gl_updated_at := v |}.

(** Source: packages/control-plane/src/database.ts:202-214 [tasks]. *)
Record TaskRow := {
  tk_id : string;
  tk_run_id : string;
  tk_goal_id : option string;
  tk_title : string;
  tk_description : string;
  tk_status : TaskStatus;
  tk_owner_agent_id : option string;
  tk_result : option JsonValue;
  tk_completed_at : option Z;
  tk_created_at : Z;
  tk_updated_at : Z;
  tk_lease_generation : option Z;
  tk_attempt : Z;
  tk_last_error : option string }.

Definition set_tk_status (v : TaskStatus) (r : TaskRow) : TaskRow :=
  {| tk_id := tk_id r; tk_run_id := tk_run_id r; tk_goal_id := tk_goal_id r; tk_title :=
     tk_title r; tk_description := tk_description r; tk_status := v; tk_owner_agent_id :=
     tk_owner_agent_id r; tk_result := tk_result r; tk_completed_at := tk_completed_at r;
     tk_created_at := tk_created_at r; tk_updated_at := tk_updated_at r;
     tk_lease_generation := tk_lease_generation r; tk_attempt := tk_attempt r;
     tk_last_error := tk_last_error r |}.
Definition set_tk_owner_agent_id (v : option string) (r : TaskRow) : TaskRow :=
  {| tk_id := tk_id r; tk_run_id := tk_run_id r; tk_goal_id := tk_goal_id r; tk_title :=
     tk_title r; tk_description := tk_description r; tk_status := tk_status r;
     tk_owner_agent_id := v; tk_result := tk_result r; tk_completed_at := tk_completed_at
     r; tk_created_at := tk_created_at r; tk_updated_at := tk_updated_at r;
     tk_lease_generation := tk_lease_generation r; tk_attempt := tk_attempt r;
     tk_last_error := tk_last_error r |}.
Definition set_tk_result (v : option JsonValue) (r : TaskRow) : TaskRow :=
  {| tk_id := tk_id r; tk_run_id := tk_run_id r; tk_goal_id := tk_goal_id r; tk_title :=
     tk_title r; tk_description := tk_description r; tk_status := tk_status r;
     tk_owner_agent_id := tk_owner_agent_id r; tk_result := v; tk_completed_at :=
     tk_completed_at r; tk_created_at := tk_created_at r; tk_updated_at := tk_updated_at
     r; tk_lease_generation := tk_lease_generation r; tk_attempt := tk_attempt r;
     tk_last_error := tk_last_error r |}.
Definition set_tk_completed_at (v : option Z) (r : TaskRow) : TaskRow :=
  {| tk_id := tk_id r; tk_run_id := tk_run_id r; tk_goal_id := tk_goal_id r; tk_title :=
     tk_title r; tk_description := tk_description r; tk_status := tk_status r;
     tk_owner_agent_id := tk_owner_agent_id r; tk_result := tk_result r; tk_completed_at
     := v; tk_created_at := tk_created_at r; tk_updated_at := tk_updated_at r;
     tk_lease_generation := tk_lease_generation r; tk_attempt := tk_attempt r;
     tk_last_error := tk_last_error r |}.
Definition set_tk_updated_at (v : Z) (r : TaskRow) : TaskRow :=
  {| tk_id := tk_id r; tk_run_id := tk_run_id r; tk_goal_id := tk_goal_id r; tk_title :=
     tk_title r; tk_description := tk_description r; tk_status := tk_status r;
     tk_owner_agent_id := tk_owner_agent_id r; tk_result := tk_result r; tk_completed_at
     := tk_completed_at r; tk_created_at := tk_created_at r; tk_updated_at := v;
     tk_lease_generation := tk_lease_generation r; tk_attempt := tk_attempt r;
     tk_last_error := tk_last_error r |}.
Definition set_tk_lease_generation (v : option Z) (r : TaskRow) : TaskRow :=
  {| tk_id := tk_id r; tk_run_id := tk_run_id r; tk_goal_id := tk_goal_id r; tk_title :=
     tk_title r; tk_description := tk_description r; tk_status := tk_status r;
     tk_owner_agent_id := tk_owner_agent_id r; tk_result := tk_result r; tk_completed_at
     := tk_completed_at r; tk_created_at := tk_created_at r; tk_updated_at :=
     tk_updated_at r; tk_lease_generation := v; tk_attempt := tk_attempt r; tk_last_error
     := tk_last_error r |}.
Definition set_tk_attempt (v : Z) (r : TaskRow) : TaskRow :=
  {| tk_id := tk_id r; tk_run_id := tk_run_id r; tk_goal_id := tk_goal_id r; tk_title :=
     tk_title r; tk_description := tk_description r; tk_status := tk_status r;
     tk_owner_agent_id := tk_owner_agent_id r; tk_result := tk_result r; tk_completed_at
     := tk_completed_at r; tk_created_at := tk_created_at r; tk_updated_at :=
     tk_updated_at r; tk_lease_generation := tk_lease_generation r; tk_attempt := v;
     tk_last_error := tk_last_error r |}.
Definition set_tk_last_error (v : option string) (r : TaskRow) : TaskRow :=
  {| tk_id := tk_id r; tk_run_id := tk_run_id r; tk_goal_id := tk_goal_id r; tk_title :=
     tk_title r; tk_description := tk_description r; tk_status := tk_status r;
     tk_owner_agent_id := tk_owner_agent_id r; tk_result := tk_result r; tk_completed_at
     := tk_completed_at r; tk_created_at := tk_created_at r; tk_updated_at :=
     tk_updated_at r; tk_lease_generation := tk_lease_generation r; tk_attempt :=
     tk_attempt r; tk_last_error := v |}.

(** Source: packages/control-plane/src/database.ts:230-243 [agents]. *)
Record AgentRow := {
  ag_id : string;
  ag_run_id : string;
  ag_task_id : option string;
  ag_role : AgentRole;
  ag_status : AgentStatus;
  ag_permissions : PermissionPolicy;
  ag_sandbox : SandboxPolicy;
  ag_worktree_uri : option string;
  ag_spawned_at : Z;
  ag_closed_at : option Z;
  ag_created_at : Z;
  ag_updated_at : Z;
  ag_lease_generation : option Z }.

Definition set_ag_status (v : AgentStatus) (r : AgentRow) : AgentRow :=
  {| ag_id := ag_id r; ag_run_id := ag_run_id r; ag_task_id := ag_task_id r; ag_role :=
     ag_role r; ag_status := v; ag_permissions := ag_permissions r; ag_sandbox :=
     ag_sandbox r; ag_worktree_uri := ag_worktree_uri r; ag_spawned_at := ag_spawned_at r;
     ag_closed_at := ag_closed_at r; ag_created_at := ag_created_at r; ag_updated_at :=
     ag_updated_at r; ag_lease_generation := ag_lease_generation r |}.
Definition set_ag_worktree_uri (v : option string) (r : AgentRow) : AgentRow :=
  {| ag_id := ag_id r; ag_run_id := ag_run_id r; ag_task_id := ag_task_id r; ag_role :=
     ag_role r; ag_status := ag_status r; ag_permissions := ag_permissions r; ag_sandbox
     := ag_sandbox r; ag_worktree_uri := v; ag_spawned_at := ag_spawned_at r; ag_closed_at
     := ag_closed_at r; ag_created_at := ag_created_at r; ag_updated_at := ag_updated_at
     r; ag_lease_generation := ag_lease_generation r |}.
Definition set_ag_closed_at (v : option Z) (r : AgentRow) : AgentRow :=
  {| ag_id := ag_id r; ag_run_id := ag_run_id r; ag_task_id := ag_task_id r; ag_role :=
     ag_role r; ag_status := ag_status r; ag_permissions := ag_permissions r; ag_sandbox
     := ag_sandbox r; ag_worktree_uri := ag_worktree_uri r; ag_spawned_at := ag_spawned_at
     r; ag_closed_at := v; ag_created_at := ag_created_at r; ag_updated_at :=
     ag_updated_at r; ag_lease_generation := ag_lease_generation r |}.
Definition set_ag_updated_at (v : Z) (r : AgentRow) : AgentRow :=
  {| ag_id := ag_id r; ag_run_id := ag_run_id r; ag_task_id := ag_task_id r; ag_role :=
     ag_role r; ag_status := ag_status r; ag_permissions := ag_permissions r; ag_sandbox
     := ag_sandbox r; ag_worktree_uri := ag_worktree_uri r; ag_spawned_at := ag_spawned_at
     r; ag_closed_at := ag_closed_at r; ag_created_at := ag_created_at r; ag_updated_at :=
     v; ag_lease_generation := ag_lease_generation r |}.
Definition set_ag_lease_generation (v : option Z) (r : AgentRow) : AgentRow :=
  {| ag_id := ag_id r; ag_run_id := ag_run_id r; ag_task_id := ag_task_id r; ag_role :=
     ag_role r; ag_status := ag_status r; ag_permissions := ag_permissions r; ag_sandbox
     := ag_sandbox r; ag_worktree_uri := ag_worktree_uri r; ag_spawned_at := ag_spawned_at
     r; ag_closed_at := ag_closed_at r; ag_created_at := ag_created_at r; ag_updated_at :=
     ag_updated_at r; ag_lease_generation := v |}.

(** Source: packages/control-plane/src/database.ts:245-252 [agent_edges]. *)
Record AgentEdgeRow := {
  ae_parent_agent_id : string;
  ae_child_agent_id : string;
  ae_status : string;
  ae_created_at : Z;
  ae_closed_at : option Z }.

(** Source: packages/control-plane/src/database.ts:254-267 [session_epochs]. *)
Record SessionEpochRow := {
  se_id : string;
  se_agent_id : string;
  se_ordinal : Z;
  se_provider : string;
  se_model : string;
  se_started_at : Z;
  se_ended_at : option Z;
  se_end_reason : option EndReason;
  se_handoff_context_snapshot_id : option string;
  se_created_at : Z;
  se_updated_at : Z }.

Definition set_se_ended_at (v : option Z) (r : SessionEpochRow) : SessionEpochRow :=
  {| se_id := se_id r; se_agent_id := se_agent_id r; se_ordinal := se_ordinal r;
     se_provider := se_provider r; se_model := se_model r; se_started_at := se_started_at
     r; se_ended_at := v; se_end_reason := se_end_reason r; se_handoff_context_snapshot_id
     := se_handoff_context_snapshot_id r; se_created_at := se_created_at r; se_updated_at
     := se_updated_at r |}.
Definition set_se_end_reason (v : option EndReason) (r : SessionEpochRow) : SessionEpochRow :=
  {| se_id := se_id r; se_agent_id := se_agent_id r; se_ordinal := se_ordinal r;
     se_provider := se_provider r; se_model := se_model r; se_started_at := se_started_at
     r; se_ended_at := se_ended_at r; se_end_reason := v; se_handoff_context_snapshot_id
     := se_handoff_context_snapshot_id r; se_created_at := se_created_at r; se_updated_at
     := se_updated_at r |}.
Definition set_se_handoff_context_snapshot_id (v : option string) (r : SessionEpochRow) : SessionEpochRow :=
  {| se_id := se_id r; se_agent_id := se_agent_id r; se_ordinal := se_ordinal r;
     se_provider := se_provider r; se_model := se_model r; se_started_at := se_started_at
     r; se_ended_at := se_ended_at r; se_end_reason := se_end_reason r;
     se_handoff_context_snapshot_id := v; se_created_at := se_created_at r; se_updated_at
     := se_updated_at r |}.
Definition set_se_updated_at (v : Z) (r : SessionEpochRow) : SessionEpochRow :=
  {| se_id := se_id r; se_agent_id := se_agent_id r; se_ordinal := se_ordinal r;
     se_provider := se_provider r; se_model := se_model r; se_started_at := se_started_at
     r; se_ended_at := se_ended_at r; se_end_reason := se_end_reason r;
     se_handoff_context_snapshot_id := se_handoff_context_snapshot_id r; se_created_at :=
     se_created_at r; se_updated_at := v |}.

(** Source: packages/control-plane/src/database.ts:269-277 [requirements]. *)
Record RequirementRow := {
  rq_id : string;
  rq_run_id : string;
  rq_title : string;
  rq_required : bool;
  rq_status : RequirementStatus;
  rq_created_at : Z;
  rq_updated_at : Z }.

Definition set_rq_status (v : RequirementStatus) (r : RequirementRow) : RequirementRow :=
  {| rq_id := rq_id r; rq_run_id := rq_run_id r; rq_title := rq_title r; rq_required :=
     rq_required r; rq_status := v; rq_created_at := rq_created_at r; rq_updated_at :=
     rq_updated_at r |}.
Definition set_rq_updated_at (v : Z) (r : RequirementRow) : RequirementRow :=
  {| rq_id := rq_id r; rq_run_id := rq_run_id r; rq_title := rq_title r; rq_required :=
     rq_required r; rq_status := rq_status r; rq_created_at := rq_created_at r;
     rq_updated_at := v |}.

(** Source: packages/control-plane/src/database.ts:279-287 [evidence]. *)
Record EvidenceRow := {
  ed_id : string;
  ed_run_id : string;
  ed_requirement_id : string;
  ed_kind : EvidenceKind;
  ed_strength : EvidenceStrength;
  ed_summary : string;
  ed_created_at : Z;
  ed_task_id : option string }.

(** Source: packages/control-plane/src/database.ts:289-298 [validations]. *)
Record ValidationRow := {
  vd_id : string;
  vd_run_id : string;
  vd_name : string;
  vd_status : ValidationStatus;
  vd_summary : string;
  vd_independent : bool;
  vd_created_at : Z;
  vd_updated_at : Z;
  vd_task_id : option string }.

(** Source: packages/control-plane/src/database.ts:300-313 [run_events]. *)
Record EventRow := {
  ee_id : string;
  ee_run_id : string;
  ee_seq : Z;
  ee_type : RunEventType;
  ee_payload : JsonValue;
  ee_lease_generation : option Z;
  ee_created_at : Z }.

(** Source: packages/control-plane/src/database.ts:315-326 [run_leases]. *)
Record LeaseRow := {
  le_run_id : string;
  le_id : string;
  le_holder_id : string;
  le_generation : Z;
  le_expires_at : Z;
  le_heartbeat_at : Z;
  le_host : option string;
  le_process_id : option Z;
  le_created_at : Z;
  le_updated_at : Z }.

Definition set_le_holder_id (v : string) (r : LeaseRow) : LeaseRow :=
  {| le_run_id := le_run_id r; le_id := le_id r; le_holder_id := v; le_generation :=
     le_generation r; le_expires_at := le_expires_at r; le_heartbeat_at := le_heartbeat_at
     r; le_host := le_host r; le_process_id := le_process_id r; le_created_at :=
     le_created_at r; le_updated_at := le_updated_at r |}.
Definition set_le_generation (v : Z) (r : LeaseRow) : LeaseRow :=
  {| le_run_id := le_run_id r; le_id := le_id r; le_holder_id := le_holder_id r;
     le_generation := v; le_expires_at := le_expires_at r; le_heartbeat_at :=
     le_heartbeat_at r; le_host := le_host r; le_process_id := le_process_id r;
     le_created_at := le_created_at r; le_updated_at := le_updated_at r |}.
Definition set_le_expires_at (v : Z) (r : LeaseRow) : LeaseRow :=
  {| le_run_id := le_run_id r; le_id := le_id r; le_holder_id := le_holder_id r;
     le_generation := le_generation r; le_expires_at := v; le_heartbeat_at :=
     le_heartbeat_at r; le_host := le_host r; le_process_id := le_process_id r;
     le_created_at := le_created_at r; le_updated_at := le_updated_at r |}.
Definition set_le_heartbeat_at (v : Z) (r : LeaseRow) : LeaseRow :=
  {| le_run_id := le_run_id r; le_id := le_id r; le_holder_id := le_holder_id r;
     le_generation := le_generation r; le_expires_at := le_expires_at r; le_heartbeat_at
     := v; le_host := le_host r; le_process_id := le_process_id r; le_created_at :=
     le_created_at r; le_updated_at := le_updated_at r |}.
Definition set_le_host (v : option string) (r : LeaseRow) : LeaseRow :=
  {| le_run_id := le_run_id r; le_id := le_id r; le_holder_id := le_holder_id r;
     le_generation := le_generation r; le_expires_at := le_expires_at r; le_heartbeat_at
     := le_heartbeat_at r; le_host := v; le_process_id := le_process_id r; le_created_at
     := le_created_at r; le_updated_at := le_updated_at r |}.
Definition set_le_process_id (v : option Z) (r : LeaseRow) : LeaseRow :=
  {| le_run_id := le_run_id r; le_id := le_id r; le_holder_id := le_holder_id r;
     le_generation := le_generation r; le_expires_at := le_expires_at r; le_heartbeat_at
     := le_heartbeat_at r; le_host := le_host r; le_process_id := v; le_created_at :=
     le_created_at r; le_updated_at := le_updated_at r |}.
Definition set_le_updated_at (v : Z) (r : LeaseRow) : LeaseRow :=
  {| le_run_id := le_run_id r; le_id := le_id r; le_holder_id := le_holder_id r;
     le_generation := le_generation r; le_expires_at := le_expires_at r; le_heartbeat_at
     := le_heartbeat_at r; le_host := le_host r; le_process_id := le_process_id r;
     le_created_at := le_created_at r; le_updated_at := v |}.

(** The columns kind, identifier and access_mode are the scope.
    Source: packages/control-plane/src/database.ts:335-345 [resource_locks]. *)
Record LockRow := {
  rl_id : string;
  rl_run_id : string;
  rl_task_id : option string;
  rl_holder_id : string;
  rl_scope : ResourceScope;
  rl_expires_at : Z;
  rl_created_at : Z;
  rl_lease_generation : Z }.

(** Source: packages/control-plane/src/database.ts:347-357 [scheduled_actions]. *)
Record ActionRow := {
  sa_run_id : string;
  sa_action_type : string;
  sa_due_at : Z;
  sa_status : ActionStatus;
  sa_claimed_by : option string;
  sa_claimed_epoch : option Z;
  sa_attempt : Z;
  sa_created_at : Z;
  sa_updated_at : Z }.

Definition set_sa_status (v : ActionStatus) (r : ActionRow) : ActionRow :=
  {| sa_run_id := sa_run_id r; sa_action_type := sa_action_type r; sa_due_at := sa_due_at
     r; sa_status := v; sa_claimed_by := sa_claimed_by r; sa_claimed_epoch :=
     sa_claimed_epoch r; sa_attempt := sa_attempt r; sa_created_at := sa_created_at r;
     sa_updated_at := sa_updated_at r |}.
Definition set_sa_claimed_by (v : option string) (r : ActionRow) : ActionRow :=
  {| sa_run_id := sa_run_id r; sa_action_type := sa_action_type r; sa_due_at := sa_due_at
     r; sa_status := sa_status r; sa_claimed_by := v; sa_claimed_epoch := sa_claimed_epoch
     r; sa_attempt := sa_attempt r; sa_created_at := sa_created_at r; sa_updated_at :=
     sa_updated_at r |}.
Definition set_sa_claimed_epoch (v : option Z) (r : ActionRow) : ActionRow :=
  {| sa_run_id := sa_run_id r; sa_action_type := sa_action_type r; sa_due_at := sa_due_at
     r; sa_status := sa_status r; sa_claimed_by := sa_claimed_by r; sa_claimed_epoch := v;
     sa_attempt := sa_attempt r; sa_created_at := sa_created_at r; sa_updated_at :=
     sa_updated_at r |}.
Definition set_sa_attempt (v : Z) (r : ActionRow) : ActionRow :=
  {| sa_run_id := sa_run_id r; sa_action_type := sa_action_type r; sa_due_at := sa_due_at
     r; sa_status := sa_status r; sa_claimed_by := sa_claimed_by r; sa_claimed_epoch :=
     sa_claimed_epoch r; sa_attempt := v; sa_created_at := sa_created_at r; sa_updated_at
     := sa_updated_at r |}.
Definition set_sa_updated_at (v : Z) (r : ActionRow) : ActionRow :=
  {| sa_run_id := sa_run_id r; sa_action_type := sa_action_type r; sa_due_at := sa_due_at
     r; sa_status := sa_status r; sa_claimed_by := sa_claimed_by r; sa_claimed_epoch :=
     sa_claimed_epoch r; sa_attempt := sa_attempt r; sa_created_at := sa_created_at r;
     sa_updated_at := v |}.

(** Source: packages/control-plane/src/database.ts:359-368 [wake_conditions]. *)
Record WakeRow := {
  wk_id : string;
  wk_run_id : string;
  wk_kind : string;
  wk_wake_at : option Z;
  wk_status : WakeStatus;
  wk_created_at : Z;
  wk_updated_at : Z }.

Definition set_wk_status (v : WakeStatus) (r : WakeRow) : WakeRow :=
  {| wk_id := wk_id r; wk_run_id := wk_run_id r; wk_kind := wk_kind r; wk_wake_at :=
     wk_wake_at r; wk_status := v; wk_created_at := wk_created_at r; wk_updated_at :=
     wk_updated_at r |}.
Definition set_wk_updated_at (v : Z) (r : WakeRow) : WakeRow :=
  {| wk_id := wk_id r; wk_run_id := wk_run_id r; wk_kind := wk_kind r; wk_wake_at :=
     wk_wake_at r; wk_status := wk_status r; wk_created_at := wk_created_at r;
     wk_updated_at := v |}.

(** Source: packages/control-plane/src/database.ts:370-386 [tool_calls]. *)
Record ToolCallRow := {
  tl_id : string;
  tl_run_id : string;
  tl_agent_id : option string;
  tl_task_id : option string;
  tl_name : string;
  tl_side_effect_class : ToolSideEffectClass;
  tl_idempotency : ToolIdempotency;
  tl_recovery : ToolRecoveryStrategy;
  tl_status : ToolCallStatus;
  tl_input : JsonValue;
  tl_output : option JsonValue;
  tl_error : option JsonValue;
  tl_lease_generation : Z;
  tl_started_at : Z;
  tl_completed_at : option Z }.

Definition set_tl_status (v : ToolCallStatus) (r : ToolCallRow) : ToolCallRow :=
  {| tl_id := tl_id r; tl_run_id := tl_run_id r; tl_agent_id := tl_agent_id r; tl_task_id
     := tl_task_id r; tl_name := tl_name r; tl_side_effect_class := tl_side_effect_class
     r; tl_idempotency := tl_idempotency r; tl_recovery := tl_recovery r; tl_status := v;
     tl_input := tl_input r; tl_output := tl_output r; tl_error := tl_error r;
     tl_lease_generation := tl_lease_generation r; tl_started_at := tl_started_at r;
     tl_completed_at := tl_completed_at r |}.
Definition set_tl_output (v : option JsonValue) (r : ToolCallRow) : ToolCallRow :=
  {| tl_id := tl_id r; tl_run_id := tl_run_id r; tl_agent_id := tl_agent_id r; tl_task_id
     := tl_task_id r; tl_name := tl_name r; tl_side_effect_class := tl_side_effect_class
     r; tl_idempotency := tl_idempotency r; tl_recovery := tl_recovery r; tl_status :=
     tl_status r; tl_input := tl_input r; tl_output := v; tl_error := tl_error r;
     tl_lease_generation := tl_lease_generation r; tl_started_at := tl_started_at r;
     tl_completed_at := tl_completed_at r |}.
Definition set_tl_error (v : option JsonValue) (r : ToolCallRow) : ToolCallRow :=
  {| tl_id := tl_id r; tl_run_id := tl_run_id r; tl_agent_id := tl_agent_id r; tl_task_id
     := tl_task_id r; tl_name := tl_name r; tl_side_effect_class := tl_side_effect_class
     r; tl_idempotency := tl_idempotency r; tl_recovery := tl_recovery r; tl_status :=
     tl_status r; tl_input := tl_input r; tl_output := tl_output r; tl_error := v;
     tl_lease_generation := tl_lease_generation r; tl_started_at := tl_started_at r;
     tl_completed_at := tl_completed_at r |}.
Definition set_tl_completed_at (v : option Z) (r : ToolCallRow) : ToolCallRow :=
  {| tl_id := tl_id r; tl_run_id := tl_run_id r; tl_agent_id := tl_agent_id r; tl_task_id
     := tl_task_id r; tl_name := tl_name r; tl_side_effect_class := tl_side_effect_class
     r; tl_idempotency := tl_idempotency r; tl_recovery := tl_recovery r; tl_status :=
     tl_status r; tl_input := tl_input r; tl_output := tl_output r; tl_error := tl_error
     r; tl_lease_generation := tl_lease_generation r; tl_started_at := tl_started_at r;
     tl_completed_at := v |}.

(** Source: packages/control-plane/src/database.ts:388-398 [checkpoints]. *)
Record CheckpointRow := {
  cp_id : string;
  cp_run_id : string;
  cp_sequence : Z;
  cp_label : string;
  cp_reason : string;
  cp_workspace_ref : option string;
  cp_manifest : JsonValue;
  cp_created_at : Z }.

(** Source: packages/control-plane/src/database.ts:422-429 [milestones]. *)
Record MilestoneRow := {
  mi_id : string;
  mi_run_id : string;
  mi_title : string;
  mi_status : MilestoneStatus;
  mi_created_at : Z;
  mi_updated_at : Z }.

(** Source: packages/control-plane/src/database.ts:437-446 [decisions]. *)
Record DecisionRow := {
  dn_id : string;
  dn_run_id : string;
  dn_title : string;
  dn_rationale : string;
  dn_alternatives : list string;
  dn_evidence_ids : list string;
  dn_created_at : Z;
  dn_updated_at : Z }.

(** Source: packages/control-plane/src/database.ts:448-460 [problems]. *)
Record ProblemRow := {
  pb_id : string;
  pb_run_id : string;
  pb_fingerprint : string;
  pb_summary : string;
  pb_external_dependency : bool;
  pb_alternate_action_available : bool;
  pb_meaningful_attempts : Z;
  pb_status : ProblemStatus;
  pb_created_at : Z;
  pb_updated_at : Z }.

Definition set_pb_summary (v : string) (r : ProblemRow) : ProblemRow :=
  {| pb_id := pb_id r; pb_run_id := pb_run_id r; pb_fingerprint := pb_fingerprint r;
     pb_summary := v; pb_external_dependency := pb_external_dependency r;
     pb_alternate_action_available := pb_alternate_action_available r;
     pb_meaningful_attempts := pb_meaningful_attempts r; pb_status := pb_status r;
     pb_created_at := pb_created_at r; pb_updated_at := pb_updated_at r |}.
Definition set_pb_external_dependency (v : bool) (r : ProblemRow) : ProblemRow :=
  {| pb_id := pb_id r; pb_run_id := pb_run_id r; pb_fingerprint := pb_fingerprint r;
     pb_summary := pb_summary r; pb_external_dependency := v;
     pb_alternate_action_available := pb_alternate_action_available r;
     pb_meaningful_attempts := pb_meaningful_attempts r; pb_status := pb_status r;
     pb_created_at := pb_created_at r; pb_updated_at := pb_updated_at r |}.
Definition set_pb_alternate_action_available (v : bool) (r : ProblemRow) : ProblemRow :=
  {| pb_id := pb_id r; pb_run_id := pb_run_id r; pb_fingerprint := pb_fingerprint r;
     pb_summary := pb_summary r; pb_external_dependency := pb_external_dependency r;
     pb_alternate_action_available := v; pb_meaningful_attempts := pb_meaningful_attempts
     r; pb_status := pb_status r; pb_created_at := pb_created_at r; pb_updated_at :=
     pb_updated_at r |}.
Definition set_pb_meaningful_attempts (v : Z) (r : ProblemRow) : ProblemRow :=
  {| pb_id := pb_id r; pb_run_id := pb_run_id r; pb_fingerprint := pb_fingerprint r;
     pb_summary := pb_summary r; pb_external_dependency := pb_external_dependency r;
     pb_alternate_action_available := pb_alternate_action_available r;
     pb_meaningful_attempts := v; pb_status := pb_status r; pb_created_at := pb_created_at
     r; pb_updated_at := pb_updated_at r |}.
Definition set_pb_status (v : ProblemStatus) (r : ProblemRow) : ProblemRow :=
  {| pb_id := pb_id r; pb_run_id := pb_run_id r; pb_fingerprint := pb_fingerprint r;
     pb_summary := pb_summary r; pb_external_dependency := pb_external_dependency r;
     pb_alternate_action_available := pb_alternate_action_available r;
     pb_meaningful_attempts := pb_meaningful_attempts r; pb_status := v; pb_created_at :=
     pb_created_at r; pb_updated_at := pb_updated_at r |}.
Definition set_pb_updated_at (v : Z) (r : ProblemRow) : ProblemRow :=
  {| pb_id := pb_id r; pb_run_id := pb_run_id r; pb_fingerprint := pb_fingerprint r;
     pb_summary := pb_summary r; pb_external_dependency := pb_external_dependency r;
     pb_alternate_action_available := pb_alternate_action_available r;
     pb_meaningful_attempts := pb_meaningful_attempts r; pb_status := pb_status r;
     pb_created_at := pb_created_at r; pb_updated_at := v |}.

(** Source: packages/control-plane/src/database.ts:462-470 [problem_observations]. *)
Record ObservationRow := {
  po_id : string;
  po_problem_id : string;
  po_meaningful : bool;
  po_external_dependency : bool;
  po_alternate_action_available : bool;
  po_note : option string;
  po_occurred_at : Z }.

(** Source: packages/control-plane/src/database.ts:490-500 [artifacts]. *)
Record ArtifactRow := {
  af_id : string;
  af_run_id : string;
  af_label : string;
  af_uri : string;
  af_media_type : option string;
  af_size_bytes : option num;
  af_checksum : option string;
  af_created_at : Z;
  af_updated_at : Z }.

(** Source: packages/control-plane/src/database.ts:514-523 [git_changes]. *)
Record GitChangeRow := {
  gc_id : string;
  gc_run_id : string;
  gc_repository_uri : string;
  gc_revision : string;
  gc_summary : string;
  gc_task_ids : list string;
  gc_created_at : Z;
  gc_updated_at : Z }.

(** Source: packages/control-plane/src/database.ts:525-536 [cost_records]. *)
Record CostRow := {
  co_id : string;
  co_run_id : string;
  co_agent_id : option string;
  co_session_epoch_id : option string;
  co_input_tokens : num;
  co_output_tokens : num;
  co_cached_tokens : num;
  co_cost_usd : num;
  co_created_at : Z;
  co_updated_at : Z;
  co_entry_key : option string }.

(** Source: packages/control-plane/src/database.ts:538-547 [recovery_states]. *)
Record RecoveryRow := {
  rs_id : string;
  rs_run_id : string;
  rs_status : RecoveryStatus;
  rs_last_checkpoint_id : option string;
  rs_unknown_tool_call_ids : list string;
  rs_reason : option string;
  rs_created_at : Z;
  rs_updated_at : Z }.

Definition set_rs_status (v : RecoveryStatus) (r : RecoveryRow) : RecoveryRow :=
  {| rs_id := rs_id r; rs_run_id := rs_run_id r; rs_status := v; rs_last_checkpoint_id :=
     rs_last_checkpoint_id r; rs_unknown_tool_call_ids := rs_unknown_tool_call_ids r;
     rs_reason := rs_reason r; rs_created_at := rs_created_at r; rs_updated_at :=
     rs_updated_at r |}.
Definition set_rs_last_checkpoint_id (v : option string) (r : RecoveryRow) : RecoveryRow :=
  {| rs_id := rs_id r; rs_run_id := rs_run_id r; rs_status := rs_status r;
     rs_last_checkpoint_id := v; rs_unknown_tool_call_ids := rs_unknown_tool_call_ids r;
     rs_reason := rs_reason r; rs_created_at := rs_created_at r; rs_updated_at :=
     rs_updated_at r |}.
Definition set_rs_unknown_tool_call_ids (v : list string) (r : RecoveryRow) : RecoveryRow :=
  {| rs_id := rs_id r; rs_run_id := rs_run_id r; rs_status := rs_status r;
     rs_last_checkpoint_id := rs_last_checkpoint_id r; rs_unknown_tool_call_ids := v;
     rs_reason := rs_reason r; rs_created_at := rs_created_at r; rs_updated_at :=
     rs_updated_at r |}.
Definition set_rs_reason (v : option string) (r : RecoveryRow) : RecoveryRow :=
  {| rs_id := rs_id r; rs_run_id := rs_run_id r; rs_status := rs_status r;
     rs_last_checkpoint_id := rs_last_checkpoint_id r; rs_unknown_tool_call_ids :=
     rs_unknown_tool_call_ids r; rs_reason := v; rs_created_at := rs_created_at r;
     rs_updated_at := rs_updated_at r |}.
Definition set_rs_updated_at (v : Z) (r : RecoveryRow) : RecoveryRow :=
  {| rs_id := rs_id r; rs_run_id := rs_run_id r; rs_status := rs_status r;
     rs_last_checkpoint_id := rs_last_checkpoint_id r; rs_unknown_tool_call_ids :=
     rs_unknown_tool_call_ids r; rs_reason := rs_reason r; rs_created_at := rs_created_at
     r; rs_updated_at := v |}.

(** Source: packages/control-plane/src/database.ts:549-559 [context_snapshots]. *)
Record SnapshotRow := {
  cs_id : string;
  cs_run_id : string;
  cs_agent_id : option string;
  cs_session_epoch_id : option string;
  cs_summary : string;
  cs_token_count : num;
  cs_checkpoint_id : option string;
  cs_created_at : Z;
  cs_updated_at : Z }.

(** Source: packages/control-plane/src/database.ts:561-571 [memory_entries]. *)
Record MemoryRow := {
  me_id : string;
  me_run_id : string;
  me_scope : MemoryScope;
  me_content : string;
  me_confidence : num;
  me_agent_id : option string;
  me_source_evidence_ids : list string;
  me_created_at : Z;
  me_updated_at : Z }.

(** Source: packages/control-plane/src/database.ts:573-585 [approvals]. *)
Record ApprovalRow := {
  ap_id : string;
  ap_run_id : string;
  ap_agent_id : option string;
  ap_tool_call_id : option string;
  ap_status : ApprovalStatus;
  ap_summary : string;
  ap_requested_at : Z;
  ap_resolved_at : option Z;
  ap_resolver_id : option string;
  ap_created_at : Z;
  ap_updated_at : Z }.

Definition set_ap_status (v : ApprovalStatus) (r : ApprovalRow) : ApprovalRow :=
  {| ap_id := ap_id r; ap_run_id := ap_run_id r; ap_agent_id := ap_agent_id r;
     ap_tool_call_id := ap_tool_call_id r; ap_status := v; ap_summary := ap_summary r;
     ap_requested_at := ap_requested_at r; ap_resolved_at := ap_resolved_at r;
     ap_resolver_id := ap_resolver_id r; ap_created_at := ap_created_at r; ap_updated_at
     := ap_updated_at r |}.
Definition set_ap_resolved_at (v : option Z) (r : ApprovalRow) : ApprovalRow :=
  {| ap_id := ap_id r; ap_run_id := ap_run_id r; ap_agent_id := ap_agent_id r;
     ap_tool_call_id := ap_tool_call_id r; ap_status := ap_status r; ap_summary :=
     ap_summary r; ap_requested_at := ap_requested_at r; ap_resolved_at := v;
     ap_resolver_id := ap_resolver_id r; ap_created_at := ap_created_at r; ap_updated_at
     := ap_updated_at r |}.
Definition set_ap_resolver_id (v : option string) (r : ApprovalRow) : ApprovalRow :=
  {| ap_id := ap_id r; ap_run_id := ap_run_id r; ap_agent_id := ap_agent_id r;
     ap_tool_call_id := ap_tool_call_id r; ap_status := ap_status r; ap_summary :=
     ap_summary r; ap_requested_at := ap_requested_at r; ap_resolved_at := ap_resolved_at
     r; ap_resolver_id := v; ap_created_at := ap_created_at r; ap_updated_at :=
     ap_updated_at r |}.
Definition set_ap_updated_at (v : Z) (r : ApprovalRow) : ApprovalRow :=
  {| ap_id := ap_id r; ap_run_id := ap_run_id r; ap_agent_id := ap_agent_id r;
     ap_tool_call_id := ap_tool_call_id r; ap_status := ap_status r; ap_summary :=
     ap_summary r; ap_requested_at := ap_requested_at r; ap_resolved_at := ap_resolved_at
     r; ap_resolver_id := ap_resolver_id r; ap_created_at := ap_created_at r;
     ap_updated_at := v |}.

(** Source: packages/control-plane/src/database.ts:624-636 [agent_messages]. *)
Record MessageRow := {
  am_id : string;
  am_run_id : string;
  am_from_agent_id : option string;
  am_to_agent_id : string;
  am_task_id : option string;
  am_kind : StoredMessageKind;
  am_body : JsonValue;
  am_status : StoredMessageStatus;
  am_lease_generation : option Z;
  am_created_at : Z;
  am_delivered_at : option Z }.

Definition set_am_status (v : StoredMessageStatus) (r : MessageRow) : MessageRow :=
  {| am_id := am_id r; am_run_id := am_run_id r; am_from_agent_id := am_from_agent_id r;
     am_to_agent_id := am_to_agent_id r; am_task_id := am_task_id r; am_kind := am_kind r;
     am_body := am_body r; am_status := v; am_lease_generation := am_lease_generation r;
     am_created_at := am_created_at r; am_delivered_at := am_delivered_at r |}.
Definition set_am_delivered_at (v : option Z) (r : MessageRow) : MessageRow :=
  {| am_id := am_id r; am_run_id := am_run_id r; am_from_agent_id := am_from_agent_id r;
     am_to_agent_id := am_to_agent_id r; am_task_id := am_task_id r; am_kind := am_kind r;
     am_body := am_body r; am_status := am_status r; am_lease_generation :=
     am_lease_generation r; am_created_at := am_created_at r; am_delivered_at := v |}.

(** Source: packages/control-plane/src/database.ts:679-687 [usage_entries]. *)
Record UsageRow := {
  ue_run_id : string;
  ue_entry_key : string;
  ue_agent_id : option string;
  ue_delta : BudgetDelta;
  ue_lease_generation : option Z;
  ue_created_at : Z }.

(** * Entities *)

(** Source: packages/protocol/src/contracts.ts:127-139 [Run]. *)
Record Run := {
  run_id : string;
  run_missionId : string;
  run_status : RunStatus;
  run_title : string;
  run_budget : RunBudget;
  run_usage : BudgetUsage;
  run_currentGoalId : option string;
  run_startedAt : option Z;
  run_completedAt : option Z;
  run_blockedReason : option string;
  run_revision : Z;
  run_createdAt : Z;
  run_updatedAt : Z }.

(** Source: packages/control-plane/src/store/mappers.ts:334-359 [runFromRow]. *)
Definition runFromRow (row : RunRow) : Run :=
  {| run_id := rn_id row; run_missionId := rn_mission_id row; run_status := rn_status row;
     run_title := rn_title row; run_budget := rn_budget row; run_usage := rn_usage row;
     run_currentGoalId := rn_current_goal_id row; run_startedAt := rn_started_at row;
     run_completedAt := rn_completed_at row; run_blockedReason := rn_blocked_reason row;
     run_revision := rn_revision row; run_createdAt := rn_created_at row;
     run_updatedAt := rn_updated_at row |}.

(** Source: packages/control-plane/src/database.ts:328-333 [command_receipts]. *)
Record ReceiptRow := {
  cr_command_id : string;
  cr_run_id : string;
  cr_result : Run;
  cr_created_at : Z }.

(** A task with the identifiers its link tables hold.
    Source: packages/protocol/src/contracts.ts:153-171 [Task]. *)
Record Task := {
  task_row : TaskRow;
  task_blockerIds : list string;
  task_dependencyIds : list string;
  task_evidenceIds : list string;
  task_requirementIds : list string;
  task_resourceScopes : list ResourceScope }.

(** An agent with its parent and its session epochs.
    Source: packages/protocol/src/contracts.ts:181-194 [Agent]. *)
Record Agent := {
  agent_row : AgentRow;
  agent_parentAgentId : option string;
  agent_sessionEpochIds : list string }.

(** * The database *)

(** Source: packages/control-plane/src/database.ts:144-292 [SqliteDatabase.migrate]. *)
Record Db := {
  missions : list MissionRow;
  runs : list RunRow;
  goals : list GoalRow;
  tasks : list TaskRow;
  task_dependencies : list (string * string);
  task_resource_scopes : list (string * ResourceScope);
  agents : list AgentRow;
  agent_edges : list AgentEdgeRow;
  session_epochs : list SessionEpochRow;
  requirements : list RequirementRow;
  evidence : list EvidenceRow;
  validations : list ValidationRow;
  run_events : list EventRow;
  run_leases : list LeaseRow;
  command_receipts : list ReceiptRow;
  resource_locks : list LockRow;
  scheduled_actions : list ActionRow;
  wake_conditions : list WakeRow;
  tool_calls : list ToolCallRow;
  checkpoints : list CheckpointRow;
  milestones : list MilestoneRow;
  milestone_tasks : list (string * string);
  decisions : list DecisionRow;
  problems : list ProblemRow;
  problem_observations : list ObservationRow;
  task_problems : list (string * string);
  task_requirements : list (string * string);
  task_evidence : list (string * string);
  artifacts : list ArtifactRow;
  evidence_artifacts : list (string * string);
  git_changes : list GitChangeRow;
  cost_records : list CostRow;
  recovery_states : list RecoveryRow;
  context_snapshots : list SnapshotRow;
  memory_entries : list MemoryRow;
  approvals : list ApprovalRow;
  agent_messages : list MessageRow;
  usage_entries : list UsageRow }.

Definition set_missions (v : list MissionRow) (d : Db) : Db :=
  {| missions := v; runs := runs d; goals := goals d; tasks := tasks d; task_dependencies :=
     task_dependencies d; task_resource_scopes := task_resource_scopes d; agents := agents
     d; agent_edges := agent_edges d; session_epochs := session_epochs d; requirements :=
     requirements d; evidence := evidence d; validations := validations d; run_events :=
     run_events d; run_leases := run_leases d; command_receipts := command_receipts d;
     resource_locks := resource_locks d; scheduled_actions := scheduled_actions d;
     wake_conditions := wake_conditions d; tool_calls := tool_calls d; checkpoints :=
     checkpoints d; milestones := milestones d; milestone_tasks := milestone_tasks d;
     decisions := decisions d; problems := problems d; problem_observations :=
     problem_observations d; task_problems := task_problems d; task_requirements :=
     task_requirements d; task_evidence := task_evidence d; artifacts := artifacts d;
     evidence_artifacts := evidence_artifacts d; git_changes := git_changes d; cost_records
     := cost_records d; recovery_states := recovery_states d; context_snapshots :=
     context_snapshots d; memory_entries := memory_entries d; approvals := approvals d;
     agent_messages := agent_messages d; usage_entries := usage_entries d |}.
Definition set_runs (v : list RunRow) (d : Db) : Db :=
  {| missions := missions d; runs := v; goals := goals d; tasks := tasks d;
     task_dependencies := task_dependencies d; task_resource_scopes := task_resource_scopes
     d; agents := agents d; agent_edges := agent_edges d; session_epochs := session_epochs
     d; requirements := requirements d; evidence := evidence d; validations := validations
     d; run_events := run_events d; run_leases := run_leases d; command_receipts :=
     command_receipts d; resource_locks := resource_locks d; scheduled_actions :=
     scheduled_actions d; wake_conditions := wake_conditions d; tool_calls := tool_calls d;
     checkpoints := checkpoints d; milestones := milestones d; milestone_tasks :=
     milestone_tasks d; decisions := decisions d; problems := problems d;
     problem_observations := problem_observations d; task_problems := task_problems d;
     task_requirements := task_requirements d; task_evidence := task_evidence d; artifacts
     := artifacts d; evidence_artifacts := evidence_artifacts d; git_changes := git_changes
     d; cost_records := cost_records d; recovery_states := recovery_states d;
     context_snapshots := context_snapshots d; memory_entries := memory_entries d; approvals
     := approvals d; agent_messages := agent_messages d; usage_entries := usage_entries d |}.
Definition set_goals (v : list GoalRow) (d : Db) : Db :=
  {| missions := missions d; runs := runs d; goals := v; tasks := tasks d; task_dependencies
     := task_dependencies d; task_resource_scopes := task_resource_scopes d; agents :=
     agents d; agent_edges := agent_edges d; session_epochs := session_epochs d;
     requirements := requirements d; evidence := evidence d; validations := validations d;
     run_events := run_events d; run_leases := run_leases d; command_receipts :=
     command_receipts d; resource_locks := resource_locks d; scheduled_actions :=
     scheduled_actions d; wake_conditions := wake_conditions d; tool_calls := tool_calls d;
     checkpoints := checkpoints d; milestones := milestones d; milestone_tasks :=
     milestone_tasks d; decisions := decisions d; problems := problems d;
     problem_observations := problem_observations d; task_problems := task_problems d;
     task_requirements := task_requirements d; task_evidence := task_evidence d; artifacts
     := artifacts d; evidence_artifacts := evidence_artifacts d; git_changes := git_changes
     d; cost_records := cost_records d; recovery_states := recovery_states d;
     context_snapshots := context_snapshots d; memory_entries := memory_entries d; approvals
     := approvals d; agent_messages := agent_messages d; usage_entries := usage_entries d |}.
Definition set_tasks (v : list TaskRow) (d : Db) : Db :=
  {| missions := missions d; runs := runs d; goals := goals d; tasks := v; task_dependencies
     := task_dependencies d; task_resource_scopes := task_resource_scopes d; agents :=
     agents d; agent_edges := agent_edges d; session_epochs := session_epochs d;
     requirements := requirements d; evidence := evidence d; validations := validations d;
     run_events := run_events d; run_leases := run_leases d; command_receipts :=
     command_receipts d; resource_locks := resource_locks d; scheduled_actions :=
     scheduled_actions d; wake_conditions := wake_conditions d; tool_calls := tool_calls d;
     checkpoints := checkpoints d; milestones := milestones d; milestone_tasks :=
     milestone_tasks d; decisions := decisions d; problems := problems d;
     problem_observations := problem_observations d; task_problems := task_problems d;
     task_requirements := task_requirements d; task_evidence := task_evidence d; artifacts
     := artifacts d; evidence_artifacts := evidence_artifacts d; git_changes := git_changes
     d; cost_records := cost_records d; recovery_states := recovery_states d;
     context_snapshots := context_snapshots d; memory_entries := memory_entries d; approvals
     := approvals d; agent_messages := agent_messages d; usage_entries := usage_entries d |}.
Definition set_task_dependencies (v : list (string * string)) (d : Db) : Db :=
  {| missions := missions d; runs := runs d; goals := goals d; tasks := tasks d;
     task_dependencies := v; task_resource_scopes := task_resource_scopes d; agents :=
     agents d; agent_edges := agent_edges d; session_epochs := session_epochs d;
     requirements := requirements d; evidence := evidence d; validations := validations d;
     run_events := run_events d; run_leases := run_leases d; command_receipts :=
     command_receipts d; resource_locks := resource_locks d; scheduled_actions :=
     scheduled_actions d; wake_conditions := wake_conditions d; tool_calls := tool_calls d;
     checkpoints := checkpoints d; milestones := milestones d; milestone_tasks :=
     milestone_tasks d; decisions := decisions d; problems := problems d;
     problem_observations := problem_observations d; task_problems := task_problems d;
     task_requirements := task_requirements d; task_evidence := task_evidence d; artifacts
     := artifacts d; evidence_artifacts := evidence_artifacts d; git_changes := git_changes
     d; cost_records := cost_records d; recovery_states := recovery_states d;
     context_snapshots := context_snapshots d; memory_entries := memory_entries d; approvals
     := approvals d; agent_messages := agent_messages d; usage_entries := usage_entries d |}.
Definition set_task_resource_scopes (v : list (string * ResourceScope)) (d : Db) : Db :=
  {| missions := missions d; runs := runs d; goals := goals d; tasks := tasks d;
     task_dependencies := task_dependencies d; task_resource_scopes := v; agents := agents
     d; agent_edges := agent_edges d; session_epochs := session_epochs d; requirements :=
     requirements d; evidence := evidence d; validations := validations d; run_events :=
     run_events d; run_leases := run_leases d; command_receipts := command_receipts d;
     resource_locks := resource_locks d; scheduled_actions := scheduled_actions d;
     wake_conditions := wake_conditions d; tool_calls := tool_calls d; checkpoints :=
     checkpoints d; milestones := milestones d; milestone_tasks := milestone_tasks d;
     decisions := decisions d; problems := problems d; problem_observations :=
     problem_observations d; task_problems := task_problems d; task_requirements :=
     task_requirements d; task_evidence := task_evidence d; artifacts := artifacts d;
     evidence_artifacts := evidence_artifacts d; git_changes := git_changes d; cost_records
     := cost_records d; recovery_states := recovery_states d; context_snapshots :=
     context_snapshots d; memory_entries := memory_entries d; approvals := approvals d;
     agent_messages := agent_messages d; usage_entries := usage_entries d |}.
Definition set_agents (v : list AgentRow) (d : Db) : Db :=
  {| missions := missions d; runs := runs d; goals := goals d; tasks := tasks d;
     task_dependencies := task_dependencies d; task_resource_scopes := task_resource_scopes
     d; agents := v; agent_edges := agent_edges d; session_epochs := session_epochs d;
     requirements := requirements d; evidence := evidence d; validations := validations d;
     run_events := run_events d; run_leases := run_leases d; command_receipts :=
     command_receipts d; resource_locks := resource_locks d; scheduled_actions :=
     scheduled_actions d; wake_conditions := wake_conditions d; tool_calls := tool_calls d;
     checkpoints := checkpoints d; milestones := milestones d; milestone_tasks :=
     milestone_tasks d; decisions := decisions d; problems := problems d;
     problem_observations := problem_observations d; task_problems := task_problems d;
     task_requirements := task_requirements d; task_evidence := task_evidence d; artifacts
     := artifacts d; evidence_artifacts := evidence_artifacts d; git_changes := git_changes
     d; cost_records := cost_records d; recovery_states := recovery_states d;
     context_snapshots := context_snapshots d; memory_entries := memory_entries d; approvals
     := approvals d; agent_messages := agent_messages d; usage_entries := usage_entries d |}.
Definition set_agent_edges (v : list AgentEdgeRow) (d : Db) : Db :=
  {| missions := missions d; runs := runs d; goals := goals d; tasks := tasks d;
     task_dependencies := task_dependencies d; task_resource_scopes := task_resource_scopes
     d; agents := agents d; agent_edges := v; session_epochs := session_epochs d;
     requirements := requirements d; evidence := evidence d; validations := validations d;
     run_events := run_events d; run_leases := run_leases d; command_receipts :=
     command_receipts d; resource_locks := resource_locks d; scheduled_actions :=
     scheduled_actions d; wake_conditions := wake_conditions d; tool_calls := tool_calls d;
     checkpoints := checkpoints d; milestones := milestones d; milestone_tasks :=
     milestone_tasks d; decisions := decisions d; problems := problems d;
     problem_observations := problem_observations d; task_problems := task_problems d;
     task_requirements := task_requirements d; task_evidence := task_evidence d; artifacts
     := artifacts d; evidence_artifacts := evidence_artifacts d; git_changes := git_changes
     d; cost_records := cost_records d; recovery_states := recovery_states d;
     context_snapshots := context_snapshots d; memory_entries := memory_entries d; approvals
     := approvals d; agent_messages := agent_messages d; usage_entries := usage_entries d |}.
Definition set_session_epochs (v : list SessionEpochRow) (d : Db) : Db :=
  {| missions := missions d; runs := runs d; goals := goals d; tasks := tasks d;
     task_dependencies := task_dependencies d; task_resource_scopes := task_resource_scopes
     d; agents := agents d; agent_edges := agent_edges d; session_epochs := v; requirements
     := requirements d; evidence := evidence d; validations := validations d; run_events :=
     run_events d; run_leases := run_leases d; command_receipts := command_receipts d;
     resource_locks := resource_locks d; scheduled_actions := scheduled_actions d;
     wake_conditions := wake_conditions d; tool_calls := tool_calls d; checkpoints :=
     checkpoints d; milestones := milestones d; milestone_tasks := milestone_tasks d;
     decisions := decisions d; problems := problems d; problem_observations :=
     problem_observations d; task_problems := task_problems d; task_requirements :=
     task_requirements d; task_evidence := task_evidence d; artifacts := artifacts d;
     evidence_artifacts := evidence_artifacts d; git_changes := git_changes d; cost_records
     := cost_records d; recovery_states := recovery_states d; context_snapshots :=
     context_snapshots d; memory_entries := memory_entries d; approvals := approvals d;
     agent_messages := agent_messages d; usage_entries := usage_entries d |}.
Definition set_requirements (v : list RequirementRow) (d : Db) : Db :=
  {| missions := missions d; runs := runs d; goals := goals d; tasks := tasks d;
     task_dependencies := task_dependencies d; task_resource_scopes := task_resource_scopes
     d; agents := agents d; agent_edges := agent_edges d; session_epochs := session_epochs
     d; requirements := v; evidence := evidence d; validations := validations d; run_events
     := run_events d; run_leases := run_leases d; command_receipts := command_receipts d;
     resource_locks := resource_locks d; scheduled_actions := scheduled_actions d;
     wake_conditions := wake_conditions d; tool_calls := tool_calls d; checkpoints :=
     checkpoints d; milestones := milestones d; milestone_tasks := milestone_tasks d;
     decisions := decisions d; problems := problems d; problem_observations :=
     problem_observations d; task_problems := task_problems d; task_requirements :=
     task_requirements d; task_evidence := task_evidence d; artifacts := artifacts d;
     evidence_artifacts := evidence_artifacts d; git_changes := git_changes d; cost_records
     := cost_records d; recovery_states := recovery_states d; context_snapshots :=
     context_snapshots d; memory_entries := memory_entries d; approvals := approvals d;
     agent_messages := agent_messages d; usage_entries := usage_entries d |}.
Definition set_evidence (v : list EvidenceRow) (d : Db) : Db :=
  {| missions := missions d; runs := runs d; goals := goals d; tasks := tasks d;
     task_dependencies := task_dependencies d; task_resource_scopes := task_resource_scopes
     d; agents := agents d; agent_edges := agent_edges d; session_epochs := session_epochs
     d; requirements := requirements d; evidence := v; validations := validations d;
     run_events := run_events d; run_leases := run_leases d; command_receipts :=
     command_receipts d; resource_locks := resource_locks d; scheduled_actions :=
     scheduled_actions d; wake_conditions := wake_conditions d; tool_calls := tool_calls d;
     checkpoints := checkpoints d; milestones := milestones d; milestone_tasks :=
     milestone_tasks d; decisions := decisions d; problems := problems d;
     problem_observations := problem_observations d; task_problems := task_problems d;
     task_requirements := task_requirements d; task_evidence := task_evidence d; artifacts
     := artifacts d; evidence_artifacts := evidence_artifacts d; git_changes := git_changes
     d; cost_records := cost_records d; recovery_states := recovery_states d;
     context_snapshots := context_snapshots d; memory_entries := memory_entries d; approvals
     := approvals d; agent_messages := agent_messages d; usage_entries := usage_entries d |}.
Definition set_validations (v : list ValidationRow) (d : Db) : Db :=
  {| missions := missions d; runs := runs d; goals := goals d; tasks := tasks d;
     task_dependencies := task_dependencies d; task_resource_scopes := task_resource_scopes
     d; agents := agents d; agent_edges := agent_edges d; session_epochs := session_epochs
     d; requirements := requirements d; evidence := evidence d; validations := v; run_events
     := run_events d; run_leases := run_leases d; command_receipts := command_receipts d;
     resource_locks := resource_locks d; scheduled_actions := scheduled_actions d;
     wake_conditions := wake_conditions d; tool_calls := tool_calls d; checkpoints :=
     checkpoints d; milestones := milestones d; milestone_tasks := milestone_tasks d;
     decisions := decisions d; problems := problems d; problem_observations :=
     problem_observations d; task_problems := task_problems d; task_requirements :=
     task_requirements d; task_evidence := task_evidence d; artifacts := artifacts d;
     evidence_artifacts := evidence_artifacts d; git_changes := git_changes d; cost_records
     := cost_records d; recovery_states := recovery_states d; context_snapshots :=
     context_snapshots d; memory_entries := memory_entries d; approvals := approvals d;
     agent_messages := agent_messages d; usage_entries := usage_entries d |}.
Definition set_run_events (v : list EventRow) (d : Db) : Db :=
  {| missions := missions d; runs := runs d; goals := goals d; tasks := tasks d;
     task_dependencies := task_dependencies d; task_resource_scopes := task_resource_scopes
     d; agents := agents d; agent_edges := agent_edges d; session_epochs := session_epochs
     d; requirements := requirements d; evidence := evidence d; validations := validations
     d; run_events := v; run_leases := run_leases d; command_receipts := command_receipts d;
     resource_locks := resource_locks d; scheduled_actions := scheduled_actions d;
     wake_conditions := wake_conditions d; tool_calls := tool_calls d; checkpoints :=
     checkpoints d; milestones := milestones d; milestone_tasks := milestone_tasks d;
     decisions := decisions d; problems := problems d; problem_observations :=
     problem_observations d; task_problems := task_problems d; task_requirements :=
     task_requirements d; task_evidence := task_evidence d; artifacts := artifacts d;
     evidence_artifacts := evidence_artifacts d; git_changes := git_changes d; cost_records
     := cost_records d; recovery_states := recovery_states d; context_snapshots :=
     context_snapshots d; memory_entries := memory_entries d; approvals := approvals d;
     agent_messages := agent_messages d; usage_entries := usage_entries d |}.
Definition set_run_leases (v : list LeaseRow) (d : Db) : Db :=
  {| missions := missions d; runs := runs d; goals := goals d; tasks := tasks d;
     task_dependencies := task_dependencies d; task_resource_scopes := task_resource_scopes
     d; agents := agents d; agent_edges := agent_edges d; session_epochs := session_epochs
     d; requirements := requirements d; evidence := evidence d; validations := validations
     d; run_events := run_events d; run_leases := v; command_receipts := command_receipts d;
     resource_locks := resource_locks d; scheduled_actions := scheduled_actions d;
     wake_conditions := wake_conditions d; tool_calls := tool_calls d; checkpoints :=
     checkpoints d; milestones := milestones d; milestone_tasks := milestone_tasks d;
     decisions := decisions d; problems := problems d; problem_observations :=
     problem_observations d; task_problems := task_problems d; task_requirements :=
     task_requirements d; task_evidence := task_evidence d; artifacts := artifacts d;
     evidence_artifacts := evidence_artifacts d; git_changes := git_changes d; cost_records
     := cost_records d; recovery_states := recovery_states d; context_snapshots :=
     context_snapshots d; memory_entries := memory_entries d; approvals := approvals d;
     agent_messages := agent_messages d; usage_entries := usage_entries d |}.
Definition set_command_receipts (v : list ReceiptRow) (d : Db) : Db :=
  {| missions := missions d; runs := runs d; goals := goals d; tasks := tasks d;
     task_dependencies := task_dependencies d; task_resource_scopes := task_resource_scopes
     d; agents := agents d; agent_edges := agent_edges d; session_epochs := session_epochs
     d; requirements := requirements d; evidence := evidence d; validations := validations
     d; run_events := run_events d; run_leases := run_leases d; command_receipts := v;
     resource_locks := resource_locks d; scheduled_actions := scheduled_actions d;
     wake_conditions := wake_conditions d; tool_calls := tool_calls d; checkpoints :=
     checkpoints d; milestones := milestones d; milestone_tasks := milestone_tasks d;
     decisions := decisions d; problems := problems d; problem_observations :=
     problem_observations d; task_problems := task_problems d; task_requirements :=
     task_requirements d; task_evidence := task_evidence d; artifacts := artifacts d;
     evidence_artifacts := evidence_artifacts d; git_changes := git_changes d; cost_records
     := cost_records d; recovery_states := recovery_states d; context_snapshots :=
     context_snapshots d; memory_entries := memory_entries d; approvals := approvals d;
     agent_messages := agent_messages d; usage_entries := usage_entries d |}.
Definition set_resource_locks (v : list LockRow) (d : Db) : Db :=
  {| missions := missions d; runs := runs d; goals := goals d; tasks := tasks d;
     task_dependencies := task_dependencies d; task_resource_scopes := task_resource_scopes
     d; agents := agents d; agent_edges := agent_edges d; session_epochs := session_epochs
     d; requirements := requirements d; evidence := evidence d; validations := validations
     d; run_events := run_events d; run_leases := run_leases d; command_receipts :=
     command_receipts d; resource_locks := v; scheduled_actions := scheduled_actions d;
     wake_conditions := wake_conditions d; tool_calls := tool_calls d; checkpoints :=
     checkpoints d; milestones := milestones d; milestone_tasks := milestone_tasks d;
     decisions := decisions d; problems := problems d; problem_observations :=
     problem_observations d; task_problems := task_problems d; task_requirements :=
     task_requirements d; task_evidence := task_evidence d; artifacts := artifacts d;
     evidence_artifacts := evidence_artifacts d; git_changes := git_changes d; cost_records
     := cost_records d; recovery_states := recovery_states d; context_snapshots :=
     context_snapshots d; memory_entries := memory_entries d; approvals := approvals d;
     agent_messages := agent_messages d; usage_entries := usage_entries d |}.
Definition set_scheduled_actions (v : list ActionRow) (d : Db) : Db :=
  {| missions := missions d; runs := runs d; goals := goals d; tasks := tasks d;
     task_dependencies := task_dependencies d; task_resource_scopes := task_resource_scopes
     d; agents := agents d; agent_edges := agent_edges d; session_epochs := session_epochs
     d; requirements := requirements d; evidence := evidence d; validations := validations
     d; run_events := run_events d; run_leases := run_leases d; command_receipts :=
     command_receipts d; resource_locks := resource_locks d; scheduled_actions := v;
     wake_conditions := wake_conditions d; tool_calls := tool_calls d; checkpoints :=
     checkpoints d; milestones := milestones d; milestone_tasks := milestone_tasks d;
     decisions := decisions d; problems := problems d; problem_observations :=
     problem_observations d; task_problems := task_problems d; task_requirements :=
     task_requirements d; task_evidence := task_evidence d; artifacts := artifacts d;
     evidence_artifacts := evidence_artifacts d; git_changes := git_changes d; cost_records
     := cost_records d; recovery_states := recovery_states d; context_snapshots :=
     context_snapshots d; memory_entries := memory_entries d; approvals := approvals d;
     agent_messages := agent_messages d; usage_entries := usage_entries d |}.
Definition set_wake_conditions (v : list WakeRow) (d : Db) : Db :=
  {| missions := missions d; runs := runs d; goals := goals d; tasks := tasks d;
     task_dependencies := task_dependencies d; task_resource_scopes := task_resource_scopes
     d; agents := agents d; agent_edges := agent_edges d; session_epochs := session_epochs
     d; requirements := requirements d; evidence := evidence d; validations := validations
     d; run_events := run_events d; run_leases := run_leases d; command_receipts :=
     command_receipts d; resource_locks := resource_locks d; scheduled_actions :=
     scheduled_actions d; wake_conditions := v; tool_calls := tool_calls d; checkpoints :=
     checkpoints d; milestones := milestones d; milestone_tasks := milestone_tasks d;
     decisions := decisions d; problems := problems d; problem_observations :=
     problem_observations d; task_problems := task_problems d; task_requirements :=
     task_requirements d; task_evidence := task_evidence d; artifacts := artifacts d;
     evidence_artifacts := evidence_artifacts d; git_changes := git_changes d; cost_records
     := cost_records d; recovery_states := recovery_states d; context_snapshots :=
     context_snapshots d; memory_entries := memory_entries d; approvals := approvals d;
     agent_messages := agent_messages d; usage_entries := usage_entries d |}.
Definition set_tool_calls (v : list ToolCallRow) (d : Db) : Db :=
  {| missions := missions d; runs := runs d; goals := goals d; tasks := tasks d;
     task_dependencies := task_dependencies d; task_resource_scopes := task_resource_scopes
     d; agents := agents d; agent_edges := agent_edges d; session_epochs := session_epochs
     d; requirements := requirements d; evidence := evidence d; validations := validations
     d; run_events := run_events d; run_leases := run_leases d; command_receipts :=
     command_receipts d; resource_locks := resource_locks d; scheduled_actions :=
     scheduled_actions d; wake_conditions := wake_conditions d; tool_calls := v; checkpoints
     := checkpoints d; milestones := milestones d; milestone_tasks := milestone_tasks d;
     decisions := decisions d; problems := problems d; problem_observations :=
     problem_observations d; task_problems := task_problems d; task_requirements :=
     task_requirements d; task_evidence := task_evidence d; artifacts := artifacts d;
     evidence_artifacts := evidence_artifacts d; git_changes := git_changes d; cost_records
     := cost_records d; recovery_states := recovery_states d; context_snapshots :=
     context_snapshots d; memory_entries := memory_entries d; approvals := approvals d;
     agent_messages := agent_messages d; usage_entries := usage_entries d |}.
Definition set_checkpoints (v : list CheckpointRow) (d : Db) : Db :=
  {| missions := missions d; runs := runs d; goals := goals d; tasks := tasks d;
     task_dependencies := task_dependencies d; task_resource_scopes := task_resource_scopes
     d; agents := agents d; agent_edges := agent_edges d; session_epochs := session_epochs
     d; requirements := requirements d; evidence := evidence d; validations := validations
     d; run_events := run_events d; run_leases := run_leases d; command_receipts :=
     command_receipts d; resource_locks := resource_locks d; scheduled_actions :=
     scheduled_actions d; wake_conditions := wake_conditions d; tool_calls := tool_calls d;
     checkpoints := v; milestones := milestones d; milestone_tasks := milestone_tasks d;
     decisions := decisions d; problems := problems d; problem_observations :=
     problem_observations d; task_problems := task_problems d; task_requirements :=
     task_requirements d; task_evidence := task_evidence d; artifacts := artifacts d;
     evidence_artifacts := evidence_artifacts d; git_changes := git_changes d; cost_records
     := cost_records d; recovery_states := recovery_states d; context_snapshots :=
     context_snapshots d; memory_entries := memory_entries d; approvals := approvals d;
     agent_messages := agent_messages d; usage_entries := usage_entries d |}.
Definition set_milestones (v : list MilestoneRow) (d : Db) : Db :=
  {| missions := missions d; runs := runs d; goals := goals d; tasks := tasks d;
     task_dependencies := task_dependencies d; task_resource_scopes := task_resource_scopes
     d; agents := agents d; agent_edges := agent_edges d; session_epochs := session_epochs
     d; requirements := requirements d; evidence := evidence d; validations := validations
     d; run_events := run_events d; run_leases := run_leases d; command_receipts :=
     command_receipts d; resource_locks := resource_locks d; scheduled_actions :=
     scheduled_actions d; wake_conditions := wake_conditions d; tool_calls := tool_calls d;
     checkpoints := checkpoints d; milestones := v; milestone_tasks := milestone_tasks d;
     decisions := decisions d; problems := problems d; problem_observations :=
     problem_observations d; task_problems := task_problems d; task_requirements :=
     task_requirements d; task_evidence := task_evidence d; artifacts := artifacts d;
     evidence_artifacts := evidence_artifacts d; git_changes := git_changes d; cost_records
     := cost_records d; recovery_states := recovery_states d; context_snapshots :=
     context_snapshots d; memory_entries := memory_entries d; approvals := approvals d;
     agent_messages := agent_messages d; usage_entries := usage_entries d |}.
Definition set_milestone_tasks (v : list (string * string)) (d : Db) : Db :=
  {| missions := missions d; runs := runs d; goals := goals d; tasks := tasks d;
     task_dependencies := task_dependencies d; task_resource_scopes := task_resource_scopes
     d; agents := agents d; agent_edges := agent_edges d; session_epochs := session_epochs
     d; requirements := requirements d; evidence := evidence d; validations := validations
     d; run_events := run_events d; run_leases := run_leases d; command_receipts :=
     command_receipts d; resource_locks := resource_locks d; scheduled_actions :=
     scheduled_actions d; wake_conditions := wake_conditions d; tool_calls := tool_calls d;
     checkpoints := checkpoints d; milestones := milestones d; milestone_tasks := v;
     decisions := decisions d; problems := problems d; problem_observations :=
     problem_observations d; task_problems := task_problems d; task_requirements :=
     task_requirements d; task_evidence := task_evidence d; artifacts := artifacts d;
     evidence_artifacts := evidence_artifacts d; git_changes := git_changes d; cost_records
     := cost_records d; recovery_states := recovery_states d; context_snapshots :=
     context_snapshots d; memory_entries := memory_entries d; approvals := approvals d;
     agent_messages := agent_messages d; usage_entries := usage_entries d |}.
Definition set_decisions (v : list DecisionRow) (d : Db) : Db :=
  {| missions := missions d; runs := runs d; goals := goals d; tasks := tasks d;
     task_dependencies := task_dependencies d; task_resource_scopes := task_resource_scopes
     d; agents := agents d; agent_edges := agent_edges d; session_epochs := session_epochs
     d; requirements := requirements d; evidence := evidence d; validations := validations
     d; run_events := run_events d; run_leases := run_leases d; command_receipts :=
     command_receipts d; resource_locks := resource_locks d; scheduled_actions :=
     scheduled_actions d; wake_conditions := wake_conditions d; tool_calls := tool_calls d;
     checkpoints := checkpoints d; milestones := milestones d; milestone_tasks :=
     milestone_tasks d; decisions := v; problems := problems d; problem_observations :=
     problem_observations d; task_problems := task_problems d; task_requirements :=
     task_requirements d; task_evidence := task_evidence d; artifacts := artifacts d;
     evidence_artifacts := evidence_artifacts d; git_changes := git_changes d; cost_records
     := cost_records d; recovery_states := recovery_states d; context_snapshots :=
     context_snapshots d; memory_entries := memory_entries d; approvals := approvals d;
     agent_messages := agent_messages d; usage_entries := usage_entries d |}.
Definition set_problems (v : list ProblemRow) (d : Db) : Db :=
  {| missions := missions d; runs := runs d; goals := goals d; tasks := tasks d;
     task_dependencies := task_dependencies d; task_resource_scopes := task_resource_scopes
     d; agents := agents d; agent_edges := agent_edges d; session_epochs := session_epochs
     d; requirements := requirements d; evidence := evidence d; validations := validations
     d; run_events := run_events d; run_leases := run_leases d; command_receipts :=
     command_receipts d; resource_locks := resource_locks d; scheduled_actions :=
     scheduled_actions d; wake_conditions := wake_conditions d; tool_calls := tool_calls d;
     checkpoints := checkpoints d; milestones := milestones d; milestone_tasks :=
     milestone_tasks d; decisions := decisions d; problems := v; problem_observations :=
     problem_observations d; task_problems := task_problems d; task_requirements :=
     task_requirements d; task_evidence := task_evidence d; artifacts := artifacts d;
     evidence_artifacts := evidence_artifacts d; git_changes := git_changes d; cost_records
     := cost_records d; recovery_states := recovery_states d; context_snapshots :=
     context_snapshots d; memory_entries := memory_entries d; approvals := approvals d;
     agent_messages := agent_messages d; usage_entries := usage_entries d |}.
Definition set_problem_observations (v : list ObservationRow) (d : Db) : Db :=
  {| missions := missions d; runs := runs d; goals := goals d; tasks := tasks d;
     task_dependencies := task_dependencies d; task_resource_scopes := task_resource_scopes
     d; agents := agents d; agent_edges := agent_edges d; session_epochs := session_epochs
     d; requirements := requirements d; evidence := evidence d; validations := validations
     d; run_events := run_events d; run_leases := run_leases d; command_receipts :=
     command_receipts d; resource_locks := resource_locks d; scheduled_actions :=
     scheduled_actions d; wake_conditions := wake_conditions d; tool_calls := tool_calls d;
     checkpoints := checkpoints d; milestones := milestones d; milestone_tasks :=
     milestone_tasks d; decisions := decisions d; problems := problems d;
     problem_observations := v; task_problems := task_problems d; task_requirements :=
     task_requirements d; task_evidence := task_evidence d; artifacts := artifacts d;
     evidence_artifacts := evidence_artifacts d; git_changes := git_changes d; cost_records
     := cost_records d; recovery_states := recovery_states d; context_snapshots :=
     context_snapshots d; memory_entries := memory_entries d; approvals := approvals d;
     agent_messages := agent_messages d; usage_entries := usage_entries d |}.
Definition set_task_problems (v : list (string * string)) (d : Db) : Db :=
  {| missions := missions d; runs := runs d; goals := goals d; tasks := tasks d;
     task_dependencies := task_dependencies d; task_resource_scopes := task_resource_scopes
     d; agents := agents d; agent_edges := agent_edges d; session_epochs := session_epochs
     d; requirements := requirements d; evidence := evidence d; validations := validations
     d; run_events := run_events d; run_leases := run_leases d; command_receipts :=
     command_receipts d; resource_locks := resource_locks d; scheduled_actions :=
     scheduled_actions d; wake_conditions := wake_conditions d; tool_calls := tool_calls d;
     checkpoints := checkpoints d; milestones := milestones d; milestone_tasks :=
     milestone_tasks d; decisions := decisions d; problems := problems d;
     problem_observations := problem_observations d; task_problems := v; task_requirements
     := task_requirements d; task_evidence := task_evidence d; artifacts := artifacts d;
     evidence_artifacts := evidence_artifacts d; git_changes := git_changes d; cost_records
     := cost_records d; recovery_states := recovery_states d; context_snapshots :=
     context_snapshots d; memory_entries := memory_entries d; approvals := approvals d;
     agent_messages := agent_messages d; usage_entries := usage_entries d |}.
Definition set_task_requirements (v : list (string * string)) (d : Db) : Db :=
  {| missions := missions d; runs := runs d; goals := goals d; tasks := tasks d;
     task_dependencies := task_dependencies d; task_resource_scopes := task_resource_scopes
     d; agents := agents d; agent_edges := agent_edges d; session_epochs := session_epochs
     d; requirements := requirements d; evidence := evidence d; validations := validations
     d; run_events := run_events d; run_leases := run_leases d; command_receipts :=
     command_receipts d; resource_locks := resource_locks d; scheduled_actions :=
     scheduled_actions d; wake_conditions := wake_conditions d; tool_calls := tool_calls d;
     checkpoints := checkpoints d; milestones := milestones d; milestone_tasks :=
     milestone_tasks d; decisions := decisions d; problems := problems d;
     problem_observations := problem_observations d; task_problems := task_problems d;
     task_requirements := v; task_evidence := task_evidence d; artifacts := artifacts d;
     evidence_artifacts := evidence_artifacts d; git_changes := git_changes d; cost_records
     := cost_records d; recovery_states := recovery_states d; context_snapshots :=
     context_snapshots d; memory_entries := memory_entries d; approvals := approvals d;
     agent_messages := agent_messages d; usage_entries := usage_entries d |}.
Definition set_task_evidence (v : list (string * string)) (d : Db) : Db :=
  {| missions := missions d; runs := runs d; goals := goals d; tasks := tasks d;
     task_dependencies := task_dependencies d; task_resource_scopes := task_resource_scopes
     d; agents := agents d; agent_edges := agent_edges d; session_epochs := session_epochs
     d; requirements := requirements d; evidence := evidence d; validations := validations
     d; run_events := run_events d; run_leases := run_leases d; command_receipts :=
     command_receipts d; resource_locks := resource_locks d; scheduled_actions :=
     scheduled_actions d; wake_conditions := wake_conditions d; tool_calls := tool_calls d;
     checkpoints := checkpoints d; milestones := milestones d; milestone_tasks :=
     milestone_tasks d; decisions := decisions d; problems := problems d;
     problem_observations := problem_observations d; task_problems := task_problems d;
     task_requirements := task_requirements d; task_evidence := v; artifacts := artifacts d;
     evidence_artifacts := evidence_artifacts d; git_changes := git_changes d; cost_records
     := cost_records d; recovery_states := recovery_states d; context_snapshots :=
     context_snapshots d; memory_entries := memory_entries d; approvals := approvals d;
     agent_messages := agent_messages d; usage_entries := usage_entries d |}.
Definition set_artifacts (v : list ArtifactRow) (d : Db) : Db :=
  {| missions := missions d; runs := runs d; goals := goals d; tasks := tasks d;
     task_dependencies := task_dependencies d; task_resource_scopes := task_resource_scopes
     d; agents := agents d; agent_edges := agent_edges d; session_epochs := session_epochs
     d; requirements := requirements d; evidence := evidence d; validations := validations
     d; run_events := run_events d; run_leases := run_leases d; command_receipts :=
     command_receipts d; resource_locks := resource_locks d; scheduled_actions :=
     scheduled_actions d; wake_conditions := wake_conditions d; tool_calls := tool_calls d;
     checkpoints := checkpoints d; milestones := milestones d; milestone_tasks :=
     milestone_tasks d; decisions := decisions d; problems := problems d;
     problem_observations := problem_observations d; task_problems := task_problems d;
     task_requirements := task_requirements d; task_evidence := task_evidence d; artifacts
     := v; evidence_artifacts := evidence_artifacts d; git_changes := git_changes d;
     cost_records := cost_records d; recovery_states := recovery_states d; context_snapshots
     := context_snapshots d; memory_entries := memory_entries d; approvals := approvals d;
     agent_messages := agent_messages d; usage_entries := usage_entries d |}.
Definition set_evidence_artifacts (v : list (string * string)) (d : Db) : Db :=
  {| missions := missions d; runs := runs d; goals := goals d; tasks := tasks d;
     task_dependencies := task_dependencies d; task_resource_scopes := task_resource_scopes
     d; agents := agents d; agent_edges := agent_edges d; session_epochs := session_epochs
     d; requirements := requirements d; evidence := evidence d; validations := validations
     d; run_events := run_events d; run_leases := run_leases d; command_receipts :=
     command_receipts d; resource_locks := resource_locks d; scheduled_actions :=
     scheduled_actions d; wake_conditions := wake_conditions d; tool_calls := tool_calls d;
     checkpoints := checkpoints d; milestones := milestones d; milestone_tasks :=
     milestone_tasks d; decisions := decisions d; problems := problems d;
     problem_observations := problem_observations d; task_problems := task_problems d;
     task_requirements := task_requirements d; task_evidence := task_evidence d; artifacts
     := artifacts d; evidence_artifacts := v; git_changes := git_changes d; cost_records :=
     cost_records d; recovery_states := recovery_states d; context_snapshots :=
     context_snapshots d; memory_entries := memory_entries d; approvals := approvals d;
     agent_messages := agent_messages d; usage_entries := usage_entries d |}.
Definition set_git_changes (v : list GitChangeRow) (d : Db) : Db :=
  {| missions := missions d; runs := runs d; goals := goals d; tasks := tasks d;
     task_dependencies := task_dependencies d; task_resource_scopes := task_resource_scopes
     d; agents := agents d; agent_edges := agent_edges d; session_epochs := session_epochs
     d; requirements := requirements d; evidence := evidence d; validations := validations
     d; run_events := run_events d; run_leases := run_leases d; command_receipts :=
     command_receipts d; resource_locks := resource_locks d; scheduled_actions :=
     scheduled_actions d; wake_conditions := wake_conditions d; tool_calls := tool_calls d;
     checkpoints := checkpoints d; milestones := milestones d; milestone_tasks :=
     milestone_tasks d; decisions := decisions d; problems := problems d;
     problem_observations := problem_observations d; task_problems := task_problems d;
     task_requirements := task_requirements d; task_evidence := task_evidence d; artifacts
     := artifacts d; evidence_artifacts := evidence_artifacts d; git_changes := v;
     cost_records := cost_records d; recovery_states := recovery_states d; context_snapshots
     := context_snapshots d; memory_entries := memory_entries d; approvals := approvals d;
     agent_messages := agent_messages d; usage_entries := usage_entries d |}.
Definition set_cost_records (v : list CostRow) (d : Db) : Db :=
  {| missions := missions d; runs := runs d; goals := goals d; tasks := tasks d;
     task_dependencies := task_dependencies d; task_resource_scopes := task_resource_scopes
     d; agents := agents d; agent_edges := agent_edges d; session_epochs := session_epochs
     d; requirements := requirements d; evidence := evidence d; validations := validations
     d; run_events := run_events d; run_leases := run_leases d; command_receipts :=
     command_receipts d; resource_locks := resource_locks d; scheduled_actions :=
     scheduled_actions d; wake_conditions := wake_conditions d; tool_calls := tool_calls d;
     checkpoints := checkpoints d; milestones := milestones d; milestone_tasks :=
     milestone_tasks d; decisions := decisions d; problems := problems d;
     problem_observations := problem_observations d; task_problems := task_problems d;
     task_requirements := task_requirements d; task_evidence := task_evidence d; artifacts
     := artifacts d; evidence_artifacts := evidence_artifacts d; git_changes := git_changes
     d; cost_records := v; recovery_states := recovery_states d; context_snapshots :=
     context_snapshots d; memory_entries := memory_entries d; approvals := approvals d;
     agent_messages := agent_messages d; usage_entries := usage_entries d |}.
Definition set_recovery_states (v : list RecoveryRow) (d : Db) : Db :=
  {| missions := missions d; runs := runs d; goals := goals d; tasks := tasks d;
     task_dependencies := task_dependencies d; task_resource_scopes := task_resource_scopes
     d; agents := agents d; agent_edges := agent_edges d; session_epochs := session_epochs
     d; requirements := requirements d; evidence := evidence d; validations := validations
     d; run_events := run_events d; run_leases := run_leases d; command_receipts :=
     command_receipts d; resource_locks := resource_locks d; scheduled_actions :=
     scheduled_actions d; wake_conditions := wake_conditions d; tool_calls := tool_calls d;
     checkpoints := checkpoints d; milestones := milestones d; milestone_tasks :=
     milestone_tasks d; decisions := decisions d; problems := problems d;
     problem_observations := problem_observations d; task_problems := task_problems d;
     task_requirements := task_requirements d; task_evidence := task_evidence d; artifacts
     := artifacts d; evidence_artifacts := evidence_artifacts d; git_changes := git_changes
     d; cost_records := cost_records d; recovery_states := v; context_snapshots :=
     context_snapshots d; memory_entries := memory_entries d; approvals := approvals d;
     agent_messages := agent_messages d; usage_entries := usage_entries d |}.
Definition set_context_snapshots (v : list SnapshotRow) (d : Db) : Db :=
  {| missions := missions d; runs := runs d; goals := goals d; tasks := tasks d;
     task_dependencies := task_dependencies d; task_resource_scopes := task_resource_scopes
     d; agents := agents d; agent_edges := agent_edges d; session_epochs := session_epochs
     d; requirements := requirements d; evidence := evidence d; validations := validations
     d; run_events := run_events d; run_leases := run_leases d; command_receipts :=
     command_receipts d; resource_locks := resource_locks d; scheduled_actions :=
     scheduled_actions d; wake_conditions := wake_conditions d; tool_calls := tool_calls d;
     checkpoints := checkpoints d; milestones := milestones d; milestone_tasks :=
     milestone_tasks d; decisions := decisions d; problems := problems d;
     problem_observations := problem_observations d; task_problems := task_problems d;
     task_requirements := task_requirements d; task_evidence := task_evidence d; artifacts
     := artifacts d; evidence_artifacts := evidence_artifacts d; git_changes := git_changes
     d; cost_records := cost_records d; recovery_states := recovery_states d;
     context_snapshots := v; memory_entries := memory_entries d; approvals := approvals d;
     agent_messages := agent_messages d; usage_entries := usage_entries d |}.
Definition set_memory_entries (v : list MemoryRow) (d : Db) : Db :=
  {| missions := missions d; runs := runs d; goals := goals d; tasks := tasks d;
     task_dependencies := task_dependencies d; task_resource_scopes := task_resource_scopes
     d; agents := agents d; agent_edges := agent_edges d; session_epochs := session_epochs
     d; requirements := requirements d; evidence := evidence d; validations := validations
     d; run_events := run_events d; run_leases := run_leases d; command_receipts :=
     command_receipts d; resource_locks := resource_locks d; scheduled_actions :=
     scheduled_actions d; wake_conditions := wake_conditions d; tool_calls := tool_calls d;
     checkpoints := checkpoints d; milestones := milestones d; milestone_tasks :=
     milestone_tasks d; decisions := decisions d; problems := problems d;
     problem_observations := problem_observations d; task_problems := task_problems d;
     task_requirements := task_requirements d; task_evidence := task_evidence d; artifacts
     := artifacts d; evidence_artifacts := evidence_artifacts d; git_changes := git_changes
     d; cost_records := cost_records d; recovery_states := recovery_states d;
     context_snapshots := context_snapshots d; memory_entries := v; approvals := approvals
     d; agent_messages := agent_messages d; usage_entries := usage_entries d |}.
Definition set_approvals (v : list ApprovalRow) (d : Db) : Db :=
  {| missions := missions d; runs := runs d; goals := goals d; tasks := tasks d;
     task_dependencies := task_dependencies d; task_resource_scopes := task_resource_scopes
     d; agents := agents d; agent_edges := agent_edges d; session_epochs := session_epochs
     d; requirements := requirements d; evidence := evidence d; validations := validations
     d; run_events := run_events d; run_leases := run_leases d; command_receipts :=
     command_receipts d; resource_locks := resource_locks d; scheduled_actions :=
     scheduled_actions d; wake_conditions := wake_conditions d; tool_calls := tool_calls d;
     checkpoints := checkpoints d; milestones := milestones d; milestone_tasks :=
     milestone_tasks d; decisions := decisions d; problems := problems d;
     problem_observations := problem_observations d; task_problems := task_problems d;
     task_requirements := task_requirements d; task_evidence := task_evidence d; artifacts
     := artifacts d; evidence_artifacts := evidence_artifacts d; git_changes := git_changes
     d; cost_records := cost_records d; recovery_states := recovery_states d;
     context_snapshots := context_snapshots d; memory_entries := memory_entries d; approvals
     := v; agent_messages := agent_messages d; usage_entries := usage_entries d |}.
Definition set_agent_messages (v : list MessageRow) (d : Db) : Db :=
  {| missions := missions d; runs := runs d; goals := goals d; tasks := tasks d;
     task_dependencies := task_dependencies d; task_resource_scopes := task_resource_scopes
     d; agents := agents d; agent_edges := agent_edges d; session_epochs := session_epochs
     d; requirements := requirements d; evidence := evidence d; validations := validations
     d; run_events := run_events d; run_leases := run_leases d; command_receipts :=
     command_receipts d; resource_locks := resource_locks d; scheduled_actions :=
     scheduled_actions d; wake_conditions := wake_conditions d; tool_calls := tool_calls d;
     checkpoints := checkpoints d; milestones := milestones d; milestone_tasks :=
     milestone_tasks d; decisions := decisions d; problems := problems d;
     problem_observations := problem_observations d; task_problems := task_problems d;
     task_requirements := task_requirements d; task_evidence := task_evidence d; artifacts
     := artifacts d; evidence_artifacts := evidence_artifacts d; git_changes := git_changes
     d; cost_records := cost_records d; recovery_states := recovery_states d;
     context_snapshots := context_snapshots d; memory_entries := memory_entries d; approvals
     := approvals d; agent_messages := v; usage_entries := usage_entries d |}.
Definition set_usage_entries (v : list UsageRow) (d : Db) : Db :=
  {| missions := missions d; runs := runs d; goals := goals d; tasks := tasks d;
     task_dependencies := task_dependencies d; task_resource_scopes := task_resource_scopes
     d; agents := agents d; agent_edges := agent_edges d; session_epochs := session_epochs
     d; requirements := requirements d; evidence := evidence d; validations := validations
     d; run_events := run_events d; run_leases := run_leases d; command_receipts :=
     command_receipts d; resource_locks := resource_locks d; scheduled_actions :=
     scheduled_actions d; wake_conditions := wake_conditions d; tool_calls := tool_calls d;
     checkpoints := checkpoints d; milestones := milestones d; milestone_tasks :=
     milestone_tasks d; decisions := decisions d; problems := problems d;
     problem_observations := problem_observations d; task_problems := task_problems d;
     task_requirements := task_requirements d; task_evidence := task_evidence d; artifacts
     := artifacts d; evidence_artifacts := evidence_artifacts d; git_changes := git_changes
     d; cost_records := cost_records d; recovery_states := recovery_states d;
     context_snapshots := context_snapshots d; memory_entries := memory_entries d; approvals
     := approvals d; agent_messages := agent_messages d; usage_entries := v |}.

(** An empty database, after the migrations. *)
Definition empty_db : Db :=
  {| missions := []; runs := []; goals := []; tasks := []; task_dependencies := [];
     task_resource_scopes := []; agents := []; agent_edges := []; session_epochs := [];
     requirements := []; evidence := []; validations := []; run_events := []; run_leases :=
     []; command_receipts := []; resource_locks := []; scheduled_actions := [];
     wake_conditions := []; tool_calls := []; checkpoints := []; milestones := [];
     milestone_tasks := []; decisions := []; problems := []; problem_observations := [];
     task_problems := []; task_requirements := []; task_evidence := []; artifacts := [];
     evidence_artifacts := []; git_changes := []; cost_records := []; recovery_states := [];
     context_snapshots := []; memory_entries := []; approvals := []; agent_messages := [];
     usage_entries := [] |}.
