(* ===== verification/StoreMonad.v ===== *)
(** The store's effects: the database, the clock and the source of random
    identifiers, a transaction that commits or rolls back, and the forms of SQL
    statement the store uses (packages/control-plane/src/database.ts).

    The clock and the identifier source are parameters read in sequence.  They
    are outside the database: a rollback restores the tables, not them. *)

From Stdlib Require Import ZArith Lia.
From stdpp Require Import base strings list.
From S2P Require Import Prelude JsNumber JsString Protocol Json Ids StoreData.

Open Scope string_scope.
Open Scope list_scope.
#[local] Open Scope Z_scope.

Record Store := {
  db : Db;
  clock_reads : nat;
  uuid_reads : nat }.

Definition set_db (d : Db) (s : Store) : Store :=
  {| db := d; clock_reads := clock_reads s; uuid_reads := uuid_reads s |}.

(** A computation over the store that returns or throws. *)
Definition M (A : Type) : Type := Store -> Store * exc A.

#[export] Instance M_ret : MRet M := fun _ a s => (s, Ok a).
#[export] Instance M_bind : MBind M := fun _ _ f m s =>
  match m s with
  | (s', Ok a) => f a s'
  | (s', Throw e) => (s', Throw e)
  end.

Definition throw {A} (e : exn) : M A := fun s => (s, Throw e).
Definition lift {A} (r : exc A) : M A := fun s => (s, r).
Definition guard_throw (condition : bool) (e : exn) : M unit :=
  if condition then throw e else mret tt.

(** Reading the tables, and a statement that always succeeds. *)
Definition query {A} (f : Db -> A) : M A := fun s => (s, Ok (f (db s))).
Definition execute (f : Db -> Db) : M unit := fun s => (set_db (f (db s)) s, Ok tt).

(** [if (condition) action] *)
Definition when (condition : bool) (action : M unit) : M unit :=
  if condition then action else mret tt.

Fixpoint iterate {A} (body : A -> M unit) (l : list A) : M unit :=
  match l with
  | [] => mret tt
  | x :: r => _ ← body x; iterate body r
  end.

(** Source: packages/control-plane/src/database.ts:132-142 [SqliteDatabase.transaction]. *)
Definition transaction {A} (operation : M A) : M A := fun s =>
  match operation s with
  | (s', Ok a) => (s', Ok a)
  | (s', Throw e) => (set_db (db s) s', Throw e)
  end.

(** ** Statements on one table *)

Section Table.
Context {R : Type} (tbl : Db -> list R) (set_tbl : list R -> Db -> Db).

(** [INSERT INTO tbl ...] with the table's name for the error, whether the row
    breaks a key of the table, and whether its references exist. *)
Definition insert_row (name : string) (clashes : R -> R -> bool) (refs : Db -> bool)
  (row : R) : M unit := fun s =>
  if existsb (clashes row) (tbl (db s)) || negb (refs (db s))
  then (s, Throw (SqliteConstraint name))
  else (set_db (set_tbl (tbl (db s) ++ [row]) (db s)) s, Ok tt).

(** [INSERT OR IGNORE INTO tbl ...]: a duplicate key is skipped. *)
Definition insert_or_ignore (name : string) (clashes : R -> R -> bool) (refs : Db -> bool)
  (row : R) : M unit := fun s =>
  if existsb (clashes row) (tbl (db s)) then (s, Ok tt)
  else insert_row name clashes refs row s.

(** [UPDATE tbl SET change WHERE condition] *)
Definition update_rows (condition : R -> bool) (change : R -> R) : M unit :=
  execute (fun d => set_tbl (map (fun r => if condition r then change r else r) (tbl d)) d).

(** [DELETE FROM tbl WHERE condition] *)
Definition delete_rows (condition : R -> bool) : M unit :=
  execute (fun d => set_tbl (List.filter (fun r => negb (condition r)) (tbl d)) d).

(** [SELECT * FROM tbl WHERE condition], all rows or the first one. *)
Definition select_rows (condition : R -> bool) : M (list R) :=
  query (fun d => List.filter condition (tbl d)).
Definition select_row (condition : R -> bool) : M (option R) :=
  query (fun d => find condition (tbl d)).
End Table.

(** References of an insert: [REFERENCES table(id)], NULL allowed for options. *)
Definition has_id {R} (tbl : Db -> list R) (key : R -> string) (id : string) (d : Db) : bool :=
  existsb (fun r => key r === id) (tbl d).
Definition opt_id {R} (tbl : Db -> list R) (key : R -> string) (id : option string) (d : Db)
  : bool :=
  match id with None => true | Some id => has_id tbl key id d end.

(** The references of an UPDATE that sets a foreign key. *)
Definition check_refs (name : string) (refs : Db -> bool) : M unit := fun s =>
  if refs (db s) then (s, Ok tt) else (s, Throw (SqliteConstraint name)).

(** ** Frames: a property of the tables that a computation preserves, whether it
    returns or throws. *)

Definition preserves {A} (P : Db -> Prop) (m : M A) : Prop :=
  forall s, P (db s) -> P (db (m s).1).

Lemma preserves_ret {A} P (a : A) : preserves P (mret a : M A).
Proof. by intros s H. Qed.

Lemma preserves_bind {A B} P (m : M A) (f : A -> M B) :
  preserves P m -> (forall a, preserves P (f a)) -> preserves P (m ≫= f).
Proof.
  intros Hm Hf s H. unfold mbind, M_bind. specialize (Hm s H).
  destruct (m s) as [s' [a|e]]; [|done]. by apply Hf.
Qed.

Lemma preserves_throw {A} P e : preserves P (throw e : M A).
Proof. by intros s H. Qed.

Lemma preserves_lift {A} P (r : exc A) : preserves P (lift r).
Proof. by intros s H. Qed.

Lemma preserves_guard P c e : preserves P (guard_throw c e).
Proof. unfold guard_throw. destruct c; [apply preserves_throw|apply preserves_ret]. Qed.

Lemma preserves_query {A} P (f : Db -> A) : preserves P (query f).
Proof. by intros s H. Qed.

Lemma preserves_execute P f : (forall d, P d -> P (f d)) -> preserves P (execute f).
Proof. intros Hf s H. by apply Hf. Qed.

Lemma preserves_when P c m : preserves P m -> preserves P (when c m).
Proof. intros Hm. unfold when. destruct c; [done|apply preserves_ret]. Qed.

Lemma preserves_iterate {A} P (body : A -> M unit) l :
  (forall x, preserves P (body x)) -> preserves P (iterate body l).
Proof.
  intros Hb. induction l as [|x l IH]; [apply preserves_ret|].
  by apply preserves_bind.
Qed.

Lemma preserves_transaction {A} P (m : M A) : preserves P m -> preserves P (transaction m).
Proof.
  intros Hm s H. unfold transaction. specialize (Hm s H).
  by destruct (m s) as [s' [a|e]].
Qed.

(** A failed transaction leaves the tables as they were. *)
Lemma transaction_throws {A} (m : M A) s s' e :
  transaction m s = (s', Throw e) -> db s' = db s.
Proof.
  unfold transaction. destruct (m s) as [s1 [a|e1]]; [done|]. by intros [= <- <-].
Qed.

Lemma transaction_ok {A} (m : M A) s s' a :
  transaction m s = (s', Ok a) <-> m s = (s', Ok a).
Proof. unfold transaction. destruct (m s) as [s1 [x|e1]]; split; congruence. Qed.

(** Stepping through a successful computation. *)
Lemma mbind_ok {A B} (m : M A) (f : A -> M B) s s' b :
  (m ≫= f) s = (s', Ok b) <-> exists s1 a, m s = (s1, Ok a) /\ f a s1 = (s', Ok b).
Proof.
  unfold mbind, M_bind. destruct (m s) as [s1 [a|e]]; split.
  - intros. eauto.
  - by intros (s2 & a2 & [= -> ->] & ?).
  - done.
  - by intros (s2 & a2 & ? & ?).
Qed.

Lemma guard_ok c e s s' u :
  guard_throw c e s = (s', Ok u) <-> c = false /\ s' = s.
Proof.
  destruct u. unfold guard_throw, throw, mret, M_ret.
  destruct c; split; [done|by intros [? _]| |]; [by intros [= ->]|by intros [_ ->]].
Qed.

(** ** Proving frames

    [frame leaf] walks through a computation, applies the rules above and leaves
    the statements and the calls [leaf] does not solve. *)

Lemma preserves_check_refs P name refs : preserves P (check_refs name refs).
Proof. intros s Hs. unfold check_refs. by destruct (refs (db s)). Qed.

Lemma preserves_select_rows {R} P (tbl : Db -> list R) c : preserves P (select_rows tbl c).
Proof. apply preserves_query. Qed.
Lemma preserves_select_row {R} P (tbl : Db -> list R) c : preserves P (select_row tbl c).
Proof. apply preserves_query. Qed.

Lemma preserves_update {R} (P : Db -> Prop) (tbl : Db -> list R)
    (set_tbl : list R -> Db -> Db) (c : R -> bool) (f : R -> R) :
  (forall d, P d -> P (set_tbl (map (fun r : R => if c r then f r else r) (tbl d)) d)) ->
  preserves P (update_rows tbl set_tbl c f).
Proof. apply preserves_execute. Qed.

Lemma preserves_delete {R} (P : Db -> Prop) (tbl : Db -> list R)
    (set_tbl : list R -> Db -> Db) (c : R -> bool) :
  (forall d, P d -> P (set_tbl (List.filter (fun r => negb (c r)) (tbl d)) d)) ->
  preserves P (delete_rows tbl set_tbl c).
Proof. apply preserves_execute. Qed.

Lemma preserves_insert {R} (P : Db -> Prop) (tbl : Db -> list R) (set_tbl : list R -> Db -> Db)
    name (clashes : R -> R -> bool) (refs : Db -> bool) row :
  (forall d, P d -> existsb (clashes row) (tbl d) = false -> refs d = true ->
     P (set_tbl (tbl d ++ [row]) d)) ->
  preserves P (insert_row tbl set_tbl name clashes refs row).
Proof.
  intros Hp s Hs. unfold insert_row.
  destruct (existsb _ _) eqn:E1; [done|]. destruct (refs (db s)) eqn:E2; [|done].
  by apply Hp.
Qed.

Lemma preserves_insert_or_ignore {R} (P : Db -> Prop) (tbl : Db -> list R) (set_tbl : list R -> Db -> Db)
    name (clashes : R -> R -> bool) (refs : Db -> bool) row :
  (forall d, P d -> existsb (clashes row) (tbl d) = false -> refs d = true ->
     P (set_tbl (tbl d ++ [row]) d)) ->
  preserves P (insert_or_ignore tbl set_tbl name clashes refs row).
Proof.
  intros Hp s Hs. unfold insert_or_ignore. destruct (existsb _ _); [done|].
  by apply (preserves_insert P tbl set_tbl name clashes refs row Hp).
Qed.

Ltac frame_step :=
  lazymatch goal with
  | |- preserves _ (mbind _ _) => apply preserves_bind; [|intros ?]
  | |- preserves _ (transaction _) => apply preserves_transaction
  | |- preserves _ (mret _) => apply preserves_ret
  | |- preserves _ (throw _) => apply preserves_throw
  | |- preserves _ (lift _) => apply preserves_lift
  | |- preserves _ (guard_throw _ _) => apply preserves_guard
  | |- preserves _ (query _) => apply preserves_query
  | |- preserves _ (check_refs _ _) => apply preserves_check_refs
  | |- preserves _ (select_rows _ _) => apply preserves_select_rows
  | |- preserves _ (select_row _ _) => apply preserves_select_row
  | |- preserves _ (when _ _) => apply preserves_when
  | |- preserves _ (iterate _ _) => apply preserves_iterate; intros ?
  | |- preserves _ (let _ := _ in _) => cbv zeta
  | |- preserves _ (match ?x with _ => _ end) => destruct x
  end.

(** A statement on a table the property does not mention. *)
Ltac frame_leaf :=
  lazymatch goal with
  | |- preserves _ (update_rows _ _ _ _) => apply preserves_update; intros ? ?; assumption
  | |- preserves _ (delete_rows _ _ _) => apply preserves_delete; intros ? ?; assumption
  | |- preserves _ (insert_row _ _ _ _ _ _) =>
      apply preserves_insert; intros ? ? _ _; assumption
  | |- preserves _ (insert_or_ignore _ _ _ _ _ _) =>
      apply preserves_insert_or_ignore; intros ? ? _ _; assumption
  end.

Ltac frame leaf := repeat first [ leaf | frame_leaf | frame_step ].

(** ** Stepping through a computation from one state *)

(** [P] holds of the tables after [m] runs from [s]. *)
Definition after {A} (P : Db -> Prop) (m : M A) (s : Store) : Prop := P (db (m s).1).

Lemma after_preserves {A} P (m : M A) s : preserves P m -> P (db s) -> after P m s.
Proof. intros Hm. apply Hm. Qed.

Lemma after_lift {A B} P (r : exc A) (f : A -> M B) s :
  P (db s) -> (forall a, r = Ok a -> after P (f a) s) -> after P (lift r ≫= f) s.
Proof. intros Hs Hf. unfold after, mbind, M_bind, lift. destruct r; [by apply Hf|done]. Qed.

Lemma after_guard {B} P c e (f : unit -> M B) s :
  P (db s) -> (c = false -> after P (f tt) s) -> after P (guard_throw c e ≫= f) s.
Proof.
  intros Hs Hf. unfold after, mbind, M_bind, guard_throw, throw, mret, M_ret.
  destruct c; [done|by apply Hf].
Qed.

Lemma after_query {A B} P (q : Db -> A) (f : A -> M B) s :
  after P (f (q (db s))) s -> after P (query q ≫= f) s.
Proof. done. Qed.

Lemma after_execute {B} P g (f : unit -> M B) s :
  after P (f tt) (set_db (g (db s)) s) -> after P (execute g ≫= f) s.
Proof. done. Qed.

Lemma after_bind {A B} P (m : M A) (f : A -> M B) s :
  (forall s' a, m s = (s', Ok a) -> after P (f a) s') ->
  (forall s' e, m s = (s', Throw e) -> P (db s')) -> after P (m ≫= f) s.
Proof.
  intros Hok Hth. unfold after, mbind, M_bind.
  destruct (m s) as [s' [a|e]]; [by apply Hok|by eapply Hth].
Qed.

Lemma after_transaction {A} P (m : M A) s :
  P (db s) -> after P m s -> after P (transaction m) s.
Proof. intros Hs. unfold after, transaction. by destruct (m s) as [s' [a|e]]. Qed.

(** A computation that only reads the tables. *)
Definition reads {A} (m : M A) : Prop := forall P, preserves P m.

Lemma reads_db {A} (m : M A) s : reads m -> db (m s).1 = db s.
Proof. intros Hm. exact (Hm (fun d => d = db s) s eq_refl). Qed.

Lemma after_read {A B} P (m : M A) (f : A -> M B) s :
  reads m -> P (db s) ->
  (forall s' a, m s = (s', Ok a) -> db s' = db s -> after P (f a) s') ->
  after P (m ≫= f) s.
Proof.
  intros Hm Hs Hf. pose proof (reads_db m s Hm) as Hd.
  apply after_bind; intros s' x E; rewrite E in Hd; cbn in Hd; [by apply Hf|by rewrite Hd].
Qed.

(** The state a preserved property has after a successful step. *)
Lemma preserves_ok {A} (P : Db -> Prop) (m : M A) s s' a :
  preserves P m -> P (db s) -> m s = (s', Ok a) -> P (db s').
Proof. intros Hm Hs E. specialize (Hm s Hs). by rewrite E in Hm. Qed.

Lemma reads_ok {A} (m : M A) s s' r : reads m -> m s = (s', r) -> db s' = db s.
Proof. intros Hm E. rewrite <- (reads_db m s Hm). by rewrite E. Qed.

Lemma mbind_throws {A B} (m : M A) (f : A -> M B) s s' e :
  (m ≫= f) s = (s', Throw e) <->
  m s = (s', Throw e) \/ exists s1 a, m s = (s1, Ok a) /\ f a s1 = (s', Throw e).
Proof.
  unfold mbind, M_bind. destruct (m s) as [s1 [a|e1]]; split.
  - intros E. right. by exists s1, a.
  - by intros [?|(s2 & a2 & [= -> ->] & ?)].
  - intros [= -> ->]. by left.
  - by intros [[= -> ->]|(s2 & a2 & ? & ?)].
Qed.

Lemma guard_throws c e s s' e' :
  guard_throw c e s = (s', Throw e') <-> c = true /\ s' = s /\ e' = e.
Proof.
  unfold guard_throw, throw, mret, M_ret. destruct c; split.
  - by intros [= -> ->].
  - by intros (_ & -> & ->).
  - done.
  - by intros (? & _).
Qed.
