(* ===== verification/StoreCore.v ===== *)
(** The internal operations every method of the store is built from: reading
    entities, the lease fence, the event journal, status transitions, task
    readiness and the shared budget (packages/control-plane/src/store.ts). *)

From Stdlib Require Import ZArith Lia.
From stdpp Require Import base strings list.
From S2P Require Import Prelude JsNumber JsString JsCollections Protocol Json Ids StateMachine.
From S2P Require Import Budget StoreData StoreMonad.

Open Scope string_scope.
Open Scope list_scope.
#[local] Open Scope Z_scope.

(** The clock's instants and the random identifiers, in the order they are
    drawn, and the text of an instant.
    Source: packages/control-plane/src/store/types.ts:24-26 [Clock]. *)
Class Env := {
  clock_at : nat -> Z;
  uuid_at : nat -> string;
  toISOString : Z -> string }.

(** The caller's proof of holding a run's lease.
    Source: packages/control-plane/src/store/types.ts:28-29 [FencedLease]. *)
Record FencedLease := {
  fl_runId : string;
  fl_executorId : string;
  fl_generation : Z }.

(** Source: packages/control-plane/src/store.ts:132-132 [MAX_TASK_ATTEMPTS]. *)
Definition MAX_TASK_ATTEMPTS : Z := 5.

Section Core.
Context `{Env}.

(** [this.clock.now().getTime()].
    Source: packages/control-plane/src/store.ts:3082-3084 [timestamp]. *)
Definition timestamp : M Z := fun s =>
  ({| db := db s; clock_reads := S (clock_reads s); uuid_reads := uuid_reads s |},
   Ok (clock_at (clock_reads s))).

Definition randomUUID : M string := fun s =>
  ({| db := db s; clock_reads := clock_reads s; uuid_reads := S (uuid_reads s) |},
   Ok (uuid_at (uuid_reads s))).

Definition newId (kind seed : string) : M string := lift (createId kind seed).

(** ** Reading entities *)

Definition must {A} (o : option A) (message : string) : M A :=
  match o with Some a => mret a | None => throw (Error message) end.

(** Source: packages/control-plane/src/store.ts:236-241 [getRun]. *)
Definition getRun (runId : string) : M (option Run) :=
  query (fun d => option_map runFromRow (find (fun r => rn_id r === runId) (runs d))).

(** Source: packages/control-plane/src/store.ts:2922-2926 [mustRun]. *)
Definition mustRun (runId : string) : M Run :=
  run ← getRun runId;
  must run ("Run '" +:+ runId +:+ "' was not found.").

(** Source: packages/control-plane/src/store.ts:243-251 [getMission]. *)
Definition getMission (missionId : string) : M (option MissionRow) :=
  select_row missions (fun r => ms_id r === missionId).

(** Source: packages/control-plane/src/store.ts:259-264 [getGoal]. *)
Definition getGoal (goalId : string) : M (option GoalRow) :=
  select_row goals (fun r => gl_id r === goalId).

(** Source: packages/control-plane/src/store.ts:2928-2932 [mustGoal]. *)
Definition mustGoal (goalId : string) : M GoalRow :=
  goal ← getGoal goalId;
  must goal ("Goal '" +:+ goalId +:+ "' was not found.").

(** Second components of a link table's rows, in their order. *)
Definition linked (links : list (string * string)) (id : string) : list string :=
  sort_by string_le (map snd (List.filter (fun l => l.1 === id) links)).

(** Source: packages/control-plane/src/store/mappers.ts:403-481 [taskFromRow]. *)
Definition taskFromRow (d : Db) (row : TaskRow) : Task :=
  {| task_row := row;
     task_blockerIds := linked (task_problems d) (tk_id row);
     task_dependencyIds := linked (task_dependencies d) (tk_id row);
     task_evidenceIds := linked (task_evidence d) (tk_id row);
     task_requirementIds := linked (task_requirements d) (tk_id row);
     task_resourceScopes :=
       map snd (List.filter (fun l => l.1 === tk_id row) (task_resource_scopes d)) |}.

(** Source: packages/control-plane/src/store.ts:1492-1497 [getTask]. *)
Definition getTask (taskId : string) : M (option Task) :=
  query (fun d => option_map (taskFromRow d) (find (fun r => tk_id r === taskId) (tasks d))).

(** Source: packages/control-plane/src/store.ts:2934-2938 [mustTask]. *)
Definition mustTask (taskId : string) : M Task :=
  task ← getTask taskId;
  must task ("Task '" +:+ taskId +:+ "' was not found.").

(** Source: packages/control-plane/src/store/mappers.ts:525-536 [findParentAgentId]. *)
Definition findParentAgentId (d : Db) (agentId : string) : option string :=
  option_map ae_parent_agent_id
    (find (fun e => ae_child_agent_id e === agentId) (agent_edges d)).

(** Source: packages/control-plane/src/store/mappers.ts:483-523 [agentFromRow]. *)
Definition agentFromRow (d : Db) (row : AgentRow) : Agent :=
  {| agent_row := row;
     agent_parentAgentId := findParentAgentId d (ag_id row);
     agent_sessionEpochIds :=
       map se_id (sort_by (key_le se_ordinal)
         (List.filter (fun e => se_agent_id e === ag_id row) (session_epochs d))) |}.

(** Source: packages/control-plane/src/store.ts:2940-2944 [mustAgent]. *)
Definition mustAgent (agentId : string) : M Agent :=
  agent ← query (fun d =>
    option_map (agentFromRow d) (find (fun r => ag_id r === agentId) (agents d)));
  must agent ("Agent '" +:+ agentId +:+ "' was not found.").

(** Source: packages/control-plane/src/store.ts:2946-2966 [mustLease]. *)
Definition mustLease (runId : string) : M LeaseRow :=
  row ← select_row run_leases (fun r => le_run_id r === runId);
  must row ("Lease for Run '" +:+ runId +:+ "' was not found.").

(** Source: packages/control-plane/src/store.ts:3041-3045 [mustApproval]. *)
Definition mustApproval (id : string) : M ApprovalRow :=
  row ← select_row approvals (fun r => ap_id r === id);
  must row ("Approval '" +:+ id +:+ "' was not found.").

(** Source: packages/control-plane/src/store.ts:3031-3039 [mustAgentMessage]. *)
Definition mustAgentMessage (id : string) : M MessageRow :=
  row ← select_row agent_messages (fun r => am_id r === id);
  must row ("Agent message '" +:+ id +:+ "' was not found.").

(** ** The lease fence *)

(** Source: packages/control-plane/src/store.ts:2900-2920 [assertLeaseInternal]. *)
Definition assertLeaseInternal (lease : FencedLease) (now : Z) : M unit :=
  current ← select_row run_leases (fun r => le_run_id r === fl_runId lease);
  match current with
  | None => throw (LeaseFencedError (fl_runId lease) "Run has no active lease.")
  | Some current =>
      guard_throw
        ((le_holder_id current !== fl_executorId lease) ||
         (le_generation current !== fl_generation lease) ||
         (le_expires_at current <=? now))
        (LeaseFencedError (fl_runId lease) "Executor lease is stale or expired.")
  end.

(** Source: packages/control-plane/src/store.ts:2888-2898 [assertRunLeaseInternal]. *)
Definition assertRunLeaseInternal (lease : option FencedLease) (runId : string) (now : Z)
  : M unit :=
  match lease with
  | None => mret tt
  | Some lease =>
      _ ← guard_throw (fl_runId lease !== runId)
            (LeaseFencedError runId "Lease belongs to another Run.");
      assertLeaseInternal lease now
  end.

(** The form several methods inline: an optional lease of this run. *)
Definition check_lease (lease : option FencedLease) (runId message : string) (now : Z)
  : M unit :=
  match lease with
  | None => mret tt
  | Some lease =>
      _ ← guard_throw (fl_runId lease !== runId) (LeaseFencedError runId message);
      assertLeaseInternal lease now
  end.

(** The form others inline: the fence first, then the run. *)
Definition check_lease_then_run (lease : option FencedLease) (runId message : string)
  (now : Z) : M unit :=
  match lease with
  | None => mret tt
  | Some lease =>
      _ ← assertLeaseInternal lease now;
      guard_throw (fl_runId lease !== runId) (Error message)
  end.

(** ** The event journal *)

Definition event_clashes (a b : EventRow) : bool :=
  (ee_id a === ee_id b) || (ee_run_id a === ee_run_id b) && (ee_seq a =? ee_seq b).

(** Source: packages/control-plane/src/store.ts:2770-2811 [appendEventInternal]. *)
Definition appendEventInternal (runId : string) (type : RunEventType) (payload : JsonValue)
  (now : Z) (leaseGeneration : option Z) : M EventRow :=
  run ← mustRun runId;
  sequence ← query (fun d =>
    option_map rn_next_sequence (find (fun r => rn_id r === runId) (runs d)));
  let next := match sequence with None => 1 | Some n => n + 1 end in
  uuid ← randomUUID;
  id ← newId "event" (runId +:+ ":" +:+ decimal next +:+ ":" +:+ uuid);
  let event := {| ee_id := id; ee_run_id := runId; ee_seq := next; ee_type := type;
                  ee_payload := payload; ee_lease_generation := leaseGeneration;
                  ee_created_at := now |} in
  _ ← insert_row run_events set_run_events "run_events" event_clashes
        (has_id runs rn_id runId) event;
  _ ← update_rows runs set_runs (fun r => rn_id r === run_id run)
        (fun r => set_rn_next_sequence next
                    (set_rn_revision (rn_revision r + 1) (set_rn_updated_at now r)));
  mret event.

(** ** Status transitions *)

(** Source: packages/control-plane/src/store.ts:2721-2743 [transitionRunInternal]. *)
Definition transitionRunInternal (runId : string) (to : RunStatus) (now : Z)
  (reason : option string) : M unit :=
  run ← mustRun runId;
  _ ← lift (assertRunTransition (run_status run) to);
  _ ← update_rows runs set_runs (fun r => rn_id r === run_id run)
        (fun r => set_rn_status to
          (set_rn_blocked_reason reason
            (set_rn_completed_at
              (if (to === run_completed) || (to === run_cancelled) || (to === run_failed)
               then Some now else None)
              (set_rn_revision (rn_revision r + 1) (set_rn_updated_at now r)))));
  _ ← appendEventInternal (run_id run) evt_run_status_changed
        (jobj [("from", jstr (RunStatus_str (run_status run)));
               ("to", jstr (RunStatus_str to))]) now None;
  mret tt.

(** Source: packages/control-plane/src/store.ts:2745-2768 [transitionAgentInternal]. *)
Definition transitionAgentInternal (agentId : string) (to : AgentStatus) (now : Z)
  (leaseGeneration : option Z) : M Agent :=
  agent ← mustAgent agentId;
  _ ← lift (assertAgentTransition (ag_status (agent_row agent)) to);
  _ ← update_rows agents set_agents (fun r => ag_id r === ag_id (agent_row agent))
        (fun r => set_ag_status to
          (set_ag_closed_at (if to === agent_closed then Some now else None)
            (set_ag_updated_at now r)));
  _ ← appendEventInternal (ag_run_id (agent_row agent)) evt_agent_status_changed
        (jobj [("agentId", jstr (ag_id (agent_row agent)));
               ("to", jstr (AgentStatus_str to))]) now leaseGeneration;
  mustAgent (ag_id (agent_row agent)).

(** ** Scheduling *)

Definition action_clashes (a b : ActionRow) : bool := sa_run_id a === sa_run_id b.

(** Source: packages/control-plane/src/store.ts:2813-2827 [ensureContinuationInternal]. *)
Definition ensureContinuationInternal (runId : string) (now : Z) : M unit :=
  run ← mustRun runId;
  match run_currentGoalId run with
  | None => mret tt
  | Some goalId =>
      if run_status run !== run_running then mret tt
      else
        goal ← mustGoal goalId;
        if negb (shouldContinueGoal (gl_status goal)) then mret tt
        else
          insert_or_ignore scheduled_actions set_scheduled_actions "scheduled_actions"
            action_clashes (has_id runs rn_id runId)
            {| sa_run_id := runId; sa_action_type := "continue_goal"; sa_due_at := now;
               sa_status := sas_pending; sa_claimed_by := None; sa_claimed_epoch := None;
               sa_attempt := 0; sa_created_at := now; sa_updated_at := now |}
  end.

(** A dependency of the task that exists and is not completed. *)
Definition incomplete_dependency (d : Db) (taskId : string) : bool :=
  existsb (fun l => (l.1 === taskId) &&
    existsb (fun t => (tk_id t === l.2) && (tk_status t !== task_completed)) (tasks d))
    (task_dependencies d).

(** Source: packages/control-plane/src/store.ts:2835-2865 [refreshTaskReadinessInternal]. *)
Definition refreshTaskReadinessInternal (runId : string) (now : Z) : M unit :=
  pending ← select_rows tasks (fun t => (tk_run_id t === runId) &&
    ((tk_status t === task_pending) ||
     (tk_status t === task_failed) && (tk_attempt t <? MAX_TASK_ATTEMPTS)));
  iterate (fun row =>
    incomplete ← query (fun d => incomplete_dependency d (tk_id row));
    if (incomplete : bool) then mret tt
    else
      _ ← update_rows tasks set_tasks (fun t => tk_id t === tk_id row)
            (fun t => set_tk_status task_ready (set_tk_updated_at now t));
      _ ← appendEventInternal runId evt_task_status_changed
            (jobj [("taskId", jstr (tk_id row)); ("to", jstr "ready")]) now None;
      mret tt) pending.

(** ** The shared budget *)

(** Source: packages/control-plane/src/store.ts:2867-2885 [recordUsageInternal]. *)
Definition recordUsageInternal (runId : string) (delta : BudgetDelta) (now : Z) : M Run :=
  run ← mustRun runId;
  usage ← lift (addBudgetUsage (run_usage run) delta);
  assessment ← lift (evaluateBudget (run_budget run) usage ph_general);
  _ ← update_rows runs set_runs (fun r => rn_id r === run_id run)
        (fun r => set_rn_usage usage (set_rn_updated_at now r));
  _ ← when (negb (allowed assessment) && (run_status run === run_running))
        (transitionRunInternal (run_id run) run_budget_limited now None);
  mustRun (run_id run).

(** ** Blockers *)

(** Source: packages/control-plane/src/store.ts:3047-3080 [blockRunForProblemInternal]. *)
Definition blockRunForProblemInternal (runId fingerprint : string) (now : Z) : M unit :=
  run ← mustRun runId;
  _ ← match run_currentGoalId run with
      | None => mret tt
      | Some goalId =>
          goal ← mustGoal goalId;
          when ((gl_status goal === goal_active) || (gl_status goal === goal_waiting_external))
            (_ ← update_rows goals set_goals (fun g => gl_id g === gl_id goal)
                   (fun g => set_gl_status goal_blocked
                     (set_gl_blocker_fingerprint (Some fingerprint)
                       (set_gl_blocker_audit_epoch (gl_blocker_audit_epoch g + 1)
                         (set_gl_updated_at now g))));
             _ ← appendEventInternal runId evt_goal_status_changed
                   (jobj [("goalId", jstr (gl_id goal)); ("to", jstr "blocked")]) now None;
             mret tt)
      end;
  when ((run_status run === run_running) || (run_status run === run_waiting_external) ||
        (run_status run === run_recovering))
    (transitionRunInternal runId run_blocked now
       (Some ("Repeated blocker: " +:+ fingerprint))).
End Core.
