(* ===== verification/StoreRuns.v ===== *)
(** Runs: creation, commands, goals, requirements, evidence, validation and the
    completion gate, leases, and approvals (packages/control-plane/src/store.ts). *)

From Stdlib Require Import ZArith Lia Ascii String.
From stdpp Require Import base strings list.
From S2P Require Import Prelude JsNumber JsString JsCollections Protocol Json Ids StateMachine.
From S2P Require Import Budget StoreData StoreMonad StoreCore.

Open Scope string_scope.
Open Scope list_scope.
#[local] Open Scope Z_scope.

(** Source: packages/control-plane/src/store.ts:134-134 [defaultPermissions]. *)
Definition defaultPermissions : PermissionPolicy :=
  {| policy_mode := pm_standard; policy_rules := None |}.

(** Source: packages/control-plane/src/store.ts:135-140 [defaultSandbox]. *)
Definition defaultSandbox : SandboxPolicy :=
  {| sb_filesystem := {| writableRoots := []; readOnlyRoots := [] |};
     sb_network := {| network_enabled := false; allowedDestinations := [] |};
     sb_process := {| process_enabled := true; allowedCommands := None |};
     sb_permissions := defaultPermissions |}.

(** [prompt.replace(/\s+/g, " ")]: every run of white space becomes one space. *)
Fixpoint collapse_space (l : list ascii) : list ascii :=
  match l with
  | [] => []
  | c :: r =>
      if is_space c then
        match collapse_space r with
        | " "%char :: r' => " "%char :: r'
        | r' => " "%char :: r'
        end
      else c :: collapse_space r
  end.

(** Source: packages/control-plane/src/store/row-helpers.ts:59-62 [summarizeTitle]. *)
Definition summarizeTitle (prompt : string) : string :=
  let normalized := trim (of_units (collapse_space (units prompt))) in
  if string_length normalized <=? 96 then normalized
  else of_units (firstn 93 (units normalized)) +:+ "...".

(** Source: packages/control-plane/src/store/types.ts:31-48 [CreateRunInput]. *)
Record CreateRunInput := {
  ci_budget : option RunBudget;
  ci_initialGoal : option (string * string);
  ci_permissions : option PermissionPolicy;
  ci_prompt : string;
  ci_sandbox : option SandboxPolicy;
  ci_requirements : list (option string * string * option bool);
  ci_title : option string;
  ci_workspaceUri : string }.

Definition no_budget : RunBudget :=
  {| maxInputTokens := None; maxOutputTokens := None; maxTotalTokens := None;
     maxCachedTokens := None; maxCostUsd := None; maxWallTimeMs := None;
     maxToolCalls := None; maxChildAgents := None; budget_reserve := None |}.

(** A requirement with its evidence.
    Source: packages/control-plane/src/store/types.ts:50-61 [RequirementRecord]. *)
Record RequirementRecord := {
  req_row : RequirementRow;
  req_evidence : list EvidenceRow }.

(** [text.split("_").at(-1)]: what follows the last underscore. *)
Fixpoint after_last (c : ascii) (l acc : list ascii) : list ascii :=
  match l with
  | [] => rev acc
  | x :: r => if x === c then after_last c r [] else after_last c r (x :: acc)
  end.

Section Runs.
Context `{Env}.

Definition requirement_clashes (a b : RequirementRow) : bool := rq_id a === rq_id b.

Definition new_requirement (id runId title : string) (required : bool) (now : Z)
  : RequirementRow :=
  {| rq_id := id; rq_run_id := runId; rq_title := title; rq_required := required;
     rq_status := rqs_unproven; rq_created_at := now; rq_updated_at := now |}.

Definition insert_requirement (row : RequirementRow) : M unit :=
  insert_row requirements set_requirements "requirements" requirement_clashes
    (has_id runs rn_id (rq_run_id row)) row.

Definition insert_agent (row : AgentRow) : M unit :=
  insert_row agents set_agents "agents" (fun a b => ag_id a === ag_id b)
    (fun d => has_id runs rn_id (ag_run_id row) d && opt_id tasks tk_id (ag_task_id row) d)
    row.

(** Source: packages/control-plane/src/store.ts:148-234 [createRun]. *)
Definition createRun (input : CreateRunInput) : M (Agent * GoalRow * Run) :=
  now ← timestamp;
  seed ← randomUUID;
  missionId ← newId "mission" seed;
  runId ← newId "run" seed;
  goalId ← newId "goal" seed;
  agentId ← newId "agent" (seed +:+ ":coordinator");
  let title := ci_title input ?? summarizeTitle (ci_prompt input) in
  let goalTitle := match ci_initialGoal input with Some (t, _) => t | None => title end in
  let goalDescription :=
    match ci_initialGoal input with Some (_, d) => d | None => ci_prompt input end in
  transaction (
    _ ← insert_row missions set_missions "missions" (fun a b => ms_id a === ms_id b)
          (fun _ => true)
          {| ms_id := missionId; ms_title := title; ms_prompt := ci_prompt input;
             ms_workspace_uri := ci_workspaceUri input; ms_metadata := None;
             ms_created_at := now; ms_updated_at := now |};
    _ ← insert_row runs set_runs "runs" (fun a b => rn_id a === rn_id b)
          (has_id missions ms_id missionId)
          {| rn_id := runId; rn_mission_id := missionId; rn_status := run_queued;
             rn_title := title; rn_budget := ci_budget input ?? no_budget;
             rn_usage := EMPTY_BUDGET_USAGE; rn_current_goal_id := Some goalId;
             rn_started_at := Some now; rn_completed_at := None; rn_blocked_reason := None;
             rn_revision := 0; rn_next_sequence := 0; rn_run_epoch := 0;
             rn_continuation_deferred := 0; rn_created_at := now; rn_updated_at := now |};
    version ← randomUUID;
    _ ← insert_row goals set_goals "goals" (fun a b => gl_id a === gl_id b)
          (has_id runs rn_id runId)
          {| gl_id := goalId; gl_run_id := runId; gl_goal_version := version;
             gl_parent_goal_id := None; gl_title := goalTitle;
             gl_description := goalDescription; gl_status := goal_active;
             gl_continuation_count := 0; gl_blocker_fingerprint := None;
             gl_blocker_audit_epoch := 0; gl_completed_at := None;
             gl_created_at := now; gl_updated_at := now |};
    _ ← insert_agent
          {| ag_id := agentId; ag_run_id := runId; ag_task_id := None;
             ag_role := role_coordinator; ag_status := agent_queued;
             ag_permissions := ci_permissions input ?? defaultPermissions;
             ag_sandbox := ci_sandbox input ?? defaultSandbox; ag_worktree_uri := None;
             ag_spawned_at := now; ag_closed_at := None; ag_created_at := now;
             ag_updated_at := now; ag_lease_generation := None |};
    _ ← iterate (fun '(index, (id, title, required)) =>
          generated ← newId "requirement" (seed +:+ ":" +:+ decimal (Z.of_nat index));
          insert_requirement
            (new_requirement
               (match (id : option string) with
                | Some id => id
                | None => "requirement_" +:+ of_units (after_last "_" (units generated) [])
                end) runId title
               (match (required : option bool) with Some false => false | _ => true end) now))
          (imap pair (ci_requirements input));
    _ ← appendEventInternal runId evt_run_created
          (jobj [("missionId", jstr missionId); ("title", jstr title)]) now None;
    _ ← transitionRunInternal runId run_running now None;
    _ ← transitionAgentInternal agentId agent_running now None;
    _ ← ensureContinuationInternal runId now;
    agent ← mustAgent agentId;
    goal ← mustGoal goalId;
    run ← mustRun runId;
    mret (agent, goal, run)).

(** ** Listings *)

(** Source: packages/control-plane/src/store.ts:253-257 [listRuns]. *)
Definition listRuns : M (list Run) :=
  query (fun d => map runFromRow (sort_by (key_le (fun r => - rn_created_at r)) (runs d))).

(** Source: packages/control-plane/src/store.ts:266-270 [listGoals]. *)
Definition listGoals (runId : string) : M (list GoalRow) :=
  query (fun d => sort_by (key_le gl_created_at)
    (List.filter (fun g => gl_run_id g === runId) (goals d))).

(** Source: packages/control-plane/src/store.ts:272-279 [listAgents]. *)
Definition listAgents (runId : string) : M (list Agent) :=
  query (fun d => map (agentFromRow d) (sort_by (key_le ag_created_at)
    (List.filter (fun a => ag_run_id a === runId) (agents d)))).

(** Source: packages/control-plane/src/store.ts:281-289 [listEvents]. *)
Definition listEvents (runId : string) (afterSequence : Z) : M (list EventRow) :=
  query (fun d => sort_by (key_le ee_seq)
    (List.filter (fun e => (ee_run_id e === runId) && (afterSequence <? ee_seq e))
       (run_events d))).

(** Source: packages/control-plane/src/store.ts:291-330 [listRequirements]. *)
Definition listRequirements (runId : string) : M (list RequirementRecord) :=
  query (fun d => map (fun row =>
      {| req_row := row;
         req_evidence := sort_by (key_le ed_created_at)
           (List.filter (fun e => ed_requirement_id e === rq_id row) (evidence d)) |})
    (sort_by (fun a b => string_le (rq_id a) (rq_id b))
       (List.filter (fun r => rq_run_id r === runId) (requirements d)))).

(** [ORDER BY created_at, id] *)
Definition created_then_id {R} (created : R -> Z) (id : R -> string) (a b : R) : bool :=
  (created a <? created b) || (created a =? created b) && string_le (id a) (id b).

(** Source: packages/control-plane/src/store.ts:362-377 [listValidations]. *)
Definition listValidations (runId : string) : M (list ValidationRow) :=
  query (fun d => sort_by (created_then_id vd_created_at vd_id)
    (List.filter (fun v => vd_run_id v === runId) (validations d))).

(** ** Requirements, evidence and validation *)

(** Source: packages/control-plane/src/store.ts:950-992 [addRequirement]. *)
Definition addRequirement (id : option string) (lease : option FencedLease)
  (required : option bool) (runId title : string) : M RequirementRecord :=
  now ← timestamp;
  transaction (
    _ ← check_lease_then_run lease runId "Requirement lease does not match its Run." now;
    id ← match id with
         | Some id => mret id
         | None => uuid ← randomUUID; newId "requirement" (runId +:+ ":" +:+ uuid)
         end;
    existing ← select_row requirements (fun r => (rq_id r === id) && (rq_run_id r === runId));
    _ ← match existing with
        | Some _ => mret tt
        | None =>
            insert_requirement (new_requirement id runId title
              (match required with Some false => false | _ => true end) now)
        end;
    records ← listRequirements runId;
    must (find (fun r => rq_id (req_row r) === id) records)
      ("Requirement '" +:+ id +:+ "' could not be persisted.")).

(** Source: packages/control-plane/src/store.ts:994-1053 [addEvidence]. *)
Definition addEvidence (artifactIds : list string) (kind : EvidenceKind)
  (lease : option FencedLease) (requirementId runId : string)
  (strength : EvidenceStrength) (summary : string) (taskId : option string) : M string :=
  now ← timestamp;
  uuid ← randomUUID;
  let id := "evidence_" +:+ uuid in
  _ ← transaction (
    _ ← check_lease_then_run lease runId "Evidence lease does not match its Run." now;
    _ ← insert_row evidence set_evidence "evidence" (fun a b => ed_id a === ed_id b)
          (fun d => has_id runs rn_id runId d && has_id requirements rq_id requirementId d &&
                    opt_id tasks tk_id taskId d)
          {| ed_id := id; ed_run_id := runId; ed_requirement_id := requirementId;
             ed_kind := kind; ed_strength := strength; ed_summary := summary;
             ed_created_at := now; ed_task_id := taskId |};
    _ ← match taskId with
        | None => mret tt
        | Some taskId =>
            task ← mustTask taskId;
            _ ← guard_throw (tk_run_id (task_row task) !== runId)
                  (Error "Evidence task must belong to the same Run.");
            insert_or_ignore task_evidence set_task_evidence "task_evidence"
              (fun a b => a === b)
              (fun d => has_id tasks tk_id taskId d && has_id evidence ed_id id d)
              (taskId, id)
        end;
    _ ← iterate (fun artifactId =>
          artifact ← select_row artifacts (fun a => af_id a === artifactId);
          artifact ← must artifact ("Artifact '" +:+ artifactId +:+ "' was not found.");
          _ ← guard_throw (af_run_id artifact !== runId)
                (Error "Evidence artifact must belong to the same Run.");
          insert_or_ignore evidence_artifacts set_evidence_artifacts "evidence_artifacts"
            (fun a b => a === b)
            (fun d => has_id evidence ed_id id d && has_id artifacts af_id artifactId d)
            (id, artifactId)) artifactIds;
    update_rows requirements set_requirements
      (fun r => (rq_id r === requirementId) && (rq_run_id r === runId))
      (set_rq_updated_at now));
  mret id.

(** Source: packages/control-plane/src/store.ts:1055-1086 [setRequirementStatus]. *)
Definition setRequirementStatus (runId requirementId : string) (status : RequirementStatus)
  (lease : option FencedLease) : M unit :=
  transaction (
    _ ← match lease with
        | None => mret tt
        | Some l =>
            now ← timestamp;
            check_lease_then_run (Some l) runId "Requirement lease does not match its Run." now
        end;
    _ ← when (status === rqs_proven)
          (strong ← select_row evidence (fun e =>
             (ed_requirement_id e === requirementId) && (ed_strength e === es_strong));
           guard_throw (strong === None)
             (Error ("Requirement '" +:+ requirementId +:+
                     "' cannot be proven without strong evidence.")));
    now ← timestamp;
    update_rows requirements set_requirements
      (fun r => (rq_id r === requirementId) && (rq_run_id r === runId))
      (fun r => set_rq_status status (set_rq_updated_at now r))).

(** Source: packages/control-plane/src/store.ts:1088-1135 [recordValidation]. *)
Definition recordValidation (independent : option bool) (lease : option FencedLease)
  (name : string) (passed : bool) (runId summary : string) (taskId : option string)
  : M string :=
  now ← timestamp;
  uuid ← randomUUID;
  let id := "validation_" +:+ uuid in
  _ ← transaction (
    _ ← check_lease lease runId "Validation lease belongs to another Run." now;
    _ ← insert_row validations set_validations "validations"
          (fun a b => vd_id a === vd_id b)
          (fun d => has_id runs rn_id runId d && opt_id tasks tk_id taskId d)
          {| vd_id := id; vd_run_id := runId; vd_name := name;
             vd_status := if passed then vs_passed else vs_failed; vd_summary := summary;
             vd_independent := match independent with Some true => true | _ => false end;
             vd_created_at := now; vd_updated_at := now; vd_task_id := taskId |};
    _ ← match taskId with
        | None => mret tt
        | Some taskId =>
            task ← mustTask taskId;
            guard_throw (tk_run_id (task_row task) !== runId)
              (Error "Validation task must belong to the same Run.")
        end;
    _ ← appendEventInternal runId evt_validation_finished
          (jobj [("id", jstr id); ("passed", jbool passed)]) now None;
    mret tt);
  mret id.

(** ** Transitions and commands *)

(** Source: packages/control-plane/src/store.ts:1137-1169 [transitionRun]. *)
Definition transitionRun (expectedRevision : option Z) (lease : option FencedLease)
  (reason : option string) (runId : string) (to : RunStatus) : M Run :=
  transaction (
    now ← timestamp;
    _ ← check_lease lease runId "Transition lease belongs to another Run." now;
    run ← mustRun runId;
    _ ← match expectedRevision with
        | None => mret tt
        | Some expected =>
            guard_throw (expected !== run_revision run)
              (RevisionConflictError (run_id run) expected (run_revision run))
        end;
    _ ← transitionRunInternal (run_id run) to now reason;
    _ ← when (to === run_running) (ensureContinuationInternal (run_id run) now);
    mustRun (run_id run)).

(** The lease is taken and never looked at.
    Source: packages/control-plane/src/store.ts:1171-1208 [setGoalStatus]. *)
Definition setGoalStatus (expectedGoalVersion : string) (lease : option FencedLease) (goalId : string)
  (to : GoalStatus) : M GoalRow :=
  now ← timestamp;
  transaction (
    row ← getGoal goalId;
    current ← must row ("Goal '" +:+ goalId +:+ "' was not found.");
    _ ← guard_throw (gl_goal_version current !== expectedGoalVersion)
          (RevisionConflictError (gl_run_id current) 0 1);
    _ ← lift (assertGoalTransition (gl_status current) to);
    _ ← update_rows goals set_goals
          (fun g => (gl_id g === gl_id current) && (gl_goal_version g === expectedGoalVersion))
          (fun g => set_gl_status to
            (set_gl_completed_at (if to === goal_complete then Some now else None)
              (set_gl_updated_at now g)));
    _ ← appendEventInternal (gl_run_id current) evt_goal_status_changed
          (jobj [("goalId", jstr (gl_id current)); ("to", jstr (GoalStatus_str to))]) now None;
    _ ← when (shouldContinueGoal to) (ensureContinuationInternal (gl_run_id current) now);
    mustGoal (gl_id current)).

(** Source: packages/control-plane/src/store.ts:1210-1214 [pause]. *)
Definition pause (runId : string) (expectedRevision : option Z) : M Run :=
  transitionRun expectedRevision None None runId run_paused.

(** Source: packages/control-plane/src/store.ts:1216-1223 [resume]. *)
Definition resume (runId : string) (expectedRevision : option Z) : M Run :=
  run ← mustRun runId;
  transitionRun expectedRevision None None runId
    (if run_status run === run_paused then run_running else run_queued).

(** Source: packages/control-plane/src/store.ts:1225-1229 [cancel]. *)
Definition cancel (runId : string) (expectedRevision : option Z) : M Run :=
  transitionRun expectedRevision None None runId run_cancelled.

(** What a command does to the run, before its receipt is written.
    Source: packages/control-plane/src/store.ts:1252-1280 [executeCommand, transition]. *)
Definition apply_command (command : DurableRunCommand) (reason : option string) (run : Run)
  : M Run :=
  match command with
  | cmd_pause =>
      now ← timestamp;
      _ ← transitionRunInternal (run_id run) run_paused now reason;
      mustRun (run_id run)
  | cmd_cancel =>
      now ← timestamp;
      _ ← transitionRunInternal (run_id run) run_cancelled now reason;
      mustRun (run_id run)
  | cmd_resume =>
      if run_status run === run_running then mret run
      else
        let to := if (run_status run === run_paused) || (run_status run === run_waiting_external)
                  then run_running else run_queued in
        now ← timestamp;
        _ ← transitionRunInternal (run_id run) to now reason;
        _ ← when (to === run_running)
              (now ← timestamp; ensureContinuationInternal (run_id run) now);
        mustRun (run_id run)
  end.

(** Source: packages/control-plane/src/store.ts:1236-1290 [executeCommand]. *)
Definition executeCommand (command : DurableRunCommand) (commandId : string)
  (reason : option string) (runId : string) : M Run :=
  transaction (
    prior ← select_row command_receipts
              (fun r => (cr_command_id r === commandId) && (cr_run_id r === runId));
    match prior with
    | Some receipt => mret (cr_result receipt)
    | None =>
        run ← mustRun runId;
        result ← apply_command command reason run;
        now ← timestamp;
        _ ← insert_row command_receipts set_command_receipts "command_receipts"
              (fun a b => cr_command_id a === cr_command_id b)
              (has_id runs rn_id (run_id run))
              {| cr_command_id := commandId; cr_run_id := run_id run; cr_result := result;
                 cr_created_at := now |};
        mret result
    end).

(** [field === undefined ? {} : { key: field }] *)
Definition opt_field (key : string) (value : option string) : list (string * JsonValue) :=
  match value with None => [] | Some v => [(key, jstr v)] end.

(** Source: packages/control-plane/src/store.ts:1292-1314 [recordSteeringInput]. *)
Definition recordSteeringInput (runId : string) (targetAgentId targetGoalId : option string)
  (text : string) : M EventRow :=
  transaction (
    now ← timestamp;
    appendEventInternal runId evt_steering_received
      (jobj ([("text", jstr text)] ++ opt_field "targetAgentId" targetAgentId ++
             opt_field "targetGoalId" targetGoalId)) now None).

(** ** The completion gate *)

Definition has_strong (evidence : list EvidenceRow) : bool :=
  existsb (fun e => ed_strength e === es_strong) evidence.

(** A requirement that stops the completion.
    Source: packages/control-plane/src/store.ts:1336-1344 [proposeCompletion, unproven]. *)
Definition unproven_requirement (r : RequirementRecord) : bool :=
  rq_required (req_row r) && (rq_status (req_row r) !== rqs_waived) &&
  ((rq_status (req_row r) !== rqs_proven) || negb (has_strong (req_evidence r))).

(** Source: packages/control-plane/src/store.ts:1336-1369 [proposeCompletion, controlPlaneReasons]. *)
Definition control_plane_reasons (records : list RequirementRecord)
  (checks : list ValidationRow) (independentlyVerified : bool) : list string :=
  let unproven := List.filter unproven_requirement records in
  let failed := List.filter (fun v => vd_status v !== vs_passed) checks in
  (if unproven === [] then [] else
     ["Required requirements remain unproven: " +:+
      join ", " (map (fun r => rq_id (req_row r)) unproven) +:+ "."]) ++
  (if failed === [] then [] else
     ["Deterministic validation failed: " +:+ join ", " (map vd_id failed) +:+ "."]) ++
  (if existsb (fun v => (vd_status v === vs_passed) && vd_independent v) checks then [] else
     ["No passing independent validation is recorded."]) ++
  (if independentlyVerified then [] else ["No independent verifier acceptance is recorded."]).

(** Source: packages/control-plane/src/store.ts:1316-1383 [proposeCompletion]. *)
Definition proposeCompletion (accepted : bool) (independentlyVerified : option bool)
  (lease : option FencedLease) (reasons : list string) (runId : string) : M Run :=
  now ← timestamp;
  transaction (
    _ ← check_lease lease runId "Completion lease belongs to another Run." now;
    run ← mustRun runId;
    records ← listRequirements (run_id run);
    checks ← listValidations (run_id run);
    let found := control_plane_reasons records checks
      (match independentlyVerified with Some true => true | _ => false end) in
    let accepted := accepted && (found === []) in
    _ ← appendEventInternal (run_id run) evt_validation_finished
          (jobj [("accepted", jbool accepted);
                 ("reasons", jarr (map jstr (reasons ++ found)))]) now None;
    if negb accepted then mustRun (run_id run)
    else
      _ ← lift (assertRunTransition (run_status run) run_completed);
      _ ← transitionRunInternal (run_id run) run_completed now None;
      mustRun (run_id run)).

(** ** Leases *)

(** Source: packages/control-plane/src/store.ts:1385-1451 [acquireLease]. *)
Definition acquireLease (executorId : string) (host : option string) (processId : option Z)
  (runId : string) (ttlMs : Z) : M LeaseRow :=
  now ← timestamp;
  let expiresAt := now + ttlMs in
  transaction (
    existing ← select_row run_leases (fun r => le_run_id r === runId);
    _ ← match existing with
        | Some current =>
            let holds := (le_holder_id current === executorId) &&
                         (now <? le_expires_at current) in
            _ ← guard_throw ((le_holder_id current !== executorId) &&
                             (now <? le_expires_at current))
                  (LeaseFencedError runId
                     ("Run is leased by '" +:+ le_holder_id current +:+ "' until " +:+
                        toISOString (le_expires_at current) +:+ "."));
            let generation := le_generation current + (if holds then 0 else 1) in
            update_rows run_leases set_run_leases (fun r => le_run_id r === runId)
              (fun r => set_le_holder_id executorId
                (set_le_generation generation
                  (set_le_expires_at expiresAt
                    (set_le_heartbeat_at now
                      (set_le_host host
                        (set_le_process_id processId (set_le_updated_at now r)))))))
        | None =>
            id ← newId "lease" (runId +:+ ":" +:+ executorId +:+ ":" +:+ decimal now);
            insert_row run_leases set_run_leases "run_leases"
              (fun a b => le_run_id a === le_run_id b) (has_id runs rn_id runId)
              {| le_run_id := runId; le_id := id; le_holder_id := executorId;
                 le_generation := 1; le_expires_at := expiresAt; le_heartbeat_at := now;
                 le_host := host; le_process_id := processId; le_created_at := now;
                 le_updated_at := now |}
        end;
    _ ← update_rows runs set_runs (fun r => rn_id r === runId)
          (fun r => set_rn_run_epoch (rn_run_epoch r + 1) (set_rn_updated_at now r));
    mustLease runId).

(** Source: packages/control-plane/src/store.ts:1453-1472 [renewLease]. *)
Definition renewLease (lease : FencedLease) (ttlMs : Z) : M LeaseRow :=
  now ← timestamp;
  transaction (
    _ ← assertLeaseInternal lease now;
    _ ← update_rows run_leases set_run_leases
          (fun r => (le_run_id r === fl_runId lease) &&
                    (le_holder_id r === fl_executorId lease) &&
                    (le_generation r === fl_generation lease))
          (fun r => set_le_expires_at (now + ttlMs)
            (set_le_heartbeat_at now (set_le_updated_at now r)));
    mustLease (fl_runId lease)).

(** Source: packages/control-plane/src/store.ts:1474-1490 [appendFencedEvent]. *)
Definition appendFencedEvent (lease : FencedLease) (payload : JsonValue) (type : RunEventType)
  : M EventRow :=
  transaction (
    now ← timestamp;
    _ ← assertLeaseInternal lease now;
    appendEventInternal (fl_runId lease) type payload now (Some (fl_generation lease))).

(** ** Approvals *)

(** Source: packages/control-plane/src/store.ts:858-891 [requestApproval]. *)
Definition requestApproval (agentId : option string) (lease : option FencedLease)
  (runId summary : string) (toolCallId : option string) : M ApprovalRow :=
  now ← timestamp;
  uuid ← randomUUID;
  id ← newId "approval" (runId +:+ ":" +:+ uuid);
  transaction (
    _ ← check_lease lease runId "Approval lease belongs to another Run." now;
    _ ← insert_row approvals set_approvals "approvals" (fun a b => ap_id a === ap_id b)
          (fun d => has_id runs rn_id runId d && opt_id agents ag_id agentId d &&
                    opt_id tool_calls tl_id toolCallId d)
          {| ap_id := id; ap_run_id := runId; ap_agent_id := agentId;
             ap_tool_call_id := toolCallId; ap_status := aps_pending; ap_summary := summary;
             ap_requested_at := now; ap_resolved_at := None; ap_resolver_id := None;
             ap_created_at := now; ap_updated_at := now |};
    _ ← appendEventInternal runId evt_approval_requested
          (jobj [("approvalId", jstr id); ("summary", jstr summary)]) now None;
    mustApproval id).

(** Source: packages/control-plane/src/store.ts:893-900 [listApprovals]. *)
Definition listApprovals (runId : string) : M (list ApprovalRow) :=
  query (fun d => sort_by (created_then_id ap_requested_at ap_id)
    (List.filter (fun a => ap_run_id a === runId) (approvals d))).

(** Source: packages/control-plane/src/store.ts:902-943 [resolveApproval]. *)
Definition resolveApproval (approvalId resolverId : string) (status : ApprovalStatus)
  : M ApprovalRow :=
  now ← timestamp;
  transaction (
    existing ← mustApproval approvalId;
    _ ← guard_throw (ap_status existing !== aps_pending)
          (Error ("Approval '" +:+ ap_id existing +:+ "' has already been resolved."));
    _ ← update_rows approvals set_approvals
          (fun a => (ap_id a === approvalId) && (ap_status a === aps_pending))
          (fun a => set_ap_status status
            (set_ap_resolved_at (Some now)
              (set_ap_resolver_id (Some resolverId) (set_ap_updated_at now a))));
    _ ← appendEventInternal (ap_run_id existing) evt_approval_resolved
          (jobj [("approvalId", jstr (ap_id existing));
                 ("status", jstr (ApprovalStatus_str status))]) now None;
    pending ← select_row approvals
      (fun a => (ap_run_id a === ap_run_id existing) && (ap_status a === aps_pending));
    run ← mustRun (ap_run_id existing);
    _ ← when ((pending === None) && (run_status run === run_waiting_external))
          (_ ← transitionRunInternal (ap_run_id existing) run_running now None;
           ensureContinuationInternal (ap_run_id existing) now);
    mustApproval approvalId).
End Runs.
