(* ===== verification/StoreTasks.v ===== *)
(** The task graph, agents, the durable agent mailbox and session epochs
    (packages/control-plane/src/store.ts). *)

From Stdlib Require Import ZArith Lia.
From stdpp Require Import base strings list.
From S2P Require Import Prelude JsNumber JsString JsCollections Protocol Json Ids StateMachine.
From S2P Require Import StoreData StoreMonad StoreCore StoreRuns.

Open Scope string_scope.
Open Scope list_scope.
#[local] Open Scope Z_scope.

(** Source: packages/control-plane/src/store/types.ts:103-113 [CreateTaskInput]. *)
Record CreateTaskInput := {
  ct_dependencies : list string;
  ct_description : string;
  ct_goalId : option string;
  ct_lease : option FencedLease;
  ct_requirementIds : list string;
  ct_resourceScopes : list ResourceScope;
  ct_runId : string;
  ct_title : string }.

(** Source: packages/control-plane/src/store/types.ts:115-121 [TransitionTaskInput]. *)
Record TransitionTaskInput := {
  tt_error : option string;
  tt_lease : option FencedLease;
  tt_result : option JsonValue;
  tt_taskId : string;
  tt_to : TaskStatus }.

(** Source: packages/control-plane/src/store/types.ts:92-101 [SpawnAgentInput]. *)
Record SpawnAgentInput := {
  sp_lease : option FencedLease;
  sp_parentAgentId : option string;
  sp_permissions : option PermissionPolicy;
  sp_role : AgentRole;
  sp_runId : string;
  sp_sandbox : option SandboxPolicy;
  sp_taskId : option string;
  sp_worktreeUri : option string }.

(** Source: packages/control-plane/src/store/types.ts:156-163 [SendAgentMessageInput]. *)
Record SendAgentMessageInput := {
  sm_body : JsonValue;
  sm_fromAgentId : option string;
  sm_kind : StoredMessageKind;
  sm_lease : FencedLease;
  sm_taskId : option string;
  sm_toAgentId : string }.

(** Source: packages/control-plane/src/store/types.ts:129-132 [ListTasksOptions]. *)
Record ListTasksOptions := {
  lt_ownerAgentId : option string;
  lt_status : list TaskStatus }.

Section Tasks.
Context `{Env}.

(** Source: packages/control-plane/src/store.ts:1504-1526 [listTasks]. *)
Definition listTasks (runId : string) (options : ListTasksOptions) : M (list Task) :=
  query (fun d => map (taskFromRow d) (sort_by (key_le tk_created_at)
    (List.filter (fun t =>
       (tk_run_id t === runId) &&
       ((lt_status options === []) || existsb (fun s => s === tk_status t) (lt_status options)) &&
       match lt_ownerAgentId options with
       | None => true
       | Some owner => tk_owner_agent_id t === Some owner
       end) (tasks d)))).

(** Source: packages/control-plane/src/store.ts:1529-1533 [nextReadyTask]. *)
Definition nextReadyTask (runId : string) : M (option Task) :=
  ready ← listTasks runId {| lt_ownerAgentId := None; lt_status := [task_ready] |};
  mret (find (fun t => tk_owner_agent_id (task_row t) === None) ready).

Definition with_id (id : string) (t : TaskRow) : bool := tk_id t === id.

(** Source: packages/control-plane/src/store.ts:1540-1584 [claimTask]. *)
Definition claimTask (agentId : string) (lease : FencedLease) (taskId : string) : M Task :=
  now ← timestamp;
  transaction (
    _ ← assertLeaseInternal lease now;
    task ← mustTask taskId;
    _ ← guard_throw (tk_run_id (task_row task) !== fl_runId lease)
          (Error "Task does not belong to the leased Run.");
    agent ← mustAgent agentId;
    _ ← guard_throw (ag_run_id (agent_row agent) !== tk_run_id (task_row task))
          (Error "Task and Agent must belong to the same Run.");
    _ ← lift (assertTaskTransition (tk_status (task_row task)) task_running);
    _ ← update_rows tasks set_tasks
          (fun t => (tk_id t === tk_id (task_row task)) && (tk_status t === task_ready) &&
                    (tk_owner_agent_id t === None))
          (fun t => set_tk_status task_running
            (set_tk_owner_agent_id (Some agentId)
              (set_tk_lease_generation (Some (fl_generation lease)) (set_tk_updated_at now t))));
    claimed ← mustTask (tk_id (task_row task));
    _ ← guard_throw (tk_owner_agent_id (task_row claimed) !== Some agentId)
          (Error ("Task '" +:+ tk_id (task_row task) +:+
            "' was claimed by another Agent before this executor could take it."));
    _ ← appendEventInternal (tk_run_id (task_row task)) evt_task_assigned
          (jobj [("agentId", jstr agentId); ("taskId", jstr (tk_id (task_row task)))]) now
          (Some (fl_generation lease));
    _ ← appendEventInternal (tk_run_id (task_row task)) evt_task_status_changed
          (jobj [("taskId", jstr (tk_id (task_row task))); ("to", jstr "running")]) now
          (Some (fl_generation lease));
    mret claimed).

(** Source: packages/control-plane/src/store.ts:1586-1604 [addTaskEvidence]. *)
Definition addTaskEvidence (evidenceId : string) (lease : FencedLease) (taskId : string)
  : M unit :=
  now ← timestamp;
  transaction (
    _ ← assertLeaseInternal lease now;
    task ← mustTask taskId;
    _ ← guard_throw (tk_run_id (task_row task) !== fl_runId lease)
          (Error "Task does not belong to the leased Run.");
    insert_or_ignore task_evidence set_task_evidence "task_evidence" (fun a b => a === b)
      (fun d => has_id tasks tk_id taskId d && has_id evidence ed_id evidenceId d)
      (taskId, evidenceId)).

(** [lease_generation < ?] of a nullable column. *)
Definition older (generation : option Z) (bound : Z) : bool :=
  match generation with None => false | Some g => g <? bound end.

(** Source: packages/control-plane/src/store.ts:1612-1672 [recoverGraphWork]. *)
Definition recoverGraphWork (lease : FencedLease) : M (list string * list string) :=
  now ← timestamp;
  transaction (
    _ ← assertLeaseInternal lease now;
    strandedTasks ← select_rows tasks (fun t =>
      (tk_run_id t === fl_runId lease) && (tk_status t === task_running) &&
      older (tk_lease_generation t) (fl_generation lease));
    let taskIds := map tk_id strandedTasks in
    _ ← iterate (fun taskId =>
          _ ← update_rows tasks set_tasks (with_id taskId) (fun t =>
                set_tk_status task_failed
                  (set_tk_owner_agent_id None
                    (set_tk_lease_generation (Some (fl_generation lease))
                      (set_tk_attempt (tk_attempt t + 1)
                        (set_tk_last_error
                           (Some "Executor was replaced before the task finished.")
                           (set_tk_updated_at now t))))));
          _ ← update_rows tasks set_tasks (with_id taskId)
                (fun t => set_tk_status task_ready (set_tk_updated_at now t));
          _ ← appendEventInternal (fl_runId lease) evt_task_recovered
                (jobj [("taskId", jstr taskId); ("to", jstr "ready")]) now
                (Some (fl_generation lease));
          mret tt) taskIds;
    strandedAgents ← select_rows agents (fun a =>
      (ag_run_id a === fl_runId lease) &&
      ((ag_status a === agent_running) || (ag_status a === agent_recovering)) &&
      older (ag_lease_generation a) (fl_generation lease));
    let agentIds := map ag_id strandedAgents in
    _ ← iterate (fun agentId =>
          _ ← transitionAgentInternal agentId agent_recovering now None;
          _ ← transitionAgentInternal agentId agent_queued now None;
          update_rows agents set_agents (fun a => ag_id a === agentId)
            (set_ag_lease_generation (Some (fl_generation lease)))) agentIds;
    mret (agentIds, taskIds)).

(** Source: packages/control-plane/src/store.ts:1679-1697 [markAgentActive]. *)
Definition markAgentActive (agentId : string) (lease : FencedLease) : M unit :=
  now ← timestamp;
  transaction (
    _ ← assertLeaseInternal lease now;
    agent ← mustAgent agentId;
    _ ← guard_throw (ag_run_id (agent_row agent) !== fl_runId lease)
          (Error "Agent does not belong to the leased Run.");
    update_rows agents set_agents (fun a => ag_id a === agentId)
      (fun a => set_ag_lease_generation (Some (fl_generation lease)) (set_ag_updated_at now a))).

(** ** Agent messages *)

(** Source: packages/control-plane/src/store.ts:1700-1748 [sendAgentMessage]. *)
Definition sendAgentMessage (input : SendAgentMessageInput) : M MessageRow :=
  now ← timestamp;
  uuid ← randomUUID;
  let lease := sm_lease input in
  id ← newId "agent-message" (fl_runId lease +:+ ":" +:+ uuid);
  transaction (
    _ ← assertLeaseInternal lease now;
    recipient ← mustAgent (sm_toAgentId input);
    _ ← guard_throw (ag_run_id (agent_row recipient) !== fl_runId lease)
          (Error "Agent message recipient belongs to another Run.");
    _ ← match sm_fromAgentId input with
        | None => mret tt
        | Some from =>
            sender ← mustAgent from;
            guard_throw (ag_run_id (agent_row sender) !== fl_runId lease)
              (Error "Agent message sender belongs to another Run.")
        end;
    _ ← insert_row agent_messages set_agent_messages "agent_messages"
          (fun a b => am_id a === am_id b)
          (fun d => has_id runs rn_id (fl_runId lease) d &&
                    opt_id agents ag_id (sm_fromAgentId input) d &&
                    has_id agents ag_id (sm_toAgentId input) d &&
                    opt_id tasks tk_id (sm_taskId input) d)
          {| am_id := id; am_run_id := fl_runId lease;
             am_from_agent_id := sm_fromAgentId input; am_to_agent_id := sm_toAgentId input;
             am_task_id := sm_taskId input; am_kind := sm_kind input; am_body := sm_body input;
             am_status := ams_pending; am_lease_generation := Some (fl_generation lease);
             am_created_at := now; am_delivered_at := None |};
    _ ← appendEventInternal (fl_runId lease) evt_agent_message_sent
          (jobj ([("kind", jstr (StoredMessageKind_str (sm_kind input)));
                  ("messageId", jstr id); ("toAgentId", jstr (sm_toAgentId input))] ++
                 opt_field "fromAgentId" (sm_fromAgentId input))) now
          (Some (fl_generation lease));
    mustAgentMessage id).

(** [LIMIT n]: a negative limit is no limit. *)
Definition sql_limit {A} (n : Z) (l : list A) : list A :=
  if n <? 0 then l else firstn (Z.to_nat n) l.

(** Source: packages/control-plane/src/store.ts:1751-1791 [receiveAgentMessages]. *)
Definition receiveAgentMessages (agentId : string) (lease : FencedLease) (limit : option Z)
  : M (list MessageRow) :=
  now ← timestamp;
  transaction (
    _ ← assertLeaseInternal lease now;
    rows ← query (fun d => sql_limit (limit ?? 32) (sort_by (key_le am_created_at)
      (List.filter (fun m => (am_to_agent_id m === agentId) &&
         (am_run_id m === fl_runId lease) && (am_status m === ams_pending))
         (agent_messages d))));
    _ ← iterate (fun message =>
          _ ← update_rows agent_messages set_agent_messages
                (fun m => am_id m === am_id message)
                (fun m => set_am_status ams_delivered (set_am_delivered_at (Some now) m));
          _ ← appendEventInternal (fl_runId lease) evt_agent_message_delivered
                (jobj [("messageId", jstr (am_id message)); ("toAgentId", jstr agentId)]) now
                (Some (fl_generation lease));
          mret tt) rows;
    mret (map (fun m => set_am_status ams_delivered (set_am_delivered_at (Some now) m)) rows)).

(** Source: packages/control-plane/src/store.ts:1793-1800 [listAgentMessages]. *)
Definition listAgentMessages (runId : string) : M (list MessageRow) :=
  query (fun d => sort_by (key_le am_created_at)
    (List.filter (fun m => am_run_id m === runId) (agent_messages d))).

(** ** Tasks *)

(** Source: packages/control-plane/src/store.ts:1802-1857 [createTask]. *)
Definition createTask (input : CreateTaskInput) : M Task :=
  now ← timestamp;
  uuid ← randomUUID;
  let runId := ct_runId input in
  id ← newId "task" (runId +:+ ":" +:+ uuid);
  transaction (
    _ ← check_lease_then_run (ct_lease input) runId
          "Task lease does not match the Task's Run." now;
    _ ← insert_row tasks set_tasks "tasks" (fun a b => tk_id a === tk_id b)
          (fun d => has_id runs rn_id runId d && opt_id goals gl_id (ct_goalId input) d)
          {| tk_id := id; tk_run_id := runId; tk_goal_id := ct_goalId input;
             tk_title := ct_title input; tk_description := ct_description input;
             tk_status := task_pending; tk_owner_agent_id := None; tk_result := None;
             tk_completed_at := None; tk_created_at := now; tk_updated_at := now;
             tk_lease_generation := None; tk_attempt := 0; tk_last_error := None |};
    _ ← iterate (fun dependency =>
          insert_row task_dependencies set_task_dependencies "task_dependencies"
            (fun a b => a === b)
            (fun d => has_id tasks tk_id id d && has_id tasks tk_id dependency d)
            (id, dependency)) (ct_dependencies input);
    _ ← iterate (fun requirementId =>
          requirement ← select_row requirements
            (fun r => (rq_id r === requirementId) && (rq_run_id r === runId));
          _ ← guard_throw (requirement === None)
                (Error "Task requirement must belong to the same Run.");
          insert_row task_requirements set_task_requirements "task_requirements"
            (fun a b => a === b)
            (fun d => has_id tasks tk_id id d && has_id requirements rq_id requirementId d)
            (id, requirementId)) (ct_requirementIds input);
    _ ← iterate (fun scope =>
          insert_row task_resource_scopes set_task_resource_scopes "task_resource_scopes"
            (fun a b => a === b) (has_id tasks tk_id id) (id, scope)) (ct_resourceScopes input);
    _ ← refreshTaskReadinessInternal runId now;
    mustTask id).

(** Source: packages/control-plane/src/store.ts:1859-1905 [transitionTask]. *)
Definition transitionTask (input : TransitionTaskInput) : M Task :=
  now ← timestamp;
  let to := tt_to input in
  transaction (
    _ ← match tt_lease input with
        | None => mret tt
        | Some lease => assertLeaseInternal lease now
        end;
    task ← mustTask (tt_taskId input);
    let row := task_row task in
    _ ← match tt_lease input with
        | None => mret tt
        | Some lease =>
            guard_throw (tk_run_id row !== fl_runId lease)
              (Error "Task does not belong to the leased Run.")
        end;
    _ ← lift (assertTaskTransition (tk_status row) to);
    let releasesOwner :=
      (to === task_completed) || (to === task_failed) || (to === task_cancelled) in
    let generation := fl_generation <$> tt_lease input in
    _ ← update_rows tasks set_tasks (with_id (tk_id row)) (fun t =>
          set_tk_status to
            (set_tk_completed_at (if to === task_completed then Some now else None)
              (set_tk_updated_at now
                (set_tk_owner_agent_id
                   (if releasesOwner then None else tk_owner_agent_id t)
                   (set_tk_attempt (tk_attempt t + (if to === task_failed then 1 else 0))
                     (set_tk_last_error (tt_error input)
                       (set_tk_result
                          (match tt_result input with None => tk_result t | r => r end)
                          (set_tk_lease_generation
                             (match generation with None => tk_lease_generation t | g => g end)
                             t))))))));
    _ ← appendEventInternal (tk_run_id row) evt_task_status_changed
          (jobj ([("taskId", jstr (tk_id row)); ("to", jstr (TaskStatus_str to))] ++
                 opt_field "error" (tt_error input))) now generation;
    _ ← refreshTaskReadinessInternal (tk_run_id row) now;
    mustTask (tk_id row)).

(** ** Agents *)

(** Source: packages/control-plane/src/store.ts:1907-1962 [spawnAgent]. *)
Definition spawnAgent (input : SpawnAgentInput) : M Agent :=
  now ← timestamp;
  uuid ← randomUUID;
  let runId := sp_runId input in
  id ← newId "agent" (runId +:+ ":" +:+ uuid);
  transaction (
    _ ← check_lease_then_run (sp_lease input) runId
          "Agent lease does not match the Agent's Run." now;
    _ ← match sp_parentAgentId input with
        | None => mret tt
        | Some parentId =>
            parent ← mustAgent parentId;
            guard_throw (ag_run_id (agent_row parent) !== runId)
              (Error "Parent and child agent must belong to the same Run.")
        end;
    _ ← insert_agent
          {| ag_id := id; ag_run_id := runId; ag_task_id := sp_taskId input;
             ag_role := sp_role input; ag_status := agent_created;
             ag_permissions := sp_permissions input ?? defaultPermissions;
             ag_sandbox := sp_sandbox input ?? defaultSandbox;
             ag_worktree_uri := sp_worktreeUri input; ag_spawned_at := now;
             ag_closed_at := None; ag_created_at := now; ag_updated_at := now;
             ag_lease_generation := None |};
    _ ← match sp_parentAgentId input with
        | None => mret tt
        | Some parentId =>
            insert_row agent_edges set_agent_edges "agent_edges"
              (fun a b => ae_child_agent_id a === ae_child_agent_id b)
              (fun d => has_id agents ag_id parentId d && has_id agents ag_id id d)
              {| ae_parent_agent_id := parentId; ae_child_agent_id := id;
                 ae_status := "open"; ae_created_at := now; ae_closed_at := None |}
        end;
    _ ← match sp_lease input with
        | None => mret tt
        | Some lease =>
            update_rows agents set_agents (fun a => ag_id a === id)
              (set_ag_lease_generation (Some (fl_generation lease)))
        end;
    _ ← appendEventInternal runId evt_agent_status_changed
          (jobj [("agentId", jstr id); ("to", jstr "created")]) now
          (fl_generation <$> sp_lease input);
    mustAgent id).

(** Source: packages/control-plane/src/store.ts:1964-1993 [transitionAgent]. *)
Definition transitionAgent (agentId : string) (lease : option FencedLease) (to : AgentStatus)
  : M Agent :=
  now ← timestamp;
  transaction (
    _ ← match lease with
        | None => mret tt
        | Some lease =>
            _ ← assertLeaseInternal lease now;
            agent ← mustAgent agentId;
            guard_throw (ag_run_id (agent_row agent) !== fl_runId lease)
              (Error "Agent does not belong to the leased Run.")
        end;
    transitioned ← transitionAgentInternal agentId to now (fl_generation <$> lease);
    _ ← match lease with
        | None => mret tt
        | Some lease =>
            update_rows agents set_agents (fun a => ag_id a === agentId)
              (set_ag_lease_generation (Some (fl_generation lease)))
        end;
    mret transitioned).

(** Source: packages/control-plane/src/store.ts:2001-2032 [setAgentWorktree]. *)
Definition setAgentWorktree (agentId : string) (lease : FencedLease) (worktreeUri : string)
  : M Agent :=
  now ← timestamp;
  transaction (
    _ ← assertLeaseInternal lease now;
    agent ← mustAgent agentId;
    _ ← guard_throw (ag_run_id (agent_row agent) !== fl_runId lease)
          (Error "Agent does not belong to the leased Run.");
    _ ← guard_throw (ag_worktree_uri (agent_row agent) !== None)
          (Error ("Agent '" +:+ agentId +:+ "' already has a worktree."));
    _ ← update_rows agents set_agents (fun a => ag_id a === agentId) (fun a =>
          set_ag_worktree_uri (Some worktreeUri)
            (set_ag_lease_generation (Some (fl_generation lease)) (set_ag_updated_at now a)));
    _ ← appendEventInternal (fl_runId lease) evt_agent_worktree_assigned
          (jobj [("agentId", jstr agentId); ("worktreeUri", jstr worktreeUri)]) now
          (Some (fl_generation lease));
    mustAgent agentId).

(** ** Session epochs *)

Definition max_ordinal (epochs : list SessionEpochRow) : option Z :=
  foldl (fun acc e => Some (match acc with
                            | None => se_ordinal e
                            | Some m => Z.max m (se_ordinal e)
                            end)) None epochs.

(** Source: packages/control-plane/src/store.ts:2034-2079 [startSessionEpoch]. *)
Definition startSessionEpoch (agentId : string) (lease : option FencedLease)
  (model provider : string) : M SessionEpochRow :=
  now ← timestamp;
  transaction (
    agent ← mustAgent agentId;
    _ ← match lease with
        | None => mret tt
        | Some lease =>
            _ ← guard_throw (ag_run_id (agent_row agent) !== fl_runId lease)
                  (LeaseFencedError (fl_runId lease)
                     "Session epoch agent belongs to another Run.");
            assertLeaseInternal lease now
        end;
    existing ← query (fun d => max_ordinal
      (List.filter (fun e => se_agent_id e === agentId) (session_epochs d)));
    let ordinal := match existing with None => 1 | Some n => n + 1 end in
    id ← newId "session-epoch" (ag_id (agent_row agent) +:+ ":" +:+ decimal ordinal);
    let row := {| se_id := id; se_agent_id := ag_id (agent_row agent);
                  se_ordinal := ordinal; se_provider := provider; se_model := model;
                  se_started_at := now; se_ended_at := None; se_end_reason := None;
                  se_handoff_context_snapshot_id := None; se_created_at := now;
                  se_updated_at := now |} in
    _ ← insert_row session_epochs set_session_epochs "session_epochs"
          (fun a b => (se_id a === se_id b) ||
             (se_agent_id a === se_agent_id b) && (se_ordinal a =? se_ordinal b))
          (has_id agents ag_id (ag_id (agent_row agent))) row;
    stored ← select_row session_epochs (fun e => se_id e === id);
    must stored "Expected persisted column 'agent_id' to be a string.").

(** Source: packages/control-plane/src/store.ts:2081-2121 [endSessionEpoch]. *)
Definition endSessionEpoch (id : string) (lease : option FencedLease) (reason : EndReason)
  : M SessionEpochRow :=
  now ← timestamp;
  transaction (
    _ ← match lease with
        | None => mret tt
        | Some lease =>
            owner ← query (fun d =>
              e ← find (fun e => se_id e === id) (session_epochs d);
              ag_run_id <$> find (fun a => ag_id a === se_agent_id e) (agents d));
            _ ← guard_throw (owner !== Some (fl_runId lease))
                  (LeaseFencedError (fl_runId lease)
                     "Session epoch belongs to another Run.");
            assertLeaseInternal lease now
        end;
    _ ← update_rows session_epochs set_session_epochs
          (fun e => (se_id e === id) && (se_ended_at e === None))
          (fun e => set_se_ended_at (Some now)
            (set_se_end_reason (Some reason) (set_se_updated_at now e)));
    row ← select_row session_epochs (fun e => se_id e === id);
    must row ("Session epoch '" +:+ id +:+ "' was not found.")).
End Tasks.
