(* ===== verification/StoreEffects.v ===== *)
(** Records of the mission, resource locks, usage, tool calls, checkpoints, wake
    conditions and the continuation queue (packages/control-plane/src/store.ts). *)

From Stdlib Require Import ZArith Lia Ascii String.
From stdpp Require Import base strings list.
From S2P Require Import Prelude JsNumber JsString JsCollections Protocol Json Ids StateMachine.
From S2P Require Import Policies Budget StoreData StoreMonad StoreCore StoreRuns.

Open Scope string_scope.
Open Scope list_scope.
#[local] Open Scope Z_scope.

(** Source: packages/control-plane/src/store/types.ts:192-202 [RecordProblemInput]. *)
Record RecordProblemInput := {
  rp_alternateActionAvailable : bool;
  rp_lease : option FencedLease;
  rp_externalDependency : bool;
  rp_fingerprint : string;
  rp_meaningful : option bool;
  rp_note : option string;
  rp_runId : string;
  rp_summary : string;
  rp_taskId : option string }.

(** The contract a tool intent records.
    Source: packages/control-plane/src/store/types.ts:170-181 [ToolIntentInput]. *)
Record ToolIntentInput := {
  ti_agentId : option string;
  ti_approvalId : option string;
  ti_idempotency : ToolIdempotency;
  ti_name : string;
  ti_recovery : ToolRecoveryStrategy;
  ti_sideEffectClass : ToolSideEffectClass;
  ti_input : JsonValue;
  ti_lease : FencedLease;
  ti_taskId : option string }.

(** Source: packages/control-plane/src/store/types.ts:183-190 [UnknownToolCall]. *)
Record UnknownToolCall := {
  ut_id : string;
  ut_name : string;
  ut_runId : string;
  ut_recovery : ToolRecoveryStrategy;
  ut_sideEffectClass : ToolSideEffectClass;
  ut_idempotency : ToolIdempotency }.

(** Source: packages/control-plane/src/store/types.ts:86-90 [ScheduledAction]. *)
Record ScheduledAction := {
  act_actionType : string;
  act_attempt : Z;
  act_runId : string }.

(** One tool call, the delta of [recordToolIntent]. *)
Definition one_tool_call : BudgetDelta :=
  {| d_inputTokens := None; d_outputTokens := None; d_cachedTokens := None;
     d_costUsd := None; d_wallTimeMs := None; d_toolCalls := Some (ofZ 1);
     d_childAgents := None |}.

Section Effects.
Context `{Env}.

(** ** Problems *)

(** Source: packages/control-plane/src/store.ts:518-526 [recordProblem, eligible]. *)
Definition problem_eligible (meaningful : list ObservationRow) : bool :=
  Nat.leb 3 (length meaningful) &&
  forallb po_external_dependency meaningful &&
  forallb (fun o => negb (po_alternate_action_available o)) meaningful.

(** Source: packages/control-plane/src/store.ts:464-547 [recordProblem]. *)
Definition recordProblem (input : RecordProblemInput) : M ProblemRow :=
  now ← timestamp;
  let runId := rp_runId input in
  transaction (
    row ← select_row problems (fun p => (pb_run_id p === runId) &&
                                        (pb_fingerprint p === rp_fingerprint input));
    id ← match row with
         | None => newId "problem" (runId +:+ ":" +:+ rp_fingerprint input)
         | Some p => mret (pb_id p)
         end;
    _ ← when (row === None)
          (insert_row problems set_problems "problems"
             (fun a b => (pb_id a === pb_id b) ||
                (pb_run_id a === pb_run_id b) && (pb_fingerprint a === pb_fingerprint b))
             (has_id runs rn_id runId)
             {| pb_id := id; pb_run_id := runId; pb_fingerprint := rp_fingerprint input;
                pb_summary := rp_summary input;
                pb_external_dependency := rp_externalDependency input;
                pb_alternate_action_available := rp_alternateActionAvailable input;
                pb_meaningful_attempts := 0; pb_status := prs_open; pb_created_at := now;
                pb_updated_at := now |});
    uuid ← randomUUID;
    observationId ← newId "event" ("problem-observation:" +:+ id +:+ ":" +:+ uuid);
    _ ← insert_row problem_observations set_problem_observations "problem_observations"
          (fun a b => po_id a === po_id b) (has_id problems pb_id id)
          {| po_id := observationId; po_problem_id := id;
             po_meaningful := match rp_meaningful input with Some false => false | _ => true end;
             po_external_dependency := rp_externalDependency input;
             po_alternate_action_available := rp_alternateActionAvailable input;
             po_note := rp_note input; po_occurred_at := now |};
    _ ← match rp_taskId input with
        | None => mret tt
        | Some taskId =>
            task ← mustTask taskId;
            _ ← guard_throw (tk_run_id (task_row task) !== runId)
                  (Error "Problem task must belong to the same Run.");
            insert_or_ignore task_problems set_task_problems "task_problems"
              (fun a b => a === b)
              (fun d => has_id tasks tk_id taskId d && has_id problems pb_id id d) (taskId, id)
        end;
    observations ← query (fun d => sort_by (created_then_id po_occurred_at po_id)
      (List.filter (fun o => po_problem_id o === id) (problem_observations d)));
    let meaningful := List.filter po_meaningful observations in
    let eligible := problem_eligible meaningful in
    _ ← update_rows problems set_problems (fun p => pb_id p === id) (fun p =>
          set_pb_summary (rp_summary input)
            (set_pb_external_dependency (rp_externalDependency input)
              (set_pb_alternate_action_available (rp_alternateActionAvailable input)
                (set_pb_meaningful_attempts (Z.of_nat (length meaningful))
                  (set_pb_status (if eligible then prs_blocked else prs_open)
                    (set_pb_updated_at now p))))));
    _ ← when eligible (blockRunForProblemInternal runId (rp_fingerprint input) now);
    row ← select_row problems (fun p => pb_id p === id);
    must row "Recorded Problem could not be read back.").

(** ** Mission records *)

(** Source: packages/control-plane/src/store.ts:379-413 [createMilestone]. *)
Definition createMilestone (lease : FencedLease) (runId : string)
  (status : option MilestoneStatus) (taskIds : list string) (title : string)
  : M MilestoneRow :=
  now ← timestamp;
  uuid ← randomUUID;
  id ← newId "milestone" (runId +:+ ":" +:+ uuid);
  transaction (
    _ ← assertRunLeaseInternal (Some lease) runId now;
    _ ← iterate (fun taskId =>
          task ← mustTask taskId;
          guard_throw (tk_run_id (task_row task) !== runId)
            (Error "Milestone tasks must belong to the same Run.")) taskIds;
    _ ← insert_row milestones set_milestones "milestones" (fun a b => mi_id a === mi_id b)
          (has_id runs rn_id runId)
          {| mi_id := id; mi_run_id := runId; mi_title := title;
             mi_status := status ?? mls_pending; mi_created_at := now; mi_updated_at := now |};
    _ ← iterate (fun taskId =>
          insert_row milestone_tasks set_milestone_tasks "milestone_tasks"
            (fun a b => a === b)
            (fun d => has_id milestones mi_id id d && has_id tasks tk_id taskId d)
            (id, taskId)) taskIds;
    row ← select_row milestones (fun m => mi_id m === id);
    must row ("Milestone '" +:+ id +:+ "' was not found.")).

(** Not a transaction, like [addArtifact], [recordGitChange], [setRecoveryState] and
    [addMemoryEntry]: what is written before an exception stays, and only the process
    itself, which runs the method to its end, keeps other commands out.
    Source: packages/control-plane/src/store.ts:424-448 [recordDecision]. *)
Definition recordDecision (alternatives : list string) (lease : FencedLease)
  (evidenceIds : list string) (rationale runId title : string) : M DecisionRow :=
  now ← timestamp;
  uuid ← randomUUID;
  id ← newId "decision" (runId +:+ ":" +:+ uuid);
  _ ← assertRunLeaseInternal (Some lease) runId now;
  _ ← insert_row decisions set_decisions "decisions" (fun a b => dn_id a === dn_id b)
        (has_id runs rn_id runId)
        {| dn_id := id; dn_run_id := runId; dn_title := title; dn_rationale := rationale;
           dn_alternatives := alternatives; dn_evidence_ids := evidenceIds;
           dn_created_at := now; dn_updated_at := now |};
  row ← select_row decisions (fun r => dn_id r === id);
  must row ("Decision '" +:+ id +:+ "' was not found.").

(** Source: packages/control-plane/src/store.ts:558-592 [addArtifact]. *)
Definition addArtifact (checksum : option string) (label : string) (lease : FencedLease)
  (mediaType : option string) (runId : string) (sizeBytes : option num) (uri : string)
  : M ArtifactRow :=
  _ ← guard_throw (match sizeBytes with
                   | None => false
                   | Some n => negb (isSafeInteger n) || js_lt n (ofZ 0)
                   end) (Error "Artifact sizeBytes must be a non-negative safe integer.");
  now ← timestamp;
  uuid ← randomUUID;
  id ← newId "artifact" (runId +:+ ":" +:+ uuid);
  checked ← timestamp;
  _ ← assertRunLeaseInternal (Some lease) runId checked;
  _ ← insert_row artifacts set_artifacts "artifacts" (fun a b => af_id a === af_id b)
        (has_id runs rn_id runId)
        {| af_id := id; af_run_id := runId; af_label := label; af_uri := uri;
           af_media_type := mediaType; af_size_bytes := sizeBytes; af_checksum := checksum;
           af_created_at := now; af_updated_at := now |};
  row ← select_row artifacts (fun r => af_id r === id);
  must row ("Artifact '" +:+ id +:+ "' was not found.").

(** Source: packages/control-plane/src/store.ts:603-627 [recordGitChange]. *)
Definition recordGitChange (lease : FencedLease) (repositoryUri revision runId summary : string)
  (taskIds : list string) : M GitChangeRow :=
  now ← timestamp;
  uuid ← randomUUID;
  id ← newId "git-change" (runId +:+ ":" +:+ uuid);
  _ ← assertRunLeaseInternal (Some lease) runId now;
  _ ← insert_row git_changes set_git_changes "git_changes" (fun a b => gc_id a === gc_id b)
        (has_id runs rn_id runId)
        {| gc_id := id; gc_run_id := runId; gc_repository_uri := repositoryUri;
           gc_revision := revision; gc_summary := summary; gc_task_ids := taskIds;
           gc_created_at := now; gc_updated_at := now |};
  row ← select_row git_changes (fun r => gc_id r === id);
  must row ("GitChange '" +:+ id +:+ "' was not found.").

(** [value ?? 0] of a cost or usage figure. *)
Definition or_zero (n : option num) : num := n ?? ofZ 0.

(** Source: packages/control-plane/src/store.ts:2992-2999 [mustCostRecord]. *)
Definition mustCostRecord (id : string) : M CostRow :=
  row ← select_row cost_records (fun r => co_id r === id);
  must row ("CostRecord '" +:+ id +:+ "' was not found.").

(** Source: packages/control-plane/src/store.ts:638-699 [recordCost]. *)
Definition recordCost (agentId : option string)
  (cachedTokens costUsd inputTokens outputTokens : option num) (lease : option FencedLease)
  (runId : string) (sessionEpochId entryKey : option string) : M CostRow :=
  _ ← guard_throw
        (existsb (fun n => negb (isFinite n) || js_lt n (ofZ 0))
           (map or_zero [cachedTokens; costUsd; inputTokens; outputTokens]))
        (Error "Cost records require finite non-negative values.");
  now ← timestamp;
  uuid ← randomUUID;
  id ← newId "cost-record" (runId +:+ ":" +:+ uuid);
  transaction (
    _ ← check_lease lease runId "Cost record lease belongs to another Run." now;
    existing ← match entryKey with
               | None => mret None
               | Some key => select_row cost_records
                   (fun r => (co_run_id r === runId) && (co_entry_key r === Some key))
               end;
    match existing with
    | Some row => mustCostRecord (co_id row)
    | None =>
        _ ← insert_row cost_records set_cost_records "cost_records"
              (fun a b => (co_id a === co_id b) ||
                 (co_run_id a === co_run_id b) && (co_entry_key a === co_entry_key b) &&
                 (co_entry_key a !== None))
              (fun d => has_id runs rn_id runId d && opt_id agents ag_id agentId d &&
                        opt_id session_epochs se_id sessionEpochId d)
              {| co_id := id; co_run_id := runId; co_agent_id := agentId;
                 co_session_epoch_id := sessionEpochId; co_input_tokens := or_zero inputTokens;
                 co_output_tokens := or_zero outputTokens;
                 co_cached_tokens := or_zero cachedTokens; co_cost_usd := or_zero costUsd;
                 co_created_at := now; co_updated_at := now; co_entry_key := entryKey |};
        mustCostRecord id
    end).

(** Source: packages/control-plane/src/store.ts:710-740 [setRecoveryState]. *)
Definition setRecoveryState (lastCheckpointId : option string) (lease : FencedLease)
  (reason : option string) (runId : string) (status : RecoveryStatus)
  (unknownToolCallIds : list string) : M RecoveryRow :=
  now ← timestamp;
  id ← newId "recovery-state" runId;
  _ ← assertRunLeaseInternal (Some lease) runId now;
  existing ← select_row recovery_states (fun r => rs_run_id r === runId);
  _ ← match existing with
      | Some _ =>
          _ ← check_refs "recovery_states" (opt_id checkpoints cp_id lastCheckpointId);
          update_rows recovery_states set_recovery_states (fun r => rs_run_id r === runId)
            (fun r => set_rs_status status
              (set_rs_last_checkpoint_id lastCheckpointId
                (set_rs_unknown_tool_call_ids unknownToolCallIds
                  (set_rs_reason reason (set_rs_updated_at now r)))))
      | None =>
          insert_row recovery_states set_recovery_states "recovery_states"
            (fun a b => rs_id a === rs_id b)
            (fun d => has_id runs rn_id runId d && opt_id checkpoints cp_id lastCheckpointId d)
            {| rs_id := id; rs_run_id := runId; rs_status := status;
               rs_last_checkpoint_id := lastCheckpointId;
               rs_unknown_tool_call_ids := unknownToolCallIds; rs_reason := reason;
               rs_created_at := now; rs_updated_at := now |}
      end;
  row ← select_row recovery_states (fun r => rs_run_id r === runId);
  must row ("RecoveryState for Run '" +:+ runId +:+ "' was not found.").

(** Source: packages/control-plane/src/store.ts:752-801 [createContextSnapshot]. *)
Definition createContextSnapshot (agentId checkpointId : option string)
  (lease : option FencedLease) (runId : string) (sessionEpochId : option string)
  (summary : string) (tokenCount : num) : M SnapshotRow :=
  _ ← guard_throw (negb (isSafeInteger tokenCount) || js_lt tokenCount (ofZ 0))
        (Error "Context snapshot tokenCount must be a non-negative safe integer.");
  now ← timestamp;
  uuid ← randomUUID;
  id ← newId "context-snapshot" (runId +:+ ":" +:+ uuid);
  transaction (
    _ ← check_lease lease runId "Context snapshot lease belongs to another Run." now;
    _ ← insert_row context_snapshots set_context_snapshots "context_snapshots"
          (fun a b => cs_id a === cs_id b)
          (fun d => has_id runs rn_id runId d && opt_id agents ag_id agentId d &&
                    opt_id session_epochs se_id sessionEpochId d &&
                    opt_id checkpoints cp_id checkpointId d)
          {| cs_id := id; cs_run_id := runId; cs_agent_id := agentId;
             cs_session_epoch_id := sessionEpochId; cs_summary := summary;
             cs_token_count := tokenCount; cs_checkpoint_id := checkpointId;
             cs_created_at := now; cs_updated_at := now |};
    _ ← match sessionEpochId with
        | None => mret tt
        | Some epoch =>
            update_rows session_epochs set_session_epochs (fun e => se_id e === epoch)
              (fun e => set_se_handoff_context_snapshot_id (Some id) (set_se_updated_at now e))
        end;
    row ← select_row context_snapshots (fun r => cs_id r === id);
    must row ("ContextSnapshot '" +:+ id +:+ "' was not found.")).

(** Source: packages/control-plane/src/store.ts:812-847 [addMemoryEntry]. *)
Definition addMemoryEntry (agentId : option string) (lease : option FencedLease)
  (confidence : num) (content runId : string) (scope : MemoryScope)
  (sourceEvidenceIds : list string) : M MemoryRow :=
  _ ← guard_throw (negb (isFinite confidence) || js_lt confidence (ofZ 0) ||
                   js_lt (ofZ 1) confidence)
        (Error "Memory confidence must be within [0, 1].");
  now ← timestamp;
  uuid ← randomUUID;
  id ← newId "memory-entry" (runId +:+ ":" +:+ uuid);
  _ ← match lease with
      | None => mret tt
      | Some _ => checked ← timestamp; assertRunLeaseInternal lease runId checked
      end;
  _ ← insert_row memory_entries set_memory_entries "memory_entries"
        (fun a b => me_id a === me_id b)
        (fun d => has_id runs rn_id runId d && opt_id agents ag_id agentId d)
        {| me_id := id; me_run_id := runId; me_scope := scope; me_content := content;
           me_confidence := confidence; me_agent_id := agentId;
           me_source_evidence_ids := sourceEvidenceIds; me_created_at := now;
           me_updated_at := now |};
  row ← select_row memory_entries (fun r => me_id r === id);
  must row ("MemoryEntry '" +:+ id +:+ "' was not found.").

(** ** Resource locks *)

(** Whether a lock belongs to the holder asking.
    Source: packages/control-plane/src/store.ts:2163-2168 [acquireResourceLocks, own]. *)
Definition own_lock (executorId runId : string) (generation : Z) (lock : LockRow) : bool :=
  (rl_holder_id lock === executorId) && (rl_run_id lock === runId) &&
  (rl_lease_generation lock =? generation).

(** Whether another holder's lock conflicts with the scope.
    Source: packages/control-plane/src/store.ts:2162-2185 [acquireResourceLocks, conflict]. *)
Definition lock_conflict (executorId runId : string) (generation : Z)
  (existing : list LockRow) (scope : ResourceScope) : bool :=
  existsb (fun lock => negb (own_lock executorId runId generation lock) &&
                       resourceScopesConflict scope (rl_scope lock)) existing.

(** Source: packages/control-plane/src/store.ts:2187-2204 [acquireResourceLocks, insert]. *)
Fixpoint insert_locks (runId executorId : string) (taskId : option string) (timestamp_
  expiresAt generation : Z) (index : nat) (scopes : list ResourceScope) : M (list string) :=
  match scopes with
  | [] => mret []
  | scope :: rest =>
      generated ← newId "event" (runId +:+ ":" +:+ executorId +:+ ":" +:+
        decimal timestamp_ +:+ ":" +:+ decimal (Z.of_nat index));
      let id := "lock_" +:+ of_units (after_last "_"%char (units generated) []) in
      _ ← insert_row resource_locks set_resource_locks "resource_locks"
            (fun a b => rl_id a === rl_id b)
            (fun d => has_id runs rn_id runId d && opt_id tasks tk_id taskId d)
            {| rl_id := id; rl_run_id := runId; rl_task_id := taskId;
               rl_holder_id := executorId; rl_scope := scope; rl_expires_at := expiresAt;
               rl_created_at := timestamp_; rl_lease_generation := generation |};
      ids ← insert_locks runId executorId taskId timestamp_ expiresAt generation (S index) rest;
      mret (id :: ids)
  end.

(** Source: packages/control-plane/src/store.ts:2123-2206 [acquireResourceLocks]. *)
Definition acquireResourceLocks (executorId : string) (lease : option FencedLease)
  (runId : string) (scopes : list ResourceScope) (taskId : option string) (ttlMs : Z)
  : M (list string) :=
  now ← timestamp;
  let generation := match lease with None => 0 | Some l => fl_generation l end in
  transaction (
    _ ← match lease with
        | None => mret tt
        | Some lease =>
            _ ← assertLeaseInternal lease now;
            _ ← guard_throw (fl_runId lease !== runId)
                  (LeaseFencedError runId "Resource lock lease belongs to another Run.");
            delete_rows resource_locks set_resource_locks
              (fun l => (rl_run_id l === runId) && (rl_lease_generation l <? generation))
        end;
    _ ← delete_rows resource_locks set_resource_locks (fun l => rl_expires_at l <=? now);
    existing ← select_rows resource_locks (fun _ => true);
    _ ← iterate (fun scope =>
          guard_throw (lock_conflict executorId runId generation existing scope)
            (ResourceLockConflictError scope)) scopes;
    insert_locks runId executorId taskId now (now + ttlMs) generation 0 scopes).

(** Source: packages/control-plane/src/store.ts:2213-2224 [releaseResourceLocks]. *)
Definition releaseResourceLocks (executorId runId : string) (leaseGeneration : Z) : M unit :=
  delete_rows resource_locks set_resource_locks (fun l =>
    (rl_holder_id l === executorId) && (rl_run_id l === runId) &&
    (rl_lease_generation l =? leaseGeneration)).

(** ** Usage *)

(** Source: packages/control-plane/src/store.ts:2226-2231 [recordUsage]. *)
Definition recordUsage (runId : string) (delta : BudgetDelta) : M Run :=
  now ← timestamp;
  transaction (recordUsageInternal runId delta now).

(** Source: packages/control-plane/src/store.ts:2242-2272 [recordUsageFenced]. *)
Definition recordUsageFenced (lease : FencedLease) (delta : BudgetDelta)
  (entry : option (option string * string)) : M Run :=
  now ← timestamp;
  transaction (
    _ ← assertLeaseInternal lease now;
    match entry with
    | None => recordUsageInternal (fl_runId lease) delta now
    | Some (agentId, key) =>
        existing ← select_row usage_entries
          (fun e => (ue_run_id e === fl_runId lease) && (ue_entry_key e === key));
        match existing with
        | Some _ => mustRun (fl_runId lease)
        | None =>
            _ ← insert_row usage_entries set_usage_entries "usage_entries"
                  (fun a b => (ue_run_id a === ue_run_id b) &&
                              (ue_entry_key a === ue_entry_key b))
                  (fun d => has_id runs rn_id (fl_runId lease) d &&
                            opt_id agents ag_id agentId d)
                  {| ue_run_id := fl_runId lease; ue_entry_key := key; ue_agent_id := agentId;
                     ue_delta := delta; ue_lease_generation := Some (fl_generation lease);
                     ue_created_at := now |};
            recordUsageInternal (fl_runId lease) delta now
        end
    end).

(** Source: packages/control-plane/src/store.ts:2275-2295 [usageByAgent]. *)
Definition usageByAgent (runId : string) : M (list (option string * BudgetUsage)) :=
  rows ← query (fun d => sort_by (key_le ue_created_at)
    (List.filter (fun e => ue_run_id e === runId) (usage_entries d)));
  totals ← lift (foldl (fun (acc : exc (jsmap string BudgetUsage)) row =>
    totals ← acc;
    let agentId := ue_agent_id row ?? "" in
    usage ← addBudgetUsage (jm_get totals agentId ?? EMPTY_BUDGET_USAGE) (ue_delta row);
    mret (jm_set totals agentId usage)) (mret []) rows);
  mret (map (fun '(agentId, usage) =>
    (if agentId === "" then None else Some agentId, usage)) totals).

(** ** Tool calls *)

(** The part of [recordToolIntent] behind the budget check.
    Source: packages/control-plane/src/store.ts:2315-2363 [recordToolIntent, authorized]. *)
Definition start_tool_call (id : string) (input : ToolIntentInput) (now : Z) : M unit :=
  let lease := ti_lease input in
  _ ← match ti_approvalId input with
      | None => mret tt
      | Some approvalId =>
          approval ← mustApproval approvalId;
          _ ← guard_throw ((ap_run_id approval !== fl_runId lease) ||
                           (ap_status approval !== aps_approved))
                (Error ("Approval '" +:+ approvalId +:+
                        "' is not an approved authorization for this Run."));
          _ ← update_rows approvals set_approvals
                (fun a => (ap_id a === approvalId) && (ap_status a === aps_approved))
                (fun a => set_ap_status aps_consumed (set_ap_updated_at now a));
          _ ← appendEventInternal (fl_runId lease) evt_approval_resolved
                (jobj [("approvalId", jstr approvalId); ("status", jstr "consumed");
                       ("reason", jstr "tool_call_authorized")]) now
                (Some (fl_generation lease));
          mret tt
      end;
  _ ← insert_row tool_calls set_tool_calls "tool_calls" (fun a b => tl_id a === tl_id b)
        (fun d => has_id runs rn_id (fl_runId lease) d &&
                  opt_id agents ag_id (ti_agentId input) d &&
                  opt_id tasks tk_id (ti_taskId input) d)
        {| tl_id := id; tl_run_id := fl_runId lease; tl_agent_id := ti_agentId input;
           tl_task_id := ti_taskId input; tl_name := ti_name input;
           tl_side_effect_class := ti_sideEffectClass input;
           tl_idempotency := ti_idempotency input; tl_recovery := ti_recovery input;
           tl_status := tc_running; tl_input := ti_input input; tl_output := None;
           tl_error := None; tl_lease_generation := fl_generation lease;
           tl_started_at := now; tl_completed_at := None |};
  _ ← appendEventInternal (fl_runId lease) evt_tool_call_started
        (jobj [("name", jstr (ti_name input)); ("toolCallId", jstr id)]) now
        (Some (fl_generation lease));
  mret tt.

(** Source: packages/control-plane/src/store.ts:2297-2371 [recordToolIntent]. *)
Definition recordToolIntent (input : ToolIntentInput) : M string :=
  now ← timestamp;
  uuid ← randomUUID;
  let lease := ti_lease input in
  id ← newId "tool-call" (fl_runId lease +:+ ":" +:+ uuid);
  budgetExhausted ← transaction (
    _ ← assertLeaseInternal lease now;
    budgeted ← recordUsageInternal (fl_runId lease) one_tool_call now;
    if (run_status budgeted === run_budget_limited) || (run_status budgeted === run_usage_limited)
    then mret true
    else _ ← start_tool_call id input now; mret false);
  _ ← guard_throw budgetExhausted
        (Error ("Run '" +:+ fl_runId lease +:+
          "' cannot begin another tool call because its budget is exhausted."));
  mret id.

(** Source: packages/control-plane/src/store.ts:2373-2406 [completeToolCall]. *)
Definition completeToolCall (error : option JsonValue) (lease : FencedLease)
  (output : option JsonValue) (toolCallId : string) : M unit :=
  now ← timestamp;
  transaction (
    _ ← assertLeaseInternal lease now;
    _ ← update_rows tool_calls set_tool_calls
          (fun c => (tl_id c === toolCallId) && (tl_run_id c === fl_runId lease) &&
                    (tl_lease_generation c =? fl_generation lease))
          (fun c => set_tl_status (match error with None => tc_succeeded | _ => tc_failed end)
            (set_tl_output output (set_tl_error error (set_tl_completed_at (Some now) c))));
    _ ← appendEventInternal (fl_runId lease) evt_tool_call_finished
          (jobj ([("toolCallId", jstr toolCallId);
                  ("success", jbool (match error with None => true | _ => false end))] ++
                 match output with None => [] | Some o => [("output", o)] end ++
                 match error with None => [] | Some e => [("error", e)] end)) now
          (Some (fl_generation lease));
    mret tt).

Definition unknown_call (row : ToolCallRow) : UnknownToolCall :=
  {| ut_id := tl_id row; ut_name := tl_name row; ut_runId := tl_run_id row;
     ut_recovery := tl_recovery row; ut_sideEffectClass := tl_side_effect_class row;
     ut_idempotency := tl_idempotency row |}.

(** Marks the calls unknown and journals them.
    Source: packages/control-plane/src/store.ts:2503-2518 [recoverClaimedWork, mark]. *)
Definition mark_unknown (runId : string) (rows : list ToolCallRow) (now : Z)
  (generation : option Z) : M (list UnknownToolCall) :=
  let calls := map unknown_call rows in
  _ ← iterate (fun call =>
        update_rows tool_calls set_tool_calls (fun c => tl_id c === ut_id call)
          (fun c => set_tl_status tc_unknown_after_crash
            (set_tl_completed_at (Some now) c))) calls;
  _ ← when (negb (bool_decide (calls = [])))
        (_ ← appendEventInternal runId evt_recovery_required
               (jobj [("unknownToolCallIds", jarr (map (fun c => jstr (ut_id c)) calls))]) now
               generation;
         mret tt);
  mret calls.

(** Source: packages/control-plane/src/store.ts:2408-2454 [reconcileInterruptedToolCalls]. *)
Definition reconcileInterruptedToolCalls (runId : string) : M (list UnknownToolCall) :=
  now ← timestamp;
  transaction (
    rows ← select_rows tool_calls
      (fun c => (tl_run_id c === runId) && (tl_status c === tc_running));
    mark_unknown runId rows now None).

(** Source: packages/control-plane/src/store.ts:2461-2520 [recoverClaimedWork]. *)
Definition recoverClaimedWork (lease : FencedLease) : M (list UnknownToolCall) :=
  now ← timestamp;
  transaction (
    _ ← assertLeaseInternal lease now;
    _ ← update_rows scheduled_actions set_scheduled_actions
          (fun a => (sa_run_id a === fl_runId lease) && (sa_status a === sas_claimed) &&
             match sa_claimed_epoch a with None => true | Some e => e <? fl_generation lease end)
          (fun a => set_sa_status sas_pending
            (set_sa_claimed_by None (set_sa_claimed_epoch None (set_sa_updated_at now a))));
    rows ← select_rows tool_calls
      (fun c => (tl_run_id c === fl_runId lease) && (tl_status c === tc_running) &&
                (tl_lease_generation c <? fl_generation lease));
    mark_unknown (fl_runId lease) rows now (Some (fl_generation lease))).

(** ** Checkpoints *)

(** Source: packages/control-plane/src/store.ts:332-351 [listCheckpoints]. *)
Definition listCheckpoints (runId : string) : M (list CheckpointRow) :=
  query (fun d => sort_by (key_le cp_sequence)
    (List.filter (fun c => cp_run_id c === runId) (checkpoints d))).

(** Source: packages/control-plane/src/store.ts:353-360 [getCheckpoint]. *)
Definition getCheckpoint (runId checkpointId : string) : M (option CheckpointRow) :=
  rows ← listCheckpoints runId;
  mret (find (fun c => cp_id c === checkpointId) rows).

(** Source: packages/control-plane/src/store.ts:2522-2562 [createCheckpoint]. *)
Definition createCheckpoint (label : string) (lease : FencedLease) (manifest : JsonValue)
  (reason runId : string) (workspaceRef : option string) : M (string * Z) :=
  now ← timestamp;
  transaction (
    _ ← assertRunLeaseInternal (Some lease) runId now;
    count ← query (fun d =>
      Z.of_nat (length (List.filter (fun c => cp_run_id c === runId) (checkpoints d))));
    let sequence := count + 1 in
    uuid ← randomUUID;
    id ← newId "checkpoint" (runId +:+ ":" +:+ decimal sequence +:+ ":" +:+ uuid);
    _ ← insert_row checkpoints set_checkpoints "checkpoints"
          (fun a b => (cp_id a === cp_id b) ||
             (cp_run_id a === cp_run_id b) && (cp_sequence a =? cp_sequence b))
          (has_id runs rn_id runId)
          {| cp_id := id; cp_run_id := runId; cp_sequence := sequence; cp_label := label;
             cp_reason := reason; cp_workspace_ref := workspaceRef; cp_manifest := manifest;
             cp_created_at := now |};
    _ ← appendEventInternal runId evt_checkpoint_created
          (jobj [("checkpointId", jstr id); ("sequence", jnum (ofZ sequence))]) now None;
    mret (id, sequence)).

(** Source: packages/control-plane/src/store.ts:2572-2597 [recordCheckpointRestore]. *)
Definition recordCheckpointRestore (checkpointId preRestoreRef restoredRef runId : string)
  : M EventRow :=
  now ← timestamp;
  transaction (
    run ← mustRun runId;
    _ ← guard_throw (run_status run !== run_paused)
          (Error ("Run '" +:+ runId +:+
            "' must be paused to restore a checkpoint (current status: '" +:+
            RunStatus_str (run_status run) +:+ "')."));
    appendEventInternal runId evt_checkpoint_restored
      (jobj [("checkpointId", jstr checkpointId); ("preRestoreRef", jstr preRestoreRef);
             ("restoredRef", jstr restoredRef)]) now None).

(** ** Wake conditions and the continuation queue *)

(** [wakeAt] is a date: an instant, or the invalid date, which has no ISO form.
    Source: packages/control-plane/src/store.ts:2599-2629 [scheduleWake]. *)
Definition scheduleWake (lease : option FencedLease) (runId : string) (wakeAt : option Z)
  : M string :=
  now ← timestamp;
  uuid ← randomUUID;
  let id := "wake_" +:+ uuid in
  _ ← transaction (
    _ ← check_lease lease runId "Wake lease belongs to another Run." now;
    wakeAt ← match wakeAt with
             | None => throw (RangeError "Invalid time value")
             | Some instant => mret instant
             end;
    _ ← insert_row wake_conditions set_wake_conditions "wake_conditions"
          (fun a b => wk_id a === wk_id b) (has_id runs rn_id runId)
          {| wk_id := id; wk_run_id := runId; wk_kind := "timer"; wk_wake_at := Some wakeAt;
             wk_status := wks_pending; wk_created_at := now; wk_updated_at := now |};
    run ← mustRun runId;
    when (run_status run === run_running)
      (transitionRunInternal (run_id run) run_waiting_external now None));
  mret id.

(** Source: packages/control-plane/src/store.ts:2631-2654 [wakeDueRuns]. *)
Definition wakeDueRuns : M (list string) :=
  now ← timestamp;
  transaction (
    conditions ← select_rows wake_conditions (fun w =>
      (wk_status w === wks_pending) &&
      match wk_wake_at w with None => false | Some at_ => at_ <=? now end);
    _ ← iterate (fun condition =>
          _ ← update_rows wake_conditions set_wake_conditions
                (fun w => wk_id w === wk_id condition)
                (fun w => set_wk_status wks_woken (set_wk_updated_at now w));
          run ← mustRun (wk_run_id condition);
          _ ← when (run_status run === run_waiting_external)
                (transitionRunInternal (wk_run_id condition) run_running now None);
          ensureContinuationInternal (wk_run_id condition) now) conditions;
    mret (map wk_run_id conditions)).

(** Source: packages/control-plane/src/store.ts:2656-2697 [claimContinuation]. *)
Definition claimContinuation (lease : FencedLease) : M (option ScheduledAction) :=
  now ← timestamp;
  transaction (
    _ ← assertLeaseInternal lease now;
    action ← select_row scheduled_actions (fun a =>
      (sa_run_id a === fl_runId lease) && (sa_status a === sas_pending) &&
      (sa_due_at a <=? now));
    match action with
    | None => mret None
    | Some action =>
        run ← mustRun (fl_runId lease);
        goal ← match run_currentGoalId run with
               | None => mret None
               | Some goalId => getGoal goalId
               end;
        match goal with
        | None => mret None
        | Some goal =>
            if (run_status run !== run_running) || negb (shouldContinueGoal (gl_status goal))
            then mret None
            else
              _ ← update_rows scheduled_actions set_scheduled_actions
                    (fun a => (sa_run_id a === fl_runId lease) && (sa_status a === sas_pending))
                    (fun a => set_sa_status sas_claimed
                      (set_sa_claimed_by (Some (fl_executorId lease))
                        (set_sa_claimed_epoch (Some (fl_generation lease))
                          (set_sa_attempt (sa_attempt a + 1) (set_sa_updated_at now a)))));
              _ ← update_rows goals set_goals (fun g => gl_id g === gl_id goal)
                    (fun g => set_gl_continuation_count (gl_continuation_count g + 1)
                      (set_gl_updated_at now g));
              mret (Some {| act_actionType := "continue_goal";
                            act_attempt := sa_attempt action + 1;
                            act_runId := fl_runId lease |})
        end
    end).

(** Source: packages/control-plane/src/store.ts:2699-2715 [settleContinuation]. *)
Definition settleContinuation (lease : FencedLease) (requeue : bool) : M unit :=
  now ← timestamp;
  transaction (
    _ ← assertLeaseInternal lease now;
    _ ← delete_rows scheduled_actions set_scheduled_actions (fun a =>
          (sa_run_id a === fl_runId lease) && (sa_status a === sas_claimed) &&
          (sa_claimed_by a === Some (fl_executorId lease)) &&
          (sa_claimed_epoch a === Some (fl_generation lease)));
    when requeue (ensureContinuationInternal (fl_runId lease) now)).
End Effects.
