(* ===== verification/StoreCommands.v ===== *)
(** Every state-changing method of the store as one command, the relation a
    command defines on stores, and the properties all commands share. *)

From Stdlib Require Import ZArith Lia.
From stdpp Require Import base strings list relations.
From S2P Require Import Prelude JsNumber JsString JsCollections Protocol Json Ids StateMachine.
From S2P Require Import Policies Budget StoreData StoreMonad StoreCore StoreRuns StoreTasks.
From S2P Require Import StoreEffects.

Open Scope string_scope.
Open Scope list_scope.
#[local] Open Scope Z_scope.

Inductive command : Type :=
| c_createRun (input : CreateRunInput)
| c_addRequirement (id : option string) (lease : option FencedLease) (required : option bool)
    (runId title : string)
| c_addEvidence (artifactIds : list string) (kind : EvidenceKind) (lease : option FencedLease)
    (requirementId runId : string) (strength : EvidenceStrength) (summary : string)
    (taskId : option string)
| c_setRequirementStatus (runId requirementId : string) (status : RequirementStatus)
    (lease : option FencedLease)
| c_recordValidation (independent : option bool) (lease : option FencedLease) (name : string)
    (passed : bool) (runId summary : string) (taskId : option string)
| c_transitionRun (expectedRevision : option Z) (lease : option FencedLease)
    (reason : option string) (runId : string) (to : RunStatus)
| c_setGoalStatus (expectedGoalVersion : string) (lease : option FencedLease) (goalId : string)
    (to : GoalStatus)
| c_pause (runId : string) (expectedRevision : option Z)
| c_resume (runId : string) (expectedRevision : option Z)
| c_cancel (runId : string) (expectedRevision : option Z)
| c_executeCommand (cmd : DurableRunCommand) (commandId : string) (reason : option string)
    (runId : string)
| c_recordSteeringInput (runId : string) (targetAgentId targetGoalId : option string)
    (text : string)
| c_proposeCompletion (accepted : bool) (independentlyVerified : option bool)
    (lease : option FencedLease) (reasons : list string) (runId : string)
| c_acquireLease (executorId : string) (host : option string) (processId : option Z)
    (runId : string) (ttlMs : Z)
| c_renewLease (lease : FencedLease) (ttlMs : Z)
| c_appendFencedEvent (lease : FencedLease) (payload : JsonValue) (type : RunEventType)
| c_requestApproval (agentId : option string) (lease : option FencedLease)
    (runId summary : string) (toolCallId : option string)
| c_resolveApproval (approvalId resolverId : string) (status : ApprovalStatus)
| c_claimTask (agentId : string) (lease : FencedLease) (taskId : string)
| c_addTaskEvidence (evidenceId : string) (lease : FencedLease) (taskId : string)
| c_recoverGraphWork (lease : FencedLease)
| c_markAgentActive (agentId : string) (lease : FencedLease)
| c_sendAgentMessage (input : SendAgentMessageInput)
| c_receiveAgentMessages (agentId : string) (lease : FencedLease) (limit : option Z)
| c_createTask (input : CreateTaskInput)
| c_transitionTask (input : TransitionTaskInput)
| c_spawnAgent (input : SpawnAgentInput)
| c_transitionAgent (agentId : string) (lease : option FencedLease) (to : AgentStatus)
| c_setAgentWorktree (agentId : string) (lease : FencedLease) (worktreeUri : string)
| c_startSessionEpoch (agentId : string) (lease : option FencedLease) (model provider : string)
| c_endSessionEpoch (id : string) (lease : option FencedLease) (reason : EndReason)
| c_recordProblem (input : RecordProblemInput)
| c_createMilestone (lease : FencedLease) (runId : string) (status : option MilestoneStatus)
    (taskIds : list string) (title : string)
| c_recordDecision (alternatives : list string) (lease : FencedLease)
    (evidenceIds : list string) (rationale runId title : string)
| c_addArtifact (checksum : option string) (label : string) (lease : FencedLease)
    (mediaType : option string) (runId : string) (sizeBytes : option num) (uri : string)
| c_recordGitChange (lease : FencedLease) (repositoryUri revision runId summary : string)
    (taskIds : list string)
| c_recordCost (agentId : option string)
    (cachedTokens costUsd inputTokens outputTokens : option num) (lease : option FencedLease)
    (runId : string) (sessionEpochId entryKey : option string)
| c_setRecoveryState (lastCheckpointId : option string) (lease : FencedLease)
    (reason : option string) (runId : string) (status : RecoveryStatus)
    (unknownToolCallIds : list string)
| c_createContextSnapshot (agentId checkpointId : option string) (lease : option FencedLease)
    (runId : string) (sessionEpochId : option string) (summary : string) (tokenCount : num)
| c_addMemoryEntry (agentId : option string) (lease : option FencedLease) (confidence : num)
    (content runId : string) (scope : MemoryScope) (sourceEvidenceIds : list string)
| c_acquireResourceLocks (executorId : string) (lease : option FencedLease) (runId : string)
    (scopes : list ResourceScope) (taskId : option string) (ttlMs : Z)
| c_releaseResourceLocks (executorId runId : string) (leaseGeneration : Z)
| c_recordUsage (runId : string) (delta : BudgetDelta)
| c_recordUsageFenced (lease : FencedLease) (delta : BudgetDelta)
    (entry : option (option string * string))
| c_recordToolIntent (input : ToolIntentInput)
| c_completeToolCall (error : option JsonValue) (lease : FencedLease)
    (output : option JsonValue) (toolCallId : string)
| c_reconcileInterruptedToolCalls (runId : string)
| c_recoverClaimedWork (lease : FencedLease)
| c_createCheckpoint (label : string) (lease : FencedLease) (manifest : JsonValue)
    (reason runId : string) (workspaceRef : option string)
| c_recordCheckpointRestore (checkpointId preRestoreRef restoredRef runId : string)
| c_scheduleWake (lease : option FencedLease) (runId : string) (wakeAt : option Z)
| c_wakeDueRuns
| c_claimContinuation (lease : FencedLease)
| c_settleContinuation (lease : FencedLease) (requeue : bool).

(** What the parameter types of the methods rule out: [transitionRun] cannot be
    asked for ["completed"], and [resolveApproval] only for a resolution.
    Source: packages/control-plane/src/store.ts:1142-1142 [transitionRun.to]. *)
Definition typed (c : command) : bool :=
  match c with
  | c_transitionRun _ _ _ _ to => to !== run_completed
  | c_resolveApproval _ _ status =>
      existsb (fun x => x === status) [aps_approved; aps_rejected; aps_expired]
  | _ => true
  end.

Section Commands.
Context `{Env}.

Definition void {A} (m : M A) : M unit := _ ← m; mret tt.

Definition run_command (c : command) : M unit :=
  match c with
  | c_createRun i => void (createRun i)
  | c_addRequirement a b c d e => void (addRequirement a b c d e)
  | c_addEvidence a b c d e f g h => void (addEvidence a b c d e f g h)
  | c_setRequirementStatus a b c d => setRequirementStatus a b c d
  | c_recordValidation a b c d e f g => void (recordValidation a b c d e f g)
  | c_transitionRun a b c d e => void (transitionRun a b c d e)
  | c_setGoalStatus a b c d => void (setGoalStatus a b c d)
  | c_pause a b => void (pause a b)
  | c_resume a b => void (resume a b)
  | c_cancel a b => void (cancel a b)
  | c_executeCommand a b c d => void (executeCommand a b c d)
  | c_recordSteeringInput a b c d => void (recordSteeringInput a b c d)
  | c_proposeCompletion a b c d e => void (proposeCompletion a b c d e)
  | c_acquireLease a b c d e => void (acquireLease a b c d e)
  | c_renewLease a b => void (renewLease a b)
  | c_appendFencedEvent a b c => void (appendFencedEvent a b c)
  | c_requestApproval a b c d e => void (requestApproval a b c d e)
  | c_resolveApproval a b c => void (resolveApproval a b c)
  | c_claimTask a b c => void (claimTask a b c)
  | c_addTaskEvidence a b c => addTaskEvidence a b c
  | c_recoverGraphWork a => void (recoverGraphWork a)
  | c_markAgentActive a b => markAgentActive a b
  | c_sendAgentMessage a => void (sendAgentMessage a)
  | c_receiveAgentMessages a b c => void (receiveAgentMessages a b c)
  | c_createTask a => void (createTask a)
  | c_transitionTask a => void (transitionTask a)
  | c_spawnAgent a => void (spawnAgent a)
  | c_transitionAgent a b c => void (transitionAgent a b c)
  | c_setAgentWorktree a b c => void (setAgentWorktree a b c)
  | c_startSessionEpoch a b c d => void (startSessionEpoch a b c d)
  | c_endSessionEpoch a b c => void (endSessionEpoch a b c)
  | c_recordProblem a => void (recordProblem a)
  | c_createMilestone a b c d e => void (createMilestone a b c d e)
  | c_recordDecision a b c d e f => void (recordDecision a b c d e f)
  | c_addArtifact a b c d e f g => void (addArtifact a b c d e f g)
  | c_recordGitChange a b c d e f => void (recordGitChange a b c d e f)
  | c_recordCost a b c d e f g h i => void (recordCost a b c d e f g h i)
  | c_setRecoveryState a b c d e f => void (setRecoveryState a b c d e f)
  | c_createContextSnapshot a b c d e f g => void (createContextSnapshot a b c d e f g)
  | c_addMemoryEntry a b c d e f g => void (addMemoryEntry a b c d e f g)
  | c_acquireResourceLocks a b c d e f => void (acquireResourceLocks a b c d e f)
  | c_releaseResourceLocks a b c => releaseResourceLocks a b c
  | c_recordUsage a b => void (recordUsage a b)
  | c_recordUsageFenced a b c => void (recordUsageFenced a b c)
  | c_recordToolIntent a => void (recordToolIntent a)
  | c_completeToolCall a b c d => completeToolCall a b c d
  | c_reconcileInterruptedToolCalls a => void (reconcileInterruptedToolCalls a)
  | c_recoverClaimedWork a => void (recoverClaimedWork a)
  | c_createCheckpoint a b c d e f => void (createCheckpoint a b c d e f)
  | c_recordCheckpointRestore a b c d => void (recordCheckpointRestore a b c d)
  | c_scheduleWake a b c => void (scheduleWake a b c)
  | c_wakeDueRuns => void wakeDueRuns
  | c_claimContinuation a => void (claimContinuation a)
  | c_settleContinuation a b => settleContinuation a b
  end.

(** One command, returning or throwing. *)
Definition store_step (s s' : Store) : Prop :=
  exists c, typed c = true /\ (run_command c s).1 = s'.

(** ** Reads keep every property *)

Lemma preserves_timestamp P : preserves P timestamp.
Proof. by intros s Hs. Qed.
Lemma preserves_randomUUID P : preserves P randomUUID.
Proof. by intros s Hs. Qed.
Lemma preserves_newId P k x : preserves P (newId k x).
Proof. apply preserves_lift. Qed.
Lemma preserves_must {A} P (o : option A) m : preserves P (must o m).
Proof. destruct o; [apply preserves_ret|apply preserves_throw]. Qed.
Lemma preserves_mustRun P r : preserves P (mustRun r).
Proof. unfold mustRun, getRun. frame fail. apply preserves_must. Qed.
Lemma preserves_getGoal P g : preserves P (getGoal g).
Proof. apply preserves_query. Qed.
Lemma preserves_mustGoal P g : preserves P (mustGoal g).
Proof. unfold mustGoal, getGoal. frame fail. apply preserves_must. Qed.
Lemma preserves_mustTask P t : preserves P (mustTask t).
Proof. unfold mustTask, getTask. frame fail. apply preserves_must. Qed.
Lemma preserves_mustAgent P a : preserves P (mustAgent a).
Proof. unfold mustAgent. frame fail. apply preserves_must. Qed.
Lemma preserves_mustLease P a : preserves P (mustLease a).
Proof. unfold mustLease. frame fail. apply preserves_must. Qed.
Lemma preserves_mustApproval P a : preserves P (mustApproval a).
Proof. unfold mustApproval. frame fail. apply preserves_must. Qed.
Lemma preserves_mustAgentMessage P a : preserves P (mustAgentMessage a).
Proof. unfold mustAgentMessage. frame fail. apply preserves_must. Qed.
Lemma preserves_mustCostRecord P a : preserves P (mustCostRecord a).
Proof. unfold mustCostRecord. frame fail. apply preserves_must. Qed.
Lemma preserves_assertLease P l now : preserves P (assertLeaseInternal l now).
Proof. unfold assertLeaseInternal. frame fail. Qed.
Lemma preserves_assertRunLease P l r now : preserves P (assertRunLeaseInternal l r now).
Proof. unfold assertRunLeaseInternal. frame ltac:(apply preserves_assertLease). Qed.
Lemma preserves_check_lease P l r m now : preserves P (check_lease l r m now).
Proof. unfold check_lease. frame ltac:(apply preserves_assertLease). Qed.
Lemma preserves_check_lease_then_run P l r m now :
  preserves P (check_lease_then_run l r m now).
Proof. unfold check_lease_then_run. frame ltac:(apply preserves_assertLease). Qed.
Lemma preserves_listRequirements P r : preserves P (listRequirements r).
Proof. apply preserves_query. Qed.
Lemma preserves_listValidations P r : preserves P (listValidations r).
Proof. apply preserves_query. Qed.

Lemma preserves_insert_locks P runId executorId taskId t e g i scopes :
  (forall row d, P d -> P (set_resource_locks (resource_locks d ++ [row]) d)) ->
  preserves P (insert_locks runId executorId taskId t e g i scopes).
Proof.
  intros Hp. revert i. induction scopes as [|scope scopes IH]; intros i; cbn [insert_locks].
  - apply preserves_ret.
  - apply preserves_bind; [apply preserves_newId|intros generated].
    apply preserves_bind; [|intros _].
    + apply preserves_insert. intros d Hd _ _. by apply Hp.
    + apply preserves_bind; [apply IH|intros ids]. apply preserves_ret.
Qed.
End Commands.

Ltac frame_read :=
  lazymatch goal with
  | |- preserves _ timestamp => apply preserves_timestamp
  | |- preserves _ randomUUID => apply preserves_randomUUID
  | |- preserves _ (newId _ _) => apply preserves_newId
  | |- preserves _ (must _ _) => apply preserves_must
  | |- preserves _ (mustRun _) => apply preserves_mustRun
  | |- preserves _ (getGoal _) => apply preserves_getGoal
  | |- preserves _ (mustGoal _) => apply preserves_mustGoal
  | |- preserves _ (mustTask _) => apply preserves_mustTask
  | |- preserves _ (mustAgent _) => apply preserves_mustAgent
  | |- preserves _ (mustLease _) => apply preserves_mustLease
  | |- preserves _ (mustApproval _) => apply preserves_mustApproval
  | |- preserves _ (mustAgentMessage _) => apply preserves_mustAgentMessage
  | |- preserves _ (mustCostRecord _) => apply preserves_mustCostRecord
  | |- preserves _ (assertLeaseInternal _ _) => apply preserves_assertLease
  | |- preserves _ (assertRunLeaseInternal _ _ _) => apply preserves_assertRunLease
  | |- preserves _ (check_lease _ _ _ _) => apply preserves_check_lease
  | |- preserves _ (check_lease_then_run _ _ _ _) => apply preserves_check_lease_then_run
  | |- preserves _ (listRequirements _) => apply preserves_listRequirements
  | |- preserves _ (listValidations _) => apply preserves_listValidations
  end.

(** The operations a command or another operation is made of. *)
Ltac frame_unfold :=
  lazymatch goal with
  | |- preserves _ (pause _ _) => unfold pause
  | |- preserves _ (resume _ _) => unfold resume
  | |- preserves _ (StoreRuns.cancel _ _) => unfold StoreRuns.cancel
  | |- preserves _ (transitionRun _ _ _ _ _) => unfold transitionRun
  | |- preserves _ (insert_requirement _) => unfold insert_requirement
  | |- preserves _ (insert_agent _) => unfold insert_agent
  | |- preserves _ (apply_command _ _ _) => unfold apply_command
  | |- preserves _ (start_tool_call _ _ _) => unfold start_tool_call
  | |- preserves _ (mark_unknown _ _ _ _) => unfold mark_unknown
  | |- preserves _ (appendEventInternal _ _ _ _ _) => unfold appendEventInternal
  | |- preserves _ (transitionRunInternal _ _ _ _) => unfold transitionRunInternal
  | |- preserves _ (transitionAgentInternal _ _ _ _) => unfold transitionAgentInternal
  | |- preserves _ (ensureContinuationInternal _ _) => unfold ensureContinuationInternal
  | |- preserves _ (refreshTaskReadinessInternal _ _) => unfold refreshTaskReadinessInternal
  | |- preserves _ (recordUsageInternal _ _ _) => unfold recordUsageInternal
  | |- preserves _ (blockRunForProblemInternal _ _ _) => unfold blockRunForProblemInternal
  | |- preserves _ (insert_locks _ _ _ _ _ _ _ _) =>
      apply preserves_insert_locks; intros ? ? ?; assumption
  end.

(** [forall c, preserves P (run_command c)], from the leaves. *)
Ltac unfold_command :=
  unfold run_command, void, createRun, addRequirement, addEvidence, setRequirementStatus,
    recordValidation, setGoalStatus, executeCommand, recordSteeringInput, proposeCompletion,
    acquireLease, renewLease, appendFencedEvent, requestApproval, resolveApproval, claimTask,
    addTaskEvidence, recoverGraphWork, markAgentActive, sendAgentMessage, receiveAgentMessages,
    createTask, transitionTask, spawnAgent, transitionAgent, setAgentWorktree,
    startSessionEpoch, endSessionEpoch, recordProblem, createMilestone, recordDecision,
    addArtifact, recordGitChange, recordCost, setRecoveryState, createContextSnapshot,
    addMemoryEntry, acquireResourceLocks, releaseResourceLocks, recordUsage,
    recordUsageFenced, recordToolIntent, completeToolCall, reconcileInterruptedToolCalls,
    recoverClaimedWork, createCheckpoint, recordCheckpointRestore, scheduleWake, wakeDueRuns,
    claimContinuation, settleContinuation.

Ltac frame_command leaf :=
  unfold_command; frame ltac:(first [leaf | frame_read | frame_unfold]).

(** * A concrete clock, identifier source and run, on which the properties of the store
are instantiated. *)

(** A clock that ticks once per reading, and numbered identifiers. *)
#[export] Instance demo_env : Env :=
  {| clock_at n := Z.of_nat n; uuid_at n := "u" +:+ decimal (Z.of_nat n); toISOString := decimal |}.

Definition empty_store : Store := {| db := empty_db; clock_reads := 0; uuid_reads := 0 |}.

Definition demo_input : CreateRunInput :=
  {| ci_budget := None; ci_initialGoal := None; ci_permissions := None;
     ci_prompt := "Fix the parser"; ci_sandbox := None;
     ci_requirements := [(Some "requirement_a", "Tests pass", None)];
     ci_title := None; ci_workspaceUri := "file:///work" |}.

(** The store after a list of commands. *)
Definition after_commands (cs : list command) (s : Store) : Store :=
  foldl (fun s c => (run_command c s).1) s cs.

Lemma after_commands_steps cs s :
  Forall (fun c => typed c = true) cs -> rtc store_step s (after_commands cs s).
Proof.
  revert s. induction cs as [|c cs IH]; intros s Ht; [apply rtc_refl|].
  apply Forall_cons in Ht as [Hc Ht]. eapply rtc_l; [|by apply IH]. by exists c.
Qed.

Definition demo_store : Store := after_commands [c_createRun demo_input] empty_store.
Definition demo_run : string := default "" (rn_id <$> head (runs (db demo_store))).
Definition demo_agent : string := default "" (ag_id <$> head (agents (db demo_store))).
Definition demo_lease (executor : string) (generation : Z) : FencedLease :=
  {| fl_runId := demo_run; fl_executorId := executor; fl_generation := generation |}.

(** A run is created, leased, and given a validated and proven requirement. *)
Definition demo_work : list command :=
  [ c_acquireLease "executor-1" None None demo_run 1000;
    c_addEvidence [] ek_test (Some (demo_lease "executor-1" 1)) "requirement_a" demo_run
      es_strong "suite is green" None;
    c_setRequirementStatus demo_run "requirement_a" rqs_proven None;
    c_recordValidation (Some true) None "review" true demo_run "looks right" None ].

Definition demo_ready : Store := after_commands demo_work demo_store.

Example demo_completes :
  rn_status <$> head (runs (db (run_command
    (c_proposeCompletion true (Some true) (Some (demo_lease "executor-1" 1)) [] demo_run)
    demo_ready).1)) = Some run_completed.
Proof. vm_compute. reflexivity. Qed.
