(* ===== verification/StoreSafety.v ===== *)
(** What holds of every store reached by commands: run lifecycles, the event
    journal, receipts, usage, approvals and leases. *)

From Stdlib Require Import ZArith Lia.
From stdpp Require Import base strings list relations.
From S2P Require Import Prelude JsNumber JsString JsCollections Protocol Json Ids StateMachine.
From S2P Require Import Policies Budget StoreData StoreMonad StoreCore StoreRuns StoreTasks.
From S2P Require Import StoreEffects StoreCommands.

Open Scope string_scope.
Open Scope list_scope.
#[local] Open Scope Z_scope.

(** ** Rows found by their key *)

Lemma find_map_update {R} (key : R -> string) (c : R -> bool) (f : R -> R) k l :
  (forall r, key (f r) = key r) ->
  find (fun r => key r === k) (map (fun r => if c r then f r else r) l) =
  option_map (fun r => if c r then f r else r) (find (fun r => key r === k) l).
Proof.
  intros Hk. induction l as [|r l IH]; [done|]. cbn [map find].
  assert (key (if c r then f r else r) = key r) as -> by (by destruct (c r)).
  by case_bool_decide.
Qed.

Lemma find_app_some {R} (p : R -> bool) l1 l2 r :
  find p l1 = Some r -> find p (l1 ++ l2) = Some r.
Proof. induction l1 as [|x l1 IH]; [done|]. cbn. by destruct (p x). Qed.

Lemma find_app_none {R} (p : R -> bool) l1 l2 :
  find p l1 = None -> find p (l1 ++ l2) = find p l2.
Proof. induction l1 as [|x l1 IH]; [done|]. cbn. by destruct (p x). Qed.

Definition run_row (runId : string) (d : Db) : option RunRow :=
  find (fun r => rn_id r === runId) (runs d).

Lemma run_row_id runId d row : run_row runId d = Some row -> rn_id row = runId.
Proof. intros H. apply find_some in H as [_ H]. by bool_hyps. Qed.

(** The run is there and has this value in one of its columns. *)
Definition run_field {A} (column : RunRow -> A) (runId : string) (value : A) (d : Db) : Prop :=
  exists row, run_row runId d = Some row /\ column row = value.

Lemma run_field_update {A} (column : RunRow -> A) runId value (c : RunRow -> bool)
    (f : RunRow -> RunRow) d :
  (forall r, rn_id (f r) = rn_id r) -> (forall r, column (f r) = column r) ->
  run_field column runId value d ->
  run_field column runId value (set_runs (map (fun r => if c r then f r else r) (runs d)) d).
Proof.
  intros Hid Hcol (row & Hrow & Hv). exists (if c row then f row else row).
  unfold run_row in *. cbn [runs set_runs]. rewrite find_map_update, Hrow by done.
  split; [done|]. destruct (c row); [by rewrite Hcol|done].
Qed.

(** An update of the run itself sets the column. *)
Lemma run_field_set {A} (column : RunRow -> A) runId value (f : RunRow -> RunRow) row d :
  (forall r, rn_id (f r) = rn_id r) -> (forall r, column (f r) = value) ->
  run_row runId d = Some row ->
  run_field column runId value
    (set_runs (map (fun r => if rn_id r === runId then f r else r) (runs d)) d).
Proof.
  intros Hid Hcol Hrow. pose proof (run_row_id _ _ _ Hrow) as Heq. exists (f row).
  unfold run_row in *. cbn [runs set_runs]. rewrite find_map_update, Hrow by done.
  cbn. by rewrite bool_decide_eq_true_2.
Qed.

Ltac run_field_leaf :=
  first
    [ frame_read
    | lazymatch goal with
      | |- preserves (run_field _ _ _) (update_rows runs _ _ _) =>
          apply preserves_update; intros ? ?; apply run_field_update; [done|done|assumption]
      end ].

Section Safety.
Context `{Env}.

Lemma mustRun_eq runId s :
  mustRun runId s =
  match run_row runId (db s) with
  | Some row => (s, Ok (runFromRow row))
  | None => (s, Throw (Error ("Run '" +:+ runId +:+ "' was not found.")))
  end.
Proof.
  unfold mustRun, getRun, query, must, mbind, M_bind, run_row.
  by destruct (find _ (runs (db s))).
Qed.

Lemma after_mustRun {B} P runId (f : Run -> M B) s :
  P (db s) -> (forall row, run_row runId (db s) = Some row -> after P (f (runFromRow row)) s) ->
  after P (mustRun runId ≫= f) s.
Proof.
  intros Hs Hf. unfold after, mbind, M_bind. rewrite mustRun_eq.
  destruct (run_row runId (db s)); [by apply Hf|done].
Qed.

(** ** Run lifecycles *)

(** Moves between run statuses along the table. *)
Definition run_moves : RunStatus -> RunStatus -> Prop :=
  rtc (fun a b => canTransitionRun a b = true).

Section Lifecycle.
Context (runId : string) (start : RunStatus).

(** The run is there and has moved from [start] along the table. *)
Definition moved (d : Db) : Prop :=
  exists row, run_row runId d = Some row /\ run_moves start (rn_status row).

Lemma moved_update (c : RunRow -> bool) (f : RunRow -> RunRow) d :
  (forall r, rn_id (f r) = rn_id r) -> (forall r, rn_status (f r) = rn_status r) ->
  moved d -> moved (set_runs (map (fun r => if c r then f r else r) (runs d)) d).
Proof.
  intros Hid Hst (row & Hrow & Hm). exists (if c row then f row else row). split.
  - unfold run_row. cbn [runs set_runs]. rewrite find_map_update by done.
    unfold run_row in Hrow. by rewrite Hrow.
  - destruct (c row); [by rewrite Hst|done].
Qed.

Lemma moved_insert row d : moved d -> moved (set_runs (runs d ++ [row]) d).
Proof.
  intros (r & Hr & Hm). exists r. split; [|done]. by apply find_app_some.
Qed.

Ltac moved_leaf :=
  first
    [ frame_read
    | lazymatch goal with
      | |- preserves moved (update_rows runs _ _ _) =>
          apply preserves_update; intros ? ?;
          apply moved_update; [done|done|assumption]
      | |- preserves moved (insert_row runs _ _ _ _ _) =>
          apply preserves_insert; intros ? ? _ _; by apply moved_insert
      end ].

Lemma moved_append r t p now g : preserves moved (appendEventInternal r t p now g).
Proof. unfold appendEventInternal. frame moved_leaf. Qed.

Lemma moved_transition r to now reason :
  preserves moved (transitionRunInternal r to now reason).
Proof.
  intros s Hs. change (after moved (transitionRunInternal r to now reason) s).
  unfold transitionRunInternal. apply after_mustRun; [done|]. intros target Ht.
  apply after_lift; [done|]. intros u Ha%assertTransition_ok.
  apply after_execute, after_preserves; [frame ltac:(apply moved_append)|].
  destruct Hs as (row & Hrow & Hm). eexists. split.
  - unfold run_row. cbn [db set_db runs set_runs]. rewrite find_map_update by done.
    unfold run_row in Hrow. by rewrite Hrow.
  - cbn [runFromRow run_id run_status] in *. case_bool_decide as Heq; [|done].
    cbn. rewrite (run_row_id _ _ _ Ht) in Heq.
    rewrite (run_row_id _ _ _ Hrow) in Heq. subst r.
    rewrite Hrow in Ht. injection Ht as <-. by eapply rtc_r.
Qed.

Lemma moved_command c : preserves moved (run_command c).
Proof.
  destruct c; frame_command ltac:(first
    [ lazymatch goal with
      | |- preserves _ (appendEventInternal _ _ _ _ _) => apply moved_append
      | |- preserves _ (transitionRunInternal _ _ _ _) => apply moved_transition
      end
    | moved_leaf ]).
Qed.
End Lifecycle.

Lemma run_field_append {A} (column : RunRow -> A) runId value r t p now g :
  (forall n now row, column (set_rn_next_sequence n
     (set_rn_revision (rn_revision row + 1) (set_rn_updated_at now row))) = column row) ->
  preserves (run_field column runId value) (appendEventInternal r t p now g).
Proof.
  intros Hcol. unfold appendEventInternal. frame ltac:(first
    [ frame_read
    | lazymatch goal with
      | |- preserves (run_field _ _ _) (update_rows runs _ _ _) =>
          apply preserves_update; intros ? ?; by apply run_field_update
      end ]).
Qed.

(** What every command preserves holds of every store reached. *)
Lemma steps_preserve (P : Db -> Prop) s s' :
  (forall c, typed c = true -> preserves P (run_command c)) ->
  rtc store_step s s' -> P (db s) -> P (db s').
Proof.
  intros Hc. induction 1 as [|s s1 s' (c & Ht & <-) _ IH]; [done|].
  intros Hs. by apply IH, Hc.
Qed.

(** C3: along any sequence of store commands a run is never lost and its
    status only moves along the core's transition table; in particular a
    cancelled, failed or completed run keeps its status for ever. *)
Theorem store_respects_run_lifecycle runId s s' row :
  rtc store_step s s' -> run_row runId (db s) = Some row ->
  exists row', run_row runId (db s') = Some row' /\
    rtc (lifecycle_step RUN_TRANSITIONS) (rn_status row) (rn_status row') /\
    (isTerminalRunStatus (rn_status row) = true -> rn_status row' = rn_status row).
Proof.
  intros Hsteps Hrow.
  assert (moved runId (rn_status row) (db s')) as (row' & Hrow' & Hm).
  { apply (steps_preserve _ s); [intros; apply moved_command|done|].
    exists row. split; [done|]. apply rtc_refl. }
  exists row'. split; [done|]. split; [exact Hm|]. intros Ht.
  destruct Hm as [|a b c Hab _]; [done|]. by rewrite terminal_run_stuck in Hab.
Qed.
End Safety.

Lemma store_respects_run_lifecycle_witness :
  exists row', run_row demo_run (db (after_commands demo_work demo_store)) = Some row' /\
    rtc (lifecycle_step RUN_TRANSITIONS) run_running (rn_status row').
Proof.
  destruct (run_row demo_run (db demo_store)) as [row|] eqn:Hrow;
    [|vm_compute in Hrow; discriminate Hrow].
  destruct (store_respects_run_lifecycle demo_run demo_store
    (after_commands demo_work demo_store) row) as (row' & H1 & H2 & _).
  - apply after_commands_steps. repeat constructor.
  - exact Hrow.
  - exists row'. split; [exact H1|].
    assert (run_running = rn_status row) as ->; [|exact H2].
    vm_compute in Hrow. injection Hrow as <-. reflexivity.
Defined.
