(* ===== verification/StoreCompletion.v ===== *)
(** Completion: the only way to [completed] is an accepted proposal that passes
    the control plane's own gate over requirements, evidence and validations. *)

From Stdlib Require Import ZArith Lia.
From stdpp Require Import base strings list relations.
From S2P Require Import Prelude JsNumber JsString JsCollections Protocol Json Ids StateMachine.
From S2P Require Import Policies Budget StoreData StoreMonad StoreCore StoreRuns StoreTasks.
From S2P Require Import StoreEffects StoreCommands StoreSafety.

Open Scope string_scope.
Open Scope list_scope.
#[local] Open Scope Z_scope.

(** Every required requirement is waived, or proven with strong evidence; no
    recorded validation failed; one that passed was independent. *)
Definition completion_gate (runId : string) (d : Db) : Prop :=
  (forall r, r ∈ requirements d -> rq_run_id r = runId -> rq_required r = true ->
     rq_status r <> rqs_waived ->
     rq_status r = rqs_proven /\
     exists e, e ∈ evidence d /\ ed_requirement_id e = rq_id r /\ ed_strength e = es_strong) /\
  (forall v, v ∈ validations d -> vd_run_id v = runId -> vd_status v = vs_passed) /\
  (exists v, v ∈ validations d /\ vd_run_id v = runId /\ vd_status v = vs_passed /\
     vd_independent v = true).

Lemma control_plane_reasons_nil records checks independentlyVerified :
  control_plane_reasons records checks independentlyVerified = [] <->
  (forall r, r ∈ records -> unproven_requirement r = false) /\
  (forall v, v ∈ checks -> vd_status v = vs_passed) /\
  (exists v, v ∈ checks /\ vd_status v = vs_passed /\ vd_independent v = true) /\
  independentlyVerified = true.
Proof.
  unfold control_plane_reasons. split.
  - intros H. repeat apply app_eq_nil in H as [? H].
    repeat case_match; try discriminate; bool_hyps.
    match goal with E : existsb _ _ = true |- _ => apply existsb_elem in E as (v & Hv & E) end.
    bool_hyps. split; [by apply filter_nil_iff|]. split; [|by split; [exists v|]].
    intros w Hw. match goal with E : List.filter _ checks = [] |- _ =>
      rewrite filter_nil_iff in E; specialize (E w Hw) end. by bool_hyps.
  - intros (H1 & H2 & (v & Hv & Hp & Hi) & ->).
    assert (List.filter unproven_requirement records = []) as -> by (by apply filter_nil_iff).
    assert (List.filter (fun v => vd_status v !== vs_passed) checks = []) as ->.
    { apply filter_nil_iff. intros w Hw. rewrite H2 by done. done. }
    assert (existsb (fun v => (vd_status v === vs_passed) && vd_independent v) checks = true)
      as ->; [|done].
    apply existsb_elem. exists v. split; [done|]. by rewrite Hp, Hi.
Qed.

(** What [listRequirements] and [listValidations] read. *)
Definition requirement_records (runId : string) (d : Db) : list RequirementRecord :=
  map (fun row =>
        {| req_row := row;
           req_evidence := sort_by (key_le ed_created_at)
             (List.filter (fun e => ed_requirement_id e === rq_id row) (evidence d)) |})
      (sort_by (fun a b => string_le (rq_id a) (rq_id b))
         (List.filter (fun r => rq_run_id r === runId) (requirements d))).

Definition run_validations (runId : string) (d : Db) : list ValidationRow :=
  sort_by (created_then_id vd_created_at vd_id)
    (List.filter (fun v => vd_run_id v === runId) (validations d)).

Lemma requirement_records_elem runId d r :
  r ∈ requirement_records runId d <->
  exists row, row ∈ requirements d /\ rq_run_id row = runId /\
    r = {| req_row := row;
           req_evidence := sort_by (key_le ed_created_at)
             (List.filter (fun e => ed_requirement_id e === rq_id row) (evidence d)) |}.
Proof.
  unfold requirement_records. rewrite list_elem_of_fmap. split.
  - intros (row & -> & Hrow). exists row. rewrite sort_by_elem, elem_of_list_filter in Hrow.
    destruct Hrow as [? Hr]. by bool_hyps.
  - intros (row & Hin & Hr & ->). exists row. split; [done|].
    rewrite sort_by_elem, elem_of_list_filter. by rewrite bool_decide_eq_true.
Qed.

Lemma run_validations_elem runId d v :
  v ∈ run_validations runId d <-> v ∈ validations d /\ vd_run_id v = runId.
Proof.
  unfold run_validations. by rewrite sort_by_elem, elem_of_list_filter, bool_decide_eq_true.
Qed.

Lemma unproven_row row evidence :
  unproven_requirement
    {| req_row := row;
       req_evidence := sort_by (key_le ed_created_at)
         (List.filter (fun e => ed_requirement_id e === rq_id row) evidence) |} = false <->
  (rq_required row = true -> rq_status row <> rqs_waived -> rq_status row = rqs_proven /\
     exists e, e ∈ evidence /\ ed_requirement_id e = rq_id row /\ ed_strength e = es_strong).
Proof.
  unfold unproven_requirement, has_strong. cbn [req_row req_evidence].
  rewrite !andb_false_iff, orb_false_iff, !negb_false_iff, existsb_elem.
  rewrite !bool_decide_eq_true. setoid_rewrite sort_by_elem.
  setoid_rewrite elem_of_list_filter. setoid_rewrite bool_decide_eq_true.
  split.
  - intros [[Hr|Hw]|(Hp & e & (He & Hid) & Hs)] Hreq Hnw; [congruence|congruence|].
    split; [done|]. by exists e.
  - intros H. destruct (rq_required row); [|by left; left].
    destruct (decide (rq_status row = rqs_waived)); [by left; right|]. right.
    destruct H as (Hp & e & He & Hid & Hs); [done|done|]. split; [done|]. by exists e.
Qed.

(** The reasons are empty exactly when the gate holds and the proposal says it
    was independently verified. *)
Lemma completion_gate_iff runId d independentlyVerified :
  control_plane_reasons (requirement_records runId d) (run_validations runId d)
    independentlyVerified = [] <->
  completion_gate runId d /\ independentlyVerified = true.
Proof.
  rewrite control_plane_reasons_nil. unfold completion_gate.
  setoid_rewrite run_validations_elem. setoid_rewrite requirement_records_elem.
  split.
  - intros (H1 & H2 & (v & (Hv & Hr) & Hp & Hi) & ->). split; [|done].
    split; [|split; [by intros w ? ?; apply H2|by exists v]].
    intros r Hin Hrun. apply unproven_row, H1. by exists r.
  - intros ((H1 & H2 & (v & Hv & Hr & Hp & Hi)) & ->).
    split; [|split; [by intros w [? ?]; apply H2|by split; [exists v|]]].
    intros r (row & Hin & Hrun & ->). apply unproven_row. by apply H1.
Qed.

Section Completion.
Context `{Env}.

(** The run, if there, has not completed. *)
Definition open_run (runId : string) (d : Db) : Prop :=
  forall row, run_row runId d = Some row -> rn_status row <> run_completed.

Lemma open_update runId (c : RunRow -> bool) (f : RunRow -> RunRow) d :
  (forall r, rn_id (f r) = rn_id r) ->
  (forall r, rn_id r = runId -> c r = true -> rn_status r <> run_completed ->
     rn_status (f r) <> run_completed) ->
  open_run runId d -> open_run runId (set_runs (map (fun r => if c r then f r else r) (runs d)) d).
Proof.
  intros Hid Hst Ho row. unfold run_row. cbn [runs set_runs].
  rewrite find_map_update by done. unfold open_run, run_row in Ho.
  destruct (find _ (runs d)) as [r|] eqn:E; [|done]. cbn. intros [= <-].
  specialize (Ho r eq_refl). pose proof (run_row_id runId d r E).
  destruct (c r) eqn:Ec; [by apply Hst|done].
Qed.

Lemma open_insert runId row d :
  rn_status row <> run_completed -> open_run runId d ->
  open_run runId (set_runs (runs d ++ [row]) d).
Proof.
  intros Hrow Ho r. unfold run_row. cbn [runs set_runs].
  unfold open_run, run_row in Ho. destruct (find _ (runs d)) as [r'|] eqn:E.
  - rewrite (find_app_some _ _ _ r') by done. auto.
  - rewrite find_app_none by done. cbn. case_bool_decide; [by intros [= <-]|done].
Qed.

Ltac open_leaf :=
  first
    [ frame_read
    | lazymatch goal with
      | |- preserves (open_run _) (update_rows runs _ _ _) =>
          apply preserves_update; intros ? ?; apply open_update; [done|by intros|assumption]
      | |- preserves (open_run _) (insert_row runs _ _ _ _ _) =>
          apply preserves_insert; intros ? ? _ _; by apply open_insert
      end ].

Lemma open_append runId r t p now g : preserves (open_run runId) (appendEventInternal r t p now g).
Proof. unfold appendEventInternal. frame open_leaf. Qed.

Lemma open_transition runId r to now reason :
  (r = runId -> to <> run_completed) ->
  preserves (open_run runId) (transitionRunInternal r to now reason).
Proof.
  intros Hto s Hs. change (after (open_run runId) (transitionRunInternal r to now reason) s).
  unfold transitionRunInternal. apply after_mustRun; [done|]. intros target Ht%run_row_id.
  apply after_preserves; [|done].
  apply preserves_bind; [apply preserves_lift|intros _].
  apply preserves_bind; [|intros _; frame ltac:(apply open_append)].
  apply preserves_execute. intros d. apply open_update; [done|].
  cbn. intros row <- Hc _. bool_hyps. apply Hto. congruence.
Qed.

Ltac open_status :=
  intros ?;
  first [ discriminate
        | by bool_hyps
        | repeat case_match; discriminate ].

Lemma open_command runId c :
  typed c = true ->
  (forall a iv l rs r, c <> c_proposeCompletion a iv l rs r) ->
  preserves (open_run runId) (run_command c).
Proof.
  intros Ht Hc. destruct c; cbn [typed] in Ht; frame_command ltac:(first
    [ lazymatch goal with
      | |- preserves _ (appendEventInternal _ _ _ _ _) => apply open_append
      | |- preserves _ (transitionRunInternal _ _ _ _) => apply open_transition; open_status
      end
    | open_leaf ]).
  by edestruct Hc.
Qed.

Lemma preserves_or {A} P (G : Prop) (m : M A) :
  preserves P m -> preserves (fun d => P d \/ G) m.
Proof. intros Hm s [Hs|HG]; [left; by apply Hm|by right]. Qed.

(** A proposal leaves the run open, or passed the gate. *)
Lemma open_propose runId (G : Prop) accepted independentlyVerified lease reasons r s :
  open_run runId (db s) ->
  (forall row, run_row r (db s) = Some row -> r = runId -> accepted = true ->
     rn_status row = run_running ->
     control_plane_reasons (requirement_records r (db s)) (run_validations r (db s))
       (match independentlyVerified with Some true => true | _ => false end) = [] -> G) ->
  after (fun d => open_run runId d \/ G)
    (proposeCompletion accepted independentlyVerified lease reasons r) s.
Proof.
  intros Ho HG. unfold proposeCompletion.
  apply after_read; [intros ?; apply preserves_timestamp|by left|]. intros s1 now _ E1.
  apply after_transaction; [left; by rewrite E1|].
  apply after_read; [intros ?; apply preserves_check_lease|left; by rewrite E1|].
  intros s2 [] _ E2. rewrite E1 in E2. rewrite <- E2 in Ho, HG.
  apply after_mustRun; [by left|]. intros row Hrow.
  pose proof (run_row_id _ _ _ Hrow) as Hid. specialize (HG row Hrow).
  cbn [runFromRow run_id]. rewrite Hid.
  apply after_read; [intros ?; apply preserves_listRequirements|by left|].
  intros s3 records [= <- <-] _.
  apply after_read; [intros ?; apply preserves_listValidations|by left|].
  intros s3 checks [= <- <-] _. cbv zeta.
  fold (requirement_records r (db s2)) (run_validations r (db s2)).
  set (found := control_plane_reasons _ _ _) in *. apply after_preserves; [|by left].
  apply preserves_bind; [apply preserves_or, open_append|intros _].
  destruct (accepted && (found === [])) eqn:Ea; [|apply preserves_mustRun].
  bool_hyps. cbn [negb].
  intros s3 Hs3. apply after_lift; [done|]. intros u Hu%assertTransition_ok.
  change (canTransitionRun (rn_status row) run_completed = true) in Hu.
  apply completed_only_from_running in Hu.
  destruct (decide (r = runId)) as [Hr|Hr]; [right; by apply HG|].
  apply after_preserves; [|done]. apply preserves_or.
  apply preserves_bind; [by apply open_transition|intros _; apply preserves_mustRun].
Qed.

(** C2: a run completes in one way only: by a proposal for it that is
    accepted, says it was independently verified, finds the run running and
    finds in the tables every required requirement waived or proven with
    strong evidence, no failed validation, and an independent one that
    passed. No other command, with any arguments, completes a run. *)
Theorem completion_only_through_gate c s runId row row' :
  typed c = true -> run_row runId (db s) = Some row -> rn_status row <> run_completed ->
  run_row runId (db (run_command c s).1) = Some row' -> rn_status row' = run_completed ->
  (exists lease reasons, c = c_proposeCompletion true (Some true) lease reasons runId) /\
  rn_status row = run_running /\ completion_gate runId (db s).
Proof.
  intros Ht Hrow Hst Hrow' Hst'.
  assert (open_run runId (db s)) as Ho by (intros r; rewrite Hrow; by intros [= <-]).
  assert (forall P : Prop, open_run runId (db (run_command c s).1) -> P) as Habs.
  { intros P Ho'. by destruct (Ho' row' Hrow'). }
  assert ((forall a iv l rs r, c <> c_proposeCompletion a iv l rs r) \/
          exists a iv l rs r, c = c_proposeCompletion a iv l rs r) as [Hc|Hc].
  { destruct c; first [by left | right; by repeat eexists]. }
  { by apply Habs, open_command. }
  destruct Hc as (a & iv & l & rs & r & ->).
  set (G := (exists lease reasons, c_proposeCompletion a iv l rs r =
              c_proposeCompletion true (Some true) lease reasons runId) /\
            rn_status row = run_running /\ completion_gate runId (db s)).
  assert (after (fun d => open_run runId d \/ G) (proposeCompletion a iv l rs r) s)
    as [Ho'|HG]; [| |exact HG].
  - apply open_propose; [done|]. intros row1 Hrow1 -> -> Hrun (Hg & Hiv)%completion_gate_iff.
    rewrite Hrow in Hrow1. injection Hrow1 as <-. split; [|done].
    exists l, rs. destruct iv as [[]|]; done.
  - apply Habs. revert Ho'. cbn [run_command]. unfold void, mbind, M_bind.
    by destruct (proposeCompletion a iv l rs r s) as [s' [x|e]].
Qed.

Definition has_status : string -> RunStatus -> Db -> Prop := run_field rn_status.

(** A successful transition leaves the run in its target. *)
Lemma transition_has_status r to now reason s s' u :
  transitionRunInternal r to now reason s = (s', Ok u) -> has_status r to (db s').
Proof.
  intros Hok. unfold transitionRunInternal in Hok.
  apply mbind_ok in Hok as (s1 & run & Hrun & Hok).
  rewrite mustRun_eq in Hrun. destruct (run_row r (db s)) as [row|] eqn:Hrow; [|done].
  injection Hrun as <- <-. pose proof (run_row_id _ _ _ Hrow) as Hid.
  apply mbind_ok in Hok as (s1 & [] & [= <- _] & Hok).
  apply mbind_ok in Hok as (s1 & [] & [= <-] & Hok).
  eapply preserves_ok; [| |exact Hok].
  - apply preserves_bind; [by apply run_field_append|intros; apply preserves_ret].
  - cbn [runFromRow run_id]. rewrite Hid. by eapply run_field_set.
Qed.

Lemma mustRun_has_status r st s s' run :
  has_status r st (db s) -> mustRun r s = (s', Ok run) -> run_status run = st.
Proof. intros (row & Hrow & <-). rewrite mustRun_eq, Hrow. by intros [= _ <-]. Qed.

(** What a proposal that returns makes of the run. *)
Lemma propose_outcome accepted independentlyVerified lease reasons runId s s' row run :
  run_row runId (db s) = Some row ->
  proposeCompletion accepted independentlyVerified lease reasons runId s = (s', Ok run) ->
  run_status run =
    (if accepted && (control_plane_reasons (requirement_records runId (db s))
          (run_validations runId (db s))
          (match independentlyVerified with Some true => true | _ => false end) === [])
     then run_completed else rn_status row) /\
  has_status runId (run_status run) (db s').
Proof.
  intros Hrow Hok. unfold proposeCompletion in Hok.
  apply mbind_ok in Hok as (s1 & now & [= <- <-] & Hok). rewrite transaction_ok in Hok.
  apply mbind_ok in Hok as (s2 & [] & Hl & Hok).
  apply reads_ok in Hl; [|intros ?; apply preserves_check_lease]. cbn [db] in Hl.
  rewrite <- Hl in Hrow |- *.
  apply mbind_ok in Hok as (s3 & target & Htarget & Hok).
  rewrite mustRun_eq, Hrow in Htarget. injection Htarget as <- <-.
  pose proof (run_row_id _ _ _ Hrow) as Hid. cbn [runFromRow run_id run_status] in Hok.
  rewrite Hid in Hok.
  apply mbind_ok in Hok as (s3 & records & [= <- <-] & Hok).
  apply mbind_ok in Hok as (s3 & checks & [= <- <-] & Hok). cbv zeta in Hok.
  fold (requirement_records runId (db s2)) (run_validations runId (db s2)) in Hok.
  set (found := control_plane_reasons _ _ _) in *.
  apply mbind_ok in Hok as (s3 & event & Hevent & Hok).
  destruct (accepted && (found === [])) eqn:Ea; cbn [negb] in Hok.
  - apply mbind_ok in Hok as (s4 & [] & _ & Hok).
    apply mbind_ok in Hok as (s5 & [] & Ht%transition_has_status & Hok).
    pose proof (mustRun_has_status _ _ _ _ _ Ht Hok) as Hst. rewrite Hst. split; [done|].
    by apply reads_ok in Hok as ->; [|intros ?; apply preserves_mustRun].
  - assert (has_status runId (rn_status row) (db s3)) as Hs3.
    { eapply preserves_ok; [by apply run_field_append| |exact Hevent]. by exists row. }
    pose proof (mustRun_has_status _ _ _ _ _ Hs3 Hok) as Hst. rewrite Hst. split; [done|].
    by apply reads_ok in Hok as ->; [|intros ?; apply preserves_mustRun].
Qed.

(** A proposal that returns reports the run completed exactly when it was
    accepted, independently verified and the gate holds of the tables; any
    other proposal that returns leaves the run with the status it had. *)
Theorem proposeCompletion_decides accepted independentlyVerified lease reasons runId s s' row run :
  run_row runId (db s) = Some row -> rn_status row <> run_completed ->
  proposeCompletion accepted independentlyVerified lease reasons runId s = (s', Ok run) ->
  (run_status run = run_completed <->
   accepted = true /\ independentlyVerified = Some true /\ completion_gate runId (db s)) /\
  (run_status run <> run_completed -> run_status run = rn_status row).
Proof.
  intros Hrow Hst Hok. apply (propose_outcome _ _ _ _ _ _ _ _ _ Hrow) in Hok as [Hrun _].
  pose proof (completion_gate_iff runId (db s)
    (match independentlyVerified with Some true => true | _ => false end)) as Hgate.
  set (found := control_plane_reasons _ _ _) in *. rewrite Hrun.
  assert (accepted && (found === []) = true <-> accepted = true /\
    independentlyVerified = Some true /\ completion_gate runId (db s)) as <-.
  { rewrite andb_true_iff, bool_decide_eq_true, Hgate.
    destruct independentlyVerified as [[]|]; intuition congruence. }
  by destruct (accepted && (found === [])).
Qed.
End Completion.

Definition demo_propose : command :=
  c_proposeCompletion true (Some true) (Some (demo_lease "executor-1" 1)) [] demo_run.

Lemma completion_only_through_gate_witness : completion_gate demo_run (db demo_ready).
Proof.
  destruct (run_row demo_run (db demo_ready)) as [row|] eqn:Hrow;
    [|vm_compute in Hrow; discriminate Hrow].
  destruct (run_row demo_run (db (run_command demo_propose demo_ready).1)) as [row'|] eqn:Hrow';
    [|vm_compute in Hrow'; discriminate Hrow'].
  refine (proj2 (proj2 (completion_only_through_gate demo_propose demo_ready demo_run row row'
    eq_refl Hrow _ Hrow' _))); vm_compute in Hrow, Hrow'.
  - injection Hrow as <-. discriminate.
  - injection Hrow' as <-. reflexivity.
Defined.

Lemma proposeCompletion_decides_witness :
  exists run, (proposeCompletion false (Some true) None [] demo_run demo_ready).2 = Ok run /\
    run_status run = run_running.
Proof.
  destruct (proposeCompletion false (Some true) None [] demo_run demo_ready) as [s' [run|e]] eqn:E;
    [|vm_compute in E; discriminate E].
  destruct (run_row demo_run (db demo_ready)) as [row|] eqn:Hrow;
    [|vm_compute in Hrow; discriminate Hrow].
  exists run. split; [reflexivity|].
  assert (rn_status row = run_running) as Hst by (vm_compute in Hrow; injection Hrow as <-; done).
  destruct (proposeCompletion_decides false (Some true) None [] demo_run demo_ready s' row run
    Hrow ltac:(rewrite Hst; discriminate) E) as [Hiff Hrest].
  rewrite <- Hst. apply Hrest. intros [Hf _]%Hiff. discriminate Hf.
Defined.
