(* ===== verification/StoreJournal.v ===== *)
(** The numbered records of a run: its event journal and its checkpoints are
    numbered without gaps from one, in the order they were written, and what is
    written is never changed. *)

From Stdlib Require Import ZArith Lia Sorting.Sorted.
From stdpp Require Import base strings list relations.
From S2P Require Import Prelude JsNumber JsString JsCollections Protocol Json Ids StateMachine.
From S2P Require Import Policies Budget StoreData StoreMonad StoreCore StoreRuns StoreTasks.
From S2P Require Import StoreEffects StoreCommands StoreSafety.

Open Scope string_scope.
Open Scope list_scope.
#[local] Open Scope Z_scope.

(** The sequence numbers of a run's events, in the order of the table. *)
Definition event_numbers (runId : string) (events : list EventRow) : list Z :=
  map ee_seq (List.filter (fun e => ee_run_id e === runId) events).

(** Every run's events are numbered [1, 2, ..., next_sequence], and every event
    belongs to a run. *)
Definition journal_ok (d : Db) : Prop :=
  (forall r, r ∈ runs d ->
     0 <= rn_next_sequence r /\ event_numbers (rn_id r) (run_events d) = seqZ 1 (rn_next_sequence r)) /\
  (forall e, e ∈ run_events d -> exists r, r ∈ runs d /\ rn_id r = ee_run_id e).

Lemma journal_update (c : RunRow -> bool) (f : RunRow -> RunRow) d :
  (forall r, rn_id (f r) = rn_id r) ->
  (forall r, rn_next_sequence (f r) = rn_next_sequence r) ->
  journal_ok d -> journal_ok (set_runs (map (fun r => if c r then f r else r) (runs d)) d).
Proof.
  intros Hid Hseq [Hj He]. split; cbn [runs run_events set_runs].
  - intros r (r0 & -> & Hr0)%list_elem_of_fmap.
    assert (rn_id (if c r0 then f r0 else r0) = rn_id r0) as -> by (by destruct (c r0)).
    assert (rn_next_sequence (if c r0 then f r0 else r0) = rn_next_sequence r0) as ->
      by (by destruct (c r0)).
    by apply Hj.
  - intros e (r & Hr & Hre)%He. exists (if c r then f r else r). split.
    + apply list_elem_of_fmap. by exists r.
    + destruct (c r); [by rewrite Hid|done].
Qed.

Lemma find_none_elem {R} (p : R -> bool) l x : existsb p l = false -> x ∈ l -> p x = false.
Proof. rewrite existsb_false. auto. Qed.

(** A new run has no events yet. *)
Lemma journal_insert row d :
  rn_next_sequence row = 0 ->
  existsb (fun r => rn_id row === rn_id r) (runs d) = false ->
  journal_ok d -> journal_ok (set_runs (runs d ++ [row]) d).
Proof.
  intros Hn Hfresh [Hj He]. rewrite existsb_false in Hfresh.
  split; cbn [runs run_events set_runs].
  - intros r [Hr| ->%list_elem_of_singleton]%elem_of_app; [by apply Hj|].
    rewrite Hn. split; [done|]. unfold event_numbers. cbn [run_events set_runs].
    assert (List.filter (fun e => ee_run_id e === rn_id row) (run_events d) = []) as ->; [|done].
    apply filter_nil_iff. intros e (r & Hr & Hre)%He. specialize (Hfresh r Hr).
    bool_hyps. apply bool_decide_eq_false. congruence.
  - intros e (r & Hr & Hre)%He. exists r. split; [|done]. apply elem_of_app. by left.
Qed.

Lemma seqZ_snoc n : 0 <= n -> seqZ 1 (n + 1) = seqZ 1 n ++ [n + 1].
Proof.
  intros Hn. rewrite seqZ_app by lia. f_equal. by replace (1 + n) with (n + 1) by lia.
Qed.

Lemma event_numbers_snoc runId e events :
  event_numbers runId (events ++ [e]) =
  event_numbers runId events ++ (if ee_run_id e === runId then [ee_seq e] else []).
Proof.
  unfold event_numbers. rewrite List.filter_app, map_app. f_equal. cbn. by case_bool_decide.
Qed.

(** ** Lists numbered without gaps *)

Section Numbered.
Context {A : Type} (key : A -> Z).

Lemma numbered_cons x l a n :
  map key (x :: l) = seqZ a n -> 0 < n /\ key x = a /\ map key l = seqZ (a + 1) (n - 1).
Proof.
  intros Hl. assert (0 < n) as Hn.
  { destruct (decide (0 < n)); [done|]. by rewrite seqZ_nil in Hl by lia. }
  rewrite seqZ_cons in Hl by done. by injection Hl as <- ?.
Qed.

Lemma numbered_lower l a n : map key l = seqZ a n -> forall x, x ∈ l -> a <= key x.
Proof.
  revert a n. induction l as [|y l IH]; intros a n Hl x; [by intros ?%not_elem_of_nil|].
  apply numbered_cons in Hl as (Hn & <- & Hl). intros [->|Hx]%elem_of_cons; [lia|].
  specialize (IH _ _ Hl x Hx). lia.
Qed.

Lemma numbered_sorted l a n :
  map key l = seqZ a n -> StronglySorted (fun x y => key_le key x y = true) l.
Proof.
  revert a n. induction l as [|y l IH]; intros a n Hl; [constructor|].
  apply numbered_cons in Hl as (Hn & <- & Hl). constructor; [by eapply IH|].
  rewrite Forall_forall. intros x Hx. apply Z.leb_le.
  pose proof (numbered_lower _ _ _ Hl x Hx). lia.
Qed.

(** The rest after a number is numbered on from it. *)
Lemma numbered_after l a n k :
  map key l = seqZ a n -> a - 1 <= k -> k < a + n ->
  map key (List.filter (fun x => k <? key x) l) = seqZ (k + 1) (a + n - 1 - k).
Proof.
  revert a n. induction l as [|y l IH]; intros a n Hl Hk Hn.
  { cbn. destruct (decide (0 < n)); [by rewrite seqZ_cons in Hl by lia|].
    by rewrite seqZ_nil by lia. }
  pose proof (numbered_sorted _ _ _ Hl) as Hs.
  pose proof Hl as Hl0. apply numbered_cons in Hl as (Hpos & Hy & Hl). cbn [List.filter].
  destruct (Z.ltb_spec k (key y)).
  - assert (k = a - 1) as -> by lia.
    replace (a - 1 + 1) with a by lia. replace (a + n - 1 - (a - 1)) with n by lia.
    rewrite filter_true_b; [done|]. intros x Hx. apply Z.ltb_lt.
    pose proof (numbered_lower _ _ _ Hl x Hx). lia.
  - rewrite (IH (a + 1) (n - 1)) by (done || lia). f_equal. lia.
Qed.
End Numbered.

Lemma sorted_filter {A} (le : A -> A -> bool) (f : A -> bool) l :
  StronglySorted (fun x y => le x y = true) l ->
  StronglySorted (fun x y => le x y = true) (List.filter f l).
Proof.
  induction 1 as [|x l Hs IH Hx]; cbn [List.filter]; [constructor|].
  destruct (f x); [|done]. constructor; [done|]. by apply Forall_filter_b.
Qed.

(** A run's events, in the order of the table. *)
Definition events_of (runId : string) (d : Db) : list EventRow :=
  List.filter (fun e => ee_run_id e === runId) (run_events d).

Lemma events_sorted runId d :
  journal_ok d -> StronglySorted (fun x y => key_le ee_seq x y = true) (events_of runId d).
Proof.
  intros [Hj He]. unfold events_of.
  destruct (List.filter _ _) as [|e l] eqn:E; [constructor|]. rewrite <- E.
  assert (e ∈ e :: l) as Hin by apply list_elem_of_here.
  rewrite <- E in Hin. apply elem_of_list_filter in Hin as [(r & Hr & Hre)%He Hid].
  bool_hyps. destruct (Hj r Hr) as [_ Hn]. rewrite Hre, Hid in Hn.
  by eapply numbered_sorted.
Qed.

(** What [listEvents] returns. *)
Lemma listEvents_eq runId k d :
  journal_ok d ->
  sort_by (key_le ee_seq)
    (List.filter (fun e => (ee_run_id e === runId) && (k <? ee_seq e)) (run_events d)) =
  List.filter (fun e => k <? ee_seq e) (events_of runId d).
Proof.
  intros Hj. rewrite filter_andb. apply sort_by_id, sorted_filter. by apply events_sorted.
Qed.

Section Journal.
Context `{Env}.

(** Appending an event is one indivisible step of the journal. *)
Lemma journal_append r t p now g : preserves journal_ok (appendEventInternal r t p now g).
Proof.
  intros s Hs. change (after journal_ok (appendEventInternal r t p now g) s).
  unfold appendEventInternal. apply after_mustRun; [done|]. intros row Hrow.
  pose proof (run_row_id _ _ _ Hrow) as Hid. apply after_query. cbv zeta.
  unfold run_row in Hrow. rewrite Hrow. cbn [option_map].
  apply after_read; [intros ?; apply preserves_randomUUID|done|]. intros s1 uuid _ E1.
  apply after_read; [intros ?; apply preserves_newId|by rewrite E1|]. intros s2 id _ E2.
  rewrite E1 in E2. cbn [runFromRow run_id]. rewrite Hid.
  set (event := {| ee_id := id |}). rewrite <- E2 in Hs, Hrow. clear E1 E2 s1.
  apply after_bind.
  2: { intros s3 e. unfold insert_row. case_match; intros [= <- _]; done. }
  intros s3 [] Hins. unfold insert_row in Hins.
  destruct (existsb _ _ || _) eqn:Hc; [discriminate|]. injection Hins as <-. bool_hyps.
  unfold update_rows. apply after_execute. unfold after, mret, M_ret.
  cbn [db set_db fst]. destruct Hs as [Hj He].
  apply find_some in Hrow as [Hin%list_elem_of_In _].
  split; cbn [runs run_events set_runs set_run_events].
  - intros r1 (r0 & -> & Hr0)%list_elem_of_fmap.
    destruct (rn_id r0 === r) eqn:Heq; bool_hyps.
    + cbn. rewrite Heq. destruct (Hj row Hin) as [Hn Hnum]. rewrite Hid in Hnum.
      split; [lia|].
      rewrite event_numbers_snoc. cbn. rewrite bool_decide_eq_true_2 by done.
      by rewrite Hnum, seqZ_snoc.
    + rewrite event_numbers_snoc. cbn.
      rewrite bool_decide_eq_false_2 by congruence. rewrite app_nil_r. by apply Hj.
  - assert (forall q, (exists r0, r0 ∈ runs (db s2) /\ rn_id r0 = q) ->
      exists r0, r0 ∈ map (fun r0 => if rn_id r0 === r
        then set_rn_next_sequence (rn_next_sequence row + 1)
               (set_rn_revision (rn_revision r0 + 1) (set_rn_updated_at now r0))
        else r0) (runs (db s2)) /\ rn_id r0 = q) as Hmap.
    { intros q (r0 & Hr0 & <-). eexists. split; [apply list_elem_of_fmap; by exists r0|].
      by case_bool_decide. }
    intros e [He'| ->%list_elem_of_singleton]%elem_of_app; apply Hmap; [by apply He|].
    exists row. by split.
Qed.

Ltac journal_leaf :=
  first
    [ frame_read
    | lazymatch goal with
      | |- preserves _ (appendEventInternal _ _ _ _ _) => apply journal_append
      | |- preserves _ (update_rows runs _ _ _) =>
          apply preserves_update; intros ? ?; apply journal_update; [done|done|assumption]
      | |- preserves _ (insert_row runs _ _ _ _ _) =>
          apply preserves_insert; intros ? ? ? _; by apply journal_insert
      end ].

Lemma journal_command c : preserves journal_ok (run_command c).
Proof. destruct c; frame_command journal_leaf. Qed.

(** Rows of the journal are never changed or removed. *)
Lemma events_grow l c :
  preserves (fun d => l `prefix_of` run_events d) (run_command c).
Proof.
  destruct c; frame_command ltac:(first
    [ frame_read
    | lazymatch goal with
      | |- preserves _ (insert_row run_events _ _ _ _ _) =>
          apply preserves_insert; intros ? ? _ _; by apply prefix_app_r
      end ]).
Qed.

(** C4: in every store reached by commands a run's journal holds the sequence
    numbers [1 .. next_sequence] without gap or repetition, so listing the
    events after [k] returns exactly the numbers [k+1 .. next_sequence], in
    order; and events once listed are listed again, unchanged and first, by
    the same listing at any later time. *)
Theorem journal_replay s s' runId row k :
  journal_ok (db s) -> rtc store_step s s' ->
  run_row runId (db s') = Some row -> 0 <= k <= rn_next_sequence row ->
  exists before now,
    listEvents runId k s = (s, Ok before) /\ listEvents runId k s' = (s', Ok now) /\
    map ee_seq now = seqZ (k + 1) (rn_next_sequence row - k) /\
    (forall e, e ∈ now -> ee_run_id e = runId) /\
    before `prefix_of` now.
Proof.
  intros Hj Hsteps Hrow Hk.
  assert (journal_ok (db s')) as Hj'
    by (apply (steps_preserve _ s); auto using journal_command).
  assert (run_events (db s) `prefix_of` run_events (db s')) as [new Hnew].
  { apply (steps_preserve (fun d => run_events (db s) `prefix_of` run_events d) s);
      [intros; apply events_grow|done|done]. }
  unfold listEvents, query. rewrite !listEvents_eq by done. do 2 eexists.
  split; [done|]. split; [done|].
  pose proof (run_row_id _ _ _ Hrow) as Hid.
  apply find_some in Hrow as [Hin%list_elem_of_In _].
  destruct Hj' as [Hnum _]. destruct (Hnum row Hin) as [Hn Hseq]. rewrite Hid in Hseq.
  split; [|split].
  - unfold events_of. rewrite (numbered_after _ _ _ _ _ Hseq) by lia. f_equal. lia.
  - intros e [He _]%elem_of_list_filter. apply elem_of_list_filter in He as [_ He].
    by bool_hyps.
  - unfold events_of. rewrite Hnew, !List.filter_app. by apply prefix_app_r.
Qed.
End Journal.

Lemma empty_journal_ok : journal_ok empty_db.
Proof. split; cbn; intros ? []%not_elem_of_nil. Qed.

Lemma journal_replay_witness :
  exists now, (listEvents demo_run 2 demo_ready).2 = Ok now /\ map ee_seq now = [3; 4].
Proof.
  destruct (run_row demo_run (db demo_ready)) as [row|] eqn:Hrow;
    [|vm_compute in Hrow; discriminate Hrow].
  assert (rn_next_sequence row = 4) as Hn by (vm_compute in Hrow; injection Hrow as <-; done).
  destruct (journal_replay empty_store demo_ready demo_run row 2 empty_journal_ok)
    as (before & now & _ & Hnow & Hseq & _).
  - transitivity demo_store; apply after_commands_steps; repeat constructor.
  - exact Hrow.
  - rewrite Hn. split; discriminate.
  - exists now. split; [by rewrite Hnow|]. by rewrite Hseq, Hn.
Defined.
