(* ===== verification/StoreLeases.v ===== *)
(** Fencing at the store: one executor per run and generation, and no effect of
    a command that carries a lease which is no longer the current one. *)

From Stdlib Require Import ZArith Lia.
From stdpp Require Import base strings list relations.
From S2P Require Import Prelude JsNumber JsString JsCollections Protocol Json Ids StateMachine.
From S2P Require Import Policies Budget StoreData StoreMonad StoreCore StoreRuns StoreTasks.
From S2P Require Import StoreEffects StoreCommands StoreSafety.

Open Scope string_scope.
Open Scope list_scope.
#[local] Open Scope Z_scope.

Definition lease_row (runId : string) (d : Db) : option LeaseRow :=
  find (fun r => le_run_id r === runId) (run_leases d).

(** The tables hold the lease, unexpired at this instant. *)
Definition lease_valid (lease : FencedLease) (now : Z) (d : Db) : bool :=
  match lease_row (fl_runId lease) d with
  | None => false
  | Some row =>
      (le_holder_id row === fl_executorId lease) &&
      (le_generation row === fl_generation lease) && (now <? le_expires_at row)
  end.

Lemma lease_row_id runId d row : lease_row runId d = Some row -> le_run_id row = runId.
Proof. intros H. apply find_some in H as [_ H]. by bool_hyps. Qed.

(** The lease a command carries. *)
Definition command_lease (c : command) : option FencedLease :=
  match c with
  | c_addRequirement _ lease _ _ _ => lease
  | c_addEvidence _ _ lease _ _ _ _ _ => lease
  | c_setRequirementStatus _ _ _ lease => lease
  | c_recordValidation _ lease _ _ _ _ _ => lease
  | c_transitionRun _ lease _ _ _ => lease
  | c_proposeCompletion _ _ lease _ _ => lease
  | c_requestApproval _ lease _ _ _ => lease
  | c_createTask input => ct_lease input
  | c_transitionTask input => tt_lease input
  | c_spawnAgent input => sp_lease input
  | c_transitionAgent _ lease _ => lease
  | c_startSessionEpoch _ lease _ _ => lease
  | c_endSessionEpoch _ lease _ => lease
  | c_recordCost _ _ _ _ _ lease _ _ _ => lease
  | c_createContextSnapshot _ _ lease _ _ _ _ => lease
  | c_addMemoryEntry _ lease _ _ _ _ _ => lease
  | c_acquireResourceLocks _ lease _ _ _ _ => lease
  | c_scheduleWake lease _ _ => lease
  | c_sendAgentMessage input => Some (sm_lease input)
  | c_recordToolIntent input => Some (ti_lease input)
  | c_recordProblem input => rp_lease input
  | c_setGoalStatus _ lease _ _ => lease
  | c_renewLease lease _ | c_appendFencedEvent lease _ _ | c_claimTask _ lease _
  | c_addTaskEvidence _ lease _ | c_recoverGraphWork lease | c_markAgentActive _ lease
  | c_receiveAgentMessages _ lease _ | c_setAgentWorktree _ lease _
  | c_createMilestone lease _ _ _ _ | c_recordDecision _ lease _ _ _ _
  | c_addArtifact _ _ lease _ _ _ _ | c_recordGitChange lease _ _ _ _ _
  | c_setRecoveryState _ lease _ _ _ _ | c_recordUsageFenced lease _ _
  | c_completeToolCall _ lease _ _ | c_recoverClaimedWork lease
  | c_createCheckpoint _ lease _ _ _ _ | c_claimContinuation lease
  | c_settleContinuation lease _ => Some lease
  | _ => None
  end.

(** Whether the command looks at the lease it carries. *)
Definition checks_lease (c : command) : bool :=
  match c with c_recordProblem _ | c_setGoalStatus _ _ _ _ => false | _ => true end.

(** Those that do not, without it. *)
Definition without_lease (c : command) : command :=
  match c with
  | c_setGoalStatus version _ goalId to => c_setGoalStatus version None goalId to
  | c_recordProblem input => c_recordProblem
      {| rp_alternateActionAvailable := rp_alternateActionAvailable input; rp_lease := None;
         rp_externalDependency := rp_externalDependency input; rp_fingerprint := rp_fingerprint input;
         rp_meaningful := rp_meaningful input; rp_note := rp_note input; rp_runId := rp_runId input;
         rp_summary := rp_summary input; rp_taskId := rp_taskId input |}
  | _ => c
  end.

Section Leases.
Context `{Env}.

Lemma assertLease_eq lease now s :
  exists reason, assertLeaseInternal lease now s =
    (s, if lease_valid lease now (db s) then Ok tt
        else Throw (LeaseFencedError (fl_runId lease) reason)).
Proof.
  unfold assertLeaseInternal, select_row, query, mbind, M_bind, lease_valid, lease_row.
  destruct (find _ (run_leases (db s))) as [row|]; [|by eexists].
  exists "Executor lease is stale or expired." . unfold guard_throw.
  rewrite Z.ltb_antisym, <- !negb_andb, <- (negb_involutive (le_expires_at row <=? now)).
  rewrite <- negb_andb. rewrite negb_involutive. by destruct (_ && _ && _).
Qed.

(** ** A lease that is not current changes nothing *)

(** From the tables [d], with at least [k] readings of the clock behind, the
    computation throws and leaves the tables as they are. *)
Definition refuses {A} (d : Db) (k : nat) (m : M A) : Prop :=
  forall s, db s = d -> (k <= clock_reads s)%nat ->
    exists s' e, m s = (s', Throw e) /\ db s' = d.

Lemma refuses_bind {A B} d k (m : M A) (f : A -> M B) :
  refuses d k m -> refuses d k (m ≫= f).
Proof.
  intros Hm s Hd Hk. destruct (Hm s Hd Hk) as (s' & e & E & Hd').
  exists s', e. unfold mbind, M_bind. by rewrite E.
Qed.

Lemma refuses_transaction {A} d k (m : M A) : refuses d k m -> refuses d k (transaction m).
Proof.
  intros Hm s Hd Hk. destruct (Hm s Hd Hk) as (s' & e & E & Hd').
  unfold transaction. rewrite E. by repeat eexists.
Qed.

Lemma refuses_timestamp {B} d k (f : Z -> M B) :
  (forall n, (k <= n)%nat -> refuses d k (f (clock_at n))) -> refuses d k (timestamp ≫= f).
Proof.
  intros Hf s Hd Hk. apply (Hf (clock_reads s) Hk); cbn; [done|lia].
Qed.

Lemma refuses_randomUUID {B} d k (f : string -> M B) :
  (forall u, refuses d k (f u)) -> refuses d k (randomUUID ≫= f).
Proof. intros Hf s Hd Hk. by apply (Hf (uuid_at (uuid_reads s))). Qed.

(** A step that changes nothing at all. *)
Lemma refuses_pure {A B} d k (m : M A) (f : A -> M B) :
  (forall s, (m s).1 = s) -> (forall a, refuses d k (f a)) -> refuses d k (m ≫= f).
Proof.
  intros Hm Hf s Hd Hk. specialize (Hm s). unfold mbind, M_bind.
  destruct (m s) as [s' [a|e]]; cbn in Hm; subst s'; [by apply Hf|by repeat eexists].
Qed.

Lemma pure_guard c e s : (guard_throw c e s).1 = s.
Proof. by destruct c. Qed.
Lemma pure_mustAgent a s : (mustAgent a s).1 = s.
Proof.
  unfold mustAgent, query, must, mbind, M_bind.
  by destruct (option_map _ (find _ (agents (db s)))).
Qed.

Section Stale.
Context (lease : FencedLease) (d : Db) (k : nat).
Hypothesis stale : forall n, (k <= n)%nat -> lease_valid lease (clock_at n) d = false.

Lemma refuses_assertLease n :
  (k <= n)%nat -> refuses d k (assertLeaseInternal lease (clock_at n)).
Proof.
  intros Hn s Hd _. destruct (assertLease_eq lease (clock_at n) s) as [reason ->].
  rewrite Hd, stale by done. by repeat eexists.
Qed.

Lemma refuses_check_lease n r m :
  (k <= n)%nat -> refuses d k (check_lease (Some lease) r m (clock_at n)).
Proof. intros Hn. apply refuses_pure; [apply pure_guard|intros _]. by apply refuses_assertLease. Qed.

Lemma refuses_assertRunLease n r :
  (k <= n)%nat -> refuses d k (assertRunLeaseInternal (Some lease) r (clock_at n)).
Proof. intros Hn. apply refuses_pure; [apply pure_guard|intros _]. by apply refuses_assertLease. Qed.

Lemma refuses_check_lease_then_run n r m :
  (k <= n)%nat -> refuses d k (check_lease_then_run (Some lease) r m (clock_at n)).
Proof. intros Hn. by apply refuses_bind, refuses_assertLease. Qed.

Ltac refuse_step :=
  lazymatch goal with
  | |- refuses _ _ (mbind _ timestamp) => apply refuses_timestamp; intros ? ?
  | |- refuses _ _ (mbind _ randomUUID) => apply refuses_randomUUID; intros ?
  | |- refuses _ _ (mbind _ (newId _ _)) => apply refuses_pure; [done|intros ?]
  | |- refuses _ _ (mbind _ (guard_throw _ _)) =>
      apply refuses_pure; [apply pure_guard|intros ?]
  | |- refuses _ _ (mbind _ (mustAgent _)) =>
      apply refuses_pure; [apply pure_mustAgent|intros ?]
  | |- refuses _ _ (mbind _ (query _)) => apply refuses_pure; [done|intros ?]
  | |- refuses _ _ (mbind _ _) => apply refuses_bind
  | |- refuses _ _ (transaction _) => apply refuses_transaction
  | |- refuses _ _ (let _ := _ in _) => cbv zeta
  | |- refuses _ _ (assertLeaseInternal _ _) => by apply refuses_assertLease
  | |- refuses _ _ (check_lease _ _ _ _) => by apply refuses_check_lease
  | |- refuses _ _ (check_lease_then_run _ _ _ _) => by apply refuses_check_lease_then_run
  | |- refuses _ _ (assertRunLeaseInternal _ _ _) => by apply refuses_assertRunLease
  end.

Lemma refuses_command c : command_lease c = Some lease -> checks_lease c = true ->
  refuses d k (run_command c).
Proof.
  destruct c; intros Hc Hk; try discriminate Hc; try discriminate Hk; cbn [command_lease] in Hc;
    try injection Hc as Hc; unfold_command; unfold transitionRun; cbv zeta;
    rewrite ?Hc;
    repeat refuse_step.
Qed.
End Stale.

(** ** One executor per generation *)

Section Held.
Context (runId : string) (generation : Z) (holder : string).

(** The generation has moved on, or its holder is still the same. *)
Definition held_since (d : Db) : Prop :=
  exists row, lease_row runId d = Some row /\
    (generation < le_generation row \/
     le_generation row = generation /\ le_holder_id row = holder).

Lemma held_update (c : LeaseRow -> bool) (f : LeaseRow -> LeaseRow) d :
  (forall r, le_run_id (f r) = le_run_id r) ->
  (forall r, lease_row runId d = Some r -> c r = true ->
     le_generation r < le_generation (f r) \/
     le_generation (f r) = le_generation r /\ le_holder_id (f r) = le_holder_id r) ->
  held_since d ->
  held_since (set_run_leases (map (fun r => if c r then f r else r) (run_leases d)) d).
Proof.
  intros Hid Hf (row & Hrow & Hg). exists (if c row then f row else row). split.
  - unfold lease_row in *. cbn [run_leases set_run_leases].
    by rewrite find_map_update, Hrow by done.
  - specialize (Hf row Hrow). destruct (c row); [|done].
    destruct (Hf eq_refl) as [?|[-> ->]]; [|done]. left. destruct Hg as [?|[? _]]; lia.
Qed.

Lemma held_acquire executorId host processId r ttlMs :
  preserves held_since (acquireLease executorId host processId r ttlMs).
Proof.
  intros s Hs. change (after held_since (acquireLease executorId host processId r ttlMs) s).
  unfold acquireLease. apply after_read; [intros ?; apply preserves_timestamp|done|].
  intros s1 now _ E1. rewrite <- E1 in Hs. cbv zeta.
  apply after_transaction; [done|]. apply after_query.
  fold (lease_row r (db s1)). apply after_bind.
  - intros s2 [] E. apply after_preserves; [frame ltac:(first [frame_read])|].
    destruct (lease_row r (db s1)) as [current|] eqn:Hcur.
    + apply mbind_ok in E as (s3 & [] & [_ ->]%guard_ok & E). injection E as <-.
      apply held_update; [done| |done]. intros row Hrow Hr. bool_hyps.
      assert (row = current) as ->.
      { pose proof (lease_row_id _ _ _ Hrow). congruence. }
      cbn. destruct ((le_holder_id current === executorId) && _) eqn:Hh; [|left; lia].
      bool_hyps. right. split; [lia|done].
    + eapply preserves_ok; [|exact Hs|exact E]. apply preserves_bind; [apply preserves_newId|].
      intros id. apply preserves_insert. intros d (row & Hrow & Hg) _ _.
      exists row. split; [|done]. by apply find_app_some.
  - intros s2 e E. destruct (lease_row r (db s1)) as [current|].
    + unfold mbind, M_bind, guard_throw, throw, mret, M_ret, update_rows, execute in E.
      by destruct (_ && _); simplify_eq.
    + unfold mbind, M_bind, newId, lift, insert_row in E.
      by repeat case_match; simplify_eq.
Qed.

Lemma held_command c : preserves held_since (run_command c).
Proof.
  destruct c; try (apply preserves_bind;
    [apply held_acquire|intros; apply preserves_ret]).
  all: frame_command ltac:(first
    [ frame_read
    | lazymatch goal with
      | |- preserves held_since (update_rows run_leases _ _ _) =>
          apply preserves_update; intros ? ?; apply held_update;
            [done|by right; split|assumption]
      end ]).
Qed.
End Held.

(** A valid lease is what the table says of the run. *)
Lemma lease_valid_held lease now d :
  lease_valid lease now d = true ->
  held_since (fl_runId lease) (fl_generation lease) (fl_executorId lease) d.
Proof.
  unfold lease_valid, held_since. destruct (lease_row _ d) as [row|]; [|done].
  intros Hv. bool_hyps. exists row. auto.
Qed.

Lemma held_fences runId generation holder d lease now :
  held_since runId generation holder d -> fl_runId lease = runId ->
  fl_generation lease < generation \/
    fl_generation lease = generation /\ fl_executorId lease <> holder ->
  lease_valid lease now d = false.
Proof.
  intros (row & Hrow & Hg) Hr Hl. apply not_true_iff_false.
  unfold lease_valid. rewrite Hr, Hrow. intros Hv. bool_hyps.
  destruct Hg as [?|[? ?]], Hl as [?|[? ?]]; first [lia | congruence].
Qed.

(** C5: at most one executor ever writes a run under one lease generation:
    if one lease of a run is valid in a store and another is valid in it or in
    any store reached from it, the second has a later generation, or the same
    generation and the same executor. *)
Theorem lease_mutual_exclusion l1 l2 now1 now2 s s' :
  rtc store_step s s' -> fl_runId l1 = fl_runId l2 ->
  lease_valid l1 now1 (db s) = true -> lease_valid l2 now2 (db s') = true ->
  fl_generation l1 < fl_generation l2 \/
  fl_generation l1 = fl_generation l2 /\ fl_executorId l1 = fl_executorId l2.
Proof.
  intros Hsteps Hr H1%lease_valid_held H2.
  apply (steps_preserve _ _ _ (fun c _ => held_command _ _ _ c) Hsteps) in H1.
  destruct (decide (fl_generation l2 < fl_generation l1 \/
    fl_generation l2 = fl_generation l1 /\ fl_executorId l2 <> fl_executorId l1)) as [Hf|Hf].
  - by rewrite (held_fences _ _ _ _ l2 now2 H1 (eq_sym Hr) Hf) in H2.
  - destruct (Z.lt_trichotomy (fl_generation l1) (fl_generation l2)) as [?|[Hg|?]];
      [by left| |by destruct Hf; left]. right. split; [done|].
    destruct (decide (fl_executorId l1 = fl_executorId l2)); [done|].
    destruct Hf. by right.
Qed.

(** C1: once another lease of the run with a later generation has been seen
    valid, every command carrying the old lease throws and leaves the tables
    exactly as they are, in every store reached from then on, however the calls
    of the replaced executor interleave.  Two commands are not fenced:
    recordProblem and setGoalStatus take a lease and ignore it, and do exactly
    what they do without one, so a replaced executor can still record problems,
    and block the run by them, and move the status of goals. *)
Theorem replaced_executor_is_fenced l1 l2 now s s' c :
  lease_valid l2 now (db s) = true -> fl_runId l1 = fl_runId l2 ->
  fl_generation l1 < fl_generation l2 ->
  rtc store_step s s' -> command_lease c = Some l1 ->
  if checks_lease c then exists s2 e, run_command c s' = (s2, Throw e) /\ db s2 = db s'
  else run_command c s' = run_command (without_lease c) s'.
Proof.
  intros H2%lease_valid_held Hr Hg Hsteps Hc. destruct (checks_lease c) eqn:Hk; [|by destruct c].
  apply (steps_preserve _ _ _ (fun c _ => held_command _ _ _ c) Hsteps) in H2.
  apply (refuses_command l1 (db s') (clock_reads s')); [|done|done|done|done].
  intros n _. by eapply held_fences; [exact H2|done|left].
Qed.

(** A command that carries a lease which the tables do not hold, or whose
    expiry the clock has passed, throws and changes no table, whatever the
    command and its other arguments are, unless it is one of the two that ignore
    their lease. *)
Theorem stale_lease_has_no_effect c lease s :
  command_lease c = Some lease -> checks_lease c = true ->
  (forall n, (clock_reads s <= n)%nat -> lease_valid lease (clock_at n) (db s) = false) ->
  exists s' e, run_command c s = (s', Throw e) /\ db s' = db s.
Proof. intros Hc Hk Hs. by apply (refuses_command lease (db s) (clock_reads s)). Qed.
End Leases.

(** The demo run taken over: its first executor's lease has run out. *)
Definition demo_leased : Store :=
  after_commands [c_acquireLease "executor-1" None None demo_run 1] demo_store.
Definition demo_taken_over : Store :=
  after_commands [c_acquireLease "executor-2" None None demo_run 1000] demo_leased.

Lemma lease_mutual_exclusion_witness :
  lease_valid (demo_lease "executor-1" 1) 0 (db demo_leased) = true /\
  lease_valid (demo_lease "executor-2" 2) 5 (db demo_taken_over) = true /\
  fl_generation (demo_lease "executor-1" 1) < fl_generation (demo_lease "executor-2" 2).
Proof.
  assert (lease_valid (demo_lease "executor-1" 1) 0 (db demo_leased) = true) as H1
    by (vm_compute; reflexivity).
  assert (lease_valid (demo_lease "executor-2" 2) 5 (db demo_taken_over) = true) as H2
    by (vm_compute; reflexivity).
  split; [exact H1|]. split; [exact H2|].
  destruct (lease_mutual_exclusion (demo_lease "executor-1" 1) (demo_lease "executor-2" 2) 0 5
    demo_leased demo_taken_over) as [H|[_ H]].
  - apply after_commands_steps. repeat constructor.
  - reflexivity.
  - exact H1.
  - exact H2.
  - exact H.
  - discriminate H.
Defined.

Lemma replaced_executor_is_fenced_witness :
  exists s2 e, run_command (c_createCheckpoint "label" (demo_lease "executor-1" 1) (jstr "")
    "late" demo_run None) demo_taken_over = (s2, Throw e) /\ db s2 = db demo_taken_over.
Proof.
  apply (replaced_executor_is_fenced (demo_lease "executor-1" 1) (demo_lease "executor-2" 2) 5
    demo_taken_over demo_taken_over (c_createCheckpoint "label" (demo_lease "executor-1" 1) (jstr "")
    "late" demo_run None)).
  - vm_compute. reflexivity.
  - reflexivity.
  - reflexivity.
  - apply rtc_refl.
  - reflexivity.
Defined.

Lemma stale_lease_has_no_effect_witness :
  exists s' e, run_command (c_appendFencedEvent (demo_lease "executor-9" 1) (jstr "")
    evt_run_status_changed) demo_ready = (s', Throw e) /\ db s' = db demo_ready.
Proof.
  apply (stale_lease_has_no_effect _ (demo_lease "executor-9" 1)); [reflexivity|reflexivity|].
  intros n _.
  assert (lease_row (fl_runId (demo_lease "executor-9" 1)) (db demo_ready) =
    head (run_leases (db demo_ready))) as Hrow by (vm_compute; reflexivity).
  unfold lease_valid. rewrite Hrow. vm_compute. reflexivity.
Defined.
