(* ===== verification/StoreOnce.v ===== *)
(** What happens at most once: a command with a receipt, a usage report with a
    key, the use of an approval, the delivery of an agent message. *)

From Stdlib Require Import ZArith Lia.
From stdpp Require Import base strings list relations.
From S2P Require Import Prelude JsNumber JsString JsCollections Protocol Json Ids StateMachine.
From S2P Require Import Policies Budget StoreData StoreMonad StoreCore StoreRuns StoreTasks.
From S2P Require Import StoreEffects StoreCommands StoreSafety.

Open Scope string_scope.
Open Scope list_scope.
#[local] Open Scope Z_scope.

(** ** Command receipts *)

Definition receipt_of (commandId runId : string) (d : Db) : option ReceiptRow :=
  find (fun r => (cr_command_id r === commandId) && (cr_run_id r === runId))
    (command_receipts d).

(** ** The life of an approval *)

Inductive approval_step : ApprovalStatus -> ApprovalStatus -> Prop :=
| step_approve : approval_step aps_pending aps_approved
| step_reject : approval_step aps_pending aps_rejected
| step_expire : approval_step aps_pending aps_expired
| step_consume : approval_step aps_approved aps_consumed.

(** What [resolveApproval] may be asked for. *)
Lemma resolve_step status :
  existsb (fun x => x === status) [aps_approved; aps_rejected; aps_expired] = true ->
  approval_step aps_pending status.
Proof. by destruct status; try constructor. Qed.

Lemma approval_final a b :
  rtc approval_step a b -> a ∈ [aps_rejected; aps_expired; aps_consumed] -> b = a.
Proof.
  intros Hm Hf. destruct Hm as [|a x b Hs _]; [done|]. exfalso.
  inversion Hs; subst; by rewrite !elem_of_cons in Hf; destruct Hf as [?|[?|[?|?%not_elem_of_nil]]].
Qed.

Definition approval_row (id : string) (d : Db) : option ApprovalRow :=
  find (fun r => ap_id r === id) (approvals d).

Lemma elem_of_take' {A} n (l : list A) x : x ∈ firstn n l -> x ∈ l.
Proof. intros H. rewrite <- (firstn_skipn n l). apply elem_of_app. by left. Qed.

Section Once.
Context `{Env}.

Lemma receipt_command commandId runId receipt c :
  preserves (fun d => receipt_of commandId runId d = Some receipt) (run_command c).
Proof.
  destruct c; frame_command ltac:(first
    [ frame_read
    | lazymatch goal with
      | |- preserves _ (insert_row command_receipts _ _ _ _ _) =>
          apply preserves_insert; intros ? ? _ _; by apply find_app_some
      end ]).
Qed.

(** A command that returned has a receipt with its result. *)
Lemma executeCommand_receipt command commandId reason runId s s1 run :
  executeCommand command commandId reason runId s = (s1, Ok run) ->
  exists receipt, receipt_of commandId runId (db s1) = Some receipt /\ cr_result receipt = run.
Proof.
  unfold executeCommand. rewrite transaction_ok. intros Hok.
  apply mbind_ok in Hok as (s2 & prior & [= <- Hprior] & Hok).
  fold (receipt_of commandId runId (db s)) in Hprior.
  destruct prior as [receipt|]; [injection Hok as <- <-; by exists receipt|].
  apply mbind_ok in Hok as (s2 & target & Ht & Hok). rewrite mustRun_eq in Ht.
  destruct (run_row runId (db s)) as [row|] eqn:Hrow; [|done]. injection Ht as <- <-.
  pose proof (run_row_id _ _ _ Hrow) as Hid.
  apply mbind_ok in Hok as (s3 & result & Ha & Hok).
  assert (receipt_of commandId runId (db s3) = None) as Hnone.
  { eapply (preserves_ok (fun d => receipt_of commandId runId d = None));
      [|exact Hprior|exact Ha].
    unfold apply_command. frame ltac:(first [frame_read | frame_unfold]). }
  apply mbind_ok in Hok as (s4 & now & [= <- <-] & Hok).
  apply mbind_ok in Hok as (s5 & [] & Hi & Hok). injection Hok as <- <-.
  unfold insert_row in Hi. case_match; [done|]. injection Hi as <-.
  eexists. unfold receipt_of in *. cbn [db set_db command_receipts set_command_receipts].
  rewrite find_app_none by done. cbn [find cr_command_id cr_run_id runFromRow run_id].
  by rewrite Hid, !bool_decide_eq_true_2 by done.
Qed.

(** C8: a command is executed at most once: after it returned, sending the same
    command id for the run again, at any later time and with any command and
    reason, returns the stored first result and changes nothing. *)
Theorem command_executed_once command commandId reason runId s s1 run s2 command' reason' :
  executeCommand command commandId reason runId s = (s1, Ok run) ->
  rtc store_step s1 s2 ->
  (exists receipt, receipt_of commandId runId (db s2) = Some receipt /\ cr_result receipt = run) /\
  executeCommand command' commandId reason' runId s2 = (s2, Ok run).
Proof.
  intros (receipt & Hr & <-)%executeCommand_receipt Hsteps.
  apply (steps_preserve _ _ _ (fun c _ => receipt_command _ _ _ c) Hsteps) in Hr.
  split; [by exists receipt|].
  unfold executeCommand, transaction, select_row, query, mbind, M_bind.
  fold (receipt_of commandId runId (db s2)). by rewrite Hr.
Qed.

(** ** Usage reports *)

Lemma usage_transition runId usage r to now reason :
  preserves (run_field rn_usage runId usage) (transitionRunInternal r to now reason).
Proof.
  unfold transitionRunInternal. frame ltac:(first
    [ run_field_leaf
    | lazymatch goal with
      | |- preserves _ (appendEventInternal _ _ _ _ _) => by apply run_field_append
      end ]).
Qed.

(** The run's usage grows by the delta. *)
Lemma recordUsageInternal_charges runId delta now s s' run row :
  run_row runId (db s) = Some row ->
  recordUsageInternal runId delta now s = (s', Ok run) ->
  addBudgetUsage (rn_usage row) delta = Ok (run_usage run).
Proof.
  intros Hrow Hok. unfold recordUsageInternal in Hok.
  apply mbind_ok in Hok as (s1 & target & Ht & Hok).
  rewrite mustRun_eq, Hrow in Ht. injection Ht as <- <-.
  pose proof (run_row_id _ _ _ Hrow) as Hid.
  apply mbind_ok in Hok as (s1 & usage & [= <- Hadd] & Hok).
  apply mbind_ok in Hok as (s1 & assessment & [= <- _] & Hok).
  apply mbind_ok in Hok as (s1 & [] & [= <-] & Hok).
  apply mbind_ok in Hok as (s2 & [] & Hwhen & Hok).
  cbn [runFromRow run_id run_usage] in *. rewrite Hid in *. rewrite Hadd. f_equal.
  assert (run_field rn_usage runId usage (db s2)) as (row2 & Hrow2 & Hu2).
  { eapply preserves_ok; [| |exact Hwhen]; [apply preserves_when, usage_transition|].
    by eapply run_field_set. }
  rewrite mustRun_eq, Hrow2 in Hok. by injection Hok as _ <-.
Qed.

Definition usage_entry (runId key : string) (d : Db) : option UsageRow :=
  find (fun e => (ue_run_id e === runId) && (ue_entry_key e === key)) (usage_entries d).

Definition usage_reported (runId key : string) (d : Db) : Prop :=
  exists entry, usage_entry runId key d = Some entry.

Lemma usage_reported_insert runId key row d :
  usage_reported runId key d ->
  usage_reported runId key (set_usage_entries (usage_entries d ++ [row]) d).
Proof. intros [entry He]. exists entry. by apply find_app_some. Qed.

Ltac usage_leaf :=
  first
    [ frame_read
    | lazymatch goal with
      | |- preserves _ (insert_row usage_entries _ _ _ _ _) =>
          apply preserves_insert; intros ? ? _ _; by apply usage_reported_insert
      end ].

Lemma usage_reported_command runId key c :
  preserves (usage_reported runId key) (run_command c).
Proof. destruct c; frame_command usage_leaf. Qed.

(** C9: a keyed usage report is charged exactly once: the first report with a
    key adds its delta to the run's usage, and after a report with the key
    returned, no later report of the run with that key changes any table,
    whatever lease, agent and delta it carries. *)
Theorem usage_charged_once lease delta agentId key s s1 run :
  recordUsageFenced lease delta (Some (agentId, key)) s = (s1, Ok run) ->
  (usage_entry (fl_runId lease) key (db s) = None ->
   exists row, run_row (fl_runId lease) (db s) = Some row /\
     addBudgetUsage (rn_usage row) delta = Ok (run_usage run)) /\
  (forall s2 lease' delta' agentId', rtc store_step s1 s2 -> fl_runId lease' = fl_runId lease ->
     db (recordUsageFenced lease' delta' (Some (agentId', key)) s2).1 = db s2).
Proof.
  unfold recordUsageFenced at 1. intros Hok.
  apply mbind_ok in Hok as (s2 & now & [= <- <-] & Hok). rewrite transaction_ok in Hok.
  apply mbind_ok in Hok as (s3 & [] & Hl & Hok).
  apply reads_ok in Hl; [|intros ?; apply preserves_assertLease]. cbn [db] in Hl.
  apply mbind_ok in Hok as (s4 & existing & [= <- Hex] & Hok).
  fold (usage_entry (fl_runId lease) key (db s3)) in Hex. rewrite Hl in Hex.
  split.
  - intros Hnone. rewrite Hnone in Hex. subst existing.
    apply mbind_ok in Hok as (s4 & [] & Hi & Hok). unfold insert_row in Hi.
    case_match eqn:Ec; [done|]. injection Hi as <-. bool_hyps.
    destruct (run_row (fl_runId lease) (db s)) as [row|] eqn:Hrow.
    + exists row. split; [done|].
      eapply recordUsageInternal_charges; [|exact Hok]. cbn. by rewrite Hl.
    + apply mbind_ok in Hok as (s4 & target & Ht & _). rewrite mustRun_eq in Ht.
      unfold run_row in *. cbn in Ht. rewrite Hl, Hrow in Ht. done.
  - intros s5 lease' delta' agentId' Hsteps Hr.
    assert (usage_reported (fl_runId lease) key (db s1)) as Hrep.
    { destruct existing as [entry|].
      - apply reads_ok in Hok; [|intros ?; apply preserves_mustRun].
        exists entry. by rewrite Hok, Hl.
      - apply mbind_ok in Hok as (s4 & [] & Hi & Hok). unfold insert_row in Hi.
        case_match; [done|]. injection Hi as <-.
        eapply preserves_ok; [| |exact Hok]; [frame ltac:(first [usage_leaf|frame_unfold])|].
        eexists. unfold usage_entry in *. cbn. rewrite Hl, find_app_none by done. cbn.
        by rewrite !bool_decide_eq_true_2 by done. }
    apply (steps_preserve _ _ _ (fun c _ => usage_reported_command _ _ c) Hsteps) in Hrep.
    destruct Hrep as [entry Hrep]. unfold recordUsageFenced.
    match goal with |- db (?m s5).1 = _ => change (after (fun d => d = db s5) m s5) end.
    apply after_read; [intros ?; apply preserves_timestamp|done|]. intros s6 now6 _ E6.
    apply after_transaction; [done|].
    apply after_read; [intros ?; apply preserves_assertLease|done|]. intros s7 [] _ E7.
    apply after_query. fold (usage_entry (fl_runId lease') key (db s7)).
    rewrite Hr, E7, E6, Hrep. apply after_preserves; [apply preserves_mustRun|congruence].
Qed.

(** ** Approvals *)

Lemma approval_row_id id d row : approval_row id d = Some row -> ap_id row = id.
Proof. intros Hr. apply find_some in Hr as [_ Hr]. by bool_hyps. Qed.

Section Approval.
Context (approvalId : string) (start : ApprovalStatus) (run : string).

Definition approval_moved (d : Db) : Prop :=
  exists row, approval_row approvalId d = Some row /\
    rtc approval_step start (ap_status row) /\ ap_run_id row = run.

Lemma approval_update (c : ApprovalRow -> bool) (f : ApprovalRow -> ApprovalRow) d :
  (forall r, ap_id (f r) = ap_id r) -> (forall r, ap_run_id (f r) = ap_run_id r) ->
  (forall r, c r = true -> approval_step (ap_status r) (ap_status (f r))) ->
  approval_moved d ->
  approval_moved (set_approvals (map (fun r => if c r then f r else r) (approvals d)) d).
Proof.
  intros Hid Hrun Hst (row & Hrow & Hm & Hr). exists (if c row then f row else row).
  unfold approval_row in *. cbn [approvals set_approvals].
  rewrite find_map_update, Hrow by done. split; [done|].
  destruct (c row) eqn:Ec; [|done]. rewrite Hrun. split; [|done].
  by eapply rtc_r, Hst.
Qed.

Lemma approval_insert row d :
  approval_moved d -> approval_moved (set_approvals (approvals d ++ [row]) d).
Proof. intros (r & Hr & Hm). exists r. split; [|done]. by apply find_app_some. Qed.

Ltac approval_leaf :=
  first
    [ frame_read
    | lazymatch goal with
      | |- preserves approval_moved (update_rows approvals _ _ _) =>
          apply preserves_update; intros ? ?; apply approval_update;
            [done|done|intros ? ?; bool_hyps; cbn;
               match goal with E : ap_status _ = _ |- _ => rewrite E end;
               first [constructor | by apply resolve_step]|assumption]
      | |- preserves approval_moved (insert_row approvals _ _ _ _ _) =>
          apply preserves_insert; intros ? ? _ _; by apply approval_insert
      end ].

Lemma approval_command c : typed c = true -> preserves approval_moved (run_command c).
Proof.
  intros Ht. destruct c; cbn [typed] in Ht; frame_command approval_leaf.
Qed.
End Approval.

(** A call recorded on an approval found it approved, for its run, and left it
    consumed. *)
Lemma recordToolIntent_approval input approvalId s s1 id :
  ti_approvalId input = Some approvalId -> recordToolIntent input s = (s1, Ok id) ->
  (exists row, approval_row approvalId (db s) = Some row /\
     ap_run_id row = fl_runId (ti_lease input) /\ ap_status row = aps_approved) /\
  (exists row, approval_row approvalId (db s1) = Some row /\ ap_status row = aps_consumed).
Proof.
  intros Ha Hok. unfold recordToolIntent in Hok. cbv zeta in Hok.
  apply mbind_ok in Hok as (s2 & now & [= <- <-] & Hok).
  apply mbind_ok in Hok as (s3 & uuid & [= <- <-] & Hok).
  apply mbind_ok in Hok as (s3 & callId & [= <- _] & Hok).
  apply mbind_ok in Hok as (s4 & exhausted & Htx & Hok).
  apply mbind_ok in Hok as (s5 & [] & [-> ->]%guard_ok & [= <- _]).
  rewrite transaction_ok in Htx.
  apply mbind_ok in Htx as (s5 & [] & Hl & Htx).
  apply reads_ok in Hl; [|intros ?; apply preserves_assertLease]. cbn [db] in Hl.
  apply mbind_ok in Htx as (s6 & budgeted & Hb & Htx).
  assert (approvals (db s6) = approvals (db s)) as Happ.
  { rewrite <- Hl. eapply (preserves_ok (fun d => approvals d = approvals (db s5)));
      [|done|exact Hb]. frame ltac:(first [frame_read | frame_unfold]). }
  destruct (_ || _); [done|].
  apply mbind_ok in Htx as (s7 & [] & Hstart & [= <-]).
  unfold start_tool_call in Hstart. rewrite Ha in Hstart. cbv zeta in Hstart.
  apply mbind_ok in Hstart as (s8 & [] & Happrove & Hstart).
  apply mbind_ok in Happrove as (s9 & row & Hrow & Happrove).
  unfold mustApproval, select_row in Hrow.
  apply mbind_ok in Hrow as (s10 & found & [= <- Hfound] & Hrow).
  destruct found as [found|]; [|done]. injection Hrow as <- <-.
  apply mbind_ok in Happrove as (s10 & [] & [Hg ->]%guard_ok & Happrove). bool_hyps.
  fold (approval_row approvalId (db s6)) in Hfound.
  split; [exists found; by unfold approval_row in *; rewrite <- Happ|].
  assert (exists row, approval_row approvalId (db s7) = Some row /\
    rtc approval_step aps_consumed (ap_status row) /\ ap_run_id row = ap_run_id found)
    as (row & Hrow & Hm & _).
  { eapply (preserves_ok (approval_moved approvalId aps_consumed (ap_run_id found)));
      [| |exact Hstart].
    { frame ltac:(first [frame_read | frame_unfold]). }
    apply mbind_ok in Happrove as (s10 & [] & Hu & Happrove). injection Hu as <-.
    eapply (preserves_ok (approval_moved approvalId aps_consumed (ap_run_id found)));
      [| |exact Happrove].
    { frame ltac:(first [frame_read | frame_unfold]). }
    eexists. unfold approval_row in *. cbn [db set_db approvals set_approvals].
    rewrite find_map_update, Hfound by done. split; [done|].
    pose proof (approval_row_id _ _ _ Hfound) as ->.
    match goal with E : ap_status found = _ |- _ => rewrite E end.
    rewrite !bool_decide_eq_true_2 by done. split; [apply rtc_refl|done]. }
  exists row. split; [done|]. eapply (approval_final aps_consumed); [done|].
  rewrite !elem_of_cons. auto.
Qed.

(** A refused call is not recorded. *)
Lemma recordToolIntent_refused input s s1 e :
  recordToolIntent input s = (s1, Throw e) -> tool_calls (db s1) = tool_calls (db s).
Proof.
  unfold recordToolIntent. cbv zeta.
  intros [|(s2 & now & [= <- <-] & Hth)]%mbind_throws; [done|].
  apply mbind_throws in Hth as [|(s3 & uuid & [= <- <-] & Hth)]; [done|].
  apply mbind_throws in Hth as [[= <- _]|(s3 & callId & [= <- _] & Hth)]; [done|].
  apply mbind_throws in Hth as [Htx|(s4 & exhausted & Htx & Hth)].
  { by apply transaction_throws in Htx as ->. }
  apply mbind_throws in Hth as [(-> & -> & _)%guard_throws|(s5 & [] & _ & Hth)]; [|done].
  rewrite transaction_ok in Htx.
  apply mbind_ok in Htx as (s5 & [] & Hl & Htx).
  apply reads_ok in Hl; [|intros ?; apply preserves_assertLease]. cbn [db] in Hl.
  apply mbind_ok in Htx as (s6 & budgeted & Hb & Htx).
  assert (tool_calls (db s6) = tool_calls (db s)) as Hcalls.
  { rewrite <- Hl. eapply (preserves_ok (fun d => tool_calls d = tool_calls (db s5)));
      [|done|exact Hb]. frame ltac:(first [frame_read | frame_unfold]). }
  destruct (_ || _); [by injection Htx as <-|].
  by apply mbind_ok in Htx as (s7 & [] & _ & [=]).
Qed.

(** An approval is decided once and used once: along any commands it stays
    with its run and its status moves only from pending to approved, rejected
    or expired, and from approved to consumed; a decision other than approval,
    and a consumed approval, stand for ever. *)
Theorem approval_lifecycle approvalId s s' row :
  rtc store_step s s' -> approval_row approvalId (db s) = Some row ->
  exists row', approval_row approvalId (db s') = Some row' /\
    ap_run_id row' = ap_run_id row /\
    rtc approval_step (ap_status row) (ap_status row') /\
    (ap_status row ∈ [aps_rejected; aps_expired; aps_consumed] ->
     ap_status row' = ap_status row).
Proof.
  intros Hsteps Hrow.
  assert (approval_moved approvalId (ap_status row) (ap_run_id row) (db s'))
    as (row' & Hrow' & Hm & Hr).
  { apply (steps_preserve _ s); [intros; by apply approval_command|done|].
    exists row. split; [done|]. split; [apply rtc_refl|done]. }
  exists row'. split; [done|]. split; [done|]. split; [done|]. intros Hf.
  by eapply approval_final.
Qed.

(** C7: an approval authorises at most one tool call: a call recorded on it
    found it approved for the call's own run and leaves it consumed; it stays
    consumed in every store reached from then on, where every tool call that
    presents it again throws and is not recorded. *)
Theorem approval_authorizes_one_call input approvalId s s1 id :
  ti_approvalId input = Some approvalId -> recordToolIntent input s = (s1, Ok id) ->
  (exists row, approval_row approvalId (db s) = Some row /\
     ap_run_id row = fl_runId (ti_lease input) /\ ap_status row = aps_approved) /\
  (forall s2, rtc store_step s1 s2 -> exists row, approval_row approvalId (db s2) = Some row /\
     ap_status row = aps_consumed) /\
  (forall s2 input', rtc store_step s1 s2 -> ti_approvalId input' = Some approvalId ->
     exists s3 e, recordToolIntent input' s2 = (s3, Throw e) /\
       tool_calls (db s3) = tool_calls (db s2)).
Proof.
  intros Ha Hok. destruct (recordToolIntent_approval _ _ _ _ _ Ha Hok)
    as [Hbefore (row & Hrow & Hst)].
  assert (forall s2, rtc store_step s1 s2 -> exists row, approval_row approvalId (db s2) = Some row /\
    ap_status row = aps_consumed) as Hconsumed.
  { intros s2 Hsteps. assert (approval_moved approvalId aps_consumed (ap_run_id row) (db s2))
      as (row' & Hrow' & Hm & _).
    { eapply steps_preserve; [intros; by apply approval_command|exact Hsteps|].
      exists row. rewrite Hst. split; [done|]. split; [apply rtc_refl|done]. }
    apply approval_final in Hm; [|rewrite !elem_of_cons; auto]. by exists row'. }
  split; [done|]. split; [done|]. intros s2 input' Hsteps Ha'.
  destruct (Hconsumed s2 Hsteps) as (row' & Hrow' & Hm).
  destruct (recordToolIntent input' s2) as [s3 [x|e]] eqn:E.
  - apply recordToolIntent_approval with (approvalId := approvalId) in E
      as [(row2 & Hrow2 & _ & Hst2) _]; [|done].
    rewrite Hrow' in Hrow2. injection Hrow2 as <-. congruence.
  - exists s3, e. split; [done|]. by eapply recordToolIntent_refused.
Qed.

(** ** Agent messages *)

Lemma iterate_establishes {A} (I : Db -> Prop) (P : A -> Db -> Prop) (body : A -> M unit)
    l s s' u :
  (forall x, x ∈ l -> forall s s' u, I (db s) -> body x s = (s', Ok u) -> P x (db s')) ->
  (forall y, preserves I (body y)) -> (forall x y, preserves (P x) (body y)) ->
  I (db s) -> iterate body l s = (s', Ok u) -> forall x, x ∈ l -> P x (db s').
Proof.
  intros Hbody HI HP. revert s. induction l as [|a l IH]; intros s Hs Hok x Hx;
    [by apply not_elem_of_nil in Hx|].
  change (iterate body (a :: l)) with (body a ≫= fun _ => iterate body l) in Hok.
  apply mbind_ok in Hok as (s1 & v & Ha & Hok).
  assert (I (db s1)) as Hs1 by (by eapply preserves_ok).
  apply elem_of_cons in Hx as [->|Hx].
  - apply (preserves_ok (P a) _ _ _ _ (preserves_iterate _ _ _ (HP a))) with (2 := Hok).
    by eapply Hbody; [apply list_elem_of_here| |exact Ha].
  - eapply IH; [|exact Hs1|exact Hok|exact Hx].
    intros y Hy. apply Hbody. by apply list_elem_of_further.
Qed.

Section Message.
Context (id : string).

Definition message_known (d : Db) : Prop := exists m, m ∈ agent_messages d /\ am_id m = id.

(** The message exists, and every copy of it has been delivered. *)
Definition message_delivered (d : Db) : Prop :=
  message_known d /\
  forall m, m ∈ agent_messages d -> am_id m = id -> am_status m = ams_delivered.

Lemma known_update (c : MessageRow -> bool) (f : MessageRow -> MessageRow) d :
  (forall m, am_id (f m) = am_id m) -> message_known d ->
  message_known (set_agent_messages
    (map (fun m => if c m then f m else m) (agent_messages d)) d).
Proof.
  intros Hid (m & Hm & <-). exists (if c m then f m else m).
  split; [apply list_elem_of_fmap; by exists m|]. destruct (c m); [by rewrite Hid|done].
Qed.

Lemma delivered_update (c : MessageRow -> bool) (f : MessageRow -> MessageRow) d :
  (forall m, am_id (f m) = am_id m) -> (forall m, am_status (f m) = ams_delivered) ->
  message_delivered d ->
  message_delivered (set_agent_messages
    (map (fun m => if c m then f m else m) (agent_messages d)) d).
Proof.
  intros Hid Hf [Hk Hd]. split; [by apply known_update|].
  cbn [agent_messages set_agent_messages].
  intros m (m0 & -> & Hm0)%list_elem_of_fmap. destruct (c m0); [by rewrite Hf|by apply Hd].
Qed.

Lemma delivered_insert row d :
  message_delivered d -> existsb (fun m => am_id row === am_id m) (agent_messages d) = false ->
  message_delivered (set_agent_messages (agent_messages d ++ [row]) d).
Proof.
  intros [(m & Hm & Hid) Hd] Hfresh. rewrite existsb_false in Hfresh. split.
  - exists m. split; [|done]. apply elem_of_app. by left.
  - intros m' [Hm'| ->%list_elem_of_singleton]%elem_of_app; [by apply Hd|].
    intros Hrow. specialize (Hfresh m Hm). bool_hyps. congruence.
Qed.

Ltac message_leaf :=
  first
    [ frame_read
    | lazymatch goal with
      | |- preserves message_delivered (update_rows agent_messages _ _ _) =>
          apply preserves_update; intros ? ?; by apply delivered_update
      | |- preserves message_known (update_rows agent_messages _ _ _) =>
          apply preserves_update; intros ? ?; by apply known_update
      | |- preserves message_delivered (insert_row agent_messages _ _ _ _ _) =>
          apply preserves_insert; intros ? ? ? _; by apply delivered_insert
      end ].

Lemma delivered_command c : preserves message_delivered (run_command c).
Proof. destruct c; frame_command message_leaf. Qed.
End Message.

(** What a receive returns was pending, and is delivered afterwards. *)
Lemma receive_delivers agentId lease limit s s1 msgs m :
  receiveAgentMessages agentId lease limit s = (s1, Ok msgs) -> m ∈ msgs ->
  (exists m0, m0 ∈ agent_messages (db s) /\ am_id m0 = am_id m /\ am_to_agent_id m0 = agentId /\
     am_run_id m0 = fl_runId lease /\ am_status m0 = ams_pending) /\
  message_delivered (am_id m) (db s1).
Proof.
  intros Hok Hm. unfold receiveAgentMessages in Hok.
  apply mbind_ok in Hok as (s2 & now & [= <- <-] & Hok). rewrite transaction_ok in Hok.
  apply mbind_ok in Hok as (s2 & [] & Hl & Hok).
  apply reads_ok in Hl; [|intros ?; apply preserves_assertLease]. cbn [db] in Hl.
  apply mbind_ok in Hok as (s3 & rows & [= <- Hrows] & Hok).
  apply mbind_ok in Hok as (s4 & [] & Hit & Hok). injection Hok as <- <-.
  apply list_elem_of_fmap in Hm as (row & -> & Hrow). cbn [am_id set_am_status set_am_delivered_at].
  assert (forall r, r ∈ rows -> r ∈ agent_messages (db s2) /\ am_to_agent_id r = agentId /\
    am_run_id r = fl_runId lease /\ am_status r = ams_pending) as Hsel.
  { intros r Hr. rewrite <- Hrows in Hr.
    assert (r ∈ sort_by (key_le am_created_at) (List.filter (fun m =>
      (am_to_agent_id m === agentId) && (am_run_id m === fl_runId lease) &&
      (am_status m === ams_pending)) (agent_messages (db s2)))) as Hin.
    { revert Hr. unfold sql_limit. case_match; [done|]. apply elem_of_take'. }
    rewrite sort_by_elem, elem_of_list_filter in Hin. destruct Hin as [? Hc]. by bool_hyps. }
  split; [destruct (Hsel row Hrow) as (? & ? & ? & ?); exists row; by rewrite <- Hl|].
  revert row Hrow. change (forall r, r ∈ rows ->
    (fun r d => message_delivered (am_id r) d) r (db s4)).
  eapply (iterate_establishes (fun d => forall r, r ∈ rows -> message_known (am_id r) d));
    [| | | |exact Hit].
  - intros r Hr s5 s6 u Hknown Hbody.
    apply mbind_ok in Hbody as (s7 & [] & [= <-] & Hbody).
    eapply preserves_ok; [| |exact Hbody].
    { frame ltac:(first [frame_read | frame_unfold]). }
    split; [by apply known_update, Hknown|]. cbn [db set_db agent_messages set_agent_messages].
    intros m (m0 & -> & Hm0)%list_elem_of_fmap. case_bool_decide; [done|]. intros Heq. done.
  - intros y s5 Hknown r Hr.
    eapply (preserves_bind (message_known (am_id r))); [| |by apply Hknown].
    + apply preserves_update. intros d Hd. by apply known_update.
    + intros []. frame ltac:(first [frame_read | frame_unfold]).
  - intros r y. apply preserves_bind.
    + apply preserves_update. intros d Hd. by apply delivered_update.
    + intros []. frame ltac:(first [frame_read | frame_unfold]).
  - intros r Hr. exists r. split; [|done]. by apply Hsel.
Qed.

(** An agent message is delivered at most once: what a receive returns was
    pending, addressed to the agent and of the lease's run, is delivered in the
    store it leaves, and no receive by
    any agent at any later time returns a message with the same id again. *)
Theorem message_delivered_once agentId lease limit s s1 msgs m :
  receiveAgentMessages agentId lease limit s = (s1, Ok msgs) -> m ∈ msgs ->
  (exists m0, m0 ∈ agent_messages (db s) /\ am_id m0 = am_id m /\ am_to_agent_id m0 = agentId /\
     am_run_id m0 = fl_runId lease /\ am_status m0 = ams_pending) /\
  message_delivered (am_id m) (db s1) /\
  (forall s2 agentId' lease' limit' s3 msgs' m', rtc store_step s1 s2 ->
     receiveAgentMessages agentId' lease' limit' s2 = (s3, Ok msgs') -> m' ∈ msgs' ->
     am_id m' <> am_id m).
Proof.
  intros Hok Hm. destruct (receive_delivers _ _ _ _ _ _ _ Hok Hm) as [Hbefore Hd].
  split; [done|]. split; [done|].
  intros s2 agentId' lease' limit' s3 msgs' m' Hsteps Hok' Hm' Heq.
  apply (steps_preserve _ _ _ (fun c _ => delivered_command _ c) Hsteps) in Hd.
  destruct Hd as [_ Hd].
  destruct (receive_delivers _ _ _ _ _ _ _ Hok' Hm') as [(m0 & Hm0 & Hid & _ & _ & Hst) _].
  rewrite (Hd m0 Hm0) in Hst; [discriminate|congruence].
Qed.
End Once.

(** ** Instances *)

Definition demo_pause : Store :=
  (executeCommand cmd_pause "command-1" None demo_run demo_store).1.

Lemma command_executed_once_witness :
  exists run, executeCommand cmd_cancel "command-1" None demo_run demo_pause = (demo_pause, Ok run) /\
    run_status run = run_paused.
Proof.
  destruct (executeCommand cmd_pause "command-1" None demo_run demo_store) as [s1 [run|e]] eqn:E;
    [|vm_compute in E; discriminate E].
  exists run. assert (demo_pause = s1) as -> by (unfold demo_pause; by rewrite E).
  split.
  - exact (proj2 (command_executed_once cmd_pause "command-1" None demo_run demo_store s1 run s1
      cmd_cancel None E (rtc_refl _ _))).
  - vm_compute in E. injection E as _ <-. reflexivity.
Defined.

Definition demo_delta : BudgetDelta :=
  {| d_inputTokens := Some (ofZ 100); d_outputTokens := Some (ofZ 7); d_cachedTokens := None;
     d_costUsd := None; d_wallTimeMs := None; d_toolCalls := None; d_childAgents := None |}.

Lemma usage_charged_once_witness :
  let first := recordUsageFenced (demo_lease "executor-1" 1) demo_delta (Some (None, "turn-1"))
                 demo_ready in
  is_ok first.2 = true /\
  db (recordUsageFenced (demo_lease "executor-1" 1) demo_delta (Some (None, "turn-1"))
        first.1).1 = db first.1.
Proof.
  cbv zeta.
  destruct (recordUsageFenced (demo_lease "executor-1" 1) demo_delta (Some (None, "turn-1"))
    demo_ready) as [s1 [run|e]] eqn:E; [|vm_compute in E; discriminate E].
  split; [reflexivity|].
  exact (proj2 (usage_charged_once (demo_lease "executor-1" 1) demo_delta None "turn-1"
    demo_ready s1 run E) s1 (demo_lease "executor-1" 1) demo_delta None (rtc_refl _ _) eq_refl).
Defined.

(** An approval requested and granted, and a tool call on it. *)
Definition demo_requested : Store :=
  after_commands [c_requestApproval None None demo_run "deploy" None] demo_ready.
Definition demo_approval : string := default "" (ap_id <$> head (approvals (db demo_requested))).
Definition demo_approved : Store :=
  after_commands [c_resolveApproval demo_approval "user" aps_approved] demo_requested.
Definition demo_intent : ToolIntentInput :=
  {| ti_agentId := None; ti_approvalId := Some demo_approval; ti_idempotency := id_unsafe;
     ti_name := "deploy"; ti_recovery := rec_reconcile; ti_sideEffectClass := se_external;
     ti_input := jobj []; ti_lease := demo_lease "executor-1" 1; ti_taskId := None |}.

Lemma approval_lifecycle_witness :
  exists row, approval_row demo_approval (db demo_approved) = Some row /\
    rtc approval_step aps_pending (ap_status row).
Proof.
  destruct (approval_row demo_approval (db demo_requested)) as [row|] eqn:Hrow;
    [|vm_compute in Hrow; discriminate Hrow].
  destruct (approval_lifecycle demo_approval demo_requested demo_approved row)
    as (row' & H1 & _ & H2 & _).
  - apply after_commands_steps. repeat constructor.
  - exact Hrow.
  - exists row'. split; [exact H1|].
    assert (aps_pending = ap_status row) as ->; [|exact H2].
    vm_compute in Hrow. injection Hrow as <-. reflexivity.
Defined.

Lemma approval_authorizes_one_call_witness :
  exists s1 id, recordToolIntent demo_intent demo_approved = (s1, Ok id) /\
    exists s2 e, recordToolIntent demo_intent s1 = (s2, Throw e).
Proof.
  destruct (recordToolIntent demo_intent demo_approved) as [s1 [id|e]] eqn:E;
    [|vm_compute in E; discriminate E].
  exists s1, id. split; [reflexivity|].
  destruct (proj2 (proj2 (approval_authorizes_one_call demo_intent demo_approval demo_approved s1 id
    eq_refl E)) s1 demo_intent (rtc_refl _ _) eq_refl) as (s2 & e & H & _).
  exists s2, e. exact H.
Defined.

Definition demo_message : SendAgentMessageInput :=
  {| sm_body := jstr "go"; sm_fromAgentId := None; sm_kind := amk_question;
     sm_lease := demo_lease "executor-1" 1; sm_taskId := None; sm_toAgentId := demo_agent |}.
Definition demo_sent : Store := after_commands [c_sendAgentMessage demo_message] demo_ready.

Lemma message_delivered_once_witness :
  exists s1 m, receiveAgentMessages demo_agent (demo_lease "executor-1" 1) None demo_sent =
    (s1, Ok [m]) /\
  forall s3 m', receiveAgentMessages demo_agent (demo_lease "executor-1" 1) None s1 =
    (s3, Ok [m']) -> am_id m' <> am_id m.
Proof.
  destruct (receiveAgentMessages demo_agent (demo_lease "executor-1" 1) None demo_sent)
    as [s1 [[|m [|]]|e]] eqn:E; try (vm_compute in E; discriminate E).
  exists s1, m. split; [reflexivity|]. intros s3 m' E'.
  exact (proj2 (proj2 (message_delivered_once demo_agent (demo_lease "executor-1" 1) None
    demo_sent s1 [m] m E (list_elem_of_here _ _))) s1 demo_agent (demo_lease "executor-1" 1) None s3 [m'] m'
    (rtc_refl _ _) E' (list_elem_of_here _ _)).
Defined.
