(* ===== verification/StoreLocks.v ===== *)
(** Resource locks: what two executors hold at the same time does not conflict. *)

From Stdlib Require Import ZArith Lia.
From stdpp Require Import base strings list relations.
From S2P Require Import Prelude JsNumber JsString JsCollections Protocol Json Ids StateMachine.
From S2P Require Import Policies Budget StoreData StoreMonad StoreCore StoreRuns StoreTasks.
From S2P Require Import StoreEffects StoreCommands StoreSafety.

Open Scope string_scope.
Open Scope list_scope.
#[local] Open Scope Z_scope.

(** Who holds a lock: executor, run and lease generation. *)
Definition lock_owner (l : LockRow) : string * string * Z :=
  (rl_holder_id l, rl_run_id l, rl_lease_generation l).

(** Locks of different owners have scopes that do not conflict. *)
Definition locks_disjoint (d : Db) : Prop :=
  forall a b, a ∈ resource_locks d -> b ∈ resource_locks d ->
    lock_owner a = lock_owner b \/ resourceScopesConflict (rl_scope a) (rl_scope b) = false.

Lemma own_lock_owner executorId runId generation l :
  own_lock executorId runId generation l = true <->
  lock_owner l = (executorId, runId, generation).
Proof.
  unfold own_lock, lock_owner. rewrite !andb_true_iff, !bool_decide_eq_true, Z.eqb_eq.
  split; [by intros [[-> ->] ->]|by intros [= -> -> ->]].
Qed.

Lemma locks_disjoint_delete (c : LockRow -> bool) d :
  locks_disjoint d ->
  locks_disjoint (set_resource_locks (List.filter (fun l => negb (c l)) (resource_locks d)) d).
Proof.
  intros Hd a b. cbn [resource_locks set_resource_locks].
  intros [Ha _]%elem_of_list_filter [Hb _]%elem_of_list_filter. by apply Hd.
Qed.

(** The owner may lock any of the scopes. *)
Definition scopes_free (owner : string * string * Z) (scopes : list ResourceScope) (d : Db)
  : Prop :=
  locks_disjoint d /\
  forall scope l, scope ∈ scopes -> l ∈ resource_locks d ->
    lock_owner l = owner \/ resourceScopesConflict scope (rl_scope l) = false.

Lemma scopes_free_insert owner scopes row d :
  lock_owner row = owner -> rl_scope row ∈ scopes -> scopes_free owner scopes d ->
  scopes_free owner scopes (set_resource_locks (resource_locks d ++ [row]) d).
Proof.
  intros Ho Hrow [Hd Hf]. split; cbn [resource_locks set_resource_locks].
  - intros a b [Ha| ->%list_elem_of_singleton]%elem_of_app
      [Hb| ->%list_elem_of_singleton]%elem_of_app; [by apply Hd| | |by left].
    + rewrite scopes_conflict_sym, Ho. by apply Hf.
    + rewrite Ho. destruct (Hf _ _ Hrow Hb) as [->|?]; [by left|by right].
  - intros scope l Hs [Hl| ->%list_elem_of_singleton]%elem_of_app; [by apply Hf|by left].
Qed.

Section Locks.
Context `{Env}.

Lemma insert_locks_free runId executorId taskId now expiresAt generation scopes all index :
  scopes ⊆ all ->
  preserves (scopes_free (executorId, runId, generation) all)
    (insert_locks runId executorId taskId now expiresAt generation index scopes).
Proof.
  revert index. induction scopes as [|scope scopes IH]; intros index Hsub;
    cbn [insert_locks]; [apply preserves_ret|].
  apply preserves_bind; [apply preserves_newId|intros generated].
  apply preserves_bind; [|intros _].
  - apply preserves_insert. intros d Hd _ _.
    apply scopes_free_insert; [done| |done]. apply Hsub, list_elem_of_here.
  - apply preserves_bind; [|intros ids; apply preserves_ret].
    apply IH. intros x Hx. by apply Hsub, list_elem_of_further.
Qed.

Lemma iterate_guards {A} (c : A -> bool) (e : A -> exn) l s s' r :
  iterate (fun x => guard_throw (c x) (e x)) l s = (s', r) ->
  s' = s /\ (is_ok r = true -> forall x, x ∈ l -> c x = false).
Proof.
  induction l as [|x l IH]; cbn [iterate].
  { intros [= <- <-]. split; [done|]. by intros _ ? ?%not_elem_of_nil. }
  unfold mbind, M_bind, guard_throw at 1, throw, mret, M_ret.
  destruct (c x) eqn:Ec; [by intros [= <- <-]|].
  intros [-> Hl]%IH. split; [done|]. by intros Hr y [->|Hy]%elem_of_cons; [|apply Hl].
Qed.

Lemma after_weaken {A} (P Q : Db -> Prop) (m : M A) s :
  (forall d, P d -> Q d) -> after P m s -> after Q m s.
Proof. intros HPQ. apply HPQ. Qed.

Lemma locks_acquire executorId lease runId scopes taskId ttlMs :
  preserves locks_disjoint (acquireResourceLocks executorId lease runId scopes taskId ttlMs).
Proof.
  intros s Hs.
  match goal with |- locks_disjoint (db (?m s).1) => change (after locks_disjoint m s) end.
  unfold acquireResourceLocks. cbv zeta.
  apply after_read; [intros ?; apply preserves_timestamp|done|]. intros s1 now _ E1.
  rewrite <- E1 in Hs. apply after_transaction; [done|].
  assert (forall c, preserves locks_disjoint
    (delete_rows resource_locks set_resource_locks c)) as Hdel.
  { intros c. apply preserves_delete. intros d. apply locks_disjoint_delete. }
  set (generation := match lease with Some l => fl_generation l | None => 0 end).
  assert (forall A (m : M A) s' r, preserves locks_disjoint m -> m s1 = (s', r) ->
    locks_disjoint (db s')) as Hstep.
  { intros A m s' r Hm E. specialize (Hm s1 Hs). by rewrite E in Hm. }
  apply after_bind.
  2: { intros s2 e E. eapply Hstep; [|exact E].
    frame ltac:(first [frame_read | apply Hdel]). }
  intros s2 [] E. apply Hstep in E; [|frame ltac:(first [frame_read | apply Hdel])].
  apply after_execute. set (s3 := set_db _ s2).
  assert (locks_disjoint (db s3)) as Hs3 by (by apply locks_disjoint_delete).
  apply after_query. rewrite filter_true_b by done.
  apply after_bind.
  2: { intros s4 e E4. by apply iterate_guards in E4 as [-> _]. }
  intros s4 [] [-> Hc]%iterate_guards. specialize (Hc eq_refl).
  apply (after_weaken (scopes_free (executorId, runId, generation) scopes)); [by intros d []|].
  apply after_preserves; [by apply insert_locks_free|]. split; [done|].
  intros scope l Hscope Hl. specialize (Hc scope Hscope). unfold lock_conflict in Hc.
  rewrite existsb_false in Hc. specialize (Hc l Hl). cbn beta in Hc.
  apply andb_false_iff in Hc as [Hown|?]; [|by right]. left. bool_hyps.
  by apply own_lock_owner.
Qed.

Lemma locks_command c : preserves locks_disjoint (run_command c).
Proof.
  destruct c; try (apply preserves_bind;
    [apply locks_acquire|intros; apply preserves_ret]).
  all: frame_command ltac:(first
    [ frame_read
    | lazymatch goal with
      | |- preserves _ (delete_rows resource_locks _ _) =>
          apply preserves_delete; intros ? ?; by apply locks_disjoint_delete
      end ]).
Qed.

(** C10: in every store reached by commands, locks held by different executors,
    runs or lease generations never have conflicting scopes; and asking for a
    scope that conflicts with a lock of somebody else which has not expired,
    and which the caller's lease does not supersede, throws, takes nothing and
    changes no table. *)
Theorem resource_locks_exclusive s s' :
  locks_disjoint (db s) -> rtc store_step s s' ->
  (forall a b, a ∈ resource_locks (db s') -> b ∈ resource_locks (db s') ->
     lock_owner a <> lock_owner b ->
     resourceScopesConflict (rl_scope a) (rl_scope b) = false) /\
  (forall executorId lease runId scopes taskId ttlMs l scope,
     let generation := match lease with Some fl => fl_generation fl | None => 0 end in
     l ∈ resource_locks (db s') -> clock_at (clock_reads s') < rl_expires_at l ->
     lock_owner l <> (executorId, runId, generation) ->
     (lease = None \/ rl_run_id l <> runId \/ generation <= rl_lease_generation l) ->
     scope ∈ scopes -> resourceScopesConflict scope (rl_scope l) = true ->
     exists s2 e, acquireResourceLocks executorId lease runId scopes taskId ttlMs s' =
       (s2, Throw e) /\ db s2 = db s').
Proof.
  intros Hd Hsteps. split.
  { intros a b Ha Hb Hne.
    assert (locks_disjoint (db s')) as Hd'
      by (apply (steps_preserve _ s); auto using locks_command).
    by destruct (Hd' a b Ha Hb). }
  intros executorId lease runId scopes taskId ttlMs l scope generation Hl Hexp Hown Hlater
    Hscope Hconf.
  destruct (acquireResourceLocks executorId lease runId scopes taskId ttlMs s') as [s2 [x|e]]
    eqn:E.
  2: { exists s2, e. split; [done|]. unfold acquireResourceLocks in E.
    apply mbind_throws in E as [[=]|(s3 & now & [= <- <-] & E)].
    by apply transaction_throws in E. }
  exfalso. unfold acquireResourceLocks in E. cbv zeta in E. fold generation in E.
  apply mbind_ok in E as (s3 & now & [= <- <-] & E). rewrite transaction_ok in E.
  apply mbind_ok in E as (s4 & [] & Hlease & E).
  assert (l ∈ resource_locks (db s4)) as Hl4.
  { destruct lease as [fl|]; [|by injection Hlease as <-].
    apply mbind_ok in Hlease as (s5 & [] & H5 & Hlease).
    apply reads_ok in H5; [|intros ?; apply preserves_assertLease].
    apply mbind_ok in Hlease as (s6 & [] & [_ ->]%guard_ok & [= <-]).
    cbn [db set_db resource_locks set_resource_locks]. rewrite H5.
    apply elem_of_list_filter. split; [done|]. apply negb_true_iff, andb_false_iff.
    destruct Hlater as [?|[?|?]]; [done|left; by apply bool_decide_eq_false|right].
    apply Z.ltb_ge. done. }
  apply mbind_ok in E as (s5 & [] & [= <-] & E).
  apply mbind_ok in E as (s6 & existing & [= <- <-] & E).
  apply mbind_ok in E as (s7 & [] & [_ Hc]%iterate_guards & _).
  specialize (Hc eq_refl scope Hscope). unfold lock_conflict in Hc.
  rewrite existsb_false in Hc. specialize (Hc l).
  rewrite filter_true_b in Hc by done. cbn [db set_db resource_locks set_resource_locks] in Hc.
  rewrite elem_of_list_filter in Hc. cbn beta in Hc.
  rewrite Hconf, andb_true_r in Hc.
  assert (own_lock executorId runId generation l = true); [|by apply Hown, own_lock_owner].
  apply negb_false_iff, Hc. split; [done|]. apply negb_true_iff, Z.leb_gt. done.
Qed.
End Locks.

(** Two runs of the demo: the second asks for a file under the first's directory. *)
Definition demo_scope (path : string) : ResourceScope :=
  {| scope_kind := rk_file; scope_identifier := path; scope_access := ac_write |}.
Definition demo_locked : Store :=
  after_commands [c_acquireResourceLocks "executor-1" (Some (demo_lease "executor-1" 1)) demo_run
    [demo_scope "src"; demo_scope "docs/a.md"] None 1000] demo_ready.

Lemma resource_locks_exclusive_witness :
  map rl_scope (resource_locks (db demo_locked)) = [demo_scope "src"; demo_scope "docs/a.md"] /\
  exists s2 e, acquireResourceLocks "executor-2" None "run_2" [demo_scope "src/a.ts"] None 10
    demo_locked = (s2, Throw e) /\ db s2 = db demo_locked.
Proof.
  split; [vm_compute; reflexivity|].
  destruct (resource_locks (db demo_locked)) as [|l ls] eqn:Hls;
    [vm_compute in Hls; discriminate Hls|].
  assert (rl_scope l = demo_scope "src" /\ (clock_at (clock_reads demo_locked) <? rl_expires_at l) = true /\
          rl_holder_id l = "executor-1") as (Hs & He & Hh).
  { vm_compute in Hls. injection Hls as <- _. vm_compute. repeat split. }
  refine (proj2 (resource_locks_exclusive demo_locked demo_locked _ (rtc_refl _ _))
    "executor-2" None "run_2" [demo_scope "src/a.ts"] None 10 l (demo_scope "src/a.ts")
    _ _ _ _ _ _).
  - intros a b Ha Hb. left.
    assert (map lock_owner (resource_locks (db demo_locked)) =
      [("executor-1", demo_run, 1); ("executor-1", demo_run, 1)]) as Ho
      by (vm_compute; reflexivity).
    assert (forall x, x ∈ resource_locks (db demo_locked) ->
      lock_owner x = ("executor-1", demo_run, 1)) as Hall.
    { intros x Hx%(list_elem_of_fmap_2 lock_owner).
      change (lock_owner x ∈ map lock_owner (resource_locks (db demo_locked))) in Hx.
      rewrite Ho, !elem_of_cons in Hx. destruct Hx as [Hx|[Hx|Hx]]; [exact Hx|exact Hx|].
      destruct (not_elem_of_nil _ Hx). }
    rewrite (Hall a Ha), (Hall b Hb). reflexivity.
  - rewrite Hls. apply list_elem_of_here.
  - by apply Z.ltb_lt.
  - unfold lock_owner. rewrite Hh. discriminate.
  - by left.
  - apply list_elem_of_here.
  - rewrite Hs. reflexivity.
Defined.
