(* ===== verification/StoreGraph.v ===== *)
(** Goals, agents and tasks: their lifecycles under every command, and the
    claim of a task by one agent. *)

From Stdlib Require Import ZArith Lia.
From stdpp Require Import base strings list relations.
From S2P Require Import Prelude JsNumber JsString JsCollections Protocol Json Ids StateMachine.
From S2P Require Import Policies Budget StoreData StoreMonad StoreCore StoreRuns StoreTasks.
From S2P Require Import StoreEffects StoreCommands StoreSafety.

Open Scope string_scope.
Open Scope list_scope.
#[local] Open Scope Z_scope.

(** ** Rows of one table that move along a transition table *)

Section Entity.
Context {R S : Type} `{EqDecision S} (tbl : Db -> list R) (set_tbl : list R -> Db -> Db)
  (key : R -> string) (status : R -> S) (transitions : TransitionTable S).
Context (tbl_set : forall l d, tbl (set_tbl l d) = l).

Definition entity_row (id : string) (d : Db) : option R :=
  find (fun r => key r === id) (tbl d).

Definition entity_moved (id : string) (start : S) (d : Db) : Prop :=
  exists row, entity_row id d = Some row /\
    rtc (lifecycle_step transitions) start (status row).

Lemma entity_row_key id d row : entity_row id d = Some row -> key row = id.
Proof using. intros Hr. apply find_some in Hr as [_ Hr]. by bool_hyps. Qed.

Lemma entity_row_update id (c : R -> bool) (f : R -> R) d :
  (forall r, key (f r) = key r) ->
  entity_row id (set_tbl (map (fun r => if c r then f r else r) (tbl d)) d) =
  option_map (fun r => if c r then f r else r) (entity_row id d).
Proof using tbl_set.
  intros Hk. unfold entity_row. rewrite tbl_set. by apply find_map_update.
Qed.

(** An update that keeps the status, or moves it along the table. *)
Lemma entity_update id start (c : R -> bool) (f : R -> R) d :
  (forall r, key (f r) = key r) ->
  (forall r, entity_row id d = Some r -> c r = true ->
     status (f r) = status r \/ canTransition transitions (status r) (status (f r)) = true) ->
  entity_moved id start d ->
  entity_moved id start (set_tbl (map (fun r => if c r then f r else r) (tbl d)) d).
Proof using tbl_set.
  intros Hk Hf (row & Hrow & Hm). exists (if c row then f row else row).
  rewrite entity_row_update, Hrow by done. split; [done|].
  specialize (Hf row Hrow). destruct (c row); [|done].
  destruct (Hf eq_refl) as [->|Ht]; [done|]. by eapply rtc_r.
Qed.

Lemma entity_insert id start row d :
  entity_moved id start d -> entity_moved id start (set_tbl (tbl d ++ [row]) d).
Proof using tbl_set.
  intros (r & Hr & Hm). exists r. split; [|done]. unfold entity_row in *.
  rewrite tbl_set. by apply find_app_some.
Qed.

(** Rows with distinct keys: a row of the table is the one its key finds. *)
Lemma entity_row_elem row d :
  NoDup (map key (tbl d)) -> row ∈ tbl d -> entity_row (key row) d = Some row.
Proof using.
  intros Hn Hrow. unfold entity_row. destruct (find _ (tbl d)) as [r|] eqn:E.
  - apply find_some in E as [Hr%list_elem_of_In Hk]. bool_hyps. f_equal.
    by eapply NoDup_map_inj.
  - pose proof (find_none _ _ E row (proj1 (list_elem_of_In _ _) Hrow)) as Hf.
    cbn beta in Hf. by bool_hyps.
Qed.
End Entity.

Definition goal_moved := entity_moved goals gl_id gl_status GOAL_TRANSITIONS.
Definition agent_moved := entity_moved agents ag_id ag_status AGENT_TRANSITIONS.
Definition task_moved := entity_moved tasks tk_id tk_status TASK_TRANSITIONS.

Definition goal_row := entity_row goals gl_id.
Definition agent_row_of := entity_row agents ag_id.
Definition task_row_of := entity_row tasks tk_id.

Section Graph.
Context `{Env}.

Lemma after_mustGoal {B} P id (f : GoalRow -> M B) s :
  P (db s) -> (forall row, goal_row id (db s) = Some row -> after P (f row) s) ->
  after P (mustGoal id ≫= f) s.
Proof.
  intros Hs Hf. unfold after, mustGoal, getGoal, select_row, query, must, mbind, M_bind.
  fold (goal_row id (db s)).
  change (find (fun r => gl_id r === id) (goals (db s))) with (goal_row id (db s)).
  destruct (goal_row id (db s)); [by apply Hf|done].
Qed.

Lemma after_mustAgent {B} P id (f : Agent -> M B) s :
  P (db s) ->
  (forall row, agent_row_of id (db s) = Some row -> after P (f (agentFromRow (db s) row)) s) ->
  after P (mustAgent id ≫= f) s.
Proof.
  intros Hs Hf. unfold after, mustAgent, query, must, mbind, M_bind.
  change (find (fun r => ag_id r === id) (agents (db s))) with (agent_row_of id (db s)).
  destruct (agent_row_of id (db s)); [by apply Hf|done].
Qed.

Lemma after_mustTask {B} P id (f : Task -> M B) s :
  P (db s) ->
  (forall row, task_row_of id (db s) = Some row -> after P (f (taskFromRow (db s) row)) s) ->
  after P (mustTask id ≫= f) s.
Proof.
  intros Hs Hf. unfold after, mustTask, getTask, query, must, mbind, M_bind.
  change (find (fun r => tk_id r === id) (tasks (db s))) with (task_row_of id (db s)).
  destruct (task_row_of id (db s)); [by apply Hf|done].
Qed.

(** ** Goals *)

Section Goals.
Context (id : string) (start : GoalStatus).

Ltac goal_leaf :=
  first
    [ frame_read
    | lazymatch goal with
      | |- preserves (goal_moved _ _) (update_rows goals _ _ _) =>
          apply preserves_update; intros ? ?; unfold goal_moved;
            apply entity_update; [done|done|by left|assumption]
      | |- preserves (goal_moved _ _) (insert_row goals _ _ _ _ _) =>
          apply preserves_insert; intros ? ? _ _; unfold goal_moved; by apply entity_insert
      end
    | frame_unfold ].

(** Setting the status of the goal just read, after its check. *)
Lemma goal_moved_set (c : GoalRow -> bool) (f : GoalRow -> GoalRow) current to d :
  (forall g, gl_id (f g) = gl_id g) -> (forall g, gl_status (f g) = to) ->
  (forall g, c g = true -> gl_id g = gl_id current) ->
  goal_row (gl_id current) d = Some current ->
  canTransitionGoal (gl_status current) to = true ->
  goal_moved id start d ->
  goal_moved id start (set_goals (map (fun g => if c g then f g else g) (goals d)) d).
Proof.
  intros Hid Hst Hc Hcur Ht. apply entity_update; [done|done|].
  intros r Hr Hcr. right. rewrite Hst.
  assert (r = current) as ->; [|done].
  apply Hc in Hcr. pose proof (entity_row_key _ _ _ _ _ Hr) as <-.
  unfold goal_row in Hcur. congruence.
Qed.

Lemma goal_moved_block runId fingerprint now :
  preserves (goal_moved id start) (blockRunForProblemInternal runId fingerprint now).
Proof.
  unfold blockRunForProblemInternal.
  apply preserves_bind; [apply preserves_mustRun|intros run].
  apply preserves_bind; [|intros _; frame goal_leaf].
  destruct (run_currentGoalId run) as [goalId|]; [|apply preserves_ret].
  intros s Hs.
  match goal with |- ?P (db (?m s).1) => change (after P m s) end.
  apply after_mustGoal; [done|]. intros goal Hgoal. unfold when.
  destruct (_ || _) eqn:Hst; [|done].
  apply after_execute, after_preserves; [frame goal_leaf|].
  pose proof (entity_row_key _ _ _ _ _ Hgoal) as Hid.
  eapply (goal_moved_set _ _ goal goal_blocked); [done|done|intros g ?; by bool_hyps| | |done].
  - by rewrite Hid.
  - by apply orb_true_iff in Hst as [Hst|Hst]; bool_hyps; rewrite Hst.
Qed.

Lemma goal_moved_setGoalStatus version lease goalId to :
  preserves (goal_moved id start) (setGoalStatus version lease goalId to).
Proof.
  intros s Hs.
  match goal with |- ?P (db (?m s).1) => change (after P m s) end.
  unfold setGoalStatus. apply after_read; [intros ?; apply preserves_timestamp|done|].
  intros s1 now _ E1. rewrite <- E1 in Hs. apply after_transaction; [done|].
  apply after_query. fold (goal_row goalId (db s1)).
  change (find (fun r => gl_id r === goalId) (goals (db s1))) with (goal_row goalId (db s1)).
  destruct (goal_row goalId (db s1)) as [current|] eqn:Hcur; [|done].
  apply after_guard; [done|]. intros _. apply after_lift; [done|].
  intros u Ht%assertTransition_ok.
  apply after_execute, after_preserves; [frame goal_leaf|].
  pose proof (entity_row_key _ _ _ _ _ Hcur) as Hid.
  eapply (goal_moved_set _ _ current to); [done|done|intros g ?; by bool_hyps| |done|done].
  by rewrite Hid.
Qed.

Lemma goal_moved_command c : preserves (goal_moved id start) (run_command c).
Proof.
  destruct c; try (apply preserves_bind;
    [apply goal_moved_setGoalStatus|intros; apply preserves_ret]).
  all: frame_command ltac:(first
    [ lazymatch goal with
      | |- preserves _ (blockRunForProblemInternal _ _ _) => apply goal_moved_block
      end
    | goal_leaf ]).
Qed.
End Goals.

(** ** Agents *)

Section Agents.
Context (id : string) (start : AgentStatus).

Ltac agent_leaf :=
  first
    [ frame_read
    | lazymatch goal with
      | |- preserves (agent_moved _ _) (update_rows agents _ _ _) =>
          apply preserves_update; intros ? ?; unfold agent_moved;
            apply entity_update; [done|done|by left|assumption]
      | |- preserves (agent_moved _ _) (insert_row agents _ _ _ _ _) =>
          apply preserves_insert; intros ? ? _ _; unfold agent_moved; by apply entity_insert
      end ].

Lemma agent_moved_transition agentId to now g :
  preserves (agent_moved id start) (transitionAgentInternal agentId to now g).
Proof.
  intros s Hs.
  match goal with |- ?P (db (?m s).1) => change (after P m s) end.
  unfold transitionAgentInternal. apply after_mustAgent; [done|]. intros row Hrow.
  apply after_lift; [done|]. intros u Ht%assertTransition_ok.
  apply after_execute, after_preserves;
    [frame ltac:(first [agent_leaf | frame_unfold])|].
  cbn [agentFromRow agent_row] in *. cbn [db set_db].
  pose proof (entity_row_key _ _ _ _ _ Hrow) as Hid.
  apply entity_update; [done|done| |done]. intros r Hr Hc. bool_hyps. right.
  assert (r = row) as ->; [|done].
  pose proof (entity_row_key _ _ _ _ _ Hr) as Hid'. unfold agent_row_of in Hrow. congruence.
Qed.

Lemma agent_moved_command c : preserves (agent_moved id start) (run_command c).
Proof.
  destruct c; frame_command ltac:(first
    [ lazymatch goal with
      | |- preserves _ (transitionAgentInternal _ _ _ _) => apply agent_moved_transition
      end
    | agent_leaf ]).
Qed.
End Agents.

(** ** Tasks *)

(** A loop over a list of pending updates. *)
Lemma iterate_todo {A} (J : list A -> Db -> Prop) (P : Db -> Prop) (body : A -> M unit) l s :
  (forall x rest s, J (x :: rest) (db s) -> after (J rest) (body x) s) ->
  (forall rest d, J rest d -> P d) ->
  J l (db s) -> after P (iterate body l) s.
Proof.
  intros Hbody HP. revert s. induction l as [|x l IH]; intros s Hs; [by eapply HP|].
  specialize (Hbody x l s Hs). unfold after in *. cbn [iterate]. unfold mbind, M_bind.
  destruct (body x s) as [s' [u|e]]; [by apply IH|by eapply HP].
Qed.

Section Tasks.
Context (id : string) (start : TaskStatus).

Definition task_inv (d : Db) : Prop :=
  NoDup (map tk_id (tasks d)) /\ task_moved id start d.

Lemma task_inv_update (c : TaskRow -> bool) (f : TaskRow -> TaskRow) d :
  (forall t, tk_id (f t) = tk_id t) ->
  (forall r, task_row_of id d = Some r -> c r = true ->
     canTransitionTask (tk_status r) (tk_status (f r)) = true) ->
  task_inv d -> task_inv (set_tasks (map (fun t => if c t then f t else t) (tasks d)) d).
Proof.
  intros Hid Hf [Hn Hm]. split.
  - cbn [tasks set_tasks]. rewrite map_map.
    erewrite map_ext; [exact Hn|]. intros t. destruct (c t); [apply Hid|done].
  - apply entity_update; [done|done| |done]. intros r Hr Hc. right. by apply Hf.
Qed.

Lemma task_inv_insert row d :
  task_inv d -> existsb (fun t => tk_id row === tk_id t) (tasks d) = false ->
  task_inv (set_tasks (tasks d ++ [row]) d).
Proof.
  intros [Hn Hm] Hfresh. rewrite existsb_false in Hfresh. split; [|by apply entity_insert].
  cbn [tasks set_tasks]. rewrite map_app. apply NoDup_app. split; [done|].
  split; [|apply NoDup_singleton].
  intros x (t & -> & Ht)%list_elem_of_fmap Hx%list_elem_of_singleton.
  specialize (Hfresh t Ht). bool_hyps. congruence.
Qed.

Ltac task_leaf :=
  first
    [ frame_read
    | lazymatch goal with
      | |- preserves task_inv (insert_row tasks _ _ _ _ _) =>
          apply preserves_insert; intros ? ? ? _; by apply task_inv_insert
      end
    | frame_unfold ].

(** The tasks still to be updated have a status the updates start from. *)
Definition todo (expected : string -> TaskStatus -> bool) (rest : list string) (d : Db)
  : Prop :=
  task_inv d /\ NoDup rest /\
  forall x row, x ∈ rest -> task_row_of x d = Some row -> expected x (tk_status row) = true.

Lemma todo_tail expected x rest d : todo expected (x :: rest) d -> todo expected rest d.
Proof.
  intros (Hi & [_ Hn]%NoDup_cons & Ht). split; [done|]. split; [done|].
  intros y row Hy. by apply Ht, list_elem_of_further.
Qed.

Lemma todo_update expected expected' to x rest (f : TaskRow -> TaskRow) d :
  (forall t, tk_id (f t) = tk_id t) -> (forall t, tk_status (f t) = to) ->
  (forall st, expected x st = true -> canTransitionTask st to = true) ->
  expected' x to = true ->
  (forall y st, y <> x -> expected y st = true -> expected' y st = true) ->
  todo expected (x :: rest) d ->
  todo expected' (x :: rest)
    (set_tasks (map (fun t => if tk_id t === x then f t else t) (tasks d)) d).
Proof.
  intros Hid Hst Hfrom Hto Hothers (Hi & Hn & Ht). split; [|split; [done|]].
  - apply task_inv_update; [done| |done]. intros r Hr Hc. bool_hyps. rewrite Hst.
    apply Hfrom, (Ht x r); [apply list_elem_of_here|].
    pose proof (entity_row_key _ _ _ _ _ Hr) as Hk. unfold task_row_of in *. congruence.
  - intros y row Hy. unfold task_row_of. rewrite entity_row_update by done.
    destruct (entity_row tasks tk_id y d) as [r|] eqn:Hr; [|done]. cbn. intros [= <-].
    pose proof (entity_row_key _ _ _ _ _ Hr) as Hk.
    destruct (tk_id r === x) eqn:Hx; bool_hyps.
    + rewrite Hst. by replace y with x by congruence.
    + apply Hothers; [congruence|]. by apply (Ht y).
Qed.

Lemma todo_done expected to x rest (f : TaskRow -> TaskRow) d :
  (forall t, tk_id (f t) = tk_id t) -> (forall t, tk_status (f t) = to) ->
  (forall st, expected x st = true -> canTransitionTask st to = true) ->
  todo expected (x :: rest) d ->
  todo expected rest
    (set_tasks (map (fun t => if tk_id t === x then f t else t) (tasks d)) d).
Proof.
  intros Hid Hst Hfrom Ht.
  apply (todo_update expected (fun y st => (y === x) || expected y st) to) with (f := f)
    in Ht as (Hi & [Hx Hn]%NoDup_cons & Ht); try done.
  - split; [done|]. split; [done|]. intros y row Hy Hrow.
    specialize (Ht y row (list_elem_of_further _ _ _ Hy) Hrow).
    rewrite bool_decide_eq_false_2 in Ht; [done|]. by intros ->.
  - by rewrite bool_decide_eq_true_2.
  - intros y st Hy ->. apply orb_true_r.
Qed.

(** The rows a condition selects, as tasks to update. *)
Lemma todo_select (c : TaskRow -> bool) expected d :
  (forall t, c t = true -> expected (tk_id t) (tk_status t) = true) ->
  task_inv d -> todo expected (map tk_id (List.filter c (tasks d))) d.
Proof.
  intros Hc [Hn Hm]. split; [done|]. split.
  { clear -Hn. induction (tasks d) as [|t l IH]; [constructor|].
    cbn in Hn. apply NoDup_cons in Hn as [Ht Hn]. cbn [List.filter].
    destruct (c t); [|by apply IH]. cbn [map]. apply NoDup_cons. split; [|by apply IH].
    intros (t' & Heq & [Ht' _]%elem_of_list_filter)%list_elem_of_fmap.
    apply Ht. apply list_elem_of_fmap. by exists t'. }
  intros x row (t & -> & [Ht Hct]%elem_of_list_filter)%list_elem_of_fmap Hrow.
  unfold task_row_of in Hrow. rewrite entity_row_elem in Hrow by done.
  injection Hrow as <-. by apply Hc.
Qed.

Lemma task_inv_refresh runId now : preserves task_inv (refreshTaskReadinessInternal runId now).
Proof.
  intros s Hs.
  match goal with |- ?P (db (?m s).1) => change (after P m s) end.
  unfold refreshTaskReadinessInternal. apply after_query.
  set (expected := fun (_ : string) (st : TaskStatus) =>
    (st === task_pending) || (st === task_failed)).
  apply (iterate_todo (fun rest => todo expected (map tk_id rest))); [|by intros ? ? []|].
  - intros x rest s1 Ht. apply after_query. destruct (incomplete_dependency _ _).
    { by eapply todo_tail. }
    apply after_execute, after_preserves; [frame ltac:(first [frame_read | frame_unfold])|].
    apply (todo_done expected task_ready); [done|done| |exact Ht].
    intros st Hst. apply orb_true_iff in Hst as [Hst|Hst]; bool_hyps; by subst st.
  - apply todo_select; [|done]. intros t Ht. bool_hyps. unfold expected.
    match goal with E : _ || _ = true |- _ => apply orb_true_iff in E as [E|E] end;
      bool_hyps; match goal with E : tk_status t = _ |- _ => by rewrite E end.
Qed.

Lemma task_inv_recover lease : preserves task_inv (recoverGraphWork lease).
Proof.
  intros s Hs.
  match goal with |- ?P (db (?m s).1) => change (after P m s) end.
  unfold recoverGraphWork. apply after_read; [intros ?; apply preserves_timestamp|done|].
  intros s1 now _ E1. apply after_transaction; [by rewrite E1|].
  apply after_read; [intros ?; apply preserves_assertLease|by rewrite E1|].
  intros s2 [] _ E2. apply after_query. cbv zeta.
  assert (task_inv (db s2)) as Hs2 by (by rewrite E2, E1).
  match goal with |- after _ (iterate ?b ?l ≫= _) _ =>
    assert (after task_inv (iterate b l) s2) as Hit end.
  { set (expected := fun (_ : string) (st : TaskStatus) => (st === task_running)).
    apply (iterate_todo (todo expected)); [|by intros ? ? []|].
    - intros x rest s3 Ht.
      set (failed := fun (y : string) (st : TaskStatus) =>
        if y === x then st === task_failed else st === task_running).
      apply after_execute, after_execute, after_preserves;
        [frame ltac:(first [frame_read | frame_unfold])|].
      assert (forall d, todo failed rest d -> x ∉ rest -> todo expected rest d) as Hback.
      { intros d (Hi & Hn & Hrest) Hx. split; [done|]. split; [done|]. intros y row Hy Hrow.
        specialize (Hrest y row Hy Hrow). unfold failed in Hrest.
        rewrite bool_decide_eq_false_2 in Hrest; [done|]. by intros ->. }
      pose proof Ht as (_ & [Hx _]%NoDup_cons & _). apply Hback; [|done].
      apply (todo_done failed task_ready); [done|done| |].
      + intros st. unfold failed. rewrite bool_decide_eq_true_2 by done.
        intros ?. bool_hyps. by subst.
      + cbn [db set_db].
        apply (todo_update expected failed task_failed); [done|done| | | |exact Ht].
        * unfold expected. intros st ?. bool_hyps. by subst.
        * unfold failed. by rewrite bool_decide_eq_true_2.
        * intros y st Hy. unfold failed. by rewrite bool_decide_eq_false_2.
    - apply todo_select; [|done]. intros t Ht. bool_hyps. unfold expected.
      match goal with E : tk_status t = _ |- _ => by rewrite E end. }
  apply after_bind; intros s3 x E; unfold after in Hit; rewrite E in Hit; [|done].
  apply after_preserves; [|done]. frame task_leaf.
Qed.

Lemma task_inv_transition input : preserves task_inv (transitionTask input).
Proof.
  intros s Hs.
  match goal with |- ?P (db (?m s).1) => change (after P m s) end.
  unfold transitionTask. apply after_read; [intros ?; apply preserves_timestamp|done|].
  intros s1 now _ E1. rewrite <- E1 in Hs. cbv zeta. apply after_transaction; [done|].
  apply after_read; [intros ?; frame ltac:(first [frame_read])|done|].
  intros s2 [] _ E2. rewrite <- E2 in Hs. apply after_mustTask; [done|]. intros row Hrow.
  apply after_read; [intros ?; frame ltac:(first [frame_read])|done|].
  intros s3 [] _ E3. rewrite <- E3 in Hs, Hrow. cbn [taskFromRow task_row].
  apply after_lift; [done|]. intros u Ht%assertTransition_ok.
  apply after_execute, after_preserves.
  { frame ltac:(first
      [ lazymatch goal with
        | |- preserves _ (refreshTaskReadinessInternal _ _) => apply task_inv_refresh
        end
      | task_leaf ]). }
  cbn [db set_db]. pose proof (entity_row_key _ _ _ _ _ Hrow) as Hid.
  apply task_inv_update; [done| |done]. intros r Hr Hc. unfold with_id in Hc. bool_hyps.
  assert (r = row) as ->; [|done].
  pose proof (entity_row_key _ _ _ _ _ Hr) as Hid'. unfold task_row_of in *. congruence.
Qed.

Lemma task_inv_command c : preserves task_inv (run_command c).
Proof.
  destruct c; try (apply preserves_bind; [|intros; apply preserves_ret]).
  all: first [ apply task_inv_recover | apply task_inv_transition | idtac ].
  all: frame_command ltac:(first
    [ lazymatch goal with
      | |- preserves _ (refreshTaskReadinessInternal _ _) => apply task_inv_refresh
      | |- preserves _ (update_rows tasks _ _ _) =>
          apply preserves_update; intros ? ?; apply task_inv_update;
            [done|intros ? _ ?; bool_hyps; cbn;
               match goal with E : tk_status _ = _ |- _ => by rewrite E end|assumption]
      end
    | task_leaf ]).
Qed.
End Tasks.

(** C6: goals, agents and tasks are never lost and only move along the core's
    transition tables, whatever commands run: readiness updates, claims,
    blocking and the recovery of a dead executor's work included; so a
    terminal goal, agent or task keeps its status for ever. *)
Theorem store_respects_graph_lifecycles s s' :
  NoDup (map tk_id (tasks (db s))) -> rtc store_step s s' ->
  (forall id row, goal_row id (db s) = Some row ->
     exists row', goal_row id (db s') = Some row' /\
       rtc (lifecycle_step GOAL_TRANSITIONS) (gl_status row) (gl_status row')) /\
  (forall id row, agent_row_of id (db s) = Some row ->
     exists row', agent_row_of id (db s') = Some row' /\
       rtc (lifecycle_step AGENT_TRANSITIONS) (ag_status row) (ag_status row')) /\
  (forall id row, task_row_of id (db s) = Some row ->
     exists row', task_row_of id (db s') = Some row' /\
       rtc (lifecycle_step TASK_TRANSITIONS) (tk_status row) (tk_status row')).
Proof.
  intros Hn Hsteps. repeat split; intros id row Hrow.
  - apply (steps_preserve (goal_moved id (gl_status row)) s);
      [intros; apply goal_moved_command|done|]. exists row. split; [done|apply rtc_refl].
  - apply (steps_preserve (agent_moved id (ag_status row)) s);
      [intros; apply agent_moved_command|done|]. exists row. split; [done|apply rtc_refl].
  - apply (steps_preserve (task_inv id (tk_status row)) s);
      [intros; apply task_inv_command|done|]. split; [done|].
    exists row. split; [done|apply rtc_refl].
Qed.

(** The row of the task after a claim. *)
Definition claimed_row (agentId : string) (lease : FencedLease) (now : Z) (row : TaskRow)
  : TaskRow :=
  if (tk_status row === task_ready) && (tk_owner_agent_id row === None)
  then set_tk_status task_running (set_tk_owner_agent_id (Some agentId)
         (set_tk_lease_generation (Some (fl_generation lease)) (set_tk_updated_at now row)))
  else row.

Lemma mustTask_ok id s s' t :
  mustTask id s = (s', Ok t) -> s' = s /\ task_row_of id (db s) = Some (task_row t).
Proof.
  unfold mustTask, getTask, query, must, mbind, M_bind.
  change (find (fun r => tk_id r === id) (tasks (db s))) with (task_row_of id (db s)).
  destruct (task_row_of id (db s)); [by intros [= <- <-]|done].
Qed.

Lemma claimTask_ok agentId lease taskId s s' t row :
  task_row_of taskId (db s) = Some row -> claimTask agentId lease taskId s = (s', Ok t) ->
  let row' := claimed_row agentId lease (clock_at (clock_reads s)) row in
  canTransitionTask (tk_status row) task_running = true /\
  task_row_of taskId (db s') = Some row' /\ tk_owner_agent_id row' = Some agentId.
Proof.
  intros Hrow Hok. pose proof (entity_row_key _ _ _ _ _ Hrow) as Hid. cbv zeta.
  unfold claimTask in Hok.
  apply mbind_ok in Hok as (s1 & now & [= <- <-] & Hok). rewrite transaction_ok in Hok.
  apply mbind_ok in Hok as (s2 & [] & Hl & Hok).
  apply reads_ok in Hl; [|intros ?; apply preserves_assertLease]. cbn [db] in Hl.
  apply mbind_ok in Hok as (s3 & task & [-> Ht]%mustTask_ok & Hok).
  rewrite Hl, Hrow in Ht. injection Ht as Ht. rewrite <- Ht, Hid in Hok.
  apply mbind_ok in Hok as (s3 & [] & [_ ->]%guard_ok & Hok).
  apply mbind_ok in Hok as (s3 & agent & Ha & Hok).
  apply reads_ok in Ha; [|intros ?; apply preserves_mustAgent].
  apply mbind_ok in Hok as (s4 & [] & [_ ->]%guard_ok & Hok).
  apply mbind_ok in Hok as (s4 & u & [= <- Hu%assertTransition_ok] & Hok).
  split; [exact Hu|].
  apply mbind_ok in Hok as (s4 & [] & [= <-] & Hok).
  apply mbind_ok in Hok as (s5 & claimed & [-> Hc]%mustTask_ok & Hok).
  assert (task_row claimed = claimed_row agentId lease (clock_at (clock_reads s)) row) as Heq.
  { unfold task_row_of in *. cbn [db set_db] in Hc. rewrite entity_row_update in Hc by done.
    rewrite Ha, Hl, Hrow in Hc. injection Hc as <-. unfold claimed_row.
    by rewrite Hid, bool_decide_eq_true_2. }
  rewrite Heq in Hc, Hok.
  apply mbind_ok in Hok as (s5 & [] & [Hown ->]%guard_ok & Hok). bool_hyps.
  split; [|done].
  eapply (preserves_ok (fun d => task_row_of taskId d = _)); [|exact Hc|exact Hok].
  frame ltac:(first [frame_read | frame_unfold]).
Qed.

(** A claim that succeeds either took a ready task that nobody owned, which
    is then running, owned by the agent and stamped with the lease's
    generation, or found the task already owned by the same agent and left its
    row as it was; and while a task is running every claim of it, by anyone,
    throws and changes nothing. *)
Theorem claimTask_exclusive agentId lease taskId s row :
  task_row_of taskId (db s) = Some row ->
  (forall s' t, claimTask agentId lease taskId s = (s', Ok t) ->
     exists row', task_row_of taskId (db s') = Some row' /\
       (tk_status row = task_ready /\ tk_owner_agent_id row = None /\
        tk_status row' = task_running /\ tk_owner_agent_id row' = Some agentId /\
        tk_lease_generation row' = Some (fl_generation lease) \/
        tk_owner_agent_id row = Some agentId /\ row' = row)) /\
  (tk_status row = task_running ->
     exists s' e, claimTask agentId lease taskId s = (s', Throw e) /\ db s' = db s).
Proof.
  intros Hrow. split.
  - intros s' t Hok. destruct (claimTask_ok _ _ _ _ _ _ _ Hrow Hok) as (_ & Hrow' & Hown).
    eexists. split; [exact Hrow'|]. unfold claimed_row in *.
    destruct ((tk_status row === task_ready) && (tk_owner_agent_id row === None)) eqn:Hc.
    + bool_hyps. left. by repeat split.
    + by right.
  - intros Hrun. destruct (claimTask agentId lease taskId s) as [s' [t|e]] eqn:E.
    + destruct (claimTask_ok _ _ _ _ _ _ _ Hrow E) as [Ht _]. by rewrite Hrun in Ht.
    + exists s', e. split; [done|]. unfold claimTask in E.
      apply mbind_throws in E as [[=]|(s1 & now & [= <- <-] & E)].
      by apply transaction_throws in E.
Qed.
End Graph.

(** ** Instances *)

Definition demo_task_input : CreateTaskInput :=
  {| ct_dependencies := []; ct_description := "fix it"; ct_goalId := None; ct_lease := None;
     ct_requirementIds := ["requirement_a"]; ct_resourceScopes := []; ct_runId := demo_run;
     ct_title := "Fix" |}.
Definition demo_tasked : Store := after_commands [c_createTask demo_task_input] demo_ready.
Definition demo_task : string := default "" (tk_id <$> head (tasks (db demo_tasked))).
Definition demo_claimed : Store :=
  after_commands [c_claimTask demo_agent (demo_lease "executor-1" 1) demo_task] demo_tasked.

Lemma store_respects_graph_lifecycles_witness :
  exists row', task_row_of demo_task (db demo_claimed) = Some row' /\
    tk_status row' = task_running /\
    rtc (lifecycle_step TASK_TRANSITIONS) task_ready (tk_status row').
Proof.
  destruct (task_row_of demo_task (db demo_tasked)) as [row|] eqn:Hrow;
    [|vm_compute in Hrow; discriminate Hrow].
  assert (tk_status row = task_ready) as Hst by (vm_compute in Hrow; injection Hrow as <-; done).
  destruct (store_respects_graph_lifecycles demo_tasked demo_claimed) as (_ & _ & Ht).
  - assert (map tk_id (tasks (db demo_tasked)) = [demo_task]) as -> by (vm_compute; reflexivity).
    apply NoDup_singleton.
  - apply after_commands_steps. repeat constructor.
  - destruct (Ht demo_task row Hrow) as (row' & Hrow' & Hm).
    exists row'. split; [exact Hrow'|]. split; [|rewrite <- Hst; exact Hm].
    vm_compute in Hrow'. injection Hrow' as <-. reflexivity.
Defined.

Lemma claimTask_exclusive_witness :
  exists s' e, claimTask "agent_other" (demo_lease "executor-1" 1) demo_task demo_claimed =
    (s', Throw e) /\ db s' = db demo_claimed.
Proof.
  destruct (task_row_of demo_task (db demo_claimed)) as [row|] eqn:Hrow;
    [|vm_compute in Hrow; discriminate Hrow].
  refine (proj2 (claimTask_exclusive "agent_other" (demo_lease "executor-1" 1) demo_task
    demo_claimed row Hrow) _).
  vm_compute in Hrow. injection Hrow as <-. reflexivity.
Defined.

(** ** What modelling showed *)

(** An agent caught in [recovering] by a crash blocks the recovery of the whole
    run: the transition [recovering -> recovering] it starts with is not in the
    table, and the exception rolls the transaction back. *)
Definition demo_crashed_recovering : Store :=
  after_commands
    [ c_acquireLease "executor-1" None None demo_run 1000;
      c_transitionAgent demo_agent (Some (demo_lease "executor-1" 1)) agent_recovering;
      c_acquireLease "executor-1" None None demo_run 1;
      c_acquireLease "executor-2" None None demo_run 1000 ] demo_store.

Theorem recovering_agent_blocks_recovery :
  (recoverGraphWork (demo_lease "executor-2" 2) demo_crashed_recovering).2 =
    Throw (InvalidStateTransitionError "agent" "recovering" "recovering").
Proof. vm_compute. reflexivity. Qed.

(** A claim by the owner of a task that waits changes no row, yet returns and
    journals that the task is running. *)
Definition demo_waiting : Store :=
  after_commands
    [c_transitionTask {| tt_error := None; tt_lease := Some (demo_lease "executor-1" 1);
                         tt_result := None; tt_taskId := demo_task; tt_to := task_waiting |}]
    demo_claimed.
Definition demo_reclaimed : Store :=
  after_commands [c_claimTask demo_agent (demo_lease "executor-1" 1) demo_task] demo_waiting.

Theorem waiting_task_claim_journals_running :
  map tk_status (tasks (db demo_reclaimed)) = [task_waiting] /\
  (ee_payload <$> last (run_events (db demo_reclaimed))) =
    Some (jobj [("taskId", jstr demo_task); ("to", jstr "running")]) /\
  length (run_events (db demo_reclaimed)) = (length (run_events (db demo_waiting)) + 2)%nat.
Proof. vm_compute. repeat split. Qed.
