(* ===== verification/StoreProblems.v ===== *)
(** Problems: the store blocks a run for a problem exactly when the core's
    blocker assessment, with its threshold of three, says so. *)

From Stdlib Require Import ZArith Lia.
From stdpp Require Import base strings list relations.
From S2P Require Import Prelude JsNumber JsString JsCollections Protocol Json Ids StateMachine.
From S2P Require Import Policies Budget Blockers StoreData StoreMonad StoreCore StoreRuns.
From S2P Require Import StoreTasks StoreEffects StoreCommands StoreSafety.

Open Scope string_scope.
Open Scope list_scope.
#[local] Open Scope Z_scope.

(** An observation of a problem, as the core's assessment sees it. *)
Definition as_observation (iso : Z -> string) (fingerprint : string) (row : ObservationRow)
  : BlockerObservation :=
  {| ob_fingerprint := fingerprint;
     ob_occurredAt := iso (po_occurred_at row);
     ob_note := po_note row;
     ob_meaningful := po_meaningful row;
     ob_externalDependency := po_external_dependency row;
     ob_alternateActionAvailable := po_alternate_action_available row |}.

(** The observations of a problem, in the order the store reads them. *)
Definition problem_history (id : string) (d : Db) : list ObservationRow :=
  sort_by (created_then_id po_occurred_at po_id)
    (List.filter (fun o => po_problem_id o === id) (problem_observations d)).

Lemma matching_as_observation iso fingerprint rows :
  matching_observations (map (as_observation iso fingerprint) rows) fingerprint =
  map (as_observation iso fingerprint) (List.filter po_meaningful rows).
Proof.
  unfold matching_observations. induction rows as [|r rows IH]; [done|]. cbn [map List.filter].
  cbn [as_observation ob_fingerprint ob_meaningful]. rewrite bool_decide_eq_true_2 by done.
  cbn [andb]. rewrite IH. by destruct (po_meaningful r).
Qed.

Lemma forallb_map {A B} (f : A -> B) (p : B -> bool) l :
  forallb p (map f l) = forallb (fun x => p (f x)) l.
Proof. induction l as [|x l IH]; [done|]. cbn. by rewrite IH. Qed.

Lemma problem_eligible_assessed iso fingerprint rows :
  exists a, assessBlocker (map (as_observation iso fingerprint) rows) fingerprint
      DEFAULT_BLOCKER_ATTEMPT_THRESHOLD = Ok a /\
    matchingMeaningfulAttempts a =
      ofZ (Z.of_nat (length (List.filter po_meaningful rows))) /\
    eligibleForBlocked a = problem_eligible (List.filter po_meaningful rows).
Proof.
  unfold assessBlocker.
  assert (negb (isInteger DEFAULT_BLOCKER_ATTEMPT_THRESHOLD) ||
    js_lt DEFAULT_BLOCKER_ATTEMPT_THRESHOLD (ofZ 1) = false) as -> by reflexivity.
  unfold DEFAULT_BLOCKER_ATTEMPT_THRESHOLD.
  eexists. split; [reflexivity|]. cbn [eligibleForBlocked matchingMeaningfulAttempts].
  rewrite matching_as_observation. unfold problem_eligible, length_num.
  split; [by rewrite length_map|].
  set (l := List.filter po_meaningful rows). rewrite length_map, js_le_ofZ, !forallb_map.
  cbn [as_observation ob_externalDependency ob_alternateActionAvailable].
  destruct (Nat.leb_spec 3 (length l)) as [Hl|Hl].
  - assert ((3 <=? Z.of_nat (length l)) = true) as -> by (apply Z.leb_le; lia).
    assert (Nat.eqb (length l) 0 = false) as -> by (apply Nat.eqb_neq; lia). done.
  - assert ((3 <=? Z.of_nat (length l)) = false) as -> by (apply Z.leb_gt; lia). done.
Qed.

Section Problems.
Context `{Env}.

Lemma block_keeps {A} (f : Db -> A) r p now s s' u :
  (forall d l, f (set_runs l d) = f d) -> (forall d l, f (set_goals l d) = f d) ->
  (forall d l, f (set_run_events l d) = f d) ->
  blockRunForProblemInternal r p now s = (s', Ok u) -> f (db s') = f (db s).
Proof.
  intros H1 H2 H3 Hok. eapply (preserves_ok (fun d => f d = f (db s))); [|done|exact Hok].
  frame ltac:(first
    [ frame_read
    | frame_unfold
    | lazymatch goal with
      | |- preserves _ (update_rows runs _ _ _) =>
          apply preserves_update; intros ? <-; by rewrite H1
      | |- preserves _ (update_rows goals _ _ _) =>
          apply preserves_update; intros ? <-; by rewrite H2
      | |- preserves _ (insert_row run_events _ _ _ _ _) =>
          apply preserves_insert; intros ? <- _ _; by rewrite H3
      end ]).
Qed.

(** Recording a problem that returns reports it blocked exactly when the
    core's blocker assessment of all its observations, the new one included,
    with the default threshold is eligible, and counts the meaningful ones. *)
Theorem recordProblem_assesses iso input s s' row :
  recordProblem input s = (s', Ok row) ->
  exists a,
    assessBlocker
      (map (as_observation iso (rp_fingerprint input)) (problem_history (pb_id row) (db s')))
      (rp_fingerprint input) DEFAULT_BLOCKER_ATTEMPT_THRESHOLD = Ok a /\
    matchingMeaningfulAttempts a = ofZ (pb_meaningful_attempts row) /\
    pb_status row = (if eligibleForBlocked a then prs_blocked else prs_open).
Proof.
  intros Hok. unfold recordProblem in Hok. cbv zeta in Hok.
  apply mbind_ok in Hok as (s1 & now & [= <- <-] & Hok). rewrite transaction_ok in Hok.
  apply mbind_ok in Hok as (s2 & known & _ & Hok).
  apply mbind_ok in Hok as (s3 & id & _ & Hok).
  apply mbind_ok in Hok as (s4 & [] & _ & Hok).
  apply mbind_ok in Hok as (s5 & uuid & _ & Hok).
  apply mbind_ok in Hok as (s6 & observationId & _ & Hok).
  apply mbind_ok in Hok as (s7 & [] & _ & Hok).
  apply mbind_ok in Hok as (s8 & [] & _ & Hok).
  apply mbind_ok in Hok as (s9 & observations & [= <- Hobs] & Hok).
  fold (problem_history id (db s8)) in Hobs. subst observations.
  apply mbind_ok in Hok as (s9 & [] & [= <-] & Hok).
  apply mbind_ok in Hok as (s10 & [] & Hblock & Hok).
  set (s9 := set_db _ s8) in *.
  assert (forall A (f : Db -> A), (forall d l, f (set_runs l d) = f d) ->
    (forall d l, f (set_goals l d) = f d) -> (forall d l, f (set_run_events l d) = f d) ->
    f (db s10) = f (db s9)) as Hkeep.
  { intros A f H1 H2 H3. unfold when in Hblock. destruct (problem_eligible _).
    - by eapply block_keeps.
    - by injection Hblock as <-. }
  apply mbind_ok in Hok as (s11 & found & [= <- Hfound] & Hok).
  destruct found as [found|]; [|done]. injection Hok as <- <-.
  rewrite (Hkeep _ problems) in Hfound by done.
  pose proof (find_some _ _ Hfound) as [_ Hid]. cbn beta in Hid. bool_hyps. subst id.
  unfold problem_history. rewrite (Hkeep _ problem_observations) by done.
  unfold s9 in Hfound. cbn [db set_db problems set_problems] in Hfound.
  rewrite find_map_update in Hfound by done.
  change (problem_observations (db s9)) with (problem_observations (db s8)).
  fold (problem_history (pb_id found) (db s8)).
  destruct (find _ _) as [p|] eqn:Hp; [|done]. cbn [option_map] in Hfound.
  apply find_some in Hp as [_ Hp]. rewrite Hp in Hfound. injection Hfound as Hrow.
  destruct (problem_eligible_assessed iso (rp_fingerprint input)
    (problem_history (pb_id found) (db s8))) as (a & Ha & Hcount & Hel).
  exists a. split; [exact Ha|]. rewrite Hcount, Hel.
  set (h := problem_history (pb_id found) (db s8)) in *. clearbody h.
  rewrite <- Hrow. split; reflexivity.
Qed.
End Problems.

(** The demo run waits for a service that is down: three times. *)
Definition demo_problem : RecordProblemInput :=
  {| rp_alternateActionAvailable := false; rp_lease := None; rp_externalDependency := true;
     rp_fingerprint := "registry-down"; rp_meaningful := None; rp_note := None;
     rp_runId := demo_run; rp_summary := "the registry is down"; rp_taskId := None |}.
Definition demo_blocked : Store :=
  after_commands [c_recordProblem demo_problem; c_recordProblem demo_problem] demo_ready.

Example demo_blocks :
  map pb_status (problems (db demo_blocked)) = [prs_open] /\
  (rn_status <$> runs (db (recordProblem demo_problem demo_blocked).1)) = [run_blocked].
Proof. vm_compute. done. Qed.

Lemma recordProblem_assesses_witness :
  exists s' row a, recordProblem demo_problem demo_blocked = (s', Ok row) /\
    matchingMeaningfulAttempts a = ofZ 3 /\ pb_status row = prs_blocked /\
    eligibleForBlocked a = true.
Proof.
  destruct (recordProblem demo_problem demo_blocked) as [s' [row|e]] eqn:E;
    [|vm_compute in E; discriminate E].
  assert (pb_meaningful_attempts row = 3 /\ pb_status row = prs_blocked) as [Hn Hb].
  { vm_compute in E. injection E as _ <-. split; reflexivity. }
  destruct (recordProblem_assesses (fun _ => "") demo_problem demo_blocked s' row E)
    as (a & _ & Hcount & Hst).
  exists s', row, a. split; [reflexivity|]. rewrite Hcount, Hn. split; [reflexivity|].
  split; [exact Hb|]. rewrite Hb in Hst. destruct (eligibleForBlocked a); [reflexivity|].
  discriminate Hst.
Defined.
