(* ===== verification/Scheduler.v ===== *)
(** The continuation scheduler (packages/control-plane/src/scheduler.ts): a loop
    that leases runs, claims their continuations, hands them to an executor and
    settles them, interleaved with every other user of the store.

    The scheduler is asynchronous: it gives up control while the executor works
    and between runs.  A [Daemon] is the store and the scheduler's fields between
    two such points; each stretch of code that runs without giving up control is
    one function on it.  The executor is the outcome of its promise, and its
    store commands are steps of the environment. *)

From Stdlib Require Import ZArith Lia.
From stdpp Require Import base strings list relations.
From S2P Require Import Prelude JsNumber JsString JsCollections Protocol Json Ids StateMachine.
From S2P Require Import Policies Budget StoreData StoreMonad StoreCore StoreRuns StoreTasks.
From S2P Require Import StoreEffects StoreCommands StoreSafety StoreLeases.

Open Scope string_scope.
Open Scope list_scope.
#[local] Open Scope Z_scope.

(** [try { m } catch (error) { handler(error) }] *)
Definition try_catch {A} (m : M A) (handler : exn -> M A) : M A := fun s =>
  match m s with
  | (s', Ok a) => (s', Ok a)
  | (s', Throw e) => handler e s'
  end.

(** [error instanceof LeaseFencedError] *)
Definition is_fenced (error : exn) : bool :=
  match error with LeaseFencedError _ _ => true | _ => false end.

(** The fields the constructor sets, in the values the methods use.
    Source: packages/control-plane/src/scheduler.ts:61-72 [RunScheduler.constructor]. *)
Record SchedulerOptions := {
  so_executorId : string;
  so_host : string;
  so_leaseTtlMs : Z;
  so_processId : Z }.

(** An execution in flight: the locals of [tickRun] at its [await]. *)
Record Execution := {
  ex_runId : string;
  ex_action : ScheduledAction;
  ex_lease : FencedLease;
  ex_heartbeatFailure : option exn;
  ex_recovered : Z }.

(** Where a tick has got to: before the next run, or waiting for an executor. *)
Inductive tick_phase : Type :=
| between (remaining : list Run)
| executing (execution : Execution) (remaining : list Run).

(** The locals of [tick].
    Source: packages/control-plane/src/scheduler.ts:34-38 [SchedulerTickResult]. *)
Record Tick := {
  t_claimed : Z;
  t_recoveredToolCalls : Z;
  t_wokeRuns : list string;
  t_phase : tick_phase }.

(** The store and the scheduler's fields; [ticking] is that there is a tick, and
    [active] maps a run to the abort reason of its controller.
    Source: packages/control-plane/src/scheduler.ts:48-59 [RunScheduler]. *)
Record Daemon := {
  dm_store : Store;
  dm_timer : bool;
  dm_stopping : bool;
  dm_active : jsmap string (option string);
  dm_tick : option Tick }.

Definition with_store (store : Store) (d : Daemon) : Daemon :=
  {| dm_store := store; dm_timer := dm_timer d; dm_stopping := dm_stopping d;
     dm_active := dm_active d; dm_tick := dm_tick d |}.
Definition with_tick (tick : option Tick) (d : Daemon) : Daemon :=
  {| dm_store := dm_store d; dm_timer := dm_timer d; dm_stopping := dm_stopping d;
     dm_active := dm_active d; dm_tick := tick |}.
Definition with_active (active : jsmap string (option string)) (d : Daemon) : Daemon :=
  {| dm_store := dm_store d; dm_timer := dm_timer d; dm_stopping := dm_stopping d;
     dm_active := active; dm_tick := dm_tick d |}.

Definition at_phase (phase : tick_phase) (t : Tick) : Tick :=
  {| t_claimed := t_claimed t; t_recoveredToolCalls := t_recoveredToolCalls t;
     t_wokeRuns := t_wokeRuns t; t_phase := phase |}.
Definition counting (claimed recovered : Z) (t : Tick) : Tick :=
  {| t_claimed := t_claimed t + claimed;
     t_recoveredToolCalls := t_recoveredToolCalls t + recovered;
     t_wokeRuns := t_wokeRuns t; t_phase := t_phase t |}.

(** [controller.abort(reason)]: the first reason stays. *)
Definition abort (reason : string) (signal : option string) : option string :=
  match signal with Some first => Some first | None => Some reason end.

Section Scheduler.
Context `{Env}.
Variable options : SchedulerOptions.

(** Newest run first.
    Source: packages/control-plane/src/store.ts:253-257 [listRuns]. *)
Definition listRuns : M (list Run) :=
  query (fun d => map runFromRow
    (sort_by (fun a b => rn_created_at b <=? rn_created_at a) (runs d))).

(** ** One run *)

(** What [tickRun] does before its [await]. *)
Inductive tick_begin : Type :=
| skipped (recovered : Z)
| started (action : ScheduledAction) (lease : FencedLease) (recovered : Z).

Definition fenced_lease (row : LeaseRow) : FencedLease :=
  {| fl_runId := le_run_id row; fl_executorId := le_holder_id row;
     fl_generation := le_generation row |}.

(** The claim and the last look at the run before an executor is invoked.
    Source: packages/control-plane/src/scheduler.ts:162-180 [tickRun, claim]. *)
Definition claim_work (stopping : bool) (activeRun : Run) (lease : FencedLease) : M tick_begin :=
  calls ← recoverClaimedWork lease;
  let recovered := Z.of_nat (length calls) in
  _ ← (if run_status activeRun === run_recovering
       then _ ← transitionRun None None None (run_id activeRun) run_running; mret tt
       else mret tt);
  action ← claimContinuation lease;
  match action with
  | None => mret (skipped recovered)
  | Some action =>
      current ← getRun (run_id activeRun);
      if stopping || negb (match current with
                           | Some run => run_status run === run_running
                           | None => false
                           end)
      then _ ← settleContinuation lease true; mret (skipped recovered)
      else mret (started action lease recovered)
  end.

(** Source: packages/control-plane/src/scheduler.ts:138-199 [tickRun, before the await]. *)
Definition tickRun_begin (stopping : bool) (active : jsmap string (option string)) (run : Run)
  : M tick_begin :=
  if jm_has active (run_id run) then mret (skipped 0)
  else
    activeRun ← (if run_status run === run_queued
                 then transitionRun None None None (run_id run) run_running
                 else mret run);
    lease ← try_catch
      (row ← acquireLease (so_executorId options) (Some (so_host options))
               (Some (so_processId options)) (run_id activeRun) (so_leaseTtlMs options);
       mret (Some (fenced_lease row)))
      (fun error => if is_fenced error then mret None else throw error);
    match lease with
    | None => mret (skipped 0)
    | Some lease => claim_work stopping activeRun lease
    end.

(** One firing of the heartbeat: the failure it leaves.
    Source: packages/control-plane/src/scheduler.ts:184-195 [tickRun, heartbeat]. *)
Definition heartbeat (lease : FencedLease) (failure : option exn) : M (option exn) :=
  try_catch (_ ← renewLease lease (so_leaseTtlMs options); mret failure)
    (fun error => mret (Some error)).

(** The [try] block around the [await], on the outcome of the executor's promise.
    Source: packages/control-plane/src/scheduler.ts:202-205 [tickRun, settling]. *)
Definition settle_outcome (lease : FencedLease) (heartbeatFailure : option exn)
  (outcome : exc bool) : M unit :=
  requeue ← lift outcome;
  _ ← match heartbeatFailure with
      | Some error => throw error
      | None => mret tt
      end;
  _ ← renewLease lease (so_leaseTtlMs options);
  settleContinuation lease requeue.

(** Its [catch] block.
    Source: packages/control-plane/src/scheduler.ts:209-216 [tickRun, catch]. *)
Definition after_error (lease : FencedLease) (error : exn) : M unit :=
  _ ← (if is_fenced error then mret tt
       else try_catch (settleContinuation lease true)
              (fun settleError =>
                 if is_fenced settleError then mret tt else throw settleError));
  if is_fenced error then mret tt else throw error.

(** Source: packages/control-plane/src/scheduler.ts:202-216 [tickRun, after the await]. *)
Definition tickRun_finish (lease : FencedLease) (heartbeatFailure : option exn)
  (outcome : exc bool) : M unit :=
  try_catch (settle_outcome lease heartbeatFailure outcome) (after_error lease).

(** ** The scheduler's turns *)

Definition is_runnable (run : Run) : bool :=
  (run_status run === run_queued) || (run_status run === run_running) ||
  (run_status run === run_recovering).

(** [tick] up to its loop: it does nothing while stopping or ticking.
    Source: packages/control-plane/src/scheduler.ts:108-125 [tick, start]. *)
Definition tick_start (d : Daemon) : Daemon :=
  if dm_stopping d then d
  else
    match dm_tick d with
    | Some _ => d
    | None =>
        let start : M (list string * list Run) :=
          wokeRuns ← wakeDueRuns;
          listed ← listRuns;
          mret (wokeRuns, List.filter is_runnable listed) in
        match start (dm_store d) with
        | (s, Throw _) => with_store s d
        | (s, Ok (wokeRuns, runnable)) =>
            with_store s (with_tick (Some {| t_claimed := 0; t_recoveredToolCalls := 0;
                                             t_wokeRuns := wokeRuns;
                                             t_phase := between runnable |}) d)
        end
    end.

(** One turn of the loop of [tick]; a thrown error ends the tick.
    Source: packages/control-plane/src/scheduler.ts:126-131 [tick, loop]. *)
Definition tick_next (d : Daemon) : Daemon :=
  match dm_tick d with
  | Some t =>
      match t_phase t with
      | between [] => with_tick None d
      | between (run :: rest) =>
          if dm_stopping d then with_tick None d
          else
            match tickRun_begin (dm_stopping d) (dm_active d) run (dm_store d) with
            | (s, Throw _) => with_store s (with_tick None d)
            | (s, Ok (skipped recovered)) =>
                with_store s (with_tick (Some (counting 0 recovered (at_phase (between rest) t))) d)
            | (s, Ok (started action lease recovered)) =>
                with_store s
                  (with_active (jm_set (dm_active d) (run_id run) None)
                    (with_tick (Some (at_phase (executing
                      {| ex_runId := run_id run; ex_action := action; ex_lease := lease;
                         ex_heartbeatFailure := None; ex_recovered := recovered |} rest) t)) d))
            end
      | executing _ _ => d
      end
  | None => d
  end.

(** The heartbeat fires while an executor works. *)
Definition tick_heartbeat (d : Daemon) : Daemon :=
  match dm_tick d with
  | Some t =>
      match t_phase t with
      | executing ex rest =>
          match heartbeat (ex_lease ex) (ex_heartbeatFailure ex) (dm_store d) with
          | (s, Ok failure) =>
              with_store s
                (with_active (match failure with
                              | None => dm_active d
                              | Some _ =>
                                  match jm_get (dm_active d) (ex_runId ex) with
                                  | None => dm_active d
                                  | Some signal => jm_set (dm_active d) (ex_runId ex)
                                                     (abort "lease renewal failed" signal)
                                  end
                              end)
                  (with_tick (Some (at_phase (executing
                    {| ex_runId := ex_runId ex; ex_action := ex_action ex;
                       ex_lease := ex_lease ex; ex_heartbeatFailure := failure;
                       ex_recovered := ex_recovered ex |} rest) t)) d))
          | (s, Throw _) => with_store s d
          end
      | between _ => d
      end
  | None => d
  end.

(** The executor's promise settles: [outcome] is its [requeue], or what it threw.
    Source: packages/control-plane/src/scheduler.ts:217-222 [tickRun, finally]. *)
Definition tick_finish (outcome : exc bool) (d : Daemon) : Daemon :=
  match dm_tick d with
  | Some t =>
      match t_phase t with
      | executing ex rest =>
          let d := with_active (jm_delete (dm_active d) (ex_runId ex)) d in
          match tickRun_finish (ex_lease ex) (ex_heartbeatFailure ex) outcome (dm_store d) with
          | (s, Throw _) => with_store s (with_tick None d)
          | (s, Ok _) =>
              with_store s
                (with_tick (Some (counting 1 (ex_recovered ex) (at_phase (between rest) t))) d)
          end
      | between _ => d
      end
  | None => d
  end.

(** Source: packages/control-plane/src/scheduler.ts:86-94 [start]. *)
Definition scheduler_start (d : Daemon) : Daemon :=
  if dm_timer d then d
  else tick_start {| dm_store := dm_store d; dm_timer := true; dm_stopping := false;
                     dm_active := dm_active d; dm_tick := dm_tick d |}.

(** [stop] up to its [await].
    Source: packages/control-plane/src/scheduler.ts:96-106 [stop]. *)
Definition scheduler_stop (d : Daemon) : Daemon :=
  {| dm_store := dm_store d; dm_timer := false; dm_stopping := true;
     dm_active := map (fun e => (e.1, abort "scheduler stopped" e.2)) (dm_active d);
     dm_tick := dm_tick d |}.

(** Source: packages/control-plane/src/scheduler.ts:79-84 [abortRun]. *)
Definition abortRun (runId reason : string) (d : Daemon) : bool * Daemon :=
  match jm_get (dm_active d) runId with
  | None => (false, d)
  | Some signal => (true, with_active (jm_set (dm_active d) runId (abort reason signal)) d)
  end.

(** What can happen next: a turn of the scheduler, or a command of anyone else. *)
Inductive daemon_step (d : Daemon) : Daemon -> Prop :=
| step_command s : store_step (dm_store d) s -> daemon_step d (with_store s d)
| step_tick : daemon_step d (tick_start d)
| step_next : daemon_step d (tick_next d)
| step_heartbeat : daemon_step d (tick_heartbeat d)
| step_finish outcome : daemon_step d (tick_finish outcome d)
| step_start : daemon_step d (scheduler_start d)
| step_stop : daemon_step d (scheduler_stop d)
| step_abort runId reason : daemon_step d (abortRun runId reason d).2.

(** ** The scheduler acts on the store by its commands only *)

Definition store_run {A} (m : M A) : Prop := forall s, rtc store_step s (m s).1.

Lemma store_run_bind {A B} (m : M A) (f : A -> M B) :
  store_run m -> (forall a, store_run (f a)) -> store_run (m ≫= f).
Proof.
  intros Hm Hf s. specialize (Hm s). unfold mbind, M_bind.
  destruct (m s) as [s' [a|e]]; [|done]. etrans; [exact Hm|]. apply (Hf a s').
Qed.

Lemma store_run_try {A} (m : M A) handler :
  store_run m -> (forall e, store_run (handler e)) -> store_run (try_catch m handler).
Proof.
  intros Hm Hf s. specialize (Hm s). unfold try_catch.
  destruct (m s) as [s' [a|e]]; [done|]. etrans; [exact Hm|]. apply (Hf e s').
Qed.

Lemma store_run_pure {A} (m : M A) : (forall s, (m s).1 = s) -> store_run m.
Proof. intros Hm s. rewrite Hm. apply rtc_refl. Qed.

Lemma store_run_command {A} c (m : M A) : typed c = true -> run_command c = void m ->
  store_run m.
Proof.
  intros Ht Hc s. apply rtc_once. exists c. split; [done|]. rewrite Hc.
  unfold void, mbind, M_bind. by destruct (m s) as [s' [a|e]].
Qed.

Lemma store_run_settle lease requeue : store_run (settleContinuation lease requeue).
Proof. intros s. apply rtc_once. by exists (c_settleContinuation lease requeue). Qed.

Ltac run_step :=
  lazymatch goal with
  | |- store_run (mbind _ _) => apply store_run_bind; [|intros ?]
  | |- store_run (try_catch _ _) => apply store_run_try; [|intros ?]
  | |- store_run (settleContinuation _ _) => apply store_run_settle
  | |- store_run (transitionRun ?a ?b ?c ?d ?e) =>
      by apply (store_run_command (c_transitionRun a b c d e))
  | |- store_run (acquireLease ?a ?b ?c ?d ?e) =>
      by apply (store_run_command (c_acquireLease a b c d e))
  | |- store_run (renewLease ?a ?b) => by apply (store_run_command (c_renewLease a b))
  | |- store_run (recoverClaimedWork ?a) => by apply (store_run_command (c_recoverClaimedWork a))
  | |- store_run (claimContinuation ?a) => by apply (store_run_command (c_claimContinuation a))
  | |- store_run wakeDueRuns => by apply (store_run_command c_wakeDueRuns)
  | |- store_run (match ?x with _ => _ end) => destruct x
  | |- store_run _ => by apply store_run_pure
  end.

Lemma tickRun_begin_commands stopping active run : store_run (tickRun_begin stopping active run).
Proof. unfold tickRun_begin, claim_work. repeat run_step. Qed.

Lemma heartbeat_commands lease failure : store_run (heartbeat lease failure).
Proof. unfold heartbeat. repeat run_step. Qed.

Lemma tickRun_finish_commands lease failure outcome :
  store_run (tickRun_finish lease failure outcome).
Proof. unfold tickRun_finish, settle_outcome, after_error. repeat run_step. Qed.

Lemma tick_start_commands d : rtc store_step (dm_store d) (dm_store (tick_start d)).
Proof.
  unfold tick_start. destruct (dm_stopping d); [apply rtc_refl|].
  destruct (dm_tick d); [apply rtc_refl|].
  assert (store_run (wokeRuns ← wakeDueRuns; listed ← listRuns;
    mret (wokeRuns, List.filter is_runnable listed) : M _)) as Hr by repeat run_step.
  specialize (Hr (dm_store d)). cbv zeta.
  by destruct ((wokeRuns ← wakeDueRuns; listed ← listRuns;
    mret (wokeRuns, List.filter is_runnable listed) : M _) (dm_store d)) as [s [[w r]|e]].
Qed.

Lemma tick_next_commands d : rtc store_step (dm_store d) (dm_store (tick_next d)).
Proof.
  unfold tick_next. destruct (dm_tick d) as [t|]; [|apply rtc_refl].
  destruct (t_phase t) as [[|run rest]|ex rest]; [apply rtc_refl| |apply rtc_refl].
  destruct (dm_stopping d) eqn:E; [apply rtc_refl|].
  pose proof (tickRun_begin_commands false (dm_active d) run (dm_store d)) as Hr.
  by destruct (tickRun_begin false (dm_active d) run (dm_store d)) as [s [[]|e]].
Qed.

Lemma tick_heartbeat_commands d : rtc store_step (dm_store d) (dm_store (tick_heartbeat d)).
Proof.
  unfold tick_heartbeat. destruct (dm_tick d) as [t|]; [|apply rtc_refl].
  destruct (t_phase t) as [?|ex rest]; [apply rtc_refl|].
  pose proof (heartbeat_commands (ex_lease ex) (ex_heartbeatFailure ex) (dm_store d)) as Hr.
  by destruct (heartbeat (ex_lease ex) (ex_heartbeatFailure ex) (dm_store d)) as [s [a|e]].
Qed.

Lemma tick_finish_commands outcome d :
  rtc store_step (dm_store d) (dm_store (tick_finish outcome d)).
Proof.
  unfold tick_finish. destruct (dm_tick d) as [t|]; [|apply rtc_refl].
  destruct (t_phase t) as [?|ex rest]; [apply rtc_refl|]. cbv zeta.
  change (dm_store (with_active _ d)) with (dm_store d).
  pose proof (tickRun_finish_commands (ex_lease ex) (ex_heartbeatFailure ex) outcome (dm_store d)) as Hr.
  by destruct (tickRun_finish (ex_lease ex) (ex_heartbeatFailure ex) outcome (dm_store d)) as [s [a|e]].
Qed.

(** A daemon refines the store: whatever the scheduler's turns, heartbeats,
    executor outcomes, aborts and stops are, and however they interleave with
    other users, the store moves only by the store's own commands, so every
    property of all commands holds of a running daemon. *)
Theorem daemon_refines_store d d' : rtc daemon_step d d' ->
  rtc store_step (dm_store d) (dm_store d').
Proof.
  induction 1 as [d|d1 d2 d3 Hstep _ IH]; [apply rtc_refl|]. etrans; [|exact IH].
  destruct Hstep as [s Hs| | | |outcome| | |runId reason].
  - by apply rtc_once.
  - apply tick_start_commands.
  - apply tick_next_commands.
  - apply tick_heartbeat_commands.
  - apply tick_finish_commands.
  - unfold scheduler_start. destruct (dm_timer d1); [apply rtc_refl|].
    apply (tick_start_commands {| dm_store := dm_store d1; dm_timer := true;
      dm_stopping := false; dm_active := dm_active d1; dm_tick := dm_tick d1 |}).
  - apply rtc_refl.
  - unfold abortRun. destruct (jm_get (dm_active d1) runId); apply rtc_refl.
Qed.

(** ** One execution at a time *)

(** The controllers are those of the execution in flight. *)
Definition active_ok (d : Daemon) : Prop :=
  jm_keys (dm_active d) =
    match dm_tick d with
    | Some t => match t_phase t with executing ex _ => [ex_runId ex] | between _ => [] end
    | None => []
    end.

Lemma active_empty d : active_ok d ->
  (forall t ex rest, dm_tick d = Some t -> t_phase t <> executing ex rest) -> dm_active d = [].
Proof.
  unfold active_ok. intros Ha Hn. apply (f_equal length) in Ha as Hl.
  destruct (dm_active d) as [|e l]; [done|]. exfalso.
  destruct (dm_tick d) as [t|]; [|done]. destruct (t_phase t) as [|ex rest] eqn:E; [done|].
  by apply (Hn t ex rest).
Qed.

Lemma jm_keys_set_one {V} (m : jsmap string V) k v : jm_keys m = [k] ->
  jm_keys (jm_set m k v) = [k].
Proof. intros Hm. rewrite jm_keys_set. unfold jm_keys in *. destruct m as [|[k1 v1] [|]]; [done| |done].
  cbn in Hm. injection Hm as ->. unfold jm_has. cbn. by case_decide. Qed.

Lemma active_step d d' : active_ok d -> daemon_step d d' -> active_ok d'.
Proof.
  intros Hd Hstep. destruct Hstep as [s Hs| | | |outcome| | |runId reason]; [done| | | | | | |].
  - unfold tick_start. destruct (dm_stopping d); [done|].
    destruct (dm_tick d) as [t|] eqn:E; [done|]. unfold active_ok in Hd. rewrite E in Hd.
    cbv zeta. destruct ((_ : M (list string * list Run)) (dm_store d)) as [s [[w r]|e]];
      unfold active_ok; cbn; rewrite ?E; done.
  - pose proof (active_empty d Hd) as Hempty. unfold tick_next.
    destruct (dm_tick d) as [t|] eqn:E; [|done].
    destruct (t_phase t) as [[|run rest]|ex rest] eqn:Ep; [| |done].
    { unfold active_ok. cbn. by rewrite Hempty by congruence. }
    assert (dm_active d = []) as Ha by (apply Hempty; congruence).
    destruct (dm_stopping d); [unfold active_ok; cbn; by rewrite Ha|].
    destruct (tickRun_begin false (dm_active d) run (dm_store d)) as [s [[]|e]];
      unfold active_ok; cbn; by rewrite Ha.
  - unfold tick_heartbeat. destruct (dm_tick d) as [t|] eqn:E; [|done].
    destruct (t_phase t) as [rest|ex rest] eqn:Ep; [done|].
    unfold active_ok in Hd. rewrite E, Ep in Hd.
    destruct (heartbeat _ _ _) as [s [f|e]]; unfold active_ok; cbn; [|by rewrite E, Ep].
    destruct f; [|done]. destruct (jm_get (dm_active d) (ex_runId ex)); [|done].
    by apply jm_keys_set_one.
  - unfold tick_finish. destruct (dm_tick d) as [t|] eqn:E; [|done].
    destruct (t_phase t) as [rest|ex rest] eqn:Ep; [done|].
    unfold active_ok in Hd. rewrite E, Ep in Hd. cbv zeta.
    assert (jm_delete (dm_active d) (ex_runId ex) = []) as Hdel.
    { unfold jm_delete, jm_keys in *. destruct (dm_active d) as [|[k v] [|]]; [done| |done].
      cbn in Hd. injection Hd as ->. cbn. by rewrite bool_decide_eq_true_2. }
    destruct (tickRun_finish _ _ _ _) as [s [f|e]]; unfold active_ok; cbn; by rewrite Hdel.
  - unfold scheduler_start. destruct (dm_timer d); [done|]. unfold tick_start. cbn.
    unfold active_ok in Hd. destruct (dm_tick d) as [t|] eqn:E; [unfold active_ok; cbn; by rewrite ?E|].
    destruct ((_ : M (list string * list Run)) (dm_store d)) as [s [[w r]|e]];
      unfold active_ok; cbn; by rewrite ?E.
  - unfold active_ok, scheduler_stop in *. cbn. rewrite <- Hd. unfold jm_keys.
    induction (dm_active d) as [|e l IH]; [done|]. cbn. f_equal.
    clear. induction l as [|e' l IH]; [done|]. cbn. by f_equal.
  - unfold abortRun. destruct (jm_get (dm_active d) runId) as [signal|] eqn:E; [|done].
    unfold active_ok in *. cbn [snd with_active dm_active dm_tick]. rewrite <- Hd, jm_keys_set. unfold jm_has. by rewrite E.
Qed.

(** ** What an executor is given *)

Lemma timestamp_ok {B} (f : Z -> M B) s s' b : (timestamp ≫= f) s = (s', Ok b) ->
  exists now s1, db s1 = db s /\ f now s1 = (s', Ok b).
Proof.
  unfold mbind, M_bind, timestamp. intros E. eexists _, _. split; [|exact E]. done.
Qed.

Lemma try_catch_ok {A} (m : M A) handler s s' a :
  try_catch m handler s = (s', Ok a) ->
  m s = (s', Ok a) \/ exists s1 e, m s = (s1, Throw e) /\ handler e s1 = (s', Ok a).
Proof. unfold try_catch. destruct (m s) as [s1 [x|e]]; [auto|]. right. eauto. Qed.

Lemma try_catch_throws {A} (m : M A) handler s s' e :
  m s = (s', Throw e) -> try_catch m handler s = handler e s'.
Proof. unfold try_catch. by intros ->. Qed.

Lemma mustLease_ok runId s s' row : mustLease runId s = (s', Ok row) ->
  s' = s /\ lease_row runId (db s) = Some row.
Proof.
  unfold mustLease, select_row, query, must, mbind, M_bind, lease_row.
  destruct (find _ (run_leases (db s))) as [r|]; [|done]. by intros [= -> ->].
Qed.

Lemma acquireLease_ok executorId host processId runId ttlMs s s' row :
  acquireLease executorId host processId runId ttlMs s = (s', Ok row) ->
  lease_row runId (db s') = Some row /\ le_run_id row = runId /\ le_holder_id row = executorId.
Proof.
  unfold acquireLease. intros (now & s1 & _ & E)%timestamp_ok. cbv zeta in E.
  rewrite transaction_ok in E. unfold select_row, query in E.
  apply mbind_ok in E as (s2 & existing & [= <- <-] & E).
  apply mbind_ok in E as (s3 & [] & E1 & E). apply mbind_ok in E as (s4 & [] & [= <-] & E).
  apply mustLease_ok in E as [-> Hrow].
  split; [done|]. pose proof (lease_row_id _ _ _ Hrow) as Hid. split; [done|].
  change (lease_row runId (db (set_db _ s3))) with (lease_row runId (db s3)) in Hrow.
  destruct (find _ (run_leases (db s1))) as [current|] eqn:Hcur.
  - apply mbind_ok in E1 as (s5 & [] & [_ ->]%guard_ok & [= <-]).
    unfold lease_row in Hrow. cbn [db set_db run_leases set_run_leases] in Hrow.
    rewrite find_map_update, Hcur in Hrow by done. cbn [option_map] in Hrow.
    apply find_some in Hcur as [_ Hc]. rewrite Hc in Hrow. by injection Hrow as <-.
  - apply mbind_ok in E1 as (s5 & id & E1 & E2). unfold newId, lift in E1.
    injection E1 as <- _. unfold insert_row in E2. destruct (_ || _); [done|].
    injection E2 as <-. unfold lease_row in Hrow. cbn [db set_db run_leases set_run_leases] in Hrow.
    rewrite find_app_none in Hrow by done. cbn [find le_run_id] in Hrow.
    rewrite bool_decide_eq_true_2 in Hrow by done. by injection Hrow as <-.
Qed.

Lemma assertLease_ok lease now s s' u : assertLeaseInternal lease now s = (s', Ok u) ->
  s' = s /\ lease_valid lease now (db s) = true.
Proof.
  destruct (assertLease_eq lease now s) as [reason ->].
  destruct (lease_valid lease now (db s)); [|done]. by intros [= <-].
Qed.

(** The run's continuation is claimed under the lease. *)
Definition claimed_under (lease : FencedLease) (d : Db) : Prop :=
  exists a, a ∈ scheduled_actions d /\ sa_run_id a = fl_runId lease /\
    sa_status a = sas_claimed /\ sa_claimed_by a = Some (fl_executorId lease) /\
    sa_claimed_epoch a = Some (fl_generation lease).

Lemma claimContinuation_some lease s s' action :
  claimContinuation lease s = (s', Ok (Some action)) ->
  (exists now, lease_valid lease now (db s') = true) /\ claimed_under lease (db s') /\
  exists row, run_row (fl_runId lease) (db s') = Some row /\ rn_status row = run_running.
Proof.
  unfold claimContinuation. intros (now & s1 & _ & E)%timestamp_ok.
  rewrite transaction_ok in E. apply mbind_ok in E as (s2 & [] & Hv & E).
  apply assertLease_ok in Hv as [-> Hv]. unfold select_row at 1, query at 1 in E.
  apply mbind_ok in E as (s2 & found & [= <- <-] & E).
  destruct (find _ (scheduled_actions (db s1))) as [a|] eqn:Ha; [|done].
  apply mbind_ok in E as (s2 & run & Hrun & E). rewrite mustRun_eq in Hrun.
  destruct (run_row (fl_runId lease) (db s1)) as [row|] eqn:Hrow; [|done].
  injection Hrun as <- <-. apply mbind_ok in E as (s2 & goal & Hgoal & E).
  assert (s2 = s1) as ->.
  { by destruct (run_currentGoalId (runFromRow row)); injection Hgoal as <-. }
  destruct goal as [goal|]; [|done].
  destruct (_ || _) eqn:Hst in E; [done|]. bool_hyps.
  apply mbind_ok in E as (s2 & [] & [= <-] & E). apply mbind_ok in E as (s3 & [] & [= <-] & [= <- _]).
  split; [by exists now|]. split; [|by exists row].
  apply find_some in Ha as [Hin%list_elem_of_In Hc].
  eexists. split; [cbn; apply list_elem_of_fmap; exists a; split; [reflexivity|exact Hin]|].
  bool_hyps. rewrite !bool_decide_eq_true_2 by done. cbn. done.
Qed.

Lemma claim_work_started stopping run lease s s' action lease' recovered :
  claim_work stopping run lease s = (s', Ok (started action lease' recovered)) ->
  stopping = false /\ lease' = lease /\
  (exists now, lease_valid lease now (db s') = true) /\ claimed_under lease (db s') /\
  exists row, run_row (fl_runId lease) (db s') = Some row /\ rn_status row = run_running.
Proof.
  unfold claim_work. intros (s1 & calls & _ & E)%mbind_ok. cbv zeta in E.
  apply mbind_ok in E as (s2 & [] & _ & E). apply mbind_ok in E as (s3 & found & Hclaim & E).
  destruct found as [found|]; [|done]. apply claimContinuation_some in Hclaim.
  unfold getRun, query in E. apply mbind_ok in E as (s4 & current & [= <- <-] & E).
  destruct (_ || _) eqn:Hb in E.
  { by apply mbind_ok in E as (? & ? & _ & ?). }
  injection E as <- <- <- <-. apply orb_false_iff in Hb as [-> _]. done.
Qed.

Lemma tickRun_begin_started stopping active run s s' action lease recovered :
  tickRun_begin stopping active run s = (s', Ok (started action lease recovered)) ->
  jm_has active (run_id run) = false /\ stopping = false /\
  fl_runId lease = run_id run /\ fl_executorId lease = so_executorId options /\
  (exists now, lease_valid lease now (db s') = true) /\ claimed_under lease (db s') /\
  exists row, run_row (run_id run) (db s') = Some row /\ rn_status row = run_running.
Proof.
  unfold tickRun_begin. destruct (jm_has active (run_id run)); [done|].
  intros (s1 & activeRun & Hrun & E)%mbind_ok.
  assert (run_id activeRun = run_id run) as Hid.
  { case_bool_decide; [|by injection Hrun as _ <-]. unfold transitionRun in Hrun.
    rewrite transaction_ok in Hrun. apply timestamp_ok in Hrun as (now & s2 & _ & Hrun).
    apply mbind_ok in Hrun as (s3 & [] & _ & Hrun). apply mbind_ok in Hrun as (s4 & r & Hr & Hrun).
    apply mbind_ok in Hrun as (s5 & [] & _ & Hrun). apply mbind_ok in Hrun as (s6 & u & _ & Hrun).
    apply mbind_ok in Hrun as (s7 & [] & _ & Hrun). rewrite mustRun_eq in Hr, Hrun.
    destruct (run_row (run_id run) (db s3)) as [row|] eqn:E1; [|done]. injection Hr as _ <-.
    destruct (run_row _ (db s7)) as [row'|] eqn:E2; [|done]. injection Hrun as _ <-.
    apply run_row_id in E1, E2. cbn in *. congruence. }
  apply mbind_ok in E as (s2 & held & Hlease & E). destruct held as [l|]; [|done].
  apply claim_work_started in E as (-> & -> & Hv & Hc & Hr).
  apply try_catch_ok in Hlease as [Hacq|(s3 & e & _ & Hcaught)].
  - apply mbind_ok in Hacq as (s3 & row & Hacq & [= <- <-]).
    apply acquireLease_ok in Hacq as (_ & Hrid & Hhold). cbn [fenced_lease fl_runId fl_executorId] in *.
    assert (le_run_id row = run_id run) as Heq by congruence. rewrite Heq in Hr.
    split; [done|]. split; [done|]. split; [done|]. split; [done|]. done.
  - by destruct (is_fenced e).
Qed.

(** The scheduler of a process that has just started. *)
Definition idle (s : Store) : Daemon :=
  {| dm_store := s; dm_timer := false; dm_stopping := false; dm_active := []; dm_tick := None |}.

(** C26: Whenever a daemon hands work to its executor, it is the only execution of
    this scheduler, the run is running, its lease is held by this executor and
    its continuation is claimed under exactly that lease, whatever commands,
    heartbeats, stops and outcomes came before. *)
Theorem executor_works_under_lease s d t run rest t' ex :
  rtc daemon_step (idle s) d -> dm_tick d = Some t -> t_phase t = between (run :: rest) ->
  dm_tick (tick_next d) = Some t' -> t_phase t' = executing ex rest ->
  let tables := db (dm_store (tick_next d)) in
  dm_active (tick_next d) = [(ex_runId ex, None)] /\ dm_stopping d = false /\
  fl_runId (ex_lease ex) = ex_runId ex /\ fl_executorId (ex_lease ex) = so_executorId options /\
  (exists now, lease_valid (ex_lease ex) now tables = true) /\
  claimed_under (ex_lease ex) tables /\
  exists row, run_row (ex_runId ex) tables = Some row /\ rn_status row = run_running.
Proof.
  intros Hsteps Ht Hp Ht' Hp'. cbv zeta.
  assert (active_ok d) as Ha.
  { clear - Hsteps. assert (active_ok (idle s)) as H0 by done. revert H0.
    induction Hsteps as [d|d1 d2 d3 H12 _ IH]; [done|]. intros H0. by eapply IH, active_step. }
  assert (dm_active d = []) as Hempty by (apply active_empty; [done|congruence]).
  unfold tick_next in *. rewrite Ht, Hp in *.
  destruct (dm_stopping d) eqn:Hstop; [done|].
  destruct (tickRun_begin false (dm_active d) run (dm_store d)) as [s1 [b|e]] eqn:E; [|done].
  destruct b as [recovered|action lease recovered]; cbn in Ht'.
  { injection Ht' as <-. cbn in Hp'. done. }
  injection Ht' as <-. cbn in Hp'. injection Hp' as <-.
  apply tickRun_begin_started in E as (_ & _ & Hl & Hx & Hv & Hc & Hr).
  cbn. rewrite Hempty. split; [done|]. done.
Qed.

(** ** Settling *)

Lemma renew_stale lease ttl s : lease_valid lease (clock_at (clock_reads s)) (db s) = false ->
  exists s' reason, renewLease lease ttl s = (s', Throw (LeaseFencedError (fl_runId lease) reason)) /\
    db s' = db s.
Proof.
  intros Hstale. unfold renewLease, timestamp, mbind at 1, M_bind at 1. cbv beta iota zeta.
  unfold transaction, mbind at 1, M_bind at 1.
  edestruct (assertLease_eq lease (clock_at (clock_reads s))
    {| db := db s; clock_reads := S (clock_reads s); uuid_reads := uuid_reads s |}) as [reason ->].
  cbn [db]. rewrite Hstale. eauto.
Qed.

Lemma settle_stale lease requeue s :
  lease_valid lease (clock_at (clock_reads s)) (db s) = false ->
  exists s' reason, settleContinuation lease requeue s =
      (s', Throw (LeaseFencedError (fl_runId lease) reason)) /\ db s' = db s.
Proof.
  intros Hstale. unfold settleContinuation, timestamp, mbind at 1, M_bind at 1. cbv beta iota zeta.
  unfold transaction, mbind at 1, M_bind at 1.
  edestruct (assertLease_eq lease (clock_at (clock_reads s))
    {| db := db s; clock_reads := S (clock_reads s); uuid_reads := uuid_reads s |}) as [reason ->].
  cbn [db]. rewrite Hstale. eauto.
Qed.

Lemma after_error_stale lease error s :
  lease_valid lease (clock_at (clock_reads s)) (db s) = false ->
  db (after_error lease error s).1 = db s /\
  ((after_error lease error s).2 = Ok tt \/ (after_error lease error s).2 = Throw error).
Proof.
  intros Hstale. unfold after_error, mbind, M_bind. destruct (is_fenced error) eqn:E.
  - by split; [|left].
  - unfold try_catch. destruct (settle_stale lease true s Hstale) as (s' & reason & -> & Hdb).
    by split; [|right].
Qed.

(** An executor that lost its lease settles nothing: whatever its promise
    gave and whatever its heartbeat saw, finishing leaves every table as it is,
    and the only error the tick passes on is the executor's or the heartbeat's
    own. *)
Theorem stale_execution_settles_nothing lease failure outcome s :
  lease_valid lease (clock_at (clock_reads s)) (db s) = false ->
  let r := tickRun_finish lease failure outcome s in
  db r.1 = db s /\
  match r.2 with
  | Ok _ => True
  | Throw error => outcome = Throw error \/ failure = Some error
  end.
Proof.
  intros Hstale. unfold tickRun_finish.
  assert (forall error, settle_outcome lease failure outcome s = (s, Throw error) ->
    outcome = Throw error \/ failure = Some error ->
    let r := try_catch (settle_outcome lease failure outcome) (after_error lease) s in
    db r.1 = db s /\
    match r.2 with Ok _ => True | Throw error => outcome = Throw error \/ failure = Some error end)
    as Herror.
  { intros error E He. cbv zeta. rewrite (try_catch_throws _ _ _ _ _ E).
    destruct (after_error_stale lease error s Hstale) as [Hdb Hr].
    split; [exact Hdb|]. by destruct Hr as [-> | ->]. }
  destruct outcome as [requeue|error]; [|by apply (Herror error); auto].
  destruct failure as [error|]; [by apply (Herror error); auto|].
  destruct (renew_stale lease (so_leaseTtlMs options) s Hstale) as (s' & reason & Hr & Hdb).
  assert (settle_outcome lease None (Ok requeue) s =
    (s', Throw (LeaseFencedError (fl_runId lease) reason))) as E.
  { unfold settle_outcome, mbind, M_bind, lift, mret, M_ret. by rewrite Hr. }
  cbv zeta. by rewrite (try_catch_throws _ _ _ _ _ E).
Qed.

(** The run is running and its current goal goes on. *)
Definition continuable (runId : string) (d : Db) : Prop :=
  exists row goalId goal, run_row runId d = Some row /\ rn_status row = run_running /\
    rn_current_goal_id row = Some goalId /\
    find (fun r => gl_id r === goalId) (goals d) = Some goal /\
    shouldContinueGoal (gl_status goal) = true.

Lemma ensureContinuation_fresh runId now s : continuable runId (db s) ->
  (forall a, a ∈ scheduled_actions (db s) -> sa_run_id a <> runId) ->
  exists action, ensureContinuationInternal runId now s =
      (set_db (set_scheduled_actions (scheduled_actions (db s) ++ [action]) (db s)) s, Ok tt) /\
    sa_run_id action = runId /\ sa_status action = sas_pending /\ sa_due_at action = now.
Proof.
  intros (row & goalId & goal & Hrow & Hst & Hg & Hgoal & Hcont) Hnone.
  unfold ensureContinuationInternal, mbind, M_bind. rewrite mustRun_eq, Hrow.
  cbn [runFromRow run_currentGoalId run_status]. rewrite Hg, Hst.
  rewrite bool_decide_eq_true_2 by done. cbn [negb].
  unfold mustGoal, getGoal, select_row, query, must, mbind, M_bind. rewrite Hgoal.
  cbn [mret M_ret]. rewrite Hcont. cbn [negb]. unfold insert_or_ignore, insert_row.
  assert (existsb (action_clashes {| sa_run_id := runId; sa_action_type := "continue_goal";
      sa_due_at := now; sa_status := sas_pending; sa_claimed_by := None;
      sa_claimed_epoch := None; sa_attempt := 0; sa_created_at := now; sa_updated_at := now |})
    (scheduled_actions (db s)) = false) as Hex.
  { apply existsb_false. intros a Ha. unfold action_clashes. cbn. apply bool_decide_eq_false_2.
    intros Heq. by apply (Hnone a Ha). }
  rewrite Hex. cbn [orb]. assert (has_id runs rn_id runId (db s) = true) as ->.
  { apply existsb_elem. apply find_some in Hrow as [Hin Hid]. exists row.
    by rewrite list_elem_of_In. }
  eexists. split; [reflexivity|]. done.
Qed.

(** The one action of the run is claimed under the lease. *)
Definition only_claimed (lease : FencedLease) (d : Db) : Prop :=
  forall a, a ∈ scheduled_actions d -> sa_run_id a = fl_runId lease ->
    sa_status a = sas_claimed /\ sa_claimed_by a = Some (fl_executorId lease) /\
    sa_claimed_epoch a = Some (fl_generation lease).

Lemma settle_requeues lease s :
  lease_valid lease (clock_at (clock_reads s)) (db s) = true ->
  continuable (fl_runId lease) (db s) -> only_claimed lease (db s) ->
  exists s' a, settleContinuation lease true s = (s', Ok tt) /\
    a ∈ scheduled_actions (db s') /\ sa_run_id a = fl_runId lease /\
    sa_status a = sas_pending /\ ~ claimed_under lease (db s').
Proof.
  intros Hv Hc Hone. unfold settleContinuation, timestamp, mbind at 1, M_bind at 1.
  cbv beta iota zeta. unfold transaction, mbind at 1, M_bind at 1.
  edestruct (assertLease_eq lease (clock_at (clock_reads s))
    {| db := db s; clock_reads := S (clock_reads s); uuid_reads := uuid_reads s |}) as [reason ->].
  cbn [db]. rewrite Hv. unfold mbind, M_bind, delete_rows, execute. cbn [when].
  set (released a := (sa_run_id a === fl_runId lease) && (sa_status a === sas_claimed) &&
    (sa_claimed_by a === Some (fl_executorId lease)) &&
    (sa_claimed_epoch a === Some (fl_generation lease))).
  assert (forall a, a ∈ List.filter (fun r => negb (released r)) (scheduled_actions (db s)) ->
    sa_run_id a <> fl_runId lease) as Hnone.
  { intros a [Hin Hr]%elem_of_list_filter Hrun. destruct (Hone a Hin Hrun) as (H1 & H2 & H3).
    unfold released in Hr. by rewrite Hrun, H1, H2, H3, !bool_decide_eq_true_2 in Hr. }
  match goal with |- context [ensureContinuationInternal _ _ ?st] =>
    destruct (ensureContinuation_fresh (fl_runId lease) (clock_at (clock_reads s)) st)
      as (action & E & Hid & Hpend & _); [exact Hc|exact Hnone|] end.
  rewrite E. eexists _, action. split; [reflexivity|].
  cbn [db set_db scheduled_actions set_scheduled_actions]. split; [|split; [done|split; [done|]]].
  - apply elem_of_app. right. apply list_elem_of_here.
  - intros (a & Hin & Hrun & Hcl & _). cbn [db set_db scheduled_actions set_scheduled_actions] in Hin.
    apply elem_of_app in Hin as [Hin|Hin%list_elem_of_singleton].
    + by apply (Hnone a Hin).
    + subst a. congruence.
Qed.

(** A failed execution becomes a fresh continuation: when the executor or its
    heartbeat fails with anything but a lost lease, and the lease still holds,
    the claim is gone, one pending continuation of the run is queued, and the
    error is passed on. *)
Theorem failed_execution_requeues lease failure outcome error s :
  is_fenced error = false ->
  outcome = Throw error \/ is_ok outcome = true /\ failure = Some error ->
  lease_valid lease (clock_at (clock_reads s)) (db s) = true ->
  continuable (fl_runId lease) (db s) -> only_claimed lease (db s) ->
  exists s' a, tickRun_finish lease failure outcome s = (s', Throw error) /\
    a ∈ scheduled_actions (db s') /\ sa_run_id a = fl_runId lease /\
    sa_status a = sas_pending /\ ~ claimed_under lease (db s').
Proof.
  intros Hf Hout Hv Hc Hone. unfold tickRun_finish.
  assert (settle_outcome lease failure outcome s = (s, Throw error)) as E.
  { destruct Hout as [-> |[Ho ->]]; [done|]. by destruct outcome. }
  rewrite (try_catch_throws _ _ _ _ _ E). unfold after_error, try_catch, mbind, M_bind. rewrite Hf.
  destruct (settle_requeues lease s Hv Hc Hone) as (s' & a & -> & Hrest). eauto.
Qed.
End Scheduler.

(** ** Concrete schedules *)

Definition demo_options : SchedulerOptions :=
  {| so_executorId := "daemon"; so_host := "host"; so_leaseTtlMs := 15000; so_processId := 1 |}.

Definition demo_claimed : Daemon := tick_next demo_options (tick_start (idle demo_store)).

Example demo_claimed_executes :
  (fun t => match t_phase t with executing ex rest => Some (ex_runId ex, rest) | _ => None end)
    <$> dm_tick demo_claimed = Some (Some (demo_run, [])).
Proof. vm_compute. reflexivity. Qed.

Definition demo_execution : Execution :=
  match dm_tick demo_claimed with
  | Some t =>
      match t_phase t with
      | executing ex _ => ex
      | between _ => {| ex_runId := ""; ex_action := {| act_actionType := ""; act_attempt := 0;
                          act_runId := "" |}; ex_lease := demo_lease "" 0;
                        ex_heartbeatFailure := None; ex_recovered := 0 |}
      end
  | None => {| ex_runId := ""; ex_action := {| act_actionType := ""; act_attempt := 0;
                 act_runId := "" |}; ex_lease := demo_lease "" 0;
               ex_heartbeatFailure := None; ex_recovered := 0 |}
  end.

(** The daemon after a command of somebody else. *)
Definition after_command (c : command) (d : Daemon) : Daemon :=
  with_store (run_command c (dm_store d)).1 d.

(** A wake that comes before the executor returns is lost: the run is running and
    no continuation is scheduled. *)
Definition lost_wake : Daemon :=
  tick_finish demo_options (Ok false)
    (after_command c_wakeDueRuns
      (after_command (c_scheduleWake None demo_run (Some 0)) demo_claimed)).

Example wake_during_execution_is_lost :
  rn_status <$> run_row demo_run (db (dm_store lost_wake)) = Some run_running /\
  scheduled_actions (db (dm_store lost_wake)) = [].
Proof. vm_compute. split; reflexivity. Qed.

(** Two runs, the newer of which always fails: the tick ends with the failure,
    so the older one is never reached. *)
Definition demo_second : CreateRunInput :=
  {| ci_budget := None; ci_initialGoal := None; ci_permissions := None;
     ci_prompt := "Write the docs"; ci_sandbox := None;
     ci_requirements := [(Some "requirement_b", "Docs exist", None)];
     ci_title := None; ci_workspaceUri := "file:///work" |}.

Definition failing_tick (d : Daemon) : Daemon :=
  tick_finish demo_options (Throw (Error "provider unavailable"))
    (tick_next demo_options (tick_start d)).

Definition starved : Daemon :=
  Nat.iter 3 failing_tick (idle (after_commands [c_createRun demo_second] demo_store)).

(** No lease was ever taken for it, and its continuation is still due. *)
Example failing_run_starves_older_run :
  lease_row demo_run (db (dm_store starved)) = None /\
  (sa_status <$> find (fun a => sa_run_id a === demo_run)
     (scheduled_actions (db (dm_store starved)))) = Some sas_pending /\
  dm_tick starved = None.
Proof. vm_compute. repeat split; reflexivity. Qed.

(** ** Witnesses *)

Lemma demo_claimed_steps : rtc (daemon_step demo_options) (idle demo_store) demo_claimed.
Proof.
  unfold demo_claimed. apply (rtc_l _ _ (tick_start (idle demo_store))); [apply step_tick|].
  apply rtc_once, step_next.
Qed.

Lemma daemon_refines_store_witness :
  rtc store_step (dm_store (idle demo_store)) (dm_store demo_claimed).
Proof. exact (daemon_refines_store demo_options _ _ demo_claimed_steps). Defined.

Lemma executor_works_under_lease_witness :
  dm_active (tick_next demo_options (tick_start (idle demo_store))) =
    [(ex_runId demo_execution, None)] /\
  claimed_under (ex_lease demo_execution)
    (db (dm_store (tick_next demo_options (tick_start (idle demo_store))))).
Proof.
  destruct (dm_tick (tick_start (idle demo_store))) as [t|] eqn:Et;
    [|vm_compute in Et; discriminate Et].
  assert (t_phase t = between (map runFromRow (runs (db demo_store)))) as Ep.
  { vm_compute in Et. injection Et as <-. vm_compute. reflexivity. }
  destruct (map runFromRow (runs (db demo_store))) as [|run rest] eqn:Er;
    [vm_compute in Er; discriminate Er|].
  assert (rest = []) as -> by (vm_compute in Er; injection Er as _ <-; reflexivity).
  destruct (dm_tick (tick_next demo_options (tick_start (idle demo_store)))) as [t'|] eqn:Et';
    [|vm_compute in Et'; discriminate Et'].
  assert (t_phase t' = executing demo_execution []) as Ep'.
  { vm_compute in Et'. injection Et' as <-. vm_compute. reflexivity. }
  pose proof (executor_works_under_lease demo_options demo_store (tick_start (idle demo_store))
    t run [] t' demo_execution (rtc_once _ _ (step_tick _ _)) Et Ep Et' Ep') as Hall.
  cbv zeta in Hall. destruct Hall as (Ha & _ & _ & _ & _ & Hc & _).
  split; [exact Ha|exact Hc].
Defined.

Lemma stale_execution_settles_nothing_witness :
  db (tickRun_finish demo_options (demo_lease "daemon" 7) None (Ok true)
        (dm_store demo_claimed)).1 = db (dm_store demo_claimed).
Proof.
  assert (lease_valid (demo_lease "daemon" 7) (clock_at (clock_reads (dm_store demo_claimed)))
    (db (dm_store demo_claimed)) = false) as Hv by (vm_compute; reflexivity).
  pose proof (stale_execution_settles_nothing demo_options (demo_lease "daemon" 7) None (Ok true)
    (dm_store demo_claimed) Hv) as Hall.
  cbv zeta in Hall. destruct Hall as [Hdb _]. exact Hdb.
Defined.

Lemma failed_execution_requeues_witness :
  exists s' a, tickRun_finish demo_options (ex_lease demo_execution) None (Throw (Error "boom"))
      (dm_store demo_claimed) = (s', Throw (Error "boom")) /\
    a ∈ scheduled_actions (db s') /\ sa_status a = sas_pending.
Proof.
  destruct (failed_execution_requeues demo_options (ex_lease demo_execution) None
    (Throw (Error "boom")) (Error "boom") (dm_store demo_claimed))
    as (s' & a & Hr & Hin & _ & Hp & _).
  - reflexivity.
  - left. reflexivity.
  - vm_compute. reflexivity.
  - destruct (run_row (fl_runId (ex_lease demo_execution)) (db (dm_store demo_claimed)))
      as [row|] eqn:Hrow; [|vm_compute in Hrow; discriminate Hrow].
    destruct (head (goals (db (dm_store demo_claimed)))) as [goal|] eqn:Hgoal;
      [|vm_compute in Hgoal; discriminate Hgoal].
    exists row, (gl_id goal), goal. rewrite Hrow. vm_compute in Hrow, Hgoal.
    injection Hrow as <-. injection Hgoal as <-. vm_compute. repeat split; reflexivity.
  - intros a Hin Hrun.
    assert (scheduled_actions (db (dm_store demo_claimed)) =
      [{| sa_run_id := demo_run; sa_action_type := "continue_goal"; sa_due_at := 0;
          sa_status := sas_claimed; sa_claimed_by := Some "daemon"; sa_claimed_epoch := Some 1;
          sa_attempt := 1; sa_created_at := 0; sa_updated_at := 4 |}]) as E
      by (vm_compute; reflexivity).
    rewrite E in Hin. apply list_elem_of_singleton in Hin. subst a.
    vm_compute. repeat split; reflexivity.
  - exists s', a. split; [exact Hr|]. split; [exact Hin|exact Hp].
Defined.
