(* ===== verification/JsText.v ===== *)
(** Strings as sequences of UTF-16 code units, for the context format, which
    transports arbitrary text: the methods the format's code calls, its
    character classes, and JSON string literals with their round trip. *)

From Stdlib Require Import NArith Lia Ascii String.
From stdpp Require Import base strings list.
From S2P Require Import Prelude JsString JsCollections Json.

#[local] Open Scope N_scope.
Open Scope list_scope.

(** A string: its code units, each below 65536. *)
Definition text : Type := list N.

(** The unit of a character constant, and the text of a string constant. *)
Definition ch (c : ascii) : N := N_of_ascii c.
Arguments ch c%_char_scope.
Definition txt (s : string) : text := map ch (units s).
Arguments txt s%_string_scope.

Definition newline : N := 10.
Definition quote : N := 34.
Definition backslash : N := 92.

(** ** Character classes *)

Definition within (lo hi c : N) : bool := (lo <=? c) && (c <=? hi).

Definition is_digit (c : N) : bool := within 48 57 c.
Definition is_upper (c : N) : bool := within 65 90 c.
Definition is_lower (c : N) : bool := within 97 122 c.
Definition is_letter (c : N) : bool := is_upper c || is_lower c.
Definition is_alnum (c : N) : bool := is_letter c || is_digit c.

(** The units that [/\s/] matches. *)
Definition is_space (c : N) : bool :=
  within 9 13 c || (c =? 32) || (c =? 160) || (c =? 5760) || within 8192 8202 c ||
  (c =? 8232) || (c =? 8233) || (c =? 8239) || (c =? 8287) || (c =? 12288) || (c =? 65279).

Definition is_high_surrogate (c : N) : bool := within 55296 56319 c.
Definition is_low_surrogate (c : N) : bool := within 56320 57343 c.

(** One of the characters of a constant. *)
Definition one_of (s : string) (c : N) : bool := existsb (N.eqb c) (txt s).
Arguments one_of s%_string_scope c.

(** A class followed by any number of units of another: [/^[a][b]*$/]. *)
Definition class_token (first rest : N -> bool) (s : text) : bool :=
  match s with
  | [] => false
  | c :: r => first c && forallb rest r
  end.

(** [/^[a]+$/] *)
Definition nonempty_all (class : N -> bool) (s : text) : bool := class_token class class s.

(** ** Methods *)

(** [s.startsWith(c)] and [s.endsWith(c)] for one unit. *)
Definition starts_with (c : N) (s : text) : bool :=
  match s with x :: _ => x =? c | [] => false end.
Definition ends_with (c : N) (s : text) : bool :=
  match last s with Some x => x =? c | None => false end.

(** [s.slice(first, s.length - final)] *)
Definition inner (first final : nat) (s : text) : text :=
  take (length s - first - final) (drop first s).

(** [s.indexOf(c)] for one unit; [None] stands for -1. *)
Fixpoint index_of (c : N) (s : text) : option nat :=
  match s with
  | [] => None
  | x :: r => if x =? c then Some O else S <$> index_of c r
  end.

(** [s.lastIndexOf(c)] *)
Fixpoint last_index_of (c : N) (s : text) : option nat :=
  match s with
  | [] => None
  | x :: r =>
      match last_index_of c r with
      | Some i => Some (S i)
      | None => if x =? c then Some O else None
      end
  end.

(** [s.split(c)] for one unit. *)
Fixpoint split_on (c : N) (s : text) : list text :=
  match s with
  | [] => [[]]
  | x :: r =>
      if x =? c then [] :: split_on c r
      else match split_on c r with
           | p :: ps => (x :: p) :: ps
           | [] => [[x]]
           end
  end.

(** [parts.join(c)] for one unit. *)
Fixpoint join_with (c : N) (parts : list text) : text :=
  match parts with
  | [] => []
  | [p] => p
  | p :: ps => p ++ c :: join_with c ps
  end.

(** [s.replaceAll("\r\n", "\n")] *)
Fixpoint normalize_newlines (s : text) : text :=
  match s with
  | c :: ((d :: r') as r) =>
      if (c =? 13) && (d =? 10) then 10 :: normalize_newlines r'
      else c :: normalize_newlines r
  | _ => s
  end.

(** [s.includes("\r\n")] *)
Fixpoint has_crlf (s : text) : bool :=
  match s with
  | c :: ((d :: _) as r) => (c =? 13) && (d =? 10) || has_crlf r
  | _ => false
  end.

(** ** Order of code units, as in [Array.prototype.sort()] *)

Fixpoint text_le (a b : text) : bool :=
  match a, b with
  | [], _ => true
  | _ :: _, [] => false
  | x :: a, y :: b => (x <? y) || (x =? y) && text_le a b
  end.

Lemma text_le_total a b : text_le a b = true \/ text_le b a = true.
Proof.
  revert b. induction a as [|x a IH]; intros [|y b]; simpl; auto.
  destruct (N.ltb_spec x y), (N.ltb_spec y x); auto. assert (x = y) as -> by lia.
  rewrite !N.eqb_refl. apply IH.
Qed.

Lemma text_le_trans a b c : text_le a b = true -> text_le b c = true -> text_le a c = true.
Proof.
  revert b c. induction a as [|x a IH]; intros [|y b] [|z c]; simpl; auto; try done.
  rewrite !orb_true_iff, !andb_true_iff, !N.ltb_lt, !N.eqb_eq.
  intros [?|[-> Ha]] [?|[-> Hb]]; auto; [left; lia|]. right. split; [done|]. eauto.
Qed.

Lemma text_le_antisym a b : text_le a b = true -> text_le b a = true -> a = b.
Proof.
  revert b. induction a as [|x a IH]; intros [|y b]; simpl; auto; try done.
  rewrite !orb_true_iff, !andb_true_iff, !N.ltb_lt, !N.eqb_eq.
  intros [?|[-> Ha]] [?|[? Hb]]; subst; try lia. f_equal. auto.
Qed.

(** ** JSON string literals *)

Definition hex_unit (d : N) : N := if d <? 10 then 48 + d else 87 + d.

(** [\uXXXX], in lower case. *)
Definition unicode_escape (c : N) : text :=
  [backslash; ch "u"; hex_unit (c / 4096); hex_unit (c / 256 mod 16);
   hex_unit (c / 16 mod 16); hex_unit (c mod 16)].

Definition escape_unit (c : N) : text :=
  match c with
  | 34 => [backslash; quote]
  | 92 => [backslash; backslash]
  | 8 => [backslash; ch "b"]
  | 12 => [backslash; ch "f"]
  | 10 => [backslash; ch "n"]
  | 13 => [backslash; ch "r"]
  | 9 => [backslash; ch "t"]
  | _ => if c <? 32 then unicode_escape c else [c]
  end.

(** The units between the quotes: a surrogate without its partner is escaped. *)
Fixpoint quote_body (s : text) : text :=
  match s with
  | [] => []
  | c :: r =>
      if is_high_surrogate c then
        match r with
        | d :: r' =>
            if is_low_surrogate d then c :: d :: quote_body r'
            else unicode_escape c ++ quote_body r
        | [] => unicode_escape c
        end
      else if is_low_surrogate c then unicode_escape c ++ quote_body r
      else escape_unit c ++ quote_body r
  end.

(** [JSON.stringify(s)] *)
Definition JSON_quote (s : text) : text := quote :: quote_body s ++ [quote].

Definition hex_value (c : N) : option N :=
  if is_digit c then Some (c - 48)
  else if within 97 102 c then Some (c - 87)
  else if within 65 70 c then Some (c - 55)
  else None.

Definition simple_escape (c : N) : option N :=
  match c with
  | 34 => Some 34 | 92 => Some 92 | 47 => Some 47 | 98 => Some 8
  | 102 => Some 12 | 110 => Some 10 | 114 => Some 13 | 116 => Some 9
  | _ => None
  end.

Definition is_json_space (c : N) : bool := one_of " " c || (c =? 9) || (c =? 10) || (c =? 13).

(** The text of a literal after its opening quote; only white space may follow
    the closing one. *)
Fixpoint parse_body (s : text) : option text :=
  match s with
  | [] => None
  | c :: r =>
      if c =? quote then if forallb is_json_space r then Some [] else None
      else if c =? backslash then
        match r with
        | e :: r1 =>
            if e =? ch "u" then
              match r1 with
              | h1 :: h2 :: h3 :: h4 :: r2 =>
                  match hex_value h1, hex_value h2, hex_value h3, hex_value h4 with
                  | Some a, Some b, Some c, Some d =>
                      cons (((a * 16 + b) * 16 + c) * 16 + d) <$> parse_body r2
                  | _, _, _, _ => None
                  end
              | _ => None
              end
            else
              match simple_escape e with
              | Some x => cons x <$> parse_body r1
              | None => None
              end
        | [] => None
        end
      else if c <? 32 then None
      else cons c <$> parse_body r
  end.

(** [JSON.parse(s)], when it returns a string. *)
Fixpoint JSON_parse_string (s : text) : option text :=
  match s with
  | [] => None
  | c :: r => if c =? quote then parse_body r
              else if is_json_space c then JSON_parse_string r else None
  end.

(** ** Facts *)

Lemma within_true lo hi c : within lo hi c = true <-> lo <= c <= hi.
Proof. unfold within. rewrite andb_true_iff, !N.leb_le. done. Qed.

Lemma within_false lo hi c : within lo hi c = false <-> c < lo \/ hi < c.
Proof. unfold within. rewrite andb_false_iff, !N.leb_gt. lia. Qed.

Lemma hex_unit_value d : d < 16 -> hex_value (hex_unit d) = Some d.
Proof.
  intros Hd. unfold hex_unit, hex_value, is_digit.
  destruct (N.ltb_spec d 10).
  - replace (within 48 57 (48 + d)) with true by (symmetry; apply within_true; lia).
    f_equal. lia.
  - replace (within 48 57 (87 + d)) with false by (symmetry; apply within_false; lia).
    replace (within 97 102 (87 + d)) with true by (symmetry; apply within_true; lia).
    f_equal. lia.
Qed.

Lemma parse_unicode_escape c r : c < 65536 ->
  parse_body (unicode_escape c ++ r) = cons c <$> parse_body r.
Proof.
  intros Hc. unfold unicode_escape. cbn [app parse_body].
  change (backslash =? quote) with false. rewrite !N.eqb_refl.
  rewrite !hex_unit_value by
    (try apply N.mod_lt; try apply N.Div0.div_lt_upper_bound; lia).
  f_equal. f_equal.
  pose proof (N.div_mod' c 16). pose proof (N.div_mod' (c / 16) 16).
  pose proof (N.div_mod' (c / 16 / 16) 16).
  assert (c / 256 = c / 16 / 16) as -> by (rewrite N.Div0.div_div; f_equal).
  assert (c / 4096 = c / 16 / 16 / 16) as -> by (rewrite !N.Div0.div_div; f_equal). lia.
Qed.

Lemma plain_unit c r : c <> quote -> c <> backslash -> 32 <= c ->
  parse_body (c :: r) = cons c <$> parse_body r.
Proof.
  intros H1 H2 H3. cbn [parse_body].
  rewrite (proj2 (N.eqb_neq c quote)), (proj2 (N.eqb_neq c backslash)) by done.
  by rewrite (proj2 (N.ltb_ge c 32)).
Qed.

Lemma escape_unit_cases c :
  (exists e x, escape_unit c = [backslash; e] /\ e <> ch "u" /\ simple_escape e = Some x /\ x = c) \/
  (c < 32 /\ escape_unit c = unicode_escape c) \/
  (32 <= c /\ c <> quote /\ c <> backslash /\ escape_unit c = [c]).
Proof.
  destruct (N.ltb_spec c 93) as [Hlt|Hge].
  - assert (In c (map N.of_nat (seq 0 93))) as Hin.
    { apply in_map_iff. exists (N.to_nat c). rewrite in_seq. split; lia. }
    revert Hin. clear Hlt. cbv [seq map N.of_nat]. cbn [Pos.of_succ_nat Pos.succ].
    intros Hin.
    repeat destruct Hin as [<-|Hin];
      first [ by destruct Hin
            | left; eexists _, _; split; [reflexivity|]; split; [discriminate|];
              split; reflexivity
            | right; left; split; [lia|reflexivity]
            | right; right; split; [lia|]; split; [discriminate|]; split;
              [discriminate|reflexivity] ].
  - right. right. unfold quote, backslash. split; [lia|]. split; [lia|]. split; [lia|].
    unfold escape_unit. destruct c as [|p]; [lia|].
    repeat (destruct p as [p|p|]; try lia; try done);
      match goal with |- (if ?b then _ else _) = _ => destruct b eqn:E; [|done] end;
      apply N.ltb_lt in E; lia.
Qed.

Lemma parse_escape_unit c r : parse_body (escape_unit c ++ r) = cons c <$> parse_body r.
Proof.
  destruct (escape_unit_cases c) as [(e & x & -> & He & Hx & <-)|[[Hc ->]|(Hc & ? & ? & ->)]].
  - cbn [app parse_body]. change (backslash =? quote) with false. rewrite N.eqb_refl.
    rewrite (proj2 (N.eqb_neq _ _)) by done. by rewrite Hx.
  - apply parse_unicode_escape. lia.
  - by apply plain_unit.
Qed.

Lemma surrogate_range c : is_high_surrogate c = true \/ is_low_surrogate c = true ->
  55296 <= c <= 57343.
Proof. unfold is_high_surrogate, is_low_surrogate. rewrite !within_true. lia. Qed.

Lemma parse_surrogate c r : is_high_surrogate c = true \/ is_low_surrogate c = true ->
  parse_body (c :: r) = cons c <$> parse_body r.
Proof.
  intros H%surrogate_range. apply plain_unit; unfold quote, backslash; lia.
Qed.

Lemma fmap_cons_some (c : N) (o : option text) s : o = Some s -> cons c <$> o = Some (c :: s).
Proof. by intros ->. Qed.

(** A literal's body is read back, up to its closing quote. *)
Lemma parse_quote_body s : parse_body (quote_body s ++ [quote]) = Some s.
Proof.
  assert (forall s, parse_body (quote_body s ++ [quote]) = Some s /\
    forall c, parse_body (quote_body (c :: s) ++ [quote]) = Some (c :: s)) as H;
    [|by apply H].
  clear s. induction s as [|d s [IH IHd]].
  - split; [done|]. intros c. cbn [quote_body].
    destruct (is_high_surrogate c) eqn:Hh; [|destruct (is_low_surrogate c) eqn:Hl].
    + rewrite parse_unicode_escape by (pose proof (surrogate_range c); intuition lia). done.
    + rewrite app_nil_r, parse_unicode_escape
        by (pose proof (surrogate_range c); intuition lia). done.
    + by rewrite app_nil_r, parse_escape_unit.
  - split; [apply IHd|]. intros c. specialize (IHd d).
    change (quote_body (c :: d :: s)) with
      (if is_high_surrogate c then
         if is_low_surrogate d then c :: d :: quote_body s
         else unicode_escape c ++ quote_body (d :: s)
       else if is_low_surrogate c then unicode_escape c ++ quote_body (d :: s)
       else escape_unit c ++ quote_body (d :: s)).
    pose proof (surrogate_range c) as Hc.
    destruct (is_high_surrogate c) eqn:Hh.
    + destruct (is_low_surrogate d) eqn:Hl.
      * cbn [app]. rewrite !parse_surrogate by auto.
        by rewrite (fmap_cons_some _ _ _ IH).
      * rewrite <- app_assoc, parse_unicode_escape by intuition lia.
        by apply fmap_cons_some.
    + destruct (is_low_surrogate c) eqn:Hl; rewrite <- app_assoc.
      * rewrite parse_unicode_escape by intuition lia. by apply fmap_cons_some.
      * rewrite parse_escape_unit. by apply fmap_cons_some.
Qed.

(** [JSON.parse] inverts [JSON.stringify] on strings. *)
Lemma JSON_parse_quote s : JSON_parse_string (JSON_quote s) = Some s.
Proof. unfold JSON_quote. cbn [JSON_parse_string]. rewrite N.eqb_refl. apply parse_quote_body. Qed.

(** A literal's body: plain units and two-unit beginnings of escapes. *)
Inductive literal_body : text -> Prop :=
| body_nil : literal_body []
| body_plain c s : c <> quote -> c <> backslash -> literal_body s -> literal_body (c :: s)
| body_escape c s : literal_body s -> literal_body (backslash :: c :: s).

Lemma literal_body_app a b : literal_body a -> literal_body b -> literal_body (a ++ b).
Proof. induction 1; intros Hb; cbn [app]; auto using literal_body. Qed.

Lemma hex_unit_range d : d < 16 -> 48 <= hex_unit d <= 102.
Proof. intros. unfold hex_unit. destruct (N.ltb_spec d 10); lia. Qed.

Lemma hex_unit_plain d : d < 16 -> hex_unit d <> quote /\ hex_unit d <> backslash.
Proof.
  intros. unfold hex_unit, quote, backslash. destruct (N.ltb_spec d 10); split; lia.
Qed.

Lemma unicode_escape_body c : c < 65536 -> literal_body (unicode_escape c).
Proof.
  intros Hc. unfold unicode_escape. apply body_escape.
  repeat (apply body_plain;
    [apply hex_unit_plain; try apply N.mod_lt; try apply N.Div0.div_lt_upper_bound; lia
    |apply hex_unit_plain; try apply N.mod_lt; try apply N.Div0.div_lt_upper_bound; lia|]).
  constructor.
Qed.

Lemma escape_unit_body c : literal_body (escape_unit c).
Proof.
  destruct (escape_unit_cases c) as [(e & x & -> & _)|[[Hc ->]|(_ & ? & ? & ->)]].
  - apply body_escape. constructor.
  - apply unicode_escape_body. lia.
  - by apply body_plain; [..|constructor].
Qed.

(** What holds of the pieces holds of the body. *)
Lemma quote_body_ind (P : text -> Prop) :
  P [] -> (forall a b, P a -> P b -> P (a ++ b)) ->
  (forall c, c < 65536 -> P (unicode_escape c)) -> (forall c, P (escape_unit c)) ->
  (forall c, 55296 <= c <= 57343 -> P [c]) -> forall s, P (quote_body s).
Proof.
  intros H0 Happ Hu He Hs s.
  assert (P (quote_body s) /\ forall c, P (quote_body (c :: s))) as H; [|by apply H].
  induction s as [|d s [IH IHd]].
  - split; [done|]. intros c. cbn [quote_body]. pose proof (surrogate_range c).
    destruct (is_high_surrogate c); [|destruct (is_low_surrogate c)];
      rewrite ?app_nil_r; auto; apply Hu; intuition lia.
  - split; [apply IHd|]. intros c. specialize (IHd d).
    change (quote_body (c :: d :: s)) with
      (if is_high_surrogate c then
         if is_low_surrogate d then [c] ++ [d] ++ quote_body s
         else unicode_escape c ++ quote_body (d :: s)
       else if is_low_surrogate c then unicode_escape c ++ quote_body (d :: s)
       else escape_unit c ++ quote_body (d :: s)).
    pose proof (surrogate_range c) as Hc. pose proof (surrogate_range d) as Hd.
    destruct (is_high_surrogate c); [destruct (is_low_surrogate d)|destruct (is_low_surrogate c)];
      repeat apply Happ; auto; first [apply Hu|apply Hs]; intuition lia.
Qed.

Lemma quote_body_literal s : literal_body (quote_body s).
Proof.
  apply quote_body_ind.
  - constructor.
  - apply literal_body_app.
  - apply unicode_escape_body.
  - apply escape_unit_body.
  - intros c Hc. apply body_plain; [..|constructor]; unfold quote, backslash; lia.
Qed.

(** A literal contains no control character. *)
Definition printable (s : text) : Prop := Forall (fun c => 32 <= c) s.

Lemma printable_app a b : printable (a ++ b) <-> printable a /\ printable b.
Proof. apply Forall_app. Qed.

Lemma unicode_escape_printable c : c < 65536 -> printable (unicode_escape c).
Proof.
  intros Hc. unfold unicode_escape, printable.
  repeat (apply Forall_cons; split);
    try (apply N.le_trans with 48; [lia|];
         apply hex_unit_range; try apply N.mod_lt; try apply N.Div0.div_lt_upper_bound; lia);
    try done.
Qed.

Lemma quote_body_printable s : printable (quote_body s).
Proof.
  apply quote_body_ind.
  - constructor.
  - intros a b Ha Hb. by apply printable_app.
  - apply unicode_escape_printable.
  - intros c. destruct (escape_unit_cases c) as [(e & x & He & _ & Hx & _)|[[Hc ->]|(? & _ & _ & ->)]].
    + rewrite He. repeat (apply Forall_cons; split); [done| |done].
      destruct (N.le_gt_cases 32 e) as [|Hlt]; [done|].
      assert (In e (map N.of_nat (seq 0 32))) as Hin.
      { apply in_map_iff. exists (N.to_nat e). rewrite in_seq. split; lia. }
      revert Hin Hx. clear. cbv [seq map N.of_nat]. cbn [Pos.of_succ_nat Pos.succ].
      intros Hin. repeat destruct Hin as [<-|Hin]; try done.
    + apply unicode_escape_printable. lia.
    + repeat constructor. done.
  - intros c Hc. repeat constructor. lia.
Qed.

Lemma JSON_quote_printable s : printable (JSON_quote s).
Proof.
  unfold JSON_quote. apply Forall_cons. split; [done|]. apply printable_app.
  split; [apply quote_body_printable|by repeat constructor].
Qed.

(** ** Splitting and joining *)

Lemma split_on_nonempty c s : split_on c s <> [].
Proof. destruct s as [|x s]; simpl; [done|]. destruct (x =? c); [done|]. by destruct (split_on c s). Qed.

Lemma split_on_none c s : c ∉ s -> split_on c s = [s].
Proof.
  induction s as [|x s IH]; [done|]. rewrite not_elem_of_cons. intros [Hx Hs]. simpl.
  rewrite (proj2 (N.eqb_neq x c)) by congruence. by rewrite IH.
Qed.

Lemma split_on_app c p s : c ∉ p -> split_on c (p ++ c :: s) = p :: split_on c s.
Proof.
  induction p as [|x p IH]; simpl; [by rewrite N.eqb_refl|].
  rewrite not_elem_of_cons. intros [Hx Hp].
  rewrite (proj2 (N.eqb_neq x c)) by congruence. by rewrite IH.
Qed.

(** Splitting inverts joining parts that do not contain the separator. *)
Lemma split_join c parts : parts <> [] -> Forall (fun p => c ∉ p) parts ->
  split_on c (join_with c parts) = parts.
Proof.
  intros Hne H. induction H as [|p ps Hp Hps IH]; [done|].
  destruct ps as [|q ps]; [by apply split_on_none|].
  change (join_with c (p :: q :: ps)) with (p ++ c :: join_with c (q :: ps)).
  rewrite split_on_app by done. by rewrite IH.
Qed.

Lemma normalize_newlines_id s : 13 ∉ s -> normalize_newlines s = s.
Proof.
  induction s as [|c s IH]; [done|]. rewrite not_elem_of_cons. intros [Hc Hs].
  destruct s as [|d s]; [done|]. cbn [normalize_newlines].
  rewrite (proj2 (N.eqb_neq c 13)) by congruence. simpl. f_equal. by apply IH.
Qed.

Lemma printable_no_newline s : printable s -> (newline ∉ s) /\ (13 ∉ s).
Proof.
  unfold printable. rewrite Forall_forall. intros H.
  split; intros Hin; specialize (H _ Hin); cbv beta in H; unfold newline in *; lia.
Qed.

Lemma index_of_app c p s : c ∉ p -> index_of c (p ++ c :: s) = Some (length p).
Proof.
  induction p as [|x p IH]; simpl; [by rewrite N.eqb_refl|].
  rewrite not_elem_of_cons. intros [Hx Hp].
  rewrite (proj2 (N.eqb_neq x c)) by congruence. by rewrite IH.
Qed.

Lemma last_index_of_none c s : c ∉ s -> last_index_of c s = None.
Proof.
  induction s as [|x s IH]; simpl; [done|]. rewrite not_elem_of_cons. intros [Hx Hs].
  rewrite IH by done. rewrite (proj2 (N.eqb_neq x c)) by congruence. done.
Qed.

Lemma last_index_of_app c p s : c ∉ s -> last_index_of c (p ++ c :: s) = Some (length p).
Proof.
  intros Hs. induction p as [|x p IH]; simpl.
  - by rewrite last_index_of_none, N.eqb_refl.
  - by rewrite IH.
Qed.

Lemma ends_with_app c s : ends_with c (s ++ [c]) = true.
Proof. unfold ends_with. by rewrite last_snoc, N.eqb_refl. Qed.

Lemma inner_brackets c d s : inner 1 1 (c :: s ++ [d]) = s.
Proof.
  unfold inner. cbn [drop length]. rewrite length_app. cbn [length].
  replace (S (length s + 1) - 1 - 1)%nat with (length s) by lia.
  change (drop 0 (s ++ [d])) with (s ++ [d]). by rewrite take_app_length.
Qed.
