(* ===== verification/JsDecimal.v ===== *)
(** Decimal text of numbers: [String(x)], [x.toExponential()] and [Number(s)] on
    decimal literals, and [BigInt]'s text, with their round trips.

    Numbers are the doubles of [JsNumber] and a negative zero.  [Number] rounds
    the exact rational value of the literal once; [String] searches the shortest
    run of digits that rounds back, which the exact decimal expansion bounds. *)

From Stdlib Require Import ZArith Lia Ascii String.
From stdpp Require Import base strings list.
From S2P Require Import Prelude JsNumber JsString JsText.

#[local] Open Scope Z_scope.
Open Scope list_scope.

(** ** Numbers with a negative zero *)

Inductive number : Type :=
| plain (n : num)
| minus_zero.

#[export] Instance number_eq_dec : EqDecision number.
Proof. solve_decision. Defined.

(** The value of a number, in which both zeros are one. *)
Definition num_of (x : number) : num :=
  match x with plain n => n | minus_zero => Fin 0 end.

(** A value a program can hold; negative zero has its own constructor. *)
Definition number_ok (x : number) : Prop := representable (num_of x).

(** ** Digits *)

Definition digit_unit (d : Z) : N := (48 + Z.to_N d)%N.
Definition digit_value (c : N) : Z := Z.of_N c - 48.

Fixpoint digits (fuel : nat) (n : Z) : text :=
  match fuel with
  | O => []
  | S fuel =>
      if n <? 10 then [digit_unit n] else digits fuel (n / 10) ++ [digit_unit (n mod 10)]
  end.

(** The decimal text of a natural number; a digit needs more than one bit. *)
Definition decimal_text (n : Z) : text := digits (S (Z.to_nat (Z.log2 n))) n.

(** The number a run of digits denotes. *)
Definition value_of (s : text) : Z := fold_left (fun v c => v * 10 + digit_value c) s 0.

(** [bigint.toString()] *)
Definition bigint_text (z : Z) : text :=
  if z <? 0 then ch "-" :: decimal_text (- z) else decimal_text z.

(** [BigInt(s)] on [/^-?[0-9]+$/] *)
Definition BigInt_text (s : text) : Z :=
  match s with
  | c :: r => if (c =? ch "-")%N then - value_of r else value_of s
  | [] => 0
  end.

(** ** From a decimal value to a double *)

(** The nearest double, in units of 2^-1074, to the non-negative [a / d] units. *)
Definition round_ratio (a d : Z) : Z :=
  let b := excess_bits (a / d) in rne a (d * 2 ^ b) * 2 ^ b.

(** The nearest double to [s * 10^e]. *)
Definition decimal_units (s e : Z) : Z :=
  round_ratio (s * one_units * 10 ^ Z.max 0 e) (10 ^ Z.max 0 (- e)).

Definition signed_number (negative : bool) (units : Z) : number :=
  if units =? 0 then if negative then minus_zero else plain (Fin 0)
  else if overflow_units <=? units then plain (if negative then NInf else PInf)
  else plain (Fin (if negative then - units else units)).

(** ** Literals *)

Record literal := Literal {
  lit_negative : bool;
  lit_integer : text;
  lit_fraction : text;
  lit_exponent_negative : bool;
  lit_exponent : text
}.

Fixpoint span_digits (s : text) : text * text :=
  match s with
  | c :: r => if is_digit c then let '(d, rest) := span_digits r in (c :: d, rest) else ([], s)
  | [] => ([], [])
  end.

(** An optional sign: whether it is a minus, and the rest. *)
Definition take_minus (s : text) : bool * text :=
  match s with
  | c :: r => if (c =? ch "-")%N then (true, r) else (false, s)
  | [] => (false, s)
  end.

Definition take_sign (s : text) : bool * text :=
  match s with
  | c :: r => if (c =? ch "-")%N then (true, r)
              else if (c =? ch "+")%N then (false, r) else (false, s)
  | [] => (false, s)
  end.

(** An optional point with digits, and the rest. *)
Definition take_fraction (s : text) : option (text * text) :=
  match s with
  | c :: r =>
      if (c =? ch ".")%N then
        match span_digits r with
        | ([], _) => None
        | parts => Some parts
        end
      else Some ([], s)
  | [] => Some ([], [])
  end.

(** An optional exponent, which ends the text. *)
Definition take_exponent (s : text) : option (bool * text) :=
  match s with
  | [] => Some (false, [])
  | c :: r =>
      if one_of "eE" c then
        let '(negative, r) := take_sign r in
        match span_digits r with
        | ([], _) => None
        | (d, []) => Some (negative, d)
        | _ => None
        end
      else None
  end.

(** A sign, digits, and optionally a fraction and an exponent. *)
Definition read_literal (s : text) : option literal :=
  let '(negative, s) := take_minus s in
  match span_digits s with
  | ([], _) => None
  | (i, s) =>
      match take_fraction s with
      | None => None
      | Some (f, s) =>
          match take_exponent s with
          | None => None
          | Some (en, x) => Some (Literal negative i f en x)
          end
      end
  end.

(** Of a run of digits: it is [0] or does not begin with it. *)
Definition no_leading_zero (d : text) : bool :=
  match d with
  | c :: _ :: _ => negb (c =? 48)%N
  | _ => true
  end.

Definition literal_exponent (l : literal) : Z :=
  (if lit_exponent_negative l then - value_of (lit_exponent l) else value_of (lit_exponent l)) -
  Z.of_nat (length (lit_fraction l)).

Definition literal_number (l : literal) : number :=
  signed_number (lit_negative l)
    (decimal_units (value_of (lit_integer l ++ lit_fraction l)) (literal_exponent l)).

(** [Number(s)] of a decimal literal; the program converts no other text. *)
Definition Number_text (s : text) : number :=
  match read_literal s with
  | Some l => literal_number l
  | None => plain NaN
  end.

(** ** From a double to its shortest decimal text *)

(** [z / 2^p] in lowest terms, for a power of two at most [2^p]. *)
Fixpoint strip_twos (p : nat) (z : Z) : nat * Z :=
  match p with
  | O => (O, z)
  | S p' => if Z.even z then strip_twos p' (z / 2) else (p, z)
  end.

Definition drop_zero (s e : Z) : Z * Z :=
  if s mod 10 =? 0 then (s / 10, e + 1) else (s, e).

(** The number of [z] units is [n * 10^-p]; [cut] digits of [n] are dropped.  Of
    two runs of the least length that round back the nearest, then the even one. *)
Fixpoint shortest (fuel : nat) (z n p cut : Z) : Z * Z :=
  match fuel with
  | O => (n, - p)
  | S fuel =>
      let s := n / 10 ^ cut in
      let r := 2 * (n mod 10 ^ cut) in
      let e := cut - p in
      let below := decimal_units s e =? z in
      let above := decimal_units (s + 1) e =? z in
      let nearer := (r <? 10 ^ cut) || (r =? 10 ^ cut) && Z.even s in
      if below && (nearer || negb above) then drop_zero s e
      else if above then drop_zero (s + 1) e
      else shortest fuel z n p (cut - 1)
  end.

(** The digits [s] and exponent [e] of a positive number of [z] units. *)
Definition shortest_digits (z : Z) : Z * Z :=
  let '(p, z') := strip_twos (Z.to_nat unit_bits) z in
  let n := z' * 5 ^ Z.of_nat p in
  let count := length (decimal_text n) in
  shortest count z n (Z.of_nat p) (Z.of_nat count - 1).

(** [d.ddde±x] *)
Definition exponent_text (d : text) (x : Z) : text :=
  take 1 d ++ match drop 1 d with [] => [] | r => ch "." :: r end ++
  ch "e" :: (if x <? 0 then ch "-" else ch "+") :: decimal_text (Z.abs x).

Definition positive_text (z : Z) : text :=
  let '(s, e) := shortest_digits z in
  let d := decimal_text s in
  let k := Z.of_nat (length d) in
  let n := e + k in
  if (k <=? n) && (n <=? 21) then d ++ repeat 48%N (Z.to_nat (n - k))
  else if (0 <? n) && (n <=? 21) then take (Z.to_nat n) d ++ ch "." :: drop (Z.to_nat n) d
  else if (-6 <? n) && (n <=? 0) then ch "0" :: ch "." :: repeat 48%N (Z.to_nat (- n)) ++ d
  else exponent_text d (n - 1).

Definition positive_exponential (z : Z) : text :=
  let '(s, e) := shortest_digits z in
  let d := decimal_text s in
  exponent_text d (e + Z.of_nat (length d) - 1).

Definition number_text (positive : Z -> text) (zero : string) (x : number) : text :=
  match num_of x with
  | NaN => txt "NaN"
  | PInf => txt "Infinity"
  | NInf => txt "-Infinity"
  | Fin z => if z =? 0 then txt zero
             else if z <? 0 then ch "-" :: positive (- z) else positive z
  end.

(** [String(x)] *)
Definition String_number : number -> text := number_text positive_text "0".

(** [x.toExponential()] *)
Definition toExponential : number -> text := number_text positive_exponential "0e+0".


(** ** Facts about digits *)

Lemma digit_value_unit d : 0 <= d -> digit_value (digit_unit d) = d.
Proof. intros. unfold digit_value, digit_unit. lia. Qed.

Lemma digit_unit_digit d : 0 <= d < 10 -> is_digit (digit_unit d) = true.
Proof. intros. unfold digit_unit. apply within_true. lia. Qed.

Lemma value_of_fold s v :
  fold_left (fun v c => v * 10 + digit_value c) s v = v * 10 ^ Z.of_nat (length s) + value_of s.
Proof.
  unfold value_of. revert v. induction s as [|c s IH]; intros v; cbn [fold_left length].
  - lia.
  - rewrite IH, (IH (0 * 10 + digit_value c)), Nat2Z.inj_succ, Z.pow_succ_r by lia. lia.
Qed.

Lemma value_of_app a b : value_of (a ++ b) = value_of a * 10 ^ Z.of_nat (length b) + value_of b.
Proof. unfold value_of at 1. rewrite fold_left_app. apply value_of_fold. Qed.

Lemma value_of_zeros k : value_of (repeat 48%N k) = 0.
Proof. induction k as [|k IH]; [done|]. cbn [repeat]. apply IH. Qed.

Lemma div_10_log2 n fuel : 10 <= n -> n < 2 ^ Z.of_nat (S fuel) -> n / 10 < 2 ^ Z.of_nat fuel.
Proof.
  rewrite Nat2Z.inj_succ, Z.pow_succ_r by lia. intros. apply Z.div_lt_upper_bound; lia.
Qed.

(** Induction on the digits of a number, with enough fuel. *)
Lemma digits_ind (P : Z -> text -> Prop) :
  (forall n, 0 <= n < 10 -> P n [digit_unit n]) ->
  (forall n s, 10 <= n -> P (n / 10) s -> P n (s ++ [digit_unit (n mod 10)])) ->
  forall n, 0 <= n -> P n (decimal_text n).
Proof.
  intros Hbase Hstep n Hn. unfold decimal_text.
  assert (n < 2 ^ Z.of_nat (S (Z.to_nat (Z.log2 n)))) as Hfuel.
  { rewrite Nat2Z.inj_succ, Z2Nat.id by apply Z.log2_nonneg.
    destruct (Z.eq_dec n 0) as [->|]; [done|]. apply Z.log2_spec. lia. }
  revert Hfuel. generalize (Z.to_nat (Z.log2 n)) as fuel. intros fuel. revert n Hn.
  induction fuel as [|fuel IH]; intros n Hn Hfuel.
  - change (2 ^ Z.of_nat 1) with 2 in Hfuel. cbn [digits].
    destruct (Z.ltb_spec n 10); [apply Hbase|]; lia.
  - change (digits (S (S fuel)) n) with
      (if n <? 10 then [digit_unit n] else digits (S fuel) (n / 10) ++ [digit_unit (n mod 10)]).
    destruct (Z.ltb_spec n 10); [apply Hbase; lia|].
    apply Hstep; [done|]. apply IH; [apply Z.div_pos; lia|by apply div_10_log2].
Qed.

Lemma value_of_decimal_text n : 0 <= n -> value_of (decimal_text n) = n.
Proof.
  apply (digits_ind (fun n s => value_of s = n)).
  - intros d Hd. unfold value_of. cbn [fold_left]. rewrite digit_value_unit; lia.
  - intros m s Hm IH. rewrite value_of_app, IH. unfold value_of. cbn [fold_left length].
    rewrite digit_value_unit by (apply Z.mod_pos_bound; lia).
    change (10 ^ Z.of_nat 1) with 10. pose proof (Z.div_mod m 10). lia.
Qed.

Definition all_digits (s : text) : Prop := Forall (fun c => is_digit c = true) s.

Lemma decimal_text_digits n : 0 <= n -> all_digits (decimal_text n).
Proof.
  apply (digits_ind (fun _ s => all_digits s)).
  - intros d Hd. apply Forall_singleton. by apply digit_unit_digit.
  - intros m s Hm IH. apply Forall_app_2; [done|]. apply Forall_singleton, digit_unit_digit.
    apply Z.mod_pos_bound. lia.
Qed.

(** A number's text begins with a digit, other than 0 unless it is zero. *)
Lemma decimal_text_head n : 0 <= n ->
  exists c r, decimal_text n = c :: r /\ (n = 0 /\ c = 48%N /\ r = [] \/ 0 < n /\ c <> 48%N).
Proof.
  apply (digits_ind (fun n s => exists c r, s = c :: r /\
    (n = 0 /\ c = 48%N /\ r = [] \/ 0 < n /\ c <> 48%N))).
  - intros d Hd. exists (digit_unit d), []. split; [done|]. unfold digit_unit.
    destruct (Z.eq_dec d 0) as [->|]; [by left|right; lia].
  - intros m s Hm (c & r & -> & Hc). eexists _, _. split; [reflexivity|]. right.
    pose proof (Z.div_le_lower_bound m 10 1). destruct Hc as [[H0 _]|[_ Hc]]; [lia|].
    split; [lia|done].
Qed.

Lemma decimal_text_pos n : 0 < n ->
  exists c r, decimal_text n = c :: r /\ c <> 48%N /\ is_digit c = true /\ all_digits r.
Proof.
  intros Hn. destruct (decimal_text_head n) as (c & r & He & [[-> _]|[_ Hc]]); [lia|done|].
  exists c, r. split; [done|]. split; [done|]. apply (Forall_cons (fun c => is_digit c = true)).
  rewrite <- He. apply decimal_text_digits. lia.
Qed.

Lemma no_leading_zero_decimal n : 0 <= n -> no_leading_zero (decimal_text n) = true.
Proof.
  intros Hn. destruct (decimal_text_head n Hn) as (c & r & -> & [(_ & -> & ->)|[_ Hc]]); [done|].
  destruct r; [done|]. simpl. by rewrite (proj2 (N.eqb_neq c 48)).
Qed.

Lemma decimal_text_not_nil n : 0 <= n -> decimal_text n <> [].
Proof. intros Hn. by destruct (decimal_text_head n Hn) as (c & r & -> & _). Qed.

(** [BigInt] inverts [toString]. *)
Lemma BigInt_bigint_text z : BigInt_text (bigint_text z) = z.
Proof.
  unfold bigint_text. destruct (Z.ltb_spec z 0) as [Hz|Hz].
  - cbn [BigInt_text]. rewrite N.eqb_refl, value_of_decimal_text; lia.
  - destruct (decimal_text_head z Hz) as (c & r & He & _).
    pose proof (decimal_text_digits z Hz) as Hd. rewrite He in Hd.
    apply Forall_cons in Hd as [Hc _]. apply within_true in Hc.
    unfold BigInt_text. rewrite He.
    rewrite (proj2 (N.eqb_neq c (ch "-"))) by (change (ch "-") with 45%N; lia).
    rewrite <- He. by apply value_of_decimal_text.
Qed.

(** ** Rounding *)

Lemma rne_scale a d c : 0 < d -> 0 < c -> rne (a * c) (d * c) = rne a d.
Proof.
  intros Hd Hc. unfold rne. rewrite Z.div_mul_cancel_r, Z.mul_mod_distr_r by lia.
  replace (2 * (a mod d * c) <? d * c) with (2 * (a mod d) <? d);
    [|apply Bool.eq_iff_eq_true; rewrite !Z.ltb_lt; nia].
  replace (d * c <? 2 * (a mod d * c)) with (d <? 2 * (a mod d));
    [done|apply Bool.eq_iff_eq_true; rewrite !Z.ltb_lt; nia].
Qed.

Lemma round_ratio_scale a d c : 0 < d -> 0 < c -> round_ratio (a * c) (d * c) = round_ratio a d.
Proof.
  intros Hd Hc. unfold round_ratio. rewrite Z.div_mul_cancel_r by lia.
  set (b := 2 ^ excess_bits (a / d)). assert (0 < b) by apply excess_pow_pos.
  f_equal. replace (d * c * b) with (d * b * c) by lia. apply rne_scale; nia.
Qed.

(** A number of units that is a double is not rounded. *)
Lemma round_ratio_exact z d : 0 <= z -> 0 < d -> rnd z = z -> round_ratio (z * d) d = z.
Proof.
  intros Hz Hd Hr. replace d with (1 * d) at 2 by lia. rewrite round_ratio_scale by lia.
  unfold round_ratio. rewrite Z.div_1_r, Z.mul_1_l. unfold rnd in Hr.
  destruct (Z.ltb_spec z 0); [lia|]. exact Hr.
Qed.

Lemma decimal_units_shift s e : decimal_units (s * 10) e = decimal_units s (e + 1).
Proof.
  unfold decimal_units. destruct (Z.le_gt_cases 0 e).
  - replace (Z.max 0 (e + 1)) with (e + 1) by lia. replace (Z.max 0 e) with e by lia.
    replace (Z.max 0 (- (e + 1))) with 0 by lia. replace (Z.max 0 (- e)) with 0 by lia.
    rewrite Z.pow_add_r by lia. f_equal. lia.
  - replace (Z.max 0 e) with 0 by lia. replace (Z.max 0 (e + 1)) with 0 by lia.
    replace (Z.max 0 (- e)) with (Z.max 0 (- (e + 1)) + 1) by lia.
    rewrite Z.pow_add_r by lia. rewrite <- (round_ratio_scale (s * one_units * 10 ^ 0) _ 10) by lia.
    f_equal; lia.
Qed.

Lemma decimal_units_zeros s k e :
  decimal_units (s * 10 ^ Z.of_nat k) e = decimal_units s (e + Z.of_nat k).
Proof.
  revert e. induction k as [|k IH]; intros e.
  - rewrite Z.mul_1_r. f_equal. lia.
  - rewrite Nat2Z.inj_succ, Z.pow_succ_r by lia.
    replace (s * (10 * 10 ^ Z.of_nat k)) with (s * 10 ^ Z.of_nat k * 10) by lia.
    rewrite decimal_units_shift, IH. f_equal. lia.
Qed.

Lemma decimal_units_0 e : decimal_units 0 e = 0.
Proof.
  unfold decimal_units. rewrite !Z.mul_0_l.
  rewrite <- (Z.mul_0_l (10 ^ Z.max 0 (- e))) at 1. by apply round_ratio_exact; [|lia|].
Qed.

Lemma strip_twos_spec p z :
  let '(q, z') := strip_twos p z in z = z' * 2 ^ (Z.of_nat p - Z.of_nat q) /\ (q <= p)%nat.
Proof.
  revert z. induction p as [|p IH]; intros z; cbn [strip_twos]; [rewrite Z.mul_1_r; lia|].
  destruct (Z.even z) eqn:Hz; [|rewrite Z.sub_diag, Z.mul_1_r; lia].
  specialize (IH (z / 2)). destruct (strip_twos p (z / 2)) as [q z'] eqn:E.
  destruct IH as [Hz' Hq]. split; [|lia]. apply Z.even_spec in Hz as [k ->].
  rewrite Z.mul_comm, Z.div_mul in Hz' by lia.
  replace (Z.of_nat (S p) - Z.of_nat q) with (Z.of_nat p - Z.of_nat q + 1) by lia.
  rewrite Z.pow_add_r by lia. rewrite Hz'. lia.
Qed.

Lemma drop_zero_units s e : 0 <= s ->
  let '(s', e') := drop_zero s e in 0 <= s' /\ decimal_units s' e' = decimal_units s e.
Proof.
  intros Hs. unfold drop_zero. destruct (Z.eqb_spec (s mod 10) 0) as [H|H]; [|done].
  split; [apply Z.div_pos; lia|]. rewrite <- decimal_units_shift. f_equal.
  pose proof (Z.div_mod s 10). lia.
Qed.

(** Whatever the search returns rounds back to the number. *)
Lemma shortest_units fuel z n p cut : 0 <= n -> decimal_units n (- p) = z ->
  let '(s, e) := shortest fuel z n p cut in 0 <= s /\ decimal_units s e = z.
Proof.
  intros Hn Hz. revert cut. induction fuel as [|fuel IH]; intros cut; cbn [shortest]; [done|].
  assert (0 <= n / 10 ^ cut) as Hs.
  { destruct (Z.le_gt_cases 0 cut); [apply Z.div_pos; lia|].
    by rewrite Z.pow_neg_r, Z.div_0_r by lia. }
  destruct (_ && _) eqn:Hb.
  - apply andb_true_iff in Hb as [Hb%Z.eqb_eq _]. rewrite <- Hb. by apply drop_zero_units.
  - destruct (Z.eqb_spec (decimal_units (n / 10 ^ cut + 1) (cut - p)) z) as [Ha|]; [|apply IH].
    rewrite <- Ha. apply drop_zero_units. lia.
Qed.

(** The shortest digits of a double denote it. *)
Lemma shortest_digits_units z s e : 0 < z -> rnd z = z -> shortest_digits z = (s, e) ->
  0 < s /\ decimal_units s e = z.
Proof.
  intros Hz Hr. unfold shortest_digits.
  pose proof (strip_twos_spec (Z.to_nat unit_bits) z) as Hstrip.
  destruct (strip_twos _ z) as [p z']. destruct Hstrip as [Hz' Hp].
  assert (0 <= unit_bits) as Hbits by done.
  rewrite Z2Nat.id in Hz' by done. set (count := length _). intros Hs.
  assert (0 < z') by (pose proof (Z.pow_pos_nonneg 2 (unit_bits - Z.of_nat p)); nia).
  pose proof (shortest_units count z (z' * 5 ^ Z.of_nat p) (Z.of_nat p) (Z.of_nat count - 1)) as H1.
  rewrite Hs in H1. destruct H1 as [H0 H1].
  - pose proof (Z.pow_pos_nonneg 5 (Z.of_nat p)). nia.
  - unfold decimal_units. replace (Z.max 0 (- Z.of_nat p)) with 0 by lia.
    replace (Z.max 0 (- - Z.of_nat p)) with (Z.of_nat p) by lia.
    rewrite Z.mul_1_r. unfold one_units.
    replace (2 ^ unit_bits) with (2 ^ (unit_bits - Z.of_nat p) * 2 ^ Z.of_nat p)
      by (rewrite <- Z.pow_add_r by lia; f_equal; lia).
    replace (z' * 5 ^ Z.of_nat p * (2 ^ (unit_bits - Z.of_nat p) * 2 ^ Z.of_nat p))
      with (z' * 2 ^ (unit_bits - Z.of_nat p) * (5 ^ Z.of_nat p * 2 ^ Z.of_nat p)) by lia.
    rewrite <- Hz', <- Z.pow_mul_l. change (5 * 2) with 10.
    apply round_ratio_exact; [lia|apply Z.pow_pos_nonneg; lia|done].
  - split; [|done]. destruct (Z.eq_dec s 0) as [->|]; [|lia].
    rewrite decimal_units_0 in H1. lia.
Qed.

(** An integer in range rounds to an integer. *)
Lemma decimal_units_integer v : 0 <= v -> decimal_units v 0 mod one_units = 0.
Proof.
  intros Hv. unfold decimal_units, round_ratio. cbn [Z.max Z.opp Z.compare].
  rewrite !Z.pow_0_r, !Z.mul_1_r, Z.div_1_r, Z.mul_1_l.
  set (b := excess_bits (v * one_units)). pose proof one_units_pos.
  assert (0 <= b) by apply excess_bits_nonneg.
  destruct (Z.le_gt_cases b unit_bits) as [Hb|Hb].
  - replace (v * one_units) with (v * 2 ^ (unit_bits - b) * 2 ^ b).
    + rewrite rne_exact by (apply Z.pow_pos_nonneg; lia).
      rewrite <- Z.mul_assoc, <- Z.pow_add_r by lia. replace (unit_bits - b + b) with unit_bits by lia.
      apply Z.mod_mul. fold one_units. lia.
    + unfold one_units. rewrite <- Z.mul_assoc, <- Z.pow_add_r by lia. do 2 f_equal. lia.
  - replace b with (b - unit_bits + unit_bits) at 2 by lia.
    rewrite Z.pow_add_r by (try done; lia). rewrite Z.mul_assoc. apply Z.mod_mul.
    fold one_units. lia.
Qed.

(** ** Reading literals *)

Definition exponent_part (l : literal) : text :=
  match lit_exponent l with
  | [] => []
  | d => ch "e" :: (if lit_exponent_negative l then ch "-" else ch "+") :: d
  end.

Definition fraction_part (l : literal) : text :=
  match lit_fraction l with [] => [] | f => ch "." :: f end.

Definition unsigned_text (l : literal) : text :=
  lit_integer l ++ fraction_part l ++ exponent_part l.

Definition literal_text (l : literal) : text :=
  (if lit_negative l then [ch "-"] else []) ++ unsigned_text l.

Record literal_ok (l : literal) : Prop := {
  ok_integer : all_digits (lit_integer l);
  ok_integer_some : lit_integer l <> [];
  ok_fraction : all_digits (lit_fraction l);
  ok_exponent : all_digits (lit_exponent l);
  ok_exponent_sign : lit_exponent l = [] -> lit_exponent_negative l = false }.

Lemma span_digits_app d r : all_digits d ->
  match r with [] => True | c :: _ => is_digit c = false end -> span_digits (d ++ r) = (d, r).
Proof.
  intros Hd Hr. induction Hd as [|c d Hc _ IH]; cbn [app span_digits].
  - destruct r as [|c r]; [done|]. cbn [span_digits]. by rewrite Hr.
  - by rewrite Hc, IH.
Qed.

Lemma digit_not c d : is_digit c = true -> is_digit d = false -> (c =? d)%N = false.
Proof. intros Hc Hd. apply N.eqb_neq. congruence. Qed.

Lemma take_exponent_part l : literal_ok l ->
  take_exponent (exponent_part l) = Some (lit_exponent_negative l, lit_exponent l).
Proof.
  intros H. pose proof (ok_exponent l H) as Hd. pose proof (ok_exponent_sign l H) as Hs.
  unfold exponent_part. destruct (lit_exponent l) as [|c d]; [by rewrite Hs|].
  pose proof (span_digits_app (c :: d) [] Hd I) as Hspan. rewrite app_nil_r in Hspan.
  unfold take_exponent. change (one_of "eE" (ch "e")) with true. cbn iota.
  destruct (lit_exponent_negative l); cbn [take_sign].
  - rewrite N.eqb_refl. by rewrite Hspan.
  - change ((ch "+" =? ch "-")%N) with false. rewrite N.eqb_refl. by rewrite Hspan.
Qed.

Lemma exponent_part_head l :
  match exponent_part l with [] => True | c :: _ => c = ch "e" end.
Proof. unfold exponent_part. by destruct (lit_exponent l). Qed.

Lemma take_fraction_part l : literal_ok l ->
  take_fraction (fraction_part l ++ exponent_part l) = Some (lit_fraction l, exponent_part l).
Proof.
  intros H. pose proof (ok_fraction l H) as Hd. pose proof (exponent_part_head l) as He.
  unfold fraction_part. destruct (lit_fraction l) as [|c d]; cbn [app].
  - destruct (exponent_part l) as [|x r]; [done|]. by subst x.
  - cbn [take_fraction]. rewrite N.eqb_refl.
    change (c :: d ++ exponent_part l) with ((c :: d) ++ exponent_part l).
    rewrite span_digits_app; [done|done|]. by destruct (exponent_part l); subst.
Qed.

Lemma read_literal_text l : literal_ok l -> read_literal (literal_text l) = Some l.
Proof.
  intros H. pose proof (ok_integer l H) as Hd. pose proof (ok_integer_some l H) as Hne.
  unfold read_literal.
  assert (take_minus (literal_text l) = (lit_negative l, unsigned_text l)) as ->.
  { unfold literal_text, unsigned_text. destruct (lit_negative l); cbn [app take_minus].
    - by rewrite N.eqb_refl.
    - destruct (lit_integer l) as [|c i]; [done|]. cbn [app take_minus].
      apply Forall_cons in Hd as [Hc _]. by rewrite (digit_not c (ch "-")). }
  unfold unsigned_text. rewrite span_digits_app; [|done|].
  - destruct (lit_integer l) as [|c i] eqn:E; [done|].
    rewrite take_fraction_part, take_exponent_part by done. rewrite <- E. by destruct l.
  - unfold fraction_part. pose proof (exponent_part_head l).
    destruct (lit_fraction l); cbn [app]; [|done]. by destruct (exponent_part l); subst.
Qed.

(** [s] is a literal in canonical form whose value is [z] units. *)
Definition denotes (s : text) (negative : bool) (z : Z) : Prop :=
  exists l, s = literal_text l /\ literal_ok l /\ lit_negative l = negative /\
    no_leading_zero (lit_integer l) = true /\ no_leading_zero (lit_exponent l) = true /\
    decimal_units (value_of (lit_integer l ++ lit_fraction l)) (literal_exponent l) = z.

Definition negated (l : literal) : literal :=
  Literal true (lit_integer l) (lit_fraction l) (lit_exponent_negative l) (lit_exponent l).

Lemma denotes_negative s z : denotes s false z -> denotes (ch "-" :: s) true z.
Proof.
  intros (l & -> & Hok & Hn & Hi & He & Hz). exists (negated l).
  split; [unfold literal_text; by rewrite Hn|]. split; [by destruct Hok; split|]. done.
Qed.

Lemma denotes_number s negative z : denotes s negative z -> Number_text s = signed_number negative z.
Proof.
  intros (l & -> & Hok & Hn & _ & _ & Hz). unfold Number_text. rewrite read_literal_text by done.
  unfold literal_number. by rewrite Hn, Hz.
Qed.

Lemma all_digits_split k s : all_digits s -> all_digits (take k s) /\ all_digits (drop k s).
Proof. intros H. split; [by apply Forall_take|by apply Forall_drop]. Qed.

Lemma zeros_digits k : all_digits (repeat 48%N k).
Proof. induction k; constructor; done. Qed.

Lemma value_of_cons_zero s : value_of (ch "0" :: s) = value_of s.
Proof. done. Qed.

(** ** The texts of a positive number *)

Section Positive.
Context (s e : Z) (Hs : 0 < s).
Let d := decimal_text s.

Lemma exponent_text_denotes :
  denotes (exponent_text d (e + Z.of_nat (length d) - 1)) false (decimal_units s e).
Proof.
  set (x := e + Z.of_nat (length d) - 1).
  exists (Literal false (take 1 d) (drop 1 d) (x <? 0) (decimal_text (Z.abs x))).
  destruct (decimal_text_pos s Hs) as (c & r & Hd & Hc0 & Hc & Hr). fold d in Hd.
  pose proof (decimal_text_not_nil (Z.abs x) (Z.abs_nonneg x)) as Hx.
  pose proof (decimal_text_digits (Z.abs x) (Z.abs_nonneg x)) as Hxd.
  split.
  { unfold literal_text, unsigned_text, exponent_text, fraction_part, exponent_part.
    cbn [lit_negative lit_integer lit_fraction lit_exponent lit_exponent_negative app].
    by destruct (decimal_text (Z.abs x)). }
  split.
  { rewrite Hd. split; cbn; [by apply Forall_singleton|done|done|done|done]. }
  split; [done|]. split; [by rewrite Hd|].
  split; [by apply no_leading_zero_decimal, Z.abs_nonneg|].
  cbn [lit_integer lit_fraction]. rewrite take_drop. unfold d at 1.
  rewrite value_of_decimal_text by lia. f_equal.
  unfold literal_exponent. cbn [lit_exponent_negative lit_exponent lit_fraction].
  rewrite value_of_decimal_text by apply Z.abs_nonneg.
  rewrite length_drop, Hd. unfold x. rewrite Hd. cbn [length].
  destruct (Z.ltb_spec (e + Z.of_nat (S (length r)) - 1) 0); lia.
Qed.
End Positive.

Lemma positive_exponential_denotes z : 0 < z -> rnd z = z ->
  denotes (positive_exponential z) false z.
Proof.
  intros Hz Hr. unfold positive_exponential. destruct (shortest_digits z) as [s e] eqn:E.
  destruct (shortest_digits_units z s e Hz Hr E) as [Hs <-]. by apply exponent_text_denotes.
Qed.

(** The text of digits with a point after the first [n], or before them. *)
Lemma pointed_denotes i f s e : all_digits (i ++ f) -> i <> [] -> f <> [] ->
  no_leading_zero i = true -> value_of (i ++ f) = s -> - Z.of_nat (length f) = e ->
  denotes (i ++ ch "." :: f) false (decimal_units s e).
Proof.
  intros Hd Hi Hf Hz <- <-. exists (Literal false i f false []).
  apply Forall_app in Hd as [Hdi Hdf].
  split. { unfold literal_text, unsigned_text, fraction_part, exponent_part. cbn.
           destruct f; [congruence|]. by rewrite app_nil_r. }
  split; [by split; cbn; [..|constructor|]|]. done.
Qed.

Lemma integral_denotes i s e : all_digits i -> i <> [] -> no_leading_zero i = true ->
  decimal_units (value_of i) 0 = decimal_units s e -> denotes i false (decimal_units s e).
Proof.
  intros Hd Hi Hz Hv. exists (Literal false i [] false []).
  split. { unfold literal_text, unsigned_text, fraction_part, exponent_part. cbn.
           by rewrite app_nil_r. }
  split; [by split; cbn; [..|constructor|constructor|]|]. cbn. rewrite app_nil_r. done.
Qed.

Lemma no_leading_zero_cons c r : c <> 48%N -> no_leading_zero (c :: r) = true.
Proof. intros Hc. destruct r; [done|]. simpl. by rewrite (proj2 (N.eqb_neq c 48)). Qed.

Lemma positive_text_denotes z : 0 < z -> rnd z = z -> denotes (positive_text z) false z.
Proof.
  intros Hz Hr. unfold positive_text. destruct (shortest_digits z) as [s e] eqn:E.
  destruct (shortest_digits_units z s e Hz Hr E) as [Hs <-].
  destruct (decimal_text_pos s Hs) as (c & r & Hd & Hc0 & Hc & Hrd).
  pose proof (value_of_decimal_text s (Z.lt_le_incl _ _ Hs)) as Hv.
  pose proof (decimal_text_digits s (Z.lt_le_incl _ _ Hs)) as Hdig.
  set (d := decimal_text s) in *. remember (Z.of_nat (length d)) as k eqn:Hk. cbv zeta.
  destruct ((k <=? e + k) && (e + k <=? 21)) eqn:E1;
    [|destruct ((0 <? e + k) && (e + k <=? 21)) eqn:E2;
      [|destruct ((-6 <? e + k) && (e + k <=? 0)) eqn:E3]].
  - apply andb_true_iff in E1 as [E1%Z.leb_le _]. apply integral_denotes.
    + apply Forall_app_2; [done|apply zeros_digits].
    + by rewrite Hd.
    + rewrite Hd. by apply no_leading_zero_cons.
    + rewrite value_of_app, value_of_zeros, Hv, Z.add_0_r, decimal_units_zeros.
      rewrite repeat_length, Z2Nat.id by lia. f_equal. lia.
  - apply andb_true_iff in E2 as [E2%Z.ltb_lt E2'%Z.leb_le].
    apply andb_false_iff in E1 as [E1%Z.leb_gt|E1%Z.leb_gt]; [|lia].
    apply pointed_denotes.
    + by rewrite take_drop.
    + rewrite Hd. replace (Z.to_nat (e + k)) with (S (Z.to_nat (e + k - 1))) by lia. done.
    + intros H. apply (f_equal length) in H. rewrite length_drop in H.
      change (length []) with 0%nat in H. lia.
    + rewrite Hd. replace (Z.to_nat (e + k)) with (S (Z.to_nat (e + k - 1))) by lia.
      cbn [take]. by apply no_leading_zero_cons.
    + by rewrite take_drop.
    + rewrite length_drop. lia.
  - apply andb_true_iff in E3 as [_ E3%Z.leb_le].
    change (ch "0" :: ch "." :: repeat 48%N (Z.to_nat (- (e + k))) ++ d) with
      ([ch "0"] ++ ch "." :: (repeat 48%N (Z.to_nat (- (e + k))) ++ d)).
    apply pointed_denotes; try done.
    + constructor; [done|]. apply Forall_app_2; [apply zeros_digits|done].
    + rewrite Hd. by destruct (repeat _ _).
    + cbn [app]. rewrite value_of_cons_zero, value_of_app, value_of_zeros, Hv. lia.
    + rewrite length_app, repeat_length. lia.
  - rewrite Hk. by apply exponent_text_denotes.
Qed.

(** ** Round trips of numbers *)

Lemma representable_signed z : representable (Fin z) -> z <> 0 ->
  signed_number (z <? 0) (Z.abs z) = plain (Fin z) /\ rnd (Z.abs z) = Z.abs z.
Proof.
  intros [Hr Hb] Hz. unfold signed_number.
  destruct (Z.eqb_spec (Z.abs z) 0); [lia|]. destruct (Z.leb_spec overflow_units (Z.abs z)); [lia|].
  destruct (Z.ltb_spec z 0).
  - rewrite Z.abs_neq by lia. rewrite rnd_opp, Hr. split; [|done]. do 2 f_equal. lia.
  - rewrite Z.abs_eq by lia. done.
Qed.

(** The text of a finite number other than zero denotes it, in both formats. *)
Lemma number_text_denotes positive zero z :
  (forall w, 0 < w -> rnd w = w -> denotes (positive w) false w) ->
  representable (Fin z) -> z <> 0 ->
  denotes (number_text positive zero (plain (Fin z))) (z <? 0) (Z.abs z).
Proof.
  intros Hp Hr Hz. destruct (representable_signed z Hr Hz) as [_ Ha].
  unfold number_text. cbn [num_of]. destruct (Z.eqb_spec z 0); [done|].
  destruct (Z.ltb_spec z 0).
  - rewrite Z.abs_neq in * by lia. apply denotes_negative, Hp; [lia|done].
  - rewrite Z.abs_eq in * by lia. apply Hp; [lia|done].
Qed.

Lemma number_text_zero positive zero : number_text positive zero (plain (Fin 0)) = txt zero.
Proof. done. Qed.

(** [Number] inverts [String] on every finite number but negative zero. *)
Lemma Number_String z : representable (Fin z) ->
  Number_text (String_number (plain (Fin z))) = plain (Fin z).
Proof.
  intros Hr. destruct (Z.eq_dec z 0) as [->|Hz]; [by vm_compute|]. unfold String_number.
  rewrite (denotes_number _ _ _ (number_text_denotes _ _ z positive_text_denotes Hr Hz)).
  by apply representable_signed.
Qed.

(** ... and [toExponential]. *)
Lemma Number_toExponential z : representable (Fin z) -> z <> 0 ->
  Number_text (toExponential (plain (Fin z))) = plain (Fin z).
Proof.
  intros Hr Hz. unfold toExponential.
  rewrite (denotes_number _ _ _ (number_text_denotes _ _ z positive_exponential_denotes Hr Hz)).
  by apply representable_signed.
Qed.

Lemma value_of_nonneg s : all_digits s -> 0 <= value_of s.
Proof.
  intros Hs. unfold value_of.
  assert (forall v, 0 <= v -> 0 <= fold_left (fun v c => v * 10 + digit_value c) s v) as H;
    [|by apply H].
  induction Hs as [|c s Hc _ IH]; intros v Hv; [done|]. cbn [fold_left]. apply IH.
  apply within_true in Hc. unfold digit_value. lia.
Qed.

(** A literal without fraction and exponent denotes an integer. *)
Lemma denotes_integer s negative z l : denotes s negative z -> read_literal s = Some l ->
  lit_fraction l = [] -> lit_exponent l = [] -> z mod one_units = 0.
Proof.
  intros (l' & -> & Hok & _ & _ & _ & <-) Hl Hf He. rewrite read_literal_text in Hl by done.
  injection Hl as ->. unfold literal_exponent. rewrite Hf, He, app_nil_r.
  rewrite (ok_exponent_sign l Hok He). apply decimal_units_integer.
  apply value_of_nonneg, Hok.
Qed.

(** The units of a number's text: digits, sign, point and exponent mark. *)
Definition number_unit (c : N) : bool := is_digit c || one_of "+-.e" c.

Lemma denotes_units s negative z : denotes s negative z -> forallb number_unit s = true.
Proof.
  intros (l & -> & [Hi _ Hf He _] & _).
  assert (forall d, all_digits d -> forallb number_unit d = true) as Hd.
  { intros d H. apply forallb_elem. unfold all_digits in H.
    rewrite Forall_forall in H. intros c Hc. unfold number_unit. by rewrite H. }
  apply Hd in Hi, Hf, He. unfold literal_text, unsigned_text, fraction_part, exponent_part.
  rewrite !forallb_app, Hi.
  destruct (lit_negative l), (lit_fraction l), (lit_exponent l), (lit_exponent_negative l);
    cbn [forallb] in *; rewrite ?Hf, ?He; done.
Qed.

(** A literal without exponent has no exponent mark; [toExponential] writes one. *)
Lemma denotes_no_mark s negative z l : denotes s negative z -> read_literal s = Some l ->
  lit_exponent l = [] -> ch "e" ∉ s.
Proof.
  intros (l' & -> & Hok & _) Hl He. rewrite read_literal_text in Hl by done. injection Hl as ->.
  destruct Hok as [Hi _ Hf _ _].
  assert (forall d, all_digits d -> ch "e" ∉ d) as Hd.
  { intros d H Hin. unfold all_digits in H. rewrite Forall_forall in H. by specialize (H _ Hin). }
  apply Hd in Hi, Hf. unfold literal_text, unsigned_text, fraction_part, exponent_part.
  rewrite He, app_nil_r, !not_elem_of_app.
  split; [|split; [done|]].
  - destruct (lit_negative l); [|by apply not_elem_of_nil]. intros H%list_elem_of_singleton; discriminate.
  - destruct (lit_fraction l); [done|]. apply not_elem_of_cons. done.
Qed.

Lemma toExponential_mark z : z <> 0 -> ch "e" ∈ toExponential (plain (Fin z)).
Proof.
  intros Hz. assert (forall w, ch "e" ∈ positive_exponential w) as H.
  { intros w. unfold positive_exponential. destruct (shortest_digits w) as [s e].
    unfold exponent_text. rewrite !elem_of_app, elem_of_cons. auto. }
  unfold toExponential, number_text. cbn [num_of].
  destruct (Z.eqb_spec z 0); [done|]. destruct (z <? 0); [|apply H].
  apply elem_of_cons. right. apply H.
Qed.

Lemma isInteger_abs z : Z.abs z mod one_units = 0 -> isInteger (Fin z) = true.
Proof.
  pose proof one_units_pos. intros Hz. unfold isInteger. apply Z.eqb_eq.
  apply Z.mod_divide in Hz; [|lia]. apply Z.mod_divide; [lia|]. by apply Z.divide_abs_r.
Qed.

(** ** Integers *)

Lemma strip_twos_integer p k : 0 < k -> exists q,
  strip_twos p (k * 2 ^ Z.of_nat p) = strip_twos q k /\ q = O.
Proof.
  intros Hk. exists O. split; [|done]. induction p as [|p IH]; [by rewrite Z.mul_1_r|].
  cbn [strip_twos]. rewrite Nat2Z.inj_succ, Z.pow_succ_r by lia.
  replace (k * (2 * 2 ^ Z.of_nat p)) with (2 * (k * 2 ^ Z.of_nat p)) by lia.
  rewrite Z.even_mul. cbn [Z.even orb]. rewrite Z.mul_comm, Z.div_mul by lia. exact IH.
Qed.

Lemma shortest_exponent fuel z n cut : Z.of_nat fuel <= cut + 1 -> 0 <= (shortest fuel z n 0 cut).2.
Proof.
  revert cut. induction fuel as [|fuel IH]; intros cut Hc; cbn [shortest]; [done|].
  rewrite Z.sub_0_r. unfold drop_zero. repeat case_match; cbn; try lia. apply IH. lia.
Qed.

Lemma decimal_units_nonneg s e : 0 <= s -> 0 <= e -> decimal_units s e = rnd (s * 10 ^ e * one_units).
Proof.
  intros Hs He. unfold decimal_units. replace (Z.max 0 e) with e by lia.
  replace (Z.max 0 (- e)) with 0 by lia. unfold round_ratio. rewrite Z.pow_0_r, Z.div_1_r, Z.mul_1_l.
  pose proof one_units_pos. pose proof (Z.pow_pos_nonneg 10 e). unfold rnd, round_abs.
  replace (s * 10 ^ e * one_units) with (s * one_units * 10 ^ e) by lia.
  destruct (Z.ltb_spec (s * one_units * 10 ^ e) 0); [nia|done].
Qed.

(** Rounding to an integer below 2^53 is exact. *)
Lemma rnd_small_integer v k : 0 <= v -> 0 < k < 2 ^ 53 -> rnd (v * one_units) = k * one_units -> v = k.
Proof.
  intros Hv Hk H. pose proof one_units_pos. destruct (Z.lt_ge_cases v (2 ^ 53)) as [Hs|Hl].
  - rewrite rnd_ofZ in H by lia. nia.
  - pose proof (rnd_mono ((2 ^ 53 - 1) * one_units) (v * one_units)) as Hm.
    rewrite H, (rnd_ofZ (2 ^ 53 - 1)) in Hm by lia. assert (k = 2 ^ 53 - 1) as -> by nia.
    exfalso. pose proof (rnd_mono (2 ^ 53 * one_units) (v * one_units)) as Hm'.
    rewrite H in Hm'. assert (rnd (2 ^ 53 * one_units) = 2 ^ 53 * one_units) as Hr by by vm_compute.
    rewrite Hr in Hm'. nia.
Qed.

Lemma value_of_pos s : all_digits s -> s <> [] -> head s <> Some 48%N -> 0 < value_of s.
Proof.
  intros H Hne Hh. destruct s as [|c s]; [done|]. apply Forall_cons in H as [Hc Hs].
  apply within_true in Hc. assert (c <> 48%N) by (intros ->; by apply Hh).
  unfold value_of. cbn [fold_left]. rewrite value_of_fold.
  pose proof (value_of_nonneg s Hs).
  pose proof (Z.pow_pos_nonneg 10 (Z.of_nat (length s))). unfold digit_value. nia.
Qed.

Lemma digit_unit_value c : is_digit c = true -> digit_unit (digit_value c) = c /\ 0 <= digit_value c < 10.
Proof. intros H. apply within_true in H. unfold digit_unit, digit_value. lia. Qed.

(** A run of digits without leading zero is its number's text. *)
Lemma decimal_text_unique n : 0 <= n -> forall d, all_digits d -> d <> [] -> head d <> Some 48%N ->
  value_of d = n -> d = decimal_text n.
Proof.
  revert n. apply (digits_ind (fun n s => forall d, all_digits d -> d <> [] -> head d <> Some 48%N ->
    value_of d = n -> d = s)).
  - intros n Hn d Hd Hne Hh Hv. destruct d as [|c d _] using rev_ind; [done|].
    apply Forall_app in Hd as [Hd [Hc _]%Forall_cons]. destruct (digit_unit_value c Hc) as [Hu Hr].
    rewrite value_of_app in Hv. change (value_of [c]) with (0 * 10 + digit_value c) in Hv.
    cbn [length] in Hv. change (10 ^ Z.of_nat 1) with 10 in Hv.
    destruct d as [|x d]; [cbn in Hv|pose proof (value_of_pos (x :: d) Hd ltac:(done) Hh); lia].
    cbn [app]. f_equal. rewrite <- Hu. f_equal. change (value_of []) with 0 in Hv. lia.
  - intros n s Hn IH d Hd Hne Hh Hv. destruct d as [|c d _] using rev_ind; [done|].
    apply Forall_app in Hd as [Hd [Hc _]%Forall_cons]. destruct (digit_unit_value c Hc) as [Hu Hr].
    rewrite value_of_app in Hv. change (value_of [c]) with (0 * 10 + digit_value c) in Hv.
    cbn [length] in Hv. change (10 ^ Z.of_nat 1) with 10 in Hv.
    assert (n / 10 = value_of d) as Hdiv by (symmetry; apply (Z.div_unique n 10 _ (digit_value c)); lia).
    assert (n mod 10 = digit_value c) as Hmod by (symmetry; apply (Z.mod_unique n 10 (value_of d)); lia).
    rewrite Hmod, Hu. f_equal. apply IH; [done| | |done].
    + intros ->. change (value_of []) with 0 in Hv. lia.
    + destruct d as [|x d]; [change (value_of []) with 0 in Hv; lia|done].
Qed.

(** A safe positive integer's text is its decimal text. *)
Lemma String_integer k : 0 < k < 2 ^ 53 -> String_number (plain (ofZ k)) = decimal_text k.
Proof.
  intros Hk. pose proof one_units_pos. unfold String_number, number_text, ofZ. cbn [num_of].
  destruct (Z.eqb_spec (k * one_units) 0); [nia|]. destruct (Z.ltb_spec (k * one_units) 0); [nia|].
  unfold positive_text. destruct (shortest_digits (k * one_units)) as [s e] eqn:E.
  destruct (shortest_digits_units (k * one_units) s e) as [Hs Hu]; [nia|apply rnd_ofZ; lia|done|].
  assert (0 <= e) as He.
  { assert (strip_twos (Z.to_nat unit_bits) (k * one_units) = (0%nat, k)) as Hstrip.
    { destruct (strip_twos_integer (Z.to_nat unit_bits) k) as (q & Hq & ->); [lia|].
      rewrite Z2Nat.id in Hq by done. exact Hq. }
    unfold shortest_digits in E. rewrite Hstrip in E.
    change (5 ^ Z.of_nat 0) with 1 in E. rewrite Z.mul_1_r in E. cbv zeta in E.
    change (Z.of_nat 0) with 0 in E.
    pose proof (shortest_exponent (length (decimal_text k)) (k * one_units) k
      (Z.of_nat (length (decimal_text k)) - 1)) as Hexp.
    rewrite E in Hexp. cbn [snd] in Hexp. lia. }
  rewrite decimal_units_nonneg in Hu by lia. pose proof (Z.pow_pos_nonneg 10 e).
  apply rnd_small_integer in Hu; [|nia|done].
  set (d := decimal_text s). destruct (decimal_text_pos s Hs) as (c & r & Hd & Hc0 & Hc & Hr).
  assert (d ++ repeat 48%N (Z.to_nat e) = decimal_text k) as Ht.
  { apply decimal_text_unique; [lia| | | |].
    - apply Forall_app_2; [apply decimal_text_digits; lia|apply zeros_digits].
    - unfold d. by rewrite Hd.
    - unfold d. rewrite Hd. cbn. congruence.
    - rewrite value_of_app, value_of_zeros, repeat_length, Z2Nat.id by lia.
      unfold d. rewrite value_of_decimal_text by lia. lia. }
  cbv zeta. rewrite (proj2 (Z.leb_le _ _)) by lia.
  replace (e + Z.of_nat (length d) - Z.of_nat (length d)) with e by lia.
  assert (e + Z.of_nat (length d) <= 21) as Hn; [|by rewrite (proj2 (Z.leb_le _ _)) by lia].
  assert (10 ^ (Z.of_nat (length d) - 1) <= s) as Hlow.
  { unfold d. rewrite Hd. rewrite <- (value_of_decimal_text s) by lia. rewrite Hd.
    unfold value_of. cbn [fold_left length]. rewrite value_of_fold.
    destruct (digit_unit_value c Hc) as [_ Hr']. apply within_true in Hc.
    replace (Z.of_nat (S (length r)) - 1) with (Z.of_nat (length r)) by lia.
    pose proof (Z.pow_pos_nonneg 10 (Z.of_nat (length r))).
    pose proof (value_of_nonneg r Hr).
    unfold digit_value in *. nia. }
  assert (10 ^ (Z.of_nat (length d) - 1 + e) <= k) as Hle.
  { assert (1 <= Z.of_nat (length d)) as Hlen by (unfold d; rewrite Hd; cbn [length]; lia).
    rewrite Z.pow_add_r by lia. nia. }
  destruct (Z.le_gt_cases (e + Z.of_nat (length d)) 21) as [|Hbig]; [done|]. exfalso.
  pose proof (Z.pow_le_mono_r 10 21 (Z.of_nat (length d) - 1 + e)). lia.
Qed.

(** * More of the language's arithmetic on doubles: products, [Math.min] and [Math.round],
with the exact cases the runtime's delays and the planner's ranks rely on. *)

(** A rounded magnitude with its sign, or an infinity. *)
Definition signed_result (negative : bool) (units : Z) : num :=
  if overflow_units <=? units then (if negative then NInf else PInf)
  else Fin (if negative then - units else units).

Definition is_negative (a : num) : bool :=
  match a with NInf => true | Fin z => z <? 0 | _ => false end.

(** [a * b]: the exact product, rounded once. *)
Definition js_mul (a b : num) : num :=
  match a, b with
  | NaN, _ | _, NaN => NaN
  | Fin x, Fin y =>
      signed_result (xorb (x <? 0) (y <? 0)) (round_ratio (Z.abs x * Z.abs y) one_units)
  | Fin x, _ | _, Fin x =>
      if x =? 0 then NaN else if xorb (is_negative a) (is_negative b) then NInf else PInf
  | _, _ => if xorb (is_negative a) (is_negative b) then NInf else PInf
  end.

(** [Math.min(a, b)] *)
Definition math_min (a b : num) : num :=
  match a, b with
  | NaN, _ | _, NaN => NaN
  | _, _ => if js_lt b a then b else a
  end.

(** [Math.round(a)]: the nearest integer, halves upwards. *)
Definition math_round (a : num) : num :=
  match a with
  | Fin z => normalise ((2 * z + one_units) / (2 * one_units) * one_units)
  | _ => a
  end.

(** [Math.ceil(a)] *)
Definition math_ceil (a : num) : num :=
  match a with
  | Fin z => normalise (- (- z / one_units) * one_units)
  | _ => a
  end.

(** ** Exact cases *)

Lemma normalise_exact z : rnd z = z -> Z.abs z < overflow_units -> normalise z = Fin z.
Proof.
  intros Hr Hb. unfold normalise. rewrite Hr.
  destruct (Z.leb_spec overflow_units z); [lia|].
  destruct (Z.leb_spec z (- overflow_units)); [lia|done].
Qed.

(** Multiples of a power of two below 2^53 of them are exact. *)
Lemma rnd_multiple m k : 0 <= m < 2 ^ 53 -> 0 <= k -> rnd (m * 2 ^ k) = m * 2 ^ k.
Proof.
  intros Hm Hk. unfold rnd.
  destruct (Z.ltb_spec (m * 2 ^ k) 0); [pose proof (Z.pow_pos_nonneg 2 k); nia|].
  by apply round_abs_exact.
Qed.

Lemma normalise_mono a b x y : a <= b -> normalise a = Fin x -> normalise b = Fin y -> x <= y.
Proof.
  intros Hab. unfold normalise. repeat case_match; try done. intros [= <-] [= <-]. by apply rnd_mono.
Qed.

(** ** Bounds *)

Lemma excess_bits_mono a b : a <= b -> excess_bits a <= excess_bits b.
Proof. intros H. unfold excess_bits. pose proof (Z.log2_le_mono a b H). lia. Qed.

(** A rounded quotient does not pass a representable bound. *)
Lemma round_ratio_le a d s : 0 < d -> 0 <= a <= s * d -> 0 <= s -> rnd s = s ->
  0 <= round_ratio a d <= s.
Proof.
  intros Hd Ha Hs Hr. unfold round_ratio. set (b := excess_bits (a / d)).
  assert (0 <= b) as Hb by apply excess_bits_nonneg.
  assert (a / d <= s) as Hq by (apply Z.div_le_upper_bound; lia).
  assert (b <= excess_bits s) as Hbs by by apply excess_bits_mono.
  pose proof (Z.pow_pos_nonneg 2 b ltac:(lia) Hb) as Hp.
  assert (exists m, s = m * 2 ^ b) as [m Hm].
  { unfold rnd in Hr. destruct (Z.ltb_spec s 0); [lia|]. unfold round_abs in Hr.
    exists (rne s (2 ^ excess_bits s) * 2 ^ (excess_bits s - b)).
    rewrite <- Z.mul_assoc, <- Z.pow_add_r by lia.
    replace (excess_bits s - b + b) with (excess_bits s) by lia. done. }
  assert (0 < d * 2 ^ b) as Hdb by nia.
  pose proof (rne_bounds a (d * 2 ^ b) Hdb).
  pose proof (Z.div_pos a (d * 2 ^ b) ltac:(lia) Hdb).
  assert (rne a (d * 2 ^ b) <= m) as Hle.
  { rewrite <- (rne_exact m (d * 2 ^ b)) by lia. apply rne_mono; [lia|]. subst s. nia. }
  split; [nia|]. rewrite Hm. nia.
Qed.

(** Products of nonnegative numbers stay below representable bounds. *)
Lemma js_mul_le x y s : 0 <= x -> 0 <= y -> x * y <= s * one_units -> 0 <= s < overflow_units ->
  rnd s = s -> exists t, js_mul (Fin x) (Fin y) = Fin t /\ 0 <= t <= s.
Proof.
  intros Hx Hy Hxy Hs Hr. cbn [js_mul].
  destruct (Z.ltb_spec x 0), (Z.ltb_spec y 0); try lia. cbn [xorb]. rewrite !Z.abs_eq by lia.
  pose proof (round_ratio_le (x * y) one_units s one_units_pos ltac:(lia) ltac:(lia) Hr) as Hb.
  unfold signed_result. destruct (Z.leb_spec overflow_units (round_ratio (x * y) one_units)); [lia|].
  by eexists.
Qed.

(** Sums between representable bounds stay between them. *)
Lemma normalise_between a lo hi : lo <= a <= hi -> rnd lo = lo -> rnd hi = hi ->
  - overflow_units < lo -> hi < overflow_units -> exists v, normalise a = Fin v /\ lo <= v <= hi.
Proof.
  intros Ha Hlo Hhi H1 H2. pose proof (rnd_mono lo a ltac:(lia)). pose proof (rnd_mono a hi ltac:(lia)).
  unfold normalise. destruct (Z.leb_spec overflow_units (rnd a)); [lia|].
  destruct (Z.leb_spec (rnd a) (- overflow_units)); [lia|]. exists (rnd a). split; [done|lia].
Qed.
