(* ===== verification/OcfValue.v ===== *)
(** The values of the OCF/1 context format and the text they are encoded as:
    packages/context-format/src/types.ts and the first half of value.ts.

    A value is what the format's functions can be handed at run time.  An object
    is the list of its properties in the order they were created, without
    repetition; [Object_entries] is the order in which the language enumerates
    them.  Messages of exceptions are not modelled, their codes and positions
    are; so the [path] argument of [assertSerializable], which only appears in
    messages, is left out. *)

From Stdlib Require Import ZArith NArith Lia Ascii String.
From stdpp Require Import base strings list.
From S2P Require Import Prelude JsNumber JsString JsCollections JsText JsDecimal.

Open Scope string_scope.
Open Scope list_scope.
#[local] Open Scope Z_scope.

(** What [typeof] tells apart among values that are no data. *)
Inductive opaque : Type :=
| opaque_function
| opaque_symbol
| opaque_instance.

(** Data of the format, and the other values a caller can pass.
    Source: packages/context-format/src/types.ts:6-17 [OcfScalar, OcfReference, OcfValue]. *)
#[warnings="-register-all"]
Inductive value : Type :=
| vundefined
| vopaque (what : opaque)
| vnull
| vbool (b : bool)
| vnum (n : number)
| vbig (z : Z)
| vstr (s : text)
| varr (items : list value)
| vobj (fields : list (text * value)).

(** Source: packages/context-format/src/types.ts:95-115 [OcfError, OcfParseError]. *)
Inductive ocf_exn : Type :=
| OcfError (code : string)
| OcfParseError (code : string) (line column : Z)
| Unfinished (* the fuel of the model is used up; no operation throws it *).

#[export] Instance ocf_exn_eq_dec : EqDecision ocf_exn.
Proof. solve_decision. Defined.

Abbreviation oexc := (result ocf_exn).

(** Induction with hypotheses for the members of arrays and objects. *)
Lemma value_nested_ind (P : value -> Prop) :
  P vundefined -> (forall o, P (vopaque o)) -> P vnull -> (forall b, P (vbool b)) ->
  (forall n, P (vnum n)) -> (forall z, P (vbig z)) -> (forall s, P (vstr s)) ->
  (forall items, Forall P items -> P (varr items)) ->
  (forall fields, Forall (fun f => P f.2) fields -> P (vobj fields)) ->
  forall v, P v.
Proof.
  intros Hu Hq Hn Hb Hm Hz Hs Ha Ho. fix IH 1. intros [|o| |b|n|z|s|items|fields].
  - exact Hu.
  - apply Hq.
  - exact Hn.
  - apply Hb.
  - apply Hm.
  - apply Hz.
  - apply Hs.
  - apply Ha. induction items; constructor; [apply IH|assumption].
  - apply Ho. induction fields as [|[k x] fields IHf]; constructor; [apply IH|assumption].
Qed.

(** ** Character classes of the format *)

(** [bareString], [schemaToken] and the two literals.
    Source: packages/context-format/src/value.ts:4-4 [bareString]. *)
Definition bareString : text -> bool :=
  class_token is_alnum (fun c => is_alnum c || one_of "._/@:+-" c).

(** Source: packages/context-format/src/value.ts:5-13 [schemaToken, isSchemaToken]. *)
Definition isSchemaToken (s : text) : bool :=
  class_token is_letter (fun c => is_alnum c || one_of "_-" c) s || nonempty_all is_digit s.

(** Source: packages/context-format/src/value.ts:6-7 [numberLiteral]. *)
Definition numberLiteral (s : text) : bool :=
  match read_literal s with
  | Some l => no_leading_zero (lit_integer l) && no_leading_zero (lit_exponent l)
  | None => false
  end.

(** Source: packages/context-format/src/value.ts:8-8 [integerLiteral]. *)
Definition integerLiteral (s : text) : bool :=
  match read_literal s with
  | Some l => no_leading_zero (lit_integer l) &&
              (lit_fraction l === []) && (lit_exponent l === [])
  | None => false
  end.

(** Source: packages/context-format/src/value.ts:9-9 [dangerousKeys]. *)
Definition dangerousKeys (key : text) : bool :=
  existsb (fun k => key === k) [txt "__proto__"; txt "constructor"; txt "prototype"].

(** ** Objects *)

(** The array indices among property keys: canonical decimals below 2^32 - 1. *)
Definition array_index (key : text) : option Z :=
  if nonempty_all is_digit key && no_leading_zero key && (value_of key <? 2 ^ 32 - 1)
  then Some (value_of key) else None.

Definition is_index (key : text) : bool :=
  match array_index key with Some _ => true | None => false end.

Definition index_le {A} (f g : text * A) : bool :=
  match array_index f.1, array_index g.1 with
  | Some i, Some j => i <=? j
  | _, _ => true
  end.

(** [Object.entries(object)]: indices in ascending order, then the other keys in
    the order of their creation. *)
Definition Object_entries {A} (fields : list (text * A)) : list (text * A) :=
  sort_by index_le (List.filter (fun f => is_index f.1) fields) ++
  List.filter (fun f => negb (is_index f.1)) fields.

(** [Object.keys(object).sort()], with the values. *)
Definition key_order {A} (f g : text * A) : bool := text_le f.1 g.1.
Definition sorted_entries {A} (fields : list (text * A)) : list (text * A) :=
  sort_by key_order fields.

(** An object filled by assignments. *)
Definition assign_all {A} (entries : list (text * A)) : list (text * A) :=
  foldl (fun object f => jm_set object f.1 f.2) [] entries.

(** Source: packages/context-format/src/value.ts:15-22 [isPlainObject]. *)
Definition isPlainObject (v : value) : bool :=
  match v with vobj _ => true | _ => false end.

(** Source: packages/context-format/src/value.ts:24-38 [isReference]. *)
Definition isReference (v : value) : bool :=
  match v with
  | vobj fields =>
      let keys := (sorted_entries fields).*1 in
      (keys === [txt "$ref"; txt "id"]) &&
      match jm_get fields (txt "$ref"), jm_get fields (txt "id") with
      | Some (vstr _ | vnum _), Some (vnull | vstr _ | vnum _ | vbool _ | vbig _) => true
      | _, _ => false
      end
  | _ => false
  end.

(** Source: packages/context-format/src/value.ts:40-91 [assertSerializable]. *)
Fixpoint assertSerializable (v : value) : oexc unit :=
  match v with
  | vnull | vstr _ | vbool _ | vbig _ => mret tt
  | vnum n => throw_if (negb (isFinite (num_of n))) (OcfError "invalid_value")
  | vundefined => Throw (OcfError "invalid_value")
  | vopaque _ => Throw (OcfError "invalid_value")
  | varr items => for_each id (map assertSerializable items)
  | vobj fields =>
      for_each (fun '(key, check) =>
          _ ← throw_if (dangerousKeys key) (OcfError "unsafe_key");
          check)
        (Object_entries (map (fun '(key, x) => (key, assertSerializable x)) fields))
  end.

(** Source: packages/context-format/src/value.ts:93-106 [cloneValue, cloneOcfValue]. *)
Fixpoint cloneValue (v : value) : oexc value :=
  _ ← assertSerializable v;
  match v with
  | varr items => copies ← mapM id (map cloneValue items); mret (varr copies)
  | vobj fields =>
      entries ← mapM (fun '(key, copy) => x ← copy; mret (key, x))
                  (Object_entries (map (fun '(key, x) => (key, cloneValue x)) fields));
      mret (vobj (assign_all entries))
  | _ => mret v
  end.

(** [xs.every((x, i) => test(x, ys[i]))] of lists of one length. *)
Fixpoint every2 {A B} (test : A -> B -> bool) (xs : list A) (ys : list B) : bool :=
  match xs, ys with
  | x :: xs, y :: ys => test x y && every2 test xs ys
  | [], [] => true
  | _, _ => false
  end.

(** Equality of data.  The comparison is a function of the right value for each
    member of the left one.
    Source: packages/context-format/src/value.ts:108-134 [valuesEqual]. *)
Fixpoint valuesEqual (left right : value) : bool :=
  match left, right with
  | vundefined, vundefined | vnull, vnull => true
  | vbool a, vbool b => a === b
  | vnum a, vnum b => js_eq (num_of a) (num_of b)
  | vbig a, vbig b => a =? b
  | vstr a, vstr b => a === b
  | varr a, varr b => every2 (fun test y => test y) (map valuesEqual a) b
  | vobj a, vobj b =>
      every2 (fun f g => (f.1 === g.1) && f.2 g.2)
        (sorted_entries (map (fun '(key, x) => (key, valuesEqual x)) a)) (sorted_entries b)
  | _, _ => false
  end.

(** ** Text of a value *)

(** Source: packages/context-format/src/value.ts:136-145 [canUseBareString]. *)
Definition canUseBareString (s : text) : bool :=
  bareString s && (s !== txt "~") && (s !== txt "!t") && (s !== txt "!f") &&
  negb (starts_with (ch "#") s) && negb (starts_with (ch "&") s).

(** Source: packages/context-format/src/value.ts:151-158 [encodeValue, number]. *)
Definition encode_number (n : number) : text :=
  ch "#" ::
  match n with
  | minus_zero => txt "-0"
  | plain x => if isInteger x && negb (isSafeInteger x) then toExponential n else String_number n
  end.

Definition encode_string (s : text) : text := if canUseBareString s then s else JSON_quote s.

(** A bracketed list of texts. *)
Definition bracketed (opening closing : ascii) (parts : list text) : text :=
  ch opening :: join_with (ch ",") parts ++ [ch closing].

Definition encode_field (key encoded : text) : text := JSON_quote key ++ ch ":" :: encoded.

(** Source: packages/context-format/src/value.ts:164-172 [encodeValue, reference]. *)
Definition encode_reference (ref : option value) (id : option (oexc text)) : oexc text :=
  let reference := match ref with
                   | Some (vstr s) => s
                   | Some (vnum n) => String_number n
                   | _ => []
                   end in
  _ ← throw_if (negb (isSchemaToken reference)) (OcfError "invalid_reference");
  match id with
  | Some encoded => t ← encoded; mret (ch "&" :: reference ++ ch ":" :: t)
  | None => Throw (OcfError "invalid_reference")
  end.

(** Source: packages/context-format/src/value.ts:147-177 [encodeValue]. *)
Fixpoint encodeValue (v : value) : oexc text :=
  _ ← assertSerializable v;
  match v with
  | vnull => mret (txt "~")
  | vbool b => mret (if b then txt "!t" else txt "!f")
  | vnum n => mret (encode_number n)
  | vbig z => mret (ch "#" :: bigint_text z ++ [ch "n"])
  | vstr s => mret (encode_string s)
  | varr items =>
      parts ← mapM id (map encodeValue items);
      mret (bracketed "[" "]" parts)
  | vobj fields =>
      let encoded := map (fun '(key, x) => (key, encodeValue x)) fields in
      if isReference v then encode_reference (jm_get fields (txt "$ref")) (jm_get encoded (txt "id"))
      else
        parts ← mapM (fun '(key, encoded) => t ← encoded; mret (encode_field key t))
                  (sorted_entries encoded);
        mret (bracketed "{" "}" parts)
  | vundefined | vopaque _ => Throw (OcfError "invalid_value")
  end.

(** ** The token estimate *)

Definition is_word (c : N) : bool := is_alnum c || (c =? ch "_")%N.

(** The lengths of the pieces of [/[A-Za-z0-9_]+|[^\sA-Za-z0-9_]/gu]; [run] is the
    length of the word that has begun. *)
Fixpoint lexicalPieces (s : text) (run : Z) : list Z :=
  let word := if run =? 0 then [] else [run] in
  match s with
  | [] => word
  | c :: r =>
      if is_word c then lexicalPieces r (run + 1)
      else if is_space c then word ++ lexicalPieces r 0
      else if is_high_surrogate c then
        match r with
        | d :: r' => if is_low_surrogate d then word ++ 2 :: lexicalPieces r' 0
                     else word ++ 1 :: lexicalPieces r 0
        | [] => word ++ [1]
        end
      else word ++ 1 :: lexicalPieces r 0
  end.

(** [Math.ceil(n / 4)] *)
Definition quarter (n : Z) : Z := (n + 3) / 4.

(** Source: packages/context-format/src/value.ts:513-521 [estimateTokens]. *)
Definition estimateTokens (s : text) : Z :=
  match s with
  | [] => 0
  | _ =>
      match lexicalPieces s 0 with
      | [] => quarter (Z.of_nat (length s))
      | pieces => foldl (fun total piece => total + Z.max 1 (quarter piece)) 0 pieces
      end
  end.
