(* ===== verification/OcfParse.v ===== *)
(** Parsing the text of a value: the second half of
    packages/context-format/src/value.ts.

    [parseValue] calls itself on parts of its text; the model bounds the
    recursion by the length of the text, and [parse_terminates] proves that the
    bound is never reached. *)

From Stdlib Require Import ZArith NArith Lia Ascii String.
From stdpp Require Import base strings list.
From S2P Require Import Prelude JsNumber JsString JsCollections JsText JsDecimal OcfValue.

Open Scope string_scope.
Open Scope list_scope.
#[local] Open Scope Z_scope.

(** ** Splitting at the top level *)

(** What the splitting loops remember: the nesting depth, whether the unit is
    inside a quoted string, and whether it is escaped there. *)
Record scan_state := Scan { depth : Z; in_string : bool; escaped : bool }.

Definition scan (st : scan_state) (c : N) : scan_state :=
  if in_string st then
    if escaped st then Scan (depth st) true false
    else if (c =? backslash)%N then Scan (depth st) true true
    else if (c =? quote)%N then Scan (depth st) false false
    else st
  else if (c =? quote)%N then Scan (depth st) true false
  else if one_of "[{" c then Scan (depth st + 1) false false
  else if one_of "]}" c then Scan (depth st - 1) false false
  else st.

(** Source: packages/context-format/src/value.ts:179-182 [SplitPart]. *)
Record SplitPart := Part { part_text : text; part_offset : Z }.

(** The loop of [splitTopLevel], and of the two functions that split a line.
    [current] is [source.slice(start, index)] in reverse; [underflow index] is
    the exception of a closing delimiter without an opening one, if the function
    has one, and [finish] that of the final state. *)
Section Split.
Context (delimiter : N) (underflow : Z -> option ocf_exn) (finish : scan_state -> option ocf_exn).

(** Source: packages/context-format/src/value.ts:196-231 [splitTopLevel, loop]. *)
Fixpoint split_loop (st : scan_state) (rest : text) (index start : Z) (current : text)
  : oexc (list SplitPart) :=
  match rest with
  | [] =>
      match finish st with
      | Some error => Throw error
      | None => mret [Part (rev current) start]
      end
  | c :: rest =>
      let st' := scan st c in
      match (if depth st' <? 0 then underflow index else None) with
      | Some error => Throw error
      | None =>
          if negb (in_string st) && (c =? delimiter)%N && (depth st =? 0) then
            parts ← split_loop st' rest (index + 1) (index + 1) [];
            mret (Part (rev current) start :: parts)
          else split_loop st' rest (index + 1) start (c :: current)
      end
  end.
End Split.

Definition outside : scan_state := Scan 0 false false.

(** Source: packages/context-format/src/value.ts:184-248 [splitTopLevel]. *)
Definition splitTopLevel (source : text) (delimiter : N) (line baseColumn : Z)
  : oexc (list SplitPart) :=
  split_loop delimiter
    (fun index => Some (OcfParseError "malformed_value" line (baseColumn + index)))
    (fun st =>
       if in_string st || negb (depth st =? 0)
       then Some (OcfParseError "malformed_value" line (baseColumn + Z.of_nat (length source)))
       else None)
    outside source 0 0 [].

(** The index of the first delimiter; [None] stands for -1.
    Source: packages/context-format/src/value.ts:250-259 [findTopLevel]. *)
Definition findTopLevel (source : text) (delimiter : N) (line baseColumn : Z) : oexc (option nat) :=
  parts ← splitTopLevel source delimiter line baseColumn;
  mret (match parts with
        | first :: _ :: _ => Some (length (part_text first))
        | _ => None
        end).

(** ** Parsing *)

(** Source: packages/context-format/src/value.ts:261-278 [parseQuotedString]. *)
Definition parseQuotedString (source : text) (line column : Z) : oexc text :=
  match JSON_parse_string source with
  | Some s => mret s
  | None => Throw (OcfParseError "malformed_string" line column)
  end.

Section Parse.
(** The recursive call of [parseValue], with its line and column. *)
Context (parse : text -> Z -> Z -> oexc value).

(** Source: packages/context-format/src/value.ts:280-298 [parseArray]. *)
Definition parseArray (source : text) (line column : Z) : oexc value :=
  let inner := inner 1 1 source in
  if inner === [] then mret (varr [])
  else
    parts ← splitTopLevel inner (ch ",") line (column + 1);
    items ← mapM (fun part =>
        _ ← throw_if (part_text part === [])
              (OcfParseError "malformed_array" line (column + 1 + part_offset part));
        parse (part_text part) line (column + 1 + part_offset part)) parts;
    mret (varr items).

(** One property of an object, added to the properties read before it.
    Source: packages/context-format/src/value.ts:309-362 [parseObject, loop]. *)
Definition parse_field (line column : Z) (result : list (text * value)) (part : SplitPart)
  : oexc (list (text * value)) :=
  let at_part := column + 1 + part_offset part in
  _ ← throw_if (part_text part === []) (OcfParseError "malformed_object" line at_part);
  colon ← findTopLevel (part_text part) (ch ":") line at_part;
  match colon with
  | None | Some O => Throw (OcfParseError "malformed_object" line at_part)
  | Some colon =>
      let keyText := take colon (part_text part) in
      let valueText := drop (colon + 1) (part_text part) in
      _ ← throw_if (negb (starts_with quote keyText && ends_with quote keyText))
            (OcfParseError "malformed_object" line at_part);
      key ← parseQuotedString keyText line at_part;
      _ ← throw_if (dangerousKeys key) (OcfParseError "unsafe_key" line at_part);
      _ ← throw_if (jm_has result key) (OcfParseError "duplicate_key" line at_part);
      let at_value := at_part + Z.of_nat colon + 1 in
      _ ← throw_if (valueText === []) (OcfParseError "malformed_object" line at_value);
      x ← parse valueText line at_value;
      mret (jm_set result key x)
  end.

Fixpoint parse_fields (line column : Z) (result : list (text * value)) (parts : list SplitPart)
  : oexc (list (text * value)) :=
  match parts with
  | [] => mret result
  | part :: parts =>
      result ← parse_field line column result part;
      parse_fields line column result parts
  end.

(** Source: packages/context-format/src/value.ts:300-364 [parseObject]. *)
Definition parseObject (source : text) (line column : Z) : oexc value :=
  let inner := inner 1 1 source in
  if inner === [] then mret (vobj [])
  else
    parts ← splitTopLevel inner (ch ",") line (column + 1);
    fields ← parse_fields line column [] parts;
    mret (vobj fields).

(** Source: packages/context-format/src/value.ts:366-405 [parseReference]. *)
Definition parseReference (source : text) (line column : Z) : oexc value :=
  colon ← findTopLevel (drop 1 source) (ch ":") line (column + 1);
  match colon with
  | None | Some O => Throw (OcfParseError "malformed_reference" line column)
  | Some colon =>
      let schema := take colon (drop 1 source) in
      let id := drop (colon + 2) source in
      let at_id := column + Z.of_nat colon + 2 in
      _ ← throw_if (negb (isSchemaToken schema)) (OcfParseError "malformed_reference" line (column + 1));
      _ ← throw_if (id === []) (OcfParseError "malformed_reference" line at_id);
      parsedId ← parse id line at_id;
      match parsedId with
      | varr _ | vobj _ => Throw (OcfParseError "malformed_reference" line at_id)
      | _ => mret (vobj [(txt "$ref", vstr schema); (txt "id", parsedId)])
      end
  end.

(** Source: packages/context-format/src/value.ts:433-470 [parseValue, number]. *)
Definition parse_number (literal : text) (line column : Z) : oexc value :=
  if ends_with (ch "n") literal then
    let integer := inner 0 1 literal in
    _ ← throw_if (negb (integerLiteral integer)) (OcfParseError "malformed_number" line column);
    mret (vbig (BigInt_text integer))
  else
    _ ← throw_if (negb (numberLiteral literal)) (OcfParseError "malformed_number" line column);
    let parsed := Number_text literal in
    _ ← throw_if (negb (isFinite (num_of parsed))) (OcfParseError "malformed_number" line column);
    _ ← throw_if (integerLiteral literal && negb (isSafeInteger (num_of parsed)))
          (OcfParseError "unsafe_integer" line column);
    mret (vnum parsed).

(** One call of [parseValue].
    Source: packages/context-format/src/value.ts:407-510 [parseValue]. *)
Definition parse_step (source : text) (line column : Z) : oexc value :=
  match head source, last source with
  | Some first, Some final =>
      _ ← throw_if (is_space first || is_space final) (OcfParseError "malformed_value" line column);
      if source === txt "~" then mret vnull
      else if source === txt "!t" then mret (vbool true)
      else if source === txt "!f" then mret (vbool false)
      else if (first =? ch "#")%N then parse_number (drop 1 source) line column
      else if (first =? quote)%N then
        _ ← throw_if (negb (final =? quote)%N) (OcfParseError "malformed_string" line column);
        s ← parseQuotedString source line column;
        mret (vstr s)
      else if (first =? ch "[")%N then
        _ ← throw_if (negb (final =? ch "]")%N) (OcfParseError "malformed_array" line column);
        parseArray source line column
      else if (first =? ch "{")%N then
        _ ← throw_if (negb (final =? ch "}")%N) (OcfParseError "malformed_object" line column);
        parseObject source line column
      else if (first =? ch "&")%N then parseReference source line column
      else
        _ ← throw_if (negb (canUseBareString source)) (OcfParseError "malformed_string" line column);
        mret (vstr source)
  | _, _ => Throw (OcfParseError "malformed_value" line column)
  end.
End Parse.

Fixpoint parse_fuel (fuel : nat) (source : text) (line column : Z) : oexc value :=
  match fuel with
  | O => Throw Unfinished
  | S fuel => parse_step (parse_fuel fuel) source line column
  end.

(** A call parses only shorter texts, so the length of the text bounds the depth
    of the recursion.
    Source: packages/context-format/src/value.ts:407-510 [parseValue]. *)
Definition parseValue (source : text) (line column : Z) : oexc value :=
  parse_fuel (S (length source)) source line column.


(** ** Termination *)

Lemma split_loop_lengths delimiter underflow finish rest : forall st index start current parts,
  split_loop delimiter underflow finish st rest index start current = Ok parts ->
  Forall (fun part => (length (part_text part) <= length rest + length current)%nat) parts.
Proof.
  induction rest as [|c rest IH]; intros st index start current parts; cbn [split_loop].
  - destruct (finish st); [done|]. intros [= <-]. repeat constructor.
    cbn [part_text]. rewrite length_rev. lia.
  - destruct (if depth (scan st c) <? 0 then underflow index else None); [done|].
    destruct (_ && _).
    + intros H. apply bind_ok in H as (ps & Hps & [= <-]). constructor.
      * cbn [part_text length]. rewrite length_rev. lia.
      * apply IH in Hps. eapply Forall_impl; [exact Hps|]. cbn. intros. lia.
    + intros H%IH. eapply Forall_impl; [exact H|]. cbn. intros. lia.
Qed.

Lemma splitTopLevel_lengths source delimiter line column parts :
  splitTopLevel source delimiter line column = Ok parts ->
  Forall (fun part => (length (part_text part) <= length source)%nat) parts.
Proof.
  intros H. apply split_loop_lengths in H. eapply Forall_impl; [exact H|]. cbn. intros. lia.
Qed.

Lemma length_inner source final : (length (inner 1 final source) <= pred (length source))%nat.
Proof. unfold inner. rewrite length_take, length_drop. lia. Qed.

Lemma bind_ext {A B} (r : oexc A) (f g : A -> oexc B) :
  (forall a, r = Ok a -> f a = g a) -> (r ≫= f) = (r ≫= g).
Proof. destruct r; [|done]. intros H. by apply H. Qed.

Lemma mapM_ext_Forall {A B} (f g : A -> oexc B) l :
  Forall (fun x => f x = g x) l -> mapM f l = mapM g l.
Proof. induction 1 as [|x l Hx _ IH]; [done|]. cbn. rewrite Hx. by rewrite IH. Qed.

Lemma inner_parts source delimiter line column parts : source <> [] ->
  splitTopLevel (inner 1 1 source) delimiter line column = Ok parts ->
  Forall (fun part => (length (part_text part) < length source)%nat) parts.
Proof.
  intros Hne H%splitTopLevel_lengths. eapply Forall_impl; [exact H|]. cbn. intros.
  pose proof (length_inner source 1). destruct source; [done|]. cbn in *. lia.
Qed.

Section Shorter.
Context (p q : text -> Z -> Z -> oexc value) (source : text).
Hypothesis agree : forall t line column, (length t < length source)%nat ->
  p t line column = q t line column.

Lemma parse_field_ext line column result part : (length (part_text part) < length source)%nat ->
  parse_field p line column result part = parse_field q line column result part.
Proof.
  intros Hlt. unfold parse_field. apply bind_ext. intros [] _. apply bind_ext. intros [[|colon]|] _;
    [done| |done].
  do 4 (apply bind_ext; intros ? _). apply bind_ext. intros [] _.
  rewrite agree; [done|]. rewrite length_drop. lia.
Qed.

Lemma parse_fields_ext line column parts : forall result,
  Forall (fun part => (length (part_text part) < length source)%nat) parts ->
  parse_fields p line column result parts = parse_fields q line column result parts.
Proof.
  induction parts as [|part parts IH]; intros result H; [done|].
  apply Forall_cons in H as [Hp Hps]. cbn [parse_fields]. rewrite parse_field_ext by done.
  apply bind_ext. intros r _. by apply IH.
Qed.

(** A call of the parser uses its recursive calls on shorter texts only. *)
Lemma parse_step_ext line column : parse_step p source line column = parse_step q source line column.
Proof.
  unfold parse_step. destruct (head source) eqn:Hh; [|done]. destruct (last source); [|done].
  assert (source <> []) as Hne by (by destruct source).
  apply bind_ext. intros [] _. repeat (case_match; [done|]). case_match; [|case_match; [|case_match; [|done]]].
  - apply bind_ext. intros [] _. unfold parseArray. case_match; [done|].
    apply bind_ext. intros parts Hp. f_equal. apply mapM_ext_Forall.
    eapply Forall_impl; [by eapply inner_parts|]. cbn. intros part Hlt.
    apply bind_ext. intros [] _. by apply agree.
  - apply bind_ext. intros [] _. unfold parseObject. case_match; [done|].
    apply bind_ext. intros parts Hp. rewrite parse_fields_ext; [done|]. by eapply inner_parts.
  - unfold parseReference. apply bind_ext. intros [[|colon]|] _; [done| |done].
    do 2 (apply bind_ext; intros [] _). rewrite agree; [done|].
    rewrite length_drop. destruct source; [done|]. cbn. lia.
Qed.
End Shorter.

(** More fuel than the length of the text changes nothing. *)
Lemma parse_fuel_enough fuel fuel' source line column :
  (length source < fuel)%nat -> (length source < fuel')%nat ->
  parse_fuel fuel source line column = parse_fuel fuel' source line column.
Proof.
  revert fuel' source line column. induction fuel as [|fuel IH]; intros fuel' source line column H H';
    [lia|]. destruct fuel' as [|fuel']; [lia|]. cbn [parse_fuel]. apply parse_step_ext.
  intros t l c Ht. apply IH; lia.
Qed.

(** [parseValue] satisfies the equation of the code. *)
Lemma parseValue_step source line column :
  parseValue source line column = parse_step parseValue source line column.
Proof.
  unfold parseValue at 1. cbn [parse_fuel]. apply parse_step_ext.
  intros t l c Ht. apply parse_fuel_enough; lia.
Qed.

(** [r] ends with a value or an exception of the code. *)
Definition finishes {A} (r : oexc A) : Prop := r <> Throw Unfinished.

Lemma finishes_bind {A B} (r : oexc A) (f : A -> oexc B) :
  finishes r -> (forall a, r = Ok a -> finishes (f a)) -> finishes (r ≫= f).
Proof.
  intros Hr Hf. destruct r as [a|e]; [by apply Hf|]. cbn. intros [= ->]. by apply Hr.
Qed.

Lemma finishes_ok {A} (a : A) : finishes (mret (M := oexc) a).
Proof. done. Qed.

Lemma finishes_throw_if c e : e <> Unfinished -> finishes (throw_if c e).
Proof. intros He. unfold throw_if, finishes. destruct c; congruence. Qed.

Lemma finishes_mapM {A B} (f : A -> oexc B) l :
  Forall (fun x => finishes (f x)) l -> finishes (mapM f l).
Proof.
  induction 1 as [|x l Hx _ IH]; [done|]. cbn. apply finishes_bind; [done|]. intros y _.
  apply finishes_bind; [done|]. done.
Qed.

Lemma finishes_split_loop delimiter underflow finish rest :
  (forall i, underflow i <> Some Unfinished) -> (forall st, finish st <> Some Unfinished) ->
  forall st index start current,
  finishes (split_loop delimiter underflow finish st rest index start current).
Proof.
  intros Hu Hf. induction rest as [|c rest IH]; intros st index start current; cbn [split_loop].
  - specialize (Hf st). destruct (finish st) as [e|]; [|done].
    intros [= ->]. by apply Hf.
  - destruct (depth (scan st c) <? 0).
    + specialize (Hu index). destruct (underflow index) as [e|]; [intros [= ->]; by apply Hu|].
      destruct (_ && _); [|apply IH]. by apply finishes_bind.
    + destruct (_ && _); [|apply IH]. by apply finishes_bind.
Qed.

Lemma finishes_split source delimiter line column :
  finishes (splitTopLevel source delimiter line column).
Proof.
  apply finishes_split_loop; [done|]. intros st. by destruct (_ || _).
Qed.

Lemma finishes_quoted source line column : finishes (parseQuotedString source line column).
Proof. unfold parseQuotedString. by destruct (JSON_parse_string source). Qed.

Create HintDb finishes.
#[export] Hint Resolve finishes_ok finishes_split finishes_quoted : finishes.

Ltac finishes_steps :=
  repeat first
    [ apply finishes_bind; [|intros ? ?]
    | apply finishes_throw_if; discriminate
    | solve [auto with finishes]
    | discriminate
    | progress cbv zeta
    | match goal with |- finishes (match ?x with _ => _ end) => destruct x eqn:? end ].

Section Calls.
Context (p : text -> Z -> Z -> oexc value) (source : text).
Hypothesis calls : forall t line column, (length t < length source)%nat -> finishes (p t line column).

Lemma finishes_field line column result part : (length (part_text part) < length source)%nat ->
  finishes (parse_field p line column result part).
Proof.
  intros Hlt. unfold parse_field, findTopLevel. finishes_steps.
  apply calls. rewrite length_drop. lia.
Qed.

Lemma finishes_fields line column parts : forall result,
  Forall (fun part => (length (part_text part) < length source)%nat) parts ->
  finishes (parse_fields p line column result parts).
Proof.
  induction parts as [|part parts IH]; intros result H; [done|].
  apply Forall_cons in H as [Hp Hps]. cbn [parse_fields].
  apply finishes_bind; [by apply finishes_field|]. intros r _. by apply IH.
Qed.

Lemma finishes_step line column : finishes (parse_step p source line column).
Proof.
  unfold parse_step. destruct (head source) eqn:Hh; [|done]. destruct (last source); [|done].
  assert (source <> []) as Hne by (by destruct source).
  unfold parse_number, parseArray, parseObject, parseReference, findTopLevel. finishes_steps.
  - apply finishes_mapM. eapply Forall_impl; [by eapply inner_parts|]. cbn. intros part Hlt.
    finishes_steps.
  - apply finishes_fields. by eapply inner_parts.
  - apply calls. rewrite length_drop. destruct source; [done|]. cbn. lia.
Qed.
End Calls.

(** Parsing a value always ends: on every text it returns a value or throws
    one of the code's exceptions, and the nesting of the recursive calls is at
    most the length of the text. *)
Theorem parse_terminates source line column :
  parseValue source line column <> Throw Unfinished /\
  forall fuel, (length source < fuel)%nat ->
    parse_fuel fuel source line column = parseValue source line column.
Proof.
  assert (forall fuel t l c, (length t < fuel)%nat -> finishes (parse_fuel fuel t l c)) as H.
  { induction fuel as [|fuel IH]; intros t l c Ht; [lia|]. apply finishes_step.
    intros u l' c' Hu. apply IH. lia. }
  split; [apply H; lia|]. intros fuel Hf. apply parse_fuel_enough; lia.
Qed.

(** * The splitting loops of the context format on texts whose quotes and brackets match:
such a text is passed over whole, so a joined list of them is split into the list again.
*)

(** A unit outside strings that is no quote and no bracket. *)
Definition plain_unit (c : N) : bool := negb ((c =? quote)%N || one_of "[{" c || one_of "]}" c).

Definition within_depth (k : Z) : scan_state := Scan k false false.

(** A text in which quotes and brackets match and no unit that [avoid]s occurs
    outside of them. *)
Inductive closed : (N -> bool) -> text -> Prop :=
| closed_nil avoid : closed avoid []
| closed_unit avoid c t : plain_unit c = true -> avoid c = false ->
    closed avoid t -> closed avoid (c :: t)
| closed_string avoid b t : literal_body b -> closed avoid t ->
    closed avoid (quote :: b ++ quote :: t)
| closed_nest avoid o b c t : one_of "[{" o = true -> one_of "]}" c = true ->
    closed (fun _ => false) b -> closed avoid t -> closed avoid (o :: b ++ c :: t).

Lemma closed_app avoid a b : closed avoid a -> closed avoid b -> closed avoid (a ++ b).
Proof.
  intros Ha Hb. induction Ha; cbn [app]; rewrite <- ?app_assoc; cbn [app]; auto using closed.
Qed.

Lemma closed_weaken avoid avoid' t :
  (forall c, avoid c = false -> avoid' c = false) -> closed avoid t -> closed avoid' t.
Proof. intros H. induction 1; auto using closed. Qed.

Lemma closed_units avoid t :
  forallb (fun c => plain_unit c && negb (avoid c)) t = true -> closed avoid t.
Proof.
  induction t as [|c t IH]; cbn [forallb]; [constructor|].
  rewrite !andb_true_iff, negb_true_iff. intros [[Hp Ha] Ht]. constructor; auto.
Qed.

Lemma closed_quote avoid s : closed avoid (JSON_quote s).
Proof. unfold JSON_quote. constructor; [apply quote_body_literal|constructor]. Qed.

Lemma closed_join avoid parts :
  Forall (closed avoid) parts -> avoid (ch ",") = false -> closed avoid (join_with (ch ",") parts).
Proof.
  intros H Ha. induction H as [|p ps Hp Hps IH]; [constructor|].
  destruct ps as [|q ps]; [done|].
  change (join_with (ch ",") (p :: q :: ps)) with (p ++ ch "," :: join_with (ch ",") (q :: ps)).
  apply closed_app; [done|]. by constructor.
Qed.

Section Loop.
Context (delimiter : N) (underflow : Z -> option ocf_exn) (finish : scan_state -> option ocf_exn).
Let loop := split_loop delimiter underflow finish.

Lemma loop_skip st c rest index start current :
  0 <= depth (scan st c) ->
  negb (in_string st) && (c =? delimiter)%N && (depth st =? 0) = false ->
  loop st (c :: rest) index start current =
  loop (scan st c) rest (index + 1) start (c :: current).
Proof.
  intros Hd Hc. unfold loop. cbn [split_loop].
  destruct (Z.ltb_spec (depth (scan st c)) 0); [lia|]. by rewrite Hc.
Qed.

Lemma loop_step k k' c rest index start current :
  scan (within_depth k) c = within_depth k' -> 0 <= k' -> (c <> delimiter \/ k <> 0) ->
  loop (within_depth k) (c :: rest) index start current =
  loop (within_depth k') rest (index + 1) start (c :: current).
Proof.
  intros Hs Hk Hc. rewrite loop_skip; rewrite ?Hs; [done|done|].
  cbn [within_depth in_string depth negb andb].
  destruct (N.eqb_spec c delimiter), (Z.eqb_spec k 0); [|done..]. intuition.
Qed.

(** The body of a quoted string is passed over. *)
Lemma loop_literal b : literal_body b -> forall k rest index start current, 0 <= k ->
  loop (Scan k true false) (b ++ rest) index start current =
  loop (Scan k true false) rest (index + Z.of_nat (length b)) start (rev b ++ current).
Proof.
  induction 1 as [|c s Hq Hb _ IH|c s _ IH]; intros k rest index start current Hk; cbn [app].
  - cbn [length]. f_equal. lia.
  - rewrite loop_skip by (cbn; rewrite ?(proj2 (N.eqb_neq _ _)) by done; done).
    cbn [scan in_string escaped]. rewrite !(proj2 (N.eqb_neq _ _)) by done. cbv iota.
    rewrite IH by done. cbn [length rev]. rewrite <- app_assoc. f_equal. lia.
  - rewrite loop_skip by done. rewrite loop_skip by done.
    change (scan (scan (Scan k true false) backslash) c) with (Scan k true false).
    rewrite IH by done. cbn [length rev]. rewrite <- !app_assoc. f_equal. lia.
Qed.

Lemma scan_opening k o : one_of "[{" o = true -> scan (within_depth k) o = within_depth (k + 1).
Proof.
  intros Ho. unfold scan, within_depth. cbn [in_string depth].
  destruct (N.eqb_spec o quote) as [->|]; [done|]. by rewrite Ho.
Qed.

Lemma scan_closing k c : one_of "]}" c = true -> scan (within_depth k) c = within_depth (k - 1).
Proof.
  intros Hc. unfold scan, within_depth. cbn [in_string depth].
  destruct (N.eqb_spec c quote) as [->|]; [done|]. rewrite Hc.
  destruct (one_of "[{" c) eqn:E; [|done]. exfalso. revert E Hc. unfold one_of. cbn.
  rewrite !orb_true_iff, !N.eqb_eq. intros. intuition subst; discriminate.
Qed.

Lemma scan_plain k c : plain_unit c = true -> scan (within_depth k) c = within_depth k.
Proof.
  unfold plain_unit. rewrite negb_true_iff, !orb_false_iff. intros [[H1 H2] H3].
  unfold scan, within_depth. cbn [in_string]. by rewrite H1, H2, H3.
Qed.

(** A closed text is passed over inside brackets, and at the top level if it
    avoids the delimiter there. *)
Lemma loop_closed avoid t : closed avoid t -> forall k rest index start current,
  0 <= k -> (0 < k \/ avoid delimiter = true) -> one_of "[{]}" delimiter = false ->
  delimiter <> quote ->
  loop (within_depth k) (t ++ rest) index start current =
  loop (within_depth k) rest (index + Z.of_nat (length t)) start (rev t ++ current).
Proof.
  induction 1 as [avoid|avoid c t Hp Ha _ IH|avoid b t Hb _ IH|avoid o b c t Ho Hc _ IHb _ IH];
    intros k rest index start current Hk Hd Hbr Hq; cbn [app].
  - cbn [length]. f_equal. lia.
  - rewrite (loop_step k k) by
      (first [by apply scan_plain|done|destruct Hd; [right; lia|left; congruence]]).
    rewrite IH by done. cbn [length rev]. rewrite <- app_assoc. f_equal. lia.
  - rewrite loop_skip;
      [|exact Hk|cbn [within_depth in_string depth negb andb];
       rewrite (proj2 (N.eqb_neq quote delimiter)) by congruence; done].
    change (scan (within_depth k) quote) with (Scan k true false).
    rewrite <- app_assoc. rewrite loop_literal by done. cbn [app].
    rewrite loop_skip by done. change (scan (Scan k true false) quote) with (within_depth k).
    rewrite IH by done. cbn [length rev]. rewrite length_app, rev_app_distr. cbn [length rev].
    rewrite <- !app_assoc. f_equal. lia.
  - assert (forall x, one_of "[{]}" x = one_of "[{" x || one_of "]}" x) as Hsplit.
    { intros x. unfold one_of. cbn. by rewrite !orb_false_r, !orb_assoc. }
    rewrite Hsplit, orb_false_iff in Hbr. destruct Hbr as [Hb1 Hb2].
    rewrite (loop_step k (k + 1)) by
      (first [by apply scan_opening|lia|left; congruence]).
    rewrite <- app_assoc, IHb by (try done; try lia; rewrite Hsplit; by rewrite Hb1). cbn [app].
    rewrite (loop_step (k + 1) k) by
      (first [rewrite scan_closing by done; f_equal; lia|lia|left; congruence]).
    rewrite IH by (try done; rewrite Hsplit; by rewrite Hb1).
    cbn [length rev]. rewrite length_app, rev_app_distr. cbn [length rev].
    rewrite <- !app_assoc. f_equal. lia.
Qed.

Hypothesis finish_outside : finish outside = None.
Hypothesis delimiter_plain : one_of "[{]}" delimiter = false.
Hypothesis delimiter_unquoted : delimiter <> quote.

Lemma loop_cut rest index start current :
  loop outside (delimiter :: rest) index start current =
  (parts ← loop outside rest (index + 1) (index + 1) []; mret (Part (rev current) start :: parts)).
Proof.
  assert (scan outside delimiter = outside) as Hs.
  { apply (scan_plain 0). unfold plain_unit.
    rewrite (proj2 (N.eqb_neq _ _)) by done. revert delimiter_plain. unfold one_of. cbn.
    rewrite !orb_false_iff. intuition. rewrite ?orb_false_iff. by rewrite H, H0, H1, H2. }
  unfold loop. cbn [split_loop]. rewrite Hs. cbn [outside depth in_string negb andb].
  by rewrite N.eqb_refl.
Qed.

(** A closed text that avoids the delimiter is one part. *)
Lemma loop_one avoid t index start current : closed avoid t -> avoid delimiter = true ->
  loop outside t index start current = Ok [Part (rev current ++ t) start].
Proof.
  intros Ht Ha. rewrite <- (app_nil_r t) at 1.
  rewrite (loop_closed avoid t Ht 0) by auto with lia.
  unfold loop. cbn [split_loop]. change (within_depth 0) with outside. rewrite finish_outside.
  by rewrite rev_app_distr, rev_involutive.
Qed.

(** Closed texts joined by the delimiter are split into themselves. *)
Lemma loop_join avoid ts : Forall (closed avoid) ts -> avoid delimiter = true -> ts <> [] ->
  forall index start, exists parts,
    loop outside (join_with delimiter ts) index start [] = Ok parts /\ map part_text parts = ts.
Proof.
  intros H Ha Hne. induction H as [|t ts Ht Hts IH]; [done|]. intros index start.
  destruct ts as [|u ts].
  - eexists. split; [by apply (loop_one avoid)|done].
  - change (join_with delimiter (t :: u :: ts)) with (t ++ delimiter :: join_with delimiter (u :: ts)).
    rewrite (loop_closed avoid t Ht 0) by auto with lia.
    change (within_depth 0) with outside. rewrite loop_cut.
    destruct (IH ltac:(done) (index + Z.of_nat (length t) + 1) (index + Z.of_nat (length t) + 1))
      as (parts & -> & Hparts).
    eexists. split; [reflexivity|]. cbn [map part_text].
    by rewrite Hparts, app_nil_r, rev_involutive.
Qed.

(** The loop does not fail on a closed text, whatever its delimiters. *)
Lemma loop_total avoid t : closed avoid t -> forall index start current,
  exists part parts, loop outside t index start current = Ok (part :: parts).
Proof.
  intros Ht. rewrite <- (app_nil_r t).
  assert (forall index start current,
    exists part parts, loop outside [] index start current = Ok (part :: parts)) as Hrest.
  { intros. unfold loop. cbn [split_loop]. rewrite finish_outside. eauto. }
  revert Hrest. generalize (@nil N) as rest.
  induction Ht as [avoid|avoid c t Hp Ha _ IH|avoid b t Hb _ IH|avoid o b c t Ho Hc Hb _ _ IH];
    intros rest Hrest index start current; cbn [app].
  - apply Hrest.
  - destruct (N.eqb_spec c delimiter) as [->|Hcd].
    + rewrite loop_cut. destruct (IH rest Hrest (index + 1) (index + 1) []) as (p & ps & ->).
      by eexists _, _.
    + rewrite (loop_step 0 0) by (first [by apply scan_plain|done|by left]). by apply IH.
  - change (quote :: (b ++ quote :: t) ++ rest) with ((quote :: b ++ quote :: t) ++ rest).
    replace ((quote :: b ++ quote :: t) ++ rest) with ((quote :: b ++ [quote]) ++ t ++ rest)
      by (cbn [app]; by rewrite <- !app_assoc).
    assert (closed (fun _ => true) (quote :: b ++ [quote])) as Hc
      by (apply closed_string; [done|constructor]).
    rewrite (loop_closed _ _ Hc 0) by auto with lia. by apply IH.
  - replace (o :: (b ++ c :: t) ++ rest) with ((o :: b ++ [c]) ++ t ++ rest)
      by (cbn [app]; by rewrite <- !app_assoc).
    assert (closed (fun _ => true) (o :: b ++ [c])) as Hn
      by (apply closed_nest; [done..|constructor]).
    rewrite (loop_closed _ _ Hn 0) by auto with lia. by apply IH.
Qed.

(** A closed text before the first delimiter is the first of several parts. *)
Lemma loop_first avoid avoid' t u index start :
  closed avoid t -> avoid delimiter = true -> closed avoid' u ->
  exists part parts, loop outside (t ++ delimiter :: u) index start [] = Ok (Part t start :: part :: parts).
Proof.
  intros Ht Ha Hu. rewrite (loop_closed avoid t Ht 0) by auto with lia.
  change (within_depth 0) with outside. rewrite loop_cut, app_nil_r, rev_involutive.
  destruct (loop_total avoid' u Hu (index + Z.of_nat (length t) + 1)
    (index + Z.of_nat (length t) + 1) []) as (p & ps & ->).
  by eexists _, _.
Qed.
End Loop.
