(* ===== verification/OcfRoundTrip.v ===== *)
(** The text of a value is read back as the value.

    A text determines the value up to two things the format forgets: the order
    in which an object's properties were created, and whether the schema of a
    reference was written as a number or as its decimal text. *)

From Stdlib Require Import ZArith NArith Lia Ascii String.
From stdpp Require Import base strings list.
From S2P Require Import Prelude JsNumber JsString JsCollections JsText JsDecimal OcfValue OcfParse.

Open Scope string_scope.
Open Scope list_scope.
#[local] Open Scope Z_scope.

(** ** Well-formed values, and what a reader gets *)

(** Numbers are doubles and an object's keys are distinct, as in every value of
    the language. *)
Fixpoint value_ok (v : value) : Prop :=
  match v with
  | vnum n => number_ok n
  | varr items => foldr and True (map value_ok items)
  | vobj fields => NoDup fields.*1 /\ foldr and True (map (fun '(_, x) => value_ok x) fields)
  | _ => True
  end.

(** The schema of a reference as text. *)
Definition reference_text (fields : list (text * value)) : text :=
  match jm_get fields (txt "$ref") with
  | Some (vstr s) => s
  | Some (vnum n) => String_number n
  | _ => []
  end.

Fixpoint decoded (v : value) : value :=
  match v with
  | varr items => varr (map decoded items)
  | vobj fields =>
      if isReference v then
        vobj [(txt "$ref", vstr (reference_text fields));
              (txt "id", jm_get fields (txt "id") ?? vnull)]
      else vobj (sorted_entries (map (fun '(key, x) => (key, decoded x)) fields))
  | _ => v
  end.

(** ** Lists of results *)

Lemma foldr_and_Forall {A} (P : A -> Prop) l : foldr and True (map P l) <-> Forall P l.
Proof.
  induction l as [|x l IH]; cbn; [by split|]. rewrite Forall_cons, IH. done.
Qed.

Lemma value_ok_fields fields :
  value_ok (vobj fields) <-> NoDup fields.*1 /\ Forall (fun f => value_ok f.2) fields.
Proof.
  cbn [value_ok]. rewrite <- (foldr_and_Forall (fun f => value_ok f.2)).
  replace (map (fun '(_, x) => value_ok x) fields) with (map (fun f => value_ok f.2) fields); [done|].
  apply map_ext. by intros [].
Qed.

(** ** The shape of encoded text *)

Definition list_unit : N -> bool := one_of ",|".

(** A unit that neither delimits nor nests nor is white space. *)
Definition solid (c : N) : bool :=
  plain_unit c && negb (list_unit c) && negb (is_space c) && (32 <=? c)%N.

(** Text of a value: brackets match, no list delimiter and no control character
    outside strings, and no white space at either end. *)
Record wire (t : text) : Prop := {
  wire_closed : closed list_unit t;
  wire_printable : printable t;
  wire_edges : exists first final,
    head t = Some first /\ last t = Some final /\ is_space first = false /\ is_space final = false }.

Lemma ascii_class (f g : N -> bool) :
  (forall c, f c = true -> (c < 128)%N) ->
  forallb (fun c => negb (f c) || g c) (map N.of_nat (seq 0 128)) = true ->
  forall c, f c = true -> g c = true.
Proof.
  intros Hf Hall c Hc. rewrite forallb_forall in Hall. specialize (Hall c).
  rewrite Hc in Hall. apply Hall, in_map_iff. exists (N.to_nat c).
  specialize (Hf c Hc). rewrite in_seq. split; lia.
Qed.

Lemma solid_facts c : solid c = true ->
  plain_unit c = true /\ list_unit c = false /\ is_space c = false /\ (32 <= c)%N.
Proof.
  unfold solid. rewrite !andb_true_iff, !negb_true_iff, N.leb_le. tauto.
Qed.

Lemma solid_closed t : forallb solid t = true -> closed list_unit t.
Proof.
  intros H. apply closed_units. apply forallb_elem. intros c Hc.
  rewrite forallb_elem in H. destruct (solid_facts c (H c Hc)) as (-> & -> & _). done.
Qed.

Lemma solid_printable t : forallb solid t = true -> printable t.
Proof.
  intros H. apply Forall_forall. intros c Hc. rewrite forallb_elem in H. by apply solid_facts, H.
Qed.

Lemma last_cons_some {A} (x : A) l : exists y, last (x :: l) = Some y.
Proof. destruct (last (x :: l)) eqn:E; [eauto|]. by apply last_None in E. Qed.

Lemma wire_solid t : forallb solid t = true -> t <> [] -> wire t.
Proof.
  intros H Hne. split; [by apply solid_closed|by apply solid_printable|].
  destruct t as [|c t]; [done|]. destruct (last_cons_some c t) as [d Hd].
  exists c, d. split; [done|]. split; [done|]. rewrite forallb_elem in H.
  split; apply solid_facts, H; [by left|]. by apply last_Some_elem_of.
Qed.

Lemma wire_prefix p t : forallb solid p = true -> wire t -> wire (p ++ t).
Proof.
  intros Hp [Hc Hpr (f & l & Hf & Hl & Hsf & Hsl)]. split.
  - apply closed_app; [by apply solid_closed|done].
  - apply printable_app. split; [by apply solid_printable|done].
  - destruct p as [|c p]; [by exists f, l|]. exists c, l. split; [done|].
    split; [by rewrite last_app, Hl|]. split; [|done].
    rewrite forallb_elem in Hp. apply solid_facts, Hp. by left.
Qed.

Lemma alnum_ascii c : is_alnum c = true -> (c < 128)%N.
Proof.
  unfold is_alnum, is_letter, is_upper, is_lower, is_digit.
  rewrite !orb_true_iff, !within_true. lia.
Qed.

Lemma one_of_ascii s c : one_of s c = true -> (c < 256)%N.
Proof.
  unfold one_of, txt. rewrite existsb_exists. intros (x & Hx & Hc%N.eqb_eq). subst x.
  apply in_map_iff in Hx as (a & <- & _). apply N_ascii_bounded.
Qed.

Lemma class_solid (f : N -> bool) t :
  (forall c, f c = true -> (c < 128)%N) ->
  forallb (fun c => negb (f c) || solid c) (map N.of_nat (seq 0 128)) = true ->
  forallb f t = true -> forallb solid t = true.
Proof.
  intros Hf Hall Ht. apply forallb_elem. rewrite forallb_elem in Ht. intros c Hc.
  by apply (ascii_class f solid Hf Hall), Ht.
Qed.

Lemma number_unit_ascii c : number_unit c = true -> (c < 128)%N.
Proof.
  unfold number_unit. rewrite orb_true_iff. intros [H|H].
  - apply alnum_ascii. unfold is_alnum. by rewrite H, orb_true_r.
  - revert H. unfold one_of. cbn. rewrite !orb_true_iff, !N.eqb_eq. intuition lia.
Qed.

Lemma number_units_solid t : forallb number_unit t = true -> forallb solid t = true.
Proof. by apply class_solid; [apply number_unit_ascii|]. Qed.

Definition bare_unit (c : N) : bool := is_alnum c || one_of "._/@:+-" c.

Lemma bare_units s : bareString s = true -> s <> [] /\ forallb bare_unit s = true.
Proof.
  unfold bareString, class_token. destruct s as [|c s]; [done|].
  rewrite andb_true_iff. intros [Hc Hs]. split; [done|]. cbn [forallb]. unfold bare_unit at 1.
  rewrite Hc. exact Hs.
Qed.

Lemma bare_ascii c : bare_unit c = true -> (c < 128)%N.
Proof.
  unfold bare_unit. rewrite orb_true_iff. intros [H%alnum_ascii|H]; [done|].
  revert H. unfold one_of. cbn. rewrite !orb_true_iff, !N.eqb_eq. intuition lia.
Qed.

Lemma bare_solid s : bareString s = true -> forallb solid s = true.
Proof. intros [_ H]%bare_units. by apply (class_solid bare_unit); [apply bare_ascii| |]. Qed.

Lemma token_units s : isSchemaToken s = true ->
  s <> [] /\ forallb (fun c => is_alnum c || one_of "_-" c) s = true.
Proof.
  unfold isSchemaToken, nonempty_all, class_token. destruct s as [|c s]; [done|].
  rewrite orb_true_iff, !andb_true_iff. intros [[Hc Hs]|[Hc Hs]]; (split; [done|]); cbn [forallb].
  - unfold is_alnum at 1. by rewrite Hc, Hs.
  - unfold is_alnum at 1. rewrite Hc, orb_true_r. cbn. apply forallb_elem.
    rewrite forallb_elem in Hs. intros d Hd. unfold is_alnum. by rewrite (Hs d Hd), orb_true_r.
Qed.

Lemma token_solid s : isSchemaToken s = true -> forallb solid s = true.
Proof.
  intros [_ H]%token_units. revert H. apply class_solid; [|done].
  intros c. rewrite orb_true_iff. intros [H%alnum_ascii|H]; [done|].
  revert H. unfold one_of. cbn. rewrite !orb_true_iff, !N.eqb_eq. intuition lia.
Qed.

Lemma token_no_colon s : isSchemaToken s = true ->
  closed (fun c => (c =? ch ":")%N) s.
Proof.
  intros Hs. pose proof (token_solid s Hs) as Hsol. apply token_units in Hs as [_ Hs].
  apply closed_units, forallb_elem. rewrite forallb_elem in Hs, Hsol. intros c Hc.
  destruct (solid_facts c (Hsol c Hc)) as (-> & _). specialize (Hs c Hc).
  destruct (N.eqb_spec c (ch ":")) as [->|]; [done|done].
Qed.

Lemma wire_quote s : wire (JSON_quote s).
Proof.
  split; [apply closed_quote|apply JSON_quote_printable|].
  exists quote, quote. split; [done|]. split; [|done].
  unfold JSON_quote. by rewrite app_comm_cons, last_snoc.
Qed.

Lemma wire_nonempty t : wire t -> t <> [].
Proof. intros [_ _ (f & l & Hf & _)]. by destruct t. Qed.

Lemma printable_join parts : Forall printable parts -> printable (join_with (ch ",") parts).
Proof.
  intros H. induction H as [|p ps Hp Hps IH]; [constructor|].
  destruct ps as [|q ps]; [done|].
  change (join_with (ch ",") (p :: q :: ps)) with (p ++ ch "," :: join_with (ch ",") (q :: ps)).
  apply printable_app. split; [done|]. by apply Forall_cons.
Qed.

Lemma join_nonempty parts : Forall (fun t => t <> []) parts -> parts <> [] ->
  join_with (ch ",") parts <> [].
Proof.
  intros H Hne. destruct H as [|p ps Hp Hps]; [done|].
  destruct ps; [done|]. by destruct p.
Qed.

(** The parts of an array or object, as the reader sees them. *)
Record part_ok (t : text) : Prop := {
  part_closed : closed list_unit t;
  part_printable : printable t;
  part_some : t <> [] }.

Lemma wire_part t : wire t -> part_ok t.
Proof. intros H. split; [apply H|apply H|by apply wire_nonempty]. Qed.

Lemma wire_bracketed o c parts :
  one_of "[{" (ch o) = true -> one_of "]}" (ch c) = true ->
  is_space (ch o) = false -> is_space (ch c) = false -> (32 <= ch o)%N -> (32 <= ch c)%N ->
  Forall part_ok parts -> wire (bracketed o c parts).
Proof.
  intros Ho Hc Hso Hsc Hpo Hpc Hps. unfold bracketed. split.
  - apply closed_nest; [done|done| |constructor]. apply closed_join; [|done].
    eapply Forall_impl; [exact Hps|]. intros t [Ht _ _]. by eapply closed_weaken; [|exact Ht].
  - apply Forall_cons. split; [done|]. apply printable_app. split; [|by repeat constructor].
    apply printable_join. eapply Forall_impl; [exact Hps|]. by intros t [].
  - exists (ch o), (ch c). split; [done|]. split; [by rewrite app_comm_cons, last_snoc|done].
Qed.

Lemma part_field key t : wire t -> part_ok (encode_field key t).
Proof.
  intros [Hc Hp _]. unfold encode_field. split.
  - apply closed_app; [apply closed_quote|]. by constructor.
  - apply printable_app. split; [apply JSON_quote_printable|]. apply Forall_cons. done.
  - done.
Qed.

(** Splitting the inside of brackets. *)
Lemma splitTopLevel_join line column parts : Forall part_ok parts -> parts <> [] ->
  exists split, splitTopLevel (join_with (ch ",") parts) (ch ",") line column = Ok split /\
    map part_text split = parts.
Proof.
  intros H Hne. unfold splitTopLevel.
  apply (loop_join (ch ",")) with (avoid := list_unit); try done.
  eapply Forall_impl; [exact H|]. by intros t [].
Qed.

Lemma findTopLevel_first avoid avoid' t u line column :
  closed avoid t -> avoid (ch ":") = true -> closed avoid' u ->
  findTopLevel (t ++ ch ":" :: u) (ch ":") line column = Ok (Some (length t)).
Proof.
  intros Ht Ha Hu. unfold findTopLevel, splitTopLevel.
  edestruct (loop_first (ch ":")) as (p & ps & Hsplit);
    [..|rewrite Hsplit; reflexivity]; done.
Qed.

(** ** One call of the reader on each kind of text *)

Lemma parse_step_first p c t line column final :
  last (c :: t) = Some final -> is_space c = false -> is_space final = false ->
  c <> ch "~" -> c <> ch "!" ->
  parse_step p (c :: t) line column =
    if (c =? ch "#")%N then parse_number t line column
    else if (c =? quote)%N then
      _ ← throw_if (negb (final =? quote)%N) (OcfParseError "malformed_string" line column);
      s ← parseQuotedString (c :: t) line column;
      mret (vstr s)
    else if (c =? ch "[")%N then
      _ ← throw_if (negb (final =? ch "]")%N) (OcfParseError "malformed_array" line column);
      parseArray p (c :: t) line column
    else if (c =? ch "{")%N then
      _ ← throw_if (negb (final =? ch "}")%N) (OcfParseError "malformed_object" line column);
      parseObject p (c :: t) line column
    else if (c =? ch "&")%N then parseReference p (c :: t) line column
    else
      _ ← throw_if (negb (canUseBareString (c :: t))) (OcfParseError "malformed_string" line column);
      mret (vstr (c :: t)).
Proof.
  intros Hl Hs1 Hs2 Ht He. unfold parse_step. cbn [head]. rewrite Hl, Hs1, Hs2. cbn [orb throw_if].
  unfold throw_if at 1. cbn [mbind result_bind].
  assert (forall d w, d <> c -> c :: t <> d :: w) as Hne by congruence.
  rewrite (bool_decide_eq_false_2 (c :: t = txt "~")) by (by apply (Hne (ch "~"))).
  rewrite (bool_decide_eq_false_2 (c :: t = txt "!t")) by (by apply (Hne (ch "!"))).
  rewrite (bool_decide_eq_false_2 (c :: t = txt "!f")) by (by apply (Hne (ch "!"))).
  done.
Qed.

(** The number of units of a number's text decides how it is read. *)
Lemma read_denoted s negative z : denotes s negative z -> numberLiteral s = true.
Proof.
  intros (l & -> & Hok & _ & Hi & He & _). unfold numberLiteral.
  rewrite read_literal_text by done. by rewrite Hi, He.
Qed.

Lemma number_unit_not_n s c : forallb number_unit s = true -> last s = Some c -> c <> ch "n".
Proof.
  intros H Hl ->. apply last_Some_elem_of in Hl. rewrite forallb_elem in H.
  by specialize (H _ Hl).
Qed.

Lemma ends_with_not_n s : forallb number_unit s = true -> ends_with (ch "n") s = false.
Proof.
  intros H. unfold ends_with. destruct (last s) as [c|] eqn:E; [|done].
  apply N.eqb_neq. by eapply number_unit_not_n.
Qed.

(** A number is read back from its encoding. *)
Lemma parse_encode_number n line column : number_ok n -> isFinite (num_of n) = true ->
  parse_number (drop 1 (encode_number n)) line column = Ok (vnum n).
Proof.
  intros Hok Hfin. destruct n as [[| | |z]|]; try done.
  unfold encode_number. cbn [drop]. rewrite drop_0.
  destruct (Z.eq_dec z 0) as [->|Hz].
  { by vm_compute. }
  set (s := if isInteger (Fin z) && negb (isSafeInteger (Fin z)) then _ else _).
  assert (denotes s (z <? 0) (Z.abs z)) as Hs.
  { unfold s. destruct (_ && _).
    - by apply (number_text_denotes _ _ z positive_exponential_denotes).
    - by apply (number_text_denotes _ _ z positive_text_denotes). }
  assert (Number_text s = plain (Fin z)) as Hn.
  { rewrite (denotes_number _ _ _ Hs). by apply representable_signed. }
  unfold parse_number. rewrite ends_with_not_n by (by eapply denotes_units).
  rewrite (read_denoted _ _ _ Hs), Hn. cbn [negb num_of isFinite throw_if mbind result_bind].
  destruct (integerLiteral s && negb (isSafeInteger (Fin z))) eqn:E; [|done]. exfalso.
  apply andb_true_iff in E as [Hi Hsafe].
  unfold integerLiteral in Hi. destruct (read_literal s) as [l|] eqn:Hl; [|done].
  apply andb_true_iff in Hi as [[_ Hf%bool_decide_eq_true]%andb_true_iff He%bool_decide_eq_true].
  pose proof (denotes_no_mark _ _ _ _ Hs Hl He) as Hmark. revert Hmark. unfold s.
  rewrite (isInteger_abs z) by (by eapply denotes_integer). rewrite Hsafe. cbn [andb].
  intros Hmark. apply Hmark. by apply toExponential_mark.
Qed.

(** ** Objects *)

Lemma elem_of_Object_entries {A} (fields : list (text * A)) f :
  f ∈ Object_entries fields <-> f ∈ fields.
Proof.
  unfold Object_entries. rewrite elem_of_app, sort_by_elem, !elem_of_list_filter.
  destruct (is_index f.1); cbn; intuition done.
Qed.

Lemma jm_get_map {A B} (f : A -> B) (fields : list (text * A)) key :
  jm_get (map (fun '(k, x) => (k, f x)) fields) key = f <$> jm_get fields key.
Proof.
  induction fields as [|[k x] fields IH]; [done|]. cbn [map jm_get].
  destruct (decide (k = key)); done.
Qed.

Lemma sorted_entries_map {A B} (f : A -> B) (fields : list (text * A)) :
  sorted_entries (map (fun '(k, x) => (k, f x)) fields) =
  map (fun '(k, x) => (k, f x)) (sorted_entries fields).
Proof. apply (sort_by_map key_order key_order). by intros [] []. Qed.

Lemma sorted_entries_keys {A} (fields : list (text * A)) :
  NoDup fields.*1 -> NoDup (sorted_entries fields).*1.
Proof.
  intros H. unfold sorted_entries. by rewrite (sort_by_Permutation key_order fields).
Qed.

Lemma assertSerializable_fields fields key x :
  assertSerializable (vobj fields) = Ok tt -> (key, x) ∈ fields ->
  dangerousKeys key = false /\ assertSerializable x = Ok tt.
Proof.
  cbn [assertSerializable]. rewrite for_each_ok. intros H Hin.
  rewrite Forall_forall in H. specialize (H (key, assertSerializable x)).
  rewrite elem_of_Object_entries in H.
  assert ((key, assertSerializable x) ∈ map (fun '(k, y) => (k, assertSerializable y)) fields) as Hm.
  { apply list_elem_of_In, in_map_iff. exists (key, x). by rewrite <- list_elem_of_In. }
  apply H in Hm as [Hd Hx]%seq_ok. apply throw_if_ok in Hd. done.
Qed.

Lemma isReference_fields fields : isReference (vobj fields) = true ->
  exists ref id, jm_get fields (txt "$ref") = Some ref /\ jm_get fields (txt "id") = Some id /\
    match id with varr _ | vobj _ => False | _ => True end.
Proof.
  cbn [isReference]. rewrite andb_true_iff. intros [_ H].
  destruct (jm_get fields (txt "$ref")) as [ref|]; [|done].
  destruct (jm_get fields (txt "id")) as [id|]; [|by destruct ref].
  exists ref, id. split; [done|]. split; [done|]. by destruct ref, id.
Qed.

Lemma drop_past {A} (a : list A) c t : drop (length a + 1) (a ++ c :: t) = t.
Proof. by induction a. Qed.

Section Read.
Context (p : text -> Z -> Z -> oexc value).

(** One property is read from its text. *)
Lemma parse_field_text line column result part key x t :
  part_text part = encode_field key t -> wire t -> dangerousKeys key = false ->
  key ∉ result.*1 -> (forall l c, p t l c = Ok x) ->
  parse_field p line column result part = Ok (result ++ [(key, x)]).
Proof.
  intros Hpart Ht Hd Hk Hp. unfold parse_field. rewrite Hpart. unfold encode_field.
  rewrite bool_decide_eq_false_2 by done. cbn [throw_if mbind result_bind].
  rewrite (findTopLevel_first (fun c => (c =? ch ":")%N) list_unit)
    by first [apply closed_quote|apply Ht|done].
  cbn [mbind result_bind].
  destruct (length (JSON_quote key)) as [|n] eqn:Hn; [done|]. rewrite <- Hn. clear n Hn.
  rewrite take_app_length.
  rewrite drop_past.
  assert (ends_with quote (JSON_quote key) = true) as ->
    by (unfold JSON_quote; rewrite app_comm_cons; apply ends_with_app).
  change (starts_with quote (JSON_quote key)) with true. cbn [negb andb throw_if mbind result_bind].
  unfold parseQuotedString. rewrite JSON_parse_quote. cbn [mret result_ret mbind result_bind].
  rewrite Hd. assert (jm_has result key = false) as Hhas.
  { apply not_true_iff_false. by rewrite jm_has_elem. }
  rewrite Hhas. cbn [throw_if mbind result_bind].
  rewrite bool_decide_eq_false_2 by (by apply wire_nonempty). cbn [throw_if mbind result_bind].
  rewrite Hp. cbn [mbind result_bind]. by rewrite jm_set_fresh.
Qed.

(** All properties are read in turn. *)
Lemma parse_fields_text line column parts entries texts : forall result,
  map part_text parts = map (fun '(key, t) => encode_field key t) (zip (entries.*1) texts) ->
  length texts = length entries ->
  NoDup (result.*1 ++ entries.*1) ->
  Forall (fun f => dangerousKeys f.1 = false) entries ->
  Forall2 (fun f t => wire t /\ forall l c, p t l c = Ok f.2) entries texts ->
  parse_fields p line column result parts = Ok (result ++ entries).
Proof.
  revert entries texts. induction parts as [|part parts IH]; intros entries texts result Hmap Hlen Hnd Hd H.
  - destruct H; [by rewrite app_nil_r|done].
  - destruct H as [|[key x] t entries texts [Ht Hp] H]; [done|].
    cbn in Hmap. injection Hmap as Hpart Hmap. cbn in Hlen.
    apply Forall_cons in Hd as [Hdk Hd]. cbn [fst snd] in *. cbn [parse_fields].
    rewrite (parse_field_text line column result part key x t); [|done..| |done].
    + cbn [mbind result_bind]. rewrite (IH entries texts); [by rewrite <- app_assoc|done|lia| |done|done].
      rewrite fmap_app, <- app_assoc. exact Hnd.
    + intros Hin. apply NoDup_app in Hnd as (_ & Hnd & _). apply (Hnd key Hin). by left.
Qed.
End Read.

(** ** The encoding of each kind of value *)

(** [t] is read back as [v] wherever it stands. *)
Definition reads (t : text) (v : value) : Prop :=
  wire t /\ forall line column, parseValue t line column = Ok v.

Lemma wire_number n : number_ok n -> isFinite (num_of n) = true -> wire (encode_number n).
Proof.
  intros Hok Hfin. destruct n as [[| | |z]|]; try done; [|by apply (wire_solid (txt "#-0"))].
  unfold encode_number. apply (wire_solid (ch "#" :: _)); [|done]. cbn [forallb].
  change (solid (ch "#")) with true. cbn [andb]. apply number_units_solid.
  destruct (Z.eq_dec z 0) as [->|Hz]; [by vm_compute|].
  destruct (_ && _); apply (denotes_units _ (z <? 0) (Z.abs z)).
  - by apply (number_text_denotes _ _ z positive_exponential_denotes).
  - by apply (number_text_denotes _ _ z positive_text_denotes).
Qed.

(** A wire text that begins with a mark is dispatched on it. *)
Lemma parse_wire c t line column : wire (c :: t) -> c <> ch "~" -> c <> ch "!" ->
  exists final, last (c :: t) = Some final /\
  parseValue (c :: t) line column =
    if (c =? ch "#")%N then parse_number t line column
    else if (c =? quote)%N then
      _ ← throw_if (negb (final =? quote)%N) (OcfParseError "malformed_string" line column);
      s ← parseQuotedString (c :: t) line column;
      mret (vstr s)
    else if (c =? ch "[")%N then
      _ ← throw_if (negb (final =? ch "]")%N) (OcfParseError "malformed_array" line column);
      parseArray parseValue (c :: t) line column
    else if (c =? ch "{")%N then
      _ ← throw_if (negb (final =? ch "}")%N) (OcfParseError "malformed_object" line column);
      parseObject parseValue (c :: t) line column
    else if (c =? ch "&")%N then parseReference parseValue (c :: t) line column
    else
      _ ← throw_if (negb (canUseBareString (c :: t))) (OcfParseError "malformed_string" line column);
      mret (vstr (c :: t)).
Proof.
  intros [_ _ (first & final & Hh & Hl & Hs1 & Hs2)] H1 H2. injection Hh as <-. exists final.
  split; [done|]. rewrite parseValue_step. by apply parse_step_first.
Qed.

Lemma reads_number n : number_ok n -> isFinite (num_of n) = true ->
  reads (encode_number n) (vnum n).
Proof.
  intros Hok Hfin. pose proof (wire_number n Hok Hfin) as Hw. split; [done|]. intros line column.
  pose proof (parse_encode_number n line column Hok Hfin) as Hp.
  unfold encode_number in *. cbn [drop] in Hp. rewrite drop_0 in Hp.
  destruct (parse_wire _ _ line column Hw) as (final & _ & ->); [done|done|exact Hp].
Qed.

(** A bigint's text is a canonical literal without fraction and exponent. *)
Lemma bigint_literal z : exists l, bigint_text z = literal_text l /\ literal_ok l /\
  no_leading_zero (lit_integer l) = true /\ lit_fraction l = [] /\ lit_exponent l = [].
Proof.
  unfold bigint_text. exists (Literal (z <? 0) (decimal_text (Z.abs z)) [] false []).
  unfold literal_text, unsigned_text, fraction_part, exponent_part. cbn.
  rewrite !app_nil_r. pose proof (Z.abs_nonneg z).
  split; [|split; [split; cbn|split; [by apply no_leading_zero_decimal|done]]].
  - destruct (Z.ltb_spec z 0); [by rewrite Z.abs_neq by lia|by rewrite Z.abs_eq by lia].
  - by apply decimal_text_digits.
  - by apply decimal_text_not_nil.
  - constructor.
  - constructor.
  - done.
Qed.

Lemma reads_bigint z : reads (ch "#" :: bigint_text z ++ [ch "n"]) (vbig z).
Proof.
  destruct (bigint_literal z) as (l & Hl & Hok & Hz & Hf & He).
  assert (wire (ch "#" :: bigint_text z ++ [ch "n"])) as Hw.
  { apply wire_solid; [|done]. cbn [forallb]. rewrite forallb_app. cbn [forallb].
    change (solid (ch "#")) with true. change (solid (ch "n")) with true. rewrite andb_true_r.
    cbn [andb]. apply number_units_solid.
    apply (denotes_units _ (lit_negative l)
      (decimal_units (value_of (lit_integer l ++ lit_fraction l)) (literal_exponent l))).
    exists l. rewrite He. done. }
  split; [done|]. intros line column.
  destruct (parse_wire _ _ line column Hw) as (final & _ & ->); [done|done|].
  change ((ch "#" =? ch "#")%N) with true. unfold parse_number. rewrite ends_with_app.
  assert (inner 0 1 (bigint_text z ++ [ch "n"]) = bigint_text z) as ->.
  { unfold inner. rewrite drop_0, length_app. cbn [length].
    replace (length (bigint_text z) + 1 - 0 - 1)%nat with (length (bigint_text z)) by lia.
    by rewrite take_app_length. }
  unfold integerLiteral. rewrite Hl, read_literal_text by done. rewrite Hz, Hf, He.
  cbn [andb negb throw_if mbind result_bind]. rewrite <- Hl. by rewrite BigInt_bigint_text.
Qed.

Lemma bare_first c s : bareString (c :: s) = true -> is_alnum c = true.
Proof. unfold bareString. cbn. by intros [H _]%andb_true_iff. Qed.

Lemma reads_string s : reads (encode_string s) (vstr s).
Proof.
  unfold encode_string. destruct (canUseBareString s) eqn:Hb.
  - assert (bareString s = true) as Hbare.
    { unfold canUseBareString in Hb. by bool_hyps. }
    assert (wire s) as Hw by (apply wire_solid; [by apply bare_solid|by apply bare_units]).
    split; [done|]. intros line column. destruct s as [|c s]; [done|].
    pose proof (bare_first _ _ Hbare) as Hc.
    assert (forall d, is_alnum d = false -> (c =? d)%N = false) as Hd.
    { intros d Hd. apply N.eqb_neq. congruence. }
    destruct (parse_wire _ _ line column Hw) as (final & _ & ->);
      [by apply N.eqb_neq, Hd|by apply N.eqb_neq, Hd|].
    rewrite !Hd by done. by rewrite Hb.
  - pose proof (wire_quote s) as Hw. split; [done|]. intros line column. unfold JSON_quote in *.
    destruct (parse_wire _ _ line column Hw) as (final & Hl & ->); [done|done|].
    rewrite app_comm_cons, last_snoc in Hl. injection Hl as <-.
    change ((quote =? ch "#")%N) with false. rewrite N.eqb_refl. cbn [negb throw_if mbind result_bind].
    unfold parseQuotedString. fold (JSON_quote s). by rewrite JSON_parse_quote.
Qed.

Lemma bracketed_text o c parts line column :
  wire (bracketed o c parts) -> ch o <> ch "~" -> ch o <> ch "!" ->
  (ch o =? ch "#")%N = false -> (ch o =? quote)%N = false ->
  parseValue (bracketed o c parts) line column =
    if (ch o =? ch "[")%N then
      _ ← throw_if (negb (ch c =? ch "]")%N) (OcfParseError "malformed_array" line column);
      parseArray parseValue (bracketed o c parts) line column
    else if (ch o =? ch "{")%N then
      _ ← throw_if (negb (ch c =? ch "}")%N) (OcfParseError "malformed_object" line column);
      parseObject parseValue (bracketed o c parts) line column
    else if (ch o =? ch "&")%N then parseReference parseValue (bracketed o c parts) line column
    else
      _ ← throw_if (negb (canUseBareString (bracketed o c parts)))
            (OcfParseError "malformed_string" line column);
      mret (vstr (bracketed o c parts)).
Proof.
  intros Hw H1 H2 H3 H4. unfold bracketed in *.
  destruct (parse_wire _ _ line column Hw H1 H2) as (final & Hl & ->).
  rewrite app_comm_cons, last_snoc in Hl. injection Hl as <-. by rewrite H3, H4.
Qed.

Lemma inner_bracketed o c parts : inner 1 1 (bracketed o c parts) = join_with (ch ",") parts.
Proof. apply inner_brackets. Qed.

Lemma reads_array items texts : Forall2 (fun v t => reads t v) items texts ->
  reads (bracketed "[" "]" texts) (varr items).
Proof.
  intros H. assert (Forall part_ok texts) as Hparts.
  { apply Forall_forall. intros t Ht. apply list_elem_of_lookup in Ht as [i Ht].
    eapply Forall2_lookup_r in H as (v & _ & [Hw _]); [|exact Ht]. by apply wire_part. }
  assert (wire (bracketed "[" "]" texts)) as Hw by by apply wire_bracketed.
  split; [done|]. intros line column. rewrite bracketed_text by done.
  change ((ch "[" =? ch "[")%N) with true. change ((ch "]" =? ch "]")%N) with true.
  cbn [negb throw_if mbind result_bind]. unfold parseArray. rewrite inner_bracketed.
  destruct (decide (texts = [])) as [->|Hne].
  { inversion H; subst. done. }
  rewrite bool_decide_eq_false_2 by
    (apply join_nonempty; [|done]; eapply Forall_impl; [exact Hparts|by intros ? []]).
  destruct (splitTopLevel_join line (column + 1) texts Hparts Hne) as (parts & -> & Hmap).
  cbn [mbind result_bind].
  match goal with |- (items ← mapM ?f parts; _) = _ => assert (mapM f parts = Ok items) as -> end;
    [|done].
  apply mapM_Forall2. clear -H Hmap. revert items H. rewrite <- Hmap. clear texts Hmap.
  induction parts as [|part parts IH]; intros items H; cbn [map] in H.
  - inversion H; subst. constructor.
  - apply Forall2_cons_inv_r in H as (v & vs & [Hw Hr] & Hvs & ->). constructor; [|by apply IH].
    cbn [snd]. rewrite bool_decide_eq_false_2 by by apply wire_nonempty.
    apply Hr.
Qed.

Lemma reads_object entries texts :
  NoDup entries.*1 -> Forall (fun f => dangerousKeys f.1 = false) entries ->
  Forall2 (fun f t => reads t f.2) entries texts ->
  reads (bracketed "{" "}" (map (fun '(key, t) => encode_field key t) (zip entries.*1 texts)))
    (vobj entries).
Proof.
  intros Hnd Hd H. set (fields := map _ _).
  pose proof (Forall2_length _ _ _ H) as Hlen.
  assert (Forall part_ok fields) as Hparts.
  { unfold fields. clear -H. induction H as [|[k x] t es ts [Hw _] _ IH]; constructor; [|done].
    by apply part_field. }
  assert (wire (bracketed "{" "}" fields)) as Hw by by apply wire_bracketed.
  split; [done|]. intros line column. rewrite bracketed_text by done.
  change ((ch "{" =? ch "[")%N) with false. change ((ch "{" =? ch "{")%N) with true.
  change ((ch "}" =? ch "}")%N) with true.
  cbn [negb throw_if mbind result_bind]. unfold parseObject. rewrite inner_bracketed.
  destruct (decide (fields = [])) as [Hnil|Hne].
  { rewrite Hnil. destruct entries as [|[]]; [done|]. by destruct texts. }
  rewrite bool_decide_eq_false_2 by
    (apply join_nonempty; [|done]; eapply Forall_impl; [exact Hparts|by intros ? []]).
  destruct (splitTopLevel_join line (column + 1) fields Hparts Hne) as (parts & -> & Hmap).
  cbn [mbind result_bind].
  rewrite (parse_fields_text parseValue line column parts entries texts); [done|done|done|done|done|].
  eapply Forall2_impl; [exact H|]. by intros [k x] t [? ?].
Qed.

Lemma reads_reference schema id t : isSchemaToken schema = true -> reads t id ->
  match id with varr _ | vobj _ => False | _ => True end ->
  reads (ch "&" :: schema ++ ch ":" :: t) (vobj [(txt "$ref", vstr schema); (txt "id", id)]).
Proof.
  intros Hs [Ht Hr] Hid. pose proof (token_units schema Hs) as [Hne _].
  assert (wire (ch "&" :: schema ++ ch ":" :: t)) as Hw.
  { replace (ch "&" :: schema ++ ch ":" :: t) with ((ch "&" :: schema ++ [ch ":"]) ++ t)
      by (cbn [app]; by rewrite <- app_assoc).
    apply wire_prefix; [|done]. cbn [forallb]. rewrite forallb_app, (token_solid schema) by done. done. }
  split; [done|]. intros line column.
  destruct (parse_wire _ _ line column Hw) as (final & _ & ->); [done|done|].
  change ((ch "&" =? ch "#")%N) with false. change ((ch "&" =? quote)%N) with false.
  change ((ch "&" =? ch "[")%N) with false. change ((ch "&" =? ch "{")%N) with false.
  change ((ch "&" =? ch "&")%N) with true. unfold parseReference.
  change (drop 1 (ch "&" :: schema ++ ch ":" :: t)) with (drop 0 (schema ++ ch ":" :: t)).
  rewrite drop_0. rewrite (findTopLevel_first (fun c => (c =? ch ":")%N) list_unit)
    by first [by apply token_no_colon|apply Ht|done].
  cbn [mbind result_bind]. destruct (length schema) as [|n] eqn:Hn; [by destruct schema|].
  rewrite <- Hn. rewrite take_app_length, Hs. cbn [negb throw_if mbind result_bind].
  replace (drop (length schema + 2) (ch "&" :: schema ++ ch ":" :: t)) with t.
  2: { replace (length schema + 2)%nat with (length (ch "&" :: schema) + 1)%nat by (cbn; lia).
       by rewrite app_comm_cons, drop_past. }
  rewrite bool_decide_eq_false_2 by (by apply wire_nonempty). cbn [throw_if mbind result_bind].
  rewrite Hr. cbn [mbind result_bind]. by destruct id.
Qed.

(** ** The round trip *)

Lemma mapM_ids {A B} (f : A -> oexc B) l r :
  mapM id (map f l) = Ok r -> Forall2 (fun x y => f x = Ok y) l r.
Proof. intros H%mapM_Forall2. by apply Forall2_fmap_l in H. Qed.

Lemma Forall2_Forall_impl {A B} (P : A -> Prop) (R S : A -> B -> Prop) l r :
  Forall P l -> (forall x y, P x -> R x y -> S x y) -> Forall2 R l r -> Forall2 S l r.
Proof.
  intros HP Himp H. induction H; [constructor|].
  apply Forall_cons in HP as [? ?]. constructor; auto.
Qed.

(** The encoded properties of an object. *)
Lemma encoded_fields entries texts :
  mapM (fun '(key, encoded) => t ← encoded; mret (encode_field key t))
    (map (fun '(k, x) => (k, encodeValue x)) entries) = Ok texts ->
  exists ts, Forall2 (fun f t => encodeValue f.2 = Ok t) entries ts /\
    texts = map (fun '(key, t) => encode_field key t) (zip entries.*1 ts).
Proof.
  intros H%mapM_Forall2. apply Forall2_fmap_l in H.
  induction H as [|[k x] y entries texts H _ (ts & Hts & ->)]; [by exists []|].
  cbn in H. apply bind_ok in H as (t & Ht & [= <-]). exists (t :: ts). by split; [constructor|].
Qed.

Lemma sorted_keys_map {A B} (f : A -> B) (entries : list (text * A)) :
  (map (fun '(k, x) => (k, f x)) entries).*1 = entries.*1.
Proof. induction entries as [|[k x] entries IH]; cbn; [done|]. by rewrite IH. Qed.

Lemma encode_reads v : forall t, value_ok v -> encodeValue v = Ok t -> reads t (decoded v).
Proof.
  induction v as [|o| |b|n|z|s|items IH|fields IH] using value_nested_ind; intros t Hok H;
    cbn [encodeValue] in H; apply bind_ok in H as ([] & Hser & H); try done.
  - injection H as <-. split; [by apply wire_solid|done].
  - injection H as <-. by destruct b; (split; [by apply wire_solid|done]).
  - injection H as <-. cbn [decoded]. apply reads_number; [done|].
    cbn [assertSerializable] in Hser. apply throw_if_ok in Hser. by apply negb_false_iff in Hser.
  - injection H as <-. apply reads_bigint.
  - injection H as <-. apply reads_string.
  - apply bind_ok in H as (texts & Htexts & [= <-]). apply mapM_ids in Htexts.
    cbn [decoded value_ok] in *. apply foldr_and_Forall in Hok.
    apply reads_array, Forall2_fmap_l. eapply Forall2_Forall_impl; [apply Forall_and; split; [exact IH|exact Hok]| |exact Htexts].
    cbn. intros v t [Hv Hvok] Ht. by apply Hv.
  - apply value_ok_fields in Hok as [Hnd Hoks]. cbn [decoded].
    destruct (isReference (vobj fields)) eqn:Href.
    + destruct (isReference_fields fields Href) as (ref & id & Hr & Hi & Hscalar).
      unfold encode_reference in H. rewrite Hr, jm_get_map, Hi in H. cbn [fmap option_fmap option_map] in H.
      apply seq_ok in H as [Htok%throw_if_ok%negb_false_iff H].
      apply bind_ok in H as (u & Hu & [= <-]).
      assert ((txt "id", id) ∈ fields) as Hin by by apply jm_get_Some_elem.
      rewrite Forall_forall in IH, Hoks.
      pose proof (IH _ Hin u (Hoks _ Hin) Hu) as Hread. cbn in Hread.
      unfold reference_text. rewrite Hr, Hi. cbn [or_else].
      apply reads_reference; [done| |done]. by destruct id.
    + apply bind_ok in H as (texts & Htexts & [= <-]).
      rewrite sorted_entries_map in Htexts. apply encoded_fields in Htexts as (ts & Hts & ->).
      rewrite sorted_entries_map.
      assert (forall f, f ∈ sorted_entries fields -> f ∈ fields) as Hsub
        by (intros f; apply sort_by_elem).
      rewrite <- (sorted_keys_map decoded). apply reads_object.
      * rewrite sorted_keys_map. by apply sorted_entries_keys.
      * apply Forall_fmap, Forall_forall. intros [k x] Hf%Hsub.
        by eapply assertSerializable_fields.
      * apply Forall2_fmap_l. eapply Forall2_Forall_impl; [|..|exact Hts].
        -- apply Forall_forall. intros f Hf%Hsub. rewrite Forall_forall in IH, Hoks.
           exact (conj (IH f Hf) (Hoks f Hf)).
        -- cbn. intros [k x] u [Hx Hxok] Hu. by apply Hx.
Qed.

(** C40: What is written is read back: the text of a serializable value is parsed,
    at any position of a stream, into the value with its keys in order and the
    schemas of its references as text. *)
Theorem parse_inverts_encode v t line column : value_ok v -> encodeValue v = Ok t ->
  parseValue t line column = Ok (decoded v).
Proof. intros Hok H. by apply encode_reads. Qed.
