(* ===== verification/OcfEqual.v ===== *)
(** Equality of values up to the order of object keys.

    The language gives an object's keys an order; the format's comparison,
    copies and text do not depend on it.  [norm] puts keys in order, and the
    lemmas relate [valuesEqual], [cloneValue] and [encodeValue] to it. *)

From Stdlib Require Import ZArith NArith Lia Ascii String Permutation Sorted.
From stdpp Require Import base strings list.
From S2P Require Import Prelude JsNumber JsString JsCollections JsText JsDecimal OcfValue OcfParse OcfRoundTrip.

Open Scope string_scope.
Open Scope list_scope.
#[local] Open Scope Z_scope.

(** ** Values with their keys in order *)

(** The value with every object's keys in order and [f] applied to its numbers. *)
Fixpoint norm_with (f : number -> number) (v : value) : value :=
  match v with
  | vnum n => vnum (f n)
  | varr items => varr (map (norm_with f) items)
  | vobj fields => vobj (sorted_entries (map (fun '(key, x) => (key, norm_with f x)) fields))
  | _ => v
  end.

Definition norm : value -> value := norm_with id.

(** [===] does not tell the zeros apart. *)
Definition merge_zero (n : number) : number := plain (num_of n).

Definition same (v w : value) : Prop := norm v = norm w.

#[export] Instance same_equivalence : Equivalence same.
Proof. split; unfold same; congruence || by intros ? ? ? -> . Qed.

(** ** Sorted entries *)

Lemma sorted_entries_idem {A} (fields : list (text * A)) :
  sorted_entries (sorted_entries fields) = sorted_entries fields.
Proof.
  apply sort_by_id, sort_by_sorted.
  - intros x y. apply text_le_total.
  - intros x y z. apply text_le_trans.
Qed.

Lemma sorted_entries_get {A} (fields : list (text * A)) key : NoDup fields.*1 ->
  jm_get (sorted_entries fields) key = jm_get fields key.
Proof.
  intros Hnd. pose proof (sorted_entries_keys fields Hnd) as Hnd'.
  apply option_eq. intros x. rewrite <- !jm_elem by done.
  unfold sorted_entries. apply sort_by_elem.
Qed.

(** Objects with the same properties have the same entries in order. *)
Lemma sorted_entries_permutation {A} (a b : list (text * A)) : NoDup a.*1 -> a ≡ₚ b ->
  sorted_entries a = sorted_entries b.
Proof.
  intros Ha Hp. apply sort_by_unique; [..|done].
  { intros x y. apply text_le_total. }
  { intros x y z. apply text_le_trans. }
  intros [k x] [k' y] Hx Hy H1 H2.
  assert (k = k') as <- by exact (text_le_antisym _ _ H1 H2).
  assert (jm_get a k = Some x) as Hgx by by apply jm_elem_get.
  assert (jm_get a k = Some y) as Hgy by by apply jm_elem_get.
  congruence.
Qed.

Lemma sorted_entries_same {A} (a b : list (text * A)) : NoDup a.*1 -> NoDup b.*1 ->
  (forall key, jm_get a key = jm_get b key) -> sorted_entries a = sorted_entries b.
Proof. intros Ha Hb H. apply sorted_entries_permutation; [done|]. by apply jm_same_Permutation. Qed.

Lemma sorted_entries_elem {A} (fields : list (text * A)) f :
  f ∈ sorted_entries fields <-> f ∈ fields.
Proof. apply sort_by_elem. Qed.

Lemma Object_entries_permutation {A} (fields : list (text * A)) : Object_entries fields ≡ₚ fields.
Proof.
  unfold Object_entries. rewrite (sort_by_Permutation index_le).
  induction fields as [|f fields IH]; [done|]. cbn [List.filter].
  destruct (is_index f.1); cbn [negb]; [by cbn; rewrite IH|].
  rewrite <- Permutation_middle. by rewrite IH.
Qed.

Lemma Object_entries_map {A B} (f : A -> B) (fields : list (text * A)) :
  Object_entries (map (fun '(k, x) => (k, f x)) fields) =
  map (fun '(k, x) => (k, f x)) (Object_entries fields).
Proof.
  unfold Object_entries. rewrite map_app, <- (sort_by_map index_le index_le) by by intros [] [].
  f_equal; [f_equal|]; induction fields as [|[k x] fields IH]; try done; cbn;
    destruct (is_index k); cbn; by rewrite ?IH.
Qed.

(** Assigning distinct keys in turn lists them in that order. *)
Lemma assign_all_id {A} (entries : list (text * A)) : NoDup entries.*1 -> assign_all entries = entries.
Proof.
  intros Hnd. unfold assign_all.
  assert (forall acc, NoDup (acc ++ entries).*1 ->
    foldl (fun object f => jm_set object f.1 f.2) acc entries = acc ++ entries) as H;
    [|by apply (H [])].
  clear Hnd. induction entries as [|[k x] entries IH]; intros acc Hnd; [by rewrite app_nil_r|].
  cbn [foldl]. rewrite jm_set_fresh.
  - rewrite IH; [by rewrite <- app_assoc|by rewrite <- app_assoc].
  - apply not_true_iff_false. rewrite jm_has_elem. intros Hin.
    rewrite fmap_app in Hnd. apply NoDup_app in Hnd as (_ & Hnd & _). apply (Hnd k Hin). by left.
Qed.

(** ** Serializable data *)

Definition safe (v : value) : Prop := assertSerializable v = Ok tt.

Lemma for_each_safe {A} (body : A -> oexc unit) l :
  for_each body l = Ok tt <-> Forall (fun x => body x = Ok tt) l.
Proof. rewrite for_each_ok. done. Qed.

Lemma safe_array items : safe (varr items) <-> Forall safe items.
Proof.
  unfold safe. cbn [assertSerializable]. rewrite for_each_safe.
  change (map assertSerializable items) with (assertSerializable <$> items).
  by rewrite Forall_fmap.
Qed.

Lemma safe_object fields :
  safe (vobj fields) <-> Forall (fun f => dangerousKeys f.1 = false /\ safe f.2) fields.
Proof.
  split.
  - intros H. apply Forall_forall. intros [k x] Hf. by eapply assertSerializable_fields.
  - intros H. unfold safe. cbn [assertSerializable]. apply for_each_safe.
    rewrite Object_entries_map, (Object_entries_permutation fields).
    change (map ?f fields) with (f <$> fields). apply Forall_fmap.
    eapply Forall_impl; [exact H|]. intros [k x] [Hk Hx]. cbn in *. by rewrite Hk.
Qed.

Lemma safe_field fields key x : safe (vobj fields) -> jm_get fields key = Some x ->
  dangerousKeys key = false /\ safe x.
Proof.
  rewrite safe_object, Forall_forall. intros H Hx%jm_get_Some_elem. by apply (H (key, x)).
Qed.

Lemma norm_fields_elem f fields (entry : text * value) :
  entry ∈ sorted_entries (map (fun '(key, x) => (key, norm_with f x)) fields) <->
  exists x, (entry.1, x) ∈ fields /\ entry.2 = norm_with f x.
Proof.
  rewrite sorted_entries_elem, list_elem_of_In, in_map_iff. split.
  - intros ([k x] & <- & Hin). exists x. by rewrite list_elem_of_In.
  - intros (x & Hin & Heq). exists (entry.1, x). rewrite <- list_elem_of_In. split; [|done].
    rewrite <- Heq. by destruct entry.
Qed.

Lemma safe_norm v : safe (norm v) <-> safe v.
Proof.
  induction v as [|o| |b|n|z|s|items IH|fields IH] using value_nested_ind; try done.
  - unfold norm. cbn [norm_with]. rewrite !safe_array. change (map ?f items) with (f <$> items).
    rewrite Forall_fmap. split; intros H; eapply Forall_impl; try (apply Forall_and; split;
      [exact IH|exact H]); cbn; tauto.
  - unfold norm. cbn [norm_with]. rewrite !safe_object, !Forall_forall. rewrite Forall_forall in IH.
    split.
    + intros H [k x] Hin. destruct (H (k, norm x)) as [Hd Hs].
      { apply norm_fields_elem. exists x. done. }
      split; [done|]. by apply (IH (k, x)).
    + intros H f (x & Hin & Heq)%norm_fields_elem. destruct (H _ Hin) as [Hd Hs].
      split; [done|]. rewrite Heq. by apply (IH (f.1, x)).
Qed.

#[export] Instance safe_proper : Proper (same ==> iff) safe.
Proof. intros v w H. rewrite <- (safe_norm v), <- (safe_norm w). by rewrite H. Qed.

(** ** Comparison *)

(** The members of [l] have the property, wherever they are listed. *)
Lemma Forall_sorted {A} (P : text * A -> Prop) fields :
  Forall P (sorted_entries fields) <-> Forall P fields.
Proof. unfold sorted_entries. by rewrite (sort_by_Permutation key_order fields). Qed.

Lemma merge_zero_eq a b : isFinite (num_of a) = true ->
  js_eq (num_of a) (num_of b) = true <-> merge_zero a = merge_zero b.
Proof.
  unfold merge_zero. destruct (num_of a) as [| | |x], (num_of b) as [| | |y]; try done.
  cbn. rewrite Z.eqb_eq. split; congruence.
Qed.

Lemma every2_map {A B C} (test : B -> A -> bool) (f g : A -> C) (h : A -> B) xs ys :
  Forall (fun x => forall y, test (h x) y = true <-> f x = g y) xs ->
  every2 test (map h xs) ys = true <-> map f xs = map g ys.
Proof.
  intros H. revert ys. induction H as [|x xs Hx _ IH]; intros [|y ys]; cbn; try done.
  rewrite andb_true_iff, Hx, IH. split; [by intros [-> ->]|by intros [= -> ->]].
Qed.

(** The code's comparison is equality up to the order of keys and the sign of zero. *)
Lemma valuesEqual_norm v : safe v -> forall w,
  valuesEqual v w = true <-> norm_with merge_zero v = norm_with merge_zero w.
Proof.
  induction v as [|o| |b|n|z|s|items IH|fields IH] using value_nested_ind; intros Hs w;
    destruct w; try done; cbn [valuesEqual norm_with].
  - rewrite bool_decide_eq_true. split; congruence.
  - unfold safe in Hs. cbn [assertSerializable] in Hs. apply throw_if_ok, negb_false_iff in Hs.
    rewrite merge_zero_eq by done. split; congruence.
  - rewrite Z.eqb_eq. split; congruence.
  - rewrite bool_decide_eq_true. split; congruence.
  - rewrite (every2_map _ (norm_with merge_zero) (norm_with merge_zero)).
    + split; [by intros ->|by intros [= ->]].
    + apply safe_array in Hs. eapply Forall_impl; [apply Forall_and; split; [exact IH|exact Hs]|].
      cbn. intros x [Hx Hsx] y. by apply Hx.
  - rewrite !sorted_entries_map.
    rewrite (every2_map _ (fun '(k, x) => (k, norm_with merge_zero x))
               (fun '(k, x) => (k, norm_with merge_zero x))).
    + split; [by intros ->|by intros [= ->]].
    + apply Forall_sorted. apply safe_object in Hs.
      eapply Forall_impl; [apply Forall_and; split; [exact IH|exact Hs]|].
      intros [k x] [Hx [_ Hsx]] [k' y]. cbn in *. rewrite andb_true_iff, bool_decide_eq_true, Hx by done.
      split; [by intros [-> ->]|by intros [= -> ->]].
Qed.

(** ** Well-formedness *)

Lemma value_ok_array items : value_ok (varr items) <-> Forall value_ok items.
Proof. apply foldr_and_Forall. Qed.

Lemma value_ok_norm v : value_ok v -> value_ok (norm v).
Proof.
  induction v as [|o| |b|n|z|s|items IH|fields IH] using value_nested_ind; try done.
  - unfold norm. cbn [norm_with]. rewrite !value_ok_array. intros H.
    change (map ?f items) with (f <$> items). rewrite Forall_fmap.
    eapply Forall_impl; [apply Forall_and; split; [exact IH|exact H]|]. cbn. tauto.
  - unfold norm. cbn [norm_with]. rewrite !value_ok_fields. intros [Hnd H]. split.
    + apply sorted_entries_keys. by rewrite sorted_keys_map.
    + apply Forall_sorted. change (map ?f fields) with (f <$> fields). rewrite Forall_fmap.
      eapply Forall_impl; [apply Forall_and; split; [exact IH|exact H]|].
      intros [k x] [Hx Hok]. cbn in *. by apply Hx.
Qed.

Lemma field_ok fields key x : value_ok (vobj fields) -> jm_get fields key = Some x -> value_ok x.
Proof.
  rewrite value_ok_fields, Forall_forall. intros [_ H] Hx%jm_get_Some_elem. by apply (H (key, x)).
Qed.

(** ** Copies *)

Lemma Forall_choose {A B} (R : A -> B -> Prop) l :
  Forall (fun x => exists y, R x y) l -> exists r, Forall2 R l r.
Proof.
  induction 1 as [|x l (y & Hy) _ (r & Hr)]; [by exists []|]. exists (y :: r). by constructor.
Qed.

Lemma Forall2_map_eq {A B C} (f : A -> C) (g : B -> C) l r :
  Forall2 (fun x y => f x = g y) l r -> map f l = map g r.
Proof. induction 1 as [|x y l r H _ IH]; [done|]. cbn. by rewrite H, IH. Qed.

(** A copy. *)
Record copy_of (v c : value) : Prop := { copy_same : same c v; copy_value_ok : value_ok c }.

Lemma cloneValue_copy v : safe v -> value_ok v -> exists c, cloneValue v = Ok c /\ copy_of v c.
Proof.
  induction v as [|o| |b|n|z|s|items IH|fields IH] using value_nested_ind; intros Hs Hok;
    try done; cbn [cloneValue]; rewrite Hs; cbn [mbind result_bind]; try by eexists.
  - apply safe_array in Hs. apply value_ok_array in Hok.
    destruct (Forall_choose (fun v c => cloneValue v = Ok c /\ copy_of v c) items) as (copies & Hc).
    { eapply Forall_impl;
        [apply Forall_and; split; [exact IH|apply Forall_and; split; [exact Hs|exact Hok]]|].
      cbn. intros v (IHv & Hsv & Hv). by apply IHv. }
    assert (mapM id (map cloneValue items) = Ok copies) as ->.
    { apply mapM_Forall2, Forall2_fmap_l. eapply Forall2_impl; [exact Hc|]. by intros v c []. }
    exists (varr copies). split; [done|]. split.
    + unfold same, norm. cbn [norm_with]. f_equal. symmetry. apply Forall2_map_eq.
      eapply Forall2_impl; [exact Hc|]. by intros v c (_ & [Hsame _]).
    + apply value_ok_array. clear -Hc. induction Hc as [|v c vs cs (_ & [_ ?]) _ IH]; by constructor.
  - apply safe_object in Hs. apply value_ok_fields in Hok as [Hnd Hok].
    pose proof (Object_entries_permutation fields) as Hperm.
    destruct (Forall_choose (fun f g => f.1 = g.1 /\ cloneValue f.2 = Ok g.2 /\ copy_of f.2 g.2)
      (Object_entries fields)) as (entries & Hc).
    { rewrite Hperm. eapply Forall_impl;
        [apply Forall_and; split; [exact IH|apply Forall_and; split; [exact Hs|exact Hok]]|].
      cbn. intros [k v] (IHv & [_ Hsv] & Hv). destruct (IHv Hsv Hv) as (c & Hc & Hcopy).
      by exists (k, c). }
    rewrite Object_entries_map.
    match goal with |- context [mapM ?f ?l] => assert (mapM f l = Ok entries) as -> end.
    { apply mapM_Forall2, Forall2_fmap_l. eapply Forall2_impl; [exact Hc|].
      intros [k v] [k' c] (Hk & Hv & _). cbn in *. rewrite Hv. by subst. }
    assert (entries.*1 = (Object_entries fields).*1) as Hkeys.
    { symmetry. apply Forall2_map_eq. eapply Forall2_impl; [exact Hc|]. by intros f g []. }
    assert (NoDup entries.*1) as Hnd' by by rewrite Hkeys, Hperm.
    cbn [mbind result_bind]. exists (vobj (assign_all entries)). split; [done|].
    rewrite assign_all_id by done. split.
    + unfold same, norm. cbn [norm_with]. f_equal.
      replace (map (fun '(key, x) => (key, norm_with id x)) entries)
        with (map (fun '(key, x) => (key, norm_with id x)) (Object_entries fields)).
      * apply sorted_entries_permutation; [by rewrite sorted_keys_map, Hperm|by rewrite Hperm].
      * apply Forall2_map_eq. eapply Forall2_impl; [exact Hc|].
        intros [k v] [k' c] (Hk & _ & [Hsame _]). cbn in *. unfold same, norm in Hsame. congruence.
    + apply value_ok_fields. split; [done|]. clear -Hc.
      induction Hc as [|f g fs gs (_ & _ & [_ ?]) _ IH]; by constructor.
Qed.

(** ** Text *)

Lemma norm_fields fields :
  norm (vobj fields) = vobj (map (fun '(k, x) => (k, norm x)) (sorted_entries fields)).
Proof. unfold norm. cbn [norm_with]. by rewrite sorted_entries_map. Qed.

Lemma norm_get fields key : NoDup fields.*1 ->
  jm_get (map (fun '(k, x) => (k, norm x)) (sorted_entries fields)) key = norm <$> jm_get fields key.
Proof. intros Hnd. by rewrite jm_get_map, sorted_entries_get. Qed.

Lemma isReference_norm fields : NoDup fields.*1 ->
  isReference (norm (vobj fields)) = isReference (vobj fields).
Proof.
  intros Hnd. rewrite norm_fields. cbn [isReference].
  rewrite sorted_entries_map, sorted_keys_map, sorted_entries_idem, !norm_get by done.
  f_equal. destruct (jm_get fields (txt "$ref")) as [ref|]; [|done].
  destruct (jm_get fields (txt "id")) as [id|]; [|by destruct ref]. by destruct ref, id.
Qed.

Lemma bind_iff {A B} (r r' : oexc A) (f : A -> oexc B) b :
  (forall a, r = Ok a <-> r' = Ok a) -> (r ≫= f) = Ok b <-> (r' ≫= f) = Ok b.
Proof.
  intros H. split; intros (a & Ha & Hb)%bind_ok; apply H in Ha; by rewrite Ha.
Qed.

Lemma encode_reference_norm ref id t :
  (forall u, encodeValue (norm id) = Ok u <-> encodeValue id = Ok u) ->
  encode_reference (Some (norm ref)) (Some (encodeValue (norm id))) = Ok t <->
  encode_reference (Some ref) (Some (encodeValue id)) = Ok t.
Proof.
  intros H. unfold encode_reference. destruct ref; cbn [norm norm_with];
    (destruct (throw_if _ _); [|done]); cbn [mbind result_bind];
    exact (bind_iff _ _ _ _ H).
Qed.

Lemma encode_object_ok fields t : safe (vobj fields) -> isReference (vobj fields) = false ->
  encodeValue (vobj fields) = Ok t <->
  exists texts, Forall2 (fun f u => encodeValue f.2 = Ok u) (sorted_entries fields) texts /\
    t = bracketed "{" "}" (map (fun '(key, u) => encode_field key u) (zip (sorted_entries fields).*1 texts)).
Proof.
  intros Hs Href. cbn [encodeValue]. rewrite Hs, Href. cbn [mbind result_bind].
  rewrite sorted_entries_map. split.
  - intros H. apply bind_ok in H as (texts & Htexts & [= <-]).
    apply encoded_fields in Htexts as (ts & Hts & ->). eauto.
  - intros (texts & H & ->).
    match goal with |- (parts ← mapM ?f ?l; _) = _ =>
      assert (mapM f l = Ok (map (fun '(key, u) => encode_field key u)
        (zip (sorted_entries fields).*1 texts))) as -> end; [|done].
    apply mapM_Forall2, Forall2_fmap_l. clear -H.
    induction H as [|[k x] u es us Hx _ IH]; constructor; [|done]. cbn in *. by rewrite Hx.
Qed.

(** Text does not depend on the order of keys. *)
Lemma encode_norm v : value_ok v -> forall t, encodeValue (norm v) = Ok t <-> encodeValue v = Ok t.
Proof.
  induction v as [|o| |b|n|z|s|items IH|fields IH] using value_nested_ind; intros Hok t; try done.
  - apply value_ok_array in Hok. unfold norm. cbn [norm_with]. fold norm.
    assert (safe (varr (map norm items)) <-> safe (varr items)) as Hsafe by apply (safe_norm (varr items)).
    assert (forall texts, mapM id (map encodeValue (map norm items)) = Ok texts <->
      mapM id (map encodeValue items) = Ok texts) as Hmap.
    { intros texts. rewrite map_map, !mapM_Forall2.
      change (map ?f items) with (f <$> items). rewrite !Forall2_fmap_l.
      split; apply Forall2_Forall_impl with (P := fun v => forall t, encodeValue (norm v) = Ok t <-> encodeValue v = Ok t);
        try (intros x y Hx; apply Hx);
        (eapply Forall_impl; [apply Forall_and; split; [exact IH|exact Hok]|]; cbn; tauto). }
    cbn [encodeValue]. unfold safe in Hsafe. split; intros [Hs H]%seq_ok; apply Hsafe in Hs; rewrite Hs;
      cbn [mbind result_bind]; apply bind_ok in H as (texts & Htexts%Hmap & <-); by rewrite Htexts.
  - pose proof Hok as [Hnd Hoks]%value_ok_fields.
    assert (forall f, f ∈ fields -> forall t, encodeValue (norm f.2) = Ok t <-> encodeValue f.2 = Ok t) as He.
    { rewrite Forall_forall in IH, Hoks. intros f Hf. apply (IH f Hf), (Hoks f Hf). }
    assert (safe (norm (vobj fields)) <-> safe (vobj fields)) as Hsafe by apply safe_norm.
    assert (forall w t, encodeValue w = Ok t -> safe w) as Henc
      by (intros [] u Hu; cbn [encodeValue] in Hu; by apply seq_ok in Hu as [Hu _]).
    pose proof (isReference_norm fields Hnd) as Href. rewrite norm_fields in *.
    destruct (isReference (vobj fields)) eqn:E.
    + destruct (isReference_fields fields E) as (ref & id & Hr & Hi & _).
      cbn [encodeValue]. rewrite E, Href, !jm_get_map, !sorted_entries_get, Hr, Hi by done.
      cbn [fmap option_fmap option_map]. unfold safe in Hsafe.
      assert (forall u, encodeValue (norm id) = Ok u <-> encodeValue id = Ok u) as Hid
        by apply (He (txt "id", id)), jm_get_Some_elem, Hi.
      split; intros [Hs H]%seq_ok; apply Hsafe in Hs; rewrite Hs; cbn [mbind result_bind];
        by apply (encode_reference_norm ref id t Hid).
    + split; intros H; pose proof (Henc _ _ H) as Hs; pose proof Hs as Hs'; apply Hsafe in Hs';
        (apply encode_object_ok in H as (texts & Htexts & ->); [|done|done]);
        (apply encode_object_ok; [done|done|]); exists texts;
        rewrite sorted_entries_map, sorted_keys_map, sorted_entries_idem, Forall2_fmap_l in *;
        (split; [|done]); (eapply Forall2_Forall_impl; [| |exact Htexts];
          [apply Forall_forall; intros f Hf; rewrite !sorted_entries_elem in Hf; exact (He f Hf)|]);
        intros [k x] u Hx; apply Hx.
Qed.

(** The same values have the same text. *)
Lemma encode_same v w t : value_ok v -> value_ok w -> same v w ->
  encodeValue v = Ok t -> encodeValue w = Ok t.
Proof.
  intros Hv Hw Hsame H. apply encode_norm; [done|]. rewrite <- Hsame. by apply encode_norm.
Qed.

(** ** A text identifies what a reader gets *)

Lemma isReference_decoded fields : NoDup fields.*1 -> isReference (vobj fields) = false ->
  isReference (vobj (map (fun '(k, x) => (k, decoded x)) (sorted_entries fields))) = false.
Proof.
  intros Hnd. cbn [isReference].
  rewrite sorted_entries_map, sorted_keys_map, sorted_entries_idem, !jm_get_map, !sorted_entries_get by done.
  rewrite !andb_false_iff. intros [H|H]; [by left|right]. revert H.
  destruct (jm_get fields (txt "$ref")) as [ref|]; [|done].
  destruct (jm_get fields (txt "id")) as [id|];
    destruct ref as [| | | | | | | |fs]; try (destruct id as [| | | | | | | |gs]);
    cbn [fmap option_fmap option_map decoded];
    repeat match goal with |- context [if ?b then _ else _] => destruct b end; done.
Qed.

Lemma safe_decoded v : safe v -> safe (decoded v).
Proof.
  induction v as [|o| |b|n|z|s|items IH|fields IH] using value_nested_ind; try done; intros Hs.
  - cbn [decoded]. apply safe_array in Hs. apply safe_array.
    change (map decoded items) with (decoded <$> items). rewrite Forall_fmap.
    eapply Forall_impl; [apply Forall_and; split; [exact IH|exact Hs]|]. cbn. tauto.
  - cbn [decoded]. destruct (isReference (vobj fields)) eqn:Href.
    + destruct (isReference_fields fields Href) as (ref & id & _ & Hi & _). rewrite Hi.
      destruct (safe_field _ _ _ Hs Hi) as [_ Hid]. apply safe_object.
      repeat (apply Forall_cons; split); [done|by split|constructor].
    + rewrite sorted_entries_map. apply safe_object. change (map ?f ?l) with (f <$> l).
      rewrite Forall_fmap. apply Forall_sorted. apply safe_object in Hs.
      eapply Forall_impl; [apply Forall_and; split; [exact IH|exact Hs]|].
      intros [k x] [Hx [Hd Hsx]]. cbn in *. auto.
Qed.

Lemma encode_safe v t : encodeValue v = Ok t -> safe v.
Proof. intros H. destruct v; cbn [encodeValue] in H; by apply seq_ok in H as [H _]. Qed.

Lemma encode_decoded v : forall t, value_ok v -> encodeValue v = Ok t -> encodeValue (decoded v) = Ok t.
Proof.
  induction v as [|o| |b|n|z|s|items IH|fields IH] using value_nested_ind; intros t Hok H; try done.
  - pose proof (safe_decoded _ (encode_safe _ _ H)) as Hs. cbn [decoded] in *.
    cbn [encodeValue] in *. rewrite Hs. cbn [mbind result_bind].
    apply seq_ok in H as [_ H]. apply bind_ok in H as (texts & Htexts%mapM_ids & [= <-]).
    assert (mapM id (map encodeValue (map decoded items)) = Ok texts) as ->; [|done].
    rewrite map_map. apply mapM_Forall2, Forall2_fmap_l. apply value_ok_array in Hok.
    eapply Forall2_Forall_impl; [apply Forall_and; split; [exact IH|exact Hok]| |exact Htexts].
    cbn. intros x u [Hx Hxok] Hu. by apply Hx.
  - pose proof Hok as [Hnd Hoks]%value_ok_fields. rewrite Forall_forall in IH, Hoks.
    pose proof (encode_safe _ _ H) as Hs. pose proof (safe_decoded _ Hs) as Hsd. cbn [decoded] in *.
    destruct (isReference (vobj fields)) eqn:Href.
    + destruct (isReference_fields fields Href) as (ref & id & Hr & Hi & Hscalar).
      cbn [encodeValue] in H. rewrite Href, Hs, jm_get_map, Hr, Hi in H. rewrite Hi in *.
      assert (isReference (vobj [(txt "$ref", vstr (reference_text fields)); (txt "id", id)]) = true) as Hd
        by (revert Href; cbn [isReference]; rewrite Hr, Hi; destruct id; try done;
            destruct ref; rewrite ?andb_false_r; done).
      cbn [encodeValue or_else] in *. rewrite Hsd, Hd. unfold reference_text. rewrite Hr.
      cbn [mbind result_bind] in *. cbn [map jm_get]. rewrite decide_True by done.
      rewrite decide_False by done. rewrite decide_True by done. cbn [or_else].
      cbn [fmap option_fmap option_map] in H. unfold encode_reference in *. by destruct ref.
    + apply encode_object_ok in H as (texts & Htexts & ->); [|done|done].
      rewrite sorted_entries_map in *. apply encode_object_ok; [done|by apply isReference_decoded|].
      exists texts. rewrite sorted_entries_map, sorted_keys_map, sorted_entries_idem. split; [|done].
      apply Forall2_fmap_l. eapply Forall2_Forall_impl; [|..|exact Htexts].
      * apply Forall_forall. intros f Hf. rewrite !sorted_entries_elem in Hf.
        exact (conj (IH f Hf) (Hoks f Hf)).
      * cbn. intros [k x] u [Hx Hxok] Hu. cbn in *. by apply Hx.
Qed.

(** [t] is the text of the well-formed value [v]. *)
Definition text_of (v : value) (t : text) : Prop := value_ok v /\ encodeValue v = Ok t.

(** C39: Canonical text: two serializable values have one text exactly when a
    reader gets the same value for both, so comparing texts compares data whatever
    the order in which keys were created. *)
Theorem text_identifies_data v w t u : text_of v t -> text_of w u ->
  t = u <-> decoded v = decoded w.
Proof.
  intros [Hv Ht] [Hw Hu]. split.
  - intros <-. destruct (encode_reads v t Hv Ht) as [_ H1].
    destruct (encode_reads w t Hw Hu) as [_ H2]. specialize (H1 1 1). specialize (H2 1 1). congruence.
  - intros Heq. apply encode_decoded in Ht, Hu; [|done|done]. congruence.
Qed.

Lemma norm_idem v : norm (norm v) = norm v.
Proof.
  induction v as [|o| |b|n|z|s|items IH|fields IH] using value_nested_ind; try done.
  - unfold norm in *. cbn [norm_with]. f_equal. rewrite map_map. apply map_ext_in.
    intros x Hx%list_elem_of_In. rewrite Forall_forall in IH. auto.
  - rewrite norm_fields at 1. rewrite norm_fields, sorted_entries_map, sorted_entries_idem, norm_fields.
    f_equal. rewrite map_map. apply map_ext_in. intros [k x] Hx%list_elem_of_In.
    rewrite sorted_entries_elem in Hx. rewrite Forall_forall in IH. f_equal. by apply (IH (k, x)).
Qed.
