(* ===== verification/OcfDelta.v ===== *)
(** Structural deltas between values: packages/context-format/src/delta.ts.

    The hash function is the platform's SHA-256, a parameter: the hexadecimal
    digest of a text.  A delta's object is its record; the arrays and objects it
    shares with its arguments are copies, so operations update a tree. *)

From Stdlib Require Import ZArith NArith Lia Ascii String.
From stdpp Require Import base strings list.
From S2P Require Import Prelude JsNumber JsString JsCollections JsText JsDecimal OcfValue OcfParse OcfRoundTrip OcfEqual.

Open Scope string_scope.
Open Scope list_scope.
#[local] Open Scope Z_scope.

(** The kind of an operation is text: a caller can pass any.
    Source: packages/context-format/src/types.ts:81-86 [OcfDeltaOperation]. *)
Record OcfDeltaOperation := Operation {
  op : text;
  op_path : text;
  op_value : option value
}.

(** Source: packages/context-format/src/types.ts:88-93 [OcfDelta]. *)
Record OcfDelta := Delta {
  format : text;
  baseHash : text;
  targetHash : text;
  operations : list OcfDeltaOperation
}.

Definition op_add : text := txt "add".
Definition op_remove : text := txt "remove".
Definition op_replace : text := txt "replace".
Definition delta_format : text := txt "ocf-delta/1".

(** ** Paths *)

(** [s.replaceAll(c, replacement)] for one unit. *)
Definition replace_all (c : N) (replacement s : text) : text :=
  flat_map (fun x => if (x =? c)%N then replacement else [x]) s.

(** Source: packages/context-format/src/delta.ts:26-28 [encodePathSegment]. *)
Definition encodePathSegment (segment : text) : text :=
  replace_all (ch "/") (txt "~1") (replace_all (ch "~") (txt "~0") segment).

(** The loop of [decodePathSegment].
    Source: packages/context-format/src/delta.ts:32-47 [decodePathSegment, loop]. *)
Fixpoint unescape_segment (segment : text) : oexc text :=
  match segment with
  | [] => mret []
  | c :: r =>
      if (c =? ch "~")%N then
        match r with
        | e :: r =>
            if (e =? ch "0")%N then s ← unescape_segment r; mret (ch "~" :: s)
            else if (e =? ch "1")%N then s ← unescape_segment r; mret (ch "/" :: s)
            else Throw (OcfError "invalid_delta_path")
        | [] => Throw (OcfError "invalid_delta_path")
        end
      else s ← unescape_segment r; mret (c :: s)
  end.

(** Source: packages/context-format/src/delta.ts:30-51 [decodePathSegment]. *)
Definition decodePathSegment (segment : text) : oexc text :=
  result ← unescape_segment segment;
  _ ← throw_if (dangerousKeys result) (OcfError "unsafe_key");
  mret result.

(** Source: packages/context-format/src/delta.ts:53-55 [joinPath]. *)
Definition joinPath (parent segment : text) : text := parent ++ ch "/" :: encodePathSegment segment.

(** Source: packages/context-format/src/delta.ts:57-65 [parsePath]. *)
Definition parsePath (path : text) : oexc (list text) :=
  match path with
  | [] => mret []
  | _ =>
      _ ← throw_if (negb (starts_with (ch "/") path)) (OcfError "invalid_delta_path");
      mapM decodePathSegment (split_on (ch "/") (drop 1 path))
  end.

(** ** Differences *)

Definition replaced (path : text) (target : value) : oexc (list OcfDeltaOperation) :=
  copy ← cloneValue target; mret [Operation op_replace path (Some copy)].

(** [[...new Set([...base, ...target])].sort()], of the keys of two objects. *)
Definition union_keys (base target : list text) : list text :=
  sort_by text_le (base ++ List.filter (fun k => negb (existsb (fun b => k === b) base)) target).

(** The operations of one key: [differ] compares the base's property with a
    target, if the base has the key. *)
Definition diff_key (differ : option (value -> text -> oexc (list OcfDeltaOperation)))
  (target : option value) (childPath : text) : oexc (list OcfDeltaOperation) :=
  match differ, target with
  | None, Some added =>
      copy ← cloneValue added; mret [Operation op_add childPath (Some copy)]
  | Some _, None => mret [Operation op_remove childPath None]
  | Some differ, Some target => differ target childPath
  | None, None => mret []
  end.

(** The operations pushed, in order.
    Source: packages/context-format/src/delta.ts:74-115 [diff]. *)
Fixpoint diff (base target : value) (path : text) : oexc (list OcfDeltaOperation) :=
  if valuesEqual base target then mret []
  else
    match base, target with
    | varr _, _ | _, varr _ => replaced path target
    | vobj baseFields, vobj targetFields =>
        let differs := map (fun '(key, x) => (key, diff x)) baseFields in
        pushed ← mapM (fun key =>
            diff_key (jm_get differs key) (jm_get targetFields key) (joinPath path key))
          (union_keys (jm_keys baseFields) (jm_keys targetFields));
        mret (concat pushed)
    | _, _ => replaced path target
    end.

(** ** Applying operations *)

(** Source: packages/context-format/src/delta.ts:177-195 [parseArrayIndex]. *)
Definition parseArrayIndex (segment : text) (length : nat) (allowAppend : bool) : oexc nat :=
  _ ← throw_if (negb (nonempty_all is_digit segment && no_leading_zero segment))
        (OcfError "invalid_delta_path");
  let index := num_of (Number_text segment) in
  let maximum := if allowAppend then Z.of_nat length else Z.of_nat length - 1 in
  _ ← throw_if (negb (isSafeInteger index) || (toZ index <? 0) || (maximum <? toZ index))
        (OcfError "invalid_delta_path");
  mret (Z.to_nat (toZ index)).

(** Walk to the parent of the last segment and change it with [change parent leaf].
    Source: packages/context-format/src/delta.ts:197-221 [resolveParent]. *)
Fixpoint resolveParent (change : value -> text -> oexc value) (current : value) (segments : list text)
  : oexc value :=
  match segments with
  | [] => Throw (OcfError "invalid_delta_path")
  | [leaf] => change current leaf
  | segment :: rest =>
      match current with
      | varr items =>
          index ← parseArrayIndex segment (length items) false;
          match items !! index with
          | Some child =>
              child ← resolveParent change child rest;
              mret (varr (<[index := child]> items))
          | None => Throw (OcfError "invalid_delta_path")
          end
      | vobj fields =>
          match jm_get fields segment with
          | Some child =>
              child ← resolveParent change child rest;
              mret (vobj (jm_set fields segment child))
          | None => Throw (OcfError "invalid_delta_path")
          end
      | _ => Throw (OcfError "invalid_delta_path")
      end
  end.

(** The value of an operation; [assertDelta] has checked that it is there. *)
Definition operation_value (operation : OcfDeltaOperation) : value :=
  op_value operation ?? vundefined.

(** The change of the parent.
    Source: packages/context-format/src/delta.ts:236-273 [applyOperation, parent]. *)
Definition change_parent (operation : OcfDeltaOperation) (parent : value) (leaf : text) : oexc value :=
  match parent with
  | varr items =>
      if op operation === op_add then
        index ← parseArrayIndex leaf (length items) true;
        copy ← cloneValue (operation_value operation);
        mret (varr (take index items ++ copy :: drop index items))
      else
        index ← parseArrayIndex leaf (length items) false;
        if op operation === op_remove then mret (varr (take index items ++ drop (S index) items))
        else
          copy ← cloneValue (operation_value operation);
          mret (varr (<[index := copy]> items))
  | vobj fields =>
      if op operation === op_add then
        _ ← throw_if (jm_has fields leaf) (OcfError "invalid_delta");
        copy ← cloneValue (operation_value operation);
        mret (vobj (jm_set fields leaf copy))
      else if op operation === op_remove then
        _ ← throw_if (negb (jm_has fields leaf)) (OcfError "invalid_delta_path");
        mret (vobj (jm_delete fields leaf))
      else
        _ ← throw_if (negb (jm_has fields leaf)) (OcfError "invalid_delta_path");
        copy ← cloneValue (operation_value operation);
        mret (vobj (jm_set fields leaf copy))
  | _ => Throw (OcfError "invalid_delta_path")
  end.

(** Source: packages/context-format/src/delta.ts:223-274 [applyOperation]. *)
Definition applyOperation (root : value) (operation : OcfDeltaOperation) : oexc value :=
  segments ← parsePath (op_path operation);
  match segments with
  | [] =>
      _ ← throw_if (op operation === op_remove) (OcfError "invalid_delta");
      cloneValue (operation_value operation)
  | _ => resolveParent (change_parent operation) root segments
  end.

Fixpoint apply_operations (root : value) (operations : list OcfDeltaOperation) : oexc value :=
  match operations with
  | [] => mret root
  | operation :: rest => root ← applyOperation root operation; apply_operations root rest
  end.

(** ** Checks *)

(** [/^sha256:[a-f0-9]{64}$/] *)
Definition is_hash (s : text) : bool :=
  (take 7 s === txt "sha256:") && (length s =? 71)%nat &&
  forallb (fun c => within 97 102 c || is_digit c) (drop 7 s).

Definition value_undefined (v : option value) : bool :=
  match v with None | Some vundefined => true | _ => false end.

(** Source: packages/context-format/src/delta.ts:142-168 [assertDelta, operation]. *)
Definition assertOperation (operation : OcfDeltaOperation) : oexc unit :=
  _ ← throw_if ((op operation !== op_add) && (op operation !== op_remove) &&
                (op operation !== op_replace)) (OcfError "invalid_delta");
  _ ← parsePath (op_path operation);
  if op operation === op_remove then
    throw_if (negb (value_undefined (op_value operation))) (OcfError "invalid_delta")
  else
    _ ← throw_if (value_undefined (op_value operation)) (OcfError "invalid_delta");
    assertSerializable (operation_value operation).

(** Source: packages/context-format/src/delta.ts:133-169 [assertDelta]. *)
Definition assertDelta (delta : OcfDelta) : oexc unit :=
  _ ← throw_if (format delta !== delta_format) (OcfError "invalid_delta");
  _ ← throw_if (negb (is_hash (baseHash delta)) || negb (is_hash (targetHash delta)))
        (OcfError "invalid_delta");
  for_each assertOperation (operations delta).

Section Hash.
(** [createHash("sha256").update(text, "utf8").digest("hex")] *)
Context (sha256_hex : text -> text).

(** Source: packages/context-format/src/delta.ts:16-18 [hashText]. *)
Definition hashText (s : text) : text := txt "sha256:" ++ sha256_hex s.

(** Source: packages/context-format/src/delta.ts:21-24 [hashOcfValue]. *)
Definition hashOcfValue (v : value) : oexc text :=
  _ ← assertSerializable v;
  encoded ← encodeValue v;
  mret (hashText encoded).

(** Source: packages/context-format/src/delta.ts:118-131 [createDelta]. *)
Definition createDelta (base target : value) : oexc OcfDelta :=
  _ ← assertSerializable base;
  _ ← assertSerializable target;
  operations ← diff base target [];
  baseHash ← hashOcfValue base;
  targetHash ← hashOcfValue target;
  mret (Delta delta_format baseHash targetHash operations).

(** Source: packages/context-format/src/delta.ts:277-298 [applyDelta]. *)
Definition applyDelta (base : value) (delta : OcfDelta) : oexc value :=
  _ ← assertSerializable base;
  _ ← assertDelta delta;
  actualBaseHash ← hashOcfValue base;
  _ ← throw_if (actualBaseHash !== baseHash delta) (OcfError "delta_base_mismatch");
  copy ← cloneValue base;
  result ← apply_operations copy (operations delta);
  actualTargetHash ← hashOcfValue result;
  _ ← throw_if (actualTargetHash !== targetHash delta) (OcfError "delta_target_mismatch");
  mret result.
End Hash.

(** ** The stream of a delta *)

(** A line's parts; the column of a part is its offset and 1.
    Source: packages/context-format/src/delta.ts:300-334 [splitLine]. *)
Definition splitLine (source : text) (line : Z) : oexc (list SplitPart) :=
  split_loop (ch "|") (fun _ => None)
    (fun st => if in_string st || negb (depth st =? 0)
               then Some (OcfParseError "malformed_delta" line (Z.of_nat (length source) + 1))
               else None)
    outside source 0 0 [].

(** Source: packages/context-format/src/delta.ts:344-351 [encodeDelta, operation]. *)
Definition encode_operation (operation : OcfDeltaOperation) : oexc text :=
  path ← encodeValue (vstr (op_path operation));
  let head := txt "op|" ++ op operation ++ ch "|" :: path in
  if op operation === op_remove then mret head
  else
    encoded ← encodeValue (operation_value operation);
    mret (head ++ ch "|" :: encoded).

(** Source: packages/context-format/src/delta.ts:337-353 [encodeDelta]. *)
Definition encodeDelta (delta : OcfDelta) : oexc text :=
  _ ← assertDelta delta;
  lines ← mapM encode_operation (operations delta);
  mret (join_with newline
    (txt "!ocf-delta/1" :: (txt "base|" ++ baseHash delta) ::
     (txt "target|" ++ targetHash delta) :: lines)).

(** One operation line.
    Source: packages/context-format/src/delta.ts:382-425 [decodeDelta, operation]. *)
Definition decode_operation (source : text) (line : Z) : oexc OcfDeltaOperation :=
  parts ← splitLine source line;
  match parts with
  | op_part :: kind_part :: path_part :: value_parts =>
      _ ← throw_if ((part_text op_part !== txt "op") || (1 <? length value_parts)%nat)
            (OcfParseError "invalid_delta" line 1);
      let kind := part_text kind_part in
      _ ← throw_if ((kind !== op_add) && (kind !== op_remove) && (kind !== op_replace))
            (OcfParseError "invalid_delta" line 1);
      _ ← throw_if (bool_decide (kind = op_remove) && negb (value_parts === []) ||
                    bool_decide (kind <> op_remove) && (value_parts === []))
            (OcfParseError "invalid_delta" line 1);
      pathValue ← parseValue (part_text path_part) line (part_offset path_part + 1);
      match pathValue with
      | vstr path =>
          match value_parts with
          | value_part :: _ =>
              x ← parseValue (part_text value_part) line (part_offset value_part + 1);
              mret (Operation kind path (Some x))
          | [] => mret (Operation kind path None)
          end
      | _ => Throw (OcfParseError "invalid_delta" line 1)
      end
  | _ => Throw (OcfParseError "invalid_delta" line 1)
  end.

Fixpoint decode_operations (lines : list text) (line : Z) : oexc (list OcfDeltaOperation) :=
  match lines with
  | [] => mret []
  | source :: lines =>
      operation ← decode_operation source line;
      rest ← decode_operations lines (line + 1);
      mret (operation :: rest)
  end.

(** [text.replaceAll("\r\n", "\n").split("\n")], without a last empty line. *)
Definition text_lines (s : text) : list text :=
  let lines := split_on newline (normalize_newlines s) in
  match last lines with
  | Some [] => removelast lines
  | _ => lines
  end.

(** The hash of a header line [name|hash].
    Source: packages/context-format/src/delta.ts:369-380 [decodeDelta, header]. *)
Definition header_hash (name : string) (parts : list SplitPart) : oexc text :=
  match parts with
  | [label; hash] =>
      _ ← throw_if (part_text label !== txt name) (OcfParseError "invalid_delta" 2 1);
      mret (part_text hash)
  | _ => Throw (OcfParseError "invalid_delta" 2 1)
  end.

(** Source: packages/context-format/src/delta.ts:356-434 [decodeDelta]. *)
Definition decodeDelta (s : text) : oexc OcfDelta :=
  let lines := text_lines s in
  _ ← throw_if (head lines !== Some (txt "!ocf-delta/1")) (OcfParseError "invalid_delta" 1 1);
  match lines with
  | _ :: baseLine :: targetLine :: operationLines =>
      baseParts ← splitLine baseLine 2;
      targetParts ← splitLine targetLine 3;
      base ← header_hash "base" baseParts;
      target ← header_hash "target" targetParts;
      operations ← decode_operations operationLines 4;
      let delta := Delta delta_format base target operations in
      _ ← assertDelta delta;
      mret delta
  | _ => Throw (OcfParseError "truncated_delta" (Z.of_nat (length lines) + 1) 1)
  end.

(** ** Hashes *)

Lemma hashOcfValue_ok sha256_hex v h : hashOcfValue sha256_hex v = Ok h <->
  exists t, encodeValue v = Ok t /\ h = hashText sha256_hex t.
Proof.
  unfold hashOcfValue. split.
  - intros [Hs H]%seq_ok. apply bind_ok in H as (t & Ht & [= <-]). eauto.
  - intros (t & Ht & ->). pose proof (encode_safe _ _ Ht) as Hs. rewrite Hs. cbn. by rewrite Ht.
Qed.

(** A delta is only applied to its own base and only returns its own target: a
    base with another hash, or operations that lead elsewhere, are rejected. *)
Theorem applyDelta_checks_hashes sha256_hex base d r : applyDelta sha256_hex base d = Ok r ->
  hashOcfValue sha256_hex base = Ok (baseHash d) /\ hashOcfValue sha256_hex r = Ok (targetHash d) /\
  safe r /\ assertDelta d = Ok tt.
Proof.
  unfold applyDelta. intros [_ H]%seq_ok. apply seq_ok in H as [Hcheck H].
  apply bind_ok in H as (hb & Hhb & H). apply seq_ok in H as [Eb%throw_if_ok H].
  apply negb_false_iff, bool_decide_eq_true in Eb as ->.
  apply bind_ok in H as (c & Hc & H). apply bind_ok in H as (result & Hresult & H).
  apply bind_ok in H as (ht & Hht & H). apply seq_ok in H as [Et%throw_if_ok H].
  apply negb_false_iff, bool_decide_eq_true in Et as ->. injection H as ->.
  split; [done|]. split; [done|]. split; [|done].
  apply hashOcfValue_ok in Hht as (t & Ht & _). by eapply encode_safe.
Qed.
