(* ===== verification/OcfPatch.v ===== *)
(** Deltas reconstruct their target.

    The operations [diff] pushes, applied to any value that equals the base up to
    the order of keys, give the target up to the order of keys; and the stream of
    a delta carries them. *)

From Stdlib Require Import ZArith NArith Lia Ascii String Permutation.
From stdpp Require Import base strings list.
From S2P Require Import Prelude JsNumber JsString JsCollections JsText JsDecimal OcfValue OcfParse OcfRoundTrip OcfEqual OcfDelta.

Open Scope string_scope.
Open Scope list_scope.
#[local] Open Scope Z_scope.

(** ** Paths *)

Definition path_of (segments : list text) : text :=
  concat (map (fun s => ch "/" :: encodePathSegment s) segments).

Lemma path_of_snoc segments s : path_of (segments ++ [s]) = joinPath (path_of segments) s.
Proof. unfold path_of, joinPath. rewrite map_app, concat_app. cbn. by rewrite app_nil_r. Qed.

(** The two replacements escape each unit once. *)
Definition escape_segment_unit (c : N) : text :=
  if (c =? ch "~")%N then txt "~0" else if (c =? ch "/")%N then txt "~1" else [c].

Lemma encodePathSegment_units s : encodePathSegment s = flat_map escape_segment_unit s.
Proof.
  unfold encodePathSegment, replace_all. induction s as [|c s IH]; [done|].
  cbn [flat_map]. rewrite flat_map_app, IH. f_equal. unfold escape_segment_unit.
  destruct (N.eqb_spec c (ch "~")) as [->|]; [done|]. cbn [flat_map].
  destruct (N.eqb_spec c (ch "/")); by rewrite ?app_nil_r.
Qed.

Lemma unescape_encoded s : unescape_segment (encodePathSegment s) = Ok s.
Proof.
  rewrite encodePathSegment_units. induction s as [|c s IH]; [done|]. cbn [flat_map].
  unfold escape_segment_unit at 1. destruct (N.eqb_spec c (ch "~")) as [->|Ht].
  - change (txt "~0") with [ch "~"; ch "0"]. cbn [app unescape_segment]. rewrite !N.eqb_refl. by rewrite IH.
  - destruct (N.eqb_spec c (ch "/")) as [->|Hs].
    + change (txt "~1") with [ch "~"; ch "1"]. cbn [app unescape_segment]. rewrite !N.eqb_refl.
      change ((ch "1" =? ch "0")%N) with false. by rewrite IH.
    + cbn [app unescape_segment]. rewrite (proj2 (N.eqb_neq _ _)) by done. by rewrite IH.
Qed.

Lemma encoded_no_slash s : ch "/" ∉ encodePathSegment s.
Proof.
  rewrite encodePathSegment_units. induction s as [|c s IH]; [by apply not_elem_of_nil|].
  cbn [flat_map]. rewrite not_elem_of_app. split; [|done]. unfold escape_segment_unit at 1.
  destruct (N.eqb_spec c (ch "~")); [|destruct (N.eqb_spec c (ch "/"))];
    rewrite ?list_elem_of_In; cbn; intuition discriminate || congruence.
Qed.

Definition keys_safe (segments : list text) : Prop := Forall (fun s => dangerousKeys s = false) segments.

Lemma path_of_join segments : segments <> [] ->
  path_of segments = ch "/" :: join_with (ch "/") (map encodePathSegment segments).
Proof.
  intros H. induction segments as [|s segments IH]; [done|]. unfold path_of in *. cbn [map concat].
  destruct segments as [|s' segments]; [cbn; by rewrite app_nil_r|]. rewrite IH by done. done.
Qed.

(** A path is parsed into the keys it was joined from. *)
Lemma parsePath_path_of segments : keys_safe segments -> parsePath (path_of segments) = Ok segments.
Proof.
  intros H. destruct (decide (segments = [])) as [->|Hne]; [done|].
  rewrite path_of_join by done. unfold parsePath. cbn [starts_with]. rewrite N.eqb_refl.
  cbn [negb throw_if mbind result_bind drop]. rewrite drop_0, split_join.
  - apply mapM_Forall2. change (map ?f ?l) with (f <$> l). apply Forall2_fmap_l. clear Hne.
    induction H as [|s segments Hs _ IH]; constructor; [|done].
    cbn [compose]. unfold decodePathSegment. rewrite unescape_encoded.
    cbn [mbind result_bind]. by rewrite Hs.
  - by destruct segments.
  - change (map ?f ?l) with (f <$> l). apply Forall_fmap, Forall_forall. intros s _.
    apply encoded_no_slash.
Qed.

(** ** A place in a value, reached through objects *)

Fixpoint focus (root : value) (segments : list text) : option value :=
  match segments with
  | [] => Some root
  | s :: rest =>
      match root with
      | vobj fields => child ← jm_get fields s; focus child rest
      | _ => None
      end
  end.

(** The value with the place replaced. *)
Fixpoint refocus (root : value) (segments : list text) (v : value) : value :=
  match segments with
  | [] => v
  | s :: rest =>
      match root with
      | vobj fields =>
          match jm_get fields s with
          | Some child => vobj (jm_set fields s (refocus child rest v))
          | None => root
          end
      | _ => root
      end
  end.

Lemma focus_snoc root segments s : focus root (segments ++ [s]) =
  match focus root segments with
  | Some (vobj fields) => jm_get fields s
  | _ => None
  end.
Proof.
  revert root. induction segments as [|s' segments IH]; intros root; cbn [app focus].
  - destruct root; try done. by destruct (jm_get fields s).
  - destruct root; try done. destruct (jm_get fields s'); [|done]. apply IH.
Qed.

Lemma focus_refocus root segments v w : focus root segments = Some w ->
  focus (refocus root segments v) segments = Some v.
Proof.
  revert root. induction segments as [|s segments IH]; intros root; cbn [focus refocus]; [done|].
  destruct root as [| | | | | | | |fields]; try done. destruct (jm_get fields s) as [child|] eqn:E; [|done].
  cbn. intros H. rewrite jm_get_set_eq. cbn. by apply IH.
Qed.

Lemma jm_set_set {V} (m : list (text * V)) k v w : jm_set (jm_set m k v) k w = jm_set m k w.
Proof.
  induction m as [|[k' x] m IH]; cbn [jm_set]; [by rewrite decide_True|].
  destruct (decide (k' = k)) as [->|]; cbn [jm_set]; [by rewrite decide_True|].
  rewrite decide_False by done. by rewrite IH.
Qed.

Lemma refocus_refocus root segments v w : refocus (refocus root segments v) segments w = refocus root segments w.
Proof.
  revert root. induction segments as [|s segments IH]; intros root; cbn [refocus]; [done|].
  destruct root as [| | | | | | | |fields]; try done.
  destruct (jm_get fields s) as [child|] eqn:E; [|by rewrite E].
  rewrite jm_get_set_eq, jm_set_set. by rewrite IH.
Qed.

(** Replacing a property is replacing its object. *)
Lemma refocus_snoc root segments s fields child v :
  focus root segments = Some (vobj fields) -> jm_get fields s = Some child ->
  refocus root (segments ++ [s]) v = refocus root segments (vobj (jm_set fields s v)).
Proof.
  revert root. induction segments as [|s' segments IH]; intros root; cbn [app focus refocus].
  - intros [= ->] H. by rewrite H.
  - destruct root as [| | | | | | | |fs]; try done. destruct (jm_get fs s'); [|done]. cbn.
    intros H1 H2. by rewrite IH.
Qed.

Lemma resolveParent_step change fields s rest child : rest <> [] ->
  jm_get fields s = Some child ->
  resolveParent change (vobj fields) (s :: rest) =
    (child ← resolveParent change child rest; mret (vobj (jm_set fields s child))).
Proof. intros Hne Hs. destruct rest; [done|]. cbn [resolveParent]. by rewrite Hs. Qed.

(** The walk to the parent. *)
Lemma resolveParent_focus change root segments leaf fields :
  focus root segments = Some (vobj fields) ->
  resolveParent change root (segments ++ [leaf]) =
    (parent ← change (vobj fields) leaf; mret (refocus root segments parent)).
Proof.
  revert root. induction segments as [|s segments IH]; intros root; cbn [app focus refocus].
  - intros [= ->]. cbn. by destruct (change (vobj fields) leaf).
  - destruct root as [| | | | | | | |fs]; try done.
    destruct (jm_get fs s) as [child|] eqn:E; [|done]. cbn [mbind option_bind]. intros H.
    rewrite (resolveParent_step _ _ _ _ child), IH by (done || by destruct segments). by destruct (change (vobj fields) leaf).
Qed.

(** ** One operation *)

(** An operation with the same effect: its value may order keys differently. *)
Definition value_same (v v' : option value) : Prop :=
  match v, v' with
  | Some v, Some v' => same v' v /\ value_ok v'
  | None, None => True
  | _, _ => False
  end.

Definition op_same (o o' : OcfDeltaOperation) : Prop :=
  op o' = op o /\ op_path o' = op_path o /\ value_same (op_value o) (op_value o').

(** An operation that the code's check accepts and whose value is well formed. *)
Definition checked (o : OcfDeltaOperation) : Prop :=
  assertOperation o = Ok tt /\ forall v, op_value o = Some v -> value_ok v.

Lemma applyOperation_leaf root operation segments leaf fields :
  op_path operation = path_of (segments ++ [leaf]) -> keys_safe (segments ++ [leaf]) ->
  focus root segments = Some (vobj fields) ->
  applyOperation root operation =
    (parent ← change_parent operation (vobj fields) leaf; mret (refocus root segments parent)).
Proof.
  intros Hp Hk Hf. unfold applyOperation. rewrite Hp, parsePath_path_of by done.
  cbn [mbind result_bind]. destruct (segments ++ [leaf]) eqn:E; [by destruct segments|].
  rewrite <- E. by apply resolveParent_focus.
Qed.

Lemma jm_has_match {V} (m : list (text * V)) k :
  jm_has m k = match jm_get m k with Some _ => true | None => false end.
Proof. done. Qed.

Lemma apply_replace root segments b v c operation : keys_safe segments ->
  op operation = op_replace -> op_path operation = path_of segments -> op_value operation = Some v ->
  focus root segments = Some b -> cloneValue v = Ok c ->
  applyOperation root operation = Ok (refocus root segments c).
Proof.
  intros Hk Ho Hp Hv Hf Hc. destruct segments as [|leaf segments _] using rev_ind.
  - unfold applyOperation. rewrite Hp. cbn [path_of map concat parsePath]. cbn [mbind result_bind mret result_ret].
    rewrite Ho. unfold operation_value. rewrite Hv. exact Hc.
  - rewrite focus_snoc in Hf. destruct (focus root segments) as [[| | | | | | | |fields]|] eqn:Ef; try done.
    rewrite (applyOperation_leaf root operation segments leaf fields) by done.
    unfold change_parent. rewrite Ho. cbn [op_replace]. unfold operation_value. rewrite Hv.
    rewrite !bool_decide_eq_false_2 by done. rewrite jm_has_match, Hf. cbn [negb throw_if mbind result_bind].
    cbn [or_else]. rewrite Hc. cbn [mbind result_bind mret result_ret].
    f_equal. symmetry. by eapply refocus_snoc.
Qed.

Lemma apply_add root segments key fields v c operation : keys_safe (segments ++ [key]) ->
  op operation = op_add -> op_path operation = path_of (segments ++ [key]) ->
  op_value operation = Some v -> focus root segments = Some (vobj fields) ->
  jm_get fields key = None -> cloneValue v = Ok c ->
  applyOperation root operation = Ok (refocus root segments (vobj (jm_set fields key c))).
Proof.
  intros Hk Ho Hp Hv Hf Hg Hc. rewrite (applyOperation_leaf root operation segments key fields) by done.
  unfold change_parent. rewrite Ho. rewrite bool_decide_eq_true_2 by done.
  rewrite jm_has_match, Hg. cbn [throw_if mbind result_bind]. unfold operation_value. rewrite Hv.
  cbn [or_else]. by rewrite Hc.
Qed.

Lemma apply_remove root segments key fields x operation : keys_safe (segments ++ [key]) ->
  op operation = op_remove -> op_path operation = path_of (segments ++ [key]) ->
  focus root segments = Some (vobj fields) -> jm_get fields key = Some x ->
  applyOperation root operation = Ok (refocus root segments (vobj (jm_delete fields key))).
Proof.
  intros Hk Ho Hp Hf Hg. rewrite (applyOperation_leaf root operation segments key fields) by done.
  unfold change_parent. rewrite Ho. rewrite bool_decide_eq_false_2 by done.
  rewrite bool_decide_eq_true_2 by done. by rewrite jm_has_match, Hg.
Qed.

(** ** Objects up to the order of keys *)

Lemma same_object a b : NoDup a.*1 -> NoDup b.*1 ->
  same (vobj a) (vobj b) <-> forall key, norm <$> jm_get a key = norm <$> jm_get b key.
Proof.
  intros Ha Hb. unfold same. split.
  - rewrite !norm_fields. intros [= Heq] key. apply (f_equal (fun m => jm_get m key)) in Heq.
    by rewrite !norm_get in Heq.
  - intros H. unfold norm. cbn [norm_with]. f_equal. apply sorted_entries_same.
    + by rewrite sorted_keys_map.
    + by rewrite sorted_keys_map.
    + intros key. rewrite !jm_get_map. apply H.
Qed.

Lemma same_vobj v fields : same v (vobj fields) -> exists fields', v = vobj fields'.
Proof. unfold same. destruct v; try done. eauto. Qed.

Lemma object_set fields key x : value_ok (vobj fields) -> value_ok x ->
  value_ok (vobj (jm_set fields key x)).
Proof.
  rewrite !value_ok_fields. intros [Hnd H] Hx. split; [by apply jm_set_NoDup|].
  induction fields as [|[k y] fields IH]; cbn [jm_set]; [by repeat constructor|].
  apply Forall_cons in H as [Hy H]. apply NoDup_cons in Hnd as [_ Hnd].
  destruct (decide (k = key)); constructor; auto.
Qed.

Lemma object_delete fields key : value_ok (vobj fields) -> value_ok (vobj (jm_delete fields key)).
Proof.
  rewrite !value_ok_fields. intros [Hnd H]. unfold jm_delete. split.
  - by apply NoDup_map_filter.
  - by apply Forall_filter_b.
Qed.

(** ** Data without negative zeros *)

Fixpoint minus_zero_free (v : value) : bool :=
  match v with
  | vnum n => n !== minus_zero
  | varr items => forallb minus_zero_free items
  | vobj fields => forallb (fun '(_, x) => minus_zero_free x) fields
  | _ => true
  end.

(** Serializable, well formed, and without negative zeros, which the code's
    comparison takes for zeros although their texts differ. *)
Record data (v : value) : Prop := {
  data_safe : safe v;
  data_ok : value_ok v;
  data_zero : minus_zero_free v = true }.

Lemma minus_zero_free_norm v : minus_zero_free v = true -> norm_with merge_zero v = norm v.
Proof.
  unfold norm. induction v as [|o| |b|n|z|s|items IH|fields IH] using value_nested_ind; try done;
    cbn [minus_zero_free norm_with].
  - rewrite negb_true_iff, bool_decide_eq_false. by destruct n.
  - rewrite forallb_elem. intros H. f_equal. apply map_ext_in. intros x Hx%list_elem_of_In.
    rewrite Forall_forall in IH. auto.
  - rewrite forallb_elem. intros H. do 2 f_equal. apply map_ext_in. intros [k x] Hx%list_elem_of_In.
    rewrite Forall_forall in IH. f_equal. apply (IH _ Hx), (H _ Hx).
Qed.

Lemma valuesEqual_same v w : data v -> data w -> valuesEqual v w = true <-> same v w.
Proof.
  intros Hv Hw. rewrite valuesEqual_norm by apply Hv.
  rewrite !minus_zero_free_norm by (apply Hv || apply Hw). done.
Qed.

Lemma data_field fields key x : data (vobj fields) -> jm_get fields key = Some x ->
  data x /\ dangerousKeys key = false.
Proof.
  intros [Hs Hok Hz] Hx. destruct (safe_field _ _ _ Hs Hx) as [Hd Hsx]. split; [|done]. split.
  - done.
  - by eapply field_ok.
  - cbn [minus_zero_free] in Hz. rewrite forallb_elem in Hz.
    apply jm_get_Some_elem in Hx. by apply (Hz (key, x)).
Qed.

Lemma data_copy v : data v -> exists c, cloneValue v = Ok c /\ copy_of v c.
Proof. intros H. apply cloneValue_copy; apply H. Qed.

(** ** What [diff] pushes *)

(** The operations pushed for [base] and [target] at a place: the code's check
    accepts them, and applied where a value equal to [base] is, in any form with
    the same effect, they leave a value equal to [target]. *)
Definition patches (base target : value) (segments : list text) : Prop :=
  exists ops, diff base target (path_of segments) = Ok ops /\ Forall checked ops /\
    forall ops' root b, Forall2 op_same ops ops' -> focus root segments = Some b ->
      same b base -> value_ok b ->
      exists r, apply_operations root ops' = Ok (refocus root segments r) /\
        same r target /\ value_ok r.

Lemma refocus_same root segments b : focus root segments = Some b -> refocus root segments b = root.
Proof.
  revert root. induction segments as [|s segments IH]; intros root; cbn [focus refocus].
  - by intros [= ->].
  - destruct root as [| | | | | | | |fields]; try done.
    destruct (jm_get fields s) as [child|] eqn:E; [|done]. cbn [mbind option_bind]. intros H.
    rewrite IH by done. f_equal. clear -E. induction fields as [|[k x] fields IH]; [done|].
    cbn [jm_get jm_set] in *. destruct (decide (k = s)) as [->|]; [congruence|]. by rewrite IH.
Qed.

Lemma patches_equal base target segments : data base -> data target ->
  valuesEqual base target = true -> patches base target segments.
Proof.
  intros Hb Ht He. exists []. split; [by destruct base; cbn [diff]; rewrite He|]. split; [done|].
  intros ops' root b H Hf Hsame Hok. inversion H; subst. exists b. cbn [apply_operations].
  rewrite refocus_same by done. split; [done|]. split; [|done].
  apply valuesEqual_same in He; [|done|done]. by rewrite Hsame.
Qed.

Lemma checked_value o segments v : keys_safe segments ->
  o = op_add \/ o = op_replace -> safe v -> value_ok v ->
  checked (Operation o (path_of segments) (Some v)).
Proof.
  intros Hk Ho Hs Hok. split; [|by intros ? [= <-]]. unfold assertOperation. cbn [op op_path op_value].
  assert (value_undefined (Some v) = false) as Hv by (by destruct v).
  rewrite parsePath_path_of, Hv by done. destruct Ho as [->| ->]; exact Hs.
Qed.

Lemma checked_remove segments : keys_safe segments ->
  checked (Operation op_remove (path_of segments) None).
Proof.
  intros Hk. split; [|done]. unfold assertOperation. cbn [op op_path op_value].
  by rewrite parsePath_path_of by done.
Qed.

(** A value is replaced as a whole. *)
Lemma replaced_patches base target segments : keys_safe segments -> data target ->
  diff base target (path_of segments) = replaced (path_of segments) target ->
  patches base target segments.
Proof.
  intros Hk Ht Hd. destruct (data_copy target Ht) as (c & Hc & [Hsame Hok]).
  exists [Operation op_replace (path_of segments) (Some c)]. rewrite Hd. unfold replaced. rewrite Hc.
  split; [done|]. assert (safe c) as Hs by (rewrite Hsame; apply Ht).
  split; [apply Forall_singleton, checked_value; auto|].
  intros ops' root b H Hf _ _. apply Forall2_cons_inv_l in H as (o & rest & (Ho & Hp & Hv) & Hrest & ->).
  apply Forall2_nil_inv_l in Hrest as ->. cbn [op op_path op_value] in *.
  destruct (op_value o) as [v|] eqn:Ev; [|done]. destruct Hv as [Hvc Hvok].
  destruct (cloneValue_copy v) as (c' & Hc' & [Hsame' Hok']); [by rewrite Hvc|done|].
  exists c'. split; [|split; [|done]].
  - cbn [apply_operations]. by rewrite (apply_replace root segments b v c').
  - rewrite Hsame', Hvc. exact Hsame.
Qed.

(** ** Two objects *)

Section Objects.
Context (baseFields targetFields : list (text * value)) (segments : list text).
Hypothesis base_data : data (vobj baseFields).
Hypothesis target_data : data (vobj targetFields).
Hypothesis segments_safe : keys_safe segments.
Hypothesis children : forall key x y, jm_get baseFields key = Some x -> jm_get targetFields key = Some y ->
  patches x y (segments ++ [key]).

Let differs := map (fun '(key, x) => (key, diff x)) baseFields.

(** The step for [key] turns the property from the base's into the target's. *)
Definition moves (key : text) (cf cf' : list (text * value)) : Prop :=
  value_ok (vobj cf') /\ norm <$> jm_get cf' key = norm <$> jm_get targetFields key /\
  forall key', key' <> key -> jm_get cf' key' = jm_get cf key'.

Definition key_patches (key : text) (ops : list OcfDeltaOperation) : Prop :=
  forall ops' root cf, Forall2 op_same ops ops' -> focus root segments = Some (vobj cf) ->
    value_ok (vobj cf) -> norm <$> jm_get cf key = norm <$> jm_get baseFields key ->
    exists cf', apply_operations root ops' = Ok (refocus root segments (vobj cf')) /\ moves key cf cf'.

Lemma keys_safe_snoc fields key x : data (vobj fields) -> jm_get fields key = Some x ->
  keys_safe (segments ++ [key]).
Proof.
  intros Hd Hx. apply Forall_app. split; [done|]. apply Forall_singleton.
  by eapply (data_field fields).
Qed.

Lemma norm_none (m : list (text * value)) key : norm <$> jm_get m key = None -> jm_get m key = None.
Proof. by destruct (jm_get m key). Qed.

Lemma norm_some (m : list (text * value)) key x : norm <$> jm_get m key = Some (norm x) ->
  exists x', jm_get m key = Some x' /\ same x' x.
Proof. destruct (jm_get m key) as [x'|]; [|done]. intros [= H]. by exists x'. Qed.

Lemma moves_set key cf c y : value_ok (vobj cf) -> value_ok c -> same c y ->
  jm_get targetFields key = Some y -> moves key cf (jm_set cf key c).
Proof.
  intros Hcf Hc Hsame Hy. split; [by apply object_set|]. split.
  - rewrite jm_get_set_eq, Hy. cbn. by rewrite Hsame.
  - intros key' Hne. by apply jm_get_set_ne.
Qed.

Lemma add_key key y : jm_get baseFields key = None -> jm_get targetFields key = Some y ->
  exists ops, diff_key None (Some y) (joinPath (path_of segments) key) = Ok ops /\
    Forall checked ops /\ key_patches key ops.
Proof.
  intros Hb Hy. destruct (data_field _ _ _ target_data Hy) as [Hdy Hk].
  pose proof (keys_safe_snoc _ _ _ target_data Hy) as Hks.
  destruct (data_copy y Hdy) as (c & Hc & [Hsame Hok]). unfold diff_key. rewrite Hc, <- path_of_snoc.
  eexists. split; [reflexivity|]. split.
  - apply Forall_singleton, checked_value; [done|by left| |done]. rewrite Hsame. apply Hdy.
  - intros ops' root cf H Hf Hcf Hg. rewrite Hb in Hg. apply norm_none in Hg.
    apply Forall2_cons_inv_l in H as (o & rest & (Ho & Hp & Hv) & Hrest & ->).
    apply Forall2_nil_inv_l in Hrest as ->. cbn [op op_path op_value] in *.
    destruct (op_value o) as [v|] eqn:Ev; [|done]. destruct Hv as [Hvc Hvok].
    destruct (cloneValue_copy v) as (c' & Hc' & [Hsame' Hok']);
      [rewrite Hvc, Hsame; apply Hdy|done|].
    exists (jm_set cf key c'). cbn [apply_operations].
    rewrite (apply_add root segments key cf v c') by done. split; [done|].
    apply (moves_set key cf c' y); [done|done| |done]. by rewrite Hsame', Hvc.
Qed.

Lemma remove_key key x : jm_get baseFields key = Some x -> jm_get targetFields key = None ->
  forall differ, exists ops, diff_key (Some differ) None (joinPath (path_of segments) key) = Ok ops /\
    Forall checked ops /\ key_patches key ops.
Proof.
  intros Hx Ht differ. pose proof (keys_safe_snoc _ _ _ base_data Hx) as Hks.
  unfold diff_key. rewrite <- path_of_snoc. eexists. split; [reflexivity|].
  split; [by apply Forall_singleton, checked_remove|].
  intros ops' root cf H Hf Hcf Hg. rewrite Hx in Hg. apply norm_some in Hg as (x' & Hx' & _).
  apply Forall2_cons_inv_l in H as (o & rest & (Ho & Hp & Hv) & Hrest & ->).
  apply Forall2_nil_inv_l in Hrest as ->. cbn [op op_path op_value] in *.
  exists (jm_delete cf key). cbn [apply_operations].
  rewrite (apply_remove root segments key cf x') by done. split; [done|].
  split; [by apply object_delete|]. split.
  - rewrite jm_get_delete, decide_True, Ht by done. done.
  - intros key' Hne. rewrite jm_get_delete. by rewrite decide_False by congruence.
Qed.

Lemma change_key key x y : jm_get baseFields key = Some x -> jm_get targetFields key = Some y ->
  exists ops, diff_key (Some (diff x)) (Some y) (joinPath (path_of segments) key) = Ok ops /\
    Forall checked ops /\ key_patches key ops.
Proof.
  intros Hx Hy. destruct (children key x y Hx Hy) as (ops & Hd & Hc & Happly).
  cbn [diff_key]. rewrite <- path_of_snoc. exists ops. split; [done|]. split; [done|].
  intros ops' root cf H Hf Hcf Hg. rewrite Hx in Hg. apply norm_some in Hg as (x' & Hx' & Hsx).
  destruct (Happly ops' root x' H) as (r & Hr & Hsame & Hok); [|done| |].
  - by rewrite focus_snoc, Hf.
  - by eapply field_ok.
  - exists (jm_set cf key r). rewrite Hr. split; [f_equal; by eapply refocus_snoc|].
    by apply (moves_set key cf r y).
Qed.

Lemma each_key key :
  exists ops, diff_key (jm_get differs key) (jm_get targetFields key) (joinPath (path_of segments) key) = Ok ops /\
    Forall checked ops /\ key_patches key ops.
Proof.
  unfold differs. rewrite jm_get_map.
  destruct (jm_get baseFields key) as [x|] eqn:Hx, (jm_get targetFields key) as [y|] eqn:Hy; cbn [fmap option_fmap option_map].
  - by apply change_key.
  - by eapply remove_key.
  - by apply add_key.
  - exists []. split; [done|]. split; [done|]. intros ops' root cf H Hf Hcf Hg. inversion H; subst.
    exists cf. cbn [apply_operations]. rewrite refocus_same by done. split; [done|].
    split; [done|]. split; [|done]. by rewrite Hg, Hx, Hy.
Qed.

Lemma apply_operations_app root ops1 ops2 :
  apply_operations root (ops1 ++ ops2) = (r ← apply_operations root ops1; apply_operations r ops2).
Proof.
  revert root. induction ops1 as [|o ops1 IH]; intros root; cbn [app apply_operations]; [done|].
  destruct (applyOperation root o); [|done]. cbn [mbind result_bind]. apply IH.
Qed.

(** All keys in turn. *)
Lemma all_keys keys : NoDup keys ->
  exists pushed, mapM (fun key => diff_key (jm_get differs key) (jm_get targetFields key)
      (joinPath (path_of segments) key)) keys = Ok pushed /\ Forall checked (concat pushed) /\
    forall ops' root cf, Forall2 op_same (concat pushed) ops' -> focus root segments = Some (vobj cf) ->
      value_ok (vobj cf) -> (forall key, key ∈ keys -> norm <$> jm_get cf key = norm <$> jm_get baseFields key) ->
      exists cf', apply_operations root ops' = Ok (refocus root segments (vobj cf')) /\ value_ok (vobj cf') /\
        (forall key, key ∈ keys -> norm <$> jm_get cf' key = norm <$> jm_get targetFields key) /\
        (forall key, key ∉ keys -> jm_get cf' key = jm_get cf key).
Proof.
  induction 1 as [|key keys Hkey _ (pushed & Hpushed & Hchecked & IH)].
  - exists []. split; [done|]. split; [constructor|]. intros ops' root cf H Hf Hcf _.
    inversion H; subst. exists cf. cbn [apply_operations]. rewrite refocus_same by done.
    split; [done|]. split; [done|]. split; [|done]. intros key Hin. by apply not_elem_of_nil in Hin.
  - destruct (each_key key) as (ops & Hops & Hc & Hpatch). exists (ops :: pushed).
    split; [cbn; rewrite Hops; cbn; by rewrite Hpushed|].
    split; [by apply Forall_app_2|]. intros ops' root cf H Hf Hcf Hg. cbn [concat] in H.
    apply Forall2_app_inv_l in H as (ops1 & ops2 & H1 & H2 & ->).
    destruct (Hpatch ops1 root cf H1 Hf Hcf) as (cf1 & Hr1 & Hok1 & Hk1 & Hother1);
      [apply Hg; by left|].
    pose proof (focus_refocus root segments (vobj cf1) _ Hf) as Hf1.
    destruct (IH ops2 _ cf1 H2 Hf1 Hok1) as (cf2 & Hr2 & Hok2 & Hk2 & Hother2).
    { intros k Hk. rewrite Hother1; [apply Hg; by right|]. by intros ->. }
    exists cf2. rewrite apply_operations_app, Hr1. cbn [mbind result_bind].
    rewrite Hr2, refocus_refocus. split; [done|]. split; [done|]. split.
    + intros k [->|Hk]%elem_of_cons; [by rewrite Hother2|by apply Hk2].
    + intros k [Hne Hk]%not_elem_of_cons. rewrite Hother2 by done. by apply Hother1.
Qed.
End Objects.

Lemma union_keys_elem base target key : key ∈ union_keys base target <-> key ∈ base \/ key ∈ target.
Proof.
  unfold union_keys. rewrite sort_by_elem, elem_of_app, elem_of_list_filter, negb_true_iff, existsb_false.
  split; [tauto|]. intros [H|H]; [by left|].
  destruct (decide (key ∈ base)) as [|Hn]; [by left|right]. split; [done|].
  intros b Hb. apply bool_decide_eq_false_2. by intros ->.
Qed.

Lemma union_keys_NoDup base target : NoDup base -> NoDup target -> NoDup (union_keys base target).
Proof.
  intros Hb Ht. unfold union_keys. rewrite (sort_by_Permutation text_le). apply NoDup_app.
  split; [done|]. split; [|by apply NoDup_filter_b].
  intros key Hin. rewrite elem_of_list_filter, negb_true_iff, existsb_false. intros [_ H].
  specialize (H key Hin). by apply bool_decide_eq_false in H.
Qed.

Lemma objects_patches baseFields targetFields segments :
  data (vobj baseFields) -> data (vobj targetFields) -> keys_safe segments ->
  (forall key x y, jm_get baseFields key = Some x -> jm_get targetFields key = Some y ->
     patches x y (segments ++ [key])) ->
  patches (vobj baseFields) (vobj targetFields) segments.
Proof.
  intros Hb Ht Hk Hchildren.
  destruct (valuesEqual (vobj baseFields) (vobj targetFields)) eqn:He; [by apply patches_equal|].
  pose proof (data_ok _ Hb) as [Hndb _]%value_ok_fields.
  pose proof (data_ok _ Ht) as [Hndt _]%value_ok_fields.
  destruct (all_keys baseFields targetFields segments Hb Ht Hk Hchildren
    (union_keys (jm_keys baseFields) (jm_keys targetFields))) as (pushed & Hpushed & Hchecked & H);
    [by apply union_keys_NoDup|].
  exists (concat pushed). cbn [diff]. rewrite He, Hpushed. split; [done|]. split; [done|].
  intros ops' root b Hops Hf Hsame Hok. destruct (same_vobj _ _ Hsame) as [cf ->].
  pose proof Hok as [Hndc _]%value_ok_fields.
  pose proof (proj1 (same_object cf baseFields Hndc Hndb) Hsame) as Hget.
  destruct (H ops' root cf Hops Hf Hok) as (cf' & Hr & Hok' & Hin & Hout); [by intros key _|].
  exists (vobj cf'). split; [done|]. split; [|done].
  pose proof Hok' as [Hndc' _]%value_ok_fields. apply same_object; [done|done|]. intros key.
  destruct (decide (key ∈ union_keys (jm_keys baseFields) (jm_keys targetFields))) as [Hu|Hu]; [by apply Hin|].
  rewrite Hout, Hget by done. rewrite union_keys_elem in Hu.
  rewrite !(proj2 (jm_get_None _ key)) by tauto. done.
Qed.

(** ** The round trip *)

Lemma diff_unequal base target path : valuesEqual base target = false ->
  isPlainObject base && isPlainObject target = false ->
  diff base target path = replaced path target.
Proof.
  intros He Hp. destruct base, target; try done; cbn [diff]; by rewrite He.
Qed.

Lemma diff_patches base : forall target segments, data base -> data target -> keys_safe segments ->
  patches base target segments.
Proof.
  induction base as [|o| |b|n|z|s|items IH|fields IH] using value_nested_ind;
    intros target segments Hb Ht Hk;
    try (match goal with |- patches ?base _ _ =>
           destruct (valuesEqual base target) eqn:He; [by apply patches_equal|];
           apply replaced_patches; [done|done|by apply diff_unequal] end).
  destruct (isPlainObject target) eqn:Hp.
  - destruct target as [| | | | | | | |targetFields]; try done.
    apply objects_patches; [done|done|done|]. intros key x y Hx Hy.
    rewrite Forall_forall in IH. destruct (data_field _ _ _ Hb Hx) as [Hdx Hkey].
    apply (IH (key, x)); [by apply jm_get_Some_elem|done|by eapply (data_field targetFields)|].
    apply Forall_app. split; [done|]. by apply Forall_singleton.
  - destruct (valuesEqual (vobj fields) target) eqn:He; [by apply patches_equal|].
    apply replaced_patches; [done|done|]. apply diff_unequal; [done|]. by rewrite Hp.
Qed.

Section Apply.
Context (sha256_hex : text -> text).

(** The digest is 64 hexadecimal digits. *)
Hypothesis sha256_format : forall s, length (sha256_hex s) = 64%nat /\
  forallb (fun c => within 97 102 c || is_digit c) (sha256_hex s) = true.

Lemma hashText_is_hash s : is_hash (hashText sha256_hex s) = true.
Proof.
  unfold is_hash, hashText. destruct (sha256_format s) as [Hl Hc].
  change (txt "sha256:" ++ sha256_hex s) with
    (ch "s" :: ch "h" :: ch "a" :: ch "2" :: ch "5" :: ch "6" :: ch ":" :: sha256_hex s).
  cbn [take drop length]. rewrite drop_0, Hl, Hc. done.
Qed.

(** What [createDelta] returns. *)
Lemma createDelta_ok base target d : data base -> data target ->
  createDelta sha256_hex base target = Ok d ->
  exists tb tt', encodeValue base = Ok tb /\ encodeValue target = Ok tt' /\
    diff base target [] = Ok (operations d) /\
    d = Delta delta_format (hashText sha256_hex tb) (hashText sha256_hex tt') (operations d).
Proof.
  intros Hb Ht H. unfold createDelta in H. apply seq_ok in H as [_ H]. apply seq_ok in H as [_ H].
  apply bind_ok in H as (ops & Hops & H). apply bind_ok in H as (hb & Hhb & H).
  apply bind_ok in H as (ht & Hht & [= <-]).
  apply hashOcfValue_ok in Hhb as (tb & Htb & ->), Hht as (tt' & Htt & ->).
  exists tb, tt'. done.
Qed.

(** A delta applied, in any form with the same effect, to any form of its base. *)
Lemma applyDelta_same base base' target d d' :
  data base -> data target -> createDelta sha256_hex base target = Ok d ->
  same base' base -> value_ok base' ->
  format d' = format d -> baseHash d' = baseHash d -> targetHash d' = targetHash d ->
  Forall2 op_same (operations d) (operations d') -> assertDelta d' = Ok tt ->
  exists r, applyDelta sha256_hex base' d' = Ok r /\ same r target /\ value_ok r.
Proof.
  intros Hb Ht Hd Hsame Hok Hfmt Hbh Hth Hops Hcheck.
  destruct (createDelta_ok base target d Hb Ht Hd) as (tb & tt' & Htb & Htt & Hdiff & Heq).
  rewrite Heq in Hbh, Hth. cbn [baseHash targetHash] in Hbh, Hth.
  destruct (diff_patches base target [] Hb Ht) as (ops & Hdiff' & _ & Happly); [constructor|].
  cbn [path_of map concat] in Hdiff'. rewrite Hdiff in Hdiff'. injection Hdiff' as <-.
  assert (safe base') as Hs by (rewrite Hsame; apply Hb).
  assert (encodeValue base' = Ok tb) as Htb'
    by (apply (encode_same base); [apply Hb|done|by symmetry|done]).
  destruct (cloneValue_copy base' Hs Hok) as (c & Hc & [Hcs Hcok]).
  destruct (Happly (operations d') c c Hops eq_refl) as (r & Hr & Hrs & Hrok);
    [by rewrite Hcs|done|].
  assert (encodeValue r = Ok tt') as Hrt
    by (apply (encode_same target); [apply Ht|done|by symmetry|done]).
  exists r. split; [|done]. unfold applyDelta. rewrite Hs, Hcheck. cbn [mbind result_bind].
  rewrite (proj2 (hashOcfValue_ok sha256_hex base' _)) by eauto. cbn [mbind result_bind].
  rewrite Hbh, bool_decide_eq_true_2 by done. cbn [negb throw_if mbind result_bind].
  rewrite Hc. cbn [mbind result_bind]. cbn [refocus] in Hr. rewrite Hr. cbn [mbind result_bind].
  rewrite (proj2 (hashOcfValue_ok sha256_hex r _)) by eauto. cbn [mbind result_bind].
  by rewrite Hth, bool_decide_eq_true_2 by done.
Qed.
End Apply.

(** A digest is 64 hexadecimal digits. *)
Definition hex_digest (sha256_hex : text -> text) : Prop := forall s,
  length (sha256_hex s) = 64%nat /\
  forallb (fun c => within 97 102 c || is_digit c) (sha256_hex s) = true.

Lemma checked_same o : checked o -> op_same o o.
Proof.
  intros [_ H]. split; [done|]. split; [done|]. destruct (op_value o) as [v|]; [|done].
  cbn. by split; [|apply H].
Qed.

Lemma created_checked sha256_hex base target d : data base -> data target ->
  createDelta sha256_hex base target = Ok d -> Forall checked (operations d).
Proof.
  intros Hb Ht Hd. destruct (createDelta_ok sha256_hex base target d Hb Ht Hd) as (_ & _ & _ & _ & Hdiff & _).
  destruct (diff_patches base target [] Hb Ht) as (ops & Hdiff' & Hc & _); [constructor|].
  cbn [path_of map concat] in Hdiff'. rewrite Hdiff in Hdiff'. by injection Hdiff' as ->.
Qed.

Lemma created_format sha256_hex base target d : hex_digest sha256_hex -> data base -> data target ->
  createDelta sha256_hex base target = Ok d -> assertDelta d = Ok tt.
Proof.
  intros Hsha Hb Ht Hd. pose proof (created_checked _ _ _ _ Hb Ht Hd) as Hc.
  destruct (createDelta_ok sha256_hex base target d Hb Ht Hd) as (tb & tt' & _ & _ & _ & Heq).
  unfold assertDelta. rewrite Heq. cbn [format baseHash targetHash operations].
  rewrite !hashText_is_hash by done. rewrite bool_decide_eq_true_2 by done.
  cbn [negb orb throw_if mbind result_bind]. apply for_each_safe.
  eapply Forall_impl; [exact Hc|]. by intros o [].
Qed.

(** A delta reconstructs its target: the delta made from one value to another,
    applied to the first, passes every check of [applyDelta] and gives the second
    up to the order of keys. *)
Theorem delta_roundtrip sha256_hex base target d : hex_digest sha256_hex ->
  data base -> data target -> createDelta sha256_hex base target = Ok d ->
  exists r, applyDelta sha256_hex base d = Ok r /\ same r target.
Proof.
  intros Hsha Hb Ht Hd.
  destruct (applyDelta_same sha256_hex base base target d d) as (r & Hr & Hs & _); try done.
  - apply Hb.
  - pose proof (created_checked _ _ _ _ Hb Ht Hd) as Hc. clear -Hc.
    induction Hc; constructor; [by apply checked_same|done].
  - exact (created_format _ _ _ _ Hsha Hb Ht Hd).
  - by exists r.
Qed.
