(* ===== verification/OcfStream.v ===== *)
(** The stream of a delta, and the transport of changes between two holders of a
    value. *)

From Stdlib Require Import ZArith NArith Lia Ascii String Permutation.
From stdpp Require Import base strings list.
From S2P Require Import Prelude JsNumber JsString JsCollections JsText JsDecimal OcfValue OcfParse OcfRoundTrip OcfEqual OcfDelta OcfPatch.

Open Scope string_scope.
Open Scope list_scope.
#[local] Open Scope Z_scope.

(** ** Lines *)

Lemma splitLine_join line parts : Forall (closed list_unit) parts -> parts <> [] ->
  exists split, splitLine (join_with (ch "|") parts) line = Ok split /\ map part_text split = parts.
Proof.
  intros H Hne. unfold splitLine. apply (loop_join (ch "|")) with (avoid := list_unit); done.
Qed.

(** A stream's lines are its parts, if none is empty or has a line terminator. *)
Lemma text_lines_join lines : lines <> [] -> Forall printable lines ->
  Forall (fun l => l <> []) lines -> text_lines (join_with newline lines) = lines.
Proof.
  intros Hne Hp Hs. unfold text_lines.
  assert (13%N ∉ join_with newline lines) as Hcr.
  { clear Hne Hs. induction Hp as [|l ls Hl Hls IH]; [by apply not_elem_of_nil|].
    apply printable_no_newline in Hl as [_ Hl]. destruct ls as [|l' ls]; [done|].
    change (join_with newline (l :: l' :: ls)) with (l ++ newline :: join_with newline (l' :: ls)).
    rewrite not_elem_of_app, not_elem_of_cons. done. }
  rewrite normalize_newlines_id, split_join; [|done| |done].
  - destruct (last lines) as [[|c l]|] eqn:E; [|done|done].
    apply last_Some_elem_of in E. rewrite Forall_forall in Hs. by destruct (Hs _ E).
  - eapply Forall_impl; [exact Hp|]. intros l Hl. by apply printable_no_newline in Hl as [Hl _].
Qed.

Lemma printable_join_bar parts : Forall printable parts -> printable (join_with (ch "|") parts).
Proof.
  intros H. induction H as [|p ps Hp Hps IH]; [constructor|]. destruct ps as [|q ps]; [done|].
  change (join_with (ch "|") (p :: q :: ps)) with (p ++ ch "|" :: join_with (ch "|") (q :: ps)).
  apply printable_app. split; [done|]. by apply Forall_cons.
Qed.

(** ** Hash lines *)

Lemma hash_solid h : is_hash h = true -> forallb solid h = true /\ h <> [].
Proof.
  unfold is_hash. rewrite !andb_true_iff, bool_decide_eq_true. intros [[Ht Hl%Nat.eqb_eq] Hc].
  split; [|by intros ->]. rewrite <- (take_drop 7 h), Ht, forallb_app.
  change (forallb solid (txt "sha256:")) with true. cbn [andb].
  revert Hc. apply class_solid; [|done]. intros c. rewrite orb_true_iff. unfold is_digit.
  rewrite !within_true. lia.
Qed.

Lemma header_hash_line name h line : forallb solid (txt name) = true -> is_hash h = true ->
  exists parts, splitLine (join_with (ch "|") [txt name; h]) line = Ok parts /\
    header_hash name parts = Ok h.
Proof.
  intros Hn Hh. destruct (hash_solid h Hh) as [Hs _].
  destruct (splitLine_join line [txt name; h]) as (parts & Hsplit & Hmap).
  - repeat constructor; by apply solid_closed.
  - done.
  - exists parts. split; [done|]. destruct parts as [|a [|b [|]]]; try done. injection Hmap as Ha Hb.
    cbn [header_hash]. rewrite Ha, bool_decide_eq_true_2 by done. by rewrite <- Hb.
Qed.

(** ** Operation lines *)

(** The operation a reader gets. *)
Definition decoded_operation (o : OcfDeltaOperation) : OcfDeltaOperation :=
  Operation (op o) (op_path o)
    (if op o === op_remove then None else Some (decoded (operation_value o))).

Definition decoded_delta (d : OcfDelta) : OcfDelta :=
  Delta (format d) (baseHash d) (targetHash d) (map decoded_operation (operations d)).

Definition operation_parts (o : OcfDeltaOperation) (encoded : text) : list text :=
  [txt "op"; op o; encode_string (op_path o)] ++
  (if op o === op_remove then [] else [encoded]).

Definition known_op (o : OcfDeltaOperation) : Prop :=
  op o = op_add \/ op o = op_remove \/ op o = op_replace.

Lemma assertOperation_ok o : assertOperation o = Ok tt ->
  known_op o /\ (exists segments, parsePath (op_path o) = Ok segments) /\
  (op o = op_remove \/ op o <> op_remove /\ safe (operation_value o)).
Proof.
  intros [Hk%throw_if_ok H]%seq_ok. apply bind_ok in H as (segments & Hp & H).
  split; [|split; [by eexists|]].
  - unfold known_op. destruct (decide (op o = op_add)), (decide (op o = op_remove)),
      (decide (op o = op_replace)); auto.
    rewrite !bool_decide_eq_false_2 in Hk by done. done.
  - destruct (bool_decide_reflect (op o = op_remove)); [by left|right]. split; [done|].
    by apply seq_ok in H as [_ H].
Qed.

Lemma encode_operation_join o t : encode_operation o = Ok t ->
  exists encoded, t = join_with (ch "|") (operation_parts o encoded) /\
    (op o <> op_remove -> encodeValue (operation_value o) = Ok encoded).
Proof.
  unfold encode_operation, operation_parts. cbn [encodeValue assertSerializable mbind result_bind mret result_ret].
  case_bool_decide as Ho.
  - intros [= <-]. exists []. rewrite app_nil_r. done.
  - intros (encoded & He & [= <-])%bind_ok. exists encoded. split; [|done].
    transitivity (txt "op|" ++ (op o ++ ch "|" :: encode_string (op_path o)) ++ ch "|" :: encoded);
      [done|].
    by rewrite <- app_assoc.
Qed.

Section Operation.
Context (o : OcfDeltaOperation) (encoded : text).
Hypothesis known : known_op o.
Hypothesis value_reads : op o <> op_remove -> reads encoded (decoded (operation_value o)).

Lemma known_solid : forallb solid (op o) = true /\ op o <> [].
Proof. destruct known as [->|[->| ->]]; done. Qed.

Lemma operation_parts_wire : Forall wire (operation_parts o encoded).
Proof.
  destruct known_solid as [Hs Hne]. unfold operation_parts. apply Forall_app. split.
  - repeat (apply Forall_cons; split); [by apply wire_solid|by apply wire_solid|apply reads_string|done].
  - case_bool_decide as Ho; [done|]. apply Forall_singleton. by apply value_reads.
Qed.

(** An operation's line is read back. *)
Lemma decode_operation_line line :
  decode_operation (join_with (ch "|") (operation_parts o encoded)) line = Ok (decoded_operation o).
Proof.
  destruct (splitLine_join line (operation_parts o encoded)) as (parts & Hsplit & Hmap);
    [eapply Forall_impl; [exact operation_parts_wire|]; by intros t []|done|].
  unfold decode_operation. rewrite Hsplit. cbn [mbind result_bind].
  unfold operation_parts in Hmap. destruct parts as [|a [|b [|c rest]]]; try done.
  cbn [map app] in Hmap. injection Hmap as Ha Hb Hc Hrest. rewrite Ha, Hb, Hc.
  assert (length rest <= 1)%nat as Hlen.
  { rewrite <- (length_map part_text), Hrest. by case_bool_decide; cbn; lia. }
  rewrite (bool_decide_eq_true_2 (txt "op" = txt "op")) by done.
  rewrite (proj2 (Nat.ltb_ge 1 (length rest))) by done. cbn [negb orb throw_if mbind result_bind].
  assert ((op o !== op_add) && (op o !== op_remove) && (op o !== op_replace) = false) as ->
    by (destruct known as [->|[->| ->]]; done).
  cbn [throw_if mbind result_bind].
  destruct (reads_string (op_path o)) as [_ Hpath]. unfold decoded_operation.
  destruct (decide (op o = op_remove)) as [Ho|Ho].
  - rewrite (bool_decide_eq_true_2 _ Ho) in *. rewrite (bool_decide_eq_false_2 (op o <> op_remove)) by (intros H; by apply H).
    destruct rest; [|done]. cbn [andb orb negb throw_if mbind result_bind].
    rewrite bool_decide_eq_true_2 by done. cbn [negb throw_if mbind result_bind].
    by rewrite Hpath.
  - rewrite (bool_decide_eq_false_2 _ Ho) in *.
    rewrite (bool_decide_eq_true_2 (op o <> op_remove)) by done.
    destruct rest as [|v [|]]; [done| |done]. injection Hrest as Hv.
    cbn [andb orb negb throw_if mbind result_bind].
    rewrite bool_decide_eq_false_2 by done. cbn [throw_if mbind result_bind]. rewrite Hpath, Hv.
    cbn [mbind result_bind]. destruct (value_reads Ho) as [_ Hr]. by rewrite Hr.
Qed.
End Operation.

(** ** The whole stream *)

(** Every value the delta carries is well formed. *)
Definition delta_ok (d : OcfDelta) : Prop :=
  Forall (fun o => value_ok (operation_value o)) (operations d).

Lemma assertDelta_ok d : assertDelta d = Ok tt <->
  format d = delta_format /\ is_hash (baseHash d) = true /\ is_hash (targetHash d) = true /\
  Forall (fun o => assertOperation o = Ok tt) (operations d).
Proof.
  unfold assertDelta. split.
  - intros [Hf%throw_if_ok [Hh%throw_if_ok Ho]%seq_ok]%seq_ok.
    apply negb_false_iff, bool_decide_eq_true in Hf.
    apply orb_false_iff in Hh as [H1%negb_false_iff H2%negb_false_iff]. by apply for_each_safe in Ho.
  - intros (-> & -> & -> & Ho). cbn. by apply for_each_safe.
Qed.

Lemma encoded_operation o t : assertOperation o = Ok tt -> value_ok (operation_value o) ->
  encode_operation o = Ok t ->
  printable t /\ t <> [] /\ forall line, decode_operation t line = Ok (decoded_operation o).
Proof.
  intros Hcheck Hok He. destruct (encode_operation_join o t He) as (encoded & -> & Henc).
  destruct (assertOperation_ok o Hcheck) as (Hknown & _ & _).
  assert (op o <> op_remove -> reads encoded (decoded (operation_value o))) as Hr
    by (intros Ho; apply encode_reads; auto).
  pose proof (operation_parts_wire o encoded Hknown Hr) as Hw. split; [|split].
  - apply printable_join_bar. eapply Forall_impl; [exact Hw|]. by intros t' [].
  - unfold operation_parts. done.
  - intros line. by apply decode_operation_line.
Qed.

Lemma decode_operations_lines ops lines :
  Forall2 (fun o t => forall line, decode_operation t line = Ok (decoded_operation o)) ops lines ->
  forall line, decode_operations lines line = Ok (map decoded_operation ops).
Proof.
  induction 1 as [|o t ops lines Ho _ IH]; intros line; [done|]. cbn [decode_operations map].
  rewrite Ho. cbn [mbind result_bind]. by rewrite IH.
Qed.

Lemma decoded_not_undefined v : value_undefined (Some v) = false -> value_undefined (Some (decoded v)) = false.
Proof. destruct v; try done. cbn [decoded]. by destruct (isReference _). Qed.

Lemma assert_decoded_operation o : assertOperation o = Ok tt ->
  assertOperation (decoded_operation o) = Ok tt.
Proof.
  intros H. unfold assertOperation in *. cbn [decoded_operation op op_path op_value].
  apply seq_ok in H as [-> H]. apply bind_ok in H as (segments & -> & H).
  cbn [mbind result_bind]. case_bool_decide as Ho; [done|].
  apply seq_ok in H as [Hu%throw_if_ok Hs].
  assert (operation_value (decoded_operation o) = decoded (operation_value o)) as ->
    by (unfold operation_value at 1, decoded_operation; cbn [op_value];
        by rewrite bool_decide_eq_false_2).
  rewrite decoded_not_undefined by (unfold operation_value; destruct (op_value o) as [[]|]; done).
  cbn [throw_if mbind result_bind]. by apply safe_decoded.
Qed.

Lemma hash_line_printable name h : forallb solid (txt name) = true -> is_hash h = true ->
  printable (join_with (ch "|") [txt name; h]).
Proof.
  intros Hn [Hs _]%hash_solid. apply printable_join_bar. repeat constructor; by apply solid_printable.
Qed.

Lemma decode_encoded_delta d s : delta_ok d -> encodeDelta d = Ok s ->
  decodeDelta s = Ok (decoded_delta d).
Proof.
  intros Hok H. unfold encodeDelta in H. apply seq_ok in H as [Hcheck H].
  apply bind_ok in H as (lines & Hlines%mapM_Forall2 & H).
  set (joined := join_with newline _) in H. injection H as <-. subst joined.
  apply assertDelta_ok in Hcheck as (Hf & Hb & Ht & Hops).
  assert (Forall2 (fun o t => printable t /\ t <> [] /\
    forall line, decode_operation t line = Ok (decoded_operation o)) (operations d) lines) as Hall.
  { eapply Forall2_Forall_impl; [apply Forall_and; split; [exact Hops|exact Hok]| |exact Hlines].
    cbn. intros o t [Ho Hv] He. by apply encoded_operation. }
  unfold decodeDelta. rewrite text_lines_join; [|done|..].
  - cbn [head]. rewrite bool_decide_eq_true_2 by done. cbn [negb throw_if mbind result_bind].
    destruct (header_hash_line "base" (baseHash d) 2 eq_refl Hb) as (pb & Hpb & Hhb).
    destruct (header_hash_line "target" (targetHash d) 3 eq_refl Ht) as (pt & Hpt & Hht).
    change (txt "base|" ++ baseHash d) with (join_with (ch "|") [txt "base"; baseHash d]).
    change (txt "target|" ++ targetHash d) with (join_with (ch "|") [txt "target"; targetHash d]).
    rewrite Hpb. cbn [mbind result_bind]. rewrite Hpt. cbn [mbind result_bind].
    rewrite Hhb. cbn [mbind result_bind]. rewrite Hht. cbn [mbind result_bind].
    rewrite (decode_operations_lines (operations d)) by
      (eapply Forall2_impl; [exact Hall|]; by intros o t (_ & _ & ?)).
    cbn [mbind result_bind]. unfold decoded_delta. rewrite Hf.
    rewrite (proj2 (assertDelta_ok _)); [done|]. cbn [format baseHash targetHash operations].
    split; [done|]. split; [done|]. split; [done|]. change (map ?f ?l) with (f <$> l).
    apply Forall_fmap. eapply Forall_impl; [exact Hops|]. apply assert_decoded_operation.
  - apply Forall_cons; split; [|apply Forall_cons; split; [|apply Forall_cons; split]].
    + by apply solid_printable.
    + by apply (hash_line_printable "base").
    + by apply (hash_line_printable "target").
    + clear -Hall. induction Hall as [|o t ops ts (? & _) _ IH]; by constructor.
  - repeat (apply Forall_cons; split); [done..|].
    clear -Hall. induction Hall as [|o t ops ts (_ & ? & _) _ IH]; by constructor.
Qed.

(** A delta survives its stream: what [encodeDelta] writes, [decodeDelta] reads
    as the same operations with the same hashes, each value in the form a reader
    gets. *)
Theorem delta_stream_roundtrip d s : delta_ok d -> encodeDelta d = Ok s ->
  decodeDelta s = Ok (decoded_delta d).
Proof. apply decode_encoded_delta. Qed.

(** ** Synchronization *)

(** References name their schemas by text, not by number. *)
Fixpoint text_references (v : value) : bool :=
  match v with
  | varr items => forallb text_references items
  | vobj fields =>
      negb (isReference v && match jm_get fields (txt "$ref") with Some (vnum _) => true | _ => false end) &&
      forallb (fun '(_, x) => text_references x) fields
  | _ => true
  end.

Lemma text_references_decoded v : value_ok v -> text_references v = true -> decoded v = norm v.
Proof.
  induction v as [|o| |b|n|z|s|items IH|fields IH] using value_nested_ind; try done; intros Hok H;
    cbn [text_references] in H.
  - unfold norm. cbn [decoded norm_with]. f_equal. apply map_ext_in. intros x Hx%list_elem_of_In.
    apply value_ok_array in Hok. rewrite Forall_forall in IH, Hok. rewrite forallb_elem in H. by apply IH; auto.
  - apply value_ok_fields in Hok as [Hnd Hok]. apply andb_true_iff in H as [Href H].
    rewrite forallb_elem in H. rewrite Forall_forall in IH, Hok. cbn [decoded].
    destruct (isReference (vobj fields)) eqn:E.
    + destruct (isReference_fields fields E) as (ref & id & Hr & Hi & Hscalar).
      cbn [isReference] in E. apply andb_true_iff in E as [Hkeys%bool_decide_eq_true E].
      rewrite Hr in *. rewrite Hi in *. unfold reference_text. rewrite Hr. cbn [or_else].
      assert (sorted_entries fields = [(txt "$ref", ref); (txt "id", id)]) as Hsorted.
      { pose proof (sorted_entries_get fields (txt "$ref") Hnd) as Hg1.
        pose proof (sorted_entries_get fields (txt "id") Hnd) as Hg2. rewrite Hr in Hg1. rewrite Hi in Hg2.
        destruct (sorted_entries fields) as [|[k1 x1] [|[k2 x2] [|]]]; try done.
        cbn in Hkeys. injection Hkeys as -> ->.
        cbn [jm_get] in Hg1, Hg2. rewrite decide_True in Hg1 by done.
        rewrite decide_False, decide_True in Hg2 by done. injection Hg1 as ->. by injection Hg2 as ->. }
      rewrite norm_fields, Hsorted. destruct ref; try done. by destruct id.
    + rewrite norm_fields, sorted_entries_map. f_equal. apply map_ext_in.
      intros [k x] Hx%list_elem_of_In. rewrite sorted_entries_elem in Hx. f_equal.
      apply (IH _ Hx (Hok _ Hx)). apply (H _ Hx).
Qed.

Lemma text_references_field fields key x : text_references (vobj fields) = true ->
  jm_get fields key = Some x -> text_references x = true.
Proof.
  cbn [text_references]. rewrite andb_true_iff, forallb_elem. intros [_ H] Hx%jm_get_Some_elem.
  by apply (H (key, x)).
Qed.

Lemma forallb_permutation {A} (f : A -> bool) l l' : l ≡ₚ l' -> forallb f l = forallb f l'.
Proof. induction 1; cbn; try congruence. by destruct (f x), (f y). Qed.

Lemma text_references_norm v : value_ok v -> text_references (norm v) = text_references v.
Proof.
  induction v as [|o| |b|n|z|s|items IH|fields IH] using value_nested_ind; try done; intros Hok.
  - unfold norm. cbn [norm_with text_references]. apply value_ok_array in Hok. fold norm.
    induction items as [|x items IHi]; [done|]. apply Forall_cons in IH as [Hx IH], Hok as [Hxok Hok].
    cbn [map forallb]. rewrite IHi by done. f_equal. by apply Hx.
  - apply value_ok_fields in Hok as [Hnd Hok]. pose proof (isReference_norm fields Hnd) as Href.
    rewrite norm_fields in *. cbn [text_references]. rewrite Href, norm_get by done.
    f_equal; [by destruct (jm_get fields (txt "$ref")) as [[]|]|].
    rewrite <- (forallb_permutation _ _ _ (sort_by_Permutation key_order fields)).
    fold (sorted_entries fields).
    assert (Forall (fun f => text_references (norm f.2) = text_references f.2) (sorted_entries fields)) as H.
    { apply Forall_sorted. eapply Forall_impl; [apply Forall_and; split; [exact IH|exact Hok]|].
      cbn. intros f [Hf Hfok]. by apply Hf. }
    clear Href. induction H as [|[k x] es Hx _ IHes]; [done|]. cbn [map forallb].
    rewrite IHes. f_equal. exact Hx.
Qed.

(** The values of pushed operations are copies of parts of the target. *)
Inductive part_of (w : value) : value -> Prop :=
| part_self : part_of w w
| part_field fields key x : jm_get fields key = Some x -> part_of w x -> part_of w (vobj fields).

Definition copies_of (target : value) (ops : list OcfDeltaOperation) : Prop :=
  Forall (fun o => forall c, op_value o = Some c ->
    exists w, part_of w target /\ cloneValue w = Ok c) ops.

Lemma replaced_copies path target ops : replaced path target = Ok ops -> copies_of target ops.
Proof.
  unfold replaced. intros (c & Hc & [= <-])%bind_ok. apply Forall_singleton. intros ? [= <-].
  exists target. split; [constructor|done].
Qed.

Lemma copies_field fields key x ops : jm_get fields key = Some x -> copies_of x ops ->
  copies_of (vobj fields) ops.
Proof.
  intros Hx H. eapply Forall_impl; [exact H|]. cbn. intros o Ho c Hc.
  destruct (Ho c Hc) as (w & Hw & Hcl). exists w. split; [by econstructor|done].
Qed.

Lemma diff_copies base : forall target path ops, diff base target path = Ok ops -> copies_of target ops.
Proof.
  induction base as [|o| |b|n|z|s|items IH|fields IH] using value_nested_ind; intros target path ops;
    cbn [diff]; (case_match; [by intros [= <-]; constructor|]);
    destruct target as [| | | | | | | |targetFields]; try apply replaced_copies.
  intros (pushed & Hpushed & [= <-])%bind_ok. apply mapM_Forall2 in Hpushed.
  induction Hpushed as [|key ops keys pushed Hops _ IHp]; [constructor|].
  cbn [concat]. apply Forall_app. split; [|done]. rewrite jm_get_map in Hops.
  destruct (jm_get fields key) as [x|] eqn:Hx, (jm_get targetFields key) as [y|] eqn:Hy;
    cbn [fmap option_fmap option_map diff_key] in Hops.
  - rewrite Forall_forall in IH. apply jm_get_Some_elem in Hx.
    eapply copies_field; [exact Hy|]. by eapply (IH (key, x) Hx).
  - injection Hops as <-. by apply Forall_singleton.
  - apply bind_ok in Hops as (c & Hc & [= <-]). apply Forall_singleton. intros ? [= <-].
    exists y. split; [|done]. econstructor; [exact Hy|constructor].
  - injection Hops as <-. constructor.
Qed.

Lemma part_text_references w v : part_of w v -> data v -> text_references v = true ->
  data w /\ text_references w = true.
Proof.
  induction 1 as [|fields key x Hx _ IH]; [done|]. intros Hd Ht.
  apply IH; [by eapply (data_field fields)|by eapply text_references_field].
Qed.

(** A copied value has the form a reader gets. *)
Lemma copied_value w target v : part_of w target -> data target -> text_references target = true ->
  cloneValue w = Ok v -> safe v /\ value_same (Some v) (Some (decoded v)).
Proof.
  intros Hw Ht Href Hcl. destruct (part_text_references w target Hw Ht Href) as [Hdw Hrw].
  destruct (data_copy w Hdw) as (c & Hc & [Hcw Hcok]). rewrite Hcl in Hc. injection Hc as <-.
  split; [rewrite Hcw; apply Hdw|]. cbn [value_same].
  rewrite text_references_decoded; [split; [apply norm_idem|by apply value_ok_norm]|done|].
  rewrite <- text_references_norm by done. rewrite Hcw. by rewrite text_references_norm by apply Hdw.
Qed.

Lemma decoded_operation_same target o : data target -> text_references target = true -> checked o ->
  (forall v, op_value o = Some v -> exists w, part_of w target /\ cloneValue w = Ok v) ->
  op_same o (decoded_operation o).
Proof.
  intros Ht Href [Ho Hov] Hcopy. split; [done|]. split; [done|]. cbn [decoded_operation op_value].
  unfold assertOperation in Ho. apply seq_ok in Ho as [_ Ho]. apply bind_ok in Ho as (? & _ & Ho).
  case_bool_decide as Hrem.
  - apply throw_if_ok, negb_false_iff in Ho. destruct (op_value o) as [v|] eqn:Hv; [|done].
    destruct (Hcopy v eq_refl) as (w & Hw & Hcl).
    destruct (copied_value w target v Hw Ht Href Hcl) as [Hs _]. by destruct v.
  - apply seq_ok in Ho as [Hu _]. apply throw_if_ok in Hu.
    unfold operation_value. destruct (op_value o) as [v|] eqn:Hv; [|done].
    destruct (Hcopy v eq_refl) as (w & Hw & Hcl). by apply (copied_value w target v).
Qed.

Lemma created_ok ops : Forall checked ops -> Forall (fun o => value_ok (operation_value o)) ops.
Proof.
  intros H. eapply Forall_impl; [exact H|]. cbn. intros o [_ Ho]. unfold operation_value.
  by destruct (op_value o) as [v|]; [apply Ho|].
Qed.

(** C38: Synchronization: for two serializable values without a negative zero in
    either, whose target names the schemas of its references by text, a holder of
    the base, in any order of its keys, that decodes the stream of the delta between
    them and applies it obtains the target.  (Zeros of both signs are equal for the
    comparison that makes a delta and differ in the hashes that check it.) *)
Theorem delta_synchronizes sha256_hex base target held d s : hex_digest sha256_hex ->
  data base -> data target -> text_references target = true ->
  same held base -> value_ok held ->
  createDelta sha256_hex base target = Ok d -> encodeDelta d = Ok s ->
  exists received r, decodeDelta s = Ok received /\
    applyDelta sha256_hex held received = Ok r /\ same r target.
Proof.
  intros Hsha Hb Ht Href Hheld Hok Hd Hs.
  pose proof (created_checked _ _ _ _ Hb Ht Hd) as Hc.
  destruct (createDelta_ok _ _ _ _ Hb Ht Hd) as (_ & _ & _ & _ & Hdiff & _).
  apply diff_copies in Hdiff. pose proof (created_format _ _ _ _ Hsha Hb Ht Hd) as Hcheck.
  exists (decoded_delta d).
  destruct (applyDelta_same sha256_hex base held target d (decoded_delta d)) as (r & Hr & Hsame & _);
    try done.
  - cbn [decoded_delta operations]. change (map ?f ?l) with (f <$> l). apply Forall2_fmap_r.
    apply Forall_Forall2_diag. eapply Forall_impl; [apply Forall_and; split; [exact Hc|exact Hdiff]|].
    cbn. intros o [Ho Hcopy]. by apply (decoded_operation_same target).
  - apply assertDelta_ok in Hcheck as (? & ? & ? & Hops). apply assertDelta_ok.
    split; [done|]. split; [done|]. split; [done|]. cbn [decoded_delta operations].
    change (map ?f ?l) with (f <$> l). apply Forall_fmap.
    eapply Forall_impl; [exact Hops|]. apply assert_decoded_operation.
  - exists r. split; [|done]. apply decode_encoded_delta; [by apply created_ok|done].
Qed.
