(* ===== verification/OcfSchema.v ===== *)
(** Record schemas and their registry: packages/context-format/src/schema.ts.

    Schemas are frozen objects; the registry's two maps share them, and
    [resolve] compares them by identity, so an entry carries the number of its
    registration. *)

From Stdlib Require Import ZArith NArith Lia Ascii String.
From stdpp Require Import base strings list.
From stdpp Require Import relations.
From S2P Require Import Prelude JsNumber JsString JsCollections JsText JsDecimal OcfValue OcfParse OcfRoundTrip OcfEqual.

Open Scope string_scope.
Open Scope list_scope.
#[local] Open Scope Z_scope.

(** Source: packages/context-format/src/types.ts:25-34 [OcfFieldType]. *)
Inductive OcfFieldType : Type :=
| type_unknown | type_string | type_number | type_integer | type_bigint | type_boolean
| type_array | type_object | type_reference.

#[export] Instance OcfFieldType_eq_dec : EqDecision OcfFieldType.
Proof. solve_decision. Defined.

(** Source: packages/context-format/src/types.ts:36-50 [OcfField]. *)
Record OcfField := Field {
  fd_name : text;
  fd_alias : option text;
  fd_type : option OcfFieldType;
  fd_itemType : option OcfFieldType;
  fd_nullable : option bool;
  fd_values : option (list (text * text))
}.

(** [string | number] *)
Inductive SchemaId : Type :=
| id_text (s : text)
| id_number (n : number).

#[export] Instance SchemaId_eq_dec : EqDecision SchemaId.
Proof. solve_decision. Defined.

(** Source: packages/context-format/src/types.ts:52-60 [OcfSchema]. *)
Record OcfSchema := Schema {
  sc_id : SchemaId;
  sc_name : text;
  sc_version : option number;
  sc_fields : list OcfField
}.

(** Source: packages/context-format/src/types.ts:62-63 [OcfSchemaReference]. *)
Inductive OcfSchemaReference : Type :=
| by_schema (schema : OcfSchema)
| by_text (name : text)
| by_number (n : number).

#[export] Instance OcfField_eq_dec : EqDecision OcfField.
Proof. solve_decision. Defined.
#[export] Instance OcfSchema_eq_dec : EqDecision OcfSchema.
Proof. solve_decision. Defined.

(** ** Normalization *)

(** [String(id)] *)
Definition String_id (id : SchemaId) : text :=
  match id with id_text s => s | id_number n => String_number n end.

(** Source: packages/context-format/src/schema.ts:13-15 [keyForId]. *)
Definition keyForId (id : SchemaId) : text :=
  (match id with id_text _ => txt "string:" | id_number _ => txt "number:" end) ++ String_id id.

(** Source: packages/context-format/src/schema.ts:11-11 [identifier]. *)
Definition identifier : text -> bool := class_token is_letter (fun c => is_alnum c || one_of "_-" c).

(** Source: packages/context-format/src/schema.ts:17-23 [assertIdentifier]. *)
Definition assertIdentifier (s : text) : oexc unit :=
  throw_if (negb (identifier s)) (OcfError "invalid_schema").

(** The copy of the values is a new object with the entries in their order.
    Source: packages/context-format/src/schema.ts:25-37 [cloneField]. *)
Definition cloneField (field : OcfField) : OcfField :=
  Field (fd_name field) (fd_alias field) (fd_type field) (fd_itemType field) (fd_nullable field)
    (Object_entries <$> fd_values field).

(** The entries of [values], with the wire texts seen before.
    Source: packages/context-format/src/schema.ts:92-107 [normalizeSchema, values]. *)
Fixpoint check_values (wireValues : list text) (entries : list (text * text)) : oexc unit :=
  match entries with
  | [] => mret tt
  | (v, wire) :: entries =>
      _ ← throw_if ((v === []) || (wire === [])) (OcfError "invalid_schema");
      _ ← throw_if (bool_decide (wire ∈ wireValues)) (OcfError "invalid_schema");
      check_values (wire :: wireValues) entries
  end.

(** One field, after the names and aliases before it.
    Source: packages/context-format/src/schema.ts:79-109 [normalizeSchema, field]. *)
Fixpoint normalize_fields (names aliases : list text) (fields : list OcfField) : oexc (list OcfField) :=
  match fields with
  | [] => mret []
  | field :: fields =>
      _ ← assertIdentifier (fd_name field);
      _ ← throw_if (bool_decide (fd_name field ∈ names)) (OcfError "invalid_schema");
      let alias := fd_alias field ?? fd_name field in
      _ ← assertIdentifier alias;
      _ ← throw_if (bool_decide (alias ∈ aliases)) (OcfError "invalid_schema");
      _ ← match fd_values field with
          | Some values => check_values [] (Object_entries values)
          | None => mret tt
          end;
      rest ← normalize_fields (fd_name field :: names) (alias :: aliases) fields;
      mret (cloneField field :: rest)
  end.

(** Source: packages/context-format/src/schema.ts:43-117 [normalizeSchema]. *)
Definition normalizeSchema (schema : OcfSchema) : oexc OcfSchema :=
  _ ← throw_if (String_id (sc_id schema) === []) (OcfError "invalid_schema");
  _ ← throw_if (match sc_id schema with
                | id_number n => negb (isSafeInteger (num_of n)) || js_lt (num_of n) (ofZ 0)
                | id_text _ => false
                end) (OcfError "invalid_schema");
  _ ← assertIdentifier (sc_name schema);
  let version := sc_version schema ?? plain (ofZ 1) in
  _ ← throw_if (negb (isSafeInteger (num_of version)) || js_lt (num_of version) (ofZ 1))
        (OcfError "invalid_schema");
  _ ← throw_if (sc_fields schema === []) (OcfError "invalid_schema");
  normalizedFields ← normalize_fields [] [] (sc_fields schema);
  mret (Schema (sc_id schema) (sc_name schema) (Some version) normalizedFields).

(** ** [JSON.stringify] of a normalized schema *)

Definition type_text (t : OcfFieldType) : text :=
  match t with
  | type_unknown => txt "unknown" | type_string => txt "string" | type_number => txt "number"
  | type_integer => txt "integer" | type_bigint => txt "bigint" | type_boolean => txt "boolean"
  | type_array => txt "array" | type_object => txt "object" | type_reference => txt "reference"
  end.

(** An object's text from the texts of its present properties. *)
Definition json_object (properties : list (text * option text)) : text :=
  ch "{" :: join_with (ch ",")
    (flat_map (fun '(key, v) => match v with
                                | Some t => [JSON_quote key ++ ch ":" :: t]
                                | None => []
                                end) properties) ++ [ch "}"].

Definition json_field (field : OcfField) : text :=
  json_object
    [(txt "name", Some (JSON_quote (fd_name field)));
     (txt "alias", JSON_quote <$> fd_alias field);
     (txt "type", (fun t => JSON_quote (type_text t)) <$> fd_type field);
     (txt "itemType", (fun t => JSON_quote (type_text t)) <$> fd_itemType field);
     (txt "nullable", (fun b : bool => if b then txt "true" else txt "false") <$> fd_nullable field);
     (txt "values", (fun values => json_object
        (map (fun '(key, wire) => (key, Some (JSON_quote wire))) (Object_entries values)))
          <$> fd_values field)].

Definition json_schema (schema : OcfSchema) : text :=
  json_object
    [(txt "id", Some (match sc_id schema with
                      | id_text s => JSON_quote s
                      | id_number n => String_number n
                      end));
     (txt "name", Some (JSON_quote (sc_name schema)));
     (txt "version", String_number <$> sc_version schema);
     (txt "fields", Some (ch "[" :: join_with (ch ",") (map json_field (sc_fields schema)) ++ [ch "]"]))].

(** Source: packages/context-format/src/schema.ts:39-41 [schemaEquals]. *)
Definition schemaEquals (left right : OcfSchema) : bool := json_schema left === json_schema right.

(** ** The registry *)

(** A registered schema: the number of its registration and the frozen object. *)
Definition entry : Type := nat * OcfSchema.

(** Source: packages/context-format/src/schema.ts:119-121 [OcfSchemaRegistry]. *)
Record OcfSchemaRegistry := Registry {
  byName : jsmap text entry;
  byId : jsmap text entry;
  registrations : nat
}.

Definition empty_registry : OcfSchemaRegistry := Registry [] [] 0.

(** Source: packages/context-format/src/schema.ts:123-142 [register]. *)
Definition register (schema : OcfSchema) (registry : OcfSchemaRegistry)
  : oexc (entry * OcfSchemaRegistry) :=
  normalized ← normalizeSchema schema;
  let key := keyForId (sc_id normalized) in
  match jm_get (byName registry) (sc_name normalized), jm_get (byId registry) key with
  | None, None =>
      let registered := (registrations registry, normalized) in
      mret (registered,
            Registry (jm_set (byName registry) (sc_name normalized) registered)
              (jm_set (byId registry) key registered) (S (registrations registry)))
  | Some existing, Some _ =>
      _ ← throw_if (negb (schemaEquals existing.2 normalized)) (OcfError "duplicate_schema");
      mret (existing, registry)
  | _, _ => Throw (OcfError "duplicate_schema")
  end.

Definition found (e : option entry) : oexc entry :=
  match e with Some e => mret e | None => Throw (OcfError "unknown_schema") end.

(** [a ?? b] for two lookups. *)
Definition otherwise (a b : option entry) : option entry := match a with Some e => Some e | None => b end.

(** [this.byId.get(keyForId(Number(token)))] when the token is digits. *)
Definition by_numeric_id (registry : OcfSchemaRegistry) (token : text) : option entry :=
  if nonempty_all is_digit token then jm_get (byId registry) (keyForId (id_number (Number_text token)))
  else None.

(** Source: packages/context-format/src/schema.ts:144-166 [resolve]. *)
Definition resolve (reference : OcfSchemaReference) (registry : OcfSchemaRegistry)
  : oexc (entry * OcfSchemaRegistry) :=
  match reference with
  | by_schema schema =>
      match jm_get (byName registry) (sc_name schema), jm_get (byId registry) (keyForId (sc_id schema)) with
      | Some named, Some identified =>
          if (named.1 =? identified.1)%nat then mret (named, registry) else register schema registry
      | _, _ => register schema registry
      end
  | by_text name =>
      e ← found (otherwise (jm_get (byName registry) name)
                  (otherwise (jm_get (byId registry) (keyForId (id_text name)))
                     (by_numeric_id registry name)));
      mret (e, registry)
  | by_number n =>
      e ← found (jm_get (byId registry) (keyForId (id_number n)));
      mret (e, registry)
  end.

(** Source: packages/context-format/src/schema.ts:168-181 [resolveWireToken]. *)
Definition resolveWireToken (token : text) (registry : OcfSchemaRegistry) : oexc entry :=
  found (otherwise (jm_get (byName registry) token)
           (otherwise (by_numeric_id registry token)
              (jm_get (byId registry) (keyForId (id_text token))))).

(** Registrations are not numbered anew.
    Source: packages/context-format/src/schema.ts:183-186 [clear]. *)
Definition clear (registry : OcfSchemaRegistry) : OcfSchemaRegistry :=
  Registry [] [] (registrations registry).

(** ** Field values *)

(** Source: packages/context-format/src/schema.ts:189-215 [typeMatches]. *)
Definition typeMatches (v : value) (type : OcfFieldType) : bool :=
  match type with
  | type_unknown => true
  | type_string => match v with vstr _ => true | _ => false end
  | type_number => match v with vnum n => isFinite (num_of n) | _ => false end
  | type_integer => match v with vnum n => isInteger (num_of n) | _ => false end
  | type_bigint => match v with vbig _ => true | _ => false end
  | type_boolean => match v with vbool _ => true | _ => false end
  | type_array => match v with varr _ => true | _ => false end
  | type_object => match v with
                   | vobj _ | vopaque opaque_instance => negb (isReference v)
                   | _ => false
                   end
  | type_reference => isReference v
  end.

(** The members every object inherits, other than [__proto__]. *)
Definition inherited_methods : list text :=
  map txt ["constructor"; "__defineGetter__"; "__defineSetter__"; "hasOwnProperty";
           "__lookupGetter__"; "__lookupSetter__"; "isPrototypeOf"; "propertyIsEnumerable";
           "toString"; "valueOf"; "toLocaleString"]%string.

(** [field.values[key]]: an own property, or what the object inherits; the
    prototype of all objects has no enumerable property. *)
Definition values_get (values : list (text * text)) (key : text) : option value :=
  match jm_get values key with
  | Some wire => Some (vstr wire)
  | None =>
      if key === txt "__proto__" then Some (vobj [])
      else if bool_decide (key ∈ inherited_methods) then Some (vopaque opaque_function)
      else None
  end.

(** Source: packages/context-format/src/schema.ts:217-250 [validateFieldValue]. *)
Definition validateFieldValue (v : value) (field : OcfField) : oexc unit :=
  match v with
  | vnull => throw_if (fd_nullable field === Some false) (OcfError "invalid_field_value")
  | _ =>
      _ ← throw_if (negb (typeMatches v (fd_type field ?? type_unknown)))
            (OcfError "invalid_field_value");
      _ ← match v, fd_itemType field with
          | varr items, Some itemType =>
              for_each (fun item => throw_if (negb (typeMatches item itemType))
                                      (OcfError "invalid_field_value")) items
          | _, _ => mret tt
          end;
      match v, fd_values field with
      | vstr s, Some values =>
          throw_if (match values_get values s with None => true | Some _ => false end)
            (OcfError "invalid_field_value")
      | _, _ => mret tt
      end
  end.

(** Source: packages/context-format/src/schema.ts:252-254 [wireFieldName]. *)
Definition wireFieldName (field : OcfField) (compact : bool) : text :=
  if compact then fd_alias field ?? fd_name field else fd_name field.

(** Source: packages/context-format/src/schema.ts:256-267 [toWireValue]. *)
Definition toWireValue (v : value) (field : OcfField) : oexc value :=
  match fd_values field, v with
  | Some values, vstr s =>
      match values_get values s with
      | Some encoded => mret encoded
      | None => Throw (OcfError "invalid_field_value")
      end
  | _, _ => mret v
  end.

(** Source: packages/context-format/src/schema.ts:269-282 [fromWireValue]. *)
Definition fromWireValue (v : value) (field : OcfField) : oexc value :=
  match fd_values field, v with
  | Some values, vstr wire =>
      match find (fun f => f.2 === wire) (Object_entries values) with
      | Some match_ => mret (vstr match_.1)
      | None => Throw (OcfError "invalid_field_value")
      end
  | _, _ => mret v
  end.

(** * The schema registry keeps its two maps consistent and returns the schema it was
asked for: lemmas and theorems about OcfSchema. *)

(** ** Well-formed schemas *)

(** The name a field has in the compact profiles. *)
Definition wire_alias (field : OcfField) : text := fd_alias field ?? fd_name field.

(** No two declared values have one wire text. *)
Definition values_ok (values : list (text * text)) : Prop :=
  NoDup values.*2 /\ Forall (fun f => f.1 <> [] /\ f.2 <> []) values.

Record fields_ok (fields : list OcfField) : Prop := {
  names_identifiers : Forall (fun f => identifier (fd_name f) = true) fields;
  names_distinct : NoDup (map fd_name fields);
  aliases_identifiers : Forall (fun f => identifier (wire_alias f) = true) fields;
  aliases_distinct : NoDup (map wire_alias fields);
  fields_values : Forall (fun f => forall values, fd_values f = Some values -> values_ok values) fields }.

(** A numeric id is a natural number below 2^53. *)
Definition id_ok (id : SchemaId) : Prop :=
  match id with
  | id_text s => s <> []
  | id_number n => num_of n = ofZ (toZ (num_of n)) /\ 0 <= toZ (num_of n) < 2 ^ 53
  end.

Record schema_ok (schema : OcfSchema) : Prop := {
  schema_id : id_ok (sc_id schema);
  schema_name : identifier (sc_name schema) = true;
  schema_version : exists k, sc_version schema = Some (plain (ofZ k)) /\ 1 <= k < 2 ^ 53;
  schema_some : sc_fields schema <> [];
  schema_fields : fields_ok (sc_fields schema) }.

(** ** Normalization *)

Lemma assertIdentifier_ok s : assertIdentifier s = Ok tt -> identifier s = true.
Proof. intros H%throw_if_ok. by apply negb_false_iff in H. Qed.

Lemma check_values_ok entries : forall seen, check_values seen entries = Ok tt ->
  NoDup entries.*2 /\ (forall f, f ∈ entries -> (f.2 ∉ seen)) /\
  Forall (fun f => f.1 <> [] /\ f.2 <> []) entries.
Proof.
  induction entries as [|[v wire] entries IH]; intros seen H; cbn [check_values] in H.
  { split; [constructor|]. split; [|constructor]. by intros f ?%not_elem_of_nil. }
  apply seq_ok in H as [He%throw_if_ok H]. apply seq_ok in H as [Hw%throw_if_ok H].
  apply IH in H as (Hnd & Hseen & Hne). apply bool_decide_eq_false in Hw.
  apply orb_false_iff in He as [Hv Hwire].
  apply bool_decide_eq_false in Hv. apply bool_decide_eq_false in Hwire.
  split; [|split].
  - apply NoDup_cons. split; [|done]. cbn. intros [f [-> Hf]]%list_elem_of_fmap.
    apply (Hseen f Hf). by left.
  - intros f [->|Hf]%elem_of_cons; [done|]. intros Hs. apply (Hseen f Hf). by right.
  - by constructor.
Qed.

Lemma cloned_values_ok values :
  check_values [] (Object_entries values) = Ok tt -> values_ok (Object_entries values).
Proof. intros (Hnd & _ & Hne)%check_values_ok. by split. Qed.

(** What the loop over the fields establishes, relative to the names before. *)
Lemma normalize_fields_ok fields : forall names aliases r,
  normalize_fields names aliases fields = Ok r ->
  r = map cloneField fields /\ fields_ok r /\
  (forall f, f ∈ fields -> (fd_name f ∉ names) /\ (wire_alias f ∉ aliases)).
Proof.
  induction fields as [|field fields IH]; intros names aliases r H; cbn [normalize_fields] in H.
  { injection H as <-. split; [done|]. split; [by split; constructor|].
    by intros f ?%not_elem_of_nil. }
  apply seq_ok in H as [Hname%assertIdentifier_ok H].
  apply seq_ok in H as [Hn%throw_if_ok%bool_decide_eq_false H]. cbv zeta in H.
  apply seq_ok in H as [Halias%assertIdentifier_ok H].
  apply seq_ok in H as [Ha%throw_if_ok%bool_decide_eq_false H].
  apply seq_ok in H as [Hv H]. apply bind_ok in H as (rest & Hrest & [= <-]).
  apply IH in Hrest as (-> & [Hni Hnd Hai Had Hvs] & Hout).
  assert (forall (key : OcfField -> text) g, (forall f, key (cloneField f) = key f) ->
            (g ∈ map key (map cloneField fields)) -> exists f, (f ∈ fields) /\ g = key f) as Hin.
  { intros key g Hkey (f & -> & (f' & -> & Hf')%list_elem_of_fmap)%list_elem_of_fmap.
    by exists f'. }
  split; [done|]. split; [split|].
  - by constructor.
  - apply NoDup_cons. split; [|done]. intros (f & Hf & E)%(Hin fd_name); [|done].
    apply (proj1 (Hout f Hf)). change (fd_name field = fd_name f) in E. rewrite <- E. by left.
  - by constructor.
  - apply NoDup_cons. split; [|done]. intros (f & Hf & E)%(Hin wire_alias); [|done].
    apply (proj2 (Hout f Hf)). change (wire_alias field = wire_alias f) in E. rewrite <- E. by left.
  - constructor; [|done]. intros values. cbn [cloneField fd_values].
    destruct (fd_values field) as [vs|]; [|done]. intros [= <-]. by apply cloned_values_ok.
  - intros f [->|Hf]%elem_of_cons; [done|].
    destruct (Hout f Hf) as [H1 H2]. rewrite !not_elem_of_cons in *. tauto.
Qed.

Lemma safe_version v : negb (isSafeInteger (num_of v)) || js_lt (num_of v) (ofZ 1) = false ->
  exists k, v = plain (ofZ k) /\ 1 <= k < 2 ^ 53.
Proof.
  rewrite orb_false_iff, negb_false_iff. intros [Hs Hlt].
  pose proof (safe_integer_ofZ _ Hs) as E. rewrite E, js_lt_ofZ in Hlt. apply Z.ltb_ge in Hlt.
  exists (toZ (num_of v)). destruct v as [n|]; [|by cbn in Hlt].
  cbn [num_of] in *. split; [by rewrite <- E|]. split; [done|].
  rewrite E in Hs. cbn [isSafeInteger ofZ] in Hs. apply andb_prop in Hs as [_ Hs%Z.leb_le].
  rewrite Z.abs_mul, (Z.abs_eq one_units) in Hs by (pose proof one_units_pos; lia).
  apply Z.mul_le_mono_pos_r in Hs; [lia|exact one_units_pos].
Qed.

Lemma safe_id n : negb (isSafeInteger (num_of n)) || js_lt (num_of n) (ofZ 0) = false ->
  id_ok (id_number n).
Proof.
  rewrite orb_false_iff, negb_false_iff. intros [Hs Hlt].
  pose proof (safe_integer_ofZ _ Hs) as E. rewrite E, js_lt_ofZ in Hlt. apply Z.ltb_ge in Hlt.
  split; [done|]. split; [done|].
  rewrite E in Hs. cbn [isSafeInteger ofZ] in Hs. apply andb_prop in Hs as [_ Hs%Z.leb_le].
  rewrite Z.abs_mul, (Z.abs_eq one_units) in Hs by (pose proof one_units_pos; lia).
  apply Z.mul_le_mono_pos_r in Hs; [lia|exact one_units_pos].
Qed.

Lemma normalizeSchema_ok schema n : normalizeSchema schema = Ok n ->
  schema_ok n /\ sc_id n = sc_id schema /\ sc_name n = sc_name schema /\
  sc_fields n = map cloneField (sc_fields schema) /\
  sc_version n = Some (sc_version schema ?? plain (ofZ 1)).
Proof.
  unfold normalizeSchema. intros H.
  apply seq_ok in H as [Hid%throw_if_ok%bool_decide_eq_false H].
  apply seq_ok in H as [Hnum%throw_if_ok H].
  apply seq_ok in H as [Hname%assertIdentifier_ok H]. cbv zeta in H.
  apply seq_ok in H as [Hv%throw_if_ok%safe_version H].
  apply seq_ok in H as [Hf%throw_if_ok%bool_decide_eq_false H].
  apply bind_ok in H as (fields & Hfields & [= <-]).
  apply normalize_fields_ok in Hfields as (-> & Hok & _).
  split; [|done]. split; cbn [sc_id sc_name sc_version sc_fields]; [|done| | |done].
  - destruct (sc_id schema) as [s|m]; [done|]. by apply safe_id.
  - destruct Hv as (k & -> & Hk). by exists k.
  - by destruct (sc_fields schema).
Qed.

(** A normalized schema is well-formed: its name, field names and aliases are
    identifiers, names and aliases are distinct, declared wire values are distinct
    and not empty, the version is a positive and a numeric id a natural safe
    integer; only the version and the copies of the fields differ from the schema
    that was given. *)
Theorem normalizeSchema_spec schema n : normalizeSchema schema = Ok n ->
  schema_ok n /\ sc_id n = sc_id schema /\ sc_name n = sc_name schema /\
  sc_fields n = map cloneField (sc_fields schema) /\
  sc_version n = Some (sc_version schema ?? plain (ofZ 1)).
Proof. apply normalizeSchema_ok. Qed.

(** ** The registry *)

(** Both maps hold the same schemas, each under its name and under its id. *)
Record registry_ok (registry : OcfSchemaRegistry) : Prop := {
  named_entry name e : jm_get (byName registry) name = Some e ->
    sc_name e.2 = name /\ jm_get (byId registry) (keyForId (sc_id e.2)) = Some e /\
    schema_ok e.2 /\ (e.1 < registrations registry)%nat;
  identified_entry key e : jm_get (byId registry) key = Some e ->
    keyForId (sc_id e.2) = key /\ jm_get (byName registry) (sc_name e.2) = Some e;
  entry_identity name name' e e' : jm_get (byName registry) name = Some e ->
    jm_get (byName registry) name' = Some e' -> e.1 = e'.1 -> e = e' }.

Lemma empty_ok n : registry_ok (Registry [] [] n).
Proof. by split. Qed.

(** The two outcomes of a registration that succeeds. *)
Lemma register_cases schema registry e registry' :
  register schema registry = Ok (e, registry') ->
  exists n, normalizeSchema schema = Ok n /\
  ((jm_get (byName registry) (sc_name n) = None /\ jm_get (byId registry) (keyForId (sc_id n)) = None /\
    e = (registrations registry, n) /\
    registry' = Registry (jm_set (byName registry) (sc_name n) e)
                  (jm_set (byId registry) (keyForId (sc_id n)) e) (S (registrations registry))) \/
   (jm_get (byName registry) (sc_name n) = Some e /\
    is_Some (jm_get (byId registry) (keyForId (sc_id n))) /\
    schemaEquals e.2 n = true /\ registry' = registry)).
Proof.
  unfold register. intros H. apply bind_ok in H as (n & Hn & H). exists n. split; [done|].
  cbv zeta in H. destruct (jm_get (byName registry) (sc_name n)) as [existing|];
    destruct (jm_get (byId registry) (keyForId (sc_id n))) as [e2|]; try done.
  - right. apply seq_ok in H as [He%throw_if_ok%negb_false_iff [= <- <-]].
    split; [done|]. by split; [exists e2|].
  - left. set (r := Registry _ _ _) in H. injection H as <- <-. done.
Qed.

Lemma register_ok schema registry e registry' : registry_ok registry ->
  register schema registry = Ok (e, registry') -> registry_ok registry'.
Proof.
  intros [Hn Hi Hid] (n & Hnorm & [(Hname & Hkey & -> & ->)|(_ & _ & _ & ->)])%register_cases;
    [|by split].
  apply normalizeSchema_ok in Hnorm as [Hok _]. set (e := (registrations registry, n)) in *.
  assert (forall k e', jm_get (byName registry) k = Some e' -> k <> sc_name n) as Hfresh by congruence.
  split; cbn [byName byId registrations].
  - intros name e'. rewrite jm_get_set. case_decide as Hd.
    + intros [= <-]. rewrite jm_get_set_eq. cbn. split; [done|]. split; [done|]. split; [done|lia].
    + intros H. destruct (Hn _ _ H) as (H1 & H2 & H3 & H4). split; [done|].
      rewrite jm_get_set_ne by congruence. split; [done|]. split; [done|lia].
  - intros key e'. rewrite jm_get_set. case_decide as Hd.
    + intros [= <-]. by rewrite jm_get_set_eq.
    + intros H. destruct (Hi _ _ H) as [H1 H2]. split; [done|].
      rewrite jm_get_set_ne; [done|]. intros E. congruence.
  - intros name name' e1 e2. rewrite !jm_get_set. repeat case_decide; intros H1 H2 E; simplify_eq; try done.
    + destruct (Hn _ _ H2) as (_ & _ & _ & Hlt). cbn in E. lia.
    + destruct (Hn _ _ H1) as (_ & _ & _ & Hlt). cbn in E. lia.
    + by eapply Hid.
Qed.

Lemma resolve_cases reference registry e registry' :
  resolve reference registry = Ok (e, registry') ->
  (exists schema, reference = by_schema schema /\ register schema registry = Ok (e, registry')) \/
  (registry' = registry /\
   ((exists name, jm_get (byName registry) name = Some e) \/
    exists key, jm_get (byId registry) key = Some e)).
Proof.
  unfold resolve. destruct reference as [schema|name|n].
  - destruct (jm_get (byName registry) (sc_name schema)) as [named|] eqn:En; [|intros H; left; eauto].
    destruct (jm_get (byId registry) (keyForId (sc_id schema))) as [identified|]; [|intros H; left; eauto].
    destruct (_ =? _)%nat; [|intros H; left; eauto]. intros [= <- <-]. right. eauto.
  - intros H. apply bind_ok in H as (e' & Hf & [= <- <-]). right. split; [done|].
    unfold found, otherwise, by_numeric_id in Hf.
    destruct (jm_get (byName registry) name) eqn:En; [injection Hf as <-; eauto|].
    destruct (jm_get (byId registry) (keyForId (id_text name))) eqn:Ei; [injection Hf as <-; eauto|].
    destruct (nonempty_all is_digit name); [|done].
    destruct (jm_get (byId registry) _) eqn:Ej in Hf; [injection Hf as <-; eauto|done].
  - intros H. apply bind_ok in H as (e' & Hf & [= <- <-]). right. split; [done|].
    destruct (jm_get (byId registry) (keyForId (id_number n))) eqn:Ei; [injection Hf as <-; eauto|done].
Qed.

Lemma resolve_ok reference registry e registry' : registry_ok registry ->
  resolve reference registry = Ok (e, registry') -> registry_ok registry'.
Proof.
  intros Hok [(schema & _ & H)|[-> _]]%resolve_cases; [|done]. by eapply register_ok.
Qed.

(** What [resolve] returns is stored under its name. *)
Lemma resolve_named reference registry e registry' : registry_ok registry ->
  resolve reference registry = Ok (e, registry') ->
  jm_get (byName registry') (sc_name e.2) = Some e.
Proof.
  intros Hok [(schema & _ & H)|[-> [[name H]|[key H]]]]%resolve_cases.
  - apply register_cases in H as (n & _ & [(_ & _ & -> & ->)|(H & _ & _ & ->)]).
    + apply jm_get_set_eq.
    + destruct (named_entry _ Hok _ _ H) as [Hname _]. by rewrite Hname.
  - destruct (named_entry _ Hok _ _ H) as [Hname _]. by rewrite Hname.
  - apply (identified_entry _ Hok _ _ H).
Qed.

(** Asking again gives the same entry and changes nothing. *)
Lemma resolve_stable reference registry e registry' :
  resolve reference registry = Ok (e, registry') -> resolve reference registry' = Ok (e, registry').
Proof.
  destruct reference as [schema|name|n]; cbn [resolve].
  2,3: intros H; pose proof H as H'; apply bind_ok in H' as (e' & _ & [= <- <-]); exact H.
  intros H.
  assert ((registry' = registry /\ resolve (by_schema schema) registry = Ok (e, registry)) \/
          register schema registry = Ok (e, registry')) as [[-> H']|Hr]; [|exact H'|].
  { cbn [resolve]. destruct (jm_get (byName registry) (sc_name schema)) as [named|]; [|by right].
    destruct (jm_get (byId registry) (keyForId (sc_id schema))) as [identified|]; [|by right].
    destruct (_ =? _)%nat; [|by right]. injection H as <- <-. by left. }
  pose proof Hr as (n & Hn & Hc)%register_cases.
  apply normalizeSchema_ok in Hn as (_ & Hid & Hname & _).
  destruct Hc as [(_ & _ & -> & ->)|(_ & _ & _ & ->)]; [|exact H].
  cbn [byName byId]. rewrite <- Hid, <- Hname, !jm_get_set_eq, Nat.eqb_refl. done.
Qed.

(** *** Reachable registries *)

(** What a codec's calls can do to its registry. *)
Inductive registry_step : OcfSchemaRegistry -> OcfSchemaRegistry -> Prop :=
| step_register schema registry e registry' :
    register schema registry = Ok (e, registry') -> registry_step registry registry'
| step_resolve reference registry e registry' :
    resolve reference registry = Ok (e, registry') -> registry_step registry registry'
| step_clear registry : registry_step registry (clear registry).

Definition reachable : OcfSchemaRegistry -> Prop := rtc registry_step empty_registry.

Lemma registry_step_ok registry registry' :
  registry_ok registry -> registry_step registry registry' -> registry_ok registry'.
Proof.
  intros Hok Hstep. revert Hok. destruct Hstep; intros Hok.
  - by eapply register_ok.
  - by eapply resolve_ok.
  - apply empty_ok.
Qed.

Lemma reachable_ok registry : reachable registry -> registry_ok registry.
Proof.
  unfold reachable. intros H. pose proof (empty_ok 0) as H0. revert H0.
  fold empty_registry. induction H; [done|]. eauto using registry_step_ok.
Qed.

(** Identifiers begin with a letter, so no name is a run of digits. *)
Lemma identifier_no_digits s : identifier s = true -> nonempty_all is_digit s = false.
Proof.
  unfold identifier, nonempty_all, class_token. destruct s as [|c s]; [done|].
  intros [Hc _]%andb_prop. apply andb_false_intro1.
  revert Hc. unfold is_letter, is_upper, is_lower, is_digit, within.
  rewrite orb_true_iff, !andb_true_iff, andb_false_iff, !N.leb_le, !N.leb_gt. lia.
Qed.

(** The text of a numeric id is digits, and read back as the number. *)
Lemma numeric_id_text n : id_ok (id_number n) ->
  nonempty_all is_digit (String_number n) = true /\
  keyForId (id_number (Number_text (String_number n))) = keyForId (id_number n).
Proof.
  intros [E Hk]. set (k := toZ (num_of n)) in *.
  assert (String_number n = decimal_text k) as Ht.
  { destruct n as [m|]; [|done]. cbn [num_of] in E. rewrite E.
    destruct (decide (k = 0)) as [->|]; [done|]. apply String_integer. lia. }
  assert (Number_text (String_number n) = plain (ofZ k)) as Hn.
  { rewrite Ht. destruct (decide (k = 0)) as [->|]; [by vm_compute|].
    rewrite <- String_integer by lia. apply Number_String, representable_ofZ. lia. }
  split.
  - rewrite Ht. destruct (decimal_text_head k ltac:(lia)) as (c & r & Ec & _).
    pose proof (decimal_text_digits k ltac:(lia)) as Hd. rewrite Ec in Hd |- *.
    apply Forall_cons in Hd as [Hc Hr]. cbn [nonempty_all class_token]. rewrite Hc.
    apply forallb_elem. by rewrite Forall_forall in Hr.
  - rewrite Hn. unfold keyForId, String_id. f_equal. rewrite Ht.
    destruct (decide (k = 0)) as [->|]; [done|]. apply String_integer. lia.
Qed.

(** A name finds its schema, and a number the schema with that id. *)
Lemma resolve_wire_name registry e : jm_get (byName registry) (sc_name e.2) = Some e ->
  resolveWireToken (sc_name e.2) registry = Ok e.
Proof. intros H. unfold resolveWireToken. by rewrite H. Qed.

Lemma resolve_wire_number registry e n : registry_ok registry ->
  jm_get (byName registry) (sc_name e.2) = Some e -> sc_id e.2 = id_number n ->
  resolveWireToken (String_number n) registry = Ok e.
Proof.
  intros Hok H Hid. destruct (named_entry _ Hok _ _ H) as (_ & Hkey & Hs & _).
  pose proof (schema_id _ Hs) as Hn. rewrite Hid in Hn, Hkey.
  destruct (numeric_id_text n Hn) as [Hd Hk].
  unfold resolveWireToken, by_numeric_id. rewrite Hd, Hk, Hkey.
  destruct (jm_get (byName registry) (String_number n)) as [e'|] eqn:E; [|done].
  destruct (named_entry _ Hok _ _ E) as (Hname & _ & Hs' & _).
  pose proof (identifier_no_digits _ (schema_name _ Hs')). congruence.
Qed.

(** Whatever a codec registers, resolves and clears, the two maps of its
    registry hold the same well-formed schemas, each under its own name and id,
    with one object per registration; and a reference that resolves does so again
    to the same object without a change. *)
Theorem registry_consistent registry reference e registry' :
  reachable registry -> resolve reference registry = Ok (e, registry') ->
  registry_ok registry' /\ schema_ok e.2 /\
  jm_get (byName registry') (sc_name e.2) = Some e /\
  jm_get (byId registry') (keyForId (sc_id e.2)) = Some e /\
  resolve reference registry' = Ok (e, registry').
Proof.
  intros Hr%reachable_ok H. pose proof (resolve_ok _ _ _ _ Hr H) as Hok.
  pose proof (resolve_named _ _ _ _ Hr H) as Hname.
  destruct (named_entry _ Hok _ _ Hname) as (_ & Hid & Hs & _).
  do 4 (split; [done|]). by eapply resolve_stable.
Qed.
