(* ===== verification/Ocf.v ===== *)
(** The OCF/1 codec: packages/context-format/src/ocf.ts.

    A codec is its registry.  [encode] and [decode] take and return values: a
    record is an object, a collection an array of objects.  The registry they leave
    is returned also when they throw: a schema that was resolved stays registered. *)

From Stdlib Require Import ZArith NArith Lia Ascii String.
From stdpp Require Import base strings list.
From S2P Require Import Prelude JsNumber JsString JsCollections JsText JsDecimal OcfValue OcfParse OcfRoundTrip OcfEqual OcfDelta OcfSchema.

Open Scope string_scope.
Open Scope list_scope.
#[local] Open Scope Z_scope.

(** Source: packages/context-format/src/types.ts:21-21 [OcfProfile]. *)
Inductive OcfProfile : Type := readable | compact | dense.

#[export] Instance OcfProfile_eq_dec : EqDecision OcfProfile.
Proof. solve_decision. Defined.

(** Source: packages/context-format/src/ocf.ts:30-30 [OcfShape]. *)
Inductive OcfShape : Type := shape_record | shape_collection.

#[export] Instance OcfShape_eq_dec : EqDecision OcfShape.
Proof. solve_decision. Defined.

(** Source: packages/context-format/src/types.ts:75-79 [OcfEncoded]. *)
Record OcfEncoded := Encoded {
  en_text : text;
  en_profile : OcfProfile;
  en_estimatedTokens : Z
}.

(** Source: packages/context-format/src/ocf.ts:32-38 [DecodedHeader]. *)
Record DecodedHeader := Header {
  hd_profile : OcfProfile;
  hd_shape : OcfShape;
  hd_schemaToken : text;
  hd_version : number;
  hd_fields : list text
}.

(** Source: packages/context-format/src/ocf.ts:40-40 [profiles]. *)
Definition profiles : list OcfProfile := [readable; compact; dense].

(** Source: packages/context-format/src/ocf.ts:42-44 [profileRank]. *)
Definition profileRank (profile : OcfProfile) : Z :=
  match profile with readable => 0 | compact => 1 | dense => 2 end.

Definition profile_text (profile : OcfProfile) : text :=
  match profile with readable => txt "readable" | compact => txt "compact" | dense => txt "dense" end.

Definition shape_text (shape : OcfShape) : text :=
  match shape with shape_record => txt "record" | shape_collection => txt "collection" end.

(** ** Encoding *)

(** Source: packages/context-format/src/ocf.ts:46-73 [assertRecord]. *)
Definition assertRecord (record : value) (schema : OcfSchema) : oexc unit :=
  match record with
  | vobj fields =>
      let allowed := map fd_name (sc_fields schema) in
      _ ← for_each (fun f => throw_if (negb (bool_decide (f.1 ∈ allowed))) (OcfError "invalid_record"))
            (Object_entries fields);
      for_each (fun field =>
          match jm_get fields (fd_name field) with
          | None => Throw (OcfError "invalid_record")
          | Some x =>
              _ ← assertSerializable x;
              validateFieldValue x field
          end) (sc_fields schema)
  | _ => Throw (OcfError "invalid_record")
  end.

(** Source: packages/context-format/src/ocf.ts:75-77 [schemaTokenFor]. *)
Definition schemaTokenFor (schema : OcfSchema) (profile : OcfProfile) : text :=
  match profile with dense => String_id (sc_id schema) | _ => sc_name schema end.

(** Source: packages/context-format/src/ocf.ts:109-116 [encodeValueForField]. *)
Definition encodeValueForField (v : value) (field : OcfField) : oexc text :=
  wireValue ← toWireValue v field;
  encodeValue wireValue.

Definition is_compact (profile : OcfProfile) : bool := profile !== readable.

Definition version_of (schema : OcfSchema) : number := sc_version schema ?? plain (ofZ 1).

(** The text of one record.
    Source: packages/context-format/src/ocf.ts:94-105 [render, record]. *)
Definition render_record (schema : OcfSchema) (schemaToken : text) (record : value) : oexc text :=
  values ← mapM (fun field =>
      match record with
      | vobj fields =>
          match jm_get fields (fd_name field) with
          | None | Some vundefined => Throw (OcfError "invalid_record")
          | Some x => encodeValueForField x field
          end
      | _ => Throw (OcfError "invalid_record")
      end) (sc_fields schema);
  mret (schemaToken ++ ch "|" :: join_with (ch "|") values).

(** Source: packages/context-format/src/ocf.ts:79-107 [render]. *)
Definition render (schema : OcfSchema) (records : list value) (profile : OcfProfile) (shape : OcfShape)
  : oexc text :=
  let schemaToken := schemaTokenFor schema profile in
  let fieldHeader := join_with (ch ",")
    (map (fun field => wireFieldName field (is_compact profile)) (sc_fields schema)) in
  lines ← mapM (render_record schema schemaToken) records;
  mret (join_with newline
    ((txt "!ocf/1|" ++ profile_text profile ++ ch "|" :: shape_text shape) ::
     (ch "@" :: schemaToken ++ ch "/" :: String_number (version_of schema) ++ ch "=" :: fieldHeader) ::
     lines)).

Definition encode_in (schema : OcfSchema) (records : list value) (shape : OcfShape)
  (profile : OcfProfile) : oexc OcfEncoded :=
  s ← render schema records profile shape;
  mret (Encoded s profile (estimateTokens s)).

(** The order of the candidates: fewer tokens, then the lower rank. *)
Definition candidate_le (left right : OcfEncoded) : bool :=
  (en_estimatedTokens left <? en_estimatedTokens right) ||
  ((en_estimatedTokens left =? en_estimatedTokens right) &&
   (profileRank (en_profile left) <=? profileRank (en_profile right))).

(** What follows the resolution of a schema keeps what was registered, however it ends. *)
Definition with_schema {A} (resolved : oexc (entry * OcfSchemaRegistry)) (codec : OcfSchemaRegistry)
  (body : OcfSchema -> oexc A) : OcfSchemaRegistry * oexc A :=
  match resolved with
  | Ok (e, codec) => (codec, body e.2)
  | Throw error => (codec, Throw error)
  end.

(** The profile is [None] for "adaptive", the default.
    Source: packages/context-format/src/ocf.ts:329-367 [encodeDetailed]. *)
Definition encodeDetailed (v : value) (reference : OcfSchemaReference) (profile : option OcfProfile)
  (codec : OcfSchemaRegistry) : OcfSchemaRegistry * oexc OcfEncoded :=
  with_schema (resolve reference codec) codec (fun schema =>
  let shape := match v with varr _ => shape_collection | _ => shape_record end in
  let records := match v with varr items => items | _ => [v] end in
  _ ← for_each (fun record => assertRecord record schema) records;
  match profile with
  | Some requestedProfile => encode_in schema records shape requestedProfile
  | None =>
      candidates ← mapM (encode_in schema records shape) profiles;
      match sort_by candidate_le candidates with
      | first :: _ => mret first
      | [] => Throw (OcfError "invalid_record")
      end
  end).

(** Source: packages/context-format/src/ocf.ts:322-327 [encode]. *)
Definition encode (v : value) (reference : OcfSchemaReference) (profile : option OcfProfile)
  (codec : OcfSchemaRegistry) : OcfSchemaRegistry * oexc text :=
  let '(codec, encoded) := encodeDetailed v reference profile codec in
  (codec, encoded ← encoded; mret (en_text encoded)).

(** ** Decoding *)

(** Source: packages/context-format/src/ocf.ts:123-172 [splitRecordLine]. *)
Definition splitRecordLine (source : text) (line : Z) : oexc (list SplitPart) :=
  split_loop (ch "|")
    (fun index => Some (OcfParseError "malformed_record" line (index + 1)))
    (fun st => if in_string st || negb (depth st =? 0)
               then Some (OcfParseError "malformed_record" line (Z.of_nat (length source) + 1))
               else None)
    outside source 0 0 [].

(** The place of the first empty line, from [line] on. *)
Fixpoint first_blank (lines : list text) (line : Z) : option Z :=
  match lines with
  | [] => None
  | [] :: _ => Some line
  | _ :: lines => first_blank lines (line + 1)
  end.

(** Source: packages/context-format/src/ocf.ts:174-200 [parseHeader]. *)
Definition parseHeader (s : text) : oexc (list text) :=
  _ ← throw_if (s === []) (OcfParseError "empty_input" 1 1);
  _ ← throw_if (bool_decide (13%N ∈ s) && negb (has_crlf s)) (OcfParseError "line_endings" 1 1);
  let lines := text_lines s in
  match first_blank lines 1 with
  | Some line => Throw (OcfParseError "blank_line" line 1)
  | None =>
      _ ← throw_if (length lines <? 2)%nat
            (OcfParseError "truncated_input" (Z.of_nat (length lines) + 1) 1);
      mret lines
  end.

Definition profile_of (s : text) : option OcfProfile := find (fun p => profile_text p === s) profiles.
Definition shape_of (s : text) : option OcfShape :=
  find (fun p => shape_text p === s) [shape_record; shape_collection].

(** The stream header.
    Source: packages/context-format/src/ocf.ts:203-226 [decodeHeaders, stream]. *)
Definition decode_stream (stream : text) : oexc (OcfProfile * OcfShape) :=
  match split_on (ch "|") stream with
  | [magic; profile; shape] =>
      _ ← throw_if (magic !== txt "!ocf/1") (OcfParseError "invalid_header" 1 1);
      match profile_of profile with
      | None => Throw (OcfParseError "invalid_profile" 1 8)
      | Some profile =>
          match shape_of shape with
          | None => Throw (OcfParseError "invalid_shape" 1 1)
          | Some shape => mret (profile, shape)
          end
      end
  | _ => Throw (OcfParseError "invalid_header" 1 1)
  end.

(** [/^[1-9][0-9]*$/] *)
Definition positive_digits (s : text) : bool :=
  class_token (fun c => is_digit c && negb (c =? ch "0")%N) is_digit s.

(** The part of the schema header before the equals sign.
    Source: packages/context-format/src/ocf.ts:243-275 [decodeHeaders, schema]. *)
Definition decode_schema_part (schemaPart : text) : oexc (text * number) :=
  match last_index_of (ch "/") schemaPart with
  | None | Some O => Throw (OcfParseError "invalid_schema_header" 2 1)
  | Some slash =>
      _ ← throw_if (slash =? length schemaPart - 1)%nat (OcfParseError "invalid_schema_header" 2 1);
      let schemaToken := take slash schemaPart in
      let versionText := drop (S slash) schemaPart in
      let at_version := Z.of_nat slash + 2 in
      _ ← throw_if (negb (isSchemaToken schemaToken)) (OcfParseError "invalid_schema_header" 2 2);
      _ ← throw_if (negb (positive_digits versionText)) (OcfParseError "invalid_schema_header" 2 at_version);
      let version := Number_text versionText in
      _ ← throw_if (negb (isSafeInteger (num_of version)))
            (OcfParseError "invalid_schema_header" 2 at_version);
      mret (schemaToken, version)
  end.

Definition has_duplicates (fields : list text) : bool := negb (bool_decide (NoDup fields)).

(** Source: packages/context-format/src/ocf.ts:202-300 [decodeHeaders]. *)
Definition decodeHeaders (stream schemaLine : text) : oexc DecodedHeader :=
  '(profile, shape) ← decode_stream stream;
  _ ← throw_if (negb (starts_with (ch "@") schemaLine)) (OcfParseError "invalid_schema_header" 2 1);
  match index_of (ch "=") schemaLine with
  | None | Some (O | S O) => Throw (OcfParseError "invalid_schema_header" 2 1)
  | Some equals =>
      _ ← throw_if (Some equals !== last_index_of (ch "=") schemaLine)
            (OcfParseError "invalid_schema_header" 2 1);
      '(schemaToken, version) ← decode_schema_part (take (equals - 1) (drop 1 schemaLine));
      let fields := split_on (ch ",") (drop (S equals) schemaLine) in
      let at_fields := Z.of_nat equals + 2 in
      _ ← throw_if (existsb (fun field => negb (isSchemaToken field)) fields)
            (OcfParseError "invalid_schema_header" 2 at_fields);
      _ ← throw_if (has_duplicates fields) (OcfParseError "invalid_schema_header" 2 at_fields);
      mret (Header profile shape schemaToken version fields)
  end.

(** Exceptions of the format get a position.
    Source: packages/context-format/src/ocf.ts:443-453 [decode, catch]. *)
Definition with_position {A} (line column : Z) (r : oexc A) : oexc A :=
  match r with
  | Throw (OcfError code) => Throw (OcfParseError code line column)
  | _ => r
  end.

(** Source: packages/context-format/src/ocf.ts:427-454 [decode, fields]. *)
Fixpoint decode_fields (line : Z) (fields : list OcfField) (parts : list SplitPart)
  (record : list (text * value)) : oexc (list (text * value)) :=
  match fields, parts with
  | field :: fields, part :: parts =>
      let column := part_offset part + 1 in
      x ← with_position line column (
        parsed ← parseValue (part_text part) line column;
        x ← fromWireValue parsed field;
        _ ← validateFieldValue x field;
        mret x);
      decode_fields line fields parts (jm_set record (fd_name field) x)
  | _, _ => mret record
  end.

(** Source: packages/context-format/src/ocf.ts:410-456 [decode, records]. *)
Definition decode_record (schema : OcfSchema) (expectedToken : text) (source : text) (line : Z)
  : oexc value :=
  parts ← splitRecordLine source line;
  match parts with
  | first :: parts =>
      _ ← throw_if (part_text first !== expectedToken) (OcfParseError "schema_mismatch" line 1);
      _ ← throw_if (negb (length parts =? length (sc_fields schema))%nat)
            (OcfParseError "field_count" line 1);
      record ← decode_fields line (sc_fields schema) parts [];
      mret (vobj record)
  | [] => Throw (OcfParseError "schema_mismatch" line 1)
  end.

Fixpoint decode_records (schema : OcfSchema) (expectedToken : text) (lines : list text) (line : Z)
  : oexc (list value) :=
  match lines with
  | [] => mret []
  | source :: lines =>
      record ← decode_record schema expectedToken source line;
      records ← decode_records schema expectedToken lines (line + 1);
      mret (record :: records)
  end.

(** Source: packages/context-format/src/ocf.ts:375-378 [decode, schema]. *)
Definition schema_for (schemaToken : text) (reference : option OcfSchemaReference)
  (codec : OcfSchemaRegistry) : oexc (entry * OcfSchemaRegistry) :=
  match reference with
  | None => e ← resolveWireToken schemaToken codec; mret (e, codec)
  | Some reference => resolve reference codec
  end.

(** Source: packages/context-format/src/ocf.ts:373-374 [decode, header]. *)
Definition read_header (s : text) : oexc (DecodedHeader * list text) :=
  lines ← parseHeader s;
  match lines with
  | stream :: schemaLine :: recordLines =>
      header ← decodeHeaders stream schemaLine;
      mret (header, recordLines)
  | _ => Throw (OcfParseError "truncated_input" (Z.of_nat (length lines) + 1) 1)
  end.

(** The schema is [None] when the options omit it.
    Source: packages/context-format/src/ocf.ts:369-467 [decode]. *)
Definition decode (s : text) (reference : option OcfSchemaReference) (codec : OcfSchemaRegistry)
  : OcfSchemaRegistry * oexc value :=
  match read_header s with
  | Throw error => (codec, Throw error)
  | Ok (header, recordLines) =>
      with_schema (schema_for (hd_schemaToken header) reference codec) codec (fun schema =>
      let expectedToken := schemaTokenFor schema (hd_profile header) in
      _ ← throw_if (hd_schemaToken header !== expectedToken) (OcfParseError "schema_mismatch" 2 2);
      _ ← throw_if (negb (js_eq (num_of (hd_version header)) (num_of (version_of schema))))
            (OcfParseError "schema_version_mismatch" 2 1);
      let expectedFields :=
        map (fun field => wireFieldName field (is_compact (hd_profile header))) (sc_fields schema) in
      _ ← throw_if (hd_fields header !== expectedFields) (OcfParseError "schema_mismatch" 2 1);
      records ← decode_records schema expectedToken recordLines 3;
      match hd_shape header with
      | shape_record =>
          match records with
          | [record] => mret record
          | _ => Throw (OcfParseError "record_count" 3 1)
          end
      | shape_collection => mret (varr records)
      end)
  end.
