(* ===== verification/OcfCodec.v ===== *)
(** What a codec writes it reads back: lemmas and theorems about Ocf. *)

From Stdlib Require Import ZArith NArith Lia Ascii String Sorted.
From stdpp Require Import base strings list.
From S2P Require Import Prelude JsNumber JsString JsCollections JsText JsDecimal OcfValue OcfParse OcfRoundTrip OcfEqual OcfDelta OcfPatch OcfStream OcfSchema Ocf.

Open Scope string_scope.
Open Scope list_scope.
#[local] Open Scope Z_scope.

(** ** Fields *)

Lemma typeMatches_decoded type x : value_ok x -> safe x ->
  typeMatches x type = true -> typeMatches (decoded x) type = true.
Proof.
  intros Hok Hs. destruct type, x as [| | | | | | | |fields]; try done.
  all: cbn [typeMatches]; destruct (isReference (vobj fields)) eqn:E; cbn [decoded negb]; rewrite E; try done.
  - intros _. apply value_ok_fields in Hok as [Hnd _]. rewrite sorted_entries_map.
    by rewrite isReference_decoded.
  - intros _. revert E. cbn [isReference]. rewrite andb_true_iff. intros [_ H].
    destruct (jm_get fields (txt "$ref")) as [ref|]; [|done].
    destruct (jm_get fields (txt "id")) as [id|]; [|by destruct ref].
    by destruct ref, id.
Qed.

(** Declared values are not looked up under the name of the prototype. *)
Definition no_prototype (x : value) (field : OcfField) : Prop :=
  fd_values field <> None -> x <> vstr (txt "__proto__").

Lemma validateFieldValue_decoded x field : value_ok x -> safe x ->
  validateFieldValue x field = Ok tt -> validateFieldValue (decoded x) field = Ok tt.
Proof.
  intros Hok Hs. unfold validateFieldValue at 1. intros H.
  assert (x = vnull \/ x <> vnull) as [->|Hnull] by (destruct x; auto; by right); [exact H|].
  assert (throw_if (negb (typeMatches x (fd_type field ?? type_unknown)))
            (OcfError "invalid_field_value") = Ok tt) as Hty.
  { destruct x; try done; by apply seq_ok in H as [? _]. }
  apply throw_if_ok, negb_false_iff in Hty. pose proof (typeMatches_decoded _ x Hok Hs Hty) as Hty'.
  destruct x as [|o| |b|n|z|s|items|fields]; try done.
  - cbn [decoded validateFieldValue] in Hty' |- *. rewrite Hty'. cbn [negb throw_if mbind result_bind].
    apply seq_ok in H as [_ H]. apply seq_ok in H as [Hitems _].
    destruct (fd_itemType field) as [itemType|]; [|done].
    assert (for_each (fun item => throw_if (negb (typeMatches item itemType))
              (OcfError "invalid_field_value")) (map decoded items) = Ok tt) as ->; [|done].
    apply for_each_safe. apply for_each_safe in Hitems. apply value_ok_array in Hok.
    apply safe_array in Hs. apply Forall_fmap.
    rewrite Forall_forall in *. intros item Hin. cbn.
    rewrite typeMatches_decoded; [done|by apply Hok|by apply Hs|].
    apply Hitems, throw_if_ok in Hin. by apply negb_false_iff in Hin.
  - cbn [decoded] in *. destruct (isReference (vobj fields)) eqn:E;
      cbn [validateFieldValue]; rewrite Hty'; by destruct (fd_itemType field), (fd_values field).
Qed.

Lemma find_wire (values : list (text * text)) key wire : NoDup values.*2 -> (key, wire) ∈ values ->
  find (fun f => f.2 === wire) values = Some (key, wire).
Proof.
  induction values as [|[k w] values IH]; intros Hnd Hin; [by apply not_elem_of_nil in Hin|].
  cbn [fmap list_fmap snd] in Hnd. apply NoDup_cons in Hnd as [Hw Hnd]. cbn [find snd].
  destruct (decide (w = wire)) as [->|Hne].
  - rewrite bool_decide_eq_true_2 by done. apply elem_of_cons in Hin as [[= ->]|Hin]; [done|].
    destruct Hw. apply list_elem_of_fmap. by exists (key, wire).
  - rewrite bool_decide_eq_false_2 by done. apply IH; [done|].
    apply elem_of_cons in Hin as [[= _ ->]|Hin]; [done|exact Hin].
Qed.

(** One field is written as a text without separators and read back. *)
Lemma field_reads x field t :
  (forall values, fd_values field = Some values -> values_ok values) ->
  value_ok x -> no_prototype x field -> validateFieldValue x field = Ok tt ->
  encodeValueForField x field = Ok t ->
  wire t /\ forall line column,
    (parsed ← parseValue t line column;
     y ← fromWireValue parsed field;
     _ ← validateFieldValue y field;
     mret y) = Ok (decoded x).
Proof.
  intros Hvs Hok Hproto Hvalid. unfold encodeValueForField, toWireValue.
  destruct (fd_values field) as [values|] eqn:Ev; [|].
  1: assert ((exists s, x = vstr s) \/ ~ (exists s, x = vstr s)) as [[s ->]|Hns]
       by (destruct x; first [by left; eauto|by right; intros [? ?]]).
  - unfold values_get. destruct (jm_get values s) as [w|] eqn:Hw.
    + cbn [mbind result_bind]. intros Ht. apply (encode_reads (vstr w) t) in Ht as [Hwire Hread]; [|done].
      split; [done|]. intros line column. rewrite Hread. cbn [mbind result_bind decoded].
      unfold fromWireValue. rewrite Ev. destruct (Hvs _ eq_refl) as [Hnd _].
      rewrite (find_wire _ s w).
      * cbn [mbind result_bind fst mret result_ret]. by rewrite Hvalid.
      * by rewrite Object_entries_permutation.
      * apply elem_of_Object_entries. by apply jm_get_Some_elem.
    + rewrite bool_decide_eq_false_2.
      2: { intros ->. apply Hproto; [by rewrite Ev|done]. }
      destruct (bool_decide (s ∈ inherited_methods)); done.
  - intros H. assert (encodeValue x = Ok t) as Ht by (destruct x; try exact H; destruct Hns; eauto).
    clear H. pose proof (encode_safe _ _ Ht) as Hsafe.
    destruct (encode_reads x t Hok Ht) as [Hwire Hread]. split; [done|]. intros line column.
    rewrite Hread. cbn [mbind result_bind].
    assert (fromWireValue (decoded x) field = Ok (decoded x)) as ->.
    { unfold fromWireValue. rewrite Ev. destruct x; try done; [destruct Hns; eauto|].
      cbn [decoded]. by destruct (isReference _). }
    cbn [mbind result_bind]. by rewrite validateFieldValue_decoded.
  - cbn [mbind result_bind]. intros Ht. pose proof (encode_safe _ _ Ht) as Hsafe.
    destruct (encode_reads x t Hok Ht) as [Hwire Hread]. split; [done|]. intros line column.
    rewrite Hread. cbn [mbind result_bind]. unfold fromWireValue. rewrite Ev.
    cbn [mbind result_bind mret result_ret].
    by rewrite validateFieldValue_decoded.
Qed.

(** ** Tokens and headers *)

Lemma identifier_token s : identifier s = true -> isSchemaToken s = true.
Proof. intros H. unfold isSchemaToken, identifier in *. by rewrite H. Qed.

(** A unit of a token is no separator of the header. *)
Lemma token_without c s : is_alnum c || one_of "_-" c = false -> isSchemaToken s = true -> c ∉ s.
Proof.
  intros Hc [_ H]%token_units Hin. rewrite forallb_elem in H. apply H in Hin. congruence.
Qed.

Lemma digits_without c s : is_digit c = false -> all_digits s -> c ∉ s.
Proof. intros Hc H Hin. unfold all_digits in H. rewrite Forall_forall in H. apply H in Hin. congruence. Qed.

Lemma digits_solid s : all_digits s -> forallb solid s = true.
Proof.
  intros H. apply (class_solid is_digit); [|done|].
  - intros c. unfold is_digit. rewrite within_true. lia.
  - apply forallb_elem. unfold all_digits in H. by rewrite Forall_forall in H.
Qed.

Lemma join_without c d parts : c <> d -> Forall (fun p => c ∉ p) parts -> c ∉ join_with d parts.
Proof.
  intros Hcd H. induction H as [|p ps Hp Hps IH]; [by apply not_elem_of_nil|].
  destruct ps as [|q ps]; [done|].
  change (join_with d (p :: q :: ps)) with (p ++ d :: join_with d (q :: ps)).
  rewrite not_elem_of_app, not_elem_of_cons. done.
Qed.

Lemma decode_stream_text profile shape :
  decode_stream (txt "!ocf/1|" ++ profile_text profile ++ ch "|" :: shape_text shape) =
  Ok (profile, shape).
Proof. by destruct profile, shape; vm_compute. Qed.

Lemma version_text k : 1 <= k < 2 ^ 53 ->
  String_number (plain (ofZ k)) = decimal_text k /\ Number_text (decimal_text k) = plain (ofZ k) /\
  positive_digits (decimal_text k) = true.
Proof.
  intros Hk. rewrite String_integer by lia. split; [done|]. split.
  - rewrite <- String_integer by lia. apply Number_String, representable_ofZ. lia.
  - destruct (decimal_text_pos k ltac:(lia)) as (c & r & -> & Hc & Hd & Hr).
    cbn [positive_digits class_token]. rewrite Hd. cbn [andb].
    replace (c =? ch "0")%N with false by (symmetry; by apply N.eqb_neq).
    cbn [negb andb]. apply forallb_elem.
    unfold all_digits in Hr. by rewrite Forall_forall in Hr.
Qed.

Lemma decode_schema_text token k : isSchemaToken token = true -> 1 <= k < 2 ^ 53 ->
  decode_schema_part (token ++ ch "/" :: decimal_text k) = Ok (token, plain (ofZ k)).
Proof.
  intros Ht Hk. destruct (version_text k Hk) as (_ & Hn & Hp).
  unfold decode_schema_part. rewrite last_index_of_app.
  2: { apply digits_without; [done|]. apply decimal_text_digits. lia. }
  pose proof (decimal_text_not_nil k ltac:(lia)) as Hne.
  destruct (token_units token Ht) as [Htok _]. destruct (length token) as [|n] eqn:Hlen; [by destruct token|].
  rewrite <- Hlen, take_app_length, length_app. cbn [length].
  assert (length (decimal_text k) <> O) as Hl by by destruct (decimal_text k).
  rewrite (proj2 (Nat.eqb_neq _ _)) by lia. cbn [throw_if mbind result_bind].
  rewrite Ht. cbn [negb throw_if mbind result_bind].
  replace (S (length token)) with (length token + 1)%nat by lia. rewrite drop_past, Hp, Hn.
  cbn [negb throw_if mbind result_bind num_of]. rewrite isSafeInteger_ofZ by lia. done.
Qed.

Lemma take_past {A} (c : A) p s : take (length (c :: p) - 1) (drop 1 ((c :: p) ++ s)) = p.
Proof.
  change (drop 1 ((c :: p) ++ s)) with (drop 0 (p ++ s)). rewrite drop_0.
  replace (length (c :: p) - 1)%nat with (length p) by (cbn; lia). apply take_app_length.
Qed.

(** The schema header of a well-formed schema. *)
Lemma decode_schema_line profile shape token k fields : isSchemaToken token = true -> 1 <= k < 2 ^ 53 ->
  Forall (fun f => identifier f = true) fields -> NoDup fields -> fields <> [] ->
  decodeHeaders (txt "!ocf/1|" ++ profile_text profile ++ ch "|" :: shape_text shape)
    (ch "@" :: token ++ ch "/" :: decimal_text k ++ ch "=" :: join_with (ch ",") fields) =
  Ok (Header profile shape token (plain (ofZ k)) fields).
Proof.
  intros Ht Hk Hf Hnd Hne. unfold decodeHeaders. rewrite decode_stream_text. cbn [mbind result_bind].
  change (starts_with (ch "@") _) with true. cbn [negb throw_if mbind result_bind].
  assert (Forall (fun f => isSchemaToken f = true) fields) as Htoks
    by (eapply Forall_impl; [exact Hf|apply identifier_token]).
  set (part := token ++ ch "/" :: decimal_text k).
  assert (ch "@" :: token ++ ch "/" :: decimal_text k ++ ch "=" :: join_with (ch ",") fields =
          (ch "@" :: part) ++ ch "=" :: join_with (ch ",") fields) as ->.
  { unfold part. by rewrite <- app_comm_cons, <- app_assoc. }
  assert (ch "=" ∉ ch "@" :: part) as Hpart.
  { unfold part. rewrite not_elem_of_cons, not_elem_of_app, not_elem_of_cons.
    split; [done|]. split; [by apply token_without|]. split; [done|].
    apply digits_without; [done|]. apply decimal_text_digits. lia. }
  assert (ch "=" ∉ join_with (ch ",") fields) as Hjoin.
  { apply join_without; [done|]. eapply Forall_impl; [exact Htoks|]. cbn. intros f.
    by apply token_without. }
  rewrite index_of_app, last_index_of_app by done.
  destruct (token_units token Ht) as [Htok _].
  assert (exists n, length (ch "@" :: part) = S (S n)) as [n Hn].
  { unfold part. destruct token; [done|]. cbn. eauto. }
  rewrite Hn, bool_decide_eq_true_2 by done. rewrite <- Hn. cbn [negb throw_if mbind result_bind].
  rewrite take_past.
  assert (decode_schema_part part = Ok (token, plain (ofZ k))) as -> by by apply decode_schema_text.
  cbn [mbind result_bind].
  replace (S (length (ch "@" :: part))) with (length (ch "@" :: part) + 1)%nat by lia.
  rewrite drop_past, split_join; [|done|].
  2: { eapply Forall_impl; [exact Htoks|]. cbn. intros f. by apply token_without. }
  rewrite (proj2 (existsb_false _ _)).
  2: { intros f Hin. rewrite Forall_forall in Htoks. by rewrite (Htoks f Hin). }
  unfold has_duplicates. by rewrite bool_decide_eq_true_2.
Qed.

(** ** Records *)

(** The record a reader gets: the fields in the order of the schema. *)
Definition read_record (schema : OcfSchema) (record : value) : value :=
  match record with
  | vobj fields =>
      vobj (map (fun field => (fd_name field, decoded (jm_get fields (fd_name field) ?? vundefined)))
             (sc_fields schema))
  | _ => record
  end.

Definition read_value (schema : OcfSchema) (v : value) : value :=
  match v with
  | varr records => varr (map (read_record schema) records)
  | _ => read_record schema v
  end.

(** No declared field holds the name of the prototype. *)
Definition record_ok (schema : OcfSchema) (record : value) : Prop :=
  value_ok record /\
  forall fields field x, record = vobj fields -> field ∈ sc_fields schema ->
    jm_get fields (fd_name field) = Some x -> no_prototype x field.

Definition records_of (v : value) : list value := match v with varr items => items | _ => [v] end.

Lemma assertRecord_ok record schema : assertRecord record schema = Ok tt ->
  exists fields, record = vobj fields /\
    Forall (fun f => f.1 ∈ map fd_name (sc_fields schema)) fields /\
    Forall (fun field => exists x, jm_get fields (fd_name field) = Some x /\ safe x /\
              validateFieldValue x field = Ok tt) (sc_fields schema).
Proof.
  destruct record as [| | | | | | | |fields]; try done. intros H. exists fields. split; [done|].
  cbn [assertRecord] in H. apply seq_ok in H as [Hk Hf].
  apply for_each_safe in Hk. apply for_each_safe in Hf. split.
  - rewrite Forall_forall in Hk |- *. intros f Hin.
    specialize (Hk f (proj2 (elem_of_Object_entries _ _) Hin)). apply throw_if_ok, negb_false_iff in Hk.
    by apply bool_decide_eq_true in Hk.
  - eapply Forall_impl; [exact Hf|]. cbn. intros field H.
    destruct (jm_get fields (fd_name field)) as [x|]; [|done].
    apply seq_ok in H as [Hs Hv]. by exists x.
Qed.

(** The texts [ts] of fields are read back one by one. *)
Lemma decode_fields_text line fields parts xs : forall record,
  Forall2 (fun field_x part => forall l c,
     (parsed ← parseValue (part_text part) l c;
      y ← fromWireValue parsed field_x.1;
      _ ← validateFieldValue y field_x.1;
      mret y) = Ok field_x.2) (zip fields xs) parts ->
  length xs = length fields -> NoDup (record.*1 ++ map fd_name fields) ->
  decode_fields line fields parts record = Ok (record ++ zip (map fd_name fields) xs).
Proof.
  revert fields parts. induction xs as [|x xs IH]; intros [|field fields] parts record H Hlen Hnd; try done.
  - inversion H; subst. cbn. by rewrite app_nil_r.
  - cbn [zip zip_with] in H. apply Forall2_cons_inv_l in H as (part & parts' & Hx & H & ->).
    cbn [decode_fields]. cbv zeta. cbn [fst snd] in Hx. rewrite Hx. cbn [with_position mbind result_bind].
    cbn [map] in Hnd. rewrite NoDup_app, NoDup_cons in Hnd. destruct Hnd as (Hr & Hdis & Hname & Hfs).
    assert (fd_name field ∉ record.*1) as Hfresh by (intros Hin; eapply Hdis; [exact Hin|by left]).
    rewrite jm_set_fresh.
    2: { destruct (jm_has record (fd_name field)) eqn:E; [|done]. by apply jm_has_elem in E. }
    rewrite IH; [|done|by injection Hlen|].
    + by rewrite <- app_assoc.
    + rewrite fmap_app, <- app_assoc. cbn. apply NoDup_app. split; [done|]. split; [|by apply NoDup_cons].
      intros k Hk [->|Hk']%elem_of_cons; [done|]. eapply Hdis; [exact Hk|by right].
Qed.

(** A rendered record. *)
Lemma render_record_text schema token fields line :
  render_record schema token (vobj fields) = Ok line ->
  exists ts, Forall2 (fun field t => exists x, jm_get fields (fd_name field) = Some x /\
               encodeValueForField x field = Ok t) (sc_fields schema) ts /\
    line = join_with (ch "|") (token :: ts) /\ ts <> [] \/ sc_fields schema = [].
Proof.
  unfold render_record. intros H. apply bind_ok in H as (ts & Hts%mapM_Forall2 & [= <-]). exists ts.
  destruct (sc_fields schema) as [|field fs] eqn:Ef; [by right|left].
  split; [|split; [by inversion Hts|by inversion Hts]].
  eapply Forall2_impl; [exact Hts|]. cbn. intros f t Ht.
  destruct (jm_get fields (fd_name f)) as [x|] eqn:Ex; [|done]. exists x. split; [done|].
  by destruct x.
Qed.

Lemma splitRecordLine_join line parts : Forall (closed list_unit) parts -> parts <> [] ->
  exists split, splitRecordLine (join_with (ch "|") parts) line = Ok split /\ map part_text split = parts.
Proof.
  intros H Hne. unfold splitRecordLine. apply (loop_join (ch "|")) with (avoid := list_unit); done.
Qed.

Lemma rendered_record schema token record line : schema_ok schema -> isSchemaToken token = true ->
  record_ok schema record -> assertRecord record schema = Ok tt ->
  render_record schema token record = Ok line ->
  printable line /\ line <> [] /\
  forall n, decode_record schema token line n = Ok (read_record schema record).
Proof.
  intros Hs Ht [Hok Hproto] Hassert Hline.
  apply assertRecord_ok in Hassert as (fields & -> & _ & Hfields).
  apply render_record_text in Hline as (ts & [(Hts & -> & Hne)|Hnil]);
    [|by destruct (schema_some _ Hs)].
  set (xs := map (fun field => decoded (jm_get fields (fd_name field) ?? vundefined)) (sc_fields schema)).
  assert (Forall2 (fun field_x t => wire t /\ forall l c,
     (parsed ← parseValue t l c;
      y ← fromWireValue parsed field_x.1;
      _ ← validateFieldValue y field_x.1;
      mret y) = Ok field_x.2) (zip (sc_fields schema) xs) ts) as Hreads.
  { unfold xs. pose proof (fields_values _ (schema_fields _ Hs)) as Hvs.
    assert (forall field x, field ∈ sc_fields schema -> jm_get fields (fd_name field) = Some x ->
              no_prototype x field) as Hp by eauto.
    clear Hproto Hne xs. induction Hts as [|field t fs ts (x & Hx & Hxt) Hts IH]; [constructor|].
    apply Forall_cons in Hvs as [Hv Hvs]. apply Forall_cons in Hfields as [(x' & Hx' & _ & Hvalid) Hfields].
    assert (x' = x) as -> by congruence. cbn [map zip zip_with]. constructor.
    - cbn [fst snd]. rewrite Hx. cbn [or_else]. apply field_reads; try done.
      + by eapply field_ok.
      + apply Hp; [by left|done].
    - apply IH; [done|done|]. intros f y Hf. apply Hp. by right. }
  assert (Forall wire ts) as Hwire.
  { apply Forall_forall. intros t Hin. apply list_elem_of_lookup in Hin as [i Hi].
    eapply Forall2_lookup_r in Hreads as (? & _ & ? & _); [|exact Hi]. done. }
  pose proof (token_solid token Ht) as Hsolid. destruct (token_units token Ht) as [Htne _].
  split; [|split].
  - apply printable_join_bar. constructor; [by apply solid_printable|].
    eapply Forall_impl; [exact Hwire|]. by intros ? [].
  - destruct ts as [|t ts]; [done|]. by destruct token.
  - intros n. unfold decode_record.
    destruct (splitRecordLine_join n (token :: ts)) as (parts & -> & Hmap).
    + constructor; [by apply solid_closed|]. eapply Forall_impl; [exact Hwire|]. by intros ? [].
    + done.
    + cbn [mbind result_bind]. destruct parts as [|first parts]; [done|]. injection Hmap as Hfirst Hparts.
      rewrite Hfirst, bool_decide_eq_true_2 by done. cbn [negb throw_if mbind result_bind].
      assert (length xs = length (sc_fields schema)) as Hlen by by unfold xs; rewrite length_map.
      assert (length parts = length (sc_fields schema)) as Hlen'.
      { rewrite <- (length_map part_text), Hparts. apply Forall2_length in Hts. done. }
      rewrite Hlen', Nat.eqb_refl. cbn [negb throw_if mbind result_bind].
      rewrite (decode_fields_text _ _ _ xs); [|..].
      * cbn [mbind result_bind mret result_ret]. cbn [read_record app]. do 2 f_equal. unfold xs.
        clear. induction (sc_fields schema) as [|f fs IH]; [done|]. cbn. by rewrite <- IH.
      * rewrite <- Hparts in Hreads. apply Forall2_fmap_r in Hreads.
        eapply Forall2_impl; [exact Hreads|]. by intros ? ? [].
      * done.
      * cbn. apply (names_distinct _ (schema_fields _ Hs)).
Qed.

(** ** Streams *)

(** The schema token of a profile can be written; only a textual id in the dense
    profile may not be. *)
Definition token_ok (schema : OcfSchema) (profile : OcfProfile) : Prop :=
  match profile, sc_id schema with
  | dense, id_text s => isSchemaToken s = true
  | _, _ => True
  end.

Lemma token_valid schema profile : schema_ok schema -> token_ok schema profile ->
  isSchemaToken (schemaTokenFor schema profile) = true.
Proof.
  intros Hs Ht. pose proof (schema_id _ Hs) as Hid.
  destruct profile; cbn [schemaTokenFor]; try (apply identifier_token, (schema_name _ Hs)).
  unfold token_ok in Ht. destruct (sc_id schema) as [s|n]; [done|].
  destruct (numeric_id_text n Hid) as [Hd _]. unfold isSchemaToken. cbn [String_id].
  by rewrite Hd, orb_true_r.
Qed.

(** The field header of a profile is a list of distinct identifiers. *)
Lemma header_fields schema c : schema_ok schema ->
  let names := map (fun field => wireFieldName field c) (sc_fields schema) in
  Forall (fun f => identifier f = true) names /\ NoDup names /\ names <> [].
Proof.
  intros Hs. pose proof (schema_fields _ Hs) as [Hn Hnd Ha Had _]. pose proof (schema_some _ Hs) as Hne.
  assert (map (fun field => wireFieldName field c) (sc_fields schema) <> []) as Hne'
    by by destruct (sc_fields schema).
  destruct c; cbv zeta; (split; [by apply Forall_fmap|split; [done|exact Hne']]).
Qed.

Lemma first_blank_none lines n : Forall (fun l => l <> []) lines -> first_blank lines n = None.
Proof. intros H. revert n. induction H as [|l ls Hl _ IH]; intros n; [done|]. destruct l; [done|]. apply IH. Qed.

Lemma parseHeader_join lines : (2 <= length lines)%nat -> Forall printable lines ->
  Forall (fun l => l <> []) lines -> parseHeader (join_with newline lines) = Ok lines.
Proof.
  intros Hlen Hp Hne. unfold parseHeader.
  assert (lines <> []) as Hsome by by destruct lines; [cbn in Hlen; lia|].
  rewrite text_lines_join, first_blank_none by done.
  assert (join_with newline lines <> []) as Hj.
  { destruct lines as [|l ls]; [done|]. apply Forall_cons in Hne as [Hl _]. destruct l; [done|].
    by destruct ls. }
  assert (13%N ∉ join_with newline lines) as Hcr.
  { apply join_without; [done|]. eapply Forall_impl; [exact Hp|]. cbn. intros l Hl.
    by apply printable_no_newline. }
  rewrite (bool_decide_eq_false_2 _ Hj), (bool_decide_eq_false_2 _ Hcr). cbn [andb throw_if mbind result_bind].
  destruct (Nat.ltb_spec (length lines) 2); [lia|]. done.
Qed.

Lemma decode_records_lines schema token lines records :
  Forall2 (fun line record => forall n, decode_record schema token line n = Ok record) lines records ->
  forall n, decode_records schema token lines n = Ok records.
Proof.
  intros H. induction H as [|line record lines records Hl _ IH]; intros n; [done|].
  cbn [decode_records]. rewrite Hl. cbn [mbind result_bind]. by rewrite IH.
Qed.

(** Reading a rendered stream against the entry of its schema. *)
Lemma decode_rendered e v profile s reference codec codec' :
  schema_ok e.2 -> token_ok e.2 profile -> Forall (record_ok e.2) (records_of v) ->
  Forall (fun record => assertRecord record e.2 = Ok tt) (records_of v) ->
  render e.2 (records_of v) profile
    (match v with varr _ => shape_collection | _ => shape_record end) = Ok s ->
  schema_for (schemaTokenFor e.2 profile) reference codec = Ok (e, codec') ->
  decode s reference codec = (codec', Ok (read_value e.2 v)).
Proof.
  intros Hs Htok Hok Hassert Hrender Hresolve. pose proof (token_valid _ _ Hs Htok) as Ht.
  unfold render in Hrender. cbv zeta in Hrender.
  apply bind_ok in Hrender as (lines & Hlines & Htext).
  set (written := join_with newline _) in Htext. injection Htext as <-. unfold written. clear written.
  destruct (schema_version _ Hs) as (k & Hv & Hk). destruct (version_text k Hk) as (Hvt & _ & _).
  assert (version_of e.2 = plain (ofZ k)) as -> by (unfold version_of; by rewrite Hv).
  rewrite Hvt. destruct (header_fields e.2 (is_compact profile) Hs) as (Hf & Hfnd & Hfne).
  set (shape := match v with varr _ => shape_collection | _ => shape_record end).
  set (token := schemaTokenFor e.2 profile) in *.
  set (names := map (fun field => wireFieldName field (is_compact profile)) (sc_fields e.2)) in *.
  set (stream := txt "!ocf/1|" ++ profile_text profile ++ ch "|" :: shape_text shape).
  set (schemaLine := ch "@" :: token ++ ch "/" :: decimal_text k ++ ch "=" :: join_with (ch ",") names).
  apply mapM_Forall2 in Hlines.
  assert (Forall2 (fun record line => printable line /\ line <> [] /\
            forall n, decode_record e.2 token line n = Ok (read_record e.2 record)) (records_of v) lines) as Hread.
  { eapply Forall2_Forall_impl; [apply Forall_and; split; [exact Hok|exact Hassert]| |exact Hlines].
    cbn. intros record line [Hr Ha] Hline. by apply rendered_record. }
  assert (Forall (fun line => printable line /\ line <> []) lines) as Hlines'.
  { apply Forall_forall. intros line Hin. apply list_elem_of_lookup in Hin as [i Hi].
    eapply Forall2_lookup_r in Hread as (? & _ & ? & ? & _); [|exact Hi]. done. }
  assert (printable schemaLine) as Hschema.
  { unfold schemaLine. apply Forall_cons. split; [done|].
    apply printable_app. split; [by apply solid_printable, token_solid|]. apply Forall_cons. split; [done|].
    apply printable_app. split.
    { apply solid_printable, digits_solid, decimal_text_digits. lia. }
    apply Forall_cons. split; [done|]. apply printable_join. eapply Forall_impl; [exact Hf|].
    cbn. intros f Hid. by apply solid_printable, token_solid, identifier_token. }
  assert (printable stream) as Hstream.
  { unfold stream. destruct profile, shape; vm_compute; repeat constructor; discriminate. }
  unfold decode, read_header. rewrite parseHeader_join.
  2: { cbn [length]. lia. }
  2: { repeat (apply Forall_cons; split; [done|]). eapply Forall_impl; [exact Hlines'|]. tauto. }
  2: { repeat (apply Forall_cons; split; [done|]). eapply Forall_impl; [exact Hlines'|]. tauto. }
  cbn [mbind result_bind]. unfold stream, schemaLine. rewrite decode_schema_line by done.
  cbn [mbind result_bind hd_schemaToken hd_profile hd_version hd_fields hd_shape].
  unfold mret at 1, result_ret. cbn [hd_schemaToken hd_profile hd_version hd_fields hd_shape].
  rewrite Hresolve. cbn [with_schema]. f_equal.
  fold token. rewrite bool_decide_eq_true_2 by done. cbn [negb throw_if mbind result_bind].
  assert (version_of e.2 = plain (ofZ k)) as -> by (unfold version_of; by rewrite Hv).
  cbn [num_of]. rewrite js_eq_ofZ, Z.eqb_refl. cbn [negb throw_if mbind result_bind].
  fold names. rewrite bool_decide_eq_true_2 by done. cbn [negb throw_if mbind result_bind].
  rewrite (decode_records_lines _ _ _ (map (read_record e.2) (records_of v))).
  - cbn [mbind result_bind]. unfold shape, read_value, records_of. by destruct v.
  - apply Forall2_fmap_r, Forall2_flip. eapply Forall2_impl; [exact Hread|]. cbn. tauto.
Qed.

(** ** The profiles *)

Lemma candidate_total a b : candidate_le a b = true \/ candidate_le b a = true.
Proof.
  unfold candidate_le. rewrite !orb_true_iff, !andb_true_iff, !Z.ltb_lt, !Z.eqb_eq, !Z.leb_le. lia.
Qed.

Lemma candidate_trans a b c :
  candidate_le a b = true -> candidate_le b c = true -> candidate_le a c = true.
Proof.
  unfold candidate_le. rewrite !orb_true_iff, !andb_true_iff, !Z.ltb_lt, !Z.eqb_eq, !Z.leb_le. lia.
Qed.

Lemma encode_in_ok schema records shape profile enc :
  encode_in schema records shape profile = Ok enc <->
  exists s, render schema records profile shape = Ok s /\ enc = Encoded s profile (estimateTokens s).
Proof.
  unfold encode_in. split.
  - intros H. apply bind_ok in H as (s & Hs & [= <-]). by exists s.
  - intros (s & -> & ->). done.
Qed.

(** Fewer estimated tokens, or as many and an earlier profile. *)
Definition no_worse (best enc : OcfEncoded) : Prop :=
  en_estimatedTokens best < en_estimatedTokens enc \/
  en_estimatedTokens best = en_estimatedTokens enc /\
    profileRank (en_profile best) <= profileRank (en_profile enc).

Definition shape_for (v : value) : OcfShape :=
  match v with varr _ => shape_collection | _ => shape_record end.

(** Encoding checks the records and renders one of the profiles. *)
Lemma encodeDetailed_ok v reference profile codec enc codec' :
  encodeDetailed v reference profile codec = (codec', Ok enc) ->
  exists e, resolve reference codec = Ok (e, codec') /\
    Forall (fun record => assertRecord record e.2 = Ok tt) (records_of v) /\
    render e.2 (records_of v) (en_profile enc) (shape_for v) = Ok (en_text enc) /\
    match profile with
    | Some p => enc = Encoded (en_text enc) p (estimateTokens (en_text enc))
    | None => exists candidates,
        mapM (encode_in e.2 (records_of v) (shape_for v)) profiles = Ok candidates /\
        head (sort_by candidate_le candidates) = Some enc
    end.
Proof.
  unfold encodeDetailed, with_schema. destruct (resolve reference codec) as [[e codec1]|error]; [|done].
  cbv zeta. intros [<- H]%pair_eq. fold (records_of v) (shape_for v) in H.
  fold (records_of v) (shape_for v) in H. apply seq_ok in H as [Ha%for_each_safe H].
  destruct profile as [p|].
  - exists e. split; [done|]. split; [done|]. apply encode_in_ok in H as (s & Hs & ->). by split.
  - apply bind_ok in H as (candidates & Hc & H).
    destruct (sort_by candidate_le candidates) as [|first sorted] eqn:Es; [done|].
    injection H as <-. exists e. split; [done|]. split; [done|]. split.
    + assert (first ∈ candidates) as Hin by (apply (sort_by_elem candidate_le); rewrite Es; by left).
      apply mapM_Forall2 in Hc. apply list_elem_of_lookup in Hin as [i Hi].
      eapply Forall2_lookup_r in Hc as (p & _ & Hp); [|exact Hi].
      by apply encode_in_ok in Hp as (s & Hs & ->).
    + exists candidates. by rewrite Es.
Qed.

(** ** What is read is the data that was written *)

Lemma named_get (schema : OcfSchema) (f : OcfField -> value) field : NoDup (map fd_name (sc_fields schema)) ->
  field ∈ sc_fields schema ->
  jm_get (map (fun field => (fd_name field, f field)) (sc_fields schema)) (fd_name field) = Some (f field).
Proof.
  intros Hnd Hin. apply jm_elem_get.
  - unfold jm_keys. rewrite map_map. exact Hnd.
  - apply list_elem_of_fmap. by exists field.
Qed.

Lemma read_record_same schema record : schema_ok schema -> value_ok record ->
  assertRecord record schema = Ok tt -> text_references record = true ->
  same (read_record schema record) record.
Proof.
  intros Hs Hok Hassert Href. apply assertRecord_ok in Hassert as (fields & -> & Hkeys & Hfields).
  pose proof (names_distinct _ (schema_fields _ Hs)) as Hnd. cbn [read_record].
  pose proof Hok as [Hndf _]%value_ok_fields.
  apply same_object; [|done|].
  { change (NoDup (map fst (map (fun field => (fd_name field, decoded (jm_get fields (fd_name field) ?? vundefined)))
      (sc_fields schema)))). by rewrite map_map. }
  intros key. destruct (decide (key ∈ map fd_name (sc_fields schema))) as [Hin|Hout].
  - apply list_elem_of_fmap in Hin as (field & -> & Hin).
    rewrite (named_get schema (fun field => decoded (jm_get fields (fd_name field) ?? vundefined))) by done.
    rewrite Forall_forall in Hfields. destruct (Hfields _ Hin) as (x & Hx & _). rewrite Hx.
    cbn [or_else fmap option_fmap option_map]. f_equal.
    rewrite text_references_decoded; [apply norm_idem|by eapply field_ok|by eapply text_references_field].
  - rewrite !(proj2 (jm_get_None _ _)); [done| |].
    + intros Hin. apply list_elem_of_fmap in Hin as (f & -> & Hin). rewrite Forall_forall in Hkeys.
      by apply Hout, Hkeys.
    + unfold jm_keys. by rewrite map_map.
Qed.

Lemma read_value_same schema v : schema_ok schema -> Forall (record_ok schema) (records_of v) ->
  Forall (fun record => assertRecord record schema = Ok tt) (records_of v) ->
  Forall (fun record => text_references record = true) (records_of v) ->
  same (read_value schema v) v.
Proof.
  intros Hs Hok Ha Hr.
  assert (Forall (fun record => same (read_record schema record) record) (records_of v)) as H.
  { rewrite Forall_forall in *. intros record Hin. apply read_record_same; auto. by apply Hok. }
  destruct v as [| | | | | | |items|]; try (by apply Forall_inv in H).
  cbn [records_of] in H. unfold same. cbn [read_value norm norm_with]. f_equal. rewrite map_map.
  clear -H. induction H as [|x xs Hx _ IH]; [done|]. cbn [map]. by rewrite IH, Hx.
Qed.

(** ** Theorems *)

(** C37: What a codec writes it reads back, with two provisos: no field with declared
    values holds the string __proto__ (and the records are values a program can
    build), and a dense stream, adaptive ones included, is written for a schema whose
    id is a number or a text that is a schema token, which nothing checks when the
    schema is registered.  Then, whatever the profile, the text written for a record
    or a collection against a schema is decoded, with the same reference, into the
    records with their fields in the order of the schema and every value as the value
    format reads it, which is the data that was written when its references are named
    by text; without a reference too, when the token of the stream is the schema's
    name or its numeric id. *)
Theorem codec_roundtrip v reference profile codec enc codec' e :
  reachable codec -> encodeDetailed v reference profile codec = (codec', Ok enc) ->
  resolve reference codec = Ok (e, codec') ->
  Forall (record_ok e.2) (records_of v) -> token_ok e.2 (en_profile enc) ->
  decode (en_text enc) (Some reference) codec' = (codec', Ok (read_value e.2 v)) /\
  ((en_profile enc <> dense \/ exists n, sc_id e.2 = id_number n) ->
   decode (en_text enc) None codec' = (codec', Ok (read_value e.2 v))) /\
  (Forall (fun record => text_references record = true) (records_of v) -> same (read_value e.2 v) v).
Proof.
  intros Hreach%reachable_ok Henc He Hok Ht.
  apply encodeDetailed_ok in Henc as (e' & He' & Hassert & Hrender & _).
  assert (e' = e) as -> by congruence.
  pose proof (resolve_ok _ _ _ _ Hreach He) as Hok'.
  pose proof (resolve_named _ _ _ _ Hreach He) as Hname.
  destruct (named_entry _ Hok' _ _ Hname) as (_ & _ & Hs & _).
  split; [|split; [intros Htoken|intros Hr; by apply read_value_same]];
    eapply decode_rendered; try done.
  - by apply (resolve_stable _ _ _ _ He).
  - cbn [schema_for]. destruct (en_profile enc) eqn:Ep; cbn [schemaTokenFor].
    1,2: by rewrite resolve_wire_name.
    destruct Htoken as [[]|[n Hn]]; [done|]. rewrite Hn. cbn [String_id].
    by rewrite (resolve_wire_number _ e).
Qed.

(** The adaptive profile is the best of the three: whenever it succeeds each
    profile does, none of them gives a text of fewer estimated tokens, those of
    as many come later in the order of profiles, and the result is exactly what
    its own profile gives. *)
Theorem adaptive_smallest v reference codec best codec' :
  encodeDetailed v reference None codec = (codec', Ok best) ->
  encodeDetailed v reference (Some (en_profile best)) codec = (codec', Ok best) /\
  forall p, exists enc, encodeDetailed v reference (Some p) codec = (codec', Ok enc) /\
    en_profile enc = p /\ no_worse best enc.
Proof.
  intros H. apply encodeDetailed_ok in H as (e & He & Ha & Hrender & candidates & Hc & Hbest).
  assert (forall p enc, encode_in e.2 (records_of v) (shape_for v) p = Ok enc ->
            encodeDetailed v reference (Some p) codec = (codec', Ok enc)) as Hfixed.
  { intros p enc Henc. unfold encodeDetailed. rewrite He. cbn [with_schema]. cbv zeta. f_equal.
    fold (records_of v) (shape_for v). rewrite (proj2 (for_each_safe _ _)) by done.
    cbn [mbind result_bind]. by rewrite Henc. }
  apply mapM_Forall2 in Hc.
  assert (forall p, exists enc, enc ∈ candidates /\ encode_in e.2 (records_of v) (shape_for v) p = Ok enc) as Hall.
  { intros p. assert (p ∈ profiles) as Hp by (destruct p; repeat first [by left|right]).
    apply list_elem_of_lookup in Hp as [i Hi].
    eapply Forall2_lookup_l in Hc as (enc & Hl & Henc); [|exact Hi]. exists enc.
    split; [|done]. by eapply list_elem_of_lookup_2. }
  destruct (sort_by candidate_le candidates) as [|first sorted] eqn:Es; [done|]. injection Hbest as ->.
  pose proof (sort_by_sorted candidate_le candidate_total candidate_trans candidates) as Hsorted.
  rewrite Es in Hsorted. apply StronglySorted_inv in Hsorted as [_ Hleast].
  split.
  - assert (best ∈ candidates) as Hin by (apply (sort_by_elem candidate_le); rewrite Es; by left).
    apply list_elem_of_lookup in Hin as [i Hi].
    eapply Forall2_lookup_r in Hc as (p & _ & Hp); [|exact Hi]. pose proof Hp as Hp'.
    apply encode_in_ok in Hp' as (s & _ & E). apply Hfixed. by rewrite E at 1.
  - intros p. destruct (Hall p) as (enc & Hin & Henc). exists enc. split; [by apply Hfixed|].
    pose proof Henc as (s & _ & E)%encode_in_ok. split; [by rewrite E|].
    apply (sort_by_elem candidate_le) in Hin. rewrite Es in Hin.
    assert (candidate_le best enc = true) as Hle.
    { apply elem_of_cons in Hin as [->|Hin].
      - by destruct (candidate_total best best).
      - rewrite Forall_forall in Hleast. by apply Hleast. }
    revert Hle. unfold candidate_le, no_worse.
    rewrite orb_true_iff, andb_true_iff, Z.ltb_lt, Z.eqb_eq, Z.leb_le. done.
Qed.
