(* ===== verification/OcfDemo.v ===== *)
(** Concrete values, schemas and streams of the context format, on which its
    properties are instantiated, and the behaviours at its edges. *)

From Stdlib Require Import ZArith NArith Lia Ascii String.
From stdpp Require Import base strings list relations.
From S2P Require Import Prelude JsNumber JsString JsCollections JsText JsDecimal OcfValue OcfParse OcfRoundTrip OcfEqual OcfDelta OcfPatch OcfStream OcfSchema Ocf OcfCodec.

Open Scope string_scope.
Open Scope list_scope.
#[local] Open Scope Z_scope.

(** ** Data *)

(** A digest of one digit repeated, from the sum of the units. *)
Definition demo_digest (s : text) : text :=
  repeat (hex_unit (foldr N.add 0%N s mod 16)%N) 64.

Lemma demo_digest_hex : hex_digest demo_digest.
Proof.
  intros s. unfold demo_digest. split; [apply repeat_length|].
  pose proof (N.mod_lt (foldr N.add 0%N s) 16 ltac:(done)) as H.
  apply forallb_forall. intros c ->%repeat_spec. revert H.
  generalize ((foldr N.add 0 s mod 16)%N). intros d Hd. unfold hex_unit, is_digit.
  apply orb_true_iff. rewrite !within_true. case_match eqn:E; [right|left];
    [apply N.ltb_lt in E|apply N.ltb_ge in E]; lia.
Qed.

Definition int (k : Z) : value := vnum (plain (ofZ k)).
Definition str (s : string) : value := vstr (txt s).
Definition obj (fields : list (string * value)) : value :=
  vobj (map (fun '(key, x) => (txt key, x)) fields).

Definition demo_base : value :=
  obj [("name", str "Fix the parser"); ("steps", varr [str "read"; int 2]); ("draft", vbool true)].

Definition demo_target : value :=
  obj [("name", str "Fix the parser"); ("steps", varr [str "read"; str "a|b, c"; int 2]);
       ("owner", obj [("id", vbig 7); ("$ref", str "agent")])].

Lemma int_ok k : Z.abs k < 2 ^ 53 -> number_ok (plain (ofZ k)).
Proof. apply representable_ofZ. Qed.

Ltac value_tac :=
  cbn [int str obj map value_ok foldr];
  repeat match goal with
  | |- _ /\ _ => split
  | |- True => exact I
  | |- NoDup _ => apply (bool_decide_unpack _); vm_compute; exact I
  | |- number_ok _ => apply int_ok; vm_compute; reflexivity
  end.

Lemma demo_base_ok : value_ok demo_base.
Proof. unfold demo_base. value_tac. Qed.
Lemma demo_target_ok : value_ok demo_target.
Proof. unfold demo_target. value_tac. Qed.

Lemma demo_base_data : data demo_base.
Proof. split; [by vm_compute|exact demo_base_ok|by vm_compute]. Qed.
Lemma demo_target_data : data demo_target.
Proof. split; [by vm_compute|exact demo_target_ok|by vm_compute]. Qed.


Definition value_text (v : value) : text := result_or [] (encodeValue v).

(** A text written with apostrophes for its quotes. *)
Definition quoted (s : string) : text := map (fun c => if (c =? ch "'")%N then quote else c) (txt s).

Example demo_target_text : value_text demo_target =
  quoted "{'name':'Fix the parser','owner':&agent:#7n,'steps':[read,'a|b, c',#2]}".
Proof. vm_compute. reflexivity. Qed.

Lemma demo_encodes v : bool_decide (value_text v = []) = false -> encodeValue v = Ok (value_text v).
Proof. unfold value_text. by destruct (encodeValue v). Qed.

(** ** Values *)

Lemma parse_terminates_witness :
  (length (value_text demo_base) < 200)%nat /\
  parse_fuel 200 (value_text demo_base) 1 1 = parseValue (value_text demo_base) 1 1.
Proof.
  assert (length (value_text demo_base) < 200)%nat as H by (vm_compute; lia).
  split; [exact H|]. exact (proj2 (parse_terminates (value_text demo_base) 1 1) 200%nat H).
Defined.

Lemma parse_inverts_encode_witness :
  value_ok demo_target /\ encodeValue demo_target = Ok (value_text demo_target) /\
  parseValue (value_text demo_target) 3 7 = Ok (decoded demo_target).
Proof.
  assert (encodeValue demo_target = Ok (value_text demo_target)) as H
    by (apply demo_encodes; vm_compute; reflexivity).
  split; [exact demo_target_ok|]. split; [exact H|].
  exact (parse_inverts_encode demo_target _ 3 7 demo_target_ok H).
Defined.

(** The same properties in another order of creation. *)
Definition demo_shuffled : value :=
  obj [("draft", vbool true); ("name", str "Fix the parser"); ("steps", varr [str "read"; int 2])].

Lemma text_identifies_data_witness :
  text_of demo_base (value_text demo_base) /\ text_of demo_shuffled (value_text demo_shuffled) /\
  (value_text demo_base = value_text demo_shuffled <-> decoded demo_base = decoded demo_shuffled).
Proof.
  assert (text_of demo_base (value_text demo_base)) as Hb
    by (split; [exact demo_base_ok|apply demo_encodes; vm_compute; reflexivity]).
  assert (text_of demo_shuffled (value_text demo_shuffled)) as Hs.
  { split; [unfold demo_shuffled; value_tac|apply demo_encodes; vm_compute; reflexivity]. }
  split; [exact Hb|]. split; [exact Hs|]. exact (text_identifies_data _ _ _ _ Hb Hs).
Defined.

(** ** Deltas *)

Definition no_delta : OcfDelta := Delta [] [] [] [].
Definition demo_delta : OcfDelta := Eval vm_compute in result_or no_delta (createDelta demo_digest demo_base demo_target).

Lemma demo_creates : createDelta demo_digest demo_base demo_target = Ok demo_delta.
Proof. vm_compute. reflexivity. Qed.

Example demo_operations : map (fun o => (op o, op_path o)) (operations demo_delta) =
  [(txt "remove", txt "/draft"); (txt "add", txt "/owner"); (txt "replace", txt "/steps")].
Proof. vm_compute. reflexivity. Qed.

Lemma delta_roundtrip_witness :
  exists r, applyDelta demo_digest demo_base demo_delta = Ok r /\ same r demo_target.
Proof.
  exact (delta_roundtrip demo_digest demo_base demo_target demo_delta demo_digest_hex
           demo_base_data demo_target_data demo_creates).
Defined.

Definition demo_stream : text := Eval vm_compute in result_or [] (encodeDelta demo_delta).

Lemma demo_streams : encodeDelta demo_delta = Ok demo_stream.
Proof. vm_compute. reflexivity. Qed.

Lemma delta_stream_roundtrip_witness :
  delta_ok demo_delta /\ decodeDelta demo_stream = Ok (decoded_delta demo_delta).
Proof.
  assert (delta_ok demo_delta) as H.
  { unfold delta_ok. assert (demo_delta = Delta (format demo_delta) (baseHash demo_delta)
      (targetHash demo_delta)
      [Operation op_remove (txt "/draft") None;
       Operation op_add (txt "/owner") (Some (obj [("id", vbig 7); ("$ref", str "agent")]));
       Operation op_replace (txt "/steps") (Some (varr [str "read"; str "a|b, c"; int 2]))]) as ->
      by (vm_compute; reflexivity).
    cbn [operations]. repeat (apply Forall_cons; split); [..|by apply Forall_nil];
      cbn [operation_value op_value or_else]; value_tac. }
  split; [exact H|]. exact (delta_stream_roundtrip demo_delta demo_stream H demo_streams).
Defined.

Lemma delta_synchronizes_witness :
  text_references demo_target = true /\ same demo_shuffled demo_base /\
  exists received r, decodeDelta demo_stream = Ok received /\
    applyDelta demo_digest demo_shuffled received = Ok r /\ same r demo_target.
Proof.
  assert (text_references demo_target = true) as Ht by (vm_compute; reflexivity).
  assert (same demo_shuffled demo_base) as Hs by (vm_compute; reflexivity).
  assert (value_ok demo_shuffled) as Hok by (unfold demo_shuffled; value_tac).
  split; [exact Ht|]. split; [exact Hs|].
  exact (delta_synchronizes demo_digest demo_base demo_target demo_shuffled demo_delta demo_stream
           demo_digest_hex demo_base_data demo_target_data Ht Hs Hok demo_creates demo_streams).
Defined.

Lemma applyDelta_checks_hashes_witness :
  exists r, applyDelta demo_digest demo_base demo_delta = Ok r /\
    hashOcfValue demo_digest demo_base = Ok (baseHash demo_delta) /\
    hashOcfValue demo_digest r = Ok (targetHash demo_delta) /\
    safe r /\ assertDelta demo_delta = Ok tt.
Proof.
  assert (exists r, applyDelta demo_digest demo_base demo_delta = Ok r) as [r Hr]
    by (eexists; vm_compute; reflexivity).
  exists r. split; [exact Hr|]. exact (applyDelta_checks_hashes demo_digest demo_base demo_delta r Hr).
Defined.

(** ** Schemas and codecs *)

Definition demo_field (name : string) (alias : option string) (type : option OcfFieldType)
  (values : option (list (string * string))) : OcfField :=
  Field (txt name) (txt <$> alias) type None None
    (map (fun '(key, wire) => (txt key, txt wire)) <$> values).

Definition demo_schema : OcfSchema :=
  Schema (id_number (plain (ofZ 7))) (txt "task") (Some (plain (ofZ 2)))
    [demo_field "title" (Some "t") (Some type_string) None;
     demo_field "status" (Some "s") None (Some [("queued", "q"); ("running", "r")]);
     demo_field "attempt" None (Some type_integer) None].

Definition demo_record (title status : string) (attempt : Z) : value :=
  obj [("status", str status); ("title", str title); ("attempt", int attempt)].

Definition demo_records : value :=
  varr [demo_record "Fix | the parser" "running" 2; demo_record "Document" "queued" 0].

Definition demo_normal : OcfSchema := Eval vm_compute in result_or demo_schema (normalizeSchema demo_schema).

Lemma normalizeSchema_spec_witness :
  normalizeSchema demo_schema = Ok demo_normal /\
  schema_ok demo_normal /\ sc_id demo_normal = sc_id demo_schema /\
  sc_name demo_normal = sc_name demo_schema /\
  sc_fields demo_normal = map cloneField (sc_fields demo_schema) /\
  sc_version demo_normal = Some (sc_version demo_schema ?? plain (ofZ 1)).
Proof.
  assert (normalizeSchema demo_schema = Ok demo_normal) as H by (vm_compute; reflexivity).
  split; [exact H|]. exact (normalizeSchema_spec demo_schema demo_normal H).
Defined.

Definition demo_codec : OcfSchemaRegistry := Eval vm_compute in
  (result_or ((0%nat, demo_schema), empty_registry) (register demo_schema empty_registry)).2.
Definition demo_entry : entry := (0%nat, demo_normal).

Lemma demo_registers : register demo_schema empty_registry = Ok (demo_entry, demo_codec).
Proof. vm_compute. reflexivity. Qed.

Lemma demo_codec_reachable : reachable demo_codec.
Proof.
  eapply rtc_l; [|apply rtc_refl]. eapply step_register. exact demo_registers.
Qed.

Lemma demo_resolves : resolve (by_text (txt "task")) demo_codec = Ok (demo_entry, demo_codec).
Proof. vm_compute. reflexivity. Qed.

Lemma registry_consistent_witness :
  reachable demo_codec /\ resolve (by_text (txt "task")) demo_codec = Ok (demo_entry, demo_codec) /\
  registry_ok demo_codec /\ schema_ok demo_entry.2 /\
  jm_get (byName demo_codec) (sc_name demo_entry.2) = Some demo_entry /\
  jm_get (byId demo_codec) (keyForId (sc_id demo_entry.2)) = Some demo_entry /\
  resolve (by_text (txt "task")) demo_codec = Ok (demo_entry, demo_codec).
Proof.
  split; [exact demo_codec_reachable|]. split; [exact demo_resolves|].
  exact (registry_consistent demo_codec _ demo_entry demo_codec demo_codec_reachable demo_resolves).
Defined.

Definition no_text : OcfEncoded := Encoded [] readable 0.
Definition demo_encoded : OcfEncoded := Eval vm_compute in
  result_or no_text (encodeDetailed demo_records (by_text (txt "task")) None demo_codec).2.

Lemma demo_adaptive : encodeDetailed demo_records (by_text (txt "task")) None demo_codec =
  (demo_codec, Ok demo_encoded).
Proof. vm_compute. reflexivity. Qed.

Example demo_encoded_text : en_profile demo_encoded = compact /\
  split_on newline (en_text demo_encoded) =
  [txt "!ocf/1|compact|collection"; txt "@task/2=t,s,attempt";
   quoted "task|'Fix | the parser'|r|#2"; txt "task|Document|q|#0"].
Proof. vm_compute. split; reflexivity. Qed.

Lemma demo_record_ok title status attempt : Z.abs attempt < 2 ^ 53 -> txt status <> txt "__proto__" ->
  record_ok demo_normal (demo_record title status attempt).
Proof.
  intros Ha Hs. split.
  { unfold demo_record. cbn [int str obj map value_ok foldr].
    split; [apply (bool_decide_unpack _); vm_compute; exact I|]. do 2 (split; [exact I|]).
    split; [by apply int_ok|exact I]. }
  intros fields field x E Hfield Hget Hvalues Hx. injection E as <-. subst x.
  assert (field ∈ map cloneField (sc_fields demo_schema)) as Hin by exact Hfield.
  repeat (apply elem_of_cons in Hin as [->|Hin]).
  - by apply Hvalues.
  - apply Hs. change (Some (str status) = Some (vstr (txt "__proto__"))) in Hget. by injection Hget.
  - by apply Hvalues.
  - by apply not_elem_of_nil in Hin.
Qed.

Lemma demo_records_ok : Forall (record_ok demo_entry.2) (records_of demo_records).
Proof.
  repeat (apply Forall_cons; split); [..|by apply Forall_nil];
    apply demo_record_ok; first [discriminate|vm_compute; reflexivity].
Qed.

Lemma codec_roundtrip_witness :
  decode (en_text demo_encoded) (Some (by_text (txt "task"))) demo_codec =
    (demo_codec, Ok (read_value demo_entry.2 demo_records)) /\
  ((en_profile demo_encoded <> dense \/ exists n, sc_id demo_entry.2 = id_number n) ->
   decode (en_text demo_encoded) None demo_codec =
    (demo_codec, Ok (read_value demo_entry.2 demo_records))) /\
  (Forall (fun record => text_references record = true) (records_of demo_records) ->
   same (read_value demo_entry.2 demo_records) demo_records).
Proof.
  assert (token_ok demo_entry.2 (en_profile demo_encoded)) as Htoken by (vm_compute; exact I).
  exact (codec_roundtrip demo_records (by_text (txt "task")) None demo_codec demo_encoded demo_codec
           demo_entry demo_codec_reachable demo_adaptive demo_resolves demo_records_ok Htoken).
Defined.

Lemma adaptive_smallest_witness :
  encodeDetailed demo_records (by_text (txt "task")) None demo_codec = (demo_codec, Ok demo_encoded) /\
  encodeDetailed demo_records (by_text (txt "task")) (Some (en_profile demo_encoded)) demo_codec =
    (demo_codec, Ok demo_encoded) /\
  forall p, exists enc,
    encodeDetailed demo_records (by_text (txt "task")) (Some p) demo_codec = (demo_codec, Ok enc) /\
    en_profile enc = p /\
    no_worse demo_encoded enc.
Proof.
  split; [exact demo_adaptive|].
  exact (adaptive_smallest demo_records _ demo_codec demo_encoded demo_codec demo_adaptive).
Defined.

(** ** The edges of the format *)

(** A reference to a numeric schema is read back with the number as text. *)
Lemma numeric_reference_changes :
  value_text (obj [("$ref", int 5); ("id", int 1)]) = txt "&5:#1" /\
  parseValue (txt "&5:#1") 1 1 = Ok (obj [("$ref", str "5"); ("id", int 1)]).
Proof. vm_compute. split; reflexivity. Qed.

(** Zeros of both signs are equal for [diff] and differ in the hash: the delta from
    one to the other has no operation and is rejected when it is applied. *)
Lemma minus_zero_delta :
  exists d, createDelta demo_digest (obj [("a", int 0)]) (obj [("a", vnum minus_zero)]) = Ok d /\
    operations d = [] /\
    applyDelta demo_digest (obj [("a", int 0)]) d = Throw (OcfError "delta_target_mismatch").
Proof.
  eexists. split; [vm_compute; reflexivity|]. split; [reflexivity|]. vm_compute. reflexivity.
Qed.

(** A textual id is not restricted to tokens, so the dense stream of its schema
    need not be readable. *)
Definition spaced_schema : OcfSchema :=
  Schema (id_text (txt "my task")) (txt "task") None [demo_field "title" None None None].

Definition spaced_dense : OcfSchemaRegistry * text :=
  let '(codec, r) := encode (obj [("title", str "x")]) (by_schema spaced_schema) (Some dense) empty_registry in
  (codec, result_or [] r).

Lemma dense_unreadable :
  split_on newline spaced_dense.2 =
    [txt "!ocf/1|dense|record"; txt "@my task/1=title"; txt "my task|x"] /\
  (decode spaced_dense.2 (Some (by_text (txt "task"))) spaced_dense.1).2 =
    Throw (OcfParseError "invalid_schema_header" 2 2).
Proof. split; vm_compute; reflexivity. Qed.

(** Declared values are looked up in the prototype too. *)
Lemma inherited_values :
  let field := demo_field "status" None (Some type_string) (Some [("queued", "q")]) in
  validateFieldValue (str "toString") field = Ok tt /\
  encodeValueForField (str "toString") field = Throw (OcfError "invalid_value") /\
  encodeValueForField (str "__proto__") field = Ok (txt "{}").
Proof. vm_compute. repeat split. Qed.

(** A schema object is answered by the registered one of its name and id, whatever
    its fields; [register] rejects it. *)
Lemma resolve_ignores_fields :
  let other := Schema (sc_id demo_schema) (sc_name demo_schema) None [demo_field "other" None None None] in
  resolve (by_schema other) demo_codec = Ok (demo_entry, demo_codec) /\
  register other demo_codec = Throw (OcfError "duplicate_schema").
Proof. vm_compute. split; reflexivity. Qed.

(** A textual id of digits and the same numeric id name two schemas, but one wire
    token: the dense stream of the first is resolved to the second. *)
Definition textual_schema : OcfSchema :=
  Schema (id_text (txt "7")) (txt "note") (Some (plain (ofZ 2))) [demo_field "body" None None None].

Definition note_dense : OcfSchemaRegistry * text := Eval vm_compute in
  let '(codec, r) := encode (obj [("body", str "x")]) (by_schema textual_schema) (Some dense) demo_codec in
  (codec, result_or [] r).

Lemma textual_id_shadowed :
  decode note_dense.2 (Some (by_text (txt "note"))) note_dense.1 =
    (note_dense.1, Ok (obj [("body", str "x")])) /\
  decode note_dense.2 None note_dense.1 = (note_dense.1, Throw (OcfParseError "schema_mismatch" 2 1)).
Proof. split; vm_compute; reflexivity. Qed.

(** A record that is refused leaves the schema it was written against registered. *)
Lemma refused_record_registers :
  let '(codec, r) := encode (int 1) (by_schema spaced_schema) None empty_registry in
  r = Throw (OcfError "invalid_record") /\ jm_keys (byName codec) = [txt "task"].
Proof. vm_compute. split; reflexivity. Qed.
