(* ===== verification/Provider.v ===== *)
(** What the runtime exchanges with a model provider and with tools:
    packages/runtime/src/provider.ts, tools.ts and failover.ts.

    Providers and tools are outside the program.  They are functions of a world,
    of which the model only knows that the cancellation signal can be read in
    it; a call returns or throws in the world it leaves.  What is thrown is a
    [fault]. *)

From Stdlib Require Import ZArith NArith Lia Ascii.
From stdpp Require Import base strings list.
From S2P Require Import Prelude JsNumber JsString JsCollections Protocol Json JsDecimal.

Open Scope string_scope.
Open Scope list_scope.
#[local] Open Scope Z_scope.

(** ** Failures *)

(** Source: packages/runtime/src/provider.ts:1-12 [ProviderFailureKind]. *)
Inductive ProviderFailureKind : Type :=
| pf_authentication | pf_connection_timeout | pf_context_overflow | pf_first_byte_timeout
| pf_invalid_request | pf_malformed_output | pf_model_unavailable | pf_network | pf_rate_limited
| pf_server | pf_stream_inactive.

#[export] Instance ProviderFailureKind_eq_dec : EqDecision ProviderFailureKind.
Proof. solve_decision. Defined.

Definition ProviderFailureKind_str (kind : ProviderFailureKind) : string :=
  match kind with
  | pf_authentication => "authentication"
  | pf_connection_timeout => "connection_timeout"
  | pf_context_overflow => "context_overflow"
  | pf_first_byte_timeout => "first_byte_timeout"
  | pf_invalid_request => "invalid_request"
  | pf_malformed_output => "malformed_output"
  | pf_model_unavailable => "model_unavailable"
  | pf_network => "network"
  | pf_rate_limited => "rate_limited"
  | pf_server => "server"
  | pf_stream_inactive => "stream_inactive"
  end.

(** Source: packages/runtime/src/provider.ts:14-32 [ProviderFailure]. *)
Record ProviderFailure := {
  pf_kind : ProviderFailureKind;
  pf_message : string;
  pf_retryAfterMs : option num }.

#[export] Instance ProviderFailure_eq_dec : EqDecision ProviderFailure.
Proof. solve_decision. Defined.

Definition provider_failure (kind : ProviderFailureKind) (message : string) : ProviderFailure :=
  {| pf_kind := kind; pf_message := message; pf_retryAfterMs := None |}.

(** Source: packages/runtime/src/provider.ts:24-31 [ProviderFailure.retryable]. *)
Definition retryable (failure : ProviderFailure) : bool :=
  negb (bool_decide (pf_kind failure ∈
    [pf_authentication; pf_context_overflow; pf_invalid_request; pf_malformed_output])).

(** What a call can throw: failures of a provider, a wait for an approval
    (tools.ts), the standard AbortError, errors of the packages below, any other
    Error by its message, and values that are no Error.
    Source: packages/runtime/src/tools.ts:43-48 [ToolApprovalRequiredError]. *)
Inductive fault : Type :=
| Failure (failure : ProviderFailure)
| ToolApprovalRequired (approvalId : string)
| AbortError (message : string)
| Thrown (error : exn)
| OtherError (message : string)
| NotAnError
| Unfinished (* the fuel of the model is used up; no operation throws it *).

#[export] Instance fault_eq_dec : EqDecision fault.
Proof. solve_decision. Defined.

Section Messages.

(** The message property of the errors of the packages below. *)
Context (exn_message : exn -> string).

(** [error instanceof Error ? error.message : otherwise] *)
Definition message_or (otherwise : string) (error : fault) : string :=
  match error with
  | Failure failure => pf_message failure
  | ToolApprovalRequired id => "Tool execution is awaiting approval '" +:+ id +:+ "'."
  | AbortError message | OtherError message => message
  | Thrown e => exn_message e
  | NotAnError | Unfinished => otherwise
  end.

(** Source: packages/runtime/src/provider.ts:34-48 [classifyProviderFailure]. *)
Definition classifyProviderFailure (error : fault) : ProviderFailure :=
  match error with
  | Failure failure => failure
  | AbortError _ => provider_failure pf_connection_timeout "Provider request was aborted."
  | _ => provider_failure pf_network
           (message_or "Provider request failed with an unknown error." error)
  end.

End Messages.

(** ** Delays *)

(** [String(n)] *)
Definition num_string (n : num) : string :=
  of_units (map (fun c => ascii_of_nat (N.to_nat c)) (String_number (plain n))).

Definition two_pow (n : Z) : num := ofZ (2 ^ n).

(** [random] is the number the injected or the standard generator returns.
    Source: packages/runtime/src/provider.ts:64-78 [retryDelayMs]. *)
Definition retryDelayMs (attempt : Z) (retryAfterMs : option num) (jitterRatio : option num)
  (random : num) : num :=
  match retryAfterMs with
  | Some retryAfterMs => retryAfterMs
  | None =>
      let boundedAttempt := Z.max 0 (Z.min attempt 6) in
      let base := math_min (ofZ 30000) (js_mul (ofZ 1000) (two_pow boundedAttempt)) in
      let jitterRatio := jitterRatio ?? ofZ 0 in
      if js_le jitterRatio (ofZ 0) then base
      else
        let spread := js_mul base (math_min (ofZ 1) jitterRatio) in
        let jittered := js_add (js_sub base spread) (js_mul (js_mul random spread) (ofZ 2)) in
        math_round (math_max (ofZ 0) (math_min (ofZ 30000) jittered))
  end.

(** ** Messages, requests and responses *)

Inductive RuntimeRole : Type := role_assistant | role_system | role_tool | role_user.

#[export] Instance RuntimeRole_eq_dec : EqDecision RuntimeRole.
Proof. solve_decision. Defined.

(** Source: packages/runtime/src/provider.ts:80-84 [RuntimeMessage]. *)
Record RuntimeMessage := {
  msg_role : RuntimeRole;
  msg_content : string;
  msg_toolCallId : option string }.

(** The input is data of the provider's response.
    Source: packages/runtime/src/provider.ts:86-90 [ToolCall]. *)
Record ToolCall := {
  call_id : string;
  call_name : string;
  call_input : JsonValue }.

(** Source: packages/runtime/src/provider.ts:92-97 [TurnUsage]. *)
Record TurnUsage := {
  tu_inputTokens : option num;
  tu_outputTokens : option num;
  tu_cachedTokens : option num;
  tu_costUsd : option num }.

Definition no_usage : TurnUsage :=
  {| tu_inputTokens := None; tu_outputTokens := None; tu_cachedTokens := None; tu_costUsd := None |}.

(** The signal of the request is part of the world.
    Source: packages/runtime/src/provider.ts:99-107 [ProviderTurnRequest]. *)
Record ProviderTurnRequest := {
  req_messages : list RuntimeMessage;
  req_model : string;
  req_tools : list (string * string) }.

(** Source: packages/runtime/src/provider.ts:109-113 [ProviderTurnResponse]. *)
Record ProviderTurnResponse := {
  rsp_text : option string;
  rsp_toolCalls : option (list ToolCall);
  rsp_usage : option TurnUsage }.

(** ** Calls on the world *)

Definition IO (World A : Type) : Type := World -> World * result fault A.

#[export] Instance IO_ret {World} : MRet (IO World) := fun _ a w => (w, Ok a).
#[export] Instance IO_bind {World} : MBind (IO World) := fun _ _ f m w =>
  match m w with
  | (w', Ok a) => f a w'
  | (w', Throw e) => (w', Throw e)
  end.

Definition io_throw {World A} (e : fault) : IO World A := fun w => (w, Throw e).
Definition io_lift {World A} (r : result fault A) : IO World A := fun w => (w, r).

(** [try { m } catch (error) { handler(error) }] *)
Definition io_catch {World A} (m : IO World A) (handler : fault -> IO World A) : IO World A := fun w =>
  match m w with
  | (w', Ok a) => (w', Ok a)
  | (w', Throw e) => handler e w'
  end.

(** Why a signal was aborted: its reason is an Error, a string, or neither. *)
Inductive AbortReason : Type :=
| reason_error (error : fault)
| reason_text (s : string)
| reason_other.

(** Source: packages/runtime/src/provider.ts:115-118 [TurnProvider]. *)
Record TurnProvider (World : Type) := {
  provider_id : string;
  provider_complete : ProviderTurnRequest -> IO World ProviderTurnResponse }.
Arguments provider_id {World}.
Arguments provider_complete {World}.

(** ** Tools *)

(** Source: packages/runtime/src/tools.ts:29-35 [ToolResult]. *)
Record ToolResult := {
  tr_artifacts : option (list (string * string));
  tr_output : string }.

(** Source: packages/runtime/src/tools.ts:7-27 [ToolDefinition]. *)
Record RuntimeTool (World : Type) := {
  rt_completesRun : option bool;
  rt_description : string;
  rt_idempotency : ToolIdempotency;
  rt_name : string;
  rt_permissions : option ToolPermissionPolicy;
  rt_recovery : ToolRecoveryStrategy;
  rt_resourceScopes : JsonValue -> result fault (list string);
  rt_sideEffect : ToolSideEffectClass;
  rt_supportsBackground : bool;
  rt_execute : JsonValue -> IO World ToolResult }.
Arguments rt_completesRun {World}.
Arguments rt_description {World}.
Arguments rt_idempotency {World}.
Arguments rt_name {World}.
Arguments rt_permissions {World}.
Arguments rt_recovery {World}.
Arguments rt_resourceScopes {World}.
Arguments rt_sideEffect {World}.
Arguments rt_supportsBackground {World}.
Arguments rt_execute {World}.

Section ToolRegistry.
Context {World : Type}.

(** [left.localeCompare(right) <= 0] *)
Context (localeCompare_le : string -> string -> bool).

(** Source: packages/runtime/src/tools.ts:50-51 [ToolRegistry]. *)
Definition ToolRegistry : Type := jsmap string (RuntimeTool World).

(** Source: packages/runtime/src/tools.ts:53-57 [ToolRegistry.register]. *)
Definition register_tool (definition : RuntimeTool World) (registry : ToolRegistry)
  : result fault ToolRegistry :=
  if jm_has registry (rt_name definition)
  then Throw (OtherError ("Tool '" +:+ rt_name definition +:+ "' is already registered."))
  else Ok (jm_set registry (rt_name definition) definition).

(** Source: packages/runtime/src/tools.ts:59-61 [ToolRegistry.get]. *)
Definition get_tool (registry : ToolRegistry) (name : string) : option (RuntimeTool World) :=
  jm_get registry name.

(** Source: packages/runtime/src/tools.ts:63-67 [ToolRegistry.list]. *)
Definition list_tools (registry : ToolRegistry) : list (RuntimeTool World) :=
  sort_by (fun left right => localeCompare_le (rt_name left) (rt_name right)) (jm_values registry).

(** [registry.register] of each definition in turn. *)
Definition register_all (definitions : list (RuntimeTool World)) : result fault ToolRegistry :=
  foldl (fun registry definition => registry ← registry; register_tool definition registry)
    (Ok []) definitions.

Lemma register_onto definitions : forall registry : ToolRegistry,
  NoDup (jm_keys registry ++ map rt_name definitions) ->
  foldl (fun registry definition => registry ← registry; register_tool definition registry)
    (Ok registry) definitions =
  Ok (registry ++ map (fun tool => (rt_name tool, tool)) definitions).
Proof.
  induction definitions as [|tool definitions IH]; intros registry Hn; cbn [map foldl].
  { by rewrite app_nil_r. }
  assert (jm_has registry (rt_name tool) = false) as Hnew.
  { apply not_true_iff_false. rewrite jm_has_elem. intros Hin.
    apply NoDup_app in Hn as (_ & Hn & _). apply (Hn _ Hin). apply list_elem_of_here. }
  assert (register_tool tool registry = Ok (registry ++ [(rt_name tool, tool)])) as Hr
    by (unfold register_tool; by rewrite Hnew, jm_set_fresh).
  cbn [mbind result_bind]. rewrite Hr, IH; [by rewrite <- app_assoc|].
  unfold jm_keys in *. by rewrite fmap_app, <- app_assoc.
Qed.

(** Definitions of different names are all registered, in their order. *)
Lemma register_distinct definitions : NoDup (map rt_name definitions) ->
  register_all definitions = Ok (map (fun tool => (rt_name tool, tool)) definitions).
Proof. apply (register_onto definitions []). Qed.

End ToolRegistry.
Arguments ToolRegistry World : clear implicits.

(** ** Failover *)

(** Source: packages/runtime/src/failover.ts:9-13 [FailoverCandidate]. *)
Record FailoverCandidate (World : Type) := {
  fc_provider : TurnProvider World;
  fc_model : option string }.
Arguments fc_provider {World}.
Arguments fc_model {World}.

(** Source: packages/runtime/src/failover.ts:15-19 [FailoverAttempt]. *)
Record FailoverAttempt := {
  fa_providerId : string;
  fa_kind : ProviderFailureKind;
  fa_message : string }.

(** Source: packages/runtime/src/failover.ts:34-42 [DEFAULT_FAILOVER_KINDS]. *)
Definition DEFAULT_FAILOVER_KINDS : list ProviderFailureKind :=
  [pf_connection_timeout; pf_first_byte_timeout; pf_model_unavailable; pf_network; pf_rate_limited;
   pf_server; pf_stream_inactive].

Section Failover.
Context {World : Type}.
Context (exn_message : exn -> string).
(** [request.signal?.aborted === true], read in the world. *)
Context (aborted : World -> option AbortReason).
(** The observer of rejected candidates. *)
Context (onFailover : FailoverAttempt -> World -> World).

(** Source: packages/runtime/src/failover.ts:52-56 [FailoverTurnProvider]. *)
Record FailoverTurnProvider := {
  fo_id : string;
  fo_candidates : list (FailoverCandidate World);
  fo_failoverKinds : list ProviderFailureKind }.

(** Source: packages/runtime/src/failover.ts:58-70 [FailoverTurnProvider.constructor]. *)
Definition new_FailoverTurnProvider (candidates : list (FailoverCandidate World))
  (id : option string) (failoverKinds : option (list ProviderFailureKind))
  : result fault FailoverTurnProvider :=
  match candidates with
  | [] => Throw (OtherError "A failover provider needs at least one candidate.")
  | _ => Ok {| fo_id := id ?? ("failover(" +:+
                 join "," (map (fun c => provider_id (fc_provider c)) candidates) +:+ ")");
               fo_candidates := candidates;
               fo_failoverKinds := failoverKinds ?? DEFAULT_FAILOVER_KINDS |}
  end.

Definition with_model (request : ProviderTurnRequest) (model : option string) : ProviderTurnRequest :=
  {| req_messages := req_messages request; req_model := model ?? req_model request;
     req_tools := req_tools request |}.

(** The loop over the candidates; the last one's failure is thrown.
    Source: packages/runtime/src/failover.ts:76-103 [FailoverTurnProvider.complete]. *)
Fixpoint try_candidates (kinds : list ProviderFailureKind) (request : ProviderTurnRequest)
  (lastFailure : option ProviderFailure) (candidates : list (FailoverCandidate World))
  : IO World ProviderTurnResponse := fun w =>
  match candidates with
  | [] => (w, Throw (Failure (lastFailure ??
                provider_failure pf_server "No provider produced a response.")))
  | candidate :: rest =>
      match aborted w with
      | Some _ => (w, Throw (Failure (provider_failure pf_connection_timeout
                      "Turn was aborted before a provider answered.")))
      | None =>
          match provider_complete (fc_provider candidate) (with_model request (fc_model candidate)) w with
          | (w, Ok response) => (w, Ok response)
          | (w, Throw error) =>
              let failure := classifyProviderFailure exn_message error in
              let w := onFailover {| fa_kind := pf_kind failure; fa_message := pf_message failure;
                                     fa_providerId := provider_id (fc_provider candidate) |} w in
              if (match rest with [] => true | _ => false end) ||
                 negb (bool_decide (pf_kind failure ∈ kinds))
              then (w, Throw (Failure failure))
              else try_candidates kinds request (Some failure) rest w
          end
      end
  end.

(** Source: packages/runtime/src/failover.ts:72-104 [FailoverTurnProvider.complete]. *)
Definition failover_complete (provider : FailoverTurnProvider) (request : ProviderTurnRequest)
  : IO World ProviderTurnResponse :=
  try_candidates (fo_failoverKinds provider) request None (fo_candidates provider).

End Failover.

(** ** Theorems about delays *)

Lemma two_pow_cases (P : Z -> Prop) n :
  P 0 -> P 1 -> P 2 -> P 3 -> P 4 -> P 5 -> P 6 -> P (Z.max 0 (Z.min n 6)).
Proof.
  assert (0 <= Z.max 0 (Z.min n 6) <= 6) as Hk by lia. intros. revert Hk.
  generalize (Z.max 0 (Z.min n 6)). intros k Hk.
  assert (k = 0 \/ k = 1 \/ k = 2 \/ k = 3 \/ k = 4 \/ k = 5 \/ k = 6) as E by lia.
  by destruct E as [->|[->|[->|[->|[->|[->| ->]]]]]].
Qed.

(** The delay before jitter, in milliseconds. *)
Definition backoff (attempt : Z) : Z := Z.min 30000 (1000 * 2 ^ Z.max 0 (Z.min attempt 6)).

Lemma retry_base attempt :
  math_min (ofZ 30000) (js_mul (ofZ 1000) (two_pow (Z.max 0 (Z.min attempt 6)))) =
  ofZ (backoff attempt).
Proof. unfold backoff. apply two_pow_cases; vm_compute; reflexivity. Qed.

Definition quarter : num := Fin (2 ^ 1072).

Lemma retry_spread attempt : js_mul (ofZ (backoff attempt)) (math_min (ofZ 1) quarter) =
  Fin (backoff attempt * 2 ^ 1072).
Proof. unfold backoff. apply two_pow_cases; vm_compute; reflexivity. Qed.

Lemma backoff_bounds attempt : 1000 <= backoff attempt <= 30000.
Proof. unfold backoff. apply two_pow_cases; split; vm_compute; discriminate. Qed.

Lemma backoff_mod_4 attempt : backoff attempt mod 4 = 0.
Proof. unfold backoff. by apply two_pow_cases. Qed.

Lemma one_units_quarter : one_units = 4 * 2 ^ 1072.
Proof. vm_compute. reflexivity. Qed.

Lemma clamp_nonneg c v : 0 <= c -> 0 <= v ->
  math_max (Fin (0 * one_units)) (math_min (Fin c) (Fin v)) = Fin (Z.min c v).
Proof.
  intros Hc Hv. cbn [math_min js_lt]. rewrite Z.mul_0_l.
  destruct (Z.ltb_spec v c); cbn [math_max js_lt]; case_match; f_equal; lia.
Qed.

(** A number in [0, 1), as the generator returns. *)
Definition unit_random (r : num) : Prop := exists z, r = Fin z /\ 0 <= z < one_units.

(** The delay before a retry: what the provider asked for when it said so;
    otherwise, for any draw of the jitter, a whole number of milliseconds between
    three quarters and five quarters of the exponential backoff, and never more
    than thirty seconds. *)
Theorem retry_delay_bounded attempt random : unit_random random ->
  exists d, retryDelayMs attempt None (Some quarter) random = ofZ d /\
    3 * backoff attempt <= 4 * d /\ 4 * d <= 5 * backoff attempt /\ d <= 30000.
Proof.
  intros (z & -> & Hz). unfold retryDelayMs. cbv zeta. rewrite retry_base. cbn [or_else].
  assert (js_le quarter (ofZ 0) = false) as -> by (vm_compute; reflexivity).
  rewrite retry_spread. pose proof (backoff_bounds attempt) as Hb.
  pose proof (backoff_mod_4 attempt) as Hm. set (b := backoff attempt) in *. clearbody b. clear attempt.
  pose proof one_units_quarter as HU. set (Q := 2 ^ 1072) in *.
  assert (0 < Q) as HQ by (apply Z.pow_pos_nonneg; lia).
  assert (forall m, 0 <= m < 2 ^ 53 -> rnd (m * Q) = m * Q) as Hexact
    by (intros m Hm'; by apply rnd_multiple).
  assert (forall m, 0 <= m < 2 ^ 53 -> m * Q < overflow_units) as Hover.
  { intros m Hm'. pose proof (ofZ_small m ltac:(lia)) as H. rewrite Z.abs_eq in H by nia. nia. }
  destruct (js_mul_le z (b * Q) (b * Q)) as (t & -> & Ht); [lia|nia|nia|..].
  { split; [nia|apply Hover; lia]. }
  { apply Hexact. lia. }
  change (ofZ 2) with (Fin (2 * one_units)). destruct (js_mul_le t (2 * one_units) (2 * b * Q)) as (u & -> & Hu); [lia|nia|nia|..].
  { split; [nia|apply Hover; lia]. }
  { apply Hexact. lia. }
  assert (js_sub (ofZ b) (Fin (b * Q)) = Fin (3 * b * Q)) as ->.
  { unfold js_sub, js_neg, ofZ, js_add. rewrite HU.
    replace (b * (4 * Q) + - (b * Q)) with (3 * b * Q) by ring.
    apply normalise_exact; [apply Hexact; lia|]. rewrite Z.abs_eq by nia. apply Hover. lia. }
  cbn [js_add].
  destruct (normalise_between (3 * b * Q + u) (3 * b * Q) (5 * b * Q)) as (v & -> & Hv);
    [nia|apply Hexact; lia|apply Hexact; lia|pose proof overflow_units_pos; nia|apply Hover; lia|].
  unfold ofZ at 1 2. rewrite clamp_nonneg by lia.
  set (w := Z.min (30000 * one_units) v).
  assert (3 * b * Q <= w <= 5 * b * Q /\ w <= 30000 * one_units) as [Hw Hw'].
  { assert (3 * b * Q <= 30000 * one_units) 
      by (pose proof (Z.mul_le_mono_nonneg_r b 30000 Q ltac:(lia) ltac:(lia)); lia).
    unfold w. lia. }
  clearbody w.
  cbn [math_round]. set (d := (2 * w + one_units) / (2 * one_units)).
  assert (exists k, b = 4 * k) as [k ->]
    by (exists (b / 4); pose proof (Z.div_mod b 4 ltac:(lia)); lia).
  assert (3 * k <= d) as H1.
  { unfold d. apply Z.div_le_lower_bound; rewrite HU; nia. }
  assert (d < 5 * k + 1) as H2.
  { unfold d. apply Z.div_lt_upper_bound; rewrite HU; nia. }
  assert (d < 30001) as H3.
  { unfold d. apply Z.div_lt_upper_bound; rewrite HU in *; nia. }
  exists d. split; [|lia]. unfold ofZ. apply normalise_exact; [apply rnd_ofZ; lia|].
  apply ofZ_small. lia.
Qed.

Lemma retry_delay_bounded_witness :
  unit_random quarter /\
  exists d, retryDelayMs 3 None (Some quarter) quarter = ofZ d /\
    3 * backoff 3 <= 4 * d /\ 4 * d <= 5 * backoff 3 /\ d <= 30000.
Proof.
  assert (unit_random quarter) as H.
  { exists (2 ^ 1072). split; [reflexivity|]. rewrite one_units_quarter.
    pose proof (Z.pow_pos_nonneg 2 1072 ltac:(lia) ltac:(lia)). lia. }
  split; [exact H|]. exact (retry_delay_bounded 3 quarter H).
Defined.

(** ** Theorems about failover *)

Section FailoverFacts.
Context {World : Type} (exn_message : exn -> string).
Context (aborted : World -> option AbortReason) (onFailover : FailoverAttempt -> World -> World).
Context (kinds : list ProviderFailureKind) (request : ProviderTurnRequest).

(** One candidate is asked, in a world where the turn is not cancelled. *)
Definition asked (c : FailoverCandidate World) (w : World) : World * result fault ProviderTurnResponse :=
  provider_complete (fc_provider c) (with_model request (fc_model c)) w.

Definition noted (c : FailoverCandidate World) (failure : ProviderFailure) (w : World) : World :=
  onFailover {| fa_kind := pf_kind failure; fa_message := pf_message failure;
                fa_providerId := provider_id (fc_provider c) |} w.

(** Candidates that were asked in order and failed in a way that justifies the next. *)
Inductive passed_over : World -> list (FailoverCandidate World) -> World -> Prop :=
| passed_none w : passed_over w [] w
| passed_one w c rest w1 error w2 :
    aborted w = None -> asked c w = (w1, Throw error) ->
    pf_kind (classifyProviderFailure exn_message error) ∈ kinds ->
    passed_over (noted c (classifyProviderFailure exn_message error) w1) rest w2 ->
    passed_over w (c :: rest) w2.

(** How a turn can end, after the candidates that were passed over. *)
Inductive settled (w : World) : list (FailoverCandidate World) -> World -> result fault ProviderTurnResponse -> Prop :=
| settled_answer c rest w' response :
    aborted w = None -> asked c w = (w', Ok response) -> settled w (c :: rest) w' (Ok response)
| settled_cancelled c rest reason :
    aborted w = Some reason ->
    settled w (c :: rest) w (Throw (Failure (provider_failure pf_connection_timeout
      "Turn was aborted before a provider answered.")))
| settled_failure c rest w1 error :
    aborted w = None -> asked c w = (w1, Throw error) ->
    rest = [] \/ (pf_kind (classifyProviderFailure exn_message error) ∉ kinds) ->
    settled w (c :: rest) (noted c (classifyProviderFailure exn_message error) w1)
      (Throw (Failure (classifyProviderFailure exn_message error))).

Lemma try_candidates_settles candidates : candidates <> [] -> forall last w,
  let '(w', r) := try_candidates exn_message aborted onFailover kinds request last candidates w in
  exists before rest w1, candidates = before ++ rest /\ passed_over w before w1 /\ settled w1 rest w' r.
Proof.
  induction candidates as [|c rest IH]; intros Hne last w; [done|]. cbn [try_candidates].
  destruct (aborted w) as [reason|] eqn:Ha.
  { exists [], (c :: rest), w. split; [done|]. split; [constructor|]. by econstructor. }
  fold (asked c w). destruct (asked c w) as [w1 [response|error]] eqn:Hc.
  { exists [], (c :: rest), w. split; [done|]. split; [constructor|]. by constructor. }
  cbv zeta. fold (noted c (classifyProviderFailure exn_message error) w1).
  destruct (decide (rest = [])) as [->|Hrest].
  { exists [], [c], w. split; [done|]. split; [constructor|]. constructor; auto. }
  assert ((match rest with [] => true | _ => false end) = false) as -> by by destruct rest.
  cbn [orb]. destruct (decide (pf_kind (classifyProviderFailure exn_message error) ∈ kinds)) as [Hk|Hk].
  - rewrite bool_decide_eq_true_2 by done. cbn [negb].
    specialize (IH Hrest (Some (classifyProviderFailure exn_message error))
                  (noted c (classifyProviderFailure exn_message error) w1)).
    destruct (try_candidates _ _ _ _ _ _ _ _) as [w' r].
    destruct IH as (before & after & w2 & -> & Hp & Hs). exists (c :: before), after, w2.
    split; [done|]. split; [|done]. by econstructor.
  - rewrite bool_decide_eq_false_2 by done. cbn [negb].
    exists [], (c :: rest), w. split; [done|]. split; [constructor|]. constructor; auto.
Qed.

(** Failover asks the candidates in their order and each at most once: those
    before the one that decides all failed in a way that justifies trying the
    next, and the turn ends with an answer, with a cancellation seen before a
    candidate is asked, or with a failure that does not justify the next or has
    no next. *)
Theorem failover_order provider w : fo_candidates provider <> [] -> fo_failoverKinds provider = kinds ->
  let '(w', r) := failover_complete exn_message aborted onFailover provider request w in
  exists before rest w1, fo_candidates provider = before ++ rest /\
    passed_over w before w1 /\ settled w1 rest w' r.
Proof. intros Hne Hk. unfold failover_complete. rewrite Hk. by apply try_candidates_settles. Qed.

End FailoverFacts.
