(* ===== verification/Engine.v ===== *)
(** One turn of an agent: packages/runtime/src/engine.ts.

    The loop asks the provider, runs the tools it calls and asks again with what
    they returned, until a response calls no tool.  Every round that goes on has
    called a tool, and the number of calls is limited, so the loop ends: fuel of
    one round more than the limit is enough ([turn_terminates]). *)

From Stdlib Require Import ZArith Lia.
From stdpp Require Import base strings list relations.
From S2P Require Import Prelude JsNumber JsString JsCollections Protocol Json Provider.

Open Scope string_scope.
Open Scope list_scope.
#[local] Open Scope Z_scope.

(** The result of the execution when it succeeded, otherwise its error.
    Source: packages/runtime/src/engine.ts:12-17 [ToolExecutionEvent]. *)
Record ToolExecutionEvent := {
  te_call : ToolCall;
  te_outcome : string + ToolResult }.

(** [status === "succeeded"] *)
Definition te_succeeded (e : ToolExecutionEvent) : bool :=
  match te_outcome e with inr _ => true | inl _ => false end.

(** Source: packages/runtime/src/engine.ts:19-25 [TurnEvent]. *)
Inductive TurnEvent : Type :=
| assistant_text (s : string)
| provider_response
| tool_finished (call : ToolCall) (r : ToolResult)
| tool_started (call : ToolCall).

(** Source: packages/runtime/src/engine.ts:27-32 [AgentTurnInput]. *)
Record AgentTurnInput := {
  ati_maxToolCalls : option num;
  ati_messages : list RuntimeMessage;
  ati_model : string }.

(** Source: packages/runtime/src/engine.ts:34-39 [AgentTurnResult]. *)
Record AgentTurnResult := {
  atr_events : list TurnEvent;
  atr_messages : list RuntimeMessage;
  atr_toolExecutions : list ToolExecutionEvent;
  atr_usage : TurnUsage }.

(** One field of the merged usage: absent when absent on both sides. *)
Definition merge_amount (target next : option num) : option num :=
  match target, next with
  | None, None => None
  | _, _ => Some (js_add (target ?? ofZ 0) (next ?? ofZ 0))
  end.

(** Source: packages/runtime/src/engine.ts:41-61 [mergeUsage]. *)
Definition mergeUsage (target : TurnUsage) (next : option TurnUsage) : TurnUsage :=
  match next with
  | None => target
  | Some next =>
      {| tu_cachedTokens := merge_amount (tu_cachedTokens target) (tu_cachedTokens next);
         tu_costUsd := merge_amount (tu_costUsd target) (tu_costUsd next);
         tu_inputTokens := merge_amount (tu_inputTokens target) (tu_inputTokens next);
         tu_outputTokens := merge_amount (tu_outputTokens target) (tu_outputTokens next) |}
  end.

Section Engine.
Context {World : Type}.
Context (exn_message : exn -> string) (localeCompare_le : string -> string -> bool).

(** The signal: why it was aborted, if it was, in a world. *)
Context (aborted : World -> option AbortReason).
Context (provider : TurnProvider World) (tools : ToolRegistry World).

Definition abort_fault (reason : AbortReason) : fault :=
  match reason with
  | reason_error error => error
  | reason_text s => AbortError s
  | reason_other => AbortError "Agent turn was aborted."
  end.

(** Source: packages/runtime/src/engine.ts:67-75 [throwIfAborted]. *)
Definition throwIfAborted : IO World unit := fun w =>
  match aborted w with
  | None => (w, Ok tt)
  | Some reason => (w, Throw (abort_fault reason))
  end.

(** The variables of [run]. *)
Record TurnState := {
  ts_messages : list RuntimeMessage;
  ts_events : list TurnEvent;
  ts_toolExecutions : list ToolExecutionEvent;
  ts_usage : TurnUsage;
  ts_toolCount : Z }.

Definition push_event (e : TurnEvent) (st : TurnState) : TurnState :=
  {| ts_messages := ts_messages st; ts_events := ts_events st ++ [e];
     ts_toolExecutions := ts_toolExecutions st; ts_usage := ts_usage st;
     ts_toolCount := ts_toolCount st |}.

Definition push_message (m : RuntimeMessage) (st : TurnState) : TurnState :=
  {| ts_messages := ts_messages st ++ [m]; ts_events := ts_events st;
     ts_toolExecutions := ts_toolExecutions st; ts_usage := ts_usage st;
     ts_toolCount := ts_toolCount st |}.

Definition push_execution (e : ToolExecutionEvent) (st : TurnState) : TurnState :=
  {| ts_messages := ts_messages st; ts_events := ts_events st;
     ts_toolExecutions := ts_toolExecutions st ++ [e]; ts_usage := ts_usage st;
     ts_toolCount := ts_toolCount st |}.

Definition count_call (st : TurnState) : TurnState :=
  {| ts_messages := ts_messages st; ts_events := ts_events st;
     ts_toolExecutions := ts_toolExecutions st; ts_usage := ts_usage st;
     ts_toolCount := ts_toolCount st + 1 |}.

Definition charge (usage : option TurnUsage) (st : TurnState) : TurnState :=
  {| ts_messages := ts_messages st; ts_events := ts_events st;
     ts_toolExecutions := ts_toolExecutions st; ts_usage := mergeUsage (ts_usage st) usage;
     ts_toolCount := ts_toolCount st |}.

Definition tool_message (call : ToolCall) (content : string) : RuntimeMessage :=
  {| msg_role := role_tool; msg_content := content; msg_toolCallId := Some (call_id call) |}.

(** A call that failed is told to the model.
    Source: packages/runtime/src/engine.ts:154-159 [run, failed tool]. *)
Definition failed_call (call : ToolCall) (message : string) (content : string) (st : TurnState)
  : TurnState :=
  push_message (tool_message call content)
    (push_execution {| te_call := call; te_outcome := inl message |} st).

(** Running a tool that exists, with the handler of what it throws.
    Source: packages/runtime/src/engine.ts:129-160 [run, tool]. *)
Definition run_tool (definition : RuntimeTool World) (call : ToolCall) (st : TurnState)
  : IO World TurnState :=
  let st := push_event (tool_started call) st in
  io_catch
    (result ← rt_execute definition (call_input call);
     _ ← throwIfAborted;
     mret (push_event (tool_finished call result)
             (push_message (tool_message call (tr_output result))
                (push_execution {| te_call := call; te_outcome := inr result |} st))))
    (fun error w =>
       match error, aborted w with
       | ToolApprovalRequired _, _ => (w, Throw error)
       | _, Some _ => (w, Throw error)
       | _, None =>
           let message := message_or exn_message "Tool failed with an unknown error." error in
           (w, Ok (failed_call call message ("Tool failed: " +:+ message) st))
       end).

(** One tool call of a response.
    Source: packages/runtime/src/engine.ts:113-161 [run, call]. *)
Definition run_call (maxToolCalls : num) (call : ToolCall) (st : TurnState) : IO World TurnState :=
  _ ← throwIfAborted;
  let st := count_call st in
  if js_lt maxToolCalls (ofZ (ts_toolCount st))
  then io_throw (Failure (provider_failure pf_malformed_output
         ("Tool call limit of " +:+ num_string maxToolCalls +:+ " exceeded.")))
  else
    match get_tool tools (call_name call) with
    | None =>
        let error := "Unknown tool '" +:+ call_name call +:+ "'." in
        mret (failed_call call error error st)
    | Some definition => run_tool definition call st
    end.

Fixpoint run_calls (maxToolCalls : num) (calls : list ToolCall) (st : TurnState)
  : IO World TurnState :=
  match calls with
  | [] => mret st
  | call :: calls => st ← run_call maxToolCalls call st; run_calls maxToolCalls calls st
  end.

Definition turn_request (input : AgentTurnInput) (st : TurnState) : ProviderTurnRequest :=
  {| req_messages := ts_messages st; req_model := ati_model input;
     req_tools := map (fun t => (rt_name t, rt_description t)) (list_tools localeCompare_le tools) |}.

(** What is recorded of a response before its tools run.
    Source: packages/runtime/src/engine.ts:102-108 [run, response]. *)
Definition note_response (response : ProviderTurnResponse) (st : TurnState) : TurnState :=
  let st := push_event provider_response (charge (rsp_usage response) st) in
  match rsp_text response with
  | None => st
  | Some s => push_event (assistant_text s)
                (push_message {| msg_role := role_assistant; msg_content := s; msg_toolCallId := None |} st)
  end.

Definition turn_result (st : TurnState) : AgentTurnResult :=
  {| atr_events := ts_events st; atr_messages := ts_messages st;
     atr_toolExecutions := ts_toolExecutions st; atr_usage := ts_usage st |}.

(** The loop; each unit of fuel is a round with the provider.
    Source: packages/runtime/src/engine.ts:91-162 [run, loop]. *)
Fixpoint run_loop (fuel : nat) (maxToolCalls : num) (input : AgentTurnInput) (st : TurnState)
  : IO World AgentTurnResult :=
  match fuel with
  | O => io_throw Unfinished
  | S fuel =>
      _ ← throwIfAborted;
      response ← provider_complete provider (turn_request input st);
      _ ← throwIfAborted;
      let st := note_response response st in
      match rsp_toolCalls response ?? [] with
      | [] => mret (turn_result st)
      | calls => st ← run_calls maxToolCalls calls st; run_loop fuel maxToolCalls input st
      end
  end.

Definition turn_start (input : AgentTurnInput) : TurnState :=
  {| ts_messages := ati_messages input; ts_events := []; ts_toolExecutions := [];
     ts_usage := no_usage; ts_toolCount := 0 |}.

(** Source: packages/runtime/src/engine.ts:83-163 [AgentTurnEngine.run]. *)
Definition run_turn (fuel : nat) (input : AgentTurnInput) : IO World AgentTurnResult :=
  run_loop fuel (ati_maxToolCalls input ?? ofZ 32) input (turn_start input).

(** ** What a turn does to the world *)

(** A request with its outcome, or a tool call with its outcome. *)
Inductive effect : Type :=
| asked_for (request : ProviderTurnRequest) (r : result fault ProviderTurnResponse)
| ran (call : ToolCall) (r : result fault ToolResult).

(** Effects one after the other, each begun while the turn is not aborted. *)
Inductive effects : World -> list effect -> World -> Prop :=
| effects_none w : effects w [] w
| effects_asked w request w1 r tr w2 :
    aborted w = None -> provider_complete provider request w = (w1, r) ->
    effects w1 tr w2 -> effects w (asked_for request r :: tr) w2
| effects_ran w definition call w1 r tr w2 :
    aborted w = None -> get_tool tools (call_name call) = Some definition ->
    rt_execute definition (call_input call) w = (w1, r) ->
    effects w1 tr w2 -> effects w (ran call r :: tr) w2.

Definition is_ran (e : effect) : bool := match e with ran _ _ => true | _ => false end.
Definition is_asked (e : effect) : bool := negb (is_ran e).
Definition waits (e : effect) : bool :=
  match e with ran _ (Throw (ToolApprovalRequired _)) => true | _ => false end.

Definition count (f : effect -> bool) (tr : list effect) : Z := Z.of_nat (length (List.filter f tr)).

(** No call waits for an approval, unless the last one does and the turn with it. *)
Definition stops {A} (tr : list effect) (r : result fault A) : Prop :=
  forallb (fun e => negb (waits e)) tr = true \/
  exists before call id, tr = before ++ [ran call (Throw (ToolApprovalRequired id))] /\
    forallb (fun e => negb (waits e)) before = true /\ r = Throw (ToolApprovalRequired id).

Lemma effects_app w tr w1 tr' w2 : effects w tr w1 -> effects w1 tr' w2 -> effects w (tr ++ tr') w2.
Proof. intros H H'. induction H; [done|..]; cbn [app]; econstructor; eauto. Qed.

Lemma count_app f tr tr' : count f (tr ++ tr') = count f tr + count f tr'.
Proof. unfold count. rewrite List.filter_app, length_app. lia. Qed.

Lemma count_nil f : count f [] = 0.
Proof. done. Qed.
Lemma count_cons f e tr : count f (e :: tr) = (if f e then 1 else 0) + count f tr.
Proof. unfold count. cbn [List.filter]. destruct (f e); cbn [length]; lia. Qed.

(** Bounds on the number of effects of a trace written out. *)
Ltac count_tac := rewrite ?count_cons, ?count_nil; cbn [is_ran is_asked negb]; lia.

Lemma stops_ok {A} tr (a : A) : stops tr (Ok a) -> forallb (fun e => negb (waits e)) tr = true.
Proof. intros [H|(? & ? & ? & _ & _ & ?)]; done. Qed.

Lemma stops_app {A} tr tr' (r : result fault A) :
  forallb (fun e => negb (waits e)) tr = true -> stops tr' r -> stops (tr ++ tr') r.
Proof.
  intros H [H'|(before & call & id & -> & H' & ->)]; [left|right].
  - by rewrite forallb_app, H, H'.
  - exists (tr ++ before), call, id. split; [by rewrite app_assoc|]. by rewrite forallb_app, H, H'.
Qed.

Lemma stops_throw {A B} tr (e : fault) : stops tr (Throw e : result fault A) -> stops tr (Throw e : result fault B).
Proof. intros [H|(before & call & id & -> & H & [= ->])]; [by left|right]. by exists before, call, id. Qed.

(** What the tool calls of one response add to the transcript. *)
Record extends (calls : list ToolCall) (st st' : TurnState) : Prop := {
  ext_messages : exists answers, ts_messages st' = ts_messages st ++ answers /\
    map msg_toolCallId answers = map (fun c => Some (call_id c)) calls /\
    Forall (fun m => msg_role m = role_tool) answers;
  ext_executions : exists executions, ts_toolExecutions st' = ts_toolExecutions st ++ executions /\
    map te_call executions = calls;
  ext_usage : ts_usage st' = ts_usage st;
  ext_count : ts_toolCount st' = ts_toolCount st + Z.of_nat (length calls) }.

Lemma extends_nil st : extends [] st st.
Proof. split; [exists []|exists []|done|cbn; lia]; by rewrite app_nil_r. Qed.

Lemma extends_app calls calls' st st1 st2 :
  extends calls st st1 -> extends calls' st1 st2 -> extends (calls ++ calls') st st2.
Proof.
  intros [(m & Hm & Hmi & Hmr) (x & Hx & Hxc) Hu Hc] [(m' & Hm' & Hmi' & Hmr') (x' & Hx' & Hxc') Hu' Hc'].
  split.
  - exists (m ++ m'). rewrite Hm', Hm, <- app_assoc, !map_app, Hmi, Hmi'. by rewrite Forall_app.
  - exists (x ++ x'). by rewrite Hx', Hx, <- app_assoc, map_app, Hxc, Hxc'.
  - congruence.
  - rewrite length_app. lia.
Qed.

Lemma extends_one call st m x : msg_role m = role_tool -> msg_toolCallId m = Some (call_id call) ->
  te_call x = call -> forall st', ts_messages st' = ts_messages st ++ [m] ->
  ts_toolExecutions st' = ts_toolExecutions st ++ [x] -> ts_usage st' = ts_usage st ->
  ts_toolCount st' = ts_toolCount st + 1 -> extends [call] st st'.
Proof.
  intros Hr Hi Hx st' Hm He Hu Hc. split; [exists [m]|exists [x]|done|done].
  - cbn. rewrite Hi. auto.
  - cbn. by rewrite Hx.
Qed.

Ltac extend_tac :=
  eapply extends_one; [| | |reflexivity|reflexivity|reflexivity|reflexivity]; reflexivity.

Section Limit.
Context (limit : nat).
Let maxToolCalls : num := ofZ (Z.of_nat limit).

(** One call: at most one effect, and only within the limit. *)
Lemma run_call_spec call st w : let '(w', r) := run_call maxToolCalls call st w in
  exists tr, effects w tr w' /\ count is_asked tr = 0 /\ stops tr r /\
    (tr <> [] -> count is_ran tr = 1 /\ ts_toolCount st + 1 <= Z.of_nat limit) /\
    match r with Ok st' => extends [call] st st' /\ ts_toolCount st' <= Z.of_nat limit | Throw _ => True end.
Proof.
  unfold run_call, throwIfAborted. unfold mbind at 1, IO_bind at 1.
  destruct (aborted w) as [reason|] eqn:Ha.
  { exists []. split; [constructor|]. split; [done|]. split; [by left|]. done. }
  unfold maxToolCalls. rewrite js_lt_ofZ. cbn [ts_toolCount count_call].
  destruct (Z.ltb_spec (Z.of_nat limit) (ts_toolCount st + 1)) as [Hl|Hl].
  { exists []. split; [constructor|]. split; [done|]. split; [by left|]. done. }
  destruct (get_tool tools (call_name call)) as [definition|] eqn:Hd.
  2: { exists []. split; [constructor|]. split; [done|]. split; [by left|]. split; [done|].
       split; [extend_tac|done]. }
  unfold run_tool, io_catch, throwIfAborted, mbind, IO_bind.
  destruct (rt_execute definition (call_input call) w) as [w1 [result|error]] eqn:He.
  - assert (effects w [ran call (Ok result)] w1) as Heff by (econstructor; [done..|constructor]).
    destruct (aborted w1) as [reason|] eqn:Ha1.
    + rewrite Ha1. destruct (abort_fault reason); exists [ran call (Ok result)];
        (split; [exact Heff|]); (split; [done|]); (split; [by left|]); done.
    + exists [ran call (Ok result)].
      split; [exact Heff|]. split; [done|]. split; [by left|]. split; [done|].
      split; [extend_tac|done].
  - assert (effects w [ran call (Throw error)] w1) as Heff by (econstructor; [done..|constructor]).
    assert (forall A (r : result fault A), (forall id, error <> ToolApprovalRequired id) ->
              stops [ran call (Throw error)] r) as Hs.
    { intros A r Hna. left. cbn. destruct error; try done. by destruct (Hna approvalId). }
    destruct error as [| id | | | | |];
      [|exists [ran call (Throw (ToolApprovalRequired id))]; split; [exact Heff|];
        split; [done|]; split; [right; by exists [], call, id|]; done|..];
      (destruct (aborted w1) as [reason|] eqn:Ha1;
       [eexists; split; [exact Heff|]; split; [done|]; split; [by apply Hs|]; done
       |eexists; split; [exact Heff|]; split; [done|]; split; [by apply Hs|]; split; [done|];
        split; [extend_tac|done]]).
Qed.

Lemma run_calls_spec calls : forall st w, ts_toolCount st <= Z.of_nat limit ->
  let '(w', r) := run_calls maxToolCalls calls st w in
  exists tr, effects w tr w' /\ count is_asked tr = 0 /\ stops tr r /\
    count is_ran tr <= Z.of_nat limit - ts_toolCount st /\
    match r with
    | Ok st' => extends calls st st' /\ ts_toolCount st' <= Z.of_nat limit /\
                count is_ran tr <= Z.of_nat (length calls)
    | Throw _ => True
    end.
Proof.
  induction calls as [|call calls IH]; intros st w Hst; cbn [run_calls].
  { exists []. split; [constructor|]. split; [done|]. split; [by left|]. split; [count_tac|].
    split; [apply extends_nil|]. done. }
  pose proof (run_call_spec call st w) as H. unfold mbind, IO_bind.
  destruct (run_call maxToolCalls call st w) as [w1 [st1|e]];
    destruct H as (tr & Heff & Hask & Hstop & Hran & Hext).
  2: { exists tr. split; [done|]. split; [done|]. split; [by eapply stops_throw|]. split; [|done].
       destruct (decide (tr = [])) as [->|Hne]; [count_tac|]. destruct (Hran Hne). lia. }
  destruct Hext as [Hext Hc]. specialize (IH st1 w1 Hc).
  destruct (run_calls maxToolCalls calls st1 w1) as [w2 r].
  destruct IH as (tr' & Heff' & Hask' & Hstop' & Hran' & Hext').
  pose proof (ext_count _ _ _ Hext) as Hcount. cbn [length] in Hcount.
  assert (count is_ran tr <= 1) as Hone.
  { destruct (decide (tr = [])) as [->|Hne]; [count_tac|]. destruct (Hran Hne). lia. }
  exists (tr ++ tr'). split; [by eapply effects_app|]. rewrite !count_app.
  split; [lia|]. split; [apply stops_app; [by eapply stops_ok|done]|]. split; [lia|].
  destruct r as [st2|]; [|done]. destruct Hext' as (Hext' & Hc' & Hl).
  split; [by apply (extends_app [call] calls st st1 st2)|]. split; [done|]. cbn [length]. lia.
Qed.

(** *** What a trace says *)

Definition responses_of (tr : list effect) : list ProviderTurnResponse :=
  omap (fun e => match e with asked_for _ (Ok response) => Some response | _ => None end) tr.

Definition calls_of (tr : list effect) : list ToolCall :=
  concat (map (fun response => rsp_toolCalls response ?? []) (responses_of tr)).

(** The calls the tool messages of a transcript answer, and what it has the model say. *)
Definition answered (messages : list RuntimeMessage) : list (option string) :=
  map msg_toolCallId (List.filter (fun m => msg_role m === role_tool) messages).
Definition said (messages : list RuntimeMessage) : list string :=
  map msg_content (List.filter (fun m => msg_role m === role_assistant) messages).

Lemma responses_app tr tr' : responses_of (tr ++ tr') = responses_of tr ++ responses_of tr'.
Proof. apply omap_app. Qed.

Lemma responses_none tr : count is_asked tr = 0 -> responses_of tr = [].
Proof.
  unfold count. induction tr as [|[request r|call r] tr IH]; cbn; [done|intros; lia|exact IH].
Qed.

Lemma answered_tools answers : Forall (fun m => msg_role m = role_tool) answers ->
  answered answers = map msg_toolCallId answers /\ said answers = [].
Proof.
  intros H. rewrite Forall_forall in H. unfold answered, said. rewrite filter_true_b.
  2: { intros m Hm. apply bool_decide_eq_true. by apply H. }
  split; [done|]. rewrite (proj2 (filter_nil_iff _ _)); [done|].
  intros m Hm. apply bool_decide_eq_false. by rewrite (H m Hm).
Qed.

Lemma answered_app m m' : answered (m ++ m') = answered m ++ answered m'.
Proof. unfold answered. by rewrite List.filter_app, map_app. Qed.
Lemma said_app m m' : said (m ++ m') = said m ++ said m'.
Proof. unfold said. by rewrite List.filter_app, map_app. Qed.

(** The result a trace leads to from the variables of the loop. *)
Record completes (st : TurnState) (tr : list effect) (res : AgentTurnResult) : Prop := {
  done_messages : exists added, atr_messages res = ts_messages st ++ added /\
    answered added = map (fun c => Some (call_id c)) (calls_of tr) /\
    said added = omap rsp_text (responses_of tr);
  done_executions : exists executions, atr_toolExecutions res = ts_toolExecutions st ++ executions /\
    map te_call executions = calls_of tr;
  done_usage : atr_usage res = foldl mergeUsage (ts_usage st) (map rsp_usage (responses_of tr)) }.

Lemma note_messages response st : exists added,
  ts_messages (note_response response st) = ts_messages st ++ added /\
  answered added = [] /\ said added = option_list (rsp_text response).
Proof.
  unfold note_response. destruct (rsp_text response) as [s|].
  - eexists. split; [reflexivity|]. done.
  - exists []. by rewrite app_nil_r.
Qed.

Lemma note_rest response st :
  ts_toolExecutions (note_response response st) = ts_toolExecutions st /\
  ts_usage (note_response response st) = mergeUsage (ts_usage st) (rsp_usage response) /\
  ts_toolCount (note_response response st) = ts_toolCount st.
Proof. unfold note_response. by destruct (rsp_text response). Qed.

Lemma run_loop_spec input fuel : forall st w, ts_toolCount st <= Z.of_nat limit ->
  let '(w', r) := run_loop fuel maxToolCalls input st w in
  exists tr, effects w tr w' /\ stops tr r /\
    count is_ran tr <= Z.of_nat limit - ts_toolCount st /\
    count is_asked tr <= Z.of_nat limit - ts_toolCount st + 1 /\
    match r with
    | Ok res => completes st tr res /\ aborted w' = None
    | Throw _ => True
    end.
Proof.
  induction fuel as [|fuel IH]; intros st w Hst; cbn [run_loop].
  { exists []. split; [constructor|]. split; [by left|]. split; [count_tac|]. split; [count_tac|done]. }
  unfold throwIfAborted. unfold mbind at 1, IO_bind at 1.
  destruct (aborted w) as [reason|] eqn:Ha.
  { exists []. split; [constructor|]. split; [by left|]. split; [count_tac|]. split; [count_tac|done]. }
  unfold mbind at 1, IO_bind at 1.
  destruct (provider_complete provider (turn_request input st) w) as [w1 r] eqn:Hp.
  assert (forall tr w2, effects w1 tr w2 -> effects w (asked_for (turn_request input st) r :: tr) w2) as Hcons
    by (intros tr w2 H; by econstructor).
  destruct r as [response|e].
  2: { eexists. split; [apply Hcons; constructor|]. split; [by left|]. split; [count_tac|].
       split; [count_tac|done]. }
  unfold mbind at 1, IO_bind at 1. destruct (aborted w1) as [reason|] eqn:Ha1.
  { eexists. split; [apply Hcons; constructor|]. split; [by left|]. split; [count_tac|].
    split; [count_tac|done]. }
  cbv zeta. destruct (note_rest response st) as (Hx & Hu & Hc).
  destruct (note_messages response st) as (noted & Hm & Hna & Hns).
  set (st1 := note_response response st) in *.
  destruct (rsp_toolCalls response ?? []) as [|call calls] eqn:Ecalls.
  { eexists. split; [apply Hcons; constructor|]. split; [by left|]. split; [count_tac|].
    split; [count_tac|]. split; [|done]. split; cbn [turn_result atr_messages atr_toolExecutions atr_usage].
    - exists noted. split; [exact Hm|]. unfold calls_of. cbn. rewrite Ecalls. split; [exact Hna|].
      rewrite Hns. by destruct (rsp_text response).
    - exists []. rewrite Hx, app_nil_r. split; [done|]. unfold calls_of. cbn. by rewrite Ecalls.
    - exact Hu. }
  pose proof (run_calls_spec (call :: calls) st1 w1 ltac:(lia)) as H.
  unfold mbind, IO_bind. destruct (run_calls maxToolCalls (call :: calls) st1 w1) as [w2 [st2|e]];
    destruct H as (tr & Heff & Hask & Hstop & Hran & Hext).
  2: { eexists. split; [by apply Hcons|]. split.
       { eapply (stops_app [_]); [done|]. by eapply stops_throw. }
       split; [count_tac|]. split; [count_tac|done]. }
  destruct Hext as (Hext & Hc2 & Hlen). pose proof (ext_count _ _ _ Hext) as Hcount.
  cbn [length] in *. specialize (IH st2 w2 Hc2).
  destruct (run_loop fuel maxToolCalls input st2 w2) as [w3 r].
  destruct IH as (tr' & Heff' & Hstop' & Hran' & Hask' & Hres).
  exists (asked_for (turn_request input st) (Ok response) :: tr ++ tr').
  split; [apply Hcons; by eapply effects_app|].
  split; [eapply (stops_app [_]); [done|]; apply stops_app; [by eapply stops_ok|done]|].
  rewrite !count_cons, !count_app. cbn [is_ran is_asked negb]. split; [lia|]. split; [lia|].
  destruct r as [res|]; [|done]. destruct Hres as [[(added & Ham & Haa & Has) (ex & Hex & Hexc) Hru] Hab].
  split; [|done].
  assert (responses_of (asked_for (turn_request input st) (Ok response) :: tr ++ tr') =
          response :: responses_of tr') as Hresp.
  { cbn. f_equal. fold (responses_of (tr ++ tr')). by rewrite responses_app, responses_none. }
  assert (calls_of (asked_for (turn_request input st) (Ok response) :: tr ++ tr') =
          (call :: calls) ++ calls_of tr') as Hcalls.
  { unfold calls_of. rewrite Hresp. cbn [map concat]. by rewrite Ecalls. }
  destruct Hext as [(m & Hem & Hemi & Hemr) (x & Hxx & Hxc) Heu _].
  destruct (answered_tools m Hemr) as [Hma Hms].
  split.
  - exists (noted ++ m ++ added). split; [by rewrite Ham, Hem, Hm, <- !app_assoc|].
    rewrite !answered_app, !said_app, Hna, Hns, Haa, Has, Hma, Hms, Hemi, Hcalls, Hresp, map_app.
    split; [done|]. cbn [omap list_omap app]. by destruct (rsp_text response).
  - exists (x ++ ex). split; [by rewrite Hex, Hxx, Hx, <- app_assoc|].
    by rewrite map_app, Hxc, Hexc, Hcalls.
  - by rewrite Hru, Heu, Hu, Hresp.
Qed.

Context (input : AgentTurnInput) (Hlimit : ati_maxToolCalls input ?? ofZ 32 = maxToolCalls).

(** *** Termination *)

Lemma run_loop_fuel fuel : forall fuel' st w, ts_toolCount st <= Z.of_nat limit ->
  Z.of_nat limit - ts_toolCount st < Z.of_nat fuel ->
  Z.of_nat limit - ts_toolCount st < Z.of_nat fuel' ->
  run_loop fuel maxToolCalls input st w = run_loop fuel' maxToolCalls input st w.
Proof.
  induction fuel as [|fuel IH]; intros [|fuel'] st w Hst Hf Hf'; [lia|lia|lia|]. cbn [run_loop].
  unfold mbind, IO_bind. destruct (throwIfAborted w) as [w1 [[]|]]; [|done].
  destruct (provider_complete _ _ w1) as [w2 [response|]]; [|done].
  destruct (throwIfAborted w2) as [w3 [[]|]]; [|done]. cbv zeta.
  destruct (note_rest response st) as (_ & _ & Hc).
  destruct (rsp_toolCalls response ?? []) as [|call calls]; [done|].
  pose proof (run_calls_spec (call :: calls) (note_response response st) w3 ltac:(lia)) as H.
  destruct (run_calls maxToolCalls (call :: calls) (note_response response st) w3) as [w4 [st4|]]; [|done].
  destruct H as (tr & _ & _ & _ & _ & Hext & Hc4 & _).
  pose proof (ext_count _ _ _ Hext) as Hcount. cbn [length] in Hcount. apply IH; lia.
Qed.

(** No call of the outside throws the mark of used up fuel. *)
Definition honest {A} (m : IO World A) : Prop := forall w, (m w).2 <> Throw Unfinished.

Record honest_outside : Prop := {
  honest_provider : forall request, honest (provider_complete provider request);
  honest_tools : forall name definition args,
    get_tool tools name = Some definition -> honest (rt_execute definition args);
  honest_signal : honest throwIfAborted }.

Lemma honest_bind {A B} (m : IO World A) (f : A -> IO World B) :
  honest m -> (forall a, honest (f a)) -> honest (m ≫= f).
Proof.
  intros Hm Hf w. unfold mbind, IO_bind. specialize (Hm w).
  destruct (m w) as [w1 [a|e]]; [apply Hf|]. cbn in *. congruence.
Qed.

Lemma honest_catch {A} (m : IO World A) handler :
  honest m -> (forall e, e <> Unfinished -> honest (handler e)) -> honest (io_catch m handler).
Proof.
  intros Hm Hh w. unfold io_catch. specialize (Hm w). destruct (m w) as [w1 [a|e]]; [done|].
  apply Hh. cbn in Hm. congruence.
Qed.

Lemma run_call_honest call st : honest_outside -> honest (run_call maxToolCalls call st).
Proof.
  intros [_ Ht Hs]. unfold run_call. apply honest_bind; [done|]. intros _. cbv zeta.
  destruct (js_lt _ _); [done|]. destruct (get_tool tools (call_name call)) as [definition|] eqn:Hg; [|done].
  unfold run_tool. cbv zeta. apply honest_catch.
  - apply honest_bind; [by eapply Ht|]. intros r. by apply honest_bind.
  - intros e He w. by destruct e, (aborted w).
Qed.

Lemma run_calls_honest calls : forall st, honest_outside -> honest (run_calls maxToolCalls calls st).
Proof.
  induction calls as [|call calls IH]; intros st H; cbn [run_calls]; [done|].
  apply honest_bind; [by apply run_call_honest|]. intros st1. by apply IH.
Qed.

Lemma run_loop_finishes fuel : forall st w, honest_outside -> ts_toolCount st <= Z.of_nat limit ->
  Z.of_nat limit - ts_toolCount st < Z.of_nat fuel ->
  (run_loop fuel maxToolCalls input st w).2 <> Throw Unfinished.
Proof.
  induction fuel as [|fuel IH]; intros st w Hh Hst Hf; [lia|]. cbn [run_loop].
  pose proof (honest_signal Hh) as Hs. unfold mbind, IO_bind. pose proof (Hs w) as H1.
  destruct (throwIfAborted w) as [w1 [[]|]]; [|cbn in *; congruence].
  pose proof (honest_provider Hh (turn_request input st) w1) as H2.
  destruct (provider_complete _ _ w1) as [w2 [response|]]; [|cbn in *; congruence].
  pose proof (Hs w2) as H3. destruct (throwIfAborted w2) as [w3 [[]|]]; [|cbn in *; congruence]. cbv zeta.
  destruct (note_rest response st) as (_ & _ & Hc).
  destruct (rsp_toolCalls response ?? []) as [|call calls]; [done|].
  pose proof (run_calls_spec (call :: calls) (note_response response st) w3 ltac:(lia)) as H.
  pose proof (run_calls_honest (call :: calls) (note_response response st) Hh w3) as H4.
  destruct (run_calls maxToolCalls (call :: calls) (note_response response st) w3) as [w4 [st4|]];
    [|cbn in *; congruence].
  destruct H as (tr & _ & _ & _ & _ & Hext & Hc4 & _).
  pose proof (ext_count _ _ _ Hext) as Hcount. cbn [length] in Hcount. apply IH; [done|lia..].
Qed.

(** A turn ends whatever the model answers: the call limit bounds the rounds
    by one more than the limit, so every larger amount of fuel gives the same
    turn, and the turn is an answer or an error of the code, never the mark of
    used up fuel, when the provider and the tools do not throw that mark. *)
Theorem turn_terminates fuel w : honest_outside -> (limit < fuel)%nat ->
  run_turn fuel input w = run_turn (S limit) input w /\
  (run_turn fuel input w).2 <> Throw Unfinished.
Proof.
  intros Hh Hf. unfold run_turn. rewrite Hlimit. split.
  - apply run_loop_fuel; cbn [turn_start ts_toolCount]; lia.
  - apply run_loop_finishes; [done|..]; cbn [turn_start ts_toolCount]; lia.
Qed.

(** *** Effects and transcript *)

(** What a turn does outside is a sequence of requests and tool runs, each
    begun in a world where the turn is not aborted, with at most as many tool
    runs as the limit and one request more.  A tool run that waits for an
    approval is the last effect: no later call of the same response runs, and
    the turn throws that wait. *)
Theorem turn_effects fuel w :
  let '(w', r) := run_turn fuel input w in
  exists tr, effects w tr w' /\ stops tr r /\
    count is_ran tr <= Z.of_nat limit /\ count is_asked tr <= Z.of_nat limit + 1.
Proof.
  unfold run_turn. rewrite Hlimit.
  pose proof (run_loop_spec input fuel (turn_start input) w) as H.
  destruct (run_loop _ _ _ _ w) as [w' r]. cbn [turn_start ts_toolCount] in H.
  destruct (H ltac:(lia)) as (tr & Heff & Hstop & Hr & Ha & _).
  exists tr. split; [done|]. split; [done|]. split; lia.
Qed.

(** The transcript of a turn that answers is complete: it is the input's
    messages and then what the model said and one tool message for every call of
    every response, in order; every call has its execution record, in order; the
    usage is the merge of the responses' usages; and the turn was not aborted
    when it ended. *)
Theorem turn_transcript fuel w w' res : run_turn fuel input w = (w', Ok res) ->
  aborted w' = None /\ exists tr, effects w tr w' /\
    (exists added, atr_messages res = ati_messages input ++ added /\
       answered added = map (fun c => Some (call_id c)) (calls_of tr) /\
       said added = omap rsp_text (responses_of tr)) /\
    map te_call (atr_toolExecutions res) = calls_of tr /\
    atr_usage res = foldl mergeUsage no_usage (map rsp_usage (responses_of tr)).
Proof.
  intros Hrun. unfold run_turn in Hrun. rewrite Hlimit in Hrun.
  pose proof (run_loop_spec input fuel (turn_start input) w) as H. rewrite Hrun in H.
  cbn [turn_start ts_toolCount] in H.
  destruct (H ltac:(lia)) as (tr & Heff & _ & _ & _ & [Hm (x & Hx & Hxc) Hu] & Ha).
  split; [done|]. exists tr. split; [done|]. split; [exact Hm|]. split; [|exact Hu].
  cbn [turn_start ts_toolExecutions app] in Hx. by rewrite Hx.
Qed.

End Limit.

End Engine.

(** * Concrete turns: a provider, a tool and a failover chain over a world that counts
what happened to it. *)

(** Tool runs and answers so far, and whether the turn is cancelled. *)
Record Room := { room_runs : Z; room_asked : Z; room_cancelled : bool }.

Definition room_start : Room := {| room_runs := 0; room_asked := 0; room_cancelled := false |}.
Definition room_aborted (w : Room) : option AbortReason :=
  if room_cancelled w then Some reason_other else None.

Definition room_call (n : string) : ToolCall :=
  {| call_id := "call-" +:+ n; call_name := "count"; call_input := jnull |}.
Definition room_mystery : ToolCall :=
  {| call_id := "call-x"; call_name := "mystery"; call_input := jnull |}.

(** A first response that calls a tool twice and an unknown one, then an answer. *)
Definition room_responses (asked : Z) : ProviderTurnResponse :=
  if asked =? 0
  then {| rsp_text := Some "Counting."; rsp_usage := Some {| tu_inputTokens := Some (ofZ 10);
            tu_outputTokens := Some (ofZ 3); tu_cachedTokens := None; tu_costUsd := None |};
          rsp_toolCalls := Some [room_call "1"; room_mystery; room_call "2"] |}
  else {| rsp_text := Some "Done."; rsp_toolCalls := None;
          rsp_usage := Some {| tu_inputTokens := Some (ofZ 20); tu_outputTokens := Some (ofZ 1);
            tu_cachedTokens := None; tu_costUsd := None |} |}.

Definition room_provider : TurnProvider Room := {|
  provider_id := "scripted";
  provider_complete := fun _ w =>
    ({| room_runs := room_runs w; room_asked := room_asked w + 1;
        room_cancelled := room_cancelled w |}, Ok (room_responses (room_asked w))) |}.

(** A tool that counts its runs; the second run of a strict one waits for an approval. *)
Definition room_tool (strict : bool) : RuntimeTool Room := {|
  rt_completesRun := None; rt_description := "Counts."; rt_idempotency := id_safe;
  rt_name := "count"; rt_permissions := None; rt_recovery := rec_retry;
  rt_resourceScopes := fun _ => Ok []; rt_sideEffect := se_none; rt_supportsBackground := false;
  rt_execute := fun _ w =>
    if strict && (0 <? room_runs w) then (w, Throw (ToolApprovalRequired "approval-1"))
    else ({| room_runs := room_runs w + 1; room_asked := room_asked w;
             room_cancelled := room_cancelled w |},
          Ok {| tr_artifacts := None; tr_output := "counted" |}) |}.

Definition room_tools (strict : bool) : ToolRegistry Room :=
  result_or [] (register_tool (room_tool strict) []).

Definition room_input (limit : Z) : AgentTurnInput := {|
  ati_maxToolCalls := Some (ofZ limit); ati_model := "model";
  ati_messages := [{| msg_role := role_user; msg_content := "Count."; msg_toolCallId := None |}] |}.

Definition room_le (a b : string) : bool := true.
Definition room_message (e : exn) : string := "An error.".

Definition room_turn (strict : bool) (limit : Z) : Room * result fault AgentTurnResult :=
  run_turn room_message room_le room_aborted room_provider (room_tools strict)
    (S (Z.to_nat limit)) (room_input limit) room_start.

(** The turn answers; the unknown tool is told to the model, and the runs go on. *)
Example room_answers : exists w res, room_turn false 5 = (w, Ok res) /\ room_runs w = 2 /\
  map msg_content (atr_messages res) =
    ["Count."; "Counting."; "counted"; "Unknown tool 'mystery'."; "counted"; "Done."] /\
  map te_succeeded (atr_toolExecutions res) = [true; false; true] /\
  tu_inputTokens (atr_usage res) = Some (ofZ 30).
Proof. eexists _, _. repeat split; vm_compute; reflexivity. Qed.

(** The third call is over a limit of two: it does not run and the turn fails. *)
Example room_limited : exists w, room_turn false 2 = (w, Throw (Failure
    (provider_failure pf_malformed_output "Tool call limit of 2 exceeded."))) /\ room_runs w = 1.
Proof. eexists. repeat split; vm_compute; reflexivity. Qed.

(** The wait for an approval ends the turn. *)
Example room_waits : exists w, room_turn true 5 = (w, Throw (ToolApprovalRequired "approval-1")) /\
  room_runs w = 1 /\ room_asked w = 1.
Proof. eexists. repeat split; vm_compute; reflexivity. Qed.

Lemma room_honest strict : honest_outside room_aborted room_provider (room_tools strict).
Proof.
  split.
  - intros request w. done.
  - intros name definition args H.
    assert (definition = room_tool strict) as ->.
    { revert H. unfold room_tools, register_tool. cbn. unfold get_tool, jm_get. cbn.
      case_match; [|done]. by intros [= <-]. }
    intros w. cbn. by destruct (_ && _).
  - intros w. unfold throwIfAborted, room_aborted. by destruct (room_cancelled w).
Qed.

Lemma turn_terminates_witness :
  (ati_maxToolCalls (room_input 5) ?? ofZ 32 = ofZ (Z.of_nat 5)) /\
  honest_outside room_aborted room_provider (room_tools false) /\ (5 < 40)%nat /\
  run_turn room_message room_le room_aborted room_provider (room_tools false) 40 (room_input 5) room_start =
    run_turn room_message room_le room_aborted room_provider (room_tools false) 6 (room_input 5) room_start /\
  (run_turn room_message room_le room_aborted room_provider (room_tools false) 40 (room_input 5) room_start).2
    <> Throw Unfinished.
Proof.
  split; [reflexivity|]. split; [apply room_honest|]. split; [lia|].
  apply (turn_terminates room_message room_le room_aborted room_provider (room_tools false) 5
           (room_input 5)); [reflexivity|apply room_honest|lia].
Defined.

Lemma turn_effects_witness :
  (ati_maxToolCalls (room_input 5) ?? ofZ 32 = ofZ (Z.of_nat 5)) /\
  let '(w', r) := run_turn room_message room_le room_aborted room_provider (room_tools true) 6
                    (room_input 5) room_start in
  exists tr, effects room_aborted room_provider (room_tools true) room_start tr w' /\ stops tr r /\
    count is_ran tr <= Z.of_nat 5 /\ count is_asked tr <= Z.of_nat 5 + 1.
Proof.
  split; [reflexivity|].
  exact (turn_effects room_message room_le room_aborted room_provider (room_tools true) 5
           (room_input 5) eq_refl 6 room_start).
Defined.

Definition room_result : AgentTurnResult :=
  result_or {| atr_events := []; atr_messages := []; atr_toolExecutions := []; atr_usage := no_usage |}
    (room_turn false 5).2.

Lemma turn_transcript_witness :
  (ati_maxToolCalls (room_input 5) ?? ofZ 32 = ofZ (Z.of_nat 5)) /\
  (run_turn room_message room_le room_aborted room_provider (room_tools false) 6 (room_input 5) room_start =
     ((room_turn false 5).1, Ok room_result)) /\
  room_aborted (room_turn false 5).1 = None.
Proof.
  assert (run_turn room_message room_le room_aborted room_provider (room_tools false) 6 (room_input 5)
            room_start = ((room_turn false 5).1, Ok room_result)) as H by (vm_compute; reflexivity).
  split; [reflexivity|]. split; [exact H|].
  exact (proj1 (turn_transcript room_message room_le room_aborted room_provider (room_tools false) 5
                  (room_input 5) eq_refl 6 room_start _ _ H)).
Defined.

(** ** Failover *)

Definition busy_provider : TurnProvider Room := {|
  provider_id := "busy";
  provider_complete := fun _ w =>
    (w, Throw (Failure (provider_failure pf_rate_limited "Too many requests."))) |}.

Definition strict_provider : TurnProvider Room := {|
  provider_id := "strict";
  provider_complete := fun _ w =>
    (w, Throw (Failure (provider_failure pf_invalid_request "No such model."))) |}.

Definition chain (providers : list (TurnProvider Room)) : FailoverTurnProvider :=
  result_or {| fo_id := ""; fo_candidates := []; fo_failoverKinds := [] |}
    (new_FailoverTurnProvider (map (fun p => {| fc_provider := p; fc_model := None |}) providers) None None).

Definition room_request : ProviderTurnRequest :=
  {| req_messages := []; req_model := "model"; req_tools := [] |}.

Definition counted (a : FailoverAttempt) (w : Room) : Room :=
  {| room_runs := room_runs w + 100; room_asked := room_asked w; room_cancelled := room_cancelled w |}.

Definition room_failover (providers : list (TurnProvider Room)) : Room * result fault ProviderTurnResponse :=
  failover_complete room_message room_aborted counted (chain providers) room_request room_start.

(** A limited provider is passed over; a rejected request is not. *)
Example failover_answers : (room_failover [busy_provider; room_provider]).2 = Ok (room_responses 0) /\
  room_runs (room_failover [busy_provider; room_provider]).1 = 100 /\
  fo_id (chain [busy_provider; room_provider]) = "failover(busy,scripted)".
Proof. repeat split; vm_compute; reflexivity. Qed.

Example failover_stops : (room_failover [strict_provider; room_provider]).2 =
  Throw (Failure (provider_failure pf_invalid_request "No such model.")).
Proof. vm_compute. reflexivity. Qed.

Lemma failover_order_witness :
  fo_candidates (chain [busy_provider; room_provider]) <> [] /\
  fo_failoverKinds (chain [busy_provider; room_provider]) = DEFAULT_FAILOVER_KINDS /\
  let '(w', r) := failover_complete room_message room_aborted counted (chain [busy_provider; room_provider])
                    room_request room_start in
  exists before rest w1, fo_candidates (chain [busy_provider; room_provider]) = before ++ rest /\
    passed_over room_message room_aborted counted DEFAULT_FAILOVER_KINDS room_request room_start before w1 /\
    settled room_message room_aborted counted DEFAULT_FAILOVER_KINDS room_request w1 rest w' r.
Proof.
  split; [discriminate|]. split; [reflexivity|].
  apply (failover_order room_message room_aborted counted DEFAULT_FAILOVER_KINDS room_request);
    [discriminate|reflexivity].
Defined.
