(* ===== verification/RuntimeWorld.v ===== *)
(** The world of the runtime: the durable store and everything outside it, how
    a call on the store reads there, and the JSON text the runtime writes.

    What the runtime does to the store it does through the store's commands:
    [commands m] states that for a computation, and has a rule per command. *)

From Stdlib Require Import ZArith Lia Ascii.
From stdpp Require Import base strings list relations.
From S2P Require Import Prelude JsNumber JsString JsCollections Protocol Json Ids StateMachine.
From S2P Require Import Policies Budget StoreData StoreMonad StoreCore StoreRuns StoreTasks.
From S2P Require Import StoreEffects StoreCommands StoreSafety Provider.

Open Scope string_scope.
Open Scope list_scope.
#[local] Open Scope Z_scope.

(** ** JSON *)

(** [JSON.stringify] of a number. *)
Definition json_number (n : num) : string := if isFinite n then num_string n else "null".

(** [JSON.stringify(value)]; the fields of an object are in property order. *)
Definition JSON_stringify (value : JsonValue) : string := of_units (print_json json_number value).

(** [input[key]] of an object that was parsed from JSON. *)
Definition json_field (input : JsonValue) (key : string) : option JsonValue :=
  match input with
  | jobj fields => snd <$> find (fun f => f.1 === key) fields
  | _ => None
  end.

Definition jstrs (l : list string) : JsonValue := jarr (map jstr l).
Definition jlen {A} (l : list A) : JsonValue := jnum (ofZ (Z.of_nat (length l))).

(** A field that is left out of the object when its value is undefined. *)
Definition jopt (key : string) (value : option JsonValue) : list (string * JsonValue) :=
  match value with None => [] | Some v => [(key, v)] end.

(** ** Calls on the store *)

Section World.
Context {Outside : Type}.

(** The store's state and the rest of the world. *)
Definition World : Type := Store * Outside.

Definition on_store {A} (m : M A) : IO World A := fun w =>
  match m w.1 with
  | (s, Ok a) => ((s, w.2), Ok a)
  | (s, Throw e) => ((s, w.2), Throw (Thrown e))
  end.

(** [try { m } finally { cleanup }] *)
Definition io_finally {A} (m : IO World A) (cleanup : IO World unit) : IO World A := fun w =>
  let '(w, r) := m w in
  match cleanup w with
  | (w, Ok _) => (w, r)
  | (w, Throw e) => (w, Throw e)
  end.

Definition io_when (condition : bool) (m : IO World unit) : IO World unit :=
  if condition then m else mret tt.

Fixpoint io_iterate {A} (body : A -> IO World unit) (l : list A) : IO World unit :=
  match l with
  | [] => mret tt
  | x :: l => _ ← body x; io_iterate body l
  end.

End World.
Arguments World Outside : clear implicits.

(** ** Only commands *)

Section Commands.
Context `{Env}.

(** The computation changes the store by commands alone. *)
Definition commands {A} (m : M A) : Prop := forall s, rtc store_step s (m s).1.

Lemma commands_same {A} (m : M A) : (forall s, (m s).1 = s) -> commands m.
Proof. intros Hm s. by rewrite Hm. Qed.

Lemma commands_ret {A} (a : A) : commands (mret a).
Proof. by apply commands_same. Qed.
Lemma commands_throw {A} e : commands (throw e : M A).
Proof. by apply commands_same. Qed.
Lemma commands_lift {A} (r : exc A) : commands (lift r).
Proof. by apply commands_same. Qed.
Lemma commands_query {A} (f : Db -> A) : commands (query f).
Proof. by apply commands_same. Qed.

Lemma commands_bind {A B} (m : M A) (f : A -> M B) :
  commands m -> (forall a, commands (f a)) -> commands (m ≫= f).
Proof.
  intros Hm Hf s. unfold mbind, M_bind. specialize (Hm s).
  destruct (m s) as [s1 [a|e]]; [|done]. etrans; [exact Hm|apply Hf].
Qed.

Lemma commands_guard c e : commands (guard_throw c e).
Proof. destruct c; [apply commands_throw|apply commands_ret]. Qed.

Lemma commands_iterate {A} (body : A -> M unit) l :
  (forall x, commands (body x)) -> commands (iterate body l).
Proof.
  intros Hb. induction l as [|x l IH]; [apply commands_ret|]. by apply commands_bind.
Qed.

Lemma commands_of {A} (c : command) (m : M A) :
  run_command c = void m -> typed c = true -> commands m.
Proof.
  intros Hc Ht s. apply rtc_once. exists c. split; [done|]. rewrite Hc.
  unfold void, mbind, M_bind. by destruct (m s) as [s1 [a|e]].
Qed.

Lemma commands_of_unit (c : command) (m : M unit) :
  run_command c = m -> typed c = true -> commands m.
Proof. intros <- Ht s. apply rtc_once. by exists c. Qed.
End Commands.

(** The command whose method is [m]. *)
Ltac command_of :=
  lazymatch goal with
  | |- commands (addRequirement ?a ?b ?c ?d ?e) => by apply (commands_of (c_addRequirement a b c d e))
  | |- commands (addEvidence ?a ?b ?c ?d ?e ?f ?g ?h) =>
      by apply (commands_of (c_addEvidence a b c d e f g h))
  | |- commands (setRequirementStatus ?a ?b ?c ?d) =>
      by apply (commands_of_unit (c_setRequirementStatus a b c d))
  | |- commands (recordValidation ?a ?b ?c ?d ?e ?f ?g) =>
      by apply (commands_of (c_recordValidation a b c d e f g))
  | |- commands (transitionRun ?a ?b ?c ?d ?e) => by apply (commands_of (c_transitionRun a b c d e))
  | |- commands (proposeCompletion ?a ?b ?c ?d ?e) =>
      by apply (commands_of (c_proposeCompletion a b c d e))
  | |- commands (appendFencedEvent ?a ?b ?c) => by apply (commands_of (c_appendFencedEvent a b c))
  | |- commands (requestApproval ?a ?b ?c ?d ?e) => by apply (commands_of (c_requestApproval a b c d e))
  | |- commands (claimTask ?a ?b ?c) => by apply (commands_of (c_claimTask a b c))
  | |- commands (recoverGraphWork ?a) => by apply (commands_of (c_recoverGraphWork a))
  | |- commands (markAgentActive ?a ?b) => by apply (commands_of_unit (c_markAgentActive a b))
  | |- commands (sendAgentMessage ?a) => by apply (commands_of (c_sendAgentMessage a))
  | |- commands (receiveAgentMessages ?a ?b ?c) => by apply (commands_of (c_receiveAgentMessages a b c))
  | |- commands (createTask ?a) => by apply (commands_of (c_createTask a))
  | |- commands (transitionTask ?a) => by apply (commands_of (c_transitionTask a))
  | |- commands (spawnAgent ?a) => by apply (commands_of (c_spawnAgent a))
  | |- commands (transitionAgent ?a ?b ?c) => by apply (commands_of (c_transitionAgent a b c))
  | |- commands (setAgentWorktree ?a ?b ?c) => by apply (commands_of (c_setAgentWorktree a b c))
  | |- commands (startSessionEpoch ?a ?b ?c ?d) => by apply (commands_of (c_startSessionEpoch a b c d))
  | |- commands (endSessionEpoch ?a ?b ?c) => by apply (commands_of (c_endSessionEpoch a b c))
  | |- commands (recordProblem ?a) => by apply (commands_of (c_recordProblem a))
  | |- commands (recordCost ?a ?b ?c ?d ?e ?f ?g ?h ?i) =>
      by apply (commands_of (c_recordCost a b c d e f g h i))
  | |- commands (createContextSnapshot ?a ?b ?c ?d ?e ?f ?g) =>
      by apply (commands_of (c_createContextSnapshot a b c d e f g))
  | |- commands (acquireResourceLocks ?a ?b ?c ?d ?e ?f) =>
      by apply (commands_of (c_acquireResourceLocks a b c d e f))
  | |- commands (releaseResourceLocks ?a ?b ?c) =>
      by apply (commands_of_unit (c_releaseResourceLocks a b c))
  | |- commands (recordUsageFenced ?a ?b ?c) => by apply (commands_of (c_recordUsageFenced a b c))
  | |- commands (recordToolIntent ?a) => by apply (commands_of (c_recordToolIntent a))
  | |- commands (completeToolCall ?a ?b ?c ?d) => by apply (commands_of_unit (c_completeToolCall a b c d))
  | |- commands (createCheckpoint ?a ?b ?c ?d ?e ?f) =>
      by apply (commands_of (c_createCheckpoint a b c d e f))
  | |- commands (scheduleWake ?a ?b ?c) => by apply (commands_of (c_scheduleWake a b c))
  end.

Ltac commands_step :=
  lazymatch goal with
  | |- commands (mbind _ _) => apply commands_bind; [|intros ?]
  | |- commands (mret _) => apply commands_ret
  | |- commands (throw _) => apply commands_throw
  | |- commands (lift _) => apply commands_lift
  | |- commands (query _) => apply commands_query
  | |- commands (guard_throw _ _) => apply commands_guard
  | |- commands (iterate _ _) => apply commands_iterate; intros ?
  | |- commands (select_row _ _) => apply commands_query
  | |- commands (getRun _) => apply commands_query
  | |- commands (getTask _) => apply commands_query
  | |- commands (getMission _) => apply commands_query
  | |- commands (listTasks _ _) => apply commands_query
  | |- commands (listAgents _) => apply commands_query
  | |- commands (listEvents _ _) => apply commands_query
  | |- commands (listApprovals _) => apply commands_query
  | |- commands (listAgentMessages _) => apply commands_query
  | |- commands (listRequirements _) => apply commands_query
  | |- commands (listValidations _) => apply commands_query
  | |- commands (listCheckpoints _) => apply commands_query
  | |- commands (let _ := _ in _) => cbv zeta
  | |- commands (match ?x with _ => _ end) => destruct x
  | |- _ => command_of
  end.

Ltac commands_tac := repeat commands_step.

Section WorldCommands.
Context `{Env} {Outside : Type}.

(** The same of a computation on the world. *)
Definition world_commands {A} (m : IO (World Outside) A) : Prop :=
  forall w, rtc store_step w.1 (m w).1.1.

Lemma wc_same {A} (m : IO (World Outside) A) : (forall w, (m w).1.1 = w.1) -> world_commands m.
Proof. intros Hm w. by rewrite Hm. Qed.

Lemma wc_ret {A} (a : A) : world_commands (mret a).
Proof. by apply wc_same. Qed.
Lemma wc_throw {A} e : world_commands (io_throw e : IO (World Outside) A).
Proof. by apply wc_same. Qed.
Lemma wc_lift {A} (r : result fault A) : world_commands (io_lift r).
Proof. by apply wc_same. Qed.

Lemma wc_on_store {A} (m : M A) : commands m -> world_commands (on_store m).
Proof.
  intros Hm [s o]. specialize (Hm s). unfold on_store. cbn.
  destruct (m s) as [s1 [a|e]]; exact Hm.
Qed.

Lemma wc_bind {A B} (m : IO (World Outside) A) (f : A -> IO (World Outside) B) :
  world_commands m -> (forall a, world_commands (f a)) -> world_commands (m ≫= f).
Proof.
  intros Hm Hf w. unfold mbind, IO_bind. specialize (Hm w).
  destruct (m w) as [w1 [a|e]]; [|done]. etrans; [exact Hm|apply Hf].
Qed.

Lemma wc_catch {A} (m : IO (World Outside) A) handler :
  world_commands m -> (forall e, world_commands (handler e)) -> world_commands (io_catch m handler).
Proof.
  intros Hm Hh w. unfold io_catch. specialize (Hm w).
  destruct (m w) as [w1 [a|e]]; [done|]. etrans; [exact Hm|apply Hh].
Qed.

Lemma wc_finally {A} (m : IO (World Outside) A) cleanup :
  world_commands m -> world_commands cleanup -> world_commands (io_finally m cleanup).
Proof.
  intros Hm Hc w. unfold io_finally. specialize (Hm w). destruct (m w) as [w1 r].
  specialize (Hc w1). destruct (cleanup w1) as [w2 [?|?]]; (etrans; [exact Hm|exact Hc]).
Qed.

Lemma wc_when b (m : IO (World Outside) unit) : world_commands m -> world_commands (io_when b m).
Proof. intros Hm. destruct b; [done|apply wc_ret]. Qed.

Lemma wc_iterate {A} (body : A -> IO (World Outside) unit) l :
  (forall x, world_commands (body x)) -> world_commands (io_iterate body l).
Proof.
  intros Hb. induction l as [|x l IH]; [apply wc_ret|]. by apply wc_bind.
Qed.
End WorldCommands.

Ltac wc_step :=
  lazymatch goal with
  | |- world_commands (mbind _ _) => apply wc_bind; [|intros ?]
  | |- world_commands (mret _) => apply wc_ret
  | |- world_commands (io_throw _) => apply wc_throw
  | |- world_commands (io_lift _) => apply wc_lift
  | |- world_commands (on_store _) => apply wc_on_store; commands_tac
  | |- world_commands (io_catch _ _) => apply wc_catch; [|intros ?]
  | |- world_commands (io_finally _ _) => apply wc_finally
  | |- world_commands (io_when _ _) => apply wc_when
  | |- world_commands (io_iterate _ _) => apply wc_iterate; intros ?
  | |- world_commands (let _ := _ in _) => cbv zeta
  | |- world_commands (match ?x with _ => _ end) => destruct x
  end.

Ltac wc_tac leaf := repeat first [ leaf | wc_step ].
