(* ===== verification/MissionTools.v ===== *)
(** The tools a model plans, delegates and proves with:
    packages/runtime/src/mission-tools.ts.

    They are bound to one agent, run and lease and act on the store alone.  The
    input is what the model wrote; every field is checked before it is used. *)

From Stdlib Require Import ZArith Lia Ascii.
From stdpp Require Import base strings list relations.
From S2P Require Import Prelude JsNumber JsString JsCollections Protocol Json Ids StateMachine.
From S2P Require Import Policies Budget StoreData StoreMonad StoreCore StoreRuns StoreTasks.
From S2P Require Import StoreEffects StoreCommands StoreSafety StoreLeases Provider RuntimeWorld.

Open Scope string_scope.
Open Scope list_scope.
#[local] Open Scope Z_scope.

(** ** Checking the input *)

(** Source: packages/runtime/src/mission-tools.ts:21-29 [AGENT_ROLES]. *)
Definition TOOL_AGENT_ROLES : list AgentRole :=
  [role_coordinator; role_debugger; role_implementer; role_researcher; role_reviewer;
   role_specialist; role_verifier].

(** Source: packages/runtime/src/mission-tools.ts:31-37 [EVIDENCE_KINDS]. *)
Definition EVIDENCE_KINDS : list EvidenceKind :=
  [ek_artifact; ek_command; ek_inspection; ek_review; ek_test].

Definition EvidenceKind_str (x : EvidenceKind) : string :=
  match x with
  | ek_artifact => "artifact" | ek_command => "command" | ek_inspection => "inspection"
  | ek_review => "review" | ek_test => "test"
  end.

(** Source: packages/runtime/src/mission-tools.ts:38-38 [EVIDENCE_STRENGTHS]. *)
Definition EVIDENCE_STRENGTHS : list EvidenceStrength := [es_strong; es_supporting; es_weak].

Definition EvidenceStrength_str (x : EvidenceStrength) : string :=
  match x with es_strong => "strong" | es_supporting => "supporting" | es_weak => "weak" end.

Definition RequirementStatus_str (x : RequirementStatus) : string :=
  match x with
  | rqs_contradicted => "contradicted" | rqs_proven => "proven" | rqs_unproven => "unproven"
  | rqs_waived => "waived"
  end.

(** The kinds [message_agent] takes.
    Source: packages/runtime/src/mission-tools.ts:348-356 [message_agent, kinds]. *)
Definition MESSAGE_KINDS : list StoredMessageKind :=
  [amk_answer; amk_question; amk_review_request; amk_review_result; amk_status;
   amk_task_assignment; amk_task_result].

(** Source: packages/runtime/src/mission-tools.ts:40-46 [requiredString]. *)
Definition requiredString (input : JsonValue) (key : string) : exc string :=
  match json_field input key with
  | Some (jstr value) =>
      if is_blank value then Throw (Error (key +:+ " must be a non-empty string.")) else Ok value
  | _ => Throw (Error (key +:+ " must be a non-empty string."))
  end.

(** Source: packages/runtime/src/mission-tools.ts:48-56 [optionalString]. *)
Definition optionalString (input : JsonValue) (key : string) : exc (option string) :=
  match json_field input key with
  | None | Some jnull => Ok None
  | Some (jstr value) => Ok (Some value)
  | _ => Throw (Error (key +:+ " must be a string."))
  end.

(** [name] is the string the program uses for a value.
    Source: packages/runtime/src/mission-tools.ts:58-68 [oneOf]. *)
Definition oneOf {V} (name : V -> string) (value : string) (allowed : list V) (key : string)
  : exc V :=
  match find (fun candidate => name candidate === value) allowed with
  | None => Throw (Error (key +:+ " must be one of: " +:+ join ", " (map name allowed) +:+ "."))
  | Some match_ => Ok match_
  end.

(** Source: packages/runtime/src/mission-tools.ts:70-85 [objectArray]. *)
Definition objectArray (value : option JsonValue) (key : string) : exc (list JsonValue) :=
  match value with
  | Some (jarr entries) =>
      if existsb (fun entry => match entry with jobj _ => false | _ => true end) entries
      then Throw (Error (key +:+ " must be an array of objects."))
      else Ok entries
  | _ => Throw (Error (key +:+ " must be an array of objects."))
  end.

(** Source: packages/runtime/src/mission-tools.ts:87-100 [stringArray]. *)
Definition stringArray (input : JsonValue) (key : string) : exc (list string) :=
  match json_field input key with
  | None | Some jnull => Ok []
  | Some (jarr entries) =>
      if existsb (fun entry => match entry with jstr _ => false | _ => true end) entries
      then Throw (Error (key +:+ " must be an array of strings."))
      else Ok (omap (fun entry => match entry with jstr s => Some s | _ => None end) entries)
  | _ => Throw (Error (key +:+ " must be an array of strings."))
  end.

Definition any_task : ListTasksOptions := {| lt_ownerAgentId := None; lt_status := [] |}.

Definition task_id (task : Task) : string := tk_id (task_row task).
Definition task_title (task : Task) : string := tk_title (task_row task).
Definition task_status (task : Task) : TaskStatus := tk_status (task_row task).

(** ** The tools *)

Section MissionTools.
Context `{Env}.

(** Source: packages/runtime/src/mission-tools.ts:13-19 [MissionToolContext]. *)
Context (agent : Agent) (lease : FencedLease) (runId : string).

Definition agent_id : string := ag_id (agent_row agent).

(** Source: packages/runtime/src/mission-tools.ts:462-475 [ownedTask]. *)
Definition ownedTask (taskId : string) : M (string * string) :=
  task ← getTask taskId;
  match task with
  | None => throw (Error ("Task '" +:+ taskId +:+ "' was not found."))
  | Some task =>
      if tk_owner_agent_id (task_row task) !== Some agent_id
      then throw (Error ("Agent '" +:+ agent_id +:+ "' does not own task '" +:+ taskId +:+
             "'; it is owned by '" +:+ (tk_owner_agent_id (task_row task) ?? "nobody") +:+ "'."))
      else mret (task_id task, task_title task)
  end.

(** What a dependency of a planned task names.
    Source: packages/runtime/src/mission-tools.ts:151-164 [plan_tasks, dependencies]. *)
Definition plan_dependency (existing : list Task) (idsByTitle : jsmap string string)
  (created : list string) (reference : string) : exc string :=
  let resolved := jm_get idsByTitle reference ?? reference in
  if negb (existsb (fun task => task_id task === resolved) existing) &&
     negb (existsb (fun id => id === resolved) created)
  then Throw (Error ("Task dependency '" +:+ reference +:+ "' does not name a known task."))
  else Ok resolved.

(** Source: packages/runtime/src/mission-tools.ts:149-177 [plan_tasks, loop]. *)
Fixpoint plan_entries (existing : list Task) (requested : list JsonValue)
  (idsByTitle : jsmap string string) (created : list string) : M (list string) :=
  match requested with
  | [] => mret created
  | entry :: requested =>
      title ← lift (requiredString entry "title");
      references ← lift (stringArray entry "dependsOn");
      dependencies ← lift (mapM (plan_dependency existing idsByTitle created) references);
      description ← lift (requiredString entry "description");
      requirementIds ← lift (stringArray entry "requirementIds");
      task ← createTask
        {| ct_dependencies := dependencies; ct_description := description; ct_goalId := None;
           ct_lease := Some lease; ct_requirementIds := requirementIds; ct_resourceScopes := [];
           ct_runId := runId; ct_title := title |};
      plan_entries existing requested (jm_set idsByTitle title (task_id task))
        (created ++ [task_id task])
  end.

(** Source: packages/runtime/src/mission-tools.ts:139-185 [plan_tasks]. *)
Definition plan_tasks (input : JsonValue) : M string :=
  requested ← lift (objectArray (json_field input "tasks") "tasks");
  _ ← guard_throw (bool_decide (requested = [])) (Error "plan_tasks requires at least one task.");
  existing ← listTasks runId any_task;
  created ← plan_entries existing requested
    (foldl (fun m task => jm_set m (task_title task) (task_id task)) [] existing) [];
  listed ← listTasks runId any_task;
  mret (JSON_stringify (jobj [("created", jlen created);
    ("tasks", jarr (map (fun task => jobj [("id", jstr (task_id task));
        ("status", jstr (TaskStatus_str (task_status task))); ("title", jstr (task_title task))])
      listed))])).

(** Source: packages/runtime/src/mission-tools.ts:194-206 [list_tasks]. *)
Definition list_tasks : M string :=
  listed ← listTasks runId any_task;
  mret (JSON_stringify (jarr (map (fun task => jobj [
    ("dependencyIds", jstrs (task_dependencyIds task)); ("id", jstr (task_id task));
    ("ownerAgentId", match tk_owner_agent_id (task_row task) with None => jnull | Some o => jstr o end);
    ("status", jstr (TaskStatus_str (task_status task))); ("title", jstr (task_title task))]) listed))).

(** Evidence given with a finished task.
    Source: packages/runtime/src/mission-tools.ts:219-240 [complete_task, evidence]. *)
Definition complete_evidence (taskId : string) (entry : JsonValue) : M unit :=
  kind ← lift (requiredString entry "kind");
  kind ← lift (oneOf EvidenceKind_str kind EVIDENCE_KINDS "evidence.kind");
  requirementId ← lift (requiredString entry "requirementId");
  strength ← lift (requiredString entry "strength");
  strength ← lift (oneOf EvidenceStrength_str strength EVIDENCE_STRENGTHS "evidence.strength");
  summary ← lift (requiredString entry "summary");
  _ ← addEvidence [] kind (Some lease) requirementId runId strength summary (Some taskId);
  mret tt.

(** [input.evidence ?? []] *)
Definition given_evidence (input : JsonValue) : option JsonValue :=
  match json_field input "evidence" with
  | None | Some jnull => Some (jarr [])
  | value => value
  end.

(** Source: packages/runtime/src/mission-tools.ts:215-256 [complete_task]. *)
Definition complete_task (input : JsonValue) : M string :=
  taskId ← lift (requiredString input "taskId");
  task ← ownedTask taskId;
  summary ← lift (requiredString input "summary");
  entries ← lift (objectArray (given_evidence input) "evidence");
  _ ← iterate (complete_evidence task.1) entries;
  completed ← transitionTask
    {| tt_error := None; tt_lease := Some lease; tt_result := Some (jobj [("summary", jstr summary)]);
       tt_taskId := task.1; tt_to := task_completed |};
  ready ← listTasks runId {| lt_ownerAgentId := None; lt_status := [task_ready] |};
  mret (JSON_stringify (jobj [("readyTasks", jstrs (map task_id ready));
    ("status", jstr (TaskStatus_str (task_status completed))); ("taskId", jstr (task_id completed))])).

(** Source: packages/runtime/src/mission-tools.ts:265-277 [fail_task]. *)
Definition fail_task (input : JsonValue) : M string :=
  taskId ← lift (requiredString input "taskId");
  task ← ownedTask taskId;
  error ← lift (requiredString input "error");
  failed ← transitionTask
    {| tt_error := Some error; tt_lease := Some lease; tt_result := None; tt_taskId := task.1;
       tt_to := task_failed |};
  mret (JSON_stringify (jobj [("status", jstr (TaskStatus_str (task_status failed)));
    ("taskId", jstr (task_id failed))])).

(** Source: packages/runtime/src/mission-tools.ts:286-328 [delegate_task]. *)
Definition delegate_task (input : JsonValue) : M string :=
  taskId ← lift (requiredString input "taskId");
  task ← getTask taskId;
  match task with
  | None => throw (Error ("Task '" +:+ taskId +:+ "' does not belong to this Run."))
  | Some task =>
      _ ← guard_throw (tk_run_id (task_row task) !== runId)
            (Error ("Task '" +:+ taskId +:+ "' does not belong to this Run."));
      _ ← match tk_owner_agent_id (task_row task) with
          | None => mret tt
          | Some owner => throw (Error ("Task '" +:+ taskId +:+ "' is already owned by agent '" +:+
                                        owner +:+ "'."))
          end;
      role ← lift (requiredString input "role");
      role ← lift (oneOf AgentRole_str role TOOL_AGENT_ROLES "role");
      child ← spawnAgent
        {| sp_lease := Some lease; sp_parentAgentId := Some agent_id;
           sp_permissions := Some (ag_permissions (agent_row agent)); sp_role := role;
           sp_runId := runId; sp_sandbox := Some (ag_sandbox (agent_row agent));
           sp_taskId := Some (task_id task); sp_worktreeUri := None |};
      let childId := ag_id (agent_row child) in
      _ ← transitionAgent childId (Some lease) agent_queued;
      instructions ← lift (requiredString input "instructions");
      _ ← sendAgentMessage
        {| sm_body := jobj [("instructions", jstr instructions); ("taskId", jstr (task_id task));
                            ("title", jstr (task_title task))];
           sm_fromAgentId := Some agent_id; sm_kind := amk_task_assignment; sm_lease := lease;
           sm_taskId := Some (task_id task); sm_toAgentId := childId |};
      mret (JSON_stringify (jobj [("agentId", jstr childId);
        ("role", jstr (AgentRole_str (ag_role (agent_row child)))); ("taskId", jstr (task_id task))]))
  end.

(** Source: packages/runtime/src/mission-tools.ts:337-363 [message_agent]. *)
Definition message_agent (input : JsonValue) : M string :=
  toAgentId ← lift (requiredString input "agentId");
  body ← match json_field input "body" with
         | Some (jobj fields) => mret (jobj fields)
         | _ => text ← lift (requiredString input "text"); mret (jobj [("text", jstr text)])
         end;
  kind ← lift (optionalString input "kind");
  kind ← lift (oneOf StoredMessageKind_str (kind ?? "status") MESSAGE_KINDS "kind");
  message ← sendAgentMessage
    {| sm_body := body; sm_fromAgentId := Some agent_id; sm_kind := kind; sm_lease := lease;
       sm_taskId := None; sm_toAgentId := toAgentId |};
  mret (JSON_stringify (jobj [("messageId", jstr (am_id message))])).

(** Source: packages/runtime/src/mission-tools.ts:372-388 [add_requirement]. *)
Definition add_requirement (input : JsonValue) : M string :=
  let required := match json_field input "required" with Some (jbool false) => false | _ => true end in
  title ← lift (requiredString input "title");
  supplied ← lift (optionalString input "id");
  id ← match supplied with
       | None => mret None
       | Some _ => id ← lift (requiredString input "id"); mret (Some id)
       end;
  requirement ← addRequirement id (Some lease) (Some required) runId title;
  mret (JSON_stringify (jobj [("id", jstr (rq_id (req_row requirement)));
    ("status", jstr (RequirementStatus_str (rq_status (req_row requirement))))])).

(** Source: packages/runtime/src/mission-tools.ts:397-412 [record_evidence]. *)
Definition record_evidence (input : JsonValue) : M string :=
  kind ← lift (requiredString input "kind");
  kind ← lift (oneOf EvidenceKind_str kind EVIDENCE_KINDS "kind");
  requirementId ← lift (requiredString input "requirementId");
  strength ← lift (requiredString input "strength");
  strength ← lift (oneOf EvidenceStrength_str strength EVIDENCE_STRENGTHS "strength");
  summary ← lift (requiredString input "summary");
  evidenceId ← addEvidence [] kind (Some lease) requirementId runId strength summary
    (ag_task_id (agent_row agent));
  mret (JSON_stringify (jobj [("evidenceId", jstr evidenceId)])).

(** [input[key] === true] *)
Definition is_true (input : JsonValue) (key : string) : bool :=
  match json_field input key with Some (jbool true) => true | _ => false end.

(** Source: packages/runtime/src/mission-tools.ts:421-435 [record_validation]. *)
Definition record_validation (input : JsonValue) : M string :=
  let passed := is_true input "passed" in
  name ← lift (requiredString input "name");
  summary ← lift (requiredString input "summary");
  validationId ← recordValidation (Some (is_true input "independent")) (Some lease) name passed
    runId summary None;
  mret (JSON_stringify (jobj [("id", jstr validationId); ("name", jstr name);
    ("passed", jbool passed)])).

(** Source: packages/runtime/src/mission-tools.ts:444-455 [prove_requirement]. *)
Definition prove_requirement (input : JsonValue) : M string :=
  requirementId ← lift (requiredString input "requirementId");
  _ ← setRequirementStatus runId requirementId rqs_proven (Some lease);
  listed ← listRequirements runId;
  mret (JSON_stringify (jobj (("requirementId", jstr requirementId) ::
    jopt "status" ((fun r => jstr (RequirementStatus_str (rq_status (req_row r)))) <$>
      find (fun r => rq_id (req_row r) === requirementId) listed)))).

(** ** The registry *)

Context {Outside : Type}.

(** Source: packages/runtime/src/mission-tools.ts:103-119 [controlPlaneTool]. *)
Definition controlPlaneTool (name description : string) (run : JsonValue -> M string)
  : RuntimeTool (World Outside) :=
  {| rt_completesRun := None; rt_description := description; rt_idempotency := id_conditional;
     rt_name := name;
     rt_permissions := Some {| required := [pa_read]; perm_requiresApproval := None |};
     rt_recovery := rec_retry; rt_resourceScopes := fun _ => Ok []; rt_sideEffect := se_none;
     rt_supportsBackground := false;
     rt_execute := fun input => output ← on_store (run input);
                                mret {| tr_artifacts := None; tr_output := output |} |}.

Definition mission_tools : list (RuntimeTool (World Outside)) := [
  controlPlaneTool "plan_tasks"
    "Create durable tasks for this Run. Dependencies may reference an existing task id or the title of another task in the same call."
    plan_tasks;
  controlPlaneTool "list_tasks"
    "List the durable Task Graph with status, ownership, and dependencies."
    (fun _ => list_tasks);
  controlPlaneTool "complete_task"
    "Finish a task this agent owns, optionally recording evidence against a requirement."
    complete_task;
  controlPlaneTool "fail_task"
    "Report that a task this agent owns could not be finished. The task becomes retryable rather than terminal."
    fail_task;
  controlPlaneTool "delegate_task"
    "Delegate a task to a new durable sub-agent with a specific role. The sub-agent survives a daemon restart and reports back through the mailbox."
    delegate_task;
  controlPlaneTool "message_agent"
    "Send a durable message to another agent in this Run. Messages persist across daemon restarts."
    message_agent;
  controlPlaneTool "add_requirement"
    "Declare a durable requirement this Run must prove before it may complete."
    add_requirement;
  controlPlaneTool "record_evidence"
    "Record evidence against a requirement. Only `strong` evidence can prove a requirement."
    record_evidence;
  controlPlaneTool "record_validation"
    "Record a validation result, such as a test run. A failing validation blocks completion."
    record_validation;
  controlPlaneTool "prove_requirement"
    "Mark a requirement as proven. This is rejected unless strong evidence already exists."
    prove_requirement ].

(** Source: packages/runtime/src/mission-tools.ts:130-460 [createMissionTools]. *)
Definition createMissionTools : result fault (ToolRegistry (World Outside)) :=
  register_all mission_tools.

(** The names differ, so the registrations succeed. *)
Lemma createMissionTools_ok :
  createMissionTools = Ok (map (fun tool => (rt_name tool, tool)) mission_tools).
Proof.
  apply register_distinct. cbn [map mission_tools rt_name controlPlaneTool].
  apply (bool_decide_unpack _). vm_compute. exact I.
Qed.

(** ** The tools change the store by commands alone *)

Lemma plan_entries_commands existing requested : forall ids created,
  commands (plan_entries existing requested ids created).
Proof.
  induction requested as [|entry requested IH]; intros ids created; cbn [plan_entries];
    [apply commands_ret|].
  repeat first [apply IH | commands_step].
Qed.

Lemma mission_tool_commands tool input : tool ∈ mission_tools ->
  world_commands (rt_execute tool input).
Proof.
  intros Hin. unfold mission_tools in Hin.
  repeat (apply elem_of_cons in Hin as [->|Hin]); [..|by apply not_elem_of_nil in Hin];
    cbn [controlPlaneTool rt_execute]; apply wc_bind; try (intros; apply wc_ret);
    apply wc_on_store;
    unfold plan_tasks, list_tasks, complete_task, fail_task, delegate_task, message_agent,
      add_requirement, record_evidence, record_validation, prove_requirement, ownedTask;
    repeat first
      [ apply plan_entries_commands | progress unfold complete_evidence | commands_step ].
Qed.

(** ** A replaced executor's tools *)

Lemma refuses_void {A} d k (m : M A) : refuses d k (void m) -> refuses d k m.
Proof.
  intros Hm s Hd Hk. destruct (Hm s Hd Hk) as (s' & e & E & Hd'). exists s', e. split; [|done].
  unfold void, mbind, M_bind in E. destruct (m s) as [s1 [a|e1]]; [done|]. by injection E as -> ->.
Qed.

Section Stale.
Context (d : Db) (k : nat).
Hypothesis stale : forall n, (k <= n)%nat -> lease_valid lease (clock_at n) d = false.

Lemma refuses_of {A} c (m : M A) : run_command c = void m -> command_lease c = Some lease ->
  checks_lease c = true -> refuses d k m.
Proof.
  intros Hc Hl Hk. apply refuses_void. rewrite <- Hc.
  apply (refuses_command lease d k stale c Hl Hk).
Qed.

Lemma refuses_lift {A B} (r : exc A) (f : A -> M B) :
  (forall a, refuses d k (f a)) -> refuses d k (lift r ≫= f).
Proof. intros Hf. by apply refuses_pure. Qed.
Lemma refuses_query {A B} (q : Db -> A) (f : A -> M B) :
  (forall a, refuses d k (f a)) -> refuses d k (query q ≫= f).
Proof. intros Hf. by apply refuses_pure. Qed.

Lemma refuses_throw {A} e : refuses d k (throw e : M A).
Proof. intros s Hd _. by repeat eexists. Qed.

Lemma refuses_pure_bind {A B C} (m : M A) (f : A -> M B) (g : B -> M C) :
  refuses d k (m ≫= fun a => f a ≫= g) -> refuses d k ((m ≫= f) ≫= g).
Proof.
  intros Hm s Hd Hk. destruct (Hm s Hd Hk) as (s' & e & E & Hd'). exists s', e.
  split; [|done]. revert E. unfold mbind, M_bind. by destruct (m s) as [s1 [a|e1]].
Qed.

Ltac mission_refuses :=
  lazymatch goal with
  | |- refuses _ _ (mbind _ (lift _)) => apply refuses_lift; intros ?
  | |- refuses _ _ (mbind _ (mret _)) => apply refuses_pure; [done|intros ?]
  | |- refuses _ _ (mbind _ (query _)) => apply refuses_query; intros ?
  | |- refuses _ _ (mbind _ (getTask _)) => apply refuses_query; intros ?
  | |- refuses _ _ (mbind _ (listTasks _ _)) => apply refuses_query; intros ?
  | |- refuses _ _ (mbind _ (guard_throw _ _)) =>
      apply refuses_pure; [intros ?; apply pure_guard|intros ?]
  | |- refuses _ _ (mbind _ (match ?x with _ => _ end)) => destruct x
  | |- refuses _ _ (mbind _ (mbind _ (lift _))) => apply refuses_pure_bind
  | |- refuses _ _ (mbind _ (mbind _ (getTask _))) => apply refuses_pure_bind
  | |- refuses _ _ (mbind _ _) => apply refuses_bind
  | |- refuses _ _ (throw _) => apply refuses_throw
  | |- refuses _ _ (let _ := _ in _) => cbv zeta
  | |- refuses _ _ (match ?x with _ => _ end) => destruct x
  | |- refuses _ _ (addRequirement ?a ?b ?c ?d ?e) => by apply (refuses_of (c_addRequirement a b c d e))
  | |- refuses _ _ (addEvidence ?a ?b ?c ?d ?e ?f ?g ?h) =>
      by apply (refuses_of (c_addEvidence a b c d e f g h))
  | |- refuses _ _ (recordValidation ?a ?b ?c ?d ?e ?f ?g) =>
      by apply (refuses_of (c_recordValidation a b c d e f g))
  | |- refuses _ _ (setRequirementStatus ?a ?b ?c ?d) =>
      by apply (refuses_command lease _ _ stale (c_setRequirementStatus a b c d))
  | |- refuses _ _ (sendAgentMessage ?a) => by apply (refuses_of (c_sendAgentMessage a))
  | |- refuses _ _ (createTask ?a) => by apply (refuses_of (c_createTask a))
  | |- refuses _ _ (transitionTask ?a) => by apply (refuses_of (c_transitionTask a))
  | |- refuses _ _ (spawnAgent ?a) => by apply (refuses_of (c_spawnAgent a))
  end.

Lemma complete_evidence_refuses taskId entries (f : unit -> M string) :
  refuses d k (f tt) -> refuses d k (iterate (complete_evidence taskId) entries ≫= f).
Proof.
  intros Hf. destruct entries as [|entry entries]; cbn [iterate].
  - apply refuses_pure; [done|]. by intros [].
  - apply refuses_bind, refuses_bind. unfold complete_evidence. repeat mission_refuses.
Qed.

Lemma mission_tool_refuses tool input : tool ∈ mission_tools -> rt_name tool <> "list_tasks" ->
  forall s o, db s = d -> (k <= clock_reads s)%nat ->
  exists s' e, rt_execute tool input (s, o) = ((s', o), Throw (Thrown e)) /\ db s' = d.
Proof.
  assert (forall m : JsonValue -> M string, refuses d k (m input) ->
    forall s o, db s = d -> (k <= clock_reads s)%nat ->
    forall name description, exists s' e,
      rt_execute (controlPlaneTool name description m) input (s, o) = ((s', o), Throw (Thrown e)) /\
      db s' = d) as Hlift.
  { intros m Hm s o Hd Hk name description. destruct (Hm s Hd Hk) as (s' & e & E & Hd').
    exists s', e. split; [|done]. cbn [controlPlaneTool rt_execute].
    unfold mbind, IO_bind, on_store. cbn [fst snd]. by rewrite E. }
  intros Hin Hname s o Hd Hk. unfold mission_tools in Hin.
  repeat (apply elem_of_cons in Hin as [->|Hin]); [..|by apply not_elem_of_nil in Hin];
    try done; apply Hlift; try done; clear Hname.
  - unfold plan_tasks. mission_refuses. destruct a as [|entry requested].
    + apply refuses_bind, refuses_throw.
    + apply refuses_pure; [done|intros _]. mission_refuses. apply refuses_bind.
      cbn [plan_entries]. repeat mission_refuses.
  - unfold complete_task, ownedTask.
    repeat first [ apply complete_evidence_refuses | mission_refuses ].
  - unfold fail_task, ownedTask. repeat mission_refuses.
  - unfold delegate_task. repeat mission_refuses.
  - unfold message_agent. repeat mission_refuses.
  - unfold add_requirement. repeat mission_refuses.
  - unfold record_evidence. repeat mission_refuses.
  - unfold record_validation. repeat mission_refuses.
  - unfold prove_requirement. repeat mission_refuses.
Qed.
End Stale.

(** ** Delegation *)

(** An agent row with the capability some agent already had in [d0], or with the
    capability of the agent whose tools these are. *)
Definition granted (d0 : Db) (row : AgentRow) : Prop :=
  (exists row0, row0 ∈ agents d0 /\ ag_id row0 = ag_id row /\
     ag_permissions row0 = ag_permissions row /\ ag_sandbox row0 = ag_sandbox row) \/
  ag_permissions row = ag_permissions (agent_row agent) /\
  ag_sandbox row = ag_sandbox (agent_row agent).

Definition all_granted (d0 d : Db) : Prop := Forall (granted d0) (agents d).

Lemma granted_update d0 (c : AgentRow -> bool) f d :
  (forall a, ag_id (f a) = ag_id a /\ ag_permissions (f a) = ag_permissions a /\
             ag_sandbox (f a) = ag_sandbox a) ->
  all_granted d0 d ->
  all_granted d0 (set_agents (map (fun a => if c a then f a else a) (agents d)) d).
Proof.
  intros Hf Hd. unfold all_granted. cbn [agents set_agents]. apply Forall_map.
  eapply Forall_impl; [exact Hd|]. intros a Ha. cbn. destruct (c a); [|done].
  destruct (Hf a) as (Hi & Hp & Hs). unfold granted. by rewrite Hi, Hp, Hs.
Qed.

Lemma granted_insert d0 row d : granted d0 row -> all_granted d0 d ->
  all_granted d0 (set_agents (agents d ++ [row]) d).
Proof.
  intros Hr Hd. unfold all_granted. cbn [agents set_agents]. apply Forall_app. split; [exact Hd|].
  by apply Forall_singleton.
Qed.

Ltac granted_leaf :=
  lazymatch goal with
  | |- preserves _ (listTasks _ _) => apply preserves_query
  | |- preserves _ (getTask _) => apply preserves_query
  | |- preserves _ (update_rows agents _ _ _) =>
      apply preserves_update; intros ? ?; apply granted_update; [done|assumption]
  | |- preserves _ (insert_row agents _ _ _ _ _) =>
      apply preserves_insert; intros ? ? _ _; apply granted_insert; [by right|assumption]
  end.

Lemma plan_entries_granted d0 existing requested : forall ids created,
  preserves (all_granted d0) (plan_entries existing requested ids created).
Proof.
  induction requested as [|entry requested IH]; intros ids created; cbn [plan_entries];
    [apply preserves_ret|].
  unfold createTask.
  frame ltac:(first [apply IH | frame_read | frame_unfold | granted_leaf]).
Qed.

Lemma mission_tool_granted d0 tool input s o : tool ∈ mission_tools -> all_granted d0 (db s) ->
  all_granted d0 (db (rt_execute tool input (s, o)).1.1).
Proof.
  assert (forall m : JsonValue -> M string, preserves (all_granted d0) (m input) ->
    all_granted d0 (db s) -> forall name description,
    all_granted d0 (db (rt_execute (controlPlaneTool name description m) input (s, o)).1.1)) as Hlift.
  { intros m Hm Hd name description. specialize (Hm s Hd).
    cbn [controlPlaneTool rt_execute]. unfold mbind, IO_bind, on_store. cbn [fst snd].
    by destruct (m input s) as [s1 [out|e]]. }
  intros Hin Hs. unfold mission_tools in Hin.
  repeat (apply elem_of_cons in Hin as [->|Hin]); [..|by apply not_elem_of_nil in Hin];
    apply Hlift; try exact Hs;
    unfold plan_tasks, list_tasks, complete_task, fail_task, delegate_task, message_agent,
      add_requirement, record_evidence, record_validation, prove_requirement, ownedTask,
      complete_evidence, addRequirement, addEvidence, recordValidation, setRequirementStatus,
      sendAgentMessage, transitionTask, spawnAgent, transitionAgent;
    frame ltac:(first [apply plan_entries_granted | frame_read | frame_unfold | granted_leaf]).
Qed.

(** C34: No tool a model can call on the control plane widens a capability:
    whatever the input, and whether the call returns or throws, every agent
    afterwards has the permissions and the sandbox it had before or those of the
    agent that made the call; so a delegate never has more than its parent. *)
Theorem delegation_never_widens tool input s o row : tool ∈ mission_tools ->
  row ∈ agents (db (rt_execute tool input (s, o)).1.1) ->
  (exists row0, row0 ∈ agents (db s) /\ ag_id row0 = ag_id row /\
     ag_permissions row0 = ag_permissions row /\ ag_sandbox row0 = ag_sandbox row) \/
  ag_permissions row = ag_permissions (agent_row agent) /\
  ag_sandbox row = ag_sandbox (agent_row agent).
Proof.
  intros Hin Hrow. pose proof (mission_tool_granted (db s) tool input s o Hin) as Hall.
  unfold all_granted in Hall. rewrite !Forall_forall in Hall. apply Hall; [|done].
  intros a Ha. left. by exists a.
Qed.

(** The tools of an executor that was replaced do nothing: when the lease
    they were made with is no longer valid at any instant from now on, each tool
    leaves every table as it is, and each but the one that only lists tasks
    throws, before or after its input is found valid. *)
Theorem replaced_tools_do_nothing tool input s o : tool ∈ mission_tools ->
  (forall n, (clock_reads s <= n)%nat -> lease_valid lease (clock_at n) (db s) = false) ->
  let '(w', r) := rt_execute tool input (s, o) in
  db w'.1 = db s /\ w'.2 = o /\ (rt_name tool <> "list_tasks" -> exists e, r = Throw (Thrown e)).
Proof.
  intros Hin Hstale. destruct (decide (rt_name tool = "list_tasks")) as [Hname|Hname].
  - unfold mission_tools in Hin.
    repeat (apply elem_of_cons in Hin as [->|Hin]); [..|by apply not_elem_of_nil in Hin];
      try discriminate Hname. done.
  - destruct (mission_tool_refuses (db s) (clock_reads s) Hstale tool input Hin Hname s o eq_refl
                ltac:(lia)) as (s' & e & -> & Hd). by repeat eexists.
Qed.

End MissionTools.
