(* ===== verification/DurableTools.v ===== *)
(** What stands between a model and a tool: the middle of
    packages/runtime/src/coordinator.ts.

    Every tool of a turn is wrapped: the call is first authorized by the acting
    agent's policy and sandbox and, where they ask for one, by a durable approval
    of this very request; its resources are locked and its intent is recorded
    before it runs, and its outcome is recorded and the locks are released after
    it. *)

From Stdlib Require Import ZArith Lia Ascii.
From stdpp Require Import base strings list relations.
From S2P Require Import Prelude JsNumber JsString JsCollections Protocol Json Ids StateMachine.
From S2P Require Import Policies Budget StoreData StoreMonad StoreCore StoreRuns StoreTasks.
From S2P Require Import StoreEffects StoreCommands StoreSafety StoreLocks StoreOnce.
From S2P Require Import Provider RuntimeWorld.

Open Scope string_scope.
Open Scope list_scope.
#[local] Open Scope Z_scope.

(** ** Scopes *)

(** [s.replace(/^c+/u, "")] and [s.replace(/c+$/u, "")] *)
Fixpoint drop_units (c : ascii) (l : list ascii) : list ascii :=
  match l with
  | x :: r => if x === c then drop_units c r else l
  | [] => []
  end.
Definition strip_leading_all (c : ascii) (s : string) : string := of_units (drop_units c (units s)).
Definition strip_trailing_all (c : ascii) (s : string) : string :=
  of_units (rev (drop_units c (rev (units s)))).

(** Source: packages/runtime/src/coordinator.ts:1135-1142 [namespacedIdentifier]. *)
Definition namespacedIdentifier (workspaceUri identifier : string) : string :=
  let root := strip_trailing_all "/"%char workspaceUri in
  let relative := strip_leading_all "/"%char identifier in
  if string_length relative =? 0 then root else root +:+ "/" +:+ relative.

(** [value.indexOf(c)], as the units before and after the first [c]. *)
Fixpoint split_at (c : ascii) (l : list ascii) : option (list ascii * list ascii) :=
  match l with
  | [] => None
  | x :: r => if x === c then Some ([], r)
              else '(before, after) ← split_at c r; Some (x :: before, after)
  end.

Definition resource_kind (supplied : string) : ResourceKind :=
  default rk_custom (find (fun kind => ResourceKind_str kind === supplied) RESOURCE_KINDS).

(** Source: packages/runtime/src/coordinator.ts:1144-1161 [runtimeScope]. *)
Definition runtimeScope (value : string) : ResourceScope :=
  let '(suppliedKind, identifier) :=
    match split_at ":"%char (units value) with
    | None => ("custom", value)
    | Some (before, after) => (of_units before, of_units after)
    end in
  {| scope_access := ac_write; scope_identifier := identifier;
     scope_kind := resource_kind suppliedKind |}.

(** The scope a call asks for, in the workspace of the turn.
    Source: packages/runtime/src/coordinator.ts:652-658 [createDurableTools, scopes]. *)
Definition turn_scope (workspaceUri value : string) : ResourceScope :=
  let scope := runtimeScope value in
  {| scope_access := scope_access scope;
     scope_identifier := namespacedIdentifier workspaceUri (scope_identifier scope);
     scope_kind := scope_kind scope |}.

(** ** Requests *)

(** [JSON.parse(JSON.stringify(value))] of JSON data.
    Source: packages/runtime/src/coordinator.ts:1214-1218 [jsonValue]. *)
Fixpoint jsonValue (value : JsonValue) : JsonValue :=
  match value with
  | jnum n => if isFinite n then jnum n else jnull
  | jarr items => jarr (map jsonValue items)
  | jobj fields => jobj (map (fun '(key, x) => (key, jsonValue x)) fields)
  | value => value
  end.

Section DurableTools.
Context `{Env} {Outside : Type}.
(** [localeCompare], the SHA-256 digest of a text in hexadecimal, and the
    messages of the errors of the packages below. *)
Context (localeCompare_le : string -> string -> bool) (sha256 : string -> string).
Context (exn_message : exn -> string).

(** Source: packages/runtime/src/coordinator.ts:1202-1212 [canonicalJson]. *)
Fixpoint canonicalJson (value : JsonValue) : string :=
  match value with
  | jarr items => "[" +:+ join "," (map canonicalJson items) +:+ "]"
  | jobj fields =>
      "{" +:+ join "," (map (fun entry => json_quote entry.1 +:+ ":" +:+ entry.2)
        (sort_by (fun left right => localeCompare_le left.1 right.1)
          (map (fun '(key, x) => (key, canonicalJson x)) fields))) +:+ "}"
  | value => JSON_stringify value
  end.

(** Source: packages/runtime/src/coordinator.ts:1163-1177 [policyDefinition]. *)
Definition policyDefinition (tool : RuntimeTool (World Outside)) : ToolDefinition :=
  {| tool_name := rt_name tool; sideEffectClass := rt_sideEffect tool;
     idempotency := rt_idempotency tool; recovery := rt_recovery tool; tool_resourceScopes := [];
     tool_permissions := rt_permissions tool ?? {| required := []; perm_requiresApproval := None |} |}.

(** The stable fingerprint of a request for an approval.
    Source: packages/runtime/src/coordinator.ts:1179-1200 [approvalSummary]. *)
Definition approvalSummary (input : JsonValue) (prompts : list PermissionEvaluation)
  (scopes : list ResourceScope) (tool : RuntimeTool (World Outside)) : string :=
  let requestDigest := sha256 (canonicalJson (jsonValue input)) in
  let actions := join ";" (sort_by string_le (map (fun prompt =>
    PermissionAction_str (ev_action prompt) +:+ ":" +:+
    join "," (sort_by string_le (ev_reasons prompt))) prompts)) in
  let scopes := join "," (sort_by string_le (map (fun scope =>
    ResourceKind_str (scope_kind scope) +:+ ":" +:+ scope_identifier scope +:+ ":" +:+
    ResourceAccessMode_str (scope_access scope)) scopes)) in
  "Policy approval required for tool '" +:+ rt_name tool +:+ "' (request=" +:+ requestDigest +:+
  "; actions=" +:+ actions +:+ "; scopes=" +:+ (if scopes === "" then "global" else scopes) +:+ ").".

(** ** Authorization *)

Section Authorize.
Context (agent : Agent) (lease : FencedLease).

(** The evaluations of a request, for every action the tool needs and every
    scope it names.
    Source: packages/runtime/src/coordinator.ts:737-753 [authorizeTool, evaluations]. *)
Definition tool_evaluations (requestedScopes : list ResourceScope)
  (tool : RuntimeTool (World Outside)) : list PermissionEvaluation :=
  let scoped := match requestedScopes with [] => [None] | _ => map Some requestedScopes end in
  flat_map (fun action => map (fun resourceScope =>
    evaluatePermission
      {| in_action := action; in_resourceScope := resourceScope;
         in_requiresApproval :=
           if (perms ← rt_permissions tool; perm_requiresApproval perms) === Some true
           then Some true else None;
         in_runPolicy := ag_permissions (agent_row agent);
         in_sandbox := Some (ag_sandbox (agent_row agent));
         in_toolName := Some (rt_name tool); in_rolePolicy := None; in_toolPolicy := None |}) scoped)
    (permissionActionsForTool (policyDefinition tool)).

Definition denies (evaluation : PermissionEvaluation) : bool := ev_decision evaluation === pe_deny.
Definition prompts_for (evaluation : PermissionEvaluation) : bool :=
  ev_decision evaluation === pe_prompt.

(** [list.at(-1)] is [last].
    Source: packages/runtime/src/coordinator.ts:730-808 [authorizeTool]. *)
Definition authorizeTool (input : JsonValue) (requestedScopes : list ResourceScope)
  (tool : RuntimeTool (World Outside)) : IO (World Outside) (option string) :=
  let evaluations := tool_evaluations requestedScopes tool in
  match find denies evaluations with
  | Some denied =>
      _ ← on_store (appendFencedEvent lease
            (jobj [("action", jstr (PermissionAction_str (ev_action denied)));
                   ("agentId", jstr (ag_id (agent_row agent))); ("decision", jstr "deny");
                   ("reasons", jstrs (ev_reasons denied)); ("toolName", jstr (rt_name tool))])
            evt_agent_progress);
      io_throw (Thrown (PermissionDeniedError (PermissionAction_str (ev_action denied))
        ("Tool '" +:+ rt_name tool +:+ "' is blocked by " +:+ join ", " (ev_reasons denied) +:+ ".")))
  | None =>
      let prompts := List.filter prompts_for evaluations in
      match prompts with
      | [] => mret None
      | prompt :: _ =>
          let summary := approvalSummary input prompts requestedScopes tool in
          listed ← on_store (listApprovals (fl_runId lease));
          let latest := last (List.filter (fun approval => ap_summary approval === summary) listed) in
          let request : IO (World Outside) (option string) :=
            approval ← on_store (requestApproval (Some (ag_id (agent_row agent))) (Some lease)
                                   (fl_runId lease) summary None);
            io_throw (ToolApprovalRequired (ap_id approval)) in
          match latest with
          | Some approval =>
              match ap_status approval with
              | aps_approved => mret (Some (ap_id approval))
              | aps_pending => io_throw (ToolApprovalRequired (ap_id approval))
              | aps_rejected =>
                  io_throw (Thrown (PermissionDeniedError (PermissionAction_str (ev_action prompt))
                    ("The matching durable approval for tool '" +:+ rt_name tool +:+ "' was rejected.")))
              | _ => request
              end
          | None => request
          end
      end
  end.

(** ** The wrapped tool *)

Definition lock_ttl : Z := 15 * 60000.

(** The run of the tool and the record of its outcome.
    Source: packages/runtime/src/coordinator.ts:687-709 [createDurableTools, try]. *)
Definition try_recorded (original : RuntimeTool (World Outside)) (input : JsonValue)
  (toolCallId : string) : IO (World Outside) ToolResult :=
  io_catch
    (result ← rt_execute original input;
     _ ← on_store (completeToolCall None lease
           (Some (jsonValue (jobj
             [("artifacts", jarr (map (fun a => jobj [("name", jstr a.1); ("uri", jstr a.2)])
                 (tr_artifacts result ?? [])));
              ("output", jstr (tr_output result))]))) toolCallId);
     mret result)
    (fun error =>
       _ ← on_store (completeToolCall
             (Some (jobj [("code", jstr "tool_failed");
                          ("message", jstr (message_or exn_message
                             "Tool failed with an unknown error." error))]))
             lease None toolCallId);
       io_throw error).

(** Source: packages/runtime/src/coordinator.ts:687-717 [createDurableTools, run]. *)
Definition run_recorded (original : RuntimeTool (World Outside)) (input : JsonValue)
  (scopes : list ResourceScope) (toolCallId : string) : IO (World Outside) ToolResult :=
  io_finally (try_recorded original input toolCallId)
    (io_when (negb (bool_decide (scopes = [])))
      (on_store (releaseResourceLocks (fl_executorId lease) (fl_runId lease) (fl_generation lease)))).

(** Source: packages/runtime/src/coordinator.ts:648-718 [createDurableTools, execute]. *)
Definition durable_execute (workspaceUri : string) (original : RuntimeTool (World Outside))
  (input : JsonValue) : IO (World Outside) ToolResult :=
  values ← io_lift (rt_resourceScopes original input);
  let scopes := map (turn_scope workspaceUri) values in
  approvalId ← authorizeTool input scopes original;
  _ ← io_when (negb (bool_decide (scopes = [])))
        (_ ← on_store (acquireResourceLocks (fl_executorId lease) (Some lease) (fl_runId lease)
                         scopes None lock_ttl); mret tt);
  toolCallId ← on_store (recordToolIntent
    {| ti_agentId := Some (ag_id (agent_row agent)); ti_approvalId := approvalId;
       ti_idempotency := rt_idempotency original; ti_name := rt_name original;
       ti_recovery := rt_recovery original; ti_sideEffectClass := rt_sideEffect original;
       ti_input := jsonValue input; ti_lease := lease; ti_taskId := None |});
  run_recorded original input scopes toolCallId.

Definition durable_tool (workspaceUri : string) (original : RuntimeTool (World Outside))
  : RuntimeTool (World Outside) :=
  {| rt_completesRun := rt_completesRun original; rt_description := rt_description original;
     rt_idempotency := rt_idempotency original; rt_name := rt_name original;
     rt_permissions := rt_permissions original; rt_recovery := rt_recovery original;
     rt_resourceScopes := rt_resourceScopes original; rt_sideEffect := rt_sideEffect original;
     rt_supportsBackground := rt_supportsBackground original;
     rt_execute := durable_execute workspaceUri original |}.

(** Source: packages/runtime/src/coordinator.ts:638-722 [createDurableTools]. *)
Definition createDurableTools (sourceTools : ToolRegistry (World Outside)) (workspaceUri : string)
  : result fault (ToolRegistry (World Outside)) :=
  register_all (map (durable_tool workspaceUri) (list_tools localeCompare_le sourceTools)).

(** ** What is true when the tool runs *)

Lemma on_store_inside {A} (m : M A) (w w' : World Outside) r : on_store m w = (w', r) -> w'.2 = w.2.
Proof. unfold on_store. destruct (m w.1) as [s [a|e]]; by intros [= <- _]. Qed.

Lemma on_store_ok {A} (m : M A) (w w' : World Outside) a :
  on_store m w = (w', Ok a) <-> exists s, m w.1 = (s, Ok a) /\ w' = (s, w.2).
Proof.
  unfold on_store. destruct (m w.1) as [s [x|e]]; split.
  - intros [= <- <-]. by exists s.
  - by intros (s1 & [= -> ->] & ->).
  - done.
  - by intros (s1 & ? & _).
Qed.

(** Stepping through a call on the world that returned. *)
Lemma io_bind_ok {A B} (m : IO (World Outside) A) (f : A -> IO (World Outside) B) w w' b :
  (m ≫= f) w = (w', Ok b) <-> exists w1 a, m w = (w1, Ok a) /\ f a w1 = (w', Ok b).
Proof.
  unfold mbind, IO_bind. destruct (m w) as [w1 [a|e]]; split.
  - intros E. by exists w1, a.
  - by intros (w2 & a2 & [= -> ->] & ?).
  - done.
  - by intros (w2 & a2 & ? & ?).
Qed.

(** The approvals of a run for the same request. *)
Definition matching_approvals (summary : string) (d : Db) : list ApprovalRow :=
  List.filter (fun approval => ap_summary approval === summary)
    (sort_by (created_then_id ap_requested_at ap_id)
       (List.filter (fun a => ap_run_id a === fl_runId lease) (approvals d))).

Lemma matching_run summary d approval : approval ∈ matching_approvals summary d ->
  approval ∈ approvals d /\ ap_run_id approval = fl_runId lease /\ ap_summary approval = summary.
Proof.
  unfold matching_approvals. rewrite elem_of_list_filter, sort_by_elem, elem_of_list_filter.
  intros [[Hin Hr] Hs]. bool_hyps. done.
Qed.

(** What allows a request in a store: no evaluation denies it, and when some
    evaluation asks for an approval, the latest approval of this request in this
    run is approved. *)
Definition may_run (d : Db) (input : JsonValue) (scopes : list ResourceScope)
  (tool : RuntimeTool (World Outside)) (approvalId : option string) : Prop :=
  let evaluations := tool_evaluations scopes tool in
  (forall evaluation, evaluation ∈ evaluations -> ev_decision evaluation <> pe_deny) /\
  match approvalId with
  | None => forall evaluation, evaluation ∈ evaluations -> ev_decision evaluation = pe_allow
  | Some id => exists approval,
      last (matching_approvals
              (approvalSummary input (List.filter prompts_for evaluations) scopes tool) d) = Some approval /\
      ap_id approval = id /\ ap_status approval = aps_approved
  end.

Lemma authorizeTool_ok input scopes tool w w' approvalId :
  authorizeTool input scopes tool w = (w', Ok approvalId) ->
  w' = w /\ may_run (db w.1) input scopes tool approvalId.
Proof.
  unfold authorizeTool, may_run. cbv zeta.
  destruct (find denies (tool_evaluations scopes tool)) as [denied|] eqn:Hd.
  { intros (w1 & row & _ & [=])%io_bind_ok. }
  assert (forall evaluation, evaluation ∈ tool_evaluations scopes tool ->
            ev_decision evaluation <> pe_deny) as Hallowed.
  { intros evaluation Hin Heq. pose proof (find_none denies _ Hd evaluation) as Hn.
    rewrite <- list_elem_of_In in Hn. specialize (Hn Hin). unfold denies in Hn. bool_hyps. done. }
  destruct (List.filter prompts_for (tool_evaluations scopes tool)) as [|prompt prompts] eqn:Hp.
  { intros [= <- <-]. split; [done|]. split; [done|]. intros evaluation Hin.
    pose proof (proj1 (filter_nil_iff prompts_for (tool_evaluations scopes tool)) Hp evaluation Hin) as Hn.
    unfold prompts_for in Hn. bool_hyps. specialize (Hallowed evaluation Hin).
    by destruct (ev_decision evaluation). }
  intros (w1 & listed & (s1 & [= <- <-] & ->)%on_store_ok & E)%io_bind_ok.
  fold (matching_approvals (approvalSummary input (prompt :: prompts) scopes tool) (db w.1)) in E.
  assert ((w.1, w.2) = w) as Hw by by destruct w. rewrite Hw in E.
  assert (forall w w' x, (approval ← on_store (requestApproval (Some (ag_id (agent_row agent)))
      (Some lease) (fl_runId lease) (approvalSummary input (prompt :: prompts) scopes tool) None);
      io_throw (ToolApprovalRequired (ap_id approval)) : IO (World Outside) (option string)) w
      = (w', Ok x) -> False) as Hreq.
  { by intros ? ? ? (w2 & row & _ & [=])%io_bind_ok. }
  destruct (last _) as [approval|] eqn:Hlast; [|by apply Hreq in E].
  destruct (ap_status approval) eqn:Hst; try discriminate E; try by apply Hreq in E.
  injection E as <- <-. split; [done|]. split; [done|]. by exists approval.
Qed.

Lemma authorizeTool_inside input scopes tool w w' r :
  authorizeTool input scopes tool w = (w', r) -> w'.2 = w.2.
Proof.
  unfold authorizeTool. cbv zeta. unfold mbind, IO_bind, io_throw.
  destruct (find denies _) as [denied|].
  { destruct (on_store _ w) as [w1 [a|e]] eqn:E; apply on_store_inside in E; by intros [= <- _]. }
  destruct (List.filter prompts_for _) as [|prompt prompts]; [by intros [= <- _]|].
  destruct (on_store (listApprovals _) w) as [w1 [listed|e]] eqn:E; apply on_store_inside in E;
    [|by intros [= <- _]].
  rewrite <- E. clear E. destruct (last _) as [approval|].
  1: destruct (ap_status approval).
  all: try by intros [= <- _].
  all: destruct (on_store _ w1) as [w2 [a|e]] eqn:E; apply on_store_inside in E; by intros [= <- _].
Qed.

(** The holder of the turn's locks. *)
Definition turn_owner : string * string * Z := (fl_executorId lease, fl_runId lease, fl_generation lease).

Definition scope_locked (scope : ResourceScope) (d : Db) : Prop :=
  exists l, l ∈ resource_locks d /\ rl_scope l = scope /\ lock_owner l = turn_owner.

Lemma insert_locks_keeps l runId executorId taskId now expiresAt generation index scopes :
  preserves (fun d => l ∈ resource_locks d)
    (insert_locks runId executorId taskId now expiresAt generation index scopes).
Proof.
  apply preserves_insert_locks. intros row d Hin. cbn. apply elem_of_app. by left.
Qed.

Lemma insert_locks_locked now expiresAt scopes : forall index s s' ids,
  insert_locks (fl_runId lease) (fl_executorId lease) None now expiresAt (fl_generation lease) index
    scopes s = (s', Ok ids) ->
  forall scope, scope ∈ scopes -> scope_locked scope (db s').
Proof.
  induction scopes as [|scope scopes IH]; intros index s s' ids E x Hx.
  { by apply not_elem_of_nil in Hx. }
  cbn [insert_locks] in E.
  apply mbind_ok in E as (s1 & generated & [= <- _] & E).
  apply mbind_ok in E as (s2 & [] & Hins & E).
  apply mbind_ok in E as (s3 & ids' & Hrest & [= <- _]).
  apply elem_of_cons in Hx as [->|Hx]; [|by eapply IH].
  unfold insert_row in Hins. destruct (_ || _); [done|]. injection Hins as <-.
  eexists. split; [|split].
  - eapply (preserves_ok (fun d => _ ∈ resource_locks d) _ _ _ _ (insert_locks_keeps _ _ _ _ _ _ _ _ _));
      [|exact Hrest].
    cbn [db set_db resource_locks set_resource_locks]. apply elem_of_app. right.
    apply list_elem_of_here.
  - done.
  - done.
Qed.

Lemma acquireResourceLocks_locked scopes taskId ttl s s' ids : taskId = None ->
  acquireResourceLocks (fl_executorId lease) (Some lease) (fl_runId lease) scopes taskId ttl s
    = (s', Ok ids) ->
  forall scope, scope ∈ scopes -> scope_locked scope (db s').
Proof.
  intros -> E. unfold acquireResourceLocks in E. cbv zeta in E.
  apply mbind_ok in E as (s1 & now & [= <- <-] & E). rewrite transaction_ok in E.
  apply mbind_ok in E as (s2 & [] & _ & E).
  apply mbind_ok in E as (s3 & [] & _ & E).
  apply mbind_ok in E as (s4 & existing & _ & E).
  apply mbind_ok in E as (s5 & [] & _ & E).
  exact (insert_locks_locked _ _ _ _ _ _ _ E).
Qed.

(** The row of a call between its intent and its outcome. *)
Definition call_running (original : RuntimeTool (World Outside)) (input : JsonValue)
  (toolCallId : string) (d : Db) : Prop :=
  exists row, row ∈ tool_calls d /\ tl_id row = toolCallId /\ tl_run_id row = fl_runId lease /\
    tl_agent_id row = Some (ag_id (agent_row agent)) /\ tl_name row = rt_name original /\
    tl_input row = jsonValue input /\ tl_status row = tc_running /\
    tl_lease_generation row = fl_generation lease.

Lemma recordToolIntent_row input s s1 id : recordToolIntent input s = (s1, Ok id) ->
  exists row, row ∈ tool_calls (db s1) /\ tl_id row = id /\ tl_run_id row = fl_runId (ti_lease input) /\
    tl_agent_id row = ti_agentId input /\ tl_name row = ti_name input /\ tl_input row = ti_input input /\
    tl_status row = tc_running /\ tl_lease_generation row = fl_generation (ti_lease input).
Proof.
  intros Hok. unfold recordToolIntent in Hok. cbv zeta in Hok.
  apply mbind_ok in Hok as (s2 & now & [= <- <-] & Hok).
  apply mbind_ok in Hok as (s3 & uuid & [= <- <-] & Hok).
  apply mbind_ok in Hok as (s3 & callId & [= <- _] & Hok).
  apply mbind_ok in Hok as (s4 & exhausted & Htx & Hok).
  apply mbind_ok in Hok as (s5 & [] & [-> ->]%guard_ok & [= <- <-]).
  rewrite transaction_ok in Htx.
  apply mbind_ok in Htx as (s5 & [] & _ & Htx).
  apply mbind_ok in Htx as (s6 & budgeted & _ & Htx).
  destruct (_ || _); [done|].
  apply mbind_ok in Htx as (s7 & [] & Hstart & [= <-]).
  unfold start_tool_call in Hstart. cbv zeta in Hstart.
  apply mbind_ok in Hstart as (s8 & [] & _ & Hstart).
  apply mbind_ok in Hstart as (s9 & [] & Hins & Hstart).
  unfold insert_row in Hins. destruct (_ || _); [done|]. injection Hins as <-.
  match goal with E : context [tool_calls _ ++ [?x]] |- _ => exists x; set (row := x) in * end.
  split.
  { eapply (preserves_ok (fun d => row ∈ tool_calls d)); [| |exact Hstart].
    - frame ltac:(first [frame_read | frame_unfold]).
    - cbn [db set_db tool_calls set_tool_calls]. apply elem_of_app. right. apply list_elem_of_here. }
  done.
Qed.

Lemma recordToolIntent_locks scope input : preserves (scope_locked scope) (recordToolIntent input).
Proof. unfold recordToolIntent. frame ltac:(first [frame_read | frame_unfold]). Qed.

Lemma acquireResourceLocks_approvals a scopes ttl :
  preserves (fun d => approvals d = a)
    (acquireResourceLocks (fl_executorId lease) (Some lease) (fl_runId lease) scopes None ttl).
Proof. unfold acquireResourceLocks. frame ltac:(first [frame_read | frame_unfold]). Qed.

(** The world the tool starts in, after a turn's call in the world [w] was let
    through. *)
Record supervised (w : World Outside) (input : JsonValue) (scopes : list ResourceScope)
  (original : RuntimeTool (World Outside)) (s : Store) (toolCallId : string) : Prop := {
  sup_allowed : exists approvalId, may_run (db w.1) input scopes original approvalId /\
    match approvalId with
    | None => True
    | Some id => exists row, approval_row id (db s) = Some row /\ ap_status row = aps_consumed
    end;
  sup_locked : forall scope, scope ∈ scopes -> scope_locked scope (db s);
  sup_recorded : call_running original input toolCallId (db s) }.

Lemma durable_start workspaceUri original input w values :
  rt_resourceScopes original input = Ok values ->
  let scopes := map (turn_scope workspaceUri) values in
  let '(w', r) := durable_execute workspaceUri original input w in
  (w'.2 = w.2 /\ exists e, r = Throw e) \/
  exists s toolCallId, supervised w input scopes original s toolCallId /\
    run_recorded original input scopes toolCallId (s, w.2) = (w', r).
Proof.
  intros Hv scopes. unfold durable_execute. rewrite Hv. fold scopes.
  unfold mbind at 1, IO_bind at 1, io_lift. cbv zeta. fold scopes.
  unfold mbind at 1, IO_bind at 1.
  destruct (authorizeTool input scopes original w) as [w1 [approvalId|e]] eqn:Hauth.
  2: { left. split; [by eapply authorizeTool_inside|by eexists]. }
  apply authorizeTool_ok in Hauth as [-> Hmay].
  unfold mbind at 1, IO_bind at 1.
  destruct (io_when _ _ w) as [w1 [[]|e]] eqn:Hlock.
  2: { left. split; [|by eexists]. unfold io_when in Hlock. destruct (negb _); [|done].
       unfold mbind, IO_bind in Hlock. destruct (on_store _ w) as [w2 [a|e2]] eqn:E; [done|].
       apply on_store_inside in E. by injection Hlock as <- _. }
  assert (approvals (db w1.1) = approvals (db w.1) /\ w1.2 = w.2 /\
          forall scope, scope ∈ scopes -> scope_locked scope (db w1.1)) as (Happ & Hout & Hlocked).
  { unfold io_when in Hlock. destruct (negb (bool_decide (scopes = []))) eqn:Hs.
    - apply io_bind_ok in Hlock as (w2 & ids & (s2 & Hacq & ->)%on_store_ok & [= <-]).
      cbn [fst snd]. split; [|split; [done|by eapply acquireResourceLocks_locked]].
      by eapply (preserves_ok _ _ _ _ _ (acquireResourceLocks_approvals (approvals (db w.1)) _ _)).
    - injection Hlock as <-. bool_hyps. rewrite Hs. split; [done|]. split; [done|].
      by intros scope ?%not_elem_of_nil. }
  unfold mbind, IO_bind. destruct (on_store _ w1) as [w2 [toolCallId|e]] eqn:Hint.
  2: { left. apply on_store_inside in Hint. split; [congruence|by eexists]. }
  apply on_store_ok in Hint as (s2 & Hint & ->). rewrite Hout.
  destruct (run_recorded original input scopes toolCallId (s2, w.2)) as [w' r] eqn:Hr.
  right. exists s2, toolCallId. split; [|exact Hr].
  split.
  - exists approvalId. split; [done|]. destruct approvalId as [id|]; [|done].
    by apply (recordToolIntent_approval _ id) in Hint as [_ Hc].
  - intros scope Hin. eapply (preserves_ok _ _ _ _ _ (recordToolIntent_locks scope _)); [|exact Hint].
    by apply Hlocked.
  - by apply recordToolIntent_row in Hint.
Qed.

(** Every row of the call in this lease has this status. *)
Definition call_closed (status : ToolCallStatus) (toolCallId : string) (d : Db) : Prop :=
  forall row, row ∈ tool_calls d -> tl_id row = toolCallId -> tl_run_id row = fl_runId lease ->
    tl_lease_generation row = fl_generation lease -> tl_status row = status.

Lemma completeToolCall_closed error output toolCallId s s' :
  completeToolCall error lease output toolCallId s = (s', Ok tt) ->
  call_closed (match error with None => tc_succeeded | Some _ => tc_failed end) toolCallId (db s').
Proof.
  intros E. unfold completeToolCall in E.
  apply mbind_ok in E as (s1 & now & [= <- <-] & E). rewrite transaction_ok in E.
  apply mbind_ok in E as (s2 & [] & _ & E).
  apply mbind_ok in E as (s3 & [] & Hu & E). injection Hu as <-.
  eapply (preserves_ok (call_closed _ toolCallId)); [| |exact E].
  { frame ltac:(first [frame_read | frame_unfold]). }
  intros row Hrow Hid Hr Hg. cbn [db set_db tool_calls set_tool_calls] in Hrow.
  apply list_elem_of_fmap in Hrow as (c & -> & Hc).
  destruct ((tl_id c === toolCallId) && (tl_run_id c === fl_runId lease) &&
            (tl_lease_generation c =? fl_generation lease)) eqn:Em; [by destruct error|].
  exfalso. apply not_true_iff_false in Em. apply Em. rewrite !andb_true_iff.
  split; [split; by apply bool_decide_eq_true|by apply Z.eqb_eq].
Qed.

(** No lock of the turn is left. *)
Definition unlocked (d : Db) : Prop := forall l, l ∈ resource_locks d -> lock_owner l <> turn_owner.

Lemma release_unlocks s :
  exists s', releaseResourceLocks (fl_executorId lease) (fl_runId lease) (fl_generation lease) s
    = (s', Ok tt) /\ unlocked (db s') /\ tool_calls (db s') = tool_calls (db s).
Proof.
  eexists. split; [reflexivity|]. split; [|done]. intros l Hl Ho.
  cbn [db set_db resource_locks set_resource_locks] in Hl.
  apply elem_of_list_filter in Hl as [_ Hl]. injection Ho as Hh Hr Hg.
  rewrite Hh, Hr, Hg, !bool_decide_eq_true_2, Z.eqb_refl in Hl by done. done.
Qed.

(** What the outcome of a call says of the tool's own, after the tool left the store
    [s]: the tool's outcome, recorded as what it is, or else an error of the store,
    which refused to record it. *)
Definition outcome_recorded (toolCallId : string) (s : Store) (d : Db) (ran r : result fault ToolResult)
  : Prop :=
  (r = ran /\
     call_closed (match ran with Ok _ => tc_succeeded | Throw _ => tc_failed end) toolCallId d) \/
  (exists error output x, (completeToolCall error lease output toolCallId s).2 = Throw x) /\
  exists x, r = Throw (Thrown x).

Lemma record_failure toolCallId error (e : fault) w :
  let '(w', r) := (_ ← on_store (completeToolCall (Some error) lease None toolCallId);
                   io_throw e : IO (World Outside) ToolResult) w in
  w'.2 = w.2 /\ (r = Throw e /\ call_closed tc_failed toolCallId (db w'.1) \/
                 exists x, r = Throw (Thrown x) /\
                   (completeToolCall (Some error) lease None toolCallId w.1).2 = Throw x).
Proof.
  unfold mbind, IO_bind, on_store.
  destruct (completeToolCall (Some error) lease None toolCallId w.1) as [s [[]|x]] eqn:E.
  - split; [done|]. left. split; [done|]. by apply completeToolCall_closed in E.
  - split; [done|]. right. by exists x.
Qed.

Lemma try_recorded_spec original input toolCallId w :
  let '(w1, ran) := rt_execute original input w in
  let '(w', r) := try_recorded original input toolCallId w in
  w'.2 = w1.2 /\ outcome_recorded toolCallId w1.1 (db w'.1) ran r.
Proof.
  unfold try_recorded, io_catch. unfold mbind at 1, IO_bind at 1.
  destruct (rt_execute original input w) as [w1 [result|e]].
  - unfold mbind at 1, IO_bind at 1.
    destruct (on_store _ w1) as [w2 [[]|e]] eqn:E.
    + apply on_store_ok in E as (s & E & ->). split; [done|]. left. split; [done|].
      by apply completeToolCall_closed in E.
    + assert (exists x, e = Thrown x /\ exists output,
        (completeToolCall None lease output toolCallId w1.1).2 = Throw x) as (x & -> & output & Hx).
      { unfold on_store in E. destruct (completeToolCall _ _ _ _ _) as [s [?|x]] eqn:Ec; simplify_eq.
        exists x. split; [done|]. eexists. by rewrite Ec. }
      apply on_store_inside in E. cbv beta iota.
      match goal with |- context [completeToolCall (Some ?error) lease None toolCallId] =>
        pose proof (record_failure toolCallId error (Thrown x) w2) as Hf end.
      match type of Hf with match ?x with _ => _ end => destruct x as [w' r] end. destruct Hf as [Ho Hr]. split; [congruence|].
      right. split; [by eexists _, _, _|]. destruct Hr as [[-> _]|(y & -> & _)]; by eexists.
  - match goal with |- context [completeToolCall (Some ?error) lease None toolCallId] =>
      pose proof (record_failure toolCallId error e w1) as Hf end.
    match type of Hf with match ?x with _ => _ end => destruct x as [w' r] end. destruct Hf as [Ho Hr]. split; [done|].
    destruct Hr as [[-> Hc]|(y & -> & Hy)]; [by left|right; split; [by eexists _, _, _|by eexists]].
Qed.

(** How a call that was let through ends. *)
Lemma run_recorded_spec original input scopes toolCallId w :
  let '(w1, ran) := rt_execute original input w in
  let '(w', r) := run_recorded original input scopes toolCallId w in
  w'.2 = w1.2 /\ (scopes <> [] -> unlocked (db w'.1)) /\ outcome_recorded toolCallId w1.1 (db w'.1) ran r.
Proof.
  pose proof (try_recorded_spec original input toolCallId w) as Htry.
  unfold run_recorded, io_finally. destruct (rt_execute original input w) as [w1 ran].
  destruct (try_recorded original input toolCallId w) as [w2 r]. destruct Htry as [Ho Hr].
  unfold io_when. destruct (negb (bool_decide (scopes = []))) eqn:Hs.
  - destruct (release_unlocks w2.1) as (s' & E & Hu & Ht). unfold on_store. rewrite E.
    split; [done|]. split; [done|]. unfold outcome_recorded, call_closed in *. cbn [fst].
    by rewrite Ht.
  - cbn. split; [done|]. split; [|done]. bool_hyps. done.
Qed.

(** C11: A tool of a turn runs only under supervision.  A call whose scopes cannot
    be read throws that error and changes nothing.  Any other call either throws
    without the tool having run, the outside world as it was (the store may keep
    what was written until then, such as a request for an approval, or the locks of
    a call whose intent is refused afterwards); or else, before the tool itself ran, the
    acting agent's policy and sandbox denied none of the actions and scopes of the
    call, an approval of this very request was found approved and is now consumed
    if any of them asked for one, every scope of the call was locked by the turn's
    lease, and the call was recorded as running under its name and input.  When
    the tool has run, no lock of the turn is left if the call had scopes, and the
    call ends as the tool did, recorded as succeeded when it returned and as failed
    when it threw, unless the store refuses to record the outcome: then an error of
    the store is thrown. *)
Theorem tools_run_supervised workspaceUri original input w :
  let '(w', r) := durable_execute workspaceUri original input w in
  match rt_resourceScopes original input with
  | Throw e => w' = w /\ r = Throw e
  | Ok values =>
      let scopes := map (turn_scope workspaceUri) values in
      (w'.2 = w.2 /\ exists e, r = Throw e) \/
      exists s toolCallId w1 ran, supervised w input scopes original s toolCallId /\
        rt_execute original input (s, w.2) = (w1, ran) /\ w'.2 = w1.2 /\
        (scopes <> [] -> unlocked (db w'.1)) /\ outcome_recorded toolCallId w1.1 (db w'.1) ran r
  end.
Proof.
  destruct (rt_resourceScopes original input) as [values|e] eqn:Hv.
  2: { unfold durable_execute. by rewrite Hv. }
  set (scopes := map (turn_scope workspaceUri) values).
  pose proof (durable_start workspaceUri original input w values Hv) as Hstart.
  cbv zeta in Hstart. fold scopes in Hstart. cbv zeta.
  destruct (durable_execute workspaceUri original input w) as [w' r].
  destruct Hstart as [Hn|(s & toolCallId & Hsup & E)]; [by left|right].
  pose proof (run_recorded_spec original input scopes toolCallId (s, w.2)) as Hspec. rewrite E in Hspec.
  destruct (rt_execute original input (s, w.2)) as [w1 ran] eqn:Hran.
  exists s, toolCallId, w1, ran. tauto.
Qed.

(** ** Requests that are not let through *)

Definition prompted (scopes : list ResourceScope) (tool : RuntimeTool (World Outside))
  : list PermissionEvaluation := List.filter prompts_for (tool_evaluations scopes tool).

(** A pending approval of the request was added to the store. *)
Definition approval_requested (summary approvalId : string) (d : Db) : Prop :=
  exists row, approval_row approvalId d = Some row /\ ap_status row = aps_pending /\
    ap_run_id row = fl_runId lease /\ ap_summary row = summary.

Lemma requestApproval_pending agentId summary s s' row :
  requestApproval agentId (Some lease) (fl_runId lease) summary None s = (s', Ok row) ->
  approval_requested summary (ap_id row) (db s').
Proof.
  intros E. unfold requestApproval in E.
  apply mbind_ok in E as (s1 & now & [= <- <-] & E).
  apply mbind_ok in E as (s2 & uuid & [= <- <-] & E).
  apply mbind_ok in E as (s2 & id & [= <- _] & E). rewrite transaction_ok in E.
  apply mbind_ok in E as (s3 & [] & _ & E).
  apply mbind_ok in E as (s4 & [] & Hins & E).
  apply mbind_ok in E as (s5 & ev & Hev & E).
  unfold mustApproval, select_row in E. apply mbind_ok in E as (s6 & found & [= <- <-] & E).
  fold (approval_row id (db s5)) in E.
  unfold insert_row in Hins. destruct (_ || _) eqn:Hfree; [done|]. injection Hins as <-.
  apply orb_false_iff in Hfree as [Hfree _]. cbn [ap_id] in Hfree.
  match goal with X : context [approvals _ ++ [?x]] |- _ => set (new := x) in * end.
  assert (approval_row id (db s5) = Some new) as Hnew.
  { eapply (preserves_ok (fun d => approval_row id d = Some new)); [| |exact Hev].
    - frame ltac:(first [frame_read | frame_unfold]).
    - unfold approval_row. cbn [db set_db approvals set_approvals].
      rewrite find_app_none; [cbn; by rewrite bool_decide_eq_true_2|].
      destruct (find (fun r => ap_id r === id) (approvals (db s3))) as [old|] eqn:Hold; [|done].
      apply find_some in Hold as [Hold Hid]. rewrite <- list_elem_of_In in Hold.
      rewrite existsb_false in Hfree. specialize (Hfree old Hold). cbn beta in Hfree.
      bool_hyps. congruence. }
  rewrite Hnew in E. injection E as <- <-. by exists new.
Qed.

Lemma requestApproval_throws agentId summary s s' e :
  requestApproval agentId (Some lease) (fl_runId lease) summary None s = (s', Throw e) ->
  db s' = db s.
Proof.
  intros E. unfold requestApproval in E.
  apply mbind_throws in E as [[=]|(s1 & now & [= <- <-] & E)].
  apply mbind_throws in E as [[=]|(s2 & uuid & [= <- <-] & E)].
  apply mbind_throws in E as [E|(s2 & id & E1 & E)].
  - by injection E as <- _.
  - injection E1 as <- _. by apply transaction_throws in E.
Qed.

(** How a call ends that has to ask for an approval: it waits for a pending
    approval of its request, which it added, or the store refused it. *)
Definition asks_approval (summary : string) (w w' : World Outside) (r : result fault ToolResult) : Prop :=
  w'.2 = w.2 /\
  ((exists id, r = Throw (ToolApprovalRequired id) /\ approval_requested summary id (db w'.1)) \/
   exists x, r = Throw (Thrown x) /\ db w'.1 = db w.1).

Lemma ask_approval (summary : string) w :
  let '(w', r) := (approval ← on_store (requestApproval (Some (ag_id (agent_row agent))) (Some lease)
                     (fl_runId lease) summary None);
                   io_throw (ToolApprovalRequired (ap_id approval)) : IO (World Outside) (option string)) w in
  exists e, r = Throw e /\ asks_approval summary w w' (Throw e).
Proof.
  unfold mbind, IO_bind, on_store.
  destruct (requestApproval _ _ _ _ _ _) as [s [row|x]] eqn:E.
  - eexists. split; [done|]. split; [done|]. left. eexists. split; [done|].
    by eapply requestApproval_pending.
  - eexists. split; [done|]. split; [done|]. right. exists x. split; [done|].
    by eapply requestApproval_throws.
Qed.

(** A call that is not authorized never gets past the authorization. *)
Lemma durable_unauthorized workspaceUri original input w values :
  rt_resourceScopes original input = Ok values -> forall w1 e,
  authorizeTool input (map (turn_scope workspaceUri) values) original w = (w1, Throw e) ->
  durable_execute workspaceUri original input w = (w1, Throw e).
Proof.
  intros Hv w1 e E. unfold durable_execute. rewrite Hv.
  unfold mbind at 1, IO_bind at 1, io_lift. cbv zeta. unfold mbind at 1, IO_bind at 1. by rewrite E.
Qed.

(** A call the policy or the sandbox denies throws without an effect outside,
    a lock, a recorded call or a new approval.  A call that is not denied but
    needs an approval ends by the latest approval of the same request in the run:
    pending, it waits for that one and changes nothing; rejected, it is denied
    and changes nothing; missing, used up or expired, it waits for a new pending
    approval of exactly this request, unless the store refuses that and changes
    no table. *)
Theorem unapproved_calls_wait workspaceUri original input w values :
  rt_resourceScopes original input = Ok values ->
  let scopes := map (turn_scope workspaceUri) values in
  let summary := approvalSummary input (prompted scopes original) scopes original in
  let '(w', r) := durable_execute workspaceUri original input w in
  match find denies (tool_evaluations scopes original) with
  | Some _ => w'.2 = w.2 /\ (exists x, r = Throw (Thrown x)) /\
      resource_locks (db w'.1) = resource_locks (db w.1) /\
      tool_calls (db w'.1) = tool_calls (db w.1) /\ approvals (db w'.1) = approvals (db w.1)
  | None =>
      prompted scopes original <> [] ->
      match last (matching_approvals summary (db w.1)) with
      | Some approval =>
          match ap_status approval with
          | aps_approved => True
          | aps_pending => w' = w /\ r = Throw (ToolApprovalRequired (ap_id approval))
          | aps_rejected => w' = w /\ exists action reason,
              r = Throw (Thrown (PermissionDeniedError action reason))
          | aps_consumed | aps_expired => asks_approval summary w w' r
          end
      | None => asks_approval summary w w' r
      end
  end.
Proof.
  intros Hv scopes summary.
  pose proof (durable_unauthorized workspaceUri original input w values Hv) as Hun. fold scopes in Hun.
  unfold authorizeTool in Hun. cbv zeta in Hun.
  destruct (find denies (tool_evaluations scopes original)) as [denied|].
  - unfold mbind at 1, IO_bind at 1, on_store in Hun.
    match type of Hun with context [appendFencedEvent ?a ?b ?c] =>
      assert (preserves (fun d => resource_locks d = resource_locks (db w.1) /\
        tool_calls d = tool_calls (db w.1) /\ approvals d = approvals (db w.1))
        (appendFencedEvent a b c)) as Hp
        by (unfold appendFencedEvent; frame ltac:(first [frame_read | frame_unfold]));
      specialize (Hp w.1 (conj eq_refl (conj eq_refl eq_refl)));
      destruct (appendFencedEvent a b c w.1) as [s [ev|x]] end;
      erewrite Hun by reflexivity; (split; [done|]; split; [by eexists|done]).
  - fold (prompted scopes original) in Hun. fold summary in Hun.
    destruct (prompted scopes original) as [|prompt prompts] eqn:Hp.
    { by destruct (durable_execute workspaceUri original input w). }
    unfold mbind at 1, IO_bind at 1, on_store at 1 in Hun. cbn [listApprovals query] in Hun.
    fold (matching_approvals summary (db w.1)) in Hun.
    assert ((w.1, w.2) = w) as Hw by by destruct w. rewrite Hw in Hun.
    pose proof (ask_approval summary w) as Hask.
    match type of Hask with match ?x with _ => _ end => destruct x as [w2 r2] eqn:Hreq end.
    destruct Hask as (e & -> & Hask).
    destruct (last (matching_approvals summary (db w.1))) as [approval|].
    + destruct (ap_status approval);
        try (rewrite (Hun _ _ Hreq); by intros _);
        try (erewrite Hun by reflexivity; by intros _).
      * by destruct (durable_execute workspaceUri original input w).
      * erewrite Hun by reflexivity. intros _. split; [done|]. by eexists _, _.
    + rewrite (Hun _ _ Hreq). by intros _.
Qed.

(** ** The registry of a turn *)

Lemma authorizeTool_commands input scopes tool : world_commands (authorizeTool input scopes tool).
Proof. unfold authorizeTool. wc_tac fail. Qed.

(** A wrapped tool changes the store by commands alone, if the tool does. *)
Lemma durable_commands workspaceUri original input :
  world_commands (rt_execute original input) ->
  world_commands (durable_execute workspaceUri original input).
Proof.
  intros Ho. unfold durable_execute, run_recorded, try_recorded.
  wc_tac ltac:(first [ exact Ho | apply authorizeTool_commands ]).
Qed.

End Authorize.
End DurableTools.
