(* ===== verification/Coordinator.v ===== *)
(** One turn of a run: packages/runtime/src/coordinator.ts.

    The coordinator picks the agent that acts, binds a task to it, lets the
    engine run a turn over the wrapped tools, and writes down what came of it.
    Everything it decides it reads from the store, and everything it changes it
    changes by the store's commands. *)

From Stdlib Require Import ZArith Lia Ascii.
From stdpp Require Import base strings list relations.
From S2P Require Import Prelude JsNumber JsString JsCollections Protocol Json Ids StateMachine.
From S2P Require Import Policies Budget Validation StoreData StoreMonad StoreCore StoreRuns StoreTasks.
From S2P Require Import StoreEffects StoreCommands StoreSafety StoreCompletion.
From S2P Require Import JsDecimal Provider Engine RuntimeWorld MissionTools DurableTools.

Open Scope string_scope.
Open Scope list_scope.
#[local] Open Scope Z_scope.

(** ** Reading the journal *)

(** [String(value)] of a value that came from JSON. *)
Fixpoint js_String (value : JsonValue) : string :=
  match value with
  | jnull => "null"
  | jbool b => if b then "true" else "false"
  | jnum n => num_string n
  | jstr s => s
  | jarr items =>
      join "," (map (fun x => match x with jnull => "" | x => js_String x end) items)
  | jobj _ => "[object Object]"
  end.

(** What one event says of the attempt it belongs to.
    Source: packages/runtime/src/coordinator.ts:575-596 [progressAttempts, event]. *)
Definition note_progress (event : EventRow) (current : ProgressAttempt) : ProgressAttempt :=
  let evidence b := {| at_blockerFingerprint := at_blockerFingerprint current; at_evidenceAdded := b;
    at_meaningfulChange := at_meaningfulChange current; at_timestamp := at_timestamp current |} in
  let change b := {| at_blockerFingerprint := at_blockerFingerprint current;
    at_evidenceAdded := at_evidenceAdded current; at_meaningfulChange := b;
    at_timestamp := at_timestamp current |} in
  let blocked s := {| at_blockerFingerprint := Some s; at_evidenceAdded := at_evidenceAdded current;
    at_meaningfulChange := at_meaningfulChange current; at_timestamp := at_timestamp current |} in
  match ee_type event with
  | evt_validation_finished => evidence true
  | evt_task_status_changed =>
      match json_field (ee_payload event) "to" with
      | Some (jstr to) => if to === "completed" then change true else current
      | _ => current
      end
  | evt_tool_call_finished =>
      match json_field (ee_payload event) "error" with
      | Some (jobj fields) =>
          match json_field (jobj fields) "message" with
          | Some message => blocked (js_String message)
          | None => change true
          end
      | _ => change true
      end
  | evt_provider_failed =>
      blocked (match json_field (ee_payload event) "message" with
               | None | Some jnull => "provider"
               | Some message => js_String message
               end)
  | _ => current
  end.

Section Journal.
(** [toISOString] of an instant. *)
Context (iso : Z -> string).

Definition new_attempt (event : EventRow) : ProgressAttempt :=
  {| at_blockerFingerprint := None; at_evidenceAdded := false; at_meaningfulChange := false;
     at_timestamp := iso (ee_created_at event) |}.

(** The loop over the events, with the attempt it is in.
    Source: packages/runtime/src/coordinator.ts:555-599 [progressAttempts]. *)
Fixpoint progress_attempts (current : option ProgressAttempt) (events : list EventRow)
  : list ProgressAttempt :=
  match events with
  | [] => option_list current
  | event :: events =>
      if ee_type event === evt_agent_turn_started
      then option_list current ++ progress_attempts (Some (new_attempt event)) events
      else progress_attempts (note_progress event <$> current) events
  end.

End Journal.

Definition resets_failures (type : RunEventType) : bool :=
  (type === evt_agent_message) || (type === evt_tool_call_finished) ||
  (type === evt_validation_finished).

(** The loop over the events, newest first.
    Source: packages/runtime/src/coordinator.ts:607-623 [consecutiveProviderFailures]. *)
Fixpoint count_failures (reversed : list EventRow) : Z :=
  match reversed with
  | [] => 0
  | event :: rest =>
      if ee_type event === evt_provider_failed then 1 + count_failures rest
      else if resets_failures (ee_type event) then 0
      else count_failures rest
  end.

(** The name of the type of an event the summary keeps.
    Source: packages/runtime/src/coordinator.ts:1115-1119 [summarizeContext, filter]. *)
Definition summarized (type : RunEventType) : option string :=
  match type with
  | evt_steering_received => Some "steering.received"
  | evt_agent_message => Some "agent.message"
  | evt_tool_call_finished => Some "tool.call_finished"
  | _ => None
  end.

(** [s.slice(0, n)] and [s.slice(-n)] on code units. *)
Definition slice_front (n : nat) (s : string) : string := of_units (firstn n (units s)).
Definition slice_back (n : nat) (s : string) : string :=
  of_units (skipn (length (units s) - n) (units s)).

Definition newline : string := of_units [ascii_of_nat 10].

(** Source: packages/runtime/src/coordinator.ts:1104-1109 [stringifyForContext]. *)
Definition stringifyForContext (value : JsonValue) : string :=
  let encoded := JSON_stringify value in
  if string_length encoded <=? 8000 then encoded
  else slice_front (Z.to_nat 8000) encoded +:+ newline +:+ "[durable tool output truncated]".

(** Source: packages/runtime/src/coordinator.ts:1111-1124 [summarizeContext]. *)
Definition summarizeContext (events : list EventRow) : string :=
  let noted := omap (fun event =>
    (fun type => type +:+ ": " +:+ stringifyForContext (ee_payload event)) <$> summarized (ee_type event))
    events in
  let joined := join newline (skipn (length noted - 40) noted) in
  if string_length joined <=? 24000 then joined else slice_back (Z.to_nat 24000) joined.

(** Source: packages/runtime/src/coordinator.ts:1126-1128 [estimateTokens]. *)
Definition estimateTokens (value : string) : Z := (string_length value + 3) / 4.

(** A requirement as the completion gate reads it. *)
Definition ledger_status (status : RequirementStatus) : LedgerRequirementStatus :=
  match status with
  | rqs_contradicted => lr_contradicted | rqs_proven => lr_proven
  | rqs_unproven => lr_unproven | rqs_waived => lr_waived
  end.
Definition ledger_kind (kind : StoreData.EvidenceKind) : Validation.EvidenceKind :=
  match kind with
  | StoreData.ek_artifact => Validation.ek_artifact | StoreData.ek_command => Validation.ek_command
  | StoreData.ek_inspection => Validation.ek_inspection | StoreData.ek_review => Validation.ek_review
  | StoreData.ek_test => Validation.ek_test
  end.
Definition ledger_strength (strength : StoreData.EvidenceStrength) : Validation.EvidenceStrength :=
  match strength with
  | es_strong => ev_strong | es_supporting => ev_supporting | es_weak => ev_weak
  end.

Definition ledger_requirement (record : RequirementRecord) : LedgerRequirement :=
  {| lr_id := rq_id (req_row record); lr_title := rq_title (req_row record);
     lr_required := rq_required (req_row record); lr_status := ledger_status (rq_status (req_row record));
     lr_evidence := map (fun e => {| re_id := ed_id e; re_kind := ledger_kind (ed_kind e);
       re_strength := ledger_strength (ed_strength e); re_summary := ed_summary e |})
       (req_evidence record) |}.

(** Source: packages/runtime/src/coordinator.ts:288-292 [execute, validations]. *)
Definition gate_validation (validation : ValidationRow) : DeterministicValidationResult :=
  {| dv_id := vd_id validation; dv_passed := vd_status validation === vs_passed;
     dv_summary := vd_summary validation |}.

(** ** What the coordinator is made of *)

(** Source: packages/runtime/src/context.ts:51-56 [CompiledContext]. *)
Record CompiledContext := {
  cc_messages : list RuntimeMessage;
  cc_omitted : list string;
  cc_usedTokens : Z }.

(** Source: packages/runtime/src/context.ts:42-49 [RunContextRequest]. *)
Record RunContextRequest := {
  cr_activeTask : option Task;
  cr_agent : Agent;
  cr_inbox : list MessageRow;
  cr_mission : MissionRow;
  cr_run : Run }.

(** The tools of a run, given or resolved for its workspace.
    Source: packages/runtime/src/coordinator.ts:85-88 [WorkspaceToolResolver]. *)
Inductive ToolSource (World : Type) : Type :=
| given_tools (registry : ToolRegistry World)
| resolved_tools (resolve : string -> string -> IO World (ToolRegistry World)).
Arguments given_tools {World}.
Arguments resolved_tools {World}.

(** The completion gate and the context compiler are the ones the constructor
    settles on; the worktree provisioner is given the agent, the run and the path
    of the workspace.
    Source: packages/runtime/src/coordinator.ts:53-83 [RunCoordinatorOptions]. *)
Record RunCoordinatorOptions (World V : Type) := {
  rco_verifier : option V;
  rco_checkpointOnTaskCompletion : option bool;
  rco_compile : RunContextRequest -> IO World CompiledContext;
  rco_maxProviderAttempts : option num;
  rco_maxToolCalls : option num;
  rco_model : string;
  rco_provider : TurnProvider World;
  rco_tools : ToolSource World;
  rco_worktrees : option (string -> string -> string -> IO World string) }.
Arguments rco_verifier {World V}.
Arguments rco_checkpointOnTaskCompletion {World V}.
Arguments rco_compile {World V}.
Arguments rco_maxProviderAttempts {World V}.
Arguments rco_maxToolCalls {World V}.
Arguments rco_model {World V}.
Arguments rco_provider {World V}.
Arguments rco_tools {World V}.
Arguments rco_worktrees {World V}.

(** What a milestone checkpoint needs of the repository of a workspace. *)
Record MilestoneGit (World : Type) := {
  mg_isRepository : IO World bool;
  mg_captureCheckpoint : string -> string -> Z -> IO World string (* message, run, sequence: the ref *) }.
Arguments mg_isRepository {World}.
Arguments mg_captureCheckpoint {World}.

(** Source: packages/runtime/src/coordinator.ts:1092-1102 [mergeRegistries]. *)
Definition mergeRegistries {World} (localeCompare_le : string -> string -> bool)
  (registries : list (ToolRegistry World)) : result fault (ToolRegistry World) :=
  foldl (fun merged definition =>
    merged ← merged;
    match get_tool merged (rt_name definition) with
    | None => register_tool definition merged
    | Some _ => Ok merged
    end) (Ok []) (flat_map (list_tools localeCompare_le) registries).

(** ** The turn *)

Section Coordinator.
Context `{Env} {Outside V : Type} `{IndependentVerifier V}.
Context (localeCompare_le : string -> string -> bool) (sha256 : string -> string).
Context (exn_message : exn -> string) (iso : Z -> string).
(** The signal, the clock and the random numbers of the process, the standard
    conversions between file URLs and paths, and Git of a workspace. *)
Context (aborted : World Outside -> option AbortReason) (date_now : World Outside -> Z).
Context (math_random : World Outside -> World Outside * num).
(** What the other tasks of the process do while the completion gate is awaited. *)
Context (others : World Outside -> World Outside).
Context (fileURLToPath : string -> option string) (pathToFileURL : string -> string).
Context (git_of : string -> MilestoneGit (World Outside)).
Context (options : RunCoordinatorOptions (World Outside) V).
(** The rounds of the engine's loop the model allows. *)
Context (fuel : nat).

#[local] Abbreviation W := (World Outside).

Definition is_aborted (w : W) : bool := match aborted w with Some _ => true | None => false end.

(** [error instanceof Error ? error.message : String(error)]; the string of a
    thrown value that is no error is [opaque_text]. *)
Context (opaque_text : string).
Definition error_text (error : fault) : string := message_or exn_message opaque_text error.

(** *** Picking the agent and its task *)

Definition agent_status (agent : Agent) : AgentStatus := ag_status (agent_row agent).
Definition agent_role (agent : Agent) : AgentRole := ag_role (agent_row agent).
Definition agentId_of (agent : Agent) : string := ag_id (agent_row agent).

Definition unfinished (task : Task) : bool :=
  (task_status task !== task_completed) && (task_status task !== task_cancelled).

(** A delegate that can act and has a message or a task waiting.
    Source: packages/runtime/src/coordinator.ts:351-366 [selectActingAgent, delegate]. *)
Definition has_work (coordinator : Agent) (pendingRecipients : list string) (tasks : list Task)
  (agent : Agent) : bool :=
  (agentId_of agent !== agentId_of coordinator) &&
  ((agent_status agent === agent_queued) || (agent_status agent === agent_running) ||
   (agent_status agent === agent_waiting)) &&
  (bool_decide (agentId_of agent ∈ pendingRecipients) ||
   existsb (fun task => (tk_owner_agent_id (task_row task) === Some (agentId_of agent)) &&
                        unfinished task) tasks).

(** Source: packages/runtime/src/coordinator.ts:337-380 [selectActingAgent]. *)
Definition selectActingAgent (runId : string) (coordinator : Agent) (lease : FencedLease) : M Agent :=
  agents ← listAgents runId;
  tasks ← listTasks runId any_task;
  messages ← listAgentMessages runId;
  let pendingRecipients := map am_to_agent_id
    (List.filter (fun message => am_status message === ams_pending) messages) in
  let delegate := find (has_work coordinator pendingRecipients tasks) agents in
  let selected := delegate ?? coordinator in
  active ← (if agent_status selected === agent_running then mret selected
            else transitionAgent (agentId_of selected) (Some lease) agent_running);
  _ ← markAgentActive (agentId_of active) lease;
  mret active.

Definition owned_by (agentId : string) : ListTasksOptions :=
  {| lt_ownerAgentId := Some agentId; lt_status := [] |}.

(** [try { m } catch { otherwise }] *)
Definition store_or {A} (otherwise : A) (m : M A) : M A := fun s =>
  match m s with
  | (s, Ok a) => (s, Ok a)
  | (s, Throw _) => (s, Ok otherwise)
  end.

(** Source: packages/runtime/src/coordinator.ts:388-414 [claimTaskFor]. *)
Definition claimTaskFor (agent : Agent) (lease : FencedLease) : M (option Task) :=
  own ← listTasks (fl_runId lease) (owned_by (agentId_of agent));
  match find (fun task => task_status task === task_running) own with
  | Some owned => mret (Some owned)
  | None =>
      assigned ← match ag_task_id (agent_row agent) with
                 | None => mret None
                 | Some taskId => getTask taskId
                 end;
      let ready := match assigned with Some task => task_status task === task_ready | None => false end in
      candidate ← (if ready then mret assigned
                   else if agent_role agent === role_coordinator then nextReadyTask (fl_runId lease)
                   else mret None);
      match candidate with
      | None => mret None
      | Some task =>
          store_or None (claimed ← claimTask (agentId_of agent) lease (task_id task); mret (Some claimed))
      end
  end.

(** Source: packages/runtime/src/coordinator.ts:421-450 [settleActingAgent]. *)
Definition settleActingAgent (agent : Agent) (lease : FencedLease) : M unit :=
  if agent_role agent === role_coordinator then mret tt
  else
    own ← listTasks (fl_runId lease) (owned_by (agentId_of agent));
    if negb (bool_decide (List.filter unfinished own = []))
    then _ ← transitionAgent (agentId_of agent) (Some lease) agent_waiting; mret tt
    else
      own ← listTasks (fl_runId lease) (owned_by (agentId_of agent));
      let finished := List.filter (fun task => task_status task === task_completed) own in
      _ ← match agent_parentAgentId agent with
          | None => mret tt
          | Some parent =>
              _ ← sendAgentMessage
                {| sm_body := jobj [("completedTaskIds", jstrs (map task_id finished));
                                    ("role", jstr (AgentRole_str (agent_role agent)))];
                   sm_fromAgentId := Some (agentId_of agent); sm_kind := amk_task_result;
                   sm_lease := lease; sm_taskId := ag_task_id (agent_row agent);
                   sm_toAgentId := parent |};
              mret tt
          end;
      _ ← transitionAgent (agentId_of agent) (Some lease) agent_completed;
      mret tt.

(** *** Stagnation *)

(** Source: packages/runtime/src/coordinator.ts:554-600 [progressAttempts]. *)
Definition progressAttempts (runId : string) : M (list ProgressAttempt) :=
  events ← listEvents runId 0;
  mret (progress_attempts iso None events).

Definition StagnationAction_str (action : StagnationAction) : string :=
  match action with
  | st_blocked => "blocked" | st_continue => "continue" | st_fresh_agent => "fresh_agent"
  | st_replan => "replan"
  end.

(** A task goes back to the pool.
    Source: packages/runtime/src/coordinator.ts:485-490 [reactToStagnation, replan]. *)
Definition give_up_task (lease : FencedLease) (reason : string) (task : Task) : M unit :=
  _ ← transitionTask {| tt_error := Some reason; tt_lease := Some lease; tt_result := None;
                        tt_taskId := task_id task; tt_to := task_failed |};
  mret tt.

Definition running_of (agentId : string) : ListTasksOptions :=
  {| lt_ownerAgentId := Some agentId; lt_status := [task_running] |}.

(** Source: packages/runtime/src/coordinator.ts:498-533 [reactToStagnation, fresh_agent]. *)
Definition replace_agent (runId : string) (lease : FencedLease) (acting : Agent) (reason : string)
  : M unit :=
  own ← listTasks runId (running_of (agentId_of acting));
  match own with
  | [] => mret tt
  | stuck :: _ =>
      _ ← give_up_task lease reason stuck;
      replacement ← spawnAgent
        {| sp_lease := Some lease; sp_parentAgentId := Some (agentId_of acting);
           sp_permissions := Some (ag_permissions (agent_row acting));
           sp_role := if agent_role acting === role_debugger then role_reviewer else role_debugger;
           sp_runId := runId; sp_sandbox := Some (ag_sandbox (agent_row acting));
           sp_taskId := Some (task_id stuck); sp_worktreeUri := None |};
      _ ← transitionAgent (agentId_of replacement) (Some lease) agent_queued;
      _ ← sendAgentMessage
        {| sm_body := jobj [("reason", jstr reason); ("taskId", jstr (task_id stuck));
                            ("title", jstr (task_title stuck))];
           sm_fromAgentId := Some (agentId_of acting); sm_kind := amk_task_assignment;
           sm_lease := lease; sm_taskId := Some (task_id stuck);
           sm_toAgentId := agentId_of replacement |};
      mret tt
  end.

(** Source: packages/runtime/src/coordinator.ts:460-547 [reactToStagnation]. *)
Definition reactToStagnation (runId : string) (lease : FencedLease) (acting : Agent) : M unit :=
  attempts ← progressAttempts runId;
  let assessment := assessStagnation attempts in
  match sa_action assessment with
  | st_continue => mret tt
  | action =>
      _ ← appendFencedEvent lease
            (jobj [("action", jstr (StagnationAction_str action)); ("agentId", jstr (agentId_of acting));
                   ("reason", jstr (sa_reason assessment));
                   ("repeatedBlockerCount", jnum (ofZ (Z.of_nat (sa_repeatedBlockerCount assessment))))])
            evt_agent_progress;
      match action with
      | st_replan =>
          own ← listTasks runId (running_of (agentId_of acting));
          iterate (give_up_task lease (sa_reason assessment)) own
      | st_fresh_agent => replace_agent runId lease acting (sa_reason assessment)
      | _ =>
          _ ← recordProblem
            {| rp_alternateActionAvailable := false; rp_lease := None; rp_externalDependency := false;
               rp_fingerprint := "stagnation:" +:+ runId; rp_meaningful := Some true; rp_note := None;
               rp_runId := runId; rp_summary := sa_reason assessment; rp_taskId := None |};
          mret tt
      end
  end.

(** *** How a turn that failed is settled *)

(** Source: packages/runtime/src/coordinator.ts:607-623 [consecutiveProviderFailures]. *)
Definition consecutiveProviderFailures (runId : string) : M Z :=
  events ← listEvents runId 0;
  mret (count_failures (rev events)).

(** Source: packages/runtime/src/coordinator.ts:626-636 [handleAbort]. *)
Definition handleAbort (lease : FencedLease) (epochId : string) : M bool :=
  _ ← endSessionEpoch epochId (Some lease) er_aborted;
  mret true.

(** Source: packages/runtime/src/coordinator.ts:810-837 [handleApprovalWait]. *)
Definition handleApprovalWait (action : ScheduledAction) (approvalId epochId : string)
  (lease : FencedLease) : M bool :=
  _ ← endSessionEpoch epochId (Some lease) er_completed;
  approvals ← listApprovals (fl_runId lease);
  run ← getRun (act_runId action);
  let pending := match find (fun candidate => ap_id candidate === approvalId) approvals with
                 | Some approval => ap_status approval === aps_pending
                 | None => false
                 end in
  let running := match run with Some run => run_status run === run_running | None => false end in
  _ ← (if pending && running
       then _ ← transitionRun None (Some lease) (Some ("Awaiting approval '" +:+ approvalId +:+ "'."))
                  (act_runId action) run_waiting_external; mret tt
       else mret tt);
  mret true.

Definition retry_jitter : num := Fin (2 ^ 1072).

(** [new Date(now + delay)]: an instant of at most 8.64e15 milliseconds, in whole
    milliseconds. *)
Definition date_after (now : Z) (delay : num) : option Z :=
  match js_add (ofZ now) delay with
  | Fin z =>
      let t := Z.quot z one_units in
      if Z.abs t <=? 8640000000000000 then Some t else None
  | _ => None
  end.

Definition is_overflow (failure : ProviderFailure) : bool :=
  pf_kind failure === pf_context_overflow.

(** A new session continues from a summary.
    Source: packages/runtime/src/coordinator.ts:1010-1017 [handleFailure, overflow]. *)
Definition snapshot_overflow (lease : FencedLease) (epochId : string) : M unit :=
  events ← listEvents (fl_runId lease) 0;
  let summary := summarizeContext events in
  _ ← createContextSnapshot None None (Some lease) (fl_runId lease) (Some epochId) summary
        (ofZ (estimateTokens summary));
  mret tt.

(** Source: packages/runtime/src/coordinator.ts:1045-1061 [handleFailure, retry]. *)
Definition schedule_retry (action : ScheduledAction) (lease : FencedLease) (failure : ProviderFailure)
  (consecutiveFailures : Z) : IO W unit :=
  random ← match pf_retryAfterMs failure with
           | None => fun w => let '(w, random) := math_random w in (w, Ok random)
           | Some _ => mret (ofZ 0)
           end;
  let delay := retryDelayMs consecutiveFailures (pf_retryAfterMs failure) (Some retry_jitter) random in
  _ ← (fun w => on_store (scheduleWake (Some lease) (act_runId action) (date_after (date_now w) delay)) w);
  _ ← on_store (appendFencedEvent lease
        (jobj [("consecutiveFailures", jnum (ofZ consecutiveFailures)); ("delayMs", jnum delay);
               ("kind", jstr (ProviderFailureKind_str (pf_kind failure)))]) evt_run_retry_scheduled);
  mret tt.

(** Source: packages/runtime/src/coordinator.ts:1068-1086 [handleFailure, park]. *)
Definition park_run (action : ScheduledAction) (lease : FencedLease) (failure : ProviderFailure)
  (consecutiveFailures : Z) : M unit :=
  let kind := ProviderFailureKind_str (pf_kind failure) in
  _ ← recordProblem
    {| rp_alternateActionAvailable := retryable failure; rp_lease := None;
       rp_externalDependency := true; rp_fingerprint := "provider:" +:+ kind;
       rp_meaningful := Some true; rp_note := Some (slice_front 500 (pf_message failure));
       rp_runId := act_runId action;
       rp_summary :=
         if retryable failure
         then "Provider kept failing with '" +:+ kind +:+ "' after " +:+ decimal consecutiveFailures +:+
              " consecutive attempts."
         else "Provider failure '" +:+ kind +:+ "' needs operator or provider configuration input.";
       rp_taskId := None |};
  run ← getRun (act_runId action);
  match run with
  | Some run =>
      if run_status run === run_running
      then _ ← transitionRun None (Some lease) (Some ("Provider failure: " +:+ kind)) (act_runId action)
                 run_waiting_external; mret tt
      else mret tt
  | None => mret tt
  end.

Definition max_attempts : num := rco_maxProviderAttempts options ?? ofZ 6.

(** Source: packages/runtime/src/coordinator.ts:1003-1088 [handleFailure]. *)
Definition handleFailure (action : ScheduledAction) (lease : FencedLease) (epochId : string)
  (failure : ProviderFailure) : IO W bool :=
  _ ← (if is_overflow failure then on_store (snapshot_overflow lease epochId) else mret tt);
  _ ← on_store (endSessionEpoch epochId (Some lease)
        (if is_overflow failure then er_context_overflow else er_failed));
  _ ← on_store (appendFencedEvent lease
        (jobj [("kind", jstr (ProviderFailureKind_str (pf_kind failure)));
               ("message", jstr (pf_message failure))]) evt_provider_failed);
  if is_overflow failure
  then
    _ ← on_store (appendFencedEvent lease
          (jobj [("action", jstr "new_session_epoch"); ("reason", jstr "context_overflow")])
          evt_context_compacted);
    mret true
  else
    consecutiveFailures ← on_store (consecutiveProviderFailures (act_runId action));
    if retryable failure && js_le (ofZ consecutiveFailures) max_attempts
    then _ ← schedule_retry action lease failure consecutiveFailures; mret false
    else _ ← on_store (park_run action lease failure consecutiveFailures); mret false.

(** *** Where a turn works *)

(** Source: packages/runtime/src/coordinator.ts:866-887 [sandboxForTurn]. *)
Definition sandboxForTurn (agent : Agent) (workspaceUri missionWorkspaceUri : string) : Agent :=
  let row := agent_row agent in
  let sandbox := ag_sandbox row in
  let fs := sb_filesystem sandbox in
  if workspaceUri === missionWorkspaceUri then agent
  else if bool_decide (workspaceUri ∈ writableRoots fs) then agent
  else
    {| agent_row :=
         {| ag_id := ag_id row; ag_run_id := ag_run_id row; ag_task_id := ag_task_id row;
            ag_role := ag_role row; ag_status := ag_status row; ag_permissions := ag_permissions row;
            ag_sandbox :=
              {| sb_filesystem := {| writableRoots := writableRoots fs ++ [workspaceUri];
                                     readOnlyRoots := readOnlyRoots fs |};
                 sb_network := sb_network sandbox; sb_process := sb_process sandbox;
                 sb_permissions := sb_permissions sandbox |};
            ag_worktree_uri := ag_worktree_uri row; ag_spawned_at := ag_spawned_at row;
            ag_closed_at := ag_closed_at row; ag_created_at := ag_created_at row;
            ag_updated_at := ag_updated_at row; ag_lease_generation := ag_lease_generation row |};
       agent_parentAgentId := agent_parentAgentId agent;
       agent_sessionEpochIds := agent_sessionEpochIds agent |}.

(** A turn keeps going without what failed, and journals why. *)
Definition journal_failure (lease : FencedLease) (agent : Agent) (kind : string) (error : fault)
  : IO W unit :=
  _ ← on_store (appendFencedEvent lease
        (jobj [("agentId", jstr (agentId_of agent)); ("kind", jstr kind);
               ("message", jstr (error_text error))]) evt_agent_progress);
  mret tt.

(** Source: packages/runtime/src/coordinator.ts:889-927 [ensureAgentWorktree]. *)
Definition ensureAgentWorktree (agent : Agent) (mission : MissionRow) (lease : FencedLease)
  : IO W string :=
  let shared := ms_workspace_uri mission in
  match rco_worktrees options with
  | None => mret shared
  | Some provision =>
      if agent_role agent === role_coordinator then mret shared
      else
        match ag_worktree_uri (agent_row agent) with
        | Some worktreeUri => mret worktreeUri
        | None =>
            if negb (startsWith shared "file:") then mret shared
            else
              match fileURLToPath shared with
              | None => mret shared
              | Some workspacePath =>
                  io_catch
                    (worktreePath ← provision (agentId_of agent) (fl_runId lease) workspacePath;
                     let worktreeUri := pathToFileURL worktreePath in
                     _ ← on_store (setAgentWorktree (agentId_of agent) lease worktreeUri);
                     mret worktreeUri)
                    (fun error =>
                       _ ← journal_failure lease agent "worktree_provisioning_failed" error;
                       mret shared)
              end
        end
  end.

(** Source: packages/runtime/src/coordinator.ts:839-846 [resolveTools]. *)
Definition resolveTools (workspaceUri runId : string) : IO W (ToolRegistry W) :=
  match rco_tools options with
  | given_tools registry => mret registry
  | resolved_tools resolve => resolve runId workspaceUri
  end.

(** Source: packages/runtime/src/coordinator.ts:967-983 [createMilestoneCheckpoint, manifest]. *)
Definition milestone_manifest (agents : list Agent) (records : list RequirementRecord)
  (tasks : list Task) : JsonValue :=
  jobj [("agents", jarr (map (fun agent => jobj [("id", jstr (agentId_of agent));
           ("role", jstr (AgentRole_str (agent_role agent)));
           ("status", jstr (AgentStatus_str (agent_status agent)))]) agents));
        ("requirements", jarr (map (fun req => jobj [("id", jstr (rq_id (req_row req)));
           ("status", jstr (RequirementStatus_str (rq_status (req_row req))));
           ("title", jstr (rq_title (req_row req)))]) records));
        ("tasks", jarr (map (fun task => jobj [("id", jstr (task_id task));
           ("status", jstr (TaskStatus_str (task_status task)));
           ("title", jstr (task_title task))]) tasks))].

(** Source: packages/runtime/src/coordinator.ts:938-1001 [createMilestoneCheckpoint]. *)
Definition createMilestoneCheckpoint (lease : FencedLease) (runId workspaceUri : string)
  (acting : Agent) (completedTaskCall : ToolCall) : IO W unit :=
  if negb (startsWith workspaceUri "file:") then mret tt
  else
    match fileURLToPath workspaceUri with
    | None => mret tt
    | Some workspacePath =>
        let reason := match json_field (call_input completedTaskCall) "summary" with
                      | Some (jstr summary) => if is_blank summary then "Task completed." else summary
                      | _ => "Task completed."
                      end in
        let git := git_of workspacePath in
        io_catch
          (isRepository ← mg_isRepository git;
           if negb isRepository then mret tt
           else
             listed ← on_store (listCheckpoints runId);
             ref ← mg_captureCheckpoint git reason runId (Z.of_nat (length listed) + 1);
             _ ← on_store (
               agents ← listAgents runId;
               records ← listRequirements runId;
               tasks ← listTasks runId any_task;
               createCheckpoint "task_completed" lease (milestone_manifest agents records tasks) reason
                 runId (Some ref));
             mret tt)
          (journal_failure lease acting "checkpoint_failed")
    end.

(** *** The turn *)

(** The usage of a turn as the store is charged with it. *)
Definition usage_delta (usage : TurnUsage) : BudgetDelta :=
  {| d_inputTokens := tu_inputTokens usage; d_outputTokens := tu_outputTokens usage;
     d_cachedTokens := tu_cachedTokens usage; d_costUsd := tu_costUsd usage; d_wallTimeMs := None;
     d_toolCalls := None; d_childAgents := None |}.

(** What a turn that answered writes down before it is judged.
    Source: packages/runtime/src/coordinator.ts:219-261 [execute, record]. *)
Definition record_turn (runId : string) (lease : FencedLease) (acting : Agent) (epochId : string)
  (result : AgentTurnResult) : M unit :=
  let usage := atr_usage result in
  _ ← recordUsageFenced lease (usage_delta usage) (Some (Some (agentId_of acting), epochId));
  _ ← recordCost (Some (agentId_of acting)) (tu_cachedTokens usage) (tu_costUsd usage)
        (tu_inputTokens usage) (tu_outputTokens usage) (Some lease) runId (Some epochId) (Some epochId);
  _ ← iterate (fun event =>
        match event with
        | assistant_text text =>
            _ ← appendFencedEvent lease
                  (jobj [("agentId", jstr (agentId_of acting)); ("sessionEpochId", jstr epochId);
                         ("text", jstr text)]) evt_agent_message;
            mret tt
        | _ => mret tt
        end) (atr_events result);
  _ ← endSessionEpoch epochId (Some lease) er_completed;
  _ ← settleActingAgent acting lease;
  reactToStagnation runId lease acting.

(** What the other tasks of the process do while this one is suspended. *)
Definition let_others_run : IO W unit := fun w => (others w, Ok tt).

(** The completion gate over the durable ledger.  While it is awaited, with the
    verifier it may ask, the other tasks of the process go on.
    Source: packages/runtime/src/coordinator.ts:286-293 [execute, decision]. *)
Definition completion_decision (runId : string) : IO W CompletionDecision :=
  decision ← on_store (
    records ← listRequirements runId;
    validations ← listValidations runId;
    lift (evaluate_completion (rco_verifier options) (map ledger_requirement records)
            (map gate_validation validations)));
  _ ← let_others_run;
  mret decision.

(** The proposal a decision leads to.
    Source: packages/runtime/src/coordinator.ts:294-312 [execute, proposal]. *)
Definition propose_decision (runId : string) (lease : FencedLease) (decision : CompletionDecision)
  : M bool :=
  let verified := match cd_verifier decision with
                  | Some verdict => complete verdict
                  | None => false
                  end in
  _ ← (if accepted decision && verified
       then _ ← recordValidation (Some true) (Some lease) "completion-ledger-audit" true runId
              "A separate deterministic verifier re-audited the durable requirement ledger and validation records."
              None; mret tt
       else mret tt);
  _ ← proposeCompletion (accepted decision) (Some verified) (Some lease) (reasons decision) runId;
  mret (negb (accepted decision)).

(** Source: packages/runtime/src/coordinator.ts:286-312 [execute, completion]. *)
Definition propose_completion (runId : string) (lease : FencedLease) : IO W bool :=
  decision ← completion_decision runId;
  on_store (propose_decision runId lease decision).

Definition succeeded_call (name : string) (execution : ToolExecutionEvent) : bool :=
  te_succeeded execution && (call_name (te_call execution) === name).

(** [sourceTools.get(name)?.completesRun === true] *)
Definition completes_run (sourceTools : ToolRegistry W) (name : string) : bool :=
  match get_tool sourceTools name with
  | Some tool => rt_completesRun tool === Some true
  | None => false
  end.

(** What follows the answer of a turn.
    Source: packages/runtime/src/coordinator.ts:216-312 [execute, settle]. *)
Definition settle_turn (lease : FencedLease) (run : Run) (acting : Agent)
  (workspaceUri epochId : string) (sourceTools : ToolRegistry W) (result : AgentTurnResult)
  : IO W bool := fun w =>
  if is_aborted w then on_store (handleAbort lease epochId) w
  else (
    _ ← on_store (record_turn (run_id run) lease acting epochId result);
    _ ← (if rco_checkpointOnTaskCompletion options === Some true
         then match find (succeeded_call "complete_task") (atr_toolExecutions result) with
              | Some execution =>
                  createMilestoneCheckpoint lease (run_id run) workspaceUri acting (te_call execution)
              | None => mret tt
              end
         else mret tt);
    let requestedCompletion := existsb (fun execution =>
      te_succeeded execution && completes_run sourceTools (call_name (te_call execution)))
      (atr_toolExecutions result) in
    if negb requestedCompletion then mret true
    else propose_completion (run_id run) lease) w.

(** The [try] block of the turn.
    Source: packages/runtime/src/coordinator.ts:186-216 [execute, try]. *)
Definition turn_body (action : ScheduledAction) (lease : FencedLease) (run : Run)
  (mission : MissionRow) (acting : Agent) (workspaceUri epochId : string) (inbox : list MessageRow)
  (activeTask : option Task) (sourceTools durableTools : ToolRegistry W) : IO W bool :=
  context ← rco_compile options
    {| cr_activeTask := activeTask; cr_agent := acting; cr_inbox := inbox;
       cr_mission := {| ms_id := ms_id mission; ms_title := ms_title mission;
         ms_prompt := ms_prompt mission; ms_workspace_uri := workspaceUri;
         ms_metadata := ms_metadata mission; ms_created_at := ms_created_at mission;
         ms_updated_at := ms_updated_at mission |};
       cr_run := run |};
  _ ← (if negb (bool_decide (cc_omitted context = []))
       then _ ← on_store (appendFencedEvent lease
                  (jobj [("agentId", jstr (agentId_of acting)); ("omitted", jstrs (cc_omitted context));
                         ("usedTokens", jnum (ofZ (cc_usedTokens context)))]) evt_context_compacted);
            mret tt
       else mret tt);
  result ← run_turn exn_message localeCompare_le aborted (rco_provider options) durableTools fuel
    {| ati_maxToolCalls := rco_maxToolCalls options; ati_messages := cc_messages context;
       ati_model := rco_model options |};
  settle_turn lease run acting workspaceUri epochId sourceTools result.

(** Its [catch] block.
    Source: packages/runtime/src/coordinator.ts:313-325 [execute, catch]. *)
Definition turn_failed (action : ScheduledAction) (lease : FencedLease) (epochId : string)
  (error : fault) : IO W bool := fun w =>
  if is_aborted w then on_store (handleAbort lease epochId) w
  else
    match error with
    | ToolApprovalRequired approvalId =>
        on_store (handleApprovalWait action approvalId epochId lease) w
    | _ => handleFailure action lease epochId (classifyProviderFailure exn_message error) w
    end.

(** The turn, once its session has begun.
    Source: packages/runtime/src/coordinator.ts:185-325 [execute, session]. *)
Definition started_turn (action : ScheduledAction) (lease : FencedLease) (run : Run)
  (mission : MissionRow) (acting : Agent) (workspaceUri epochId : string) (inbox : list MessageRow)
  (activeTask : option Task) (sourceTools durableTools : ToolRegistry W) : IO W bool :=
  io_catch
    (turn_body action lease run mission acting workspaceUri epochId inbox activeTask sourceTools
       durableTools)
    (turn_failed action lease epochId).

(** What the turn needs before it starts: the run and its mission, the acting
    agent with its workspace, messages and task, and the new session epoch.
    Source: packages/runtime/src/coordinator.ts:144-167 [execute, prepare]. *)
Definition prepare_agent (run : Run) (coordinator : Agent) (mission : MissionRow) (lease : FencedLease)
  : IO W (Agent * string * list MessageRow * option Task * string) :=
  _ ← on_store (recoverGraphWork lease);
  acting ← on_store (selectActingAgent (run_id run) coordinator lease);
  workspaceUri ← ensureAgentWorktree acting mission lease;
  on_store (
    inbox ← receiveAgentMessages (agentId_of acting) lease None;
    activeTask ← claimTaskFor acting lease;
    epoch ← startSessionEpoch (agentId_of acting) (Some lease) (rco_model options)
              (provider_id (rco_provider options));
    _ ← appendFencedEvent lease
          (jobj [("agentId", jstr (agentId_of acting)); ("sessionEpochId", jstr (se_id epoch))])
          evt_agent_turn_started;
    mret (acting, workspaceUri, inbox, activeTask, se_id epoch)).

(** Source: packages/runtime/src/coordinator.ts:170-183 [execute, tools]. *)
Definition turn_tools (acting : Agent) (workspaceUri missionWorkspaceUri : string) (lease : FencedLease)
  (runId : string) (sourceTools : ToolRegistry W) : result fault (ToolRegistry W) :=
  missionTools ← createMissionTools acting lease runId;
  merged ← mergeRegistries localeCompare_le [sourceTools; missionTools];
  createDurableTools localeCompare_le sha256 exn_message
    (sandboxForTurn acting workspaceUri missionWorkspaceUri) lease merged workspaceUri.

(** Source: packages/runtime/src/coordinator.ts:124-326 [execute]. *)
Definition coordinator_execute (action : ScheduledAction) (lease : FencedLease) : IO W bool := fun w =>
  if is_aborted w then (w, Ok true)
  else (
    run ← on_store (getRun (act_runId action));
    match run with
    | None => mret false
    | Some run =>
        if run_currentGoalId run === None then mret false
        else
          agents ← on_store (listAgents (run_id run));
          match find (fun agent => agent_role agent === role_coordinator) agents with
          | None => io_throw (Thrown (Error ("Run '" +:+ run_id run +:+ "' has no coordinator Agent.")))
          | Some coordinator =>
              mission ← on_store (getMission (run_missionId run));
              match mission with
              | None => io_throw (Thrown (Error ("Run '" +:+ run_id run +:+ "' has no Mission.")))
              | Some mission =>
                  '(acting, workspaceUri, inbox, activeTask, epochId) ←
                    prepare_agent run coordinator mission lease;
                  sourceTools ← resolveTools workspaceUri (run_id run);
                  durableTools ← io_lift (turn_tools acting workspaceUri (ms_workspace_uri mission) lease
                                            (run_id run) sourceTools);
                  started_turn action lease run mission acting workspaceUri epochId inbox activeTask
                    sourceTools durableTools
              end
          end
    end) w.

(** ** The store behind a turn *)

(** What is plugged into the coordinator changes the store by commands alone. *)
Record outside_commands : Prop := {
  oc_compile : forall request, world_commands (rco_compile options request);
  oc_provider : forall request, world_commands (provider_complete (rco_provider options) request);
  oc_tools : forall workspaceUri runId, world_commands (resolveTools workspaceUri runId) /\
    forall w w' registry tool input, resolveTools workspaceUri runId w = (w', Ok registry) ->
      tool ∈ jm_values registry -> world_commands (rt_execute tool input);
  oc_worktrees : forall provision a r p, rco_worktrees options = Some provision ->
    world_commands (provision a r p);
  oc_git : forall path, world_commands (mg_isRepository (git_of path)) /\
    forall m r n, world_commands (mg_captureCheckpoint (git_of path) m r n);
  oc_random : forall w, rtc store_step w.1 (math_random w).1.1;
  oc_others : forall w, rtc store_step w.1 (others w).1 }.

Lemma commands_store_or {A} (otherwise : A) m : commands m -> commands (store_or otherwise m).
Proof. intros Hm s. unfold store_or. specialize (Hm s). by destruct (m s) as [s1 [a|e]]. Qed.

Ltac turn_commands :=
  repeat first
    [ apply commands_store_or
    | progress unfold nextReadyTask, consecutiveProviderFailures, progressAttempts, give_up_task
    | commands_step ].

Lemma selectActingAgent_commands r c l : commands (selectActingAgent r c l).
Proof. unfold selectActingAgent. turn_commands. Qed.

Lemma claimTaskFor_commands a l : commands (claimTaskFor a l).
Proof. unfold claimTaskFor. turn_commands. Qed.

Lemma settleActingAgent_commands a l : commands (settleActingAgent a l).
Proof. unfold settleActingAgent. turn_commands. Qed.

Lemma reactToStagnation_commands r l a : commands (reactToStagnation r l a).
Proof. unfold reactToStagnation, replace_agent. turn_commands. Qed.

Lemma record_turn_commands r l a e t : commands (record_turn r l a e t).
Proof.
  unfold record_turn.
  repeat first [ apply settleActingAgent_commands | apply reactToStagnation_commands
               | commands_step ].
Qed.

Lemma propose_decision_commands r l d : commands (propose_decision r l d).
Proof. unfold propose_decision. turn_commands. Qed.

Section Turn.
Context (Houtside : outside_commands).

Lemma failure_commands l a k e : world_commands (journal_failure l a k e).
Proof. unfold journal_failure. wc_tac fail. Qed.

Lemma propose_completion_commands r l : world_commands (propose_completion r l).
Proof.
  unfold propose_completion, completion_decision.
  wc_tac ltac:(first
    [ intros w; exact (oc_others Houtside w)
    | lazymatch goal with
      | |- commands (propose_decision _ _ _) => apply propose_decision_commands
      end ]).
Qed.

Lemma random_commands : world_commands (fun w => let '(w, random) := math_random w in (w, Ok random)).
Proof. intros w. pose proof (oc_random Houtside w). by destruct (math_random w). Qed.

Lemma handleFailure_commands a l e f : world_commands (handleFailure a l e f).
Proof.
  unfold handleFailure, schedule_retry.
  wc_tac ltac:(first
    [ apply random_commands
    | progress unfold snapshot_overflow, consecutiveProviderFailures, park_run
    | lazymatch goal with
      | |- world_commands (fun w => on_store (scheduleWake ?l ?r (date_after (date_now w) ?d)) w) =>
          intros w; apply (wc_on_store (scheduleWake l r (date_after (date_now w) d))); command_of
      end ]).
Qed.

Lemma turn_failed_commands a l e f : world_commands (turn_failed a l e f).
Proof.
  assert (world_commands (on_store (handleAbort l e) : IO W bool)) as Habort
    by (unfold handleAbort; wc_tac fail).
  assert (forall id, world_commands (on_store (handleApprovalWait a id e l) : IO W bool)) as Hwait
    by (intros id; unfold handleApprovalWait; wc_tac fail).
  intros w. unfold turn_failed. destruct (is_aborted w); [apply Habort|].
  destruct f; try apply handleFailure_commands. apply Hwait.
Qed.

Lemma ensureAgentWorktree_commands a m l : world_commands (ensureAgentWorktree a m l).
Proof.
  unfold ensureAgentWorktree. destruct (rco_worktrees options) as [provision|] eqn:Hp; [|apply wc_ret].
  wc_tac ltac:(first [ apply failure_commands | by eapply (oc_worktrees Houtside) ]).
Qed.

Lemma createMilestoneCheckpoint_commands l r u a c :
  world_commands (createMilestoneCheckpoint l r u a c).
Proof.
  unfold createMilestoneCheckpoint.
  wc_tac ltac:(first [ apply failure_commands | apply (oc_git Houtside) ]).
Qed.

Lemma settle_turn_commands l r a u e t res : world_commands (settle_turn l r a u e t res).
Proof.
  assert (world_commands (on_store (handleAbort l e) : IO W bool)) as Habort
    by (unfold handleAbort; wc_tac fail).
  intros w. unfold settle_turn. destruct (is_aborted w); [apply Habort|]. revert w.
  match goal with |- forall w, rtc store_step w.1 (?m w).1.1 => change (world_commands m) end.
  wc_tac ltac:(first
    [ apply createMilestoneCheckpoint_commands
    | apply propose_completion_commands
    | lazymatch goal with
      | |- commands (record_turn _ _ _ _ _) => apply record_turn_commands
      end ]).
Qed.

(** A tool of a registry that was built is one of those it was built from. *)
Lemma register_tool_in (tool : RuntimeTool W) registry registry' t : register_tool tool registry = Ok registry' ->
  t ∈ jm_values registry' -> t ∈ jm_values registry \/ t = tool.
Proof.
  unfold register_tool. destruct (jm_has registry (rt_name tool)) eqn:Hh; [done|]. intros [= <-].
  rewrite jm_set_fresh by done. unfold jm_values. rewrite fmap_app.
  intros [?|Hin]%elem_of_app; [by left|right]. by apply list_elem_of_singleton in Hin.
Qed.

Lemma foldl_registry_in (step : ToolRegistry W -> RuntimeTool W -> result fault (ToolRegistry W))
    definitions : forall registry registry' t,
  (forall r tool r', step r tool = Ok r' -> forall t, t ∈ jm_values r' -> t ∈ jm_values r \/ t = tool) ->
  foldl (fun merged definition => merged ← merged; step merged definition) (Ok registry) definitions
    = Ok registry' ->
  t ∈ jm_values registry' -> t ∈ jm_values registry \/ t ∈ definitions.
Proof.
  induction definitions as [|tool definitions IH]; intros registry registry' t Hstep E Ht.
  { injection E as <-. by left. }
  cbn [foldl mbind result_bind] in E.
  destruct (step registry tool) as [registry1|e] eqn:E1.
  2: { exfalso. clear IH. induction definitions as [|? ? IHd]; [done|]. by apply IHd. }
  destruct (IH registry1 registry' t Hstep E Ht) as [Hin|Hin].
  - destruct (Hstep _ _ _ E1 t Hin) as [?| ->]; [by left|right; apply list_elem_of_here].
  - right. by apply list_elem_of_further.
Qed.

Lemma register_all_in definitions (registry : ToolRegistry W) t : register_all definitions = Ok registry ->
  t ∈ jm_values registry -> t ∈ definitions.
Proof.
  intros E Ht. destruct (foldl_registry_in (fun r d => register_tool d r) definitions [] registry t)
    as [Hin|?]; [|exact E|done|by apply not_elem_of_nil in Hin|done].
  intros r tool r' Er x. by apply register_tool_in.
Qed.

Lemma merge_in registries (registry : ToolRegistry W) t : mergeRegistries localeCompare_le registries = Ok registry ->
  t ∈ jm_values registry -> exists r, r ∈ registries /\ t ∈ jm_values r.
Proof.
  intros E Ht. unfold mergeRegistries in E.
  destruct (foldl_registry_in (fun merged definition =>
      match get_tool merged (rt_name definition) with
      | None => register_tool definition merged
      | Some _ => Ok merged
      end) (flat_map (list_tools localeCompare_le) registries) [] registry t) as [Hin|Hin];
    [|exact E|done|by apply not_elem_of_nil in Hin|].
  - intros r tool r' Er x. destruct (get_tool r (rt_name tool)); [injection Er as <-; by left|].
    by apply register_tool_in.
  - apply list_elem_of_In, in_flat_map in Hin as (r & Hr & Hin). exists r.
    apply list_elem_of_In in Hr, Hin. split; [done|]. unfold list_tools in Hin.
    by rewrite sort_by_elem in Hin.
Qed.

Lemma get_tool_in (registry : ToolRegistry W) name t : get_tool registry name = Some t ->
  t ∈ jm_values registry.
Proof.
  intros Hg. apply jm_get_Some_elem in Hg. unfold jm_values. apply list_elem_of_fmap. by exists (name, t).
Qed.

(** Every tool of the turn acts on the store by commands. *)
Lemma turn_tools_commands acting workspaceUri shared lease runId sourceTools durableTools t input :
  turn_tools acting workspaceUri shared lease runId sourceTools = Ok durableTools ->
  (forall tool input, tool ∈ jm_values sourceTools -> world_commands (rt_execute tool input)) ->
  t ∈ jm_values durableTools -> world_commands (rt_execute t input).
Proof.
  intros E Hsource Ht. unfold turn_tools in E. rewrite createMissionTools_ok in E.
  cbn [mbind result_bind] in E.
  destruct (mergeRegistries _ _) as [merged|e] eqn:Em; [|done]. cbn [mbind result_bind] in E.
  apply (register_all_in _ _ t) in E; [|done].
  apply list_elem_of_fmap in E as (original & -> & Hin). cbn [durable_tool rt_execute].
  apply durable_commands. unfold list_tools in Hin. rewrite sort_by_elem in Hin.
  destruct (merge_in _ _ _ Em Hin) as (r & Hr & Ho).
  apply elem_of_cons in Hr as [->|Hr]; [by apply Hsource|].
  apply list_elem_of_singleton in Hr as ->. unfold jm_values in Ho.
  apply list_elem_of_fmap in Ho as ([k x] & -> & Ho).
  apply list_elem_of_fmap in Ho as (y & [= -> ->] & Ho). by eapply mission_tool_commands.
Qed.

(** *** The engine's loop *)

Section Loop.
Context (tools : ToolRegistry W).
Context (Htools : forall name tool input, get_tool tools name = Some tool ->
  world_commands (rt_execute tool input)).

Lemma throwIfAborted_commands : world_commands (throwIfAborted aborted).
Proof. apply wc_same. intros w. unfold throwIfAborted. by destruct (aborted w). Qed.

Lemma run_calls_commands limit calls : forall st,
  world_commands (run_calls exn_message aborted tools limit calls st).
Proof.
  induction calls as [|call calls IH]; intros st; cbn [run_calls]; [apply wc_ret|].
  apply wc_bind; [|done]. unfold run_call.
  apply wc_bind; [apply throwIfAborted_commands|intros _]. cbv zeta.
  destruct (js_lt _ _); [apply wc_throw|].
  destruct (get_tool tools (call_name call)) as [tool|] eqn:Hg; [|apply wc_ret].
  unfold run_tool. cbv zeta. apply wc_catch.
  - apply wc_bind; [by eapply Htools|intros result].
    apply wc_bind; [apply throwIfAborted_commands|intros _; apply wc_ret].
  - intros e. apply wc_same. intros w. by destruct e, (aborted w).
Qed.

Lemma run_turn_commands input :
  world_commands (run_turn exn_message localeCompare_le aborted (rco_provider options) tools fuel input).
Proof.
  unfold run_turn. generalize (turn_start input) as st. generalize fuel as n.
  induction n as [|n IH]; intros st; cbn [run_loop]; [apply wc_throw|].
  apply wc_bind; [apply throwIfAborted_commands|intros _].
  apply wc_bind; [apply (oc_provider Houtside)|intros response].
  apply wc_bind; [apply throwIfAborted_commands|intros _]. cbv zeta.
  destruct (rsp_toolCalls response ?? []) as [|call calls]; [apply wc_ret|].
  apply wc_bind; [apply run_calls_commands|done].
Qed.
End Loop.

Lemma turn_body_commands a l r m g u e i t sourceTools durableTools :
  (forall tool input, tool ∈ jm_values durableTools -> world_commands (rt_execute tool input)) ->
  world_commands (turn_body a l r m g u e i t sourceTools durableTools).
Proof.
  intros Htools. unfold turn_body.
  wc_tac ltac:(first
    [ apply (oc_compile Houtside)
    | apply run_turn_commands; intros ? ? ? Hg; by apply Htools, (get_tool_in _ _ _ Hg)
    | apply settle_turn_commands ]).
Qed.

Lemma prepare_agent_commands r c m l : world_commands (prepare_agent r c m l).
Proof.
  unfold prepare_agent.
  wc_tac ltac:(first
    [ apply ensureAgentWorktree_commands
    | lazymatch goal with
      | |- commands (selectActingAgent _ _ _) => apply selectActingAgent_commands
      | |- commands (claimTaskFor _ _) => apply claimTaskFor_commands
      end ]).
Qed.

(** C12: A turn of a run is made of store commands.  If what is plugged into the
    coordinator (the model provider, the workspace's tools, the context compiler,
    the worktree provisioner, Git, the random numbers and the tasks that run while
    the completion gate is awaited) changes the store by commands alone, then a turn leaves a store that is reached from the one it
    found by commands, however it ends; so everything shown of stores reached by
    commands holds after every turn. *)
Theorem turn_refines_store action lease w :
  rtc store_step w.1 (coordinator_execute action lease w).1.1.
Proof.
  unfold coordinator_execute. destruct (is_aborted w); [done|]. revert w.
  match goal with |- forall w, rtc store_step w.1 (?m w).1.1 => change (world_commands m) end.
  apply wc_bind; [wc_tac fail|intros [run|]; [|apply wc_ret]].
  destruct (run_currentGoalId run === None); [apply wc_ret|].
  apply wc_bind; [wc_tac fail|intros agents].
  destruct (find _ agents) as [coordinator|]; [|apply wc_throw].
  apply wc_bind; [wc_tac fail|intros [mission|]; [|apply wc_throw]].
  apply wc_bind; [apply prepare_agent_commands|].
  intros [[[[acting workspaceUri] inbox] activeTask] epochId].
  destruct (oc_tools Houtside workspaceUri (run_id run)) as [Hresolve Hsource].
  intros w. unfold mbind at 1, IO_bind at 1. specialize (Hresolve w). specialize (Hsource w).
  destruct (resolveTools workspaceUri (run_id run) w) as [w1 [sourceTools|e]]; [|done].
  etrans; [exact Hresolve|]. unfold mbind at 1, IO_bind at 1, io_lift.
  destruct (turn_tools _ _ _ _ _ _) as [durableTools|e] eqn:Ht; [|done].
  match goal with |- rtc store_step _ (?m w1).1.1 => assert (world_commands m) as Hm; [|apply Hm] end.
  unfold started_turn. apply wc_catch; [|intros e; apply turn_failed_commands].
  apply turn_body_commands. intros tool input Hin.
  eapply turn_tools_commands; [exact Ht| |exact Hin].
  intros tool' input' Hin'. by apply (Hsource w1 sourceTools).
Qed.

(** *** Sessions end *)

(** The session epoch is there, and has ended. *)
Definition session_ended (id : string) (d : Db) : Prop :=
  (exists e, e ∈ session_epochs d /\ se_id e = id) /\
  forall e, e ∈ session_epochs d -> se_id e = id -> se_ended_at e <> None.

Lemma ended_update id (c : SessionEpochRow -> bool) f d :
  (forall e, se_id (f e) = se_id e) -> (forall e, se_ended_at e <> None -> se_ended_at (f e) <> None) ->
  session_ended id d ->
  session_ended id (set_session_epochs (map (fun e => if c e then f e else e) (session_epochs d)) d).
Proof.
  intros Hid He [(e & Hin & Hi) Hall]. cbn [session_epochs set_session_epochs]. split.
  - exists (if c e then f e else e). split; [by apply (list_elem_of_fmap_2 (fun e => if c e then f e else e))|].
    destruct (c e); [by rewrite Hid|done].
  - intros x (y & -> & Hy)%list_elem_of_fmap. destruct (c y); [|by apply Hall].
    rewrite Hid. intros Hx. by apply He, Hall.
Qed.

Lemma ended_insert id row d : existsb (fun b => (se_id row === se_id b) ||
    (se_agent_id row === se_agent_id b) && (se_ordinal row =? se_ordinal b)) (session_epochs d) = false ->
  session_ended id d -> session_ended id (set_session_epochs (session_epochs d ++ [row]) d).
Proof.
  intros Hfree [(e & Hin & Hi) Hall]. cbn [session_epochs set_session_epochs].
  rewrite existsb_false in Hfree. pose proof (Hfree e Hin) as He. apply orb_false_iff in He as [He _].
  bool_hyps. split.
  - exists e. split; [|done]. apply elem_of_app. by left.
  - intros x [Hx| ->%list_elem_of_singleton]%elem_of_app Hid; [by apply Hall|congruence].
Qed.

Lemma ended_command id c : preserves (session_ended id) (run_command c).
Proof.
  destruct c; frame_command ltac:(first
    [ frame_read
    | lazymatch goal with
      | |- preserves _ (update_rows session_epochs _ _ _) =>
          apply preserves_update; intros ? ?; apply ended_update; [done|by intros|assumption]
      | |- preserves _ (insert_row session_epochs _ _ _ _ _) =>
          apply preserves_insert; intros ? ? ? _; apply ended_insert; assumption
      end ]).
Qed.

Lemma ended_steps id s s' : rtc store_step s s' -> session_ended id (db s) -> session_ended id (db s').
Proof. apply steps_preserve. intros c _. apply ended_command. Qed.

Lemma endSessionEpoch_ended id lease reason s s' row :
  endSessionEpoch id (Some lease) reason s = (s', Ok row) -> session_ended id (db s').
Proof.
  intros E. unfold endSessionEpoch in E.
  apply mbind_ok in E as (s1 & now & [= <- <-] & E). rewrite transaction_ok in E.
  apply mbind_ok in E as (s2 & [] & _ & E).
  apply mbind_ok in E as (s3 & [] & Hu & E). injection Hu as <-.
  apply mbind_ok in E as (s4 & found & [= <- <-] & E).
  destruct (find _ _) as [e|] eqn:Hf; [|done]. injection E as <- _.
  apply find_some in Hf as [Hin Hid]. rewrite <- list_elem_of_In in Hin. bool_hyps.
  split; [by exists e|]. intros x Hx Hxid. cbn [db set_db session_epochs set_session_epochs] in Hx.
  apply list_elem_of_fmap in Hx as (y & -> & Hy).
  destruct ((se_id y === id) && (se_ended_at y === None)) eqn:Ey; [done|].
  apply andb_false_iff in Ey as [Ey|Ey]; bool_hyps; congruence.
Qed.

(** What ends the session and then goes on by commands leaves it ended. *)
Lemma end_then_ok {A} id lease reason (f : SessionEpochRow -> M A) s s' a :
  (forall row, commands (f row)) ->
  (endSessionEpoch id (Some lease) reason ≫= f) s = (s', Ok a) -> session_ended id (db s').
Proof.
  intros Hf (s1 & row & He & E)%mbind_ok. apply endSessionEpoch_ended in He.
  eapply ended_steps; [|exact He]. specialize (Hf row s1). by rewrite E in Hf.
Qed.

Lemma wc_ended {A} id (m : IO W A) (w w' : W) r : world_commands m -> m w = (w', r) ->
  session_ended id (db w.1) -> session_ended id (db w'.1).
Proof. intros Hm E. apply ended_steps. specialize (Hm w). by rewrite E in Hm. Qed.

Lemma handleAbort_ended lease id (w w' : W) b : on_store (handleAbort lease id) w = (w', Ok b) ->
  session_ended id (db w'.1).
Proof.
  intros (s & E & ->)%on_store_ok. eapply end_then_ok; [|exact E]. intros row. apply commands_ret.
Qed.

Lemma record_turn_ended runId lease acting id result s s' :
  record_turn runId lease acting id result s = (s', Ok tt) -> session_ended id (db s').
Proof.
  intros E. unfold record_turn in E. cbv zeta in E.
  apply mbind_ok in E as (s1 & u & _ & E). apply mbind_ok in E as (s2 & c & _ & E).
  apply mbind_ok in E as (s3 & [] & _ & E). eapply end_then_ok; [|exact E]. intros row.
  apply commands_bind; [apply settleActingAgent_commands|intros _; apply reactToStagnation_commands].
Qed.

Lemma settle_turn_ended lease run acting u id t result (w w' : W) b :
  settle_turn lease run acting u id t result w = (w', Ok b) -> session_ended id (db w'.1).
Proof.
  unfold settle_turn. destruct (is_aborted w); [by apply handleAbort_ended|].
  intros (w1 & [] & (s & Hr & ->)%on_store_ok & E)%io_bind_ok. apply record_turn_ended in Hr.
  match type of E with ?m _ = _ => refine (wc_ended id m _ _ _ _ E Hr) end.
  wc_tac ltac:(first
    [ apply createMilestoneCheckpoint_commands | apply propose_completion_commands ]).
Qed.

Lemma handleFailure_ended action lease id failure (w w' : W) b :
  handleFailure action lease id failure w = (w', Ok b) -> session_ended id (db w'.1).
Proof.
  intros E. unfold handleFailure in E.
  apply io_bind_ok in E as (w1 & [] & _ & E).
  apply io_bind_ok in E as (w2 & row & (s & He & ->)%on_store_ok & E).
  apply endSessionEpoch_ended in He.
  match type of E with ?m _ = _ => refine (wc_ended id m _ _ _ _ E He) end.
  unfold schedule_retry.
  wc_tac ltac:(first
    [ apply random_commands
    | progress unfold consecutiveProviderFailures, park_run
    | lazymatch goal with
      | |- world_commands (fun w => on_store (scheduleWake ?l ?r (date_after (date_now w) ?d)) w) =>
          intros w3; apply (wc_on_store (scheduleWake l r (date_after (date_now w3) d))); command_of
      end ]).
Qed.

Lemma handleApprovalWait_ended action approvalId lease id (w w' : W) b :
  on_store (handleApprovalWait action approvalId id lease) w = (w', Ok b) ->
  session_ended id (db w'.1).
Proof.
  intros (s & E & ->)%on_store_ok. eapply end_then_ok; [|exact E]. intros row. cbv beta. commands_tac.
Qed.

(** C15: A turn never leaves its session open.  Once a session epoch has begun,
    whatever the provider, the tools and the other parts that are plugged in do, as
    long as they change the store by its commands alone, a turn that comes back with a decision
    about the continuation has ended the epoch: after an answer, an abort, a wait
    for an approval, or a failure of the provider or of anything else, and also
    when what it did after ending it (settling the agent, the checkpoint, the
    completion) came later.  Only a turn that throws can leave it open. *)
Theorem turn_ends_its_session action lease run mission acting workspaceUri epochId inbox activeTask
    sourceTools durableTools (w w' : W) requeue :
  started_turn action lease run mission acting workspaceUri epochId inbox activeTask sourceTools
    durableTools w = (w', Ok requeue) ->
  session_ended epochId (db w'.1).
Proof.
  unfold started_turn, io_catch. destruct (turn_body _ _ _ _ _ _ _ _ _ _ _ w) as [w1 [b|e]] eqn:E.
  - intros [= <- <-]. unfold turn_body in E.
    apply io_bind_ok in E as (w2 & context & _ & E). apply io_bind_ok in E as (w3 & [] & _ & E).
    apply io_bind_ok in E as (w4 & result & _ & E). by eapply settle_turn_ended.
  - unfold turn_failed. destruct (is_aborted w1); [by apply handleAbort_ended|].
    destruct e; try by apply handleFailure_ended. by apply handleApprovalWait_ended.
Qed.
End Turn.

(** *** Turns that are accepted *)

(** A recorded validation is one more row of its table. *)
Lemma recordValidation_adds lease name runId summary s s' id :
  recordValidation (Some true) lease name true runId summary None s = (s', Ok id) ->
  requirements (db s') = requirements (db s) /\ evidence (db s') = evidence (db s) /\
  (forall st, has_status runId st (db s) -> has_status runId st (db s')) /\
  exists row, validations (db s') = validations (db s) ++ [row] /\ vd_run_id row = runId /\
    vd_status row = vs_passed /\ vd_independent row = true.
Proof.
  intros E. split; [|split; [|split]].
  1,2: lazymatch goal with |- ?f _ = _ =>
         eapply (preserves_ok (fun d => f d = f (db s))); [|done|exact E]; clear E;
         unfold recordValidation; frame ltac:(first [frame_read | frame_unfold])
       end.
  { intros st Hst. eapply preserves_ok; [|exact Hst|exact E]. clear E Hst.
    unfold recordValidation. frame ltac:(first
      [ frame_read
      | lazymatch goal with
        | |- preserves _ (appendEventInternal _ _ _ _ _) => by apply run_field_append
        end ]). }
  unfold recordValidation in E.
  apply mbind_ok in E as (s1 & now & [= <- <-] & E).
  apply mbind_ok in E as (s2 & uuid & [= <- <-] & E).
  apply mbind_ok in E as (s3 & [] & E & [= <- _]). rewrite transaction_ok in E.
  apply mbind_ok in E as (s4 & [] & Hl & E).
  apply reads_ok in Hl; [|intros ?; apply preserves_check_lease]. cbn [db] in Hl.
  apply mbind_ok in E as (s5 & [] & Hi & E).
  apply mbind_ok in E as (s6 & [] & [= <-] & E).
  unfold insert_row in Hi. destruct (_ || _); [done|].
  set (row := {| vd_id := _ |}) in Hi. injection Hi as <-.
  exists row. split; [|done]. rewrite <- Hl.
  refine (preserves_ok (fun d => validations d = validations (db s4) ++ [row]) _ _ _ _ _ _ E); [|done].
  frame ltac:(first [frame_read | frame_unfold]).
Qed.

Lemma requirement_records_eq runId d d' :
  requirements d' = requirements d -> evidence d' = evidence d ->
  requirement_records runId d' = requirement_records runId d.
Proof. unfold requirement_records. by intros -> ->. Qed.

(** What the gate over the ledger asks is what the store asks of its tables. *)
Lemma all_proven_records runId d :
  all_proven (map ledger_requirement (requirement_records runId d)) ->
  forall r, r ∈ requirement_records runId d -> unproven_requirement r = false.
Proof.
  intros Hall r Hr. destruct (counts (ledger_requirement r)) eqn:Hc.
  - destruct (Hall (ledger_requirement r)) as (Hs & e & He & Hstrong);
      [by apply (list_elem_of_fmap_2 ledger_requirement)|done|].
    unfold unproven_requirement, has_strong. rewrite !andb_false_iff, orb_false_iff. right.
    cbn [ledger_requirement lr_status lr_evidence] in Hs, He.
    apply list_elem_of_fmap in He as (row & -> & Hrow). cbn in Hstrong.
    split; [by destruct (rq_status (req_row r))|].
    rewrite negb_false_iff, existsb_elem. exists row. split; [done|].
    by destruct (ed_strength row).
  - unfold counts in Hc. cbn [ledger_requirement lr_required lr_status] in Hc.
    unfold unproven_requirement. apply andb_false_iff. left.
    by destruct (rq_required (req_row r)), (rq_status (req_row r)).
Qed.

Lemma all_passed_validations runId d :
  all_passed (map gate_validation (run_validations runId d)) ->
  forall v, v ∈ validations d -> vd_run_id v = runId -> vd_status v = vs_passed.
Proof.
  intros Hall v Hv Hr.
  assert (dv_passed (gate_validation v) = true) as Hp.
  { apply Hall, (list_elem_of_fmap_2 gate_validation). by apply run_validations_elem. }
  cbn in Hp. by bool_hyps.
Qed.

(** The gate's decision stands: the store does not overrule it. *)
Lemma accepted_passes_gate (verifier : option V) runId d decision :
  evaluate_completion verifier (map ledger_requirement (requirement_records runId d))
    (map gate_validation (run_validations runId d)) = Ok decision ->
  accepted decision = true ->
  (exists verdict, cd_verifier decision = Some verdict /\ complete verdict = true) /\
  (forall r, r ∈ requirement_records runId d -> unproven_requirement r = false) /\
  (forall v, v ∈ validations d -> vd_run_id v = runId -> vd_status v = vs_passed).
Proof.
  unfold evaluate_completion. intros E Ha.
  destruct (gate_reasons _ _) eqn:Eg; cbn [Nat.ltb Nat.leb length] in E; [|by injection E as <-].
  apply gate_reasons_nil in Eg as [Hp Hv].
  split; [|split; [by apply all_proven_records|by apply all_passed_validations]]. destruct verifier as [v|]; [|by injection E as <-].
  apply bind_ok in E as (verdict & _ & E). exists verdict.
  destruct (complete verdict) eqn:Ec; injection E as <-; by cbn in Ha |- *.
Qed.

(** The ledger and the validations of a run are such that the store would let it
    complete. *)
Definition ledger_stands (runId : string) (d : Db) : bool :=
  forallb (fun record => negb (unproven_requirement record)) (requirement_records runId d) &&
  forallb (fun validation => vd_status validation === vs_passed) (run_validations runId d).

Lemma ledger_stands_spec runId d : ledger_stands runId d = true <->
  (forall r, r ∈ requirement_records runId d -> unproven_requirement r = false) /\
  (forall v, v ∈ run_validations runId d -> vd_status v = vs_passed).
Proof.
  unfold ledger_stands. rewrite andb_true_iff, !forallb_elem. split; intros [Hr Hv]; split.
  - intros r Hin. by apply negb_true_iff, Hr.
  - intros v Hin. by apply (bool_decide_eq_true_1 _ (Hv v Hin)).
  - intros r Hin. by apply negb_true_iff, Hr.
  - intros v Hin. by apply bool_decide_eq_true_2, Hv.
Qed.

(** A decision that was made on a ledger which still stands is not overruled; one
    made on a ledger that no longer stands is. *)
Lemma decision_outcome runId lease decision s s' again row :
  run_row runId (db s) = Some row -> propose_decision runId lease decision s = (s', Ok again) ->
  (accepted decision = true -> exists verdict, cd_verifier decision = Some verdict /\ complete verdict = true) ->
  again = negb (accepted decision) /\
  has_status runId (if accepted decision && ledger_stands runId (db s) then run_completed else rn_status row)
    (db s').
Proof.
  intros Hrow E Hverdict. unfold propose_decision in E. cbv zeta in E.
  apply mbind_ok in E as (s2 & [] & Hv & E). apply mbind_ok in E as (s3 & run & Hp & [= <- <-]).
  split; [done|]. destruct (accepted decision) eqn:Ha.
  2: { cbn [andb] in Hv |- *. injection Hv as <-.
       apply (propose_outcome _ _ _ _ _ _ _ _ _ Hrow) in Hp as [Hrun Hs]. by rewrite Hrun in Hs. }
  destruct (Hverdict eq_refl) as (verdict & Hcd & Hc). rewrite Hcd, Hc in Hv, Hp. cbn [andb] in Hv |- *.
  apply mbind_ok in Hv as (s4 & id & Hr & [= <-]).
  apply recordValidation_adds in Hr as (Er & Ee & Hst & v & Ev & Hvr & Hvs & Hvi).
  destruct (Hst (rn_status row)) as (row2 & Hrow2 & Hst2); [by exists row|].
  apply (propose_outcome _ _ _ _ _ _ _ _ _ Hrow2) in Hp as [Hrun Hs]. rewrite Hrun in Hs. cbn [andb] in Hs.
  rewrite (requirement_records_eq _ _ _ Er Ee), Hst2 in Hs.
  assert (forall x, x ∈ run_validations runId (db s4) <-> x ∈ run_validations runId (db s) \/ x = v) as Hadded.
  { intros x. rewrite !run_validations_elem, Ev, elem_of_app, list_elem_of_singleton.
    revert Hvr. clear. intros Hvr. split; [tauto|]. intros [?| ->]; tauto. }
  destruct (ledger_stands runId (db s)) eqn:Hl.
  - apply ledger_stands_spec in Hl as [Hreq Hval].
    rewrite (proj2 (control_plane_reasons_nil _ _ true)) in Hs; [done|].
    split; [done|]. split; [intros x [Hx| ->]%Hadded; [by apply Hval|done]|].
    split; [exists v; split; [apply Hadded; by right|done]|done].
  - rewrite bool_decide_eq_false_2 in Hs; [done|].
    intros (Hreq & Hval & _)%control_plane_reasons_nil. apply not_true_iff_false in Hl. apply Hl.
    apply ledger_stands_spec. split; [done|]. intros x Hx. apply Hval, Hadded. by left.
Qed.

(** A proposal that comes back was made for a run that is there. *)
Lemma propose_decision_row runId lease decision s s' again :
  propose_decision runId lease decision s = (s', Ok again) ->
  exists row, run_row runId (db s) = Some row.
Proof.
  intros E. destruct (run_row runId (db s)) as [row|] eqn:Hrow; [by exists row|exfalso].
  unfold propose_decision in E. cbv zeta in E.
  apply mbind_ok in E as (s2 & [] & Hv & E). apply mbind_ok in E as (s3 & run & Hp & _).
  assert (run_row runId (db s2) = None) as Hnone.
  { destruct (_ && _); [|by injection Hv as <-]. apply mbind_ok in Hv as (s4 & id & Hv & [= <-]).
    refine (preserves_ok (fun d => run_row runId d = None) _ _ _ _ _ Hrow Hv).
    unfold recordValidation. frame ltac:(first
      [ frame_read
      | frame_unfold
      | lazymatch goal with
        | |- preserves _ (update_rows runs _ _ _) =>
            apply preserves_update; intros d Hd; unfold run_row in *; cbn [runs set_runs];
            rewrite find_map_update by done; by rewrite Hd
        end ]). }
  unfold proposeCompletion in Hp.
  apply mbind_ok in Hp as (s4 & now & [= <- <-] & Hp). rewrite transaction_ok in Hp.
  apply mbind_ok in Hp as (s5 & [] & Hl & Hp).
  apply reads_ok in Hl; [|intros ?; apply preserves_check_lease]. cbn [db] in Hl.
  rewrite <- Hl in Hnone. apply mbind_ok in Hp as (s6 & target & Ht & _).
  by rewrite mustRun_eq, Hnone in Ht.
Qed.

(** C13: A turn that asks for the completion of the run gets what the completion
    gate decides about the requirements and validations it read, and the store has
    the last word about those it finds when the proposal arrives, after the gate
    was awaited and the other tasks of the process have run.  When the proposal
    comes back, the continuation is given up exactly when the gate accepted; the
    run has completed exactly when the gate accepted and the ledger of the run
    still stands in the store, which it does unless the other tasks changed it; in
    every other case the run keeps its status.  (A run whose ledger was changed
    meanwhile is thus left as it was without a continuation.) *)
Theorem accepted_turns_complete runId lease w w' again :
  propose_completion runId lease w = (w', Ok again) ->
  exists decision row,
    evaluate_completion (rco_verifier options)
      (map ledger_requirement (requirement_records runId (db w.1)))
      (map gate_validation (run_validations runId (db w.1))) = Ok decision /\
    run_row runId (db (others w).1) = Some row /\
    again = negb (accepted decision) /\
    has_status runId (if accepted decision && ledger_stands runId (db (others w).1)
                      then run_completed else rn_status row) (db w'.1) /\
    (accepted decision = true ->
     requirement_records runId (db (others w).1) = requirement_records runId (db w.1) ->
     run_validations runId (db (others w).1) = run_validations runId (db w.1) ->
     ledger_stands runId (db (others w).1) = true).
Proof.
  intros E. unfold propose_completion, completion_decision in E.
  apply io_bind_ok in E as (w1 & decision & Hd & E).
  apply io_bind_ok in Hd as (w2 & made & (s & Hd & ->)%on_store_ok & [= <- ->]).
  apply mbind_ok in Hd as (s1 & records & [= <- <-] & Hd).
  apply mbind_ok in Hd as (s1 & checks & [= <- <-] & [= <- Hd]).
  fold (requirement_records runId (db w.1)) (run_validations runId (db w.1)) in Hd.
  rewrite <- surjective_pairing in E.
  apply on_store_ok in E as (s' & E & ->).
  assert (exists row, run_row runId (db (others w).1) = Some row) as [row Hrow].
  { by eapply propose_decision_row. }
  exists decision, row. split; [done|]. split; [done|].
  destruct (decision_outcome _ _ _ _ _ _ _ Hrow E) as [Ha Hs].
  { intros Hacc. by destruct (accepted_passes_gate _ _ _ _ Hd Hacc) as [Hv _]. }
  split; [done|]. split; [done|]. intros Hacc Hr Hv.
  destruct (accepted_passes_gate _ _ _ _ Hd Hacc) as (_ & Hreq & Hval).
  apply ledger_stands_spec. rewrite Hr, Hv. split; [done|].
  intros v [Hin Hrun]%run_validations_elem. by apply Hval.
Qed.

(** *** Turns that fail *)

(** The run, if there, is not running. *)
Definition run_waits (runId : string) (d : Db) : Prop :=
  forall row, run_row runId d = Some row -> rn_status row <> run_running.

Definition wake_pending (runId : string) (d : Db) : Prop :=
  exists k, k ∈ wake_conditions d /\ wk_run_id k = runId /\ wk_status k = wks_pending.

Definition problem_known (runId fingerprint : string) (d : Db) : Prop :=
  exists p, p ∈ problems d /\ pb_run_id p = runId /\ pb_fingerprint p = fingerprint.

Lemma waits_status runId st d : st <> run_running -> has_status runId st d -> run_waits runId d.
Proof. intros Hst (row & Hrow & <-) r. rewrite Hrow. by intros [= <-]. Qed.

Lemma waits_update runId (c : RunRow -> bool) (f : RunRow -> RunRow) d :
  (forall r, rn_id (f r) = rn_id r) -> (forall r, rn_status (f r) = rn_status r) ->
  run_waits runId d -> run_waits runId (set_runs (map (fun r => if c r then f r else r) (runs d)) d).
Proof.
  intros Hid Hst Hw row. unfold run_row. cbn [runs set_runs]. rewrite find_map_update by done.
  unfold run_waits, run_row in Hw. destruct (find _ _) as [r|]; [|done]. cbn. intros [= <-].
  specialize (Hw r eq_refl). destruct (c r); [by rewrite Hst|done].
Qed.

(** The journal changes neither. *)
Ltac outcome_leaf :=
  first
    [ frame_read
    | frame_unfold
    | lazymatch goal with
      | |- preserves (run_waits _) (update_rows runs _ _ _) =>
          apply preserves_update; intros ? ?; apply waits_update; [done|done|assumption]
      end ].

Lemma append_outcome lease payload type s s' event runId :
  appendFencedEvent lease payload type s = (s', Ok event) ->
  (run_waits runId (db s) -> run_waits runId (db s')) /\
  (wake_pending runId (db s) -> wake_pending runId (db s')).
Proof.
  intros E. split; intros Hs;
    [ refine (preserves_ok (run_waits runId) _ _ _ _ _ Hs E)
    | refine (preserves_ok (wake_pending runId) _ _ _ _ _ Hs E) ];
    unfold appendFencedEvent; frame outcome_leaf.
Qed.

(** A run that is not moved to a wait was not running. *)
Lemma transition_waits runId row now reason s s' u (b : bool) :
  run_row runId (db s) = Some row -> b = (rn_status row === run_running) ->
  when b (transitionRunInternal runId run_waiting_external now reason) s = (s', Ok u) ->
  run_waits runId (db s').
Proof.
  intros Hrow ->. unfold when. case_bool_decide as Hst.
  - intros Ht. eapply waits_status; [|by eapply transition_has_status]. done.
  - intros [= <-] r. rewrite Hrow. by intros [= <-].
Qed.

Lemma scheduleWake_waits lease runId wakeAt s s' id :
  scheduleWake (Some lease) runId wakeAt s = (s', Ok id) ->
  run_waits runId (db s') /\ wake_pending runId (db s').
Proof.
  intros E. unfold scheduleWake in E.
  apply mbind_ok in E as (s1 & now & [= <- <-] & E).
  apply mbind_ok in E as (s2 & uuid & [= <- <-] & E).
  apply mbind_ok in E as (s3 & [] & E & [= <- _]). rewrite transaction_ok in E.
  apply mbind_ok in E as (s4 & [] & _ & E). destruct wakeAt as [instant|];
    apply mbind_ok in E as (s5 & at_ & Hat & E); [|done]. injection Hat as <- <-.
  apply mbind_ok in E as (s6 & [] & Hi & E). unfold insert_row in Hi.
  destruct (_ || _); [done|]. set (row := {| wk_id := _ |}) in Hi. injection Hi as <-.
  apply mbind_ok in E as (s7 & run & Hr & E). rewrite mustRun_eq in Hr.
  destruct (run_row runId _) as [r|] eqn:Hrow; [|done]. injection Hr as <- <-.
  pose proof (run_row_id _ _ _ Hrow) as Hid. cbn [runFromRow run_id run_status] in E.
  rewrite Hid in E. split; [by eapply transition_waits|].
  refine (preserves_ok (wake_pending runId) _ _ _ _ _ _ E).
  - unfold wake_pending. frame outcome_leaf.
  - exists row. split; [|done]. apply elem_of_app. right. by apply list_elem_of_singleton.
Qed.

Lemma problem_known_update runId fingerprint (c : ProblemRow -> bool) (f : ProblemRow -> ProblemRow) d :
  (forall p, pb_run_id (f p) = pb_run_id p) -> (forall p, pb_fingerprint (f p) = pb_fingerprint p) ->
  problem_known runId fingerprint d ->
  problem_known runId fingerprint (set_problems (map (fun p => if c p then f p else p) (problems d)) d).
Proof.
  intros Hr Hf (p & Hin & Hrun & Hfp). exists (if c p then f p else p).
  split; [by apply (list_elem_of_fmap_2 (fun p => if c p then f p else p))|].
  destruct (c p); [by rewrite Hr, Hf|done].
Qed.

Ltac problem_leaf :=
  first
    [ frame_read
    | frame_unfold
    | lazymatch goal with
      | |- preserves (problem_known _ _) (update_rows problems _ _ _) =>
          apply preserves_update; intros ? ?; apply problem_known_update; [done|done|assumption]
      end ].

Lemma recordProblem_known input s s' row : recordProblem input s = (s', Ok row) ->
  problem_known (rp_runId input) (rp_fingerprint input) (db s').
Proof.
  intros E. unfold recordProblem in E. cbv zeta in E.
  apply mbind_ok in E as (s1 & now & [= <- <-] & E). rewrite transaction_ok in E.
  apply mbind_ok in E as (s2 & known & [= <- Hk] & E).
  apply mbind_ok in E as (s3 & id & Hid & E). apply mbind_ok in E as (s4 & [] & Hi & E).
  refine (preserves_ok (problem_known (rp_runId input) (rp_fingerprint input)) _ _ _ _ _ _ E);
    [frame problem_leaf|].
  destruct known as [p|]; unfold when in Hi; cbn in Hi.
  - injection Hi as <-. injection Hid as <- _. apply find_some in Hk as [Hin Hp].
    rewrite <- list_elem_of_In in Hin. bool_hyps. by exists p.
  - unfold insert_row in Hi. destruct (_ || _); [done|].
    set (row0 := {| pb_id := _ |}) in Hi. injection Hi as <-. exists row0. split; [|done].
    apply elem_of_app. right. by apply list_elem_of_singleton.
Qed.

Lemma transitionRun_waits lease reason runId row s s' run :
  run_row runId (db s) = Some row -> rn_status row = run_running ->
  transitionRun None (Some lease) reason runId run_waiting_external s = (s', Ok run) ->
  run_waits runId (db s').
Proof.
  intros Hrow Hst E. unfold transitionRun in E. rewrite transaction_ok in E.
  apply mbind_ok in E as (s1 & now & [= <- <-] & E).
  apply mbind_ok in E as (s2 & [] & Hl & E).
  apply reads_ok in Hl; [|intros ?; apply preserves_check_lease]. cbn [db] in Hl.
  rewrite <- Hl in Hrow. clear Hl.
  apply mbind_ok in E as (s3 & found & Hr & E). rewrite mustRun_eq, Hrow in Hr.
  injection Hr as <- <-. pose proof (run_row_id _ _ _ Hrow) as Hid.
  cbn [runFromRow run_id] in E. rewrite Hid in E.
  apply mbind_ok in E as (s4 & [] & [= <-] & E). apply mbind_ok in E as (s5 & [] & Ht & E).
  apply mbind_ok in E as (s6 & [] & [= <-] & E).
  apply transition_has_status in Ht.
  apply reads_ok in E as ->; [|intros ?; apply preserves_mustRun]. by apply (waits_status _ run_waiting_external).
Qed.

Lemma park_run_waits action lease failure n s s' u :
  park_run action lease failure n s = (s', Ok u) ->
  run_waits (act_runId action) (db s') /\
  problem_known (act_runId action) ("provider:" +:+ ProviderFailureKind_str (pf_kind failure)) (db s').
Proof.
  intros E. unfold park_run in E. cbv zeta in E. set (runId := act_runId action) in *.
  apply mbind_ok in E as (s1 & problem & Hp%recordProblem_known & E). cbn [rp_runId rp_fingerprint] in Hp.
  apply mbind_ok in E as (s2 & run & [= <- <-] & E).
  fold (run_row runId (db s1)) in E.
  destruct (run_row runId (db s1)) as [row|] eqn:Hrow; cbn in E;
    [|injection E as <-; split; [by intros r; rewrite Hrow|done]].
  destruct (rn_status row === run_running) eqn:Hst; bool_hyps.
  - apply mbind_ok in E as (s3 & r & Ht & [= <- _]).
    split; [by eapply transitionRun_waits|].
    refine (preserves_ok (problem_known _ _) _ _ _ _ _ Hp Ht). unfold transitionRun. frame problem_leaf.
  - injection E as <-. split; [|done]. intros r. rewrite Hrow. by intros [= <-].
Qed.


Lemma schedule_retry_waits action lease failure n (w w' : W) u :
  schedule_retry action lease failure n w = (w', Ok u) ->
  run_waits (act_runId action) (db w'.1) /\ wake_pending (act_runId action) (db w'.1).
Proof.
  intros E. unfold schedule_retry in E.
  apply io_bind_ok in E as (w1 & random & _ & E). cbv zeta in E.
  apply io_bind_ok in E as (w2 & id & (s & Hw & ->)%on_store_ok & E).
  apply scheduleWake_waits in Hw as [Hw Hp].
  apply io_bind_ok in E as (w3 & event & (s1 & Ha & ->)%on_store_ok & [= <- _]). cbn [fst].
  apply append_outcome with (runId := act_runId action) in Ha as [H1 H2].
  split; [by apply H1|by apply H2].
Qed.

(** Handling a failure throws nothing of its own: what it throws is an error of the
    store. *)
Definition throws_store_errors {A} (m : IO W A) : Prop :=
  forall w, match (m w).2 with Ok _ => True | Throw e => exists error, e = Thrown error end.

Lemma store_errors_bind {A B} (m : IO W A) (k : A -> IO W B) :
  throws_store_errors m -> (forall a, throws_store_errors (k a)) -> throws_store_errors (m ≫= k).
Proof.
  intros Hm Hk w. specialize (Hm w). unfold mbind, IO_bind.
  destruct (m w) as [w1 [a|e]]; [apply Hk|exact Hm].
Qed.

Lemma store_errors_ret {A} (a : A) : throws_store_errors (mret a).
Proof. by intros w. Qed.

Lemma store_errors_on_store {A} (m : M A) : throws_store_errors (on_store m).
Proof. intros w. unfold on_store. destruct (m w.1) as [s [a|e]]; [done|]. by exists e. Qed.

Lemma schedule_retry_errors action lease failure n :
  throws_store_errors (schedule_retry action lease failure n).
Proof.
  unfold schedule_retry. apply store_errors_bind; intros; cbv zeta.
  - destruct (pf_retryAfterMs failure); [apply store_errors_ret|].
    intros w. by destruct (math_random w).
  - apply store_errors_bind; intros; [intros w; apply store_errors_on_store|].
    apply store_errors_bind; intros; [apply store_errors_on_store|apply store_errors_ret].
Qed.

Lemma handleFailure_errors action lease epochId failure :
  throws_store_errors (handleFailure action lease epochId failure).
Proof.
  unfold handleFailure.
  repeat first
    [ apply store_errors_ret
    | apply store_errors_on_store
    | apply schedule_retry_errors
    | apply store_errors_bind; intros
    | match goal with |- throws_store_errors (if ?c then _ else _) => destruct c end ].
Qed.

(** C14: A turn that failed does not spin, as long as its failure can be handled.
    When the handling of the provider's failure comes back, the continuation is
    scheduled again only when the context overflowed; in every other case the run
    is no longer running, and something will bring it back: a pending wake when the
    failure is retried, which only a retryable failure is, or a known problem that
    names the failure.  The handling itself can only throw what the store threw (the
    lease was refused, say, or the provider asked for a delay beyond the range of
    dates); then nothing of this is promised, and the turn throws that error to the
    scheduler, which schedules the run again while the lease stands. *)
Theorem failed_turn_never_spins action lease epochId failure w :
  let '(w', r) := handleFailure action lease epochId failure w in
  match r with
  | Ok again =>
      again = is_overflow failure /\
      (again = false ->
         run_waits (act_runId action) (db w'.1) /\
         (retryable failure = true /\ wake_pending (act_runId action) (db w'.1) \/
          problem_known (act_runId action) ("provider:" +:+ ProviderFailureKind_str (pf_kind failure))
            (db w'.1)))
  | Throw e => exists error, e = Thrown error
  end.
Proof.
  pose proof (handleFailure_errors action lease epochId failure w) as Hthrow.
  destruct (handleFailure _ _ _ _ w) as [w' [again|e]] eqn:E; [clear Hthrow|exact Hthrow].
  unfold handleFailure in E.
  apply io_bind_ok in E as (w1 & [] & _ & E). apply io_bind_ok in E as (w2 & row & _ & E).
  apply io_bind_ok in E as (w3 & event & _ & E). destruct (is_overflow failure).
  { by apply io_bind_ok in E as (w4 & event' & _ & [= _ <-]). }
  apply io_bind_ok in E as (w4 & n & _ & E). destruct (retryable failure && _) eqn:Hr.
  - apply io_bind_ok in E as (w5 & [] & Hw%schedule_retry_waits & [= <- <-]).
    apply andb_true_iff in Hr as [Hr _]. split; [done|]. intros _. destruct Hw. eauto.
  - apply io_bind_ok in E as (w5 & [] & (s & Hp%park_run_waits & ->)%on_store_ok & [= <- <-]).
    split; [done|]. intros _. destruct Hp. eauto.
Qed.

End Coordinator.
