(* ===== verification/TurnDemo.v ===== *)
(** Concrete turns of the coordinator, over the run of StoreCommands. *)

From Stdlib Require Import ZArith Lia.
From stdpp Require Import base strings list relations.
From S2P Require Import Prelude JsNumber JsString JsCollections Protocol Json Ids StateMachine.
From S2P Require Import Policies Budget Validation StoreData StoreMonad StoreCore StoreRuns StoreTasks.
From S2P Require Import StoreEffects StoreCommands StoreLeases StoreSafety StoreCompletion.
From S2P Require Import JsDecimal Provider Engine RuntimeWorld MissionTools DurableTools Coordinator.

Open Scope string_scope.
Open Scope list_scope.
#[local] Open Scope Z_scope.

(** Outside the store: how often the model was asked. *)
Definition demo_le (a b : string) : bool := string_le a b.
Definition demo_sha (s : string) : string := "sha-of-" +:+ s.
Definition demo_message (e : exn) : string :=
  match e with Error message => message | _ => "An error." end.
Definition demo_iso (n : Z) : string := decimal n.
Definition demo_now (w : World Z) : Z := 50.
Definition demo_random (w : World Z) : World Z * num := (w, ofZ 0).
Definition nobody_else (w : World Z) : World Z := w.
Definition demo_path (uri : string) : option string := Some uri.
Definition demo_uri (path : string) : string := path.
Definition no_git (path : string) : MilestoneGit (World Z) :=
  {| mg_isRepository := mret false; mg_captureCheckpoint := fun _ _ _ => mret "" |}.

(** A tool that works on a file, and one that ends the run. *)
Definition demo_tool (name : string) (side : ToolSideEffectClass) (scopes : list string)
  (completes : option bool) : RuntimeTool (World Z) :=
  {| rt_completesRun := completes; rt_description := ""; rt_idempotency := id_safe; rt_name := name;
     rt_permissions := None; rt_recovery := rec_retry; rt_resourceScopes := fun _ => Ok scopes;
     rt_sideEffect := side; rt_supportsBackground := false;
     rt_execute := fun _ w => ((w.1, w.2 + 100), Ok {| tr_artifacts := None; tr_output := "ok" |}) |}.

Definition demo_finish : RuntimeTool (World Z) := demo_tool "finish" se_none [] (Some true).
Definition demo_registry : ToolRegistry (World Z) := result_or [] (register_tool demo_finish []).

Definition demo_response (calls : list ToolCall) (text : string) : ProviderTurnResponse :=
  {| rsp_text := Some text; rsp_usage := None; rsp_toolCalls := Some calls |}.

(** The model asks for these calls first and then answers; or it fails. *)
Definition demo_provider (calls : list ToolCall) (failure : option fault) : TurnProvider (World Z) :=
  {| provider_id := "scripted";
     provider_complete := fun _ w =>
       ((w.1, w.2 + 1),
        match failure with
        | Some e => Throw e
        | None => Ok (if w.2 =? 0 then demo_response calls "Working." else demo_response [] "Done.")
        end) |}.

Definition demo_options (calls : list ToolCall) (failure : option fault)
  : RunCoordinatorOptions (World Z) DeterministicIndependentVerifier :=
  {| rco_verifier := Some deterministic_verifier; rco_checkpointOnTaskCompletion := None;
     rco_compile := fun _ => mret {| cc_messages := []; cc_omitted := []; cc_usedTokens := 0 |};
     rco_maxProviderAttempts := None; rco_maxToolCalls := None; rco_model := "model";
     rco_provider := demo_provider calls failure; rco_tools := given_tools demo_registry;
     rco_worktrees := None |}.

Definition demo_call (name : string) (input : JsonValue) : ToolCall :=
  {| call_id := "call-" +:+ name; call_name := name; call_input := input |}.

Definition not_aborted (w : World Z) : option AbortReason := None.
Definition demo_action : ScheduledAction := 
  {| act_actionType := "continue"; act_attempt := 1; act_runId := demo_run |}.
Definition demo_fence : FencedLease := demo_lease "executor-1" 1.

Definition demo_turn (options : RunCoordinatorOptions (World Z) DeterministicIndependentVerifier)
  (s : Store) : World Z * result fault bool :=
  coordinator_execute demo_le demo_sha demo_message demo_iso not_aborted demo_now demo_random nobody_else
    demo_path demo_uri no_git options 40 "thrown" demo_action demo_fence (s, 0).

Definition demo_status (s : Store) : option RunStatus := rn_status <$> run_row demo_run (db s).

(** A turn that ends the run: the model calls the tool that does, the gate finds
    the requirement proven and the validation passed, and the run completes. *)
Definition finished_turn := demo_turn (demo_options [demo_call "finish" jnull] None) demo_ready.

Example turn_completes : finished_turn.2 = Ok false /\
  demo_status finished_turn.1.1 = Some run_completed /\ finished_turn.1.2 = 102.
Proof. vm_compute. repeat split. Qed.

(** The same without evidence: the run goes on. *)
Definition unproven_turn :=
  demo_turn (demo_options [demo_call "finish" jnull] None)
    (after_commands [c_acquireLease "executor-1" None None demo_run 1000] demo_store).

Example turn_goes_on : unproven_turn.2 = Ok true /\
  demo_status unproven_turn.1.1 = Some run_running.
Proof. vm_compute. repeat split. Qed.

(** The provider is busy: the run waits for the delay to pass. *)
Definition busy : ProviderFailure := provider_failure pf_server "busy".
Definition busy_turn := demo_turn (demo_options [] (Some (Failure busy))) demo_ready.

Example turn_retries : busy_turn.2 = Ok false /\
  demo_status busy_turn.1.1 = Some run_waiting_external /\
  map wk_wake_at (wake_conditions (db busy_turn.1.1)) = [Some 1550].
Proof. vm_compute. repeat split. Qed.

(** ** What the modelling showed *)

(** A run that may not call tools. *)
Definition tool_less : RunBudget :=
  {| maxInputTokens := None; maxOutputTokens := None; maxTotalTokens := None;
     maxCachedTokens := None; maxCostUsd := None; maxWallTimeMs := None;
     maxToolCalls := Some (ofZ 0); maxChildAgents := None; budget_reserve := None |}.

Definition frugal_input : CreateRunInput :=
  {| ci_budget := Some tool_less; ci_initialGoal := None; ci_permissions := None;
     ci_prompt := "Fix the parser"; ci_sandbox := None; ci_requirements := [];
     ci_title := None; ci_workspaceUri := "file:///work" |}.

Definition frugal_created : Store := after_commands [c_createRun frugal_input] empty_store.
Definition frugal_run : string := default "" (rn_id <$> head (runs (db frugal_created))).
Definition frugal_store : Store :=
  after_commands [c_acquireLease "executor-1" None None frugal_run 1000] frugal_created.
Definition frugal_fence : FencedLease :=
  {| fl_runId := frugal_run; fl_executorId := "executor-1"; fl_generation := 1 |}.

(** The agent of a row, as the mapper reads it. *)
Definition some_agent (s : Store) : option Agent :=
  row ← head (agents (db s));
  Some {| agent_row := row; agent_parentAgentId := None; agent_sessionEpochIds := [] |}.

Definition file_tool : RuntimeTool (World Z) := demo_tool "read" se_none ["file:/a.txt"] None.

Definition frugal_call : option (World Z * result fault ToolResult) :=
  (fun agent => durable_execute demo_le demo_sha demo_message agent frugal_fence "file:///work" file_tool
                  jnull (frugal_store, 0)) <$> some_agent frugal_store.

(** The locks of a call are acquired before its intent is recorded, and released
    only around its run: a refused intent leaves them held. *)
Example refused_intent_keeps_locks :
  (fun x => (match x.2 with Throw _ => true | Ok _ => false end,
             length (resource_locks (db x.1.1)), x.1.2)) <$> frugal_call = Some (true, 1%nat, 0).
Proof. vm_compute. reflexivity. Qed.

(** A task that nobody owns. *)
Definition task_input : CreateTaskInput :=
  {| ct_dependencies := []; ct_description := "Fix it"; ct_goalId := None;
     ct_lease := Some demo_fence; ct_requirementIds := []; ct_resourceScopes := [];
     ct_runId := demo_run; ct_title := "Fix" |}.

Definition planned : Store := after_commands [c_createTask task_input] demo_ready.
Definition demo_task : string := default "" (tk_id <$> head (tasks (db planned))).

(** The coordinator agent of the run, on whose behalf the tools act. *)
Definition demo_acting : Agent :=
  {| agent_row := {| ag_id := demo_agent; ag_run_id := demo_run; ag_task_id := None;
       ag_role := role_coordinator; ag_status := agent_running; ag_permissions := defaultPermissions;
       ag_sandbox := defaultSandbox; ag_worktree_uri := None; ag_spawned_at := 0; ag_closed_at := None;
       ag_created_at := 0; ag_updated_at := 0; ag_lease_generation := None |};
     agent_parentAgentId := None; agent_sessionEpochIds := [] |}.

Definition delegation (fields : list (string * JsonValue)) : Store * exc string :=
  delegate_task demo_acting demo_fence demo_run
    (jobj (("taskId", jstr demo_task) :: ("role", jstr "implementer") :: fields)) planned.

(** A delegation without instructions is refused after the delegate has been
    spawned and queued: the call throws, and the agent stays. *)
Example refused_delegation_spawns :
  (match (delegation []).2 with Throw (Error m) => m | _ => "" end,
   map ag_status (agents (db (delegation []).1)), length (agent_messages (db (delegation []).1))) =
  ("instructions must be a non-empty string.", [agent_running; agent_queued], 0%nat).
Proof. vm_compute. reflexivity. Qed.

Example delegation_spawns :
  (match (delegation [("instructions", jstr "Fix it.")]).2 with Ok _ => true | _ => false end,
   length (agent_messages (db (delegation [("instructions", jstr "Fix it.")]).1))) = (true, 1%nat).
Proof. vm_compute. reflexivity. Qed.

Definition demo_event (type : RunEventType) (payload : JsonValue) : EventRow :=
  {| ee_id := "event"; ee_run_id := demo_run; ee_seq := 1; ee_type := type; ee_payload := payload; ee_created_at := 0;
     ee_lease_generation := None |}.

(** Three turns that fail on the same tool and then list the tasks: every one of
    them counts as a meaningful change, although nothing changed, and the run is
    never found stagnating; without the listings it is. *)
Definition stuck_turn (looks : bool) : list EventRow :=
  demo_event evt_agent_turn_started jnull ::
  demo_event evt_tool_call_finished (jobj [("error", jobj [("message", jstr "no such file")])]) ::
  (if looks then [demo_event evt_tool_call_finished (jobj [("result", jstr "[]")])] else []).

Definition stuck_run (looks : bool) : StagnationAction :=
  sa_action (assessStagnation (progress_attempts demo_iso None
    (stuck_turn looks ++ stuck_turn looks ++ stuck_turn looks))).

Example reading_counts_as_progress : (stuck_run true, stuck_run false) = (st_continue, st_blocked).
Proof. vm_compute. reflexivity. Qed.

(** ** The properties at these inputs *)

Definition delegate : RuntimeTool (World Z) :=
  controlPlaneTool "delegate_task"
    "Delegate a task to a new durable sub-agent with a specific role. The sub-agent survives a daemon restart and reports back through the mailbox."
    (delegate_task demo_acting demo_fence demo_run).

Definition delegate_input : JsonValue :=
  jobj [("taskId", jstr demo_task); ("role", jstr "implementer"); ("instructions", jstr "Fix it.")].

Lemma delegate_is_tool : delegate ∈ mission_tools demo_acting demo_fence demo_run.
Proof.
  unfold mission_tools. repeat (first [apply list_elem_of_here | apply list_elem_of_further]).
Qed.

Lemma delegation_never_widens_witness :
  length (agents (db (rt_execute delegate delegate_input (planned, 0)).1.1)) = 2%nat /\
  forall row, row ∈ agents (db (rt_execute delegate delegate_input (planned, 0)).1.1) ->
    (exists row0, row0 ∈ agents (db planned) /\ ag_id row0 = ag_id row /\
       ag_permissions row0 = ag_permissions row /\ ag_sandbox row0 = ag_sandbox row) \/
    ag_permissions row = ag_permissions (agent_row demo_acting) /\
    ag_sandbox row = ag_sandbox (agent_row demo_acting).
Proof.
  split; [vm_compute; reflexivity|]. intros row Hrow.
  apply (delegation_never_widens demo_acting demo_fence demo_run delegate delegate_input planned 0 row
           delegate_is_tool Hrow).
Defined.

(** A lease that never was. *)
Definition stale_fence : FencedLease := demo_lease "executor-2" 1.

Definition stale_delegate : RuntimeTool (World Z) :=
  controlPlaneTool "delegate_task"
    "Delegate a task to a new durable sub-agent with a specific role. The sub-agent survives a daemon restart and reports back through the mailbox."
    (delegate_task demo_acting stale_fence demo_run).

Lemma stale_is_tool : stale_delegate ∈ mission_tools demo_acting stale_fence demo_run.
Proof.
  unfold mission_tools. repeat (first [apply list_elem_of_here | apply list_elem_of_further]).
Qed.

Lemma replaced_tools_do_nothing_witness :
  let '(w', r) := rt_execute stale_delegate delegate_input (planned, 0) in
  db w'.1 = db planned /\ w'.2 = 0 /\
  (rt_name stale_delegate <> "list_tasks" -> exists e, r = Throw (Thrown e)).
Proof.
  apply (replaced_tools_do_nothing demo_acting stale_fence demo_run stale_delegate delegate_input
           planned 0 stale_is_tool).
  intros n _. vm_compute. reflexivity.
Defined.

Definition demo_scope : ResourceScope := turn_scope "file:///work" "file:/a.txt".

Lemma tools_run_supervised_witness :
  let '(w', r) := durable_execute demo_le demo_sha demo_message demo_acting demo_fence "file:///work"
                    file_tool jnull (demo_ready, 0) in
  (w'.2 = 0 /\ exists e, r = Throw e) \/
  exists s toolCallId w1 ran,
    supervised demo_le demo_sha demo_acting demo_fence (demo_ready, 0) jnull [demo_scope] file_tool s
      toolCallId /\
    rt_execute file_tool jnull (s, 0) = (w1, ran) /\ w'.2 = w1.2 /\
    ([demo_scope] <> [] -> unlocked demo_fence (db w'.1)) /\
    outcome_recorded demo_fence toolCallId w1.1 (db w'.1) ran r.
Proof.
  pose proof (tools_run_supervised demo_le demo_sha demo_message demo_acting demo_fence "file:///work"
                file_tool jnull (demo_ready, 0)) as Hw.
  revert Hw. destruct (durable_execute _ _ _ _ _ _ _ _ (demo_ready, 0)) as [w' r]. intros Hw.
  cbn [rt_resourceScopes file_tool demo_tool map] in Hw. exact Hw.
Defined.

(** The call above runs. *)
Example supervised_call_runs :
  (fun x : World Z * result fault ToolResult =>
     (x.1.2, match x.2 with Ok _ => true | _ => false end, resource_locks (db x.1.1),
      map tl_status (tool_calls (db x.1.1))))
    (durable_execute demo_le demo_sha demo_message demo_acting demo_fence "file:///work" file_tool jnull
       (demo_ready, 0)) = (100, true, [], [tc_succeeded]).
Proof. vm_compute. reflexivity. Qed.

(** A tool that always asks. *)
Definition careful_tool : RuntimeTool (World Z) :=
  {| rt_completesRun := None; rt_description := ""; rt_idempotency := id_safe; rt_name := "publish";
     rt_permissions := Some {| required := []; perm_requiresApproval := Some true |};
     rt_recovery := rec_retry; rt_resourceScopes := fun _ => Ok []; rt_sideEffect := se_external;
     rt_supportsBackground := false; rt_execute := rt_execute file_tool |}.

Definition careful_call (w : World Z) : World Z * result fault ToolResult :=
  durable_execute demo_le demo_sha demo_message demo_acting demo_fence "file:///work" careful_tool jnull w.

Definition careful_summary : string :=
  approvalSummary demo_le demo_sha jnull (prompted demo_acting [] careful_tool) [] careful_tool.

(** The first call asks for an approval; the second waits for the same one. *)
Definition asked : World Z := (careful_call (demo_ready, 0)).1.

Lemma unapproved_calls_wait_witness :
  let '(w', r) := careful_call asked in
  w' = asked /\ exists id, r = Throw (ToolApprovalRequired id).
Proof.
  pose proof (unapproved_calls_wait demo_le demo_sha demo_message demo_acting demo_fence "file:///work"
                careful_tool jnull asked [] eq_refl) as Hw.
  cbv zeta in Hw. revert Hw. unfold careful_call.
  destruct (durable_execute _ _ _ _ _ _ _ _ asked) as [w' r]. intros Hw.
  assert (find denies (tool_evaluations demo_acting [] careful_tool) = None) as Hd
    by (vm_compute; reflexivity).
  cbn [map] in Hw. rewrite Hd in Hw.
  assert (ap_status <$> last (matching_approvals demo_fence careful_summary (db asked.1)) =
          Some aps_pending) as Hl by (vm_compute; reflexivity).
  unfold careful_summary in Hl.
  destruct (last _) as [approval|]; [|discriminate Hl]. injection Hl as Hl. rewrite Hl in Hw.
  destruct Hw as [-> ->]; [|split; [reflexivity|by eexists]].
  intros Hp. apply (f_equal length) in Hp. vm_compute in Hp. discriminate Hp.
Defined.

Lemma demo_outside calls failure :
  outside_commands demo_random nobody_else no_git (demo_options calls failure).
Proof.
  split.
  - intros request. apply wc_ret.
  - intros request. by apply wc_same.
  - intros uri runId. split; [apply wc_ret|]. intros w w' registry tool input [= <- <-] Hin.
    assert (tool = demo_finish) as ->.
    { revert Hin. unfold demo_registry, register_tool. cbn. by intros ->%list_elem_of_singleton. }
    by apply wc_same.
  - done.
  - intros path. split; [apply wc_ret|intros m r n; apply wc_ret].
  - intros w. apply rtc_refl.
  - intros w. apply rtc_refl.
Qed.

Lemma turn_refines_store_witness :
  outside_commands demo_random nobody_else no_git (demo_options [demo_call "finish" jnull] None) /\
  rtc store_step (demo_ready, 0).1
    (coordinator_execute demo_le demo_sha demo_message demo_iso not_aborted demo_now demo_random
       nobody_else demo_path demo_uri no_git (demo_options [demo_call "finish" jnull] None) 40 "thrown"
       demo_action demo_fence (demo_ready, 0)).1.1.
Proof.
  split; [apply demo_outside|].
  exact (turn_refines_store demo_le demo_sha demo_message demo_iso not_aborted demo_now demo_random
           nobody_else demo_path demo_uri no_git (demo_options [demo_call "finish" jnull] None) 40 "thrown"
           (demo_outside _ _) demo_action demo_fence (demo_ready, 0)).
Defined.

(** The run with an open session. *)
Definition in_session : Store :=
  after_commands [c_startSessionEpoch demo_agent (Some demo_fence) "model" "scripted"] demo_ready.
Definition demo_session : string := default "" (se_id <$> head (session_epochs (db in_session))).
Definition demo_mission : MissionRow :=
  {| ms_id := "mission"; ms_title := ""; ms_prompt := ""; ms_workspace_uri := "file:///work";
     ms_metadata := None; ms_created_at := 0; ms_updated_at := 0 |}.
Definition busy_options := demo_options [] (Some (Failure busy)).

Lemma turn_ends_its_session_witness :
  exists row w', run_row demo_run (db in_session) = Some row /\
    started_turn demo_le demo_message demo_iso not_aborted demo_now demo_random nobody_else demo_path no_git
      busy_options 40 "thrown" demo_action demo_fence (runFromRow row) demo_mission demo_acting
      "file:///work" demo_session [] None demo_registry [] (in_session, 0) = (w', Ok false) /\
    session_ended demo_session (db w'.1).
Proof.
  assert ((fun row => (started_turn demo_le demo_message demo_iso not_aborted demo_now demo_random
      nobody_else demo_path no_git busy_options 40 "thrown" demo_action demo_fence (runFromRow row) demo_mission
      demo_acting "file:///work" demo_session [] None demo_registry [] (in_session, 0)).2)
    <$> run_row demo_run (db in_session) = Some (Ok false)) as Hr by (vm_compute; reflexivity).
  destruct (run_row demo_run (db in_session)) as [row|] eqn:Hrow; [|discriminate Hr].
  cbn [fmap option_fmap option_map] in Hr. apply (inj Some) in Hr. exists row.
  destruct (started_turn _ _ _ _ _ _ _ _ _ _ _ _ _ _ _ _ _ _ _ _ _ _ _) as [w' r] eqn:E.
  cbn [snd] in Hr. subst r.
  exists w'. split; [reflexivity|]. split; [reflexivity|].
  exact (turn_ends_its_session demo_le demo_message demo_iso not_aborted demo_now demo_random
           nobody_else demo_path no_git busy_options 40 "thrown" (demo_outside _ _) _ _ _ _ _ _ _ _ _ _ _ _ _ _ E).
Defined.

(** While the gate is awaited, someone adds a requirement to the run. *)
Definition adds_requirement (w : World Z) : World Z :=
  (after_commands [c_addRequirement (Some "requirement_late") None None demo_run "Documented"] w.1, w.2).

Definition gate_then (others : World Z -> World Z) : World Z * result fault bool :=
  propose_completion others busy_options demo_run demo_fence (demo_ready, 0).

(** The gate accepted what it had read, the store does not complete the run any
    more, and the turn gives up its continuation all the same. *)
Example changed_ledger_strands_run :
  (gate_then nobody_else).2 = Ok false /\
  demo_status (gate_then nobody_else).1.1 = Some run_completed /\
  (gate_then adds_requirement).2 = Ok false /\
  demo_status (gate_then adds_requirement).1.1 = Some run_running.
Proof. vm_compute. repeat split. Qed.

Lemma accepted_turns_complete_witness :
  exists w' decision row,
    propose_completion adds_requirement busy_options demo_run demo_fence (demo_ready, 0) = (w', Ok false) /\
    evaluate_completion (rco_verifier busy_options)
      (map ledger_requirement (requirement_records demo_run (db (demo_ready, 0).1)))
      (map gate_validation (run_validations demo_run (db (demo_ready, 0).1))) = Ok decision /\
    run_row demo_run (db (adds_requirement (demo_ready, 0)).1) = Some row /\
    false = negb (accepted decision) /\
    has_status demo_run
      (if accepted decision && ledger_stands demo_run (db (adds_requirement (demo_ready, 0)).1)
       then run_completed else rn_status row) (db w'.1).
Proof.
  assert ((propose_completion adds_requirement busy_options demo_run demo_fence (demo_ready, 0)).2 =
    Ok false) as Hr by (vm_compute; reflexivity).
  destruct (propose_completion adds_requirement busy_options demo_run demo_fence (demo_ready, 0))
    as [w' r] eqn:E.
  cbn [snd] in Hr. subst r.
  destruct (accepted_turns_complete adds_requirement busy_options demo_run demo_fence (demo_ready, 0) w'
              false E) as (decision & row & Hd & Hrow & Ha & Hs & _).
  exists w', decision, row. split; [reflexivity|]. split; [exact Hd|]. split; [exact Hrow|].
  split; [exact Ha|exact Hs].
Defined.

Lemma failed_turn_never_spins_witness :
  exists w', handleFailure demo_now demo_random busy_options demo_action demo_fence demo_session busy
    (in_session, 0) = (w', Ok false) /\
  false = is_overflow busy /\
  (false = false ->
     run_waits (act_runId demo_action) (db w'.1) /\
     (retryable busy = true /\ wake_pending (act_runId demo_action) (db w'.1) \/
      problem_known (act_runId demo_action) ("provider:" +:+ ProviderFailureKind_str (pf_kind busy))
        (db w'.1))).
Proof.
  assert ((handleFailure demo_now demo_random busy_options demo_action demo_fence demo_session busy
    (in_session, 0)).2 = Ok false) as Hr by (vm_compute; reflexivity).
  pose proof (failed_turn_never_spins demo_now demo_random busy_options demo_action demo_fence
    demo_session busy (in_session, 0)) as Hs.
  destruct (handleFailure demo_now demo_random busy_options demo_action demo_fence demo_session busy
    (in_session, 0)) as [w' r] eqn:E. cbn [snd] in Hr. subst r.
  exists w'. split; [reflexivity|]. exact Hs.
Defined.

(** A provider that asks to be left alone for longer than dates reach: the wake
    cannot be scheduled, and the failure of the turn is thrown instead. *)
Definition endless : ProviderFailure :=
  {| pf_kind := pf_rate_limited; pf_message := "later"; pf_retryAfterMs := Some (ofZ (10 ^ 16)) |}.

Example endless_delay_throws :
  (demo_turn (demo_options [] (Some (Failure endless))) demo_ready).2 =
    Throw (Thrown (RangeError "Invalid time value")).
Proof. vm_compute. reflexivity. Qed.
