(* ===== verification/Paths.v ===== *)
(** Locations of the workspace: packages/workspace/src/paths.ts, and what the
    package's files share: the errors they throw and the outside they act on.

    Paths are POSIX paths over full UTF-16 text.  The parts of node:path the
    package uses are written out; the file system is outside. *)

From Stdlib Require Import ZArith NArith Lia Ascii.
From stdpp Require Import base strings list.
From S2P Require Import Prelude JsText.

Open Scope string_scope.
Open Scope list_scope.

(** ** Errors and effects *)

(** What the workspace and recovery packages throw, the errors of the system with
    the code they carry, and any other thrown value.
    Source: packages/workspace/src/git.ts:84-111 [GitOperationError, GitSnapshotError]. *)
Inductive ws_fault : Type :=
| CommandExecutionError (exitCode : option Z) (stdout stderr : text)
| GitOperationError (workspacePath : text) (args : list text) (exitCode : option Z) (stdout stderr : text)
| GitSnapshotError (message : text)
| SystemError (code : option text)
| CheckpointNotFoundError (id : text)
| CheckpointRestoreInProgressError
| CheckpointPersistenceError (message : text)
| OtherError (name message : text) (code : option text)
| NotAnError (shown : text) (* a thrown value that is no Error, by its String *)
| Endless (* the fuel of the model is used up; no operation throws it *).

#[export] Instance ws_fault_eq_dec : EqDecision ws_fault.
Proof. solve_decision. Defined.

(** An asynchronous operation on a world: it returns or throws in the world it
    leaves. *)
Definition act (World A : Type) : Type := World -> World * result ws_fault A.

#[export] Instance act_ret {World} : MRet (act World) := fun _ a w => (w, Ok a).
#[export] Instance act_bind {World} : MBind (act World) := fun _ _ f m w =>
  match m w with
  | (w', Ok a) => f a w'
  | (w', Throw e) => (w', Throw e)
  end.

Definition act_throw {World A} (e : ws_fault) : act World A := fun w => (w, Throw e).
Definition act_lift {World A} (r : result ws_fault A) : act World A := fun w => (w, r).

(** [try { m } catch (error) { handler(error) }] *)
Definition act_catch {World A} (m : act World A) (handler : ws_fault -> act World A) : act World A :=
  fun w =>
    match m w with
    | (w', Ok a) => (w', Ok a)
    | (w', Throw e) => handler e w'
    end.

(** [try { m } finally { cleanup }] *)
Definition act_finally {World A} (m : act World A) (cleanup : act World unit) : act World A := fun w =>
  let '(w1, r) := m w in
  match cleanup w1 with
  | (w2, Ok _) => (w2, r)
  | (w2, Throw e) => (w2, Throw e)
  end.

(** [Promise.all([a, b])]: both run; the first of them to fail, in this order,
    decides. *)
Definition act_both {World A B} (a : act World A) (b : act World B) : act World (A * B) := fun w =>
  let '(w1, ra) := a w in
  let '(w2, rb) := b w1 in
  (w2, match ra, rb with
       | Ok x, Ok y => Ok (x, y)
       | Throw e, _ => Throw e
       | _, Throw e => Throw e
       end).

Lemma act_bind_ok {World A B} (m : act World A) (f : A -> act World B) w w' b :
  (m ≫= f) w = (w', Ok b) <-> exists w1 a, m w = (w1, Ok a) /\ f a w1 = (w', Ok b).
Proof.
  unfold mbind, act_bind. destruct (m w) as [w1 [a|e]]; split.
  - intros E. by exists w1, a.
  - by intros (w2 & a2 & [= -> ->] & ?).
  - done.
  - by intros (w2 & a2 & ? & ?).
Qed.

(** How an operation ends: returning into [Q], or throwing into [E]. *)
Definition ends {World A} (m : act World A) (w : World) (Q : A -> World -> Prop) (E : World -> Prop) : Prop :=
  match m w with
  | (w', Ok a) => Q a w'
  | (w', Throw _) => E w'
  end.

Lemma ends_bind {World A B} (m : act World A) (f : A -> act World B) w
  (Q : A -> World -> Prop) (Q' : B -> World -> Prop) (E : World -> Prop) :
  ends m w Q E -> (forall a w', Q a w' -> ends (f a) w' Q' E) -> ends (m ≫= f) w Q' E.
Proof.
  intros Hm Hf. unfold ends, mbind, act_bind in *. destruct (m w) as [w1 [a|e]]; [by apply Hf|exact Hm].
Qed.

Lemma ends_weaken {World A} (m : act World A) w (Q Q' : A -> World -> Prop) (E E' : World -> Prop) :
  ends m w Q E -> (forall a w', Q a w' -> Q' a w') -> (forall w', E w' -> E' w') -> ends m w Q' E'.
Proof. unfold ends. destruct (m w) as [w1 [a|e]]; auto. Qed.

(** ** node:path *)

Definition slash : N := 47.

(** [path.isAbsolute] *)
Definition isAbsolute (path : text) : bool := starts_with slash path.

(** The segments of a path without its empty and dot segments, [..] taking back
    the one before it. *)
Definition push_segment (segments : list text) (segment : text) : list text :=
  if (segment === []) || (segment === txt ".") then segments
  else if segment === txt ".." then removelast segments
  else segments ++ [segment].

Definition segments_of (path : text) : list text := foldl push_segment [] (split_on slash path).

Definition absolute_path (segments : list text) : text := slash :: join_with slash segments.

(** [path.resolve(...parts)] in the working directory [cwd]: the parts are put
    together from the right until the path is absolute. *)
Fixpoint resolve_from (cwd : text) (reversed : list text) (resolved : text) : text :=
  match reversed with
  | [] => cwd ++ slash :: resolved
  | part :: rest =>
      if part === [] then resolve_from cwd rest resolved
      else if isAbsolute part then part ++ slash :: resolved
      else resolve_from cwd rest (part ++ slash :: resolved)
  end.

Definition resolve (cwd : text) (parts : list text) : text :=
  absolute_path (segments_of (resolve_from cwd (rev parts) [])).

(** The end of the directory part: the units after the first are read from the
    right; slashes at the end do not count. *)
Fixpoint dirname_end (reversed : text) (matched : bool) : option nat :=
  match reversed with
  | [] => None
  | c :: rest =>
      if c =? slash then if matched then dirname_end rest matched else Some (S (length rest))
      else dirname_end rest false
  end%N.

(** [path.dirname] *)
Definition dirname (path : text) : text :=
  match path with
  | [] => txt "."
  | c :: rest =>
      let hasRoot := (c =? slash)%N in
      match dirname_end (rev rest) true with
      | None => if hasRoot then txt "/" else txt "."
      | Some e => if hasRoot && Nat.eqb e 1 then txt "//" else take e path
      end
  end.

Fixpoint drop_slashes (s : text) : text :=
  match s with
  | c :: r => if (c =? slash)%N then drop_slashes r else s
  | [] => []
  end.

(** [path.basename] *)
Definition basename (path : text) : text :=
  List.last (split_on slash (rev (drop_slashes (rev path)))) [].

(** ** Canonical locations *)

(** Source: packages/workspace/src/paths.ts:14-27 [isUnresolvableComponentError]. *)
Definition isUnresolvableComponentError (error : ws_fault) : bool :=
  match error with
  | SystemError (Some code) =>
      (code === txt "ENOENT") || (code === txt "ENOTDIR") || (code === txt "EACCES") ||
      (code === txt "EPERM")
  | _ => false
  end.

Section Paths.
Context {World : Type}.
(** The working directory of the process, the file system's [realpath], and the
    lower case of a text. *)
Context (cwd : text) (realpath : text -> act World text) (toLowerCase : text -> text).

(** Each round of the loop looks at one ancestor.
    Source: packages/workspace/src/paths.ts:43-61 [canonicalizePath, loop]. *)
Fixpoint canonicalize_loop (fuel : nat) (absolute : text) (pendingComponents : list text)
  (candidate : text) : act World text :=
  match fuel with
  | O => act_throw Endless
  | S fuel =>
      act_catch
        (resolved ← realpath candidate;
         mret (if pendingComponents === [] then resolved
               else resolve cwd (resolved :: pendingComponents)))
        (fun error =>
           if negb (isUnresolvableComponentError error) then act_throw error
           else
             let parent := dirname candidate in
             if parent === candidate then mret absolute
             else canonicalize_loop fuel absolute (basename candidate :: pendingComponents) parent)
  end.

(** Source: packages/workspace/src/paths.ts:39-62 [canonicalizePath]. *)
Definition canonicalizePath (path : text) : act World text :=
  let absolute := resolve cwd [path] in
  canonicalize_loop (S (length absolute)) absolute [] absolute.

(** Source: packages/workspace/src/paths.ts:10-12 [isCaseInsensitivePlatform]. *)
Definition isCaseInsensitivePlatform (platform : text) : bool :=
  (platform === txt "win32") || (platform === txt "darwin").

(** Source: packages/workspace/src/paths.ts:69-81 [canonicalPathsEqual]. *)
Definition canonicalPathsEqual (left right platform : text) : bool :=
  (left === right) ||
  (isCaseInsensitivePlatform platform && (toLowerCase left === toLowerCase right)).

(** Source: packages/workspace/src/paths.ts:84-95 [isSamePath]. *)
Definition isSamePath (left right platform : text) : act World bool :=
  '(canonicalLeft, canonicalRight) ← act_both (canonicalizePath left) (canonicalizePath right);
  mret (canonicalPathsEqual canonicalLeft canonicalRight platform).
End Paths.

(** ** Facts about paths *)

Lemma dirname_end_bound r : forall matched e, dirname_end r matched = Some e ->
  1 <= e /\ e + (if matched then 1 else 0) <= length r.
Proof.
  induction r as [|c r IH]; intros matched e E; [done|]. cbn [dirname_end] in E. cbn [length].
  destruct (c =? slash)%N.
  - destruct matched; [apply IH in E; lia|]. injection E as <-. lia.
  - apply IH in E. destruct matched; lia.
Qed.

(** The directory of an absolute path is absolute, and shorter unless it is the root. *)
Lemma dirname_shrinks path : isAbsolute path = true ->
  isAbsolute (dirname path) = true /\ (dirname path = path \/ length (dirname path) < length path).
Proof.
  destruct path as [|c rest]; [done|]. cbn [isAbsolute starts_with dirname]. intros Hc. rewrite Hc.
  apply N.eqb_eq in Hc as ->. destruct (dirname_end (rev rest) true) as [e|] eqn:E.
  - apply dirname_end_bound in E as [H1 H2]. rewrite length_rev in H2. cbn [andb].
    destruct (Nat.eqb_spec e 1) as [->|He]; [split; [done|right; cbn; lia]|].
    destruct e as [|e]; [lia|]. cbn [take]. split; [done|]. right. cbn [length].
    rewrite length_take. lia.
  - split; [done|]. destruct rest; [by left|right; cbn; lia].
Qed.

Definition segment (s : text) : Prop := s <> [] /\ slash ∉ s.
#[export] Instance segment_dec s : Decision (segment s) := _.

Lemma split_on_free c s : Forall (fun p => c ∉ p) (split_on c s).
Proof.
  induction s as [|x s IH]; simpl; [constructor; [apply not_elem_of_nil|done]|].
  destruct (N.eqb_spec x c) as [->|Hx]; [constructor; [apply not_elem_of_nil|done]|].
  destruct (split_on c s) as [|p ps]; [constructor; [|done]|].
  - rewrite list_elem_of_singleton. congruence.
  - inversion_clear IH. constructor; [|done]. rewrite not_elem_of_cons. by split; [congruence|].
Qed.

Lemma push_segments parts acc : Forall segment acc -> Forall (fun p => slash ∉ p) parts ->
  Forall segment (foldl push_segment acc parts).
Proof.
  intros Hacc Hparts. revert acc Hacc. induction Hparts as [|p ps Hp Hps IH]; intros acc Hacc; [done|].
  cbn [foldl]. apply IH. unfold push_segment.
  destruct (p === []) eqn:E; [done|]. cbn [orb]. destruct (p === txt "."); [done|].
  destruct (p === txt "..").
  - clear -Hacc. induction Hacc as [|x l Hx Hl IH]; [done|]. cbn [removelast]. destruct l; [done|by constructor].
  - apply Forall_app. split; [done|]. apply Forall_singleton. bool_hyps. by split.
Qed.

(** [resolve] gives the path of good segments. *)
Lemma resolve_segments cwd parts : exists segments, Forall segment segments /\
  resolve cwd parts = absolute_path segments.
Proof. eexists. split; [|done]. apply push_segments; [done|apply split_on_free]. Qed.

Lemma dirname_end_free s r : slash ∉ s -> s <> [] ->
  dirname_end (rev s ++ r) true = dirname_end r false.
Proof.
  intros Hs Hne. assert (forall l m, slash ∉ l -> (m = true -> l <> []) ->
    dirname_end (l ++ r) m = dirname_end r false) as H.
  { induction l as [|x l IH]; intros m Hl Hm.
    - destruct m; [by destruct (Hm eq_refl)|done].
    - apply not_elem_of_cons in Hl as [Hx Hl]. cbn [app dirname_end].
      rewrite (proj2 (N.eqb_neq x slash)) by congruence. by apply IH. }
  apply H; [by rewrite elem_of_rev|]. intros _ E. apply (f_equal (@rev N)) in E.
  rewrite rev_involutive in E. done.
Qed.

Lemma join_with_snoc c parts s : parts <> [] ->
  join_with c (parts ++ [s]) = join_with c parts ++ c :: s.
Proof.
  induction parts as [|p parts IH]; [done|]. intros _. destruct parts as [|q parts]; [done|].
  cbn [app join_with] in IH |- *. rewrite IH by done. by rewrite <- app_assoc.
Qed.

Lemma join_with_positive parts : parts <> [] -> Forall segment parts -> join_with slash parts <> [].
Proof.
  destruct parts as [|p ps]; [done|]. intros _ [[Hp _] _]%Forall_cons E.
  destruct ps; cbn in E; [done|]. by destruct p.
Qed.

Lemma dirname_snoc segments s : Forall segment segments -> segment s ->
  dirname (absolute_path (segments ++ [s])) = absolute_path segments.
Proof.
  intros Hall [Hne Hs]. unfold absolute_path, dirname. rewrite N.eqb_refl.
  destruct (decide (segments = [])) as [->|Hnil].
  - cbn [app join_with]. rewrite <- (app_nil_r (rev s)), dirname_end_free by done. done.
  - rewrite join_with_snoc by done.
    rewrite rev_app_distr. cbn [rev]. rewrite <- app_assoc, dirname_end_free by done.
    cbn [app dirname_end]. rewrite N.eqb_refl, length_rev.
    pose proof (join_with_positive segments Hnil Hall) as Hj.
    destruct (join_with slash segments) as [|x j]; [done|]. cbn [length Nat.eqb andb take].
    by rewrite take_app_length' by done.
Qed.

Lemma drop_slashes_free s r : slash ∉ s -> s <> [] -> drop_slashes (rev s ++ r) = rev s ++ r.
Proof.
  intros Hs Hne. destruct (rev s) as [|x l] eqn:E.
  { apply (f_equal (@rev N)) in E. rewrite rev_involutive in E. done. }
  cbn [app drop_slashes]. assert (x ∈ s) as Hx by (rewrite <- elem_of_rev, E; apply list_elem_of_here).
  rewrite (proj2 (N.eqb_neq x slash)); [done|]. by intros ->.
Qed.

Lemma split_on_app_gen c p s : split_on c (p ++ c :: s) = split_on c p ++ split_on c s.
Proof.
  induction p as [|x p IH]; simpl; [by rewrite N.eqb_refl|]. destruct (x =? c)%N; [by rewrite IH|].
  rewrite IH. pose proof (split_on_nonempty c p). by destruct (split_on c p).
Qed.

Lemma basename_snoc segments s : segment s ->
  basename (absolute_path (segments ++ [s])) = s.
Proof.
  intros [Hne Hs]. unfold basename, absolute_path.
  assert (exists p, slash :: join_with slash (segments ++ [s]) = p ++ slash :: s) as [p ->].
  { destruct (decide (segments = [])) as [->|Hnil]; [by exists []|].
    rewrite join_with_snoc by done. by exists (slash :: join_with slash segments). }
  rewrite rev_app_distr. cbn [rev]. rewrite <- app_assoc, drop_slashes_free by done.
  rewrite rev_app_distr, rev_involutive. cbn [rev]. rewrite rev_app_distr, rev_involutive. cbn [rev app].
  rewrite <- app_assoc. cbn [app]. rewrite split_on_app_gen, (split_on_none slash s) by done.
  apply List.last_last.
Qed.

(** ** Theorems *)

Section Canonical.
Context {World : Type} (cwd : text) (realpath : text -> act World text).

Lemma canonicalize_loop_ends fuel absolute pending candidate w :
  (forall path w, (realpath path w).2 <> Throw Endless) ->
  isAbsolute candidate = true -> length candidate < fuel ->
  (canonicalize_loop cwd realpath fuel absolute pending candidate w).2 <> Throw Endless.
Proof.
  intros Hreal. revert pending candidate w.
  induction fuel as [|fuel IH]; intros pending candidate w Ha Hf; [lia|].
  cbn [canonicalize_loop]. unfold act_catch, mbind, act_bind. specialize (Hreal candidate w).
  destruct (realpath candidate w) as [w1 [resolved|e]]; [done|]. cbn [snd] in Hreal.
  destruct (isUnresolvableComponentError e); [|cbn; congruence]. cbn [negb].
  destruct (dirname_shrinks candidate Ha) as [Hd Hl].
  destruct (dirname candidate === candidate) eqn:E; [done|]. bool_hyps.
  destruct Hl as [Hl|Hl]; [done|]. apply IH; [done|lia].
Qed.

(** Canonicalizing a path comes to an end: whatever the file system answers,
    the loop stops after at most one round for every unit of the path. *)
Theorem canonicalize_terminates path w :
  (forall path w, (realpath path w).2 <> Throw Endless) ->
  (canonicalizePath cwd realpath path w).2 <> Throw Endless.
Proof.
  intros Hreal. apply canonicalize_loop_ends; [done| |lia].
  by destruct (resolve_segments cwd [path]) as (segments & _ & ->).
Qed.

(** The file system as a function of the path. *)
Context (real : text -> result ws_fault text).
Hypothesis realpath_real : forall path w, realpath path w = (w, real path).

Lemma canonicalize_loop_deepest absolute missing : forall fuel pending known resolved w,
  Forall segment known -> Forall segment missing ->
  length missing < fuel ->
  real (absolute_path known) = Ok resolved ->
  (forall m, 0 < m <= length missing -> exists e,
     real (absolute_path (known ++ take m missing)) = Throw e /\ isUnresolvableComponentError e = true) ->
  canonicalize_loop cwd realpath fuel absolute pending (absolute_path (known ++ missing)) w =
    (w, Ok (if missing ++ pending === [] then resolved else resolve cwd (resolved :: missing ++ pending))).
Proof.
  induction missing as [|s missing IH] using rev_ind;
    intros fuel pending known resolved w Hk Hm Hf Hr Hmiss; (destruct fuel as [|fuel]; [lia|]);
    cbn [canonicalize_loop]; unfold act_catch, mbind, act_bind; rewrite realpath_real.
  { rewrite app_nil_r, Hr. done. }
  rewrite length_app in Hf, Hmiss. cbn [length] in Hf, Hmiss.
  apply Forall_app in Hm as [Hm [Hs _]%Forall_cons].
  destruct (Hmiss (length missing + 1)) as (e & He & Hu); [lia|].
  rewrite take_ge in He by (rewrite length_app; cbn; lia). rewrite He, Hu. cbn [negb].
  rewrite app_assoc, dirname_snoc, basename_snoc by (done || by apply Forall_app).
  rewrite bool_decide_eq_false_2.
  - rewrite (IH fuel (s :: pending) known resolved w); try done; [by rewrite <- app_assoc|lia|].
    intros m [H1 H2]. destruct (Hmiss m) as (e' & He' & Hu'); [lia|]. exists e'. split; [|done].
    by rewrite take_app_le in He' by lia.
  - intros Heq. apply (f_equal (@length N)) in Heq. unfold absolute_path in Heq.
    destruct (decide (known ++ missing = [])) as [En|En].
    + rewrite En in Heq. cbn in Heq. destruct Hs as [Hs _]. by destruct s.
    + rewrite join_with_snoc in Heq by done. cbn in Heq. rewrite length_app in Heq. cbn in Heq. lia.
Qed.

Lemma length_join_with segments : Forall segment segments ->
  length segments <= length (join_with slash segments).
Proof.
  induction 1 as [|s l [Hs _] Hl IH]; [done|]. destruct l as [|t l].
  - destruct s; [done|]. cbn. lia.
  - change (join_with slash (s :: t :: l)) with (s ++ slash :: join_with slash (t :: l)).
    rewrite length_app. cbn [length] in IH |- *. lia.
Qed.

(** The canonical form of a path that does not exist yet follows the deepest
    ancestor that does: when the first [n] segments of the absolute path resolve
    and no longer part of it can be resolved, the result is where they resolve to
    with exactly the remaining segments after it. *)
Theorem canonicalize_deepest path segments n resolved w :
  resolve cwd [path] = absolute_path segments -> Forall segment segments ->
  n <= length segments -> real (absolute_path (take n segments)) = Ok resolved ->
  (forall m, n < m <= length segments -> exists e,
     real (absolute_path (take m segments)) = Throw e /\ isUnresolvableComponentError e = true) ->
  canonicalizePath cwd realpath path w =
    (w, Ok (if drop n segments === [] then resolved else resolve cwd (resolved :: drop n segments))).
Proof.
  intros Hp Hall Hn Hr Hmiss. unfold canonicalizePath. rewrite Hp.
  pose proof (canonicalize_loop_deepest (absolute_path segments) (drop n segments)
    (S (length (absolute_path segments))) [] (take n segments) resolved w) as H.
  rewrite take_drop in H. rewrite H; clear H.
  - by rewrite app_nil_r.
  - by apply Forall_take.
  - by apply Forall_drop.
  - unfold absolute_path. cbn [length]. pose proof (length_join_with segments Hall).
    rewrite length_drop. lia.
  - done.
  - intros m [H1 H2]. rewrite length_drop in H2. destruct (Hmiss (n + m)) as (e & He & Hu); [lia|].
    exists e. split; [|done]. rewrite <- He. f_equal. f_equal. apply take_take_drop.
Qed.
End Canonical.

(** A file system in which /home is a link to /data and holds nothing. *)
Definition demo_real (path : text) : result ws_fault text :=
  if path === txt "/" then Ok (txt "/")
  else if path === txt "/home" then Ok (txt "/data")
  else Throw (SystemError (Some (txt "ENOENT"))).
Definition demo_realpath (path : text) : act unit text := fun w => (w, demo_real path).

Lemma canonicalize_terminates_witness :
  (forall path w, (demo_realpath path w).2 <> Throw Endless) /\
  (canonicalizePath (txt "/") demo_realpath (txt "home/a//../b") tt).2 <> Throw Endless.
Proof.
  assert (forall path w, (demo_realpath path w).2 <> Throw Endless) as H.
  { intros path w. unfold demo_realpath, demo_real. by repeat case_match. }
  split; [exact H|]. exact (canonicalize_terminates (txt "/") demo_realpath (txt "home/a//../b") tt H).
Defined.

Lemma canonicalize_deepest_witness :
  resolve (txt "/") [txt "home/a//../b"] = absolute_path [txt "home"; txt "b"] /\
  canonicalizePath (txt "/") demo_realpath (txt "home/a//../b") tt =
    (tt, Ok (resolve (txt "/") [txt "/data"; txt "b"])).
Proof.
  assert (resolve (txt "/") [txt "home/a//../b"] = absolute_path [txt "home"; txt "b"]) as H
    by (vm_compute; reflexivity).
  split; [exact H|].
  refine (canonicalize_deepest (txt "/") demo_realpath demo_real (fun path w => eq_refl)
            (txt "home/a//../b") [txt "home"; txt "b"] 1 (txt "/data") tt H _ _ eq_refl _).
  - apply (bool_decide_unpack _). vm_compute. exact I.
  - cbn. lia.
  - intros m [H1 H2]. assert (m = 2) as -> by (cbn in H2; lia).
    exists (SystemError (Some (txt "ENOENT"))). split; vm_compute; reflexivity.
Defined.
