(* ===== verification/Git.v ===== *)
(** The Git service: packages/workspace/src/git.ts.

    Git itself, the file system and the clock are outside: the service is given a
    command runner and the few file operations it uses.  What it asks of them, in
    which order, and what it makes of the answers is modelled, over full UTF-16
    text. *)

From Stdlib Require Import ZArith NArith Lia Ascii.
From stdpp Require Import base strings list.
From S2P Require Import Prelude JsNumber JsText JsDecimal JsCollections Paths.

Open Scope string_scope.
Open Scope list_scope.

(** ** Text *)

(** [s.startsWith(prefix)] and what follows the prefix. *)
Fixpoint strip_prefix (prefix s : text) : option text :=
  match prefix, s with
  | [], _ => Some s
  | c :: prefix, d :: s => if (c =? d)%N then strip_prefix prefix s else None
  | _ :: _, [] => None
  end.
Definition has_prefix (prefix s : text) : bool :=
  match strip_prefix prefix s with Some _ => true | None => false end.

(** [s.includes(part)] *)
Fixpoint includes (part s : text) : bool :=
  has_prefix part s || match s with [] => false | _ :: r => includes part r end.

Fixpoint drop_while (p : N -> bool) (s : text) : text :=
  match s with
  | c :: r => if p c then drop_while p r else s
  | [] => []
  end.
Definition drop_end (p : N -> bool) (s : text) : text := rev (drop_while p (rev s)).

(** [s.trim()] *)
Definition trim (s : text) : text := drop_end is_space (drop_while is_space s).

Definition carriage : N := 13.
Definition is_line_end (c : N) : bool := (c =? newline)%N || (c =? carriage)%N.

(** [s.split(/\r?\n/u)]: every part but the last loses a carriage return. *)
Fixpoint chomp_parts (parts : list text) : list text :=
  match parts with
  | [] => []
  | [p] => [p]
  | p :: ps => (if ends_with carriage p then removelast p else p) :: chomp_parts ps
  end.
Definition split_lines (s : text) : list text := chomp_parts (split_on newline s).

Definition nonempty (s : text) : bool := negb (bool_decide (s = [])).

(** [s.split(/\s+/u).filter((value) => value.length > 0)] *)
Fixpoint words_from (current : text) (s : text) : list text :=
  match s with
  | [] => [current]
  | c :: r => if is_space c then current :: words_from [] r else words_from (current ++ [c]) r
  end.
Definition words (s : text) : list text := List.filter nonempty (words_from [] s).

(** ** Status *)

(** Source: packages/workspace/src/git.ts:11-12 [GitStatusEntryKind]. *)
Inductive GitStatusEntryKind : Type :=
| sk_ordinary | sk_renamed_or_copied | sk_unmerged | sk_untracked | sk_ignored.
#[export] Instance GitStatusEntryKind_eq_dec : EqDecision GitStatusEntryKind.
Proof. solve_decision. Defined.

(** Source: packages/workspace/src/git.ts:14-22 [GitStatusEntry]. *)
Record GitStatusEntry := {
  st_kind : GitStatusEntryKind;
  st_path : text;
  st_originalPath : option text;
  st_indexStatus : text;
  st_worktreeStatus : text }.

(** Source: packages/workspace/src/git.ts:121-123 [trimOutput]. *)
Definition trimOutput (value : text) : text := drop_end is_line_end value.

Definition malformed (context : text) : ws_fault :=
  GitSnapshotError (txt "Malformed Git output while parsing " ++ context ++ txt ".").

(** Source: packages/workspace/src/git.ts:132-144 [requireField]. *)
Definition requireField (fields : list text) (index : nat) (context : text) : result ws_fault text :=
  match fields !! index with
  | Some (c :: r) => Ok (c :: r)
  | _ => Throw (malformed context)
  end.

(** [s.charAt(index)] *)
Definition char_at (s : text) (index : nat) : text :=
  match s !! index with Some c => [c] | None => [] end.

(** Source: packages/workspace/src/git.ts:148-150 [normalizeStatusCharacter]. *)
Definition normalizeStatusCharacter (value : text) : text :=
  if value === txt "." then txt " " else value.

(** The loop over the fields; what is left of the record is the tail.
    Source: packages/workspace/src/git.ts:158-169 [splitFieldsAndTail, loop]. *)
Fixpoint split_fields (fieldCount : nat) (context : text) (record : text)
  : result ws_fault (list text * text) :=
  match fieldCount with
  | O => Ok ([], record)
  | S fieldCount =>
      match index_of (ch " ") record with
      | None => Throw (malformed context)
      | Some separator =>
          '(fields, tail) ← split_fields fieldCount context (drop (S separator) record);
          Ok (take separator record :: fields, tail)
      end
  end.

(** Source: packages/workspace/src/git.ts:153-177 [splitFieldsAndTail]. *)
Definition splitFieldsAndTail (record : text) (fieldCount : nat) (context : text)
  : result ws_fault (list text * text) :=
  '(fields, tail) ← split_fields fieldCount context record;
  if tail === [] then Throw (malformed context) else Ok (fields, tail).

Definition entry (kind : GitStatusEntryKind) (path : text) (originalPath : option text) (xy : text)
  : GitStatusEntry :=
  {| st_kind := kind; st_path := path; st_originalPath := originalPath;
     st_indexStatus := normalizeStatusCharacter (char_at xy 0);
     st_worktreeStatus := normalizeStatusCharacter (char_at xy 1) |}.

(** A record with [fieldCount] fields before its path. *)
Definition parse_fields (kind : GitStatusEntryKind) (fieldCount : nat) (context record : text)
  (originalPath : option text) : result ws_fault GitStatusEntry :=
  '(fields, tail) ← splitFieldsAndTail record fieldCount context;
  xy ← requireField fields 1 context;
  Ok (entry kind tail originalPath xy).

(** [record.startsWith(marker)] chooses the form of a record; a rename takes the
    next record as its source.
    Source: packages/workspace/src/git.ts:183-261 [parsePorcelainV2, loop]. *)
Fixpoint parse_records (records : list text) : result ws_fault (list GitStatusEntry) :=
  match records with
  | [] => Ok []
  | [] :: rest => parse_records rest
  | record :: rest =>
      if has_prefix (txt "1 ") record then
        status ← parse_fields sk_ordinary 8 (txt "ordinary status") record None;
        entries ← parse_records rest;
        Ok (status :: entries)
      else if has_prefix (txt "2 ") record then
        '(fields, tail) ← splitFieldsAndTail record 9 (txt "rename/copy status");
        xy ← requireField fields 1 (txt "rename/copy status");
        match rest with
        | [] | [] :: _ =>
            Throw (GitSnapshotError
              (txt "Malformed Git output: rename/copy source path is missing."))
        | originalPath :: rest =>
            entries ← parse_records rest;
            Ok (entry sk_renamed_or_copied tail (Some originalPath) xy :: entries)
        end
      else if has_prefix (txt "u ") record then
        status ← parse_fields sk_unmerged 10 (txt "unmerged status") record None;
        entries ← parse_records rest;
        Ok (status :: entries)
      else if has_prefix (txt "? ") record then
        entries ← parse_records rest;
        Ok ({| st_kind := sk_untracked; st_path := drop 2 record; st_originalPath := None;
               st_indexStatus := txt "?"; st_worktreeStatus := txt "?" |} :: entries)
      else if has_prefix (txt "! ") record then
        entries ← parse_records rest;
        Ok ({| st_kind := sk_ignored; st_path := drop 2 record; st_originalPath := None;
               st_indexStatus := txt "!"; st_worktreeStatus := txt "!" |} :: entries)
      else Throw (GitSnapshotError (txt "Unsupported Git porcelain v2 record: " ++ take 24 record))
  end.

(** Source: packages/workspace/src/git.ts:179-262 [parsePorcelainV2]. *)
Definition parsePorcelainV2 (raw : text) : result ws_fault (list GitStatusEntry) :=
  parse_records (split_on 0%N raw).

(** ** Refs *)

(** Source: packages/workspace/src/git.ts:117-119 [PRIVATE_REF_PREFIX]. *)
Definition PRIVATE_REF_PREFIX : text := txt "refs/ottili/coder/".

Definition is_ref_unit (c : N) : bool := is_alnum c || one_of "._-" c.

(** Source: packages/workspace/src/git.ts:264-274 [assertRefComponent]. *)
Definition assertRefComponent (value name : text) : result ws_fault unit :=
  throw_if (negb (class_token is_alnum is_ref_unit value && Nat.leb (length value) 128) ||
            includes (txt "..") value || ends_with (ch ".") value)
    (GitSnapshotError (name ++ txt " must be a safe, non-empty Git ref component.")).

(** Source: packages/workspace/src/git.ts:276-294 [assertPrivateRef]. *)
Definition assertPrivateRef (ref : text) : result ws_fault unit :=
  _ ← throw_if (negb (has_prefix PRIVATE_REF_PREFIX ref))
        (GitSnapshotError (txt "Checkpoint refs must be below " ++ PRIVATE_REF_PREFIX ++ txt "."));
  let components := split_on slash ref in
  _ ← throw_if (Nat.ltb (length components) 5 || (components !! 0%nat !== Some (txt "refs")) ||
                (components !! 1%nat !== Some (txt "ottili")))
        (GitSnapshotError (txt "Checkpoint ref has an invalid shape."));
  for_each (fun component => assertRefComponent component (txt "Checkpoint ref")) (drop 2 components).

(** Source: packages/workspace/src/git.ts:324-332 [checkpointRefFor]. *)
Definition checkpointRefFor (runId : text) (sequence : num) : result ws_fault text :=
  _ ← assertRefComponent runId (txt "runId");
  _ ← throw_if (negb (isSafeInteger sequence) || js_lt sequence (ofZ 0))
        (GitSnapshotError (txt "Checkpoint sequence must be a non-negative safe integer."));
  Ok (PRIVATE_REF_PREFIX ++ runId ++ txt "/checkpoint/" ++ String_number (plain sequence)).

(** Source: packages/workspace/src/git.ts:335-342 [recoverySnapshotRefFor]. *)
Definition recoverySnapshotRefFor (runId restoreId : text) : result ws_fault text :=
  _ ← assertRefComponent runId (txt "runId");
  _ ← assertRefComponent restoreId (txt "restoreId");
  Ok (PRIVATE_REF_PREFIX ++ runId ++ txt "/recovery/" ++ restoreId).

(** ** Environments *)

Definition environment : Type := jsmap text text.

(** [{ ...base, ...overrides }] *)
Definition spread (base overrides : environment) : environment :=
  foldl (fun env '(name, value) => jm_set env name value) base overrides.

(** The variables that redirect Git. *)
Definition REDIRECTS : list text :=
  [txt "GIT_DIR"; txt "GIT_WORK_TREE"; txt "GIT_COMMON_DIR"; txt "GIT_INDEX_FILE";
   txt "GIT_NAMESPACE"].

Section Environments.
(** The environment of the process. *)
Context (process_env : environment).

(** Source: packages/workspace/src/git.ts:296-307 [gitEnvironment]. *)
Definition gitEnvironment (overrides : environment) : environment :=
  spread (foldl jm_delete process_env REDIRECTS) overrides.

(** Source: packages/workspace/src/git.ts:309-321 [snapshotEnvironment]. *)
Definition snapshotEnvironment (indexPath : option text) : environment :=
  let env := spread (gitEnvironment [])
    [(txt "GIT_AUTHOR_NAME", txt "Ottili Coder");
     (txt "GIT_AUTHOR_EMAIL", txt "checkpoint@ottili.local");
     (txt "GIT_COMMITTER_NAME", txt "Ottili Coder");
     (txt "GIT_COMMITTER_EMAIL", txt "checkpoint@ottili.local")] in
  match indexPath with
  | None => env
  | Some indexPath => jm_set env (txt "GIT_INDEX_FILE") indexPath
  end.
End Environments.

(** ** The service *)

(** Source: packages/workspace/src/command.ts:6-10 [CommandOptions]. *)
Record CommandOptions := {
  co_cwd : text;
  co_env : environment;
  co_timeoutMs : option num }.

(** Source: packages/workspace/src/command.ts:12-15 [CommandResult]. *)
Record CommandResult := { cr_stdout : text; cr_stderr : text }.

(** Source: packages/workspace/src/git.ts:50-60 [GitCheckpointSnapshot]. *)
Record GitCheckpointSnapshot := {
  sn_ref : text;
  sn_commit : text;
  sn_baseCommit : text;
  sn_indexCommit : text;
  sn_capturedAt : text }.
#[export] Instance GitCheckpointSnapshot_eq_dec : EqDecision GitCheckpointSnapshot.
Proof. solve_decision. Defined.

(** Source: packages/workspace/src/git.ts:24-34 [GitStatus]. *)
Record GitStatus := {
  gs_repositoryRoot : text;
  gs_head : option text;
  gs_branch : option text;
  gs_entries : list GitStatusEntry;
  gs_isDirty : bool;
  gs_hasStagedChanges : bool;
  gs_hasUnstagedChanges : bool;
  gs_hasUntrackedFiles : bool;
  gs_hasConflicts : bool }.

(** Source: packages/workspace/src/git.ts:36-40 [GitBranch]. *)
Record GitBranch := { br_name : text; br_commit : text; br_isCurrent : bool }.

(** Source: packages/workspace/src/git.ts:42-48 [RepositoryIdentity]. *)
Record RepositoryIdentity := {
  ri_root : text;
  ri_gitDirectory : text;
  ri_head : option text;
  ri_branch : option text;
  ri_remotes : jsmap text text }.

(** What the service is made with and what it uses of the system.
    Source: packages/workspace/src/git.ts:349-362 [GitService]. *)
Record GitHost (Outside : Type) := {
  gh_cwd : text;
  gh_workspacePath : text;
  gh_gitExecutable : text;
  gh_commandTimeoutMs : option num;
  gh_process_env : environment;
  gh_run : text -> list text -> CommandOptions -> act Outside CommandResult;
  gh_mkdtemp : act Outside text;
  gh_copyFile : text -> text -> act Outside unit;
  gh_rm : text -> act Outside unit;
  gh_now : act Outside text (* new Date().toISOString() *) }.
Arguments gh_cwd {Outside}.
Arguments gh_workspacePath {Outside}.
Arguments gh_gitExecutable {Outside}.
Arguments gh_commandTimeoutMs {Outside}.
Arguments gh_process_env {Outside}.
Arguments gh_run {Outside}.
Arguments gh_mkdtemp {Outside}.
Arguments gh_copyFile {Outside}.
Arguments gh_rm {Outside}.
Arguments gh_now {Outside}.

(** Source: packages/workspace/src/git.ts:125-130 [commandExitCode]. *)
Definition commandExitCode (error : ws_fault) : option Z :=
  match error with
  | GitOperationError _ _ exitCode _ _ => exitCode
  | _ => None
  end.

(** Source: packages/workspace/src/git.ts:841-848 [isMissingFileError]. *)
Definition isMissingFileError (error : ws_fault) : bool :=
  match error with
  | SystemError (Some code) => code === txt "ENOENT"
  | _ => false
  end.

Definition null_if_missing (code : Z) (error : ws_fault) : bool := commandExitCode error === Some code.

Section Service.
Context {Outside : Type} (host : GitHost Outside).
(** [Number(text)] *)
Context (Number : text -> num).

(** The root the service has found, and the outside. *)
Definition git_world : Type := option text * Outside.

Definition outside {A} (m : act Outside A) : act git_world A := fun w =>
  let '(o, r) := m w.2 in ((w.1, o), r).

Definition git_env : environment -> environment := gitEnvironment (gh_process_env host).
Definition snapshot_env : option text -> environment := snapshotEnvironment (gh_process_env host).

(** Source: packages/workspace/src/git.ts:814-838 [GitService.runGit]. *)
Definition runGit (args : list text) (env : environment) : act git_world text :=
  act_catch
    (result ← outside (gh_run host (gh_gitExecutable host) args
       {| co_cwd := gh_workspacePath host; co_env := git_env env;
          co_timeoutMs := gh_commandTimeoutMs host |});
     mret (cr_stdout result))
    (fun error =>
       match error with
       | CommandExecutionError exitCode stdout stderr =>
           act_throw (GitOperationError (gh_workspacePath host) args exitCode stdout stderr)
       | error => act_throw error
       end).

Definition git (args : list text) : act git_world text := runGit args [].

(** Source: packages/workspace/src/git.ts:364-374 [GitService.isRepository]. *)
Definition isRepository : act git_world bool :=
  act_catch
    (output ← git [txt "rev-parse"; txt "--is-inside-work-tree"];
     mret (trimOutput output === txt "true"))
    (fun error => if commandExitCode error !== None then mret false else act_throw error).

(** Source: packages/workspace/src/git.ts:376-383 [GitService.getRepositoryRoot]. *)
Definition getRepositoryRoot : act git_world text := fun w =>
  match w.1 with
  | Some root => (w, Ok root)
  | None =>
      (output ← git [txt "rev-parse"; txt "--show-toplevel"];
       let root := resolve (gh_cwd host) [trimOutput output] in
       (fun w => ((Some root, w.2), Ok root)) : act git_world text) w
  end.

(** A path of Git's output, below the workspace when it is relative. *)
Definition located (output : text) : text :=
  if isAbsolute output then resolve (gh_cwd host) [output]
  else resolve (gh_cwd host) [gh_workspacePath host; output].

(** Source: packages/workspace/src/git.ts:385-390 [GitService.getGitDirectory]. *)
Definition getGitDirectory : act git_world text :=
  output ← git [txt "rev-parse"; txt "--git-dir"];
  mret (located (trimOutput output)).

(** The output of a query, or nothing when it fails with exit code 1. *)
Definition or_null (m : act git_world text) : act git_world (option text) :=
  act_catch (output ← m; mret (Some (trimOutput output)))
    (fun error => if null_if_missing 1 error then mret None else act_throw error).

(** Source: packages/workspace/src/git.ts:392-403 [GitService.getHeadCommit]. *)
Definition getHeadCommit : act git_world (option text) :=
  or_null (git [txt "rev-parse"; txt "--verify"; txt "--quiet"; txt "HEAD"]).

(** Source: packages/workspace/src/git.ts:405-416 [GitService.getCurrentBranch]. *)
Definition getCurrentBranch : act git_world (option text) :=
  or_null (git [txt "symbolic-ref"; txt "--quiet"; txt "--short"; txt "HEAD"]).

(** A half of the status that reports a change. *)
Definition is_change (status : text) : bool :=
  (status !== txt " ") && (status !== txt "?") && (status !== txt "!").

(** Source: packages/workspace/src/git.ts:418-450 [GitService.getStatus]. *)
Definition getStatus : act git_world GitStatus :=
  '(repositoryRoot, (head, (branch, rawStatus))) ←
    act_both getRepositoryRoot (act_both getHeadCommit (act_both getCurrentBranch
      (git [txt "status"; txt "--porcelain=v2"; txt "-z"; txt "--untracked-files=all"])));
  entries ← act_lift (parsePorcelainV2 rawStatus);
  mret {| gs_repositoryRoot := repositoryRoot; gs_head := head; gs_branch := branch;
          gs_entries := entries;
          gs_isDirty := existsb (fun entry => st_kind entry !== sk_ignored) entries;
          gs_hasStagedChanges := existsb (fun entry => is_change (st_indexStatus entry)) entries;
          gs_hasUnstagedChanges := existsb (fun entry => is_change (st_worktreeStatus entry)) entries;
          gs_hasUntrackedFiles := existsb (fun entry => st_kind entry === sk_untracked) entries;
          gs_hasConflicts := existsb (fun entry => st_kind entry === sk_unmerged) entries |}.

(** [value.replace(/^\r?\n/u, "")] *)
Definition strip_line_start (value : text) : text :=
  match value with
  | c :: r =>
      if (c =? newline)%N then r
      else match r with
           | d :: r' => if (c =? carriage)%N && (d =? newline)%N then r' else value
           | [] => value
           end
  | [] => []
  end.

(** The loop over three values at a time.
    Source: packages/workspace/src/git.ts:460-473 [GitService.listBranches, loop]. *)
Fixpoint branches_of (values : list text) : list GitBranch :=
  match values with
  | name :: commit :: marker :: values =>
      let name := strip_line_start name in
      if name === [] then branches_of values
      else {| br_name := name; br_commit := commit; br_isCurrent := trim marker === txt "*" |} ::
           branches_of values
  | _ => []
  end.

(** Source: packages/workspace/src/git.ts:452-475 [GitService.listBranches]. *)
Definition listBranches : act git_world (list GitBranch) :=
  raw ← git [txt "for-each-ref"; txt "--format=%(refname:short)%00%(objectname)%00%(HEAD)%00";
             txt "refs/heads"];
  mret (branches_of (split_on 0%N raw)).

(** Setting the property [__proto__] of an object to a text has no effect.
    Source: packages/workspace/src/git.ts:490-501 [GitService.getRepositoryIdentity, loop]. *)
Fixpoint read_remotes (names : list text) (remotes : jsmap text text) : act git_world (jsmap text text) :=
  match names with
  | [] => mret remotes
  | name :: names =>
      remotes ← act_catch
        (output ← git [txt "remote"; txt "get-url"; txt "--all"; name];
         mret (if name === txt "__proto__" then remotes
               else jm_set remotes name (hd [] (split_lines (trimOutput output)))))
        (fun error => if commandExitCode error === None then act_throw error else mret remotes);
      read_remotes names remotes
  end.

(** Source: packages/workspace/src/git.ts:477-503 [GitService.getRepositoryIdentity]. *)
Definition getRepositoryIdentity : act git_world RepositoryIdentity :=
  '(root, (gitDirectory, (head, (branch, rawRemotes)))) ←
    act_both getRepositoryRoot (act_both getGitDirectory (act_both getHeadCommit
      (act_both getCurrentBranch (git [txt "remote"]))));
  remotes ← read_remotes (List.filter nonempty (map trim (split_lines rawRemotes))) [];
  mret {| ri_root := root; ri_gitDirectory := gitDirectory; ri_head := head; ri_branch := branch;
          ri_remotes := remotes |}.

(** Source: packages/workspace/src/git.ts:505-514 [GitService.getDiff]. *)
Definition getDiff (staged : option bool) (pathspec : option (list text)) : act git_world text :=
  let args := [txt "diff"; txt "--no-ext-diff"; txt "--binary"] in
  let args := if staged === Some true then args ++ [txt "--cached"] else args in
  git (match pathspec with
       | Some (path :: paths) => args ++ txt "--" :: path :: paths
       | _ => args
       end).

(** Source: packages/workspace/src/git.ts:516-521 [GitService.stage]. *)
Definition stage (paths : list text) : act git_world unit :=
  if paths === [] then mret tt
  else _ ← git (txt "add" :: txt "--" :: paths); mret tt.

(** Source: packages/workspace/src/git.ts:523-528 [GitService.unstage]. *)
Definition unstage (paths : list text) : act git_world unit :=
  if paths === [] then mret tt
  else _ ← git (txt "restore" :: txt "--staged" :: txt "--" :: paths); mret tt.

(** Source: packages/workspace/src/git.ts:530-542 [GitService.commit]. *)
Definition commit (message : text) : act git_world text :=
  if trim message === [] then act_throw (GitSnapshotError (txt "Commit message cannot be empty."))
  else
    _ ← git [txt "commit"; txt "-m"; message];
    head ← getHeadCommit;
    match head with
    | None => act_throw (GitSnapshotError
                (txt "Git reported a successful commit without a HEAD commit."))
    | Some head => mret head
    end.

(** Source: packages/workspace/src/git.ts:544-549 [GitService.revert]. *)
Definition revert (commit : text) : act git_world unit :=
  if trim commit === [] then act_throw (GitSnapshotError (txt "Commit to revert cannot be empty."))
  else _ ← git [txt "revert"; txt "--no-edit"; commit]; mret tt.

(** Source: packages/workspace/src/git.ts:725-733 [GitService.requireHeadCommit]. *)
Definition requireHeadCommit : act git_world text :=
  head ← getHeadCommit;
  match head with
  | None => act_throw (GitSnapshotError
      (txt "Cannot create a workspace checkpoint before the repository has an initial commit."))
  | Some head => mret head
  end.

(** Source: packages/workspace/src/git.ts:735-742 [GitService.getIndexPath]. *)
Definition getIndexPath : act git_world text :=
  output ← git [txt "rev-parse"; txt "--git-path"; txt "index"];
  mret (located (trimOutput output)).

(** Source: packages/workspace/src/git.ts:744-758 [GitService.missingObjectId]. *)
Definition missingObjectId : act git_world text :=
  output ← git [txt "rev-parse"; txt "--show-object-format"];
  let objectFormat := trimOutput output in
  if objectFormat === txt "sha1" then mret (replicate 40 (ch "0"))
  else if objectFormat === txt "sha256" then mret (replicate 64 (ch "0"))
  else act_throw (GitSnapshotError
         (txt "Unsupported Git object format '" ++ objectFormat ++ txt "' for checkpoint refs.")).

(** Source: packages/workspace/src/git.ts:801-812 [GitService.createSnapshotCommit]. *)
Definition createSnapshotCommit (tree : text) (parents : list text) (message : text)
  : act git_world text :=
  output ← runGit ([txt "commit-tree"; tree] ++ flat_map (fun parent => [txt "-p"; parent]) parents ++
                   [txt "-m"; message]) (snapshot_env None);
  mret (trimOutput output).

(** The index the snapshot is built in: a copy of the repository's, or HEAD where
    there is none.
    Source: packages/workspace/src/git.ts:582-589 [GitService.captureWorkspaceSnapshot, index]. *)
Definition prepare_index (head indexPath temporaryIndexPath : text) (env : environment)
  : act git_world unit :=
  act_catch (outside (gh_copyFile host indexPath temporaryIndexPath))
    (fun error =>
       if negb (isMissingFileError error) then act_throw error
       else _ ← runGit [txt "read-tree"; head] env; mret tt).

(** The temporary index is the file [index] of the temporary directory.
    Source: packages/workspace/src/git.ts:566-626 [GitService.captureWorkspaceSnapshot]. *)
Definition captureWorkspaceSnapshot (ref : text) (message : option text)
  : act git_world GitCheckpointSnapshot :=
  _ ← act_lift (assertPrivateRef ref);
  '(head, indexPath) ← act_both requireHeadCommit getIndexPath;
  indexTree ← git [txt "write-tree"];
  temporaryDirectory ← outside (gh_mkdtemp host);
  let temporaryIndexPath := temporaryDirectory ++ txt "/index" in
  let temporaryEnvironment := snapshot_env (Some temporaryIndexPath) in
  act_finally
    (_ ← prepare_index head indexPath temporaryIndexPath temporaryEnvironment;
     _ ← runGit [txt "add"; txt "-A"] temporaryEnvironment;
     workspaceTree ← runGit [txt "write-tree"] temporaryEnvironment;
     indexCommit ← createSnapshotCommit (trimOutput indexTree) [head]
                     (txt "Ottili checkpoint index snapshot");
     commit ← createSnapshotCommit (trimOutput workspaceTree) [head; indexCommit]
                (message ?? txt "Ottili workspace checkpoint");
     missing ← missingObjectId;
     _ ← git [txt "update-ref"; ref; commit; missing];
     capturedAt ← outside (gh_now host);
     mret {| sn_ref := ref; sn_commit := commit; sn_baseCommit := head; sn_indexCommit := indexCommit;
             sn_capturedAt := capturedAt |})
    (outside (gh_rm host temporaryDirectory)).

(** Source: packages/workspace/src/git.ts:552-559 [GitService.captureCheckpoint]. *)
Definition captureCheckpoint (runId : text) (sequence : num) (message : option text)
  : act git_world GitCheckpointSnapshot :=
  ref ← act_lift (checkpointRefFor runId sequence);
  captureWorkspaceSnapshot ref message.

(** Source: packages/workspace/src/git.ts:628-658 [GitService.readCheckpointSnapshot]. *)
Definition readCheckpointSnapshot (ref : text) : act git_world GitCheckpointSnapshot :=
  _ ← act_lift (assertPrivateRef ref);
  commit ← git [txt "rev-parse"; txt "--verify"; ref ++ txt "^{commit}"];
  let commit := trimOutput commit in
  parentsOutput ← git [txt "show"; txt "-s"; txt "--format=%P"; commit];
  match words (trimOutput parentsOutput) with
  | baseCommit :: indexCommit :: _ =>
      capturedAt ← git [txt "show"; txt "-s"; txt "--format=%cI"; commit];
      mret {| sn_ref := ref; sn_commit := commit; sn_baseCommit := baseCommit;
              sn_indexCommit := indexCommit; sn_capturedAt := trimOutput capturedAt |}
  | _ => act_throw (GitSnapshotError
           (txt "Private ref " ++ ref ++ txt " does not point to an Ottili workspace snapshot."))
  end.

(** [Promise.all] of a list of calls. *)
Fixpoint act_all {A B} (f : A -> act git_world B) (l : list A) : act git_world (list B) :=
  match l with
  | [] => mret []
  | x :: l => '(y, ys) ← act_both (f x) (act_all f l); mret (y :: ys)
  end.

(** The order of [left - right], in which a difference that is no number counts as zero.
    Source: packages/workspace/src/git.ts:674-678 [GitService.listCheckpoints, sort]. *)
Definition sequence_le (left right : text) : bool :=
  let sequence ref := Number (List.last (split_on slash ref) []) in
  negb (js_lt (sequence right) (sequence left)).

(** Source: packages/workspace/src/git.ts:660-682 [GitService.listCheckpoints]. *)
Definition listCheckpoints (runId : text) : act git_world (list GitCheckpointSnapshot) :=
  _ ← act_lift (assertRefComponent runId (txt "runId"));
  raw ← git [txt "for-each-ref"; txt "--format=%(refname)";
             PRIVATE_REF_PREFIX ++ runId ++ txt "/checkpoint"];
  let refs := sort_by sequence_le (List.filter nonempty (map trim (split_lines raw))) in
  act_all readCheckpointSnapshot refs.

(** Source: packages/workspace/src/git.ts:684-687 [GitService.deletePrivateRef]. *)
Definition deletePrivateRef (ref : text) : act git_world unit :=
  _ ← act_lift (assertPrivateRef ref);
  _ ← git [txt "update-ref"; txt "-d"; ref];
  mret tt.

(** A path that would be overwritten by, or would hold, another. *)
Definition collides (targetPath ignoredPath : text) : bool :=
  (targetPath === ignoredPath) || has_prefix (ignoredPath ++ txt "/") targetPath ||
  has_prefix (targetPath ++ txt "/") ignoredPath.

(** Source: packages/workspace/src/git.ts:760-799 [GitService.assertNoIgnoredPathCollision]. *)
Definition assertNoIgnoredPathCollision (snapshotCommit : text) : act git_world unit :=
  '(ignoredOutput, targetOutput) ← act_both
    (git [txt "ls-files"; txt "--others"; txt "--ignored"; txt "--exclude-standard"; txt "-z"])
    (git [txt "ls-tree"; txt "-r"; txt "-z"; txt "--name-only"; snapshotCommit]);
  let ignoredPaths := map (fun path => if ends_with slash path then removelast path else path)
    (List.filter nonempty (split_on 0%N ignoredOutput)) in
  if ignoredPaths === [] then mret tt
  else
    let targetPaths := List.filter nonempty (split_on 0%N targetOutput) in
    match find (fun targetPath => existsb (collides targetPath) ignoredPaths) targetPaths with
    | Some collision =>
        act_throw (GitSnapshotError (txt "Checkpoint restore would overwrite ignored path '" ++
          collision ++ txt "'. Move or remove it before restoring."))
    | None => mret tt
    end.

(** The snapshot is read again from its private ref.
    Source: packages/workspace/src/git.ts:694-715 [GitService.restoreWorkspaceSnapshot]. *)
Definition restoreWorkspaceSnapshot (ref : text) : act git_world GitCheckpointSnapshot :=
  snapshot ← readCheckpointSnapshot ref;
  _ ← assertNoIgnoredPathCollision (sn_commit snapshot);
  _ ← git [txt "read-tree"; sn_commit snapshot];
  _ ← git [txt "clean"; txt "-f"; txt "-d"; txt "--"];
  _ ← git [txt "checkout-index"; txt "--all"; txt "--force"];
  _ ← git [txt "read-tree"; sn_indexCommit snapshot];
  mret snapshot.

(** Source: packages/workspace/src/git.ts:721-723 [GitService.runGitCommand]. *)
Definition runGitCommand (args : list text) : act git_world text := git args.
End Service.
