(* ===== verification/GitSafety.v ===== *)
(** What the Git service asks of Git, and what it makes of Git's status: the
    theorems about Git.v. *)

From Stdlib Require Import ZArith NArith Lia Ascii.
From stdpp Require Import base strings list.
From S2P Require Import Prelude JsNumber JsText JsDecimal JsCollections Paths Git.

Open Scope string_scope.
Open Scope list_scope.

(** ** The status format *)

(** The records of [git status --porcelain=v2 -z], with the fields between the
    marker and the path: the status XY first. *)
Inductive porcelain : Type :=
| porcelain_ordinary (xy : text) (fields : list text) (path : text)
| porcelain_renamed (xy : text) (fields : list text) (path original : text)
| porcelain_unmerged (xy : text) (fields : list text) (path : text)
| porcelain_untracked (path : text)
| porcelain_ignored (path : text).

Definition render_fields (fields : list text) (tail : text) : text :=
  foldr (fun field rest => field ++ ch " " :: rest) tail fields.

Definition records_of (p : porcelain) : list text :=
  match p with
  | porcelain_ordinary xy fields path => [render_fields (txt "1" :: xy :: fields) path]
  | porcelain_renamed xy fields path original =>
      [render_fields (txt "2" :: xy :: fields) path; original]
  | porcelain_unmerged xy fields path => [render_fields (txt "u" :: xy :: fields) path]
  | porcelain_untracked path => [txt "? " ++ path]
  | porcelain_ignored path => [txt "! " ++ path]
  end.

(** Every record ends with a NUL. *)
Definition print_status (l : list porcelain) : text :=
  concat (map (fun record => record ++ [0%N]) (flat_map records_of l)).

Definition entry_of (p : porcelain) : GitStatusEntry :=
  match p with
  | porcelain_ordinary xy _ path => entry sk_ordinary path None xy
  | porcelain_renamed xy _ path original => entry sk_renamed_or_copied path (Some original) xy
  | porcelain_unmerged xy _ path => entry sk_unmerged path None xy
  | porcelain_untracked path =>
      {| st_kind := sk_untracked; st_path := path; st_originalPath := None;
         st_indexStatus := txt "?"; st_worktreeStatus := txt "?" |}
  | porcelain_ignored path =>
      {| st_kind := sk_ignored; st_path := path; st_originalPath := None;
         st_indexStatus := txt "!"; st_worktreeStatus := txt "!" |}
  end.

(** Fields hold no space and no NUL, paths are not empty and hold no NUL. *)
Definition field_ok (s : text) : Prop := ch " " ∉ s /\ 0%N ∉ s.
Definition path_ok (s : text) : Prop := s <> [] /\ 0%N ∉ s.
Definition status_ok (xy : text) (count : nat) (fields : list text) : Prop :=
  xy <> [] /\ field_ok xy /\ length fields = count /\ Forall field_ok fields.

Definition porcelain_ok (p : porcelain) : Prop :=
  match p with
  | porcelain_ordinary xy fields path => status_ok xy 6 fields /\ path_ok path
  | porcelain_renamed xy fields path original =>
      status_ok xy 7 fields /\ path_ok path /\ path_ok original
  | porcelain_unmerged xy fields path => status_ok xy 8 fields /\ path_ok path
  | porcelain_untracked path | porcelain_ignored path => 0%N ∉ path
  end.
#[export] Instance porcelain_ok_dec p : Decision (porcelain_ok p).
Proof. destruct p; cbn [porcelain_ok]; unfold status_ok, path_ok, field_ok; apply _. Defined.

Lemma split_fields_render context fields tail : Forall (fun f => ch " " ∉ f) fields ->
  split_fields (length fields) context (render_fields fields tail) = Ok (fields, tail).
Proof.
  induction 1 as [|f fs Hf Hfs IH]; [done|].
  cbn [length split_fields render_fields foldr]. rewrite index_of_app by done.
  change (foldr _ tail fs) with (render_fields fs tail).
  rewrite (drop_app_ge _ (ch " " :: render_fields fs tail) (S (length f))) by lia.
  replace (S (length f) - length f) with 1 by lia. change (drop 1 (ch " " :: render_fields fs tail)) with (render_fields fs tail).
  rewrite IH. cbn [mbind result_bind].
  by rewrite take_app_length.
Qed.

Lemma splitFieldsAndTail_render context n fields tail : Forall (fun f => ch " " ∉ f) fields ->
  length fields = n -> tail <> [] ->
  splitFieldsAndTail (render_fields fields tail) n context = Ok (fields, tail).
Proof.
  intros Hf <- Ht. unfold splitFieldsAndTail. rewrite split_fields_render by done.
  cbn [mbind result_bind]. by rewrite bool_decide_eq_false_2.
Qed.

Lemma render_fields_nul fields tail : Forall (fun f => 0%N ∉ f) fields -> 0%N ∉ tail ->
  0%N ∉ render_fields fields tail.
Proof.
  intros Hf Ht. induction Hf as [|f fs Hf Hfs IH]; [done|]. cbn [render_fields foldr].
  rewrite not_elem_of_app, not_elem_of_cons. by repeat split.
Qed.

Lemma status_fields marker xy count fields : ch " " ∉ marker -> status_ok xy count fields ->
  Forall (fun f => ch " " ∉ f) (marker :: xy :: fields) /\
  length (marker :: xy :: fields) = S (S count) /\
  forall context, requireField (marker :: xy :: fields) 1 context = Ok xy.
Proof.
  intros Hm (Hne & [Hs _] & <- & Hf). split; [|split; [done|]].
  - constructor; [done|]. constructor; [done|]. eapply Forall_impl; [exact Hf|]. by intros x [? _].
  - intros context. cbn. by destruct xy.
Qed.

Lemma records_nul p : porcelain_ok p -> Forall (fun r => 0%N ∉ r) (records_of p).
Proof.
  assert (forall m xy n fields tail, 0%N ∉ m -> status_ok xy n fields -> path_ok tail ->
            0%N ∉ render_fields (m :: xy :: fields) tail) as H.
  { intros m xy n fields tail Hm (_ & [_ Hxy] & _ & Hf) [_ Ht]. apply render_fields_nul; [|done].
    constructor; [done|]. constructor; [done|]. eapply Forall_impl; [exact Hf|]. by intros x [_ ?]. }
  assert (0%N ∉ txt "1" /\ 0%N ∉ txt "2" /\ 0%N ∉ txt "u" /\ 0%N ∉ txt "? " /\ 0%N ∉ txt "! ")
    as (H1 & H2 & Hu & Hq & He)
    by (repeat split; apply (bool_decide_unpack _); vm_compute; exact I).
  destruct p as [xy fields path|xy fields path original|xy fields path|path|path];
    cbn [porcelain_ok records_of]; intros Hok.
  - apply Forall_singleton. exact (H _ _ _ _ _ H1 (proj1 Hok) (proj2 Hok)).
  - destruct Hok as (Hs & Hp & [_ Ho]). apply Forall_cons. split; [exact (H _ _ _ _ _ H2 Hs Hp)|].
    by apply Forall_singleton.
  - apply Forall_singleton. exact (H _ _ _ _ _ Hu (proj1 Hok) (proj2 Hok)).
  - apply Forall_singleton, not_elem_of_app. by split.
  - apply Forall_singleton, not_elem_of_app. by split.
Qed.

Lemma split_records l : Forall (fun r : text => 0%N ∉ r) l ->
  split_on 0%N (concat (map (fun record => record ++ [0%N]) l)) = l ++ [[]].
Proof.
  induction 1 as [|r l Hr Hl IH]; [done|]. cbn [map concat]. rewrite <- app_assoc. cbn [app].
  rewrite split_on_app by done. by rewrite IH.
Qed.

Lemma parse_porcelain p rest : porcelain_ok p ->
  parse_records (records_of p ++ rest) = entries ← parse_records rest; Ok (entry_of p :: entries).
Proof.
  assert (ch " " ∉ txt "1" /\ ch " " ∉ txt "2" /\ ch " " ∉ txt "u") as (H1 & H2 & Hu)
    by (repeat split; apply (bool_decide_unpack _); vm_compute; exact I).
  destruct p as [xy fields path|xy fields path original|xy fields path|path|path];
    cbn [porcelain_ok records_of app]; intros Hok.
  - destruct Hok as [Hs [Hp _]]. destruct (status_fields (txt "1") xy 6 fields H1 Hs) as (Hf & Hl & Hx).
    change (parse_records (render_fields (txt "1" :: xy :: fields) path :: rest)) with
      (status ← parse_fields sk_ordinary 8 (txt "ordinary status")
                  (render_fields (txt "1" :: xy :: fields) path) None;
       entries ← parse_records rest; Ok (status :: entries)).
    unfold parse_fields. rewrite splitFieldsAndTail_render by done. cbn [mbind result_bind].
    by rewrite Hx.
  - destruct Hok as (Hs & [Hp _] & [Ho _]).
    destruct (status_fields (txt "2") xy 7 fields H2 Hs) as (Hf & Hl & Hx).
    change (parse_records (render_fields (txt "2" :: xy :: fields) path :: original :: rest)) with
      ('(fs, tail) ← splitFieldsAndTail (render_fields (txt "2" :: xy :: fields) path) 9
                       (txt "rename/copy status");
       xy ← requireField fs 1 (txt "rename/copy status");
       match original with
       | [] => Throw (GitSnapshotError (txt "Malformed Git output: rename/copy source path is missing."))
       | _ => entries ← parse_records rest;
              Ok (entry sk_renamed_or_copied tail (Some original) xy :: entries)
       end).
    rewrite splitFieldsAndTail_render by done. cbn [mbind result_bind]. rewrite Hx.
    by destruct original.
  - destruct Hok as [Hs [Hp _]]. destruct (status_fields (txt "u") xy 8 fields Hu Hs) as (Hf & Hl & Hx).
    change (parse_records (render_fields (txt "u" :: xy :: fields) path :: rest)) with
      (status ← parse_fields sk_unmerged 10 (txt "unmerged status")
                  (render_fields (txt "u" :: xy :: fields) path) None;
       entries ← parse_records rest; Ok (status :: entries)).
    unfold parse_fields. rewrite splitFieldsAndTail_render by done. cbn [mbind result_bind].
    by rewrite Hx.
  - reflexivity.
  - reflexivity.
Qed.

(** The status of a workspace is read as Git prints it: for any list of
    ordinary, renamed, unmerged, untracked and ignored records, with any paths
    without a NUL, spaces and line ends included, parsing what is printed gives
    one entry for each, in order, with its path, its source and both halves of
    its status. *)
Theorem status_roundtrip l : Forall porcelain_ok l ->
  parsePorcelainV2 (print_status l) = Ok (map entry_of l).
Proof.
  intros Hok. unfold parsePorcelainV2, print_status. rewrite split_records.
  - induction Hok as [|p l Hp Hl IH]; [done|]. cbn [flat_map]. rewrite <- app_assoc, parse_porcelain by done.
    by rewrite IH.
  - induction Hok as [|p l Hp Hl IH]; [done|]. cbn [flat_map]. apply Forall_app.
    split; [by apply records_nul|done].
Qed.

(** A status with a staged rename onto a path with a space, and an untracked file. *)
Definition demo_status : list porcelain :=
  [porcelain_renamed (txt "R.") [txt "N..."; txt "100644"; txt "100644"; txt "100644"; txt "aa"; txt "bb";
     txt "R100"] (txt "new name") (txt "old");
   porcelain_untracked (txt "notes")].

Lemma status_roundtrip_witness : Forall porcelain_ok demo_status /\
  parsePorcelainV2 (print_status demo_status) = Ok (map entry_of demo_status).
Proof.
  assert (Forall porcelain_ok demo_status) as H by (apply (bool_decide_unpack _); vm_compute; exact I).
  split; [exact H|]. exact (status_roundtrip demo_status H).
Defined.

(** ** Refs *)

(** A component of a private ref: it cannot be read as an option, another ref
    or a revision. *)
Definition safe_component (s : text) : Prop :=
  (exists c r, s = c :: r /\ is_alnum c = true) /\ Forall (fun c => is_ref_unit c = true) s /\
  includes (txt "..") s = false /\ length s <= 128.

Definition private_ref (ref : text) : Prop :=
  has_prefix PRIVATE_REF_PREFIX ref = true /\
  Forall safe_component (drop 2 (split_on slash ref)).

Lemma assertRefComponent_ok value name u : assertRefComponent value name = Ok u -> safe_component value.
Proof.
  unfold assertRefComponent. rewrite throw_if_ok, !orb_false_iff, negb_false_iff, andb_true_iff.
  intros [[[Hc Hl] Hi] He]. destruct value as [|c r]; [done|].
  cbn [class_token] in Hc. apply andb_true_iff in Hc as [Ha Hr]. apply Nat.leb_le in Hl.
  split; [by exists c, r|]. split; [|by split].
  apply Forall_cons. split; [unfold is_ref_unit; by rewrite Ha|].
  rewrite Forall_forall. by apply forallb_elem.
Qed.

Lemma assertPrivateRef_ok ref u : assertPrivateRef ref = Ok u -> private_ref ref.
Proof.
  intros E. unfold assertPrivateRef in E. cbv zeta in E. apply bind_ok in E as ([] & E1 & E).
  apply bind_ok in E as ([] & E2 & E3). apply throw_if_ok in E1. rewrite negb_false_iff in E1.
  split; [exact E1|]. apply for_each_ok in E3. eapply Forall_impl; [exact E3|].
  intros s Hs. by apply assertRefComponent_ok in Hs.
Qed.

(** ** What the service asks of Git *)

Definition git_command : Type := text * list text * CommandOptions.

(** A command and its answer. *)
Definition git_run : Type := git_command * result ws_fault CommandResult.

(** The same host, with a record of the commands it ran. *)
Definition logging {Outside} (host : GitHost Outside) : GitHost (list git_run * Outside) :=
  let through {A} (m : act Outside A) : act (list git_run * Outside) A :=
    fun w => let '(o, r) := m w.2 in ((w.1, o), r) in
  {| gh_cwd := gh_cwd host; gh_workspacePath := gh_workspacePath host;
     gh_gitExecutable := gh_gitExecutable host; gh_commandTimeoutMs := gh_commandTimeoutMs host;
     gh_process_env := gh_process_env host;
     gh_run := fun executable args options w =>
       let '(o, r) := gh_run host executable args options w.2 in
       ((w.1 ++ [(executable, args, options, r)], o), r);
     gh_mkdtemp := through (gh_mkdtemp host);
     gh_copyFile := fun from to => through (gh_copyFile host from to);
     gh_rm := fun path => through (gh_rm host path);
     gh_now := through (gh_now host) |}.

(** The public operations, the hook for the worktree manager apart. *)
Inductive git_operation : Type :=
| op_isRepository | op_getRepositoryRoot | op_getGitDirectory | op_getHeadCommit
| op_getCurrentBranch | op_getStatus | op_listBranches | op_getRepositoryIdentity
| op_getDiff (staged : option bool) (pathspec : option (list text))
| op_stage (paths : list text) | op_unstage (paths : list text)
| op_commit (message : text) | op_revert (commit : text)
| op_captureCheckpoint (runId : text) (sequence : num) (message : option text)
| op_captureWorkspaceSnapshot (ref : text) (message : option text)
| op_readCheckpointSnapshot (ref : text) | op_listCheckpoints (runId : text)
| op_deletePrivateRef (ref : text) | op_restoreWorkspaceSnapshot (ref : text).

Definition perform {Outside} (host : GitHost Outside) (Number : text -> num) (op : git_operation)
  : act (git_world (Outside := Outside)) unit :=
  let run {A} (m : act git_world A) : act git_world unit := _ ← m; mret tt in
  match op with
  | op_isRepository => run (isRepository host)
  | op_getRepositoryRoot => run (getRepositoryRoot host)
  | op_getGitDirectory => run (getGitDirectory host)
  | op_getHeadCommit => run (getHeadCommit host)
  | op_getCurrentBranch => run (getCurrentBranch host)
  | op_getStatus => run (getStatus host)
  | op_listBranches => run (listBranches host)
  | op_getRepositoryIdentity => run (getRepositoryIdentity host)
  | op_getDiff staged pathspec => run (getDiff host staged pathspec)
  | op_stage paths => stage host paths
  | op_unstage paths => unstage host paths
  | op_commit message => run (commit host message)
  | op_revert commit => revert host commit
  | op_captureCheckpoint runId sequence message => run (captureCheckpoint host runId sequence message)
  | op_captureWorkspaceSnapshot ref message => run (captureWorkspaceSnapshot host ref message)
  | op_readCheckpointSnapshot ref => run (readCheckpointSnapshot host ref)
  | op_listCheckpoints runId => run (listCheckpoints host Number runId)
  | op_deletePrivateRef ref => deletePrivateRef host ref
  | op_restoreWorkspaceSnapshot ref => run (restoreWorkspaceSnapshot host ref)
  end.

(** *** What each operation may run *)

(** The commands that ask and change nothing, word for word.  Names of remotes and
    commits are what Git answered before. *)
Inductive query : list text -> Prop :=
| query_inside : query [txt "rev-parse"; txt "--is-inside-work-tree"]
| query_root : query [txt "rev-parse"; txt "--show-toplevel"]
| query_directory : query [txt "rev-parse"; txt "--git-dir"]
| query_head : query [txt "rev-parse"; txt "--verify"; txt "--quiet"; txt "HEAD"]
| query_index : query [txt "rev-parse"; txt "--git-path"; txt "index"]
| query_format : query [txt "rev-parse"; txt "--show-object-format"]
| query_branch : query [txt "symbolic-ref"; txt "--quiet"; txt "--short"; txt "HEAD"]
| query_status : query [txt "status"; txt "--porcelain=v2"; txt "-z"; txt "--untracked-files=all"]
| query_branches :
    query [txt "for-each-ref"; txt "--format=%(refname:short)%00%(objectname)%00%(HEAD)%00";
           txt "refs/heads"]
| query_remotes : query [txt "remote"]
| query_remote name : query [txt "remote"; txt "get-url"; txt "--all"; name]
| query_diff (cached : bool) (paths : list text) :
    query ([txt "diff"; txt "--no-ext-diff"; txt "--binary"] ++ (if cached then [txt "--cached"] else []) ++
           match paths with [] => [] | _ => txt "--" :: paths end)
| query_snapshot ref : private_ref ref -> query [txt "rev-parse"; txt "--verify"; ref ++ txt "^{commit}"]
| query_parents commit : query [txt "show"; txt "-s"; txt "--format=%P"; commit]
| query_date commit : query [txt "show"; txt "-s"; txt "--format=%cI"; commit]
| query_checkpoints runId : safe_component runId ->
    query [txt "for-each-ref"; txt "--format=%(refname)"; PRIVATE_REF_PREFIX ++ runId ++ txt "/checkpoint"]
| query_ignored :
    query [txt "ls-files"; txt "--others"; txt "--ignored"; txt "--exclude-standard"; txt "-z"]
| query_tree commit : query [txt "ls-tree"; txt "-r"; txt "-z"; txt "--name-only"; commit].

(** Taking a snapshot writes objects, an index of its own ([Some] file; [None] is
    the index of the repository), and creates the ref: the old value it asks for is
    that of a ref that does not exist. *)
Inductive snapshot_command (ref : text) : option text -> list text -> Prop :=
| snapshot_index_tree : snapshot_command ref None [txt "write-tree"]
| snapshot_read index head : snapshot_command ref (Some index) [txt "read-tree"; head]
| snapshot_add index : snapshot_command ref (Some index) [txt "add"; txt "-A"]
| snapshot_tree index : snapshot_command ref (Some index) [txt "write-tree"]
| snapshot_commit tree parents message :
    snapshot_command ref None
      ([txt "commit-tree"; tree] ++ flat_map (fun parent => [txt "-p"; parent]) parents ++ [txt "-m"; message])
| snapshot_ref commit missing : missing ∈ [replicate 40 (ch "0"); replicate 64 (ch "0")] ->
    snapshot_command ref None [txt "update-ref"; ref; commit; missing].

Inductive restore_command : list text -> Prop :=
| restore_tree commit : restore_command [txt "read-tree"; commit]
| restore_clean : restore_command [txt "clean"; txt "-f"; txt "-d"; txt "--"]
| restore_checkout : restore_command [txt "checkout-index"; txt "--all"; txt "--force"].

(** The ref a snapshot is taken under. *)
Definition captured_ref (op : git_operation) : option text :=
  match op with
  | op_captureCheckpoint runId sequence _ =>
      match checkpointRefFor runId sequence with Ok ref => Some ref | Throw _ => None end
  | op_captureWorkspaceSnapshot ref _ => Some ref
  | _ => None
  end.

(** The commands of an operation that change something, word for word. *)
Inductive change : git_operation -> option text -> list text -> Prop :=
| change_stage paths : change (op_stage paths) None (txt "add" :: txt "--" :: paths)
| change_unstage paths : change (op_unstage paths) None (txt "restore" :: txt "--staged" :: txt "--" :: paths)
| change_commit message : change (op_commit message) None [txt "commit"; txt "-m"; message]
| change_revert commit : change (op_revert commit) None [txt "revert"; txt "--no-edit"; commit]
| change_capture op ref index args : captured_ref op = Some ref -> private_ref ref ->
    snapshot_command ref index args -> change op index args
| change_delete ref : private_ref ref ->
    change (op_deletePrivateRef ref) None [txt "update-ref"; txt "-d"; ref]
| change_restore ref args : restore_command args -> change (op_restoreWorkspaceSnapshot ref) None args.

Definition permitted (op : git_operation) (index : option text) (args : list text) : Prop :=
  (index = None /\ query args) \/ change op index args.

(** Git, in the workspace's directory, with none of the variables that would point it
    at another repository, and with a command the operation may run. *)
Definition confined {Outside} (host : GitHost Outside) (op : git_operation) (run : git_run) : Prop :=
  let '(executable, args, options) := run.1 in
  executable = gh_gitExecutable host /\ co_cwd options = gh_workspacePath host /\
  (forall name, name ∈ [txt "GIT_DIR"; txt "GIT_WORK_TREE"; txt "GIT_COMMON_DIR"; txt "GIT_NAMESPACE"] ->
     jm_get (co_env options) name = None) /\
  permitted op (jm_get (co_env options) (txt "GIT_INDEX_FILE")) args.

(** *** Environments *)

(** The value a name has after a spread comes from one of the two. *)
Lemma jm_get_spread base overrides name value : jm_get (spread base overrides) name = Some value ->
  jm_get base name = Some value \/ (name, value) ∈ overrides.
Proof.
  unfold spread. revert base. induction overrides as [|[k v] l IH]; intros base E; [by left|].
  cbn [foldl] in E. apply IH in E as [E|E]; [|right; by apply list_elem_of_further].
  rewrite jm_get_set in E. destruct (decide _) as [->|]; [|by left].
  injection E as ->. right. apply list_elem_of_here.
Qed.

Definition cleared (process_env : environment) : environment := foldl jm_delete process_env REDIRECTS.

Lemma cleared_none process_env name : name ∈ REDIRECTS -> jm_get (cleared process_env) name = None.
Proof.
  unfold cleared, REDIRECTS. cbn [foldl]. rewrite !jm_get_delete. intros Hin.
  repeat (apply elem_of_cons in Hin as [->|Hin]); [..|by apply not_elem_of_nil in Hin];
    vm_compute; by repeat case_match.
Qed.

Definition author : environment :=
  [(txt "GIT_AUTHOR_NAME", txt "Ottili Coder");
   (txt "GIT_AUTHOR_EMAIL", txt "checkpoint@ottili.local");
   (txt "GIT_COMMITTER_NAME", txt "Ottili Coder");
   (txt "GIT_COMMITTER_EMAIL", txt "checkpoint@ottili.local")].

Lemma author_free name : name ∈ REDIRECTS -> forall value, (name, value) ∉ author.
Proof.
  intros Hin value Ha. unfold REDIRECTS in Hin. unfold author in Ha.
  repeat (apply elem_of_cons in Hin as [->|Hin]); [..|by apply not_elem_of_nil in Hin];
    repeat (apply elem_of_cons in Ha as [[=]|Ha]); by apply not_elem_of_nil in Ha.
Qed.

Lemma elem_jm_set (m : environment) k v x : x ∈ jm_set m k v -> x = (k, v) \/ x ∈ m.
Proof.
  induction m as [|[k' v'] m IH]; cbn [jm_set]; [intros ->%list_elem_of_singleton; by left|].
  destruct (decide (k' = k)) as [->|]; intros [->|Hx]%elem_of_cons.
  - by left.
  - right. by apply list_elem_of_further.
  - right. apply list_elem_of_here.
  - destruct (IH Hx) as [->|]; [by left|right; by apply list_elem_of_further].
Qed.

Lemma elem_spread base overrides x : x ∈ spread base overrides -> x ∈ base \/ x ∈ overrides.
Proof.
  unfold spread. revert base. induction overrides as [|[k v] l IH]; intros base E; [by left|].
  cbn [foldl] in E. apply IH in E as [[->|E]%elem_jm_set|E]; [right|by left|right].
  - apply list_elem_of_here.
  - by apply list_elem_of_further.
Qed.

Lemma cleared_free process_env name value : name ∈ REDIRECTS -> (name, value) ∉ cleared process_env.
Proof.
  intros Hin Hc. apply (cleared_none process_env), jm_get_None in Hin. apply Hin.
  by apply (list_elem_of_fmap_2 fst) in Hc.
Qed.

(** A redirecting variable is set in an environment only by its overrides, and in
    that of a snapshot only to the temporary index. *)
Lemma gitEnvironment_redirect process_env overrides name value : name ∈ REDIRECTS ->
  jm_get (gitEnvironment process_env overrides) name = Some value -> (name, value) ∈ overrides.
Proof.
  intros Hin E. unfold gitEnvironment in E. fold (cleared process_env) in E.
  apply jm_get_spread in E as [E|E]; [|done]. by rewrite cleared_none in E.
Qed.

Lemma snapshot_redirect process_env indexPath name value : name ∈ REDIRECTS ->
  (name, value) ∈ snapshotEnvironment process_env indexPath ->
  name = txt "GIT_INDEX_FILE" /\ indexPath = Some value.
Proof.
  intros Hin. assert ((name, value) ∉ spread (gitEnvironment process_env []) author) as Hfree.
  { intros [Ha|Ha]%elem_spread; [|by eapply author_free].
    unfold gitEnvironment in Ha. fold (cleared process_env) in Ha.
    apply elem_spread in Ha as [Ha|Ha]; [by eapply cleared_free|by apply not_elem_of_nil in Ha]. }
  unfold snapshotEnvironment. fold author. destruct indexPath as [path|]; [|done].
  by intros [[= -> ->]|?]%elem_jm_set.
Qed.

Lemma redirects_index : txt "GIT_INDEX_FILE" ∈ REDIRECTS.
Proof. unfold REDIRECTS. repeat (first [apply list_elem_of_here | apply list_elem_of_further]). Qed.

(** Overrides that redirect nothing but the index leave the environment free. *)
Lemma env_free process_env overrides :
  (forall name value, name ∈ REDIRECTS -> (name, value) ∈ overrides -> name = txt "GIT_INDEX_FILE") ->
  forall name, name ∈ [txt "GIT_DIR"; txt "GIT_WORK_TREE"; txt "GIT_COMMON_DIR"; txt "GIT_NAMESPACE"] ->
  jm_get (gitEnvironment process_env overrides) name = None.
Proof.
  intros H name Hin. destruct (jm_get _ name) as [value|] eqn:E; [|done]. exfalso.
  assert (name ∈ REDIRECTS /\ name <> txt "GIT_INDEX_FILE") as [Hr Hi].
  { repeat (apply elem_of_cons in Hin as [->|Hin]); [..|by apply not_elem_of_nil in Hin];
      (split; [unfold REDIRECTS; repeat (first [apply list_elem_of_here | apply list_elem_of_further])
              |discriminate]). }
  apply gitEnvironment_redirect in E; [|done]. by apply Hi, (H name value).
Qed.

(** A name that is overridden is set. *)
Lemma spread_sets base overrides name : is_Some (jm_get base name) \/ name ∈ map fst overrides ->
  is_Some (jm_get (spread base overrides) name).
Proof.
  unfold spread. revert base. induction overrides as [|[k v] l IH]; intros base; cbn [foldl map fst].
  - intros [H|H]; [done|by apply not_elem_of_nil in H].
  - intros H. apply IH. rewrite jm_get_set. destruct (decide _) as [|Hne]; [by left|].
    destruct H as [H|[->|H]%elem_of_cons]; [by left|done|by right].
Qed.

(** The index of the snapshot's environment is the one it was given. *)
Lemma snapshot_index process_env indexPath :
  jm_get (gitEnvironment process_env (snapshotEnvironment process_env indexPath)) (txt "GIT_INDEX_FILE") =
  indexPath.
Proof.
  destruct (jm_get _ _) as [value|] eqn:E.
  - apply gitEnvironment_redirect, snapshot_redirect in E as [_ ->]; [done|apply redirects_index..].
  - destruct indexPath as [path|]; [|done].
    destruct (spread_sets (foldl jm_delete process_env REDIRECTS)
      (snapshotEnvironment process_env (Some path)) (txt "GIT_INDEX_FILE")) as [value Hv].
    + right. unfold snapshotEnvironment. cbv zeta. change (map fst) with (@jm_keys text text).
      rewrite <- jm_has_elem. unfold jm_has. by rewrite jm_get_set_eq.
    + unfold gitEnvironment in E. by rewrite E in Hv.
Qed.

(** *** The trace of an operation *)

Section Confinement.
Context {Outside : Type} (host : GitHost Outside) (Number : text -> num) (op : git_operation).
#[local] Abbreviation LW := (git_world (Outside := list git_run * Outside)).

(** What runs confined commands only, however it ends. *)
Definition traces {A} (m : act LW A) : Prop := forall w, exists ran,
  (m w).1.2.1 = w.2.1 ++ ran /\ Forall (confined host op) ran.

Lemma traces_same {A} (m : act LW A) : (forall w, (m w).1.2.1 = w.2.1) -> traces m.
Proof. intros H w. exists []. by rewrite H, app_nil_r. Qed.

Lemma traces_ret {A} (a : A) : traces (mret a).
Proof. by apply traces_same. Qed.
Lemma traces_throw {A} e : traces (act_throw e : act LW A).
Proof. by apply traces_same. Qed.
Lemma traces_lift {A} (r : result ws_fault A) : traces (act_lift r).
Proof. by apply traces_same. Qed.

(** What follows may use what is known of the value. *)
Lemma traces_bind_when {A B} (P : A -> Prop) (m : act LW A) (f : A -> act LW B) :
  traces m -> (forall w w' a, m w = (w', Ok a) -> P a) -> (forall a, P a -> traces (f a)) -> traces (m ≫= f).
Proof.
  intros Hm HP Hf w. unfold mbind, act_bind. specialize (Hm w).
  destruct (m w) as [w1 [a|e]] eqn:E; [|done]. destruct Hm as (r1 & E1 & H1).
  destruct (Hf a (HP _ _ _ E) w1) as (r2 & E2 & H2).
  exists (r1 ++ r2). cbn [fst] in E1. rewrite E2, E1, app_assoc. split; [done|]. by apply Forall_app.
Qed.

Lemma traces_bind {A B} (m : act LW A) (f : A -> act LW B) :
  traces m -> (forall a, traces (f a)) -> traces (m ≫= f).
Proof. intros Hm Hf. by apply (traces_bind_when (fun _ => True)). Qed.

Lemma traces_catch {A} (m : act LW A) handler :
  traces m -> (forall e, traces (handler e)) -> traces (act_catch m handler).
Proof.
  intros Hm Hh w. unfold act_catch. specialize (Hm w).
  destruct (m w) as [w1 [a|e]]; [done|]. destruct Hm as (r1 & E1 & H1). destruct (Hh e w1) as (r2 & E2 & H2).
  exists (r1 ++ r2). cbn [fst] in E1. rewrite E2, E1, app_assoc. split; [done|]. by apply Forall_app.
Qed.

Lemma traces_both {A B} (a : act LW A) (b : act LW B) : traces a -> traces b -> traces (act_both a b).
Proof.
  intros Ha Hb w. unfold act_both. specialize (Ha w). destruct (a w) as [w1 ra]. specialize (Hb w1).
  destruct (b w1) as [w2 rb]. destruct Ha as (r1 & E1 & H1). destruct Hb as (r2 & E2 & H2).
  exists (r1 ++ r2). cbn [fst] in *. rewrite E2, E1, app_assoc. split; [done|]. by apply Forall_app.
Qed.

Lemma traces_finally {A} (m : act LW A) cleanup : traces m -> traces cleanup -> traces (act_finally m cleanup).
Proof.
  intros Hm Hc w. unfold act_finally. specialize (Hm w). destruct (m w) as [w1 r]. specialize (Hc w1).
  destruct Hm as (r1 & E1 & H1). destruct (cleanup w1) as [w2 [u|e]]; destruct Hc as (r2 & E2 & H2);
    exists (r1 ++ r2); cbn [fst] in *; rewrite E2, E1, app_assoc; (split; [done|by apply Forall_app]).
Qed.

(** The host's file operations run no command. *)
Lemma traces_outside {A} (m : act Outside A) :
  traces (outside (fun w => let '(o, r) := m w.2 in ((w.1, o), r))).
Proof. apply traces_same. intros w. unfold outside. by destruct (m w.2.2). Qed.

Lemma traces_runGit args overrides :
  (forall name value, name ∈ REDIRECTS -> (name, value) ∈ overrides -> name = txt "GIT_INDEX_FILE") ->
  permitted op (jm_get (gitEnvironment (gh_process_env host) overrides) (txt "GIT_INDEX_FILE")) args ->
  traces (runGit (logging host) args overrides).
Proof.
  intros He Hp. unfold runGit. apply traces_catch; [|intros []; apply traces_throw].
  apply traces_bind; [|intros; apply traces_ret]. intros w. unfold outside, logging. cbn [gh_run].
  destruct (gh_run host _ _ _ _) as [o r]. eexists. split; [reflexivity|].
  apply Forall_singleton. split; [done|]. split; [done|]. split; [|done]. by apply env_free.
Qed.

Lemma traces_git args : permitted op None args -> traces (git (logging host) args).
Proof.
  intros Hp. apply traces_runGit; [by intros name value _ Hin%not_elem_of_nil|].
  destruct (jm_get _ _) as [value|] eqn:E; [|done].
  apply gitEnvironment_redirect, not_elem_of_nil in E; [done|apply redirects_index].
Qed.

Lemma traces_snapshot_env args index : permitted op index args ->
  traces (runGit (logging host) args (snapshot_env (logging host) index)).
Proof.
  intros Hp. apply traces_runGit; [|unfold snapshot_env; cbn [logging gh_process_env]; by rewrite snapshot_index].
  intros name value Hr Hin. by apply (snapshot_redirect (gh_process_env host) index) in Hin as [-> _].
Qed.

(** What follows a check may use what was checked. *)
Lemma traces_private {A} ref (f : unit -> act LW A) : (private_ref ref -> traces (f tt)) ->
  traces (act_lift (assertPrivateRef ref) ≫= f).
Proof.
  intros Hf. apply (traces_bind_when (fun _ => private_ref ref)); [apply traces_lift| |by intros []].
  intros w w' u [= _ E]. by eapply assertPrivateRef_ok.
Qed.

Lemma traces_component {A} value name (f : unit -> act LW A) : (safe_component value -> traces (f tt)) ->
  traces (act_lift (assertRefComponent value name) ≫= f).
Proof.
  intros Hf. apply (traces_bind_when (fun _ => safe_component value)); [apply traces_lift| |by intros []].
  intros w w' u [= _ E]. by eapply assertRefComponent_ok.
Qed.

Lemma permitted_query args : query args -> permitted op None args.
Proof. by left. Qed.
Lemma permitted_change index args : change op index args -> permitted op index args.
Proof. by right. Qed.

Ltac query_tac := apply traces_git, permitted_query; econstructor; eassumption.

Ltac trace_step :=
  lazymatch goal with
  | |- traces (act_lift (assertPrivateRef _) ≫= _) => apply traces_private; intros ?
  | |- traces (act_lift (assertRefComponent _ _) ≫= _) => apply traces_component; intros ?
  | |- traces (mbind _ _) => apply traces_bind; [|intros ?]
  | |- traces (mret _) => apply traces_ret
  | |- traces (act_throw _) => apply traces_throw
  | |- traces (act_lift _) => apply traces_lift
  | |- traces (act_catch _ _) => apply traces_catch; [|intros ?]
  | |- traces (act_both _ _) => apply traces_both
  | |- traces (act_finally _ _) => apply traces_finally
  | |- traces (git _ _) => query_tac
  | |- traces (outside _) => apply traces_outside
  | |- traces (let _ := _ in _) => cbv zeta
  | |- traces (match ?x with _ => _ end) => destruct x
  end.

Lemma traces_root : traces (getRepositoryRoot (logging host)).
Proof.
  intros w. unfold getRepositoryRoot. destruct w.1; [exists []; by rewrite app_nil_r|].
  match goal with |- exists ran, (?m w).1.2.1 = _ /\ _ => change (exists ran, (m w).1.2.1 = w.2.1 ++ ran /\
    Forall (confined host op) ran); revert w; change (traces m) end.
  apply traces_bind; [query_tac|intros output]. by apply traces_same.
Qed.

Ltac trace_tac := repeat first [ apply traces_root | trace_step ].

Lemma traces_head : traces (getHeadCommit (logging host)).
Proof. unfold getHeadCommit, or_null. trace_tac. Qed.
Lemma traces_branch : traces (getCurrentBranch (logging host)).
Proof. unfold getCurrentBranch, or_null. trace_tac. Qed.

Lemma traces_read ref : traces (readCheckpointSnapshot (logging host) ref).
Proof. unfold readCheckpointSnapshot. trace_tac. Qed.

Lemma traces_all {A B} (f : A -> act LW B) l : (forall x, traces (f x)) -> traces (act_all f l).
Proof. intros Hf. induction l as [|x l IH]; cbn [act_all]; trace_tac; [apply Hf|apply IH]. Qed.

Lemma traces_remotes names : forall remotes, traces (read_remotes (logging host) names remotes).
Proof. induction names as [|n names IH]; intros remotes; cbn [read_remotes]; trace_tac. apply IH. Qed.

Lemma traces_diff staged pathspec : traces (getDiff (logging host) staged pathspec).
Proof.
  unfold getDiff. cbv zeta. apply traces_git, permitted_query.
  destruct (staged === Some true), pathspec as [[|path paths]|];
    first [ exact (query_diff true (path :: paths)) | exact (query_diff true [])
          | exact (query_diff false (path :: paths)) | exact (query_diff false []) ].
Qed.

Lemma traces_ignored commit : traces (assertNoIgnoredPathCollision (logging host) commit).
Proof. unfold assertNoIgnoredPathCollision. trace_tac. Qed.

(** *** Snapshots *)

Lemma traces_missing {A} (f : text -> act LW A) :
  (forall missing, missing ∈ [replicate 40 (ch "0"); replicate 64 (ch "0")] -> traces (f missing)) ->
  traces (missingObjectId (logging host) ≫= f).
Proof.
  apply traces_bind_when; [unfold missingObjectId; trace_tac|]. intros w w' a. unfold missingObjectId.
  intros E. unfold mbind, act_bind in E. destruct (git _ _ _) as [w1 [out|e]]; [|done].
  cbv zeta in E. destruct (trimOutput out === txt "sha1").
  { injection E as _ <-. apply list_elem_of_here. }
  destruct (trimOutput out === txt "sha256"); [|done].
  injection E as _ <-. apply list_elem_of_further, list_elem_of_here.
Qed.

Lemma traces_snapshot ref index args :
  captured_ref op = Some ref -> private_ref ref -> snapshot_command ref index args ->
  traces (runGit (logging host) args (snapshot_env (logging host) index)).
Proof. intros Hc Hp Hs. apply traces_snapshot_env, permitted_change. by eapply change_capture. Qed.

Lemma traces_capture ref message : captured_ref op = Some ref ->
  traces (captureWorkspaceSnapshot (logging host) ref message).
Proof.
  intros Hc. assert (private_ref ref -> forall args, snapshot_command ref None args ->
    traces (git (logging host) args)) as Hgit.
  { intros Hp args Hs. apply traces_git, permitted_change. by eapply change_capture. }
  unfold captureWorkspaceSnapshot, requireHeadCommit, getIndexPath, prepare_index, createSnapshotCommit.
  apply traces_private. intros Hp. apply traces_bind.
  { repeat first [ apply traces_head | trace_step ]. }
  intros [head indexPath]. apply traces_bind; [apply Hgit; [done|constructor]|intros indexTree].
  repeat first
    [ apply traces_head
    | lazymatch goal with
      | |- traces (missingObjectId _ ≫= _) => apply traces_missing; intros ? ?
      | |- traces (runGit _ _ _) => eapply traces_snapshot; [eassumption|eassumption|constructor]
      | |- traces (git _ _) => apply Hgit; [done|by constructor]
      end
    | trace_step ].
Qed.

Lemma traces_snapshots runId sequence message :
  op = op_captureCheckpoint runId sequence message ->
  traces (captureCheckpoint (logging host) runId sequence message).
Proof.
  intros Hop. unfold captureCheckpoint.
  apply (traces_bind_when (fun ref => checkpointRefFor runId sequence = Ok ref)); [apply traces_lift| |].
  - intros w w' ref [= _ E]. exact E.
  - intros ref E. apply traces_capture. rewrite Hop. cbn [captured_ref]. by rewrite E.
Qed.

End Confinement.
