(* ===== verification/Checkpoint.v ===== *)
(** Checkpoints: packages/recovery/src/checkpoint.ts.

    A checkpoint pairs a private Git snapshot with durable run state.  Restoring
    one is a transaction over three parties: the workspace, the run state behind
    the lifecycle hooks, and the runtime they build.  Git, the store and the hooks
    are operations on a world. *)

From Stdlib Require Import ZArith NArith Lia Ascii.
From stdpp Require Import base strings list.
From S2P Require Import Prelude JsNumber JsText JsCollections Paths Git.

Open Scope string_scope.
Open Scope list_scope.

(** ** Data *)

(** Source: packages/recovery/src/checkpoint.ts:24-33 [CheckpointRecord]. *)
Record CheckpointRecord (TState : Type) := {
  ck_id : text;
  ck_runId : text;
  ck_sequence : num;
  ck_workspacePath : text;
  ck_gitRef : text;
  ck_gitSnapshot : GitCheckpointSnapshot;
  ck_state : TState;
  ck_createdAt : text }.
Arguments ck_id {TState}.
Arguments ck_runId {TState}.
Arguments ck_sequence {TState}.
Arguments ck_workspacePath {TState}.
Arguments ck_gitRef {TState}.
Arguments ck_gitSnapshot {TState}.
Arguments ck_state {TState}.
Arguments ck_createdAt {TState}.

(** Source: packages/recovery/src/checkpoint.ts:35-41 [CreateCheckpointInput]. *)
Record CreateCheckpointInput (TState : Type) := {
  cc_runId : text;
  cc_sequence : num;
  cc_state : TState;
  cc_id : option text;
  cc_message : option text }.
Arguments cc_runId {TState}.
Arguments cc_sequence {TState}.
Arguments cc_state {TState}.
Arguments cc_id {TState}.
Arguments cc_message {TState}.

(** Source: packages/recovery/src/checkpoint.ts:74-78 [CheckpointFailure]. *)
Record CheckpointFailure := {
  cf_name : text;
  cf_message : text;
  cf_code : option text }.

(** Source: packages/recovery/src/checkpoint.ts:80-85 [RollbackReport]. *)
Record RollbackReport := {
  rb_workspaceRestored : bool;
  rb_runStateRestored : bool;
  rb_resumedRuntimeDisposed : bool;
  rb_errors : list CheckpointFailure }.

(** Source: packages/recovery/src/checkpoint.ts:117-121 [TransactionalRestoreResult]. *)
Inductive TransactionalRestoreResult (TState TRuntime : Type) : Type :=
| restored (checkpoint : CheckpointRecord TState) (preRestoreSnapshot : GitCheckpointSnapshot)
    (runtime : option TRuntime)
| preparation_failed (checkpoint : CheckpointRecord TState) (error : CheckpointFailure)
| rolled_back (checkpoint : CheckpointRecord TState) (preRestoreSnapshot : GitCheckpointSnapshot)
    (restoreError : CheckpointFailure) (rollback : RollbackReport)
| rollback_failed (checkpoint : CheckpointRecord TState) (preRestoreSnapshot : GitCheckpointSnapshot)
    (restoreError : CheckpointFailure) (rollback : RollbackReport).
Arguments restored {TState TRuntime}.
Arguments preparation_failed {TState TRuntime}.
Arguments rolled_back {TState TRuntime}.
Arguments rollback_failed {TState TRuntime}.

(** ** Interfaces *)

(** What the service uses of Git. *)
Record CheckpointGit (World : Type) := {
  cg_getRepositoryRoot : act World text;
  cg_captureCheckpoint : text -> num -> option text -> act World GitCheckpointSnapshot;
  cg_captureWorkspaceSnapshot : text -> option text -> act World GitCheckpointSnapshot;
  cg_restoreWorkspaceSnapshot : text -> act World GitCheckpointSnapshot (* by its ref *);
  cg_deletePrivateRef : text -> act World unit }.
Arguments cg_getRepositoryRoot {World}.
Arguments cg_captureCheckpoint {World}.
Arguments cg_captureWorkspaceSnapshot {World}.
Arguments cg_restoreWorkspaceSnapshot {World}.
Arguments cg_deletePrivateRef {World}.

(** The Git service is one. *)
Definition GitService_for_checkpoints {Outside} (host : GitHost Outside)
  : CheckpointGit (git_world (Outside := Outside)) :=
  {| cg_getRepositoryRoot := getRepositoryRoot host;
     cg_captureCheckpoint := captureCheckpoint host;
     cg_captureWorkspaceSnapshot := captureWorkspaceSnapshot host;
     cg_restoreWorkspaceSnapshot := restoreWorkspaceSnapshot host;
     cg_deletePrivateRef := deletePrivateRef host |}.

(** Source: packages/recovery/src/checkpoint.ts:43-47 [CheckpointStore]. *)
Record CheckpointStore (World TState : Type) := {
  cs_save : CheckpointRecord TState -> act World unit;
  cs_get : text -> act World (option (CheckpointRecord TState));
  cs_list : text -> act World (list (CheckpointRecord TState)) }.
Arguments cs_save {World TState}.
Arguments cs_get {World TState}.
Arguments cs_list {World TState}.

(** The hooks around a restore; each may be missing, and the runtime may be
    undefined.
    Source: packages/recovery/src/checkpoint.ts:49-72 [RestoreLifecycle]. *)
Record RestoreLifecycle (World TState TRuntime Before : Type) := {
  lc_capturePreRestoreState : option (act World Before);
  lc_restoreRunState : option (TState -> CheckpointRecord TState -> act World unit);
  lc_restorePreRestoreState : option (Before -> act World unit);
  lc_createResumedRuntime : option (CheckpointRecord TState -> act World (option TRuntime));
  lc_validateRestoredState : option (option TRuntime -> CheckpointRecord TState -> act World unit);
  lc_disposeResumedRuntime : option (TRuntime -> act World unit) }.
Arguments lc_capturePreRestoreState {World TState TRuntime Before}.
Arguments lc_restoreRunState {World TState TRuntime Before}.
Arguments lc_restorePreRestoreState {World TState TRuntime Before}.
Arguments lc_createResumedRuntime {World TState TRuntime Before}.
Arguments lc_validateRestoredState {World TState TRuntime Before}.
Arguments lc_disposeResumedRuntime {World TState TRuntime Before}.

(** ** The in-memory store *)

Section InMemory.
Context {TState : Type}.

(** Records are cloned when they go in and come out: values.
    Source: packages/recovery/src/checkpoint.ts:166-188 [InMemoryCheckpointStore]. *)
Definition InMemoryCheckpointStore : CheckpointStore (jsmap text (CheckpointRecord TState)) TState :=
  {| cs_save := fun record records => (jm_set records (ck_id record) record, Ok tt);
     cs_get := fun id records => (records, Ok (jm_get records id));
     cs_list := fun runId records =>
       (records,
        Ok (sort_by (fun left right => negb (js_lt (ck_sequence right) (ck_sequence left)))
              (List.filter (fun record => ck_runId record === runId) (jm_values records)))) |}.
End InMemory.

(** ** The service *)

Section Service.
Context {World TState TRuntime Before : Type}.
Context (git : CheckpointGit World) (store : CheckpointStore World TState).
(** [isSamePath] on the platform of the process, [randomUUID], the clock, and the
    name and message of an error. *)
Context (same_path : text -> text -> act World bool) (randomUUID : act World text).
Context (now : act World text) (error_name error_message : ws_fault -> text).

Definition failure (name message : string) : CheckpointFailure :=
  {| cf_name := txt name; cf_message := txt message; cf_code := None |}.

(** Source: packages/recovery/src/checkpoint.ts:146-157 [failureFrom]. *)
Definition failureFrom (error : ws_fault) : CheckpointFailure :=
  match error with
  | NotAnError shown => {| cf_name := txt "UnknownError"; cf_message := shown; cf_code := None |}
  | error =>
      {| cf_name := error_name error; cf_message := error_message error;
         cf_code := match error with
                    | SystemError code | OtherError _ _ code => code
                    | _ => None
                    end |}
  end.

(** Source: packages/recovery/src/checkpoint.ts:203-242 [CheckpointService.create]. *)
Definition create (input : CreateCheckpointInput TState) : act World (CheckpointRecord TState) :=
  if match cc_id input with Some id => trim id === [] | None => false end
  then act_throw (CheckpointPersistenceError (txt "Checkpoint id cannot be empty."))
  else
    '(workspacePath, gitSnapshot) ← act_both (cg_getRepositoryRoot git)
      (cg_captureCheckpoint git (cc_runId input) (cc_sequence input) (cc_message input));
    id ← match cc_id input with
         | Some id => mret id
         | None => uuid ← randomUUID; mret (txt "checkpoint_" ++ uuid)
         end;
    createdAt ← now;
    let record := {| ck_id := id; ck_runId := cc_runId input; ck_sequence := cc_sequence input;
                     ck_workspacePath := workspacePath; ck_gitRef := sn_ref gitSnapshot;
                     ck_gitSnapshot := gitSnapshot; ck_state := cc_state input;
                     ck_createdAt := createdAt |} in
    act_catch (_ ← cs_save store record; mret record)
      (fun error =>
         _ ← act_catch (cg_deletePrivateRef git (sn_ref gitSnapshot)) (fun _ => mret tt);
         act_throw (CheckpointPersistenceError (txt "Checkpoint metadata could not be persisted."))).

(** Source: packages/recovery/src/checkpoint.ts:255-259 [CheckpointService.discardPreRestoreSnapshot]. *)
Definition discardPreRestoreSnapshot (snapshot : GitCheckpointSnapshot) : act World unit :=
  cg_deletePrivateRef git (sn_ref snapshot).

Section Restore.
Context (lifecycle : RestoreLifecycle World TState TRuntime Before).

(** The state before the restore, where it could be captured, and the backup.
    Source: packages/recovery/src/checkpoint.ts:305-312 [CheckpointService.restore, prepare]. *)
Definition prepare (checkpoint : CheckpointRecord TState)
  : act World (option Before * GitCheckpointSnapshot) :=
  before ← match lc_capturePreRestoreState lifecycle with
           | None => mret None
           | Some capture => before ← capture; mret (Some before)
           end;
  uuid ← randomUUID;
  ref ← act_lift (recoverySnapshotRefFor (ck_runId checkpoint) uuid);
  snapshot ← cg_captureWorkspaceSnapshot git ref
               (Some (txt "Ottili pre-restore backup for " ++ ck_id checkpoint));
  mret (before, snapshot).

(** How far a restore came: whether the run state was touched, and the runtime. *)
Record progress := { pg_attempted : bool; pg_runtime : option TRuntime }.

Definition in_world {A} (m : act World A) : act (World * progress) A := fun w =>
  let '(w1, r) := m w.1 in ((w1, w.2), r).
Definition note (p : progress) : act (World * progress) unit := fun w => ((w.1, p), Ok tt).

(** Source: packages/recovery/src/checkpoint.ts:324-334 [CheckpointService.restore, steps]. *)
Definition restore_steps (checkpoint : CheckpointRecord TState) : act (World * progress) unit :=
  _ ← in_world (cg_restoreWorkspaceSnapshot git (sn_ref (ck_gitSnapshot checkpoint)));
  attempted ← match lc_restoreRunState lifecycle with
              | None => mret false
              | Some restoreRunState =>
                  _ ← note {| pg_attempted := true; pg_runtime := None |};
                  _ ← in_world (restoreRunState (ck_state checkpoint) checkpoint);
                  mret true
              end;
  runtime ← match lc_createResumedRuntime lifecycle with
            | None => mret None
            | Some createResumedRuntime =>
                runtime ← in_world (createResumedRuntime checkpoint);
                _ ← note {| pg_attempted := attempted; pg_runtime := runtime |};
                mret runtime
            end;
  match lc_validateRestoredState lifecycle with
  | None => mret tt
  | Some validateRestoredState => in_world (validateRestoredState runtime checkpoint)
  end.

(** A step of the rollback that is tried: whether it worked, and its error. *)
Definition tried {A} (m : act World A) (w : World) : World * (bool * list CheckpointFailure) :=
  match m w with
  | (w, Ok _) => (w, (true, []))
  | (w, Throw error) => (w, (false, [failureFrom error]))
  end.

Definition dispose (runtime : option TRuntime) (w : World) : World * (bool * list CheckpointFailure) :=
  match runtime with
  | None => (w, (true, []))
  | Some runtime =>
      match lc_disposeResumedRuntime lifecycle with
      | None => (w, (false, [failure "CheckpointRuntimeCleanupUnavailableError"
                   "A resumed runtime was created but no disposal hook was supplied for rollback."]))
      | Some disposeResumedRuntime => tried (disposeResumedRuntime runtime) w
      end
  end.

Definition revert_state (attempted : bool) (before : option Before) (w : World)
  : World * (bool * list CheckpointFailure) :=
  if attempted then
    match before, lc_restorePreRestoreState lifecycle with
    | Some before, Some restorePreRestoreState => tried (restorePreRestoreState before) w
    | _, _ => (w, (false, [failure "CheckpointRunStateRollbackUnavailableError"
                 "Run state restoration was attempted but no recoverable pre-restore state hook was supplied."]))
    end
  else (w, (true, [])).

(** Source: packages/recovery/src/checkpoint.ts:342-394 [CheckpointService.restore, rollback]. *)
Definition roll_back (before : option Before) (snapshot : GitCheckpointSnapshot) (reached : progress)
  (w : World) : World * RollbackReport :=
  let '(w, (disposed, errors1)) := dispose (pg_runtime reached) w in
  let '(w, (workspace, errors2)) := tried (cg_restoreWorkspaceSnapshot git (sn_ref snapshot)) w in
  let '(w, (runState, errors3)) := revert_state (pg_attempted reached) before w in
  (w, {| rb_workspaceRestored := workspace; rb_runStateRestored := runState;
         rb_resumedRuntimeDisposed := disposed; rb_errors := errors1 ++ errors2 ++ errors3 |}).

Definition undone (report : RollbackReport) : bool :=
  rb_workspaceRestored report && rb_runStateRestored report && rb_resumedRuntimeDisposed report.

(** Source: packages/recovery/src/checkpoint.ts:321-405 [CheckpointService.restore, attempt]. *)
Definition attempt (checkpoint : CheckpointRecord TState) (before : option Before)
  (snapshot : GitCheckpointSnapshot) (w : World) : World * TransactionalRestoreResult TState TRuntime :=
  match restore_steps checkpoint (w, {| pg_attempted := false; pg_runtime := None |}) with
  | ((w, reached), Ok _) => (w, restored checkpoint snapshot (pg_runtime reached))
  | ((w, reached), Throw restoreFailure) =>
      let '(w, rollback) := roll_back before snapshot reached w in
      (w, if undone rollback
          then rolled_back checkpoint snapshot (failureFrom restoreFailure) rollback
          else rollback_failed checkpoint snapshot (failureFrom restoreFailure) rollback)
  end.

(** Source: packages/recovery/src/checkpoint.ts:270-405 [CheckpointService.restore, body]. *)
Definition restore_body (checkpointId : text) : act World (TransactionalRestoreResult TState TRuntime) :=
  found ← cs_get store checkpointId;
  match found with
  | None => act_throw (CheckpointNotFoundError checkpointId)
  | Some checkpoint =>
      currentWorkspacePath ← cg_getRepositoryRoot git;
      same ← same_path currentWorkspacePath (ck_workspacePath checkpoint);
      if negb same then
        mret (preparation_failed checkpoint
          (failure "CheckpointWorkspaceMismatchError"
             "Checkpoint belongs to a different workspace and cannot be restored here."))
      else if ck_gitRef checkpoint !== sn_ref (ck_gitSnapshot checkpoint) then
        mret (preparation_failed checkpoint
          (failure "CheckpointMetadataMismatchError"
             "Checkpoint Git metadata is internally inconsistent."))
      else fun w =>
        match prepare checkpoint w with
        | (w, Throw error) => (w, Ok (preparation_failed checkpoint (failureFrom error)))
        | (w, Ok (before, snapshot)) =>
            let '(w, outcome) := attempt checkpoint before snapshot w in (w, Ok outcome)
        end
  end.

(** The service's flag guards the restore, and is released however it ends.
    Source: packages/recovery/src/checkpoint.ts:261-409 [CheckpointService.restore]. *)
Definition restore (checkpointId : text)
  : act (bool * World) (TransactionalRestoreResult TState TRuntime) := fun w =>
  if w.1 then (w, Throw CheckpointRestoreInProgressError)
  else let '(w', r) := restore_body checkpointId w.2 in ((false, w'), r).

End Restore.
End Service.

(** ** What a restore does *)

Section Watched.
Context {World TState TRuntime Before : Type}.

(** What is asked of the parties to a restore, and whether it came back. *)
Inductive restore_event : Type :=
| state_captured (before : option Before) (* [None]: it threw *)
| backup_taken (snapshot : option GitCheckpointSnapshot)
| files_restored (ref : text) (ok : bool)
| state_restored (state : TState) (ok : bool)
| runtime_created (runtime : option (option TRuntime))
| state_validated (runtime : option TRuntime) (ok : bool)
| runtime_disposed (runtime : TRuntime) (ok : bool)
| state_put_back (before : Before) (ok : bool)
| checkpoint_taken | ref_deleted (ref : text).

Definition value {A} (r : result ws_fault A) : option A := match r with Ok a => Some a | Throw _ => None end.

#[local] Abbreviation Watched := (list restore_event * World)%type.

(** The same operation, noted down, and one that is not. *)
Definition watch {A} (event : result ws_fault A -> restore_event) (m : act World A) : act Watched A := fun w =>
  let '(o, r) := m w.2 in ((w.1 ++ [event r], o), r).
Definition unwatched {A} (m : act World A) : act Watched A := fun w =>
  let '(o, r) := m w.2 in ((w.1, o), r).

Definition watched_git (git : CheckpointGit World) : CheckpointGit Watched :=
  {| cg_getRepositoryRoot := unwatched (cg_getRepositoryRoot git);
     cg_captureCheckpoint := fun runId sequence message =>
       watch (fun _ => checkpoint_taken) (cg_captureCheckpoint git runId sequence message);
     cg_captureWorkspaceSnapshot := fun ref message =>
       watch (fun r => backup_taken (value r)) (cg_captureWorkspaceSnapshot git ref message);
     cg_restoreWorkspaceSnapshot := fun ref =>
       watch (fun r => files_restored ref (is_ok r)) (cg_restoreWorkspaceSnapshot git ref);
     cg_deletePrivateRef := fun ref => watch (fun _ => ref_deleted ref) (cg_deletePrivateRef git ref) |}.

Definition watched_store (store : CheckpointStore World TState) : CheckpointStore Watched TState :=
  {| cs_save := fun record => unwatched (cs_save store record);
     cs_get := fun id => unwatched (cs_get store id);
     cs_list := fun runId => unwatched (cs_list store runId) |}.

Definition watched_lifecycle (lifecycle : RestoreLifecycle World TState TRuntime Before)
  : RestoreLifecycle Watched TState TRuntime Before :=
  {| lc_capturePreRestoreState :=
       option_map (watch (fun r => state_captured (value r))) (lc_capturePreRestoreState lifecycle);
     lc_restoreRunState :=
       option_map (fun f state checkpoint =>
         watch (fun r => state_restored state (is_ok r)) (f state checkpoint)) (lc_restoreRunState lifecycle);
     lc_restorePreRestoreState :=
       option_map (fun f before => watch (fun r => state_put_back before (is_ok r)) (f before))
         (lc_restorePreRestoreState lifecycle);
     lc_createResumedRuntime :=
       option_map (fun f checkpoint => watch (fun r => runtime_created (value r)) (f checkpoint))
         (lc_createResumedRuntime lifecycle);
     lc_validateRestoredState :=
       option_map (fun f runtime checkpoint =>
         watch (fun r => state_validated runtime (is_ok r)) (f runtime checkpoint))
         (lc_validateRestoredState lifecycle);
     lc_disposeResumedRuntime :=
       option_map (fun f runtime => watch (fun r => runtime_disposed runtime (is_ok r)) (f runtime))
         (lc_disposeResumedRuntime lifecycle) |}.

Context (git : CheckpointGit World) (store : CheckpointStore World TState).
Context (same_path : text -> text -> act World bool) (randomUUID : act World text).
Context (error_name error_message : ws_fault -> text).
Context (lifecycle : RestoreLifecycle World TState TRuntime Before).

(** *** The course of a restore *)

Definition if_given {A B} (hook : option A) (events : list B) : list B :=
  match hook with Some _ => events | None => [] end.

(** First the state before is captured, where there is a hook, and the backup taken. *)
Definition preparation (before : option Before) (backup : GitCheckpointSnapshot) : list restore_event :=
  if_given (lc_capturePreRestoreState lifecycle) [state_captured before] ++ [backup_taken (Some backup)].

Definition captured (before : option Before) : Prop :=
  match lc_capturePreRestoreState lifecycle with Some _ => is_Some before | None => before = None end.

(** A preparation that failed put nothing in place. *)
Definition only_prepares (event : restore_event) : Prop :=
  match event with state_captured _ | backup_taken None => True | _ => False end.

(** Then, in this order and as far as there are hooks: the files of the checkpoint, its
    run state, the runtime, the check. *)
Definition completed (checkpoint : CheckpointRecord TState) (runtime : option TRuntime) : list restore_event :=
  [files_restored (ck_gitRef checkpoint) true] ++
  if_given (lc_restoreRunState lifecycle) [state_restored (ck_state checkpoint) true] ++
  if_given (lc_createResumedRuntime lifecycle) [runtime_created (Some runtime)] ++
  if_given (lc_validateRestoredState lifecycle) [state_validated runtime true].

(** The same step, when it throws. *)
Definition failed (event : restore_event) : restore_event :=
  match event with
  | files_restored ref _ => files_restored ref false
  | state_restored state _ => state_restored state false
  | runtime_created _ => runtime_created None
  | state_validated runtime _ => state_validated runtime false
  | event => event
  end.

(** The steps stop at the first that throws. *)
Definition interrupted (checkpoint : CheckpointRecord TState) (steps : list restore_event) : Prop :=
  exists runtime done event, completed checkpoint runtime !! done = Some event /\
    steps = take done (completed checkpoint runtime) ++ [failed event].

(** What the steps leave to be undone. *)
Definition made (steps : list restore_event) : option TRuntime :=
  foldr (fun event later => match event with runtime_created (Some runtime) => runtime | _ => later end) None steps.
Definition touched (steps : list restore_event) : bool :=
  existsb (fun event => match event with state_restored _ _ => true | _ => false end) steps.

(** The way back: the runtime that was made is disposed of, the files of the backup are
    restored, and, when the run state was touched, the captured one is put back. *)
Definition undo (steps : list restore_event) (before : option Before) (backup : GitCheckpointSnapshot)
  (disposed workspace state : bool) : list restore_event :=
  match made steps with
  | Some runtime => if_given (lc_disposeResumedRuntime lifecycle) [runtime_disposed runtime disposed]
  | None => []
  end ++
  [files_restored (sn_ref backup) workspace] ++
  if touched steps
  then match before with
       | Some before => if_given (lc_restorePreRestoreState lifecycle) [state_put_back before state]
       | None => []
       end
  else [].

(** A report says of each part that it was undone exactly when there was nothing to undo
    or undoing it returned, and has an error for each that was not. *)
Definition reports (steps : list restore_event) (before : option Before) (disposed workspace state : bool)
  (report : RollbackReport) : Prop :=
  rb_workspaceRestored report = workspace /\
  rb_resumedRuntimeDisposed report =
    match made steps, lc_disposeResumedRuntime lifecycle with
    | None, _ => true | Some _, None => false | Some _, Some _ => disposed
    end /\
  rb_runStateRestored report =
    (if touched steps
     then match before, lc_restorePreRestoreState lifecycle with Some _, Some _ => state | _, _ => false end
     else true) /\
  length (rb_errors report) = length (List.filter negb
    [rb_workspaceRestored report; rb_resumedRuntimeDisposed report; rb_runStateRestored report]).

Definition undone_course (undone_all : bool) (checkpoint : CheckpointRecord TState)
  (backup : GitCheckpointSnapshot) (report : RollbackReport) (events : list restore_event) : Prop :=
  exists before steps disposed workspace state,
    events = preparation before backup ++ steps ++ undo steps before backup disposed workspace state /\
    captured before /\ interrupted checkpoint steps /\ reports steps before disposed workspace state report /\
    undone report = undone_all.

(** What was done when a restore ends this way. *)
Definition course (outcome : TransactionalRestoreResult TState TRuntime) (events : list restore_event) : Prop :=
  match outcome with
  | preparation_failed _ _ => Forall only_prepares events
  | restored checkpoint backup runtime =>
      exists before, events = preparation before backup ++ completed checkpoint runtime
  | rolled_back checkpoint backup _ report => undone_course true checkpoint backup report events
  | rollback_failed checkpoint backup _ report => undone_course false checkpoint backup report events
  end.

(** *** Following the events *)

(** What an action notes down, with where and how it ends. *)
Definition leads {W A} (log : W -> list restore_event) (m : act W A) (w : W)
  (Q : list restore_event -> W -> result ws_fault A -> Prop) : Prop :=
  let '(w', r) := m w in exists events, log w' = log w ++ events /\ Q events w' r.

Lemma leads_silent {W A} log (m : act W A) w Q :
  (let '(w', r) := m w in log w' = log w /\ Q [] w' r) -> leads log m w Q.
Proof. unfold leads. destruct (m w) as [w' r]. intros [E HQ]. exists []. by rewrite app_nil_r. Qed.

Lemma leads_bind {W A B} log (m : act W A) (k : A -> act W B) w Q :
  leads log m w (fun events w1 r =>
    match r with
    | Ok a => leads log (k a) w1 (fun more => Q (events ++ more))
    | Throw e => Q events w1 (Throw e)
    end) ->
  leads log (m ≫= k) w Q.
Proof.
  unfold leads, mbind, act_bind. destruct (m w) as [w1 [a|e]]; intros (events & E & H); [|by exists events].
  destruct (k a w1) as [w2 r]. destruct H as (more & E2 & H). exists (events ++ more).
  by rewrite E2, E, app_assoc.
Qed.

Lemma leads_watch {A} event (m : act World A) (w : Watched) Q :
  (forall o r, Q [event r] (w.1 ++ [event r], o) r) -> leads fst (watch event m) w Q.
Proof. unfold leads, watch. destruct (m w.2) as [o r]. intros H. by exists [event r]. Qed.

Lemma leads_unwatched {A} (m : act World A) (w : Watched) Q :
  (forall o r, Q [] (w.1, o) r) -> leads fst (unwatched m) w Q.
Proof. intros H. apply leads_silent. unfold unwatched. by destruct (m w.2). Qed.

Lemma leads_in_world {A} (m : act Watched A) (x : Watched * progress (TRuntime := TRuntime)) Q :
  leads fst m x.1 (fun events w r => Q events (w, x.2) r) ->
  leads (fun x => x.1.1) (in_world m) x Q.
Proof. unfold leads, in_world. destruct (m x.1) as [w r]. done. Qed.

Ltac leads_tac :=
  repeat first
    [ apply leads_bind
    | apply leads_in_world
    | apply leads_watch; intros ? [?|?]
    | apply leads_unwatched; intros ? [?|?]
    | apply leads_silent; split; [reflexivity|] ];
  cbn [app is_ok value fst snd].

(** *** Every restore takes this course *)

#[local] Abbreviation watched_restore := (restore (watched_git git) (watched_store store)
  (fun a b => unwatched (same_path a b)) (unwatched randomUUID) error_name error_message
  (watched_lifecycle lifecycle)).

Lemma prepare_course checkpoint (w : Watched) :
  leads fst (prepare (watched_git git) (unwatched randomUUID) (watched_lifecycle lifecycle) checkpoint) w
    (fun events _ r =>
       match r with
       | Ok (before, backup) => captured before /\ events = preparation before backup
       | Throw _ => Forall only_prepares events
       end).
Proof.
  unfold prepare, preparation, captured, watched_lifecycle, watched_git.
  cbn [lc_capturePreRestoreState cg_captureWorkspaceSnapshot].
  destruct (lc_capturePreRestoreState lifecycle) as [capture|]; cbn [option_map if_given];
    leads_tac; try (by repeat constructor); unfold act_lift;
    (destruct (recoverySnapshotRefFor _ _) as [ref|e]; [|leads_tac; by repeat constructor]);
    leads_tac; by repeat constructor.
Qed.

Definition untouched : progress (TRuntime := TRuntime) := {| pg_attempted := false; pg_runtime := None |}.

Ltac stops_at runtime :=
  first
    [ by exists runtime, 0%nat; eexists
    | by exists runtime, 1%nat; eexists
    | by exists runtime, 2%nat; eexists
    | by exists runtime, 3%nat; eexists ].

Lemma steps_course checkpoint (w : Watched) : ck_gitRef checkpoint = sn_ref (ck_gitSnapshot checkpoint) ->
  leads (fun x => x.1.1) (restore_steps (watched_git git) (watched_lifecycle lifecycle) checkpoint) (w, untouched)
    (fun events x r =>
       pg_runtime x.2 = made events /\ pg_attempted x.2 = touched events /\
       match r with
       | Ok _ => events = completed checkpoint (pg_runtime x.2)
       | Throw _ => interrupted checkpoint events
       end).
Proof.
  intros Href. unfold restore_steps, interrupted, completed, watched_lifecycle, watched_git. rewrite Href.
  cbn [cg_restoreWorkspaceSnapshot lc_restoreRunState lc_createResumedRuntime lc_validateRestoredState].
  destruct (lc_restoreRunState lifecycle), (lc_createResumedRuntime lifecycle),
    (lc_validateRestoredState lifecycle); cbn [option_map if_given app];
    leads_tac; (split; [reflexivity|split; [reflexivity|]]); first
      [ reflexivity
      | lazymatch goal with
        | runtime : option TRuntime |- _ => stops_at runtime
        | _ => stops_at (@None TRuntime)
        end ].
Qed.

(** A step of the way back. *)
Lemma tried_watch {A} event (m : act World A) (w : Watched) :
  exists o ok errors, tried error_name error_message (watch (fun r => event (is_ok r)) m) w =
    ((w.1 ++ [event ok], o), (ok, errors)) /\ length errors = if ok then 0 else 1.
Proof.
  unfold tried, watch. destruct (m w.2) as [o [a|e]]; cbn [is_ok].
  - by exists o, true, [].
  - by eexists o, false, [_].
Qed.

Lemma roll_back_course before backup steps reached (w : Watched) :
  pg_runtime reached = made steps -> pg_attempted reached = touched steps ->
  let '(w', report) := roll_back (watched_git git) error_name error_message (watched_lifecycle lifecycle)
                         before backup reached w in
  exists disposed workspace state,
    w'.1 = w.1 ++ undo steps before backup disposed workspace state /\
    reports steps before disposed workspace state report.
Proof.
  intros Hr Ha. unfold roll_back, dispose, revert_state, undo, reports, watched_lifecycle, watched_git.
  cbn [cg_restoreWorkspaceSnapshot lc_disposeResumedRuntime lc_restorePreRestoreState].
  rewrite Hr, Ha. clear Hr Ha.
  destruct (made steps) as [runtime|], (lc_disposeResumedRuntime lifecycle) as [dispose|], (touched steps),
    before as [b|], (lc_restorePreRestoreState lifecycle) as [put_back|]; cbn [option_map if_given app].
  all: repeat lazymatch goal with
    | |- context [tried _ _ (watch ?f ?m) ?w0] =>
        let event := lazymatch f with
                     | fun r => runtime_disposed ?x (is_ok r) => constr:(runtime_disposed x)
                     | fun r => files_restored ?x (is_ok r) => constr:(files_restored x)
                     | fun r => state_put_back ?x (is_ok r) => constr:(state_put_back x)
                     end in
        destruct (tried_watch event m w0) as (? & ? & ? & -> & ?)
    end.
  all: cbn [fst rb_workspaceRestored rb_resumedRuntimeDisposed rb_runStateRestored rb_errors].
  all: eexists _, _, _; split; [rewrite <- ?app_assoc; reflexivity|].
  all: split; [reflexivity|split; [reflexivity|split; [reflexivity|]]].
  all: repeat (progress (rewrite ?length_app; cbn [app length])); repeat match goal with
    | H : length _ = (if ?ok then _ else _) |- _ => rewrite H; clear H; destruct ok
    end; reflexivity.
  Unshelve. all: exact false.
Qed.

(** C35: A restore is a transaction over its parties: the Git service, the hooks around
    it and the runtime they make, whatever these do.  While another restore runs it
    throws and asks nothing of them, and it leaves the service's flag as it found it.
    Otherwise: a restore that throws has done no more than read the checkpoint and the
    root of the repository, and one whose preparation failed has put nothing in place.  One that succeeds took the backup
    first and then did every step that has a hook, in order, each of which returned.
    In every other case a step threw, no later one was begun, and the way back was
    taken: a runtime that was made is disposed of, the files of the backup that was
    taken are restored, and a run state that was touched is replaced by the one
    captured, each where there is a hook for it.  The report says of each of the three
    that it was undone exactly when there was nothing to undo or undoing it returned,
    has an error for each that was not, and the outcome is a rollback exactly when all
    three were undone.  No snapshot is deleted.  (What the parties do with the files
    is theirs: [git clean -f -d], for one, leaves ignored files and nested
    repositories where they are.) *)
Theorem restore_transactional id busy (w : Watched) :
  let '((busy', w'), r) := watched_restore id (busy, w) in
  busy' = busy /\ (busy = true -> r = Throw CheckpointRestoreInProgressError) /\
  exists events, w'.1 = w.1 ++ events /\
    match r with
    | Throw _ => events = []
    | Ok outcome => course outcome events
    end.
Proof.
  unfold restore. cbn [fst snd]. destruct busy.
  { split; [done|split; [done|]]. exists []. by rewrite app_nil_r. }
  assert (leads fst (restore_body (watched_git git) (watched_store store) (fun a b => unwatched (same_path a b))
    (unwatched randomUUID) error_name error_message (watched_lifecycle lifecycle) id) w (fun events _ r =>
      match r with Throw _ => events = [] | Ok outcome => course outcome events end)) as H;
    [|unfold leads in H; by destruct (restore_body _ _ _ _ _ _ _ id w) as [w' r]].
  unfold restore_body. apply leads_bind, leads_unwatched. intros o1 [[checkpoint|]|e]; [|by leads_tac|done].
  apply leads_bind, leads_unwatched. intros o2 [root|e]; [|done].
  apply leads_bind, leads_unwatched. intros o3 [same|e]; [|done].
  destruct (negb same); [leads_tac; by constructor|].
  destruct (ck_gitRef checkpoint !== _) eqn:Eg; [leads_tac; by constructor|].
  apply Bool.negb_false_iff, bool_decide_eq_true in Eg. cbn [app].
  pose proof (prepare_course checkpoint (w.1, o3)) as Hp. unfold leads in *. cbn [fst] in Hp.
  destruct (prepare _ _ _ _ _) as [w4 [[before backup]|e]]; destruct Hp as (events & E & Hp); [|by exists events].
  destruct Hp as [Hb ->].
  pose proof (steps_course checkpoint w4 Eg) as Hs. unfold attempt, leads in *. fold untouched.
  destruct (restore_steps _ _ _ _) as [[w5 reached] [[]|e]]; destruct Hs as (steps & E5 & Hr & Ha & Hs);
    cbn [fst snd] in *.
  { exists (preparation before backup ++ steps). rewrite E5, E, app_assoc. split; [done|].
    exists before. by rewrite Hs. }
  pose proof (roll_back_course before backup steps reached w5 Hr Ha) as Hback.
  destruct (roll_back _ _ _ _ _ _ _ w5) as [w6 report].
  destruct Hback as (disposed & workspace & state & E6 & Hreport).
  exists (preparation before backup ++ steps ++ undo steps before backup disposed workspace state).
  split; [by rewrite E6, E5, E, !app_assoc|].
  destruct (undone report) eqn:Eu; by exists before, steps, disposed, workspace, state.
Qed.
End Watched.

(** ** A restore that is rolled back *)

Section Demo.
(** A world whose workspace and run state are numbers. *)
Record demo_world := { dw_files : nat; dw_state : nat; dw_refs : text -> option nat }.

Definition demo_snapshot (ref : text) : GitCheckpointSnapshot :=
  {| sn_ref := ref; sn_commit := []; sn_baseCommit := []; sn_indexCommit := []; sn_capturedAt := [] |}.

Definition demo_capture (ref : text) (_ : option text) : act demo_world GitCheckpointSnapshot := fun w =>
  match dw_refs w ref with
  | Some _ => (w, Throw (GitSnapshotError (txt "taken")))
  | None => ({| dw_files := dw_files w; dw_state := dw_state w;
                dw_refs := fun other => if bool_decide (other = ref) then Some (dw_files w) else dw_refs w other |},
             Ok (demo_snapshot ref))
  end.
Definition demo_restore_files (ref : text) : act demo_world GitCheckpointSnapshot := fun w =>
  match dw_refs w ref with
  | None => (w, Throw (GitSnapshotError (txt "missing")))
  | Some files => ({| dw_files := files; dw_state := dw_state w; dw_refs := dw_refs w |}, Ok (demo_snapshot ref))
  end.
Definition demo_set_state (state : nat) : act demo_world unit := fun w =>
  ({| dw_files := dw_files w; dw_state := state; dw_refs := dw_refs w |}, Ok tt).

Definition demo_git : CheckpointGit demo_world :=
  {| cg_getRepositoryRoot := mret (txt "/w");
     cg_captureCheckpoint := fun _ _ _ => act_throw CheckpointRestoreInProgressError;
     cg_captureWorkspaceSnapshot := demo_capture;
     cg_restoreWorkspaceSnapshot := demo_restore_files;
     cg_deletePrivateRef := fun _ => mret tt |}.

Definition demo_checkpoint : CheckpointRecord nat :=
  {| ck_id := txt "c"; ck_runId := txt "r"; ck_sequence := ofZ 1; ck_workspacePath := txt "/w";
     ck_gitRef := txt "ref"; ck_gitSnapshot := demo_snapshot (txt "ref"); ck_state := 7; ck_createdAt := [] |}.
Definition demo_store : CheckpointStore demo_world nat :=
  {| cs_save := fun _ => mret tt; cs_get := fun _ => mret (Some demo_checkpoint); cs_list := fun _ => mret [] |}.

(** The run state is put back, the runtime made, and then the check fails. *)
Definition demo_lifecycle : RestoreLifecycle demo_world nat unit nat :=
  {| lc_capturePreRestoreState := Some (fun w => (w, Ok (dw_state w)));
     lc_restoreRunState := Some (fun state _ => demo_set_state state);
     lc_restorePreRestoreState := Some demo_set_state;
     lc_createResumedRuntime := Some (fun _ => mret (Some tt));
     lc_validateRestoredState := Some (fun _ _ => act_throw (OtherError [] (txt "inconsistent") None));
     lc_disposeResumedRuntime := Some (fun _ => mret tt) |}.

Definition demo_same (a b : text) : act demo_world bool := mret (bool_decide (a = b)).
Definition demo_before : demo_world :=
  {| dw_files := 5; dw_state := 3; dw_refs := fun ref => if bool_decide (ref = txt "ref") then Some 4 else None |}.

Definition demo_restore (w : demo_world) :=
  restore (watched_git demo_git) (watched_store demo_store) (fun a b => unwatched (demo_same a b))
    (unwatched (mret (txt "u"))) (fun _ => []) (fun _ => []) (watched_lifecycle demo_lifecycle) (txt "c")
    (false, ([], w)).

Definition demo_backup : text := txt "refs/ottili/coder/r/recovery/u".

(** Everything is done, the check fails, and everything is undone. *)
Example restore_rolls_back :
  let '((busy, (events, w)), r) := demo_restore demo_before in
  events = [state_captured (Some 3); backup_taken (Some (demo_snapshot demo_backup));
            files_restored (txt "ref") true; state_restored 7 true; runtime_created (Some (Some tt));
            state_validated (Some tt) false;
            runtime_disposed tt true; files_restored demo_backup true; state_put_back 3 true] /\
  (dw_files w, dw_state w) = (5, 3) /\
  match r with Ok (rolled_back _ _ _ report) => rb_errors report = [] | _ => False end.
Proof. vm_compute. repeat split. Qed.
End Demo.
