(* ===== verification/Planner.v ===== *)
(** The context planner: packages/context/src/planner.ts.

    A turn's context is chosen from items that compete for a budget of tokens.
    Fixed items are chosen first, then the candidates in the order of their rank;
    an item that is too long may be cut to the longest part of it that fits. *)

From Stdlib Require Import ZArith NArith Lia Ascii ZifyBool.
From stdpp Require Import base strings list sorting.
From S2P Require Import Prelude JsNumber JsDecimal JsText JsCollections OcfValue Paths Git.

Open Scope string_scope.
Open Scope list_scope.
Open Scope Z_scope.

(** ** Data *)

(** Source: packages/context/src/planner.ts:22-36 [ContextItem]. *)
Record ContextItem := {
  ci_id : text;
  ci_source : text;
  ci_content : text;
  ci_priority : option num;
  ci_relevance : option num;
  ci_required : option bool;
  ci_allowTruncate : option bool;
  ci_maxTokens : option num }.

(** Source: packages/context/src/planner.ts:38-46 [ContextPlanInput]. *)
Record ContextPlanInput := {
  cpi_budgetTokens : num;
  cpi_fixed : list ContextItem;
  cpi_candidates : list ContextItem;
  cpi_items : list ContextItem }.

(** Source: packages/context/src/planner.ts:48-58 [PlannedContextItem]. *)
Record PlannedContextItem := {
  pi_id : text;
  pi_source : text;
  pi_content : text;
  pi_rendered : text;
  pi_estimatedTokens : Z;
  pi_priority : num;
  pi_relevance : num;
  pi_required : bool;
  pi_truncated : bool }.

Inductive omission_reason : Type := budget_exhausted | item_too_large.

(** Source: packages/context/src/planner.ts:60-64 [OmittedContextItem]. *)
Record OmittedContextItem := {
  oi_id : text;
  oi_source : text;
  oi_reason : omission_reason }.

(** Source: packages/context/src/planner.ts:66-72 [ContextPlan]. *)
Record ContextPlan := {
  cp_budgetTokens : Z;
  cp_usedTokens : Z;
  cp_text : text;
  cp_selected : list PlannedContextItem;
  cp_omitted : list OmittedContextItem }.

(** Source: packages/context/src/planner.ts:74-83 [NormalizedItem]. *)
Record NormalizedItem := {
  ni_id : text;
  ni_source : text;
  ni_content : text;
  ni_priority : num;
  ni_relevance : num;
  ni_required : bool;
  ni_allowTruncate : bool;
  ni_maxTokens : option Z }.

(** The [TypeError]s of the planner, by their messages. *)
Inductive context_fault : Type := ContextTypeError (message : text).

Definition half : num := Fin (one_units / 2).

(** ** Normalisation *)

(** Source: packages/context/src/planner.ts:85-99 [sourceWeight]. *)
Definition sourceWeight : list (text * Z) :=
  [(txt "mission", 10); (txt "goal", 9); (txt "policy", 9); (txt "task", 8); (txt "run_state", 7);
   (txt "validation", 6); (txt "file", 5); (txt "git", 5); (txt "lsp", 5); (txt "semantic", 4);
   (txt "memory", 4); (txt "repo_map", 3); (txt "tool_history", 2)].

(** A safe integer is returned as one.
    Source: packages/context/src/planner.ts:101-105 [validateBudget]. *)
Definition validateBudget (value : num) (label : text) : result context_fault Z :=
  if negb (isSafeInteger value) || js_lt value (ofZ 0)
  then Throw (ContextTypeError (label ++ txt " must be a non-negative safe integer"))
  else Ok (toZ value).

Definition about (id : text) (rest : string) : context_fault :=
  ContextTypeError (txt "Context item " ++ id ++ txt rest).

(** Source: packages/context/src/planner.ts:107-144 [normalizeItem]. *)
Definition normalizeItem (forceRequired : bool) (item : ContextItem) : result context_fault NormalizedItem :=
  let id := ci_id item in
  let priority := default (ofZ 0) (ci_priority item) in
  let relevance := default half (ci_relevance item) in
  let required := forceRequired || default false (ci_required item) in
  _ ← throw_if (trim id === []) (ContextTypeError (txt "Context item id must not be empty"));
  _ ← throw_if (trim (ci_source item) === []) (about id " must have a source");
  _ ← throw_if (negb (isFinite priority)) (about id " priority must be finite");
  _ ← throw_if (negb (isFinite relevance) || js_lt relevance (ofZ 0) || js_lt (ofZ 1) relevance)
        (about id " relevance must be between 0 and 1");
  maxTokens ← match ci_maxTokens item with
              | None => Ok None
              | Some n => m ← validateBudget n (txt "Context item " ++ id ++ txt " maxTokens"); Ok (Some m)
              end;
  Ok {| ni_id := id; ni_source := ci_source item; ni_content := ci_content item;
        ni_priority := priority; ni_relevance := relevance; ni_required := required;
        ni_allowTruncate := default required (ci_allowTruncate item); ni_maxTokens := maxTokens |}.

(** Source: packages/context/src/planner.ts:146-150 [sourcePriority]. *)
Definition sourcePriority (source : text) : Z := default 0 (jm_get sourceWeight source).

(** Source: packages/context/src/planner.ts:152-156 [rank]. *)
Definition rank (item : NormalizedItem) : num :=
  js_add (js_add (js_mul (ni_priority item) (ofZ 100)) (js_mul (ni_relevance item) (ofZ 10)))
    (ofZ (sourcePriority (ni_source item))).

(** ** Blocks *)

(** Source: packages/context/src/planner.ts:158-162 [blockFor]. *)
Definition blockFor (item : NormalizedItem) (content : text) : text :=
  ch "[" :: ni_source item ++ ch ":" :: ni_id item ++ ch "]" :: newline :: content.

Definition separated (separator : text) (item : NormalizedItem) (content : text) : text :=
  separator ++ blockFor item content.

(** A line feed, U+2026 and [[truncated]]. *)
Definition marker : text := newline :: 8230%N :: txt "[truncated]".

(** [[...s]]: a surrogate pair is one code point. *)
Fixpoint code_points (s : text) : list text :=
  match s with
  | c :: r =>
      match r with
      | d :: r' => if is_high_surrogate c && is_low_surrogate d then [c; d] :: code_points r'
                   else [c] :: code_points r
      | [] => [[c]]
      end
  | [] => []
  end.

(** The search of the code: [selected] is the last middle that fitted. *)
Fixpoint search (fits : nat -> bool) (fuel : nat) (low high : Z) (selected : option nat) : option nat :=
  match fuel with
  | O => selected
  | S fuel =>
      if low <=? high then
        let middle := (low + high) / 2 in
        if fits (Z.to_nat middle) then search fits fuel (middle + 1) high (Some (Z.to_nat middle))
        else search fits fuel low (middle - 1) selected
      else selected
  end.

(** What is left of a content that is cut, and whether it fits. *)
Definition cut (content : text) (middle : nat) : text := concat (take middle (code_points content)) ++ marker.
Definition fits (item : NormalizedItem) (separator : text) (localBudget : Z) (content : text) : bool :=
  estimateTokens (separated separator item content) <=? localBudget.
Definition local_budget (item : NormalizedItem) (budget : Z) : Z :=
  match ni_maxTokens item with
  | None => budget
  | Some maxTokens => Z.min budget maxTokens
  end.

(** The content that fits and whether it was cut.
    Source: packages/context/src/planner.ts:164-196 [truncateToBudget]. *)
Definition truncateToBudget (item : NormalizedItem) (separator : text) (budget : Z) : option (text * bool) :=
  let localBudget := local_budget item budget in
  if fits item separator localBudget (ni_content item) then Some (ni_content item, false)
  else if negb (ni_allowTruncate item) then None
  else
    let high := length (code_points (ni_content item)) in
    match search (fun middle => fits item separator localBudget (cut (ni_content item) middle))
            (S high) 0 (Z.of_nat high) None with
    | None => None
    | Some middle => Some (cut (ni_content item) middle, true)
    end.

(** Source: packages/context/src/planner.ts:198-219 [toPlanItem]. *)
Definition toPlanItem (item : NormalizedItem) (separator : text) (remaining : Z) : option PlannedContextItem :=
  match truncateToBudget item separator remaining with
  | None => None
  | Some (content, truncated) =>
      let rendered := separated separator item content in
      let estimatedTokens := estimateTokens rendered in
      if remaining <? estimatedTokens then None
      else Some {| pi_id := ni_id item; pi_source := ni_source item; pi_content := content;
                   pi_rendered := rendered; pi_estimatedTokens := estimatedTokens;
                   pi_priority := ni_priority item; pi_relevance := ni_relevance item;
                   pi_required := ni_required item; pi_truncated := truncated |}
  end.

Definition blank_line : text := [newline; newline].

(** Source: packages/context/src/planner.ts:221-230 [omission]. *)
Definition omission (item : NormalizedItem) (remaining : Z) : OmittedContextItem :=
  let minimum := estimateTokens (blockFor item []) +
                 (if remaining =? 0 then 0 else estimateTokens blank_line) in
  {| oi_id := ni_id item; oi_source := ni_source item;
     oi_reason := if remaining <? minimum then item_too_large else budget_exhausted |}.

(** ** The plan *)

(** [number || rest]: a difference decides unless it is zero or not a number. *)
Definition unless_equal (difference : num) (rest : bool) : bool :=
  if js_lt difference (ofZ 0) then true
  else if js_lt (ofZ 0) difference then false
  else rest.

Definition concat_rendered (selected : list PlannedContextItem) : text := concat (map pi_rendered selected).

(** What has been selected and omitted, and the tokens used. *)
Record choice := {
  ch_selected : list PlannedContextItem;
  ch_omitted : list OmittedContextItem;
  ch_used : Z }.

(** Source: packages/context/src/planner.ts:262-271 [ContextPlanner.plan, choose]. *)
Definition choose (budgetTokens : Z) (st : choice) (item : NormalizedItem) : choice :=
  let separator := match ch_selected st with [] => [] | _ => blank_line end in
  match toPlanItem item separator (budgetTokens - ch_used st) with
  | None =>
      {| ch_selected := ch_selected st;
         ch_omitted := ch_omitted st ++ [omission item (budgetTokens - ch_used st)];
         ch_used := ch_used st |}
  | Some planned =>
      {| ch_selected := ch_selected st ++ [planned]; ch_omitted := ch_omitted st;
         ch_used := ch_used st + pi_estimatedTokens planned |}
  end.

(** The correction of the plan, over the selected items from the last one.
    Source: packages/context/src/planner.ts:276-287 [ContextPlanner.plan, correction]. *)
Fixpoint correct (budgetTokens : Z) (reversed : list PlannedContextItem) (omitted : list OmittedContextItem)
  : list PlannedContextItem * list OmittedContextItem :=
  match reversed with
  | [] => ([], omitted)
  | removed :: rest =>
      if budgetTokens <? estimateTokens (concat_rendered (rev reversed)) then
        correct budgetTokens rest
          (omitted ++ [{| oi_id := pi_id removed; oi_source := pi_source removed;
                          oi_reason := budget_exhausted |}])
      else (rev reversed, omitted)
  end.

(** Source: packages/context/src/planner.ts:242-247 [ContextPlanner.plan, duplicates]. *)
Fixpoint check_duplicates (identifiers : list text) (all : list NormalizedItem) : result context_fault unit :=
  match all with
  | [] => Ok tt
  | item :: rest =>
      if existsb (fun id => id === ni_id item) identifiers
      then Throw (ContextTypeError (txt "Duplicate context item id " ++ ni_id item))
      else check_duplicates (identifiers ++ [ni_id item]) rest
  end.

Section Planner.
(** [left.localeCompare(right) <= 0] *)
Context (localeCompare_le : text -> text -> bool).

(** The comparator of the fixed items is at most zero.
    Source: packages/context/src/planner.ts:249-254 [ContextPlanner.plan, fixed.sort]. *)
Definition fixed_le (left right : NormalizedItem) : bool :=
  unless_equal (js_sub (ni_priority right) (ni_priority left))
    (unless_equal (js_sub (ofZ (sourcePriority (ni_source right))) (ofZ (sourcePriority (ni_source left))))
       (localeCompare_le (ni_id left) (ni_id right))).

(** Source: packages/context/src/planner.ts:255-258 [ContextPlanner.plan, candidates.sort]. *)
Definition rank_le (left right : NormalizedItem) : bool :=
  unless_equal (js_sub (rank right) (rank left)) (localeCompare_le (ni_id left) (ni_id right)).

Definition nothing_chosen : choice := {| ch_selected := []; ch_omitted := []; ch_used := 0 |}.

(** Everything is offered, the fixed items first. *)
Definition choose_all (budgetTokens : Z) (fixed candidates : list NormalizedItem) : choice :=
  foldl (choose budgetTokens) nothing_chosen (sort_by fixed_le fixed ++ sort_by rank_le candidates).

(** Source: packages/context/src/planner.ts:234-300 [ContextPlanner.plan, planContext]. *)
Definition planContext (input : ContextPlanInput) : result context_fault ContextPlan :=
  budgetTokens ← validateBudget (cpi_budgetTokens input) (txt "Context budget");
  fixed ← mapM (normalizeItem true) (cpi_fixed input);
  candidates ← mapM (normalizeItem false) (cpi_candidates input ++ cpi_items input);
  _ ← check_duplicates [] (fixed ++ candidates);
  let chosen := choose_all budgetTokens fixed candidates in
  let '(selected, omitted) := correct budgetTokens (rev (ch_selected chosen)) (ch_omitted chosen) in
  let finalText := concat_rendered selected in
  Ok {| cp_budgetTokens := budgetTokens; cp_usedTokens := estimateTokens finalText; cp_text := finalText;
        cp_selected := selected; cp_omitted := omitted |}.
End Planner.

(** * The token estimate of the context format (value.ts): it is additive over text that
is joined at white space, and never more than the sum of its parts. *)

(** ** The cost of a text *)

(** What a piece counts for; what the word that has begun counts for; and what a
    text counts for when its first word began [run] units before. *)
Definition weight (piece : Z) : Z := Z.max 1 (quarter piece).
Definition word_cost (run : Z) : Z := if run =? 0 then 0 else weight run.
Definition sum (l : list Z) : Z := foldr Z.add 0 l.
Definition cost (s : text) (run : Z) : Z := sum (map weight (lexicalPieces s run)).

Lemma fold_sum l n :
  foldl (fun total piece => total + Z.max 1 (quarter piece)) n l = n + sum (map weight l).
Proof. revert n. induction l as [|x l IH]; intros n; cbn; [lia|]. rewrite IH. unfold weight, sum. lia. Qed.

Lemma estimate_cost s : estimateTokens s =
  match lexicalPieces s 0 with [] => quarter (Z.of_nat (length s)) | _ => cost s 0 end.
Proof.
  destruct s as [|c s]; [done|]. unfold estimateTokens, cost.
  destruct (lexicalPieces (c :: s) 0) as [|p ps]; [done|]. by rewrite fold_sum.
Qed.

Lemma quarter_add a b : quarter (a + b) <= quarter a + quarter b.
Proof. unfold quarter. Z.to_euclidean_division_equations. lia. Qed.
Lemma quarter_mono a b : a <= b -> quarter a <= quarter b.
Proof. intros. unfold quarter. apply Z.div_le_mono; lia. Qed.

Lemma word_cost_nonneg r : 0 <= word_cost r.
Proof. unfold word_cost, weight. destruct (r =? 0); lia. Qed.
Lemma word_cost_mono r k : 0 <= r -> r <= k -> word_cost r <= word_cost k.
Proof.
  unfold word_cost, weight. intros. pose proof (quarter_mono r k).
  destruct (Z.eqb_spec r 0), (Z.eqb_spec k 0); lia.
Qed.
Lemma word_cost_add r k : 0 <= r -> 0 <= k -> word_cost (r + k) <= word_cost r + word_cost k.
Proof.
  unfold word_cost, weight. intros. pose proof (quarter_add r k).
  destruct (Z.eqb_spec r 0), (Z.eqb_spec k 0), (Z.eqb_spec (r + k) 0); subst; rewrite ?Z.add_0_r, ?Z.add_0_l; lia.
Qed.

(** How a text counts, unit by unit. *)
Lemma cost_nil run : cost [] run = word_cost run.
Proof. unfold cost, word_cost. cbn. destruct (run =? 0); cbn; lia. Qed.

Lemma cost_pieces run pieces :
  sum (map weight ((if run =? 0 then [] else [run]) ++ pieces)) = word_cost run + sum (map weight pieces).
Proof. unfold word_cost, sum. destruct (run =? 0); cbn; lia. Qed.

Lemma cost_word c s run : is_word c = true -> cost (c :: s) run = cost s (run + 1).
Proof. intros H. unfold cost. cbn [lexicalPieces]. by rewrite H. Qed.

Lemma cost_space c s run : is_word c = false -> is_space c = true ->
  cost (c :: s) run = word_cost run + cost s 0.
Proof. intros Hw Hs. unfold cost. cbn [lexicalPieces]. rewrite Hw, Hs. apply cost_pieces. Qed.

(** The text after a symbol: a pair of surrogates is one symbol. *)
Definition after_symbol (c : N) (s : text) : text :=
  match s with
  | d :: r => if is_high_surrogate c && is_low_surrogate d then r else s
  | [] => s
  end.

Lemma cost_symbol c s run : is_word c = false -> is_space c = false ->
  cost (c :: s) run = word_cost run + 1 + cost (after_symbol c s) 0.
Proof.
  intros Hw Hs. unfold cost, after_symbol. cbn [lexicalPieces]. rewrite Hw, Hs.
  assert (weight 1 = 1) as W1 by done. assert (weight 2 = 1) as W2 by done.
  destruct (is_high_surrogate c), s as [|d s]; cbn [andb]; [|destruct (is_low_surrogate d)| |];
    rewrite cost_pieces; unfold sum; cbn [map foldr lexicalPieces Z.eqb app]; lia.
Qed.

Lemma after_symbol_length c s : (length (after_symbol c s) <= length s)%nat.
Proof. destruct s as [|d s]; [done|]. cbn. case_match; cbn; lia. Qed.

(** What each unit does. *)
Inductive unit_kind (c : N) : Prop :=
| kind_word : is_word c = true -> unit_kind c
| kind_space : is_word c = false -> is_space c = true -> unit_kind c
| kind_symbol : is_word c = false -> is_space c = false -> unit_kind c.

Lemma kind_of c : unit_kind c.
Proof. destruct (is_word c) eqn:?; [by constructor|]. destruct (is_space c) eqn:?; by constructor. Qed.

(** Induction over the symbols of a text. *)
Lemma symbols_ind (P : text -> Prop) : P [] ->
  (forall c s, P s -> P (after_symbol c s) -> P (c :: s)) -> forall s, P s.
Proof.
  intros H0 Hs. induction s as [s IH] using (induction_ltof1 _ (@length N)). unfold ltof in IH.
  destruct s as [|c s]; [done|]. pose proof (after_symbol_length c s). apply Hs; apply IH; cbn; lia.
Qed.

(** A word that began earlier adds at most its own cost, and at least nothing. *)
Lemma cost_run s r k : 0 <= r -> 0 <= k -> cost s k <= cost s (r + k) <= word_cost r + cost s k.
Proof.
  intros Hr. revert k. induction s as [|c s IH]; intros k Hk.
  - rewrite !cost_nil. split; [apply word_cost_mono; lia|by apply word_cost_add].
  - destruct (kind_of c) as [Hw|Hw Hs|Hw Hs].
    + rewrite !cost_word by done. specialize (IH (k + 1)). rewrite Z.add_assoc in IH. apply IH. lia.
    + rewrite !cost_space by done. pose proof (word_cost_add r k). pose proof (word_cost_mono k (r + k)). lia.
    + rewrite !cost_symbol by done. pose proof (word_cost_add r k). pose proof (word_cost_mono k (r + k)). lia.
Qed.

Lemma cost_nonneg s run : 0 <= run -> word_cost run <= cost s run.
Proof.
  revert run. induction s as [|c s IH IH'] using symbols_ind; intros run Hr; [by rewrite cost_nil|].
  pose proof (word_cost_mono run (run + 1)). pose proof (IH 0). pose proof (IH' 0).
  pose proof (word_cost_nonneg 0).
  destruct (kind_of c) as [Hw|Hw Hs|Hw Hs]; rewrite ?cost_word, ?cost_space, ?cost_symbol by done; try lia.
  specialize (IH (run + 1)). lia.
Qed.

(** Joining texts never costs more, and a part never costs more than the whole. *)
Lemma cost_app a b run : 0 <= run -> cost a run <= cost (a ++ b) run <= cost a run + cost b 0.
Proof.
  revert run. induction a as [|c a IH IH'] using symbols_ind; intros run Hr.
  - rewrite cost_nil. cbn [app]. pose proof (cost_run b run 0). pose proof (cost_nonneg b run).
    rewrite Z.add_0_r in *. lia.
  - cbn [app]. destruct (kind_of c) as [Hw|Hw Hs|Hw Hs].
    + rewrite !cost_word by done. apply IH. lia.
    + rewrite !cost_space by done. specialize (IH 0). lia.
    + rewrite !cost_symbol by done. specialize (IH' 0). destruct a as [|d a].
      * cbn [app after_symbol]. rewrite cost_nil. cbn. destruct b as [|d b]; [cbn; lia|].
        cbn [after_symbol]. pose proof (cost_nonneg (d :: b) 0). pose proof (word_cost_nonneg 0).
        destruct (is_high_surrogate c) eqn:Hh, (is_low_surrogate d) eqn:Hl; cbn [andb]; try lia.
        pose proof (cost_nonneg b 0). assert (cost b 0 <= cost (d :: b) 0); [|lia].
        destruct (kind_of d) as [Hw'|Hw' Hs'|Hw' Hs'].
        -- rewrite cost_word by done. apply (cost_run b 1 0); lia.
        -- rewrite cost_space by done. lia.
        -- rewrite cost_symbol by done. destruct b as [|x b]; cbn [after_symbol]; [lia|].
           assert (is_high_surrogate d = false) as ->; [|cbn; lia].
           apply Bool.not_true_is_false. intros H3. unfold is_low_surrogate, is_high_surrogate in *.
           apply within_true in Hl, H3. lia.
      * cbn [app after_symbol] in *. destruct (is_high_surrogate c && is_low_surrogate d); [lia|].
        change (d :: a ++ b) with ((d :: a) ++ b). lia.
Qed.

(** At white space the cost is the sum. *)
Lemma cost_app_space (a : text) c (b : text) run : is_word c = false -> is_space c = true -> is_low_surrogate c = false ->
  cost (a ++ c :: b) run = cost a run + cost b 0.
Proof.
  intros Hw Hs Hl. revert run. induction a as [|d a IH IH'] using symbols_ind; intros run.
  - cbn [app]. by rewrite cost_space, cost_nil.
  - cbn [app]. destruct (kind_of d) as [Hw'|Hw' Hs'|Hw' Hs'].
    + by rewrite !cost_word, IH.
    + rewrite !cost_space, IH by done. lia.
    + rewrite !cost_symbol by done.
      assert (after_symbol d (a ++ c :: b) = after_symbol d a ++ c :: b) as ->; [|rewrite IH'; lia].
      destruct a as [|x a]; cbn; [by rewrite Hl, andb_false_r|]. by case_match.
Qed.

(** ** The estimate *)

Lemma pieces_nil s run : 0 <= run -> lexicalPieces s run = [] -> run = 0 /\ Forall (fun c => is_word c = false /\ is_space c = true) s.
Proof.
  revert run. induction s as [|c s IH]; intros run Hr; cbn [lexicalPieces].
  { destruct (Z.eqb_spec run 0); [by split|done]. }
  destruct (is_word c) eqn:Hw; [intros H; apply IH in H; lia|].
  destruct (is_space c) eqn:Hs.
  - destruct (Z.eqb_spec run 0); [|done]. intros H. apply IH in H as [_ H]; [|lia]. split; [done|].
    by constructor.
  - intros H. repeat case_match; try done; destruct (run =? 0) in H; done.
Qed.

Lemma cost_blank s : Forall (fun c => is_word c = false /\ is_space c = true) s -> cost s 0 = 0.
Proof. induction 1 as [|c s [Hw Hs] _ IH]; [done|]. by rewrite cost_space, IH. Qed.

Lemma blank_app a b : Forall (fun c => is_word c = false /\ is_space c = true) a ->
  lexicalPieces (a ++ b) 0 = lexicalPieces b 0.
Proof.
  induction 1 as [|c a [Hw Hs] _ IH]; [done|]. cbn [app lexicalPieces]. by rewrite Hw, Hs, IH.
Qed.

Lemma cost_estimate s : cost s 0 <= estimateTokens s.
Proof.
  rewrite estimate_cost. destruct (lexicalPieces s 0) eqn:E; [|lia].
  apply pieces_nil in E as [_ E]; [|lia]. rewrite (cost_blank _ E). unfold quarter.
  Z.to_euclidean_division_equations. lia.
Qed.

Lemma estimate_nonneg s : 0 <= estimateTokens s.
Proof. pose proof (cost_nonneg s 0). pose proof (cost_estimate s). pose proof (word_cost_nonneg 0). lia. Qed.

(** The estimate of joined texts is at most the sum of their estimates. *)
Lemma estimate_subadditive a b : estimateTokens (a ++ b) <= estimateTokens a + estimateTokens b.
Proof.
  destruct (lexicalPieces a 0) eqn:Ea.
  - pose proof (pieces_nil a 0 ltac:(lia) Ea) as [_ Ha]. rewrite (estimate_cost (a ++ b)), blank_app by done.
    rewrite (estimate_cost a), Ea. rewrite (estimate_cost b). destruct (lexicalPieces b 0) eqn:Eb.
    + rewrite length_app, Nat2Z.inj_add. apply quarter_add.
    + unfold cost. rewrite blank_app by done. unfold quarter. Z.to_euclidean_division_equations. lia.
  - rewrite (estimate_cost (a ++ b)). pose proof (cost_app a b 0). pose proof (cost_estimate b).
    rewrite (estimate_cost a), Ea. destruct (lexicalPieces (a ++ b) 0) eqn:Eab; [|lia].
    apply pieces_nil in Eab as [_ Hab]; [|lia]. apply Forall_app in Hab as [Hab _].
    assert (lexicalPieces (a ++ []) 0 = []) as E0 by by rewrite blank_app. rewrite app_nil_r in E0. congruence.
Qed.

(** A text with a piece is estimated at its cost. *)
Lemma estimate_pieces s : lexicalPieces s 0 <> [] -> estimateTokens s = cost s 0.
Proof. rewrite estimate_cost. by destruct (lexicalPieces s 0). Qed.
Lemma pieces_some s c : c ∈ s -> is_space c = false -> lexicalPieces s 0 <> [].
Proof.
  intros Hc Hs E. apply pieces_nil in E as [_ E]; [|lia]. rewrite Forall_forall in E.
  apply E in Hc as [_ Hc]. congruence.
Qed.
