(* ===== verification/PlannerFacts.v ===== *)
(** What the context planner promises: the theorems about Planner.v. *)

From Stdlib Require Import ZArith NArith Lia Ascii ZifyBool.
From stdpp Require Import base strings list sorting.
From S2P Require Import Prelude JsNumber JsDecimal JsText JsCollections OcfValue Planner Paths Git.

Open Scope string_scope.
Open Scope list_scope.
Open Scope Z_scope.

(** ** Cutting an item *)

(** The reference: the largest length that fits, tried from the top. *)
Fixpoint longest (fits : nat -> bool) (n : nat) : option nat :=
  if fits n then Some n
  else match n with
       | O => None
       | S n => longest fits n
       end.

Lemma longest_skip fits k n : (k <= n)%nat -> (forall m, (k < m <= n)%nat -> fits m = false) ->
  longest fits n = longest fits k.
Proof.
  induction n as [|n IH]; intros Hk Hf; [by replace k with 0%nat by lia|].
  destruct (decide (k = S n)) as [->|]; [done|]. cbn [longest]. rewrite Hf by lia.
  apply IH; [lia|]. intros m Hm. apply Hf. lia.
Qed.

Lemma longest_none fits n : (forall m, (m <= n)%nat -> fits m = false) -> longest fits n = None.
Proof.
  induction n as [|n IH]; intros Hf; cbn [longest]; rewrite Hf by lia; [done|]. apply IH. intros m Hm. apply Hf. lia.
Qed.

Section Search.
Context (fits : nat -> bool) (fits_mono : forall a b, (a <= b)%nat -> fits b = true -> fits a = true).

(** Everything below [low] fits and nothing above [high] does. *)
Lemma search_longest_from n fuel low high : 0 <= low <= high + 1 -> high <= Z.of_nat n ->
  high - low + 1 <= Z.of_nat fuel ->
  (forall m, high < Z.of_nat m -> (m <= n)%nat -> fits m = false) ->
  (0 < low -> fits (Z.to_nat (low - 1)) = true) ->
  search fits fuel low high (if low =? 0 then None else Some (Z.to_nat (low - 1))) = longest fits n.
Proof.
  intros Hlow Hhigh Hfuel Habove Hbelow.
  assert (forall low high, 0 <= low -> low = high + 1 -> high <= Z.of_nat n ->
    (forall m, high < Z.of_nat m -> (m <= n)%nat -> fits m = false) ->
    (0 < low -> fits (Z.to_nat (low - 1)) = true) ->
    (if low =? 0 then None else Some (Z.to_nat (low - 1))) = longest fits n) as Hend.
  { clear. intros low high Hlow E Hhigh Habove Hbelow. destruct (Z.eqb_spec low 0) as [->|H0].
    - symmetry. apply longest_none. intros m Hm. apply Habove; lia.
    - rewrite (longest_skip fits (Z.to_nat (low - 1)) n) by (try lia; intros m Hm; apply Habove; lia).
      specialize (Hbelow ltac:(lia)). destruct (Z.to_nat (low - 1)); cbn [longest]; by rewrite Hbelow. }
  revert low high Hlow Hhigh Hfuel Habove Hbelow.
  induction fuel as [|fuel IH]; intros low high Hlow Hhigh Hfuel Habove Hbelow.
  { cbn [search]. apply (Hend low high); [lia..|done|done]. }
  cbn [search]. destruct (Z.leb_spec low high); [|apply (Hend low high); [lia..|done|done]].
  set (middle := (low + high) / 2). assert (low <= middle <= high) as Hm
    by (unfold middle; Z.to_euclidean_division_equations; lia).
  destruct (fits (Z.to_nat middle)) eqn:Ef.
  - specialize (IH (middle + 1) high). replace (middle + 1 - 1) with middle in IH by lia.
    destruct (Z.eqb_spec (middle + 1) 0); [lia|]. apply IH; try lia; done.
  - apply IH; [lia..| |exact Hbelow]. intros m Hm1 Hm2. apply Bool.not_true_is_false. intros Hf.
    apply (fits_mono (Z.to_nat middle)) in Hf; [congruence|lia].
Qed.

Lemma search_longest n : search fits (S n) 0 (Z.of_nat n) None = longest fits n.
Proof. apply (search_longest_from n (S n) 0 (Z.of_nat n)); lia. Qed.
End Search.

Lemma newline_space : is_word newline = false /\ is_space newline = true /\ is_low_surrogate newline = false.
Proof. done. Qed.

(** A block costs its head and its content. *)
Definition head_cost (separator : text) (item : NormalizedItem) : Z :=
  cost (separator ++ ch "[" :: ni_source item ++ ch ":" :: ni_id item ++ [ch "]"]) 0.

Lemma estimate_block separator item content :
  estimateTokens (separated separator item content) = head_cost separator item + cost content 0.
Proof.
  rewrite estimate_pieces.
  - unfold separated, blockFor, head_cost. destruct newline_space as (Hw & Hs & Hl).
    rewrite <- (cost_app_space _ newline) by done. f_equal. rewrite <- !app_assoc. cbn [app].
    by repeat (rewrite <- !app_assoc; cbn [app]).
  - apply (pieces_some _ (ch "[")); [|done]. unfold separated, blockFor. apply elem_of_app. right. left.
Qed.

Lemma take_concat_prefix (l : list text) a b : (a <= b)%nat ->
  exists rest : text, concat (take b l) = concat (take a l) ++ rest.
Proof.
  intros H. exists (concat (drop a (take b l))). rewrite <- concat_app. f_equal.
  rewrite <- (take_drop a (take b l)) at 1. f_equal. rewrite take_take. f_equal. lia.
Qed.

Lemma cut_cost content a b : (a <= b)%nat -> cost (cut content a) 0 <= cost (cut content b) 0.
Proof.
  intros H. unfold cut, marker. destruct newline_space as (Hw & Hs & Hl). rewrite !cost_app_space by done.
  destruct (take_concat_prefix (code_points content) a b H) as [rest ->].
  pose proof (cost_app (concat (take a (code_points content))) rest 0). lia.
Qed.

Lemma fits_cut item separator budget content a b : (a <= b)%nat ->
  fits item separator budget (cut content b) = true -> fits item separator budget (cut content a) = true.
Proof. unfold fits. rewrite !estimate_block. intros H. pose proof (cut_cost content a b H). lia. Qed.

(** An item that does not fit and may be cut is cut to the longest prefix of
    its code points that fits its budget with the mark: the binary search of the
    code finds exactly what trying every length from the top would find. *)
Theorem truncation_longest item separator budget :
  truncateToBudget item separator budget =
    let localBudget := local_budget item budget in
    if fits item separator localBudget (ni_content item) then Some (ni_content item, false)
    else if ni_allowTruncate item then
      (fun middle => (cut (ni_content item) middle, true)) <$>
        longest (fun middle => fits item separator localBudget (cut (ni_content item) middle))
          (length (code_points (ni_content item)))
    else None.
Proof.
  unfold truncateToBudget. cbv zeta. destruct (fits _ _ _ (ni_content item)); [done|].
  destruct (ni_allowTruncate item); [|done]. cbn [negb].
  rewrite search_longest by (intros a b; apply fits_cut). by destruct (longest _ _).
Qed.

(** ** Choosing *)

Lemma toPlanItem_spec item separator remaining p : toPlanItem item separator remaining = Some p ->
  pi_id p = ni_id item /\ pi_rendered p = separated separator item (pi_content p) /\
  pi_estimatedTokens p = estimateTokens (pi_rendered p) /\ pi_estimatedTokens p <= remaining /\
  (if pi_truncated p then exists n, pi_content p = cut (ni_content item) n else pi_content p = ni_content item).
Proof.
  unfold toPlanItem. destruct (truncateToBudget item separator remaining) as [[content truncated]|] eqn:E; [|done].
  destruct (Z.ltb_spec remaining (estimateTokens (separated separator item content))); [done|].
  intros [= <-]. cbn. split_and!; [done..|lia|]. revert E. unfold truncateToBudget.
  repeat case_match; intros ?; simplify_eq; [done|by eexists].
Qed.

Lemma concat_rendered_app a b : concat_rendered (a ++ b) = concat_rendered a ++ concat_rendered b.
Proof. unfold concat_rendered. by rewrite map_app, concat_app. Qed.

(** What holds while items are offered. *)
Record chosen_from (budget : Z) (items : list NormalizedItem) (st : choice) : Prop := {
  cf_used : estimateTokens (concat_rendered (ch_selected st)) <= ch_used st <= budget;
  cf_ids : map pi_id (ch_selected st) ++ map oi_id (ch_omitted st) ≡ₚ map ni_id items;
  cf_content : Forall (fun p => exists item, item ∈ items /\ ni_id item = pi_id p /\
    if pi_truncated p then exists n, pi_content p = cut (ni_content item) n
    else pi_content p = ni_content item) (ch_selected st) }.

Lemma choose_chosen budget items st item : chosen_from budget items st ->
  chosen_from budget (items ++ [item]) (choose budget st item).
Proof.
  intros [Hu Hi Hc].
  assert (Forall (fun p => exists item0, item0 ∈ items ++ [item] /\ ni_id item0 = pi_id p /\
    if pi_truncated p then exists n, pi_content p = cut (ni_content item0) n
    else pi_content p = ni_content item0) (ch_selected st)) as Hc'.
  { eapply Forall_impl; [exact Hc|]. intros p (i & Hin & H). exists i. split; [|done].
    apply elem_of_app. by left. }
  unfold choose. destruct (toPlanItem item _ _) as [p|] eqn:E.
  - apply toPlanItem_spec in E as (Eid & Er & Ee & Eb & Ec). constructor; cbn [ch_selected ch_omitted ch_used].
    + rewrite concat_rendered_app. pose proof (estimate_subadditive (concat_rendered (ch_selected st)) (concat_rendered [p])).
      assert (concat_rendered [p] = pi_rendered p) as Hp by (unfold concat_rendered; cbn; apply app_nil_r).
      rewrite Hp in *. pose proof (estimate_nonneg (pi_rendered p)). lia.
    + rewrite !map_app, <- Hi, <- app_assoc, <- (app_assoc _ _ (map ni_id [item])). cbn [map]. rewrite Eid.
      apply Permutation_app_head. apply Permutation_app_comm.
    + apply Forall_app. split; [exact Hc'|]. apply Forall_singleton. exists item. split; [|done].
      apply elem_of_app. right. left.
  - constructor; cbn [ch_selected ch_omitted ch_used]; [done| |exact Hc'].
    rewrite !map_app, app_assoc, Hi. done.
Qed.

Lemma choose_all_chosen budget items : 0 <= budget ->
  chosen_from budget items (foldl (choose budget) nothing_chosen items).
Proof.
  intros Hb. induction items as [|item items IH] using rev_ind.
  - constructor; cbn; [lia|done|constructor].
  - rewrite foldl_app. cbn. by apply choose_chosen.
Qed.

(** The estimate of the chosen text never exceeds the budget, so nothing is removed. *)
Lemma correct_fits budget selected omitted : estimateTokens (concat_rendered selected) <= budget ->
  correct budget (rev selected) omitted = (selected, omitted).
Proof.
  intros H. destruct (rev selected) as [|p ps] eqn:E.
  - cbn. apply (f_equal (@rev _)) in E. rewrite rev_involutive in E. by subst.
  - cbn [correct]. rewrite <- E, rev_involutive.
    destruct (Z.ltb_spec budget (estimateTokens (concat_rendered selected))); [lia|done].
Qed.

(** What a step of the choice adds. *)
Lemma choose_grows budget items st : exists selected omitted,
  ch_selected (foldl (choose budget) st items) = ch_selected st ++ selected /\
  ch_omitted (foldl (choose budget) st items) = ch_omitted st ++ omitted.
Proof.
  revert st. induction items as [|item items IH]; intros st; cbn [foldl].
  { exists [], []. by rewrite !app_nil_r. }
  destruct (IH (choose budget st item)) as (s & o & -> & ->). unfold choose.
  destruct (toPlanItem item _ _); cbn [ch_selected ch_omitted]; rewrite <- ?app_assoc; by eexists _, _.
Qed.

(** ** The orders *)

(** Larger keys first, then the rest; a key that is not a number counts as zero. *)
Definition clean (a : num) : num := match a with NaN => Fin 0 | _ => a end.
Definition by_key {A} (key : A -> num) (rest : A -> A -> bool) (left right : A) : bool :=
  if js_lt (clean (key right)) (clean (key left)) then true
  else if js_lt (clean (key left)) (clean (key right)) then false
  else rest left right.

Lemma clean_cases a : clean a = PInf \/ clean a = NInf \/ exists z, clean a = Fin z.
Proof. destruct a; cbn; eauto. Qed.

Section ByKey.
Context {A : Type} (key : A -> num) (rest : A -> A -> bool).
Context (rest_total : forall a b, rest a b = true \/ rest b a = true).
Context (rest_trans : forall a b c, rest a b = true -> rest b c = true -> rest a c = true).

Lemma by_key_total a b : by_key key rest a b = true \/ by_key key rest b a = true.
Proof.
  unfold by_key. destruct (js_lt (clean (key b)) (clean (key a))) eqn:E1; [by left|].
  destruct (js_lt (clean (key a)) (clean (key b))) eqn:E2; [by right|]. apply rest_total.
Qed.

Lemma by_key_trans a b c : by_key key rest a b = true -> by_key key rest b c = true -> by_key key rest a c = true.
Proof.
  unfold by_key. specialize (rest_trans a b c).
  destruct (clean_cases (key a)) as [->|[->|[x ->]]], (clean_cases (key b)) as [->|[->|[y ->]]],
    (clean_cases (key c)) as [->|[->|[z ->]]]; cbn [js_lt]; try done; auto.
  destruct (Z.ltb_spec y x), (Z.ltb_spec z y), (Z.ltb_spec z x); try lia; try done;
    destruct (Z.ltb_spec x y), (Z.ltb_spec y z), (Z.ltb_spec x z); try lia; try done; auto.
Qed.

Lemma by_key_rest a b : by_key key rest a b = true -> by_key key rest b a = true ->
  rest a b = true /\ rest b a = true.
Proof.
  unfold by_key. destruct (clean_cases (key a)) as [->|[->|[x ->]]], (clean_cases (key b)) as [->|[->|[y ->]]];
    cbn [js_lt]; try done.
  destruct (Z.ltb_spec y x), (Z.ltb_spec x y); try lia; done.
Qed.
End ByKey.

(** A difference of keys that are numbers decides as the keys do. *)
Lemma unless_equal_key {A} (key : A -> num) rest left right : key left <> NaN -> key right <> NaN ->
  unless_equal (js_sub (key right) (key left)) (rest left right) = by_key key rest left right.
Proof.
  intros Hl Hr. unfold unless_equal, by_key, js_sub, ofZ.
  destruct (key left) as [| | |x], (key right) as [| | |y]; try done. cbn [js_neg js_add clean js_lt].
  pose proof (rnd_pos (y + - x)). pose proof (rnd_neg (y + - x)). pose proof rnd_0. unfold normalise.
  assert (rnd (y + - x) = 0 \/ x < y \/ y < x) as Hd.
  { destruct (Z.lt_trichotomy x y) as [?|[<-|?]]; [by right; left| |by right; right].
    left. by rewrite Z.add_opp_diag_r. }
  pose proof overflow_units_pos.
  assert (x = y -> rnd (y + - x) = 0) by (intros ->; by rewrite Z.add_opp_diag_r).
  destruct (Z.leb_spec overflow_units (rnd (y + - x))).
  { cbn. destruct (Z.ltb_spec y x), (Z.ltb_spec x y); try lia; done. }
  destruct (Z.leb_spec (rnd (y + - x)) (- overflow_units)).
  { cbn. destruct (Z.ltb_spec y x), (Z.ltb_spec x y); try lia; done. }
  cbn [js_lt]. destruct (Z.ltb_spec (rnd (y + - x)) (0 * one_units)), (Z.ltb_spec (0 * one_units) (rnd (y + - x))),
    (Z.ltb_spec y x), (Z.ltb_spec x y); try lia; done.
Qed.

(** ** The plan *)

Lemma normalizeItem_ok force item n : normalizeItem force item = Ok n ->
  ni_id n = ci_id item /\ ni_content n = ci_content item /\ isFinite (ni_priority n) = true /\
  isFinite (ni_relevance n) = true /\ js_lt (ni_relevance n) (ofZ 0) = false /\ js_lt (ofZ 1) (ni_relevance n) = false.
Proof.
  unfold normalizeItem. rewrite !bind_ok.
  intros ([] & _ & ([] & _ & ([] & H1 & ([] & H2 & H)%bind_ok)%bind_ok)%bind_ok).
  apply bind_ok in H as (m & _ & H). injection H as <-. cbn.
  apply throw_if_ok in H1, H2. rewrite !orb_false_iff, negb_false_iff in H2. rewrite negb_false_iff in H1.
  destruct H2 as [[? ?] ?]. done.
Qed.

Lemma check_duplicates_ok seen all : check_duplicates seen all = Ok tt <->
  Forall (fun id => id ∉ seen) (map ni_id all) /\ NoDup (map ni_id all).
Proof.
  revert seen. induction all as [|item all IH]; intros seen; cbn [check_duplicates map].
  { split; [|done]. split; constructor. }
  destruct (existsb (fun id => id === ni_id item) seen) eqn:E.
  - split; [done|]. intros [[H _]%Forall_cons _]. exfalso. apply H.
    apply existsb_exists in E as (x & Hx & E). apply bool_decide_eq_true in E as ->. by apply list_elem_of_In.
  - rewrite IH, Forall_cons, NoDup_cons, !Forall_forall.
    assert (ni_id item ∉ seen) as Hs.
    { intros Hx. apply list_elem_of_In in Hx. assert (existsb (fun id => id === ni_id item) seen = true); [|congruence].
      apply existsb_exists. exists (ni_id item). split; [done|]. by apply bool_decide_eq_true. }
    split.
    + intros [H1 H2]. split; [split; [done|]|split; [|done]].
      * intros x Hx Hx'. apply (H1 x Hx), elem_of_app. by left.
      * intros Hx. apply (H1 _ Hx), elem_of_app. right. left.
    + intros [[_ H1] [H2 H3]]. split; [|done]. intros x Hx [Hx'|Hx']%elem_of_app; [by apply (H1 x)|].
      apply list_elem_of_singleton in Hx' as ->. done.
Qed.

Lemma validateBudget_ok v label n : validateBudget v label = Ok n -> n = toZ v /\ 0 <= n.
Proof.
  unfold validateBudget. destruct (isSafeInteger v) eqn:Hs; [|done]. cbn [negb orb].
  destruct (js_lt v (ofZ 0)) eqn:Hl; [done|]. intros [= <-]. split; [done|].
  rewrite (safe_integer_ofZ v Hs), js_lt_ofZ in Hl. lia.
Qed.

Definition all_items (input : ContextPlanInput) : list ContextItem :=
  cpi_fixed input ++ cpi_candidates input ++ cpi_items input.

Section Plan.
Context (localeCompare_le : text -> text -> bool).

(** A plan is the choice among the normalised items. *)
Lemma planContext_ok input p : planContext localeCompare_le input = Ok p ->
  exists fixed candidates,
    mapM (normalizeItem true) (cpi_fixed input) = Ok fixed /\
    mapM (normalizeItem false) (cpi_candidates input ++ cpi_items input) = Ok candidates /\
    NoDup (map ni_id (fixed ++ candidates)) /\
    0 <= cp_budgetTokens p /\ cp_budgetTokens p = toZ (cpi_budgetTokens input) /\
    let chosen := choose_all localeCompare_le (cp_budgetTokens p) fixed candidates in
    chosen_from (cp_budgetTokens p) (sort_by (fixed_le localeCompare_le) fixed ++
      sort_by (rank_le localeCompare_le) candidates) chosen /\
    p = {| cp_budgetTokens := cp_budgetTokens p;
           cp_usedTokens := estimateTokens (concat_rendered (ch_selected chosen));
           cp_text := concat_rendered (ch_selected chosen);
           cp_selected := ch_selected chosen; cp_omitted := ch_omitted chosen |}.
Proof.
  unfold planContext. intros (budget & Hb & (fixed & Hf & (candidates & Hc & H)%bind_ok)%bind_ok)%bind_ok.
  apply validateBudget_ok in Hb as [Eb Hb]. apply bind_ok in H as ([] & [_ Hd]%check_duplicates_ok & H).
  pose proof (choose_all_chosen budget (sort_by (fixed_le localeCompare_le) fixed ++
    sort_by (rank_le localeCompare_le) candidates) Hb) as Hch.
  change (foldl _ _ _) with (choose_all localeCompare_le budget fixed candidates) in Hch.
  rewrite correct_fits in H by (destruct Hch; lia). injection H as <-. cbn.
  exists fixed, candidates. done.
Qed.

Lemma normalized_ids force items ns : mapM (normalizeItem force) items = Ok ns ->
  map ni_id ns = map ci_id items /\ forall n, n ∈ ns -> exists item, item ∈ items /\ normalizeItem force item = Ok n.
Proof.
  rewrite mapM_Forall2. induction 1 as [|item n items ns H _ [IH IH']].
  { split; [done|]. intros n Hn. by apply not_elem_of_nil in Hn. }
  split.
  - cbn. f_equal; [|done]. by apply normalizeItem_ok in H as [-> _].
  - intros n' [->|Hn]%elem_of_cons.
    + exists item. split; [left|done].
    + apply IH' in Hn as (i & Hi & Hn). exists i. split; [by right|done].
Qed.

(** C17: a plan stays within its budget, whatever the items are; its text is that of
    the items it selected; every item of the input, and nothing else, is selected or
    omitted, once; and a selected item has its whole content unless it is marked as
    truncated, when it has the code points it begins with and the mark. *)
Theorem plan_within_budget input p : planContext localeCompare_le input = Ok p ->
  0 <= cp_usedTokens p <= cp_budgetTokens p /\ cp_budgetTokens p = toZ (cpi_budgetTokens input) /\
  cp_usedTokens p = estimateTokens (cp_text p) /\ cp_text p = concat (map pi_rendered (cp_selected p)) /\
  map pi_id (cp_selected p) ++ map oi_id (cp_omitted p) ≡ₚ map ci_id (all_items input) /\
  NoDup (map ci_id (all_items input)) /\
  Forall (fun s => exists item, item ∈ all_items input /\ ci_id item = pi_id s /\
    if pi_truncated s then exists n, pi_content s = cut (ci_content item) n
    else pi_content s = ci_content item) (cp_selected p).
Proof.
  intros (fixed & candidates & Hf & Hc & Hd & Hb & Eb & [Hu Hi Hx] & ->)%planContext_ok. cbn.
  apply normalized_ids in Hf as [If Hf], Hc as [Ic Hc].
  assert (map ni_id (fixed ++ candidates) = map ci_id (all_items input)) as Eids
    by (unfold all_items; rewrite !map_app in *; congruence).
  split_and!; [apply estimate_nonneg|lia|done|done|done| | |].
  - rewrite Hi, !map_app, <- Eids, map_app. by rewrite !sort_by_Permutation.
  - by rewrite <- Eids.
  - eapply Forall_impl; [exact Hx|]. cbn. intros s (n & Hn & En & Hs).
    assert (exists item, item ∈ all_items input /\ ni_id n = ci_id item /\ ni_content n = ci_content item)
      as (item & Hin & E1 & E2).
    { apply elem_of_app in Hn as [Hn|Hn]; apply sort_by_elem in Hn.
      - apply Hf in Hn as (item & Hin & (? & ? & _)%normalizeItem_ok). exists item. split; [|done].
        apply elem_of_app. by left.
      - apply Hc in Hn as (item & Hin & (? & ? & _)%normalizeItem_ok). exists item. split; [|done].
        apply elem_of_app. by right. }
    exists item. rewrite <- E1, <- E2. done.
Qed.

(** Fixed items come first: with the candidates left out, the plan selects and
    omits the same fixed items, and the candidates only add to it. *)
Theorem fixed_come_first input p p0 :
  planContext localeCompare_le input = Ok p ->
  planContext localeCompare_le {| cpi_budgetTokens := cpi_budgetTokens input; cpi_fixed := cpi_fixed input;
                                  cpi_candidates := []; cpi_items := [] |} = Ok p0 ->
  exists selected omitted, cp_selected p = cp_selected p0 ++ selected /\ cp_omitted p = cp_omitted p0 ++ omitted /\
    map pi_id (cp_selected p0) ++ map oi_id (cp_omitted p0) ≡ₚ map ci_id (cpi_fixed input).
Proof.
  intros (fixed & candidates & Hf & Hc & _ & _ & Eb & _ & ->)%planContext_ok.
  intros (fixed' & candidates' & Hf' & Hc' & _ & _ & Eb' & [_ Hi _] & ->)%planContext_ok. cbn in *.
  rewrite Hf in Hf'. injection Hf' as <-. injection Hc' as <-. rewrite Eb, Eb'.
  unfold choose_all. rewrite foldl_app, app_nil_r.
  destruct (choose_grows (toZ (cpi_budgetTokens input)) (sort_by (rank_le localeCompare_le) candidates)
    (foldl (choose (toZ (cpi_budgetTokens input))) nothing_chosen (sort_by (fixed_le localeCompare_le) fixed)))
    as (s & o & -> & ->). exists s, o. split; [done|split; [done|]].
  unfold choose_all in Hi. rewrite Eb', app_nil_r in Hi. rewrite Hi.
  apply normalized_ids in Hf as [If _]. by rewrite sort_by_Permutation, If.
Qed.
End Plan.

(** ** The order of the items does not matter *)

Lemma js_mul_number x y : js_mul (Fin x) (Fin y) <> NaN.
Proof. cbn. unfold signed_result. by repeat case_match. Qed.

Lemma normalise_number z : normalise z <> NaN.
Proof. unfold normalise. by repeat case_match. Qed.

Lemma rank_number force item n : normalizeItem force item = Ok n -> rank n <> NaN.
Proof.
  intros (_ & _ & Hp & Hr & H0 & H1)%normalizeItem_ok. unfold rank.
  destruct (ni_priority n) as [| | |x]; try done. destruct (ni_relevance n) as [| | |y]; try done.
  unfold ofZ in *. cbn [js_lt] in H0, H1. apply Z.ltb_ge in H0, H1.
  assert (1 <= one_units) by (pose proof one_units_pos; lia).
  destruct (js_mul_le y (10 * one_units) (10 * one_units)) as (t & -> & Ht); [lia|lia|nia| | |].
  - pose proof (ofZ_small 10 ltac:(lia)). lia.
  - apply rnd_ofZ. lia.
  - pose proof (js_mul_number x (100 * one_units)) as Hn.
    destruct (js_mul (Fin x) (Fin (100 * one_units))) as [| | |z]; [done|done|done|]. cbn [js_add].
    pose proof (normalise_number (z + t)). destruct (normalise (z + t)); try done. apply normalise_number.
Qed.

(** Normalising a permutation gives a permutation. *)
Lemma normalize_permuted force l l' ns : l ≡ₚ l' -> mapM (normalizeItem force) l = Ok ns ->
  exists ns', mapM (normalizeItem force) l' = Ok ns' /\ ns ≡ₚ ns'.
Proof.
  intros Hp H%mapM_Forall2. destruct (Permutation_Forall2 Hp H) as (ns' & Hp' & H').
  exists ns'. split; [by apply mapM_Forall2|done].
Qed.

Section Order.
Context (localeCompare_le : text -> text -> bool).
Context (locale_total : forall a b, localeCompare_le a b = true \/ localeCompare_le b a = true).
Context (locale_trans : forall a b c,
  localeCompare_le a b = true -> localeCompare_le b c = true -> localeCompare_le a c = true).

Definition id_le (left right : NormalizedItem) : bool := localeCompare_le (ni_id left) (ni_id right).

(** A sort by keys and then by ids, which differ, is determined by the items. *)
Lemma sort_by_keys (keys : list (NormalizedItem -> num)) le l l' :
  (forall a b, a ∈ l -> b ∈ l -> le a b = foldr by_key id_le keys a b) ->
  (forall a b, a ∈ l -> b ∈ l -> id_le a b = true -> id_le b a = true -> a = b) ->
  l ≡ₚ l' -> sort_by le l = sort_by le l'.
Proof.
  intros Hle Hanti Hp.
  assert ((forall a b, foldr by_key id_le keys a b = true \/ foldr by_key id_le keys b a = true) /\
    (forall a b c, foldr by_key id_le keys a b = true -> foldr by_key id_le keys b c = true ->
      foldr by_key id_le keys a c = true) /\
    (forall a b, foldr by_key id_le keys a b = true -> foldr by_key id_le keys b a = true ->
      id_le a b = true /\ id_le b a = true)) as (Ht & Htr & Hid).
  { clear Hle Hanti Hp. induction keys as [|key keys (IH1 & IH2 & IH3)]; cbn [foldr].
    - unfold id_le. split; [auto|split; [eauto|auto]].
    - split; [|split].
      + by apply by_key_total.
      + by apply by_key_trans.
      + intros a b Ha Hb. destruct (by_key_rest key _ a b Ha Hb) as [H1 H2]. by apply IH3. }
  rewrite (sort_by_ext le (foldr by_key id_le keys) l) by done.
  rewrite (sort_by_ext le (foldr by_key id_le keys) l') by (intros a b Ha Hb; apply Hle; by rewrite Hp).
  apply sort_by_unique; [done..| |done]. intros a b Ha Hb H1 H2. destruct (Hid a b H1 H2). by apply Hanti.
Qed.

(** The plan depends on the items and not on the order in which they are given:
    when the locale tells the ids apart, any permutation of the fixed items and of
    the candidates, which may also move between the two lists of candidates, yields
    the same plan. *)
Theorem plan_order_independent input input' p :
  (forall a b, a ∈ map ci_id (all_items input) -> b ∈ map ci_id (all_items input) ->
    localeCompare_le a b = true -> localeCompare_le b a = true -> a = b) ->
  cpi_budgetTokens input' = cpi_budgetTokens input ->
  cpi_fixed input ≡ₚ cpi_fixed input' ->
  cpi_candidates input ++ cpi_items input ≡ₚ cpi_candidates input' ++ cpi_items input' ->
  planContext localeCompare_le input = Ok p -> planContext localeCompare_le input' = Ok p.
Proof.
  intros Hlocale Hb Hf Hc. unfold planContext. rewrite Hb.
  intros (budget & -> & (fixed & Ef & (candidates & Ec & H)%bind_ok)%bind_ok)%bind_ok.
  destruct (normalize_permuted _ _ _ _ Hf Ef) as (fixed' & Ef' & Pf).
  destruct (normalize_permuted _ _ _ _ Hc Ec) as (candidates' & Ec' & Pc).
  cbn [mbind result_bind]. rewrite Ef'. cbn [mbind result_bind]. rewrite Ec'. cbn [mbind result_bind].
  apply bind_ok in H as ([] & [_ Hd]%check_duplicates_ok & H).
  assert (check_duplicates [] (fixed' ++ candidates') = Ok tt) as ->.
  { apply check_duplicates_ok. rewrite <- Pf, <- Pc. split; [|done].
    apply Forall_forall. intros x _ Hx. by apply not_elem_of_nil in Hx. }
  cbn [mbind result_bind].
  apply normalized_ids in Ef as [If Hf1], Ec as [Ic Hc1].
  assert (forall a b, a ∈ fixed ++ candidates -> b ∈ fixed ++ candidates ->
    id_le a b = true -> id_le b a = true -> a = b) as Hanti.
  { intros a b Ha Hb' H1 H2. apply (NoDup_map_inj ni_id (fixed ++ candidates)); [done..|].
    assert (map ni_id (fixed ++ candidates) = map ci_id (all_items input)) as Eids
      by (unfold all_items; rewrite !map_app in *; congruence).
    apply Hlocale; [rewrite <- Eids; by apply list_elem_of_fmap_2..|done|done]. }
  unfold choose_all in *.
  rewrite <- (sort_by_keys [ni_priority; fun n => ofZ (sourcePriority (ni_source n))] (fixed_le localeCompare_le) fixed fixed').
  - rewrite <- (sort_by_keys [rank] (rank_le localeCompare_le) candidates candidates'); [exact H| | |done].
    + intros a b (i & _ & Ha)%Hc1 (j & _ & Hb')%Hc1. cbn [foldr]. unfold rank_le.
      rewrite <- unless_equal_key by by eapply rank_number. done.
    + intros a b Ha Hb'. apply Hanti; apply elem_of_app; by right.
  - intros a b (i & _ & Ha%normalizeItem_ok)%Hf1 (j & _ & Hb'%normalizeItem_ok)%Hf1. cbn [foldr]. unfold fixed_le.
    rewrite <- (unless_equal_key ni_priority).
    + f_equal. by rewrite <- (unless_equal_key (fun n => ofZ (sourcePriority (ni_source n)))).
    + destruct Ha as (_ & _ & Ha & _). by destruct (ni_priority a).
    + destruct Hb' as (_ & _ & Hb' & _). by destruct (ni_priority b).
  - intros a b Ha Hb'. apply Hanti; apply elem_of_app; by left.
  - done.
Qed.
End Order.

(** ** A small plan *)

Definition demo_item (id source content : string) : ContextItem :=
  {| ci_id := txt id; ci_source := txt source; ci_content := txt content; ci_priority := None;
     ci_relevance := None; ci_required := None; ci_allowTruncate := Some true; ci_maxTokens := None |}.
Definition demo_mission : ContextItem := demo_item "m" "mission" "fix the bug".
Definition demo_file : ContextItem := demo_item "f" "file" "a b c d e f g h i j k l".
Definition demo_map : ContextItem := demo_item "r" "repo_map" "x".
Definition demo_input (candidates items : list ContextItem) : ContextPlanInput :=
  {| cpi_budgetTokens := ofZ 23; cpi_fixed := [demo_mission]; cpi_candidates := candidates; cpi_items := items |}.

(** The mission is whole, the file is cut, and the map finds no room. *)
Definition demo_plan : option ContextPlan :=
  match planContext text_le (demo_input [demo_map] [demo_file]) with Ok p => Some p | Throw _ => None end.

Example demo_plan_cuts :
  (fun p => (cp_usedTokens p, map (fun s => (pi_id s, pi_content s)) (cp_selected p), map oi_id (cp_omitted p)))
    <$> demo_plan =
  Some (23, [(txt "m", txt "fix the bug"); (txt "f", txt "a b c " ++ marker)], [txt "r"]).
Proof. vm_compute. reflexivity. Qed.

Lemma plan_within_budget_witness : exists p,
  planContext text_le (demo_input [demo_map] [demo_file]) = Ok p /\
  0 <= cp_usedTokens p <= cp_budgetTokens p /\ cp_budgetTokens p = 23.
Proof.
  destruct (planContext text_le (demo_input [demo_map] [demo_file])) as [p|e] eqn:E;
    [|vm_compute in E; discriminate E].
  exists p. split; [reflexivity|].
  destruct (plan_within_budget _ _ _ E) as (H & Hb & _). split; [exact H|rewrite Hb; vm_compute; reflexivity].
Defined.

Lemma fixed_come_first_witness : exists p p0,
  planContext text_le (demo_input [demo_map] [demo_file]) = Ok p /\
  planContext text_le (demo_input [] []) = Ok p0 /\
  exists selected omitted, cp_selected p = cp_selected p0 ++ selected /\ cp_omitted p = cp_omitted p0 ++ omitted.
Proof.
  destruct (planContext text_le (demo_input [demo_map] [demo_file])) as [p|e] eqn:E;
    [|vm_compute in E; discriminate E].
  destruct (planContext text_le (demo_input [] [])) as [p0|e] eqn:E0; [|vm_compute in E0; discriminate E0].
  exists p, p0. split; [reflexivity|split; [reflexivity|]].
  destruct (fixed_come_first _ _ _ _ E E0) as (s & o & H1 & H2 & _). exists s, o. split; [exact H1|exact H2].
Defined.

Lemma plan_order_independent_witness : exists p,
  planContext text_le (demo_input [demo_map] [demo_file]) = Ok p /\
  planContext text_le (demo_input [demo_file; demo_map] []) = Ok p.
Proof.
  destruct (planContext text_le (demo_input [demo_map] [demo_file])) as [p|e] eqn:E;
    [|vm_compute in E; discriminate E].
  exists p. split; [reflexivity|].
  apply (plan_order_independent text_le text_le_total text_le_trans (demo_input [demo_map] [demo_file])
    (demo_input [demo_file; demo_map] []) p); [|reflexivity|reflexivity| |exact E].
  - intros a b _ _. apply text_le_antisym.
  - cbn. apply Permutation_swap.
Defined.
