(* ===== verification/Worktree.v ===== *)
(** Linked worktrees: packages/workspace/src/worktree.ts and the provisioner of
    packages/runtime/src/worktrees.ts, over the Git service and the file system. *)

From Stdlib Require Import ZArith NArith Lia Ascii.
From stdpp Require Import base strings list.
From S2P Require Import Prelude JsNumber JsText JsCollections Paths Git.

Open Scope string_scope.
Open Scope list_scope.

(** ** Data *)

(** Source: packages/workspace/src/worktree.ts:6-14 [WorktreeRecord]. *)
Record WorktreeRecord := {
  wt_path : text;
  wt_head : option text;
  wt_branch : option text;
  wt_isBare : bool;
  wt_isDetached : bool;
  wt_lockedReason : option text;
  wt_prunableReason : option text }.

(** Source: packages/workspace/src/worktree.ts:16-24 [CreateWorktreeOptions]. *)
Record CreateWorktreeOptions := {
  cw_path : text;
  cw_ref : option text;
  cw_branch : option text;
  cw_detach : option bool;
  cw_force : option bool;
  cw_lock : option bool }.

(** ** The list of worktrees *)

(** The length of [\r?\n\r?\n] at the beginning of a text. *)
Definition block_end (s : text) : option nat :=
  let after_line := fun s : text =>
    match s with
    | c :: r => if (c =? newline)%N then Some (1, r)
                else if (c =? carriage)%N then
                  match r with
                  | d :: r' => if (d =? newline)%N then Some (2, r') else None
                  | [] => None
                  end
                else None
    | [] => None
    end in
  match after_line s with
  | Some (n, rest) => match after_line rest with
                      | Some (m, _) => Some (n + m)
                      | None => None
                      end
  | None => None
  end.

(** [raw.split(/\r?\n\r?\n/u)]; [skip] units of a separator are still to be passed. *)
Fixpoint split_blocks (skip : nat) (s : text) : list text :=
  match s with
  | [] => [[]]
  | c :: r =>
      match skip with
      | S skip => split_blocks skip r
      | O =>
          match block_end s with
          | Some (S skip) => [] :: split_blocks skip r
          | _ => match split_blocks 0 r with
                 | block :: blocks => (c :: block) :: blocks
                 | [] => [[c]]
                 end
          end
      end
  end.

(** What the lines of a block have said so far. *)
Record parsed := {
  pw_path : option text;
  pw_head : option text;
  pw_branch : option text;
  pw_isBare : bool;
  pw_isDetached : bool;
  pw_lockedReason : option text;
  pw_prunableReason : option text }.

Definition parsed_nothing : parsed :=
  {| pw_path := None; pw_head := None; pw_branch := None; pw_isBare := false; pw_isDetached := false;
     pw_lockedReason := None; pw_prunableReason := None |}.

(** [ref.slice("refs/heads/".length)] for a ref that starts with it. *)
Definition short_branch (ref : text) : text :=
  match strip_prefix (txt "refs/heads/") ref with Some name => name | None => ref end.

(** Source: packages/workspace/src/worktree.ts:44-83 [parseWorktreeList, line]. *)
Definition parse_line (b : parsed) (line : text) : parsed :=
  if line === txt "bare" then
    {| pw_path := pw_path b; pw_head := pw_head b; pw_branch := pw_branch b; pw_isBare := true;
       pw_isDetached := pw_isDetached b; pw_lockedReason := pw_lockedReason b;
       pw_prunableReason := pw_prunableReason b |}
  else if line === txt "detached" then
    {| pw_path := pw_path b; pw_head := pw_head b; pw_branch := pw_branch b; pw_isBare := pw_isBare b;
       pw_isDetached := true; pw_lockedReason := pw_lockedReason b;
       pw_prunableReason := pw_prunableReason b |}
  else if has_prefix (txt "worktree ") line then
    {| pw_path := Some (drop 9 line); pw_head := pw_head b; pw_branch := pw_branch b; pw_isBare := pw_isBare b;
       pw_isDetached := pw_isDetached b; pw_lockedReason := pw_lockedReason b;
       pw_prunableReason := pw_prunableReason b |}
  else if has_prefix (txt "HEAD ") line then
    {| pw_path := pw_path b; pw_head := Some (drop 5 line); pw_branch := pw_branch b; pw_isBare := pw_isBare b;
       pw_isDetached := pw_isDetached b; pw_lockedReason := pw_lockedReason b;
       pw_prunableReason := pw_prunableReason b |}
  else if has_prefix (txt "branch ") line then
    {| pw_path := pw_path b; pw_head := pw_head b; pw_branch := Some (short_branch (drop 7 line));
       pw_isBare := pw_isBare b; pw_isDetached := pw_isDetached b; pw_lockedReason := pw_lockedReason b;
       pw_prunableReason := pw_prunableReason b |}
  else if (line === txt "locked") || has_prefix (txt "locked ") line then
    {| pw_path := pw_path b; pw_head := pw_head b; pw_branch := pw_branch b; pw_isBare := pw_isBare b;
       pw_isDetached := pw_isDetached b; pw_lockedReason := Some (drop 7 line);
       pw_prunableReason := pw_prunableReason b |}
  else if (line === txt "prunable") || has_prefix (txt "prunable ") line then
    {| pw_path := pw_path b; pw_head := pw_head b; pw_branch := pw_branch b; pw_isBare := pw_isBare b;
       pw_isDetached := pw_isDetached b; pw_lockedReason := pw_lockedReason b;
       pw_prunableReason := Some (drop 9 line) |}
  else b.

(** Source: packages/workspace/src/worktree.ts:35-99 [parseWorktreeList, block]. *)
Definition parse_block (cwd block : text) : result ws_fault WorktreeRecord :=
  let b := foldl parse_line parsed_nothing (split_lines block) in
  match pw_path b with
  | None => Throw (GitSnapshotError (txt "Malformed `git worktree list --porcelain` output."))
  | Some path =>
      Ok {| wt_path := resolve cwd [path]; wt_head := pw_head b; wt_branch := pw_branch b;
            wt_isBare := pw_isBare b; wt_isDetached := pw_isDetached b;
            wt_lockedReason := pw_lockedReason b; wt_prunableReason := pw_prunableReason b |}
  end.

(** Source: packages/workspace/src/worktree.ts:31-102 [parseWorktreeList]. *)
Definition parseWorktreeList (cwd raw : text) : result ws_fault (list WorktreeRecord) :=
  mapM (parse_block cwd) (List.filter nonempty (split_blocks 0 raw)).

(** Source: packages/workspace/src/worktree.ts:104-110 [assertNonEmpty]. *)
Definition assertNonEmpty (value : text) (name : string) : result ws_fault unit :=
  throw_if ((trim value === []) || existsb (N.eqb 0) value)
    (GitSnapshotError (txt name ++ txt " cannot be empty or contain a NUL byte.")).

(** ** The manager *)

Section Manager.
Context {Outside : Type} (host : GitHost Outside).
(** The file system's [realpath], the lower case of a text, and the platform. *)
Context (realpath : text -> act Outside text) (toLowerCase : text -> text) (platform : text).

#[local] Abbreviation GW := (git_world (Outside := Outside)).

Definition canonical (path : text) : act GW text := outside (canonicalizePath (gh_cwd host) realpath path).
Definition same_location (left right : text) : bool := canonicalPathsEqual toLowerCase left right platform.

(** Source: packages/workspace/src/worktree.ts:116-120 [WorktreeManager.list]. *)
Definition list_worktrees : act GW (list WorktreeRecord) :=
  raw ← runGitCommand host [txt "worktree"; txt "list"; txt "--porcelain"];
  act_lift (parseWorktreeList (gh_cwd host) raw).

(** Source: packages/workspace/src/worktree.ts:129-143 [WorktreeManager.find]. *)
Definition find_worktree (path : text) : act GW (option WorktreeRecord) :=
  '(records, canonicalTarget) ← act_both list_worktrees (canonical path);
  canonicalRecords ← act_all (fun record => c ← canonical (wt_path record); mret (record, c)) records;
  mret (fst <$> List.find (fun entry => same_location entry.2 canonicalTarget) canonicalRecords).

(** The target's location is looked up before the root is known.
    Source: packages/workspace/src/worktree.ts:257-263 [WorktreeManager.isPrimaryWorktree]. *)
Definition isPrimaryWorktree (targetPath : text) : act GW bool := fun w =>
  let '(w1, target) := canonical targetPath w in
  (root ← getRepositoryRoot host;
   primary ← canonical root;
   target ← act_lift target;
   mret (same_location target primary)) w1.

(** Source: packages/workspace/src/worktree.ts:253-255 [WorktreeManager.registeredPathFor]. *)
Definition registeredPathFor (path : text) : act GW text :=
  found ← find_worktree path;
  mret (match found with Some record => wt_path record | None => resolve (gh_cwd host) [path] end).

(** Source: packages/workspace/src/worktree.ts:228-237 [WorktreeManager.lock]. *)
Definition lock_worktree (path : text) (reason : option text) : act GW unit :=
  _ ← act_lift (assertNonEmpty path "Worktree path");
  _ ← match reason with
      | None => mret tt
      | Some reason => act_lift (assertNonEmpty reason "Worktree lock reason")
      end;
  registered ← registeredPathFor path;
  _ ← runGitCommand host
        ([txt "worktree"; txt "lock"] ++
         match reason with None => [] | Some reason => [txt "--reason"; reason] end ++ [registered]);
  mret tt.

(** Source: packages/workspace/src/worktree.ts:239-246 [WorktreeManager.unlock]. *)
Definition unlock_worktree (path : text) : act GW unit :=
  _ ← act_lift (assertNonEmpty path "Worktree path");
  registered ← registeredPathFor path;
  _ ← runGitCommand host [txt "worktree"; txt "unlock"; registered];
  mret tt.

(** Source: packages/workspace/src/worktree.ts:248-250 [WorktreeManager.prune]. *)
Definition prune_worktrees : act GW unit :=
  _ ← runGitCommand host [txt "worktree"; txt "prune"]; mret tt.

Definition flag (value : option bool) (argument : string) : list text :=
  if value === Some true then [txt argument] else [].

(** Source: packages/workspace/src/worktree.ts:145-201 [WorktreeManager.create]. *)
Definition create_worktree (options : CreateWorktreeOptions) : act GW WorktreeRecord :=
  _ ← act_lift (assertNonEmpty (cw_path options) "Worktree path");
  _ ← match cw_branch options with
      | None => mret tt
      | Some branch => act_lift (assertNonEmpty branch "Worktree branch")
      end;
  _ ← match cw_ref options with
      | None => mret tt
      | Some ref => act_lift (assertNonEmpty ref "Worktree ref")
      end;
  _ ← act_lift (throw_if ((cw_detach options === Some true) && (cw_branch options !== None))
        (GitSnapshotError (txt "A detached worktree cannot also create a branch.")));
  let targetPath := resolve (gh_cwd host) [cw_path options] in
  primary ← isPrimaryWorktree targetPath;
  _ ← act_lift (throw_if primary
        (GitSnapshotError (txt "Refusing to create a worktree over the primary worktree.")));
  _ ← runGitCommand host
        ([txt "worktree"; txt "add"] ++ flag (cw_force options) "--force" ++ flag (cw_detach options) "--detach" ++
         match cw_branch options with None => [] | Some branch => [txt "-b"; branch] end ++ [targetPath] ++
         match cw_ref options with None => [] | Some ref => [ref] end);
  created ← find_worktree targetPath;
  match created with
  | None => act_throw (GitSnapshotError (txt "Git created a worktree but it could not be listed afterward."))
  | Some created =>
      if cw_lock options === Some true then
        _ ← lock_worktree (wt_path created) (Some (txt "Managed by Ottili Coder"));
        locked ← find_worktree (wt_path created);
        match locked with
        | None => act_throw (GitSnapshotError (txt "Git worktree disappeared while applying its lock."))
        | Some locked => mret locked
        end
      else mret created
  end.

(** Source: packages/workspace/src/worktree.ts:203-226 [WorktreeManager.remove]. *)
Definition remove_worktree (path : text) (force : option bool) : act GW unit :=
  _ ← act_lift (assertNonEmpty path "Worktree path");
  let targetPath := resolve (gh_cwd host) [path] in
  primary ← isPrimaryWorktree targetPath;
  _ ← act_lift (throw_if primary (GitSnapshotError (txt "Refusing to remove the primary worktree.")));
  existing ← find_worktree targetPath;
  match existing with
  | None => act_throw (GitSnapshotError (txt "No registered worktree exists at " ++ targetPath ++ txt "."))
  | Some existing =>
      _ ← runGitCommand host ([txt "worktree"; txt "remove"] ++ flag force "--force" ++ [wt_path existing]);
      mret tt
  end.
End Manager.

(** ** The provisioner *)

(** [path.normalize]: a relative path may go up. *)
Definition push_relative (segments : list text) (segment : text) : list text :=
  if (segment === []) || (segment === txt ".") then segments
  else if segment === txt ".." then
    if (segments === []) || (List.last segments [] === txt "..") then segments ++ [segment]
    else removelast segments
  else segments ++ [segment].

Definition normalize (path : text) : text :=
  if path === [] then txt "."
  else
    let trailing := if ends_with slash path then [slash] else [] in
    if isAbsolute path then
      match segments_of path with
      | [] => [slash]
      | segments => absolute_path segments ++ trailing
      end
    else
      match foldl push_relative [] (split_on slash path) with
      | [] => ch "." :: trailing
      | segments => join_with slash segments ++ trailing
      end.

(** [path.join] *)
Definition join (parts : list text) : text := normalize (join_with slash (List.filter nonempty parts)).

Section Provisioner.
Context {Outside : Type} (host_at : text -> GitHost Outside).
Context (realpath : text -> act Outside text) (toLowerCase : text -> text) (platform : text).
Context (mkdir : text -> act Outside unit).

(** A new service has found no root yet.
    Source: packages/runtime/src/worktrees.ts:20-37 [GitWorktreeProvisioner.provision]. *)
Definition provision (agentId runId workspacePath : text) : act Outside text := fun o =>
  let host := host_at workspacePath in
  let path := join [dirname workspacePath; txt ".ottili-worktrees"; runId; agentId] in
  let '(w, r) :=
    (existing ← find_worktree host realpath toLowerCase platform path;
     match existing with
     | Some existing => mret (wt_path existing)
     | None =>
         _ ← outside (mkdir (dirname path));
         created ← create_worktree host realpath toLowerCase platform
           {| cw_path := path; cw_ref := None; cw_branch := None; cw_detach := Some true;
              cw_force := None; cw_lock := None |};
         mret (wt_path created)
     end) (None, o) in
  (w.2, r).
End Provisioner.
