(* ===== verification/WorktreeSafety.v ===== *)
(** What the worktree manager promises: the theorems about Worktree.v. *)

From Stdlib Require Import ZArith NArith Lia Ascii.
From stdpp Require Import base strings list.
From S2P Require Import Prelude JsNumber JsText JsCollections Paths Git GitSafety Worktree.

Open Scope string_scope.
Open Scope list_scope.

(** ** Locations *)

Section Locations.
Context (toLowerCase : text -> text) (platform : text).
#[local] Abbreviation same := (same_location toLowerCase platform).

Lemma same_location_iff a b : same a b = true <->
  a = b \/ (isCaseInsensitivePlatform platform = true /\ toLowerCase a = toLowerCase b).
Proof.
  unfold same_location, canonicalPathsEqual. rewrite orb_true_iff, andb_true_iff, !bool_decide_eq_true. done.
Qed.

(** The comparison of locations is an equivalence. *)
#[export] Instance same_location_equivalence : Equivalence (fun a b => same a b = true).
Proof.
  split.
  - intros a. apply same_location_iff. by left.
  - intros a b H. apply same_location_iff in H as [->|[Hp H]]; apply same_location_iff; auto.
  - intros a b c H1 H2. apply same_location_iff in H1 as [->|[Hp H1]]; [done|].
    apply same_location_iff in H2 as [->|[_ H2]]; apply same_location_iff; right; (split; [done|congruence]).
Qed.
End Locations.

(** A file system that does not change gives each path one location. *)
Section Location.
Context {World : Type} (cwd : text) (realpath : text -> act World text) (real : text -> result ws_fault text).
Context (realpath_real : forall path w, realpath path w = (w, real path)).

Fixpoint location_loop (fuel : nat) (absolute : text) (pending : list text) (candidate : text)
  : result ws_fault text :=
  match fuel with
  | O => Throw Endless
  | S fuel =>
      match real candidate with
      | Ok resolved => Ok (if pending === [] then resolved else resolve cwd (resolved :: pending))
      | Throw error =>
          if negb (isUnresolvableComponentError error) then Throw error
          else if dirname candidate === candidate then Ok absolute
          else location_loop fuel absolute (basename candidate :: pending) (dirname candidate)
      end
  end.

Definition location (path : text) : result ws_fault text :=
  let absolute := resolve cwd [path] in location_loop (S (length absolute)) absolute [] absolute.

Lemma canonicalize_location path w : canonicalizePath cwd realpath path w = (w, location path).
Proof.
  unfold canonicalizePath, location. set (absolute := resolve cwd [path]). clearbody absolute.
  generalize (S (length absolute)) as fuel. generalize (@nil text) as pending. generalize absolute at 2 4 as candidate.
  intros candidate pending fuel. revert pending candidate.
  induction fuel as [|fuel IH]; intros pending candidate; [done|]. cbn [canonicalize_loop location_loop].
  unfold act_catch, mbind, act_bind. rewrite realpath_real. destruct (real candidate) as [r|e]; [done|].
  destruct (negb _); [done|]. destruct (dirname candidate === candidate); [done|]. apply IH.
Qed.
End Location.

(** ** Removing a worktree *)

Section Remove.
Context {Outside : Type} (host : GitHost Outside) (toLowerCase : text -> text) (platform : text).
Context (realpath : text -> act (list git_run * Outside) text) (real : text -> result ws_fault text).
Context (realpath_real : forall path w, realpath path w = (w, real path)).

#[local] Abbreviation LW := (git_world (Outside := list git_run * Outside)).
#[local] Abbreviation same := (same_location toLowerCase platform).
#[local] Abbreviation at_location := (location (gh_cwd host) real).

Lemma canonical_location path (w : LW) : canonical (logging host) realpath path w = (w, at_location path).
Proof.
  unfold canonical, outside. rewrite (canonicalize_location _ realpath real realpath_real). by destruct w.
Qed.

Definition run_args (run : git_run) : list text := run.1.1.2.
Definition removal (run : git_run) (removed : text) : Prop :=
  exists options, run_args run = [txt "worktree"; txt "remove"] ++ options ++ [removed] /\
    options ⊆ [txt "--force"].
Definition no_removal (run : git_run) : Prop :=
  forall rest, run_args run <> txt "worktree" :: txt "remove" :: rest.

(** One of the commands asked Git for its worktrees, and the answer has this record. *)
Definition git_listed (ran : list git_run) (record : WorktreeRecord) : Prop :=
  exists run answer records, run ∈ ran /\ run_args run = [txt "worktree"; txt "list"; txt "--porcelain"] /\
    run.2 = Ok answer /\ parseWorktreeList (gh_cwd host) (cr_stdout answer) = Ok records /\ record ∈ records.

(** A step that removes nothing, and one that keeps the root that was found. *)
Definition harmless (w w' : LW) : Prop := exists ran, w'.2.1 = w.2.1 ++ ran /\ Forall no_removal ran.

Lemma harmless_refl w : harmless w w.
Proof. exists []. by rewrite app_nil_r. Qed.
Lemma harmless_trans a b c : harmless a b -> harmless b c -> harmless a c.
Proof.
  intros (r1 & E1 & H1) (r2 & E2 & H2). exists (r1 ++ r2). rewrite E2, E1, app_assoc.
  split; [done|by apply Forall_app].
Qed.

(** A command is run once, its answer is what is returned, and the root stays. *)
Lemma runGit_logs args (w : LW) :
  ends (runGitCommand (logging host) args) w
    (fun out w' => w'.1 = w.1 /\ exists run answer, run_args run = args /\ run.2 = Ok answer /\
       out = cr_stdout answer /\ w'.2.1 = w.2.1 ++ [run])
    (fun w' => w'.1 = w.1 /\ exists run, run_args run = args /\ w'.2.1 = w.2.1 ++ [run]).
Proof.
  unfold ends, runGitCommand, git, runGit, act_catch, mbind, act_bind, outside, logging. cbn [gh_run].
  destruct (gh_run host _ _ _ _) as [o [r|e]]; cbn.
  - split; [done|]. eexists (_, args, _, Ok r), r. by repeat split.
  - destruct e; cbn; (split; [done|]); eexists (_, args, _, _); by split.
Qed.

Lemma one_command args run (w w' : LW) : (forall rest, args <> txt "worktree" :: txt "remove" :: rest) ->
  run_args run = args -> w'.2.1 = w.2.1 ++ [run] -> harmless w w'.
Proof.
  intros Ha Hc Hl. exists [run]. split; [done|]. apply Forall_singleton. intros rest. rewrite Hc. apply Ha.
Qed.

Lemma root_found (w : LW) : ends (getRepositoryRoot (logging host)) w
  (fun root w' => w'.1 = Some root /\ harmless w w') (harmless w).
Proof.
  unfold ends, getRepositoryRoot. destruct w as [[root|] [log o]]; cbn [fst]; [split; [done|apply harmless_refl]|].
  pose proof (runGit_logs [txt "rev-parse"; txt "--show-toplevel"] (None, (log, o))) as H.
  unfold ends, runGitCommand in H. unfold mbind, act_bind.
  destruct (git _ _ _) as [w1 [out|e]].
  - destruct H as (_ & run & answer & Ha & _ & _ & Hl). split; [done|].
    eapply one_command; [|exact Ha|exact Hl]. intros rest. discriminate.
  - destruct H as (_ & run & Ha & Hl). eapply one_command; [|exact Ha|exact Hl]. intros rest. discriminate.
Qed.

Lemma primary_checked target (w : LW) : ends (isPrimaryWorktree (logging host) realpath toLowerCase platform target) w
  (fun primary w' => harmless w w' /\ exists root a b, w'.1 = Some root /\ at_location target = Ok a /\
     at_location root = Ok b /\ primary = same a b) (harmless w).
Proof.
  unfold isPrimaryWorktree, ends. rewrite canonical_location. pose proof (root_found w) as H.
  unfold ends in H. unfold mbind, act_bind, act_lift. destruct (getRepositoryRoot _ w) as [w1 [root|e]]; [|done].
  destruct H as [Hr Hh]. rewrite canonical_location. destruct (at_location root) as [b|e] eqn:Eb; [|done].
  destruct (at_location target) as [a|e] eqn:Ea; [|done]. split; [done|]. by exists root, a, b.
Qed.

Lemma located_all (records : list WorktreeRecord) (w : LW) :
  ends (act_all (fun record => c ← canonical (logging host) realpath (wt_path record); mret (record, c)) records) w
    (fun entries w' => w' = w /\ map fst entries = records /\
       Forall (fun entry => at_location (wt_path entry.1) = Ok entry.2) entries)
    (fun w' => w' = w).
Proof.
  induction records as [|record records IH]; cbn [act_all]; [done|]. unfold ends, act_both, mbind, act_bind in *.
  rewrite canonical_location. unfold mret, act_ret in *. cbv beta iota.
  destruct (at_location (wt_path record)) as [c|e] eqn:E; cbv beta iota;
    (destruct (act_all _ records w) as [w1 [entries|e']]; [destruct IH as (-> & Hm & IH)|subst w1; done]); [|done].
  split; [done|]. cbn [map fst]. split; [by rewrite Hm|]. by constructor.
Qed.

Lemma mapM_resolved cwd blocks records : mapM (parse_block cwd) blocks = Ok records ->
  Forall (fun record => isAbsolute (wt_path record) = true) records.
Proof.
  intros H%mapM_Forall2. induction H as [|block record blocks records H _ IH]; constructor; [|done].
  unfold parse_block in H. destruct (pw_path _) as [path|]; [|done]. injection H as <-. cbn [wt_path].
  destruct (resolve_segments cwd [path]) as (segments & _ & ->). done.
Qed.

Lemma worktree_found target (w : LW) :
  ends (find_worktree (logging host) realpath toLowerCase platform target) w
    (fun found w' => w'.1 = w.1 /\ exists ran, w'.2.1 = w.2.1 ++ ran /\ Forall no_removal ran /\
       forall record, found = Some record -> git_listed ran record /\ isAbsolute (wt_path record) = true /\
         exists a b, at_location (wt_path record) = Ok a /\ at_location target = Ok b /\ same a b = true)
    (harmless w).
Proof.
  assert (forall rest, [txt "worktree"; txt "list"; txt "--porcelain"] <> txt "worktree" :: txt "remove" :: rest)
    as Hno by (intros rest; discriminate).
  unfold find_worktree. apply (ends_bind _ _ _ (fun found w' => w'.1 = w.1 /\
    (exists run answer, run_args run = [txt "worktree"; txt "list"; txt "--porcelain"] /\ run.2 = Ok answer /\
       parseWorktreeList (gh_cwd host) (cr_stdout answer) = Ok found.1 /\ w'.2.1 = w.2.1 ++ [run]) /\
    Forall (fun record => isAbsolute (wt_path record) = true) found.1 /\ at_location target = Ok found.2)).
  - unfold ends, act_both, list_worktrees, mbind, act_bind, act_lift.
    pose proof (runGit_logs [txt "worktree"; txt "list"; txt "--porcelain"] w) as H. unfold ends in H.
    destruct (runGitCommand _ _ w) as [w1 [raw|e]]; rewrite canonical_location;
      [|destruct H as (_ & run & Ha & Hl); by apply (one_command _ run _ _ Hno)].
    destruct H as (H1 & run & answer & Ha & Hans & -> & Hl).
    pose proof (one_command _ run w w1 Hno Ha Hl) as Hh.
    destruct (parseWorktreeList _ (cr_stdout answer)) as [records|e] eqn:Ep; [|done].
    destruct (at_location target) as [c|e] eqn:Et; [|done].
    split; [done|split; [by exists run, answer|split; [by eapply mapM_resolved|done]]].
  - intros [records c] w1 (H1 & (run & answer & Ha & Hans & Hp & Hl) & Habs & Hc). cbn [fst snd] in *.
    apply (ends_bind _ _ _ (fun entries w2 => w2 = w1 /\ map fst entries = records /\
      Forall (fun entry => at_location (wt_path entry.1) = Ok entry.2) entries)).
    { eapply ends_weaken; [apply located_all|done|]. intros ? ->. by apply (one_command _ run _ _ Hno). }
    intros entries w2 (-> & <- & He). split; [done|]. exists [run]. split; [done|]. split.
    { apply Forall_singleton. intros rest. rewrite Ha. apply Hno. }
    intros record Hr. apply fmap_Some in Hr as ([record' c'] & Hf & ->).
    apply find_some in Hf as [Hin Hs]. apply list_elem_of_In in Hin.
    apply (proj1 (Forall_forall _ _)) with (x := (record', c')) in He; [|done].
    cbn [fst snd] in *. pose proof (list_elem_of_fmap_2 fst _ _ Hin) as Hrecord.
    split; [|split; [by apply (proj1 (Forall_forall _ _) Habs)|by exists c', c]].
    exists run, answer, (map fst entries). split; [apply list_elem_of_here|done].
Qed.

(** The removal of one worktree, the last of the commands that were run: Git listed
    it before, its path is absolute, and it is where [path] is and not where the root
    of the repository is. *)
Definition removes (path : text) (w w' : LW) : Prop :=
  exists ran run record root a b c, w'.2.1 = w.2.1 ++ ran ++ [run] /\ Forall no_removal ran /\
    git_listed ran record /\ removal run (wt_path record) /\ isAbsolute (wt_path record) = true /\
    w'.1 = Some root /\ at_location (wt_path record) = Ok a /\ at_location root = Ok b /\
    at_location (resolve (gh_cwd host) [path]) = Ok c /\ same a c = true /\ same a b = false.

Lemma git_listed_mono ran1 ran2 record : git_listed ran2 record -> git_listed (ran1 ++ ran2) record.
Proof.
  intros (run & answer & records & Hin & H). exists run, answer, records.
  split; [apply elem_of_app; by right|exact H].
Qed.

(** C18: The manager never removes the primary worktree.  Whatever Git answers,
    with a file system that does not change meanwhile: a removal that returns has
    run one [git worktree remove], and one that throws has run none or has failed in
    it.  What it removes is a worktree that Git itself listed before in that call, under the
    absolute path Git gave it, so no option; it is at the location that was asked
    for, and not at the location of the repository's root, under any spelling of
    either. *)
Theorem remove_spares_primary path force (w : LW) :
  let '(w', r) := remove_worktree (logging host) realpath toLowerCase platform path force w in
  match r with
  | Ok _ => removes path w w'
  | Throw _ => harmless w w' \/ removes path w w'
  end.
Proof.
  change (ends (remove_worktree (logging host) realpath toLowerCase platform path force) w
    (fun _ => removes path w) (fun w' => harmless w w' \/ removes path w w')).
  unfold remove_worktree. apply (ends_bind _ _ _ (fun _ w1 => w1 = w)).
  { unfold ends, act_lift. destruct (assertNonEmpty _ _); [done|left; apply harmless_refl]. }
  intros [] w' ->. cbv zeta.
  set (target := resolve (gh_cwd (logging host)) [path]).
  eapply ends_bind; [eapply ends_weaken; [apply primary_checked| |by left]|].
  { intros primary w1 H. exact H. }
  intros primary w1 (H1 & root & b & c & Hr & Hb & Hc & Hp).
  apply (ends_bind _ _ _ (fun _ w2 => primary = false /\ w2 = w1)).
  { unfold ends, act_lift, throw_if. destruct primary; [by left|done]. }
  intros [] w2 [-> ->].
  eapply ends_bind; [eapply (ends_weaken _ _ _ _ (harmless w1)); [apply worktree_found| |]|].
  { intros found w2 H. exact H. }
  { intros w2 H2. left. by eapply harmless_trans. }
  destruct H1 as (ran1 & El1 & Hn1).
  intros [existing|] w2 (Hr2 & ran2 & El2 & Hn2 & Hfound).
  2: { left. exists (ran1 ++ ran2). rewrite El2, El1, app_assoc. split; [done|by apply Forall_app]. }
  destruct (Hfound existing eq_refl) as (Hlisted & Habs & a & d & Ha & Hd & Hs).
  rewrite Hb in Hd. injection Hd as <-.
  assert (forall (w3 : LW) run, run_args run = [txt "worktree"; txt "remove"] ++ flag force "--force" ++
    [wt_path existing] -> w3.2.1 = w2.2.1 ++ [run] -> w3.1 = w2.1 -> removes path w w3) as Hlast.
  { intros w3 run Hargs Hl H3. exists (ran1 ++ ran2), run, existing, root, a, c, b.
    split; [by rewrite Hl, El2, El1, !app_assoc|]. split; [by apply Forall_app|].
    split; [by apply git_listed_mono|]. split.
    { exists (flag force "--force"). split; [done|]. unfold flag. case_match; [done|apply list_subseteq_nil]. }
    split; [done|]. split; [by rewrite H3, Hr2|]. repeat (split; [done|]).
    apply Bool.not_true_is_false. intros Hac. symmetry in Hp. apply Bool.not_true_iff_false in Hp. apply Hp.
    destruct (same_location_equivalence toLowerCase platform) as [_ Hsym Htrans].
    apply (Htrans b a c); [by apply Hsym|exact Hac]. }
  apply (ends_bind _ _ _ (fun _ => removes path w)); [|done].
  eapply ends_weaken; [apply runGit_logs| |]; cbv beta.
  - intros r w3 (H3 & run & answer & Hargs & _ & _ & Hl). by eapply Hlast.
  - intros w3 (H3 & run & Hargs & Hl). right. by eapply Hlast.
Qed.
End Remove.

(** ** Git's list *)

(** A worktree as Git prints it; the branch is a full ref. *)
Record listing := {
  ls_path : text;
  ls_bare : bool;
  ls_head : option text;
  ls_detached : bool;
  ls_branch : option text;
  ls_locked : option text;
  ls_prunable : option text }.

Definition attribute (name : string) (value : option text) : list text :=
  match value with Some value => [txt name ++ value] | None => [] end.
Definition reason (name : string) (value : option text) : list text :=
  match value with Some [] => [txt name] | Some value => [txt name ++ ch " " :: value] | None => [] end.

Definition listing_lines (l : listing) : list text :=
  [txt "worktree " ++ ls_path l] ++ (if ls_bare l then [txt "bare"] else []) ++
  attribute "HEAD " (ls_head l) ++ (if ls_detached l then [txt "detached"] else []) ++
  attribute "branch " (ls_branch l) ++ reason "locked" (ls_locked l) ++ reason "prunable" (ls_prunable l).

(** Every line ends with a line feed, and every worktree with an empty line. *)
Definition print_worktrees (ls : list listing) : text :=
  flat_map (fun l => join_with newline (listing_lines l) ++ [newline; newline]) ls.

Definition record_of (cwd : text) (l : listing) : WorktreeRecord :=
  {| wt_path := resolve cwd [ls_path l]; wt_head := ls_head l; wt_branch := short_branch <$> ls_branch l;
     wt_isBare := ls_bare l; wt_isDetached := ls_detached l; wt_lockedReason := ls_locked l;
     wt_prunableReason := ls_prunable l |}.

(** Values are within one line. *)
Definition one_line (s : text) : Prop := newline ∉ s /\ carriage ∉ s.
Definition listing_ok (l : listing) : Prop :=
  one_line (ls_path l) /\ Forall one_line (option_list (ls_head l)) /\ Forall one_line (option_list (ls_branch l)) /\
  Forall one_line (option_list (ls_locked l)) /\ Forall one_line (option_list (ls_prunable l)).

Lemma one_line_app (a b : text) : one_line (a ++ b) <-> one_line a /\ one_line b.
Proof. unfold one_line. rewrite !not_elem_of_app. tauto. Qed.
Lemma one_line_cons c (s : text) : one_line (c :: s) <-> (c <> newline /\ c <> carriage) /\ one_line s.
Proof. unfold one_line. rewrite !not_elem_of_cons. naive_solver. Qed.

Lemma one_line_dec s : Decision (one_line s).
Proof. unfold one_line. apply _. Defined.
#[export] Existing Instance one_line_dec.

Lemma listing_lines_ok l : listing_ok l -> Forall (fun line => line <> [] /\ one_line line) (listing_lines l).
Proof.
  assert (forall name, bool_decide (one_line (txt name)) = true -> txt name <> [] -> forall value : option text,
    Forall one_line (option_list value) -> Forall (fun line => line <> [] /\ one_line line) (attribute name value)) as Ha.
  { intros name Hn Hne value Hv. destruct value as [v|]; [|constructor]. apply Forall_singleton.
    apply (proj1 (Forall_singleton one_line _)) in Hv. split; [by destruct (txt name)|]. apply one_line_app.
    split; [by apply bool_decide_eq_true in Hn|done]. }
  assert (forall name, bool_decide (one_line (txt name)) = true -> txt name <> [] -> forall value : option text,
    Forall one_line (option_list value) -> Forall (fun line => line <> [] /\ one_line line) (reason name value)) as Hr.
  { intros name Hn Hne value Hv. apply bool_decide_eq_true in Hn.
    destruct value as [[|c v]|]; [| |constructor]; apply Forall_singleton; [done|].
    apply (proj1 (Forall_singleton one_line _)) in Hv. split; [by destruct (txt name)|]. apply one_line_app. split; [done|].
    apply one_line_cons. split; [done|done]. }
  intros (Hp & Hh & Hb & Hl & Hpr). unfold listing_lines.
  repeat (apply Forall_app; split).
  - apply Forall_singleton. split; [done|]. apply one_line_app. split; [|done].
    apply (bool_decide_unpack _). vm_compute. exact I.
  - destruct (ls_bare l); [|constructor]. apply Forall_singleton. split; [done|].
    apply (bool_decide_unpack _). vm_compute. exact I.
  - by apply Ha.
  - destruct (ls_detached l); [|constructor]. apply Forall_singleton. split; [done|].
    apply (bool_decide_unpack _). vm_compute. exact I.
  - by apply Ha.
  - by apply Hr.
  - by apply Hr.
Qed.

(** *** Splitting *)

Lemma block_end_plain c s : c <> newline -> c <> carriage -> block_end (c :: s) = None.
Proof. intros Hn Hc. unfold block_end. by rewrite (proj2 (N.eqb_neq c newline) Hn), (proj2 (N.eqb_neq c carriage) Hc). Qed.

Lemma block_end_line c s : c <> newline -> c <> carriage -> block_end (newline :: c :: s) = None.
Proof. intros Hn Hc. unfold block_end. cbn. by rewrite (proj2 (N.eqb_neq c newline) Hn), (proj2 (N.eqb_neq c carriage) Hc). Qed.

Lemma split_blocks_line (line rest : text) block blocks : one_line line ->
  split_blocks 0 rest = block :: blocks -> split_blocks 0 (line ++ rest) = (line ++ block) :: blocks.
Proof.
  intros Hl Hr. induction line as [|c line IH]; [done|]. apply one_line_cons in Hl as [[Hn Hc] Hl].
  cbn [app split_blocks]. change (c :: line ++ rest) with (c :: (line ++ rest)).
  rewrite block_end_plain by done. by rewrite IH.
Qed.

Lemma split_blocks_block lines rest : lines <> [] -> Forall (fun line => line <> [] /\ one_line line) lines ->
  split_blocks 0 (join_with newline lines ++ newline :: newline :: rest) =
    join_with newline lines :: split_blocks 0 rest.
Proof.
  intros Hne Hall. assert (split_blocks 0 (newline :: newline :: rest) = [] :: split_blocks 0 rest) as Hend.
  { by cbn. }
  induction Hall as [|line lines [Hline Hone] Hall IH]; [done|]. destruct lines as [|next lines].
  - cbn [join_with]. by erewrite split_blocks_line; [rewrite app_nil_r| |exact Hend].
  - change (join_with newline (line :: next :: lines)) with (line ++ newline :: join_with newline (next :: lines)).
    rewrite <- app_assoc. cbn [app]. apply split_blocks_line; [done|].
    specialize (IH ltac:(done)). apply Forall_cons in Hall as [[Hnext Honext] _].
    destruct next as [|c next]; [done|]. apply one_line_cons in Honext as [[Hn Hc] _].
    assert (exists s, join_with newline ((c :: next) :: lines) = c :: s) as [s Es]
      by (destruct lines; by eexists).
    rewrite Es in *. cbn [app] in *. cbn [split_blocks]. rewrite block_end_line by done.
    change (split_blocks 0 (c :: s ++ newline :: newline :: rest)) with
      (split_blocks 0 (c :: (s ++ newline :: newline :: rest))) in IH.
    cbn [split_blocks] in IH. by rewrite IH.
Qed.

Lemma chomp_one_line lines : Forall one_line lines -> chomp_parts lines = lines.
Proof.
  induction 1 as [|line lines [_ Hc] _ IH]; [done|]. cbn [chomp_parts]. destruct lines as [|next lines]; [done|].
  rewrite IH. destruct (ends_with carriage line) eqn:E; [|done]. exfalso. apply Hc.
  unfold ends_with in E. destruct (last line) as [x|] eqn:El; [|done]. apply N.eqb_eq in E as ->.
  by apply last_Some_elem_of.
Qed.

Lemma split_lines_join lines : lines <> [] -> Forall one_line lines ->
  split_lines (join_with newline lines) = lines.
Proof.
  intros Hne Hall. unfold split_lines. rewrite split_join; [by apply chomp_one_line|done|].
  eapply Forall_impl; [exact Hall|]. by intros s [Hs _].
Qed.

(** *** Reading the lines *)

Definition parsed_of (l : listing) : parsed :=
  {| pw_path := Some (ls_path l); pw_head := ls_head l; pw_branch := short_branch <$> ls_branch l;
     pw_isBare := ls_bare l; pw_isDetached := ls_detached l; pw_lockedReason := ls_locked l;
     pw_prunableReason := ls_prunable l |}.

Lemma parse_listing l : foldl parse_line parsed_nothing (listing_lines l) = parsed_of l.
Proof.
  unfold listing_lines, parsed_of. destruct l as [path bare head detached branch locked prunable].
  cbn [ls_path ls_bare ls_head ls_detached ls_branch ls_locked ls_prunable].
  rewrite !foldl_app.
  set (b1 := foldl parse_line parsed_nothing [txt "worktree " ++ path]).
  assert (b1 = {| pw_path := Some path; pw_head := None; pw_branch := None; pw_isBare := false;
    pw_isDetached := false; pw_lockedReason := None; pw_prunableReason := None |}) as -> by reflexivity.
  set (b2 := foldl parse_line _ (if bare then [txt "bare"] else [])).
  assert (b2 = {| pw_path := Some path; pw_head := None; pw_branch := None; pw_isBare := bare;
    pw_isDetached := false; pw_lockedReason := None; pw_prunableReason := None |}) as -> by by destruct bare.
  set (b3 := foldl parse_line _ (attribute "HEAD " head)).
  assert (b3 = {| pw_path := Some path; pw_head := head; pw_branch := None; pw_isBare := bare;
    pw_isDetached := false; pw_lockedReason := None; pw_prunableReason := None |}) as -> by by destruct head.
  set (b4 := foldl parse_line _ (if detached then [txt "detached"] else [])).
  assert (b4 = {| pw_path := Some path; pw_head := head; pw_branch := None; pw_isBare := bare;
    pw_isDetached := detached; pw_lockedReason := None; pw_prunableReason := None |}) as -> by by destruct detached.
  set (b5 := foldl parse_line _ (attribute "branch " branch)).
  assert (b5 = {| pw_path := Some path; pw_head := head; pw_branch := short_branch <$> branch; pw_isBare := bare;
    pw_isDetached := detached; pw_lockedReason := None; pw_prunableReason := None |}) as -> by by destruct branch.
  set (b6 := foldl parse_line _ (reason "locked" locked)).
  assert (b6 = {| pw_path := Some path; pw_head := head; pw_branch := short_branch <$> branch; pw_isBare := bare;
    pw_isDetached := detached; pw_lockedReason := locked; pw_prunableReason := None |}) as ->
    by by destruct locked as [[|c r]|].
  by destruct prunable as [[|c r]|].
Qed.

Lemma join_lines_nonempty lines : lines <> [] -> Forall (fun line => line <> [] /\ one_line line) lines ->
  nonempty (join_with newline lines) = true.
Proof.
  intros Hne Hall. destruct Hall as [|line lines [Hline _] _]; [done|]. unfold nonempty.
  rewrite bool_decide_eq_false_2; [done|]. destruct line as [|c line]; [done|]. by destruct lines.
Qed.

(** The list of worktrees is read as Git prints it: any number of worktrees,
    bare, detached or on a branch, locked or prunable with or without a reason,
    whose values are within one line, come back as their records. *)
Theorem worktree_list_roundtrip cwd ls : Forall listing_ok ls ->
  parseWorktreeList cwd (print_worktrees ls) = Ok (map (record_of cwd) ls).
Proof.
  intros Hall. unfold parseWorktreeList.
  assert (List.filter nonempty (split_blocks 0 (print_worktrees ls)) =
    map (fun l => join_with newline (listing_lines l)) ls) as ->.
  { induction Hall as [|l ls Hl _ IH]; [done|]. unfold print_worktrees in *. cbn [flat_map map].
    rewrite <- app_assoc. cbn [app]. pose proof (listing_lines_ok l Hl) as Hlines.
    rewrite split_blocks_block by done. cbn [List.filter]. by rewrite join_lines_nonempty, IH by done. }
  apply mapM_Forall2. induction Hall as [|l ls Hl _ IH]; [constructor|]. cbn [map]. constructor; [|exact IH].
  unfold parse_block. pose proof (listing_lines_ok l Hl) as Hlines. rewrite split_lines_join; [|done|].
  - by rewrite parse_listing.
  - eapply Forall_impl; [exact Hlines|]. by intros s [_ Hs].
Qed.

(** ** A repository with a linked worktree behind a symbolic link *)

Definition demo_listing : list listing :=
  [{| ls_path := txt "/data/repo"; ls_bare := false; ls_head := Some (txt "aa"); ls_detached := false;
      ls_branch := Some (txt "refs/heads/main"); ls_locked := None; ls_prunable := None |};
   {| ls_path := txt "/data/linked"; ls_bare := false; ls_head := Some (txt "bb"); ls_detached := true;
      ls_branch := None; ls_locked := Some []; ls_prunable := Some (txt "gone") |}].

Lemma worktree_list_roundtrip_witness : Forall listing_ok demo_listing /\
  parseWorktreeList (txt "/") (print_worktrees demo_listing) = Ok (map (record_of (txt "/")) demo_listing).
Proof.
  assert (Forall listing_ok demo_listing) as H.
  { repeat constructor; try (apply (bool_decide_unpack _); vm_compute; exact I). }
  split; [exact H|exact (worktree_list_roundtrip (txt "/") demo_listing H)].
Defined.

(** /home is a link to /data; Git answers with the list and with the root. *)
Definition demo_real_path (path : text) : result ws_fault text :=
  match strip_prefix (txt "/home/") path with
  | Some rest => Ok (txt "/data/" ++ rest)
  | None => Ok path
  end.
Definition demo_host : GitHost unit :=
  {| gh_cwd := txt "/"; gh_workspacePath := txt "/data/repo"; gh_gitExecutable := txt "git";
     gh_commandTimeoutMs := None; gh_process_env := [];
     gh_run := fun _ args _ o => (o, Ok {| cr_stdout :=
       if args === [txt "rev-parse"; txt "--show-toplevel"] then txt "/data/repo" ++ [newline]
       else if args === [txt "worktree"; txt "list"; txt "--porcelain"] then print_worktrees demo_listing
       else []; cr_stderr := [] |});
     gh_mkdtemp := mret []; gh_copyFile := fun _ _ => mret tt; gh_rm := fun _ => mret tt; gh_now := mret [] |}.
Definition demo_remove (path : string) : git_world * result ws_fault unit :=
  remove_worktree (logging demo_host) (fun path w => (w, demo_real_path path)) id (txt "linux")
    (txt path) None (None, ([], tt)).

(** The linked worktree is removed under Git's name for it; the primary one is refused. *)
Example removes_linked : (demo_remove "/home/linked").2 = Ok tt /\
  map run_args (demo_remove "/home/linked").1.2.1 =
    [[txt "rev-parse"; txt "--show-toplevel"]; [txt "worktree"; txt "list"; txt "--porcelain"];
     [txt "worktree"; txt "remove"; txt "/data/linked"]].
Proof. split; vm_compute; reflexivity. Qed.
Example refuses_primary :
  (demo_remove "/home/repo").2 = Throw (GitSnapshotError (txt "Refusing to remove the primary worktree.")).
Proof. vm_compute. reflexivity. Qed.

Lemma remove_spares_primary_witness :
  removes demo_host id (txt "linux") demo_real_path (txt "/home/linked") (None, ([], tt))
    (demo_remove "/home/linked").1.
Proof.
  pose proof (remove_spares_primary demo_host id (txt "linux") (fun path w => (w, demo_real_path path))
    demo_real_path (fun path w => eq_refl) (txt "/home/linked") None (None, ([], tt))) as H.
  revert H. change (remove_worktree _ _ _ _ _ _ _) with (demo_remove "/home/linked").
  assert ((demo_remove "/home/linked").2 = Ok tt) as Hr by (vm_compute; reflexivity).
  destruct (demo_remove "/home/linked") as [w' r]. cbn [snd fst] in *. subst r. intros H. exact H.
Defined.
