(* ===== verification/Sandbox.v ===== *)
(** The sandbox profiles of processes: packages/workspace/src/sandbox.ts.

    A profile says which paths, destinations, variables and executables a process
    may use; a child inherits from its parent and must not be broader.  Paths are
    POSIX paths; the working directory and the probe for executables are
    parameters. *)

From Stdlib Require Import ZArith NArith Lia Ascii.
From stdpp Require Import base strings list.
From S2P Require Import Prelude JsText JsCollections Paths Git Worktree.

Open Scope string_scope.
Open Scope list_scope.

(** ** Data *)

(** Source: packages/workspace/src/sandbox.ts:5-6 [SandboxMode]. *)
Inductive SandboxMode : Type := mode_safe | mode_standard | mode_autonomous | mode_unrestricted | mode_custom.

(** Source: packages/workspace/src/sandbox.ts:7-9 [NetworkAccess, ProcessAccess, EnvironmentAccess]. *)
Inductive Access : Type := access_deny | access_allowlist | access_allow.

(** Source: packages/workspace/src/sandbox.ts:10-10 [SandboxBackend]. *)
Inductive SandboxBackend : Type := backend_bubblewrap | backend_sandbox_exec | backend_none.

#[export] Instance SandboxMode_eq_dec : EqDecision SandboxMode.
Proof. solve_decision. Defined.
#[export] Instance Access_eq_dec : EqDecision Access.
Proof. solve_decision. Defined.
#[export] Instance SandboxBackend_eq_dec : EqDecision SandboxBackend.
Proof. solve_decision. Defined.

(** Source: packages/workspace/src/sandbox.ts:12-17 [SandboxFilesystemPolicy]. *)
Record SandboxFilesystemPolicy := {
  fs_allowAnyPath : bool;
  fs_writableRoots : list text;
  fs_readonlyRoots : list text }.

(** The policies of the network, of the environment and of processes have one form.
    Source: packages/workspace/src/sandbox.ts:19-33 [SandboxNetworkPolicy, SandboxEnvironmentPolicy, SandboxProcessPolicy]. *)
Record ListPolicy := {
  lp_access : Access;
  lp_values : list text }.

(** Source: packages/workspace/src/sandbox.ts:36-44 [SandboxProfile]. *)
Record SandboxProfile := {
  sp_mode : SandboxMode;
  sp_workspaceRoot : text;
  sp_filesystem : SandboxFilesystemPolicy;
  sp_network : ListPolicy;
  sp_environment : ListPolicy;
  sp_process : ListPolicy }.

(** The path of the executable of a backend that is available.
    Source: packages/workspace/src/sandbox.ts:46-49 [SandboxCapability]. *)
Definition SandboxCapability : Type := option text.

(** Source: packages/workspace/src/sandbox.ts:51-61 [SandboxCapabilities]. *)
Record SandboxCapabilities := {
  sc_platform : text;
  sc_architecture : text;
  sc_bubblewrap : SandboxCapability;
  sc_sandboxExec : SandboxCapability;
  sc_nativeBackend : SandboxBackend;
  sc_supportsFilesystemIsolation : bool;
  sc_supportsNetworkIsolation : bool;
  sc_supportsProcessIsolation : bool;
  sc_degradedReasons : list text }.

Inductive Enforcement : Type := enforced_native | enforced_degraded | enforced_none.

(** Source: packages/workspace/src/sandbox.ts:71-75 [SandboxEnforcementStatus]. *)
Record SandboxEnforcementStatus := {
  se_backend : SandboxBackend;
  se_enforcement : Enforcement;
  se_reasons : list text }.

(** Source: packages/workspace/src/sandbox.ts:77-87 [SandboxInheritanceError]. *)
Inductive sandbox_fault : Type := SandboxInheritanceError (violations : list text).

(** ** Lists *)

(** [[...new Set(values)]]: the first of equal values is kept. *)
Fixpoint distinct_from (seen values : list text) : list text :=
  match values with
  | [] => []
  | value :: rest =>
      if bool_decide (value ∈ seen) then distinct_from seen rest
      else value :: distinct_from (value :: seen) rest
  end.
Definition distinct (values : list text) : list text := distinct_from [] values.

(** Source: packages/workspace/src/sandbox.ts:93-99 [normalizeStringList]. *)
Definition normalizeStringList (values : list text) : list text :=
  sort_by text_le (distinct (List.filter nonempty (map trim values))).

(** The segments of two paths after those they have in common. *)
Fixpoint uncommon (left right : list text) : list text * list text :=
  match left, right with
  | a :: left', b :: right' => if a === b then uncommon left' right' else (left, right)
  | _, _ => (left, right)
  end.

Section Sandbox.
Context (cwd : text).

(** [path.relative]: up from the first path, and down to the second. *)
Definition relative (from to : text) : text :=
  let '(up, down) := uncommon (segments_of (resolve cwd [from])) (segments_of (resolve cwd [to])) in
  join_with slash (map (fun _ => txt "..") up ++ down).

(** Source: packages/workspace/src/sandbox.ts:89-91 [normalizePathList]. *)
Definition normalizePathList (paths : list text) : list text :=
  sort_by text_le (distinct (map (fun path => resolve cwd [path]) paths)).

(** Source: packages/workspace/src/sandbox.ts:101-109 [isWithin]. *)
Definition isWithin (candidate parent : text) : bool :=
  let relativePath := relative parent candidate in
  (relativePath === []) ||
  ((relativePath !== txt "..") && negb (has_prefix (txt "../") relativePath) && negb (isAbsolute relativePath)).

(** Source: packages/workspace/src/sandbox.ts:111-122 [accessRank]. *)
Definition accessRank (access : Access) : Z :=
  match access with
  | access_deny => 0
  | access_allowlist => 1
  | access_allow => 2
  end.

(** Source: packages/workspace/src/sandbox.ts:124-141 [isListNoBroader]. *)
Definition isListNoBroader (candidate parent : ListPolicy) : bool :=
  if (accessRank (lp_access parent) <? accessRank (lp_access candidate))%Z then false
  else if (lp_access candidate !== access_allowlist) || (lp_access parent === access_allow) then true
  else if lp_access parent !== access_allowlist then false
  else forallb (fun value => bool_decide (value ∈ lp_values parent)) (lp_values candidate).

Definition normalizePolicy (policy : ListPolicy) : ListPolicy :=
  {| lp_access := lp_access policy; lp_values := normalizeStringList (lp_values policy) |}.

(** An allowlist that allows nothing. *)
Definition empty_allowlist (policy : ListPolicy) : bool :=
  (lp_access policy === access_allowlist) && (lp_values policy === []).

Definition refuse {A} (violation : string) : result sandbox_fault A :=
  Throw (SandboxInheritanceError [txt violation]).

(** Source: packages/workspace/src/sandbox.ts:143-191 [normalizeProfile]. *)
Definition normalizeProfile (profile : SandboxProfile) : result sandbox_fault SandboxProfile :=
  let normalized :=
    {| sp_mode := sp_mode profile; sp_workspaceRoot := resolve cwd [sp_workspaceRoot profile];
       sp_filesystem :=
         {| fs_allowAnyPath := fs_allowAnyPath (sp_filesystem profile);
            fs_writableRoots := normalizePathList (fs_writableRoots (sp_filesystem profile));
            fs_readonlyRoots := normalizePathList (fs_readonlyRoots (sp_filesystem profile)) |};
       sp_network := normalizePolicy (sp_network profile);
       sp_environment := normalizePolicy (sp_environment profile);
       sp_process := normalizePolicy (sp_process profile) |} in
  if empty_allowlist (sp_network normalized) then refuse "network allowlist cannot be empty"
  else if empty_allowlist (sp_process normalized) then refuse "process executable allowlist cannot be empty"
  else if empty_allowlist (sp_environment normalized) then refuse "environment variable allowlist cannot be empty"
  else Ok normalized.

Definition deny_all : ListPolicy := {| lp_access := access_deny; lp_values := [] |}.
Definition allow_all : ListPolicy := {| lp_access := access_allow; lp_values := [] |}.
Definition allow_only (values : list string) : ListPolicy :=
  {| lp_access := access_allowlist; lp_values := map txt values |}.

(** Source: packages/workspace/src/sandbox.ts:194-267 [createSandboxProfile]. *)
Definition createSandboxProfile (mode : SandboxMode) (workspaceRoot : text) : result sandbox_fault SandboxProfile :=
  let root := resolve cwd [workspaceRoot] in
  let profile anyPath writable readonly network environment process :=
    normalizeProfile
      {| sp_mode := mode; sp_workspaceRoot := root;
         sp_filesystem := {| fs_allowAnyPath := anyPath; fs_writableRoots := writable; fs_readonlyRoots := readonly |};
         sp_network := network; sp_environment := environment; sp_process := process |} in
  match mode with
  | mode_safe => profile false [] [root] deny_all deny_all deny_all
  | mode_standard =>
      profile false [root] [] deny_all (allow_only ["HOME"; "PATH"; "TEMP"; "TMP"; "TMPDIR"])
        (allow_only ["git"; "node"; "npm"; "pnpm"])
  | mode_autonomous => profile false [root] [] allow_all allow_all allow_all
  | mode_unrestricted => profile true [root] [] allow_all allow_all allow_all
  | mode_custom =>
      refuse "custom profiles must be supplied explicitly and validated with inheritSandboxProfile"
  end.

(** A violation, when there is one. *)
Definition violated (broader : bool) (violation : string) : list text :=
  if broader then [txt violation] else [].

(** The parts of a child that are broader than its parent, both in normal form.
    Source: packages/workspace/src/sandbox.ts:279-339 [inheritSandboxProfile, violations]. *)
Definition violations (child normalizedParent : SandboxProfile) : list text :=
  let fs := sp_filesystem child in
  let parent_fs := sp_filesystem normalizedParent in
  let roots_within roots parents := forallb (fun root => existsb (isWithin root) parents) roots in
  violated (fs_allowAnyPath fs && negb (fs_allowAnyPath parent_fs)) "filesystem.allowAnyPath" ++
  (if fs_allowAnyPath parent_fs then []
   else violated (negb (roots_within (fs_writableRoots fs) (fs_writableRoots parent_fs))) "filesystem.writableRoots" ++
        violated (negb (roots_within (fs_readonlyRoots fs)
                          (fs_writableRoots parent_fs ++ fs_readonlyRoots parent_fs))) "filesystem.readonlyRoots") ++
  violated (negb (isListNoBroader (sp_network child) (sp_network normalizedParent))) "network" ++
  violated (negb (isListNoBroader (sp_environment child) (sp_environment normalizedParent))) "environment" ++
  violated (negb (isListNoBroader (sp_process child) (sp_process normalizedParent))) "process".

(** Source: packages/workspace/src/sandbox.ts:273-345 [inheritSandboxProfile]. *)
Definition inheritSandboxProfile (parent requestedChild : SandboxProfile) : result sandbox_fault SandboxProfile :=
  normalizedParent ← normalizeProfile parent;
  child ← normalizeProfile requestedChild;
  match violations child normalizedParent with
  | [] => Ok child
  | broader => Throw (SandboxInheritanceError broader)
  end.

(** Source: packages/workspace/src/sandbox.ts:358-366 [rebindSandboxProfile, rebase]. *)
Definition rebase (workspaceRoot replacementRoot path : text) : text :=
  if negb (isWithin path workspaceRoot) then path
  else
    let relativePath := relative workspaceRoot path in
    if relativePath === [] then replacementRoot else resolve cwd [replacementRoot; relativePath].

(** Source: packages/workspace/src/sandbox.ts:352-376 [rebindSandboxProfile]. *)
Definition rebindSandboxProfile (profile : SandboxProfile) (nextWorkspaceRoot : text)
  : result sandbox_fault SandboxProfile :=
  normalized ← normalizeProfile profile;
  let replacementRoot := resolve cwd [nextWorkspaceRoot] in
  let moved := rebase (sp_workspaceRoot normalized) replacementRoot in
  let fs := sp_filesystem normalized in
  normalizeProfile
    {| sp_mode := sp_mode normalized; sp_workspaceRoot := replacementRoot;
       sp_filesystem := {| fs_allowAnyPath := fs_allowAnyPath fs;
                           fs_writableRoots := map moved (fs_writableRoots fs);
                           fs_readonlyRoots := map moved (fs_readonlyRoots fs) |};
       sp_network := sp_network normalized; sp_environment := sp_environment normalized;
       sp_process := sp_process normalized |}.

(** ** What the host offers *)

Section Host.
Context {World : Type}.
(** The platform of the process, its architecture, its search path, and whether a
    file may be executed. *)
Context (process_platform process_arch : text) (process_path : option text).
Context (access : text -> act World unit).

Fixpoint find_among (candidates : list text) : act World (option text) :=
  match candidates with
  | [] => mret None
  | candidate :: rest =>
      act_catch (_ ← access candidate; mret (Some candidate)) (fun _ => find_among rest)
  end.

(** The candidates, in the order in which they are tried. *)
Definition candidates_of (executable pathValue : text) : list text :=
  let extensions := if process_platform === txt "win32" then map txt [".exe"; ".cmd"; ".bat"; ""] else [[]] in
  concat (map (fun directory => map (fun extension => join [directory; executable ++ extension]) extensions)
            (List.filter nonempty (split_on (ch ":") pathValue))).

(** Source: packages/workspace/src/sandbox.ts:378-399 [findExecutable]. *)
Definition findExecutable (executable pathValue : text) : act World (option text) :=
  find_among (candidates_of executable pathValue).

(** Source: packages/workspace/src/sandbox.ts:402-470 [detectSandboxCapabilities]. *)
Definition detectSandboxCapabilities (platform architecture path : option text)
  (executableProbe : option (text -> act World (option text))) : act World SandboxCapabilities :=
  let platform := default process_platform platform in
  let architecture := default process_arch architecture in
  let probe := match executableProbe with
               | Some probe => probe
               | None => fun executable =>
                   findExecutable executable (match path with Some path => path | None => default [] process_path end)
               end in
  '(bubblewrap, sandboxExec) ← act_both
    (if platform === txt "linux" then probe (txt "bwrap") else mret None)
    (if platform === txt "darwin" then probe (txt "sandbox-exec") else mret None);
  let capabilities backend filesystem network process reasons :=
    {| sc_platform := platform; sc_architecture := architecture; sc_bubblewrap := bubblewrap;
       sc_sandboxExec := sandboxExec; sc_nativeBackend := backend; sc_supportsFilesystemIsolation := filesystem;
       sc_supportsNetworkIsolation := network; sc_supportsProcessIsolation := process; sc_degradedReasons := reasons |} in
  mret (match bubblewrap, sandboxExec with
        | Some _, _ => capabilities backend_bubblewrap true true true []
        | None, Some _ =>
            capabilities backend_sandbox_exec true true false
              [txt "macOS sandbox-exec does not provide Linux-style PID/process namespace isolation."]
        | None, None =>
            capabilities backend_none false false false
              [if platform === txt "linux" then txt "bubblewrap (bwrap) is not available on PATH."
               else if platform === txt "darwin" then txt "sandbox-exec is not available on PATH."
               else txt "No supported native sandbox backend is available for " ++ platform ++ txt "."]
        end).
End Host.

(** Source: packages/workspace/src/sandbox.ts:473-511 [assessSandboxEnforcement]. *)
Definition assessSandboxEnforcement (profile : SandboxProfile) (capabilities : SandboxCapabilities)
  : result sandbox_fault SandboxEnforcementStatus :=
  normalized ← normalizeProfile profile;
  let restricted :=
    negb (fs_allowAnyPath (sp_filesystem normalized)) ||
    (lp_access (sp_network normalized) !== access_allow) ||
    (lp_access (sp_process normalized) !== access_allow) ||
    (lp_access (sp_environment normalized) !== access_allow) in
  Ok (if negb restricted then
        {| se_backend := sc_nativeBackend capabilities; se_enforcement := enforced_none; se_reasons := [] |}
      else match sc_nativeBackend capabilities with
        | backend_bubblewrap =>
            {| se_backend := backend_bubblewrap; se_enforcement := enforced_native; se_reasons := [] |}
        | backend_sandbox_exec =>
            {| se_backend := backend_sandbox_exec; se_enforcement := enforced_degraded;
               se_reasons := sc_degradedReasons capabilities ++
                 [txt "Environment and executable allowlists require runner-level enforcement."] |}
        | backend_none =>
            {| se_backend := backend_none; se_enforcement := enforced_degraded;
               se_reasons := sc_degradedReasons capabilities ++
                 [txt "Policy is retained and must be enforced by the selected runner on this platform."] |}
        end).
End Sandbox.
