(* ===== verification/SandboxFacts.v ===== *)
(** What sandbox profiles promise: the theorems about Sandbox.v. *)

From Stdlib Require Import ZArith NArith Lia Ascii Sorted.
From stdpp Require Import base strings list infinite.
From S2P Require Import Prelude JsText JsCollections Paths Git Worktree Sandbox.

Open Scope string_scope.
Open Scope list_scope.

(** ** Resolved paths *)

(** A segment that stands for a name. *)
Definition proper (s : text) : Prop := segment s /\ s <> txt "." /\ s <> txt "..".
#[export] Instance proper_dec s : Decision (proper s) := _.

Lemma push_proper parts acc : Forall proper acc -> Forall (fun p => slash ∉ p) parts ->
  Forall proper (foldl push_segment acc parts).
Proof.
  intros Hacc Hparts. revert acc Hacc. induction Hparts as [|p ps Hp Hps IH]; intros acc Hacc; [done|].
  cbn [foldl]. apply IH. unfold push_segment. destruct (p === []) eqn:E1; [done|]. cbn [orb].
  destruct (p === txt ".") eqn:E2; [done|]. destruct (p === txt "..") eqn:E3; bool_hyps.
  - clear -Hacc. induction Hacc as [|x l Hx Hl IH]; [done|]. cbn [removelast]. destruct l; [done|by constructor].
  - apply Forall_app. split; [done|]. constructor; [|constructor]. by repeat split.
Qed.

Lemma segments_proper path : Forall proper (segments_of path).
Proof. apply push_proper; [constructor|apply split_on_free]. Qed.

Lemma push_all acc names : Forall proper names -> foldl push_segment acc names = acc ++ names.
Proof.
  intros Hn. revert acc. induction Hn as [|p names (Hp & H1 & H2) _ IH]; intros acc; [by rewrite app_nil_r|].
  cbn [foldl]. rewrite IH. unfold push_segment.
  rewrite (bool_decide_eq_false_2 _ (proj1 Hp)), (bool_decide_eq_false_2 _ H1), (bool_decide_eq_false_2 _ H2).
  cbn [orb]. by rewrite <- app_assoc.
Qed.

(** The segments of a path that is put together of names, whatever is before it. *)
Lemma push_join acc names : Forall proper names -> foldl push_segment acc (split_on slash (join_with slash names)) = acc ++ names.
Proof.
  intros Hn. destruct names as [|p names]; [by rewrite app_nil_r|].
  rewrite split_join; [by apply push_all|done|]. eapply Forall_impl; [exact Hn|]. by intros s [[_ H] _].
Qed.

Lemma segments_absolute names : Forall proper names -> segments_of (absolute_path names) = names.
Proof.
  intros Hn. unfold segments_of, absolute_path.
  change (slash :: join_with slash names) with ([] ++ slash :: join_with slash names).
  rewrite split_on_app_gen, foldl_app. cbn [split_on foldl]. by apply push_join.
Qed.

Lemma segments_slash path rest : segments_of (path ++ slash :: rest) = foldl push_segment (segments_of path) (split_on slash rest).
Proof. unfold segments_of. by rewrite split_on_app_gen, foldl_app. Qed.

Section Facts.
Context (cwd : text).

(** The names on the way to a path. *)
Definition names_of (path : text) : list text := segments_of (resolve cwd [path]).

Lemma names_proper path : Forall proper (names_of path).
Proof. apply segments_proper. Qed.
Lemma resolve_names path : resolve cwd [path] = absolute_path (names_of path).
Proof. unfold names_of, resolve. by rewrite segments_absolute by apply segments_proper. Qed.

Lemma resolve_absolute names : Forall proper names -> resolve cwd [absolute_path names] = absolute_path names.
Proof.
  intros Hn. unfold resolve. cbn [rev app resolve_from].
  assert (isAbsolute (absolute_path names) = true) as -> by reflexivity.
  rewrite bool_decide_eq_false_2 by done. f_equal. rewrite segments_slash. cbn [split_on foldl].
  by rewrite segments_absolute.
Qed.
Lemma names_absolute names : Forall proper names -> names_of (absolute_path names) = names.
Proof. intros Hn. unfold names_of. rewrite resolve_absolute by done. by apply segments_absolute. Qed.
Lemma resolve_resolved path : resolve cwd [resolve cwd [path]] = resolve cwd [path].
Proof. rewrite (resolve_names path). apply resolve_absolute, names_proper. Qed.
Lemma names_resolved path : names_of (resolve cwd [path]) = names_of path.
Proof. rewrite (resolve_names path). apply names_absolute, names_proper. Qed.

(** ** Being within a root *)

Lemma uncommon_spec left right : let '(up, down) := uncommon left right in exists common,
  left = common ++ up /\ right = common ++ down /\
  match up, down with a :: _, b :: _ => a <> b | _, _ => True end.
Proof.
  revert right. induction left as [|a left IH]; intros right; [by exists []|].
  destruct right as [|b right]; cbn [uncommon]; [by exists []|]. destruct (a === b) eqn:E; bool_hyps.
  - subst b. specialize (IH right). destruct (uncommon left right) as [up down].
    destruct IH as (common & -> & -> & H). by exists (a :: common).
  - by exists [].
Qed.

Lemma uncommon_prefix common down : uncommon common (common ++ down) = ([], down).
Proof. induction common as [|a common IH]; [by destruct down|]. cbn. by rewrite bool_decide_eq_true_2. Qed.

Lemma relative_below root path rest : names_of path = names_of root ++ rest ->
  relative cwd root path = join_with slash rest.
Proof. intros E. unfold relative. fold (names_of root) (names_of path). by rewrite E, uncommon_prefix. Qed.

Lemma has_prefix_app prefix s : has_prefix prefix s = true -> exists rest, s = prefix ++ rest.
Proof.
  unfold has_prefix. revert s. induction prefix as [|c prefix IH]; intros s H; [by exists s|].
  destruct s as [|d s]; [done|]. cbn [strip_prefix] in H. destruct (N.eqb_spec c d) as [->|]; [|done].
  destruct (IH s H) as (rest & ->). by exists rest.
Qed.

Lemma join_relative names : Forall proper names -> names <> [] ->
  isAbsolute (join_with slash names) = false /\ has_prefix (txt "../") (join_with slash names) = false /\
  join_with slash names <> txt ".." /\ join_with slash names <> [].
Proof.
  intros Hn Hnil. assert (split_on slash (join_with slash names) = names) as Hs.
  { apply split_join; [done|]. eapply Forall_impl; [exact Hn|]. by intros s [[_ H] _]. }
  destruct names as [|s names]; [done|]. apply Forall_cons in Hn as [((Hne & Hf) & _ & Hdd) _].
  split_and!.
  - destruct (join_with slash (s :: names)) as [|c x] eqn:E; [done|]. apply N.eqb_neq. intros ->.
    cbn [split_on] in Hs. rewrite N.eqb_refl in Hs. by injection Hs as <- _.
  - apply not_true_iff_false. intros (rest & E)%has_prefix_app. rewrite E in Hs.
    change (txt "../" ++ rest) with (txt ".." ++ slash :: rest) in Hs. rewrite split_on_app in Hs.
    + by injection Hs as <- _.
    + by apply (bool_decide_unpack _).
  - intros E. rewrite E in Hs. by injection Hs as <- _.
  - intros E. rewrite E in Hs. by injection Hs as <- _.
Qed.

(** A path is within another exactly when the names on the way to the second
    are the first names on the way to the first: whatever dots, slashes and
    relative parts either is written with, no sibling that merely begins with the
    same characters counts, and nothing above it does. *)
Theorem isWithin_iff candidate parent :
  isWithin cwd candidate parent = true <-> names_of parent `prefix_of` names_of candidate.
Proof.
  unfold isWithin. split.
  - intros H. unfold relative in H. fold (names_of parent) (names_of candidate) in H.
    pose proof (uncommon_spec (names_of parent) (names_of candidate)) as Hu.
    destruct (uncommon (names_of parent) (names_of candidate)) as [[|a up] down].
    { destruct Hu as (common & -> & -> & _). rewrite app_nil_r. by exists down. }
    exfalso. cbn [map app] in H.
    assert (exists rest, join_with slash (txt ".." :: map (fun _ => txt "..") up ++ down) = txt ".." ++ rest /\
      (rest = [] \/ exists more, rest = slash :: more)) as (rest & E & [-> | [more ->]]).
    { destruct (map _ up ++ down) as [|t l]; [by exists []; auto|]. eexists. split; [reflexivity|]. by right; eexists. }
    + rewrite E in H. by vm_compute in H.
    + rewrite E in H. change (txt ".." ++ slash :: more) with (txt "../" ++ more) in H.
      assert (has_prefix (txt "../") (txt "../" ++ more) = true) as Hp by reflexivity.
      rewrite Hp, andb_false_r in H. by rewrite orb_false_r in H; bool_hyps.
  - intros [rest E]. rewrite (relative_below parent candidate rest E).
    destruct (decide (rest = [])) as [->|Hr]; [done|].
    destruct (join_relative rest) as (H1 & H2 & H3 & H4); [|done|].
    + pose proof (names_proper candidate) as Hn. rewrite E in Hn. by apply Forall_app in Hn as [_ Hn].
    + rewrite H1, H2, (bool_decide_eq_false_2 _ H3). by rewrite orb_true_r.
Qed.

Lemma within_refl path : isWithin cwd path path = true.
Proof. rewrite isWithin_iff. done. Qed.

(** ** Normal profiles *)

Lemma distinct_from_spec seen l : NoDup (distinct_from seen l) /\
  forall x, x ∈ distinct_from seen l <-> x ∈ l /\ x ∉ seen.
Proof.
  revert seen. induction l as [|y l IH]; intros seen; cbn [distinct_from].
  { split; [constructor|]. intros x. split; [by intros ?%not_elem_of_nil|by intros [?%not_elem_of_nil _]]. }
  destruct (bool_decide (y ∈ seen)) eqn:E; bool_hyps.
  - destruct (IH seen) as [H1 H2]. split; [done|]. intros x. rewrite H2, elem_of_cons. split; [tauto|].
    intros [[->|?] ?]; tauto.
  - destruct (IH (y :: seen)) as [H1 H2]. split.
    + constructor; [|done]. rewrite H2, elem_of_cons. tauto.
    + intros x. rewrite !elem_of_cons, H2, elem_of_cons. destruct (decide (x = y)) as [->|]; tauto.
Qed.

Lemma distinct_from_id seen l : NoDup l -> (forall x, x ∈ l -> x ∉ seen) -> distinct_from seen l = l.
Proof.
  intros Hn. revert seen. induction Hn as [|y l Hy _ IH]; intros seen Hs; [done|]. cbn [distinct_from].
  rewrite bool_decide_eq_false_2 by apply Hs, list_elem_of_here. f_equal. apply IH. intros x Hx [->|Hx']%elem_of_cons; [done|].
  by apply (Hs x); [apply list_elem_of_further|].
Qed.

(** A list in the form of [[...new Set(l)].sort()]. *)
Definition normal (l : list text) : Prop := NoDup l /\ StronglySorted (fun a b => text_le a b = true) l.

Lemma normal_sorted l : normal (sort_by text_le (distinct l)).
Proof.
  split; [|apply sort_by_sorted; [apply text_le_total|intros a b c; apply text_le_trans]].
  rewrite sort_by_Permutation. apply distinct_from_spec.
Qed.
Lemma normal_elem l x : x ∈ sort_by text_le (distinct l) <-> x ∈ l.
Proof.
  rewrite sort_by_elem. unfold distinct. rewrite (proj2 (distinct_from_spec [] l)). split; [tauto|].
  intros H. split; [done|apply not_elem_of_nil].
Qed.
Lemma normal_id l : normal l -> sort_by text_le (distinct l) = l.
Proof.
  intros [Hn Hs]. unfold distinct. rewrite distinct_from_id; [by apply sort_by_id|done|].
  intros x _. apply not_elem_of_nil.
Qed.

Lemma drop_while_idem p s : drop_while p (drop_while p s) = drop_while p s.
Proof. induction s as [|c s IH]; [done|]. cbn [drop_while]. destruct (p c) eqn:E; [done|]. cbn [drop_while]. by rewrite E. Qed.
Lemma drop_while_snoc p s c : p c = false -> exists rest, drop_while p (s ++ [c]) = rest ++ [c].
Proof.
  intros Hc. induction s as [|x s (rest & IH)]; cbn [app drop_while]; [by rewrite Hc; exists []|].
  destruct (p x); [by exists rest|]. by exists (x :: s).
Qed.
Lemma drop_while_head p s : match drop_while p s with c :: _ => p c = false | [] => True end.
Proof. induction s as [|c s IH]; [done|]. cbn [drop_while]. by destruct (p c) eqn:E. Qed.

Lemma trim_idem s : trim (trim s) = trim s.
Proof.
  change (trim s) with (drop_end is_space (drop_while is_space s)).
  pose proof (drop_while_head is_space s) as Hh. destruct (drop_while is_space s) as [|c r]; [done|].
  destruct (drop_while_snoc is_space (rev r) c Hh) as (rest & Hr).
  assert (drop_end is_space (c :: r) = c :: rev rest) as ->.
  { unfold drop_end. cbn [rev]. by rewrite Hr, rev_app_distr. }
  unfold trim, drop_end. cbn [drop_while]. rewrite Hh. cbn [rev]. rewrite rev_involutive, <- Hr, drop_while_idem, Hr.
  by rewrite rev_app_distr.
Qed.

Lemma string_list_elem l x : x ∈ normalizeStringList l <-> x <> [] /\ exists value, value ∈ l /\ x = trim value.
Proof.
  unfold normalizeStringList. rewrite normal_elem, elem_of_list_filter, list_elem_of_fmap. unfold nonempty.
  rewrite negb_true_iff, bool_decide_eq_false. split; [intros [(v & -> & Hv) Hx]; eauto|intros [Hx (v & Hv & ->)]; eauto].
Qed.
Lemma string_list_normal l : normal (normalizeStringList l).
Proof. apply normal_sorted. Qed.
Lemma string_list_id l : normalizeStringList (normalizeStringList l) = normalizeStringList l.
Proof.
  set (n := normalizeStringList l). assert (Forall (fun x => trim x = x /\ x <> []) n) as Hn.
  { apply Forall_forall. intros x (Hx & v & _ & ->)%string_list_elem. split; [apply trim_idem|done]. }
  unfold normalizeStringList at 1. assert (List.filter nonempty (map trim n) = n) as ->.
  { clear -Hn. induction Hn as [|x n [Ht Hx] _ IH]; [done|]. cbn [map List.filter]. rewrite Ht. unfold nonempty at 1.
    rewrite bool_decide_eq_false_2 by done. cbn [negb]. by rewrite IH. }
  apply normal_id, string_list_normal.
Qed.

Lemma path_list_elem l x : x ∈ normalizePathList cwd l <-> exists path, path ∈ l /\ x = resolve cwd [path].
Proof. unfold normalizePathList. rewrite normal_elem, list_elem_of_fmap. split; intros (p & ? & ?); eauto. Qed.
Lemma path_list_id l : normalizePathList cwd (normalizePathList cwd l) = normalizePathList cwd l.
Proof.
  set (n := normalizePathList cwd l). unfold normalizePathList at 1.
  assert (map (fun path => resolve cwd [path]) n = n) as ->; [|apply normal_id, normal_sorted].
  rewrite <- (map_id n) at 2. apply map_ext_in. intros x Hx%list_elem_of_In%path_list_elem.
  destruct Hx as (path & _ & ->). apply resolve_resolved.
Qed.

Lemma policy_id policy : normalizePolicy (normalizePolicy policy) = normalizePolicy policy.
Proof. unfold normalizePolicy. cbn [lp_access lp_values]. by rewrite string_list_id. Qed.

(** A profile in its normal form is left as it is. *)
Lemma normalizeProfile_normal profile n : normalizeProfile cwd profile = Ok n -> normalizeProfile cwd n = Ok n.
Proof.
  unfold normalizeProfile. cbn zeta. cbn [sp_network sp_process sp_environment].
  destruct (empty_allowlist (normalizePolicy (sp_network profile))) eqn:E1; [done|].
  destruct (empty_allowlist (normalizePolicy (sp_process profile))) eqn:E2; [done|].
  destruct (empty_allowlist (normalizePolicy (sp_environment profile))) eqn:E3; [done|].
  intros [= <-]. cbn [sp_mode sp_workspaceRoot sp_filesystem fs_allowAnyPath fs_writableRoots fs_readonlyRoots sp_network sp_environment sp_process].
  by rewrite !policy_id, E1, E2, E3, !path_list_id, resolve_resolved.
Qed.

(** ** What a profile permits *)

Inductive use : Type :=
| read_path (path : text)
| write_path (path : text)
| connect_to (destination : text)
| see_variable (variable : text)
| execute (executable : text).

Definition policy_permits (policy : ListPolicy) (value : text) : bool :=
  match lp_access policy with
  | access_deny => false
  | access_allowlist => bool_decide (value ∈ lp_values policy)
  | access_allow => true
  end.

Definition below (roots : list text) (path : text) : bool := existsb (isWithin cwd path) roots.

(** The permissions that a profile states: paths below its roots, of which the
    writable ones may be written, and the values of its lists. *)
Definition permits (profile : SandboxProfile) (u : use) : bool :=
  let fs := sp_filesystem profile in
  match u with
  | read_path path => fs_allowAnyPath fs || below (fs_writableRoots fs ++ fs_readonlyRoots fs) path
  | write_path path => fs_allowAnyPath fs || below (fs_writableRoots fs) path
  | connect_to destination => policy_permits (sp_network profile) destination
  | see_variable variable => policy_permits (sp_environment profile) variable
  | execute executable => policy_permits (sp_process profile) executable
  end.

Lemma below_iff roots path : below roots path = true <-> exists root, root ∈ roots /\ names_of root `prefix_of` names_of path.
Proof.
  unfold below. rewrite existsb_elem. split; intros (r & Hr & H); exists r; split; [done|by apply isWithin_iff|done|by apply isWithin_iff].
Qed.

Lemma roots_within roots parents :
  forallb (fun root => existsb (isWithin cwd root) parents) roots = true <->
  forall path, below roots path = true -> below parents path = true.
Proof.
  rewrite forallb_elem. split.
  - intros H path (root & Hr & Hp)%below_iff. apply H, below_iff in Hr as (parent & Hin & Hp').
    apply below_iff. exists parent. split; [done|]. by etrans.
  - intros H root Hr. apply H, below_iff. by exists root.
Qed.

Lemma no_broader_iff child parent : empty_allowlist child = false ->
  isListNoBroader child parent = true <->
  forall value, policy_permits child value = true -> policy_permits parent value = true.
Proof.
  destruct child as [ca cv], parent as [pa pv]. unfold empty_allowlist, isListNoBroader, policy_permits.
  cbn [lp_access lp_values]. intros He. destruct ca, pa; cbn in He |- *; try (split; [by intros|done]).
  - split; [done|]. intros H. destruct cv as [|v cv]; [done|]. exfalso. specialize (H v).
    rewrite bool_decide_eq_true in H. discriminate H. apply list_elem_of_here.
  - change (forallb (fun value => bool_decide (value ∈ pv)) cv = true <->
      forall value, bool_decide (value ∈ cv) = true -> bool_decide (value ∈ pv) = true).
    rewrite forallb_elem. by setoid_rewrite bool_decide_eq_true.
  - split; [done|]. intros H. specialize (H [] eq_refl). done.
  - split; [done|]. intros H. specialize (H (infinite_fresh pv) eq_refl). apply bool_decide_eq_true in H.
    by apply infinite_is_fresh in H.
Qed.

Lemma normalizeProfile_ok profile n : normalizeProfile cwd profile = Ok n ->
  empty_allowlist (sp_network n) = false /\ empty_allowlist (sp_environment n) = false /\
  empty_allowlist (sp_process n) = false.
Proof.
  unfold normalizeProfile. cbn zeta. cbn [sp_network sp_process sp_environment].
  destruct (empty_allowlist (normalizePolicy (sp_network profile))) eqn:E1; [done|].
  destruct (empty_allowlist (normalizePolicy (sp_process profile))) eqn:E2; [done|].
  destruct (empty_allowlist (normalizePolicy (sp_environment profile))) eqn:E3; [done|].
  by intros [= <-].
Qed.

Definition no_broader (child parent : SandboxProfile) : Prop :=
  (fs_allowAnyPath (sp_filesystem child) = true -> fs_allowAnyPath (sp_filesystem parent) = true) /\
  forall u, permits child u = true -> permits parent u = true.

Lemma no_broader_trans a b c : no_broader a b -> no_broader b c -> no_broader a c.
Proof. intros [H1 H2] [H3 H4]. split; auto. Qed.
Lemma no_broader_refl a : no_broader a a.
Proof. by split. Qed.

Definition filesystem_no_broader (child parent : SandboxFilesystemPolicy) : Prop :=
  (fs_allowAnyPath child = true -> fs_allowAnyPath parent = true) /\
  (fs_allowAnyPath parent = false ->
    (forall path, below (fs_writableRoots child) path = true -> below (fs_writableRoots parent) path = true) /\
    (forall path, below (fs_readonlyRoots child) path = true ->
       below (fs_writableRoots parent ++ fs_readonlyRoots parent) path = true)).

Lemma below_app a b path : below (a ++ b) path = below a path || below b path.
Proof. apply existsb_app. Qed.

Lemma no_broader_parts child parent : no_broader child parent <->
  filesystem_no_broader (sp_filesystem child) (sp_filesystem parent) /\
  (forall v, policy_permits (sp_network child) v = true -> policy_permits (sp_network parent) v = true) /\
  (forall v, policy_permits (sp_environment child) v = true -> policy_permits (sp_environment parent) v = true) /\
  (forall v, policy_permits (sp_process child) v = true -> policy_permits (sp_process parent) v = true).
Proof.
  unfold no_broader, filesystem_no_broader. split.
  - intros [Ha H]. split_and!; [done| | | |].
    + intros Hp. split; intros path Hb.
      * specialize (H (write_path path)). cbn in H. rewrite Hp, Hb, orb_true_r in H. by apply H.
      * specialize (H (read_path path)). cbn in H. rewrite Hp, (below_app (fs_writableRoots (sp_filesystem child))), Hb, !orb_true_r in H.
        by apply H.
    + intros v. apply (H (connect_to v)).
    + intros v. apply (H (see_variable v)).
    + intros v. apply (H (execute v)).
  - intros ([Ha Hf] & Hn & He & Hx). split; [done|].
    destruct (fs_allowAnyPath (sp_filesystem parent)) eqn:Ep.
    { intros []; cbn; rewrite ?Ep; auto. }
    destruct (Hf eq_refl) as [Hw Hr]. destruct (fs_allowAnyPath (sp_filesystem child)) eqn:Ec; [by discriminate Ha|].
    intros [path|path| | |]; cbn; rewrite ?Ec; auto.
    + rewrite Ep. cbn [orb]. rewrite below_app, orb_true_iff. intros [Hb|Hb]; [|by apply Hr].
      rewrite below_app. by rewrite Hw.
    + rewrite Ep. apply Hw.
Qed.

Lemma violated_nil broader violation : violated broader violation = [] <-> broader = false.
Proof. by destruct broader. Qed.

Lemma violations_nil child C P : normalizeProfile cwd child = Ok C -> violations cwd C P = [] <-> no_broader C P.
Proof.
  intros (H1 & H2 & H3)%normalizeProfile_ok. unfold violations. cbv zeta. rewrite no_broader_parts.
  unfold filesystem_no_broader. rewrite !app_nil, !violated_nil, !negb_false_iff, !no_broader_iff by done.
  destruct (fs_allowAnyPath (sp_filesystem P)) eqn:Ep.
  - rewrite andb_false_r. intuition done.
  - rewrite andb_true_r, app_nil, !violated_nil, !negb_false_iff, !roots_within.
    destruct (fs_allowAnyPath (sp_filesystem C)); intuition done.
Qed.

Lemma inherit_ok parent requested child : inheritSandboxProfile cwd parent requested = Ok child <->
  exists P, normalizeProfile cwd parent = Ok P /\ normalizeProfile cwd requested = Ok child /\ no_broader child P.
Proof.
  unfold inheritSandboxProfile. split.
  - intros (P & HP & (C & HC & H)%bind_ok)%bind_ok. destruct (violations cwd C P) eqn:E; [|done]. injection H as <-.
    apply (violations_nil _ _ _ HC) in E. by exists P.
  - intros (P & -> & HC & H). rewrite HC. cbn [mbind result_bind].
    by apply (violations_nil _ _ _ HC) in H as ->.
Qed.

(** The parts of a profile, as a refusal names them. *)
Inductive part : Type :=
| any_path | writable_roots | readonly_roots | network_part | environment_part | process_part.
Definition all_parts : list part :=
  [any_path; writable_roots; readonly_roots; network_part; environment_part; process_part].
Definition part_name (p : part) : text :=
  txt (match p with
       | any_path => "filesystem.allowAnyPath" | writable_roots => "filesystem.writableRoots"
       | readonly_roots => "filesystem.readonlyRoots" | network_part => "network"
       | environment_part => "environment" | process_part => "process"
       end).

(** A part of the child lets it do something that the parent does not permit. *)
Definition exceeds (child parent : SandboxProfile) (p : part) : Prop :=
  match p with
  | any_path => fs_allowAnyPath (sp_filesystem child) = true /\ fs_allowAnyPath (sp_filesystem parent) = false
  | writable_roots => exists path, below (fs_writableRoots (sp_filesystem child)) path = true /\
      permits parent (write_path path) = false
  | readonly_roots => exists path, below (fs_readonlyRoots (sp_filesystem child)) path = true /\
      permits parent (read_path path) = false
  | network_part => exists v, permits child (connect_to v) = true /\ permits parent (connect_to v) = false
  | environment_part => exists v, permits child (see_variable v) = true /\ permits parent (see_variable v) = false
  | process_part => exists v, permits child (execute v) = true /\ permits parent (execute v) = false
  end.

Lemma forallb_false {A} (p : A -> bool) l : forallb p l = false <-> exists x, x ∈ l /\ p x = false.
Proof.
  induction l as [|y l IH]; cbn [forallb].
  - split; [done|]. by intros (x & Hx%not_elem_of_nil & _).
  - rewrite andb_false_iff, IH. split.
    + intros [Hy|(x & Hx & Hp)]; [exists y; split; [apply list_elem_of_here|done]|].
      exists x. split; [by apply list_elem_of_further|done].
    + intros (x & [->|Hx]%elem_of_cons & Hp); [by left|right; by exists x].
Qed.

Lemma roots_exceed roots parents :
  forallb (fun root => existsb (isWithin cwd root) parents) roots = false <->
  exists path, below roots path = true /\ below parents path = false.
Proof.
  rewrite forallb_false. split.
  - intros (root & Hr & H). exists root. split; [|exact H]. apply below_iff. by exists root.
  - intros (path & (root & Hr & Hp)%below_iff & H). exists root. split; [done|].
    apply not_true_iff_false. intros (parent & Hin & Hp')%below_iff. apply not_true_iff_false in H.
    apply H, below_iff. exists parent. split; [done|]. by etrans.
Qed.

Lemma list_exceeds child parent : empty_allowlist child = false ->
  isListNoBroader child parent = false <->
  exists value, policy_permits child value = true /\ policy_permits parent value = false.
Proof.
  intros He. split.
  2: { intros (v & Hc & Hp). apply not_true_iff_false. intros H. pose proof (proj1 (no_broader_iff child parent He) H v Hc). congruence. }
  destruct child as [ca cv], parent as [pa pv]. unfold empty_allowlist, isListNoBroader, policy_permits in *.
  cbn [lp_access lp_values] in *. destruct ca, pa; cbn in He |- *; try done; intros H.
  - destruct cv as [|v cv]; [done|]. exists v. split; [|done]. apply bool_decide_eq_true_2, list_elem_of_here.
  - apply forallb_false in H as (v & Hv & Hp). exists v. split; [by apply bool_decide_eq_true_2|exact Hp].
  - exists (infinite_fresh pv). split; [done|]. apply bool_decide_eq_false_2, infinite_is_fresh.
Qed.

(** A refusal names the parts that exceed, in this order. *)
Lemma violations_parts child C P : normalizeProfile cwd child = Ok C ->
  exists parts, violations cwd C P = map part_name parts /\ parts `sublist_of` all_parts /\
    forall p, p ∈ parts <-> exceeds C P p.
Proof.
  intros (H1 & H2 & H3)%normalizeProfile_ok.
  set (broader p := match p with
    | any_path => fs_allowAnyPath (sp_filesystem C) && negb (fs_allowAnyPath (sp_filesystem P))
    | writable_roots => negb (fs_allowAnyPath (sp_filesystem P)) &&
        negb (forallb (fun root => existsb (isWithin cwd root) (fs_writableRoots (sp_filesystem P)))
                (fs_writableRoots (sp_filesystem C)))
    | readonly_roots => negb (fs_allowAnyPath (sp_filesystem P)) &&
        negb (forallb (fun root => existsb (isWithin cwd root)
                (fs_writableRoots (sp_filesystem P) ++ fs_readonlyRoots (sp_filesystem P)))
                (fs_readonlyRoots (sp_filesystem C)))
    | network_part => negb (isListNoBroader (sp_network C) (sp_network P))
    | environment_part => negb (isListNoBroader (sp_environment C) (sp_environment P))
    | process_part => negb (isListNoBroader (sp_process C) (sp_process P))
    end).
  exists (List.filter broader all_parts). split; [|split].
  - unfold violations, violated, all_parts. cbv zeta. cbn [List.filter broader].
    destruct (fs_allowAnyPath (sp_filesystem P)); cbn [negb andb]; rewrite ?andb_false_r, ?andb_true_r;
      repeat match goal with |- context [if ?b then _ else _] => destruct b end; reflexivity.
  - induction all_parts as [|p l IH]; [done|]. cbn [List.filter]. destruct (broader p); by constructor.
  - intros p. rewrite list_elem_of_In, filter_In, <- list_elem_of_In. unfold exceeds, permits.
    assert (p ∈ all_parts) as Hall by (destruct p; unfold all_parts;
      repeat (first [apply list_elem_of_here | apply list_elem_of_further])).
    destruct p; cbn [broader]; rewrite ?andb_true_iff, !negb_true_iff, ?roots_exceed, ?list_exceeds by done;
      repeat setoid_rewrite orb_false_iff; naive_solver.
Qed.

(** C19: Inheritance is exactly the comparison of permissions: for two profiles that
    are valid, the child is accepted, in its normal form, if and only if it permits
    nothing that the parent does not permit (and any path only if the parent does);
    otherwise it is refused, and the refusal names, in a fixed order, exactly the
    parts that exceed the parent: any path, the writable roots and the read-only
    roots where they cover a path the parent does not let be written or read, and
    the network, the environment and the processes where they allow a value the
    parent does not allow. *)
Theorem inheritance_exact parent child P C :
  normalizeProfile cwd parent = Ok P -> normalizeProfile cwd child = Ok C ->
  (inheritSandboxProfile cwd parent child = Ok C <-> no_broader C P) /\
  (inheritSandboxProfile cwd parent child <> Ok C ->
     exists parts, inheritSandboxProfile cwd parent child = Throw (SandboxInheritanceError (map part_name parts)) /\
       parts <> [] /\ parts `sublist_of` all_parts /\ forall p, p ∈ parts <-> exceeds C P p).
Proof.
  intros HP HC. rewrite inherit_ok. split.
  - split; [intros (P' & HP' & _ & H); rewrite HP in HP'; by injection HP' as ->|by exists P].
  - intros H. unfold inheritSandboxProfile. rewrite HP, HC. cbn [mbind result_bind].
    destruct (violations_parts child C P HC) as (parts & E & Hs & Hp). exists parts.
    destruct parts as [|p parts].
    { destruct H. apply (violations_nil _ _ _ HC) in E. by exists P. }
    rewrite E. cbn [map]. split_and!; [done|done|done|exact Hp].
Qed.

(** The profiles an agent can end up with below another: each was inherited from
    the profile above it. *)
Inductive delegated (root : SandboxProfile) : SandboxProfile -> Prop :=
| delegated_root profile : normalizeProfile cwd root = Ok profile -> delegated root profile
| delegated_child parent requested child :
    delegated root parent -> inheritSandboxProfile cwd parent requested = Ok child -> delegated root child.

(** However many times a profile is handed down, nothing is ever permitted that
    the first one does not permit, and a child may always be given its parent's
    profile unchanged. *)
Theorem delegation_never_broadens root R profile : normalizeProfile cwd root = Ok R -> delegated root profile ->
  (forall u, permits profile u = true -> permits R u = true) /\ inheritSandboxProfile cwd profile profile = Ok profile.
Proof.
  intros HR Hd. assert (no_broader profile R /\ normalizeProfile cwd profile = Ok profile) as [[_ H] Hn].
  { induction Hd as [profile H|parent requested child Hd [IH IHn] (P & HP & HC & Hb)%inherit_ok].
    - rewrite HR in H. injection H as <-. split; [apply no_broader_refl|by eapply normalizeProfile_normal].
    - rewrite IHn in HP. injection HP as <-. split; [by eapply no_broader_trans|by eapply normalizeProfile_normal]. }
  split; [done|]. apply inherit_ok. exists profile. split_and!; [done|done|apply no_broader_refl].
Qed.

(** ** Modes *)

Definition mode_rank (mode : SandboxMode) : option nat :=
  match mode with
  | mode_safe => Some 0%nat | mode_standard => Some 1%nat | mode_autonomous => Some 2%nat
  | mode_unrestricted => Some 3%nat | mode_custom => None
  end.

(** The normal form of a mode's profile. *)
Definition mode_profile (mode : SandboxMode) (root : text) : option SandboxProfile :=
  let profile anyPath writable readonly network environment process :=
    Some {| sp_mode := mode; sp_workspaceRoot := root;
            sp_filesystem := {| fs_allowAnyPath := anyPath; fs_writableRoots := writable; fs_readonlyRoots := readonly |};
            sp_network := network; sp_environment := environment; sp_process := process |} in
  match mode with
  | mode_safe => profile false [] [root] deny_all deny_all deny_all
  | mode_standard =>
      profile false [root] [] deny_all (allow_only ["HOME"; "PATH"; "TEMP"; "TMP"; "TMPDIR"])
        (allow_only ["git"; "node"; "npm"; "pnpm"])
  | mode_autonomous => profile false [root] [] allow_all allow_all allow_all
  | mode_unrestricted => profile true [root] [] allow_all allow_all allow_all
  | mode_custom => None
  end.

Lemma createSandboxProfile_normal mode root : createSandboxProfile cwd mode root =
  match mode_profile mode (resolve cwd [root]) with
  | Some profile => Ok profile
  | None => refuse "custom profiles must be supplied explicitly and validated with inheritSandboxProfile"
  end.
Proof.
  destruct mode; cbn [createSandboxProfile mode_profile]; try done; unfold normalizeProfile; cbn zeta;
    cbn [sp_mode sp_workspaceRoot sp_filesystem fs_allowAnyPath fs_writableRoots fs_readonlyRoots sp_network sp_environment sp_process].
  all: unfold normalizePathList; cbn [map distinct distinct_from]; rewrite ?bool_decide_eq_false_2 by apply not_elem_of_nil; rewrite !resolve_resolved.
  all: reflexivity.
Qed.

Lemma mode_profile_normal mode root profile : mode_profile mode (resolve cwd [root]) = Some profile ->
  normalizeProfile cwd profile = Ok profile.
Proof.
  intros H. assert (createSandboxProfile cwd mode root = Ok profile) as Hc by (by rewrite createSandboxProfile_normal, H).
  destruct mode; try done; by eapply normalizeProfile_normal.
Qed.

(** The modes are ordered, from safe over standard and autonomous to
    unrestricted: every mode but custom gives a profile for any workspace, and in one
    workspace an agent of one mode may have a child of another exactly when the
    child's mode is not above its own. *)
Theorem modes_ordered parent child p c root : mode_rank parent = Some p -> mode_rank child = Some c ->
  exists P C, createSandboxProfile cwd parent root = Ok P /\ createSandboxProfile cwd child root = Ok C /\
    (inheritSandboxProfile cwd P C = Ok C <-> (c <= p)%nat).
Proof.
  intros Hp Hc. rewrite !createSandboxProfile_normal.
  destruct (mode_profile parent (resolve cwd [root])) as [P|] eqn:EP; [|by destruct parent].
  destruct (mode_profile child (resolve cwd [root])) as [C|] eqn:EC; [|by destruct child].
  exists P, C. split; [done|split; [done|]]. unfold inheritSandboxProfile.
  rewrite (mode_profile_normal _ _ _ EP), (mode_profile_normal _ _ _ EC). cbn [mbind result_bind].
  pose proof (within_refl (resolve cwd [root])) as Hw.
  destruct parent; try discriminate Hp; destruct child; try discriminate Hc;
    injection Hp as <-; injection Hc as <-; injection EP as <-; injection EC as <-;
    unfold violations; cbn -[isWithin]; rewrite ?Hw; cbn -[isWithin].
  all: split; [intros|intros]; try done; try lia.
Qed.

(** ** Rebinding *)

(** The names of a root when the workspace moves. *)
Definition moved_names (workspace next names : list text) : list text :=
  if decide (workspace `prefix_of` names) then next ++ drop (length workspace) names else names.

Lemma rebase_names workspace next path :
  names_of (rebase cwd workspace (resolve cwd [next]) path) = moved_names (names_of workspace) (names_of next) (names_of path).
Proof.
  unfold rebase, moved_names. destruct (isWithin cwd path workspace) eqn:E; cbn [negb].
  - apply isWithin_iff in E. rewrite decide_True by done. destruct E as [rest E]. rewrite E, drop_app_length.
    rewrite (relative_below workspace path rest E). destruct (decide (rest = [])) as [->|Hr].
    { cbn. rewrite app_nil_r. apply names_resolved. }
    assert (Forall proper rest) as Hp by (pose proof (names_proper path) as Hp; rewrite E in Hp; by apply Forall_app in Hp as [_ Hp]).
    destruct (join_relative rest Hp Hr) as (H1 & _ & _ & H4). rewrite bool_decide_eq_false_2 by done.
    unfold names_of at 1. assert (resolve cwd [resolve cwd [resolve cwd [next]; join_with slash rest]] =
      absolute_path (names_of next ++ rest)) as ->; [|apply segments_absolute, Forall_app; split; [apply names_proper|done]].
    rewrite <- (resolve_absolute (names_of next ++ rest)) by (apply Forall_app; split; [apply names_proper|done]).
    f_equal. f_equal. unfold resolve at 1. cbn [rev app resolve_from]. rewrite (bool_decide_eq_false_2 _ H4), H1.
    rewrite (resolve_names next). rewrite bool_decide_eq_false_2 by done.
    assert (isAbsolute (absolute_path (names_of next)) = true) as -> by reflexivity.
    f_equal. rewrite segments_slash, segments_absolute by apply names_proper.
    rewrite split_on_app_gen, foldl_app. cbn [split_on foldl]. by rewrite push_join.
  - rewrite decide_False; [done|]. intros H%isWithin_iff. congruence.
Qed.

Lemma below_moved workspace next roots path :
  below (normalizePathList cwd (map (rebase cwd workspace (resolve cwd [next])) roots)) path = true <->
  exists root, root ∈ roots /\ moved_names (names_of workspace) (names_of next) (names_of root) `prefix_of` names_of path.
Proof.
  rewrite below_iff. setoid_rewrite path_list_elem. setoid_rewrite list_elem_of_fmap. split.
  - intros (x & (y & (root & -> & Hr) & ->) & H). exists root. split; [done|]. by rewrite names_resolved, rebase_names in H.
  - intros (root & Hr & H). eexists. split; [eexists; split; [by exists root|reflexivity]|].
    by rewrite names_resolved, rebase_names.
Qed.

Lemma moved_below old next names rest : old `prefix_of` names ->
  moved_names old next names `prefix_of` next ++ rest <-> names `prefix_of` old ++ rest.
Proof.
  intros Hp. unfold moved_names. rewrite decide_True by done. destruct Hp as [r ->]. rewrite drop_app_length.
  split; intros H%prefix_app_inv; by apply prefix_app.
Qed.

(** Roots that are all below the workspace permit the same below the new one. *)
Lemma below_rebound workspace next roots rest : Forall (fun root => names_of workspace `prefix_of` names_of root) roots ->
  Forall proper rest ->
  below (normalizePathList cwd (map (rebase cwd workspace (resolve cwd [next])) roots)) (absolute_path (names_of next ++ rest)) =
  below roots (absolute_path (names_of workspace ++ rest)).
Proof.
  rewrite Forall_forall. intros Hall Hr. apply eq_true_iff_eq. rewrite below_moved, below_iff.
  rewrite !names_absolute by (apply Forall_app; split; [apply names_proper|done]).
  split; intros (root & Hin & H); exists root; (split; [done|]); revert H; by rewrite moved_below by auto.
Qed.
Lemma below_next workspace next roots path : Forall (fun root => names_of workspace `prefix_of` names_of root) roots ->
  below (normalizePathList cwd (map (rebase cwd workspace (resolve cwd [next])) roots)) path = true ->
  names_of next `prefix_of` names_of path.
Proof.
  rewrite Forall_forall. intros Hall (root & Hin & H)%below_moved. unfold moved_names in H.
  rewrite decide_True in H by auto. etrans; [|exact H]. by eexists.
Qed.

(** The parts of a normal form. *)
Lemma normalizeProfile_parts profile n : normalizeProfile cwd profile = Ok n ->
  sp_workspaceRoot n = resolve cwd [sp_workspaceRoot profile] /\
  normalizePolicy (sp_network n) = sp_network n /\ normalizePolicy (sp_environment n) = sp_environment n /\
  normalizePolicy (sp_process n) = sp_process n.
Proof.
  unfold normalizeProfile. cbv zeta. do 3 (destruct (empty_allowlist _); [done|]). intros [= <-].
  cbn [sp_workspaceRoot sp_network sp_environment sp_process]. by rewrite !policy_id.
Qed.

(** A profile moves with its workspace: rebinding a valid profile succeeds and
    keeps its lists; a root below the old workspace permits the same relative paths
    below the new one, and a root that is not is kept as it is; so when every root
    is below the workspace, what the profile permits below the new workspace is
    what it permitted below the old one, and nothing outside the new one is
    permitted. *)
Theorem rebind_moves_scope profile nextWorkspaceRoot n : normalizeProfile cwd profile = Ok n ->
  let old := names_of (sp_workspaceRoot profile) in
  let next := names_of nextWorkspaceRoot in
  exists q, rebindSandboxProfile cwd profile nextWorkspaceRoot = Ok q /\
    sp_workspaceRoot q = resolve cwd [nextWorkspaceRoot] /\
    (forall u, match u with read_path _ | write_path _ => True | _ => permits q u = permits n u end) /\
    (forall path, below (fs_writableRoots (sp_filesystem q)) path = true <->
       exists root, root ∈ fs_writableRoots (sp_filesystem n) /\ moved_names old next (names_of root) `prefix_of` names_of path) /\
    (fs_allowAnyPath (sp_filesystem n) = false ->
     Forall (fun root => old `prefix_of` names_of root)
       (fs_writableRoots (sp_filesystem n) ++ fs_readonlyRoots (sp_filesystem n)) -> forall rest path, Forall proper rest ->
     permits q (write_path (absolute_path (next ++ rest))) = permits n (write_path (absolute_path (old ++ rest))) /\
     permits q (read_path (absolute_path (next ++ rest))) = permits n (read_path (absolute_path (old ++ rest))) /\
     (permits q (read_path path) = true -> next `prefix_of` names_of path)).
Proof.
  intros Hn old next. pose proof (normalizeProfile_ok profile n Hn) as (H1 & H2 & H3).
  pose proof (normalizeProfile_parts profile n Hn) as (Ew & En & Ee & Ep).
  assert (names_of (sp_workspaceRoot n) = old) as Eo by (rewrite Ew; apply names_resolved).
  unfold rebindSandboxProfile. rewrite Hn. cbn [mbind result_bind]. unfold normalizeProfile. cbv zeta.
  cbn [sp_mode sp_workspaceRoot sp_filesystem fs_allowAnyPath fs_writableRoots fs_readonlyRoots sp_network sp_environment sp_process].
  rewrite En, Ee, Ep, H1, H2, H3. eexists. split; [reflexivity|].
  cbn [permits sp_mode sp_workspaceRoot sp_filesystem fs_allowAnyPath fs_writableRoots fs_readonlyRoots sp_network sp_environment sp_process].
  split; [apply resolve_resolved|]. split; [by intros []|]. split; [intros path; rewrite <- Eo; apply below_moved|].
  intros Ha [Hw Hr]%Forall_app rest path Hp. rewrite Ha. cbn [orb]. rewrite <- Eo in *. unfold next.
  rewrite !below_app, !below_rebound by done. split; [done|split; [done|]].
  intros [H|H]%orb_true_iff; [exact (below_next _ _ _ _ Hw H)|exact (below_next _ _ _ _ Hr H)].
Qed.

(** ** Enforcement *)

Lemma unrestricted_permits n : fs_allowAnyPath (sp_filesystem n) = true -> lp_access (sp_network n) = access_allow ->
  lp_access (sp_process n) = access_allow -> lp_access (sp_environment n) = access_allow -> forall u, permits n u = true.
Proof. intros H1 H2 H3 H4 []; cbn; unfold policy_permits; by rewrite ?H1, ?H2, ?H3, ?H4. Qed.

Section Host.
Context {World : Type} (process_platform process_arch : text) (process_path : option text).
Context (access : text -> act World unit).
Abbreviation detect := (detectSandboxCapabilities process_platform process_arch process_path access).

Lemma act_both_ok {A B} (a : act World A) (b : act World B) w w' x y : act_both a b w = (w', Ok (x, y)) ->
  exists w1, a w = (w1, Ok x) /\ b w1 = (w', Ok y).
Proof.
  unfold act_both. destruct (a w) as [w1 [x'|e]] eqn:Ea; destruct (b w1) as [w2 [y'|e']] eqn:Eb; intros H; try discriminate H.
  injection H as -> -> ->. by exists w1.
Qed.

Lemma detected_bubblewrap platform architecture path probe w w' capabilities :
  detect platform architecture path (Some probe) w = (w', Ok capabilities) ->
  sc_nativeBackend capabilities = backend_bubblewrap ->
  default process_platform platform = txt "linux" /\
  exists w1 executable, probe (txt "bwrap") w = (w1, Ok (Some executable)).
Proof.
  unfold detectSandboxCapabilities. cbv zeta. intros (w1 & [bubblewrap sandboxExec] & (w2 & H & _)%act_both_ok & Hd)%act_bind_ok Hb.
  injection Hd as _ <-. destruct bubblewrap as [file|]; [|by destruct sandboxExec].
  destruct (default process_platform platform === txt "linux") eqn:El; bool_hyps; [|done].
  split; [done|]. by exists w2, file.
Qed.

(** Enforcement is never overstated: with the capabilities that were detected, a
    profile is said to need none only if it permits everything; native enforcement
    is claimed only on Linux, where the probe found bubblewrap; and whenever it is
    degraded a reason is given. *)
Theorem enforcement_honest profile platform architecture path probe w w' capabilities status :
  detect platform architecture path (Some probe) w = (w', Ok capabilities) ->
  assessSandboxEnforcement cwd profile capabilities = Ok status ->
  match se_enforcement status with
  | enforced_none => exists n, normalizeProfile cwd profile = Ok n /\ forall u, permits n u = true
  | enforced_native => default process_platform platform = txt "linux" /\
                       exists w1 executable, probe (txt "bwrap") w = (w1, Ok (Some executable))
  | enforced_degraded => se_reasons status <> []
  end.
Proof.
  intros Hd (n & Hn & Hs)%bind_ok. cbv zeta in Hs. injection Hs as <-.
  destruct (negb _) eqn:Er; cbn [se_enforcement].
  { exists n. split; [done|]. apply negb_true_iff in Er. rewrite !orb_false_iff, negb_false_iff, !negb_false_iff in Er.
    destruct Er as [[[H1 H2] H3] H4]. bool_hyps. by apply unrestricted_permits. }
  destruct (sc_nativeBackend capabilities) eqn:Eb; cbn [se_enforcement se_reasons].
  - by eapply detected_bubblewrap.
  - by intros [_ ?]%app_nil.
  - by intros [_ ?]%app_nil.
Qed.
End Host.
End Facts.

(** ** Concrete profiles *)

Definition home : text := txt "/".
Definition parent_profile : SandboxProfile :=
  {| sp_mode := mode_custom; sp_workspaceRoot := txt "/work/";
     sp_filesystem := {| fs_allowAnyPath := false; fs_writableRoots := [txt "/work/./a"; txt "/work/b/../a"];
                         fs_readonlyRoots := [txt "/work/doc"] |};
     sp_network := allow_all; sp_environment := deny_all; sp_process := allow_only [" git"; "node"; "git"] |}.
Definition child_profile : SandboxProfile :=
  {| sp_mode := mode_custom; sp_workspaceRoot := txt "/work";
     sp_filesystem := {| fs_allowAnyPath := false; fs_writableRoots := []; fs_readonlyRoots := [txt "/work/a/src"] |};
     sp_network := allow_only ["example.org"]; sp_environment := deny_all; sp_process := allow_only ["git"] |}.
Definition wide_profile : SandboxProfile :=
  {| sp_mode := mode_safe; sp_workspaceRoot := txt "/work";
     sp_filesystem := {| fs_allowAnyPath := false; fs_writableRoots := [txt "/work/ab"]; fs_readonlyRoots := [] |};
     sp_network := deny_all; sp_environment := deny_all; sp_process := allow_only ["npm"] |}.

Definition normal_of (profile : SandboxProfile) : SandboxProfile :=
  match normalizeProfile home profile with Ok n => n | Throw _ => profile end.

Example normal_parent :
  fs_writableRoots (sp_filesystem (normal_of parent_profile)) = [txt "/work/a"] /\
  lp_values (sp_process (normal_of parent_profile)) = [txt "git"; txt "node"].
Proof. split; vm_compute; reflexivity. Qed.

Example wide_child_refused : inheritSandboxProfile home parent_profile wide_profile =
  Throw (SandboxInheritanceError [txt "filesystem.writableRoots"; txt "process"]).
Proof. vm_compute. reflexivity. Qed.

Lemma inheritance_exact_witness :
  normalizeProfile home parent_profile = Ok (normal_of parent_profile) /\
  normalizeProfile home child_profile = Ok (normal_of child_profile) /\
  no_broader home (normal_of child_profile) (normal_of parent_profile).
Proof.
  assert (normalizeProfile home parent_profile = Ok (normal_of parent_profile)) as HP by (vm_compute; reflexivity).
  assert (normalizeProfile home child_profile = Ok (normal_of child_profile)) as HC by (vm_compute; reflexivity).
  split; [exact HP|split; [exact HC|]].
  apply (proj1 (proj1 (inheritance_exact home parent_profile child_profile _ _ HP HC))). vm_compute. reflexivity.
Defined.

Lemma delegation_never_broadens_witness :
  normalizeProfile home parent_profile = Ok (normal_of parent_profile) /\
  delegated home parent_profile (normal_of child_profile) /\
  forall u, permits home (normal_of child_profile) u = true -> permits home (normal_of parent_profile) u = true.
Proof.
  assert (normalizeProfile home parent_profile = Ok (normal_of parent_profile)) as HP by (vm_compute; reflexivity).
  assert (delegated home parent_profile (normal_of child_profile)) as Hd.
  { eapply (delegated_child _ _ (normal_of parent_profile) child_profile); [by apply delegated_root|vm_compute; reflexivity]. }
  split; [exact HP|split; [exact Hd|]]. exact (proj1 (delegation_never_broadens home _ _ _ HP Hd)).
Defined.

Lemma modes_ordered_witness : mode_rank mode_standard = Some 1%nat /\ mode_rank mode_safe = Some 0%nat /\
  exists P C, createSandboxProfile home mode_standard (txt "/work") = Ok P /\
    createSandboxProfile home mode_safe (txt "/work") = Ok C /\ inheritSandboxProfile home P C = Ok C.
Proof.
  split; [reflexivity|split; [reflexivity|]].
  destruct (modes_ordered home mode_standard mode_safe 1 0 (txt "/work") eq_refl eq_refl) as (P & C & HP & HC & H).
  exists P, C. split; [exact HP|split; [exact HC|]]. apply H. lia.
Defined.

Lemma rebind_moves_scope_witness :
  normalizeProfile home parent_profile = Ok (normal_of parent_profile) /\
  exists q, rebindSandboxProfile home parent_profile (txt "/tree/7") = Ok q /\
    permits home q (write_path (txt "/tree/7/a/x.ts")) = true.
Proof.
  assert (normalizeProfile home parent_profile = Ok (normal_of parent_profile)) as Hn by (vm_compute; reflexivity).
  split; [exact Hn|].
  destruct (rebind_moves_scope home parent_profile (txt "/tree/7") _ Hn) as (q & Hq & _ & _ & _ & H). exists q. split; [exact Hq|].
  assert (Forall proper [txt "a"; txt "x.ts"]) as Hp by (apply (bool_decide_unpack _); vm_compute; exact I).
  refine (eq_trans (proj1 (H eq_refl _ [txt "a"; txt "x.ts"] [] Hp)) _).
  - apply (bool_decide_unpack _). vm_compute. exact I.
  - vm_compute. reflexivity.
Defined.

(** A host of Linux with bubblewrap. *)
Definition linux_probe (executable : text) : act unit (option text) := mret (Some (txt "/usr/bin/" ++ executable)).
Definition no_access (path : text) : act unit unit := act_throw (SystemError None).
Definition linux_capabilities : result ws_fault SandboxCapabilities :=
  (detectSandboxCapabilities (txt "linux") (txt "x64") None no_access None None None (Some linux_probe) tt).2.

Lemma enforcement_honest_witness : exists capabilities status,
  detectSandboxCapabilities (txt "linux") (txt "x64") None no_access None None None (Some linux_probe) tt = (tt, Ok capabilities) /\
  assessSandboxEnforcement home child_profile capabilities = Ok status /\ se_enforcement status = enforced_native /\
  exists w1 executable, linux_probe (txt "bwrap") tt = (w1, Ok (Some executable)).
Proof.
  destruct linux_capabilities as [capabilities|e] eqn:E; [|vm_compute in E; discriminate E].
  assert (detectSandboxCapabilities (txt "linux") (txt "x64") None no_access None None None (Some linux_probe) tt = (tt, Ok capabilities)) as Hd.
  { rewrite <- E. vm_compute. reflexivity. }
  destruct (assessSandboxEnforcement home child_profile capabilities) as [status|e] eqn:Ea.
  2:{ vm_compute in E. injection E as <-. vm_compute in Ea. discriminate Ea. }
  exists capabilities, status. split; [exact Hd|split; [exact Ea|]].
  assert (se_enforcement status = enforced_native) as Hs.
  { vm_compute in E. injection E as <-. vm_compute in Ea. by injection Ea as <-. }
  pose proof (enforcement_honest home (txt "linux") (txt "x64") None no_access child_profile None None None linux_probe tt tt
    capabilities status Hd Ea) as H. rewrite Hs in H. split; [exact Hs|exact (proj2 H)].
Defined.
