(* ===== verification/SemanticIndex.v ===== *)
(** The lexical index of a workspace: packages/context/src/semantic-index.ts.

    Builds run asynchronously and may overlap: a build is what is left of it between
    two of its awaits, and the machine at the end interleaves requests and builds.
    The Unicode tables behind [normalize], [toLowerCase] and the term pattern, and
    [Math.log], are parameters. *)

From Stdlib Require Import ZArith NArith Lia Ascii.
From stdpp Require Import base strings list relations.
From S2P Require Import Prelude JsNumber JsDecimal JsText JsCollections OcfValue Paths Git Planner.

Open Scope string_scope.
Open Scope list_scope.
#[local] Open Scope Z_scope.

(** ** Data *)

(** Source: packages/context/src/repomap.ts:24-27 [RepoMapFile]. *)
Record RepoMapFile := { rf_path : text; rf_content : text }.

(** Source: packages/context/src/semantic-index.ts:3-4 [SemanticIndexStatus]. *)
Inductive SemanticIndexStatus : Type :=
| index_idle | index_indexing | index_ready | index_unavailable | index_failed.

#[export] Instance SemanticIndexStatus_eq_dec : EqDecision SemanticIndexStatus.
Proof. solve_decision. Defined.

(** Source: packages/context/src/semantic-index.ts:11-17 [SemanticIndexState]. *)
Record SemanticIndexState := {
  is_status : SemanticIndexStatus;
  is_generation : Z;
  is_indexedFiles : nat;
  is_indexedChunks : nat;
  is_reason : option text }.

(** Source: packages/context/src/semantic-index.ts:23-30 [SemanticSearchResult]. *)
Record SemanticSearchResult := {
  sr_path : text;
  sr_startLine : Z;
  sr_endLine : Z;
  sr_text : text;
  sr_score : num;
  sr_matchedTerms : list text }.

(** Source: packages/context/src/semantic-index.ts:32-37 [SemanticSearchResponse]. *)
Record SemanticSearchResponse := {
  sp_status : SemanticIndexStatus;
  sp_generation : Z;
  sp_results : list SemanticSearchResult;
  sp_reason : option text }.

(** Source: packages/context/src/semantic-index.ts:39-46 [IndexedChunk]. *)
Record IndexedChunk := {
  ic_path : text;
  ic_startLine : Z;
  ic_endLine : Z;
  ic_text : text;
  ic_tokenCount : Z;
  ic_terms : jsmap text Z }.

(** Both options as they are kept once they are validated. *)
Record IndexOptions := { io_chunkLines : nat; io_overlapLines : nat }.

(** What the class keeps.
    Source: packages/context/src/semantic-index.ts:135-144 [SemanticIndex, state]. *)
Record SemanticIndex := {
  si_status : SemanticIndexStatus;
  si_generation : Z;
  si_reason : option text;
  si_files : jsmap text RepoMapFile;
  si_desiredFiles : jsmap text RepoMapFile;
  si_chunks : list IndexedChunk;
  si_documentFrequency : jsmap text Z }.

(** ** Arithmetic *)

(** [a / b] of finite numbers, [b] positive. *)
Definition js_quotient (a b : num) : num :=
  match a, b with
  | Fin x, Fin y => signed_result (x <? 0) (round_ratio (Z.abs x * one_units) y)
  | _, _ => NaN
  end.

(** A decimal constant of the code, in thousandths. *)
Definition thousandths (n : Z) : num := Fin (round_ratio (n * one_units) 1000).

(** ** Terms *)

(** Source: packages/context/src/semantic-index.ts:50-52 [normalizePath]. *)
Definition normalizePath (path : text) : text :=
  let slashed := map (fun c => if (c =? backslash)%N then slash else c) path in
  match strip_prefix (txt "./") slashed with Some rest => rest | None => slashed end.

Section Index.
(** [value.normalize("NFKC")], [value.toLowerCase()], the matches of the term
    pattern in a text, [left.localeCompare(right) <= 0] and [Math.log]. *)
Context (normalize toLowerCase : text -> text) (matches : text -> list text).
Context (localeCompare_le : text -> text -> bool) (log : num -> num).

(** Source: packages/context/src/semantic-index.ts:54-57 [lexicalTerms]. *)
Definition lexicalTerms (value : text) : list text :=
  List.filter (fun term => Nat.ltb 1 (length term)) (matches (toLowerCase (normalize value))).

(** [counts.set(key, (counts.get(key) ?? 0) + 1)] *)
Definition count (counts : jsmap text Z) (key : text) : jsmap text Z :=
  jm_set counts key (default 0 (jm_get counts key) + 1).

(** Source: packages/context/src/semantic-index.ts:59-64 [countTerms]. *)
Definition countTerms (value : text) : jsmap text Z := foldl count [] (lexicalTerms value).

(** Source: packages/context/src/semantic-index.ts:66-85 [validateOptions]. *)
Definition validateOptions (chunkLines overlapLines : option num) : result context_fault IndexOptions :=
  let chunkLines := default (ofZ 80) chunkLines in
  let overlapLines := default (ofZ 8) overlapLines in
  _ ← throw_if (negb (isSafeInteger chunkLines) || js_lt chunkLines (ofZ 1))
        (ContextTypeError (txt "SemanticIndex chunkLines must be a positive safe integer"));
  _ ← throw_if (negb (isSafeInteger overlapLines) || js_lt overlapLines (ofZ 0) || js_le chunkLines overlapLines)
        (ContextTypeError (txt "SemanticIndex overlapLines must be a non-negative integer smaller than chunkLines"));
  Ok {| io_chunkLines := Z.to_nat (toZ chunkLines); io_overlapLines := Z.to_nat (toZ overlapLines) |}.

(** ** Chunks *)

Definition make_chunk (path : text) (start : nat) (slice : list text) : IndexedChunk :=
  let value := join_with newline slice in
  let terms := countTerms value in
  {| ic_path := path; ic_startLine := Z.of_nat start + 1; ic_endLine := Z.of_nat (start + length slice);
     ic_text := value; ic_tokenCount := Z.max 1 (foldr Z.add 0 (jm_values terms)); ic_terms := terms |}.

(** [rest] are the lines from [start] on.
    Source: packages/context/src/semantic-index.ts:94-110 [toChunks, loop]. *)
Fixpoint chunks_from (options : IndexOptions) (path : text) (fuel start : nat) (rest : list text) : list IndexedChunk :=
  match fuel, rest with
  | O, _ | _, [] => []
  | S fuel, _ =>
      let step := (io_chunkLines options - io_overlapLines options)%nat in
      make_chunk path start (take (io_chunkLines options) rest) ::
      chunks_from options path fuel (start + step) (drop step rest)
  end.

Definition lines_of (content : text) : list text := split_on newline (normalize_newlines content).

(** Source: packages/context/src/semantic-index.ts:87-112 [toChunks]. *)
Definition toChunks (options : IndexOptions) (file : RepoMapFile) : list IndexedChunk :=
  let lines := lines_of (rf_content file) in
  chunks_from options (normalizePath (rf_path file)) (length lines) 0 lines.

(** Source: packages/context/src/semantic-index.ts:317-319 [normalizeFiles, duplicate]. *)
Fixpoint first_duplicate (files : list RepoMapFile) : option RepoMapFile :=
  match files with
  | a :: ((b :: _) as rest) => if rf_path a === rf_path b then Some b else first_duplicate rest
  | _ => None
  end.

(** Source: packages/context/src/semantic-index.ts:312-325 [normalizeFiles]. *)
Definition normalizeFiles (files : list RepoMapFile) : result context_fault (list RepoMapFile) :=
  let normalized :=
    sort_by (fun left right => localeCompare_le (rf_path left) (rf_path right))
      (List.filter (fun file => negb (rf_path file === []) && negb (includes [0%N] (rf_content file)))
         (map (fun file => {| rf_path := normalizePath (rf_path file); rf_content := rf_content file |}) files)) in
  match first_duplicate normalized with
  | Some duplicate => Throw (ContextTypeError (txt "Semantic index received duplicate path " ++ rf_path duplicate))
  | None => Ok normalized
  end.

(** ** The class *)

Context (options : IndexOptions).

Definition new_SemanticIndex : SemanticIndex :=
  {| si_status := index_idle; si_generation := 0; si_reason := None; si_files := []; si_desiredFiles := [];
     si_chunks := []; si_documentFrequency := [] |}.

(** Source: packages/context/src/semantic-index.ts:150-158 [SemanticIndex.getState]. *)
Definition getState (st : SemanticIndex) : SemanticIndexState :=
  {| is_status := si_status st; is_generation := si_generation st; is_indexedFiles := length (si_files st);
     is_indexedChunks := length (si_chunks st); is_reason := si_reason st |}.

(** Source: packages/context/src/semantic-index.ts:160-162 [SemanticIndex.isReady]. *)
Definition isReady (st : SemanticIndex) : bool := si_status st === index_ready.

(** [new Map(files.map((file) => [file.path, file]))] *)
Definition map_of (files : list RepoMapFile) : jsmap text RepoMapFile :=
  foldl (fun m file => jm_set m (rf_path file) file) [] files.

(** An [index] between two of its awaits: its generation, its files, and where its
    loop is. *)
Record build := {
  bd_generation : Z;
  bd_normalized : list RepoMapFile;
  bd_rest : list RepoMapFile;
  bd_index : nat;
  bd_chunks : list IndexedChunk;
  bd_frequency : jsmap text Z }.

(** Up to the first await; files that are not accepted reject the promise.
    Source: packages/context/src/semantic-index.ts:165-172 [SemanticIndex.index, request]. *)
Definition begin_index (files : list RepoMapFile) (st : SemanticIndex) : result context_fault (SemanticIndex * build) :=
  normalized ← normalizeFiles files;
  let generation := si_generation st + 1 in
  Ok ({| si_status := index_indexing; si_generation := generation; si_reason := None; si_files := si_files st;
         si_desiredFiles := map_of normalized; si_chunks := si_chunks st;
         si_documentFrequency := si_documentFrequency st |},
      {| bd_generation := generation; bd_normalized := normalized; bd_rest := normalized; bd_index := 0;
         bd_chunks := []; bd_frequency := [] |}).

(** The terms of a chunk, each counted once. *)
Definition count_chunk (frequency : jsmap text Z) (chunk : IndexedChunk) : jsmap text Z :=
  foldl count frequency (jm_keys (ic_terms chunk)).

(** After the loop.
    Source: packages/context/src/semantic-index.ts:191-196 [SemanticIndex.index, end]. *)
Definition finish_build (st : SemanticIndex) (generation : Z) (normalized : list RepoMapFile)
  (chunks : list IndexedChunk) (frequency : jsmap text Z) : SemanticIndex :=
  if generation !== si_generation st then st
  else {| si_status := index_ready; si_generation := si_generation st; si_reason := si_reason st;
          si_files := map_of normalized; si_desiredFiles := si_desiredFiles st; si_chunks := chunks;
          si_documentFrequency := frequency |}.

(** To the next await ([Some]) or to the end.  Nothing in the loop throws.
    Source: packages/context/src/semantic-index.ts:174-196 [SemanticIndex.index, loop]. *)
Fixpoint run_build (st : SemanticIndex) (generation : Z) (normalized rest : list RepoMapFile) (index : nat)
  (chunks : list IndexedChunk) (frequency : jsmap text Z) : SemanticIndex * option build :=
  match rest with
  | [] => (finish_build st generation normalized chunks frequency, None)
  | file :: rest =>
      if generation !== si_generation st then (st, None)
      else
        let fileChunks := toChunks options file in
        let chunks := chunks ++ fileChunks in
        let frequency := foldl count_chunk frequency fileChunks in
        if Nat.ltb 0 index && Nat.eqb (index mod 32) 0 then
          (st, Some {| bd_generation := generation; bd_normalized := normalized; bd_rest := rest;
                       bd_index := S index; bd_chunks := chunks; bd_frequency := frequency |})
        else run_build st generation normalized rest (S index) chunks frequency
  end.

Definition advance (st : SemanticIndex) (b : build) : SemanticIndex * option build :=
  run_build st (bd_generation b) (bd_normalized b) (bd_rest b) (bd_index b) (bd_chunks b) (bd_frequency b).

(** Source: packages/context/src/semantic-index.ts:212-220 [SemanticIndex.update]. *)
Definition begin_update (files : list RepoMapFile) (removedPaths : list text) (st : SemanticIndex)
  : result context_fault (SemanticIndex * build) :=
  let next := foldl (fun m path => jm_delete m (normalizePath path)) (si_desiredFiles st) removedPaths in
  normalized ← normalizeFiles files;
  begin_index (jm_values (foldl (fun m file => jm_set m (rf_path file) file) next normalized)) st.

Definition set_status (status : SemanticIndexStatus) (reason : option text) (st : SemanticIndex) : SemanticIndex :=
  {| si_status := status; si_generation := si_generation st + 1; si_reason := reason; si_files := si_files st;
     si_desiredFiles := si_desiredFiles st; si_chunks := si_chunks st;
     si_documentFrequency := si_documentFrequency st |}.

(** Source: packages/context/src/semantic-index.ts:223-230 [SemanticIndex.markUnavailable]. *)
Definition markUnavailable (reason : option text) : SemanticIndex -> SemanticIndex :=
  set_status index_unavailable (Some (default (txt "Semantic index is unavailable") reason)).

(** Source: packages/context/src/semantic-index.ts:232-237 [SemanticIndex.cancel]. *)
Definition cancel_index : SemanticIndex -> SemanticIndex := set_status index_idle None.

(** ** Searching *)

(** [[...new Set(terms)]] *)
Fixpoint unique_from (seen terms : list text) : list text :=
  match terms with
  | [] => []
  | term :: rest => if bool_decide (term ∈ seen) then unique_from seen rest else term :: unique_from (term :: seen) rest
  end.

(** What a term that occurs in a chunk adds to its score.
    Source: packages/context/src/semantic-index.ts:276-283 [SemanticIndex.search, term]. *)
Definition term_score (st : SemanticIndex) (totalDocuments : Z) (averageLength : num) (chunk : IndexedChunk)
  (term : text) (frequency : Z) : num :=
  let documentFrequency := default 0 (jm_get (si_documentFrequency st) term) in
  let inverseFrequency :=
    js_add (log (js_quotient (ofZ (totalDocuments + 1)) (ofZ (documentFrequency + 1)))) (ofZ 1) in
  let normalizedFrequency :=
    js_quotient (js_mul (ofZ frequency) (thousandths 2200))
      (js_add (ofZ frequency)
         (js_mul (thousandths 1200)
            (js_add (thousandths 250)
               (js_mul (thousandths 750) (js_quotient (ofZ (ic_tokenCount chunk)) averageLength))))) in
  js_mul normalizedFrequency inverseFrequency.

(** Source: packages/context/src/semantic-index.ts:270-284 [SemanticIndex.search, terms]. *)
Definition score_terms (st : SemanticIndex) (totalDocuments : Z) (averageLength : num) (chunk : IndexedChunk)
  (terms : list text) : num * list text :=
  foldl (fun '(score, matchedTerms) term =>
           let frequency := default 0 (jm_get (ic_terms chunk) term) in
           if frequency =? 0 then (score, matchedTerms)
           else (js_add score (term_score st totalDocuments averageLength chunk term frequency), matchedTerms ++ [term]))
        (ofZ 0, []) terms.

(** Source: packages/context/src/semantic-index.ts:269-298 [SemanticIndex.search, result]. *)
Definition score_chunk (st : SemanticIndex) (totalDocuments : Z) (averageLength : num) (terms : list text)
  (normalizedQuery : text) (chunk : IndexedChunk) : SemanticSearchResult :=
  let '(score, matchedTerms) := score_terms st totalDocuments averageLength chunk terms in
  let found := Nat.ltb 2 (length normalizedQuery) &&
               includes normalizedQuery (toLowerCase (normalize (ic_text chunk))) in
  {| sr_path := ic_path chunk; sr_startLine := ic_startLine chunk; sr_endLine := ic_endLine chunk;
     sr_text := ic_text chunk; sr_score := if found then js_add score (thousandths 750) else score;
     sr_matchedTerms := matchedTerms |}.

(** Source: packages/context/src/semantic-index.ts:300-306 [SemanticIndex.search, sort]. *)
Definition result_le (left right : SemanticSearchResult) : bool :=
  unless_equal (js_sub (sr_score right) (sr_score left))
    (let le := localeCompare_le (sr_path left) (sr_path right) in
     if le && localeCompare_le (sr_path right) (sr_path left) then
       if sr_startLine left =? sr_startLine right then sr_endLine left <=? sr_endLine right
       else sr_startLine left <? sr_startLine right
     else le).

(** Source: packages/context/src/semantic-index.ts:239-309 [SemanticIndex.search]. *)
Definition search_index (query : text) (maxResults : option num) (st : SemanticIndex)
  : result context_fault SemanticSearchResponse :=
  let maxResults := default (ofZ 8) maxResults in
  let response results reason :=
    {| sp_status := si_status st; sp_generation := si_generation st; sp_results := results; sp_reason := reason |} in
  if negb (isSafeInteger maxResults) || js_lt maxResults (ofZ 0)
  then Throw (ContextTypeError (txt "Semantic search maxResults must be a non-negative safe integer"))
  else if si_status st !== index_ready
  then Ok (response [] (Some (default (txt "Semantic index is not ready") (si_reason st))))
  else
    let terms := unique_from [] (lexicalTerms query) in
    if (terms === []) || (toZ maxResults =? 0) then Ok (response [] None)
    else
      let totalDocuments := Z.max 1 (Z.of_nat (length (si_chunks st))) in
      let averageLength :=
        math_max (ofZ 1)
          (js_quotient (ofZ (foldr Z.add 0 (map ic_tokenCount (si_chunks st)))) (ofZ totalDocuments)) in
      let normalizedQuery := trim (toLowerCase (normalize query)) in
      let results := map (score_chunk st totalDocuments averageLength terms normalizedQuery) (si_chunks st) in
      Ok (response (take (Z.to_nat (toZ maxResults))
                      (sort_by result_le (List.filter (fun r => js_lt (ofZ 0) (sr_score r)) results))) None).

(** ** Requests and builds, interleaved *)

Record machine := { m_index : SemanticIndex; m_builds : list build }.

(** A request takes effect at once, its build later; the builds in flight go on in any order. *)
Inductive index_step : machine -> machine -> Prop :=
| step_index files st builds st' b :
    begin_index files st = Ok (st', b) ->
    index_step {| m_index := st; m_builds := builds |} {| m_index := st'; m_builds := builds ++ [b] |}
| step_update files removedPaths st builds st' b :
    begin_update files removedPaths st = Ok (st', b) ->
    index_step {| m_index := st; m_builds := builds |} {| m_index := st'; m_builds := builds ++ [b] |}
| step_unavailable reason st builds :
    index_step {| m_index := st; m_builds := builds |} {| m_index := markUnavailable reason st; m_builds := builds |}
| step_cancel st builds :
    index_step {| m_index := st; m_builds := builds |} {| m_index := cancel_index st; m_builds := builds |}
| step_advance st before b after :
    index_step {| m_index := st; m_builds := before ++ b :: after |}
      {| m_index := (advance st b).1; m_builds := before ++ option_list (advance st b).2 ++ after |}.
End Index.
