(* ===== verification/SemanticFacts.v ===== *)
(** What the lexical index promises: the theorems about SemanticIndex.v. *)

From Stdlib Require Import ZArith NArith Lia Ascii Sorted.
From stdpp Require Import base strings list relations sorting.
From S2P Require Import Prelude JsNumber JsDecimal JsText JsCollections OcfValue Paths Git Planner PlannerFacts.
From S2P Require Import SemanticIndex.

Open Scope string_scope.
Open Scope list_scope.
#[local] Open Scope Z_scope.

(** ** Counting *)

(** The number of occurrences of a key. *)
Definition occurrences (key : text) (l : list text) : Z := Z.of_nat (length (List.filter (fun x => x === key) l)).

Lemma occurrences_cons key x l : occurrences key (x :: l) = (if decide (x = key) then 1 else 0) + occurrences key l.
Proof.
  unfold occurrences. cbn [List.filter]. destruct (decide (x = key)) as [->|H].
  - rewrite bool_decide_eq_true_2 by done. cbn [length]. lia.
  - by rewrite bool_decide_eq_false_2 by done.
Qed.

Lemma count_get counts x key :
  default 0 (jm_get (count counts x) key) = default 0 (jm_get counts key) + (if decide (x = key) then 1 else 0).
Proof. unfold count. rewrite jm_get_set. destruct (decide (x = key)) as [->|_]; cbn; lia. Qed.

Lemma count_all l counts key :
  default 0 (jm_get (foldl count counts l) key) = default 0 (jm_get counts key) + occurrences key l.
Proof.
  revert counts. induction l as [|x l IH]; intros counts; [change (occurrences key []) with 0; cbn [foldl]; lia|].
  cbn [foldl]. rewrite IH, count_get, occurrences_cons. lia.
Qed.

Lemma count_NoDup l counts : NoDup (jm_keys counts) -> NoDup (jm_keys (foldl count counts l)).
Proof. revert counts. induction l as [|x l IH]; intros counts Hn; [done|]. cbn [foldl]. by apply IH, jm_set_NoDup. Qed.

Lemma occurrences_NoDup key l : NoDup l -> occurrences key l = if bool_decide (key ∈ l) then 1 else 0.
Proof.
  induction 1 as [|x l Hx _ IH]; [done|]. rewrite occurrences_cons, IH.
  destruct (decide (x = key)) as [->|H].
  - rewrite (bool_decide_eq_false_2 (key ∈ l)) by done. by rewrite bool_decide_eq_true_2 by apply list_elem_of_here.
  - rewrite Z.add_0_l. assert (bool_decide (key ∈ l) = bool_decide (key ∈ x :: l)) as ->; [|done].
    apply bool_decide_ext. rewrite elem_of_cons. naive_solver.
Qed.

Section Facts.
Context (normalize toLowerCase : text -> text) (matches : text -> list text).
Context (localeCompare_le : text -> text -> bool) (log : num -> num).
Context (options : IndexOptions).

Abbreviation lexicalTerms := (lexicalTerms normalize toLowerCase matches).
Abbreviation make_chunk := (make_chunk normalize toLowerCase matches).
Abbreviation toChunks := (toChunks normalize toLowerCase matches options).
Abbreviation begin_index := (begin_index localeCompare_le).
Abbreviation run_build := (run_build normalize toLowerCase matches options).
Abbreviation advance := (advance normalize toLowerCase matches options).
Abbreviation index_step := (index_step normalize toLowerCase matches localeCompare_le options).

(** ** Chunks *)

Abbreviation step_lines := (io_chunkLines options - io_overlapLines options)%nat.

Lemma chunks_from_lookup path fuel : forall start rest k, (0 < step_lines)%nat -> (length rest <= fuel)%nat ->
  chunks_from normalize toLowerCase matches options path fuel start rest !! k =
  if (k * step_lines <? length rest)%nat
  then Some (make_chunk path (start + k * step_lines) (take (io_chunkLines options) (drop (k * step_lines) rest)))
  else None.
Proof.
  induction fuel as [|fuel IH]; intros start rest k Hs Hl.
  { destruct rest; [|cbn in Hl; lia]. cbn. by destruct (k * step_lines)%nat. }
  destruct rest as [|line rest].
  { cbn [chunks_from length]. by rewrite (proj2 (Nat.ltb_ge _ 0)) by lia. }
  cbn [chunks_from]. destruct k as [|k].
  { cbn [lookup list_lookup Nat.mul]. rewrite Nat.add_0_r. done. }
  cbn [lookup list_lookup]. rewrite IH; [|done|rewrite length_drop; cbn [length] in *; lia].
  rewrite length_drop, drop_drop. replace (start + step_lines + k * step_lines)%nat with (start + S k * step_lines)%nat by lia.
  replace (step_lines + k * step_lines)%nat with (S k * step_lines)%nat by lia.
  destruct (Nat.ltb_spec (k * step_lines) (length (line :: rest) - step_lines)),
    (Nat.ltb_spec (S k * step_lines) (length (line :: rest))); try lia; done.
Qed.

(** The chunks of a file are windows over its lines: the k-th one begins
    [chunkLines - overlapLines] lines after the one before it and has [chunkLines]
    lines, or those that are left; its text is those lines, its line numbers are
    theirs, and its terms are counted as often as they occur; and every line of the
    file is in a chunk. *)
Theorem chunks_cover_lines file :
  (io_overlapLines options < io_chunkLines options)%nat ->
  let lines := lines_of (rf_content file) in
  (forall k, toChunks file !! k =
     if (k * step_lines <? length lines)%nat
     then Some (make_chunk (normalizePath (rf_path file)) (k * step_lines)
                  (take (io_chunkLines options) (drop (k * step_lines) lines)))
     else None) /\
  (forall i, (i < length lines)%nat -> exists chunk, chunk ∈ toChunks file /\
     ic_startLine chunk <= Z.of_nat i + 1 <= ic_endLine chunk) /\
  (forall chunk term, chunk ∈ toChunks file ->
     default 0 (jm_get (ic_terms chunk) term) = occurrences term (lexicalTerms (ic_text chunk))).
Proof.
  intros Ho lines. assert (forall k, toChunks file !! k =
     if (k * step_lines <? length lines)%nat
     then Some (make_chunk (normalizePath (rf_path file)) (k * step_lines)
                  (take (io_chunkLines options) (drop (k * step_lines) lines)))
     else None) as Hk.
  { intros k. unfold toChunks. by rewrite chunks_from_lookup by lia. }
  split; [done|split].
  - intros i Hi. assert (i / step_lines * step_lines <= i < (i / step_lines + 1) * step_lines)%nat as Hd.
    { pose proof (Nat.div_mod i step_lines ltac:(lia)). pose proof (Nat.mod_upper_bound i step_lines ltac:(lia)). nia. }
    specialize (Hk (i / step_lines)%nat). rewrite (proj2 (Nat.ltb_lt _ _)) in Hk by lia.
    eexists. split; [by eapply list_elem_of_lookup_2|]. cbn [ic_startLine ic_endLine make_chunk].
    rewrite length_take, length_drop. lia.
  - intros chunk term [k Hc]%list_elem_of_lookup. rewrite Hk in Hc. destruct (Nat.ltb_spec (k * step_lines) (length lines)); [|done].
    injection Hc as <-. cbn [ic_terms ic_text make_chunk]. unfold countTerms. by rewrite count_all.
Qed.

(** ** Builds *)

Definition chunks_of (files : list RepoMapFile) : list IndexedChunk := concat (map toChunks files).
Definition frequency_of (chunks : list IndexedChunk) : jsmap text Z := foldl count_chunk [] chunks.

Lemma chunks_of_app a b : chunks_of (a ++ b) = chunks_of a ++ chunks_of b.
Proof. unfold chunks_of. by rewrite map_app, concat_app. Qed.
Lemma frequency_of_app a b : frequency_of (a ++ b) = foldl count_chunk (frequency_of a) b.
Proof. apply foldl_app. Qed.

(** The number of chunks that have a term. *)
Definition chunks_with (term : text) (chunks : list IndexedChunk) : Z :=
  Z.of_nat (length (List.filter (fun c => jm_has (ic_terms c) term) chunks)).

Lemma frequency_counts_chunks chunks term : Forall (fun c => NoDup (jm_keys (ic_terms c))) chunks ->
  default 0 (jm_get (frequency_of chunks) term) = chunks_with term chunks.
Proof.
  intros Hn. unfold frequency_of.
  assert (forall m, default 0 (jm_get (foldl count_chunk m chunks) term) = default 0 (jm_get m term) + chunks_with term chunks)
    as H; [|by rewrite H].
  induction Hn as [|c chunks Hc _ IH]; intros m; [change (chunks_with term []) with 0; cbn [foldl]; lia|].
  cbn [foldl]. rewrite IH. unfold count_chunk at 1. rewrite count_all, occurrences_NoDup by done.
  unfold chunks_with. cbn [List.filter]. pose proof (jm_has_elem (ic_terms c) term) as He.
  destruct (jm_has (ic_terms c) term).
  - rewrite bool_decide_eq_true_2 by (by apply He). cbn [length]. lia.
  - rewrite bool_decide_eq_false_2 by (by intros ?%He). lia.
Qed.

Lemma chunks_terms files : Forall (fun c => NoDup (jm_keys (ic_terms c))) (chunks_of files).
Proof.
  apply Forall_forall. intros c Hc. unfold chunks_of in Hc. apply list_elem_of_In, in_concat in Hc as (l & Hl & Hc).
  apply in_map_iff in Hl as (file & <- & _). revert Hc. unfold toChunks, SemanticIndex.toChunks. cbv zeta.
  generalize (length (lines_of (rf_content file))) as fuel. intros fuel.
  generalize (lines_of (rf_content file)) as rest. generalize 0%nat as start.
  induction fuel as [|fuel IH]; intros start rest; [done|]. destruct rest; [done|].
  cbn [chunks_from]. intros [<-|Hc]; [|by eapply IH]. cbn [ic_terms SemanticIndex.make_chunk]. apply count_NoDup. constructor.
Qed.

(** A build has done a first part of its files. *)
Definition on_its_way (b : build) : Prop := exists done,
  bd_normalized b = done ++ bd_rest b /\ bd_chunks b = chunks_of done /\ bd_frequency b = frequency_of (bd_chunks b).

Lemma overtaken_build st generation normalized rest index chunks frequency : generation <> si_generation st ->
  run_build st generation normalized rest index chunks frequency = (st, None).
Proof.
  intros Hg. assert ((generation !== si_generation st) = true) as Hne.
  { apply negb_true_iff. by apply bool_decide_eq_false. }
  destruct rest; cbn [SemanticIndex.run_build]; [unfold finish_build|]; by rewrite Hne.
Qed.

(** What a completed build leaves. *)
Definition indexed (st : SemanticIndex) (files : list RepoMapFile) : SemanticIndex :=
  {| si_status := index_ready; si_generation := si_generation st; si_reason := si_reason st;
     si_files := map_of files; si_desiredFiles := si_desiredFiles st; si_chunks := chunks_of files;
     si_documentFrequency := frequency_of (chunks_of files) |}.

Lemma current_build st normalized rest : forall finished index,
  normalized = finished ++ rest ->
  let '(st', next) := run_build st (si_generation st) normalized rest index (chunks_of finished) (frequency_of (chunks_of finished)) in
  match next with
  | Some b => st' = st /\ bd_generation b = si_generation st /\ bd_normalized b = normalized /\ on_its_way b /\
              (length (bd_rest b) < length rest)%nat
  | None => st' = indexed st normalized
  end.
Proof.
  induction rest as [|file rest IH]; intros finished index Hn; cbn [SemanticIndex.run_build].
  { rewrite app_nil_r in Hn. subst. unfold finish_build. by rewrite (bool_decide_eq_true_2 _ (eq_refl (si_generation st))). }
  rewrite (bool_decide_eq_true_2 _ (eq_refl (si_generation st))). cbn [negb]. cbv zeta.
  assert (chunks_of finished ++ toChunks file = chunks_of (finished ++ [file])) as Ec.
  { rewrite chunks_of_app. unfold chunks_of at 3. cbn. by rewrite app_nil_r. }
  rewrite <- frequency_of_app, Ec.
  destruct (Nat.ltb 0 index && Nat.eqb (index mod 32) 0).
  - split_and!; try done; [|cbn [bd_rest length]; lia]. exists (finished ++ [file]). cbn. by rewrite Hn, <- app_assoc.
  - specialize (IH (finished ++ [file]) (S index)). rewrite Hn in IH |- *. rewrite <- app_assoc in IH. specialize (IH eq_refl).
    destruct (SemanticIndex.run_build _ _ _ _ _ _ _ _ _ _ _) as [st' [b|]]; [|done].
    destruct IH as (? & ? & ? & ? & ?). split_and!; try done. cbn [length]. lia.
Qed.

Lemma advance_current st b : bd_generation b = si_generation st -> on_its_way b ->
  match (advance st b).2 with
  | Some b' => (advance st b).1 = st /\ bd_generation b' = si_generation st /\ bd_normalized b' = bd_normalized b /\
               on_its_way b' /\ (length (bd_rest b') < length (bd_rest b))%nat
  | None => (advance st b).1 = indexed st (bd_normalized b)
  end.
Proof.
  intros Hg (finished & Hn & Hc & Hf). unfold SemanticIndex.advance. rewrite Hg, Hf, Hc.
  pose proof (current_build st (bd_normalized b) (bd_rest b) finished (bd_index b) Hn) as H.
  by destruct (run_build _ _ _ _ _ _ _) as [st' [b'|]].
Qed.

(** ** The machine *)

Definition build_ok (st : SemanticIndex) (latest : list RepoMapFile) (b : build) : Prop :=
  bd_generation b <= si_generation st /\
  (bd_generation b = si_generation st -> bd_normalized b = latest /\ on_its_way b).

Definition machine_ok (m : machine) : Prop := exists latest,
  si_desiredFiles (m_index m) = map_of latest /\
  (si_status (m_index m) = index_ready ->
     si_files (m_index m) = map_of latest /\ si_chunks (m_index m) = chunks_of latest /\
     si_documentFrequency (m_index m) = frequency_of (chunks_of latest)) /\
  Forall (build_ok (m_index m) latest) (m_builds m).

Definition fresh_machine : machine := {| m_index := new_SemanticIndex; m_builds := [] |}.

(** Builds of an earlier generation stay overtaken. *)
Lemma overtaken_ok st st' latest latest' builds : si_generation st < si_generation st' ->
  Forall (build_ok st latest) builds -> Forall (build_ok st' latest') builds.
Proof. intros Hg Hall. eapply Forall_impl; [exact Hall|]. intros b [H _]. split; lia. Qed.

Lemma begin_index_ok files st st' b : begin_index files st = Ok (st', b) -> exists normalized,
  normalizeFiles localeCompare_le files = Ok normalized /\ si_generation st' = si_generation st + 1 /\
  si_status st' = index_indexing /\ si_desiredFiles st' = map_of normalized /\ bd_generation b = si_generation st' /\
  bd_normalized b = normalized /\ bd_rest b = normalized /\ on_its_way b.
Proof.
  unfold SemanticIndex.begin_index. intros (normalized & Hn & H)%bind_ok. injection H as <- <-.
  exists normalized. split_and!; try done. by exists [].
Qed.

Lemma begin_machine_ok files st st' b builds : begin_index files st = Ok (st', b) ->
  machine_ok {| m_index := st; m_builds := builds |} -> machine_ok {| m_index := st'; m_builds := builds ++ [b] |}.
Proof.
  intros (normalized & _ & Hg & Hs & Hd & Hb & Hn & _ & Hw)%begin_index_ok (latest & _ & _ & Hall).
  exists normalized. cbn [m_index m_builds] in *. split; [done|]. split; [by rewrite Hs|].
  apply Forall_app. split; [eapply overtaken_ok; [|exact Hall]; lia|]. constructor; [|constructor]. split; [lia|done].
Qed.

Lemma set_status_ok status reason st builds : status <> index_ready ->
  machine_ok {| m_index := st; m_builds := builds |} ->
  machine_ok {| m_index := set_status status reason st; m_builds := builds |}.
Proof.
  intros Hs (latest & Hd & _ & Hall). exists latest. split; [done|]. split; [done|].
  cbn [m_index m_builds] in *. eapply overtaken_ok; [|exact Hall]. cbn. lia.
Qed.

Lemma index_step_ok m m' : index_step m m' -> machine_ok m -> machine_ok m'.
Proof.
  intros Hstep. destruct Hstep as [files st builds st' b H|files removed st builds st' b H|reason st builds|st builds|st before b after].
  - by apply begin_machine_ok with files.
  - unfold begin_update in H. apply bind_ok in H as (normalized & _ & H). by eapply begin_machine_ok.
  - by apply set_status_ok.
  - by apply set_status_ok.
  - intros (latest & Hd & Hr & Hall). cbn [m_index m_builds] in *. apply Forall_app in Hall as [Hbefore Hall].
    apply Forall_cons in Hall as [[Hle Hb] Hafter].
    destruct (decide (bd_generation b = si_generation st)) as [Hg|Hg].
    + destruct (Hb Hg) as [Hn Hw]. pose proof (advance_current st b Hg Hw) as H.
      destruct (advance st b) as [st' [b'|]]; cbn [fst snd option_list] in *.
      * destruct H as (-> & Hg' & Hn' & Hw' & _). exists latest. split; [done|split; [done|]].
        apply Forall_app. split; [done|]. constructor; [|done]. split; cbn [m_index]; [lia|]. intros _. by rewrite Hn'.
      * subst st'. rewrite Hn. exists latest. cbn [m_index m_builds indexed si_desiredFiles]. split; [done|split; [done|]].
        apply Forall_app. split; [exact Hbefore|exact Hafter].
    + unfold SemanticIndex.advance. rewrite overtaken_build by done. cbn [fst snd option_list app].
      exists latest. split; [done|split; [done|]]. by apply Forall_app.
Qed.

(** C20: a ready index is complete: however requests, updates, cancellations and the
    builds they leave in flight are interleaved, an index that says it is ready
    holds exactly the files that were last asked for, the chunks of all of them in
    their order, and for every term the number of chunks that have it. *)
Theorem ready_index_is_complete m : rtc index_step fresh_machine m -> si_status (m_index m) = index_ready ->
  exists files, si_desiredFiles (m_index m) = map_of files /\ si_files (m_index m) = map_of files /\
    si_chunks (m_index m) = concat (map toChunks files) /\
    forall term, default 0 (jm_get (si_documentFrequency (m_index m)) term) = chunks_with term (si_chunks (m_index m)).
Proof.
  intros Hr Hs. assert (machine_ok m) as (files & Hd & H & _).
  { assert (forall a b, rtc index_step a b -> machine_ok a -> machine_ok b) as Hrtc.
    { induction 1 as [|x y z Hxy _ IH]; [done|]. intros Hx. by eapply IH, index_step_ok. }
    apply (Hrtc _ _ Hr). exists []. split; [done|]. split; [done|]. constructor. }
  destruct (H Hs) as (Hf & Hc & Hq). exists files. split_and!; try done.
  intros term. rewrite Hq, Hc. apply frequency_counts_chunks, chunks_terms.
Qed.

(** [n] rounds of one build, when nothing else happens. *)
Fixpoint rounds (n : nat) (st : SemanticIndex) (b : build) : SemanticIndex * option build :=
  match n with
  | O => (st, Some b)
  | S n => match advance st b with
           | (st', Some b') => rounds n st' b'
           | (st', None) => (st', None)
           end
  end.

Lemma rounds_current n : forall st b, bd_generation b = si_generation st -> on_its_way b -> (length (bd_rest b) < n)%nat ->
  rounds n st b = (indexed st (bd_normalized b), None).
Proof.
  induction n as [|n IH]; intros st b Hg Hw Hl; [lia|]. cbn [rounds]. pose proof (advance_current st b Hg Hw) as H.
  destruct (advance st b) as [st' [b'|]]; cbn [fst snd] in H; [|by subst].
  destruct H as (-> & Hg' & <- & Hw' & Hl'). apply IH; [done|done|lia].
Qed.

(** An index that is left alone becomes ready: whatever happened before, a request
    whose files are accepted ends, after finitely many awaits, in a ready index of
    those files; and a build that was overtaken by another request, by a
    cancellation or by being marked unavailable ends without a trace. *)
Theorem index_becomes_ready files st st' b : begin_index files st = Ok (st', b) -> exists normalized,
  normalizeFiles localeCompare_le files = Ok normalized /\
  (exists n st'', rounds n st' b = (st'', None) /\ si_status st'' = index_ready /\
     si_files st'' = map_of normalized /\ si_chunks st'' = concat (map toChunks normalized) /\
     si_desiredFiles st'' = map_of normalized) /\
  forall later, si_generation st' < si_generation later -> advance later b = (later, None).
Proof.
  intros (normalized & Hn & Hg & Hs & Hd & Hb & Hm & Hrest & Hw)%begin_index_ok. exists normalized. split; [done|split].
  - exists (S (length normalized)), (indexed st' normalized). rewrite rounds_current; [by rewrite Hm|done|done|].
    rewrite Hrest. lia.
  - intros later Hl. apply overtaken_build. lia.
Qed.

(** ** Searching *)

Section Search.
(** [localeCompare] is a total order up to texts it does not tell apart. *)
Context (le_total : forall a b, localeCompare_le a b = true \/ localeCompare_le b a = true).
Context (le_trans : forall a b c, localeCompare_le a b = true -> localeCompare_le b c = true -> localeCompare_le a c = true).

(** The order of results with the same score. *)
Definition place_le (left right : SemanticSearchResult) : bool :=
  let le := localeCompare_le (sr_path left) (sr_path right) in
  if le && localeCompare_le (sr_path right) (sr_path left) then
    if sr_startLine left =? sr_startLine right then sr_endLine left <=? sr_endLine right
    else sr_startLine left <? sr_startLine right
  else le.

Lemma place_total a b : place_le a b = true \/ place_le b a = true.
Proof.
  unfold place_le. destruct (localeCompare_le (sr_path a) (sr_path b)) eqn:E1,
    (localeCompare_le (sr_path b) (sr_path a)) eqn:E2; cbn [andb]; auto.
  - destruct (Z.eqb_spec (sr_startLine a) (sr_startLine b)), (Z.eqb_spec (sr_startLine b) (sr_startLine a)); lia.
  - destruct (le_total (sr_path a) (sr_path b)); congruence.
Qed.

Lemma place_trans a b c : place_le a b = true -> place_le b c = true -> place_le a c = true.
Proof.
  unfold place_le. pose proof (le_trans (sr_path a) (sr_path b) (sr_path c)) as H1.
  pose proof (le_trans (sr_path c) (sr_path b) (sr_path a)) as H2.
  pose proof (le_trans (sr_path b) (sr_path c) (sr_path a)) as H3.
  pose proof (le_trans (sr_path c) (sr_path a) (sr_path b)) as H4.
  destruct (localeCompare_le (sr_path a) (sr_path b)), (localeCompare_le (sr_path b) (sr_path a)),
    (localeCompare_le (sr_path b) (sr_path c)), (localeCompare_le (sr_path c) (sr_path b)),
    (localeCompare_le (sr_path a) (sr_path c)), (localeCompare_le (sr_path c) (sr_path a));
    cbn [andb]; try done; try (specialize (H1 eq_refl eq_refl); done); try (specialize (H2 eq_refl eq_refl); done);
    try (specialize (H3 eq_refl eq_refl); done); try (specialize (H4 eq_refl eq_refl); done).
  destruct (Z.eqb_spec (sr_startLine a) (sr_startLine b)), (Z.eqb_spec (sr_startLine b) (sr_startLine c)),
    (Z.eqb_spec (sr_startLine a) (sr_startLine c)); lia.
Qed.

Lemma by_key_score {A} (key : A -> num) rest a b : by_key key rest a b = true -> js_lt (clean (key a)) (clean (key b)) = false.
Proof.
  unfold by_key. destruct (clean_cases (key a)) as [->|[->|[x ->]]], (clean_cases (key b)) as [->|[->|[y ->]]];
    cbn [js_lt]; try done. destruct (Z.ltb_spec y x), (Z.ltb_spec x y); try lia; done.
Qed.

Lemma positive_clean r : js_lt (ofZ 0) (sr_score r) = true -> clean (sr_score r) = sr_score r /\ sr_score r <> NaN.
Proof. destruct (sr_score r); cbn; by try done. Qed.

Abbreviation ranked := (sort_by (result_le localeCompare_le)).

Lemma ranked_sorted l : Forall (fun r => js_lt (ofZ 0) (sr_score r) = true) l ->
  StronglySorted (fun a b => js_lt (sr_score a) (sr_score b) = false) (ranked l).
Proof.
  intros Hl. rewrite Forall_forall in Hl.
  rewrite (sort_by_ext _ (by_key sr_score place_le)).
  2:{ intros a b Ha Hb. apply (unless_equal_key sr_score place_le); by apply positive_clean, Hl. }
  assert (forall a, a ∈ sort_by (by_key sr_score place_le) l -> js_lt (ofZ 0) (sr_score a) = true) as Hin.
  { intros a Ha%sort_by_elem. by apply Hl. }
  pose proof (sort_by_sorted (by_key sr_score place_le)
    (by_key_total sr_score place_le place_total) (by_key_trans sr_score place_le place_trans) l) as Hs.
  induction Hs as [|a k Hs IH Ha]; constructor.
  - apply IH. intros x Hx. apply Hin. by apply list_elem_of_further.
  - rewrite Forall_forall in Ha |- *. intros b Hb. specialize (Ha b Hb). apply by_key_score in Ha.
    rewrite (proj1 (positive_clean a (Hin a (list_elem_of_here _ _)))) in Ha.
    by rewrite (proj1 (positive_clean b (Hin b (list_elem_of_further _ _ _ Hb)))) in Ha.
Qed.

(** The scores do not rise. *)
Definition descending (results : list SemanticSearchResult) : Prop :=
  StronglySorted (fun a b => js_lt (sr_score a) (sr_score b) = false) results.

(** A search gives the best matches: for a valid limit it never throws; an index
    that is not ready answers with a reason and nothing else; otherwise every chunk
    is scored once, and for a query with terms the results are the chunks with the
    highest positive scores, in descending order: as many as the limit allows, or
    all that match, and no chunk that is left out has a higher score than one that
    is shown. *)
Theorem search_finds_best query n st : 0 <= n -> isSafeInteger (ofZ n) = true ->
  exists response, search_index normalize toLowerCase matches localeCompare_le log query (Some (ofZ n)) st = Ok response /\
    sp_status response = si_status st /\ sp_generation response = si_generation st /\
    (si_status st <> index_ready -> sp_results response = [] /\ sp_reason response <> None) /\
    (si_status st = index_ready -> lexicalTerms query <> [] -> exists (score : IndexedChunk -> SemanticSearchResult) omitted,
       (forall c, sr_path (score c) = ic_path c /\ sr_startLine (score c) = ic_startLine c /\
                  sr_endLine (score c) = ic_endLine c /\ sr_text (score c) = ic_text c) /\
       sp_results response ++ omitted ≡ₚ
         List.filter (fun r => js_lt (ofZ 0) (sr_score r)) (map score (si_chunks st)) /\
       (omitted = [] \/ Z.of_nat (length (sp_results response)) = n) /\ Z.of_nat (length (sp_results response)) <= n /\
       descending (sp_results response ++ omitted)).
Proof.
  intros Hn Hs. unfold search_index. cbv zeta.
  change (default (ofZ 8) (Some (ofZ n))) with (ofZ n). rewrite Hs, js_lt_ofZ, toZ_ofZ, (proj2 (Z.ltb_ge n 0)) by lia. cbn [negb orb].
  destruct (si_status st === index_ready) eqn:Er; bool_hyps; cbn [negb].
  2:{ eexists. split; [reflexivity|]. cbn. by split_and!. }
  set (totalDocuments := Z.max 1 _). set (averageLength := math_max _ _). set (normalizedQuery := trim _).
  set (terms := unique_from [] _).
  set (score := score_chunk normalize toLowerCase log st totalDocuments averageLength terms normalizedQuery).
  set (matching := List.filter _ (map score (si_chunks st))).
  assert (exists response, (if (terms === []) || (n =? 0)
      then Ok {| sp_status := si_status st; sp_generation := si_generation st; sp_results := []; sp_reason := None |}
      else Ok {| sp_status := si_status st; sp_generation := si_generation st;
                 sp_results := take (Z.to_nat n) (ranked matching); sp_reason := None |}) = @Ok context_fault _ response /\
      sp_status response = si_status st /\ sp_generation response = si_generation st /\
      (terms <> [] -> sp_results response = take (Z.to_nat n) (ranked matching))) as (response & E & H1 & H2 & H3).
  { destruct (terms === []) eqn:Et; bool_hyps; cbn [orb]; [eexists; by split_and!|].
    destruct (Z.eqb_spec n 0) as [->|]; eexists; by split_and!. }
  exists response. split; [exact E|]. split; [done|split; [done|split; [done|]]]. intros _ Ht.
  rewrite H3 by by (destruct (lexicalTerms query)). exists score, (drop (Z.to_nat n) (ranked matching)). split_and!.
  - intros c. unfold score, score_chunk. by destruct (score_terms _ _ _ _ _ _).
  - rewrite take_drop. apply sort_by_Permutation.
  - destruct (decide (length (ranked matching) <= Z.to_nat n)%nat) as [Hl|Hl]; [left; by apply drop_ge|right].
    rewrite length_take. lia.
  - rewrite length_take. lia.
  - rewrite take_drop. apply ranked_sorted, Forall_forall. by intros r [_ Hr]%elem_of_list_filter.
Qed.
End Search.
End Facts.

(** ** A small index *)

Definition keep (s : text) : text := s.
Definition unlogged (x : num) : num := x.
Definition small_options : IndexOptions := {| io_chunkLines := 2; io_overlapLines := 1 |}.
Definition small_file (path content : string) : RepoMapFile := {| rf_path := txt path; rf_content := txt content |}.
Definition three_lines : RepoMapFile := small_file "src/a.ts" "one two
three
two four".
Definition in_index (files : list RepoMapFile) (st : SemanticIndex) : SemanticIndex * list build :=
  match begin_index text_le files st with Ok (st, b) => (st, [b]) | Throw _ => (st, []) end.

Example three_lines_chunks :
  map (fun c => (ic_startLine c, ic_endLine c, ic_tokenCount c)) (toChunks keep keep words small_options three_lines) =
  [(1, 2, 3); (2, 3, 3); (3, 3, 2)].
Proof. vm_compute. reflexivity. Qed.

Lemma chunks_cover_lines_witness : (io_overlapLines small_options < io_chunkLines small_options)%nat /\
  exists chunk, chunk ∈ toChunks keep keep words small_options three_lines /\ ic_startLine chunk <= 3 <= ic_endLine chunk.
Proof.
  assert (io_overlapLines small_options < io_chunkLines small_options)%nat as H by (cbn; lia). split; [exact H|].
  destruct (chunks_cover_lines keep keep words small_options three_lines H) as (_ & Hc & _).
  apply (Hc 2%nat). vm_compute. lia.
Defined.

(** A request and its build. *)
Definition small_request : SemanticIndex * list build := in_index [three_lines] new_SemanticIndex.
Definition small_ready : SemanticIndex :=
  match small_request.2 with
  | b :: _ => (advance keep keep words small_options small_request.1 b).1
  | [] => small_request.1
  end.

Lemma ready_index_is_complete_witness :
  rtc (index_step keep keep words text_le small_options) fresh_machine {| m_index := small_ready; m_builds := [] |} /\
  si_status small_ready = index_ready /\ exists files, si_files small_ready = map_of files /\
    si_chunks small_ready = concat (map (toChunks keep keep words small_options) files).
Proof.
  assert (rtc (index_step keep keep words text_le small_options) fresh_machine {| m_index := small_ready; m_builds := [] |}) as Hr.
  { eapply rtc_l; [apply (step_index _ _ _ _ _ [three_lines]); vm_compute; reflexivity|].
    eapply rtc_l; [apply (step_advance _ _ _ _ _ _ [] _ [])|]. vm_compute. apply rtc_refl. }
  assert (si_status small_ready = index_ready) as Hs by (vm_compute; reflexivity).
  split; [exact Hr|split; [exact Hs|]].
  destruct (ready_index_is_complete keep keep words text_le small_options _ Hr Hs) as (files & _ & Hf & Hc & _).
  exists files. split; [exact Hf|exact Hc].
Defined.

Lemma index_becomes_ready_witness : exists st b normalized,
  begin_index text_le [three_lines] new_SemanticIndex = Ok (st, b) /\
  normalizeFiles text_le [three_lines] = Ok normalized /\
  exists n st', rounds keep keep words small_options n st b = (st', None) /\ si_status st' = index_ready.
Proof.
  destruct (begin_index text_le [three_lines] new_SemanticIndex) as [[st b]|e] eqn:E; [|vm_compute in E; discriminate E].
  destruct (index_becomes_ready keep keep words text_le small_options _ _ _ _ E) as (normalized & Hn & (n & st' & H & Hs & _) & _).
  exists st, b, normalized. split; [reflexivity|split; [exact Hn|]]. exists n, st'. split; [exact H|exact Hs].
Defined.

Lemma search_finds_best_witness : 0 <= 2 /\ isSafeInteger (ofZ 2) = true /\ si_status small_ready = index_ready /\
  exists response, search_index keep keep words text_le unlogged (txt "two four") (Some (ofZ 2)) small_ready = Ok response /\
    Z.of_nat (length (sp_results response)) <= 2.
Proof.
  assert (isSafeInteger (ofZ 2) = true) as H2 by (vm_compute; reflexivity).
  assert (si_status small_ready = index_ready) as Hs by (vm_compute; reflexivity).
  split; [lia|split; [exact H2|split; [exact Hs|]]].
  destruct (search_finds_best keep keep words text_le unlogged text_le_total text_le_trans (txt "two four") 2 small_ready
    ltac:(lia) H2) as (response & E & _ & _ & _ & H).
  exists response. split; [exact E|].
  destruct (H Hs) as (score & omitted & _ & _ & _ & Hl & _); [vm_compute; discriminate|exact Hl].
Defined.

(** ** Paths that change their name *)

(** One leading [./] is removed each time a path is normalized, so an update that
    changes nothing renames a file, which its own path then no longer removes. *)
Definition renamed_once : SemanticIndex := (in_index [small_file "././a.ts" "x"] new_SemanticIndex).1.
Definition after_update (files : list RepoMapFile) (removed : list text) (st : SemanticIndex) : SemanticIndex :=
  match begin_update text_le files removed st with Ok (st, _) => st | Throw _ => st end.

Example update_renames_files :
  jm_keys (si_desiredFiles renamed_once) = [txt "./a.ts"] /\
  jm_keys (si_desiredFiles (after_update [] [] renamed_once)) = [txt "a.ts"] /\
  jm_keys (si_desiredFiles (after_update [] [txt "././a.ts"] (after_update [] [] renamed_once))) = [txt "a.ts"].
Proof. split_and!; vm_compute; reflexivity. Qed.
