(* ===== verification/ContextCompiler.v ===== *)
(** The context of a turn: packages/runtime/src/context.ts.

    What a model is told is compiled from the store and from the workspace: the
    sources are read, rendered as items, and compete for a budget through the
    planner.  The text is full UTF-16; what the store holds is widened to it. *)

From Stdlib Require Import ZArith NArith Lia Ascii.
From stdpp Require Import base strings list.
From S2P Require Import SemanticIndex.
From S2P Require Import Prelude JsNumber JsString JsCollections Protocol Json StateMachine.
From S2P Require Import StoreData StoreMonad StoreCore StoreRuns StoreTasks Provider RuntimeWorld.
From S2P Require Import JsText OcfValue Paths Git Planner.

Open Scope string_scope.
Open Scope list_scope.
#[local] Open Scope Z_scope.

(** ** Data *)

(** Source: packages/runtime/src/context.ts:27-32 [WorkspaceDiagnostic]. *)
Record WorkspaceDiagnostic := {
  wd_path : text;
  wd_line : num;
  wd_severity : text;
  wd_message : text }.

(** Source: packages/runtime/src/context.ts:42-49 [RunContextRequest]. *)
Record ContextRequest := {
  rq_activeTask : option Task;
  rq_agent : Agent;
  rq_inbox : list MessageRow;
  rq_mission : MissionRow;
  rq_run : Run }.

(** A message for the provider, whose content may be any text. *)
Record ContextMessage := {
  cm_role : RuntimeRole;
  cm_content : text;
  cm_toolCallId : option string }.

(** Source: packages/runtime/src/context.ts:51-56 [CompiledContext]. *)
Record CompiledRunContext := {
  cx_messages : list ContextMessage;
  cx_omitted : list text;
  cx_usedTokens : Z }.

(** Source: packages/runtime/src/context.ts:78-85 [WorkspaceView]. *)
Record WorkspaceView := {
  wv_diagnostics : list WorkspaceDiagnostic;
  wv_path : text;
  wv_repoMapText : option text;
  wv_semanticText : option text;
  wv_status : option GitStatus;
  wv_diff : option text }.

(** The options that are values.
    Source: packages/runtime/src/context.ts:62-76 [RunContextCompilerOptions]. *)
Record RunContextCompilerOptions := {
  ro_budgetTokens : option num;
  ro_maxRepoMapTokens : option num;
  ro_maxSemanticResults : option num;
  ro_maxTranscriptCharacters : option num;
  ro_maxTranscriptMessages : option num;
  ro_maxWorkspaceFiles : option num }.

(** Source: packages/runtime/src/context.ts:87-87 [DEFAULT_BUDGET_TOKENS]. *)
Definition DEFAULT_BUDGET_TOKENS : num := ofZ 12000.

(** ** Text *)

Definition line_feed : text := [JsText.newline].
Definition number (n : Z) : text := txt (num_string (ofZ n)).
Definition lines (l : list text) : text := join_with JsText.newline l.
(** [l.join(", ")] *)
Fixpoint commas (l : list text) : text :=
  match l with
  | [] => []
  | [x] => x
  | x :: rest => x ++ txt ", " ++ commas rest
  end.
(** [l.slice(-n)] and [l.slice(0, n)] *)
Definition slice_last {A} (n : nat) (l : list A) : list A := drop (length l - n) l.

(** Source: packages/runtime/src/context.ts:98-103 [stringifyForContext]. *)
Definition stringify_bounded (value : JsonValue) : text :=
  let encoded := txt (JSON_stringify value) in
  if Nat.leb (length encoded) 8000 then encoded
  else take 8000 encoded ++ line_feed ++ txt "[durable tool output truncated]".

Definition shared_briefing : string :=
  "Record durable evidence with record_evidence/record_validation; the completion gate re-audits the ledger and ignores any claim of being finished. A normal response never finishes the Run.".

(** Source: packages/runtime/src/context.ts:105-124 [roleBriefing]. *)
Definition roleBriefing (agent : Agent) : text :=
  let say (s : string) := txt s ++ txt shared_briefing in
  match ag_role (agent_row agent) with
  | Protocol.role_coordinator => say "You are the Ottili mission coordinator. Break the mission into durable tasks, delegate specialised work with delegate_task, and drive toward independently verifiable completion. "
  | Protocol.role_researcher => say "You are an Ottili research agent. Investigate the workspace and report findings to the coordinator. Do not change code. "
  | Protocol.role_implementer => say "You are an Ottili implementation agent. Make the smallest correct change that satisfies your task. "
  | Protocol.role_debugger => say "You are an Ottili debugging agent. Reproduce the failure first, then explain and fix its cause. "
  | Protocol.role_reviewer => say "You are an Ottili review agent. Review the change critically and independently; do not accept it because it was requested. "
  | Protocol.role_verifier => say "You are an Ottili verification agent. Re-derive whether the requirements are actually proven by the recorded evidence. "
  | _ => say "You are an Ottili specialist agent working one task of a larger mission. "
  end.

(** ** The transcript *)

(** The recent messages, from the last one back.
    Source: packages/runtime/src/context.ts:547-555 [trimMessages, loop]. *)
Fixpoint retain (maximumMessages maximumCharacters : num) (reversed retained : list ContextMessage)
  (characters : Z) : list ContextMessage :=
  match reversed with
  | [] => retained
  | message :: rest =>
      let size := Z.of_nat (length (cm_content message)) in
      if js_le maximumMessages (ofZ (Z.of_nat (length retained))) ||
         js_lt maximumCharacters (ofZ (characters + size))
      then retained
      else retain maximumMessages maximumCharacters rest (message :: retained) (characters + size)
  end.

(** [retained] is kept in its final order.
    Source: packages/runtime/src/context.ts:540-557 [trimMessages]. *)
Definition trimMessages (messages : list ContextMessage) (maximumMessages maximumCharacters : num)
  : list ContextMessage :=
  retain maximumMessages maximumCharacters (rev messages) [] 0.

Definition string_field (payload : JsonValue) (key : string) : option string :=
  match json_field payload key with Some (jstr s) => Some s | _ => None end.

(** The message an event leaves in the transcript.
    Source: packages/runtime/src/context.ts:496-530 [RunContextCompiler.transcript, event]. *)
Definition event_message (event : EventRow) : option ContextMessage :=
  let payload := ee_payload event in
  match ee_type event with
  | evt_steering_received =>
      (fun s => {| cm_role := role_user; cm_content := txt s; cm_toolCallId := None |}) <$>
        string_field payload "text"
  | evt_agent_message =>
      (fun s => {| cm_role := role_assistant; cm_content := txt s; cm_toolCallId := None |}) <$>
        string_field payload "text"
  | evt_tool_call_started =>
      (fun s => {| cm_role := role_assistant; cm_content := txt "Tool invoked: " ++ txt s ++ txt ".";
                   cm_toolCallId := None |}) <$> string_field payload "name"
  | evt_tool_call_finished =>
      (fun id => {| cm_role := role_tool;
                    cm_content := match json_field payload "output" with
                                  | None => txt "Tool finished without serializable output."
                                  | Some output => stringify_bounded output
                                  end;
                    cm_toolCallId := Some id |}) <$> string_field payload "toolCallId"
  | _ => None
  end.

(** ** What the store says *)

Section Compiler.
Context `{Env}.

(** Source: packages/control-plane/src/store.ts:803-810 [listContextSnapshots]. *)
Definition listContextSnapshots (runId : string) : M (list SnapshotRow) :=
  query (fun d => sort_by (created_then_id cs_created_at cs_id)
    (List.filter (fun s => cs_run_id s === runId) (context_snapshots d))).

(** Source: packages/control-plane/src/store.ts:849-856 [listMemoryEntries]. *)
Definition listMemoryEntries (runId : string) : M (list MemoryRow) :=
  query (fun d => sort_by (created_then_id me_created_at me_id)
    (List.filter (fun m => me_run_id m === runId) (memory_entries d))).

(** Source: packages/control-plane/src/store.ts:549-556 [listProblems]. *)
Definition listProblems (runId : string) : M (list ProblemRow) :=
  query (fun d => sort_by (created_then_id pb_created_at pb_id)
    (List.filter (fun p => pb_run_id p === runId) (problems d))).

(** The text of a run's budget, whose keys keep the order in which it was given. *)
Context (budget_text : RunBudget -> text).

Definition usage_json (usage : BudgetUsage) : JsonValue :=
  jobj [("inputTokens", jnum (inputTokens usage)); ("outputTokens", jnum (outputTokens usage));
        ("cachedTokens", jnum (cachedTokens usage)); ("costUsd", jnum (costUsd usage));
        ("wallTimeMs", jnum (wallTimeMs usage)); ("toolCalls", jnum (toolCalls usage));
        ("childAgents", jnum (childAgents usage))].

Definition RequirementStatus_str (status : RequirementStatus) : string :=
  match status with
  | rqs_contradicted => "contradicted" | rqs_proven => "proven"
  | rqs_unproven => "unproven" | rqs_waived => "waived"
  end.
Definition EvidenceKind_str (kind : EvidenceKind) : string :=
  match kind with
  | ek_artifact => "artifact" | ek_command => "command" | ek_inspection => "inspection"
  | ek_review => "review" | ek_test => "test"
  end.
Definition EvidenceStrength_str (strength : EvidenceStrength) : string :=
  match strength with es_strong => "strong" | es_supporting => "supporting" | es_weak => "weak" end.

(** An item with its id, its source and its content. *)
Definition item (id source : string) (content : text) (priority relevance : option num)
  (allowTruncate : option bool) : ContextItem :=
  {| ci_id := txt id; ci_source := txt source; ci_content := content; ci_priority := priority;
     ci_relevance := relevance; ci_required := None; ci_allowTruncate := allowTruncate; ci_maxTokens := None |}.

(** [n / 100] for the relevances of the code. *)
Definition percent (n : Z) : num := Fin (rnd (n * one_units / 100)).

Definition requirement_line (requirement : RequirementRecord) : text :=
  let row := req_row requirement in
  txt "- " ++ txt (rq_id row) ++ txt " [" ++ txt (RequirementStatus_str (rq_status row)) ++
  (if rq_required row then txt ", required" else txt ", optional") ++ txt "] " ++ txt (rq_title row) ++
  match req_evidence requirement with
  | [] => []
  | evidence => line_feed ++ txt "    evidence: " ++ commas (map (fun e =>
      txt (EvidenceKind_str (ed_kind e)) ++ txt "/" ++ txt (EvidenceStrength_str (ed_strength e))) evidence)
  end.

Definition active_task_text (activeTask : option Task) : text :=
  match activeTask with
  | None => txt "You own no task right now. Use plan_tasks to break the mission down, or take the next ready task."
  | Some task =>
      let row := task_row task in
      txt "Current task '" ++ txt (tk_title row) ++ txt "' (" ++ txt (tk_id row) ++ txt "): " ++
      txt (tk_description row) ++
      match tk_last_error row with
      | None => []
      | Some error => line_feed ++ txt "Previous attempt failed: " ++ txt error ++ txt " (attempt " ++
                      number (tk_attempt row) ++ txt ")"
      end
  end.

(** A run always has a budget, which may be empty.
    Source: packages/runtime/src/context.ts:168-225 [RunContextCompiler.fixedItems]. *)
Definition fixedItems (request : ContextRequest) : M (list ContextItem) :=
  let run := rq_run request in
  goal ← match run_currentGoalId run with None => mret None | Some goalId => getGoal goalId end;
  requirements ← listRequirements (run_id run);
  mret ([item "task.active" "task" (active_task_text (rq_activeTask request)) (Some (ofZ 10)) None None;
         item "run.state" "run_state"
           (txt "Run status: " ++ txt (RunStatus_str (run_status run)) ++ txt ". Agent role: " ++
            txt (AgentRole_str (ag_role (agent_row (rq_agent request)))) ++ txt ". Budget used: " ++
            txt (JSON_stringify (usage_json (run_usage run))) ++ txt " of " ++
            budget_text (run_budget run) ++ txt ".") (Some (ofZ 8)) None None] ++
        match goal with
        | None => []
        | Some goal =>
            [item "goal.active" "goal"
               (txt "Goal '" ++ txt (gl_title goal) ++ txt "': " ++ txt (gl_description goal) ++ txt " (" ++
                txt (GoalStatus_str (gl_status goal)) ++ txt ")") (Some (ofZ 9)) None None]
        end ++
        match requirements with
        | [] => []
        | _ =>
            [item "requirements" "validation"
               (txt "Requirements the completion gate will re-audit:" ++ line_feed ++
                lines (map requirement_line requirements)) (Some (ofZ 9)) None None]
        end).

Definition task_line (task : Task) : text :=
  let row := task_row task in
  txt "- " ++ txt (tk_id row) ++ txt " [" ++ txt (TaskStatus_str (tk_status row)) ++ txt "] " ++ txt (tk_title row) ++
  match task_dependencyIds task with
  | [] => []
  | dependencies => txt " (after " ++ commas (map txt dependencies) ++ txt ")"
  end ++
  match tk_owner_agent_id row with None => [] | Some owner => txt " owner=" ++ txt owner end.

Definition inbox_line (message : MessageRow) : text :=
  txt "- " ++ txt (StoredMessageKind_str (am_kind message)) ++ txt " from " ++
  txt (default "the run" (am_from_agent_id message)) ++ txt ": " ++ txt (JSON_stringify (am_body message)).

Definition status_line (entry : GitStatusEntry) : text :=
  txt "- " ++ st_indexStatus entry ++ st_worktreeStatus entry ++ txt " " ++ st_path entry.

Definition diagnostic_line (diagnostic : WorkspaceDiagnostic) : text :=
  txt "- " ++ wd_severity diagnostic ++ txt " " ++ wd_path diagnostic ++ txt ":" ++
  txt (num_string (wd_line diagnostic)) ++ txt " " ++ wd_message diagnostic.

(** The items of what was seen of the workspace.
    Source: packages/runtime/src/context.ts:318-383 [RunContextCompiler.candidateItems, workspace]. *)
Definition workspace_items (workspace : WorkspaceView) : list ContextItem :=
  match wv_status workspace with
  | None => []
  | Some status =>
      [item "git.status" "git"
         (txt "Git: branch " ++ default (txt "detached") (gs_branch status) ++ txt " at " ++
          default (txt "no commit") (gs_head status) ++ txt "." ++ line_feed ++
          match gs_entries status with
          | [] => txt "The working tree is clean."
          | entries => lines (map status_line (take 40 entries))
          end) (Some (ofZ 5)) (Some (percent 90)) (Some true)]
  end ++
  match wv_diff workspace with
  | None | Some [] => []
  | Some diff =>
      [{| ci_id := txt "git.diff"; ci_source := txt "git"; ci_content := txt "Uncommitted diff:" ++ line_feed ++ diff;
          ci_priority := None; ci_relevance := Some (percent 85); ci_required := None;
          ci_allowTruncate := Some true; ci_maxTokens := Some (ofZ 2000) |}]
  end ++
  match wv_diagnostics workspace with
  | [] => []
  | diagnostics =>
      [item "lsp.diagnostics" "lsp"
         (txt "Language server diagnostics:" ++ line_feed ++ lines (map diagnostic_line (take 40 diagnostics)))
         (Some (ofZ 5)) (Some (percent 90)) (Some true)]
  end ++
  match wv_semanticText workspace with
  | None => []
  | Some found => [item "semantic.matches" "semantic" found None (Some (percent 80)) (Some true)]
  end ++
  match wv_repoMapText workspace with
  | None => []
  | Some map => [item "repo.map" "repo_map" (txt "Repository map:" ++ line_feed ++ map) None (Some (percent 60)) (Some true)]
  end.

Definition memory_item (entry : MemoryRow) : ContextItem :=
  {| ci_id := txt "memory." ++ txt (me_id entry); ci_source := txt "memory";
     ci_content := txt "Durable memory: " ++ txt (me_content entry); ci_priority := None;
     ci_relevance := Some (me_confidence entry); ci_required := None; ci_allowTruncate := None;
     ci_maxTokens := None |}.

(** An item for a list, unless the list is empty. *)
Definition listed {A} (l : list A) (make : list A -> ContextItem) : list ContextItem :=
  match l with [] => [] | _ => [make l] end.

(** Source: packages/runtime/src/context.ts:228-385 [RunContextCompiler.candidateItems]. *)
Definition candidateItems (request : ContextRequest) (workspace : option WorkspaceView) : M (list ContextItem) :=
  let runId := run_id (rq_run request) in
  tasks ← listTasks runId {| lt_ownerAgentId := None; lt_status := [] |};
  validations ← listValidations runId;
  snapshots ← listContextSnapshots runId;
  memories ← listMemoryEntries runId;
  problems ← listProblems runId;
  mret (listed tasks (fun tasks =>
          item "task.graph" "task" (txt "Task graph:" ++ line_feed ++ lines (map task_line tasks))
            None (Some (percent 95)) (Some true)) ++
        listed (rq_inbox request) (fun inbox =>
          item "agent.inbox" "run_state" (txt "Messages addressed to you:" ++ line_feed ++ lines (map inbox_line inbox))
            (Some (ofZ 7)) (Some (ofZ 1)) None) ++
        listed (slice_last 5 (List.filter (fun v => vd_status v !== vs_passed) validations)) (fun failing =>
          item "validation.failing" "validation"
            (txt "Failing validations that still block completion:" ++ line_feed ++
             lines (map (fun v => txt "- " ++ txt (vd_name v) ++ txt ": " ++ txt (vd_summary v)) failing))
            (Some (ofZ 6)) (Some (ofZ 1)) None) ++
        match last snapshots with
        | None => []
        | Some snapshot =>
            [item "context.snapshot" "run_state" (txt "Prior context checkpoint:" ++ line_feed ++ txt (cs_summary snapshot))
               None (Some (percent 80)) (Some true)]
        end ++
        map memory_item (slice_last 8 (List.filter (fun m => js_le half (me_confidence m)) memories)) ++
        listed (slice_last 5 (List.filter (fun p => pb_status p !== prs_resolved) problems)) (fun open =>
          item "problems" "run_state"
            (txt "Open problems:" ++ line_feed ++ lines (map (fun p => txt "- " ++ txt (pb_summary p)) open))
            None (Some (percent 85)) None) ++
        match workspace with None => [] | Some workspace => workspace_items workspace end).

(** Source: packages/runtime/src/context.ts:494-536 [RunContextCompiler.transcript]. *)
Definition transcript (options : RunContextCompilerOptions) (runId : string) : M (list ContextMessage) :=
  events ← listEvents runId 0;
  mret (trimMessages (omap event_message events)
          (default (ofZ 48) (ro_maxTranscriptMessages options))
          (default (ofZ 48000) (ro_maxTranscriptCharacters options))).

Definition reason_text (reason : omission_reason) : text :=
  match reason with budget_exhausted => txt "budget_exhausted" | item_too_large => txt "item_too_large" end.

(** [left.localeCompare(right) <= 0] *)
Context (localeCompare_le : text -> text -> bool).

(** The context, once the workspace has been read; the planner may throw.
    Source: packages/runtime/src/context.ts:148-165 [RunContextCompiler.compile]. *)
Definition compile_context (options : RunContextCompilerOptions) (request : ContextRequest)
  (workspace : option WorkspaceView) : M (result context_fault CompiledRunContext) :=
  candidates ← candidateItems request workspace;
  fixed ← fixedItems request;
  match planContext localeCompare_le
          {| cpi_budgetTokens := default DEFAULT_BUDGET_TOKENS (ro_budgetTokens options);
             cpi_fixed := fixed; cpi_candidates := candidates; cpi_items := [] |} with
  | Throw error => mret (Throw error)
  | Ok plan =>
      history ← transcript options (run_id (rq_run request));
      mret (Ok {| cx_messages :=
                    [{| cm_role := role_system; cm_content := roleBriefing (rq_agent request); cm_toolCallId := None |};
                     {| cm_role := role_user; cm_content := txt (ms_prompt (rq_mission request)); cm_toolCallId := None |};
                     {| cm_role := role_system; cm_content := cp_text plan; cm_toolCallId := None |}] ++ history;
                  cx_omitted := map (fun o => oi_source o ++ txt ":" ++ reason_text (oi_reason o)) (cp_omitted plan);
                  cx_usedTokens := cp_usedTokens plan |})
  end.
End Compiler.

(** ** What is seen of the workspace *)

Record SemanticMatch := { sm_path : text; sm_startLine : num; sm_endLine : num; sm_text : text }.

Section Workspace.
Context {Outside : Type}.

(** What the compiler was made with: Git, the reader of files, the map, the index
    and the language servers. *)
Record WorkspacePorts := {
  wp_fileURLToPath : text -> option text;
  wp_isRepository : text -> act Outside bool;
  wp_getStatus : text -> act Outside GitStatus;
  wp_getDiff : text -> act Outside text;
  wp_readRepositoryFiles : text -> num -> act Outside (list RepoMapFile);
  wp_buildMap : list RepoMapFile -> list text -> num -> text -> act Outside text;
  wp_indexFiles : list RepoMapFile -> act Outside unit;
  wp_search : text -> num -> act Outside (list SemanticMatch);
  wp_diagnostics : option (text -> act Outside (list WorkspaceDiagnostic)) }.
Context (ports : WorkspacePorts) (options : RunContextCompilerOptions).

(** The fingerprints of the workspaces that were indexed, and the outside. *)
Definition compiler_world : Type := jsmap text text * Outside.
Definition port {A} (m : act Outside A) : act compiler_world A := fun w =>
  let '(o, r) := m w.2 in ((w.1, o), r).

(** Source: packages/runtime/src/context.ts:89-96 [workspacePathOf]. *)
Definition workspacePathOf (mission : MissionRow) : option text :=
  let uri := txt (ms_workspace_uri mission) in
  if has_prefix (txt "file:") uri then wp_fileURLToPath ports uri else None.

(** Source: packages/runtime/src/context.ts:448-459 [RunContextCompiler.readSourceFiles]. *)
Definition readSourceFiles (workspacePath : text) : act compiler_world (list RepoMapFile) :=
  act_catch (port (wp_readRepositoryFiles ports workspacePath (default (ofZ 600) (ro_maxWorkspaceFiles options))))
    (fun _ => mret []).

Definition fingerprint_of (files : list RepoMapFile) : text :=
  number (Z.of_nat (length files)) ++ txt ":" ++
  join_with (ch "|") (map (fun file => rf_path file ++ txt ":" ++ number (Z.of_nat (length (rf_content file)))) files).

Definition known_fingerprint (workspacePath : text) : act compiler_world (option text) := fun w =>
  (w, Ok (jm_get w.1 workspacePath)).
Definition set_fingerprint (workspacePath fingerprint : text) : act compiler_world unit := fun w =>
  ((jm_set w.1 workspacePath fingerprint, w.2), Ok tt).

(** Source: packages/runtime/src/context.ts:461-488 [RunContextCompiler.searchSemanticIndex]. *)
Definition searchSemanticIndex (workspacePath : text) (files : list RepoMapFile) (query : text)
  : act compiler_world (option text) :=
  if Git.trim query === [] then mret None
  else
    let fingerprint := fingerprint_of files in
    act_catch
      (known ← known_fingerprint workspacePath;
       _ ← (if known === Some fingerprint then mret tt
            else _ ← port (wp_indexFiles ports files); set_fingerprint workspacePath fingerprint);
       results ← port (wp_search ports query (default (ofZ 5) (ro_maxSemanticResults options)));
       mret (match results with
             | [] => None
             | _ => Some (txt "Semantically relevant code:" ++ line_feed ++
                      lines (map (fun result =>
                        txt "--- " ++ sm_path result ++ txt ":" ++ txt (num_string (sm_startLine result)) ++ txt "-" ++
                        txt (num_string (sm_endLine result)) ++ line_feed ++ sm_text result) results))
             end))
      (fun _ => mret None).

(** [.join(" ")] of the parts that are there. *)
Definition context_query (request : ContextRequest) : text :=
  join_with (ch " ")
    (match rq_activeTask request with
     | None => []
     | Some task => [txt (tk_title (task_row task)); txt (tk_description (task_row task))]
     end ++ [txt (ms_prompt (rq_mission request))]).

(** A status that was read is kept only if the diff is read too.
    Source: packages/runtime/src/context.ts:391-446 [RunContextCompiler.readWorkspace]. *)
Definition readWorkspace (request : ContextRequest) : act compiler_world (option WorkspaceView) :=
  match workspacePathOf (rq_mission request) with
  | None => mret None
  | Some path =>
      '(status, diff) ← act_catch
        (isRepository ← port (wp_isRepository ports path);
         if (isRepository : bool) then
           status ← port (wp_getStatus ports path);
           diff ← port (wp_getDiff ports path);
           mret (Some status, Some diff)
         else mret (None, None))
        (fun _ => mret (None, None));
      files ← readSourceFiles path;
      let query := context_query request in
      '(repoMapText, semanticText) ← match files with
        | [] => mret (None, None)
        | _ =>
            repoMapText ← act_catch
              (map ← port (wp_buildMap ports files
                 (match status with Some s => map st_path (gs_entries s) | None => [] end)
                 (default (ofZ 1500) (ro_maxRepoMapTokens options)) query);
               mret (Some map))
              (fun _ => mret None);
            semanticText ← searchSemanticIndex path files query;
            mret (repoMapText, semanticText)
        end;
      diagnostics ← match wp_diagnostics ports with
        | None => mret []
        | Some diagnostics => act_catch (port (diagnostics path)) (fun _ => mret [])
        end;
      mret (Some {| wv_diagnostics := diagnostics; wv_path := path; wv_repoMapText := repoMapText;
                    wv_semanticText := semanticText; wv_status := status; wv_diff := diff |})
  end.
End Workspace.
