(* ===== verification/ContextFacts.v ===== *)
(** What the context compiler promises: the theorems about ContextCompiler.v. *)

From Stdlib Require Import ZArith NArith Lia Ascii.
From stdpp Require Import base strings list relations.
From S2P Require Import SemanticIndex.
From S2P Require Import Prelude JsNumber JsString JsCollections Protocol Json StateMachine.
From S2P Require Import StoreData StoreMonad StoreCore StoreRuns StoreTasks StoreEffects StoreCommands.
From S2P Require Import StoreSafety Provider RuntimeWorld.
From S2P Require Import JsText OcfValue Paths Git Planner PlannerFacts ContextCompiler.

Open Scope string_scope.
Open Scope list_scope.
#[local] Open Scope Z_scope.

(** ** The transcript keeps the newest messages *)

Definition characters (messages : list ContextMessage) : Z :=
  foldr (fun m n => Z.of_nat (length (cm_content m)) + n) 0 messages.

(** A message more would not fit. *)
Definition full (maximumMessages maximumCharacters : Z) (kept : list ContextMessage) (next : ContextMessage) : Prop :=
  Z.of_nat (length kept) = maximumMessages \/ maximumCharacters < characters (next :: kept).

Lemma retain_longest maximumMessages maximumCharacters reversed kept : 
  Z.of_nat (length kept) <= maximumMessages -> characters kept <= maximumCharacters ->
  let result := retain (ofZ maximumMessages) (ofZ maximumCharacters) reversed kept (characters kept) in
  Z.of_nat (length result) <= maximumMessages /\ characters result <= maximumCharacters /\
  exists taken dropped, reversed = taken ++ dropped /\ result = rev taken ++ kept /\
    forall next, head dropped = Some next -> full maximumMessages maximumCharacters result next.
Proof.
  revert kept. induction reversed as [|m reversed IH]; intros kept Hl Hc; cbn [retain].
  { split; [done|split; [done|]]. by exists [], []. }
  rewrite js_le_ofZ, js_lt_ofZ.
  destruct (Z.leb_spec maximumMessages (Z.of_nat (length kept))) as [H1|H1]; cbn [orb].
  { split; [done|split; [done|]]. exists [], (m :: reversed). split; [done|split; [done|]].
    intros next [= <-]. left. lia. }
  destruct (Z.ltb_spec maximumCharacters (characters kept + Z.of_nat (length (cm_content m)))) as [H2|H2].
  { split; [done|split; [done|]]. exists [], (m :: reversed). split; [done|split; [done|]].
    intros next [= <-]. right. cbn. fold (characters kept). lia. }
  replace (characters kept + Z.of_nat (length (cm_content m))) with (characters (m :: kept)) by (cbn; fold (characters kept); lia).
  destruct (IH (m :: kept)) as (Hl' & Hc' & taken & dropped & -> & Hr & Hf);
    [cbn [length]; lia|cbn; fold (characters kept); lia|].
  split; [done|split; [done|]]. exists (m :: taken), dropped. split; [done|]. split; [|done].
  rewrite Hr. cbn [rev]. by rewrite <- app_assoc.
Qed.

Lemma last_rev {A} (l : list A) : last (rev l) = head l.
Proof. destruct l as [|x l]; [done|]. cbn [rev]. apply last_snoc. Qed.

(** The transcript is the longest end of the conversation that is within both
    limits: the newest messages are kept, in their order and without a gap, as
    long as their number and their characters fit, and the next older one would
    exceed a limit. *)
Theorem trimMessages_longest messages maximumMessages maximumCharacters :
  0 <= maximumMessages -> 0 <= maximumCharacters ->
  let kept := trimMessages messages (ofZ maximumMessages) (ofZ maximumCharacters) in
  Z.of_nat (length kept) <= maximumMessages /\ characters kept <= maximumCharacters /\
  exists dropped, messages = dropped ++ kept /\
    forall next, last dropped = Some next -> full maximumMessages maximumCharacters kept next.
Proof.
  intros Hm Hc. unfold trimMessages.
  destruct (retain_longest maximumMessages maximumCharacters (rev messages) []) as (H1 & H2 & taken & dropped & Hr & Hk & Hf);
    [cbn; lia|cbn; lia|].
  cbn [characters foldr] in *. split; [done|split; [done|]]. exists (rev dropped). split.
  - rewrite Hk, app_nil_r, <- rev_app_distr, <- Hr. by rewrite rev_involutive.
  - intros next. rewrite last_rev. apply Hf.
Qed.

(** ** Nothing about the workspace ends a turn *)

Section Tolerance.
Context {Outside : Type} (ports : WorkspacePorts (Outside := Outside)) (options : RunContextCompilerOptions).

(** An operation that returns such a value, whatever happens outside. *)
Definition returns {A} (Q : A -> Prop) (m : act (compiler_world (Outside := Outside)) A) : Prop :=
  forall w, exists w' a, m w = (w', Ok a) /\ Q a.

Lemma returns_ret {A} (Q : A -> Prop) (a : A) : Q a -> returns Q (mret a).
Proof. intros Ha w. by exists w, a. Qed.
Lemma returns_bind {A B} (Q : B -> Prop) (m : act _ A) (f : A -> act _ B) :
  returns (fun _ => True) m -> (forall a, returns Q (f a)) -> returns Q (m ≫= f).
Proof.
  intros Hm Hf w. destruct (Hm w) as (w1 & a & E & _). destruct (Hf a w1) as (w2 & b & E2 & Hb). exists w2, b.
  unfold mbind, act_bind. by rewrite E.
Qed.
Lemma returns_catch {A} (m : act _ A) handler :
  (forall e, returns (fun _ => True) (handler e)) -> returns (fun _ => True) (act_catch m handler).
Proof.
  intros Hh w. unfold act_catch. destruct (m w) as [w1 [a|e]]; [by exists w1, a|]. apply Hh.
Qed.

(** Whatever the workspace does to a turn, its context is compiled: when Git,
    the file walk, the repository map, the semantic index or a language server
    fails, what it would have said is left out, and reading the workspace returns
    a view, unless the mission's workspace is no path at all. *)
Theorem readWorkspace_tolerates request w : exists w' view,
  readWorkspace ports options request w = (w', Ok view) /\
  (view = None <-> workspacePathOf ports (rq_mission request) = None).
Proof.
  revert w. change (returns (fun view => view = None <-> workspacePathOf ports (rq_mission request) = None)
    (readWorkspace ports options request)).
  unfold readWorkspace, searchSemanticIndex, readSourceFiles. cbv zeta.
  destruct (workspacePathOf ports (rq_mission request)) as [path|]; [|by apply returns_ret].
  repeat lazymatch goal with
  | |- returns _ (mbind _ _) => apply returns_bind; [|intros ?]
  | |- returns _ (mret _) => by apply returns_ret
  | |- returns _ (act_catch _ _) => apply returns_catch; intros ?
  | |- returns _ (match ?x with _ => _ end) => destruct x
  end.
Qed.
End Tolerance.

(** ** The planner accepts every context *)

(** What the planner requires of an item, whatever its content is. *)
Definition acceptable (i : ContextItem) : bool :=
  negb (Git.trim (ci_id i) === []) && negb (Git.trim (ci_source i) === []) &&
  isFinite (default (ofZ 0) (ci_priority i)) &&
  isFinite (default half (ci_relevance i)) && negb (js_lt (default half (ci_relevance i)) (ofZ 0)) &&
  negb (js_lt (ofZ 1) (default half (ci_relevance i))) &&
  match ci_maxTokens i with None => true | Some n => isSafeInteger n && negb (js_lt n (ofZ 0)) end.

Lemma normalizeItem_acceptable force i : acceptable i = true -> exists n, normalizeItem force i = Ok n.
Proof.
  unfold acceptable. rewrite !andb_true_iff, !negb_true_iff. intros [[[[[[H1 H2] H3] H4] H5] H6] H7].
  unfold normalizeItem. rewrite H1, H2, H3, H4, H5, H6. cbn [throw_if negb orb mbind result_bind].
  destruct (ci_maxTokens i) as [n|]; [|by eexists].
  apply andb_true_iff in H7 as [H7 H8]. apply negb_true_iff in H8.
  unfold validateBudget. rewrite H7, H8. by eexists.
Qed.

Lemma normalize_all force l : Forall (fun i => acceptable i = true) l ->
  exists ns, mapM (normalizeItem force) l = Ok ns.
Proof.
  induction 1 as [|i l Hi _ (ns & IH)]; [by exists []|]. destruct (normalizeItem_acceptable force i Hi) as [n Hn].
  exists (n :: ns). cbn. rewrite Hn. cbn. by rewrite IH.
Qed.

(** The memories of the store: confidences within [0, 1], and ids that differ. *)
Definition confidence_ok (confidence : num) : bool :=
  isFinite confidence && negb (js_lt confidence (ofZ 0)) && negb (js_lt (ofZ 1) confidence).
Definition memories_ok (d : Db) : Prop :=
  Forall (fun m => confidence_ok (me_confidence m) = true) (memory_entries d) /\
  NoDup (map me_id (memory_entries d)).

Section Memories.
Context `{Env}.

Lemma memories_insert row d : confidence_ok (me_confidence row) = true -> memories_ok d ->
  existsb (fun b => me_id row === me_id b) (memory_entries d) = false ->
  memories_ok (set_memory_entries (memory_entries d ++ [row]) d).
Proof.
  intros Hc [Hall Hn] Hf. split; cbn [memory_entries set_memory_entries].
  - apply Forall_app. split; [done|]. by apply Forall_singleton.
  - rewrite map_app. apply NoDup_app. split; [done|]. split; [|apply NoDup_singleton].
    intros id Hid ->%list_elem_of_singleton. apply list_elem_of_fmap in Hid as (m & Em & Hm).
    rewrite existsb_false in Hf. specialize (Hf m Hm). cbn beta in Hf. apply bool_decide_eq_false in Hf. congruence.
Qed.

Lemma memories_add agentId lease confidence content runId scope sourceEvidenceIds :
  preserves memories_ok (addMemoryEntry agentId lease confidence content runId scope sourceEvidenceIds).
Proof.
  unfold addMemoryEntry.
  destruct (negb (isFinite confidence) || js_lt confidence (ofZ 0) || js_lt (ofZ 1) confidence) eqn:E.
  { intros s Hs. exact Hs. }
  assert (confidence_ok confidence = true) as Hc.
  { unfold confidence_ok. by rewrite !orb_false_iff, negb_false_iff in E; destruct E as [[-> ->] ->]. }
  frame ltac:(first
    [ lazymatch goal with
      | |- preserves _ (insert_row memory_entries _ _ _ _ _) =>
          apply preserves_insert; intros ? ? ? ?; by apply memories_insert
      end
    | frame_read | frame_unfold ]).
Qed.

Lemma memories_command c : preserves memories_ok (run_command c).
Proof.
  destruct c; try (apply preserves_bind; [apply memories_add|intros; apply preserves_ret]).
  all: frame_command ltac:(first [frame_read]).
Qed.
End Memories.

Lemma planContext_total localeCompare_le input :
  isSafeInteger (cpi_budgetTokens input) = true -> js_lt (cpi_budgetTokens input) (ofZ 0) = false ->
  Forall (fun i => acceptable i = true) (all_items input) -> NoDup (map ci_id (all_items input)) ->
  exists p, planContext localeCompare_le input = Ok p /\ cp_usedTokens p <= toZ (cpi_budgetTokens input).
Proof.
  intros Hs Hl [Hf Hc]%Forall_app Hn.
  destruct (normalize_all true _ Hf) as [fixed Ef], (normalize_all false _ Hc) as [candidates Ec].
  destruct (planContext localeCompare_le input) as [p|e] eqn:E.
  - exists p. split; [done|]. apply planContext_ok in E as (fs & cs & _ & _ & _ & _ & Eb & [Hu _ _] & Ep).
    rewrite <- Eb, Ep. cbn. lia.
  - exfalso. unfold planContext in E. unfold validateBudget in E. rewrite Hs, Hl in E. cbn [negb orb mbind result_bind] in E.
    rewrite Ef, Ec in E. cbn [mbind result_bind] in E.
    assert (check_duplicates [] (fixed ++ candidates) = Ok tt) as Hd.
    { apply check_duplicates_ok. split; [apply Forall_forall; intros ? _; apply not_elem_of_nil|].
      apply normalized_ids in Ef as [Ef _], Ec as [Ec _]. rewrite map_app, Ef, Ec, <- map_app. exact Hn. }
    rewrite Hd in E. cbn [mbind result_bind] in E. by destruct (correct _ _ _).
Qed.

(** ** The items of a turn *)

#[local] Abbreviation acceptables := (Forall (fun i => acceptable i = true)).

Lemma acceptable_item id source content priority relevance allowTruncate :
  acceptable (item id source [] priority relevance allowTruncate) = true ->
  acceptable (item id source content priority relevance allowTruncate) = true.
Proof. done. Qed.

Lemma acceptables_listed {A} (l : list A) make : (forall l, acceptable (make l) = true) -> acceptables (listed l make).
Proof. intros Hm. destruct l; [constructor|]. apply Forall_cons. split; [apply Hm|constructor]. Qed.
Lemma ids_listed {A} id (l : list A) make : (forall l, ci_id (make l) = id) ->
  map ci_id (listed l make) `sublist_of` [id].
Proof. intros Hm. destruct l; cbn; [repeat constructor|]. rewrite Hm. done. Qed.

(** Decides whether an item with a constant id, source, priority and relevance is acceptable. *)
Ltac constant_item := apply acceptable_item; vm_compute; reflexivity.
Ltac optional_items :=
  repeat lazymatch goal with
  | |- acceptables (_ ++ _) => apply Forall_app; split
  | |- acceptables (listed _ _) => apply acceptables_listed; intros ?
  | |- acceptables (match ?x with _ => _ end) => destruct x
  | |- acceptables (_ :: _) => apply Forall_cons; split
  | |- acceptables [] => constructor
  | |- acceptable (item _ _ _ _ _ _) = true => constant_item
  end.
Ltac optional_ids :=
  repeat lazymatch goal with
  | |- map ci_id (_ ++ _) `sublist_of` _ => rewrite map_app; apply (sublist_app _ [_])
  | |- map ci_id (listed _ _) `sublist_of` _ => by apply ids_listed
  | |- map ci_id (match ?x with _ => _ end) `sublist_of` _ => destruct x
  | |- map ci_id [] `sublist_of` _ => apply sublist_nil_l
  | |- map ci_id [_] `sublist_of` _ => reflexivity
  end.

Definition fixed_ids : list text := map txt ["task.active"; "run.state"; "goal.active"; "requirements"].
Definition before_memory : list text := map txt ["task.graph"; "agent.inbox"; "validation.failing"; "context.snapshot"].
Definition after_memory : list text :=
  map txt ["problems"; "git.status"; "git.diff"; "lsp.diagnostics"; "semantic.matches"; "repo.map"].

Lemma workspace_acceptable workspace : acceptables (workspace_items workspace).
Proof. unfold workspace_items. optional_items. by vm_compute. Qed.
Lemma workspace_ids workspace : map ci_id (workspace_items workspace) `sublist_of` tail after_memory.
Proof.
  unfold workspace_items, after_memory. cbn [map tail]. optional_ids.
Qed.

Lemma trim_head s : match s with c :: _ => is_space c = false | [] => False end -> Git.trim s <> [].
Proof.
  destruct s as [|c r]; [done|]. intros Hc. unfold Git.trim, drop_end. cbn [drop_while]. rewrite Hc.
  intros E. apply (f_equal (@rev _)) in E. rewrite rev_involutive in E. cbn [rev] in E.
  assert (forall t, drop_while is_space (t ++ [c]) <> []) as Hd; [|by apply (Hd (rev r))].
  clear -Hc. induction t as [|x t IH]; cbn [app drop_while]; [by rewrite Hc|]. by destruct (is_space x).
Qed.

Lemma memory_acceptable m : confidence_ok (me_confidence m) = true -> acceptable (memory_item m) = true.
Proof.
  unfold confidence_ok, acceptable. rewrite !andb_true_iff. intros [[H1 H2] H3].
  assert ((Git.trim (ci_id (memory_item m)) === []) = false) as ->.
  { apply bool_decide_eq_false, trim_head. by vm_compute. }
  assert ((Git.trim (ci_source (memory_item m)) === []) = false) as -> by (vm_compute; reflexivity).
  cbn [memory_item ci_priority ci_relevance ci_maxTokens default from_option]. cbn [id].
  rewrite H1, H2, H3. split_and!; vm_compute; reflexivity.
Qed.

Lemma txt_inj a b : txt a = txt b -> a = b.
Proof.
  intros E. apply units_inj. revert E. unfold txt. generalize (units a) (units b).
  induction l as [|x l IH]; intros [|y l']; cbn [map]; try done. intros [= Ex El].
  apply IH in El as ->. f_equal. rewrite <- (ascii_N_embedding x), <- (ascii_N_embedding y). by f_equal.
Qed.

(** The memories that are shown, of those of the store. *)
Lemma shown_memories d n p runId : memories_ok d ->
  let shown := slice_last n (List.filter p (sort_by (created_then_id me_created_at me_id)
    (List.filter (fun m => me_run_id m === runId) (memory_entries d)))) in
  acceptables (map memory_item shown) /\ NoDup (map ci_id (map memory_item shown)).
Proof.
  intros [Hall Hn]. cbv zeta. unfold slice_last.
  set (sorted := sort_by _ _). assert (Forall (fun m => confidence_ok (me_confidence m) = true) sorted /\
    NoDup (map me_id sorted)) as [Hs Hs'].
  { subst sorted. split.
    - rewrite Forall_forall in *. intros m [Hm _]%sort_by_elem%elem_of_list_filter. by apply Hall.
    - rewrite sort_by_Permutation. by apply NoDup_map_filter. }
  generalize (length (List.filter p sorted) - n)%nat as k. intros k. split.
  - apply Forall_map, Forall_drop, Forall_forall. intros m [Hm _]%elem_of_list_filter.
    apply memory_acceptable. rewrite Forall_forall in Hs. by apply Hs.
  - rewrite map_map. apply (NoDup_map_filter _ p) in Hs'. rewrite <- (take_drop k (List.filter p sorted)), map_app in Hs'.
    apply NoDup_app in Hs' as (_ & _ & Hs').
    assert (Inj (=) (=) (fun i => txt "memory." ++ txt i)) as Hinj by (intros a b E%app_inv_head; by apply txt_inj).
    apply (NoDup_fmap_2 _) in Hs'.
    change (fmap ?f (map me_id ?l)) with (map f (map me_id l)) in Hs'. rewrite map_map in Hs'. exact Hs'.
Qed.

Section Turn.
Context `{Env} (budget_text : RunBudget -> text) (localeCompare_le : text -> text -> bool).

Lemma fixed_items request s : exists items, fixedItems budget_text request s = (s, Ok items) /\
  acceptables items /\ map ci_id items `sublist_of` fixed_ids.
Proof.
  unfold fixedItems. cbv zeta. destruct (run_currentGoalId (rq_run request)) as [g|];
    (eexists; split; [reflexivity|]; split; [optional_items|]).
  all: rewrite map_app; apply (sublist_app _ [_; _]); [reflexivity|].
  all: optional_ids.
Qed.

(** The candidates: the memories between the items with constant ids. *)
Lemma candidate_items request workspace s : memories_ok (db s) -> exists items,
  candidateItems request workspace s = (s, Ok items) /\ acceptables items /\
  exists before memories after, map ci_id items = before ++ memories ++ after /\
    before `sublist_of` before_memory /\ after `sublist_of` after_memory /\
    NoDup memories /\ forall id, id ∈ memories -> has_prefix (txt "memory.") id = true.
Proof.
  intros Hm. eexists. split; [reflexivity|]. cbv beta.
  destruct (shown_memories (db s) 8 (fun m => js_le half (me_confidence m)) (run_id (rq_run request)) Hm) as [Ha Hn].
  split.
  - optional_items; [exact Ha|apply workspace_acceptable].
  - rewrite !map_app. rewrite 3!app_assoc. eexists _, _, _. split; [reflexivity|]. split; [|split; [|split; [exact Hn|]]].
    + rewrite <- !app_assoc. unfold before_memory. cbn [map].
      rewrite <- !map_app. optional_ids.
    + rewrite <- map_app. optional_ids. apply workspace_ids.
    + intros id (i & -> & (m & -> & _)%list_elem_of_fmap)%list_elem_of_fmap. reflexivity.
Qed.

Lemma ids_differ fixed before memories after :
  fixed `sublist_of` fixed_ids -> before `sublist_of` before_memory -> after `sublist_of` after_memory ->
  NoDup memories -> (forall id, id ∈ memories -> has_prefix (txt "memory.") id = true) ->
  NoDup (fixed ++ before ++ memories ++ after).
Proof.
  intros Hf Hb Ha Hn Hm.
  assert (NoDup (fixed_ids ++ before_memory ++ after_memory)) as Hc
    by (apply (bool_decide_unpack _); vm_compute; reflexivity).
  assert (Forall (fun id => has_prefix (txt "memory.") id = false) (fixed_ids ++ before_memory ++ after_memory)) as Hp
    by (apply (bool_decide_unpack _); vm_compute; reflexivity).
  pose proof (sublist_app _ _ _ _ Hf (sublist_app _ _ _ _ Hb Ha)) as Hs.
  apply (fun d => sublist_NoDup _ _ d Hs) in Hc.
  assert (forall id, id ∈ memories -> id ∉ fixed ++ before ++ after) as Hd.
  { intros id Hi Hi'. rewrite Forall_forall in Hp. specialize (Hm id Hi).
    rewrite (Hp id) in Hm; [done|]. by eapply elem_of_sublist. }
  rewrite (Permutation_app_comm memories after), !app_assoc. apply NoDup_app. rewrite <- app_assoc.
  split; [done|split; [|done]]. intros id Hi Hi'. by apply (Hd id Hi').
Qed.

(** C16: Every turn has a context: in a store reached by commands, whatever was
    recorded in it and whatever was seen of the workspace, and with a budget of
    tokens that is a non-negative safe integer (the default is one), the items of a turn are
    acceptable to the planner and their ids differ, so compiling the context leaves
    the store as it is and returns one within the budget: the briefing of the role,
    the mission's prompt, the planned text, whose tokens are counted, and the
    transcript. *)
Theorem context_always_compiles options request workspace s s' :
  let budget := default DEFAULT_BUDGET_TOKENS (ro_budgetTokens options) in
  memories_ok (db s) -> rtc store_step s s' -> isSafeInteger budget = true -> js_lt budget (ofZ 0) = false ->
  exists compiled planned history,
    compile_context budget_text localeCompare_le options request workspace s' = (s', Ok (Ok compiled)) /\
    transcript options (run_id (rq_run request)) s' = (s', Ok history) /\
    map cm_content (cx_messages compiled) =
      [roleBriefing (rq_agent request); txt (ms_prompt (rq_mission request)); planned] ++ map cm_content history /\
    cx_usedTokens compiled = estimateTokens planned /\ estimateTokens planned <= toZ budget.
Proof.
  intros budget Hm Hr Hs Hl.
  apply (steps_preserve memories_ok s s' (fun c _ => memories_command c) Hr) in Hm.
  destruct (candidate_items request workspace s' Hm) as (candidates & Ec & Hc & before & memories & after & Ei & Hb & Ha & Hn & Hp).
  destruct (fixed_items request s') as (fixed & Ef & Hf & Hi).
  set (input := {| cpi_budgetTokens := budget; cpi_fixed := fixed; cpi_candidates := candidates; cpi_items := [] |}).
  destruct (planContext_total localeCompare_le input Hs Hl) as (p & Ep & Hu).
  - unfold all_items. cbn. rewrite app_nil_r. by apply Forall_app.
  - unfold all_items. cbn. rewrite app_nil_r, map_app, Ei. by apply ids_differ.
  - do 3 eexists. unfold compile_context, mbind, M_bind. rewrite Ec, Ef.
    fold budget input. rewrite Ep. cbn [transcript].
    split; [reflexivity|]. split; [reflexivity|]. split; [reflexivity|].
    apply planContext_ok in Ep as (fs & cs & _ & _ & _ & _ & _ & _ & Ep). cbn [cx_usedTokens].
    assert (cp_usedTokens p = estimateTokens (cp_text p)) as Eu by (rewrite Ep; reflexivity).
    change (cp_usedTokens p = estimateTokens (cp_text p) /\ estimateTokens (cp_text p) <= toZ budget). by rewrite <- Eu.
Qed.
End Turn.

(** ** Concrete turns *)

Definition told (s : string) : ContextMessage := {| cm_role := role_user; cm_content := txt s; cm_toolCallId := None |}.

Lemma trimMessages_longest_witness :
  0 <= 2 /\ 0 <= 6 /\
  map cm_content (trimMessages (map told ["abc"; "de"; "f"]) (ofZ 2) (ofZ 6)) = [txt "de"; txt "f"] /\
  exists dropped, map told ["abc"; "de"; "f"] =
    dropped ++ trimMessages (map told ["abc"; "de"; "f"]) (ofZ 2) (ofZ 6).
Proof.
  split; [lia|split; [lia|split; [vm_compute; reflexivity|]]].
  destruct (trimMessages_longest (map told ["abc"; "de"; "f"]) 2 6 ltac:(lia) ltac:(lia)) as (_ & _ & dropped & E & _).
  exists dropped. exact E.
Defined.

(** A run of the store in which something was remembered. *)
Definition remembering : list command :=
  [c_createRun StoreCommands.demo_input; c_addMemoryEntry None None half "the tests need node" demo_run mes_run []].
Definition remembered : Store := after_commands remembering empty_store.
Definition narrow : RunContextCompilerOptions :=
  {| ro_budgetTokens := Some (ofZ 60); ro_maxRepoMapTokens := None; ro_maxSemanticResults := None;
     ro_maxTranscriptCharacters := None; ro_maxTranscriptMessages := None; ro_maxWorkspaceFiles := None |}.
Definition request_of (d : Db) : option ContextRequest :=
  match runs d, agents d, missions d with
  | run :: _, agent :: _, mission :: _ =>
      Some {| rq_activeTask := None; rq_agent := agentFromRow d agent; rq_inbox := [];
              rq_mission := mission; rq_run := runFromRow run |}
  | _, _, _ => None
  end.
Definition told_request : option ContextRequest := request_of (db remembered).
Definition any_budget (budget : RunBudget) : text := txt "{}".

Lemma context_always_compiles_witness : exists request,
  told_request = Some request /\ rtc store_step empty_store remembered /\
  exists compiled, compile_context any_budget text_le narrow request None remembered = (remembered, Ok (Ok compiled)) /\
    cx_usedTokens compiled <= 60.
Proof.
  destruct told_request as [request|] eqn:E; [|vm_compute in E; discriminate E].
  assert (rtc store_step empty_store remembered) as Hr.
  { apply after_commands_steps. repeat constructor. }
  exists request. split; [reflexivity|split; [exact Hr|]].
  destruct (context_always_compiles any_budget text_le narrow request None empty_store remembered)
    as (compiled & planned & history & H1 & _ & _ & H2 & H3).
  - split; constructor.
  - exact Hr.
  - vm_compute. reflexivity.
  - vm_compute. reflexivity.
  - exists compiled. split; [exact H1|]. rewrite H2. exact H3.
Defined.

(** ** One index for every workspace *)

(** An index that answers with the files it holds, whatever the question. *)
Definition echo_ports : WorkspacePorts (Outside := list RepoMapFile) :=
  {| wp_fileURLToPath := Some; wp_isRepository := fun _ => mret false;
     wp_getStatus := fun _ => act_throw (GitSnapshotError []);
     wp_getDiff := fun _ => mret []; wp_readRepositoryFiles := fun _ _ => mret [];
     wp_buildMap := fun _ _ _ _ => mret [];
     wp_indexFiles := fun files _ => (files, Ok tt);
     wp_search := fun _ _ index => (index, Ok (map (fun file =>
       {| sm_path := rf_path file; sm_startLine := ofZ 1; sm_endLine := ofZ 1; sm_text := rf_content file |}) index));
     wp_diagnostics := None |}.

(** What a search in a workspace leaves. *)
Definition searched (search : string * list RepoMapFile) (w : compiler_world (Outside := list RepoMapFile)) :=
  (searchSemanticIndex echo_ports narrow (txt search.1) search.2 (txt "let") w).1.

(** A workspace whose files have the fingerprint that is known is not indexed;
    another one is. *)
Lemma searched_known search w : jm_get w.1 (txt search.1) = Some (fingerprint_of search.2) -> searched search w = w.
Proof.
  intros Hk. unfold searched, searchSemanticIndex. destruct (Git.trim (txt "let") === []); [done|].
  unfold act_catch, known_fingerprint, mbind, act_bind. rewrite Hk.
  rewrite (bool_decide_eq_true_2 _ (eq_refl (Some (fingerprint_of search.2)))). by destruct w.
Qed.
Lemma searched_unknown search w : jm_get w.1 (txt search.1) = None ->
  searched search w = (jm_set w.1 (txt search.1) (fingerprint_of search.2), search.2).
Proof.
  intros Hk. unfold searched, searchSemanticIndex.
  assert ((Git.trim (txt "let") === []) = false) as -> by (vm_compute; reflexivity).
  unfold act_catch, known_fingerprint, mbind, act_bind. rewrite Hk. reflexivity.
Qed.

(** The index after two workspaces were searched in turn is the second one's, which
    answers when the first one is searched again. *)
Lemma searched_in_turn a b files files' : txt a <> txt b ->
  searched (a, files) (searched (b, files') (searched (a, files) ([], []))) =
    ([(txt a, fingerprint_of files); (txt b, fingerprint_of files')], files').
Proof.
  intros Hab. rewrite (searched_unknown (a, files) ([], [])) by done. cbn [fst snd].
  assert (txt a <> txt b /\ txt b <> txt a) as [H1 H2] by (split; congruence).
  rewrite (searched_unknown (b, files')); cbn [fst snd jm_set jm_get]; rewrite decide_False by done; [|done].
  rewrite searched_known; [done|]. cbn [fst snd jm_get]. by rewrite decide_True.
Qed.

(** A fingerprint tells paths and lengths. *)
Lemma fingerprint_of_lengths files files' :
  map (fun f => (rf_path f, length (rf_content f))) files = map (fun f => (rf_path f, length (rf_content f))) files' ->
  fingerprint_of files = fingerprint_of files'.
Proof.
  intros E. unfold fingerprint_of. f_equal; [by apply (f_equal length) in E; rewrite !length_map in E; rewrite E|].
  f_equal. f_equal. apply (f_equal (map (fun p => p.1 ++ txt ":" ++ number (Z.of_nat p.2)))) in E.
  rewrite !map_map in E. exact E.
Qed.

(** An edit that keeps the lengths of the files is not indexed. *)
Lemma searched_edited a files files' :
  map (fun f => (rf_path f, length (rf_content f))) files' = map (fun f => (rf_path f, length (rf_content f))) files ->
  searched (a, files') (searched (a, files) ([], [])) = ([(txt a, fingerprint_of files)], files).
Proof.
  intros E%fingerprint_of_lengths. rewrite (searched_unknown (a, files) ([], [])) by done. cbn [fst snd jm_set].
  rewrite searched_known; [done|]. cbn [fst snd jm_get]. by rewrite decide_True, E.
Qed.
