(* ===== verification/Server.v ===== *)
(** The HTTP interface of the daemon: packages/server/src/server.ts.

    [handle] maps a request to the response that is written, over the store and
    the ports the daemon is composed with; a response that stays open is an event
    stream, a machine of its own beside the store.  The sockets, the URL parser,
    percent-decoding, [JSON.parse] and [Number] are parameters. *)

From Stdlib Require Import ZArith Lia Ascii String.
From stdpp Require Import base strings list relations.
From S2P Require Import Prelude JsNumber JsString JsCollections Protocol Json Ids StateMachine.
From S2P Require Import Policies Budget StoreData StoreMonad StoreCore StoreRuns StoreTasks.
From S2P Require Import StoreEffects StoreCommands Provider RuntimeWorld.

Open Scope string_scope.
Open Scope list_scope.
#[local] Open Scope Z_scope.

(** ** Requests *)

(** A header is absent, a string, or a list of strings. *)
Inductive HeaderValue : Type :=
| no_header
| one_header (value : string)
| many_headers (values : list string).

(** What the handler reads of a request.  The body arrives in chunks of bytes,
    and the connection may fail after them. *)
Record IncomingMessage := {
  im_method : option string;
  im_url : option string;
  im_authorization : option string;
  im_idempotency_key : HeaderValue;
  im_last_event_id : HeaderValue;
  im_chunks : list string;
  im_failure : option string }.

(** A parsed URL: its path, and [searchParams.get]. *)
Record URL := {
  url_pathname : string;
  url_searchParam : string -> option string }.

(** Source: packages/server/src/server.ts:78-78 [maximumRequestBytes]. *)
Definition maximumRequestBytes : Z := 1000000.

Definition thrown {A} (message : string) : result fault A := Throw (OtherError message).

(** ** The body of a request *)

(** Source: packages/server/src/server.ts:810-812 [isObject]. *)
Definition isObject (value : JsonValue) : bool :=
  match value with jobj _ => true | _ => false end.

(** Source: packages/server/src/server.ts:643-651 [readObject]. *)
Fixpoint receive (size : Z) (chunks : list string) (failure : option string) : result fault Z :=
  match chunks with
  | [] => match failure with None => mret size | Some message => thrown message end
  | bytes :: chunks =>
      let size := size + string_length bytes in
      if maximumRequestBytes <? size then thrown "Request body exceeds the 1 MB limit."
      else receive size chunks failure
  end.

(** Source: packages/server/src/server.ts:795-800 [requiredString]. *)
Definition requiredString (value : JsonValue) (key : string) : result fault string :=
  match json_field value key with
  | Some (jstr result) =>
      if is_blank result then thrown (key +:+ " must be a non-empty string.") else mret result
  | _ => thrown (key +:+ " must be a non-empty string.")
  end.

(** Source: packages/server/src/server.ts:802-808 [optionalString]. *)
Definition optionalString (value : JsonValue) (key : string) : result fault (option string) :=
  match json_field value key with
  | None => mret None
  | Some (jstr result) => mret (Some result)
  | Some _ => thrown (key +:+ " must be a string when supplied.")
  end.

(** [value !== undefined && !isObject(value)] *)
Definition not_object (value : option JsonValue) : bool :=
  match value with None => false | Some value => negb (isObject value) end.

(** The objects are taken for what their types declare, unchecked: they are kept
    as they are.
    Source: packages/protocol/src/contracts.ts:505-518 [CreateRunRequest]. *)
Record CreateRunRequest := {
  crr_title : string;
  crr_prompt : string;
  crr_workspaceUri : string;
  crr_budget : option JsonValue;
  crr_permissions : option JsonValue;
  crr_sandbox : option JsonValue;
  crr_initialGoal : option (string * string) }.

(** Source: packages/server/src/server.ts:663-711 [parseCreateRunRequest]. *)
Definition parseCreateRunRequest (value : JsonValue) : result fault CreateRunRequest :=
  match json_field value "mission" with
  | Some (jobj fields) =>
      let mission := jobj fields in
      title ← requiredString mission "title";
      prompt ← requiredString mission "prompt";
      workspaceUri ← requiredString mission "workspaceUri";
      let budget := json_field value "budget" in
      let permissions := json_field value "permissions" in
      let sandbox := json_field value "sandbox" in
      let initialGoal := json_field value "initialGoal" in
      _ ← throw_if (not_object budget) (OtherError "budget must be an object when supplied.");
      _ ← throw_if (not_object permissions)
            (OtherError "permissions must be an object when supplied.");
      _ ← throw_if (not_object sandbox) (OtherError "sandbox must be an object when supplied.");
      _ ← throw_if (not_object initialGoal)
            (OtherError "initialGoal must be an object when supplied.");
      goal ← match initialGoal with
             | None => mret None
             | Some goal =>
                 description ← requiredString goal "description";
                 title ← requiredString goal "title";
                 mret (Some (title, description))
             end;
      mret {| crr_title := title; crr_prompt := prompt; crr_workspaceUri := workspaceUri;
              crr_budget := budget; crr_permissions := permissions; crr_sandbox := sandbox;
              crr_initialGoal := goal |}
  | _ => thrown "mission must be an object."
  end.

(** Source: packages/server/src/server.ts:713-723 [parseRunCommand]. *)
Definition parseRunCommand (value : JsonValue) : result fault (DurableRunCommand * option string) :=
  command ← requiredString value "command";
  command ← (if command === "pause" then mret cmd_pause
             else if command === "resume" then mret cmd_resume
             else if command === "cancel" then mret cmd_cancel
             else thrown "command must be pause, resume, or cancel.");
  reason ← optionalString value "reason";
  mret (command, reason).

Definition DurableRunCommand_str (command : DurableRunCommand) : string :=
  match command with cmd_cancel => "cancel" | cmd_pause => "pause" | cmd_resume => "resume" end.

(** Source: packages/protocol/src/contracts.ts:542-546 [SteeringInputRequest]. *)
Record SteeringInputRequest := {
  sir_text : string;
  sir_targetGoalId : option string;
  sir_targetAgentId : option string }.

(** Source: packages/server/src/server.ts:725-747 [parseSteeringInput]. *)
Definition parseSteeringInput (value : JsonValue) : result fault SteeringInputRequest :=
  targetGoalId ← optionalString value "targetGoalId";
  targetAgentId ← optionalString value "targetAgentId";
  text ← requiredString value "text";
  mret {| sir_text := text; sir_targetGoalId := targetGoalId;
          sir_targetAgentId := targetAgentId |}.

(** The resolver and the status.
    Source: packages/server/src/server.ts:749-755 [parseResolveApproval]. *)
Definition parseResolveApproval (value : JsonValue) : result fault (string * ApprovalStatus) :=
  status ← requiredString value "status";
  status ← (if status === "approved" then mret aps_approved
            else if status === "rejected" then mret aps_rejected
            else thrown "approval status must be approved or rejected.");
  resolverId ← requiredString value "resolverId";
  mret (resolverId, status).

(** ** Paths and numbers *)

(** [path.split("/")], after what was read of the current segment. *)
Fixpoint split_slashes (l acc : list ascii) : list string :=
  match l with
  | [] => [of_units (rev acc)]
  | c :: l => if c === "/"%char then of_units (rev acc) :: split_slashes l []
              else split_slashes l (c :: acc)
  end.

(** Source: packages/server/src/server.ts:773-781 [equalPath]. *)
Definition equalPath (actual expected : list string) : bool :=
  Nat.eqb (List.length actual) (List.length expected) &&
  forallb (fun p => p.1 === p.2) (zip actual expected).

(** Source: packages/server/src/server.ts:814-816 [isLoopbackHost]. *)
Definition isLoopbackHost (host : string) : bool :=
  (host === "127.0.0.1") || (host === "::1") || (host === "localhost").

(** ** Responses *)

(** The values of the answers.
    Source: packages/protocol/src/contracts.ts:548-578 [AgentEventListResponse, ResolveApprovalResponse]. *)
Inductive ResponseValue : Type :=
| v_health (instanceId status version : string)
| v_ready (ready : bool)
| v_version (protocolVersion serverVersion : string)
| v_shutdown (accepted : bool) (instanceId : string)
| v_created (goal : GoalRow) (mission : MissionRow) (run : Run)
| v_runs (runs : list Run)
| v_detail (agents : list Agent) (goal : option GoalRow) (requirements : list RequirementRecord)
    (run : Run)
| v_run (run : Run)
| v_event (event : EventRow)
| v_agents (agents : list Agent)
| v_events (events : list EventRow) (nextSequence : Z)
| v_checkpoints (checkpoints : list CheckpointRow)
| v_restored (checkpointId preRestoreRef restoredRef : string) (restoredAt : Z)
| v_approvals (approvals : list ApprovalRow)
| v_approval (approval : ApprovalRow).

(** What is written to the socket: an answer, an answer after whose close the
    shutdown hook is called, an error, or an event stream of a run that starts
    after a sequence number. *)
Inductive Response : Type :=
| Answer (status : Z) (value : ResponseValue)
| AnswerThenStop (status : Z) (value : ResponseValue) (reason : string)
| Refuse (status : Z) (code message : string) (retryable : bool)
| Stream (runId : string) (after : Z).

(** Source: packages/protocol/src/contracts.ts:38-38 [PROTOCOL_VERSION]. *)
Definition PROTOCOL_VERSION : string := "v1".

(** ** Errors *)

(** The message an error of the packages below has; the driver's is a parameter.
    Source: packages/core/src/errors.ts:29-111 [DomainError subclasses]. *)
Definition error_message (driver_message : string -> string) (e : exn) : string :=
  match e with
  | InvalidStateTransitionError entity from to =>
      "Cannot transition " +:+ entity +:+ " from '" +:+ from +:+ "' to '" +:+ to +:+ "'"
  | InvalidIdentifierError kind _ => "Invalid " +:+ kind +:+ " identifier"
  | InvariantViolationError message => message
  | BudgetExceededError limit _ _ => "Budget limit '" +:+ limit +:+ "' has been exhausted"
  | PermissionDeniedError action reason =>
      "Permission denied for '" +:+ action +:+ "': " +:+ reason
  | ResourceConflictError scope other =>
      "Resource scopes conflict: '" +:+ scope +:+ "' and '" +:+ other +:+ "'"
  | StaleLeaseGenerationError expected received runId =>
      "Stale lease generation for run '" +:+ runId +:+ "': expected " +:+ num_string expected +:+
      ", received " +:+ num_string received
  | BlockerThresholdNotMetError fingerprint attempts threshold =>
      "Blocker '" +:+ fingerprint +:+ "' has " +:+ num_string attempts +:+ "/" +:+
      num_string threshold +:+ " required meaningful attempts"
  | LeaseFencedError _ message => message
  | RevisionConflictError runId expected actual =>
      "Run '" +:+ runId +:+ "' revision conflict: expected " +:+ decimal expected +:+
      ", found " +:+ decimal actual +:+ "."
  | ResourceLockConflictError scope =>
      "Resource scope '" +:+ ResourceKind_str (scope_kind scope) +:+ ":" +:+
      scope_identifier scope +:+ "' is locked by another task."
  | TypeError message | RangeError message | Error message => message
  | SqliteConstraint table => driver_message table
  end.

(** [/request|must be|required|invalid|cannot transition/i.test(message)] *)
Definition blames_client (message : string) : bool :=
  existsb (includes (toLowerCase message))
    ["request"; "must be"; "required"; "invalid"; "cannot transition"].

Section Server.
Context `{Env} {Outside : Type}.
#[local] Abbreviation W := (World Outside).

(** The URL parser, percent-decoding (none where it throws), [JSON.parse] of
    bytes in UTF-8, [Number], and the messages of the driver's errors. *)
Context (parse_url : string -> option URL) (decodeURIComponent : string -> option string).
Context (JSON_parse : string -> option JsonValue) (Number : string -> num).
Context (driver_message : string -> string).
(** [crypto.randomUUID] of the server. *)
Context (crypto_randomUUID : IO W string).
(** An object of a request where the store wants a budget, permissions or a
    sandbox: the casts of [parseCreateRunRequest]. *)
Context (as_budget : JsonValue -> RunBudget) (as_permissions : JsonValue -> PermissionPolicy).
Context (as_sandbox : JsonValue -> SandboxPolicy).

(** Source: packages/server/src/server.ts:44-51 [CheckpointRestorer.restore]. *)
Record RestoreRequest := {
  rr_checkpointId : string;
  rr_runId : string;
  rr_workspaceRef : string;
  rr_workspaceUri : string }.

(** The answer of the restorer is the reference before and the restored one.
    Source: packages/server/src/server.ts:53-70 [DaemonServerOptions]. *)
Record DaemonServerOptions := {
  dso_host : option string;
  dso_instanceId : option string;
  dso_serverVersion : option string;
  dso_token : option string;
  dso_onRunCommand : option (string -> DurableRunCommand -> IO W unit);
  dso_acceptsShutdown : bool (* whether onShutdownRequest is there *);
  dso_checkpointRestorer : option (RestoreRequest -> IO W (string * string)) }.

(** Source: packages/server/src/server.ts:80-91 [OttiliDaemonServer]. *)
Record OttiliDaemonServer := {
  ds_host : string;
  ds_instanceId : string;
  ds_serverVersion : string;
  ds_token : option string;
  ds_onRunCommand : option (string -> DurableRunCommand -> IO W unit);
  ds_acceptsShutdown : bool;
  ds_checkpointRestorer : option (RestoreRequest -> IO W (string * string)) }.

(** Source: packages/server/src/server.ts:93-110 [OttiliDaemonServer.constructor]. *)
Definition new_OttiliDaemonServer (options : DaemonServerOptions) (uuid : string)
  : result fault OttiliDaemonServer :=
  let host := dso_host options ?? "127.0.0.1" in
  _ ← throw_if (negb (isLoopbackHost host) && (dso_token options === None))
        (OtherError "A daemon bound beyond loopback requires an authentication token.");
  mret {| ds_host := host;
          ds_instanceId := dso_instanceId options ?? ("daemon_" +:+ uuid);
          ds_serverVersion := dso_serverVersion options ?? "0.1.0";
          ds_token := dso_token options;
          ds_onRunCommand := dso_onRunCommand options;
          ds_acceptsShutdown := dso_acceptsShutdown options;
          ds_checkpointRestorer := dso_checkpointRestorer options |}.

Context (server : OttiliDaemonServer).

(** Source: packages/server/src/server.ts:577-580 [OttiliDaemonServer.authorized]. *)
Definition authorized (request : IncomingMessage) : bool :=
  match ds_token server with
  | None => true
  | Some token => im_authorization request === Some ("Bearer " +:+ token)
  end.

(** Source: packages/server/src/server.ts:610-639 [OttiliDaemonServer.respondException]. *)
Definition respondException (error : fault) : Response :=
  let message := message_or (error_message driver_message) "Unknown daemon error." error in
  match error with
  | Thrown (LeaseFencedError _ _) => Refuse 409 "lease_conflict" message true
  | Thrown (RevisionConflictError _ _ _) => Refuse 409 "conflict" message true
  | _ =>
      let status := if blames_client message then 400 else 500 in
      Refuse status (if status =? 400 then "invalid_request" else "internal") message
        (status =? 500)
  end.

(** The body has arrived when a request is handled; the code awaits its chunks, and
    other requests may be handled meanwhile.  A unit of the text stands for a byte.
    Source: packages/server/src/server.ts:642-661 [readObject]. *)
Definition readObject (request : IncomingMessage) : result fault JsonValue :=
  size ← receive 0 (im_chunks request) (im_failure request);
  _ ← throw_if (size =? 0) (OtherError "A JSON request body is required.");
  match JSON_parse (join "" (im_chunks request)) with
  | None => thrown "Request body must be valid JSON."
  | Some parsed =>
      if isObject parsed then mret parsed else thrown "Request body must be a JSON object."
  end.

(** [decodeURIComponent(segment)] *)
Definition decode_segment (segment : string) : result fault string :=
  match decodeURIComponent segment with
  | Some decoded => mret decoded
  | None => thrown "URI malformed"
  end.

(** The run and the rest of the path.
    Source: packages/server/src/server.ts:757-771 [splitRunRoute]. *)
Definition splitRunRoute (path : string) : result fault (option (string * list string)) :=
  match List.filter (fun segment => segment !== "") (split_slashes (units path) []) with
  | v1 :: runs :: runId :: tail =>
      if (v1 === "v1") && (runs === "runs") then
        runId ← decode_segment runId;
        tail ← mapM decode_segment tail;
        mret (Some (runId, tail))
      else mret None
  | _ => mret None
  end.

(** Source: packages/server/src/server.ts:783-793 [parseBoundedInteger]. *)
Definition parseBoundedInteger (value : HeaderValue) (maximum : Z) : Z :=
  let raw := match value with
             | no_header => None
             | one_header raw => Some raw
             | many_headers values => head values
             end in
  match raw with
  | None => 0
  | Some raw =>
      if raw === "" then 0
      else
        let parsed := Number raw in
        if isSafeInteger parsed && (0 <=? toZ parsed) then Z.min (toZ parsed) maximum else 0
  end.

Definition param (value : option string) : HeaderValue :=
  match value with None => no_header | Some value => one_header value end.

Definition MAX_SAFE_INTEGER : Z := 2 ^ 53 - 1.

(** ** The routes *)

Definition not_found (message : string) : IO W Response :=
  mret (Refuse 404 "not_found" message false).

(** Source: packages/server/src/server.ts:153-202 [OttiliDaemonServer.handleShutdown]. *)
Definition handleShutdown (request : IncomingMessage) : IO W Response :=
  if negb (ds_acceptsShutdown server)
  then mret (Refuse 501 "unsupported"
               "This daemon does not accept protocol shutdown requests." false)
  else
    body ← io_lift (readObject request);
    let unnamed : IO W Response := mret (Refuse 400 "invalid_request"
      "A shutdown request must name the daemon instance to stop." false) in
    match json_field body "instanceId" with
    | Some (jstr requestedInstance) =>
        if requestedInstance === "" then unnamed
        else if requestedInstance !== ds_instanceId server
        then mret (Refuse 409 "conflict" ("This daemon instance is '" +:+ ds_instanceId server +:+
                     "', not '" +:+ requestedInstance +:+ "'.") false)
        else
          let reason := match json_field body "reason" with
                        | Some (jstr reason) =>
                            if reason === "" then "Protocol shutdown request" else reason
                        | _ => "Protocol shutdown request"
                        end in
          mret (AnswerThenStop 202 (v_shutdown true (ds_instanceId server)) reason)
    | _ => unnamed
    end.

(** Source: packages/server/src/server.ts:242-269 [OttiliDaemonServer.handle, POST runs]. *)
Definition post_run (request : IncomingMessage) : IO W Response :=
  body ← io_lift (readObject request);
  payload ← io_lift (parseCreateRunRequest body);
  created ← on_store (createRun
    {| ci_budget := as_budget <$> crr_budget payload;
       ci_initialGoal := crr_initialGoal payload;
       ci_permissions := as_permissions <$> crr_permissions payload;
       ci_prompt := crr_prompt payload;
       ci_sandbox := as_sandbox <$> crr_sandbox payload;
       ci_requirements := [];
       ci_title := Some (crr_title payload);
       ci_workspaceUri := crr_workspaceUri payload |});
  let '(_, goal, run) := created in
  mission ← on_store (getMission (run_missionId run));
  match mission with
  | None => io_throw (OtherError "Created mission could not be read back.")
  | Some mission => mret (Answer 201 (v_created goal mission run))
  end.

(** Source: packages/server/src/server.ts:270-281 [OttiliDaemonServer.handle, GET runs]. *)
Definition get_runs (url : URL) : IO W Response :=
  let status := url_searchParam url "status" in
  let limit := match url_searchParam url "limit" with
               | None => 100
               | Some limitValue => parseBoundedInteger (one_header limitValue) 100
               end in
  runs ← on_store listRuns;
  let runs := List.filter (fun run =>
    match status with None => true | Some status => RunStatus_str (run_status run) === status end)
    runs in
  mret (Answer 200 (v_runs (firstn (Z.to_nat limit) runs))).

(** Source: packages/server/src/server.ts:301-312 [OttiliDaemonServer.handle, GET run]. *)
Definition get_run (run : Run) : IO W Response :=
  agents ← on_store (listAgents (run_id run));
  goal ← match run_currentGoalId run with
         | None => mret None
         | Some goalId => on_store (getGoal goalId)
         end;
  requirements ← on_store (listRequirements (run_id run));
  mret (Answer 200 (v_detail agents goal requirements run)).

(** The key of a command: the first header, or a fresh identifier.
    Source: packages/server/src/server.ts:315-321 [OttiliDaemonServer.handle, commandId]. *)
Definition command_key (request : IncomingMessage) : IO W string :=
  match im_idempotency_key request with
  | one_header commandId | many_headers (commandId :: _) => mret commandId
  | no_header | many_headers [] => crypto_randomUUID
  end.

(** Source: packages/server/src/server.ts:313-330 [OttiliDaemonServer.handle, POST commands]. *)
Definition post_command (request : IncomingMessage) (run : Run) : IO W Response :=
  body ← io_lift (readObject request);
  command ← io_lift (parseRunCommand body);
  let '(command, reason) := command in
  commandId ← command_key request;
  value ← on_store (executeCommand command commandId reason (run_id run));
  _ ← match ds_onRunCommand server with
      | Some onRunCommand =>
          io_when ((command === cmd_pause) || (command === cmd_cancel))
            (onRunCommand (run_id run) command)
      | None => mret tt
      end;
  mret (Answer 200 (v_run value)).

(** Source: packages/server/src/server.ts:331-345 [OttiliDaemonServer.handle, POST steering]. *)
Definition post_steering (request : IncomingMessage) (run : Run) : IO W Response :=
  body ← io_lift (readObject request);
  input ← io_lift (parseSteeringInput body);
  event ← on_store (recordSteeringInput (run_id run) (sir_targetAgentId input)
                      (sir_targetGoalId input) (sir_text input));
  mret (Answer 202 (v_event event)).

(** Source: packages/server/src/server.ts:346-349 [OttiliDaemonServer.handle, GET agents]. *)
Definition get_agents (run : Run) : IO W Response :=
  agents ← on_store (listAgents (run_id run));
  mret (Answer 200 (v_agents agents)).

Definition last_sequence (events : list EventRow) (after : Z) : Z :=
  match last events with Some event => ee_seq event | None => after end.

(** Source: packages/server/src/server.ts:350-380 [OttiliDaemonServer.handle, GET agent events]. *)
Definition get_agent_events (url : URL) (run : Run) (agentId : string) : IO W Response :=
  agents ← on_store (listAgents (run_id run));
  match find (fun candidate => ag_id (agent_row candidate) === agentId) agents with
  | None => not_found ("Agent '" +:+ agentId +:+ "' was not found in Run '" +:+ run_id run +:+ "'.")
  | Some agent =>
      let after := parseBoundedInteger (param (url_searchParam url "after")) MAX_SAFE_INTEGER in
      events ← on_store (listEvents (run_id run) after);
      let events := List.filter (fun event =>
        match json_field (ee_payload event) "agentId" with
        | Some (jstr id) => id === ag_id (agent_row agent)
        | _ => false
        end) events in
      mret (Answer 200 (v_events events (last_sequence events after)))
  end.

(** Source: packages/server/src/server.ts:381-386 [OttiliDaemonServer.handle, GET checkpoints]. *)
Definition get_checkpoints (run : Run) : IO W Response :=
  checkpoints ← on_store (listCheckpoints (run_id run));
  mret (Answer 200 (v_checkpoints checkpoints)).

(** Source: packages/server/src/server.ts:387-457 [OttiliDaemonServer.handle, POST restore]. *)
Definition post_restore (run : Run) (checkpointId : string) : IO W Response :=
  checkpoint ← on_store (getCheckpoint (run_id run) checkpointId);
  match checkpoint with
  | None => not_found ("Checkpoint '" +:+ checkpointId +:+ "' was not found in Run '" +:+
                       run_id run +:+ "'.")
  | Some checkpoint =>
      match cp_workspace_ref checkpoint with
      | None => mret (Refuse 400 "invalid_request" ("Checkpoint '" +:+ checkpointId +:+
                        "' has no workspace snapshot to restore.") false)
      | Some workspaceRef =>
          if run_status run !== run_paused
          then mret (Refuse 400 "invalid_request" ("Run '" +:+ run_id run +:+
                 "' must be paused to restore a checkpoint (current status: '" +:+
                 RunStatus_str (run_status run) +:+ "').") false)
          else
            match ds_checkpointRestorer server with
            | None => mret (Refuse 501 "unsupported"
                              "This daemon does not support checkpoint restore." false)
            | Some restore =>
                mission ← on_store (getMission (run_missionId run));
                match mission with
                | None => mret (Refuse 500 "internal" ("Run '" +:+ run_id run +:+
                                  "' has no Mission.") false)
                | Some mission =>
                    restored ← restore {| rr_checkpointId := checkpointId; rr_runId := run_id run;
                                          rr_workspaceRef := workspaceRef;
                                          rr_workspaceUri := ms_workspace_uri mission |};
                    let '(preRestoreRef, restoredRef) := restored in
                    event ← on_store (recordCheckpointRestore checkpointId preRestoreRef
                                        restoredRef (run_id run));
                    mret (Answer 200 (v_restored checkpointId preRestoreRef restoredRef
                                        (ee_created_at event)))
                end
            end
      end
  end.

(** Source: packages/server/src/server.ts:458-463 [OttiliDaemonServer.handle, GET approvals]. *)
Definition get_approvals (run : Run) : IO W Response :=
  approvals ← on_store (listApprovals (run_id run));
  mret (Answer 200 (v_approvals approvals)).

(** Source: packages/server/src/server.ts:464-490 [OttiliDaemonServer.handle, POST approval]. *)
Definition post_approval (request : IncomingMessage) (run : Run) (approvalId : string)
  : IO W Response :=
  approvals ← on_store (listApprovals (run_id run));
  match find (fun candidate => ap_id candidate === approvalId) approvals with
  | None => not_found ("Approval '" +:+ approvalId +:+ "' was not found in Run '" +:+
                       run_id run +:+ "'.")
  | Some approval =>
      body ← io_lift (readObject request);
      resolution ← io_lift (parseResolveApproval body);
      let '(resolverId, status) := resolution in
      resolved ← on_store (resolveApproval (ap_id approval) resolverId status);
      mret (Answer 200 (v_approval resolved))
  end.

(** Source: packages/server/src/server.ts:491-502 [OttiliDaemonServer.handle, GET events]. *)
Definition get_events (url : URL) (run : Run) : IO W Response :=
  let after := parseBoundedInteger (param (url_searchParam url "after")) MAX_SAFE_INTEGER in
  events ← on_store (listEvents (run_id run) after);
  mret (Answer 200 (v_events events (last_sequence events after))).

(** Source: packages/server/src/server.ts:503-519 [OttiliDaemonServer.handle, GET stream]. *)
Definition get_stream (request : IncomingMessage) (url : URL) (run : Run) : IO W Response :=
  let headerSequence := parseBoundedInteger (im_last_event_id request) MAX_SAFE_INTEGER in
  let querySequence := parseBoundedInteger (param (url_searchParam url "after")) MAX_SAFE_INTEGER in
  mret (Stream (run_id run) (Z.max headerSequence querySequence)).

(** The routes below a run, in the order of the code.
    Source: packages/server/src/server.ts:301-524 [OttiliDaemonServer.handle, routes of a run]. *)
Definition handle_run (request : IncomingMessage) (method : string) (url : URL) (run : Run)
  (tail : list string) : IO W Response :=
  let get := method === "GET" in
  let post := method === "POST" in
  let of_length (n : nat) := Nat.eqb (List.length tail) n in
  let at_ (n : nat) (name : string) := tail !! n === Some name in
  if get && of_length 0%nat then get_run run
  else if post && equalPath tail ["commands"] then post_command request run
  else if post && equalPath tail ["steering"] then post_steering request run
  else if get && equalPath tail ["agents"] then get_agents run
  else if get && of_length 3%nat && at_ 0%nat "agents" && at_ 2%nat "events"
  then get_agent_events url run (nth 1 tail "")
  else if get && equalPath tail ["checkpoints"] then get_checkpoints run
  else if post && of_length 3%nat && at_ 0%nat "checkpoints" && at_ 2%nat "restore"
  then post_restore run (nth 1 tail "")
  else if get && equalPath tail ["approvals"] then get_approvals run
  else if post && of_length 2%nat && at_ 0%nat "approvals"
  then post_approval request run (nth 1 tail "")
  else if get && equalPath tail ["events"] then get_events url run
  else if get && equalPath tail ["events"; "stream"] then get_stream request url run
  else not_found ("No daemon route matches '" +:+ url_pathname url +:+ "'.").

(** What the try block of the handler does.
    Source: packages/server/src/server.ts:209-300 [OttiliDaemonServer.handle]. *)
Definition dispatch (request : IncomingMessage) : IO W Response :=
  if negb (authorized request)
  then mret (Refuse 401 "permission_denied" "Daemon authentication is required." false)
  else
    let method := im_method request ?? "GET" in
    match parse_url (im_url request ?? "/") with
    | None => io_throw (Thrown (TypeError "Invalid URL"))
    | Some url =>
        let path := url_pathname url in
        if (method === "GET") && (path === "/v1/health")
        then mret (Answer 200 (v_health (ds_instanceId server) "ok" PROTOCOL_VERSION))
        else if (method === "GET") && (path === "/v1/ready")
        then mret (Answer 200 (v_ready true))
        else if (method === "GET") && (path === "/v1/version")
        then mret (Answer 200 (v_version PROTOCOL_VERSION (ds_serverVersion server)))
        else if (method === "POST") && (path === "/v1/daemon/shutdown")
        then handleShutdown request
        else if (method === "POST") && (path === "/v1/runs") then post_run request
        else if (method === "GET") && (path === "/v1/runs") then get_runs url
        else
          route ← io_lift (splitRunRoute path);
          match route with
          | None => not_found ("No daemon route matches '" +:+ path +:+ "'.")
          | Some (runId, tail) =>
              run ← on_store (getRun runId);
              match run with
              | None => not_found ("Run '" +:+ runId +:+ "' was not found.")
              | Some run => handle_run request method url run tail
              end
          end
    end.

(** Source: packages/server/src/server.ts:204-528 [OttiliDaemonServer.handle]. *)
Definition handle (request : IncomingMessage) : IO W Response :=
  io_catch (dispatch request) (fun error => mret (respondException error)).
End Server.

(** ** Event streams *)

(** Source: packages/protocol/src/contracts.ts:340-367 [RunEventType]. *)
Definition RunEventType_str (type : RunEventType) : string :=
  match type with
  | evt_run_created => "run.created"
  | evt_run_status_changed => "run.status_changed"
  | evt_goal_status_changed => "goal.status_changed"
  | evt_task_status_changed => "task.status_changed"
  | evt_agent_status_changed => "agent.status_changed"
  | evt_agent_turn_started => "agent.turn_started"
  | evt_agent_worktree_assigned => "agent.worktree_assigned"
  | evt_agent_message => "agent.message"
  | evt_agent_progress => "agent.progress"
  | evt_agent_failed => "agent.failed"
  | evt_agent_completed => "agent.completed"
  | evt_agent_message_sent => "agent.message_sent"
  | evt_agent_message_delivered => "agent.message_delivered"
  | evt_task_assigned => "task.assigned"
  | evt_task_recovered => "task.recovered"
  | evt_provider_failed => "provider.failed"
  | evt_context_compacted => "context.compacted"
  | evt_run_retry_scheduled => "run.retry_scheduled"
  | evt_tool_call_started => "tool.call_started"
  | evt_tool_call_finished => "tool.call_finished"
  | evt_checkpoint_created => "checkpoint.created"
  | evt_checkpoint_restored => "checkpoint.restored"
  | evt_approval_requested => "approval.requested"
  | evt_approval_resolved => "approval.resolved"
  | evt_recovery_required => "recovery.required"
  | evt_validation_finished => "validation.finished"
  | evt_steering_received => "steering.received"
  end.

(** What is written to an open stream. *)
Inductive frame : Type :=
| event_frame (event : EventRow)
| keepalive_frame.

Section FrameText.
(** The ISO text of an instant. *)
Context (iso : Z -> string).

(** [JSON.stringify] of an event.
    Source: packages/control-plane/src/store/mappers.ts:538-549 [eventFromRow]. *)
Definition event_json (event : EventRow) : JsonValue :=
  jobj [("createdAt", jstr (iso (ee_created_at event))); ("id", jstr (ee_id event));
        ("payload", ee_payload event); ("runId", jstr (ee_run_id event));
        ("sequence", jnum (ofZ (ee_seq event))); ("type", jstr (RunEventType_str (ee_type event)));
        ("updatedAt", jstr (iso (ee_created_at event)))].

Definition newline : string := of_units [ascii_of_nat 10].

(** Source: packages/server/src/server.ts:547-554 [OttiliDaemonServer.streamEvents, response.write]. *)
Definition frame_text (f : frame) : string :=
  match f with
  | event_frame event =>
      "id: " +:+ decimal (ee_seq event) +:+ newline +:+
      "event: " +:+ RunEventType_str (ee_type event) +:+ newline +:+
      "data: " +:+ JSON_stringify (event_json event) +:+ newline +:+ newline
  | keepalive_frame => ": keepalive" +:+ newline +:+ newline
  end.
End FrameText.

(** A stream: the last number written, what was written, whether it has closed.
    Source: packages/server/src/server.ts:542-543 [OttiliDaemonServer.streamEvents, state]. *)
Record EventStream := {
  es_runId : string;
  es_sequence : Z;
  es_written : list frame;
  es_closed : bool }.

(** The loop over the events of a publication.
    Source: packages/server/src/server.ts:546-556 [OttiliDaemonServer.streamEvents, publish loop]. *)
Definition write_event (stream : EventStream) (event : EventRow) : EventStream :=
  {| es_runId := es_runId stream; es_sequence := ee_seq event;
     es_written := es_written stream ++ [event_frame event]; es_closed := es_closed stream |}.

Section Streams.
Context `{Env}.

(** Source: packages/server/src/server.ts:544-557 [OttiliDaemonServer.streamEvents, publish]. *)
Definition publish (stream : EventStream) : M EventStream :=
  events ← listEvents (es_runId stream) (es_sequence stream);
  mret (foldl write_event stream events).

(** Source: packages/server/src/server.ts:530-558 [OttiliDaemonServer.streamEvents]. *)
Definition streamEvents (runId : string) (after : Z) : M EventStream :=
  publish {| es_runId := runId; es_sequence := after; es_written := []; es_closed := false |}.

(** Source: packages/server/src/server.ts:559-562 [OttiliDaemonServer.streamEvents, heartbeat]. *)
Definition write_keepalive (stream : EventStream) : EventStream :=
  {| es_runId := es_runId stream; es_sequence := es_sequence stream;
     es_written := es_written stream ++ [keepalive_frame]; es_closed := es_closed stream |}.

(** Source: packages/server/src/server.ts:564-572 [OttiliDaemonServer.streamEvents, close]. *)
Definition close_stream (stream : EventStream) : EventStream :=
  {| es_runId := es_runId stream; es_sequence := es_sequence stream;
     es_written := es_written stream; es_closed := true |}.

(** A stream beside the store: commands move the store at any time, the timers
    of an open stream fire, and either end closes it.
    Source: packages/server/src/server.ts:559-575 [OttiliDaemonServer.streamEvents, timers]. *)
Inductive stream_step : Store * EventStream -> Store * EventStream -> Prop :=
| step_command s s' stream : store_step s s' -> stream_step (s, stream) (s', stream)
| step_poll s s' stream stream' :
    es_closed stream = false -> publish stream s = (s', Ok stream') ->
    stream_step (s, stream) (s', stream')
| step_heartbeat s stream :
    es_closed stream = false -> stream_step (s, stream) (s, write_keepalive stream)
| step_close s stream : stream_step (s, stream) (s, close_stream stream).
End Streams.

(** ** Listening *)

(** The field [server]: nothing, a server that listens on a port, or one that
    was created but has no address. *)
Inductive Listener : Type :=
| no_server
| bound (port : Z)
| unbound.

Record DaemonAddress := {
  da_host : string;
  da_port : Z;
  da_url : string }.

(** The listener and the open event streams. *)
Record Listening := {
  ln_server : Listener;
  ln_eventStreams : list EventStream }.

Section Listening.
Context (host : string).
(** What Node reports when a server that is not running is closed. *)
Context (not_running : fault).

(** Source: packages/server/src/server.ts:138-151 [OttiliDaemonServer.address]. *)
Definition address (state : Listening) : result fault DaemonAddress :=
  match ln_server state with
  | no_server => thrown "Daemon server is not listening."
  | unbound => thrown "Daemon server has no TCP address."
  | bound port => mret {| da_host := host; da_port := port;
                          da_url := "http://" +:+ host +:+ ":" +:+ decimal port |}
  end.

(** [listened] is the port that was bound, or the error.
    Source: packages/server/src/server.ts:112-122 [OttiliDaemonServer.start]. *)
Definition start (listened : result fault Z) (state : Listening)
  : Listening * result fault DaemonAddress :=
  match ln_server state with
  | no_server =>
      match listened with
      | Ok port =>
          let state := {| ln_server := bound port; ln_eventStreams := ln_eventStreams state |} in
          (state, address state)
      | Throw error =>
          ({| ln_server := unbound; ln_eventStreams := ln_eventStreams state |}, Throw error)
      end
  | _ => (state, address state)
  end.

(** A response that ends closes its stream.
    Source: packages/server/src/server.ts:124-136 [OttiliDaemonServer.close]. *)
Definition close (state : Listening) : Listening * result fault unit :=
  match ln_server state with
  | no_server => (state, mret tt)
  | server =>
      ({| ln_server := no_server; ln_eventStreams := map close_stream (ln_eventStreams state) |},
       match server with unbound => Throw not_running | _ => mret tt end)
  end.
End Listening.
