(* ===== verification/ServerFacts.v ===== *)
(** The HTTP interface over the store: what a request can change, what a refusal
    leaves, what a repeated command does, and what an event stream delivers. *)

From Stdlib Require Import ZArith Lia Ascii String.
From stdpp Require Import base strings list relations.
From S2P Require Import Prelude JsNumber JsString JsCollections Protocol Json Ids StateMachine.
From S2P Require Import Policies Budget StoreData StoreMonad StoreCore StoreRuns StoreTasks.
From S2P Require Import StoreEffects StoreCommands StoreSafety StoreJournal StoreOnce.
From S2P Require Import StoreCompletion Provider RuntimeWorld Server.

Open Scope string_scope.
Open Scope list_scope.
#[local] Open Scope Z_scope.

(** ** Event streams *)

(** The events of a run after a number. *)
Definition listing (runId : string) (k : Z) (d : Db) : list EventRow :=
  List.filter (fun e => k <? ee_seq e) (events_of runId d).

(** The events among what was written to a stream. *)
Definition delivered (written : list frame) : list EventRow :=
  omap (fun f => match f with event_frame event => Some event | keepalive_frame => None end) written.

Lemma delivered_app a b : delivered (a ++ b) = delivered a ++ delivered b.
Proof. apply omap_app. Qed.

(** Every number of the first part is below every number of the second. *)
Lemma numbered_app {A} (key : A -> Z) l1 l2 a n :
  map key (l1 ++ l2) = seqZ a n -> forall x y, x ∈ l1 -> y ∈ l2 -> key x < key y.
Proof.
  revert a n. induction l1 as [|z l1 IH]; intros a n Hl x y Hx Hy; [by apply not_elem_of_nil in Hx|].
  apply numbered_cons in Hl as (_ & <- & Hl).
  apply elem_of_cons in Hx as [->|Hx]; [|by eapply IH].
  assert (y ∈ l1 ++ l2) as Hin by (apply elem_of_app; by right).
  pose proof (numbered_lower _ _ _ _ Hl y Hin). lia.
Qed.

(** The numbers of the events of a run. *)
Lemma events_numbered runId d : journal_ok d -> exists n, map ee_seq (events_of runId d) = seqZ 1 n.
Proof.
  intros [Hj He]. destruct (events_of runId d) as [|e l] eqn:E; [by exists 0|].
  assert (e ∈ events_of runId d) as Hin by (rewrite E; apply list_elem_of_here).
  apply elem_of_list_filter in Hin as [(r & Hr & Hre)%He Hid]. bool_hyps.
  destruct (Hj r Hr) as [_ Hn]. exists (rn_next_sequence r). by rewrite <- E, <- Hn, Hre, Hid.
Qed.

(** The events after a number carry on from it, to the end of the journal. *)
Lemma listing_numbers runId k d : journal_ok d -> 0 <= k ->
  exists m, 0 <= m /\ map ee_seq (listing runId k d) = seqZ (k + 1) m /\
    listing runId (k + m) d = [].
Proof.
  intros Hj Hk. destruct (events_numbered runId d Hj) as [n Hn]. unfold listing.
  assert (forall j, 0 <= j -> j < 1 + n ->
    map ee_seq (List.filter (fun e => j <? ee_seq e) (events_of runId d)) = seqZ (j + 1) (n - j))
    as Hafter.
  { intros j Hj0 Hjn. rewrite (numbered_after _ _ _ _ _ Hn) by lia. f_equal. lia. }
  assert (forall j, n <= j -> 0 <= j -> List.filter (fun e => j <? ee_seq e) (events_of runId d) = [])
    as Hnone.
  { intros j Hnj Hj0. apply filter_nil_iff. intros e He. apply Z.ltb_ge.
    assert (ee_seq e ∈ seqZ 1 n) as Hin%elem_of_seqZ; [|lia].
    rewrite <- Hn. by apply list_elem_of_fmap_2. }
  destruct (Z.ltb_spec k n) as [Hlt|Hle].
  - exists (n - k). split; [lia|]. split; [apply Hafter; lia|]. apply Hnone; lia.
  - exists 0. rewrite Hnone by lia. rewrite Z.add_0_r. split; [done|]. split; [done|]. by apply Hnone.
Qed.

(** Writing events that carry on from the position moves it to the last one. *)
Lemma write_events stream events m : map ee_seq events = seqZ (es_sequence stream + 1) m -> 0 <= m ->
  foldl write_event stream events =
  {| es_runId := es_runId stream; es_sequence := es_sequence stream + m;
     es_written := es_written stream ++ map event_frame events;
     es_closed := es_closed stream |}.
Proof.
  revert stream m. induction events as [|e events IH]; intros [r q w c] m Hm Hpos; cbn [foldl map].
  - cbn in *. rewrite app_nil_r. f_equal.
    destruct (decide (m = 0)) as [->|?]; [lia|]. by rewrite seqZ_cons in Hm by lia.
  - pose proof Hm as (Hm0 & Hq & Hrest)%numbered_cons. cbn [es_sequence] in *.
    rewrite (IH _ (m - 1)); cbn [write_event es_runId es_sequence es_written es_closed];
      [|by rewrite Hq|lia].
    f_equal; [lia|]. by rewrite <- app_assoc.
Qed.

Lemma delivered_events events : delivered (map event_frame events) = events.
Proof. induction events as [|e events IH]; [done|]. cbn. by f_equal. Qed.

(** What a stream has delivered and what is still listed after its position is
    what was listed where it began, and it is numbered without gaps. *)
Record stream_ok (runId : string) (after : Z) (d : Db) (stream : EventStream) : Prop := {
  so_journal : journal_ok d;
  so_run : es_runId stream = runId;
  so_split : listing runId after d =
    delivered (es_written stream) ++ listing runId (es_sequence stream) d;
  so_ahead : after <= es_sequence stream;
  so_numbers : map ee_seq (delivered (es_written stream)) =
    seqZ (after + 1) (es_sequence stream - after) }.

Section Stream.
Context `{Env}.
Context (runId : string) (after : Z) (Hafter : 0 <= after).

(** The position is where the stream began or the number of an event. *)
Lemma stream_position d stream : stream_ok runId after d stream ->
  es_sequence stream = after \/ exists e, e ∈ events_of runId d /\ ee_seq e = es_sequence stream.
Proof.
  intros [_ _ Hs Ha Hn]. destruct (decide (es_sequence stream = after)) as [?|Hne]; [by left|right].
  assert (es_sequence stream ∈ map ee_seq (delivered (es_written stream))) as Hin.
  { rewrite Hn. apply elem_of_seqZ. lia. }
  apply list_elem_of_fmap in Hin as (e & Hseq & Hin). exists e. split; [|done].
  assert (e ∈ listing runId after d) as [He _]%elem_of_list_filter; [|done].
  rewrite Hs. apply elem_of_app. by left.
Qed.

(** Events that are appended come after the position of the stream. *)
Lemma stream_command s s' stream : store_step s s' ->
  stream_ok runId after (db s) stream -> stream_ok runId after (db s') stream.
Proof.
  intros (c & Ht & <-) Hok. pose proof (stream_position _ _ Hok) as Hp.
  destruct Hok as [Hj Hr Hs Ha Hm].
  assert (journal_ok (db (run_command c s).1)) as Hj' by (by apply journal_command).
  pose proof (events_grow (run_events (db s)) c s (reflexivity _)) as [new Hnew].
  assert (events_of runId (db (run_command c s).1) =
    events_of runId (db s) ++ List.filter (fun e => ee_run_id e === runId) new) as He.
  { unfold events_of. by rewrite Hnew, List.filter_app. }
  set (added := List.filter _ new) in *. destruct (events_numbered runId _ Hj') as [n Hn].
  rewrite He in Hn. split; [done|done| |done|done].
  unfold listing in *. rewrite He, !List.filter_app, Hs, <- app_assoc. do 2 f_equal.
  destruct Hp as [->|(e & Hin & Hseq)]; [done|].
  apply filter_ext_in. intros x Hx%list_elem_of_In.
  pose proof (numbered_app _ _ _ _ _ Hn e x Hin Hx) as Hlt.
  rewrite (proj2 (Z.ltb_lt _ _)), (proj2 (Z.ltb_lt _ _)) by lia. done.
Qed.

(** A publication delivers everything that is listed. *)
Lemma stream_publish stream s : stream_ok runId after (db s) stream ->
  exists stream', publish stream s = (s, Ok stream') /\ stream_ok runId after (db s) stream' /\
    listing runId after (db s) = delivered (es_written stream').
Proof.
  intros [Hj Hr Hs Ha Hn].
  destruct (listing_numbers runId (es_sequence stream) (db s) Hj) as (m & Hm & Hl & Hnil); [lia|].
  unfold publish, listEvents, query, mbind, M_bind. rewrite listEvents_eq, Hr by done.
  fold (listing runId (es_sequence stream) (db s)).
  rewrite (write_events _ _ m Hl Hm). eexists. split; [done|].
  split; [split|]; cbn [es_runId es_sequence es_written]; try done;
    rewrite ?delivered_app, ?delivered_events.
  - by rewrite Hnil, app_nil_r.
  - lia.
  - rewrite map_app, Hn, Hl.
    replace (es_sequence stream + m - after) with (es_sequence stream - after + m) by lia.
    rewrite seqZ_app by lia. do 2 f_equal. lia.
  - done.
Qed.

Lemma stream_begins s : journal_ok (db s) ->
  stream_ok runId after (db s)
    {| es_runId := runId; es_sequence := after; es_written := []; es_closed := false |}.
Proof. intros Hj. split; cbn; [done..|lia|by rewrite Z.sub_diag]. Qed.

Lemma stream_steps p q : rtc stream_step p q ->
  stream_ok runId after (db p.1) p.2 -> stream_ok runId after (db q.1) q.2.
Proof.
  induction 1 as [|p p' q Hstep _ IH]; [done|]. intros Hok. apply IH. clear IH.
  destruct Hstep as [s s' stream Hc|s s' stream stream' Hopen Hp|s stream _|s stream];
    cbn [fst snd] in *.
  - by eapply stream_command.
  - apply stream_publish in Hok as (stream1 & Hp1 & Hok & _). rewrite Hp in Hp1.
    by injection Hp1 as -> ->.
  - destruct Hok as [Hj Hr Hs Ha Hn]. unfold write_keepalive.
    split; cbn [es_runId es_sequence es_written]; rewrite ?delivered_app, ?app_nil_r; done.
  - by destruct Hok.
Qed.

(** An event stream delivers every event exactly once.  Whatever commands
    run meanwhile, whenever its timers fire and whenever it is closed, a stream
    that was opened after number [after] has delivered, in order and without gap
    or repetition, the events numbered [after + 1] to its position; followed by
    what is listed after its position, where a client that reconnects with the
    number of the last event goes on, that is the whole listing after [after];
    and as long as it is open its next publication catches up with the store. *)
Theorem event_stream_exactly_once s s1 opened s' stream :
  journal_ok (db s) -> streamEvents runId after s = (s1, Ok opened) ->
  rtc stream_step (s1, opened) (s', stream) ->
  map ee_seq (delivered (es_written stream)) = seqZ (after + 1) (es_sequence stream - after) /\
  (exists rest, listEvents runId (es_sequence stream) s' = (s', Ok rest) /\
     listEvents runId after s' = (s', Ok (delivered (es_written stream) ++ rest))) /\
  (exists stream', publish stream s' = (s', Ok stream') /\
     listEvents runId after s' = (s', Ok (delivered (es_written stream')))).
Proof.
  intros Hj Ho Hsteps.
  destruct (stream_publish _ _ (stream_begins _ Hj)) as (opened' & Ho' & Hok & _).
  unfold streamEvents in Ho. rewrite Ho in Ho'. injection Ho' as -> ->.
  pose proof (stream_steps _ _ Hsteps Hok) as Hok'. cbn [fst snd] in Hok'.
  destruct (stream_publish _ _ Hok') as (stream' & Hp & _ & Hall).
  destruct Hok' as [Hj' Hr Hs Ha Hn].
  unfold listEvents, query. rewrite !listEvents_eq by done.
  fold (listing runId after (db s')) (listing runId (es_sequence stream) (db s')).
  split; [done|]. split; [|exists stream'; by rewrite Hall].
  eexists. split; [done|]. by rewrite Hs.
Qed.
End Stream.


(** A stream opened at the second event of a run, and polled after a command. *)
Definition no_stream : EventStream :=
  {| es_runId := ""; es_sequence := 0; es_written := []; es_closed := true |}.
Definition demo_opened : EventStream :=
  result_or no_stream (streamEvents demo_run 1 demo_store).2.
Definition demo_steered : Store :=
  (run_command (c_recordSteeringInput demo_run None None "Go on") demo_store).1.
Definition demo_stream : EventStream := result_or no_stream (publish demo_opened demo_steered).2.

Lemma event_stream_exactly_once_witness :
  map ee_seq (delivered (es_written demo_stream)) = seqZ 2 (es_sequence demo_stream - 1) /\
  es_sequence demo_stream = 4.
Proof.
  assert (journal_ok (db demo_store)) as Hj.
  { apply (steps_preserve _ empty_store); [intros; apply journal_command| |apply empty_journal_ok].
    apply after_commands_steps. by repeat constructor. }
  split; [|vm_compute; reflexivity].
  apply (event_stream_exactly_once demo_run 1 ltac:(lia) demo_store demo_store demo_opened demo_steered
    demo_stream Hj).
  - vm_compute. reflexivity.
  - eapply rtc_l; [apply step_command|apply rtc_once, step_poll].
    + by exists (c_recordSteeringInput demo_run None None "Go on").
    + vm_compute. reflexivity.
    + vm_compute. reflexivity.
Defined.

(** ** Every run has its mission *)

Definition has_missions (d : Db) : Prop :=
  forall row, row ∈ runs d -> has_id missions ms_id (rn_mission_id row) d = true.

Section Missions.
Context `{Env}.

Lemma missions_update (c : RunRow -> bool) (f : RunRow -> RunRow) d :
  (forall r, rn_mission_id (f r) = rn_mission_id r) ->
  has_missions d -> has_missions (set_runs (map (fun r => if c r then f r else r) (runs d)) d).
Proof.
  intros Hf Hd row (r & -> & Hr)%list_elem_of_fmap.
  assert (rn_mission_id (if c r then f r else r) = rn_mission_id r) as -> by (by destruct (c r)).
  by apply Hd.
Qed.

Lemma missions_command c : preserves has_missions (run_command c).
Proof.
  destruct c; frame_command ltac:(first
    [ frame_read
    | lazymatch goal with
      | |- preserves _ (update_rows runs _ _ _) =>
          apply preserves_update; intros ? ?; apply missions_update; [done|assumption]
      | |- preserves _ (insert_row missions _ _ _ _ _) =>
          apply preserves_insert; intros d Hd _ _ row Hrow; specialize (Hd row Hrow);
          unfold has_id in *; cbn [missions set_missions]; by rewrite existsb_app, Hd
      | |- preserves _ (insert_row runs _ _ _ _ _) =>
          apply preserves_insert; intros d Hd _ Href row;
          intros [Hrow| ->%list_elem_of_singleton]%elem_of_app; [by apply Hd|done]
      end ]).
Qed.

Lemma empty_has_missions : has_missions empty_db.
Proof. by intros row []%not_elem_of_nil. Qed.

(** What a computation that returns gives, and the store it leaves. *)
Definition yields {A} (Q : A -> Store -> Prop) (m : M A) : Prop :=
  forall s s' a, m s = (s', Ok a) -> Q a s'.

Lemma yields_bind {A B} Q (m : M A) (f : A -> M B) : (forall a, yields Q (f a)) -> yields Q (m ≫= f).
Proof. intros Hf s s' b (s1 & a & _ & Hb)%mbind_ok. by eapply Hf. Qed.

Lemma yields_transaction {A} Q (m : M A) : yields Q m -> yields Q (transaction m).
Proof. intros Hm s s' a. rewrite transaction_ok. apply Hm. Qed.

(** A created run is in the table, so its mission can be read back. *)
Lemma created_run_stored input :
  yields (fun created s => exists row, row ∈ runs (db s) /\ created.2 = runFromRow row)
    (createRun input).
Proof.
  unfold createRun. do 6 (apply yields_bind; intros ?). apply yields_transaction.
  do 12 (apply yields_bind; intros ?). intros s s' created Hok.
  apply mbind_ok in Hok as (s1 & run & Hrun & Hok). injection Hok as <- <-.
  rewrite mustRun_eq in Hrun. destruct (run_row _ _) as [row|] eqn:Hrow; [|done].
  injection Hrun as <- <-. exists row. split; [|done].
  by apply find_some in Hrow as [?%list_elem_of_In _].
Qed.

Lemma created_mission input s s' agent goal run :
  has_missions (db s) -> createRun input s = (s', Ok (agent, goal, run)) ->
  exists mission, getMission (run_missionId run) s' = (s', Ok (Some mission)).
Proof.
  intros Hs Hok. pose proof (missions_command (c_createRun input) s Hs) as Hs'.
  cbn [run_command] in Hs'. unfold void, mbind, M_bind in Hs'. rewrite Hok in Hs'. cbn [fst] in Hs'.
  apply created_run_stored in Hok as (row & Hrow & Heq). cbn [snd] in Heq. subst run.
  specialize (Hs' row Hrow). apply existsb_exists in Hs' as (m & Hm & Hid).
  unfold getMission, select_row, query. cbn [runFromRow run_missionId].
  destruct (find _ _) as [mission|] eqn:E; [by exists mission|].
  pose proof (find_none _ _ E m Hm) as Hn. cbn in Hn. congruence.
Qed.
End Missions.

(** ** What a request does *)

(** The commands of the store that a request can run. *)
Definition http_command (c : command) : bool :=
  match c with
  | c_createRun _ | c_executeCommand _ _ _ _ | c_recordSteeringInput _ _ _ _
  | c_recordCheckpointRestore _ _ _ _ => true
  | c_resolveApproval _ _ status => (status === aps_approved) || (status === aps_rejected)
  | _ => false
  end.

Lemma http_typed c : http_command c = true -> typed c = true.
Proof. destruct c; try done. by destruct status. Qed.

Section Effects.
Context `{Env} {Outside : Type}.
#[local] Abbreviation W := (World Outside).

(** The computation changes nothing, or not the store. *)
Definition still {A} (m : IO W A) : Prop := forall w, (m w).1 = w.
Definition quiet {A} (m : IO W A) : Prop := forall w, (m w).1.1 = w.1.

(** It runs at most one command of a request. *)
Definition at_most_one {A} (m : IO W A) : Prop := forall w,
  (m w).1.1 = w.1 \/ exists c, http_command c = true /\ (m w).1.1 = (run_command c w.1).1.

Lemma still_quiet {A} (m : IO W A) : still m -> quiet m.
Proof. intros Hm w. by rewrite Hm. Qed.
Lemma quiet_once {A} (m : IO W A) : quiet m -> at_most_one m.
Proof. intros Hm w. left. apply Hm. Qed.

Lemma still_ret {A} (a : A) : still (mret a).
Proof. done. Qed.
Lemma still_throw {A} e : still (io_throw e : IO W A).
Proof. done. Qed.
Lemma still_lift {A} (r : result fault A) : still (io_lift r).
Proof. done. Qed.
Lemma still_read {A} (f : Db -> A) : still (on_store (query f)).
Proof. by intros [s o]. Qed.
Lemma still_getCheckpoint runId checkpointId :
  still (on_store (getCheckpoint runId checkpointId)).
Proof.
  apply (still_read (fun d => find (fun c => cp_id c === checkpointId)
    (sort_by (key_le cp_sequence) (List.filter (fun c => cp_run_id c === runId) (checkpoints d))))).
Qed.
Lemma still_bind {A B} (m : IO W A) (f : A -> IO W B) :
  still m -> (forall a, still (f a)) -> still (m ≫= f).
Proof.
  intros Hm Hf w. unfold mbind, IO_bind. specialize (Hm w).
  destruct (m w) as [w1 [a|e]]; cbn in Hm; subst w1; [apply Hf|done].
Qed.

Lemma store_quiet_bind {A B} (m : IO W A) (f : A -> IO W B) :
  quiet m -> (forall a, quiet (f a)) -> quiet (m ≫= f).
Proof.
  intros Hm Hf w. unfold mbind, IO_bind. specialize (Hm w).
  destruct (m w) as [w1 [a|e]]; cbn [fst] in *; [by rewrite Hf|done].
Qed.

Lemma quiet_when b (m : IO W unit) : quiet m -> quiet (io_when b m).
Proof. intros Hm. destruct b; [done|]. by intros w. Qed.

Lemma once_after_quiet {A B} (m : IO W A) (f : A -> IO W B) :
  quiet m -> (forall a, at_most_one (f a)) -> at_most_one (m ≫= f).
Proof.
  intros Hm Hf w. unfold mbind, IO_bind. specialize (Hm w).
  destruct (m w) as [w1 [a|e]]; cbn [fst] in *; [|by left]. rewrite <- Hm. apply Hf.
Qed.

Lemma once_then_quiet {A B} (m : IO W A) (f : A -> IO W B) :
  at_most_one m -> (forall a, quiet (f a)) -> at_most_one (m ≫= f).
Proof.
  intros Hm Hf w. unfold mbind, IO_bind. specialize (Hm w).
  destruct (m w) as [w1 [a|e]]; cbn [fst] in *; [|done].
  specialize (Hf a w1). cbn in Hf. by rewrite <- Hf in Hm.
Qed.

Lemma once_command {A} (c : command) (m : M A) :
  run_command c = void m -> http_command c = true -> at_most_one (on_store m).
Proof.
  intros Hc Hh [s o]. right. exists c. split; [done|]. rewrite Hc. cbn.
  unfold on_store, void, mbind, M_bind. cbn. by destruct (m s) as [s1 [a|e]].
Qed.
End Effects.

(** ** Refusals *)

Definition refused (response : Response) : bool :=
  match response with Refuse _ _ _ _ => true | _ => false end.

Section Atomic.
Context `{Env} {Outside : Type}.
#[local] Abbreviation W := (World Outside).

(** A computation that throws leaves the tables as they were. *)
Definition rolls_back {A} (m : M A) : Prop := forall s s' e, m s = (s', Throw e) -> db s' = db s.

Lemma transaction_rolls_back {A} (m : M A) : rolls_back (transaction m).
Proof. intros s s' e. unfold transaction. destruct (m s) as [s1 [a|x]]; by intros [= <- _]. Qed.

Lemma rolls_back_after {A B} (m : M A) (f : A -> M B) :
  (forall s, db (m s).1 = db s) -> (forall a, rolls_back (f a)) -> rolls_back (m ≫= f).
Proof.
  intros Hm Hf s s' e. specialize (Hm s). unfold mbind, M_bind.
  destruct (m s) as [s1 [a|x]]; cbn [fst] in Hm; rewrite <- Hm; [apply Hf|by intros [= <- _]].
Qed.

Lemma createRun_rolls_back input : rolls_back (createRun input).
Proof.
  unfold createRun. do 6 (apply rolls_back_after; [done|intros ?]). apply transaction_rolls_back.
Qed.

Lemma resolveApproval_rolls_back a r s : rolls_back (resolveApproval a r s).
Proof. apply rolls_back_after; [done|intros now]. apply transaction_rolls_back. Qed.

Lemma recordCheckpointRestore_rolls_back a b c d : rolls_back (recordCheckpointRestore a b c d).
Proof. apply rolls_back_after; [done|intros now]. apply transaction_rolls_back. Qed.

(** A computation of the handler that throws or refuses leaves the tables as
    they were. *)
Definition atomic (m : IO W Response) : Prop := forall w, has_missions (db w.1) ->
  match (m w).2 with
  | Ok response => refused response = true -> db (m w).1.1 = db w.1
  | Throw _ => db (m w).1.1 = db w.1
  end.

Lemma quiet_atomic (m : IO W Response) : quiet m -> atomic m.
Proof. intros Hm w _. rewrite Hm. by destruct (m w).2. Qed.

Lemma atomic_after {A} (m : IO W A) (f : A -> IO W Response) :
  quiet m -> (forall a, atomic (f a)) -> atomic (m ≫= f).
Proof.
  intros Hm Hf w Hw. unfold mbind, IO_bind. specialize (Hm w).
  destruct (m w) as [w1 [a|e]]; cbn [fst snd] in *; [|by rewrite Hm].
  rewrite <- Hm in Hw |- *. by apply Hf.
Qed.

(** It answers, and does not refuse. *)
Definition answers (m : IO W Response) (w : W) : Prop :=
  exists w' response, m w = (w', Ok response) /\ refused response = false.

(** A command that rolls back, and an answer once it has returned. *)
Lemma atomic_command {A} (m : M A) (f : A -> IO W Response) :
  rolls_back m ->
  (forall s s' a o, has_missions (db s) -> m s = (s', Ok a) -> answers (f a) (s', o)) ->
  atomic (on_store m ≫= f).
Proof.
  intros Hm Hf [s o] Hw. unfold mbind, IO_bind, on_store. cbn [fst snd] in *.
  destruct (m s) as [s1 [a|e]] eqn:E; cbn [fst snd]; [|by eapply Hm].
  destruct (Hf _ _ _ o Hw E) as (w' & response & -> & Hr). cbn [snd]. by rewrite Hr.
Qed.

Lemma answers_ret response w : refused response = false -> answers (mret response) w.
Proof. intros Hr. by exists w, response. Qed.
End Atomic.

Ltac still_tac := repeat
  lazymatch goal with
  | |- still (mbind _ _) => apply still_bind; [|intros ?]
  | |- still (mret _) => apply still_ret
  | |- still (io_throw _) => apply still_throw
  | |- still (io_lift _) => apply still_lift
  | |- still (on_store _) => apply still_read
  | |- still (let _ := _ in _) => cbv zeta
  | |- still (match ?x with _ => _ end) => destruct x
  end.

(** One command, after reads and before what leaves the store alone. *)
Ltac once_tac leaf := repeat first
  [ leaf
  | lazymatch goal with
    | |- at_most_one (mbind _ (on_store (createRun ?i))) =>
        apply once_then_quiet; [by apply (once_command (c_createRun i))|intros ?]
    | |- at_most_one (mbind _ (on_store (executeCommand ?a ?b ?c ?d))) =>
        apply once_then_quiet; [by apply (once_command (c_executeCommand a b c d))|intros ?]
    | |- at_most_one (mbind _ (on_store (recordSteeringInput ?a ?b ?c ?d))) =>
        apply once_then_quiet; [by apply (once_command (c_recordSteeringInput a b c d))|intros ?]
    | |- at_most_one (mbind _ (on_store (recordCheckpointRestore ?a ?b ?c ?d))) =>
        apply once_then_quiet; [by apply (once_command (c_recordCheckpointRestore a b c d))|intros ?]
    | |- at_most_one (mbind _ _) => apply once_after_quiet; [|intros ?]
    | |- at_most_one (let _ := _ in _) => cbv zeta
    | |- at_most_one (match ?x with _ => _ end) => destruct x eqn:?
    | |- at_most_one _ => apply quiet_once
    | |- quiet (match ?x with _ => _ end) => destruct x eqn:?
    | |- quiet (mbind _ _) => apply store_quiet_bind; [|intros ?]
    | |- quiet (mret _) => apply still_quiet, still_ret
    | |- quiet (io_throw _) => apply still_quiet, still_throw
    | |- quiet (io_lift _) => apply still_quiet, still_lift
    | |- quiet (io_when _ _) => apply quiet_when
    | |- quiet (on_store (getCheckpoint _ _)) => apply still_quiet, still_getCheckpoint
    | |- quiet (on_store _) => apply still_quiet, still_read
    end ].

Ltac atomic_tac leaf := repeat first
  [ leaf
  | lazymatch goal with
    | |- atomic (mbind _ _) => apply atomic_after; [|intros ?]
    | |- atomic (let _ := _ in _) => cbv zeta
    | |- atomic (match ?x with _ => _ end) => destruct x eqn:?
    | |- atomic (mret _) => apply quiet_atomic, still_quiet, still_ret
    | |- atomic (io_throw _) => apply quiet_atomic, still_quiet, still_throw
    | |- quiet (match ?x with _ => _ end) => destruct x eqn:?
    | |- quiet (mret _) => apply still_quiet, still_ret
    | |- quiet (io_lift _) => apply still_quiet, still_lift
    | |- quiet (on_store _) => apply still_quiet, still_read
    end ].

(** An approval is only ever approved or rejected. *)
Lemma parsed_resolution value resolverId status :
  parseResolveApproval value = Ok (resolverId, status) ->
  http_command (c_resolveApproval "" "" status) = true.
Proof.
  unfold parseResolveApproval. destruct (requiredString value "status") as [st|e]; [|done].
  cbn [mbind result_bind].
  destruct (st === "approved"); [|destruct (st === "rejected"); [|done]];
    cbn [mbind result_bind mret result_ret];
    (destruct (requiredString value "resolverId"); [|done]); by intros [= <- <-].
Qed.

(** A command with a receipt returns the run of the receipt. *)
Lemma executed_before `{Env} commandId runId receipt command reason s :
  receipt_of commandId runId (db s) = Some receipt ->
  executeCommand command commandId reason runId s = (s, Ok (cr_result receipt)).
Proof.
  intros Hr. unfold executeCommand, transaction, select_row, query, mbind, M_bind.
  fold (receipt_of commandId runId (db s)). by rewrite Hr.
Qed.

Section Requests.
Context `{Env} {Outside : Type}.
#[local] Abbreviation W := (World Outside).
Context (parse_url : string -> option URL) (decodeURIComponent : string -> option string).
Context (JSON_parse : string -> option JsonValue) (Number : string -> num).
Context (driver_message : string -> string) (crypto_randomUUID : IO W string).
Context (as_budget : JsonValue -> RunBudget) (as_permissions : JsonValue -> PermissionPolicy).
Context (as_sandbox : JsonValue -> SandboxPolicy).

#[local] Abbreviation handle :=
  (handle parse_url decodeURIComponent JSON_parse Number driver_message crypto_randomUUID
     as_budget as_permissions as_sandbox).

(** What the server is composed with leaves the store alone. *)
Record quiet_ports (server : @OttiliDaemonServer Outside) : Prop := {
  qp_uuid : quiet crypto_randomUUID;
  qp_hook : forall hook, ds_onRunCommand server = Some hook -> forall id c, quiet (hook id c);
  qp_restore : forall restore, ds_checkpointRestorer server = Some restore ->
    forall request, quiet (restore request) }.

Lemma get_still server request : im_method request ?? "GET" = "GET" -> still (handle server request).
Proof.
  intros Hget. assert (forall m : IO W Response, still m -> still (io_catch m
    (fun error => mret (respondException driver_message error)))) as Hcatch.
  { intros m Hm w. unfold io_catch. specialize (Hm w). by destruct (m w) as [w1 [a|e]]. }
  apply Hcatch. unfold dispatch. rewrite Hget. cbv zeta.
  assert (("GET" === "POST") = false) as Hpost by done. rewrite !Hpost. cbn [andb].
  unfold get_runs, not_found. still_tac.
  unfold handle_run. cbv zeta. rewrite !Hpost. cbn [andb].
  unfold get_run, get_agents, get_agent_events, get_checkpoints, get_approvals, get_events, get_stream,
    not_found.
  still_tac.
Qed.

Lemma post_approval_once request run approvalId :
  at_most_one (post_approval (Outside:=Outside) JSON_parse request run approvalId).
Proof.
  unfold post_approval. apply once_after_quiet; [apply still_quiet, still_read|intros approvals].
  destruct (find _ approvals) as [approval|]; [|apply quiet_once, still_quiet, still_ret].
  apply once_after_quiet; [apply still_quiet, still_lift|intros body].
  intros w. unfold mbind, IO_bind, io_lift.
  destruct (parseResolveApproval body) as [[resolverId status]|e] eqn:E; [|by left].
  apply parsed_resolution in E.
  apply (once_then_quiet (on_store (resolveApproval (ap_id approval) resolverId status))).
  - by apply (once_command (c_resolveApproval (ap_id approval) resolverId status)).
  - intros a. apply still_quiet, still_ret.
Qed.

Lemma handle_once server request : quiet_ports server -> at_most_one (handle server request).
Proof.
  intros [Huuid Hhook Hrestore].
  assert (forall m : IO W Response, at_most_one m -> at_most_one (io_catch m
    (fun error => mret (respondException driver_message error)))) as Hcatch.
  { intros m Hm w. unfold io_catch. specialize (Hm w). by destruct (m w) as [w1 [a|e]]. }
  apply Hcatch. unfold dispatch, handleShutdown, post_run, get_runs, not_found. cbv zeta.
  unfold handle_run, post_command, post_restore, get_run, get_agents, get_agent_events,
    get_checkpoints, get_approvals, get_events, get_stream, post_steering, not_found, command_key.
  cbv zeta. once_tac ltac:(first [apply post_approval_once | apply Huuid | by apply Hhook | by apply Hrestore]).
Qed.

(** C27: What a request can do to the store, when what the server is composed with
    (the source of ids, the hook that is told of run commands and the restorer of
    checkpoints) leaves the store alone, as the daemon's parts do.  Every request is answered.  A
    server that listens beyond the loopback interface has a token, and while it
    has one a request that does not carry it is refused and changes nothing.  A
    GET changes nothing either, in the store or outside.  Any other request runs
    at most one command: it creates a run, pauses, resumes or cancels one, steers
    it, approves or rejects an approval, or records a restore; and none makes a
    run complete. *)
Theorem requests_confined options uuid server request w :
  new_OttiliDaemonServer options uuid = Ok server -> quiet_ports server ->
  let '(w', answer) := handle server request w in
  (exists response, answer = Ok response) /\
  (isLoopbackHost (ds_host server) = false -> ds_token server <> None) /\
  (forall token, ds_token server = Some token ->
     im_authorization request <> Some ("Bearer " +:+ token) ->
     w' = w /\ answer = Ok (Refuse 401 "permission_denied" "Daemon authentication is required." false)) /\
  (im_method request ?? "GET" = "GET" -> w' = w) /\
  (w'.1 = w.1 \/ exists c, http_command c = true /\ w'.1 = (run_command c w.1).1) /\
  (forall runId, open_run runId (db w.1) -> open_run runId (db w'.1)).
Proof.
  intros Hnew Hports. pose proof (handle_once server request Hports w) as Honce.
  pose proof (fun Hget => get_still server request Hget w) as Hget.
  destruct (handle server request w) as [w' answer] eqn:E. cbn [fst] in *.
  split; [|split; [|split; [|split; [exact Hget|split; [exact Honce|]]]]].
  - unfold Server.handle, io_catch in E. destruct (dispatch _ _ _ _ _ _ _ _ _ _ _) as [w1 [r|e]];
      injection E as <- <-; by eexists.
  - unfold new_OttiliDaemonServer in Hnew. destruct (negb _ && _) eqn:Hc; [done|].
    injection Hnew as <-. cbn. intros Hl Hn. by rewrite Hl, Hn in Hc.
  - intros token Ht Ha. unfold Server.handle, io_catch, dispatch, authorized in E. rewrite Ht in E.
    rewrite bool_decide_eq_false_2 in E by done. by injection E as <- <-.
  - intros runId Ho. destruct Honce as [->|(c & Hc & ->)]; [done|].
    apply open_command; [by apply http_typed| |done]. intros a iv l rs r ->. done.
Qed.

(** The hook returns: it wakes or aborts an execution of this process. *)
Definition hook_returns (server : @OttiliDaemonServer Outside) : Prop :=
  forall hook, ds_onRunCommand server = Some hook ->
  forall id c w, exists w', hook id c w = (w', Ok tt).

Lemma post_run_atomic request :
  atomic (post_run (Outside:=Outside) JSON_parse as_budget as_permissions as_sandbox request).
Proof.
  unfold post_run. do 2 (apply atomic_after; [apply still_quiet, still_lift|intros ?]).
  apply atomic_command; [apply createRun_rolls_back|].
  intros s s' [[agent goal] run] o Hs Hok.
  destruct (created_mission _ _ _ _ _ _ Hs Hok) as [mission Hm].
  eexists _, _. unfold mbind, IO_bind, on_store. cbn [fst snd]. by rewrite Hm.
Qed.

Lemma post_command_atomic server request run : quiet_ports server -> hook_returns server ->
  atomic (post_command JSON_parse crypto_randomUUID server request run).
Proof.
  intros [Huuid _ _] Hhook. unfold post_command.
  do 2 (apply atomic_after; [apply still_quiet, still_lift|intros ?]). destruct a0 as [command reason].
  apply atomic_after.
  { unfold command_key. destruct (im_idempotency_key request) as [|?|[|? ?]];
      first [apply Huuid | apply still_quiet, still_ret]. }
  intros commandId. apply atomic_command; [apply transaction_rolls_back|].
  intros s s' value o _ _. unfold answers, mbind, IO_bind.
  destruct (ds_onRunCommand server) as [hook|] eqn:Eh; [|by eexists _, _].
  destruct (_ || _); cbn [io_when]; [|by eexists _, _].
  destruct (Hhook hook Eh (run_id run) command (s', o)) as [w' ->]. by eexists _, _.
Qed.

Lemma post_steering_atomic request run :
  atomic (post_steering (Outside:=Outside) JSON_parse request run).
Proof.
  unfold post_steering. do 2 (apply atomic_after; [apply still_quiet, still_lift|intros ?]).
  apply atomic_command; [apply transaction_rolls_back|]. intros. by apply answers_ret.
Qed.

Lemma post_approval_atomic request run approvalId :
  atomic (post_approval (Outside:=Outside) JSON_parse request run approvalId).
Proof.
  unfold post_approval. apply atomic_after; [apply still_quiet, still_read|intros approvals].
  destruct (find _ approvals) as [approval|]; [|apply quiet_atomic, still_quiet, still_ret].
  do 2 (apply atomic_after; [apply still_quiet, still_lift|intros ?]). destruct a0 as [resolver status].
  apply atomic_command; [apply resolveApproval_rolls_back|]. intros. by apply answers_ret.
Qed.

Lemma post_restore_atomic server run checkpointId : quiet_ports server ->
  atomic (post_restore server run checkpointId).
Proof.
  intros [_ _ Hrestore]. unfold post_restore.
  apply atomic_after; [apply still_quiet, still_getCheckpoint|intros [checkpoint|]];
    [|apply quiet_atomic, still_quiet, still_ret].
  destruct (cp_workspace_ref checkpoint); [|apply quiet_atomic, still_quiet, still_ret].
  destruct (_ !== _); [apply quiet_atomic, still_quiet, still_ret|].
  destruct (ds_checkpointRestorer server) as [restore|] eqn:Er;
    [|apply quiet_atomic, still_quiet, still_ret].
  apply atomic_after; [apply still_quiet, still_read|intros [mission|]];
    [|apply quiet_atomic, still_quiet, still_ret].
  apply atomic_after; [by apply Hrestore|intros [before after]].
  apply atomic_command; [apply recordCheckpointRestore_rolls_back|]. intros. by apply answers_ret.
Qed.

Lemma dispatch_atomic server request : quiet_ports server -> hook_returns server ->
  atomic (dispatch parse_url decodeURIComponent JSON_parse Number crypto_randomUUID
            as_budget as_permissions as_sandbox server request).
Proof.
  intros Hports Hhook. unfold dispatch, handleShutdown, get_runs, not_found. cbv zeta.
  unfold handle_run, get_run, get_agents, get_agent_events, get_checkpoints, get_approvals, get_events,
    get_stream, not_found. cbv zeta.
  atomic_tac ltac:(first
    [ apply post_run_atomic | by apply post_command_atomic | apply post_steering_atomic
    | apply post_approval_atomic | by apply post_restore_atomic ]).
Qed.

(** C28: A refused request changed nothing.  In a store where every run has its
    mission, as in every store reached by commands, and with a server whose parts
    leave the store alone and whose hook for run commands returns, as the daemon's
    do, a request that is answered with an error has left the tables exactly as they were: a body that is too
    long, malformed or incomplete is refused before a command runs, a command
    that throws is rolled back, and nothing fails after a command succeeded; a
    run that was created is always read back with its mission. *)
Theorem refused_requests_change_nothing server request w w' status code message retryable :
  quiet_ports server -> hook_returns server -> has_missions (db w.1) ->
  handle server request w = (w', Ok (Refuse status code message retryable)) ->
  db w'.1 = db w.1 /\ has_missions (db w'.1).
Proof.
  intros Hports Hhook Hm Hr. assert (db w'.1 = db w.1) as Hd; [|by rewrite Hd].
  pose proof (dispatch_atomic server request Hports Hhook w Hm) as Ha.
  unfold Server.handle, io_catch in Hr. destruct (dispatch _ _ _ _ _ _ _ _ _ _ w) as [w1 [r|e]];
    cbn [fst snd] in Ha; [|by injection Hr as <- _].
  injection Hr as -> ->. by apply Ha.
Qed.

(** The request is a POST to the commands of the run, under one key. *)
Record commands_request (request : IncomingMessage) (runId commandId : string) : Prop := {
  cq_method : im_method request = Some "POST";
  cq_route : exists url, parse_url (im_url request ?? "/") = Some url /\
    splitRunRoute decodeURIComponent (url_pathname url) = Ok (Some (runId, ["commands"]));
  cq_key : im_idempotency_key request = one_header commandId }.

Lemma commands_dispatch server request runId commandId w :
  commands_request request runId commandId -> authorized server request = true ->
  dispatch parse_url decodeURIComponent JSON_parse Number crypto_randomUUID
    as_budget as_permissions as_sandbox server request w =
  match run_row runId (db w.1) with
  | None => (w, Ok (Refuse 404 "not_found" ("Run '" +:+ runId +:+ "' was not found.") false))
  | Some row => post_command JSON_parse crypto_randomUUID server request (runFromRow row) w
  end.
Proof.
  intros [Hm (url & Hu & Hr) _] Ha. unfold dispatch. rewrite Ha, Hm, Hu. cbv zeta.
  cbn [negb or_else]. assert (("POST" === "GET") = false) as Hpost by done. rewrite !Hpost.
  assert (("POST" === "POST") = true) as Hpost' by done. rewrite !Hpost'. cbn [andb].
  assert (forall path, splitRunRoute decodeURIComponent path = Ok None ->
    (url_pathname url === path) = false) as Hother.
  { intros path Hn. apply bool_decide_eq_false. intros Heq. by rewrite Heq, Hn in Hr. }
  rewrite !Hother by reflexivity.
  unfold mbind, IO_bind at 1, io_lift. rewrite Hr. unfold getRun, query, on_store, run_row.
  destruct w as [s o]. unfold IO_bind. cbn [fst snd].
  destruct (find _ (runs (db s))) as [row|]; cbn [option_map]; [|reflexivity].
  unfold handle_run. cbv zeta. rewrite !Hpost, !Hpost'. reflexivity.
Qed.

(** What answers a command: the run that [executeCommand] returned. *)
Lemma post_command_ok server request runId commandId row w w' response :
  commands_request request runId commandId -> run_row runId (db w.1) = Some row ->
  post_command JSON_parse crypto_randomUUID server request (runFromRow row) w = (w', Ok response) ->
  quiet_ports server ->
  exists body command reason value,
    readObject JSON_parse request = Ok body /\ parseRunCommand body = Ok (command, reason) /\
    executeCommand command commandId reason runId w.1 = (w'.1, Ok value) /\
    response = Answer 200 (v_run value).
Proof.
  intros [_ _ Hk] Hrow%run_row_id Hok [_ Hhook _]. unfold post_command, command_key in Hok. rewrite Hk in Hok.
  cbn [runFromRow run_id] in Hok. rewrite Hrow in Hok.
  unfold mbind, IO_bind, io_lift, mret, IO_ret, on_store in Hok.
  destruct (readObject JSON_parse request) as [body|e] eqn:Eb; [|done].
  destruct (parseRunCommand body) as [[command reason]|e] eqn:Ep; [|done].
  destruct (executeCommand command commandId reason runId w.1) as [s1 [value|e]] eqn:Ee; [|done].
  exists body, command, reason, value. split; [done|]. split; [done|].
  destruct (ds_onRunCommand server) as [hook|] eqn:Eh; cbn [fst snd] in Hok.
  2: { by injection Hok as <- <-. }
  unfold io_when in Hok. destruct (_ || _).
  - pose proof (Hhook hook eq_refl runId command (s1, w.2)) as Hq. cbn [fst] in Hq.
    destruct (hook runId command (s1, w.2)) as [w1 [[]|e]]; [|done]. cbn [fst] in Hq.
    by injection Hok as <- <-; subst s1.
  - unfold mret, IO_ret in Hok. by injection Hok as <- <-.
Qed.

(** C29: A retry of a command is safe, with servers whose parts leave the store alone
    and whose hook for run commands returns.  A client that posted a command with an
    idempotency key and was answered with a run may post it again, at any later
    time, whatever commands ran in between and to whatever instance of the
    daemon serves the store then: it is answered with the same run as the first
    time and changes nothing in the store. *)
Theorem command_retry_is_safe server server' request runId commandId w w1 w2 run :
  commands_request request runId commandId ->
  quiet_ports server -> quiet_ports server' -> hook_returns server' ->
  authorized server request = true -> authorized server' request = true ->
  handle server request w = (w1, Ok (Answer 200 (v_run run))) -> rtc store_step w1.1 w2.1 ->
  exists w3, handle server' request w2 = (w3, Ok (Answer 200 (v_run run))) /\ w3.1 = w2.1.
Proof.
  intros Hq Hports Hports' Hhook' Ha Ha' Hok Hsteps.
  unfold Server.handle, io_catch in Hok |- *.
  rewrite (commands_dispatch _ _ _ _ _ Hq Ha) in Hok. rewrite (commands_dispatch _ _ _ _ _ Hq Ha').
  destruct (run_row runId (db w.1)) as [row|] eqn:Hrow; [|done].
  destruct (post_command _ _ _ _ _ w) as [w1' [response|e]] eqn:Ep;
    [|by unfold respondException in Hok; injection Hok as _ Hok; repeat case_match].
  injection Hok as -> ->.
  destruct (post_command_ok _ _ _ _ _ _ _ _ Hq Hrow Ep Hports)
    as (body & command & reason & value & Hbody & Hparse & Hexec & [= ->]).
  pose proof (executeCommand_receipt _ _ _ _ _ _ _ Hexec) as (receipt & Hr & <-).
  apply (steps_preserve _ _ _ (fun c _ => receipt_command _ _ _ c) Hsteps) in Hr.
  assert (moved runId (rn_status row) (db w2.1)) as (row2 & Hrow2 & _).
  { apply (steps_preserve _ w1.1); [intros; apply moved_command|done|].
    pose proof (moved_command runId (rn_status row)
      (c_executeCommand command commandId reason runId) w.1) as Hm.
    cbn [run_command] in Hm. unfold void, mbind, M_bind in Hm. rewrite Hexec in Hm. cbn [fst] in Hm.
    apply Hm. exists row. split; [done|]. apply rtc_refl. }
  rewrite Hrow2. pose proof (run_row_id _ _ _ Hrow2) as Hid.
  unfold post_command, command_key. rewrite (cq_key _ _ _ Hq). cbn [runFromRow run_id]. rewrite Hid.
  unfold mbind, IO_bind, io_lift. rewrite Hbody, Hparse. unfold mret, IO_ret, on_store.
  rewrite (executed_before _ _ _ _ _ _ Hr). cbn [fst snd].
  destruct (ds_onRunCommand server') as [hook|] eqn:Eh; [|by eexists].
  unfold io_when. destruct (_ || _); [|by eexists].
  destruct (Hhook' hook Eh runId command (w2.1, w2.2)) as [w3 Hw].
  pose proof (qp_hook _ Hports' hook Eh runId command (w2.1, w2.2)) as Hquiet.
  rewrite Hw in Hquiet |- *. by exists w3.
Qed.
End Requests.

(** ** A concrete server *)

Definition demo_url (url : string) : option URL :=
  if startsWith url "/" then Some {| url_pathname := url; url_searchParam := fun _ => None |}
  else None.
Definition demo_decode (segment : string) : option string :=
  if includes segment "%" then None else Some segment.
(** Reads three bodies. *)
Definition demo_json (text : string) : option JsonValue :=
  if text === "pause please" then Some (jobj [("command", jstr "pause")])
  else if text === "stop please" then Some (jobj [("command", jstr "stop")])
  else if text === "approve" then Some (jobj [("status", jstr "approved"); ("resolverId", jstr "me")])
  else None.
Definition demo_number (text : string) : num := NaN.
Definition demo_driver (table : string) : string := "UNIQUE constraint failed: " +:+ table.
Definition demo_uuid : IO (World unit) string := mret "uuid".
Definition demo_budget (value : JsonValue) : RunBudget := no_budget.
Definition demo_permissions (value : JsonValue) : PermissionPolicy := defaultPermissions.
Definition demo_sandbox (value : JsonValue) : SandboxPolicy := defaultSandbox.
#[local] Abbreviation demo_handle := (Server.handle demo_url demo_decode demo_json demo_number
  demo_driver demo_uuid demo_budget demo_permissions demo_sandbox).

(** It listens to the network and has a token. *)
Definition demo_options : @DaemonServerOptions unit :=
  {| dso_host := Some "0.0.0.0"; dso_instanceId := Some "daemon-1"; dso_serverVersion := None;
     dso_token := Some "secret"; dso_onRunCommand := Some (fun _ _ => mret tt);
     dso_acceptsShutdown := false; dso_checkpointRestorer := None |}.
Definition demo_server : @OttiliDaemonServer unit :=
  {| ds_host := "0.0.0.0"; ds_instanceId := "daemon-1"; ds_serverVersion := "0.1.0";
     ds_token := Some "secret"; ds_onRunCommand := Some (fun _ _ => mret tt);
     ds_acceptsShutdown := false; ds_checkpointRestorer := None |}.

Definition demo_post (authorization : option string) (path : string) (chunks : list string)
  : IncomingMessage :=
  {| im_method := Some "POST"; im_url := Some path; im_authorization := authorization;
     im_idempotency_key := one_header "key-1"; im_last_event_id := no_header; im_chunks := chunks;
     im_failure := None |}.
Definition demo_pause (authorization : option string) : IncomingMessage :=
  demo_post authorization ("/v1/runs/" +:+ demo_run +:+ "/commands") ["pause "; "please"].

Lemma demo_quiet : quiet_ports demo_uuid demo_server.
Proof. split; [done|by intros hook [= <-] id c w|done]. Qed.
Lemma demo_hook : hook_returns demo_server.
Proof. intros hook [= <-] id c w. by exists w. Qed.

Lemma requests_confined_witness :
  demo_handle demo_server (demo_pause (Some "Bearer guess")) (demo_store, tt) =
  ((demo_store, tt),
   Ok (Refuse 401 "permission_denied" "Daemon authentication is required." false)).
Proof.
  pose proof (requests_confined demo_url demo_decode demo_json demo_number demo_driver demo_uuid
    demo_budget demo_permissions demo_sandbox demo_options "" demo_server
    (demo_pause (Some "Bearer guess")) (demo_store, tt) eq_refl demo_quiet) as Hall.
  destruct (Server.handle _ _ _ _ _ _ _ _ _ _ _ _) as [w' answer].
  destruct Hall as (_ & _ & Hrefused & _).
  destruct (Hrefused "secret" eq_refl) as [-> ->]; [|reflexivity]. intros Heq. discriminate Heq.
Defined.

Definition demo_stop : IncomingMessage :=
  demo_post (Some "Bearer secret") ("/v1/runs/" +:+ demo_run +:+ "/commands") ["stop "; "please"].
Definition demo_stopped : World unit * result fault Response :=
  demo_handle demo_server demo_stop (demo_store, tt).

Lemma refused_requests_change_nothing_witness :
  demo_stopped.2 =
    Ok (Refuse 400 "invalid_request" "command must be pause, resume, or cancel." false) /\
  db demo_stopped.1.1 = db (demo_store, tt).1.
Proof.
  split; [vm_compute; reflexivity|].
  refine (proj1 (refused_requests_change_nothing demo_url demo_decode demo_json demo_number demo_driver
    demo_uuid demo_budget demo_permissions demo_sandbox demo_server demo_stop
    (demo_store, tt) demo_stopped.1 400 "invalid_request" "command must be pause, resume, or cancel."
    false demo_quiet demo_hook _ _)).
  - apply (steps_preserve _ empty_store); [intros; apply missions_command| |apply empty_has_missions].
    apply after_commands_steps. by repeat constructor.
  - vm_compute. reflexivity.
Defined.

(** The run is paused by the request, and resumed since. *)
Definition demo_paused : World unit * result fault Response :=
  demo_handle demo_server (demo_pause (Some "Bearer secret")) (demo_store, tt).
Definition no_run : Run :=
  {| run_id := ""; run_missionId := ""; run_status := run_queued; run_title := "";
     run_budget := no_budget; run_usage := EMPTY_BUDGET_USAGE; run_currentGoalId := None;
     run_startedAt := None; run_completedAt := None; run_blockedReason := None; run_revision := 0;
     run_createdAt := 0; run_updatedAt := 0 |}.
Definition demo_paused_run : Run :=
  match demo_paused.2 with Ok (Answer _ (v_run run)) => run | _ => no_run end.
#[local] Abbreviation demo_resumed := ((run_command (c_resume demo_run None) demo_paused.1.1).1).
Definition with_unit (s : Store) : World unit := (s, tt).
Lemma with_unit_store s : (with_unit s).1 = s.
Proof. done. Qed.

Example demo_resumes : run_status demo_paused_run = run_paused /\
  rn_status <$> run_row demo_run (db demo_resumed) = Some run_running.
Proof. split; vm_compute; reflexivity. Qed.

Lemma command_retry_is_safe_witness :
  exists w3, demo_handle demo_server (demo_pause (Some "Bearer secret")) (with_unit demo_resumed) =
      (w3, Ok (Answer 200 (v_run demo_paused_run))) /\ w3.1 = (with_unit demo_resumed).1.
Proof.
  refine (command_retry_is_safe demo_url demo_decode demo_json demo_number demo_driver demo_uuid
    demo_budget demo_permissions demo_sandbox demo_server demo_server
    (demo_pause (Some "Bearer secret")) demo_run "key-1" (demo_store, tt) demo_paused.1
    (with_unit demo_resumed) demo_paused_run _ _ _ _ _ _ _ _).
  - split; [done| |done]. eexists. split; vm_compute; reflexivity.
  - exact demo_quiet.
  - exact demo_quiet.
  - exact demo_hook.
  - reflexivity.
  - reflexivity.
  - vm_compute. reflexivity.
  - rewrite with_unit_store. apply rtc_once. exists (c_resume demo_run None). by split.
Defined.

(** ** What the code answers where it means something else *)

(** An approval that has been resolved is answered, the second time, as an
    internal error that the client should retry. *)
Definition demo_asked : Store :=
  after_commands [c_requestApproval None None demo_run "May I?" None] demo_store.
Definition demo_approve : IncomingMessage :=
  demo_post (Some "Bearer secret")
    ("/v1/runs/" +:+ demo_run +:+ "/approvals/" +:+ default "" (ap_id <$> head (approvals (db demo_asked))))
    ["approve"].

Example resolved_twice :
  exists w, demo_handle demo_server demo_approve (demo_asked, tt) = w /\
    (match w.2 with Ok (Answer 200 (v_approval _)) => True | _ => False end) /\
    match (demo_handle demo_server demo_approve w.1).2 with
    | Ok (Refuse 500 code _ retryable) => code = "internal" /\ retryable = true
    | _ => False
    end.
Proof. eexists. split; [reflexivity|]. split; vm_compute; done. Qed.

(** A path that cannot be decoded, too. *)
Example malformed_path :
  (demo_handle demo_server (demo_post (Some "Bearer secret") "/v1/runs/%" []) (demo_store, tt)).2 =
  Ok (Refuse 500 "internal" "URI malformed" true).
Proof. vm_compute. reflexivity. Qed.

(** A start that failed leaves a server behind: the next start does not listen
    again but throws another error. *)
Example failed_start_sticks not_running e port state :
  ln_server state = no_server ->
  let '(failed, answer) := start "127.0.0.1" (Throw e) state in
  answer = Throw e /\
  start "127.0.0.1" (Ok port) failed = (failed, Throw (OtherError "Daemon server has no TCP address.")) /\
  (close not_running failed).2 = Throw not_running.
Proof. intros Hs. unfold start. by rewrite Hs. Qed.

(** Closing a server that listens closes every stream and frees the port for
    another start. *)
Lemma close_ends_streams not_running port state :
  ln_server state = bound port ->
  let '(closed, answer) := close not_running state in
  answer = Ok tt /\ ln_server closed = no_server /\
  Forall (fun stream => es_closed stream = true) (ln_eventStreams closed).
Proof.
  intros Hs. unfold close. rewrite Hs. split; [done|]. split; [done|]. cbn.
  apply Forall_forall. by intros stream (s & -> & _)%list_elem_of_fmap.
Qed.
