(* ===== verification/Host.v ===== *)
(** The daemon's composition root, packages/server/src/daemon.ts: one process
    with the store, the scheduler of [Scheduler] and the HTTP interface of
    [Server], and what holds of the three together. *)

From Stdlib Require Import ZArith Lia Ascii String.
From stdpp Require Import base strings list relations.
From S2P Require Import Prelude JsNumber JsString JsCollections Protocol Json Ids StateMachine.
From S2P Require Import Policies Budget StoreData StoreMonad StoreCore StoreRuns StoreTasks.
From S2P Require Import StoreEffects StoreCommands StoreSafety StoreOnce StoreCompletion.
From S2P Require Import Scheduler Provider RuntimeWorld Server ServerFacts.

Open Scope string_scope.
Open Scope list_scope.
#[local] Open Scope Z_scope.

(** ** The process *)

(** What the process holds beside the store: the fields of the scheduler, the
    listener with its streams, and the reason of the first shutdown request.
    Source: packages/server/src/daemon.ts:30-36 [DurableDaemon]. *)
Record DurableDaemon := {
  dd_timer : bool;
  dd_stopping : bool;
  dd_active : jsmap string (option string);
  dd_tick : option Tick;
  dd_listening : Listening;
  dd_shutdownReason : option string }.

#[local] Abbreviation W := (World DurableDaemon).

(** The scheduler of the process, and the process with another one. *)
Definition scheduler_of (w : W) : Daemon :=
  {| dm_store := w.1; dm_timer := dd_timer w.2; dm_stopping := dd_stopping w.2;
     dm_active := dd_active w.2; dm_tick := dd_tick w.2 |}.
Definition with_scheduler (d : Daemon) (w : W) : W :=
  (dm_store d,
   {| dd_timer := dm_timer d; dd_stopping := dm_stopping d; dd_active := dm_active d;
      dd_tick := dm_tick d; dd_listening := dd_listening w.2;
      dd_shutdownReason := dd_shutdownReason w.2 |}).
Definition with_listening (listening : Listening) (w : W) : W :=
  (w.1,
   {| dd_timer := dd_timer w.2; dd_stopping := dd_stopping w.2; dd_active := dd_active w.2;
      dd_tick := dd_tick w.2; dd_listening := listening;
      dd_shutdownReason := dd_shutdownReason w.2 |}).

(** Source: packages/server/src/daemon.ts:50-54 [DurableDaemon.constructor, onRunCommand]. *)
Definition onRunCommand (runId : string) (command : DurableRunCommand) : IO W unit := fun w =>
  if (command === cmd_pause) || (command === cmd_cancel)
  then (with_scheduler
          (abortRun runId ("Run " +:+ DurableRunCommand_str command +:+ " command received")
             (scheduler_of w)).2 w, Ok tt)
  else (w, Ok tt).

(** The options of the HTTP interface.
    Source: packages/server/src/daemon.ts:48-60 [DurableDaemon.constructor, http]. *)
Definition server_options (options : @DaemonServerOptions DurableDaemon) (allowProtocolShutdown : bool)
  : @DaemonServerOptions DurableDaemon :=
  {| dso_host := dso_host options; dso_instanceId := dso_instanceId options;
     dso_serverVersion := dso_serverVersion options; dso_token := dso_token options;
     dso_onRunCommand := Some onRunCommand;
     dso_acceptsShutdown := allowProtocolShutdown || dso_acceptsShutdown options;
     dso_checkpointRestorer := dso_checkpointRestorer options |}.

(** Source: packages/server/src/daemon.ts:71-76 [DurableDaemon.requestShutdown]. *)
Definition requestShutdown (reason : string) (w : W) : W :=
  match dd_shutdownReason w.2 with
  | Some _ => w
  | None =>
      (w.1,
       {| dd_timer := dd_timer w.2; dd_stopping := dd_stopping w.2; dd_active := dd_active w.2;
          dd_tick := dd_tick w.2; dd_listening := dd_listening w.2;
          dd_shutdownReason := Some reason |})
  end.

Section Host.
Context `{Env}.
Context (scheduler : SchedulerOptions) (server : @OttiliDaemonServer DurableDaemon).
Context (handle : IncomingMessage -> IO W Response).

(** Source: packages/server/src/daemon.ts:78-82 [DurableDaemon.start]. *)
Definition host_start (listened : result fault Z) (w : W) : W * result fault DaemonAddress :=
  match Server.start (ds_host server) listened (dd_listening w.2) with
  | (listening, Throw error) => (with_listening listening w, Throw error)
  | (listening, Ok address) =>
      let w := with_listening listening w in
      (with_scheduler (scheduler_start (scheduler_of w)) w, Ok address)
  end.

(** Whether the executions in flight have settled. *)
Definition settled (w : W) : bool :=
  match dd_tick w.2 with
  | Some t => match t_phase t with executing _ _ => false | between _ => true end
  | None => true
  end.

(** [close] up to its first await, and after it.
    Source: packages/server/src/daemon.ts:84-85 [DurableDaemon.close, stop]. *)
Definition close_begin (w : W) : W := with_scheduler (scheduler_stop (scheduler_of w)) w.
(** Source: packages/server/src/daemon.ts:86-88 [DurableDaemon.close, http]. *)
Definition close_end (not_running : fault) (w : W) : W :=
  if settled w then with_listening (Server.close not_running (dd_listening w.2)).1 w else w.

(** What can happen next in the process the constructor composes.
    Source: packages/server/src/daemon.ts:38-61 [DurableDaemon.constructor]. *)
Inductive host_step (w : W) : W -> Prop :=
| host_schedules d : daemon_step scheduler (scheduler_of w) d -> host_step w (with_scheduler d w)
| host_serves request : host_step w (handle request w).1
| host_shutdown reason : host_step w (requestShutdown reason w)
| host_starts listened : host_step w (host_start listened w).1
| host_closing : host_step w (close_begin w)
| host_closed not_running : host_step w (close_end not_running w).
End Host.

(** ** The process refines the scheduler, and so the store *)

Section Refinement.
Context `{Env}.
Context (scheduler : SchedulerOptions).

(** The computation moves the scheduler by its steps alone. *)
Definition daemonic {A} (m : IO W A) : Prop := forall w,
  rtc (daemon_step scheduler) (scheduler_of w) (scheduler_of (m w).1).

Lemma daemonic_same {A} (m : IO W A) : (forall w, (m w).1 = w) -> daemonic m.
Proof. intros Hm w. by rewrite Hm. Qed.
Lemma daemonic_ret {A} (a : A) : daemonic (mret a).
Proof. by apply daemonic_same. Qed.
Lemma daemonic_throw {A} e : daemonic (io_throw e : IO W A).
Proof. by apply daemonic_same. Qed.
Lemma daemonic_lift {A} (r : result fault A) : daemonic (io_lift r).
Proof. by apply daemonic_same. Qed.

(** Commands of anyone else are steps of the scheduler's machine. *)
Lemma commands_daemon s s' d : rtc store_step s s' -> dm_store d = s ->
  rtc (daemon_step scheduler) d (with_store s' d).
Proof.
  intros Hsteps. revert d. induction Hsteps as [s|s s1 s' Hstep _ IH]; intros d <-.
  - by destruct d.
  - eapply rtc_l; [by apply Scheduler.step_command|]. by apply (IH (with_store s1 d)).
Qed.

Lemma daemonic_on_store {A} (m : M A) : commands m -> daemonic (on_store m).
Proof.
  intros Hm [s o]. specialize (Hm s). unfold on_store. cbn [fst snd].
  destruct (m s) as [s1 [a|e]]; apply (commands_daemon _ _ (scheduler_of (s, o)) Hm eq_refl).
Qed.

Lemma daemonic_bind {A B} (m : IO W A) (f : A -> IO W B) :
  daemonic m -> (forall a, daemonic (f a)) -> daemonic (m ≫= f).
Proof.
  intros Hm Hf w. unfold mbind, IO_bind. specialize (Hm w).
  destruct (m w) as [w1 [a|e]]; [|done]. etrans; [exact Hm|apply Hf].
Qed.

Lemma daemonic_when b (m : IO W unit) : daemonic m -> daemonic (io_when b m).
Proof. intros Hm. destruct b; [done|apply daemonic_ret]. Qed.

Lemma scheduler_of_with d w : scheduler_of (with_scheduler d w) = d.
Proof. by destruct d. Qed.

Lemma daemonic_hook runId command : daemonic (onRunCommand runId command).
Proof.
  intros w. unfold onRunCommand. destruct (_ || _); cbn [fst]; [|apply rtc_refl].
  rewrite scheduler_of_with. apply rtc_once, step_abort.
Qed.

(** What is plugged into the HTTP interface, apart from the hook of the process. *)
Context (parse_url : string -> option URL) (decodeURIComponent : string -> option string).
Context (JSON_parse : string -> option JsonValue) (Number : string -> num).
Context (driver_message : string -> string) (crypto_randomUUID : IO W string).
Context (as_budget : JsonValue -> RunBudget) (as_permissions : JsonValue -> PermissionPolicy).
Context (as_sandbox : JsonValue -> SandboxPolicy).
Context (server : @OttiliDaemonServer DurableDaemon).

#[local] Abbreviation handle :=
  (Server.handle parse_url decodeURIComponent JSON_parse Number driver_message crypto_randomUUID
     as_budget as_permissions as_sandbox server).

(** The server runs the process's hook, and the other ports leave the store and
    the scheduler alone. *)
Record host_ports : Prop := {
  hp_hook : ds_onRunCommand server = Some onRunCommand;
  hp_uuid : forall w, (crypto_randomUUID w).1 = w;
  hp_restore : forall restore, ds_checkpointRestorer server = Some restore ->
    forall request w, (restore request w).1 = w }.

Ltac daemonic_tac leaf := repeat first
  [ leaf
  | lazymatch goal with
    | |- daemonic (mbind _ _) => apply daemonic_bind; [|intros ?]
    | |- daemonic (mret _) => apply daemonic_ret
    | |- daemonic (io_throw _) => apply daemonic_throw
    | |- daemonic (io_lift _) => apply daemonic_lift
    | |- daemonic (io_when _ _) => apply daemonic_when
    | |- daemonic (on_store (createRun ?i)) =>
        apply daemonic_on_store; by apply (commands_of (c_createRun i))
    | |- daemonic (on_store (executeCommand ?a ?b ?c ?d)) =>
        apply daemonic_on_store; by apply (commands_of (c_executeCommand a b c d))
    | |- daemonic (on_store (recordSteeringInput ?a ?b ?c ?d)) =>
        apply daemonic_on_store; by apply (commands_of (c_recordSteeringInput a b c d))
    | |- daemonic (on_store (recordCheckpointRestore ?a ?b ?c ?d)) =>
        apply daemonic_on_store; by apply (commands_of (c_recordCheckpointRestore a b c d))
    | |- daemonic (on_store _) => apply daemonic_same; intros [? ?]; reflexivity
    | |- daemonic (let _ := _ in _) => cbv zeta
    | |- daemonic (match ?x with _ => _ end) => destruct x eqn:?
    end ].

Lemma daemonic_approval request run approvalId :
  daemonic (post_approval JSON_parse request run approvalId).
Proof.
  unfold post_approval. apply daemonic_bind; [apply daemonic_same; by intros [? ?]|intros approvals].
  destruct (find _ approvals) as [approval|]; [|apply daemonic_ret].
  apply daemonic_bind; [apply daemonic_lift|intros body]. intros w. unfold mbind, IO_bind, io_lift.
  destruct (parseResolveApproval body) as [[resolver status]|e] eqn:E; [|apply rtc_refl].
  apply parsed_resolution, http_typed in E. revert w.
  apply (daemonic_bind (on_store (resolveApproval (ap_id approval) resolver status)));
    [|intros ?; apply daemonic_ret].
  by apply daemonic_on_store, (commands_of (c_resolveApproval (ap_id approval) resolver status)).
Qed.

Lemma daemonic_handle request : host_ports -> daemonic (handle request).
Proof.
  intros [Hhook Huuid Hrestore].
  assert (forall m : IO W Response, daemonic m -> daemonic (io_catch m
    (fun error => mret (respondException driver_message error)))) as Hcatch.
  { intros m Hm w. unfold io_catch. specialize (Hm w). by destruct (m w) as [w1 [a|e]]. }
  apply Hcatch. unfold dispatch, handleShutdown, post_run, get_runs, not_found. cbv zeta.
  unfold handle_run, post_command, post_restore, get_run, get_agents, get_agent_events,
    get_checkpoints, get_approvals, get_events, get_stream, post_steering, not_found, command_key.
  rewrite Hhook. cbv zeta.
  daemonic_tac ltac:(first
    [ apply daemonic_approval | apply daemonic_hook | by apply daemonic_same, Huuid
    | by apply daemonic_same, Hrestore ]).
Qed.

Lemma daemonic_step w w' : host_ports -> host_step scheduler server handle w w' ->
  rtc (daemon_step scheduler) (scheduler_of w) (scheduler_of w').
Proof.
  intros Hports Hstep. destruct Hstep as [d Hd|request|reason|listened| |not_running].
  - rewrite scheduler_of_with. by apply rtc_once.
  - by apply daemonic_handle.
  - unfold requestShutdown. destruct (dd_shutdownReason w.2); apply rtc_refl.
  - unfold host_start. destruct (Server.start _ _ _) as [listening [a|e]]; cbn [fst]; [|apply rtc_refl].
    rewrite scheduler_of_with. apply rtc_once. apply (step_start scheduler (scheduler_of w)).
  - unfold close_begin. rewrite scheduler_of_with. apply rtc_once, step_stop.
  - unfold close_end. destruct (settled w); apply rtc_refl.
Qed.

(** C32: the whole daemon refines its scheduler.  However requests, the turns of
    the scheduler, the outcomes of its executor, starts, stops and the commands
    of other processes on the same database interleave, the scheduler moves only
    by its own steps, with an aborted controller for a paused or cancelled run
    among them, and the store only by commands; so what holds of every scheduler
    and of every store holds of a daemon that is being talked to. *)
Theorem host_refines_daemon w w' : host_ports -> rtc (host_step scheduler server handle) w w' ->
  rtc (daemon_step scheduler) (scheduler_of w) (scheduler_of w') /\ rtc store_step w.1 w'.1.
Proof.
  intros Hports Hsteps.
  assert (rtc (daemon_step scheduler) (scheduler_of w) (scheduler_of w')) as Hd.
  { induction Hsteps as [w|w w1 w' Hstep _ IH]; [apply rtc_refl|]. etrans; [|exact IH].
    by apply daemonic_step. }
  split; [exact Hd|]. apply (daemon_refines_store _ _ _ Hd).
Qed.

(** ** A pause reaches the executor *)

Definition stopped_status (command : DurableRunCommand) : RunStatus :=
  match command with cmd_cancel => run_cancelled | _ => run_paused end.

(** A pause or cancel that is executed leaves the run paused or cancelled. *)
Lemma executeCommand_stops command commandId reason runId s s' value :
  command <> cmd_resume -> receipt_of commandId runId (db s) = None ->
  executeCommand command commandId reason runId s = (s', Ok value) ->
  has_status runId (stopped_status command) (db s').
Proof.
  intros Hc Hnone. unfold executeCommand. rewrite transaction_ok. intros Hok.
  apply mbind_ok in Hok as (s2 & prior & [= <- Hprior] & Hok).
  fold (receipt_of commandId runId (db s)) in Hprior. rewrite Hnone in Hprior. subst prior.
  apply mbind_ok in Hok as (s2 & target & Ht & Hok). rewrite mustRun_eq in Ht.
  destruct (run_row runId (db s)) as [row|] eqn:Hrow; [|done]. injection Ht as <- <-.
  pose proof (run_row_id _ _ _ Hrow) as Hid.
  apply mbind_ok in Hok as (s3 & result & Ha & Hok).
  assert (has_status runId (stopped_status command) (db s3)) as Hs.
  { destruct command; [| |done]; cbn [apply_command runFromRow run_id stopped_status] in Ha |- *;
      rewrite Hid in Ha;
      (apply mbind_ok in Ha as (s4 & now & [= <- <-] & Ha));
      apply mbind_ok in Ha as (s5 & [] & Ht%transition_has_status & Ha);
      (apply reads_ok in Ha as ->; [|intros ?; apply preserves_mustRun]); done. }
  apply mbind_ok in Hok as (s4 & now & [= <- <-] & Hok).
  apply mbind_ok in Hok as (s5 & [] & Hi & Hok). injection Hok as <- <-.
  unfold insert_row in Hi. case_match; [done|]. injection Hi as <-. exact Hs.
Qed.

(** The hook aborts the execution of its run and no other. *)
Lemma hook_aborts runId command w : command <> cmd_resume ->
  exists w', onRunCommand runId command w = (w', Ok tt) /\ w'.1 = w.1 /\
    (forall signal, jm_get (dd_active w'.2) runId = Some signal -> signal <> None) /\
    (forall other, other <> runId -> jm_get (dd_active w'.2) other = jm_get (dd_active w.2) other).
Proof.
  intros Hc. unfold onRunCommand.
  assert ((command === cmd_pause) || (command === cmd_cancel) = true) as -> by (by destruct command).
  eexists. split; [done|]. unfold abortRun. cbn [scheduler_of dm_active].
  destruct (jm_get (dd_active w.2) runId) as [signal|] eqn:E; cbn [snd with_scheduler fst].
  - split; [done|]. cbn [dd_active with_active dm_active]. split.
    + intros signal'. rewrite jm_get_set_eq. intros [= <-]. by destruct signal.
    + intros other Ho. by rewrite jm_get_set_ne.
  - split; [done|]. unfold scheduler_of. cbn [dd_active dm_active]. split; [|done].
    intros signal. by rewrite E.
Qed.

(** C33: a pause or a cancel reaches the executor.  When a client's pause or
    cancel is answered with a run, then, unless it was a repetition, the run is
    paused or cancelled in the store, and in any case the execution of the run
    in this process, if there is one, has been told to abort, before the client
    has its answer; the executions of other runs are left alone. *)
Theorem pause_reaches_executor request runId commandId body command reason w w' run :
  host_ports -> commands_request parse_url decodeURIComponent request runId commandId ->
  authorized server request = true ->
  readObject JSON_parse request = Ok body -> parseRunCommand body = Ok (command, reason) ->
  command <> cmd_resume -> handle request w = (w', Ok (Answer 200 (v_run run))) ->
  (receipt_of commandId runId (db w.1) = None ->
     has_status runId (stopped_status command) (db w'.1)) /\
  (forall signal, jm_get (dd_active w'.2) runId = Some signal -> signal <> None) /\
  (forall other, other <> runId -> jm_get (dd_active w'.2) other = jm_get (dd_active w.2) other).
Proof.
  intros [Hhook _ _] Hq Ha Hbody Hparse Hc Hok. unfold Server.handle, io_catch in Hok.
  rewrite (commands_dispatch _ _ _ _ _ _ _ _ _ _ _ _ _ Hq Ha) in Hok.
  destruct (run_row runId (db w.1)) as [row|] eqn:Hrow; [|done].
  pose proof (run_row_id _ _ _ Hrow) as Hid.
  unfold post_command, command_key in Hok. rewrite (cq_key _ _ _ _ _ Hq), Hhook in Hok.
  cbn [runFromRow run_id] in Hok. rewrite Hid in Hok.
  unfold mbind, IO_bind, io_lift, mret, IO_ret, on_store in Hok. rewrite Hbody, Hparse in Hok.
  destruct (executeCommand command commandId reason runId w.1) as [s1 [value|e]] eqn:Ee.
  2: { unfold respondException in Hok. injection Hok as _ Hok. by repeat case_match. }
  assert ((command === cmd_pause) || (command === cmd_cancel) = true) as Hb by (by destruct command).
  cbn [fst snd] in Hok. rewrite Hb in Hok. unfold io_when in Hok.
  destruct (hook_aborts runId command (s1, w.2) Hc) as (w1 & Hh & Hs & Habort & Hother).
  rewrite Hh in Hok. injection Hok as <- _. split; [|done].
  intros Hnone. rewrite Hs. by eapply executeCommand_stops.
Qed.
End Refinement.

(** ** A concrete process *)

(** It executes the run of the store, whose controller is not aborted. *)
Definition demo_process : DurableDaemon :=
  {| dd_timer := true; dd_stopping := false; dd_active := [(demo_run, None)]; dd_tick := None;
     dd_listening := {| ln_server := no_server; ln_eventStreams := [] |};
     dd_shutdownReason := None |}.
Definition demo_host : @OttiliDaemonServer DurableDaemon :=
  {| ds_host := "127.0.0.1"; ds_instanceId := "daemon-1"; ds_serverVersion := "0.1.0";
     ds_token := Some "secret"; ds_onRunCommand := Some onRunCommand;
     ds_acceptsShutdown := true; ds_checkpointRestorer := None |}.
Definition host_uuid : IO W string := mret "uuid".
#[local] Abbreviation host_handle := (Server.handle demo_url demo_decode demo_json demo_number
  demo_driver host_uuid demo_budget demo_permissions demo_sandbox demo_host).
Definition demo_scheduler : SchedulerOptions :=
  {| so_executorId := "executor-1"; so_host := "host"; so_leaseTtlMs := 1000; so_processId := 1 |}.
Definition demo_halt : IncomingMessage := demo_pause (Some "Bearer secret").
Definition demo_halted : W * result fault Response := host_handle demo_halt (demo_store, demo_process).
Definition demo_halted_run : Run :=
  match demo_halted.2 with Ok (Answer _ (v_run run)) => run | _ => no_run end.

Lemma demo_host_ports : host_ports host_uuid demo_host.
Proof. by split. Qed.

Lemma host_refines_daemon_witness : rtc store_step (demo_store, demo_process).1 demo_halted.1.1.
Proof.
  refine (proj2 (host_refines_daemon demo_scheduler demo_url demo_decode demo_json demo_number
    demo_driver host_uuid demo_budget demo_permissions demo_sandbox demo_host
    (demo_store, demo_process) demo_halted.1 demo_host_ports _)).
  apply rtc_once, (host_serves demo_scheduler demo_host host_handle (demo_store, demo_process) demo_halt).
Defined.

Lemma pause_reaches_executor_witness :
  has_status demo_run run_paused (db demo_halted.1.1) /\
  jm_get (dd_active demo_halted.1.2) demo_run = Some (Some "Run pause command received").
Proof.
  destruct (pause_reaches_executor demo_url demo_decode demo_json demo_number
    demo_driver host_uuid demo_budget demo_permissions demo_sandbox demo_host
    demo_halt demo_run "key-1" (jobj [("command", jstr "pause")]) cmd_pause None
    (demo_store, demo_process) demo_halted.1 demo_halted_run) as (Hstatus & _).
  - exact demo_host_ports.
  - split; [reflexivity| |reflexivity]. eexists. split; vm_compute; reflexivity.
  - reflexivity.
  - vm_compute. reflexivity.
  - vm_compute. reflexivity.
  - discriminate.
  - vm_compute. reflexivity.
  - split; [apply Hstatus; vm_compute; reflexivity|vm_compute; reflexivity].
Defined.

(** A retry of a pause that was executed long ago, after the run was resumed and
    is being executed again, is answered from its receipt and leaves the run
    running, but aborts the execution. *)
Definition demo_resumed : Store := (run_command (c_resume demo_run None) demo_halted.1.1).1.
Definition demo_retried : W * result fault Response :=
  host_handle demo_halt (demo_resumed, demo_process).

Example retried_pause_aborts :
  rn_status <$> run_row demo_run (db demo_resumed) = Some run_running /\
  rn_status <$> run_row demo_run (db demo_retried.1.1) = Some run_running /\
  jm_get (dd_active demo_process) demo_run = Some None /\
  jm_get (dd_active demo_retried.1.2) demo_run = Some (Some "Run pause command received").
Proof. repeat split; vm_compute; reflexivity. Qed.
