(* ===== verification/Client.v ===== *)
(** The typed client of the daemon: packages/sdk/src/client.ts.

    A method of the client is the request it sends and what it makes of the
    response; the events of a stream are cut out of the text as it arrives.  The
    theorems are about the client and the server of [Server] together. *)

From Stdlib Require Import ZArith Lia Ascii String.
From stdpp Require Import base strings list relations.
From S2P Require Import Prelude JsNumber JsString JsCollections Protocol Json Ids StateMachine.
From S2P Require Import Policies Budget StoreData StoreMonad StoreCore StoreRuns StoreTasks.
From S2P Require Import StoreEffects StoreCommands StoreSafety StoreJournal.
From S2P Require Import JsDecimal Provider RuntimeWorld Server.

Open Scope string_scope.
Open Scope list_scope.
#[local] Open Scope Z_scope.

(** ** Requests and responses *)

(** What is handed to [fetch]. *)
Record FetchRequest := {
  fr_url : string;
  fr_method : string;
  fr_headers : list (string * string);
  fr_body : option JsonValue }.

(** The response, and [response.json()] where it does not reject. *)
Record FetchResponse := {
  fs_ok : bool;
  fs_status : Z;
  fs_body : option JsonValue }.

(** The fields are what the daemon sent, unchecked.
    Source: packages/sdk/src/client.ts:31-41 [OttiliClientError]. *)
Record OttiliClientError := {
  ce_code : JsonValue;
  ce_message : JsonValue;
  ce_retryable : JsonValue;
  ce_status : Z }.

(** Source: packages/sdk/src/client.ts:43-47 [OttiliClient]. *)
Record OttiliClient := {
  oc_baseUrl : string;
  oc_token : option string }.

(** Source: packages/sdk/src/client.ts:49-53 [OttiliClient.constructor]. *)
Definition new_OttiliClient (baseUrl : string) (token : option string) : OttiliClient :=
  {| oc_baseUrl := strip_trailing "/" baseUrl; oc_token := token |}.

(** Source: packages/sdk/src/client.ts:314-320 [isApiResult]. *)
Definition isApiResult (value : JsonValue) : bool :=
  match json_field value "ok" with
  | Some (jbool true) => match json_field value "value" with Some _ => true | None => false end
  | Some (jbool false) => match json_field value "error" with Some _ => true | None => false end
  | _ => false
  end.

(** [body.ok] of a result. *)
Definition result_ok (body : JsonValue) : bool :=
  match json_field body "ok" with Some (jbool ok) => ok | _ => false end.

(** [error?.key ?? otherwise] *)
Definition error_field (error : option JsonValue) (key : string) (otherwise : JsonValue) : JsonValue :=
  match error with
  | Some error =>
      match json_field error key with Some jnull | None => otherwise | Some value => value end
  | None => otherwise
  end.

(** Source: packages/sdk/src/client.ts:275-284 [OttiliClient.throwResponse]. *)
Definition response_error (response : FetchResponse) : OttiliClientError :=
  let error := match fs_body response with
               | Some body => if isApiResult body && negb (result_ok body)
                              then json_field body "error" else None
               | None => None
               end in
  {| ce_code := error_field error "code" (jstr "transport_error");
     ce_message := error_field error "message"
       (jstr ("Daemon request failed with HTTP " +:+ decimal (fs_status response) +:+ "."));
     ce_retryable := error_field error "retryable" (jbool (500 <=? fs_status response));
     ce_status := fs_status response |}.

(** What a method makes of the response.
    Source: packages/sdk/src/client.ts:262-272 [OttiliClient.request, response]. *)
Definition response_value (response : FetchResponse) : result OttiliClientError JsonValue :=
  match fs_body response with
  | Some body =>
      if negb (fs_ok response) || negb (isApiResult body) || negb (result_ok body)
      then Throw (response_error response)
      else Ok (json_field body "value" ?? jnull)
  | None => Throw (response_error response)
  end.

(** Source: packages/sdk/src/client.ts:286-293 [OttiliClient.headers]. *)
Definition headers (client : OttiliClient) (extra : list (string * string)) : list (string * string) :=
  extra ++ match oc_token client with
           | None => []
           | Some token => [("authorization", "Bearer " +:+ token)]
           end.

(** Source: packages/sdk/src/client.ts:245-261 [OttiliClient.request, fetch]. *)
Definition api_request (client : OttiliClient) (path : string) (method : option string)
  (extra : list (string * string)) (body : option JsonValue) : FetchRequest :=
  {| fr_url := oc_baseUrl client +:+ path;
     fr_method := method ?? "GET";
     fr_headers := headers client
       (match body with None => extra | Some _ => ("content-type", "application/json") :: extra end);
     fr_body := body |}.

(** ** The methods *)

Section Methods.
(** [encodeURIComponent], and [URLSearchParams.toString()]. *)
Context (encodeURIComponent : string -> string) (query_text : list (string * string) -> string).
Context (client : OttiliClient).

Definition run_path (runId tail : string) : string :=
  "/v1/runs/" +:+ encodeURIComponent runId +:+ tail.

(** Source: packages/sdk/src/client.ts:55-57 [OttiliClient.health]. *)
Definition health_request : FetchRequest := api_request client "/v1/health" None [] None.
(** Source: packages/sdk/src/client.ts:59-61 [OttiliClient.ready]. *)
Definition ready_request : FetchRequest := api_request client "/v1/ready" None [] None.
(** Source: packages/sdk/src/client.ts:63-65 [OttiliClient.version]. *)
Definition version_request : FetchRequest := api_request client "/v1/version" None [] None.

(** Source: packages/sdk/src/client.ts:71-79 [OttiliClient.shutdown]. *)
Definition shutdown_request (instanceId : string) (reason : option string) : FetchRequest :=
  api_request client "/v1/daemon/shutdown" (Some "POST") []
    (Some (jobj (("instanceId", jstr instanceId) :: jopt "reason" (jstr <$> reason)))).

(** Source: packages/sdk/src/client.ts:81-88 [OttiliClient.createRun]. *)
Definition createRun_request (request : JsonValue) : FetchRequest :=
  api_request client "/v1/runs" (Some "POST") [] (Some request).

(** Source: packages/sdk/src/client.ts:90-99 [OttiliClient.listRuns]. *)
Definition listRuns_request (limit : option Z) (status : option string) : FetchRequest :=
  let query := match status with None => [] | Some status => [("status", status)] end ++
               match limit with None => [] | Some limit => [("limit", decimal limit)] end in
  api_request client
    ("/v1/runs" +:+ match query with [] => "" | _ => "?" +:+ query_text query end) None [] None.

(** Source: packages/sdk/src/client.ts:101-108 [OttiliClient.getRun]. *)
Definition getRun_request (runId : string) : FetchRequest :=
  api_request client (run_path runId "") None [] None.

(** Source: packages/protocol/src/contracts.ts:537-540 [RunCommandRequest]. *)
Definition command_fields (command : DurableRunCommand) (reason : option string)
  : list (string * JsonValue) :=
  ("command", jstr (DurableRunCommand_str command)) :: jopt "reason" (jstr <$> reason).

(** Source: packages/sdk/src/client.ts:110-123 [OttiliClient.command]. *)
Definition command_request (runId : string) (command : DurableRunCommand) (reason : option string)
  (idempotencyKey : string) : FetchRequest :=
  api_request client (run_path runId "/commands") (Some "POST")
    [("idempotency-key", idempotencyKey)]
    (Some (jobj (command_fields command reason))).

(** Source: packages/sdk/src/client.ts:125-136 [OttiliClient.steer]. *)
Definition steer_request (runId : string) (input : SteeringInputRequest) : FetchRequest :=
  api_request client (run_path runId "/steering") (Some "POST") []
    (Some (jobj (("text", jstr (sir_text input)) ::
                 jopt "targetGoalId" (jstr <$> sir_targetGoalId input) ++
                 jopt "targetAgentId" (jstr <$> sir_targetAgentId input)))).

(** Source: packages/sdk/src/client.ts:138-144 [OttiliClient.agents]. *)
Definition agents_request (runId : string) : FetchRequest :=
  api_request client (run_path runId "/agents") None [] None.

(** Source: packages/sdk/src/client.ts:146-154 [OttiliClient.agentEvents]. *)
Definition agentEvents_request (runId agentId : string) (after : Z) : FetchRequest :=
  api_request client (run_path runId ("/agents/" +:+ encodeURIComponent agentId +:+
    "/events?after=" +:+ decimal after)) None [] None.

(** Source: packages/sdk/src/client.ts:156-160 [OttiliClient.checkpoints]. *)
Definition checkpoints_request (runId : string) : FetchRequest :=
  api_request client (run_path runId "/checkpoints") None [] None.

(** Source: packages/sdk/src/client.ts:163-171 [OttiliClient.restoreCheckpoint]. *)
Definition restoreCheckpoint_request (runId checkpointId : string) : FetchRequest :=
  api_request client (run_path runId ("/checkpoints/" +:+ encodeURIComponent checkpointId +:+
    "/restore")) (Some "POST") [] None.

(** Source: packages/sdk/src/client.ts:173-177 [OttiliClient.approvals]. *)
Definition approvals_request (runId : string) : FetchRequest :=
  api_request client (run_path runId "/approvals") None [] None.

(** Source: packages/sdk/src/client.ts:179-188 [OttiliClient.resolveApproval]. *)
Definition resolveApproval_request (runId approvalId resolverId : string) (approved : bool)
  : FetchRequest :=
  api_request client (run_path runId ("/approvals/" +:+ encodeURIComponent approvalId)) (Some "POST")
    [] (Some (jobj [("resolverId", jstr resolverId);
                    ("status", jstr (if approved then "approved" else "rejected"))])).

(** Source: packages/sdk/src/client.ts:190-197 [OttiliClient.events]. *)
Definition events_request (runId : string) (after : Z) : FetchRequest :=
  api_request client (run_path runId ("/events?after=" +:+ decimal after)) None [] None.

(** Source: packages/sdk/src/client.ts:199-215 [OttiliClient.streamEvents, fetch]. *)
Definition stream_request (runId : string) (after : Z) : FetchRequest :=
  {| fr_url := oc_baseUrl client +:+
       run_path runId ("/events/stream?after=" +:+ decimal after);
     fr_method := "GET";
     fr_headers := headers client
       [("Accept", "text/event-stream"); ("last-event-id", decimal after)];
     fr_body := None |}.
End Methods.

(** ** Reading a stream *)

Definition newline_unit : ascii := ascii_of_nat 10.

(** [text.split("\n")] *)
Fixpoint split_lines (l : list ascii) : list (list ascii) :=
  match l with
  | [] => [[]]
  | c :: l =>
      if c === newline_unit then [] :: split_lines l
      else match split_lines l with [] => [[c]] | line :: lines => (c :: line) :: lines end
  end.

(** [text.split("\n\n")], with its last part apart. *)
Fixpoint split_frames (l : list ascii) : list (list ascii) * list ascii :=
  match l with
  | [] => ([], [])
  | c :: l =>
      let cut := match l with
                 | d :: l => if (c === newline_unit) && (d === newline_unit)
                             then Some (split_frames l) else None
                 | [] => None
                 end in
      match cut with
      | Some (frames, rest) => ([] :: frames, rest)
      | None =>
          match split_frames l with
          | ([], rest) => ([], c :: rest)
          | (first :: frames, rest) => ((c :: first) :: frames, rest)
          end
      end
  end.

(** A response without success or body is thrown.
    Source: packages/sdk/src/client.ts:217-223 [OttiliClient.streamEvents, response]. *)
Definition open_events (response : FetchResponse) (has_body : bool) : result OttiliClientError unit :=
  if negb (fs_ok response) || negb has_body then Throw (response_error response) else mret tt.

Section Reading.
Context (JSON_parse : string -> option JsonValue).

(** [line.startsWith("data:")] and what follows it, trimmed at the start. *)
Definition data_line (line : list ascii) : option string :=
  if startsWith (of_units line) "data:"
  then Some (of_units (drop_space (skipn 5 line))) else None.

(** Source: packages/sdk/src/client.ts:296-312 [parseSseFrame]. *)
Definition parseSseFrame (frame : list ascii) : result fault (option JsonValue) :=
  let data := join (of_units [newline_unit]) (omap data_line (split_lines frame)) in
  if data === "" then mret None
  else
    match JSON_parse data with
    | None => thrown "SyntaxError"
    | Some parsed =>
        match json_field parsed "sequence", json_field parsed "type" with
        | Some (jnum _), Some (jstr _) => mret (Some parsed)
        | _, _ => thrown "Daemon emitted an invalid SSE Run event."
        end
    end.

(** The events of the frames, up to the first that cannot be read.
    Source: packages/sdk/src/client.ts:232-235 [OttiliClient.streamEvents, frames]. *)
Fixpoint read_frames (frames : list (list ascii)) : list JsonValue * result fault unit :=
  match frames with
  | [] => ([], mret tt)
  | frame :: frames =>
      match parseSseFrame frame with
      | Throw e => ([], Throw e)
      | Ok event =>
          let '(events, outcome) := read_frames frames in
          (match event with Some event => event :: events | None => events end, outcome)
      end
  end.

(** What the generator yields for the decoded chunks of the body, and how it ends.
    Source: packages/sdk/src/client.ts:224-238 [OttiliClient.streamEvents, reading]. *)
Fixpoint read_stream (buffered : list ascii) (chunks : list (list ascii))
  : list JsonValue * result fault unit :=
  match chunks with
  | [] => read_frames [buffered]
  | chunk :: chunks =>
      let '(frames, buffered) := split_frames (buffered ++ chunk) in
      match read_frames frames with
      | (events, Throw e) => (events, Throw e)
      | (events, Ok _) =>
          let '(later, outcome) := read_stream buffered chunks in (events ++ later, outcome)
      end
  end.
End Reading.

(** ** Between client and server *)

(** [headers[name]] of what was sent. *)
Definition header (request : FetchRequest) (name : string) : option string :=
  snd <$> find (fun h => h.1 === name) (fr_headers request).

(** The request as the server receives it. *)
Record arrives (client : OttiliClient) (request : FetchRequest) (m : IncomingMessage) : Prop := {
  ar_url : exists path, fr_url request = oc_baseUrl client +:+ path /\ im_url m = Some path;
  ar_method : im_method m = Some (fr_method request);
  ar_authorization : im_authorization m = header request "authorization";
  ar_key : im_idempotency_key m = param (header request "idempotency-key");
  ar_body : join "" (im_chunks m) =
    match fr_body request with Some body => JSON_stringify body | None => "" end;
  ar_complete : im_failure m = None }.

(** What [fetch] makes of the response that is written.
    Source: packages/server/src/server.ts:582-608 [OttiliDaemonServer.respond, respondError]. *)
Definition sent_back (value_json : ResponseValue -> JsonValue) (response : Response) : FetchResponse :=
  match response with
  | Answer status value | AnswerThenStop status value _ =>
      {| fs_ok := (200 <=? status) && (status <=? 299); fs_status := status;
         fs_body := Some (jobj [("ok", jbool true); ("value", value_json value)]) |}
  | Refuse status code message retryable =>
      {| fs_ok := (200 <=? status) && (status <=? 299); fs_status := status;
         fs_body := Some (jobj [("error", jobj [("code", jstr code); ("message", jstr message);
                                                ("retryable", jbool retryable)]);
                                ("ok", jbool false)]) |}
  | Stream _ _ => {| fs_ok := true; fs_status := 200; fs_body := None |}
  end.

(** The segment of a run in the path of a request.  It travels when percent-coding
    is undone on the other side and the URL parser keeps the path: a run whose id
    is "." or ".." does not. *)
Record travels (parse_url : string -> option URL) (encode : string -> string)
  (decode : string -> option string) (runId : string) : Prop := {
  tr_decode : decode (encode runId) = Some runId;
  tr_segment : encode runId <> "" /\ "/"%char ∉ units (encode runId);
  tr_plain : decode "commands" = Some "commands";
  tr_path : exists url, parse_url (run_path encode runId "/commands") = Some url /\
    url_pathname url = run_path encode runId "/commands" }.
