(* ===== verification/ClientFacts.v ===== *)
(** The client and the server together: packages/sdk/src/client.ts over
    packages/server/src/server.ts.

    Whatever way the text of an event stream is chunked, the client reads the
    events that were written; a command of the client is executed by the store and
    its run or error comes back. *)

From Stdlib Require Import ZArith Lia Ascii String.
From stdpp Require Import base strings list relations.
From S2P Require Import Prelude JsNumber JsString JsCollections Protocol Json Ids StateMachine.
From S2P Require Import Policies Budget StoreData StoreMonad StoreCore StoreRuns StoreTasks.
From S2P Require Import StoreEffects StoreCommands StoreSafety StoreJournal.
From S2P Require Import JsDecimal Provider RuntimeWorld Server ServerFacts Client.

Open Scope string_scope.
Open Scope list_scope.
#[local] Open Scope Z_scope.

(** ** Cutting frames *)

(** A unit is put in front of the first part. *)
Definition prefixed (l : list ascii) (p : list (list ascii) * list ascii) : list (list ascii) * list ascii :=
  match p with
  | ([], rest) => ([], l ++ rest)
  | (first :: frames, rest) => ((l ++ first) :: frames, rest)
  end.

Definition ends_frame (c : ascii) (l : list ascii) : bool :=
  (c === newline_unit) && match l with d :: _ => d === newline_unit | [] => false end.

Lemma split_frames_keep c l : ends_frame c l = false ->
  split_frames (c :: l) = prefixed [c] (split_frames l).
Proof.
  unfold ends_frame. cbn [split_frames]. destruct l as [|d l].
  - intros _. by destruct (split_frames []) as [[|f fs] r].
  - intros ->. by destruct (split_frames (d :: l)) as [[|f fs] r].
Qed.

Lemma split_frames_cut l : split_frames (newline_unit :: newline_unit :: l) =
  ([] :: (split_frames l).1, (split_frames l).2).
Proof. cbn [split_frames]. by destruct (split_frames l). Qed.

Lemma ends_frame_true c l : ends_frame c l = true -> exists l', c :: l = newline_unit :: newline_unit :: l'.
Proof. unfold ends_frame. destruct l as [|d l]; intros H; bool_hyps; [done|]. subst. by eexists. Qed.

(** Without a cut everything is the rest. *)
Lemma split_frames_whole x r : split_frames x = ([], r) -> r = x.
Proof.
  revert r. induction x as [|c x IH]; intros r; [by intros [= <-]|].
  destruct (ends_frame c x) eqn:E.
  - apply ends_frame_true in E as [x' [= -> ->]]. by rewrite split_frames_cut.
  - rewrite split_frames_keep by done. destruct (split_frames x) as [[|f fs] r0]; [|done].
    cbn. intros [= <-]. f_equal. by apply IH.
Qed.

(** Cutting what has arrived, and later the rest with what arrives then, cuts
    the whole. *)
Lemma split_frames_app n : forall x y, (length x <= n)%nat ->
  split_frames (x ++ y) =
  ((split_frames x).1 ++ (split_frames ((split_frames x).2 ++ y)).1,
   (split_frames ((split_frames x).2 ++ y)).2).
Proof.
  induction n as [|n IH]; intros x y Hn.
  { destruct x; [|cbn in Hn; lia]. apply surjective_pairing. }
  destruct x as [|c x]; [apply surjective_pairing|].
  destruct (ends_frame c x) eqn:E.
  - apply ends_frame_true in E as [x' [= -> ->]]. cbn [app].
    rewrite !split_frames_cut, IH by (cbn in Hn; lia). done.
  - destruct (split_frames x) as [[|f fs] r] eqn:Ex.
    + apply split_frames_whole in Ex as Hr. subst r.
      rewrite (split_frames_keep c x), Ex by done.
      apply surjective_pairing.
    + cbn [app]. rewrite split_frames_keep.
      2: { unfold ends_frame in *. destruct x; [done|]. exact E. }
      rewrite IH by (cbn in Hn; lia). rewrite (split_frames_keep c x), Ex by done. done.
Qed.

(** A line, and a frame that is complete. *)
Definition line_ok (l : list ascii) : Prop := newline_unit ∉ l.

Lemma split_frames_line l x : line_ok l -> split_frames (l ++ x) = prefixed l (split_frames x).
Proof.
  induction l as [|c l IH]; intros Hl; [cbn [app]; by destruct (split_frames x) as [[|f fs] r]|].
  unfold line_ok in Hl. rewrite not_elem_of_cons in Hl. destruct Hl as [Hc Hl].
  cbn [app]. rewrite split_frames_keep.
  2: { unfold ends_frame. by rewrite bool_decide_eq_false_2 by congruence. }
  rewrite IH by done. by destruct (split_frames x) as [[|f fs] r].
Qed.

(** ** The text of a frame has no line breaks but its own *)

Lemma line_ok_app a b : line_ok a -> line_ok b -> line_ok (a ++ b).
Proof. unfold line_ok. rewrite elem_of_app. tauto. Qed.
Lemma line_ok_cons c l : c <> newline_unit -> line_ok l -> line_ok (c :: l).
Proof. unfold line_ok. rewrite elem_of_cons. intuition congruence. Qed.
Lemma line_ok_nil : line_ok [].
Proof. by apply not_elem_of_nil. Qed.

(** A closed text, by evaluation. *)
Lemma absent (c : ascii) (l : list ascii) : bool_decide (c ∈ l) = false -> c ∉ l.
Proof. by intros H%bool_decide_eq_false. Qed.
Lemma line_ok_dec l : bool_decide (newline_unit ∈ l) = false -> line_ok l.
Proof. apply absent. Qed.

Lemma escape_line c : line_ok (json_escape c).
Proof. apply line_ok_dec. by destruct c as [[] [] [] [] [] [] [] []]. Qed.

Lemma quote_line l : line_ok (quote_units l).
Proof.
  unfold quote_units. apply line_ok_cons; [by intros [=]|]. apply line_ok_app.
  - induction l as [|c l IH]; [apply line_ok_nil|]. apply line_ok_app; [apply escape_line|done].
  - by apply line_ok_dec.
Qed.

(** The units of a number's text. *)
Definition number_unit (c : N) : Prop := (10 < c < 128)%N.

Lemma digits_units fuel n : Forall number_unit (digits fuel n).
Proof.
  revert n. induction fuel as [|fuel IH]; intros n; [constructor|]. cbn [digits].
  destruct (Z.ltb_spec n 10).
  - constructor; [unfold number_unit, digit_unit; lia|constructor].
  - apply Forall_app. split; [apply IH|]. constructor; [|constructor].
    unfold number_unit, digit_unit. pose proof (Z.mod_pos_bound n 10). lia.
Qed.

Lemma exponent_units d x : Forall number_unit d -> Forall number_unit (exponent_text d x).
Proof.
  intros Hd. unfold exponent_text, decimal_text. repeat (apply Forall_app; split).
  - by apply Forall_take.
  - pose proof (Forall_drop _ 1 _ Hd). destruct (drop 1 d); [constructor|]. by constructor.
  - constructor; [done|]. constructor; [by destruct (_ <? _)|]. apply digits_units.
Qed.

Lemma positive_units z : Forall number_unit (positive_text z).
Proof.
  unfold positive_text. destruct (shortest_digits z) as [s e]. cbv zeta.
  assert (Forall number_unit (decimal_text s)) as Hd by apply digits_units.
  assert (forall n, Forall number_unit (repeat 48%N n)) as Hz.
  { intros n. induction n; constructor; done. }
  repeat case_match.
  - by apply Forall_app.
  - apply Forall_app. split; [by apply Forall_take|]. constructor; [done|]. by apply Forall_drop.
  - constructor; [done|]. constructor; [done|]. by apply Forall_app.
  - by apply exponent_units.
Qed.

Lemma num_string_line n : line_ok (units (num_string n)).
Proof.
  unfold num_string. rewrite units_of_units.
  assert (Forall number_unit (String_number (plain n))) as Hu.
  { unfold String_number, number_text. cbn [num_of]. destruct n as [| | |z]; [by repeat constructor..|].
    destruct (z =? 0); [by repeat constructor|]. destruct (z <? 0); [|apply positive_units].
    constructor; [done|apply positive_units]. }
  unfold line_ok. intros (c & Hc & Hin)%list_elem_of_fmap.
  rewrite Forall_forall in Hu. specialize (Hu c Hin). unfold number_unit in Hu.
  apply (f_equal nat_of_ascii) in Hc. unfold newline_unit in Hc.
  rewrite !nat_ascii_embedding in Hc by lia. lia.
Qed.

Lemma join_line parts : Forall line_ok parts -> line_ok (join_units parts).
Proof.
  destruct parts as [|p parts]; intros Hp; [apply line_ok_nil|].
  apply Forall_cons in Hp as [Hp Hrest]. apply line_ok_app; [done|].
  induction Hrest as [|q parts Hq _ IH]; [apply line_ok_nil|]. cbn [map concat].
  apply line_ok_app; [|done]. by apply line_ok_cons; [intros [=]|].
Qed.

Lemma print_line value : line_ok (print_json json_number value).
Proof.
  induction value as [|b|n|s|items IH|fields IH] using JsonValue_nested_ind; cbn [print_json].
  - by apply line_ok_dec.
  - by destruct b; apply line_ok_dec.
  - unfold json_number. destruct (isFinite n); [apply num_string_line|by apply line_ok_dec].
  - apply quote_line.
  - apply line_ok_cons; [by intros [=]|]. apply line_ok_app; [|by apply line_ok_dec].
    apply join_line. by apply Forall_map.
  - apply line_ok_cons; [by intros [=]|]. apply line_ok_app; [|by apply line_ok_dec].
    apply join_line. rewrite Forall_map. eapply Forall_impl; [exact IH|]. intros [k x] Hx. cbn [snd] in Hx.
    unfold print_field. cbn [fst snd]. apply line_ok_app; [apply quote_line|]. by apply line_ok_cons; [intros [=]|].
Qed.

Lemma decimal_line z : line_ok (units (decimal z)).
Proof.
  destruct (JsString.decimal_units z) as [_ Hd]. rewrite forallb_forall in Hd. intros Hin%list_elem_of_In.
  by apply Hd in Hin.
Qed.

Lemma type_line type : line_ok (units (RunEventType_str type)).
Proof. apply line_ok_dec. by destruct type. Qed.

(** ** A stream is read back *)

Lemma split_frames_line_break l c m : line_ok l -> c <> newline_unit ->
  split_frames (l ++ newline_unit :: c :: m) = prefixed (l ++ [newline_unit]) (split_frames (c :: m)).
Proof.
  intros Hl Hc. rewrite split_frames_line by done. rewrite split_frames_keep.
  2: { unfold ends_frame. by rewrite (bool_decide_eq_false_2 (c = newline_unit)), andb_false_r. }
  destruct (split_frames (c :: m)) as [[|f fs] r]; cbn; by rewrite <- app_assoc.
Qed.

Lemma split_lines_line l : line_ok l -> split_lines l = [l].
Proof.
  induction l as [|c l IH]; intros Hl; [done|]. unfold line_ok in Hl.
  rewrite not_elem_of_cons in Hl. destruct Hl as [Hc Hl]. cbn [split_lines].
  rewrite bool_decide_eq_false_2 by congruence. by rewrite IH.
Qed.

Lemma split_lines_break l m : line_ok l -> split_lines (l ++ newline_unit :: m) = l :: split_lines m.
Proof.
  induction l as [|c l IH]; intros Hl; [done|]. unfold line_ok in Hl.
  rewrite not_elem_of_cons in Hl. destruct Hl as [Hc Hl]. cbn [split_lines app].
  rewrite bool_decide_eq_false_2 by congruence. by rewrite IH.
Qed.

Section Wire.
Context (iso : Z -> string).

(** A frame without the line breaks that end it. *)
Definition frame_body (f : frame) : list ascii :=
  match f with
  | event_frame event =>
      (units "id: " ++ units (decimal (ee_seq event))) ++ newline_unit ::
      (units "event: " ++ units (RunEventType_str (ee_type event))) ++ newline_unit ::
      units "data: " ++ print_json json_number (event_json iso event)
  | keepalive_frame => units ": keepalive"
  end.

Lemma frame_text_body f : units (frame_text iso f) = frame_body f ++ [newline_unit; newline_unit].
Proof.
  destruct f as [event|]; [|done]. cbn [frame_text frame_body].
  rewrite !units_app. unfold newline, JSON_stringify. rewrite !units_of_units.
  repeat (rewrite <- app_assoc; cbn [app]). done.
Qed.

Lemma frame_complete f :
  split_frames (frame_body f ++ [newline_unit; newline_unit]) = ([frame_body f], []).
Proof.
  destruct f as [event|]; [|reflexivity]. cbn [frame_body].
  assert (forall l, line_ok (units l) -> forall m, line_ok m -> line_ok (units l ++ m)) as Hl
    by (intros; by apply line_ok_app).
  set (id := units "id: " ++ _). set (type := units "event: " ++ _). set (data := units "data: " ++ _).
  assert (line_ok id) as Hid by (apply Hl; [by apply line_ok_dec|apply decimal_line]).
  assert (line_ok type) as Htype by (apply Hl; [by apply line_ok_dec|apply type_line]).
  assert (line_ok data) as Hdata by (apply Hl; [by apply line_ok_dec|apply print_line]).
  repeat (rewrite <- app_assoc; cbn [app]).
  change (type ++ ?m) with ("e"%char :: drop 1 type ++ m). rewrite split_frames_line_break by done.
  change ("e"%char :: drop 1 type ++ ?m) with (type ++ m).
  change (data ++ ?m) with ("d"%char :: drop 1 data ++ m). rewrite split_frames_line_break by done.
  change ("d"%char :: drop 1 data ++ ?m) with (data ++ m).
  rewrite split_frames_line by done. rewrite split_frames_cut. cbn [split_frames fst snd prefixed].
  rewrite app_nil_r. by repeat (rewrite <- app_assoc; cbn [app]).
Qed.

Definition wire (written : list frame) : list ascii :=
  concat (map (fun f => units (frame_text iso f)) written).

Lemma wire_frames written : split_frames (wire written) = (map frame_body written, []).
Proof.
  induction written as [|f written IH]; [done|]. cbn [wire map concat]. fold (wire written).
  rewrite frame_text_body, (split_frames_app _ _ _ (reflexivity _)), frame_complete.
  cbn [fst snd app]. by rewrite IH.
Qed.

Section Reads.
Context (JSON_parse : string -> option JsonValue).

(** The event's text is read back by [JSON.parse]. *)
Definition reads_back (event : EventRow) : Prop :=
  JSON_parse (JSON_stringify (event_json iso event)) = Some (event_json iso event).

Definition frame_event (f : frame) : option JsonValue :=
  match f with event_frame event => Some (event_json iso event) | keepalive_frame => None end.

Lemma parse_frame f : (forall event, f = event_frame event -> reads_back event) ->
  parseSseFrame JSON_parse (frame_body f) = Ok (frame_event f).
Proof.
  destruct f as [event|]; [|reflexivity]. intros Hr. specialize (Hr event eq_refl).
  unfold parseSseFrame. cbn [frame_body].
  rewrite split_lines_break by (apply line_ok_app; [by apply line_ok_dec|apply decimal_line]).
  rewrite split_lines_break by (apply line_ok_app; [by apply line_ok_dec|apply type_line]).
  rewrite split_lines_line by (apply line_ok_app; [by apply line_ok_dec|apply print_line]).
  assert (omap data_line
    [units "id: " ++ units (decimal (ee_seq event));
     units "event: " ++ units (RunEventType_str (ee_type event));
     units "data: " ++ print_json json_number (event_json iso event)] =
    [JSON_stringify (event_json iso event)]) as -> by reflexivity.
  cbn [join]. rewrite bool_decide_eq_false_2 by done.
  rewrite Hr. reflexivity.
Qed.

Lemma read_frames_app fs fs' es : Forall2 (fun f e => parseSseFrame JSON_parse f = Ok e) fs es ->
  read_frames JSON_parse (fs ++ fs') =
  (omap id es ++ (read_frames JSON_parse fs').1, (read_frames JSON_parse fs').2).
Proof.
  induction 1 as [|f e fs es Hf _ IH]; [apply surjective_pairing|].
  cbn [app read_frames]. rewrite Hf, IH. by destruct e.
Qed.

(** The rest of a cut has no frame in it. *)
Lemma split_frames_rest x : split_frames (split_frames x).2 = ([], (split_frames x).2).
Proof.
  pose proof (split_frames_app _ x [] (reflexivity _)) as H. rewrite !app_nil_r in H.
  destruct (split_frames x) as [fs r]. cbn [fst snd] in *. injection H as Hfs Hr.
  destruct (split_frames r) as [fs' r']. cbn [fst snd] in *. subst r'. f_equal.
  apply (f_equal length) in Hfs. rewrite length_app in Hfs. destruct fs'; [done|cbn in Hfs; lia].
Qed.

(** However the text is chunked, what is read is what its frames hold. *)
Lemma read_stream_ok chunks : forall buffered es,
  split_frames buffered = ([], buffered) ->
  Forall2 (fun f e => parseSseFrame JSON_parse f = Ok e)
    ((split_frames (buffered ++ concat chunks)).1 ++ [(split_frames (buffered ++ concat chunks)).2]) es ->
  read_stream JSON_parse buffered chunks = (omap id es, Ok tt).
Proof.
  induction chunks as [|chunk chunks IH]; intros buffered es Hb Hes.
  - cbn [concat] in Hes. rewrite app_nil_r, Hb in Hes. cbn [fst snd app] in Hes.
    pose proof (read_frames_app [buffered] [] es Hes) as Hread. cbn [app] in Hread.
    cbn [read_stream]. rewrite Hread. cbn [read_frames fst snd]. by rewrite app_nil_r.
  - cbn [concat] in Hes. rewrite app_assoc, (split_frames_app _ _ _ (reflexivity _)) in Hes.
    cbn [fst snd] in Hes. rewrite <- app_assoc in Hes.
    apply Forall2_app_inv_l in Hes as (es1 & es2 & H1 & H2 & ->). cbn [read_stream].
    pose proof (split_frames_rest (buffered ++ chunk)) as Hrest.
    destruct (split_frames (buffered ++ chunk)) as [fs r]. cbn [fst snd] in *.
    pose proof (read_frames_app fs [] es1 H1) as Hread. rewrite app_nil_r in Hread. rewrite Hread.
    cbn [read_frames fst snd]. rewrite app_nil_r, (IH r es2 Hrest H2). by rewrite omap_app.
Qed.

Lemma omap_frame_event written : omap id (map frame_event written ++ [None]) =
  map (event_json iso) (delivered written).
Proof.
  rewrite omap_app. cbn. rewrite app_nil_r. induction written as [|[event|] written IH]; [done| |done].
  cbn. by f_equal.
Qed.

Lemma read_written written chunks : concat chunks = wire written ->
  Forall reads_back (delivered written) ->
  read_stream JSON_parse [] chunks = (map (event_json iso) (delivered written), Ok tt).
Proof.
  intros Hc Hr. rewrite <- omap_frame_event. apply read_stream_ok; [done|].
  cbn [app]. rewrite Hc, wire_frames. cbn [fst snd]. apply Forall2_app.
  - rewrite Forall_forall in Hr. clear Hc. induction written as [|f written IH]; constructor.
    + apply parse_frame. intros event ->. apply Hr. apply list_elem_of_here.
    + apply IH. intros event He. apply Hr. destruct f; [|done]. by apply list_elem_of_further.
  - by constructor.
Qed.
End Reads.
End Wire.

(** ** From the store to the client *)

Section Delivery.
Context `{Env}.

(** C30: the client receives every event exactly once, in order.  Whatever
    commands run while a stream is open, whenever it is polled, kept alive and
    closed, and however the text that was written to it is cut into chunks on its
    way, the client's generator yields, without an error, exactly the events
    numbered [after + 1] to the position of the stream, in order; followed by
    what the journal lists after that position, where a reconnecting client goes
    on, they are all the events of the run after [after]. *)
Theorem events_reach_client iso JSON_parse runId after s s1 opened s' stream chunks :
  0 <= after -> journal_ok (db s) -> streamEvents runId after s = (s1, Ok opened) ->
  rtc stream_step (s1, opened) (s', stream) ->
  concat chunks = wire iso (es_written stream) ->
  Forall (reads_back iso JSON_parse) (delivered (es_written stream)) ->
  exists events rest,
    read_stream JSON_parse [] chunks = (map (event_json iso) events, Ok tt) /\
    map ee_seq events = seqZ (after + 1) (es_sequence stream - after) /\
    listEvents runId (es_sequence stream) s' = (s', Ok rest) /\
    listEvents runId after s' = (s', Ok (events ++ rest)).
Proof.
  intros Ha Hj Ho Hsteps Hc Hr.
  destruct (event_stream_exactly_once runId after Ha s s1 opened s' stream Hj Ho Hsteps)
    as (Hn & (rest & Hrest & Hall) & _).
  exists (delivered (es_written stream)), rest. split; [|done]. by apply read_written.
Qed.
End Delivery.

(** ** A command from the client to the store and back *)

(** A refusal is the error the client throws. *)
Lemma client_reads_refusal value_json status code message retryable :
  response_value (sent_back value_json (Refuse status code message retryable)) =
  Throw {| ce_code := jstr code; ce_message := jstr message; ce_retryable := jbool retryable;
           ce_status := status |}.
Proof.
  unfold response_value. cbn [sent_back fs_body]. cbv zeta.
  destruct (negb _ || _ || _) eqn:E; [done|]. unfold result_ok in E. cbn in E.
  by rewrite orb_true_r in E.
Qed.

Lemma client_reads_answer value_json status value : 200 <= status <= 299 ->
  response_value (sent_back value_json (Answer status value)) = Ok (value_json value).
Proof.
  intros Hs. unfold response_value. cbn [sent_back fs_body fs_ok].
  by rewrite (proj2 (Z.leb_le 200 status)), (proj2 (Z.leb_le status 299)) by lia.
Qed.

(** *** Paths *)

Definition slash : ascii := "/"%char.

Lemma split_slashes_segment l m acc : slash ∉ l ->
  split_slashes (l ++ slash :: m) acc = of_units (rev acc ++ l) :: split_slashes m [].
Proof.
  revert acc. induction l as [|c l IH]; intros acc Hl; [cbn; by rewrite app_nil_r|].
  rewrite not_elem_of_cons in Hl. destruct Hl as [Hc Hl]. cbn [app split_slashes].
  rewrite bool_decide_eq_false_2 by (intros ->; by apply Hc).
  rewrite IH by done. cbn [rev]. by rewrite <- app_assoc.
Qed.

(** *** Bodies *)

Lemma string_length_app a b : string_length (a +:+ b) = string_length a + string_length b.
Proof.
  unfold string_length. induction a as [|c a IH]; [done|].
  change (String.length (String c a +:+ b)) with (S (String.length (a +:+ b))).
  cbn [String.length]. lia.
Qed.

Lemma join_chunks chunk chunks : join "" (chunk :: chunks) = chunk +:+ join "" chunks.
Proof.
  destruct chunks; [|done]. induction chunk as [|c chunk IH]; [done|].
  change (String c chunk = String c (chunk +:+ "")). f_equal. exact IH.
Qed.

(** A body within the limit is received whole. *)
Lemma receive_all chunks : forall size,
  size + string_length (join "" chunks) <= maximumRequestBytes ->
  receive size chunks None = Ok (size + string_length (join "" chunks)).
Proof.
  induction chunks as [|chunk chunks IH]; intros size; [intros _; cbn; by rewrite Z.add_0_r|].
  rewrite join_chunks, string_length_app. intros Hs.
  assert (0 <= string_length (join "" chunks)) by (unfold string_length; lia).
  cbn [receive]. cbv zeta. rewrite (proj2 (Z.ltb_ge _ _)) by lia.
  rewrite IH by lia. f_equal. lia.
Qed.

Lemma readObject_all JSON_parse m fields :
  im_failure m = None -> 0 < string_length (join "" (im_chunks m)) <= maximumRequestBytes ->
  JSON_parse (join "" (im_chunks m)) = Some (jobj fields) ->
  readObject JSON_parse m = Ok (jobj fields).
Proof.
  intros Hf Hs Hp. unfold readObject. rewrite Hf, receive_all by lia. cbn [mbind result_bind].
  rewrite (proj2 (Z.eqb_neq _ _)) by lia. cbn [throw_if mbind result_bind]. by rewrite Hp.
Qed.

(** The body of a command is what the server parses. *)
Lemma parse_command_fields command reason :
  parseRunCommand (jobj (command_fields command reason)) = Ok (command, reason).
Proof. by destruct command, reason. Qed.

Lemma command_route encode decode runId :
  decode (encode runId) = Some runId -> encode runId <> "" -> slash ∉ units (encode runId) ->
  decode "commands" = Some "commands" ->
  splitRunRoute decode (run_path encode runId "/commands") = Ok (Some (runId, ["commands"])).
Proof.
  intros Hd He Hs Hc. unfold splitRunRoute, run_path.
  assert (units ("/v1/runs/" +:+ encode runId +:+ "/commands") =
    [] ++ slash :: units "v1" ++ slash :: units "runs" ++ slash ::
    units (encode runId) ++ slash :: units "commands") as -> by (by rewrite !units_app).
  rewrite !split_slashes_segment by (first [done|by apply absent]).
  cbn [rev app]. rewrite !of_units_units.
  change (split_slashes (units "commands") []) with ["commands"].
  assert (List.filter (fun segment => segment !== "")
    [of_units []; "v1"; "runs"; encode runId; "commands"] = ["v1"; "runs"; encode runId; "commands"]) as ->.
  { cbn [List.filter]. by rewrite (bool_decide_eq_false_2 (encode runId = "")). }
  change (("v1" === "v1") && ("runs" === "runs")) with true. cbv iota.
  cbn [mapM]. unfold decode_segment. rewrite Hd, Hc. reflexivity.
Qed.

Lemma append_inj a b c : a +:+ b = a +:+ c -> b = c.
Proof. induction a as [|x a IH]; [done|]. intros [= H]. by apply IH. Qed.

Section Commands.
Context `{Env} {Outside : Type}.
#[local] Abbreviation W := (World Outside).
Context (parse_url : string -> option URL) (decodeURIComponent : string -> option string).
Context (JSON_parse : string -> option JsonValue) (Number : string -> num).
Context (driver_message : string -> string) (crypto_randomUUID : IO W string).
Context (as_budget : JsonValue -> RunBudget) (as_permissions : JsonValue -> PermissionPolicy).
Context (as_sandbox : JsonValue -> SandboxPolicy).
Context (encodeURIComponent : string -> string) (value_json : ResponseValue -> JsonValue).

#[local] Abbreviation handle :=
  (handle parse_url decodeURIComponent JSON_parse Number driver_message crypto_randomUUID
     as_budget as_permissions as_sandbox).

(** What the caller of the client gets of an answer. *)
Definition client_result (answer : result fault Response) : option (result OttiliClientError JsonValue) :=
  match answer with Ok response => Some (response_value (sent_back value_json response)) | Throw _ => None end.

Lemma client_answered value : client_result (Ok (Answer 200 value)) = Some (Ok (value_json value)).
Proof. cbn [client_result]. by rewrite client_reads_answer by lia. Qed.

(** The token of the client is the server's. *)
Lemma client_authorized (server : @OttiliDaemonServer Outside) client runId command reason key m :
  oc_token client = ds_token server ->
  arrives client (command_request encodeURIComponent client runId command reason key) m ->
  authorized server m = true.
Proof.
  intros Ht [_ _ Ha _ _ _]. unfold authorized. rewrite <- Ht, Ha.
  unfold header, command_request, api_request, headers. cbn [fr_headers].
  destruct (oc_token client); [|done]. by apply bool_decide_eq_true_2.
Qed.

Lemma client_commands_request client runId command reason key m :
  travels parse_url encodeURIComponent decodeURIComponent runId ->
  arrives client (command_request encodeURIComponent client runId command reason key) m ->
  commands_request parse_url decodeURIComponent m runId key.
Proof.
  intros [Hd [He Hs] Hc (url & Hu & Hp)] [(path & Hurl & Hm) Hmethod _ Hk _ _]. split.
  - exact Hmethod.
  - exists url. rewrite Hm, Hp. split; [|by apply command_route].
    apply append_inj in Hurl. by rewrite <- Hurl.
  - rewrite Hk. unfold header, command_request, api_request, headers. cbn [fr_headers].
    by destruct (oc_token client).
Qed.

Lemma client_body client runId command reason key m :
  arrives client (command_request encodeURIComponent client runId command reason key) m ->
  JSON_parse (JSON_stringify (jobj (command_fields command reason))) =
    Some (jobj (command_fields command reason)) ->
  string_length (JSON_stringify (jobj (command_fields command reason))) <= maximumRequestBytes ->
  readObject JSON_parse m = Ok (jobj (command_fields command reason)).
Proof.
  intros [_ _ _ _ Hb Hf] Hp Hs. cbn [command_request api_request fr_body] in Hb.
  fold (command_fields command reason) in Hb.
  apply readObject_all; [done|rewrite Hb|by rewrite Hb]. split; [|done].
  unfold JSON_stringify, string_length. cbn [print_json app of_units string_of_list_ascii String.length]. lia.
Qed.

(** C31: A command of the client is executed by the store, or its error is thrown
    to the caller.  The conditions are: the request arrives as it was sent; the client
    carries the server's token; the run's id survives the encoding, the parsing of the URL and the decoding (an id
    such as .. does not); the body, which JSON.parse reads back, is at most a
    megabyte, so a longer reason is refused before the store sees it; and what the
    server is composed with leaves the store alone, its hook returning.  Then, when
    the client asks to pause, resume or cancel a run, the server finds the run, the
    command, the reason and the key in the request; if the store executes the command under that key, the caller
    gets the run it returned; if the store throws, nothing has changed and the
    caller gets an OttiliClientError with the message of the store's error; if
    there is no such run, nothing has changed and the caller gets a not_found
    error with status 404. *)
Theorem client_command_executes server client runId command reason key m w :
  oc_token client = ds_token server -> quiet_ports crypto_randomUUID server -> hook_returns server ->
  travels parse_url encodeURIComponent decodeURIComponent runId ->
  arrives client (command_request encodeURIComponent client runId command reason key) m ->
  JSON_parse (JSON_stringify (jobj (command_fields command reason))) =
    Some (jobj (command_fields command reason)) ->
  string_length (JSON_stringify (jobj (command_fields command reason))) <= maximumRequestBytes ->
  let '(w', answer) := handle server m w in
  if run_row runId (db w.1) then
    match executeCommand command key reason runId w.1 with
    | (s', Ok run) => w'.1 = s' /\ client_result answer = Some (Ok (value_json (v_run run)))
    | (s', Throw e) => w'.1 = s' /\ db s' = db w.1 /\
        exists status code retryable,
        client_result answer = Some (Throw
          {| ce_code := jstr code; ce_message := jstr (error_message driver_message e);
             ce_retryable := jbool retryable; ce_status := status |})
    end
  else w' = w /\ client_result answer = Some (Throw
    {| ce_code := jstr "not_found"; ce_message := jstr ("Run '" +:+ runId +:+ "' was not found.");
       ce_retryable := jbool false; ce_status := 404 |}).
Proof.
  intros Htok [_ Hquiet _] Hhook Htr Harr Hparse Hsize.
  pose proof (client_commands_request _ _ _ _ _ _ Htr Harr) as Hq.
  pose proof (client_authorized _ _ _ _ _ _ _ Htok Harr) as Ha.
  pose proof (client_body _ _ _ _ _ _ Harr Hparse Hsize) as Hb.
  unfold Server.handle, io_catch. erewrite commands_dispatch by eassumption.
  destruct (run_row runId (db w.1)) as [row|] eqn:Hrow.
  2: { split; [done|]. cbn [client_result]. by rewrite client_reads_refusal. }
  unfold post_command, command_key. rewrite (cq_key _ _ _ _ _ Hq). cbn [runFromRow run_id].
  rewrite (run_row_id _ _ _ Hrow). unfold mbind, IO_bind, io_lift. rewrite Hb, parse_command_fields.
  unfold mret, IO_ret, on_store.
  destruct (executeCommand command key reason runId w.1) as [s' [run|e]] eqn:Hexec; cbn [fst snd].
  - destruct (ds_onRunCommand server) as [hook|] eqn:Eh.
    2: { split; [done|apply client_answered]. }
    unfold io_when. destruct (_ || _).
    2: { split; [done|apply client_answered]. }
    destruct (Hhook hook Eh runId command (s', w.2)) as [w' Hw].
    pose proof (Hquiet hook eq_refl runId command (s', w.2)) as Hq'. rewrite Hw in Hq' |- *.
    split; [done|apply client_answered].
  - split; [done|]. split; [by eapply transaction_rolls_back|].
    unfold respondException. cbn [message_or].
    destruct e; cbn [client_result]; rewrite client_reads_refusal; by eexists _, _, _.
Qed.
End Commands.

(** ** A concrete client *)

(** A stream opened at the last event of a run, polled after a command, and its
    text in two chunks. *)
Definition demo_iso (at_ : Z) : string := "2026-01-01T00:00:00.000Z".
Definition demo_read : EventStream := result_or no_stream (streamEvents demo_run 3 demo_store).2.
Definition demo_polled : EventStream := result_or no_stream (publish demo_read demo_steered).2.
Definition demo_event_text : string :=
  join "" (map (fun event => JSON_stringify (event_json demo_iso event)) (delivered (es_written demo_polled))).
Definition demo_event_json : option JsonValue :=
  event_json demo_iso <$> head (delivered (es_written demo_polled)).
Definition demo_chunks : list (list ascii) :=
  [firstn 17 (wire demo_iso (es_written demo_polled)); skipn 17 (wire demo_iso (es_written demo_polled))].

Lemma demo_one_event : exists event, delivered (es_written demo_polled) = [event].
Proof. eexists. vm_compute. reflexivity. Qed.

Lemma events_reach_client_witness :
  es_sequence demo_polled = 4 /\
  exists events rest,
    read_stream (fun text => if text === demo_event_text then demo_event_json else None) [] demo_chunks =
      (map (event_json demo_iso) events, Ok tt) /\
    map ee_seq events = seqZ (3 + 1) (es_sequence demo_polled - 3) /\
    listEvents demo_run (es_sequence demo_polled) demo_steered = (demo_steered, Ok rest) /\
    listEvents demo_run 3 demo_steered = (demo_steered, Ok (events ++ rest)).
Proof.
  split; [vm_compute; reflexivity|].
  refine (events_reach_client demo_iso (fun text => if text === demo_event_text then demo_event_json else None)
    demo_run 3 demo_store demo_store demo_read demo_steered demo_polled demo_chunks _ _ _ _ _ _).
  - lia.
  - apply (steps_preserve _ empty_store); [intros; apply journal_command| |apply empty_journal_ok].
    apply after_commands_steps. by repeat constructor.
  - vm_compute. reflexivity.
  - eapply rtc_l; [apply step_command|apply rtc_once, step_poll].
    + by exists (c_recordSteeringInput demo_run None None "Go on").
    + vm_compute. reflexivity.
    + vm_compute. reflexivity.
  - unfold demo_chunks. cbn [concat]. rewrite app_nil_r. apply take_drop.
  - unfold reads_back, demo_event_text, demo_event_json. destruct demo_one_event as [event ->].
    constructor; [|constructor]. cbn [map join head fmap option_fmap option_map].
    by rewrite bool_decide_eq_true_2.
Defined.

Definition demo_client : OttiliClient := new_OttiliClient "http://daemon:4096/" (Some "secret").
Definition demo_command_request : FetchRequest :=
  command_request (fun id => id) demo_client demo_run cmd_pause (Some "Lunch") "key-1".
Definition demo_body : string := JSON_stringify (jobj (command_fields cmd_pause (Some "Lunch"))).
Definition demo_command : IncomingMessage :=
  demo_post (Some "Bearer secret") ("/v1/runs/" +:+ demo_run +:+ "/commands")
    ["{"; of_units (drop 1 (units demo_body))].
Definition demo_parse (text : string) : option JsonValue :=
  if text === demo_body then Some (jobj (command_fields cmd_pause (Some "Lunch"))) else None.
Definition demo_value_json (value : ResponseValue) : JsonValue :=
  match value with
  | v_run run => jobj [("run", jobj [("id", jstr (run_id run)); ("status", jstr (RunStatus_str (run_status run)))])]
  | _ => jnull
  end.
#[local] Abbreviation demo_handle := (Server.handle demo_url demo_decode demo_parse demo_number
  demo_driver demo_uuid demo_budget demo_permissions demo_sandbox).

Lemma demo_arrives : arrives demo_client demo_command_request demo_command.
Proof. split; [eexists; split; reflexivity|vm_compute; reflexivity..]. Qed.

Lemma demo_travels : travels demo_url (fun id => id) demo_decode demo_run.
Proof.
  split; [vm_compute; reflexivity| |reflexivity|].
  - split; [intros Hid; vm_compute in Hid; discriminate Hid|]. apply absent. vm_compute. reflexivity.
  - eexists. split; vm_compute; reflexivity.
Qed.

Lemma demo_executed : exists run,
  (executeCommand cmd_pause "key-1" (Some "Lunch") demo_run demo_store).2 = Ok run /\
  demo_value_json (v_run run) =
    jobj [("run", jobj [("id", jstr demo_run); ("status", jstr "paused")])].
Proof. eexists. split; vm_compute; reflexivity. Qed.

Lemma client_command_executes_witness :
  client_result demo_value_json (demo_handle demo_server demo_command (with_unit demo_store)).2 =
  Some (Ok (jobj [("run", jobj [("id", jstr demo_run); ("status", jstr "paused")])])).
Proof.
  pose proof (client_command_executes demo_url demo_decode demo_parse demo_number demo_driver demo_uuid
    demo_budget demo_permissions demo_sandbox (fun id => id) demo_value_json demo_server demo_client
    demo_run cmd_pause (Some "Lunch") "key-1" demo_command (with_unit demo_store) eq_refl demo_quiet
    demo_hook demo_travels demo_arrives) as Hall.
  destruct (Server.handle _ _ _ _ _ _ _ _ _ _ _ _) as [w' answer]. cbn [snd].
  rewrite with_unit_store in Hall.
  assert (exists row, run_row demo_run (db demo_store) = Some row) as [row Hrow]
    by (eexists; vm_compute; reflexivity).
  rewrite Hrow in Hall. destruct demo_executed as (run & Hrun & Hjson).
  destruct (executeCommand _ _ _ _ _) as [s' outcome]. cbn [snd] in Hrun. subst outcome.
  rewrite <- Hjson. apply Hall.
  - unfold demo_parse, demo_body. by rewrite bool_decide_eq_true_2.
  - vm_compute. discriminate.
Defined.
